(* ===== verification/_CoqProject ===== *)
-Q . S2P
Prelude.v
CString.v
Pmm.v
Fd.v
Pipe.v
Path.v
Tmpfs.v
Vfs.v
Blk.v
Lru.v
Ramdisk.v
Timer.v
Locks.v
Proc.v
Sched.v
Smp.v
Signal.v
Sem.v
Vmm.v
Cow.v
X86.v
Aspace.v
Elf.v
Process.v
Exec.v
Life.v
Kheap.v
Slab.v
Port.v
Disk.v
Fat.v
FatTab.v
FatVol.v
FatFile.v
FatIO.v
FatWrite.v
FatTrunc.v
FatProps.v
FatName.v
FatUtf.v
FatLfn.v
FatDir.v
FatScan.v
FatList.v
FatEnts.v
FatSlots.v
FatAdd.v
FatDel.v
FatTree.v
FatDirProps.v
FatNode.v
Qsort.v
Ulib.v
Regex.v
