(* ===== verification/Prelude.v ===== *)
(** * tach: a verification library for the kernel's core

    tach is a small operating system kernel in C (x86-64 first, with i686
    and other ports). This library models the parts that carry its own logic,
    as executable functions translated from the sources, and proves what makes
    them correct. Paths below are those of the repository.

    ** The program and how its parts meet

    Physical frames come from the frame allocator (src/mm/pmm.c). On top of it
    stand the page tables of the architecture (src/arch/x86_64/paging.c), the
    address spaces with copy on write and user copies (src/mm/vmm.c), and the
    kernel heap (src/mm/kheap.c) with its slab caches (src/mm/slab.c).
    Processes (src/proc/process.c) are chosen by the scheduler
    (src/proc/scheduler.c), interrupted by signals (src/proc/signal.c), wait on
    semaphores (src/ipc/sem.c) and timers (src/kernel/timer.c), and hold
    descriptor tables (src/proc/fd.c) whose entries are vnodes: ends of pipes
    (src/proc/pipe.c), files of the tmpfs (src/fs/tmpfs.c) and everything that
    the path layer finds (src/fs/vfs.c). Disks are reached through a write-back
    sector cache (src/drivers/block/blk.c) with a driver below it
    (src/drivers/block/ramdisk.c), and the FAT32 file system (src/fs/fat32.c)
    keeps its files on them. Every component serialises its operations
    with the locks of src/sync.

    ** Files

    - Prelude.v (this file): error numbers, machine integers, the byte
      memory, the tactics and hint databases, lemmas on lists and sums.
    - CString.v: src/lib/string.c.
    - Pmm.v: src/mm/pmm.c.
    - Fd.v, Pipe.v: src/proc/fd.c with its vnode hooks as the class
      [VnodeHooks], and src/proc/pipe.c, which is an instance of it.
    - Path.v, Tmpfs.v, Vfs.v: path normalisation, the tmpfs over the class
      [Krealloc], mounts, derived directories and opening.
    - Blk.v, Lru.v, Ramdisk.v: the sector cache over the class [BlockDriver],
      its LRU links at the level of pointers, the ramdisk as an instance of
      the class, and the theorems about the block layer.
    - Timer.v: src/kernel/timer.c, at the level of pointers.
    - Locks.v: src/sync, as machines of several processors.
    - Proc.v, Sched.v, Smp.v, Signal.v: definitions of the process table,
      scheduler and signals, then the correctness of each; Smp.v has the calls
      of the scheduler that overlap on several processors.
    - Sem.v: src/ipc/sem.c over the scheduler of Proc.v.
    - Vmm.v, Cow.v, Aspace.v: src/mm/vmm.c and src/kernel/userptr.c over the
      class [PagingOps]; the laws of page tables (class [Paging]) and the
      ownership invariant; views of address spaces, isolation and copies.
    - X86.v: src/arch/x86_64/paging.c and the tables of boot.S, an instance
      of [Paging].
    - Elf.v: src/proc/elf_loader.c.
    - Process.v, Exec.v, Life.v: src/proc/process.c over the scheduler, the
      descriptor tables, the address spaces and the loader; exec and wait;
      the states a system of processes reaches.
    - Kheap.v, Slab.v: src/mm/kheap.c over Pmm.v, src/mm/slab.c over the class
      [KernelHeap], which Kheap.v discharges.
    - Port.v: src/ipc/port.c.
    - Disk.v: the class [Disk] of what a file system asks of the block layer,
      with its laws [DiskOk]; the sector cache of Blk.v is an instance.
    - Fat.v, FatTab.v, FatVol.v: src/fs/fat32.c over [Disk]: the volume, its
      mount, the allocation table and its copies; the view of the table and
      its chains; allocation, and the theorem about mounting.
    - FatFile.v, FatIO.v, FatWrite.v, FatTrunc.v, FatProps.v: reading,
      writing and truncating files, and the theorems about them.
    - FatName.v, FatUtf.v, FatLfn.v: names in UTF-8 and UTF-16, 8.3 names and
      long-name entries; the codecs are inverse, the entries read back.
    - FatDir.v, FatScan.v, FatList.v, FatEnts.v, FatSlots.v, FatAdd.v,
      FatDel.v, FatTree.v, FatDirProps.v: directories; their scans as lists
      of entries, adding and deleting, paths, and the theorems about them.
    - FatNode.v: the table of open vnodes and the operations given to the VFS.
    - Ulib.v, Qsort.v, Regex.v: from the user library (user/libc), character
      classes and string searching, the sort and the regular expressions.

    A struct is a record with the fields of the source, a pointer into a
    static array is an index, NULL is [None] (or address 0 where the code does
    arithmetic on it), an operation is a function from the state to the state
    and its result, and an error is the negative number the code returns.
    Integers are [Z]; conversions that can wrap are written out with [u32],
    [u64] and [s32].

    ** Steps

    A section of code under a lock is one step. These components also have
    their steps apart where the code holds no lock, and the theorems quantify
    over what other processors do in between: the locks themselves, blocking
    reads and writes of pipes and waits for a child (what happens meanwhile is
    an argument), context switches (in two halves), the scheduler (Smp.v: the
    test before scheduler_add takes its locks, the processor scheduler_remove
    reads, the pick before the switch) and slab_alloc (Slab.v: the creation of
    a slab without the lock, down to the two accesses that link it). For the
    scheduler and the slabs the theorems also show what goes wrong there. The
    other components are modelled call by call: the process life cycle (fork,
    exec, wait and destroy, over whole calls of the scheduler), address
    spaces, descriptors, the block cache, the heap, the tmpfs, the VFS and
    FAT32; that two of their calls overlap between critical sections is not
    modelled.

    ** What the theorems show

    - Strings: memmove on every overlap, comparison of C strings.
    - Memory: in every reachable state of the frame allocator the counters,
      the bitmap and the reference counts agree; allocation succeeds whenever
      a frame is free; at boot only usable memory is free. In every reachable
      state of the address spaces the page tables translate the recorded
      mappings and open nothing else to user mode, the references of a frame
      cover its owners and a writable page has one mapping; a clone has the bytes of its source, and
      a clone that fails undoes everything; after a fork neither side sees
      the other's writes; user copies touch exactly the given range; a fault
      that is handled makes the access possible. Heap payloads and slab
      objects are aligned and disjoint, and freeing undoes an allocation;
      overlapping calls of slab_alloc never hand out one object twice, but can
      dereference NULL and lose a slab.
    - Files: counts of pipe ends equal the open descriptors; pipes are FIFO,
      report end of file and broken pipes, and finish when drained; in-place
      path normalisation equals its reference on components; the longest mount
      wins and mount points stay distinct; directory enumeration is complete
      and without duplicates; a tmpfs file reads back what was written and an
      open file is never removed.
    - Disks: the cache is transparent (reads return the logical content,
      writes change exactly their range), a flush makes it durable, an
      unregistered device leaves nothing behind; the pointer code of the LRU
      list implements the list operations.
    - FAT32: a volume that is mounted lies inside its device; allocation takes
      a free cluster and fails only when there is none; reads return the bytes
      of the chain, writes overwrite and extend them with zeros in a hole,
      truncation frees exactly the tail, and no other chain changes; every
      name accepted is read back from its entries; scans of damaged
      directories end; lookup and numbered reading of a directory agree with
      the list of its entries; a created file is found and an unlinked one is
      gone with its clusters. Disk errors are part of the statements: a
      failure that is not the disk's has the stated cause.
    - Time and scheduling: the timer list is sorted and stable and a tick
      terminates; no process runs on two processors as long as calls of the
      scheduler do not overlap in its unlocked windows, and a schedule shows
      what happens when they do; an eligible process is picked within one
      round; signals are delivered in order with their
      disposition; a process that terminates releases its descriptors and
      wakes its parent; the semaphore is a counter with a FIFO queue.
    - Programs: the loader reads only inside the image and yields the memory
      the program headers describe or undoes everything; fork gives a child
      the memory and descriptors of its parent or leaves them all as they
      were; exec installs a program with its arguments or keeps the old one;
      wait reaps exactly a zombie child; in every reachable state each descriptor table,
      address space and kernel stack has one owner, and destroying a process
      gives back the references of its memory and its stack, provided no other
      processor still runs it. Frames that hold page tables are not followed
      through failures (clone_level loses some).
    - User library: qsort ends, permutes and sorts in place; re_match decides
      the language of its pattern; str_find returns the first occurrence.
    - Locks: exclusion under every interleaving for spinlocks and mutexes;
      the reader/writer lock counts its readers but does not exclude, and a
      schedule shows it.

    ** Fuel and bounds

    Loops with a counter recurse on it. Loops that run until a NUL byte or
    another condition take fuel and return [None] when it runs out; each
    theorem about them states the fuel that is enough and that the result is
    [Some]: the length of the string plus one for src/lib/string.c and the
    path code, the number of pages a buffer touches plus one for user copies
    ([copy_fuel]), one more than the mappings a slot can hold for the search
    for a free page ([ALLOC_FUEL], since every page tried is mapped), the
    number of devices for the chain of parents of a partition ([ROOT_FUEL]).
    A pipe operation that is still waiting when the given behaviour of the
    other processes ends is [None]; the theorems say exactly when that is.
    The scan of a directory has as fuel the entries that the limit of the
    code on the length of a chain leaves ([dir_fuel]); running out would be
    the result 1, which the theorems exclude; likewise the search for a free
    cluster and the count of free clusters, whose fuel is one more than the
    number of clusters. The sort recurses on the size of the array; the
    matcher has fuel for the length of the pattern and returns [None] without
    it, and its theorem says that it returns an answer.
    Table sizes are those of the source.

    ** Parameters

    What is not in the repository is a parameter with laws: the behaviour of
    a device driver ([BlockDriver], instance: the ramdisk), of a mounted file
    system ([vfs_fsops]), of timer callbacks and of user programs. Where a
    component is used through a class, the instance shows that its laws can
    hold.

    ** Not modelled

    Assembly (context switch, entry code, TLB instructions), device registers
    (drivers of src/drivers, src/hal, src/hw), the boot protocols, and text
    output to the screen are outside the model. The system call layer (src/proc/syscall.c), the
    partition tables (src/drivers/block/blk_part.c), the initial ram disk
    (src/fs/initrd.c), printf and the kernel log, the terminal and its shell,
    and the programs of user/ are not modelled, nor are the allocator, the
    numbers and formatted output, option parsing and streams of the user
    library; they would follow in this order: partitions and initrd, then text
    output and the rest of the user library, then system calls. *)
From Stdlib Require Export ZArith Lia Bool List ZifyBool.
From stdpp Require Export base tactics numbers list list_numbers relations.

#[global] Open Scope Z_scope.

(** ** Error numbers (include/kernel/errno.h)

    The kernel returns [-errno] in an [int]; the constants are kept as
    positive integers, as in the header. *)
Module Errno.
Definition EPERM : Z := 1.
Definition ENOENT : Z := 2.
Definition ESRCH : Z := 3.
Definition EINTR : Z := 4.
Definition EIO : Z := 5.
Definition E2BIG : Z := 7.
Definition ENOEXEC : Z := 8.
Definition EBADF : Z := 9.
Definition ECHILD : Z := 10.
Definition EAGAIN : Z := 11.
Definition ENOMEM : Z := 12.
Definition EACCES : Z := 13.
Definition EFAULT : Z := 14.
Definition EBUSY : Z := 16.
Definition EEXIST : Z := 17.
Definition EXDEV : Z := 18.
Definition ENODEV : Z := 19.
Definition ENOTDIR : Z := 20.
Definition EISDIR : Z := 21.
Definition EINVAL : Z := 22.
Definition ENFILE : Z := 23.
Definition EMFILE : Z := 24.
Definition EFBIG : Z := 27.
Definition ENOSPC : Z := 28.
Definition EROFS : Z := 30.
Definition EPIPE : Z := 32.
Definition ENAMETOOLONG : Z := 36.
Definition ENOSYS : Z := 38.
Definition ENOTEMPTY : Z := 39.
Definition ENOTSUP : Z := 103.
Definition EOVERFLOW : Z := 104.
End Errno.
Export Errno.

(** ** Machine integers

    A w-bit unsigned integer is a [Z] in [[0, 2^w)]; a C conversion to that
    width is reduction modulo [2^w], and a conversion to a signed type is the
    two's complement representative. The model is the LP64 kernel build:
    [size_t], [uintptr_t] and [phys_addr_t] have 64 bits, [ssize_t] is the
    kernel's own 32-bit typedef (include/kernel/types.h). *)
Definition u8 (x : Z) : Z := x mod 2 ^ 8.
Definition u16 (x : Z) : Z := x mod 2 ^ 16.
Definition u32 (x : Z) : Z := x mod 2 ^ 32.
Definition u64 (x : Z) : Z := x mod 2 ^ 64.
Definition s32 (x : Z) : Z := (x + 2 ^ 31) mod 2 ^ 32 - 2 ^ 31.
Definition s64 (x : Z) : Z := (x + 2 ^ 63) mod 2 ^ 64 - 2 ^ 63.

Definition is_u8 (x : Z) : Prop := 0 <= x < 2 ^ 8.
Definition is_u32 (x : Z) : Prop := 0 <= x < 2 ^ 32.
Definition is_u64 (x : Z) : Prop := 0 <= x < 2 ^ 64.

(** ** Notations *)
Declare Scope tach_scope.
Delimit Scope tach_scope with tach.
Notation "a .& b" := (Z.land a b) (at level 40, left associativity) : tach_scope.
Notation "a .| b" := (Z.lor a b) (at level 45, left associativity) : tach_scope.
Notation "a .>> b" := (Z.shiftr a b) (at level 38, left associativity) : tach_scope.
Notation "a .<< b" := (Z.shiftl a b) (at level 38, left associativity) : tach_scope.

(** ** Automation *)
Create HintDb tach.
Create Rewrite HintDb tach.

(** Destructs every [if] of the goal (of a hypothesis), innermost condition first. *)
Ltac split_ifs :=
  repeat match goal with
         | |- context [if ?b then _ else _] =>
             lazymatch b with context [if _ then _ else _] => fail | _ => idtac end;
             lazymatch type of b with
             | bool => let E := fresh "E" in destruct b eqn:E
             | _ => let E := fresh "E" in destruct b as [E|E]
             end
         end.

Ltac split_ifs_in H :=
  repeat match type of H with
         | context [if ?b then _ else _] =>
             lazymatch b with context [if _ then _ else _] => fail | _ => idtac end;
             lazymatch type of b with
             | bool => let E := fresh "E" in destruct b eqn:E
             | _ => let E := fresh "E" in destruct b as [E|E]
             end
         end.

(** Unfolds the width conversions so that [lia] sees the modulo. *)
Ltac wrap_lia := unfold is_u8, is_u32, is_u64, u8, u16, u32, u64, s32, s64 in *; lia.

(** Linear arithmetic with division and modulo by constants. *)
Ltac dlia := Z.to_euclidean_division_equations; lia.

(** The same on natural numbers. *)
Ltac ndlia := zify; Z.to_euclidean_division_equations; lia.

Ltac deex :=
  repeat match goal with
         | H : exists x, _ |- _ => let x' := fresh x in destruct H as [x' H]
         | H : _ /\ _ |- _ => destruct H
         end.

(** ** Widths *)
Section Widths.
Lemma u8_small x : is_u8 x -> u8 x = x.
Proof. intros. apply Z.mod_small. done. Qed.
Lemma u8_is_u8 x : is_u8 (u8 x).
Proof. unfold is_u8, u8. apply Z.mod_pos_bound. lia. Qed.
Lemma u32_small x : is_u32 x -> u32 x = x.
Proof. intros. apply Z.mod_small. done. Qed.
Lemma u64_small x : is_u64 x -> u64 x = x.
Proof. intros. apply Z.mod_small. done. Qed.
Lemma u32_is_u32 x : is_u32 (u32 x).
Proof. unfold is_u32, u32. apply Z.mod_pos_bound. lia. Qed.
Lemma u64_is_u64 x : is_u64 (u64 x).
Proof. unfold is_u64, u64. apply Z.mod_pos_bound. lia. Qed.
Lemma s32_small x : - 2 ^ 31 <= x < 2 ^ 31 -> s32 x = x.
Proof. intros. unfold s32. rewrite Z.mod_small; lia. Qed.
End Widths.
#[export] Hint Resolve u8_is_u8 u32_is_u32 u64_is_u64 : tach.
#[export] Hint Rewrite u8_small u32_small u64_small s32_small using (unfold is_u8, is_u32, is_u64; lia) : tach.

(** ** Arrays

    A static C array that is too large to write out is a total function of its
    index; [upd] is the assignment [a[k] = v]. *)
Definition upd {A} (a : Z -> A) (k : Z) (v : A) : Z -> A :=
  fun i => if i =? k then v else a i.

Section Arrays.
Context {A : Type}.
Implicit Types (a : Z -> A).
Lemma upd_eq a k v : upd a k v k = v.
Proof. unfold upd. by rewrite Z.eqb_refl. Qed.
Lemma upd_ne a k v i : i <> k -> upd a k v i = a i.
Proof. intros. unfold upd. destruct (Z.eqb_spec i k); [lia|done]. Qed.
Lemma upd_spec a k v i : upd a k v i = if i =? k then v else a i.
Proof. done. Qed.
End Arrays.
#[export] Hint Rewrite @upd_eq : tach.
#[export] Hint Rewrite @upd_ne using lia : tach.

(** ** Bits *)
Section Bits.
Open Scope tach_scope.
Lemma land_pow2_testbit x n : 0 <= n -> (x .& (1 .<< n) =? 0) = negb (Z.testbit x n).
Proof.
  intros Hn. rewrite Z.shiftl_1_l.
  destruct (Z.testbit x n) eqn:E; simpl.
  - apply Z.eqb_neq. intros H. apply (f_equal (fun y => Z.testbit y n)) in H.
    rewrite Z.land_spec, Z.bits_0, Z.pow2_bits_true, E in H; done.
  - apply Z.eqb_eq, Z.bits_inj'. intros m Hm.
    rewrite Z.land_spec, Z.bits_0. destruct (decide (m = n)) as [->|].
    + by rewrite E.
    + by rewrite Z.pow2_bits_false, andb_false_r.
Qed.

Lemma land_low_mask x k : 0 <= k -> x .& (2 ^ k - 1) = x mod 2 ^ k.
Proof. intros. rewrite <- Z.land_ones by lia. by rewrite Z.ones_equiv, <- Z.sub_1_r. Qed.

(** [value & ~(2^k - 1)] clears the low bits: it rounds down to a multiple. *)
Lemma land_lnot_mask x k : 0 <= k -> x .& Z.lnot (2 ^ k - 1) = x - x mod 2 ^ k.
Proof.
  intros. rewrite <- Z.ldiff_land. replace (2 ^ k - 1) with (Z.ones k).
  - rewrite Z.ldiff_ones_r, Z.shiftl_mul_pow2, Z.shiftr_div_pow2 by lia.
    pose proof (Z.div_mod x (2 ^ k)). lia.
  - by rewrite Z.ones_equiv, Z.sub_1_r.
Qed.
End Bits.

(** ** Searching an array of [n] entries from index [i]

    The C idiom [for (i = 0; i < n; i++) if (p(i)) ... return/break]. *)
Fixpoint find_from (p : nat -> bool) (i n : nat) : option nat :=
  match n with
  | O => None
  | S n' => if p i then Some i else find_from p (S i) n'
  end.

Section FindFrom.
Implicit Types (p : nat -> bool).
Lemma find_from_Some p i n k :
  find_from p i n = Some k ->
  (i <= k < i + n)%nat /\ p k = true /\ (forall j, (i <= j < k)%nat -> p j = false).
Proof.
  revert i. induction n as [|n IH]; simpl; intros i H; [done|].
  destruct (p i) eqn:E; simplify_eq.
  - repeat split; [lia..|done|]. intros; lia.
  - apply IH in H as (? & ? & H). repeat split; [lia..|done|].
    intros j Hj. destruct (decide (j = i)) as [->|]; [done|]. apply H. lia.
Qed.

Lemma find_from_None p i n :
  find_from p i n = None <-> (forall j, (i <= j < i + n)%nat -> p j = false).
Proof.
  revert i. induction n as [|n IH]; simpl; intros i; split.
  - intros _ j Hj. lia.
  - done.
  - intros H j Hj. destruct (p i) eqn:E; [done|].
    destruct (decide (j = i)) as [->|]; [done|]. apply IH with (i := S i); [done|lia].
  - intros H. rewrite (H i) by lia. apply IH. intros j Hj. apply H. lia.
Qed.

Lemma find_from_ext p q i n :
  (forall j, (i <= j < i + n)%nat -> p j = q j) -> find_from p i n = find_from q i n.
Proof.
  revert i. induction n as [|n IH]; simpl; intros i H; [done|].
  rewrite H by lia. destruct (q i); [done|]. apply IH. intros. apply H. lia.
Qed.
End FindFrom.

(** ** Counted loops

    [for_range a b f s] is [for (i = a; i < b; i++) s = f(i, s)]. *)
Fixpoint iter_range {S} (n : nat) (i : Z) (f : Z -> S -> S) (s : S) : S :=
  match n with
  | O => s
  | Datatypes.S n' => iter_range n' (i + 1) f (f i s)
  end.

Definition for_range {S} (a b : Z) (f : Z -> S -> S) (s : S) : S :=
  iter_range (Z.to_nat (b - a)) a f s.

Section ForRange.
Context {S : Type}.
Implicit Types (f : Z -> S -> S) (s : S).

Lemma iter_range_ind (P : Z -> S -> Prop) n i f s :
  P i s ->
  (forall j s', i <= j < i + Z.of_nat n -> P j s' -> P (j + 1) (f j s')) ->
  P (i + Z.of_nat n) (iter_range n i f s).
Proof.
  revert i s. induction n as [|n IH]; intros i s H0 HS; simpl.
  - by rewrite Z.add_0_r.
  - replace (i + Z.of_nat (Datatypes.S n)) with (i + 1 + Z.of_nat n) by lia.
    apply IH.
    + apply HS; [lia|done].
    + intros j s' Hj. apply HS. lia.
Qed.

(** Induction over a counted loop: [P i s] holds before iteration [i]. *)
Lemma for_range_ind (P : Z -> S -> Prop) a b f s :
  a <= b -> P a s ->
  (forall j s', a <= j < b -> P j s' -> P (j + 1) (f j s')) ->
  P b (for_range a b f s).
Proof.
  intros Hab H0 HS. unfold for_range.
  replace b with (a + Z.of_nat (Z.to_nat (b - a))) at 1 by lia.
  apply iter_range_ind; [done|]. intros. apply HS; [lia|done].
Qed.

Lemma for_range_empty a b f s : b <= a -> for_range a b f s = s.
Proof. intros. unfold for_range. by replace (Z.to_nat (b - a)) with O by lia. Qed.

(** A loop whose body preserves [P] preserves [P]. *)
Lemma for_range_inv (P : S -> Prop) a b f s :
  P s -> (forall j s', a <= j < b -> P s' -> P (f j s')) -> P (for_range a b f s).
Proof.
  intros H0 HS. destruct (decide (a <= b)).
  - apply (for_range_ind (fun _ => P)); [done|done|]. intros; by apply HS.
  - rewrite for_range_empty by lia. done.
Qed.
End ForRange.

(** ** Counting the indices below [n] that satisfy a boolean predicate *)
Fixpoint countb (p : Z -> bool) (n : nat) : Z :=
  match n with
  | O => 0
  | S n' => countb p n' + (if p (Z.of_nat n') then 1 else 0)
  end.

Section Countb.
Implicit Types (p q : Z -> bool) (n : nat).
Lemma countb_ext p q n :
  (forall i, 0 <= i < Z.of_nat n -> p i = q i) -> countb p n = countb q n.
Proof.
  induction n as [|n IH]; intros H; simpl; [done|].
  rewrite IH by (intros; apply H; lia). by rewrite H by lia.
Qed.

Lemma countb_bounds p n : 0 <= countb p n <= Z.of_nat n.
Proof. induction n as [|n IH]; simpl; [lia|]. destruct (p (Z.of_nat n)); lia. Qed.

(** Turning one index on adds one. *)
Lemma countb_flip p q n k :
  0 <= k < Z.of_nat n -> p k = false -> q k = true ->
  (forall i, 0 <= i < Z.of_nat n -> i <> k -> p i = q i) ->
  countb q n = countb p n + 1.
Proof.
  induction n as [|n IH]; intros Hk Hp Hq H; [lia|]. simpl.
  destruct (decide (k = Z.of_nat n)) as [->|Hne].
  - rewrite Hp, Hq. rewrite (countb_ext q p); [lia|]. intros. symmetry. apply H; lia.
  - rewrite IH; [|lia|done|done|intros; apply H; lia]. rewrite H by lia. lia.
Qed.

Lemma countb_pos p n k : 0 <= k < Z.of_nat n -> p k = true -> 0 < countb p n.
Proof.
  induction n as [|n IH]; intros Hk Hp; [lia|]. simpl.
  pose proof (countb_bounds p n).
  destruct (decide (k = Z.of_nat n)) as [->|]; [rewrite Hp; lia|].
  specialize (IH ltac:(lia) Hp). destruct (p (Z.of_nat n)); lia.
Qed.
End Countb.

(** ** Step relations *)
Lemma rtc_preserve {A} (P : A -> Prop) (R : relation A) (x y : A) :
  (forall a b, P a -> R a b -> P b) -> P x -> rtc R x y -> P y.
Proof. intros HR Hx Hr. induction Hr; eauto. Qed.

(** ** Sums over lists *)
Fixpoint zsum {A} (f : A -> Z) (l : list A) : Z :=
  match l with
  | [] => 0
  | x :: l' => f x + zsum f l'
  end.

Section Zsum.
Context {A : Type}.
Implicit Types (f g : A -> Z) (l : list A).
Lemma zsum_insert f l i x y :
  l !! i = Some x -> zsum f (<[i:=y]> l) = zsum f l - f x + f y.
Proof.
  revert i. induction l as [|a l IH]; intros [|i] H; [done..| |].
  - simpl in *. simplify_eq. lia.
  - change (zsum f (a :: <[i:=y]> l) = zsum f (a :: l) - f x + f y).
    cbn [zsum]. rewrite (IH i H). lia.
Qed.

Lemma zsum_alter f (h : A -> A) l i x :
  l !! i = Some x -> zsum f (alter h i l) = zsum f l - f x + f (h x).
Proof.
  revert i. induction l as [|a l IH]; intros [|i] H; [done..| |].
  - simpl in *. simplify_eq. lia.
  - change (zsum f (a :: alter h i l) = zsum f (a :: l) - f x + f (h x)).
    cbn [zsum]. rewrite (IH i H). lia.
Qed.

Lemma zsum_nonneg f l : (forall x, 0 <= f x) -> 0 <= zsum f l.
Proof. intros Hf. induction l as [|a l IH]; simpl; [lia|]. specialize (Hf a). lia. Qed.

Lemma zsum_ge f l i x : (forall x, 0 <= f x) -> l !! i = Some x -> f x <= zsum f l.
Proof.
  intros Hf. revert i. induction l as [|a l IH]; intros [|i] H; simplify_eq/=.
  - pose proof (zsum_nonneg f l Hf). lia.
  - specialize (IH i H). specialize (Hf a). lia.
Qed.

Lemma zsum_ge_in f l i x : (forall y, y ∈ l -> 0 <= f y) -> l !! i = Some x -> f x <= zsum f l.
Proof.
  revert i. induction l as [|a l IH]; intros [|i] Hf H; simplify_eq/=.
  - assert (0 <= zsum f l); [|lia]. clear IH. induction l as [|b l IH]; simpl; [lia|].
    assert (0 <= f b) by (apply Hf; right; left). assert (0 <= zsum f l); [|lia]. apply IH.
    intros y Hy. apply Hf. apply elem_of_cons in Hy as [->|Hy]; [left|right; by right].
  - specialize (IH i ltac:(intros; apply Hf; by right) H). assert (0 <= f a) by (apply Hf; left). lia.
Qed.

Lemma zsum_zero f l : (forall x, x ∈ l -> f x = 0) -> zsum f l = 0.
Proof.
  induction l as [|a l IH]; intros H; simpl; [done|].
  rewrite (H a) by left. rewrite IH; [done|]. intros. apply H. by right.
Qed.

Lemma zsum_app f l k : zsum f (l ++ k) = zsum f l + zsum f k.
Proof. induction l as [|a l IH]; simpl; lia. Qed.

Lemma zsum_perm f l k : l ≡ₚ k -> zsum f l = zsum f k.
Proof. induction 1; simpl; lia. Qed.

(** A sum of counts that is 1 has one contributor. *)
Lemma zsum_one f l i j x y :
  (forall z, 0 <= f z) -> zsum f l = 1 -> l !! i = Some x -> l !! j = Some y -> 1 <= f x -> 1 <= f y -> i = j.
Proof.
  intros Hf. revert i j. induction l as [|a l IH]; intros i j Hs Hi Hj Hx Hy; [done|]. simpl in Hs.
  pose proof (zsum_nonneg f l Hf). pose proof (Hf a).
  destruct i as [|i], j as [|j]; simplify_eq/=; [done| | |].
  - pose proof (zsum_ge f l j y Hf Hj). lia.
  - pose proof (zsum_ge f l i x Hf Hi). lia.
  - f_equal. pose proof (zsum_ge f l i x Hf Hi). apply (IH i j); done || lia.
Qed.

Lemma zsum_ext f g l : (forall x, x ∈ l -> f x = g x) -> zsum f l = zsum g l.
Proof.
  induction l as [|a l IH]; intros H; simpl; [done|].
  rewrite (H a) by left. rewrite IH; [done|]. intros. apply H. by right.
Qed.
End Zsum.

(** Assigning a field of an array element. *)
Lemma alter_insert {A} (f : A -> A) (l : list A) (i : nat) (x : A) : l !! i = Some x -> alter f i l = <[i := f x]> l.
Proof.
  revert i. induction l as [|a l IH]; intros [|i] Hi; simplify_eq/=; [done|]. f_equal. by apply IH.
Qed.

Lemma lookup_insert_cases {A} (l : list A) (i j : nat) (x y : A) :
  <[i := x]> l !! j = Some y -> (j = i /\ y = x) \/ (j <> i /\ l !! j = Some y).
Proof. intros Hy. apply list_lookup_insert_Some in Hy as [(-> & -> & _)|[Hne Hy]]; [by left|right; auto]. Qed.

(** A list index given by a C [int]. *)
Definition idx (i : Z) : nat := Z.to_nat i.

(** ** Filters *)
Section Filters.
Context {A : Type} (P : A -> Prop) `{!forall x, Decision (P x)}.
Implicit Types (l : list A).
Lemma filter_all l : (forall x, x ∈ l -> P x) -> filter P l = l.
Proof.
  induction l as [|x l IH]; intros HP; [done|]. rewrite filter_cons_True by (apply HP; left).
  f_equal. apply IH. intros y Hy. apply HP. by right.
Qed.

Lemma filter_none l : (forall x, x ∈ l -> ~ P x) -> filter P l = [].
Proof.
  induction l as [|x l IH]; intros HP; [done|]. rewrite filter_cons_False by (apply HP; left).
  apply IH. intros y Hy. apply HP. by right.
Qed.
End Filters.
