(* ===== verification/CString.v ===== *)
(** * src/lib/string.c

    The memory and string routines of the kernel, over a byte-addressed
    memory. Each routine is the loop of the source: the [memory] functions
    carry the remaining count, the [str] functions, whose loops run to the
    terminating NUL, carry fuel and return [None] when it runs out. [cstr]
    says that a NUL-terminated string is stored at an address; the theorems
    give the value of each routine on such strings, which is what the other
    components use (they handle C strings as byte lists without the NUL). *)
From S2P Require Import Prelude.

(** A byte-addressed memory. *)
Definition memory := Z -> Z.

(** ** Definitions *)

Fixpoint memcpy_loop (n : nat) (m : memory) (d s : Z) : memory :=
  match n with
  | O => m
  | S n' => memcpy_loop n' (upd m d (m s)) (d + 1) (s + 1)
  end.

Definition memcpy (m : memory) (dest src n : Z) : memory * Z :=
  (memcpy_loop (Z.to_nat n) m dest src, dest).

(** The descending loop: [*--d = *--s]. *)
Fixpoint memmove_down (n : nat) (m : memory) (d s : Z) : memory :=
  match n with
  | O => m
  | S n' => memmove_down n' (upd m (d - 1) (m (s - 1))) (d - 1) (s - 1)
  end.

Definition memmove (m : memory) (dest src n : Z) : memory * Z :=
  if (dest =? src) || (n =? 0) then (m, dest)
  else if dest <? src then (memcpy_loop (Z.to_nat n) m dest src, dest)
  else (memmove_down (Z.to_nat n) m (dest + n) (src + n), dest).

Fixpoint memset_loop (n : nat) (m : memory) (p c : Z) : memory :=
  match n with
  | O => m
  | S n' => memset_loop n' (upd m p (u8 c)) (p + 1) c
  end.

Definition memset (m : memory) (s c n : Z) : memory * Z :=
  (memset_loop (Z.to_nat n) m s c, s).

Fixpoint memcmp_loop (n : nat) (m : memory) (a b : Z) : Z :=
  match n with
  | O => 0
  | S n' => if negb (m a =? m b) then m a - m b else memcmp_loop n' m (a + 1) (b + 1)
  end.

Definition memcmp (m : memory) (lhs rhs n : Z) : Z := memcmp_loop (Z.to_nat n) m lhs rhs.

Fixpoint strlen_loop (fuel : nat) (m : memory) (s len : Z) : option Z :=
  match fuel with
  | O => None
  | S k => if m s =? 0 then Some len else strlen_loop k m (s + 1) (len + 1)
  end.

Definition strlen (fuel : nat) (m : memory) (s : Z) : option Z := strlen_loop fuel m s 0.

Fixpoint strcmp (fuel : nat) (m : memory) (lhs rhs : Z) : option Z :=
  match fuel with
  | O => None
  | S k =>
      if negb (m lhs =? 0) && (m lhs =? m rhs) then strcmp k m (lhs + 1) (rhs + 1)
      else Some (m lhs - m rhs)
  end.

(** [n] is the remaining count of the source's loop. *)
Fixpoint strncmp_loop (n : nat) (m : memory) (lhs rhs : Z) : Z :=
  match n with
  | O => 0
  | S n' =>
      if negb (m lhs =? 0) && (m lhs =? m rhs) then strncmp_loop n' m (lhs + 1) (rhs + 1)
      else m lhs - m rhs
  end.

Definition strncmp (m : memory) (lhs rhs n : Z) : Z := strncmp_loop (Z.to_nat n) m lhs rhs.

Fixpoint strcpy_loop (fuel : nat) (m : memory) (dest src : Z) : option memory :=
  match fuel with
  | O => None
  | S k =>
      let m' := upd m dest (m src) in
      if m src =? 0 then Some m' else strcpy_loop k m' (dest + 1) (src + 1)
  end.

Definition strcpy (fuel : nat) (m : memory) (dest src : Z) : option (memory * Z) :=
  match strcpy_loop fuel m dest src with Some m' => Some (m', dest) | None => None end.

Fixpoint strncpy_loop (n : nat) (m : memory) (dest src : Z) : memory :=
  match n with
  | O => m
  | S n' =>
      if negb (m src =? 0) then strncpy_loop n' (upd m dest (m src)) (dest + 1) (src + 1)
      else memset_loop (S n') m dest 0
  end.

Definition strncpy (m : memory) (dest src n : Z) : memory * Z :=
  (strncpy_loop (Z.to_nat n) m dest src, dest).

(** [Some (Some p)]: a pointer; [Some None]: NULL. *)
Fixpoint strchr (fuel : nat) (m : memory) (str ch : Z) : option (option Z) :=
  match fuel with
  | O => None
  | S k =>
      if m str =? u8 ch then Some (Some str)
      else if m str =? 0 then Some None
      else strchr k m (str + 1) ch
  end.

(** ** Strings in memory *)

(** [n] bytes from [p]. *)
Definition bytes_at (m : memory) (p : Z) (n : nat) : list Z :=
  (fun i => m (p + Z.of_nat i)) <$> seq 0 n.

(** [l] is stored at [p], followed by a NUL; [l] itself has no NUL. *)
Fixpoint cstr (m : memory) (p : Z) (l : list Z) : Prop :=
  match l with
  | [] => m p = 0
  | c :: l' => m p = c /\ c <> 0 /\ cstr m (p + 1) l'
  end.

(** The values the string routines compute, on the strings themselves. *)
Fixpoint str_diff (l r : list Z) : Z :=
  match l, r with
  | [], [] => 0
  | [], d :: _ => - d
  | c :: _, [] => c
  | c :: l', d :: r' => if c =? d then str_diff l' r' else c - d
  end.

(** [strcmp(a, b) == 0] and [strncmp(a, b, n) == 0] as the components use them. *)
Definition str_eqb (l r : list Z) : bool := bool_decide (l = r).
Definition strn_eqb (l r : list Z) (n : nat) : bool := bool_decide (take n l = take n r).

(** ** Block moves *)
Section Moves.
Implicit Types (m : memory).

(** The ascending copy is right whenever the destination does not run over
    source bytes still to be read. *)
Lemma memcpy_loop_spec n m d s x :
  d <= s \/ s + Z.of_nat n <= d ->
  memcpy_loop n m d s x =
    if (d <=? x) && (x <? d + Z.of_nat n) then m (s + (x - d)) else m x.
Proof.
  revert m d s. induction n as [|n IH]; intros m d s Hov; simpl.
  - split_ifs; [lia|done].
  - destruct (decide (d = s)) as [->|Hne].
    + rewrite IH by lia. split_ifs; rewrite ?upd_spec; split_ifs; f_equal; lia.
    + rewrite IH by lia. split_ifs; rewrite ?upd_spec; split_ifs; try (f_equal; lia); lia.
Qed.

Lemma memmove_down_spec n m d s x :
  s <= d ->
  memmove_down n m d s x =
    if (d - Z.of_nat n <=? x) && (x <? d) then m (s + (x - d)) else m x.
Proof.
  revert m d s. induction n as [|n IH]; intros m d s Hov; simpl.
  - split_ifs; [lia|done].
  - rewrite IH by lia. split_ifs; rewrite ?upd_spec; split_ifs; try (f_equal; lia); lia.
Qed.

Lemma memset_loop_spec n m p c x :
  memset_loop n m p c x =
    if (p <=? x) && (x <? p + Z.of_nat n) then u8 c else m x.
Proof.
  revert m p. induction n as [|n IH]; intros m p; simpl.
  - split_ifs; [lia|done].
  - rewrite IH. split_ifs; rewrite ?upd_spec; split_ifs; try done; lia.
Qed.

Lemma memmove_at m dest src n x :
  0 <= n ->
  (memmove m dest src n).1 x =
    if (dest <=? x) && (x <? dest + n) then m (src + (x - dest)) else m x.
Proof.
  intros Hn. unfold memmove.
  destruct ((dest =? src) || (n =? 0)) eqn:E1; simpl.
  - split_ifs; f_equal; lia.
  - destruct (dest <? src) eqn:E2; simpl.
    + rewrite memcpy_loop_spec by lia. by rewrite Z2Nat.id.
    + rewrite memmove_down_spec by lia. rewrite Z2Nat.id by lia. split_ifs; f_equal; lia.
Qed.
End Moves.

(** [l] is stored at [p]. *)
Definition stored (m : memory) (p : Z) (l : list Z) : Prop :=
  forall k c, l !! k = Some c -> m (p + Z.of_nat k) = c.

(** ** Strings *)
Section Strings.
Implicit Types (m : memory) (l r : list Z).

Lemma strlen_loop_cstr fuel m p l k :
  cstr m p l -> (length l < fuel)%nat -> strlen_loop fuel m p k = Some (k + Z.of_nat (length l)).
Proof.
  revert p k fuel. induction l as [|c l IH]; intros p k [|fuel] H Hf; simpl in *; try lia.
  - rewrite H. simpl. f_equal. lia.
  - destruct H as (-> & Hc & H). destruct (Z.eqb_spec c 0); [done|].
    rewrite IH by (done || lia). f_equal. lia.
Qed.

Lemma strcmp_cstr fuel m p q l r :
  cstr m p l -> cstr m q r -> (length l < fuel)%nat -> strcmp fuel m p q = Some (str_diff l r).
Proof.
  revert p q r fuel. induction l as [|c l IH]; intros p q r [|fuel] Hl Hr Hf; simpl in *; try lia.
  - rewrite Hl. simpl. destruct r; simpl in Hr; [by rewrite Hr|]. by destruct Hr as (-> & _).
  - destruct Hl as (-> & Hc & Hl). destruct (Z.eqb_spec c 0); [done|]. simpl.
    destruct r as [|d r]; simpl in Hr.
    + rewrite Hr. destruct (Z.eqb_spec c 0); [done|]. f_equal. lia.
    + destruct Hr as (-> & Hd & Hr). destruct (Z.eqb_spec c d); [|done]. apply IH; (done || lia).
Qed.

Lemma str_diff_0 m p q l r : cstr m p l -> cstr m q r -> str_diff l r = 0 <-> l = r.
Proof.
  revert p q r. induction l as [|c l IH]; intros p q [|d r] Hl Hr; simpl in *.
  - done.
  - split; [|done]. destruct Hr as (_ & ? & _). lia.
  - split; [|done]. destruct Hl as (_ & ? & _). lia.
  - destruct Hl as (_ & ? & Hl), Hr as (_ & ? & Hr). destruct (Z.eqb_spec c d) as [->|].
    + rewrite (IH _ _ _ Hl Hr). split; intros; simplify_eq; done.
    + split; [lia|]. intros; simplify_eq.
Qed.

Lemma strncmp_loop_0 n m p q l r :
  cstr m p l -> cstr m q r -> strncmp_loop n m p q = 0 <-> take n l = take n r.
Proof.
  revert p q l r. induction n as [|n IH]; intros p q l r Hl Hr; simpl; [done|].
  destruct l as [|c l], r as [|d r]; simpl in Hl, Hr; simpl.
  - rewrite Hl, Hr. done.
  - destruct Hr as (-> & ? & Hr). rewrite Hl. simpl. split; [lia|done].
  - destruct Hl as (-> & ? & Hl). rewrite Hr.
    destruct (Z.eqb_spec c 0); [done|]. simpl. split; [lia|done].
  - destruct Hl as (-> & ? & Hl), Hr as (-> & ? & Hr).
    destruct (Z.eqb_spec c 0); [done|]. simpl. destruct (Z.eqb_spec c d) as [->|].
    + rewrite (IH _ _ _ _ Hl Hr). split; [congruence|]. intros; by simplify_eq.
    + split; [lia|]. intros; by simplify_eq.
Qed.

Lemma cstr_stored m p l : cstr m p l <-> stored m p l /\ m (p + Z.of_nat (length l)) = 0 /\ Forall (fun c => c <> 0) l.
Proof.
  unfold stored. revert p. induction l as [|c l IH]; intros p; simpl.
  - rewrite Z.add_0_r. split; [|tauto]. intros H. repeat split; [done..|constructor].
  - rewrite Forall_cons, IH. split.
    + intros (H1 & H2 & H3 & H4 & H5). split_and!; [|by rewrite <- H4; f_equal; lia|done|done].
      intros [|k] d Hk; simpl in Hk; [simplify_eq; by rewrite Z.add_0_r|].
      rewrite <- (H3 k d Hk). f_equal. lia.
    + intros (H1 & H2 & H3 & H4). split_and!; [|done| |by rewrite <- H2; f_equal; lia|done].
      * rewrite <- (H1 0%nat c eq_refl). f_equal. lia.
      * intros k d Hk. rewrite <- (H1 (S k) d Hk). f_equal. lia.
Qed.

Lemma stored_app m p l r :
  stored m p (l ++ r) <-> stored m p l /\ stored m (p + Z.of_nat (length l)) r.
Proof.
  unfold stored. split.
  - intros H. split.
    + intros k c Hk. apply H. by apply lookup_app_l_Some.
    + intros k c Hk. replace (p + Z.of_nat (length l) + Z.of_nat k) with (p + Z.of_nat (length l + k)) by lia.
      apply H. rewrite lookup_app_r by lia. by replace (length l + k - length l)%nat with k by lia.
  - intros [H1 H2] k c [Hk|[Hge Hk]]%lookup_app_Some; [by apply H1|].
    rewrite <- (H2 _ _ Hk). f_equal. lia.
Qed.

Lemma stored_ext m m' p l :
  (forall i, p <= i < p + Z.of_nat (length l) -> m' i = m i) -> stored m p l -> stored m' p l.
Proof.
  intros E H k c Hk. pose proof (lookup_lt_Some _ _ _ Hk). rewrite E by lia. by apply H.
Qed.

Lemma cstr_app m p l r : cstr m p (l ++ r) -> cstr m (p + Z.of_nat (length l)) r.
Proof.
  rewrite !cstr_stored. rewrite stored_app, length_app, Forall_app. intros ((_ & H) & H0 & _ & Hr).
  split_and!; [done| |done]. rewrite <- H0. f_equal. lia.
Qed.

Lemma cstr_ext m m' p l :
  (forall i, p <= i <= p + Z.of_nat (length l) -> m' i = m i) -> cstr m p l -> cstr m' p l.
Proof.
  revert p. induction l as [|c l IH]; intros p Hm H; simpl in *.
  - rewrite Hm by lia. done.
  - rewrite Hm by lia. destruct H as (? & ? & ?). repeat split; [done..|].
    apply IH; [|done]. intros. apply Hm. lia.
Qed.

Lemma strcpy_loop_cstr fuel m d s l :
  cstr m s l -> (length l < fuel)%nat ->
  d + Z.of_nat (length l) < s \/ s + Z.of_nat (length l) < d ->
  exists m', strcpy_loop fuel m d s = Some m' /\ cstr m' d l /\
    (forall i, i < d \/ d + Z.of_nat (length l) < i -> m' i = m i).
Proof.
  revert m d s fuel. induction l as [|c l IH]; intros m d s [|fuel] H Hf Hov; simpl in *; try lia.
  - rewrite H. simpl. eexists. repeat split.
    + by rewrite upd_eq.
    + intros i Hi. rewrite upd_ne by lia. done.
  - destruct H as (Hc & Hc0 & H). rewrite Hc. destruct (Z.eqb_spec c 0); [done|].
    destruct (IH (upd m d c) (d + 1) (s + 1) fuel) as (m' & -> & Hm' & Hrest); [|lia..|].
    { eapply cstr_ext; [|done]. intros. rewrite upd_ne by lia. done. }
    eexists. repeat split; [|done|done|].
    + rewrite Hrest by lia. apply upd_eq.
    + intros i Hi. rewrite Hrest by lia. rewrite upd_ne by lia. done.
Qed.

Lemma strchr_cstr fuel m p l c :
  cstr m p l -> (length l < fuel)%nat ->
  strchr fuel m p c = Some (match list_find (fun b => b = u8 c) l with
                            | Some (i, _) => Some (p + Z.of_nat i)
                            | None => if u8 c =? 0 then Some (p + Z.of_nat (length l)) else None
                            end).
Proof.
  revert p fuel. induction l as [|d l IH]; intros p [|fuel] H Hf; simpl in *; try lia.
  - rewrite H, (Z.eqb_sym 0). destruct (Z.eqb_spec (u8 c) 0); simpl; do 2 f_equal; lia.
  - destruct H as (-> & Hd & H). destruct (decide (d = u8 c)) as [E|E].
    + destruct (Z.eqb_spec d (u8 c)); [|done]. do 2 f_equal. lia.
    + destruct (Z.eqb_spec d (u8 c)); [done|]. destruct (Z.eqb_spec d 0); [done|].
      rewrite IH by (done || lia). destruct (list_find _ l) as [[i b]|]; simpl.
      * do 2 f_equal. lia.
      * destruct (Z.eqb_spec (u8 c) 0); do 2 f_equal; lia.
Qed.
End Strings.

(** [memmove] copies the [n] bytes that were at [src] before the call to
    [dest] and leaves every other byte alone, for every overlap of the two
    ranges. *)
Theorem memmove_correct (m : memory) (dest src n x : Z) :
  0 <= n ->
  (memmove m dest src n).1 x =
    if (dest <=? x) && (x <? dest + n) then m (src + (x - dest)) else m x.
Proof.
  apply memmove_at.
Qed.

Lemma memmove_correct_witness :
  0 <= 3 /\ (memmove (fun i => i) 12 10 3).1 14 = 12.
Proof. split; [lia|]. rewrite (memmove_correct (fun i => i) 12 10 3 14); [reflexivity|lia]. Defined.

(** On two stored strings [strcmp] terminates and its result is zero
    exactly when the strings are equal, and [strncmp] is zero exactly when
    they agree on their first [n] bytes. *)
Theorem string_compare_correct (m : memory) (p q : Z) (l r : list Z) (fuel : nat) :
  cstr m p l -> cstr m q r -> (length l < fuel)%nat ->
  (exists d, strcmp fuel m p q = Some d /\ ((d =? 0) = str_eqb l r)) /\
  (forall n, 0 <= n -> (strncmp m p q n =? 0) = strn_eqb l r (Z.to_nat n)).
Proof.
  intros Hl Hr Hf. split.
  - exists (str_diff l r). split; [by apply strcmp_cstr|].
    unfold str_eqb. pose proof (str_diff_0 _ _ _ _ _ Hl Hr).
    case_bool_decide; destruct (Z.eqb_spec (str_diff l r) 0); tauto.
  - intros n Hn. unfold strncmp, strn_eqb.
    pose proof (strncmp_loop_0 (Z.to_nat n) _ _ _ _ _ Hl Hr).
    case_bool_decide; destruct (Z.eqb_spec (strncmp_loop (Z.to_nat n) m p q) 0); tauto.
Qed.

Lemma string_compare_correct_witness :
  let m := fun i => if i =? 0 then 97 else if i =? 10 then 98 else 0 in
  cstr m 0 [97] /\ cstr m 10 [98] /\ (strncmp m 0 10 1 =? 0) = false.
Proof.
  intros m. split; [repeat split; done|]. split; [repeat split; done|].
  rewrite (proj2 (string_compare_correct m 0 10 [97] [98] 2 ltac:(repeat split; done)
                    ltac:(repeat split; done) ltac:(simpl; lia)) 1); [reflexivity|lia].
Defined.
