(* ===== verification/Pmm.v ===== *)
(** * src/mm/pmm.c: the physical frame allocator

    State: the bitmap (one bit per 4 KiB frame, set = used), the 8-bit
    reference counts, the frame limit, the page counters and the search hint.
    Every public operation runs under [g_pmm_lock], so an operation is one
    atomic function of the state. The two static arrays are total functions of
    their index. [__kernel_start]/[__kernel_end] come from the linker script
    and are arguments of [pmm_init]. *)
From S2P Require Import Prelude.
Open Scope tach_scope.

(** ** Definitions *)

Definition PAGE_SIZE : Z := 4096.
Definition PAGE_SHIFT : Z := 12.
Definition PMM_MAX_PHYS_ADDR : Z := 1 .<< 32.
Definition PMM_MAX_FRAMES : Z := PMM_MAX_PHYS_ADDR / PAGE_SIZE.
Definition PMM_REF_SATURATED : Z := 255.

Record mem_region := MemRegion { mr_base : Z; mr_size : Z; mr_type : Z }.
Definition MEM_REGION_USABLE : Z := 1.

Record pmm := Pmm {
  g_frame_bitmap : Z -> Z;
  g_frame_refs : Z -> Z;
  g_frame_limit : Z;
  g_total_pages : Z;
  g_free_pages : Z;
  g_search_start : Z
}.

Definition set_bitmap f st :=
  Pmm f (g_frame_refs st) (g_frame_limit st) (g_total_pages st) (g_free_pages st) (g_search_start st).
Definition set_refs f st :=
  Pmm (g_frame_bitmap st) f (g_frame_limit st) (g_total_pages st) (g_free_pages st) (g_search_start st).
Definition set_limit x st :=
  Pmm (g_frame_bitmap st) (g_frame_refs st) x (g_total_pages st) (g_free_pages st) (g_search_start st).
Definition set_total x st :=
  Pmm (g_frame_bitmap st) (g_frame_refs st) (g_frame_limit st) x (g_free_pages st) (g_search_start st).
Definition set_free_pages x st :=
  Pmm (g_frame_bitmap st) (g_frame_refs st) (g_frame_limit st) (g_total_pages st) x (g_search_start st).
Definition set_search x st :=
  Pmm (g_frame_bitmap st) (g_frame_refs st) (g_frame_limit st) (g_total_pages st) (g_free_pages st) x.

Definition frame_mask (frame : Z) : Z := u8 (1 .<< (frame .& 7)).

Definition frame_is_used (st : pmm) (frame : Z) : bool :=
  negb (g_frame_bitmap st (frame .>> 3) .& frame_mask frame =? 0).

Definition frame_set_used (frame : Z) (st : pmm) : pmm :=
  let byte := frame .>> 3 in
  let mask := frame_mask frame in
  let st := if g_frame_bitmap st byte .& mask =? 0 then
              let st := set_bitmap (upd (g_frame_bitmap st) byte (g_frame_bitmap st byte .| mask)) st in
              if negb (g_free_pages st =? 0) then set_free_pages (g_free_pages st - 1) st else st
            else st in
  if g_frame_refs st frame =? 0 then set_refs (upd (g_frame_refs st) frame 1) st else st.

Definition frame_set_free (frame : Z) (st : pmm) : pmm :=
  let byte := frame .>> 3 in
  let mask := frame_mask frame in
  let st := if negb (g_frame_bitmap st byte .& mask =? 0) then
              let st := set_bitmap (upd (g_frame_bitmap st) byte
                                        (g_frame_bitmap st byte .& u8 (Z.lnot mask))) st in
              set_free_pages (g_free_pages st + 1) st
            else st in
  set_refs (upd (g_frame_refs st) frame 0) st.

Definition region_first_frame (start : Z) : Z := u64 (start + PAGE_SIZE - 1) .>> PAGE_SHIFT.

Definition region_last_frame (start size : Z) : Z :=
  let end_ := u64 (start + size) in
  let end_ := if (end_ <? start) || (PMM_MAX_PHYS_ADDR <? end_) then PMM_MAX_PHYS_ADDR else end_ in
  end_ .>> PAGE_SHIFT.

Definition pmm_mark_region_free (start size : Z) (st : pmm) : pmm :=
  let first := region_first_frame start in
  let last := region_last_frame start size in
  let last := if g_frame_limit st <? last then g_frame_limit st else last in
  for_range first last frame_set_free st.

Definition pmm_mark_region_used (start size : Z) (st : pmm) : pmm :=
  let first := start .>> PAGE_SHIFT in
  let end_ := u64 (start + size) in
  let end_ := if (end_ <? start) || (PMM_MAX_PHYS_ADDR <? end_) then PMM_MAX_PHYS_ADDR else end_ in
  let last := u64 (end_ + PAGE_SIZE - 1) .>> PAGE_SHIFT in
  let last := if g_frame_limit st <? last then g_frame_limit st else last in
  for_range first last frame_set_used st.

(** The frame past the end of a region of the memory map (first loop of
    [pmm_init]). *)
Definition region_frame_end (r : mem_region) : Z :=
  let end_ := u64 (mr_base r + mr_size r) in
  let end_ := if (end_ <? mr_base r) || (PMM_MAX_PHYS_ADDR <? end_) then PMM_MAX_PHYS_ADDR else end_ in
  end_ .>> PAGE_SHIFT.

Definition pmm_zero : pmm := Pmm (fun _ => 255) (fun _ => 0) 0 0 0 1.

(** The three loops of [pmm_init] over the memory map. *)
Definition init_limit (memory_map : list mem_region) : Z :=
  let limit := fold_left (fun lim r => if lim <? region_frame_end r then region_frame_end r else lim)
                         memory_map 0 in
  if PMM_MAX_FRAMES <? limit then PMM_MAX_FRAMES else limit.

Definition mark_usable (memory_map : list mem_region) (st : pmm) : pmm :=
  fold_left (fun st r => if mr_type r =? MEM_REGION_USABLE
                         then pmm_mark_region_free (mr_base r) (mr_size r) st else st)
            memory_map st.

Definition mark_reserved (memory_map : list mem_region) (st : pmm) : pmm :=
  fold_left (fun st r => if negb (mr_type r =? MEM_REGION_USABLE)
                         then pmm_mark_region_used (mr_base r) (mr_size r) st else st)
            memory_map st.

Definition pmm_init (memory_map : list mem_region) (kernel_start kernel_end : Z) : pmm :=
  let st := set_limit (init_limit memory_map) pmm_zero in
  let st := mark_usable memory_map st in
  let st := mark_reserved memory_map st in
  let st := pmm_mark_region_used 0 PAGE_SIZE st in
  let st := pmm_mark_region_used 0x8000 PAGE_SIZE st in
  let st := pmm_mark_region_used kernel_start (kernel_end - kernel_start) st in
  set_total (g_free_pages st) st.

(** [for (frame = begin; frame < end; frame++) if (!frame_is_used(frame))]. *)
Fixpoint scan_free (st : pmm) (n : nat) (frame : Z) : option Z :=
  match n with
  | O => None
  | S n' => if negb (frame_is_used st frame) then Some frame else scan_free st n' (frame + 1)
  end.

Definition scan_range (st : pmm) (begin end_ : Z) : option Z :=
  scan_free st (Z.to_nat (end_ - begin)) begin.

Definition take_frame (frame : Z) (st : pmm) : pmm :=
  let st := frame_set_used frame st in
  set_refs (upd (g_frame_refs st) frame 1) st.

(** The physical address of the frame, 0 when there is none. *)
Definition pmm_alloc_frame (st : pmm) : pmm * Z :=
  let hit := match scan_range st (g_search_start st) (g_frame_limit st) with
             | Some f => Some f
             | None => scan_range st 1 (g_search_start st)
             end in
  match hit with
  | Some frame => (set_search (frame + 1) (take_frame frame st), frame .<< PAGE_SHIFT)
  | None => (st, 0)
  end.

(** The checks shared by retain, free and refcount. *)
Definition bad_frame_address (st : pmm) (frame_address : Z) : bool :=
  (frame_address =? 0) || negb (frame_address .& (PAGE_SIZE - 1) =? 0) ||
  (g_frame_limit st <=? frame_address .>> PAGE_SHIFT).

Definition pmm_retain_frame (frame_address : Z) (st : pmm) : pmm * bool :=
  if bad_frame_address st frame_address then (st, false)
  else
    let frame := frame_address .>> PAGE_SHIFT in
    let retained := frame_is_used st frame && negb (g_frame_refs st frame =? 0) &&
                    negb (g_frame_refs st frame =? PMM_REF_SATURATED) in
    (if retained then set_refs (upd (g_frame_refs st) frame (g_frame_refs st frame + 1)) st else st,
     retained).

Definition pmm_free_frame (frame_address : Z) (st : pmm) : pmm :=
  if bad_frame_address st frame_address then st
  else
    let frame := frame_address .>> PAGE_SHIFT in
    if frame_is_used st frame && negb (g_frame_refs st frame =? 0) then
      let st := set_refs (upd (g_frame_refs st) frame (g_frame_refs st frame - 1)) st in
      if g_frame_refs st frame =? 0 then
        let st := frame_set_free frame st in
        if frame <? g_search_start st then set_search frame st else st
      else st
    else st.

Definition pmm_frame_refcount (frame_address : Z) (st : pmm) : Z :=
  if bad_frame_address st frame_address then 0
  else g_frame_refs st (frame_address .>> PAGE_SHIFT).

(** The scan of [pmm_alloc_aligned_pages]; [run] and [first] are its locals. *)
Fixpoint scan_run (st : pmm) (count align : Z) (n : nat) (frame run first : Z) : option Z :=
  match n with
  | O => None
  | S n' =>
      if (run =? 0) && negb (frame .& (align - 1) =? 0) then
        scan_run st count align n' (frame + 1) run first
      else if negb (frame_is_used st frame) then
        let first := if run =? 0 then frame else first in
        if run + 1 =? count then Some first
        else scan_run st count align n' (frame + 1) (run + 1) first
      else scan_run st count align n' (frame + 1) 0 first
  end.

Definition pmm_alloc_aligned_pages (count alignment_pages : Z) (st : pmm) : pmm * Z :=
  if (count =? 0) || (alignment_pages =? 0) then (st, 0)
  else
    match scan_run st count alignment_pages (Z.to_nat (g_frame_limit st - 1)) 1 0 0 with
    | Some first =>
        let st := for_range 0 count (fun i => take_frame (first + i)) st in
        (set_search (first + count) st, first .<< PAGE_SHIFT)
    | None => (st, 0)
    end.

Definition pmm_alloc_pages (count : Z) (st : pmm) : pmm * Z := pmm_alloc_aligned_pages count 1 st.

Definition pmm_free_pages (pages count : Z) (st : pmm) : pmm :=
  for_range 0 count (fun i => pmm_free_frame (u64 (pages + i * PAGE_SIZE))) st.

(** ** The bitmap *)
Section Bitmap.
Implicit Types (st : pmm) (f g : Z).

Lemma frame_mask_eq f : 0 <= f -> frame_mask f = 1 .<< (f mod 8).
Proof.
  intros. unfold frame_mask. replace 7 with (2 ^ 3 - 1) by done.
  rewrite land_low_mask by lia. change (2 ^ 3) with 8.
  apply u8_small. unfold is_u8. rewrite Z.shiftl_1_l.
  pose proof (Z.mod_pos_bound f 8 ltac:(lia)).
  split; [lia|]. apply Z.pow_lt_mono_r; lia.
Qed.

Lemma frame_byte_eq f : f .>> 3 = f / 8.
Proof. by rewrite Z.shiftr_div_pow2 by lia. Qed.

Lemma frame_is_used_bit st f :
  0 <= f -> frame_is_used st f = Z.testbit (g_frame_bitmap st (f / 8)) (f mod 8).
Proof.
  intros. unfold frame_is_used. rewrite frame_mask_eq, frame_byte_eq by done.
  rewrite land_pow2_testbit by (apply Z.mod_pos_bound; lia). by rewrite negb_involutive.
Qed.

Lemma mask_testbit f i : 0 <= f -> 0 <= i < 8 -> Z.testbit (frame_mask f) i = (i =? f mod 8).
Proof.
  intros. rewrite frame_mask_eq, Z.shiftl_1_l by done.
  pose proof (Z.mod_pos_bound f 8 ltac:(lia)).
  destruct (Z.eqb_spec i (f mod 8)) as [->|].
  - by rewrite Z.pow2_bits_true by lia.
  - by rewrite Z.pow2_bits_false by lia.
Qed.

Lemma inv_mask_testbit f i :
  0 <= f -> 0 <= i < 8 -> Z.testbit (u8 (Z.lnot (frame_mask f))) i = negb (i =? f mod 8).
Proof.
  intros. unfold u8. rewrite Z.mod_pow2_bits_low, Z.lnot_spec by lia. by rewrite mask_testbit.
Qed.

Lemma frame_eq f g : 0 <= f -> 0 <= g -> (f / 8 =? g / 8) && (f mod 8 =? g mod 8) = (f =? g).
Proof.
  intros. pose proof (Z.div_mod f 8 ltac:(lia)). pose proof (Z.div_mod g 8 ltac:(lia)).
  destruct (Z.eqb_spec f g) as [->|]; [by rewrite !Z.eqb_refl|].
  destruct (Z.eqb_spec (f / 8) (g / 8)), (Z.eqb_spec (f mod 8) (g mod 8)); simpl; lia.
Qed.

Lemma set_used_is_used st f g :
  0 <= f -> 0 <= g ->
  frame_is_used (frame_set_used f st) g = (g =? f) || frame_is_used st g.
Proof.
  intros Hf Hg. pose proof (frame_eq g f Hg Hf) as He.
  pose proof (Z.mod_pos_bound g 8 ltac:(lia)).
  rewrite !frame_is_used_bit by done. unfold frame_set_used.
  assert (Hold : (g_frame_bitmap st (f .>> 3) .& frame_mask f =? 0) = false ->
                 g = f -> Z.testbit (g_frame_bitmap st (g / 8)) (g mod 8) = true).
  { intros E ->. apply (f_equal negb) in E. change (frame_is_used st f = true) in E.
    by rewrite frame_is_used_bit in E. }
  destruct (g_frame_bitmap st (f .>> 3) .& frame_mask f =? 0) eqn:E.
  - replace (g_frame_bitmap _ (g / 8)) with
      (upd (g_frame_bitmap st) (f .>> 3) (g_frame_bitmap st (f .>> 3) .| frame_mask f) (g / 8))
      by (destruct (negb _); simpl; split_ifs; reflexivity).
    rewrite frame_byte_eq, upd_spec. destruct (Z.eqb_spec (g / 8) (f / 8)) as [E1|E1]; simpl in He.
    + rewrite Z.lor_spec, mask_testbit, E1, He by lia. apply orb_comm.
    + rewrite <- He. done.
  - replace (g_frame_bitmap _ (g / 8)) with (g_frame_bitmap st (g / 8))
      by (split_ifs; reflexivity).
    destruct (Z.eqb_spec g f); [|done]. simpl. by apply Hold.
Qed.

Lemma set_free_is_used st f g :
  0 <= f -> 0 <= g ->
  frame_is_used (frame_set_free f st) g = negb (g =? f) && frame_is_used st g.
Proof.
  intros Hf Hg. pose proof (frame_eq g f Hg Hf) as He.
  pose proof (Z.mod_pos_bound g 8 ltac:(lia)).
  rewrite !frame_is_used_bit by done. unfold frame_set_free.
  assert (Hold : (g_frame_bitmap st (f .>> 3) .& frame_mask f =? 0) = true ->
                 g = f -> Z.testbit (g_frame_bitmap st (g / 8)) (g mod 8) = false).
  { intros E ->. apply (f_equal negb) in E. change (frame_is_used st f = false) in E.
    by rewrite frame_is_used_bit in E. }
  destruct (g_frame_bitmap st (f .>> 3) .& frame_mask f =? 0) eqn:E; simpl.
  - destruct (Z.eqb_spec g f); [|done]. simpl. by apply Hold.
  - rewrite frame_byte_eq, upd_spec. destruct (Z.eqb_spec (g / 8) (f / 8)) as [E1|E1]; simpl in He.
    + rewrite Z.land_spec, inv_mask_testbit, E1, He by lia. apply andb_comm.
    + rewrite <- He. done.
Qed.

Lemma set_used_refs st f g :
  g_frame_refs (frame_set_used f st) g =
    if (g =? f) && (g_frame_refs st f =? 0) then 1 else g_frame_refs st g.
Proof.
  unfold frame_set_used. split_ifs; simpl in *; rewrite ?upd_spec; split_ifs; try done; lia.
Qed.

Lemma set_free_refs st f g :
  g_frame_refs (frame_set_free f st) g = if g =? f then 0 else g_frame_refs st g.
Proof. unfold frame_set_free. split_ifs; simpl in *; rewrite ?upd_spec; split_ifs; done || lia. Qed.

Lemma set_used_free_pages st f :
  g_free_pages (frame_set_used f st) =
    if frame_is_used st f || (g_free_pages st =? 0) then g_free_pages st else g_free_pages st - 1.
Proof.
  unfold frame_is_used, frame_set_used.
  destruct (g_frame_bitmap st (f .>> 3) .& frame_mask f =? 0) eqn:E1; simpl; split_ifs; simpl in *;
    done || lia.
Qed.

Lemma set_free_free_pages st f :
  g_free_pages (frame_set_free f st) =
    if frame_is_used st f then g_free_pages st + 1 else g_free_pages st.
Proof. unfold frame_is_used, frame_set_free. by destruct (g_frame_bitmap st (f .>> 3) .& frame_mask f =? 0). Qed.

Lemma set_used_limit st f : g_frame_limit (frame_set_used f st) = g_frame_limit st.
Proof. unfold frame_set_used. split_ifs; done. Qed.
Lemma set_used_search st f : g_search_start (frame_set_used f st) = g_search_start st.
Proof. unfold frame_set_used. split_ifs; done. Qed.
Lemma set_free_limit st f : g_frame_limit (frame_set_free f st) = g_frame_limit st.
Proof. unfold frame_set_free. split_ifs; done. Qed.
Lemma set_free_search st f : g_search_start (frame_set_free f st) = g_search_start st.
Proof. unfold frame_set_free. split_ifs; done. Qed.
End Bitmap.
#[export] Hint Rewrite set_used_limit set_used_search set_free_limit set_free_search : tach.

(** ** Invariant *)

(** Number of free frames below the limit. *)
Definition count_free (st : pmm) : Z :=
  countb (fun f => negb (frame_is_used st f)) (Z.to_nat (g_frame_limit st)).

Record pmm_inv (st : pmm) : Prop := {
  inv_limit : 0 <= g_frame_limit st <= PMM_MAX_FRAMES;
  inv_search : 1 <= g_search_start st;
  inv_count : g_free_pages st = count_free st;
  inv_high : forall f, g_frame_limit st <= f -> frame_is_used st f = true;
  inv_refs : forall f, 0 <= g_frame_refs st f <= PMM_REF_SATURATED;
  inv_free_refs : forall f, 0 <= f -> frame_is_used st f = false -> g_frame_refs st f = 0
}.

Section Invariant.
Implicit Types (st : pmm) (f g : Z).

Lemma inv_set_used st f :
  pmm_inv st -> 0 <= f < g_frame_limit st -> pmm_inv (frame_set_used f st).
Proof.
  intros [Hl Hs Hc Hh Hr Hf] Hlt. split; rewrite ?set_used_limit, ?set_used_search; try done.
  - rewrite set_used_free_pages, Hc. unfold count_free. rewrite set_used_limit.
    destruct (frame_is_used st f) eqn:E; simpl.
    + apply countb_ext. intros. rewrite set_used_is_used by lia.
      destruct (Z.eqb_spec i f) as [->|]; simpl; [by rewrite E|done].
    + assert (0 < countb (fun g => negb (frame_is_used st g)) (Z.to_nat (g_frame_limit st))).
      { apply countb_pos with f; [lia|by rewrite E]. }
      destruct (_ =? 0) eqn:E0; [lia|].
      rewrite (countb_flip (fun g => negb (frame_is_used (frame_set_used f st) g))
                 (fun g => negb (frame_is_used st g)) _ f); [lia|lia| | |].
      * rewrite set_used_is_used, Z.eqb_refl by lia. done.
      * by rewrite E.
      * intros. rewrite set_used_is_used by lia. by destruct (Z.eqb_spec i f).
  - intros g Hg. rewrite set_used_is_used, (Hh g) by lia. apply orb_true_r.
  - intros g. rewrite set_used_refs. unfold PMM_REF_SATURATED in *. split_ifs; [lia|apply Hr].
  - intros g Hg. rewrite set_used_is_used, set_used_refs by lia.
    destruct (Z.eqb_spec g f); simpl; [done|]. by apply Hf.
Qed.

Lemma inv_set_free st f :
  pmm_inv st -> 0 <= f < g_frame_limit st -> pmm_inv (frame_set_free f st).
Proof.
  intros [Hl Hs Hc Hh Hr Hf] Hlt. split; rewrite ?set_free_limit, ?set_free_search; try done.
  - rewrite set_free_free_pages, Hc. unfold count_free. rewrite set_free_limit.
    destruct (frame_is_used st f) eqn:E.
    + symmetry. apply (countb_flip _ _ _ f); [lia| | |].
      * by rewrite E.
      * rewrite set_free_is_used, Z.eqb_refl by lia. done.
      * intros. rewrite set_free_is_used by lia. by destruct (Z.eqb_spec i f).
    + apply countb_ext. intros. rewrite set_free_is_used by lia.
      destruct (Z.eqb_spec i f) as [->|]; simpl; [by rewrite E|done].
  - intros g Hg. rewrite set_free_is_used, (Hh g) by lia. destruct (Z.eqb_spec g f); [lia|done].
  - intros g. rewrite set_free_refs. unfold PMM_REF_SATURATED in *. split_ifs; [lia|apply Hr].
  - intros g Hg. rewrite set_free_is_used, set_free_refs by lia.
    destruct (Z.eqb_spec g f); simpl; [done|]. by apply Hf.
Qed.

Lemma inv_set_refs st f v :
  pmm_inv st -> frame_is_used st f = true -> 0 <= v <= PMM_REF_SATURATED ->
  pmm_inv (set_refs (upd (g_frame_refs st) f v) st).
Proof.
  intros [Hl Hs Hc Hh Hr Hf] Hu Hv. split; try done.
  - intros g. simpl. rewrite upd_spec. by destruct (g =? f).
  - intros g Hg E. change (frame_is_used st g = false) in E. simpl. rewrite upd_spec.
    destruct (Z.eqb_spec g f); [congruence|]. by apply Hf.
Qed.

Lemma inv_set_search st x : pmm_inv st -> 1 <= x -> pmm_inv (set_search x st).
Proof. intros [] ?. by split. Qed.

Lemma take_frame_used st f g :
  0 <= f -> 0 <= g -> frame_is_used (take_frame f st) g = (g =? f) || frame_is_used st g.
Proof. intros. change (frame_is_used (take_frame f st) g) with (frame_is_used (frame_set_used f st) g). by apply set_used_is_used. Qed.

Lemma take_frame_refs st f g :
  g_frame_refs (take_frame f st) g = if g =? f then 1 else g_frame_refs st g.
Proof. unfold take_frame. simpl. rewrite upd_spec, set_used_refs. by destruct (Z.eqb_spec g f). Qed.

Lemma take_frame_limit st f : g_frame_limit (take_frame f st) = g_frame_limit st.
Proof. apply set_used_limit. Qed.

Lemma inv_take_frame st f :
  pmm_inv st -> 0 <= f < g_frame_limit st -> pmm_inv (take_frame f st).
Proof.
  intros H Hf. apply inv_set_refs; [by apply inv_set_used| |unfold PMM_REF_SATURATED; lia].
  rewrite set_used_is_used, Z.eqb_refl by lia. done.
Qed.

(** Taking a free frame lowers the free count by one. *)
Lemma take_frame_free_pages st f :
  pmm_inv st -> 0 <= f < g_frame_limit st -> frame_is_used st f = false ->
  g_free_pages (take_frame f st) = g_free_pages st - 1.
Proof.
  intros H Hf E. unfold take_frame. simpl. rewrite set_used_free_pages, E. simpl.
  assert (0 < g_free_pages st); [|destruct (_ =? 0) eqn:E0; lia].
  rewrite (inv_count _ H). apply countb_pos with f; [lia|by rewrite E].
Qed.

Lemma inv_for_range st a b body :
  pmm_inv st -> 0 <= a -> b <= g_frame_limit st ->
  (forall j s, 0 <= j < g_frame_limit s -> pmm_inv s -> pmm_inv (body j s)) ->
  (forall j s, g_frame_limit (body j s) = g_frame_limit s) ->
  pmm_inv (for_range a b body st) /\ g_frame_limit (for_range a b body st) = g_frame_limit st.
Proof.
  intros H Ha Hb Hf Hl.
  apply (for_range_inv (fun s => pmm_inv s /\ g_frame_limit s = g_frame_limit st)); [done|].
  intros j s Hj [Hs El]. split; [apply Hf; [lia|done]|]. by rewrite Hl.
Qed.
End Invariant.
#[export] Hint Resolve inv_set_used inv_set_free inv_take_frame : tach.

(** ** Scans *)
Section Scans.
Implicit Types (st : pmm) (f g : Z).

Lemma scan_free_Some st n i f :
  scan_free st n i = Some f -> i <= f < i + Z.of_nat n /\ frame_is_used st f = false.
Proof.
  revert i. induction n as [|n IH]; simpl; intros i H; [done|].
  destruct (frame_is_used st i) eqn:E; simpl in H.
  - apply IH in H. lia || (destruct H; split; [lia|done]).
  - simplify_eq. split; [lia|done].
Qed.

Lemma scan_free_None st n i :
  scan_free st n i = None -> forall f, i <= f < i + Z.of_nat n -> frame_is_used st f = true.
Proof.
  revert i. induction n as [|n IH]; simpl; intros i H f Hf; [lia|].
  destruct (frame_is_used st i) eqn:E; simpl in H; [|done].
  destruct (decide (f = i)) as [->|]; [done|]. apply (IH (i + 1)); [done|lia].
Qed.

Lemma scan_range_Some st a b f :
  scan_range st a b = Some f -> a <= f < b /\ frame_is_used st f = false.
Proof. intros [? ?]%scan_free_Some. split; [lia|done]. Qed.

Lemma scan_range_None st a b :
  scan_range st a b = None -> forall f, a <= f < b -> frame_is_used st f = true.
Proof. intros H f Hf. eapply scan_free_None; [done|lia]. Qed.

(** [first .. first+count-1] are free and [first] is aligned. *)
Definition free_run st first count align : Prop :=
  1 <= first /\ first + count <= g_frame_limit st /\ first .& (align - 1) = 0 /\
  forall i, first <= i < first + count -> frame_is_used st i = false.

Lemma scan_run_sound st count align n frame run first r :
  0 <= run < count -> 1 <= frame ->
  (run <> 0 -> first = frame - run /\ 1 <= first /\ first .& (align - 1) = 0 /\
               forall i, first <= i < frame -> frame_is_used st i = false) ->
  scan_run st count align n frame run first = Some r ->
  1 <= r /\ r + count <= frame + Z.of_nat n /\ r .& (align - 1) = 0 /\
  forall i, r <= i < r + count -> frame_is_used st i = false.
Proof.
  revert frame run first. induction n as [|n IH]; simpl; intros frame run first Hr Hfr Hinv H; [done|].
  destruct ((run =? 0) && negb (frame .& (align - 1) =? 0)) eqn:E1.
  - apply IH in H; [|lia..|intros; lia]. destruct H as (? & ? & ? & ?). repeat split; auto; lia.
  - destruct (frame_is_used st frame) eqn:E2; simpl in H.
    + apply IH in H; [|lia..]. destruct H as (? & ? & ? & ?). repeat split; auto; lia.
    + assert (Hnew : let first' := if run =? 0 then frame else first in
        first' = frame + 1 - (run + 1) /\ 1 <= first' /\ first' .& (align - 1) = 0 /\
        forall i, first' <= i < frame + 1 -> frame_is_used st i = false).
      { simpl. destruct (Z.eqb_spec run 0) as [->|Hn]; simpl in E1.
        - repeat split; [lia..| |]; [destruct (Z.eqb_spec (frame .& (align - 1)) 0); done|].
          intros i Hi. by replace i with frame by lia.
        - destruct (Hinv Hn) as (? & ? & ? & Hfree). repeat split; [lia..|done|].
          intros i Hi. destruct (decide (i = frame)) as [->|]; [done|]. apply Hfree. lia. }
      simpl in Hnew. set (first' := if run =? 0 then frame else first) in *.
      destruct Hnew as (Hf1 & Hf2 & Hf3 & Hf4).
      destruct (Z.eqb_spec (run + 1) count) as [Hc|Hc].
      * simplify_eq. repeat split; [lia..|done|]. intros i Hi. apply Hf4. lia.
      * apply IH in H; [|lia..|intros _; repeat split; [lia..|done|done]].
        destruct H as (? & ? & ? & ?). repeat split; auto; lia.
Qed.

(** A run already begun is completed when the frames that follow are free. *)
Lemma scan_run_continue st count align n frame run first :
  0 < run < count -> count - run <= Z.of_nat n ->
  (forall i, frame <= i < frame + (count - run) -> frame_is_used st i = false) ->
  scan_run st count align n frame run first <> None.
Proof.
  revert frame run. induction n as [|n IH]; simpl; intros frame run Hr Hn Hfree; [lia|].
  destruct ((run =? 0) && _) eqn:E1; [lia|]. rewrite Hfree by lia. simpl.
  destruct (Z.eqb_spec run 0); [lia|]. destruct (Z.eqb_spec (run + 1) count) as [Hc|Hc]; [done|].
  apply IH; [lia..|]. intros. apply Hfree. lia.
Qed.

Lemma scan_run_complete st count align n frame run first a :
  0 <= run < count -> frame <= a -> a + count <= frame + Z.of_nat n ->
  a .& (align - 1) = 0 ->
  (forall i, a <= i < a + count -> frame_is_used st i = false) ->
  scan_run st count align n frame run first <> None.
Proof.
  revert frame run first. induction n as [|n IH]; simpl; intros frame run first Hr Hfa Han Hal Hfree; [lia|].
  destruct (decide (frame = a)) as [->|Hne].
  - destruct ((run =? 0) && _) eqn:E1; [lia|]. rewrite Hfree by lia. simpl.
    destruct (Z.eqb_spec (run + 1) count) as [Hc|Hc]; [done|].
    apply scan_run_continue; [lia..|]. intros. apply Hfree. lia.
  - split_ifs; try done; apply IH; done || lia.
Qed.
End Scans.

(** ** Operations preserve the invariant *)
Section Operations.
Implicit Types (st : pmm) (f g : Z).

Lemma region_first_frame_nonneg start : 0 <= region_first_frame start.
Proof. apply Z.shiftr_nonneg. unfold u64. apply Z.mod_pos_bound. lia. Qed.

Lemma inv_mark_region_free st start size :
  pmm_inv st -> pmm_inv (pmm_mark_region_free start size st) /\
  g_frame_limit (pmm_mark_region_free start size st) = g_frame_limit st.
Proof.
  intros H. apply inv_for_range; [done|apply region_first_frame_nonneg| | |].
  - destruct (g_frame_limit st <? _) eqn:E; lia.
  - intros. by apply inv_set_free.
  - intros. apply set_free_limit.
Qed.

Lemma inv_mark_region_used st start size :
  pmm_inv st -> 0 <= start -> pmm_inv (pmm_mark_region_used start size st) /\
  g_frame_limit (pmm_mark_region_used start size st) = g_frame_limit st.
Proof.
  intros H Hs. apply inv_for_range; [done|by apply Z.shiftr_nonneg| | |].
  - destruct (g_frame_limit st <? _) eqn:E; lia.
  - intros. by apply inv_set_used.
  - intros. apply set_used_limit.
Qed.

(** What [pmm_alloc_frame] does, on both branches. *)
Lemma alloc_frame_cases st :
  pmm_inv st ->
  (pmm_alloc_frame st = (st, 0) /\ forall f, 1 <= f < g_frame_limit st -> frame_is_used st f = true) \/
  (exists f, 1 <= f < g_frame_limit st /\ frame_is_used st f = false /\
     pmm_alloc_frame st = (set_search (f + 1) (take_frame f st), f .<< PAGE_SHIFT)).
Proof.
  intros H. pose proof (inv_search _ H). unfold pmm_alloc_frame.
  destruct (scan_range st (g_search_start st) (g_frame_limit st)) as [f|] eqn:E1.
  - apply scan_range_Some in E1 as [? ?]. right. exists f. repeat split; [lia..|done].
  - destruct (scan_range st 1 (g_search_start st)) as [f|] eqn:E2.
    + apply scan_range_Some in E2 as [? ?]. right. exists f.
      assert (f < g_frame_limit st).
      { destruct (decide (f < g_frame_limit st)); [done|]. rewrite (inv_high _ H) in * by lia. done. }
      repeat split; [lia..|done].
    + left. split; [done|]. intros f Hf.
      destruct (decide (g_search_start st <= f)).
      * apply (scan_range_None _ _ _ E1). lia.
      * apply (scan_range_None _ _ _ E2). lia.
Qed.

Lemma inv_alloc_frame st : pmm_inv st -> pmm_inv (pmm_alloc_frame st).1.
Proof.
  intros H. destruct (alloc_frame_cases st H) as [[-> _]|(f & Hf & _ & ->)]; [done|].
  apply inv_set_search; [|lia]. apply inv_take_frame; [done|lia].
Qed.

Lemma bad_frame_address_false st a :
  bad_frame_address st a = false -> 0 <= a ->
  exists f, a = f * PAGE_SIZE /\ a .>> PAGE_SHIFT = f /\ 1 <= f < g_frame_limit st.
Proof.
  unfold bad_frame_address, PAGE_SIZE, PAGE_SHIFT. intros H Ha.
  replace (4096 - 1) with (2 ^ 12 - 1) in H by done.
  rewrite land_low_mask, Z.shiftr_div_pow2 in * by lia. change (2 ^ 12) with 4096 in *.
  exists (a / 4096). pose proof (Z.div_mod a 4096 ltac:(lia)). lia.
Qed.

Lemma good_frame_address st f :
  1 <= f < g_frame_limit st -> bad_frame_address st (f .<< PAGE_SHIFT) = false /\
  (f .<< PAGE_SHIFT) .>> PAGE_SHIFT = f.
Proof.
  intros Hf. unfold bad_frame_address, PAGE_SIZE, PAGE_SHIFT.
  replace (4096 - 1) with (2 ^ 12 - 1) by done.
  rewrite land_low_mask, Z.shiftl_mul_pow2, Z.shiftr_div_pow2, Z.mod_mul, Z.div_mul by lia.
  change (2 ^ 12) with 4096. split; [|done].
  destruct (Z.eqb_spec (f * 4096) 0); [lia|]. simpl. lia.
Qed.

Lemma inv_retain_frame st a : pmm_inv st -> pmm_inv (pmm_retain_frame a st).1.
Proof.
  intros H. unfold pmm_retain_frame. destruct (bad_frame_address st a); [done|]. simpl.
  split_ifs; [|done]. apply inv_set_refs; [done|lia|].
  pose proof (inv_refs _ H (a .>> PAGE_SHIFT)). unfold PMM_REF_SATURATED in *. lia.
Qed.

Lemma inv_free_frame st a : pmm_inv st -> 0 <= a -> pmm_inv (pmm_free_frame a st).
Proof.
  intros H Ha. unfold pmm_free_frame. destruct (bad_frame_address st a) eqn:Eb; [done|].
  apply bad_frame_address_false in Eb as (f & _ & -> & Hf); [|done].
  destruct (frame_is_used st f && _) eqn:E; [|done].
  pose proof (inv_refs _ H f). unfold PMM_REF_SATURATED in *.
  set (st1 := set_refs _ st). assert (H1 : pmm_inv st1).
  { apply inv_set_refs; [done|lia|unfold PMM_REF_SATURATED; lia]. }
  assert (H2 : pmm_inv (frame_set_free f st1)) by (apply inv_set_free; [done|simpl; lia]).
  split_ifs; [|done|done]. apply inv_set_search; [done|lia].
Qed.

(** The state after taking [first .. first+n-1]. *)
Lemma take_run st first n :
  pmm_inv st -> 0 <= n -> 1 <= first -> first + n <= g_frame_limit st ->
  (forall i, first <= i < first + n -> frame_is_used st i = false) ->
  let st' := for_range 0 n (fun i => take_frame (first + i)) st in
  pmm_inv st' /\ g_frame_limit st' = g_frame_limit st /\
  g_free_pages st' = g_free_pages st - n /\
  (forall g, 0 <= g -> frame_is_used st' g = ((first <=? g) && (g <? first + n)) || frame_is_used st g) /\
  (forall g, g_frame_refs st' g =
     if (first <=? g) && (g <? first + n) then 1 else g_frame_refs st g).
Proof.
  intros H Hn H1 Hlim Hfree st'.
  apply (for_range_ind (fun j s => pmm_inv s /\ g_frame_limit s = g_frame_limit st /\
    g_free_pages s = g_free_pages st - j /\
    (forall g, 0 <= g -> frame_is_used s g = ((first <=? g) && (g <? first + j)) || frame_is_used st g) /\
    (forall g, g_frame_refs s g = if (first <=? g) && (g <? first + j) then 1 else g_frame_refs st g)));
    [done| |].
  - split; [done|]. split; [done|]. split; [lia|]. split.
    + intros g Hg. destruct ((first <=? g) && (g <? first + 0)) eqn:E; [lia|done].
    + intros g. destruct ((first <=? g) && (g <? first + 0)) eqn:E; [lia|done].
  - intros j s Hj (Hs & El & Ef & Eu & Er). split_and!.
    + apply inv_take_frame; [done|lia].
    + by rewrite take_frame_limit.
    + rewrite take_frame_free_pages; [lia|done|lia|]. rewrite Eu, Hfree by lia. lia.
    + intros g Hg. rewrite take_frame_used, Eu by lia. destruct (frame_is_used st g); lia.
    + intros g. rewrite take_frame_refs, Er. split_ifs; done || lia.
Qed.

Lemma alloc_aligned_cases st count align :
  pmm_inv st -> 0 < count -> 0 < align ->
  (pmm_alloc_aligned_pages count align st = (st, 0) /\ forall a, ~ free_run st a count align) \/
  (exists first, free_run st first count align /\
     pmm_alloc_aligned_pages count align st =
       (set_search (first + count) (for_range 0 count (fun i => take_frame (first + i)) st),
        first .<< PAGE_SHIFT)).
Proof.
  intros H Hc Ha. unfold pmm_alloc_aligned_pages.
  destruct ((count =? 0) || (align =? 0)) eqn:E; [lia|].
  destruct (scan_run st count align (Z.to_nat (g_frame_limit st - 1)) 1 0 0) as [r|] eqn:Es.
  - right. exists r. split; [|done].
    apply scan_run_sound in Es; [|lia..|done].
    destruct Es as (H1 & H2 & H3 & H4). split; [done|]. split; [|done].
    destruct (decide (1 <= g_frame_limit st)); [lia|].
    pose proof (inv_high _ H r ltac:(lia)) as Hu. rewrite H4 in Hu by lia. done.
  - left. split; [done|]. intros a (H1 & H2 & H3 & H4).
    revert Es. eapply scan_run_complete with (a := a); (done || lia).
Qed.

Lemma inv_alloc_aligned st count align :
  pmm_inv st -> 0 <= count -> 0 <= align -> pmm_inv (pmm_alloc_aligned_pages count align st).1.
Proof.
  intros H Hc Ha. destruct (decide (count = 0 \/ align = 0)) as [E|E].
  - unfold pmm_alloc_aligned_pages. by replace ((count =? 0) || (align =? 0)) with true by lia.
  - destruct (alloc_aligned_cases st count align) as [[-> _]|(first & (?&?&?&?) & ->)]; [done|lia..|done|].
    apply inv_set_search; [|lia]. apply take_run; done || lia.
Qed.

Lemma inv_free_pages st base count : pmm_inv st -> pmm_inv (pmm_free_pages base count st).
Proof.
  intros H. unfold pmm_free_pages. apply for_range_inv; [done|]. intros. apply inv_free_frame; [done|].
  unfold u64. apply Z.mod_pos_bound. lia.
Qed.
End Operations.

(** ** Initialisation *)
Section Init.
Implicit Types (st : pmm) (f g : Z) (mm : list mem_region).

Lemma for_set_used st a b g :
  0 <= a -> 0 <= g ->
  frame_is_used (for_range a b frame_set_used st) g = ((a <=? g) && (g <? b)) || frame_is_used st g.
Proof.
  intros Ha Hg. destruct (decide (a <= b)); [|rewrite for_range_empty by lia; lia].
  apply (for_range_ind (fun j s => frame_is_used s g = ((a <=? g) && (g <? j)) || frame_is_used st g)); [done|lia|].
  intros j s Hj E. rewrite set_used_is_used, E by lia. lia.
Qed.

Lemma for_set_free st a b g :
  0 <= a -> 0 <= g ->
  frame_is_used (for_range a b frame_set_free st) g = negb ((a <=? g) && (g <? b)) && frame_is_used st g.
Proof.
  intros Ha Hg. destruct (decide (a <= b)); [|rewrite for_range_empty by lia; lia].
  apply (for_range_ind (fun j s => frame_is_used s g = negb ((a <=? g) && (g <? j)) && frame_is_used st g)); [done|lia|].
  intros j s Hj E. rewrite set_free_is_used, E by lia. lia.
Qed.

(** A region that does not wrap around the address space. *)
Definition region_ok (r : mem_region) : Prop :=
  0 <= mr_base r /\ 0 <= mr_size r /\ mr_base r + mr_size r <= 2 ^ 63.

(** Frame [f], as a byte range, lies inside / meets the region. *)
Definition frame_inside (f : Z) (r : mem_region) : Prop :=
  mr_base r <= f * PAGE_SIZE /\ (f + 1) * PAGE_SIZE <= mr_base r + mr_size r.
Definition frame_meets (f start size : Z) : Prop :=
  start < (f + 1) * PAGE_SIZE /\ f * PAGE_SIZE < start + size.

Lemma mark_region_used_covers st start size f :
  0 <= start -> 0 <= size -> start + size <= 2 ^ 63 -> 0 <= f < g_frame_limit st ->
  g_frame_limit st <= PMM_MAX_FRAMES ->
  frame_meets f start size -> frame_is_used (pmm_mark_region_used start size st) f = true.
Proof.
  intros Hs Hz Hw Hf Hl [H1 H2]. unfold pmm_mark_region_used.
  rewrite for_set_used by (lia || by apply Z.shiftr_nonneg).
  unfold PMM_MAX_FRAMES, PMM_MAX_PHYS_ADDR, PAGE_SHIFT, PAGE_SIZE in *.
  rewrite Z.shiftl_1_l, !Z.shiftr_div_pow2 in * by lia.
  change (2 ^ 32 / 4096) with 1048576 in *. change (2 ^ 12) with 4096.
  rewrite (u64_small (start + size)) by (unfold is_u64; lia).
  apply orb_true_iff. left.
  destruct ((start + size <? start) || (2 ^ 32 <? start + size)) eqn:E;
    rewrite u64_small by (unfold is_u64; lia); split_ifs; dlia.
Qed.

Lemma mark_region_free_inside st r f :
  region_ok r -> 0 <= f ->
  frame_is_used (pmm_mark_region_free (mr_base r) (mr_size r) st) f = false ->
  frame_is_used st f = false \/ frame_inside f r.
Proof.
  intros (Hb & Hs & Hw) Hf H. unfold pmm_mark_region_free in H.
  rewrite for_set_free in H by (lia || apply region_first_frame_nonneg).
  destruct (frame_is_used st f); [right|by left]. rewrite andb_true_r in H.
  unfold frame_inside, region_first_frame, region_last_frame, PAGE_SHIFT, PAGE_SIZE, PMM_MAX_PHYS_ADDR in *.
  rewrite !Z.shiftr_div_pow2 in H by lia. change (2 ^ 12) with 4096 in H.
  rewrite Z.shiftl_1_l, !u64_small in H by (unfold is_u64; lia).
  split_ifs_in H; dlia.
Qed.

Lemma mark_used_mono st start size f :
  0 <= start -> 0 <= f -> frame_is_used st f = true ->
  frame_is_used (pmm_mark_region_used start size st) f = true.
Proof.
  intros Hs Hf E. unfold pmm_mark_region_used.
  rewrite for_set_used, E by (lia || by apply Z.shiftr_nonneg). apply orb_true_r.
Qed.

Lemma init_limit_bounds mm : 0 <= init_limit mm <= PMM_MAX_FRAMES.
Proof.
  assert (H : forall lim, 0 <= lim -> 0 <= fold_left (fun lim r =>
            if lim <? region_frame_end r then region_frame_end r else lim) mm lim).
  { induction mm as [|r mm IH]; simpl; intros lim Hl; [done|]. apply IH. split_ifs; lia. }
  specialize (H 0 ltac:(lia)). unfold init_limit. cbv zeta. revert H.
  generalize (fold_left (fun lim r => if lim <? region_frame_end r then region_frame_end r else lim) mm 0).
  change PMM_MAX_FRAMES with 1048576. intros. split_ifs; lia.
Qed.

Lemma zero_is_used lim f : 0 <= f -> frame_is_used (set_limit lim pmm_zero) f = true.
Proof.
  intros. rewrite frame_is_used_bit by done. simpl.
  pose proof (Z.mod_pos_bound f 8 ltac:(lia)).
  change 255 with (Z.ones 8). rewrite Z.testbit_ones by lia. lia.
Qed.

Lemma init_start_inv mm : pmm_inv (set_limit (init_limit mm) pmm_zero).
Proof.
  pose proof (init_limit_bounds mm). split; simpl; try done.
  - unfold count_free. symmetry. simpl.
    rewrite (countb_ext _ (fun _ => false)).
    + by induction (Z.to_nat (init_limit mm)) as [|n IH]; simpl; [|rewrite IH].
    + intros. by rewrite zero_is_used by lia.
  - intros. apply zero_is_used. lia.
Qed.

Lemma mark_usable_inv mm st :
  pmm_inv st -> pmm_inv (mark_usable mm st) /\ g_frame_limit (mark_usable mm st) = g_frame_limit st.
Proof.
  revert st. unfold mark_usable. induction mm as [|r mm IH]; simpl; intros st H; [done|].
  destruct (_ =? _); [|by apply IH].
  destruct (inv_mark_region_free st (mr_base r) (mr_size r) H) as [H' <-]. by apply IH.
Qed.

Lemma mark_usable_inside mm st f :
  Forall region_ok mm -> 0 <= f -> frame_is_used st f = true ->
  frame_is_used (mark_usable mm st) f = false ->
  exists r, r ∈ mm /\ mr_type r = MEM_REGION_USABLE /\ frame_inside f r.
Proof.
  intros Hok Hf. revert st. unfold mark_usable.
  induction mm as [|r mm IH]; simpl; intros st Hz H; [congruence|].
  apply Forall_cons in Hok as [Hr Hok].
  assert (Hrec : forall st', frame_is_used st' f = true -> frame_is_used (mark_usable mm st') f = false ->
    exists r', r' ∈ r :: mm /\ mr_type r' = MEM_REGION_USABLE /\ frame_inside f r').
  { intros st' Hz' H'. destruct (IH Hok st' Hz' H') as (r' & ? & ?). exists r'. split; [by right|done]. }
  destruct (Z.eqb_spec (mr_type r) MEM_REGION_USABLE) as [Et|Et]; [|by apply (Hrec st)].
  destruct (frame_is_used (pmm_mark_region_free (mr_base r) (mr_size r) st) f) eqn:E; [by eapply Hrec|].
  apply mark_region_free_inside in E as [E|E]; [congruence| |done..].
  exists r. split; [by left|done].
Qed.

Lemma mark_reserved_inv mm st :
  Forall region_ok mm -> pmm_inv st ->
  pmm_inv (mark_reserved mm st) /\ g_frame_limit (mark_reserved mm st) = g_frame_limit st.
Proof.
  intros Hok. revert st. unfold mark_reserved. induction mm as [|r mm IH]; simpl; intros st H; [done|].
  apply Forall_cons in Hok as [(Hb & _) Hok].
  destruct (negb _); [|by apply IH].
  destruct (inv_mark_region_used st (mr_base r) (mr_size r) H Hb) as [H' <-]. by apply IH.
Qed.

Lemma mark_reserved_clear mm st f :
  Forall region_ok mm -> pmm_inv st -> 0 <= f < g_frame_limit st ->
  frame_is_used (mark_reserved mm st) f = false ->
  frame_is_used st f = false /\
  forall r, r ∈ mm -> mr_type r <> MEM_REGION_USABLE -> ~ frame_meets f (mr_base r) (mr_size r).
Proof.
  intros Hok. revert st. unfold mark_reserved.
  induction mm as [|r mm IH]; simpl; intros st H Hf Hu; [by split; [|inversion 1]|].
  apply Forall_cons in Hok as [(Hb & Hs & Hw) Hok]. pose proof (inv_limit _ H) as [_ Hl].
  destruct (Z.eqb_spec (mr_type r) MEM_REGION_USABLE) as [Et|Et]; simpl in Hu.
  - destruct (IH Hok st H Hf Hu) as [? Hr]. split; [done|]. intros r' [->|Hin]%elem_of_cons; [done|by apply Hr].
  - destruct (inv_mark_region_used st (mr_base r) (mr_size r) H Hb) as [H' El].
    destruct (IH Hok _ H' ltac:(lia) Hu) as [Hu' Hr].
    assert (frame_is_used st f = false).
    { destruct (frame_is_used st f) eqn:E; [|done].
      rewrite (mark_used_mono st) in Hu' by (done || lia). done. }
    split; [done|]. intros r' [->|Hin]%elem_of_cons Ht; [|by apply Hr].
    intros Hm. rewrite (mark_region_used_covers st) in Hu' by (done || lia). done.
Qed.

Lemma pmm_init_inv mm ks ke :
  Forall region_ok mm -> 0 <= ks -> pmm_inv (pmm_init mm ks ke) /\
  g_frame_limit (pmm_init mm ks ke) = init_limit mm.
Proof.
  intros Hok Hk. unfold pmm_init.
  destruct (mark_usable_inv mm _ (init_start_inv mm)) as [H1 E1].
  destruct (mark_reserved_inv mm _ Hok H1) as [H2 E2].
  destruct (inv_mark_region_used _ 0 PAGE_SIZE H2) as [H3 E3]; [lia|].
  destruct (inv_mark_region_used _ 0x8000 PAGE_SIZE H3) as [H4 E4]; [lia|].
  destruct (inv_mark_region_used _ ks (ke - ks) H4) as [H5 E5]; [lia|].
  split; [by destruct H5; split|]. simpl. by rewrite E5, E4, E3, E2, E1.
Qed.
End Init.

(** ** Holes *)

(** A frame the allocator does not manage: used, with no reference. The memory
    map leaves such frames (pmm_init starts with every bit set and every count
    zero); no operation makes a new one. *)
Definition hole (st : pmm) (f : Z) : Prop := frame_is_used st f = true /\ g_frame_refs st f = 0.

Section Holes.
Implicit Types (st : pmm) (f g : Z).

Lemma hole_set_used st f g : 0 <= f -> 0 <= g -> hole (frame_set_used f st) g -> hole st g.
Proof.
  intros Hf Hg [Hu Hr]. rewrite set_used_is_used in Hu by done. rewrite set_used_refs in Hr.
  destruct (Z.eqb_spec g f) as [->|]; simpl in *; [|done]. destruct (Z.eqb_spec (g_frame_refs st f) 0); lia.
Qed.

Lemma hole_set_free st f g : 0 <= f -> 0 <= g -> hole (frame_set_free f st) g -> hole st g.
Proof.
  intros Hf Hg [Hu Hr]. rewrite set_free_is_used in Hu by done. rewrite set_free_refs in Hr.
  by destruct (Z.eqb_spec g f).
Qed.

Lemma hole_take_frame st f g : 0 <= f -> 0 <= g -> hole (take_frame f st) g -> hole st g.
Proof.
  intros Hf Hg [Hu Hr]. rewrite take_frame_used in Hu by done. rewrite take_frame_refs in Hr.
  by destruct (Z.eqb_spec g f).
Qed.

Lemma hole_for_range st a b body g : 0 <= a ->
  (forall j s, 0 <= j -> hole (body j s) g -> hole s g) -> hole (for_range a b body st) g -> hole st g.
Proof.
  intros Ha Hb. apply (for_range_inv (fun s => hole s g -> hole st g)); [done|].
  intros j s Hj IH H. apply IH. apply (Hb j); [lia|done].
Qed.

Lemma hole_mark_used st start size g : 0 <= start -> 0 <= g -> hole (pmm_mark_region_used start size st) g -> hole st g.
Proof.
  intros Hs Hg. apply hole_for_range; [by apply Z.shiftr_nonneg|]. intros j s Hj. by apply hole_set_used.
Qed.

Lemma hole_mark_free st start size g : 0 <= g -> hole (pmm_mark_region_free start size st) g -> hole st g.
Proof.
  intros Hg. apply hole_for_range; [apply region_first_frame_nonneg|]. intros j s Hj. by apply hole_set_free.
Qed.

Lemma hole_free_frame st a g : pmm_inv st -> 0 <= a -> 0 <= g -> hole (pmm_free_frame a st) g -> hole st g.
Proof.
  intros Hi Ha Hg. unfold pmm_free_frame. destruct (bad_frame_address st a) eqn:Eb; [done|].
  apply bad_frame_address_false in Eb as (f & _ & -> & Hf); [|done].
  destruct (frame_is_used st f && _) eqn:E; [|done]. simpl. rewrite upd_eq.
  destruct (Z.eqb_spec (g_frame_refs st f - 1) 0) as [E1|E1].
  - intros H. assert (Hh : hole (frame_set_free f (set_refs (upd (g_frame_refs st) f (g_frame_refs st f - 1)) st)) g)
      by (revert H; split_ifs; done).
    destruct Hh as [Hu Hr]. rewrite set_free_is_used in Hu by lia. rewrite set_free_refs in Hr. simpl in Hr. rewrite upd_spec in Hr.
    by destruct (Z.eqb_spec g f).
  - intros [Hu Hr]. change (frame_is_used st g = true) in Hu. simpl in Hr. rewrite upd_spec in Hr.
    destruct (Z.eqb_spec g f); [lia|done].
Qed.

(** A frame inside a usable region is managed from the start. *)
Lemma mark_free_no_hole st r f : region_ok r -> 0 <= f < g_frame_limit st -> g_frame_limit st <= PMM_MAX_FRAMES ->
  frame_inside f r -> ~ hole (pmm_mark_region_free (mr_base r) (mr_size r) st) f.
Proof.
  intros (Hb & Hs & Hw) Hf Hl Hin [Hu _]. revert Hu. unfold pmm_mark_region_free.
  rewrite for_set_free by (lia || apply region_first_frame_nonneg). intros [Hr _]%andb_true_iff. revert Hr.
  unfold frame_inside, region_first_frame, region_last_frame, PAGE_SHIFT, PAGE_SIZE, PMM_MAX_PHYS_ADDR, PMM_MAX_FRAMES in *.
  rewrite !Z.shiftr_div_pow2 by lia. change (2 ^ 12) with 4096.
  rewrite !u64_small by (unfold is_u64; lia). intros Hr. rewrite Z.shiftl_1_l in Hr.
  change (PMM_MAX_PHYS_ADDR / PAGE_SIZE) with 1048576 in Hl. change (2 ^ 32) with 4294967296 in *. change (4294967296 / 4096) with 1048576 in *.
  split_ifs_in Hr; dlia.
Qed.

Lemma mark_usable_hole mm st f : pmm_inv st -> Forall region_ok mm -> 0 <= f < g_frame_limit st -> hole (mark_usable mm st) f ->
  hole st f /\ forall r, r ∈ mm -> mr_type r = MEM_REGION_USABLE -> ~ frame_inside f r.
Proof.
  intros Hi Hok. revert st Hi. unfold mark_usable. induction mm as [|r mm IH]; simpl; intros st Hi Hf Hh; [by split; [|inversion 1]|].
  apply Forall_cons in Hok as [Hr Hok]. destruct (Z.eqb_spec (mr_type r) MEM_REGION_USABLE) as [Et|Et].
  - destruct (inv_mark_region_free st (mr_base r) (mr_size r) Hi) as [Hi' El].
    destruct (IH Hok _ Hi' ltac:(lia) Hh) as [H1 H2]. split; [apply hole_mark_free in H1; [done|lia]|].
    intros r' [->|Hin]%elem_of_cons; [|by apply H2]. intros _ Hx. revert H1.
    apply mark_free_no_hole; [done|done|apply (inv_limit _ Hi)|done].
  - destruct (IH Hok st Hi Hf Hh) as [H1 H2]. split; [done|]. intros r' [->|Hin]%elem_of_cons; [done|by apply H2].
Qed.

Lemma mark_reserved_hole mm st f : Forall region_ok mm -> 0 <= f -> hole (mark_reserved mm st) f -> hole st f.
Proof.
  intros Hok Hf. revert st. unfold mark_reserved. induction mm as [|r mm IH]; simpl; intros st Hh; [done|].
  apply Forall_cons in Hok as [(Hb & _) Hok]. apply (IH Hok) in Hh. revert Hh. destruct (negb _); [|done]. by apply hole_mark_used.
Qed.

Lemma pmm_init_hole mm ks ke f r : Forall region_ok mm -> 0 <= ks -> 0 <= f < init_limit mm ->
  r ∈ mm -> mr_type r = MEM_REGION_USABLE -> frame_inside f r -> ~ hole (pmm_init mm ks ke) f.
Proof.
  intros Hok Hk Hf Hr Ht Hin Hh. unfold pmm_init in Hh. cbv zeta in Hh.
  set (s0 := mark_usable mm _) in Hh.
  assert (Hh' : hole s0 f).
  { apply (mark_reserved_hole mm); [done|lia|]. apply (hole_mark_used _ 0 PAGE_SIZE); [lia..|].
    apply (hole_mark_used _ 0x8000 PAGE_SIZE); [lia..|]. by apply (hole_mark_used _ ks (ke - ks)); [lia..|]. }
  apply mark_usable_hole in Hh'; [|apply init_start_inv|done|done]. destruct Hh' as [_ Hh']. by eapply Hh'.
Qed.
End Holes.

(** ** Reachable states *)

(** One call of the public interface. *)
Inductive pmm_step (st : pmm) : pmm -> Prop :=
| step_mark_free start size : is_u64 start -> is_u64 size -> pmm_step st (pmm_mark_region_free start size st)
| step_mark_used start size : is_u64 start -> is_u64 size -> pmm_step st (pmm_mark_region_used start size st)
| step_alloc : pmm_step st (pmm_alloc_frame st).1
| step_retain a : is_u64 a -> pmm_step st (pmm_retain_frame a st).1
| step_free a : is_u64 a -> pmm_step st (pmm_free_frame a st)
| step_alloc_pages count align : is_u64 count -> is_u64 align -> pmm_step st (pmm_alloc_aligned_pages count align st).1
| step_free_pages base count : is_u64 base -> is_u64 count -> pmm_step st (pmm_free_pages base count st).

Lemma pmm_step_inv st st' : pmm_inv st -> pmm_step st st' -> pmm_inv st'.
Proof.
  intros H. destruct 1; unfold is_u64 in *.
  - by apply inv_mark_region_free.
  - apply inv_mark_region_used; [done|lia].
  - by apply inv_alloc_frame.
  - by apply inv_retain_frame.
  - apply inv_free_frame; [done|lia].
  - apply inv_alloc_aligned; [done|lia..].
  - by apply inv_free_pages.
Qed.

Lemma pmm_step_hole st st' f : pmm_inv st -> 0 <= f -> pmm_step st st' -> hole st' f -> hole st f.
Proof.
  intros Hi Hf. destruct 1 as [| | |a|a Ha|count align Hc Hal|base count]; unfold is_u64 in *.
  - by apply hole_mark_free.
  - apply hole_mark_used; lia.
  - destruct (alloc_frame_cases st Hi) as [[-> _]|(g & Hg & _ & ->)]; [done|]. apply hole_take_frame; lia.
  - unfold pmm_retain_frame. destruct (bad_frame_address st a); [done|]. simpl. split_ifs; [|done].
    intros [Hu Hr]. simpl in Hr. rewrite upd_spec in Hr. pose proof (inv_refs _ Hi (a .>> PAGE_SHIFT)).
    destruct (Z.eqb_spec f (a .>> PAGE_SHIFT)); [lia|done].
  - apply hole_free_frame; [done|lia|lia].
  - destruct (decide (count = 0 \/ align = 0)) as [E|E].
    + unfold pmm_alloc_aligned_pages. by replace ((count =? 0) || (align =? 0)) with true by lia.
    + destruct (alloc_aligned_cases st count align) as [[-> _]|(first & (?&?&?&?) & ->)]; [done|lia..|done|].
      intros Hh. change (hole (for_range 0 count (fun i => take_frame (first + i)) st) f) in Hh. revert Hh.
      apply hole_for_range; [lia|]. intros j s Hj. apply hole_take_frame; lia.
  - unfold pmm_free_pages. intros Hh.
    apply (for_range_inv (fun s => pmm_inv s /\ (hole s f -> hole st f)) 0 count (fun i => pmm_free_frame (u64 (base + i * PAGE_SIZE))) st); [done| |done].
    intros j s Hj [Hs IH]. assert (0 <= u64 (base + j * PAGE_SIZE)) by (apply Z.mod_pos_bound; lia).
    split; [by apply inv_free_frame|]. intros Hh'. apply IH. by eapply hole_free_frame.
Qed.

(** ** Theorems *)

(** C21: in every state reachable from [pmm_init] by calls of the allocator's
    interface, the free-page counter is the number of clear bits below the
    frame limit, no frame at or above the limit is free, and a free frame has
    reference count zero. Conversely, a frame the memory map gives to the
    allocator (inside a usable region and below the limit), and any other one
    it ever managed, is free when its reference count is zero: used frames
    without a reference are only the holes [pmm_init] left, and no call makes
    a new one, so no frame is lost. *)
Theorem pmm_reachable_inv (mm : list mem_region) (ks ke : Z) (st : pmm) :
  Forall region_ok mm -> 0 <= ks -> rtc pmm_step (pmm_init mm ks ke) st ->
  g_free_pages st = count_free st /\
  (forall f, 0 <= f -> frame_is_used st f = false -> f < g_frame_limit st /\ g_frame_refs st f = 0) /\
  (forall f r, 0 <= f < init_limit mm -> r ∈ mm -> mr_type r = MEM_REGION_USABLE -> frame_inside f r ->
     (frame_is_used st f = false <-> g_frame_refs st f = 0)) /\
  (forall f, 0 <= f -> hole st f -> hole (pmm_init mm ks ke) f).
Proof.
  intros Hok Hk Hr.
  assert (H : pmm_inv st /\ forall f, 0 <= f -> hole st f -> hole (pmm_init mm ks ke) f).
  { apply (rtc_preserve (fun s => pmm_inv s /\ forall f, 0 <= f -> hole s f -> hole (pmm_init mm ks ke) f) pmm_step (pmm_init mm ks ke));
      [|split; [by apply pmm_init_inv|done]|done].
    intros s s' [Hs Hh] Hstep. split; [by eapply pmm_step_inv|]. intros f Hf Hx. apply Hh; [done|]. by eapply pmm_step_hole. }
  destruct H as [H Hh]. split_and!; [apply H| | |done].
  - intros f Hf E. split; [|by apply H].
    destruct (decide (f < g_frame_limit st)); [done|]. rewrite (inv_high _ H) in E by lia. done.
  - intros f r Hf Hin Ht Hx. split; [apply (inv_free_refs _ H); lia|]. intros E.
    destruct (frame_is_used st f) eqn:Eu; [|done]. destruct (pmm_init_hole mm ks ke f r); try done. apply Hh; [lia|done].
Qed.

(** A frame is allocated and given back: its bit and its count agree before,
    in between and after. *)
Lemma pmm_reachable_inv_witness :
  let st := pmm_init [MemRegion 0 0x40000 1; MemRegion 0x20000 0x4000 2] 0x10000 0x12345 in
  let st1 := (pmm_alloc_frame st).1 in
  let st2 := pmm_free_frame 0x1000 st1 in
  (pmm_alloc_frame st).2 = 0x1000 /\ g_free_pages st1 = count_free st1 /\ g_frame_refs st1 1 = 1 /\
  g_frame_refs st2 1 = 0 /\ frame_is_used st2 1 = false.
Proof.
  intros st st1 st2. assert (Hr1 : rtc pmm_step st st1) by (eapply rtc_l; [apply step_alloc|apply rtc_refl]).
  assert (Hr2 : rtc pmm_step st st2) by (eapply rtc_r; [exact Hr1|apply (step_free _ 0x1000); unfold is_u64; lia]).
  assert (Hok : Forall region_ok [MemRegion 0 0x40000 1; MemRegion 0x20000 0x4000 2]) by (repeat constructor; simpl; lia).
  assert (E0 : (pmm_alloc_frame st).2 = 0x1000) by (vm_compute; reflexivity).
  assert (E1 : g_frame_refs st1 1 = 1) by (vm_compute; reflexivity).
  assert (E2 : g_frame_refs st2 1 = 0) by (vm_compute; reflexivity).
  split; [exact E0|]. split; [exact (proj1 (pmm_reachable_inv _ 0x10000 0x12345 _ Hok ltac:(lia) Hr1))|]. split; [exact E1|]. split; [exact E2|].
  apply (proj1 (proj2 (proj2 (pmm_reachable_inv _ 0x10000 0x12345 _ Hok ltac:(lia) Hr2))) 1 (MemRegion 0 0x40000 1)); [|left|reflexivity|unfold frame_inside, PAGE_SIZE; simpl; lia|exact E2].
  replace (init_limit _) with 64 by (vm_compute; reflexivity). lia.
Defined.

(** [pmm_alloc_frame] either returns 0, leaves the state alone and there is
    no free frame other than frame 0, or returns the address of a frame that
    was free, marks exactly that frame used with one reference and lowers the
    free count by one. *)
Theorem pmm_alloc_frame_correct (st : pmm) :
  pmm_inv st ->
  let '(st', a) := pmm_alloc_frame st in
  (a = 0 /\ st' = st /\ forall f, 1 <= f < g_frame_limit st -> frame_is_used st f = true) \/
  (exists f, a = f * PAGE_SIZE /\ 1 <= f < g_frame_limit st /\ frame_is_used st f = false /\
     g_free_pages st' = g_free_pages st - 1 /\
     (forall g, 0 <= g -> frame_is_used st' g = (g =? f) || frame_is_used st g) /\
     (forall g, g_frame_refs st' g = if g =? f then 1 else g_frame_refs st g)).
Proof.
  intros H. destruct (alloc_frame_cases st H) as [[-> Hn]|(f & Hf & Hu & ->)]; [by left|right].
  exists f. split; [unfold PAGE_SHIFT; by rewrite Z.shiftl_mul_pow2 by lia|].
  split_and!; [lia..|done| | |].
  - apply take_frame_free_pages; [done|lia|done].
  - intros g Hg. apply (take_frame_used st f g); lia.
  - intros g. apply take_frame_refs.
Qed.

Lemma pmm_alloc_frame_correct_witness :
  let st := pmm_init [MemRegion 0 0x40000 1] 0x10000 0x12345 in
  pmm_inv st /\ exists f, (pmm_alloc_frame st).2 = f * PAGE_SIZE /\ frame_is_used st f = false.
Proof.
  intros st. assert (H : pmm_inv st).
  { apply pmm_init_inv; [|lia]. repeat constructor; simpl; lia. }
  split; [exact H|].
  pose proof (pmm_alloc_frame_correct st H) as Hc.
  assert (Hn : (pmm_alloc_frame st).2 <> 0) by (vm_compute; discriminate).
  clearbody st. destruct (pmm_alloc_frame st) as [st' a]. cbn [snd] in *.
  destruct Hc as [[Ha _]|(f & Ha & _ & Hu & _)]; [by destruct Hn|].
  exists f. split; [exact Ha|exact Hu].
Defined.

(** What retain and free do to an allocated frame. *)
Section Refcounts.
Implicit Types (st : pmm).
Variables (st : pmm) (f : Z).
Hypothesis Hf : 1 <= f < g_frame_limit st.
Hypothesis Hused : frame_is_used st f = true.

Lemma retain_frame_eq :
  0 < g_frame_refs st f < PMM_REF_SATURATED ->
  pmm_retain_frame (f .<< PAGE_SHIFT) st =
    (set_refs (upd (g_frame_refs st) f (g_frame_refs st f + 1)) st, true).
Proof.
  intros Hr. unfold pmm_retain_frame. destruct (good_frame_address st f Hf) as [-> ->].
  rewrite Hused. unfold PMM_REF_SATURATED in *.
  destruct (Z.eqb_spec (g_frame_refs st f) 0); [lia|].
  destruct (Z.eqb_spec (g_frame_refs st f) 255); [lia|]. done.
Qed.

Lemma free_frame_shared :
  1 < g_frame_refs st f ->
  pmm_free_frame (f .<< PAGE_SHIFT) st =
    set_refs (upd (g_frame_refs st) f (g_frame_refs st f - 1)) st.
Proof.
  intros Hr. unfold pmm_free_frame. destruct (good_frame_address st f Hf) as [-> ->].
  rewrite Hused. destruct (Z.eqb_spec (g_frame_refs st f) 0); [lia|]. simpl.
  rewrite upd_eq. destruct (Z.eqb_spec (g_frame_refs st f - 1) 0); [lia|done].
Qed.

Lemma free_frame_last :
  g_frame_refs st f = 1 ->
  let st' := pmm_free_frame (f .<< PAGE_SHIFT) st in
  (forall g, 0 <= g -> frame_is_used st' g = negb (g =? f) && frame_is_used st g) /\
  (forall g, g_frame_refs st' g = if g =? f then 0 else g_frame_refs st g) /\
  g_free_pages st' = g_free_pages st + 1.
Proof.
  intros Hr. unfold pmm_free_frame. destruct (good_frame_address st f Hf) as [-> ->].
  rewrite Hused, Hr. simpl. rewrite upd_eq. simpl.
  set (st1 := set_refs _ st). destruct (f <? _); cbv zeta; split_and!.
  all: try (intros g Hg; apply (set_free_is_used st1 f g); lia).
  all: change (g_frame_refs (set_search f (frame_set_free f st1))) with (g_frame_refs (frame_set_free f st1)) ||
       change (g_free_pages (set_search f (frame_set_free f st1))) with (g_free_pages (frame_set_free f st1)) ||
       idtac.
  all: try (intros g; rewrite set_free_refs; destruct (Z.eqb_spec g f); [done|];
            unfold st1; simpl; by rewrite upd_ne).
  all: rewrite set_free_free_pages; change (frame_is_used st1 f) with (frame_is_used st f);
    by rewrite Hused.
Qed.

Lemma refcount_eq : pmm_frame_refcount (f .<< PAGE_SHIFT) st = g_frame_refs st f.
Proof. unfold pmm_frame_refcount. by destruct (good_frame_address st f Hf) as [-> ->]. Qed.
End Refcounts.

(** After an allocation, retaining the frame and freeing it once keeps it
    allocated with one reference; freeing it again restores the allocation
    state: the same frames are used, with the same reference counts, and the
    free count is what it was before the allocation. *)
Theorem pmm_alloc_free_roundtrip (st : pmm) :
  pmm_inv st -> (pmm_alloc_frame st).2 <> 0 ->
  let '(st1, a) := pmm_alloc_frame st in
  let '(st2, ok) := pmm_retain_frame a st1 in
  let st3 := pmm_free_frame a st2 in
  let st4 := pmm_free_frame a st3 in
  ok = true /\ pmm_frame_refcount a st2 = 2 /\ pmm_frame_refcount a st3 = 1 /\
  (forall f, 0 <= f -> frame_is_used st3 f = frame_is_used st1 f) /\
  (forall f, 0 <= f -> frame_is_used st4 f = frame_is_used st f /\ g_frame_refs st4 f = g_frame_refs st f) /\
  g_free_pages st4 = g_free_pages st.
Proof.
  intros H Hn0. destruct (alloc_frame_cases st H) as [[E _]|(f & Hf & Hu & E)];
    rewrite E in *; simpl in Hn0; [lia|]. set (st1 := set_search (f + 1) (take_frame f st)).
  assert (Hf1 : 1 <= f < g_frame_limit st1) by (change (g_frame_limit st1) with (g_frame_limit (take_frame f st)); rewrite take_frame_limit; lia).
  assert (Hu1 : forall g, 0 <= g -> frame_is_used st1 g = (g =? f) || frame_is_used st g).
  { intros g Hg. apply (take_frame_used st f g); lia. }
  assert (Hr1 : forall g, g_frame_refs st1 g = if g =? f then 1 else g_frame_refs st g) by apply take_frame_refs.
  assert (Hff : frame_is_used st1 f = true) by (rewrite Hu1, Z.eqb_refl by lia; done).
  assert (Hrf : g_frame_refs st1 f = 1) by (by rewrite Hr1, Z.eqb_refl).
  rewrite (retain_frame_eq st1 f Hf1 Hff) by (rewrite Hrf; unfold PMM_REF_SATURATED; lia).
  rewrite Hrf. set (st2 := set_refs _ st1).
  assert (Hr2 : g_frame_refs st2 f = 2) by apply upd_eq.
  rewrite (free_frame_shared st2 f Hf1 Hff) by lia. rewrite Hr2. set (st3 := set_refs _ st2).
  assert (Hr3 : forall g, g_frame_refs st3 g = g_frame_refs st1 g).
  { intros g. unfold st3, st2. simpl. rewrite !upd_spec. destruct (Z.eqb_spec g f) as [->|]; [lia|done]. }
  destruct (free_frame_last st3 f Hf1 Hff) as (Hu4 & Hr4 & Hc4); [by rewrite Hr3|].
  cbv zeta. rewrite (refcount_eq st2 f Hf1), (refcount_eq st3 f Hf1). split_and!; [done|done|by rewrite Hr3|done| |].
  - intros g Hg. rewrite Hu4, Hr4, Hr3, Hr1 by lia. change (frame_is_used st3 g) with (frame_is_used st1 g).
    rewrite Hu1 by lia. destruct (Z.eqb_spec g f) as [->|]; simpl; [|done].
    split; [done|]. symmetry. apply H; [lia|done].
  - rewrite Hc4. change (g_free_pages st3) with (g_free_pages (take_frame f st)).
    rewrite take_frame_free_pages by (done || lia). lia.
Qed.

Lemma pmm_alloc_free_roundtrip_witness :
  let st := pmm_init [MemRegion 0 0x40000 1] 0x10000 0x12345 in
  pmm_inv st /\ (pmm_alloc_frame st).2 <> 0 /\
  g_free_pages (pmm_free_frame PAGE_SIZE (pmm_free_frame PAGE_SIZE
     (pmm_retain_frame PAGE_SIZE (pmm_alloc_frame st).1).1)) = g_free_pages st.
Proof.
  intros st. assert (H : pmm_inv st).
  { apply pmm_init_inv; [|lia]. repeat constructor; simpl; lia. }
  assert (Hn : (pmm_alloc_frame st).2 <> 0) by (vm_compute; discriminate).
  split; [exact H|]. split; [exact Hn|].
  pose proof (pmm_alloc_free_roundtrip st H Hn) as Hc.
  assert (Ha : (pmm_alloc_frame st).2 = PAGE_SIZE) by (vm_compute; reflexivity).
  clearbody st. destruct (pmm_alloc_frame st) as [st1 a]. cbn [fst snd] in *. subst a.
  destruct (pmm_retain_frame PAGE_SIZE st1) as [st2 ok].
  destruct Hc as (_ & _ & _ & _ & _ & Hc). exact Hc.
Defined.

(** [pmm_alloc_aligned_pages] returns a run of [count] frames that were all
    free, whose first frame satisfies the alignment mask, takes exactly those
    frames with one reference each and lowers the free count by [count]; it
    fails only when no such run exists, and then changes nothing. *)
Theorem pmm_alloc_aligned_correct (st : pmm) (count align : Z) :
  pmm_inv st -> 0 < count -> 0 < align ->
  let '(st', a) := pmm_alloc_aligned_pages count align st in
  (a = 0 /\ st' = st /\ forall first, ~ free_run st first count align) \/
  (exists first, a = first * PAGE_SIZE /\ free_run st first count align /\ pmm_inv st' /\
     g_free_pages st' = g_free_pages st - count /\
     (forall g, 0 <= g -> frame_is_used st' g = ((first <=? g) && (g <? first + count)) || frame_is_used st g) /\
     (forall g, g_frame_refs st' g = if (first <=? g) && (g <? first + count) then 1 else g_frame_refs st g)).
Proof.
  intros H Hc Ha. destruct (alloc_aligned_cases st count align H Hc Ha) as [[-> Hn]|(first & Hrun & ->)];
    [by left|right].
  exists first. destruct Hrun as (H1 & H2 & H3 & H4).
  destruct (take_run st first count H ltac:(lia) H1 H2 H4) as (Hi & _ & Hfp & Hu & Hr).
  split_and!; try done; [|by apply inv_set_search; [|lia]].
  unfold PAGE_SHIFT. by rewrite Z.shiftl_mul_pow2 by lia.
Qed.

Lemma pmm_alloc_aligned_correct_witness :
  let st := pmm_init [MemRegion 0 0x40000 1] 0x10000 0x12345 in
  pmm_inv st /\ exists first, (pmm_alloc_aligned_pages 20 8 st).2 = first * PAGE_SIZE /\ free_run st first 20 8.
Proof.
  intros st. assert (H : pmm_inv st).
  { apply pmm_init_inv; [|lia]. repeat constructor; simpl; lia. }
  split; [exact H|].
  pose proof (pmm_alloc_aligned_correct st 20 8 H ltac:(lia) ltac:(lia)) as Hc.
  assert (Hn : (pmm_alloc_aligned_pages 20 8 st).2 <> 0) by (vm_compute; discriminate).
  clearbody st. destruct (pmm_alloc_aligned_pages 20 8 st) as [st' a]. cbn [snd] in *.
  destruct Hc as [[Ha _]|(f & Ha & Hr & _)]; [by destruct Hn|].
  exists f. split; [exact Ha|exact Hr].
Defined.

(** C22: a frame that is free after [pmm_init] lies wholly inside a usable region
    of the memory map and meets no reserved region, no part of the kernel
    image, not the first page and not the SMP trampoline page. *)
Theorem pmm_init_only_usable (mm : list mem_region) (ks ke f : Z) :
  Forall region_ok mm -> 0 <= ks <= ke -> ke <= 2 ^ 63 -> 0 <= f ->
  frame_is_used (pmm_init mm ks ke) f = false ->
  (exists r, r ∈ mm /\ mr_type r = MEM_REGION_USABLE /\ frame_inside f r) /\
  (forall r, r ∈ mm -> mr_type r <> MEM_REGION_USABLE -> ~ frame_meets f (mr_base r) (mr_size r)) /\
  ~ frame_meets f ks (ke - ks) /\ f <> 0 /\ f <> 8.
Proof.
  intros Hok Hk Hke Hf Hu.
  destruct (pmm_init_inv mm ks ke Hok ltac:(lia)) as [Hi El].
  assert (Hlim : f < init_limit mm).
  { rewrite <- El. destruct (decide (f < g_frame_limit (pmm_init mm ks ke))); [done|].
    rewrite (inv_high _ Hi) in Hu by lia. done. }
  pose proof (init_limit_bounds mm). unfold pmm_init in Hu.
  set (sta := mark_usable mm (set_limit (init_limit mm) pmm_zero)) in *.
  destruct (mark_usable_inv mm _ (init_start_inv mm)) as [H1 E1]. fold sta in H1, E1. simpl in E1.
  destruct (mark_reserved_inv mm sta Hok H1) as [H2 E2].
  set (stb := mark_reserved mm sta) in *.
  destruct (inv_mark_region_used stb 0 PAGE_SIZE H2) as [H3 E3]; [lia|].
  set (stc := pmm_mark_region_used 0 PAGE_SIZE stb) in *.
  destruct (inv_mark_region_used stc 0x8000 PAGE_SIZE H3) as [H4 E4]; [lia|].
  set (std := pmm_mark_region_used 0x8000 PAGE_SIZE stc) in *.
  change (frame_is_used (pmm_mark_region_used ks (ke - ks) std) f = false) in Hu.
  assert (Hstep : forall st start size, pmm_inv st -> g_frame_limit st = init_limit mm -> 0 <= start -> 0 <= size ->
            start + size <= 2 ^ 63 -> frame_is_used (pmm_mark_region_used start size st) f = false ->
            frame_is_used st f = false /\ ~ frame_meets f start size).
  { intros st start size Hst Est Hs Hz Hw Hfu. split.
    - destruct (frame_is_used st f) eqn:E; [|done].
      rewrite (mark_used_mono st) in Hfu by (done || lia). done.
    - intros Hm. rewrite (mark_region_used_covers st) in Hfu by (done || lia). done. }
  destruct (Hstep std ks (ke - ks) H4) as [Hd Hmk]; [lia..|done|].
  destruct (Hstep stc 0x8000 PAGE_SIZE H3) as [Hc Hm8]; [unfold PAGE_SIZE; lia..|done|].
  destruct (Hstep stb 0 PAGE_SIZE H2) as [Hb Hm0]; [unfold PAGE_SIZE; lia..|done|].
  destruct (mark_reserved_clear mm sta f Hok H1 ltac:(lia) Hb) as [Ha Hres].
  destruct (mark_usable_inside mm _ f Hok Hf (zero_is_used _ f Hf) Ha) as (r & Hr).
  split; [by exists r|]. split; [done|]. split; [done|]. unfold frame_meets, PAGE_SIZE in *. lia.
Qed.

Lemma pmm_init_only_usable_witness :
  let mm := [MemRegion 0 0x40000 1; MemRegion 0x20000 0x4000 2] in
  frame_is_used (pmm_init mm 0x10000 0x12345) 5 = false /\
  exists r, r ∈ mm /\ mr_type r = MEM_REGION_USABLE /\ frame_inside 5 r.
Proof.
  intros mm. assert (Hu : frame_is_used (pmm_init mm 0x10000 0x12345) 5 = false) by (vm_compute; reflexivity).
  split; [exact Hu|].
  refine (proj1 (pmm_init_only_usable mm 0x10000 0x12345 5 _ _ _ _ Hu)); [|lia..].
  repeat constructor; simpl; lia.
Defined.
