(* ===== verification/Fd.v ===== *)
(** * src/proc/fd.c: descriptor tables

    The pool of [FD_TABLE_POOL_SIZE] tables and the per-slot bookkeeping. A
    table pointer is an index into the pool and a NULL pointer is [None]. The
    code calls two optional hooks of a vnode, [ops->dup] and [ops->release];
    they are the operations of the class [VnodeHooks], over the state [W] that
    the owner of the vnodes keeps. Pipe.v provides the instance of anonymous
    pipes and proves the promise the hooks make there. *)
From S2P Require Import Prelude.

(** ** The interface to vnode owners *)
Class VnodeHooks (V W : Type) := {
  vnode_dup : V -> W -> W;
  vnode_release : V -> W -> W
}.

Definition FD_TABLE_SIZE : nat := 256.
Definition FD_TABLE_POOL_SIZE : nat := 32.

Section Fd.
Context {V W : Type} `{EqDecision V} `{VnodeHooks V W}.

(** ** Definitions *)

(** A slot with a NULL vnode is [None]. *)
Record fd_entry := FdEntry { fe_vnode : V; fe_flags : Z; fe_offset : Z }.
Record fd_table := FdTable { ft_entries : list (option fd_entry); ft_refcount : Z }.

Record fds := Fds {
  g_fd_tables : list fd_table;
  g_fd_table_used : list bool;
  vn_refcount : V -> Z;           (* vnode->refcount *)
  fd_world : W
}.

Definition empty_table (refcount : Z) : fd_table :=
  FdTable (replicate FD_TABLE_SIZE None) refcount.

Definition set_tables f (s : fds) := Fds (f (g_fd_tables s)) (g_fd_table_used s) (vn_refcount s) (fd_world s).
Definition set_used f (s : fds) := Fds (g_fd_tables s) (f (g_fd_table_used s)) (vn_refcount s) (fd_world s).
Definition set_refcount (v : V) (n : Z) (s : fds) :=
  Fds (g_fd_tables s) (g_fd_table_used s)
      (fun v' => if decide (v' = v) then n else vn_refcount s v') (fd_world s).
Definition set_world f (s : fds) := Fds (g_fd_tables s) (g_fd_table_used s) (vn_refcount s) (f (fd_world s)).

(** [table->entries[fd] = e] *)
Definition set_entry (t fd : nat) (e : option fd_entry) : fds -> fds :=
  set_tables (alter (fun tb => FdTable (<[fd := e]> (ft_entries tb)) (ft_refcount tb)) t).

Definition fd_notify_dup (v : V) : fds -> fds := set_world (vnode_dup v).
Definition fd_notify_release (v : V) : fds -> fds := set_world (vnode_release v).

Definition entry_at (s : fds) (t fd : nat) : option fd_entry :=
  tb ← g_fd_tables s !! t; mjoin (ft_entries tb !! fd).

Definition fd_table_create (s : fds) : fds * option nat :=
  match find_from (fun i => negb (default true (g_fd_table_used s !! i))) 0 FD_TABLE_POOL_SIZE with
  | Some i => (set_tables <[i := empty_table 1]> (set_used <[i := true]> s), Some i)
  | None => (s, None)
  end.

(** One iteration of the loop of [fd_table_clone]. *)
Definition clone_slot (source clone fd : nat) (s : fds) : fds :=
  match entry_at s source fd with
  | None => s
  | Some e =>
      let s := set_entry clone fd (Some e) s in
      let s := set_refcount (fe_vnode e) (vn_refcount s (fe_vnode e) + 1) s in
      fd_notify_dup (fe_vnode e) s
  end.

Definition fd_table_clone (source : option nat) (s : fds) : fds * option nat :=
  match source with
  | None => (s, None)
  | Some source =>
      match fd_table_create s with
      | (s, None) => (s, None)
      | (s, Some clone) => (foldl (fun s fd => clone_slot source clone fd s) s (seq 0 FD_TABLE_SIZE), Some clone)
      end
  end.

Definition fd_get (table : option nat) (fd : Z) (s : fds) : option fd_entry :=
  match table with
  | None => None
  | Some t => if (fd <? 0) || (Z.of_nat FD_TABLE_SIZE <=? fd) then None else entry_at s t (idx fd)
  end.

Definition fd_put (table : option nat) (fd : Z) (s : fds) : fds :=
  match table, fd_get table fd s with
  | Some t, Some entry =>
      let v := fe_vnode entry in
      let s := if negb (vn_refcount s v =? 0) then set_refcount v (vn_refcount s v - 1) s else s in
      let s := set_entry t (idx fd) None s in
      fd_notify_release v s
  | _, _ => s
  end.

Definition fd_table_destroy (table : option nat) (s : fds) : fds :=
  match table with
  | None => s
  | Some t =>
      if (t <? FD_TABLE_POOL_SIZE)%nat then
        let s := foldl (fun s fd => fd_put (Some t) (Z.of_nat fd) s) s (seq 0 FD_TABLE_SIZE) in
        let s := set_tables <[t := empty_table 0]> s in
        set_used <[t := false]> s
      else s
  end.

(** [None] as vnode is the NULL argument. *)
Definition fd_alloc (table : option nat) (vnode : option V) (flags : Z) (s : fds) : fds * Z :=
  match table, vnode with
  | Some t, Some v =>
      match find_from (fun fd => bool_decide (entry_at s t fd = None)) 0 FD_TABLE_SIZE with
      | Some fd =>
          let s := set_entry t fd (Some (FdEntry v flags 0)) s in
          (set_refcount v (vn_refcount s v + 1) s, Z.of_nat fd)
      | None => (s, - EMFILE)
      end
  | _, _ => (s, - EINVAL)
  end.

Definition fd_dup (table : option nat) (oldfd newfd : Z) (s : fds) : fds * Z :=
  match table, fd_get table oldfd s with
  | Some t, Some old =>
      if (newfd <? 0) || (Z.of_nat FD_TABLE_SIZE <=? newfd) then (s, - EBADF)
      else if oldfd =? newfd then (s, newfd)
      else
        let s := fd_put table newfd s in
        let s := set_entry t (idx newfd) (Some old) s in
        let s := set_refcount (fe_vnode old) (vn_refcount s (fe_vnode old) + 1) s in
        (fd_notify_dup (fe_vnode old) s, newfd)
  | _, _ => (s, - EBADF)
  end.

Definition fds_init (w : W) (rc : V -> Z) : fds :=
  Fds (replicate FD_TABLE_POOL_SIZE (empty_table 0)) (replicate FD_TABLE_POOL_SIZE false) rc w.
End Fd.
Arguments fd_entry : clear implicits.
Arguments fd_table : clear implicits.
Arguments fds : clear implicits.

(** ** Counting descriptor slots *)
Section Slots.
Context {V W : Type} `{EqDecision V}.
Implicit Types (s : fds V W) (v : V) (e : option (fd_entry V)) (t fd : nat).

Definition refers v e : Z :=
  match e with Some e => if decide (fe_vnode e = v) then 1 else 0 | None => 0 end.
Definition table_slots v (tb : fd_table V) : Z := zsum (refers v) (ft_entries tb).

(** Number of descriptor slots, over all tables, that refer to [v]. *)
Definition slots s v : Z := zsum (table_slots v) (g_fd_tables s).

(** The shape of the pool; a table that is not in use has no open slot. *)
Record fd_wf s : Prop := {
  wf_tables : length (g_fd_tables s) = FD_TABLE_POOL_SIZE;
  wf_used : length (g_fd_table_used s) = FD_TABLE_POOL_SIZE;
  wf_entries : forall t tb, g_fd_tables s !! t = Some tb -> length (ft_entries tb) = FD_TABLE_SIZE;
  wf_unused : forall t fd, g_fd_table_used s !! t = Some false -> entry_at s t fd = None
}.

Lemma refers_nonneg v e : 0 <= refers v e.
Proof. destruct e as [e|]; simpl; [case_decide|]; lia. Qed.

Lemma table_slots_nonneg v tb : 0 <= table_slots v tb.
Proof. apply zsum_nonneg, refers_nonneg. Qed.

Lemma slots_nonneg s v : 0 <= slots s v.
Proof. apply zsum_nonneg. intros. apply table_slots_nonneg. Qed.

Lemma slots_ge s t fd (e : fd_entry V) : entry_at s t fd = Some e -> 1 <= slots s (fe_vnode e).
Proof.
  unfold entry_at. destruct (g_fd_tables s !! t) as [tb|] eqn:Et; simpl; [|done].
  destruct (ft_entries tb !! fd) as [e'|] eqn:Ee; simpl; [|done]. intros ->.
  transitivity (table_slots (fe_vnode e) tb); [|by eapply zsum_ge; [apply table_slots_nonneg|]].
  transitivity (refers (fe_vnode e) (Some e)); [simpl; case_decide; [lia|done]|].
  by eapply zsum_ge; [apply refers_nonneg|].
Qed.

Lemma entry_at_set_entry s t fd e t' fd' :
  fd_wf s -> (t < FD_TABLE_POOL_SIZE)%nat -> (fd < FD_TABLE_SIZE)%nat ->
  entry_at (set_entry t fd e s) t' fd' =
    if decide (t' = t /\ fd' = fd) then e else entry_at s t' fd'.
Proof.
  intros Hwf Ht Hfd. unfold entry_at. simpl.
  destruct (lookup_lt_is_Some_2 (g_fd_tables s) t) as [tb Etb]; [by rewrite (wf_tables _ Hwf)|].
  pose proof (wf_entries _ Hwf t tb Etb) as Hlen.
  destruct (decide (t' = t)) as [->|Hne].
  - rewrite list_lookup_alter, decide_True, Etb by done. simpl.
    destruct (decide (fd' = fd)) as [->|].
    + rewrite list_lookup_insert_eq by lia. by rewrite decide_True by done.
    + rewrite list_lookup_insert_ne by done. rewrite decide_False; [done|]. by intros [_ ?].
  - rewrite list_lookup_alter_ne by done. rewrite decide_False; [done|]. by intros [? _].
Qed.

Lemma slots_set_entry s t fd e v :
  fd_wf s -> (t < FD_TABLE_POOL_SIZE)%nat -> (fd < FD_TABLE_SIZE)%nat ->
  slots (set_entry t fd e s) v = slots s v - refers v (entry_at s t fd) + refers v e.
Proof.
  intros Hwf Ht Hfd.
  destruct (lookup_lt_is_Some_2 (g_fd_tables s) t) as [tb Etb]; [by rewrite (wf_tables _ Hwf)|].
  pose proof (wf_entries _ Hwf t tb Etb) as Hlen.
  destruct (lookup_lt_is_Some_2 (ft_entries tb) fd) as [old Eold]; [lia|].
  unfold slots, entry_at. simpl. rewrite Etb. simpl. rewrite Eold. simpl.
  rewrite (zsum_alter _ _ _ _ _ Etb). unfold table_slots. simpl.
  rewrite (zsum_insert _ _ _ _ _ Eold). lia.
Qed.

Lemma fd_wf_set_entry s t fd e :
  fd_wf s -> (t < FD_TABLE_POOL_SIZE)%nat -> (fd < FD_TABLE_SIZE)%nat ->
  (e = None \/ g_fd_table_used s !! t = Some true) -> fd_wf (set_entry t fd e s).
Proof.
  intros Hwf Ht Hfd He. split; [simpl; rewrite length_alter; apply Hwf|apply Hwf| |].
  - intros t' tb'. simpl. destruct (decide (t' = t)) as [->|].
    + rewrite list_lookup_alter, decide_True by done. intros (tb & Htb & ->)%fmap_Some.
      simpl. rewrite length_insert. by eapply wf_entries.
    + rewrite list_lookup_alter_ne by done. apply Hwf.
  - intros t' fd' Hu. rewrite entry_at_set_entry by done.
    case_decide as Heq; [|by apply (wf_unused _ Hwf)]. destruct Heq as [-> ->].
    destruct He as [->|He]; [done|]. simpl in Hu. congruence.
Qed.

(** The tables and the world are all that counting and shape depend on. *)
Lemma slots_set_refcount s v n v' : slots (set_refcount v n s) v' = slots s v'.
Proof. done. Qed.
Lemma slots_set_world s f v : slots (set_world f s) v = slots s v.
Proof. done. Qed.
Lemma fd_wf_same s s' :
  g_fd_tables s' = g_fd_tables s -> g_fd_table_used s' = g_fd_table_used s -> fd_wf s -> fd_wf s'.
Proof. unfold entry_at. intros E1 E2 []. split; unfold entry_at in *; rewrite ?E1, ?E2; done. Qed.

(** The pool at boot. *)
Lemma fds_init_slots (w : W) rc v : slots (fds_init w rc) v = 0.
Proof.
  apply zsum_zero. intros tb Ht. apply elem_of_replicate in Ht as [-> _].
  apply zsum_zero. intros e He. apply elem_of_replicate in He as [-> _]. done.
Qed.

Lemma fds_init_wf (w : W) (rc : V -> Z) : fd_wf (fds_init w rc).
Proof.
  split; [done|done| |].
  - intros t tb Ht. apply (lookup_replicate FD_TABLE_POOL_SIZE (empty_table 0)) in Ht as [-> _].
    apply length_replicate.
  - intros t fd _. unfold entry_at.
    change (g_fd_tables (fds_init w rc)) with (replicate FD_TABLE_POOL_SIZE (@empty_table V 0)).
    destruct (replicate _ (empty_table 0) !! t) as [tb|] eqn:E; [|done]. apply lookup_replicate in E as [-> _].
    change (mjoin (replicate FD_TABLE_SIZE None !! fd) = @None (fd_entry V)).
    destruct (replicate FD_TABLE_SIZE None !! fd) eqn:E; [|done]. by apply lookup_replicate in E as [-> _].
Qed.
End Slots.

(** ** What the hooks promise

    [acct w c]: the vnode owner's state [w] agrees with [c v] open slots for
    each vnode [v]. An owner whose hooks keep this agreement one slot at a
    time keeps it under every descriptor operation. *)
Class VnodeAccounting (V W : Type) `{EqDecision V} `{VnodeHooks V W} (acct : W -> (V -> Z) -> Prop) := {
  acct_ext w c c' : (forall v, c v = c' v) -> acct w c -> acct w c';
  acct_dup w c v : acct w c -> 1 <= c v ->
    acct (vnode_dup v w) (fun v' => if decide (v' = v) then c v + 1 else c v');
  acct_release w c v : acct w c -> 1 <= c v ->
    acct (vnode_release v w) (fun v' => if decide (v' = v) then c v - 1 else c v')
}.

Section Accounting.
Context {V W : Type} `{EqDecision V} `{VnodeHooks V W}.
Context (acct : W -> (V -> Z) -> Prop) `{!VnodeAccounting V W acct}.
(** References held outside the descriptor tables (the path layer's). *)
Context (base : V -> Z) (Hbase : forall v, 0 <= base v).
Implicit Types (s : fds V W) (v : V) (t fd : nat).

Record fd_inv s : Prop := {
  fi_wf : fd_wf s;
  fi_acct : acct (fd_world s) (slots s);
  fi_refs : forall v, vn_refcount s v = slots s v + base v
}.

Lemma fd_get_Some t n s e :
  fd_get (Some t) n s = Some e -> 0 <= n < Z.of_nat FD_TABLE_SIZE /\ entry_at s t (idx n) = Some e.
Proof. unfold fd_get. destruct (_ || _) eqn:E; [done|]. intros. split; [lia|done]. Qed.

Lemma entry_at_bound s t fd e :
  fd_wf s -> entry_at s t fd = Some e ->
  (t < FD_TABLE_POOL_SIZE)%nat /\ (fd < FD_TABLE_SIZE)%nat /\ g_fd_table_used s !! t = Some true.
Proof.
  intros Hwf He. unfold entry_at in He.
  destruct (g_fd_tables s !! t) as [tb|] eqn:Et; simpl in He; [|done].
  destruct (ft_entries tb !! fd) as [e'|] eqn:Ee; simpl in He; [|done].
  pose proof (lookup_lt_Some _ _ _ Et). pose proof (lookup_lt_Some _ _ _ Ee).
  rewrite (wf_tables _ Hwf) in *. rewrite (wf_entries _ Hwf _ _ Et) in *.
  split_and!; [done..|].
  destruct (lookup_lt_is_Some_2 (g_fd_table_used s) t) as [b Eb]; [by rewrite (wf_used _ Hwf)|].
  destruct b; [done|]. pose proof (wf_unused _ Hwf t fd Eb) as Hn. unfold entry_at in Hn.
  rewrite Et in Hn. simpl in Hn. rewrite Ee in Hn. simpl in Hn. congruence.
Qed.

(** Closing a slot. *)
Lemma fd_put_inv t n s :
  fd_inv s -> fd_inv (fd_put (Some t) n s) /\
  (forall t' fd', entry_at (fd_put (Some t) n s) t' fd' =
     if decide (t' = t /\ 0 <= n < Z.of_nat FD_TABLE_SIZE /\ fd' = idx n) then None else entry_at s t' fd') /\
  g_fd_table_used (fd_put (Some t) n s) = g_fd_table_used s.
Proof.
  intros Hinv. pose proof (fi_wf _ Hinv) as Hwf. unfold fd_put.
  destruct (fd_get (Some t) n s) as [e|] eqn:Eg.
  - apply fd_get_Some in Eg as [Hn He].
    destruct (entry_at_bound s t (idx n) e Hwf He) as (Ht & Hfd & Hu).
    pose proof (slots_ge s t (idx n) e He) as Hge. set (v := fe_vnode e) in *.
    assert (Hrc : (vn_refcount s v =? 0) = false).
    { rewrite (fi_refs _ Hinv). specialize (Hbase v). lia. }
    rewrite Hrc. simpl negb. cbv iota.
    set (s1 := set_refcount v (vn_refcount s v - 1) s).
    assert (Hwf1 : fd_wf s1) by (by eapply fd_wf_same with (s := s)).
    split_and!; [split| |done].
    + eapply fd_wf_same with (s := set_entry t (idx n) None s1); [done..|].
      apply fd_wf_set_entry; [done..|by left].
    + eapply acct_ext; [|exact (acct_release _ _ v (fi_acct _ Hinv) Hge)].
      intros v'. unfold fd_notify_release. rewrite slots_set_world, slots_set_entry by done.
      change (slots s1 v') with (slots s v'). change (entry_at s1 t (idx n)) with (entry_at s t (idx n)).
      rewrite He. simpl. fold v. repeat case_decide; subst; try congruence; lia.
    + intros v'. unfold fd_notify_release. rewrite slots_set_world, slots_set_entry by done.
      change (slots s1 v') with (slots s v'). change (entry_at s1 t (idx n)) with (entry_at s t (idx n)).
      rewrite He. simpl. fold v. pose proof (fi_refs _ Hinv v'). repeat case_decide; subst; try congruence; lia.
    + intros t' fd'. change (entry_at (fd_notify_release v (set_entry t (idx n) None s1)) t' fd')
        with (entry_at (set_entry t (idx n) None s1) t' fd').
      rewrite entry_at_set_entry by done. repeat case_decide; try tauto.
  - split_and!; [done| |done]. intros t' fd'. case_decide as Hc; [|done]. destruct Hc as (-> & Hn & ->).
    unfold fd_get in Eg. destruct (_ || _) eqn:E; [lia|done].
Qed.

(** Filling an empty slot with a descriptor the hooks are told about. *)
Lemma fill_slot_inv t fd (e : fd_entry V) s :
  fd_inv s -> (fd < FD_TABLE_SIZE)%nat -> g_fd_table_used s !! t = Some true ->
  entry_at s t fd = None -> 1 <= slots s (fe_vnode e) ->
  let s' := fd_notify_dup (fe_vnode e)
              (set_refcount (fe_vnode e) (vn_refcount s (fe_vnode e) + 1) (set_entry t fd (Some e) s)) in
  fd_inv s' /\ g_fd_table_used s' = g_fd_table_used s /\
  (forall t' fd', entry_at s' t' fd' = if decide (t' = t /\ fd' = fd) then Some e else entry_at s t' fd').
Proof.
  intros Hinv Hfd Hu Hnone Hge s'. pose proof (fi_wf _ Hinv) as Hwf. set (v := fe_vnode e) in *.
  assert (Ht : (t < FD_TABLE_POOL_SIZE)%nat).
  { rewrite <- (wf_used _ Hwf). by eapply lookup_lt_Some. }
  assert (Hs : forall v', slots s' v' = if decide (v' = v) then slots s v + 1 else slots s v').
  { intros v'. change (slots s' v') with (slots (set_entry t fd (Some e) s) v').
    rewrite slots_set_entry, Hnone by done. simpl. fold v. repeat case_decide; subst; try congruence; lia. }
  split_and!; [split| |].
  - eapply fd_wf_same with (s := set_entry t fd (Some e) s); [done..|].
    apply fd_wf_set_entry; [done..|by right].
  - eapply acct_ext; [|exact (acct_dup _ _ v (fi_acct _ Hinv) Hge)]. intros. by rewrite Hs.
  - intros v'. rewrite Hs. pose proof (fi_refs _ Hinv v'). simpl. case_decide; subst; lia.
  - done.
  - intros t' fd'. change (entry_at s' t' fd') with (entry_at (set_entry t fd (Some e) s) t' fd').
    by apply entry_at_set_entry.
Qed.

Lemma fd_dup_inv t o n s : fd_inv s -> fd_inv (fd_dup (Some t) o n s).1.
Proof.
  intros Hinv. pose proof (fi_wf _ Hinv) as Hwf. unfold fd_dup.
  destruct (fd_get (Some t) o s) as [e|] eqn:Eg; [|done].
  destruct ((n <? 0) || _) eqn:En; [done|]. destruct (Z.eqb_spec o n) as [|Hne]; [done|].
  apply fd_get_Some in Eg as [Ho He].
  destruct (entry_at_bound s t (idx o) e Hwf He) as (Ht & Hfo & Hu).
  destruct (fd_put_inv t n s Hinv) as (Hinv1 & Hent & Hused).
  set (s1 := fd_put (Some t) n s) in *.
  assert (Hidx : idx o <> idx n) by (unfold idx; lia).
  assert (He1 : entry_at s1 t (idx o) = Some e).
  { rewrite Hent, decide_False; [done|]. tauto. }
  apply (fill_slot_inv t (idx n) e s1); [done|unfold idx; lia|by rewrite Hused| |by eapply slots_ge].
  rewrite Hent, decide_True; [done|]. split_and!; [done|lia..|done].
Qed.

Lemma fd_table_create_inv s :
  fd_inv s ->
  let '(s', r) := fd_table_create s in
  fd_inv s' /\ (forall v, slots s' v = slots s v) /\
  match r with
  | Some t => g_fd_table_used s !! t = Some false /\ g_fd_table_used s' !! t = Some true /\
              (forall t' fd, entry_at s' t' fd = entry_at s t' fd) /\
              (forall t', t' <> t -> g_fd_table_used s' !! t' = g_fd_table_used s !! t')
  | None => s' = s
  end.
Proof.
  intros Hinv. pose proof (fi_wf _ Hinv) as Hwf. unfold fd_table_create.
  destruct (find_from _ 0 FD_TABLE_POOL_SIZE) as [i|] eqn:Ef; [|done].
  apply find_from_Some in Ef as (Hi & Hfree & _).
  destruct (lookup_lt_is_Some_2 (g_fd_table_used s) i) as [b Eb]; [rewrite (wf_used _ Hwf); lia|].
  rewrite Eb in Hfree. destruct b; [done|].
  destruct (lookup_lt_is_Some_2 (g_fd_tables s) i) as [tb Etb]; [rewrite (wf_tables _ Hwf); lia|].
  set (s' := set_tables _ _).
  assert (Hrep : forall fd : nat, mjoin (replicate FD_TABLE_SIZE (@None (fd_entry V)) !! fd) = None).
  { intros fd. destruct (replicate _ _ !! fd) eqn:E; [|done]. by apply lookup_replicate in E as [-> _]. }
  assert (Hent : forall t' fd, entry_at s' t' fd = entry_at s t' fd).
  { intros t' fd. destruct (decide (t' = i)) as [->|Hne].
    - rewrite (wf_unused _ Hwf _ fd Eb). unfold entry_at. simpl.
      rewrite list_lookup_insert_eq by (rewrite (wf_tables _ Hwf); lia). apply Hrep.
    - unfold entry_at. simpl. by rewrite list_lookup_insert_ne. }
  assert (Hslots : forall v, slots s' v = slots s v).
  { intros v. unfold slots. simpl. rewrite (zsum_insert _ _ _ _ _ Etb).
    enough (table_slots v (empty_table 1) = 0 /\ table_slots v tb = 0) as [-> ->] by lia.
    split; apply zsum_zero; intros e He.
    - apply elem_of_replicate in He as [-> _]. done.
    - apply list_elem_of_lookup in He as [fd He].
      pose proof (wf_unused _ Hwf i fd Eb) as Hn. unfold entry_at in Hn. rewrite Etb in Hn. simpl in Hn.
      rewrite He in Hn. simpl in Hn. by rewrite Hn. }
  assert (Hu' : g_fd_table_used s' !! i = Some true).
  { simpl. apply list_lookup_insert_eq. rewrite (wf_used _ Hwf). lia. }
  split_and!; [split|done|done|done|done|].
  - split; [simpl; rewrite length_insert; apply Hwf|simpl; rewrite length_insert; apply Hwf| |].
    + intros t' tb'. simpl. destruct (decide (t' = i)) as [->|].
      * rewrite list_lookup_insert_eq by (rewrite (wf_tables _ Hwf); lia). intros [= <-]. apply length_replicate.
      * rewrite list_lookup_insert_ne by done. apply Hwf.
    + intros t' fd Hf. rewrite Hent. destruct (decide (t' = i)) as [->|]; [congruence|].
      apply (wf_unused _ Hwf). simpl in Hf. by rewrite list_lookup_insert_ne in Hf.
  - eapply acct_ext; [|apply (fi_acct _ Hinv)]. intros. by rewrite Hslots.
  - intros v. rewrite Hslots. apply (fi_refs _ Hinv).
  - intros t' Hne. simpl. by rewrite list_lookup_insert_ne.
Qed.

Lemma fd_table_clone_inv t s :
  fd_inv s ->
  let '(s', r) := fd_table_clone (Some t) s in
  fd_inv s' /\
  match r with
  | Some c => g_fd_table_used s !! c = Some false /\
              (forall fd, (fd < FD_TABLE_SIZE)%nat -> entry_at s' c fd = entry_at s t fd) /\
              g_fd_table_used s' = <[c := true]> (g_fd_table_used s) /\
              (forall t' fd, t' <> c -> entry_at s' t' fd = entry_at s t' fd)
  | None => s' = s
  end.
Proof.
  intros Hinv. unfold fd_table_clone. pose proof (fd_table_create_inv s Hinv) as Hc.
  destruct (fd_table_create s) as [s1 [c|]]; [|by destruct Hc as (? & _ & ->)].
  destruct Hc as (Hinv1 & _ & Hfree & Hu & Hent & Hoth).
  assert (Hused : g_fd_table_used s1 = <[c := true]> (g_fd_table_used s)).
  { apply list_eq. intros t'. destruct (decide (t' = c)) as [->|Hne].
    - rewrite Hu. symmetry. apply list_lookup_insert_eq. by eapply lookup_lt_Some.
    - rewrite Hoth by done. by rewrite list_lookup_insert_ne. }
  enough (Hloop : forall k : nat, (k <= FD_TABLE_SIZE)%nat ->
    let s' := foldl (fun s fd => clone_slot t c fd s) s1 (seq 0 k) in
    fd_inv s' /\ g_fd_table_used s' = g_fd_table_used s1 /\
    forall t' fd, entry_at s' t' fd = if decide (t' = c /\ (fd < k)%nat) then entry_at s t fd else entry_at s t' fd).
  { destruct (Hloop FD_TABLE_SIZE) as (? & Hus & He); [lia|]. split; [done|]. split; [done|]. split; [|split].
    - intros fd Hfd. rewrite He, decide_True by done. done.
    - rewrite Hus. exact Hused.
    - intros t' fd Hne. rewrite He, decide_False; [done|]. by intros [? _]. }
  induction k as [|k IH]; intros Hk.
  - split_and!; [done|done|]. intros t' fd. rewrite decide_False by lia. apply Hent.
  - rewrite seq_S, foldl_snoc. destruct IH as (Hi & Hus & He); [lia|].
    set (s' := foldl _ s1 (seq 0 k)) in *. simpl. unfold clone_slot.
    assert (Hsrc : entry_at s' t k = entry_at s t k).
    { rewrite He. case_decide as Hd; [|done]. by destruct Hd as [-> _]. }
    assert (Hck : entry_at s' c k = None).
    { rewrite He, decide_False by lia. by apply (wf_unused _ (fi_wf _ Hinv)). }
    rewrite Hsrc. destruct (entry_at s t k) as [e|] eqn:Ee.
    + destruct (fill_slot_inv c k e s') as (Hi' & Hu' & He'); [done|lia|by rewrite Hus|done| |].
      { apply (slots_ge s' t k). by rewrite Hsrc. }
      split_and!; [exact Hi'|exact (eq_trans Hu' Hus)|]. intros t' fd. etransitivity; [exact (He' t' fd)|].
      destruct (decide (t' = c /\ fd = k)) as [[-> ->]|Hn].
      * by rewrite decide_True by lia.
      * rewrite He. repeat case_decide; try done; lia.
    + split_and!; [done|done|]. intros t' fd. rewrite He.
      destruct (decide (t' = c /\ fd = k)) as [[-> ->]|Hn].
      * rewrite decide_False, decide_True by lia. rewrite Ee. by apply (wf_unused _ (fi_wf _ Hinv)).
      * repeat case_decide; try done; lia.
Qed.

(** The loop of [fd_table_destroy] after its first [k] slots. *)
Lemma destroy_loop_inv t s (k : nat) :
  fd_inv s -> (k <= FD_TABLE_SIZE)%nat ->
  let s' := foldl (fun s fd => fd_put (Some t) (Z.of_nat fd) s) s (seq 0 k) in
  fd_inv s' /\ g_fd_table_used s' = g_fd_table_used s /\
  forall t' fd, entry_at s' t' fd = if decide (t' = t /\ (fd < k)%nat) then None else entry_at s t' fd.
Proof.
  intros Hinv.
  induction k as [|k IH]; intros Hk.
  - split_and!; [done|done|]. intros. rewrite decide_False by lia. done.
  - rewrite seq_S, foldl_snoc. destruct IH as (Hi & Hus & He); [lia|].
    destruct (fd_put_inv t (Z.of_nat k) _ Hi) as (Hi' & He' & Hus').
    split_and!; [exact Hi'|exact (eq_trans Hus' Hus)|]. intros t' fd.
    etransitivity; [exact (He' t' fd)|]. rewrite He. unfold idx. rewrite Nat2Z.id.
    repeat case_decide; done || lia.
Qed.

Lemma fd_table_destroy_inv t s :
  fd_inv s -> (t < FD_TABLE_POOL_SIZE)%nat ->
  let s' := fd_table_destroy (Some t) s in
  fd_inv s' /\ (forall t' fd, entry_at s' t' fd = if decide (t' = t) then None else entry_at s t' fd).
Proof.
  intros Hinv Ht. unfold fd_table_destroy. destruct (Nat.ltb_spec t FD_TABLE_POOL_SIZE); [|lia].
  destruct (destroy_loop_inv t s FD_TABLE_SIZE Hinv) as (Hi & Hus & He); [lia|].
  generalize dependent (foldl (fun s fd => fd_put (Some t) (Z.of_nat fd) s) s (seq 0 FD_TABLE_SIZE)).
  intros s1 Hi Hus He. pose proof (fi_wf _ Hi) as Hwf.
    destruct (lookup_lt_is_Some_2 (g_fd_tables s1) t) as [tb Etb]; [by rewrite (wf_tables _ Hwf)|].
    assert (Hempty : forall fd, entry_at s1 t fd = None).
    { intros fd. destruct (entry_at s1 t fd) as [e|] eqn:E; [|done].
      destruct (entry_at_bound s1 t fd e Hwf E) as (_ & Hfd & _).
      rewrite He, decide_True in E by done. done. }
    set (s2 := set_used _ _).
    assert (Hent : forall t' fd, entry_at s2 t' fd = entry_at s1 t' fd).
    { intros t' fd. destruct (decide (t' = t)) as [->|].
      - rewrite Hempty. unfold entry_at. simpl.
        rewrite list_lookup_insert_eq by (by rewrite (wf_tables _ Hwf)). cbn -[replicate].
        destruct (replicate _ _ !! fd) eqn:E; [|done]. by apply lookup_replicate in E as [-> _].
      - unfold entry_at. simpl. by rewrite list_lookup_insert_ne. }
    assert (Hslots : forall v, slots s2 v = slots s1 v).
    { intros v. unfold slots. simpl. rewrite (zsum_insert _ _ _ _ _ Etb).
      enough (table_slots v (empty_table 0) = 0 /\ table_slots v tb = 0) as [-> ->] by lia.
      split; apply zsum_zero; intros e Hin.
      - by apply elem_of_replicate in Hin as [-> _].
      - apply list_elem_of_lookup in Hin as [fd Hin]. specialize (Hempty fd).
        unfold entry_at in Hempty. rewrite Etb in Hempty. simpl in Hempty. rewrite Hin in Hempty.
        simpl in Hempty. by rewrite Hempty. }
    split; [split|].
    - split; [simpl; rewrite length_insert; apply Hwf|simpl; rewrite length_insert; apply Hwf| |].
      + intros t' tb'. simpl. destruct (decide (t' = t)) as [->|].
        * rewrite list_lookup_insert_eq by (by rewrite (wf_tables _ Hwf)). intros [= <-]. apply length_replicate.
        * rewrite list_lookup_insert_ne by done. apply Hwf.
      + intros t' fd Hf. rewrite Hent. destruct (decide (t' = t)) as [->|]; [done|].
        apply (wf_unused _ Hwf). simpl in Hf. by rewrite list_lookup_insert_ne in Hf.
    - eapply acct_ext; [|apply (fi_acct _ Hi)]. intros. by rewrite Hslots.
    - intros v. rewrite Hslots. apply (fi_refs _ Hi).
    - intros t' fd. rewrite Hent. destruct (decide (t' = t)) as [->|]; [done|].
      rewrite He, decide_False by (by intros [? _]). done.
Qed.
End Accounting.

(** ** Installing a descriptor

    [fd_alloc] does not call [dup]: the caller hands it a reference the owner
    has already counted. [owe acct extra] is the accounting while [extra v]
    references to [v] are counted but not yet installed. *)
Definition owe {V W} (acct : W -> (V -> Z) -> Prop) (extra : V -> Z) : W -> (V -> Z) -> Prop :=
  fun w c => acct w (fun v => c v + extra v).

Definition one {V} `{EqDecision V} (v : V) : V -> Z := fun v' => if decide (v' = v) then 1 else 0.

Section Alloc.
Context {V W : Type} `{EqDecision V} `{VnodeHooks V W}.
Context (acct : W -> (V -> Z) -> Prop) `{!VnodeAccounting V W acct} (base : V -> Z).
Implicit Types (s : fds V W) (v : V) (t fd : nat) (extra : V -> Z).

Lemma owe_accounting extra : (forall v, 0 <= extra v) -> VnodeAccounting V W (owe acct extra).
Proof.
  intros Hx. split; unfold owe.
  - intros w c c' E Ha. eapply acct_ext; [|exact Ha]. intros v. simpl. by rewrite E.
  - intros w c v Ha Hc. eapply acct_ext; [|apply (acct_dup _ _ v Ha); specialize (Hx v); lia].
    intros v'. simpl. case_decide; subst; lia.
  - intros w c v Ha Hc. eapply acct_ext; [|apply (acct_release _ _ v Ha); specialize (Hx v); lia].
    intros v'. simpl. case_decide; subst; lia.
Qed.

(** A descriptor is installed in the lowest free slot, or the table is full
    and nothing changes. *)
Lemma fd_alloc_spec t v flags s :
  fd_wf s -> g_fd_table_used s !! t = Some true ->
  let '(s', r) := fd_alloc (Some t) (Some v) flags s in
  (r = - EMFILE /\ s' = s /\ forall fd, (fd < FD_TABLE_SIZE)%nat -> entry_at s t fd <> None) \/
  (exists fd, r = Z.of_nat fd /\ (fd < FD_TABLE_SIZE)%nat /\
     entry_at s t fd = None /\ (forall k, (k < fd)%nat -> entry_at s t k <> None) /\
     (forall t' k, entry_at s' t' k =
        if decide (t' = t /\ k = fd) then Some (FdEntry v flags 0) else entry_at s t' k) /\
     fd_wf s' /\ fd_world s' = fd_world s /\ g_fd_table_used s' = g_fd_table_used s /\
     (forall v', slots s' v' = slots s v' + one v v') /\
     (forall v', vn_refcount s' v' = vn_refcount s v' + one v v')).
Proof.
  intros Hwf Hu. unfold fd_alloc.
  destruct (find_from _ 0 FD_TABLE_SIZE) as [fd|] eqn:Ef.
  - apply find_from_Some in Ef as (Hfd & Hp & Hlow). apply bool_decide_eq_true_1 in Hp.
    assert (Hfd' : (fd < FD_TABLE_SIZE)%nat) by lia.
    assert (Ht : (t < FD_TABLE_POOL_SIZE)%nat) by (rewrite <- (wf_used _ Hwf); by eapply lookup_lt_Some).
    right. exists fd. split_and!; try done.
    + intros k Hk. specialize (Hlow k ltac:(lia)). by apply bool_decide_eq_false_1 in Hlow.
    + intros t' k. exact (entry_at_set_entry s t fd (Some (FdEntry v flags 0)) t' k Hwf Ht Hfd').
    + eapply fd_wf_same with (s := set_entry t fd (Some (FdEntry v flags 0)) s); [done..|].
      apply fd_wf_set_entry; [done..|by right].
    + intros v'. rewrite slots_set_refcount, slots_set_entry, Hp by done. simpl. unfold one.
      repeat case_decide; subst; try congruence; lia.
    + intros v'. simpl. unfold one. repeat case_decide; subst; try congruence; lia.
  - left. split_and!; try done. intros fd Hfd.
    specialize (proj1 (find_from_None _ _ _) Ef fd ltac:(lia)) as Hn. by apply bool_decide_eq_false_1 in Hn.
Qed.

Lemma fd_alloc_inv t v flags s extra :
  fd_inv (owe acct (fun v' => extra v' + one v v')) base s -> g_fd_table_used s !! t = Some true ->
  let '(s', r) := fd_alloc (Some t) (Some v) flags s in
  (r = - EMFILE /\ s' = s) \/
  (exists fd, r = Z.of_nat fd /\ fd_inv (owe acct extra) base s' /\
     entry_at s' t fd = Some (FdEntry v flags 0) /\ entry_at s t fd = None /\ (fd < FD_TABLE_SIZE)%nat /\
     (forall t' k, ~ (t' = t /\ k = fd) -> entry_at s' t' k = entry_at s t' k) /\
     g_fd_table_used s' = g_fd_table_used s).
Proof.
  intros Hi Hu. pose proof (fd_alloc_spec t v flags s (fi_wf _ _ _ Hi) Hu) as H1.
  destruct (fd_alloc (Some t) (Some v) flags s) as [s' r].
  destruct H1 as [(-> & -> & _)|(fd & -> & Hfd & He & _ & Hent & Hwf & Hw & Hus & Hsl & Hrc)]; [by left|right].
  exists fd. split_and!; try done.
  - split; [done| |].
    + unfold owe. rewrite Hw. eapply acct_ext; [|exact (fi_acct _ _ _ Hi)].
      intros v'. simpl. rewrite Hsl. lia.
    + intros v'. rewrite Hrc, Hsl, (fi_refs _ _ _ Hi). lia.
  - rewrite Hent, decide_True by done. done.
  - intros t' k Hn. rewrite Hent, decide_False by done. done.
Qed.
End Alloc.
