(* ===== verification/Pipe.v ===== *)
(** * src/proc/pipe.c: anonymous pipes

    A pipe is a 4 KiB ring buffer with a read and a write vnode. The pool
    [g_pipes] is a list of [PIPE_MAX_PIPES] pipes; the vnodes of pipe [i] are
    the references [VRead i] and [VWrite i], and [VFile n] stands for every
    vnode that has no [dup]/[release] hook. Each critical section under
    [p->lock] is atomic. [pipe_read] and [pipe_write] give up the lock between
    iterations and yield when they would block: what the other processes do to
    the pipe in between, and whether a signal is then deliverable, is the list
    [env], one element per release of the lock. [None] means the call is still
    waiting when [env] is exhausted. *)
From S2P Require Import Prelude Fd.

Definition PIPE_BUFFER_SIZE : Z := 4096.
Definition PIPE_MAX_PIPES : nat := 16.
Definition O_RDONLY : Z := 0.
Definition O_WRONLY : Z := 1.

(** ** Definitions *)

Inductive vref := VRead (i : nat) | VWrite (i : nat) | VFile (n : Z).
#[export] Instance vref_eq_dec : EqDecision vref.
Proof. solve_decision. Defined.

Record pipe := Pipe {
  p_buffer : list Z;
  p_read_pos : Z;
  p_write_pos : Z;
  p_data_size : Z;
  p_readers : Z;
  p_writers : Z;
  p_in_use : bool
}.

Definition pipe_zero : pipe := Pipe (replicate (Z.to_nat PIPE_BUFFER_SIZE) 0) 0 0 0 0 0 false.

Definition set_counts (r w : Z) (p : pipe) : pipe :=
  Pipe (p_buffer p) (p_read_pos p) (p_write_pos p) (p_data_size p) r w (p_in_use p).
Definition set_in_use (b : bool) (p : pipe) : pipe :=
  Pipe (p_buffer p) (p_read_pos p) (p_write_pos p) (p_data_size p) (p_readers p) (p_writers p) b.
Definition set_data_size (n : Z) (p : pipe) : pipe :=
  Pipe (p_buffer p) (p_read_pos p) (p_write_pos p) n (p_readers p) (p_writers p) (p_in_use p).

Definition clamp0 (x : Z) : Z := if x <? 0 then 0 else x.

Definition pipe_adjust (reader : bool) (delta : Z) (p : pipe) : pipe :=
  let p := if reader then set_counts (clamp0 (p_readers p + delta)) (p_writers p) p
           else set_counts (p_readers p) (clamp0 (p_writers p + delta)) p in
  let dead := (p_readers p =? 0) && (p_writers p =? 0) in
  if dead then set_in_use false p else p.

Definition pipe_close_read (p : pipe) : pipe := pipe_adjust true (-1) p.
Definition pipe_close_write (p : pipe) : pipe := pipe_adjust false (-1) p.

(** The copy loop of [pipe_read]: the bytes copied out and the new ring. *)
Fixpoint ring_read (n : nat) (p : pipe) : pipe * list Z :=
  match n with
  | O => (p, [])
  | S n' =>
      let c := p_buffer p !!! idx (p_read_pos p) in
      let p := Pipe (p_buffer p) ((p_read_pos p + 1) mod PIPE_BUFFER_SIZE) (p_write_pos p)
                    (p_data_size p) (p_readers p) (p_writers p) (p_in_use p) in
      let '(p, out) := ring_read n' p in (p, c :: out)
  end.

(** The copy loop of [pipe_write]. *)
Fixpoint ring_write (bytes : list Z) (p : pipe) : pipe :=
  match bytes with
  | [] => p
  | c :: bytes' =>
      ring_write bytes'
        (Pipe (<[idx (p_write_pos p) := c]> (p_buffer p)) (p_read_pos p)
              ((p_write_pos p + 1) mod PIPE_BUFFER_SIZE)
              (p_data_size p) (p_readers p) (p_writers p) (p_in_use p))
  end.

(** What happens while the lock is free: is a signal deliverable to the
    caller, and what the other processes do to the pipe. *)
Record gap := Gap { interrupted : bool; others : pipe -> pipe }.

(** Result, bytes delivered. [buf_ok] is [buf != NULL]. *)
Fixpoint pipe_read_loop (env : list gap) (count : Z) (p : pipe) : option (pipe * Z * list Z) :=
  if negb (p_data_size p =? 0) then
    let n := if count <? p_data_size p then count else p_data_size p in
    let '(p, out) := ring_read (Z.to_nat n) p in
    Some (set_data_size (p_data_size p - n) p, s32 n, out)
  else if p_writers p <=? 0 then Some (p, 0, [])
  else match env with
       | [] => None
       | g :: env' => if interrupted g then Some (p, - EINTR, [])
                      else pipe_read_loop env' count (others g p)
       end.

Definition pipe_read (env : list gap) (buf_ok : bool) (count : Z) (p : pipe) : option (pipe * Z * list Z) :=
  if negb buf_ok && negb (count =? 0) then Some (p, - EFAULT, [])
  else if count =? 0 then Some (p, 0, [])
  else pipe_read_loop env count p.

(** Result and whether SIGPIPE was sent to the caller. [rest] are the bytes
    not yet written and [total] the number already written. *)
Fixpoint pipe_write_loop (env : list gap) (rest : list Z) (total : Z) (p : pipe) : option (pipe * Z * bool) :=
  match rest with
  | [] => Some (p, s32 total, false)
  | _ =>
      if p_readers p <=? 0 then
        if negb (total =? 0) then Some (p, s32 total, false) else Some (p, - EPIPE, true)
      else
        let space := PIPE_BUFFER_SIZE - p_data_size p in
        if negb (space =? 0) then
          let remaining := Z.of_nat (length rest) in
          let n := if remaining <? space then remaining else space in
          let p := ring_write (take (Z.to_nat n) rest) p in
          let p := set_data_size (p_data_size p + n) p in
          match drop (Z.to_nat n) rest, env with
          | [], _ => Some (p, s32 (total + n), false)
          | _, [] => None
          | rest', g :: env' => pipe_write_loop env' rest' (total + n) (others g p)
          end
        else match env with
             | [] => None
             | g :: env' =>
                 if interrupted g then
                   Some (p, if negb (total =? 0) then s32 total else - EINTR, false)
                 else pipe_write_loop env' rest total (others g p)
             end
  end.

Definition pipe_write (env : list gap) (buf_ok : bool) (bytes : list Z) (p : pipe) : option (pipe * Z * bool) :=
  if negb buf_ok && negb (bool_decide (bytes = [])) then Some (p, - EFAULT, false)
  else pipe_write_loop env bytes 0 p.

(** *** Hooks and creation *)

Definition pipes_dup (v : vref) (ps : list pipe) : list pipe :=
  match v with
  | VRead i => alter (pipe_adjust true 1) i ps
  | VWrite i => alter (pipe_adjust false 1) i ps
  | VFile _ => ps
  end.

Definition pipes_release (v : vref) (ps : list pipe) : list pipe :=
  match v with
  | VRead i => alter pipe_close_read i ps
  | VWrite i => alter pipe_close_write i ps
  | VFile _ => ps
  end.

#[export] Instance pipe_hooks : VnodeHooks vref (list pipe) :=
  {| vnode_dup := pipes_dup; vnode_release := pipes_release |}.

Abbreviation sys := (fds vref (list pipe)).

(** The initialised pipe and its two fresh vnodes (reference count 0). *)
Definition pipe_alloc (s : sys) : sys * option nat :=
  match find_from (fun i => negb (default true (p_in_use <$> fd_world s !! i))) 0 PIPE_MAX_PIPES with
  | Some i =>
      let p := set_in_use true (set_counts 1 1 pipe_zero) in
      let s := set_world <[i := p]> s in
      (set_refcount (VWrite i) 0 (set_refcount (VRead i) 0 s), Some i)
  | None => (s, None)
  end.

(** [fds_ok] is [fds != NULL]; [table] is the current process' table, [None]
    without a current process or table. The pair is [(fds[0], fds[1])]. *)
Definition pipe_create (fds_ok : bool) (table : option nat) (s : sys) : sys * Z * (Z * Z) :=
  if negb fds_ok then (s, - EFAULT, (0, 0))
  else match table with
  | None => (s, - ESRCH, (0, 0))
  | Some _ =>
      match pipe_alloc s with
      | (s, None) => (s, - ENFILE, (0, 0))
      | (s, Some i) =>
          let '(s, read_fd) := fd_alloc table (Some (VRead i)) O_RDONLY s in
          if read_fd <? 0 then
            let s := set_world (alter pipe_close_read i) s in
            let s := set_world (alter pipe_close_write i) s in
            (s, read_fd, (0, 0))
          else
            let '(s, write_fd) := fd_alloc table (Some (VWrite i)) O_WRONLY s in
            if write_fd <? 0 then
              let s := fd_put table read_fd s in
              let s := set_world (alter pipe_close_write i) s in
              (s, write_fd, (0, 0))
            else (s, 0, (read_fd, write_fd))
      end
  end.

(** ** The ring as a queue *)

(** The bytes in the pipe, oldest first. *)
Definition contents (p : pipe) : list Z :=
  (fun k => p_buffer p !!! idx ((p_read_pos p + k) mod PIPE_BUFFER_SIZE)) <$> seqZ 0 (p_data_size p).

Record pipe_wf (p : pipe) : Prop := {
  pw_len : Z.of_nat (length (p_buffer p)) = PIPE_BUFFER_SIZE;
  pw_read : 0 <= p_read_pos p < PIPE_BUFFER_SIZE;
  pw_size : 0 <= p_data_size p <= PIPE_BUFFER_SIZE;
  pw_write : p_write_pos p = (p_read_pos p + p_data_size p) mod PIPE_BUFFER_SIZE
}.

Section Ring.
Implicit Types (p : pipe) (n : nat).

Lemma ring_read_eq n p :
  0 <= p_read_pos p < PIPE_BUFFER_SIZE ->
  ring_read n p =
    (Pipe (p_buffer p) ((p_read_pos p + Z.of_nat n) mod PIPE_BUFFER_SIZE) (p_write_pos p)
          (p_data_size p) (p_readers p) (p_writers p) (p_in_use p),
     (fun k => p_buffer p !!! idx ((p_read_pos p + k) mod PIPE_BUFFER_SIZE)) <$> seqZ 0 (Z.of_nat n)).
Proof.
  revert p. induction n as [|n IH]; intros p Hr; cbn [ring_read].
  - change (Z.of_nat 0) with 0. rewrite Z.add_0_r, (Z.mod_small (p_read_pos p)) by lia. by destruct p.
  - rewrite IH by (simpl; apply Z.mod_pos_bound; unfold PIPE_BUFFER_SIZE; lia). cbn -[Z.of_nat seqZ PIPE_BUFFER_SIZE Z.modulo]. f_equal.
    + f_equal. rewrite Z.add_mod_idemp_l by done. f_equal. lia.
    + rewrite (seqZ_cons 0 (Z.of_nat (S n))) by lia. rewrite fmap_cons. f_equal.
      * by rewrite Z.add_0_r, Z.mod_small by lia.
      * replace (Z.pred (Z.of_nat (S n))) with (Z.of_nat n) by lia.
        rewrite <- (fmap_add_seqZ 1 0), <- list_fmap_compose. apply list_fmap_ext. intros i k _. simpl.
        rewrite Z.add_mod_idemp_l by done. do 3 f_equal. lia.
Qed.

Lemma ring_write_frame bs p :
  p_read_pos (ring_write bs p) = p_read_pos p /\ p_data_size (ring_write bs p) = p_data_size p /\
  p_readers (ring_write bs p) = p_readers p /\ p_writers (ring_write bs p) = p_writers p /\
  p_in_use (ring_write bs p) = p_in_use p /\ length (p_buffer (ring_write bs p)) = length (p_buffer p).
Proof.
  revert p. induction bs as [|c bs IH]; intros p; simpl; [done|].
  destruct (IH (Pipe (<[idx (p_write_pos p):=c]> (p_buffer p)) (p_read_pos p)
    ((p_write_pos p + 1) mod PIPE_BUFFER_SIZE) (p_data_size p) (p_readers p) (p_writers p) (p_in_use p)))
    as (-> & -> & -> & -> & -> & ->). simpl. by rewrite length_insert.
Qed.

Lemma ring_write_pos bs p :
  0 <= p_write_pos p < PIPE_BUFFER_SIZE ->
  p_write_pos (ring_write bs p) = (p_write_pos p + Z.of_nat (length bs)) mod PIPE_BUFFER_SIZE.
Proof.
  revert p. induction bs as [|c bs IH]; intros p Hw; cbn [ring_write length].
  - change (Z.of_nat 0) with 0. by rewrite Z.add_0_r, (Z.mod_small (p_write_pos p)) by lia.
  - rewrite IH by (simpl; apply Z.mod_pos_bound; done). simpl.
    rewrite Z.add_mod_idemp_l by done. f_equal. lia.
Qed.

(** Byte [j] of the buffer after the copy loop. *)
Lemma ring_write_at bs p j :
  Z.of_nat (length (p_buffer p)) = PIPE_BUFFER_SIZE ->
  0 <= p_write_pos p < PIPE_BUFFER_SIZE -> Z.of_nat (length bs) <= PIPE_BUFFER_SIZE ->
  0 <= j < PIPE_BUFFER_SIZE ->
  p_buffer (ring_write bs p) !!! idx j =
    let k := (j - p_write_pos p) mod PIPE_BUFFER_SIZE in
    if k <? Z.of_nat (length bs) then bs !!! idx k else p_buffer p !!! idx j.
Proof.
  revert p. induction bs as [|c bs IH]; intros p Hlen Hw Hbs Hj; cbn [ring_write length] in *; cbv zeta.
  - destruct (_ <? _) eqn:E; [|done]. unfold PIPE_BUFFER_SIZE in *. dlia.
  - rewrite IH; [|simpl; by rewrite length_insert|simpl; apply Z.mod_pos_bound; done|lia|done]. cbv zeta. simpl.
    assert (Hk : 0 <= (j - p_write_pos p) mod PIPE_BUFFER_SIZE < PIPE_BUFFER_SIZE) by (apply Z.mod_pos_bound; done).
    assert (Hmod : (j - (p_write_pos p + 1) mod PIPE_BUFFER_SIZE) mod PIPE_BUFFER_SIZE =
                   if (j - p_write_pos p) mod PIPE_BUFFER_SIZE =? 0 then PIPE_BUFFER_SIZE - 1
                   else (j - p_write_pos p) mod PIPE_BUFFER_SIZE - 1).
    { unfold PIPE_BUFFER_SIZE in *. split_ifs; dlia. }
    rewrite Hmod. destruct (Z.eqb_spec ((j - p_write_pos p) mod PIPE_BUFFER_SIZE) 0) as [E0|E0].
    + assert (j = p_write_pos p) as -> by (unfold PIPE_BUFFER_SIZE in *; dlia). rewrite E0.
      destruct (_ - 1 <? _) eqn:E1; [lia|]. destruct (0 <? _) eqn:E2; [|lia]. simpl.
      rewrite list_lookup_total_insert_eq; [done|]. unfold idx. lia.
    + assert (j <> p_write_pos p) by (intros ->; rewrite Z.sub_diag in E0; done).
      set (k := (j - p_write_pos p) mod PIPE_BUFFER_SIZE) in *.
      destruct (k - 1 <? Z.of_nat (length bs)) eqn:E1, (k <? Z.of_nat (S (length bs))) eqn:E2; try lia.
      * unfold idx. replace (Z.to_nat k) with (S (Z.to_nat (k - 1))) by lia. done.
      * rewrite list_lookup_total_insert_ne by (unfold idx; lia). done.
Qed.
End Ring.

(** Reading removes from the front, writing appends at the back. *)
Section Queue.
Implicit Types (p : pipe) (bs : list Z).

Lemma length_contents p : 0 <= p_data_size p -> Z.of_nat (length (contents p)) = p_data_size p.
Proof. intros. unfold contents. rewrite length_fmap, length_seqZ. lia. Qed.

Lemma contents_lookup p (k : nat) :
  Z.of_nat k < p_data_size p ->
  contents p !! k = Some (p_buffer p !!! idx ((p_read_pos p + Z.of_nat k) mod PIPE_BUFFER_SIZE)).
Proof. intros. unfold contents. rewrite list_lookup_fmap, lookup_seqZ_lt by lia. done. Qed.

Lemma ring_take p n :
  pipe_wf p -> 0 <= n <= p_data_size p ->
  let '(p', out) := ring_read (Z.to_nat n) p in
  let p'' := set_data_size (p_data_size p' - n) p' in
  pipe_wf p'' /\ Z.of_nat (length out) = n /\ contents p = out ++ contents p'' /\
  p_readers p'' = p_readers p /\ p_writers p'' = p_writers p.
Proof.
  intros [Hl Hr Hs Hw] Hn. rewrite ring_read_eq, Z2Nat.id by lia. cbv zeta.
  unfold set_data_size. cbn [p_buffer p_read_pos p_write_pos p_data_size p_readers p_writers p_in_use].
  split_and!; [split; simpl|..]; try done.
  - apply Z.mod_pos_bound. done.
  - lia.
  - rewrite Hw, Z.add_mod_idemp_l by done. f_equal. lia.
  - rewrite length_fmap, length_seqZ. lia.
  - unfold contents. simpl. replace (p_data_size p) with (n + (p_data_size p - n)) at 1 by lia.
    rewrite seqZ_app by lia. rewrite fmap_app. f_equal. rewrite (Z.add_comm 0 n).
    rewrite <- (fmap_add_seqZ n 0), <- list_fmap_compose. apply list_fmap_ext. intros i k _. simpl.
    rewrite Z.add_mod_idemp_l by done. do 3 f_equal. lia.
Qed.

Lemma ring_put p bs :
  pipe_wf p -> Z.of_nat (length bs) <= PIPE_BUFFER_SIZE - p_data_size p ->
  let p' := ring_write bs p in
  let p'' := set_data_size (p_data_size p' + Z.of_nat (length bs)) p' in
  pipe_wf p'' /\ contents p'' = contents p ++ bs /\
  p_readers p'' = p_readers p /\ p_writers p'' = p_writers p.
Proof.
  intros [Hl Hr Hs Hw] Hfit p' p''.
  destruct (ring_write_frame bs p) as (Er & Es & Erd & Ewr & _ & El). fold p' in Er, Es, Erd, Ewr, El.
  assert (Hwp : 0 <= p_write_pos p < PIPE_BUFFER_SIZE) by (rewrite Hw; apply Z.mod_pos_bound; done).
  assert (Hds : p_data_size p'' = p_data_size p + Z.of_nat (length bs)) by (simpl; lia).
  assert (Hrp : p_read_pos p'' = p_read_pos p) by done || exact Er.
  split_and!; [split|..]; try done.
  - simpl. lia.
  - rewrite Hrp. lia.
  - lia.
  - rewrite Hds, Hrp. simpl. unfold p'. rewrite ring_write_pos, Hw by done.
    rewrite Z.add_mod_idemp_l by done. f_equal. lia.
  - apply list_eq. intros k. destruct (decide (Z.of_nat k < p_data_size p'')) as [Hk|Hk].
    2: { rewrite !lookup_ge_None_2; [done| |].
         - rewrite length_app. pose proof (length_contents p). lia.
         - pose proof (length_contents p''). lia. }
    rewrite contents_lookup by done. rewrite Hrp.
    change (p_buffer p'') with (p_buffer p'). unfold p'.
    rewrite ring_write_at by (done || lia || (apply Z.mod_pos_bound; done)). cbv zeta.
    pose proof (length_contents p ltac:(lia)) as Hlc.
    destruct (decide (Z.of_nat k < p_data_size p)) as [Hk1|Hk1].
    + rewrite lookup_app_l, contents_lookup by lia. f_equal.
      destruct (_ <? _) eqn:E; [|done]. unfold PIPE_BUFFER_SIZE in *. dlia.
    + rewrite lookup_app_r by lia.
      assert (Hm : ((p_read_pos p + Z.of_nat k) mod PIPE_BUFFER_SIZE - p_write_pos p) mod PIPE_BUFFER_SIZE
                   = Z.of_nat k - p_data_size p).
      { rewrite Hw. unfold PIPE_BUFFER_SIZE in *. dlia. }
      rewrite Hm. destruct (_ <? _) eqn:E; [|lia].
      destruct (lookup_lt_is_Some_2 bs (k - length (contents p))) as [x Hx]; [lia|].
      rewrite Hx. f_equal. replace (idx (Z.of_nat k - p_data_size p)) with (k - length (contents p))%nat
        by (unfold idx; lia). by apply list_lookup_total_correct.
Qed.
End Queue.

(** ** Reading and writing through the lock *)

(** The pipe after the first [k] gaps of the environment. *)
Definition after (env : list gap) (k : nat) (p : pipe) : pipe :=
  foldl (fun p g => others g p) p (take k env).

(** A reader has nothing to return: no data, and some writer is left. *)
Definition must_wait (p : pipe) : Prop := p_data_size p = 0 /\ 0 < p_writers p.

(** What the other processes do keeps the ring well formed. *)
Definition well_behaved (f : pipe -> pipe) : Prop := forall p, pipe_wf p -> pipe_wf (f p).

(** The other processes only take bytes out, oldest first. *)
Definition drains (f : pipe -> pipe) : Prop :=
  forall p, pipe_wf p -> pipe_wf (f p) /\ exists d, contents p = d ++ contents (f p).

(** A reader that stays, and makes room in a full pipe. *)
Definition keeps_reading (f : pipe -> pipe) : Prop :=
  forall p, pipe_wf p -> 0 < p_readers p ->
    0 < p_readers (f p) /\ p_data_size (f p) < PIPE_BUFFER_SIZE.

Section Blocking.
Implicit Types (p : pipe) (env : list gap) (bs : list Z).

Definition read_done env count p (p' : pipe) (r : Z) (out : list Z) (k : nat) : Prop :=
  let p0 := after env k p in
  (forall j, (j < k)%nat -> must_wait (after env j p) /\ interrupted <$> env !! j = Some false) /\
  ((0 < r /\ r = Z.min count (p_data_size p0) /\ Z.of_nat (length out) = r /\
    contents p0 = out ++ contents p') \/
   (r = 0 /\ out = [] /\ p' = p0 /\ contents p0 = [] /\ p_writers p0 <= 0) \/
   (r = - EINTR /\ out = [] /\ p' = p0 /\ must_wait p0 /\ interrupted <$> env !! k = Some true)).

Lemma after_cons g env k p : after (g :: env) (S k) p = after env k (others g p).
Proof. done. Qed.

Lemma contents_nil p : p_data_size p = 0 -> contents p = [].
Proof. intros E. unfold contents. by rewrite E. Qed.

Lemma read_done_cons g env count p p' r out k :
  must_wait p -> interrupted g = false ->
  read_done env count (others g p) p' r out k -> read_done (g :: env) count p p' r out (S k).
Proof.
  intros Hw Hg [Hj Hr]. split.
  - intros [|j] Hlt; simpl; [by rewrite Hg|]. rewrite after_cons. apply Hj. lia.
  - rewrite after_cons. simpl. exact Hr.
Qed.

Lemma pipe_read_loop_spec env count p :
  pipe_wf p -> Forall (fun g => well_behaved (others g)) env -> 0 < count ->
  match pipe_read_loop env count p with
  | Some (p', r, out) => pipe_wf p' /\ exists k, read_done env count p p' r out k
  | None => forall k, (k <= length env)%nat ->
      must_wait (after env k p) /\ (k < length env -> interrupted <$> env !! k = Some false)%nat
  end.
Proof.
  revert p. induction env as [|g env IH]; intros p Hwf Henv Hc; cbn [pipe_read_loop];
    destruct (Z.eqb_spec (p_data_size p) 0) as [Hd|Hd]; simpl negb; cbv iota.
  2, 4: pose proof (pw_size _ Hwf); set (n := if count <? p_data_size p then count else p_data_size p);
    assert (Hn : n = Z.min count (p_data_size p)) by (unfold n; split_ifs; lia);
    pose proof (ring_take p n Hwf ltac:(lia)) as Ht;
    destruct (ring_read (Z.to_nat n) p) as [p' out]; destruct Ht as (Hwf' & Hlen & Hct & _);
    split; [exact Hwf'|]; exists 0%nat; split; [intros; lia|]; left; change (after _ 0 p) with p;
    rewrite s32_small by (unfold PIPE_BUFFER_SIZE in *; lia); split_and!; [lia|done|done|exact Hct].
  - destruct (p_writers p <=? 0) eqn:Ew.
    + split; [done|]. exists 0%nat. split; [intros; lia|]. right. left. change (after [] 0 p) with p.
      rewrite contents_nil by done. split_and!; done || lia.
    + intros k Hk. assert (k = 0%nat) as -> by (simpl in Hk; lia). change (after [] 0 p) with p.
      split; [split; [done|lia]|simpl; lia].
  - destruct (p_writers p <=? 0) eqn:Ew.
    + split; [done|]. exists 0%nat. split; [intros; lia|]. right. left. change (after (g :: env) 0 p) with p.
      rewrite contents_nil by done. split_and!; done || lia.
    + assert (Hmw : must_wait p) by (split; [done|lia]).
      inversion_clear Henv as [|? ? Hg Henv']. destruct (interrupted g) eqn:Eg.
      * split; [done|]. exists 0%nat. split; [intros; lia|]. right. right.
        change (after (g :: env) 0 p) with p. simpl. rewrite Eg. done.
      * specialize (IH (others g p) (Hg p Hwf) Henv' Hc).
        destruct (pipe_read_loop env count (others g p)) as [[[p' r] out]|].
        -- destruct IH as [Hw' [k Hk]]. split; [done|]. exists (S k). by apply read_done_cons.
        -- intros [|k] Hk; [split; [done|simpl; by rewrite Eg]|].
           simpl in Hk. destruct (IH k ltac:(lia)) as [H1 H2]. rewrite after_cons. split; [done|].
           simpl. intros. apply H2. lia.
Qed.

(** The outcome of a write of [bs] that found [total] bytes written before:
    [n] of the bytes went in. A write goes through to its last byte only while
    there is a reader. *)
Definition write_done bs (total : Z) (p' : pipe) (r : Z) (sig : bool) (n : nat) : Prop :=
  let sum := total + Z.of_nat n in
  (n = length bs /\ r = sum /\ sig = false /\ (bs <> [] -> 0 < p_readers p')) \/
  ((n < length bs)%nat /\ 0 < sum /\ r = sum /\ sig = false /\
     (p_readers p' <= 0 \/ p_data_size p' = PIPE_BUFFER_SIZE)) \/
  (sum = 0 /\ bs <> [] /\ r = - EPIPE /\ sig = true /\ p_readers p' <= 0) \/
  (sum = 0 /\ bs <> [] /\ r = - EINTR /\ sig = false /\ p_data_size p' = PIPE_BUFFER_SIZE).

Lemma write_done_cons bs total n m p' r sig :
  (n <= length bs)%nat -> drop n bs <> [] ->
  write_done (drop n bs) (total + Z.of_nat n) p' r sig m -> (0 < n)%nat -> 0 <= total ->
  write_done bs total p' r sig (n + m).
Proof.
  unfold write_done. rewrite length_drop. intros Hn Hd H Hpos Ht.
  destruct H as [(?&?&?&Hr)|[(?&?&?&?&?)|[(?&?&?&?&?)|(?&?&?&?&?)]]].
  - left. split_and!; [lia..|done|]. intros _. by apply Hr.
  - right. left. split_and!; [lia..|done|done].
  - lia.
  - lia.
Qed.
End Blocking.

(** One critical section of [pipe_write] that finds room. *)
Section Writing.
Implicit Types (p : pipe) (env : list gap) (bs : list Z).

Definition put_some bs p (n : Z) : pipe :=
  let p := ring_write (take (Z.to_nat n) bs) p in set_data_size (p_data_size p + n) p.

Lemma put_some_spec bs p n :
  pipe_wf p -> 0 <= n <= Z.of_nat (length bs) -> n <= PIPE_BUFFER_SIZE - p_data_size p ->
  pipe_wf (put_some bs p n) /\ contents (put_some bs p n) = contents p ++ take (Z.to_nat n) bs /\
  p_readers (put_some bs p n) = p_readers p /\ p_writers (put_some bs p n) = p_writers p.
Proof.
  intros Hwf Hn Hfit. assert (El : Z.of_nat (length (take (Z.to_nat n) bs)) = n) by (rewrite length_take; lia).
  pose proof (ring_put p (take (Z.to_nat n) bs) Hwf ltac:(lia)) as H. cbv zeta in H. by rewrite El in H.
Qed.

(** The loop unrolled once: the test of the next iteration comes after the
    lock has been free for one gap. *)
Lemma pipe_write_loop_unfold env bs total p :
  pipe_write_loop env bs total p =
  if bool_decide (bs = []) then Some (p, s32 total, false)
  else if p_readers p <=? 0 then
    if negb (total =? 0) then Some (p, s32 total, false) else Some (p, - EPIPE, true)
  else
    let space := PIPE_BUFFER_SIZE - p_data_size p in
    if negb (space =? 0) then
      let n := Z.min (Z.of_nat (length bs)) space in
      let p := put_some bs p n in
      let bs' := drop (Z.to_nat n) bs in
      if bool_decide (bs' = []) then Some (p, s32 (total + n), false)
      else match env with
           | [] => None
           | g :: env' => pipe_write_loop env' bs' (total + n) (others g p)
           end
    else match env with
         | [] => None
         | g :: env' =>
             if interrupted g then Some (p, if negb (total =? 0) then s32 total else - EINTR, false)
             else pipe_write_loop env' bs total (others g p)
         end.
Proof.
  destruct bs as [|b bs]; [by destruct env|].
  rewrite (bool_decide_eq_false_2 (b :: bs = [])) by done. cbv zeta.
  set (sp := PIPE_BUFFER_SIZE - p_data_size p).
  assert (Hn : (if Z.of_nat (length (b :: bs)) <? sp then Z.of_nat (length (b :: bs)) else sp)
               = Z.min (Z.of_nat (length (b :: bs))) sp) by (split_ifs; lia).
  destruct env as [|g env]; cbn [pipe_write_loop]; fold sp; rewrite Hn;
    destruct (drop (Z.to_nat (Z.min (Z.of_nat (length (b :: bs))) sp)) (b :: bs)); done.
Qed.

Lemma pipe_write_loop_spec env bs total p :
  pipe_wf p -> Forall (fun g => drains (others g)) env -> 0 <= total ->
  total + Z.of_nat (length bs) < 2 ^ 31 ->
  match pipe_write_loop env bs total p with
  | Some (p', r, sig) => pipe_wf p' /\ exists n d, (n <= length bs)%nat /\
      contents p ++ take n bs = d ++ contents p' /\ write_done bs total p' r sig n
  | None => True
  end.
Proof.
  revert bs total p. induction env as [|g env IH]; intros bs total p Hwf Henv Ht Hmax;
    rewrite pipe_write_loop_unfold; pose proof (pw_size _ Hwf) as Hsz;
    (case_bool_decide as Hbs; [|destruct (p_readers p <=? 0) eqn:Er]).
  1, 4: subst bs; split; [done|]; exists 0%nat, []; rewrite s32_small by (simpl in *; lia);
    split_and!; [done|by rewrite app_nil_r|left; split_and!; [done|simpl; lia|done|done]].
  1, 3: destruct (Z.eqb_spec total 0) as [->|Hnz]; simpl negb; cbv iota; (split; [done|]);
    exists 0%nat, []; (split_and!; [lia|by rewrite app_nil_r|]);
    [right; right; left; split_and!; done || lia|
     rewrite s32_small by lia; right; left;
     split_and!; [destruct bs; simpl; done || lia|lia|lia|done|left; lia]].
  all: set (sp := PIPE_BUFFER_SIZE - p_data_size p) in *; cbv zeta;
    destruct (Z.eqb_spec sp 0) as [Hsp|Hsp]; simpl negb; cbv iota.
  - done.
  - set (n := Z.min (Z.of_nat (length bs)) sp) in *.
    destruct (put_some_spec bs p n Hwf ltac:(lia) ltac:(lia)) as (Hwf1 & Hc1 & Hr1 & _).
    case_bool_decide as Hd; [|done]. split; [done|].
    assert (Hl : length (drop (Z.to_nat n) bs) = 0%nat) by (by rewrite Hd). rewrite length_drop in Hl.
    exists (length bs), []. rewrite s32_small by lia. split_and!; [done| |left; split_and!; [lia|lia|done|intros _; rewrite Hr1; lia]].
    rewrite Hc1. simpl. rewrite !take_ge by lia. done.
  - inversion_clear Henv as [|? ? Hg Henv']. destruct (interrupted g).
    + split; [done|]. exists 0%nat, []. split_and!; [lia|by rewrite app_nil_r|].
      destruct (Z.eqb_spec total 0) as [->|Hnz]; simpl negb; cbv iota.
      * right; right; right. split_and!; done || lia.
      * rewrite s32_small by lia. right; left. split_and!; [destruct bs; simpl; done || lia|lia|lia|done|right; lia].
    + destruct (Hg p Hwf) as [Hwf' [d Hd]]. specialize (IH bs total _ Hwf' Henv' Ht Hmax).
      destruct (pipe_write_loop env bs total (others g p)) as [[[p' r] sig]|]; [|done].
      destruct IH as (Hw' & n & d' & Hn & Hct & Hdone). split; [done|]. exists n, (d ++ d').
      split_and!; [done| |done]. rewrite Hd, <- !app_assoc. by f_equal.
  - inversion_clear Henv as [|? ? Hg Henv']. set (n := Z.min (Z.of_nat (length bs)) sp) in *.
    destruct (put_some_spec bs p n Hwf ltac:(lia) ltac:(lia)) as (Hwf1 & Hc1 & Hr1 & _).
    case_bool_decide as Hdr.
    + split; [done|].
      assert (Hl : length (drop (Z.to_nat n) bs) = 0%nat) by (by rewrite Hdr). rewrite length_drop in Hl.
      exists (length bs), []. rewrite s32_small by lia. split_and!; [done| |left; split_and!; [lia|lia|done|intros _; rewrite Hr1; lia]].
      rewrite Hc1. simpl. rewrite !take_ge by lia. done.
    + assert (0 < length bs)%nat by (destruct bs; simpl; done || lia).
      destruct (Hg _ Hwf1) as [Hwf' [d Hd]].
      specialize (IH (drop (Z.to_nat n) bs) (total + n) _ Hwf' Henv' ltac:(lia) ltac:(rewrite length_drop; lia)).
      destruct (pipe_write_loop env _ _ _) as [[[p' r] sig]|]; [|done].
      destruct IH as (Hw' & m & d' & Hm & Hct & Hdone). rewrite length_drop in Hm. split; [done|].
      exists (Z.to_nat n + m)%nat, (d ++ d'). split_and!; [lia| |].
      * rewrite <- app_assoc, <- Hct, app_assoc, <- Hd, Hc1, <- app_assoc. f_equal.
        rewrite <- (take_drop (Z.to_nat n) bs) at 1. rewrite take_app_ge by (rewrite length_take; lia).
        f_equal. f_equal. rewrite length_take. lia.
      * apply write_done_cons; [lia|done| |lia|lia]. rewrite Z2Nat.id by lia. done.
Qed.

(** With a reader that stays and makes room, every write finishes: after
    every gap there is room, so each iteration moves at least one byte. *)
Lemma pipe_write_loop_completes env bs total p :
  pipe_wf p -> Forall (fun g => well_behaved (others g) /\ keeps_reading (others g) /\ interrupted g = false) env ->
  0 <= total -> total + Z.of_nat (length bs) < 2 ^ 31 -> 0 < p_readers p ->
  (length bs + (if (p_data_size p =? PIPE_BUFFER_SIZE)%Z then 1 else 0) <= length env)%nat ->
  exists p', pipe_write_loop env bs total p = Some (p', total + Z.of_nat (length bs), false).
Proof.
  revert bs total p. induction env as [|g env IH]; intros bs total p Hwf Henv Ht Hmax Hrd Hlen;
    rewrite pipe_write_loop_unfold; pose proof (pw_size _ Hwf) as Hsz.
  - assert (bs = []) as -> by (destruct bs; simpl in *; done || lia). rewrite bool_decide_eq_true_2 by done.
    rewrite s32_small by (simpl in *; lia). eexists. simpl. by rewrite Z.add_0_r.
  - case_bool_decide as Hbs.
    { subst. rewrite s32_small by (simpl in *; lia). eexists. simpl. by rewrite Z.add_0_r. }
    destruct (p_readers p <=? 0) eqn:Er; [lia|]. cbv zeta.
    inversion_clear Henv as [|? ? (Hwb & Hkr & Hint) Henv'].
    set (sp := PIPE_BUFFER_SIZE - p_data_size p) in *.
    destruct (Z.eqb_spec sp 0) as [Hsp|Hsp]; simpl negb; cbv iota.
    + rewrite Hint. destruct (Hkr p Hwf Hrd) as [Hrd' Hroom].
      apply IH; [by apply Hwb|done|done|done|done|].
      rewrite (proj2 (Z.eqb_eq (p_data_size p) _)) in Hlen by lia.
      rewrite (proj2 (Z.eqb_neq (p_data_size (others g p)) _)) by lia. simpl in Hlen. lia.
    + set (n := Z.min (Z.of_nat (length bs)) sp) in *.
      assert (0 < length bs)%nat by (destruct bs; simpl; done || lia).
      destruct (put_some_spec bs p n Hwf ltac:(lia) ltac:(lia)) as (Hwf1 & _ & Hr1 & _).
      case_bool_decide as Hdr.
      * assert (Hl : length (drop (Z.to_nat n) bs) = 0%nat) by (by rewrite Hdr). rewrite length_drop in Hl.
        rewrite s32_small by lia. eexists. do 2 f_equal. f_equal. lia.
      * destruct (Hkr _ Hwf1 ltac:(lia)) as [Hrd' Hroom].
        destruct (IH (drop (Z.to_nat n) bs) (total + n) _ (Hwb _ Hwf1) Henv' ltac:(lia)
                     ltac:(rewrite length_drop; lia) Hrd') as [p' Hp'].
        { rewrite length_drop, (proj2 (Z.eqb_neq (p_data_size (others _ _)) _)) by lia. simpl in Hlen. lia. }
        exists p'. rewrite Hp'. do 2 f_equal. f_equal. rewrite length_drop. lia.
Qed.

(** A write into a pipe nobody reads stops at once. *)
Lemma pipe_write_loop_broken env bs total p : bs <> [] -> p_readers p <= 0 ->
  pipe_write_loop env bs total p = if total =? 0 then Some (p, - EPIPE, true) else Some (p, s32 total, false).
Proof.
  intros Hbs Hr. rewrite pipe_write_loop_unfold, bool_decide_eq_false_2 by done.
  replace (p_readers p <=? 0) with true by lia. by destruct (total =? 0).
Qed.

(** It does not wait for readers that are gone. *)
Lemma pipe_write_loop_gone env bs total p : Exists (fun g => forall q, p_readers (others g q) <= 0) env ->
  pipe_write_loop env bs total p <> None.
Proof.
  intros Hex. revert bs total p. induction env as [|g env IH]; [by apply Exists_nil in Hex|]. intros bs total p.
  assert (Hnext : forall bs' total' q, pipe_write_loop env bs' total' (others g q) <> None).
  { intros bs' total' q. apply Exists_cons in Hex as [Hg|Hex]; [|by apply IH].
    destruct (decide (bs' = [])) as [->|Hne]; [rewrite pipe_write_loop_unfold; by rewrite bool_decide_eq_true_2|].
    rewrite pipe_write_loop_broken by done. by destruct (total' =? 0). }
  rewrite pipe_write_loop_unfold. cbv zeta. case_bool_decide; [done|]. destruct (_ <=? 0); [by destruct (negb _)|].
  destruct (negb _); [case_bool_decide; [done|apply Hnext]|]. destruct (interrupted g); [done|apply Hnext].
Qed.
End Writing.

(** ** Reader and writer counts

    pipe.c promises that the hooks keep [readers] and [writers] equal to the
    number of open descriptors of each end, and frees the pipe at zero/zero. *)
Definition pipe_agrees (i : nat) (p : pipe) (c : vref -> Z) : Prop :=
  p_readers p = c (VRead i) /\ p_writers p = c (VWrite i) /\
  p_in_use p = negb ((p_readers p =? 0) && (p_writers p =? 0)).

Definition pipe_acct (ps : list pipe) (c : vref -> Z) : Prop :=
  length ps = PIPE_MAX_PIPES /\ (forall i p, ps !! i = Some p -> pipe_wf p /\ pipe_agrees i p c) /\
  (forall i, (PIPE_MAX_PIPES <= i)%nat -> c (VRead i) = 0 /\ c (VWrite i) = 0) /\
  (forall v, 0 <= c v).

Section Accounting.
Implicit Types (p : pipe) (ps : list pipe) (c : vref -> Z) (v : vref).

Lemma pipe_adjust_wf b d p : pipe_wf p -> pipe_wf (pipe_adjust b d p).
Proof. intros [? ? ? ?]. unfold pipe_adjust. destruct b; cbv zeta; split_ifs; by split. Qed.

(** Adjusting one end by [d], when the result is not negative. *)
Lemma pipe_adjust_agrees (reader : bool) (d : Z) i p c :
  let v := if reader then VRead i else VWrite i in
  pipe_agrees i p c -> p_in_use p = true -> 0 <= c v + d -> 0 <= c (VRead i) -> 0 <= c (VWrite i) ->
  pipe_agrees i (pipe_adjust reader d p) (fun v' => if decide (v' = v) then c v + d else c v').
Proof.
  intros v (Hr & Hw & Hu) Hiu Hd H1 H2. unfold pipe_agrees, pipe_adjust, clamp0. subst v.
  destruct reader; cbv zeta; cbn [p_readers p_writers p_in_use set_counts set_in_use] in *;
    repeat (case_decide; try congruence);
    split_ifs; cbn [p_readers p_writers p_in_use set_counts set_in_use] in *; split_and!; lia.
Qed.

Lemma pipe_acct_adjust (reader : bool) (d : Z) i ps c :
  let v := if reader then VRead i else VWrite i in
  pipe_acct ps c -> 1 <= c v -> 0 <= c v + d ->
  pipe_acct (alter (pipe_adjust reader d) i ps) (fun v' => if decide (v' = v) then c v + d else c v').
Proof.
  intros v (Hl & Ha & Hout & Hnn) Hc Hd. unfold pipe_acct. rewrite length_alter. split_and!; [done| | |].
  - intros j p. destruct (decide (j = i)) as [->|Hne].
    + rewrite list_lookup_alter, decide_True by done. intros (q & Hq & ->)%fmap_Some.
      destruct (Ha i q Hq) as [Hwf Hag]. split; [by apply pipe_adjust_wf|].
      apply pipe_adjust_agrees; auto. destruct Hag as (E1 & E2 & ->).
      pose proof (Hnn (VRead i)). pose proof (Hnn (VWrite i)). subst v. destruct reader; lia.
    + rewrite list_lookup_alter_ne by done. intros Hp. destruct (Ha j p Hp) as [Hwf Hag].
      split; [done|]. unfold pipe_agrees. rewrite !decide_False by (subst v; destruct reader; congruence). done.
  - intros j Hj. destruct (Hout j Hj) as [H1 H2]. subst v.
    destruct reader; split; case_decide as E; try done; injection E as ->; lia.
  - intros v'. specialize (Hnn v'). case_decide; lia.
Qed.

Lemma pipe_acct_ext ps c c' : (forall v, c v = c' v) -> pipe_acct ps c -> pipe_acct ps c'.
Proof.
  intros E (Hl & Ha & Hout & Hnn). split_and!; [done| | |].
  - intros i p Hp. destruct (Ha i p Hp) as [? (?&?&?)]. unfold pipe_agrees. by rewrite <- !E.
  - intros. rewrite <- !E. auto.
  - intros v. rewrite <- E. auto.
Qed.

#[export] Instance pipe_accounting : VnodeAccounting vref (list pipe) pipe_acct.
Proof.
  split; [exact pipe_acct_ext| |].
  - intros w c [i|i|n] Ha Hc.
    + exact (pipe_acct_adjust true 1 i w c Ha Hc ltac:(lia)).
    + exact (pipe_acct_adjust false 1 i w c Ha Hc ltac:(lia)).
    + destruct Ha as (Hl & Ha & Hout & Hnn). split_and!; [done|exact Ha|exact Hout|].
      intros v. specialize (Hnn v). case_decide; lia.
  - intros w c [i|i|n] Ha Hc.
    + exact (pipe_acct_adjust true (-1) i w c Ha Hc ltac:(lia)).
    + exact (pipe_acct_adjust false (-1) i w c Ha Hc ltac:(lia)).
    + destruct Ha as (Hl & Ha & Hout & Hnn). split_and!; [done|exact Ha|exact Hout|].
      intros v. specialize (Hnn v). case_decide; lia.
Qed.

(** A transfer through the ring leaves the counts alone. *)
Lemma pipe_acct_io i p p' ps c :
  pipe_acct ps c -> ps !! i = Some p -> pipe_wf p' ->
  p_readers p' = p_readers p -> p_writers p' = p_writers p -> p_in_use p' = p_in_use p ->
  pipe_acct (<[i := p']> ps) c.
Proof.
  intros (Hl & Ha & Hout & Hnn) Hp Hwf E1 E2 E3. unfold pipe_acct. rewrite length_insert.
  split_and!; [done| |done|done]. intros j q. destruct (decide (j = i)) as [->|].
  - rewrite list_lookup_insert_eq by (by eapply lookup_lt_Some). intros [= <-].
    split; [done|]. destruct (Ha i p Hp) as [_ (?&?&?)]. unfold pipe_agrees. by rewrite E1, E2, E3.
  - rewrite list_lookup_insert_ne by done. apply Ha.
Qed.
End Accounting.

(** ** Creating a pipe *)

(** References the path layer holds: none to a pipe end. *)
Definition file_base (fb : Z -> Z) (v : vref) : Z := match v with VFile n => fb n | _ => 0 end.

Definition sys_init (fb : Z -> Z) : sys := fds_init (replicate PIPE_MAX_PIPES pipe_zero) (file_base fb).

Section Create.
Context (fb : Z -> Z) (Hfb : forall n, 0 <= fb n).
Abbreviation base := (file_base fb).
Abbreviation inv := (fd_inv pipe_acct base).
Notation "a ⊕ b" := (fun v : vref => a v + b v) (at level 50, left associativity).
Implicit Types (s : sys).

Lemma base_nonneg v : 0 <= base v.
Proof using Hfb. destruct v; simpl; lia || apply Hfb. Qed.

Lemma one_nonneg (v v' : vref) : 0 <= one v v'.
Proof. unfold one. case_decide; lia. Qed.

Lemma pipe_alloc_inv s :
  inv s ->
  match pipe_alloc s with
  | (s', Some i) => fd_inv (owe pipe_acct (one (VWrite i) ⊕ one (VRead i))) base s' /\
      g_fd_table_used s' = g_fd_table_used s /\ (i < PIPE_MAX_PIPES)%nat /\
      (forall t fd, entry_at s' t fd = entry_at s t fd) /\
      (exists p, fd_world s !! i = Some p /\ p_in_use p = false)
  | (s', None) => s' = s /\ forall i p, fd_world s !! i = Some p -> p_in_use p = true
  end.
Proof.
  intros Hi. destruct (fi_acct _ _ _ Hi) as (Hl & Ha & Hout & Hnn). unfold pipe_alloc.
  destruct (find_from _ 0 PIPE_MAX_PIPES) as [i|] eqn:Ef.
  - apply find_from_Some in Ef as (Hb & Hp & _).
    destruct (lookup_lt_is_Some_2 (fd_world s) i) as [p Ep]; [lia|]. rewrite Ep in Hp. simpl in Hp.
    destruct (Ha i p Ep) as [_ (Hr & Hw & Hu)].
    pose proof (Hnn (VRead i)). pose proof (Hnn (VWrite i)).
    assert (Hz : slots s (VRead i) = 0 /\ slots s (VWrite i) = 0) by (destruct (p_in_use p); simpl in *; lia).
    split_and!; [split| | | |]; try done; [| | |lia|].
    + eapply fd_wf_same with (s := s); [done..|]. apply Hi.
    + unfold owe. simpl. split_and!; [by rewrite length_insert| | |].
      * intros j q. destruct (decide (j = i)) as [->|Hne].
        -- rewrite list_lookup_insert_eq by lia. intros [= <-]. split; [by split|].
           destruct Hz as [Hz1 Hz2].
           assert (E1 : one (VWrite i) (VRead i) = 0 /\ one (VRead i) (VRead i) = 1 /\
                        one (VRead i) (VWrite i) = 0 /\ one (VWrite i) (VWrite i) = 1)
             by (unfold one; repeat (case_decide; try congruence); done).
           split_and!; [| |done].
           ++ change (1 = slots s (VRead i) + (one (VWrite i) (VRead i) + one (VRead i) (VRead i))). lia.
           ++ change (1 = slots s (VWrite i) + (one (VWrite i) (VWrite i) + one (VRead i) (VWrite i))). lia.
        -- rewrite list_lookup_insert_ne by done. intros Hq. destruct (Ha j q Hq) as [Hwf Hag].
           split; [done|]. unfold pipe_agrees, one. rewrite !decide_False by congruence.
           rewrite !Z.add_0_r. exact Hag.
      * intros j Hj. unfold one. rewrite !decide_False by (intros [= ->]; lia).
        rewrite !Z.add_0_r. exact (Hout j Hj).
      * intros v. pose proof (one_nonneg (VRead i) v). pose proof (one_nonneg (VWrite i) v).
        specialize (Hnn v). change (0 <= slots s v + (one (VWrite i) v + one (VRead i) v)). lia.
    + intros v. simpl. change (slots _ v) with (slots s v).
      pose proof (fi_refs _ _ _ Hi v). destruct Hz. repeat case_decide; subst; simpl in *; lia.
    + exists p. split; [done|]. by destruct (p_in_use p).
  - split; [done|]. intros i p Ep. pose proof (lookup_lt_Some (fd_world s) i p Ep).
    specialize (proj1 (find_from_None _ _ _) Ef i ltac:(lia)) as Hn. cbv beta in Hn.
    rewrite Ep in Hn. simpl in Hn. by destruct (p_in_use p).
Qed.

Lemma owe_nil s extra : (forall v, extra v = 0) -> fd_inv (owe pipe_acct extra) base s -> inv s.
Proof.
  intros Hx [H1 H2 H3]. split; [done| |done]. eapply pipe_acct_ext; [|exact H2].
  intros v. simpl. rewrite Hx. lia.
Qed.

(** Dropping references that were counted but never installed. *)
Lemma drop_owed (reader : bool) i s extra :
  let v := if reader then VRead i else VWrite i in
  (forall v, 0 <= extra v) ->
  fd_inv (owe pipe_acct (extra ⊕ one v)) base s ->
  fd_inv (owe pipe_acct extra) base (set_world (alter (pipe_adjust reader (-1)) i) s).
Proof.
  intros v Hx Hi. pose proof (fi_acct _ _ _ Hi) as Ha. split.
  - eapply fd_wf_same with (s := s); [done..|]. apply Hi.
  - unfold owe in *. simpl fd_world.
    assert (Hv : one v v = 1) by (unfold one; by rewrite decide_True).
    assert (Hge : 1 <= slots s v + (extra v + one v v)).
    { pose proof (slots_nonneg s v). specialize (Hx v). lia. }
    assert (Hge' : 0 <= slots s v + (extra v + one v v) + -1) by lia.
    eapply pipe_acct_ext; [|exact (pipe_acct_adjust reader (-1) i _ _ Ha Hge Hge')].
    intros v'. cbv beta. change (slots (set_world _ s) v') with (slots s v').
    fold v. unfold one in *. repeat case_decide; subst; try congruence; lia.
  - apply Hi.
Qed.

(** On success both ends are installed in free slots of the table; on failure
    no slot changes and every count returns to what it was. *)
Lemma pipe_create_inv t s :
  inv s -> g_fd_table_used s !! t = Some true ->
  let '(s', r, (a, b)) := pipe_create true (Some t) s in
  inv s' /\ g_fd_table_used s' = g_fd_table_used s /\
  ((r = 0 /\ exists i fa fb, a = Z.of_nat fa /\ b = Z.of_nat fb /\ fa <> fb /\
      entry_at s t fa = None /\ entry_at s t fb = None /\
      entry_at s' t fa = Some (FdEntry (VRead i) O_RDONLY 0) /\
      entry_at s' t fb = Some (FdEntry (VWrite i) O_WRONLY 0) /\
      (forall t' k, ~ (t' = t /\ (k = fa \/ k = fb)) -> entry_at s' t' k = entry_at s t' k)) \/
   (r = - ENFILE \/ r = - EMFILE) /\ forall t' k, entry_at s' t' k = entry_at s t' k).
Proof using Hfb.
  intros Hi Hu. unfold pipe_create. simpl negb. cbv iota.
  pose proof (pipe_alloc_inv s Hi) as Hal. destruct (pipe_alloc s) as [s1 [i|]].
  2: { destruct Hal as [-> _]. split_and!; [done|done|]. right. split; [by left|done]. }
  destruct Hal as (Hi1 & Hu1 & Hib & He1 & _).
  pose proof (fd_alloc_inv pipe_acct base t (VRead i) O_RDONLY s1 (one (VWrite i)) Hi1 ltac:(by rewrite Hu1)) as H2.
  destruct (fd_alloc (Some t) (Some (VRead i)) O_RDONLY s1) as [s2 r2].
  destruct H2 as [[-> ->]|(fa & -> & Hi2 & Ha & Hna & Hlta & Hoa & Hu2)].
  - change (- EMFILE <? 0) with true. cbv iota. split_and!; [|done|right; split; [by right|exact He1]].
    apply (drop_owed true i s1 (one (VWrite i)) (one_nonneg _)) in Hi1.
    apply (owe_nil _ (fun _ => 0)); [done|]. by apply (drop_owed false i _ (fun _ => 0)).
  - assert (Hneg : (Z.of_nat fa <? 0) = false) by lia. rewrite Hneg.
    assert (Hi2' : fd_inv (owe pipe_acct ((fun _ => 0) ⊕ one (VWrite i))) base s2) by exact Hi2.
    pose proof (fd_alloc_inv pipe_acct base t (VWrite i) O_WRONLY s2 (fun _ => 0) Hi2' ltac:(by rewrite Hu2, Hu1)) as H3.
    destruct (fd_alloc (Some t) (Some (VWrite i)) O_WRONLY s2) as [s3 r3].
    destruct H3 as [[-> ->]|(fb' & -> & Hi3 & Hb & Hnb & Hltb & Hob & Hu3)].
    + change (- EMFILE <? 0) with true. cbv iota.
      pose proof (owe_accounting pipe_acct (one (VWrite i)) (one_nonneg _)) as Hacc.
      destruct (fd_put_inv (owe pipe_acct (one (VWrite i))) base base_nonneg t (Z.of_nat fa) s2 Hi2)
        as (Hi3 & He3 & Hu3).
      split_and!; [|exact (eq_trans Hu3 (eq_trans Hu2 Hu1))|right; split; [by right|]].
      * apply (owe_nil _ (fun _ => 0)); [done|]. by apply (drop_owed false i _ (fun _ => 0)).
      * intros t' k. change (entry_at (fd_put (Some t) (Z.of_nat fa) s2) t' k = entry_at s t' k).
        rewrite He3, <- He1. destruct (decide _) as [Hc|Hc].
        -- destruct Hc as (-> & _ & ->). unfold idx. by rewrite Nat2Z.id, Hna.
        -- apply Hoa. intros [-> ->]. apply Hc. unfold idx. rewrite Nat2Z.id. lia.
    + assert (Hneg' : (Z.of_nat fb' <? 0) = false) by lia. rewrite Hneg'.
      assert (Hne : fa <> fb') by (intros ->; congruence).
      split_and!; [by apply (owe_nil _ (fun _ => 0))|congruence|left; split; [done|]].
      exists i, fa, fb'. split_and!; try done.
      * by rewrite <- He1.
      * rewrite <- He1, <- (Hoa t fb') by (intros [_ ->]; done). done.
      * rewrite Hob by (intros [_ ->]; done). done.
      * intros t' k Hk. rewrite Hob, Hoa, He1 by tauto. done.
Qed.
End Create.

(** ** The descriptor layer as a step relation *)

(** Every operation on descriptors and pipes, by any process. A process only
    passes its own table, which it has created. *)
Inductive sys_step (s : sys) : sys -> Prop :=
| step_table_create : sys_step s (fd_table_create s).1
| step_table_clone t : sys_step s (fd_table_clone (Some t) s).1
| step_table_destroy t : (t < FD_TABLE_POOL_SIZE)%nat -> sys_step s (fd_table_destroy (Some t) s)
| step_close t n : sys_step s (fd_put (Some t) n s)
| step_dup t o n : sys_step s (fd_dup (Some t) o n s).1
| step_open t n flags : g_fd_table_used s !! t = Some true ->
    sys_step s (fd_alloc (Some t) (Some (VFile n)) flags s).1
| step_pipe t : g_fd_table_used s !! t = Some true -> sys_step s (pipe_create true (Some t) s).1.1
| step_read i p count p' r out : fd_world s !! i = Some p -> 0 <= count ->
    pipe_read [] true count p = Some (p', r, out) -> sys_step s (set_world <[i := p']> s)
| step_write i p bs : fd_world s !! i = Some p ->
    sys_step s (set_world <[i := put_some bs p (Z.min (Z.of_nat (length bs)) (PIPE_BUFFER_SIZE - p_data_size p))]> s).

Section Steps.
Context (fb : Z -> Z) (Hfb : forall n, 0 <= fb n).
Abbreviation inv := (fd_inv pipe_acct (file_base fb)).
Implicit Types (s : sys).

Lemma inv_io i p p' s :
  inv s -> fd_world s !! i = Some p -> pipe_wf p' ->
  p_readers p' = p_readers p -> p_writers p' = p_writers p -> p_in_use p' = p_in_use p ->
  inv (set_world <[i := p']> s).
Proof.
  intros Hi Hp Hwf E1 E2 E3. split; [by eapply fd_wf_same; [..|apply Hi]| |apply Hi].
  by eapply pipe_acct_io; [apply (fi_acct _ _ _ Hi)|..].
Qed.

Lemma ring_read_in_use n p : p_in_use (ring_read n p).1 = p_in_use p.
Proof.
  revert p. induction n as [|n IH]; intros p; simpl; [done|].
  specialize (IH (Pipe (p_buffer p) ((p_read_pos p + 1) mod PIPE_BUFFER_SIZE) (p_write_pos p)
    (p_data_size p) (p_readers p) (p_writers p) (p_in_use p))). by destruct (ring_read n _).
Qed.

Lemma pipe_read_now count p p' r out :
  pipe_wf p -> 0 <= count -> pipe_read [] true count p = Some (p', r, out) ->
  pipe_wf p' /\ p_readers p' = p_readers p /\ p_writers p' = p_writers p /\ p_in_use p' = p_in_use p.
Proof.
  intros Hwf Hc. unfold pipe_read. simpl. destruct (Z.eqb_spec count 0); [by intros [= <- <- <-]|].
  destruct (p_data_size p =? 0) eqn:Ed; simpl; [destruct (_ <=? _); [by intros [= <- <- <-]|done]|].
  pose proof (pw_size _ Hwf). set (m := if count <? p_data_size p then count else p_data_size p).
  assert (Hm : 0 <= m <= p_data_size p) by (unfold m; split_ifs; lia).
  pose proof (ring_take p m Hwf Hm) as Ht. pose proof (ring_read_in_use (Z.to_nat m) p) as Hu.
  destruct (ring_read (Z.to_nat m) p) as [q o]. destruct Ht as (H1 & _ & _ & H2 & H3).
  intros [= <- <- <-]. done.
Qed.

Lemma sys_step_inv s s' : inv s -> sys_step s s' -> inv s'.
Proof using Hfb.
  intros Hi Hs. pose proof (base_nonneg fb Hfb) as Hb. destruct Hs.
  - pose proof (fd_table_create_inv pipe_acct _ s Hi). destruct (fd_table_create s). tauto.
  - pose proof (fd_table_clone_inv pipe_acct _ t s Hi). destruct (fd_table_clone (Some t) s). tauto.
  - by apply (fd_table_destroy_inv pipe_acct _ Hb t s Hi).
  - by apply (fd_put_inv pipe_acct _ Hb t n s Hi).
  - exact (fd_dup_inv pipe_acct _ Hb t o n s Hi).
  - pose proof (fd_alloc_spec t (VFile n) flags s (fi_wf _ _ _ Hi) H) as Hf.
    destruct (fd_alloc _ _ _ _) as [s' r]. simpl.
    destruct Hf as [(_ & -> & _)|(fd & _ & _ & _ & _ & _ & Hwf & Hw & _ & Hsl & Hrc)]; [done|].
    destruct (fi_acct _ _ _ Hi) as (Hl & Ha & Hout & Hnn). split; [done| |].
    + rewrite Hw. split_and!; [done| | |intros; apply slots_nonneg].
      * intros i p Hp. destruct (Ha i p Hp) as [? Hag]. split; [done|]. unfold pipe_agrees in *.
        rewrite !Hsl. unfold one. rewrite !decide_False, !Z.add_0_r by done. done.
      * intros i Hlt. rewrite !Hsl. unfold one. rewrite !decide_False, !Z.add_0_r by done. auto.
    + intros v. rewrite Hrc, Hsl, (fi_refs _ _ _ Hi). lia.
  - pose proof (pipe_create_inv fb Hfb t s Hi H) as Hp.
    destruct (pipe_create true (Some t) s) as [[s' r] [a b]]. apply Hp.
  - destruct (fi_acct _ _ _ Hi) as (_ & Ha & _). destruct (Ha i p H) as [Hwf _].
    destruct (pipe_read_now count p p' r out Hwf H0 H1) as (? & ? & ? & ?). by eapply inv_io.
  - destruct (fi_acct _ _ _ Hi) as (_ & Ha & _). destruct (Ha i p H) as [Hwf _]. pose proof (pw_size _ Hwf).
    destruct (put_some_spec bs p (Z.min (Z.of_nat (length bs)) (PIPE_BUFFER_SIZE - p_data_size p)) Hwf)
      as (? & _ & ? & ?); [lia..|]. eapply inv_io; [done..|].
    unfold put_some. simpl. by destruct (ring_write_frame
      (take (Z.to_nat (Z.min (Z.of_nat (length bs)) (PIPE_BUFFER_SIZE - p_data_size p))) bs) p) as (_&_&_&_&?&_).
Qed.

Lemma sys_init_inv : inv (sys_init fb).
Proof.
  assert (Hs : forall v, slots (sys_init fb) v = 0) by (intros; apply fds_init_slots).
  split; [apply fds_init_wf| |].
  - split_and!; [done| |by intros; rewrite !Hs|by intros; rewrite Hs].
    intros i p Hp. apply (lookup_replicate PIPE_MAX_PIPES pipe_zero) in Hp as [-> _].
    split; [by split|]. unfold pipe_agrees. by rewrite !Hs.
  - intros v. rewrite Hs. done.
Qed.
End Steps.

(** ** Properties *)

(** C18: in every state reachable by creating, cloning, destroying, closing,
    duplicating and opening descriptors, by [pipe_create] and by transfers
    through the pipes, [readers] and [writers] of every pipe are the numbers
    of open descriptors of its two ends, the pipe is in use exactly while one
    of them is open, its ring is well formed, and the reference count of every
    vnode is the number of descriptors plus the references of the path layer. *)
Theorem pipe_counts_reachable (fb : Z -> Z) (s : sys) :
  (forall n, 0 <= fb n) -> rtc sys_step (sys_init fb) s ->
  (forall i p, fd_world s !! i = Some p ->
     p_readers p = slots s (VRead i) /\ p_writers p = slots s (VWrite i) /\
     (p_in_use p = true <-> 0 < slots s (VRead i) + slots s (VWrite i)) /\ pipe_wf p) /\
  (forall v, vn_refcount s v = slots s v + file_base fb v).
Proof.
  intros Hfb Hr.
  pose proof (rtc_preserve _ sys_step (sys_init fb) s (sys_step_inv fb Hfb) (sys_init_inv fb) Hr) as Hi.
  split; [|apply Hi]. intros i p Hp. destruct (fi_acct _ _ _ Hi) as (_ & Ha & _).
  destruct (Ha i p Hp) as [Hwf (H1 & H2 & ->)]. rewrite <- H1, <- H2.
  pose proof (slots_nonneg s (VRead i)). pose proof (slots_nonneg s (VWrite i)).
  split_and!; [done|done| |done]. split; lia.
Qed.

Definition demo_sys : sys :=
  (pipe_create true (Some 0%nat) (fd_table_create (sys_init (fun _ => 0))).1).1.1.

Lemma pipe_counts_reachable_witness :
  rtc sys_step (sys_init (fun _ => 0)) demo_sys /\ slots demo_sys (VRead 0) = 1 /\
  (forall v, vn_refcount demo_sys v = slots demo_sys v + file_base (fun _ => 0) v).
Proof.
  assert (Hr : rtc sys_step (sys_init (fun _ => 0)) demo_sys).
  { eapply rtc_l; [apply step_table_create|]. eapply rtc_l; [|apply rtc_refl].
    apply step_pipe. vm_compute. reflexivity. }
  split; [exact Hr|]. split; [vm_compute; reflexivity|].
  exact (proj2 (pipe_counts_reachable (fun _ => 0) demo_sys (fun _ => Z.le_refl 0) Hr)).
Defined.

(** C23: [pipe_read] of a non-empty buffer returns the oldest bytes of the pipe,
    as many as it holds up to [count], as soon as there are any; it returns 0
    only when the pipe is empty and the last writer is gone, and [-EINTR] only
    while it would have to wait; while it waits the pipe was empty with a
    writer left at every check, and if it never returns this is so forever. *)
Theorem pipe_read_fifo (env : list gap) (count : Z) (p : pipe) :
  pipe_wf p -> Forall (fun g => well_behaved (others g)) env -> 0 < count ->
  match pipe_read env true count p with
  | Some (p', r, out) => pipe_wf p' /\ exists k, read_done env count p p' r out k
  | None => forall k, (k <= length env)%nat ->
      must_wait (after env k p) /\ (k < length env -> interrupted <$> env !! k = Some false)%nat
  end.
Proof.
  intros Hwf Henv Hc. unfold pipe_read. simpl. destruct (Z.eqb_spec count 0); [lia|].
  by apply pipe_read_loop_spec.
Qed.

Definition demo_pipe : pipe := set_counts 1 1 pipe_zero.

(** A writer puts three bytes in while the reader waits. *)
Definition demo_gap : gap := Gap false (fun p => if p_data_size p =? 0 then put_some [7; 8; 9] p 3 else p).

Lemma demo_pipe_wf : pipe_wf demo_pipe.
Proof. by split. Qed.

Lemma demo_gap_well_behaved : well_behaved (others demo_gap).
Proof.
  intros p Hp. simpl. destruct (Z.eqb_spec (p_data_size p) 0) as [E|]; [|done].
  apply put_some_spec; [done|simpl; lia|unfold PIPE_BUFFER_SIZE; lia].
Qed.

Lemma pipe_read_fifo_witness :
  match pipe_read [demo_gap] true 2 demo_pipe with
  | Some (p', r, out) => r = 2 /\ out = [7; 8] /\ exists k, read_done [demo_gap] 2 demo_pipe p' r out k
  | None => False
  end.
Proof.
  pose proof (pipe_read_fifo [demo_gap] 2 demo_pipe demo_pipe_wf
    ltac:(apply Forall_cons; split; [exact demo_gap_well_behaved|apply Forall_nil_2]) eq_refl) as H.
  assert (E : exists p', pipe_read [demo_gap] true 2 demo_pipe = Some (p', 2, [7; 8]))
    by (eexists; vm_compute; reflexivity).
  destruct E as [p' E]. rewrite E in H |- *. destruct H as [_ H]. auto.
Defined.

(** C24: when the other processes only read, [pipe_write] accounts for every
    byte: what it wrote is a prefix of its buffer, appended to the pipe in
    order and read by the others from the front, and the result is the number
    of bytes written; a partial write happens only when the readers are gone or
    a signal arrives on a full pipe; nothing written gives [-EPIPE] with
    SIGPIPE, or [-EINTR]. The broken pipe is seen whenever it happens: with no
    reader at the start the call writes nothing, sends SIGPIPE and returns
    [-EPIPE]; the last byte goes in only while there is a reader; and once the
    readers are gone the call does not wait. With a reader that stays and
    makes room, the write of [n] bytes returns [n] after at most [n + 1]
    releases of the lock. *)
Theorem pipe_write_fifo (env : list gap) (bs : list Z) (p : pipe) :
  pipe_wf p -> Forall (fun g => drains (others g)) env -> Z.of_nat (length bs) < 2 ^ 31 ->
  match pipe_write env true bs p with
  | Some (p', r, sig) => pipe_wf p' /\ exists n d, (n <= length bs)%nat /\
      contents p ++ take n bs = d ++ contents p' /\ write_done bs 0 p' r sig n
  | None => True
  end /\
  (p_readers p <= 0 -> bs <> [] -> pipe_write env true bs p = Some (p, - EPIPE, true)) /\
  (Exists (fun g => forall q, p_readers (others g q) <= 0) env -> pipe_write env true bs p <> None) /\
  (0 < p_readers p -> (length bs + 1 <= length env)%nat ->
   Forall (fun g => keeps_reading (others g) /\ interrupted g = false) env ->
   exists p', pipe_write env true bs p = Some (p', Z.of_nat (length bs), false)).
Proof.
  intros Hwf Henv Hlen. unfold pipe_write. simpl. split_and!.
  - by apply pipe_write_loop_spec.
  - intros Hr Hbs. by apply (pipe_write_loop_broken env bs 0 p).
  - apply pipe_write_loop_gone.
  - intros Hr Hle Hk. apply (pipe_write_loop_completes env bs 0 p); [done| |lia|lia|done|].
    + rewrite Forall_forall in *. intros g Hg. destruct (Hk g Hg) as [? ?].
      split_and!; [|done|done]. intros q Hq. by apply (Henv g Hg).
    + destruct (_ =? _); lia.
Qed.

(** A reader that takes everything out. *)
Definition demo_drain : gap :=
  Gap false (fun p => let '(p', _) := ring_read (Z.to_nat (p_data_size p)) p in
                      set_data_size (p_data_size p' - p_data_size p) p').

Lemma demo_drain_drains : drains (others demo_drain).
Proof.
  intros p Hp. simpl. pose proof (pw_size _ Hp).
  pose proof (ring_take p (p_data_size p) Hp ltac:(lia)) as Ht.
  destruct (ring_read _ p) as [p' out]. destruct Ht as (H1 & _ & H3 & _). split; [exact H1|]. by exists out.
Qed.

(** Three bytes go into a pipe with a reader; into the same pipe without
    readers none, and the caller gets SIGPIPE. *)
Lemma pipe_write_fifo_witness :
  match pipe_write [demo_drain; demo_drain] true [1; 2; 3] demo_pipe with
  | Some (p', r, sig) => r = 3 /\ exists n d, (n <= 3)%nat /\
      contents demo_pipe ++ take n [1; 2; 3] = d ++ contents p' /\ write_done [1; 2; 3] 0 p' r sig n
  | None => False
  end /\
  pipe_write [demo_drain] true [1; 2; 3] (set_counts 0 1 demo_pipe) = Some (set_counts 0 1 demo_pipe, - EPIPE, true).
Proof.
  split.
  - pose proof (pipe_write_fifo [demo_drain; demo_drain] [1; 2; 3] demo_pipe demo_pipe_wf
      ltac:(do 2 (apply Forall_cons; split; [exact demo_drain_drains|]); apply Forall_nil_2) eq_refl) as H.
    assert (E : exists p', pipe_write [demo_drain; demo_drain] true [1; 2; 3] demo_pipe = Some (p', 3, false))
      by (eexists; vm_compute; reflexivity).
    destruct E as [p' E]. rewrite E in H |- *. destruct H as [[_ H] _]. auto.
  - apply (pipe_write_fifo [demo_drain] [1; 2; 3] (set_counts 0 1 demo_pipe)); [|constructor; [exact demo_drain_drains|constructor]|done|done|done].
    destruct demo_pipe_wf. by split.
Defined.

(** [pipe_create] on a table in use either installs the two ends of a
    fresh pipe in two different free slots and touches no other slot, or
    fails with [-ENFILE] or [-EMFILE], leaves every slot as it was and returns
    the pipe it had taken to the pool; in every case reader, writer and
    reference counts agree with the open descriptors again. *)
Theorem pipe_create_correct (fb : Z -> Z) (t : nat) (s : sys) :
  (forall n, 0 <= fb n) -> fd_inv pipe_acct (file_base fb) s -> g_fd_table_used s !! t = Some true ->
  let '(s', r, (a, b)) := pipe_create true (Some t) s in
  fd_inv pipe_acct (file_base fb) s' /\
  ((r = 0 /\ exists i fa fb, a = Z.of_nat fa /\ b = Z.of_nat fb /\ fa <> fb /\
      entry_at s t fa = None /\ entry_at s t fb = None /\
      entry_at s' t fa = Some (FdEntry (VRead i) O_RDONLY 0) /\
      entry_at s' t fb = Some (FdEntry (VWrite i) O_WRONLY 0) /\
      (forall t' k, ~ (t' = t /\ (k = fa \/ k = fb)) -> entry_at s' t' k = entry_at s t' k)) \/
   (r = - ENFILE \/ r = - EMFILE) /\ forall t' k, entry_at s' t' k = entry_at s t' k).
Proof.
  intros Hfb Hi Hu. pose proof (pipe_create_inv fb Hfb t s Hi Hu) as H.
  destruct (pipe_create true (Some t) s) as [[s' r] [a b]]. tauto.
Qed.

Lemma pipe_create_correct_witness :
  fd_inv pipe_acct (file_base (fun _ => 0)) demo_sys /\ (pipe_create true (Some 0%nat) demo_sys).1.2 = 0.
Proof.
  assert (Hu : g_fd_table_used (fd_table_create (sys_init (fun _ => 0))).1 !! 0%nat = Some true)
    by (vm_compute; reflexivity).
  assert (Hi : fd_inv pipe_acct (file_base (fun _ => 0)) (fd_table_create (sys_init (fun _ => 0))).1)
    by (eapply (sys_step_inv _ (fun _ => Z.le_refl 0)); [apply sys_init_inv|apply step_table_create]).
  pose proof (pipe_create_correct (fun _ => 0) 0%nat _ (fun _ => Z.le_refl 0) Hi Hu) as H.
  split; [|vm_compute; reflexivity]. unfold demo_sys. clear Hi Hu.
  destruct (pipe_create true (Some 0%nat) _) as [[s' r] [a b]]. exact (proj1 H).
Defined.
