(* ===== verification/Path.v ===== *)
(** * src/fs/vfs.c: path normalisation

    [vfs_normalize_path] rewrites an absolute path in its own buffer, reading
    ahead of the position it writes. The model runs on the byte memory of
    CString.v, the pointer [path] is an address and NULL is address 0; loops
    whose bound is the terminating NUL carry fuel ([None] when it runs out).
    The reference semantics splits the string at slashes and folds over the
    components with a stack. *)
From S2P Require Import Prelude CString.

Definition SLASH : Z := 47.
Definition DOT : Z := 46.

(** ** Definitions *)

(** [while (path[cursor] == '/') cursor++] *)
Fixpoint skip_slashes (fuel : nat) (m : memory) (path cursor : Z) : option Z :=
  match fuel with
  | O => None
  | S k => if m (path + cursor) =? SLASH then skip_slashes k m path (cursor + 1) else Some cursor
  end.

(** [while (path[cursor] && path[cursor] != '/') cursor++] *)
Fixpoint skip_part (fuel : nat) (m : memory) (path cursor : Z) : option Z :=
  match fuel with
  | O => None
  | S k =>
      if negb (m (path + cursor) =? 0) && negb (m (path + cursor) =? SLASH)
      then skip_part k m path (cursor + 1) else Some cursor
  end.

(** [while (length > 1 && path[length - 1] != '/') length--] *)
Fixpoint back_to_slash (n : nat) (m : memory) (path length : Z) : Z :=
  match n with
  | O => length
  | S k =>
      if (1 <? length) && negb (m (path + (length - 1)) =? SLASH)
      then back_to_slash k m path (length - 1) else length
  end.

Definition pop_part (m : memory) (path length : Z) : Z :=
  let length := back_to_slash (Z.to_nat length) m path length in
  if 1 <? length then length - 1 else length.

Definition push_part (m : memory) (path length start part : Z) : memory * Z :=
  let '(m, length) := if 1 <? length then (upd m (path + length) SLASH, length + 1) else (m, length) in
  ((memmove m (path + length) (path + start) part).1, length + part).

Fixpoint normalize_loop (fuel : nat) (m : memory) (path length cursor : Z) : option (memory * Z) :=
  match fuel with
  | O => None
  | S k =>
      if m (path + cursor) =? 0 then Some (m, length) else
      start ← skip_slashes fuel m path cursor;
      if m (path + start) =? 0 then Some (m, length) else
      cursor ← skip_part fuel m path start;
      let part := cursor - start in
      if (part =? 1) && (m (path + start) =? DOT) then normalize_loop k m path length cursor
      else if (part =? 2) && (m (path + start) =? DOT) && (m (path + (start + 1)) =? DOT) then
        normalize_loop k m path (pop_part m path length) cursor
      else let '(m, length) := push_part m path length start part in normalize_loop k m path length cursor
  end.

Definition vfs_normalize_path (fuel : nat) (m : memory) (path : Z) : option (memory * Z) :=
  if (path =? 0) || negb (m path =? SLASH) then Some (m, - EINVAL)
  else match normalize_loop fuel m path 1 1 with
       | Some (m, length) => Some (upd m (path + length) 0, 0)
       | None => None
       end.

(** The string literal ["/"] that replaces an invalid [cwd] lives at [root]. *)
Definition vfs_resolve_path (fuel : nat) (m : memory) (root cwd path out capacity : Z) : option (memory * Z) :=
  if (path =? 0) || (out =? 0) || (capacity =? 0) then Some (m, - EINVAL)
  else if m path =? 0 then Some (m, - ENOENT)
  else
    let finish (m : memory) (used : Z) :=
      length ← strlen fuel m path;
      if capacity <=? used + length then Some (m, - ENAMETOOLONG)
      else vfs_normalize_path fuel (memcpy m (out + used) path (length + 1)).1 out in
    if negb (m path =? SLASH) then
      let cwd := if (cwd =? 0) || negb (m cwd =? SLASH) then root else cwd in
      cwd_length ← strlen fuel m cwd;
      if capacity <=? cwd_length + 1 then Some (m, - ENAMETOOLONG)
      else
        let m := (memcpy m out cwd cwd_length).1 in
        if 1 <? cwd_length then finish (upd m (out + cwd_length) SLASH) (cwd_length + 1)
        else finish m cwd_length
    else finish m 0.

(** ** Reference semantics *)

Definition flush (cur : list Z) : list (list Z) := match cur with [] => [] | _ => [cur] end.

(** The non-empty strings between slashes. *)
Fixpoint components_from (cur l : list Z) : list (list Z) :=
  match l with
  | [] => flush cur
  | c :: l' => if c =? SLASH then flush cur ++ components_from [] l' else components_from (cur ++ [c]) l'
  end.
Definition components (l : list Z) : list (list Z) := components_from [] l.

(** One component applied to the stack of components so far. *)
Definition norm_step (stack : list (list Z)) (c : list Z) : list (list Z) :=
  if bool_decide (c = [DOT]) then stack
  else if bool_decide (c = [DOT; DOT]) then removelast stack
  else stack ++ [c].

Definition normal (l : list Z) : list (list Z) := foldl norm_step [] (components l).

Definition flat (stack : list (list Z)) : list Z := concat ((cons SLASH) <$> stack).
Definition render (stack : list (list Z)) : list Z :=
  match stack with [] => [SLASH] | _ => flat stack end.

(** A component: non-empty, without slash or NUL. *)
Definition is_part (c : list Z) : Prop := c <> [] /\ Forall (fun b => b <> SLASH /\ b <> 0) c.
Definition is_name (c : list Z) : Prop := is_part c /\ c <> [DOT] /\ c <> [DOT; DOT].

(** ** Splitting and rendering *)
Section Components.
Implicit Types (c l cur : list Z) (stack : list (list Z)).

(** The start of a string: slashes, then a part up to the next slash. *)
Definition at_break l : Prop := match l with [] => True | b :: _ => b = SLASH end.

Lemma components_slashes n l : components (replicate n SLASH ++ l) = components l.
Proof. induction n as [|n IH]; [done|]. exact IH. Qed.

Lemma components_from_part c cur l :
  Forall (fun b => b <> SLASH /\ b <> 0) c -> at_break l -> cur ++ c <> [] ->
  components_from cur (c ++ l) = (cur ++ c) :: components l.
Proof.
  revert cur. induction c as [|b c IH]; intros cur Hc Hl Hne; simpl.
  - rewrite app_nil_r in *. destruct l as [|b l]; simpl in *; [|subst b; simpl]; by destruct cur.
  - inversion_clear Hc as [|? ? [Hb _] Hc']. destruct (Z.eqb_spec b SLASH); [done|].
    rewrite IH, <- app_assoc; [done..|]. by destruct cur.
Qed.

Lemma components_part c l : is_part c -> at_break l -> components (c ++ l) = c :: components l.
Proof. intros [Hne Hc] Hl. by apply components_from_part. Qed.

(** Decomposition of what is left to read. *)
Lemma split_slashes l : exists n r, l = replicate n SLASH ++ r /\ (r = [] \/ exists b r', r = b :: r' /\ b <> SLASH).
Proof.
  induction l as [|b l (n & r & -> & Hr)].
  - exists 0%nat, []. split; [done|by left].
  - destruct (decide (b = SLASH)) as [->|Hb].
    + exists (S n), r. done.
    + exists 0%nat, (b :: replicate n SLASH ++ r). split; [done|]. right. by eexists _, _.
Qed.

Lemma split_part l :
  Forall (fun b => b <> 0) l -> (exists b r, l = b :: r /\ b <> SLASH) -> exists c r, l = c ++ r /\ is_part c /\ at_break r.
Proof.
  induction l as [|b l IH]; intros Hnz (b' & r' & [= -> ->] & Hb); inversion_clear Hnz as [|? ? Hb0 Hl].
  destruct r' as [|b2 r2].
  - exists [b'], []. split_and!; [done| |done]. split; [done|]. by repeat constructor.
  - destruct (decide (b2 = SLASH)) as [->|Hb2].
    + exists [b'], (SLASH :: r2). split_and!; [done| |done]. split; [done|]. by repeat constructor.
    + destruct (IH Hl) as (c & r & E & [Hc1 Hc2] & Hr); [by eexists _, _|].
      exists (b' :: c), r. split_and!; [by rewrite E| |done]. split; [done|]. by constructor.
Qed.

Lemma flat_app stack c : flat (stack ++ [c]) = flat stack ++ SLASH :: c.
Proof. unfold flat. rewrite fmap_app, concat_app. simpl. by rewrite app_nil_r. Qed.

Lemma render_snoc stack c : render (stack ++ [c]) = flat stack ++ SLASH :: c.
Proof. rewrite <- flat_app. by destruct stack. Qed.

Lemma render_flat stack : stack <> [] -> render stack = flat stack.
Proof. by destruct stack. Qed.

Lemma components_flat stack : Forall is_part stack -> components (flat stack) = stack.
Proof.
  induction stack as [|c stack IH]; intros H; [done|]. inversion_clear H as [|? ? Hc Hs].
  unfold flat in *. cbn [fmap list_fmap concat]. change (components (c ++ flat stack) = c :: stack).
  unfold flat in *. rewrite components_part, IH; [done..|].
  destruct stack; done.
Qed.

Lemma components_render stack : Forall is_part stack -> components (render stack) = stack.
Proof. destruct stack as [|c s]; [done|]. apply components_flat. Qed.

Lemma components_parts_from cur l :
  Forall (fun b => b <> SLASH /\ b <> 0) cur -> Forall (fun b => b <> 0) l ->
  Forall is_part (components_from cur l).
Proof.
  assert (Hfl : forall cur, Forall (fun b => b <> SLASH /\ b <> 0) cur -> Forall is_part (flush cur)).
  { intros [|b c] H; simpl; [constructor|]. by apply Forall_singleton. }
  revert cur. induction l as [|b l IH]; intros cur Hc Hl; simpl; [by apply Hfl|].
  inversion_clear Hl as [|? ? Hb Hl']. destruct (Z.eqb_spec b SLASH).
  - apply Forall_app. split; [by apply Hfl|by apply IH].
  - apply IH; [|done]. apply Forall_app. split; [done|by apply Forall_singleton].
Qed.

Lemma norm_step_names stack c : Forall is_name stack -> is_part c -> Forall is_name (norm_step stack c).
Proof.
  intros Hs Hc. unfold norm_step. repeat case_bool_decide; [done| |].
  - destruct stack as [|d s] using rev_ind; [done|]. rewrite removelast_last. by apply Forall_app in Hs as [? _].
  - apply Forall_app. split; [done|]. by apply Forall_singleton.
Qed.

Lemma fold_names stack cs : Forall is_name stack -> Forall is_part cs -> Forall is_name (foldl norm_step stack cs).
Proof.
  revert stack. induction cs as [|c cs IH]; intros stack Hs Hc; [done|]. inversion_clear Hc.
  simpl. apply IH; [|done]. by apply norm_step_names.
Qed.

Lemma normal_names l : Forall (fun b => b <> 0) l -> Forall is_name (normal l).
Proof. intros. apply fold_names; [constructor|]. by apply components_parts_from. Qed.

Lemma fold_fixed stack cs : Forall is_name cs -> foldl norm_step stack cs = stack ++ cs.
Proof.
  revert stack. induction cs as [|c cs IH]; intros stack H; [by rewrite app_nil_r|].
  inversion_clear H as [|? ? (Hp & Hd & Hdd) Hcs]. simpl. rewrite IH by done. unfold norm_step.
  rewrite !bool_decide_eq_false_2 by done. by rewrite <- app_assoc.
Qed.

(** A normalised path is its own normal form. *)
Lemma normal_render stack : Forall is_name stack -> normal (render stack) = stack.
Proof.
  intros H. unfold normal. rewrite components_render by (eapply Forall_impl; [exact H|]; by intros ? [? _]).
  by rewrite fold_fixed.
Qed.
End Components.

(** ** The loops *)
Section Loops.
Implicit Types (m : memory) (l r c : list Z) (stack : list (list Z)).

Lemma skip_slashes_spec fuel m path cursor n r :
  cstr m (path + cursor) (replicate n SLASH ++ r) -> (r = [] \/ exists b r', r = b :: r' /\ b <> SLASH) ->
  (n < fuel)%nat -> skip_slashes fuel m path cursor = Some (cursor + Z.of_nat n).
Proof.
  revert cursor fuel. induction n as [|n IH]; intros cursor [|fuel] H Hr Hf; try lia; simpl in *.
  - destruct (Z.eqb_spec (m (path + cursor)) SLASH) as [E|]; [|f_equal; lia].
    destruct Hr as [->|(b & r' & -> & Hb)]; simpl in H; [rewrite H in E; done|]. destruct H as [H _]. congruence.
  - destruct H as (-> & _ & H). simpl. rewrite IH; [f_equal; lia| |done|lia].
    by replace (path + (cursor + 1)) with (path + cursor + 1) by lia.
Qed.

Lemma skip_part_spec fuel m path cursor c r :
  cstr m (path + cursor) (c ++ r) -> Forall (fun b => b <> SLASH /\ b <> 0) c -> at_break r ->
  (length c < fuel)%nat -> skip_part fuel m path cursor = Some (cursor + Z.of_nat (length c)).
Proof.
  revert cursor fuel. induction c as [|b c IH]; intros cursor [|fuel] H Hc Hr Hf; simpl in *; try lia.
  - destruct r as [|b r]; simpl in *; [rewrite H|destruct H as (-> & _); subst b]; simpl; f_equal; lia.
  - inversion_clear Hc as [|? ? [Hb1 Hb2] Hc']. destruct H as (-> & _ & H).
    destruct (Z.eqb_spec b 0); [done|]. destruct (Z.eqb_spec b SLASH); [done|]. simpl.
    rewrite IH; [f_equal; lia| |done|done|lia]. by replace (path + (cursor + 1)) with (path + cursor + 1) by lia.
Qed.

Lemma back_to_slash_spec n m path pre c :
  stored m path (pre ++ SLASH :: c) -> Forall (fun b => b <> SLASH /\ b <> 0) c ->
  (length c < n)%nat ->
  back_to_slash n m path (Z.of_nat (length (pre ++ SLASH :: c))) = Z.of_nat (length pre) + 1.
Proof.
  revert c. induction n as [|n IH]; intros c H Hc Hn; [lia|]. cbn [back_to_slash].
  rewrite length_app. simpl length. destruct c as [|b c _] using rev_ind.
  - simpl. assert (E : m (path + (Z.of_nat (length pre + 1) - 1)) = SLASH).
    { replace (Z.of_nat (length pre + 1) - 1) with (Z.of_nat (length pre)) by lia.
      apply H. by rewrite lookup_app_r, Nat.sub_diag by lia. }
    rewrite E. simpl. rewrite andb_false_r. lia.
  - rewrite length_app in *. simpl in *.
    assert (E : m (path + (Z.of_nat (length pre + S (length c + 1)) - 1)) = b).
    { replace (Z.of_nat (length pre + S (length c + 1)) - 1) with (Z.of_nat (length pre + S (length c))) by lia.
      apply H. rewrite lookup_app_r by lia. replace (length pre + S (length c) - length pre)%nat with (S (length c)) by lia.
      simpl. by rewrite lookup_app_r, Nat.sub_diag by lia. }
    rewrite E. apply Forall_app in Hc as [Hc Hb]. inversion_clear Hb as [|? ? [Hb' _] _].
    destruct (Z.eqb_spec b SLASH); [done|]. destruct (1 <? _) eqn:E1; [|lia]. simpl.
    replace (Z.of_nat (length pre + S (length c + 1)) - 1) with (Z.of_nat (length (pre ++ SLASH :: c)))
      by (rewrite length_app; simpl; lia).
    apply IH; [|done|lia]. rewrite app_comm_cons, app_assoc, stored_app in H. tauto.
Qed.

(** The buffer while it is rewritten: the stack rendered at its start, the
    unread string from [cursor], and room between the two. *)
Record norm_inv m path (length cursor : Z) stack r : Prop := {
  ni_out : stored m path (render stack);
  ni_len : length = Z.of_nat (List.length (render stack));
  ni_in : cstr m (path + cursor) r;
  ni_gap : length <= cursor;
  ni_sep : length = 1 \/ at_break r;
  ni_names : Forall is_name stack
}.

Lemma flat_length_pos stack : stack <> [] -> Forall is_name stack -> 2 <= Z.of_nat (length (flat stack)).
Proof.
  destruct stack as [|c s]; [done|]. intros _ H. inversion_clear H as [|? ? [[Hne _] _] _].
  unfold flat. simpl. rewrite length_app. destruct c; simpl; [done|lia].
Qed.

Lemma pop_part_spec m path length cursor stack r :
  norm_inv m path length cursor stack r -> at_break r ->
  norm_inv m path (pop_part m path length) cursor (removelast stack) r.
Proof.
  intros [Ho Hl Hi Hg Hs Hn] Hr. unfold pop_part.
  destruct stack as [|c s _] using rev_ind.
  - assert (length = 1) as -> by (rewrite Hl; done). simpl. by split; auto.
  - rewrite removelast_last. rewrite render_snoc in Ho, Hl.
    apply Forall_app in Hn as [Hn Hc]. inversion_clear Hc as [|? ? [[Hc1 Hc2] _] _].
    assert (Hb : back_to_slash (Z.to_nat length) m path length = Z.of_nat (List.length (flat s)) + 1).
    { rewrite Hl at 2. apply back_to_slash_spec; [done..|rewrite Hl, length_app; simpl; lia]. }
    rewrite Hb. cbv zeta.
    rewrite length_app in Hl. simpl in Hl. pose proof (proj1 (stored_app _ _ _ _) Ho) as [Hpre Hsl].
    destruct (decide (s = [])) as [->|Hne].
    + change (norm_inv m path 1 cursor [] r). simpl in Hl. split; auto; try lia.
      intros [|k] b Hk; [|done]. simpl in Hk. simplify_eq. rewrite <- (Hsl 0%nat SLASH eq_refl). f_equal. simpl. lia.
    + pose proof (flat_length_pos s Hne Hn). destruct (1 <? _) eqn:E; [|lia].
      split; rewrite ?render_flat by done; auto; lia.
Qed.

Lemma push_part_spec m path length start stack c r :
  stored m path (render stack) -> length = Z.of_nat (List.length (render stack)) ->
  cstr m (path + start) (c ++ r) -> (length = 1 /\ 1 <= start \/ length + 1 <= start) ->
  Forall is_name stack -> is_name c -> at_break r ->
  let '(m', length') := push_part m path length start (Z.of_nat (List.length c)) in
  norm_inv m' path length' (start + Z.of_nat (List.length c)) (stack ++ [c]) r /\
  (forall i, i < path \/ path + start + Z.of_nat (List.length c) <= i -> m' i = m i).
Proof.
  intros Ho Hl Hi Hg Hn Hc Hr. unfold push_part.
  set (p1 := if 1 <? length then (upd m (path + length) SLASH, length + 1) else (m, length)).
  assert (H1 : Z.of_nat (List.length (flat stack ++ [SLASH])) = p1.2 /\ stored p1.1 path (flat stack ++ [SLASH]) /\
               p1.2 <= start /\ (forall i, i <> path + p1.2 - 1 -> p1.1 i = m i) /\ 0 < p1.2).
  { unfold p1. destruct (decide (stack = [])) as [->|Hne].
    - simpl in Hl. subst length. simpl. split_and!; [done|exact Ho|lia|done|done].
    - rewrite render_flat in Ho, Hl by done. pose proof (flat_length_pos stack Hne Hn).
      destruct (1 <? length) eqn:E; [|lia]. simpl. rewrite length_app. simpl. split_and!; [lia| |lia| |lia].
      + apply stored_app. split.
        * eapply stored_ext; [|exact Ho]. intros i Hi'. rewrite upd_ne by lia. done.
        * intros [|k] b Hk; [|done]. injection Hk as <-. rewrite Z.add_0_r, upd_spec.
          destruct (Z.eqb_spec (path + Z.of_nat (List.length (flat stack))) (path + length)); [done|lia].
      + intros i Hi'. rewrite upd_ne by lia. done. }
  destruct p1 as [m1 len1]. simpl in H1. destruct H1 as (Hlen1 & Hst1 & Hle1 & Hm1 & Hpos).
  set (m2 := (memmove m1 (path + len1) (path + start) (Z.of_nat (List.length c))).1).
  assert (Hm2 : forall i, m2 i = if (path + len1 <=? i) && (i <? path + len1 + Z.of_nat (List.length c))
                                 then m1 (path + start + (i - (path + len1))) else m1 i)
    by (intros i; apply memmove_at; lia).
  pose proof (proj1 (cstr_stored _ _ _) Hi) as (Hst & _ & _). apply stored_app in Hst as [Hstc _].
  split; [split|].
  - rewrite render_snoc. replace (flat stack ++ SLASH :: c) with ((flat stack ++ [SLASH]) ++ c) by (by rewrite <- app_assoc).
    apply stored_app. rewrite Hlen1. split.
    + eapply stored_ext; [|exact Hst1]. intros i Hi'. rewrite Hm2. destruct (_ && _) eqn:E; [lia|done].
    + intros k b Hk. pose proof (lookup_lt_Some _ _ _ Hk). rewrite Hm2. destruct (_ && _) eqn:E; [|lia].
      rewrite Hm1 by lia. rewrite <- (Hstc k b Hk). f_equal. lia.
  - rewrite render_snoc, length_app. rewrite length_app in Hlen1. simpl in *. lia.
  - apply (cstr_app m (path + start) c r) in Hi. eapply cstr_ext; [|by replace (path + (start + Z.of_nat (List.length c))) with (path + start + Z.of_nat (List.length c)) by lia].
    intros i Hi'. rewrite Hm2. destruct (_ && _) eqn:E; [lia|]. apply Hm1. lia.
  - lia.
  - by right.
  - apply Forall_app. split; [done|by apply Forall_singleton].
  - intros i Hi'. rewrite Hm2. destruct (_ && _) eqn:E; [lia|]. apply Hm1. lia.
Qed.

(** Whether the component just read is ["."] or [".."], as the code tests it. *)
Lemma part_is_dot m p c r :
  cstr m p (c ++ r) -> is_part c ->
  (Z.of_nat (length c) =? 1) && (m p =? DOT) = bool_decide (c = [DOT]).
Proof.
  intros H [Hne _]. destruct c as [|b c]; [done|]. simpl in H. destruct H as (-> & _).
  destruct c as [|b' c].
  - simpl. case_bool_decide as E; [injection E as ->; done|]. destruct (Z.eqb_spec b DOT) as [->|]; done.
  - rewrite bool_decide_eq_false_2, (proj2 (Z.eqb_neq _ 1)); [done|cbn [length]; lia|done].
Qed.

Lemma part_is_dotdot m p c r :
  cstr m p (c ++ r) -> is_part c ->
  (Z.of_nat (length c) =? 2) && (m p =? DOT) && (m (p + 1) =? DOT) = bool_decide (c = [DOT; DOT]).
Proof.
  intros H [Hne _]. destruct c as [|b [|b' c]]; [done| |].
  - rewrite bool_decide_eq_false_2 by done. done.
  - simpl in H. destruct H as (-> & _ & -> & _). destruct c as [|b2 c].
    + simpl. case_bool_decide as E; [injection E as -> ->; done|].
      destruct (Z.eqb_spec b DOT) as [->|]; [|done]. destruct (Z.eqb_spec b' DOT) as [->|]; done.
    + rewrite bool_decide_eq_false_2, (proj2 (Z.eqb_neq _ 2)); [done|cbn [length]; lia|done].
Qed.

Lemma normalize_loop_spec fuel m path len cursor stack r :
  norm_inv m path len cursor stack r -> (length r < fuel)%nat -> 1 <= cursor ->
  exists m' len', normalize_loop fuel m path len cursor = Some (m', len') /\
    let stack' := foldl norm_step stack (components r) in
    stored m' path (render stack') /\ len' = Z.of_nat (length (render stack')) /\
    len' <= cursor + Z.of_nat (length r) /\ Forall is_name stack' /\
    (forall i, i < path \/ path + cursor + Z.of_nat (length r) <= i -> m' i = m i).
Proof.
  revert m len cursor stack r. induction fuel as [|fuel IH]; intros m len cursor stack r Hinv Hf Hcur; [lia|].
  cbn [normalize_loop]. pose proof Hinv as [Ho Hl Hi Hg Hs Hn].
  pose proof (proj1 (cstr_stored _ _ _) Hi) as (_ & _ & Hnz).
  destruct (split_slashes r) as (n & r1 & -> & Hr1).
  assert (Hdone : forall l, (l = [] \/ exists k, l = replicate k SLASH) ->
    foldl norm_step stack (components l) = stack).
  { intros l [->|[k ->]]; [done|]. rewrite <- (app_nil_r (replicate k SLASH)), components_slashes. done. }
  destruct (Z.eqb_spec (m (path + cursor)) 0) as [E0|E0].
  { assert (replicate n SLASH ++ r1 = []) as ->.
    { destruct (replicate n SLASH ++ r1) as [|b l]; [done|]. simpl in Hi. destruct Hi as (H1 & H2 & _). congruence. }
    exists m, len. split; [done|]. simpl. split_and!; [done|done|simpl; lia|done|done]. }
  rewrite (skip_slashes_spec (S fuel) m path cursor n r1) by (done || (rewrite length_app, length_replicate in Hf; lia)).
  cbn [mbind option_bind]. apply cstr_app in Hi. rewrite length_replicate in Hi.
  replace (path + cursor + Z.of_nat n) with (path + (cursor + Z.of_nat n)) in Hi by lia.
  rewrite length_app, length_replicate in *.
  destruct r1 as [|b r2].
  { simpl in Hi. rewrite Hi. simpl. exists m, len. split; [done|]. cbv zeta. rewrite app_nil_r.
    rewrite Hdone by (right; by exists n). split_and!; [done|done|lia|done|done]. }
  destruct Hr1 as [|(b' & r' & [= <- <-] & Hb)]; [done|].
  apply Forall_app in Hnz as [_ Hnz].
  destruct (split_part (b :: r2) Hnz) as (c & r & E & Hc & Hr); [by eexists _, _|]. rewrite E in *. clear E b r2 Hb.
  set (start := cursor + Z.of_nat n) in *. rewrite length_app in Hf.
  assert (Hst : m (path + start) <> 0).
  { destruct c as [|b c]; [by destruct Hc|]. simpl in Hi. destruct Hi as (-> & ? & _). done. }
  destruct (Z.eqb_spec (m (path + start)) 0) as [|_]; [done|].
  rewrite (skip_part_spec (S fuel) m path start c r) by (done || apply Hc || lia).
  cbn [mbind option_bind]. cbv zeta. replace (start + Z.of_nat (length c) - start) with (Z.of_nat (length c)) by lia.
  rewrite (part_is_dot m (path + start) c r) by done.
  replace (path + (start + 1)) with (path + start + 1) by lia.
  rewrite (part_is_dotdot m (path + start) c r) by done.
  rewrite components_slashes, components_part by done. cbn [foldl].
  assert (Hlen : 0 < Z.of_nat (length c)) by (destruct c; [by destruct Hc|simpl; lia]).
  assert (Hgap : len = 1 /\ 1 <= start \/ len + 1 <= start).
  { destruct Hs as [->|Hs]; [left; lia|]. destruct n; [|right; lia]. simpl in Hs.
    destruct c as [|b c]; [by destruct Hc|]. simpl in Hs. subst b. destruct Hc as [_ Hc].
    inversion_clear Hc as [|? ? [? _] _]. done. }
  assert (Hnext : cstr m (path + (start + Z.of_nat (length c))) r).
  { replace (path + (start + Z.of_nat (length c))) with (path + start + Z.of_nat (length c)) by lia. by apply cstr_app in Hi. }
  assert (Hinv' : norm_inv m path len (start + Z.of_nat (length c)) stack r) by (split; auto; lia).
  rewrite length_app.
  assert (Hns : norm_step stack c = if bool_decide (c = [DOT]) then stack
    else if bool_decide (c = [DOT; DOT]) then removelast stack else stack ++ [c]) by done.
  rewrite Hns. clear Hns. case_bool_decide as Hdot; [|case_bool_decide as Hdd].
  - destruct (IH _ _ _ _ _ Hinv' ltac:(lia) ltac:(lia)) as (m' & len' & -> & H1 & H2 & H3 & H4 & H5).
    exists m', len'. split_and!; [done..|lia|done|]. intros i Hi'. apply H5. lia.
  - destruct (IH _ _ _ _ _ (pop_part_spec _ _ _ _ _ _ Hinv' Hr) ltac:(lia) ltac:(lia)) as (m' & len' & -> & H1 & H2 & H3 & H4 & H5).
    exists m', len'. split_and!; [done..|lia|done|]. intros i Hi'. apply H5. lia.
  - pose proof (push_part_spec m path len start stack c r Ho Hl Hi Hgap Hn ltac:(done) Hr) as Hp.
    destruct (push_part m path len start (Z.of_nat (length c))) as [m1 len1]. destruct Hp as [Hp Hfr].
    destruct (IH _ _ _ _ _ Hp ltac:(lia) ltac:(lia)) as (m' & len' & -> & H1 & H2 & H3 & H4 & H5).
    exists m', len'. split_and!; [done..|lia|done|]. intros i Hi'. rewrite H5 by lia. apply Hfr. lia.
Qed.

(** [vfs_normalize_path] on a stored string. *)
Lemma vfs_normalize_path_spec fuel m path l :
  path <> 0 -> cstr m path l -> (length l <= fuel)%nat -> (1 <= fuel)%nat ->
  exists m' (r : Z), vfs_normalize_path fuel m path = Some (m', r) /\
    match l with
    | b :: _ => if b =? SLASH then r = 0 /\ cstr m' path (render (normal l)) /\
          (length (render (normal l)) <= length l)%nat /\
          (forall i, i < path \/ path + Z.of_nat (length l) < i -> m' i = m i)
        else r = - EINVAL /\ m' = m
    | [] => r = - EINVAL /\ m' = m
    end.
Proof.
  intros Hp Hl Hf Hf1. unfold vfs_normalize_path. destruct (Z.eqb_spec path 0); [done|]. simpl.
  destruct l as [|b l]; simpl in Hl.
  { rewrite Hl. simpl. by exists m, (- EINVAL). }
  pose proof Hl as (Hb & Hb0 & Hrest). rewrite Hb. destruct (Z.eqb_spec b SLASH) as [->|]; simpl; [|by exists m, (- EINVAL)].
  assert (Hinv : norm_inv m path 1 1 [] l).
  { split; [|done|done|lia|by left|constructor]. intros [|k] c Hk; [|done]. simpl in Hk. simplify_eq. by rewrite Z.add_0_r. }
  destruct (normalize_loop_spec fuel m path 1 1 [] l Hinv ltac:(simpl in *; lia) ltac:(lia))
    as (m' & len' & -> & H1 & H2 & H3 & H4 & H5).
  exists (upd m' (path + len') 0), 0. split; [done|]. split; [done|].
  change (foldl norm_step [] (components l)) with (normal (SLASH :: l)) in *. split_and!.
  - apply cstr_stored. rewrite <- H2. split_and!.
    + eapply stored_ext; [|exact H1]. intros. rewrite upd_ne by lia. done.
    + apply upd_eq.
    + eapply Forall_impl with (P := fun b => b <> 0); [|done]. apply Forall_forall. intros c Hc.
      destruct (decide (normal (SLASH :: l) = [])) as [En|En].
      * rewrite En in Hc. apply list_elem_of_singleton in Hc as ->. done.
      * rewrite render_flat in Hc by done. apply list_elem_of_In, in_concat in Hc as (s & Hs & Hc).
        apply list_elem_of_In, list_elem_of_fmap in Hs as (d & -> & Hd). rewrite Forall_forall in H4.
        destruct (H4 d Hd) as [[_ Hd'] _]. destruct Hc as [<-|Hc]; [done|].
        rewrite Forall_forall in Hd'. by apply (Hd' c (proj2 (list_elem_of_In _ _) Hc)).
  - lia.
  - intros i Hi. rewrite upd_ne by lia. apply H5. lia.
Qed.
End Loops.

(** ** Resolving against a working directory *)

(** The directory a path is resolved against, and the string handed to
    [vfs_normalize_path]. *)
Definition is_abs (l : list Z) : bool := bool_decide (head l = Some SLASH).
Definition base_dir (w : list Z) : list Z := if is_abs w then w else [SLASH].
Definition joined (w l : list Z) : list Z :=
  if is_abs l then l
  else base_dir w ++ (if (1 <? length (base_dir w))%nat then [SLASH] else []) ++ l.

Section Resolve.
Implicit Types (m : memory) (l w : list Z).

Lemma components_app_slash cur a l : components_from cur (a ++ SLASH :: l) = components_from cur a ++ components l.
Proof.
  revert cur. induction a as [|b a IH]; intros cur; simpl; [done|].
  destruct (b =? SLASH); [by rewrite IH, app_assoc|apply IH].
Qed.

Lemma components_snoc_slash a l : components (a ++ SLASH :: l) = components a ++ components l.
Proof. apply components_app_slash. Qed.

(** Resolution is the normal form of the directory followed by the
    components of the path. *)
Lemma normal_joined w l : normal (joined w l) = if is_abs l then normal l else foldl norm_step (normal (base_dir w)) (components l).
Proof.
  unfold joined. destruct (is_abs l); [done|]. unfold normal. rewrite <- foldl_app. f_equal.
  destruct (Nat.ltb_spec 1 (length (base_dir w))); simpl; [apply components_snoc_slash|].
  assert (Hb : base_dir w = [SLASH]); [|by rewrite Hb].
  unfold base_dir, is_abs in *. case_bool_decide as Ha; [|done].
  destruct w as [|b [|b' w]]; simpl in *; [done|congruence|lia].
Qed.

Lemma is_abs_spec m p l : cstr m p l -> (m p =? SLASH) = is_abs l.
Proof.
  unfold is_abs. destruct l as [|b l]; simpl; [by intros ->|]. intros (-> & _).
  case_bool_decide as E; [injection E as ->; done|]. destruct (Z.eqb_spec b SLASH); [congruence|done].
Qed.

(** [memcpy] into a disjoint range. *)
Lemma memcpy_stored m dest src l :
  stored m src l -> dest + Z.of_nat (length l) <= src \/ src + Z.of_nat (length l) <= dest ->
  let m' := (memcpy m dest src (Z.of_nat (length l))).1 in
  stored m' dest l /\ (forall i, i < dest \/ dest + Z.of_nat (length l) <= i -> m' i = m i).
Proof.
  intros H Hd m'. assert (E : forall x, m' x = if (dest <=? x) && (x <? dest + Z.of_nat (length l)) then m (src + (x - dest)) else m x).
  { intros x. unfold m', memcpy. simpl. rewrite memcpy_loop_spec by lia. by rewrite Z2Nat.id by lia. }
  split.
  - intros k c Hk. pose proof (lookup_lt_Some _ _ _ Hk). rewrite E. destruct (_ && _) eqn:Eb; [|lia].
    rewrite <- (H k c Hk). f_equal. lia.
  - intros i Hi. rewrite E. destruct (_ && _) eqn:Eb; [lia|done].
Qed.

(** The last step: append the path behind [pre], which [out] already holds. *)
Definition resolve_finish (fuel : nat) (path out capacity : Z) m (used : Z) : option (memory * Z) :=
  length ← strlen fuel m path;
  if capacity <=? used + length then Some (m, - ENAMETOOLONG)
  else vfs_normalize_path fuel (memcpy m (out + used) path (length + 1)).1 out.

Definition apart (out capacity p : Z) l : Prop :=
  out + capacity <= p \/ p + Z.of_nat (length l) < out.

Lemma resolve_finish_spec fuel path out capacity m pre l :
  out <> 0 -> cstr m path l -> stored m out pre -> Forall (fun b => b <> 0) pre ->
  apart out capacity path l -> (length pre + length l < fuel)%nat ->
  head (pre ++ l) = Some SLASH ->
  exists m' r, resolve_finish fuel path out capacity m (Z.of_nat (length pre)) = Some (m', r) /\
    (forall i, i < out \/ out + capacity <= i -> m' i = m i) /\
    if capacity <=? Z.of_nat (length pre + length l) then r = - ENAMETOOLONG
    else r = 0 /\ cstr m' out (render (normal (pre ++ l))).
Proof.
  intros Ho Hp Hpre Hnz Hap Hf Hh. unfold resolve_finish, strlen.
  rewrite (strlen_loop_cstr fuel m path l 0 Hp) by lia. cbn [mbind option_bind]. rewrite Z.add_0_l, <- Nat2Z.inj_add.
  destruct (capacity <=? Z.of_nat (length pre + length l)) eqn:Ec; [by eexists _, _|].
  pose proof (proj1 (cstr_stored _ _ _) Hp) as (Hs & H0 & Hlnz).
  assert (Hs' : stored m path (l ++ [0])).
  { apply stored_app. split; [done|]. intros [|k] c Hk; [|done]. injection Hk as <-. by rewrite Z.add_0_r. }
  assert (Hlen : Z.of_nat (length (l ++ [0])) = Z.of_nat (length l) + 1) by (rewrite length_app; simpl; lia).
  unfold apart in Hap.
  destruct (memcpy_stored m (out + Z.of_nat (length pre)) path (l ++ [0]) Hs') as [Hst Hfr]; [lia|].
  rewrite Hlen in Hst, Hfr. set (m1 := (memcpy m _ path _).1) in *.
  assert (Hc1 : cstr m1 out (pre ++ l)).
  { apply cstr_stored. apply stored_app in Hst as [Hst1 Hst2]. split_and!.
    - apply stored_app. split; [|done]. eapply stored_ext; [|exact Hpre]. intros. apply Hfr. lia.
    - specialize (Hst2 0%nat 0 eq_refl). rewrite <- Hst2, length_app. f_equal. lia.
    - by apply Forall_app. }
  destruct (vfs_normalize_path_spec fuel m1 out (pre ++ l) Ho Hc1) as (m' & r & -> & Hr); [rewrite length_app; lia|lia|].
  exists m', r. split; [done|]. destruct (pre ++ l) as [|b l'] eqn:El; [done|]. injection Hh as ->.
  simpl in Hr. destruct Hr as (-> & Hc & _ & Hfr').
  assert (Hl' : Z.of_nat (length (SLASH :: l')) = Z.of_nat (length pre + length l)) by (rewrite <- El, length_app; lia).
  simpl length in Hl'. split; [|done]. intros i Hi. rewrite Hfr' by (simpl; lia). apply Hfr. lia.
Qed.

Lemma vfs_resolve_path_unfold fuel m root cwd path out capacity :
  vfs_resolve_path fuel m root cwd path out capacity =
  if (path =? 0) || (out =? 0) || (capacity =? 0) then Some (m, - EINVAL)
  else if m path =? 0 then Some (m, - ENOENT)
  else if negb (m path =? SLASH) then
      let cwd := if (cwd =? 0) || negb (m cwd =? SLASH) then root else cwd in
      cwd_length ← strlen fuel m cwd;
      if capacity <=? cwd_length + 1 then Some (m, - ENAMETOOLONG)
      else
        let m := (memcpy m out cwd cwd_length).1 in
        if 1 <? cwd_length then resolve_finish fuel path out capacity (upd m (out + cwd_length) SLASH) (cwd_length + 1)
        else resolve_finish fuel path out capacity m cwd_length
    else resolve_finish fuel path out capacity m 0.
Proof. done. Qed.

(** Whether the joined path fits, as the code checks it. *)
Definition fits w l (capacity : Z) : bool :=
  (is_abs l || (Z.of_nat (length (base_dir w)) + 1 <? capacity)) &&
  (Z.of_nat (length (joined w l)) <? capacity).

Lemma vfs_resolve_path_spec fuel m root cwd path out capacity w l :
  path <> 0 -> out <> 0 -> 0 < capacity -> root <> 0 -> l <> [] ->
  cstr m path l -> cstr m root [SLASH] -> (cwd <> 0 -> cstr m cwd w) -> (cwd = 0 -> w = []) ->
  apart out capacity path l -> apart out capacity root [SLASH] -> apart out capacity cwd w ->
  (length w + length l + 2 < fuel)%nat ->
  exists m' r, vfs_resolve_path fuel m root cwd path out capacity = Some (m', r) /\
    (forall i, i < out \/ out + capacity <= i -> m' i = m i) /\
    if fits w l capacity then r = 0 /\ cstr m' out (render (normal (joined w l)))
    else r = - ENAMETOOLONG.
Proof.
  intros Hp Ho Hcap Hroot Hl Hpath Hr Hcwd Hcwd0 Ap Ar Ac Hf. rewrite vfs_resolve_path_unfold.
  destruct (Z.eqb_spec path 0); [done|]. destruct (Z.eqb_spec out 0); [done|].
  destruct (Z.eqb_spec capacity 0); [lia|]. simpl orb. cbv iota.
  assert (m path <> 0) by (destruct l; [done|]; simpl in Hpath; destruct Hpath as (-> & ? & _); done).
  destruct (Z.eqb_spec (m path) 0); [done|]. rewrite (is_abs_spec _ _ _ Hpath). unfold fits, joined.
  destruct (is_abs l) eqn:Ea; simpl negb; cbv iota; simpl orb.
  - destruct (resolve_finish_spec fuel path out capacity m [] l) as (m' & r & H1 & H2 & H3); try done.
    + simpl. lia.
    + unfold is_abs in Ea. by apply bool_decide_eq_true_1 in Ea.
    + exists m', r. split; [done|]. split; [done|]. simpl in H3. rewrite andb_true_l.
      destruct (capacity <=? Z.of_nat (length l)) eqn:E1, (Z.of_nat (length l) <? capacity) eqn:E2; (lia || done).
  - set (c := if (cwd =? 0) || negb (m cwd =? SLASH) then root else cwd).
    assert (Hc : cstr m c (base_dir w) /\ apart out capacity c (base_dir w)).
    { unfold c, base_dir. destruct (Z.eqb_spec cwd 0) as [E|E]; simpl; [rewrite (Hcwd0 E); exact (conj Hr Ar)|].
      rewrite (is_abs_spec _ _ _ (Hcwd E)).
      destruct (is_abs w); [exact (conj (Hcwd E) Ac)|exact (conj Hr Ar)]. }
    destruct Hc as [Hc Hac]. cbv zeta. set (b := base_dir w) in *.
    assert (Hbh : head b = Some SLASH).
    { unfold b, base_dir, is_abs. case_bool_decide; done. }
    assert (Hbl : (length b <= length w + 1)%nat) by (unfold b, base_dir; destruct (is_abs w); simpl; lia).
    unfold strlen. rewrite (strlen_loop_cstr fuel m c b 0 Hc) by lia. cbn [mbind option_bind]. rewrite Z.add_0_l.
    destruct (capacity <=? Z.of_nat (length b) + 1) eqn:E1.
    { assert (Ef : (Z.of_nat (length b) + 1 <? capacity) = false) by lia. rewrite Ef. by eexists _, _. }
    assert (Ef : (Z.of_nat (length b) + 1 <? capacity) = true) by lia. rewrite Ef. rewrite andb_true_l.
    pose proof (proj1 (cstr_stored _ _ _) Hc) as (Hcs & _ & Hbnz).
    unfold apart in Ap, Ac, Hac. destruct (memcpy_stored m out c b Hcs) as [Hst Hfr]; [lia|].
    set (m1 := (memcpy m out c (Z.of_nat (length b))).1) in *.
    assert (Hpre : exists pre m2, (if 1 <? Z.of_nat (length b)
          then resolve_finish fuel path out capacity (upd m1 (out + Z.of_nat (length b)) SLASH) (Z.of_nat (length b) + 1)
          else resolve_finish fuel path out capacity m1 (Z.of_nat (length b)))
        = resolve_finish fuel path out capacity m2 (Z.of_nat (length pre)) /\
        b ++ (if (1 <? length b)%nat then [SLASH] else []) ++ l = pre ++ l /\ stored m2 out pre /\
        Forall (fun b => b <> 0) pre /\ head pre = Some SLASH /\ (length pre <= length b + 1)%nat /\
        (forall i, i < out \/ out + Z.of_nat (length b) < i -> m2 i = m i)).
    { destruct (Nat.ltb_spec 1 (length b)); [destruct (Z.ltb_spec 1 (Z.of_nat (length b))); [|lia]
        |destruct (Z.ltb_spec 1 (Z.of_nat (length b))); [lia|]].
      - exists (b ++ [SLASH]), (upd m1 (out + Z.of_nat (length b)) SLASH). split_and!.
        + f_equal. rewrite length_app. simpl. lia.
        + by rewrite <- app_assoc.
        + apply stored_app. split.
          * eapply stored_ext; [|exact Hst]. intros. rewrite upd_ne by lia. done.
          * intros [|k] d Hk; [|done]. injection Hk as <-. rewrite Z.add_0_r. apply upd_eq.
        + apply Forall_app. split; [done|]. by apply Forall_singleton.
        + by destruct b.
        + rewrite length_app. simpl. lia.
        + intros i Hi. rewrite upd_ne by lia. apply Hfr. lia.
      - exists b, m1. split_and!; try done; [lia|]. intros i Hi. apply Hfr. lia. }
    destruct Hpre as (pre & m2 & -> & -> & Hst2 & Hnz2 & Hh2 & Hlen2 & Hfr2).
    destruct (resolve_finish_spec fuel path out capacity m2 pre l) as (m' & r & H1 & H2 & H3); try done.
    + eapply cstr_ext; [|exact Hpath]. intros i Hi. apply Hfr2. lia.
    + lia.
    + by destruct pre.
    + exists m', r. split; [done|]. split.
      * intros i Hi. rewrite H2 by lia. apply Hfr2. lia.
      * rewrite length_app.
        destruct (capacity <=? Z.of_nat (length pre + length l)) eqn:E3, (Z.of_nat (length pre + length l) <? capacity) eqn:E4; (lia || done).
Qed.
End Resolve.

(** ** Properties *)

(** C25: on every absolute path, [vfs_normalize_path] terminates and leaves in
    the buffer the path whose components are those of the input with empty
    ones and ["."] dropped and [".."] cancelling the component before it (the
    root is its own parent); the result is no longer than the input, no byte
    outside the buffer changes, and normalising the result again gives the
    same path. *)
Theorem vfs_normalize_path_correct (m : memory) (path : Z) (l : list Z) (fuel : nat) :
  path <> 0 -> cstr m path (SLASH :: l) -> (S (length l) <= fuel)%nat ->
  exists m', vfs_normalize_path fuel m path = Some (m', 0) /\
    let s := normal (SLASH :: l) in
    cstr m' path (render s) /\ Forall is_name s /\ (length (render s) <= S (length l))%nat /\
    (forall i, i < path \/ path + Z.of_nat (S (length l)) < i -> m' i = m i) /\
    normal (render s) = s.
Proof.
  intros Hp Hl Hf. pose proof (proj1 (cstr_stored _ _ _) Hl) as (_ & _ & Hnz).
  destruct (vfs_normalize_path_spec fuel m path (SLASH :: l) Hp Hl) as (m' & r & H & Hr); [simpl; lia|lia|].
  simpl in Hr. destruct Hr as (-> & Hc & Hlen & Hfr). exists m'. split; [done|]. cbv zeta.
  pose proof (normal_names _ Hnz). split_and!; [done|done|done|done|by apply normal_render].
Qed.

(** ["/a/.//b/../c/"] at address 100. *)
Definition demo_string : list Z := [47; 97; 47; 46; 47; 47; 98; 47; 46; 46; 47; 99; 47].
Definition demo_memory : memory := fun i => default 0 (demo_string !! Z.to_nat (i - 100)).

Lemma vfs_normalize_path_correct_witness :
  exists m', vfs_normalize_path 13 demo_memory 100 = Some (m', 0) /\ cstr m' 100 [47; 97; 47; 99].
Proof.
  assert (E : render (normal (SLASH :: tail demo_string)) = [47; 97; 47; 99]) by (vm_compute; reflexivity).
  destruct (vfs_normalize_path_correct demo_memory 100 (tail demo_string) 13) as (m' & H & Hc & _).
  - done.
  - vm_compute. repeat split; discriminate.
  - vm_compute. lia.
  - exists m'. split; [exact H|]. rewrite E in Hc. exact Hc.
Defined.

(** [vfs_resolve_path] writes to [out] the normal form of the path taken
    relative to [cwd] (["/"] when [cwd] is NULL or not absolute): an absolute
    path ignores [cwd], a relative one continues from the components of
    [cwd]; it answers [-ENAMETOOLONG] exactly when the joined path does not fit
    [capacity], and never writes outside [out]. *)
Theorem vfs_resolve_path_correct (fuel : nat) (m : memory) (root cwd path out capacity : Z) (w l : list Z) :
  path <> 0 -> out <> 0 -> 0 < capacity -> root <> 0 -> l <> [] ->
  cstr m path l -> cstr m root [SLASH] -> (cwd <> 0 -> cstr m cwd w) -> (cwd = 0 -> w = []) ->
  apart out capacity path l -> apart out capacity root [SLASH] -> apart out capacity cwd w ->
  (length w + length l + 2 < fuel)%nat ->
  exists m' r, vfs_resolve_path fuel m root cwd path out capacity = Some (m', r) /\
    (forall i, i < out \/ out + capacity <= i -> m' i = m i) /\
    if fits w l capacity then r = 0 /\
      cstr m' out (render (if is_abs l then normal l else foldl norm_step (normal (base_dir w)) (components l)))
    else r = - ENAMETOOLONG.
Proof.
  intros. rewrite <- normal_joined. by apply vfs_resolve_path_spec.
Qed.

(** [cwd] is the string above, the path is ["../d"] at address 200, the root
    literal is at 300 and [out] at 400. *)
Definition demo_memory2 : memory := fun i =>
  if i <? 200 then demo_memory i
  else if i <? 300 then default 0 ([46; 46; 47; 100] !! Z.to_nat (i - 200))
  else default 0 ([47] !! Z.to_nat (i - 300)).

Lemma vfs_resolve_path_correct_witness :
  exists m' r, vfs_resolve_path 20 demo_memory2 300 100 200 400 64 = Some (m', r) /\ r = 0 /\
    cstr m' 400 [47; 97; 47; 100].
Proof.
  assert (E : render (foldl norm_step (normal (base_dir demo_string)) (components [46; 46; 47; 100])) =
              [47; 97; 47; 100]) by (vm_compute; reflexivity).
  assert (F : fits demo_string [46; 46; 47; 100] 64 = true /\ is_abs [46; 46; 47; 100] = false)
    by (vm_compute; split; reflexivity).
  assert (C : cstr demo_memory2 100 demo_string /\ cstr demo_memory2 200 [46; 46; 47; 100] /\ cstr demo_memory2 300 [SLASH])
    by (vm_compute; repeat split; discriminate).
  assert (A : apart 400 64 200 [46; 46; 47; 100] /\ apart 400 64 300 [SLASH] /\ apart 400 64 100 demo_string)
    by (unfold apart; simpl; lia).
  destruct C as (C1 & C2 & C3), A as (A1 & A2 & A3), F as [F1 F2].
  destruct (vfs_resolve_path_correct 20 demo_memory2 300 100 200 400 64 demo_string [46; 46; 47; 100]
    ltac:(discriminate) ltac:(discriminate) ltac:(lia) ltac:(discriminate) ltac:(discriminate)
    C2 C3 (fun _ => C1) ltac:(discriminate) A1 A2 A3 ltac:(simpl; lia)) as (m' & r & H & _ & Hr).
  exists m', r. split; [exact H|]. rewrite F1, F2, E in Hr. exact Hr.
Defined.
