(* ===== verification/Tmpfs.v ===== *)
(** * src/fs/tmpfs.c: files in memory under /tmp

    A table of [TMPFS_MAX_FILES] files, each with a heap block that grows on
    demand. A vnode of the tmpfs is the index of its file in [g_files]
    ([file_of] is the lookup with the [used] test). Strings are byte lists
    without the NUL, buffers are byte lists and a NULL buffer is [None]. The
    heap is the interface [Krealloc]: what the file system relies on is that
    a successful [krealloc] returns a block of the wanted size that starts
    with the old bytes; it may also fail. Every operation runs under
    [g_tmpfs_lock] and is one step. *)
From S2P Require Import Prelude CString Fd.

Open Scope tach_scope.

Definition TMPFS_MAX_FILES : nat := 32.
Definition TMPFS_NAME_MAX : nat := 48.
Definition TMPFS_MAX_FILE_SIZE : Z := 1024 * 1024.
Definition TMPFS_MIN_CAPACITY : Z := 64.
Definition TMPFS_PREFIX : list Z := [47; 116; 109; 112; 47].
Definition TMPFS_PREFIX_LEN : nat := 5.
Definition TMP_DIR : list Z := [47; 116; 109; 112].

Definition O_ACCMODE : Z := 3.
Definition O_CREAT : Z := 512.
Definition O_TRUNC : Z := 1024.

(** ** The heap interface *)
Class Krealloc (H : Type) := {
  krealloc : H -> list Z -> Z -> H * option (list Z);
  kfree : H -> list Z -> H;
  krealloc_spec h b n h' b' : krealloc h b n = (h', Some b') ->
    Z.of_nat (length b') = n /\ (Z.of_nat (length b) <= n -> take (length b) b' = b)
}.

(** ** Definitions *)
Record tmpfs_file := TmpfsFile {
  tf_path : list Z;     (* vnode.path; vnode.name points behind the prefix *)
  tf_refcount : Z;
  tf_size : Z;
  tf_data : list Z;     (* NULL is the empty block *)
  tf_capacity : Z;
  tf_opens : Z;
  tf_used : bool
}.

Definition file_zero : tmpfs_file := TmpfsFile [] 0 0 [] 0 0 false.

Record tmpfs (H : Type) := Tmpfs { g_files : list tmpfs_file; t_heap : H }.
Arguments Tmpfs {H}.
Arguments g_files {H}.
Arguments t_heap {H}.

Definition set_opens (n : Z) (f : tmpfs_file) : tmpfs_file :=
  TmpfsFile (tf_path f) (tf_refcount f) (tf_size f) (tf_data f) (tf_capacity f) n (tf_used f).
Definition set_size (n : Z) (f : tmpfs_file) : tmpfs_file :=
  TmpfsFile (tf_path f) (tf_refcount f) n (tf_data f) (tf_capacity f) (tf_opens f) (tf_used f).
Definition set_block (data : list Z) (capacity : Z) (f : tmpfs_file) : tmpfs_file :=
  TmpfsFile (tf_path f) (tf_refcount f) (tf_size f) data capacity (tf_opens f) (tf_used f).

(** [memcpy(data + at, bytes, length)] into a block. *)
Definition splice (pos : Z) (bytes data : list Z) : list Z :=
  take (Z.to_nat pos) data ++ bytes ++ drop (Z.to_nat pos + length bytes) data.

Section Ops.
Context {H : Type} `{Krealloc H}.
Implicit Types (s : tmpfs H) (v : nat).

Definition set_files f s : tmpfs H := Tmpfs (f (g_files s)) (t_heap s).
Definition set_file v (f : tmpfs_file) : tmpfs H -> tmpfs H := set_files <[v := f]>.

Definition file_of v s : option tmpfs_file :=
  match g_files s !! v with
  | Some f => if tf_used f then Some f else None
  | None => None
  end.

Definition file_open v (flags : Z) s : tmpfs H * Z :=
  match file_of v s with
  | Some f => (set_file v (set_opens (tf_opens f + 1) f) s, 0)
  | None => (s, - ENOENT)
  end.

Definition file_dup v s : tmpfs H :=
  match file_of v s with
  | Some f => set_file v (set_opens (tf_opens f + 1) f) s
  | None => s
  end.

Definition file_release v s : tmpfs H :=
  match file_of v s with
  | Some f => if negb (tf_opens f =? 0) then set_file v (set_opens (tf_opens f - 1) f) s else s
  | None => s
  end.

Definition file_read v (buffer_ok : bool) (count offset : Z) s : Z * list Z :=
  if negb buffer_ok || (offset <? 0) then (- EFAULT, [])
  else match file_of v s with
  | None => (- EBADF, [])
  | Some f =>
      if offset <? tf_size f then
        let available := tf_size f - offset in
        let count := if available <? count then available else count in
        (s32 count, take (Z.to_nat count) (drop (Z.to_nat offset) (tf_data f)))
      else (0, [])
  end.

(** The capacity asked of the heap for [end] bytes. *)
Definition grown_capacity (capacity stop : Z) : Z :=
  let wanted := capacity * 2 in
  let wanted := if wanted <? stop then stop else wanted in
  let wanted := if wanted <? TMPFS_MIN_CAPACITY then TMPFS_MIN_CAPACITY else wanted in
  if TMPFS_MAX_FILE_SIZE <? wanted then TMPFS_MAX_FILE_SIZE else wanted.

Definition file_write v (buffer : option (list Z)) (offset : Z) s : tmpfs H * Z :=
  match buffer with
  | None => (s, - EFAULT)
  | Some bytes =>
      if offset <? 0 then (s, - EFAULT)
      else if bool_decide (bytes = []) then (s, 0)
      else match file_of v s with
      | None => (s, - EBADF)
      | Some f =>
          if TMPFS_MAX_FILE_SIZE <=? offset then (s, - EFBIG)
          else
            let start := offset in
            let count := Z.of_nat (length bytes) in
            let count := if TMPFS_MAX_FILE_SIZE - start <? count then TMPFS_MAX_FILE_SIZE - start else count in
            let stop := start + count in
            let store (f : tmpfs_file) (s : tmpfs H) : tmpfs H * Z :=
              let data := if tf_size f <? start
                          then splice (tf_size f) (replicate (Z.to_nat (start - tf_size f)) 0) (tf_data f)
                          else tf_data f in
              let data := splice start (take (Z.to_nat count) bytes) data in
              let f := set_block data (tf_capacity f) f in
              let f := if tf_size f <? stop then set_size stop f else f in
              (set_file v f s, s32 count) in
            if tf_capacity f <? stop then
              let wanted := grown_capacity (tf_capacity f) stop in
              match krealloc (t_heap s) (tf_data f) wanted with
              | (h, None) => (Tmpfs (g_files s) h, - ENOMEM)
              | (h, Some grown) => store (set_block grown wanted f) (Tmpfs (g_files s) h)
              end
            else store f s
      end
  end.

Definition name_of (f : tmpfs_file) : list Z := drop TMPFS_PREFIX_LEN (tf_path f).

(** [dir_read] builds this listing and then slices it. *)
Definition listing (files : list tmpfs_file) : list Z :=
  concat ((fun f => if tf_used f then name_of f ++ [10] else []) <$> files).

Definition dir_read (buffer_ok : bool) (count offset : Z) s : Z * list Z :=
  if negb buffer_ok || (offset <? 0) then (- EFAULT, [])
  else
    let l := listing (g_files s) in
    let length := Z.of_nat (length l) in
    if offset <? length then
      let available := length - offset in
      let count := if available <? count then available else count in
      (s32 count, take (Z.to_nat count) (drop (Z.to_nat offset) l))
    else (0, []).

Definition tmpfs_init (h : H) : tmpfs H := Tmpfs (replicate TMPFS_MAX_FILES file_zero) h.

Definition tmpfs_owns (path : list Z) : bool :=
  str_eqb path TMP_DIR || strn_eqb path TMPFS_PREFIX TMPFS_PREFIX_LEN.

Definition check_name (name : list Z) : Z :=
  if bool_decide (name = []) then - EISDIR
  else if (TMPFS_NAME_MAX <? length name)%nat then - ENAMETOOLONG
  else if existsb (Z.eqb 47) name then - ENOTDIR
  else 0.

Definition find_file (path : list Z) s : option nat :=
  find_from (fun i => match g_files s !! i with
                      | Some f => tf_used f && str_eqb (tf_path f) path
                      | None => false
                      end) 0 TMPFS_MAX_FILES.

Definition free_slot s : option nat :=
  find_from (fun i => match g_files s !! i with Some f => negb (tf_used f) | None => false end) 0 TMPFS_MAX_FILES.

(** The vnode returned: the directory or a file. *)
Inductive tmpfs_vnode := TmpDir | TmpFile (i : nat).

(** [strncpy] into the zeroed [path] field keeps 127 bytes. *)
Definition new_file (path : list Z) : tmpfs_file := TmpfsFile (take 127 path) 1 0 [] 0 0 true.

Definition tmpfs_lookup (path : list Z) (flags : Z) s : tmpfs H * (tmpfs_vnode + Z) :=
  if negb (tmpfs_owns path) then (s, inr (- ENOENT))
  else if str_eqb path TMP_DIR then (s, inl TmpDir)
  else
    let status := check_name (drop TMPFS_PREFIX_LEN path) in
    if status <? 0 then (s, inr status)
    else match find_file path s with
    | Some i =>
        (if negb (flags .& O_TRUNC =? 0) && negb (flags .& O_ACCMODE =? 0)
         then set_files (alter (set_size 0) i) s else s, inl (TmpFile i))
    | None =>
        if negb (flags .& O_CREAT =? 0) then
          match free_slot s with
          | Some i => (set_file i (new_file path) s, inl (TmpFile i))
          | None => (s, inr (- ENOSPC))
          end
        else (s, inr (- ENOENT))
    end.

Definition tmpfs_unlink (path : list Z) s : tmpfs H * Z :=
  if negb (tmpfs_owns path) then (s, - ENOENT)
  else if str_eqb path TMP_DIR then (s, - EISDIR)
  else
    let status := check_name (drop TMPFS_PREFIX_LEN path) in
    if status <? 0 then (s, status)
    else match find_file path s with
    | None => (s, - ENOENT)
    | Some i =>
        match g_files s !! i with
        | Some f =>
            if negb (tf_opens f =? 0) then (s, - EBUSY)
            else
              let data := tf_data f in
              let s := set_file i file_zero s in
              (if bool_decide (data = []) then s else Tmpfs (g_files s) (kfree (t_heap s) data), 0)
        | None => (s, - ENOENT)
        end
    end.

(** The number of used files before slot [i], and the [index]-th used slot. *)
Fixpoint list_from (i : nat) (files : list tmpfs_file) (seen index : Z) : option (nat * tmpfs_file) :=
  match files with
  | [] => None
  | f :: files' =>
      if negb (tf_used f) then list_from (S i) files' seen index
      else if negb (seen =? index) then list_from (S i) files' (seen + 1) index
      else Some (i, f)
  end.

(** The directory entry: name, type, inode number, offset. *)
Definition tmpfs_list (entry_ok : bool) (index : Z) s : Z * option (list Z * Z * Z * Z) :=
  if negb entry_ok then (- EFAULT, None)
  else match list_from 0 (g_files s) 0 index with
       | Some (i, f) => (1, Some (name_of f, 1, u32 (Z.of_nat i + 1), u32 (index + 1)))
       | None => (0, None)
       end.
End Ops.

(** ** File contents *)

(** The bytes of a file, and what a write of [bytes] at [start] makes of
    them: a gap behind the old end reads as zeros. *)
Definition content (f : tmpfs_file) : list Z := take (Z.to_nat (tf_size f)) (tf_data f).
Definition overwrite (start : nat) (bytes c : list Z) : list Z :=
  take start (c ++ replicate (start - length c) 0) ++ bytes ++ drop (start + length bytes) c.

Definition valid_path (path : list Z) : Prop :=
  take TMPFS_PREFIX_LEN path = TMPFS_PREFIX /\ check_name (drop TMPFS_PREFIX_LEN path) = 0.

Record file_live (f : tmpfs_file) : Prop := {
  fl_size : 0 <= tf_size f <= tf_capacity f;
  fl_cap : tf_capacity f <= TMPFS_MAX_FILE_SIZE;
  fl_data : Z.of_nat (length (tf_data f)) = tf_capacity f;
  fl_path : valid_path (tf_path f);
  fl_opens : 0 <= tf_opens f
}.
Definition file_ok (f : tmpfs_file) : Prop := if tf_used f then file_live f else f = file_zero.

Section Contents.
Implicit Types (f : tmpfs_file) (bytes data c : list Z) (start : Z).

Lemma length_splice pos bytes data :
  0 <= pos -> (Z.to_nat pos + length bytes <= length data)%nat -> length (splice pos bytes data) = length data.
Proof. intros. unfold splice. rewrite !length_app, length_take, length_drop. lia. Qed.

Lemma length_content f : 0 <= tf_size f <= Z.of_nat (length (tf_data f)) -> Z.of_nat (length (content f)) = tf_size f.
Proof. intros. unfold content. rewrite length_take. lia. Qed.

Lemma take_splice pos bytes data (n : nat) :
  0 <= pos -> (Z.to_nat pos + length bytes <= n)%nat -> (n <= length data)%nat ->
  take n (splice pos bytes data) =
    take (Z.to_nat pos) data ++ bytes ++ drop (Z.to_nat pos + length bytes) (take n data).
Proof.
  intros Hp Hn Hl. unfold splice. rewrite take_app_ge by (rewrite length_take; lia). f_equal.
  rewrite length_take. replace (Z.to_nat pos `min` length data)%nat with (Z.to_nat pos) by lia.
  rewrite take_app_ge by lia. f_equal. rewrite take_drop_commute. f_equal. f_equal. lia.
Qed.

(** The zero fill of [file_write]. *)
Definition filled start f : list Z :=
  if tf_size f <? start then splice (tf_size f) (replicate (Z.to_nat (start - tf_size f)) 0) (tf_data f)
  else tf_data f.

Lemma filled_spec start f :
  0 <= tf_size f <= Z.of_nat (length (tf_data f)) -> 0 <= start <= Z.of_nat (length (tf_data f)) ->
  length (filled start f) = length (tf_data f) /\
  take (Z.to_nat start) (filled start f) =
    take (Z.to_nat start) (content f ++ replicate (Z.to_nat start - length (content f)) 0) /\
  (start <= tf_size f -> filled start f = tf_data f).
Proof.
  intros Hs Hst. pose proof (length_content f Hs) as Hc. unfold filled. split_and!.
  - destruct (Z.ltb_spec (tf_size f) start); [|done]. apply length_splice; rewrite ?length_replicate; lia.
  - destruct (Z.ltb_spec (tf_size f) start).
    + rewrite take_splice by (rewrite ?length_replicate; lia). rewrite (take_ge (content f ++ _)) by (rewrite length_app, length_replicate; lia).
      unfold content at 1. f_equal. rewrite drop_ge, app_nil_r by (rewrite length_take, length_replicate; lia).
      f_equal. lia.
    + replace (Z.to_nat start - length (content f))%nat with 0%nat by lia. rewrite app_nil_r. unfold content.
      rewrite take_take. f_equal. lia.
  - intros. destruct (Z.ltb_spec (tf_size f) start); [lia|done].
Qed.

(** The store step of [file_write] on a block with room. *)
Definition stored_file start bytes f : tmpfs_file :=
  let stop := start + Z.of_nat (length bytes) in
  let f := set_block (splice start bytes (filled start f)) (tf_capacity f) f in
  if tf_size f <? stop then set_size stop f else f.

Lemma stored_file_spec start bytes f :
  file_live f -> 0 <= start -> start + Z.of_nat (length bytes) <= tf_capacity f ->
  file_live (stored_file start bytes f) /\
  content (stored_file start bytes f) = overwrite (Z.to_nat start) bytes (content f) /\
  tf_used (stored_file start bytes f) = tf_used f /\ tf_path (stored_file start bytes f) = tf_path f /\
  tf_opens (stored_file start bytes f) = tf_opens f.
Proof.
  intros [H1 H2 H3 H4 H5] Hst Hfit.
  destruct (filled_spec start f) as (Hlen & Htake & Hsame); [lia..|].
  assert (Hl : length (splice start bytes (filled start f)) = length (tf_data f)) by (rewrite length_splice; lia).
  pose proof (length_content f ltac:(lia)) as Hc.
  unfold stored_file. cbv zeta. simpl tf_size. split_and!.
  - destruct (Z.ltb_spec (tf_size f) (start + Z.of_nat (length bytes))); split; simpl; auto; try lia; by rewrite Hl.
  - unfold overwrite. rewrite <- Htake.
    destruct (Z.ltb_spec (tf_size f) (start + Z.of_nat (length bytes))) as [Hlt|Hge]; unfold content at 1; simpl.
    + rewrite take_splice by lia. rewrite !(drop_ge _ (Z.to_nat start + length bytes)) by (rewrite ?length_take; lia). done.
    + rewrite take_splice by lia. do 2 f_equal. rewrite Hsame by lia. done.
  - destruct (_ <? _); done.
  - destruct (_ <? _); done.
  - destruct (_ <? _); done.
Qed.

Lemma grown_capacity_spec capacity stop :
  0 <= capacity <= TMPFS_MAX_FILE_SIZE -> capacity < stop <= TMPFS_MAX_FILE_SIZE ->
  stop <= grown_capacity capacity stop <= TMPFS_MAX_FILE_SIZE /\ capacity <= grown_capacity capacity stop.
Proof. unfold grown_capacity, TMPFS_MIN_CAPACITY, TMPFS_MAX_FILE_SIZE. intros. cbv zeta. split_ifs; lia. Qed.

(** Growing the block keeps the content. *)
Lemma grow_live f data cap :
  file_live f -> tf_capacity f <= cap <= TMPFS_MAX_FILE_SIZE -> Z.of_nat (length data) = cap ->
  take (length (tf_data f)) data = tf_data f ->
  file_live (set_block data cap f) /\ content (set_block data cap f) = content f.
Proof.
  intros [H1 H2 H3 H4 H5] Hc Hd Ht. split; [split; simpl; auto; lia|].
  unfold content. simpl. rewrite <- Ht at 1. rewrite take_take. f_equal. lia.
Qed.
End Contents.

Section Files.
Context {H : Type} `{Krealloc H}.
Implicit Types (s : tmpfs H) (v : nat) (path : list Z).

Record tmpfs_inv s : Prop := {
  ti_len : length (g_files s) = TMPFS_MAX_FILES;
  ti_files : forall i f, g_files s !! i = Some f -> file_ok f;
  ti_unique : forall i j f g, g_files s !! i = Some f -> g_files s !! j = Some g ->
    tf_used f = true -> tf_used g = true -> tf_path f = tf_path g -> i = j
}.

Lemma file_of_Some v s f : file_of v s = Some f <-> g_files s !! v = Some f /\ tf_used f = true.
Proof.
  unfold file_of. destruct (g_files s !! v) as [g|] eqn:E.
  - destruct (tf_used g) eqn:Eu; split.
    + by intros [= ->].
    + by intros [[= ->] _].
    + done.
    + intros [[= ->] ?]. congruence.
  - split; [done|by intros [? _]].
Qed.

Lemma file_of_live v s f : tmpfs_inv s -> file_of v s = Some f -> file_live f.
Proof. intros Hi [Hf Hu]%file_of_Some. pose proof (ti_files _ Hi v f Hf) as Ho. unfold file_ok in Ho. by rewrite Hu in Ho. Qed.

(** Replacing a live file by a live one with the same path. *)
Lemma set_file_inv v f f' s :
  tmpfs_inv s -> file_of v s = Some f -> file_live f' -> tf_used f' = true -> tf_path f' = tf_path f ->
  tmpfs_inv (set_file v f' s).
Proof.
  intros Hi [Hf Hu]%file_of_Some Hl Hu' Hp. pose proof (lookup_lt_Some _ _ _ Hf) as Hlt. split.
  - simpl. rewrite length_insert. apply Hi.
  - intros i g. simpl. destruct (decide (i = v)) as [->|Hne].
    + rewrite list_lookup_insert_eq by done. intros [= <-]. unfold file_ok. by rewrite Hu'.
    + rewrite list_lookup_insert_ne by done. apply Hi.
  - intros i j g g'. simpl. destruct (decide (i = v)) as [->|Hi1], (decide (j = v)) as [->|Hj1];
      rewrite ?list_lookup_insert_eq by done; rewrite ?list_lookup_insert_ne by done; intros; simplify_eq.
    + done.
    + eapply (ti_unique _ Hi); eauto. congruence.
    + eapply (ti_unique _ Hi); eauto. congruence.
    + by eapply (ti_unique _ Hi).
Qed.

Lemma set_heap_inv s h : tmpfs_inv s -> tmpfs_inv (Tmpfs (g_files s) h).
Proof. intros []. by split. Qed.

Lemma find_file_Some path s i :
  find_file path s = Some i -> exists f, file_of i s = Some f /\ tf_path f = path.
Proof.
  unfold find_file. intros (_ & Hp & _)%find_from_Some. destruct (g_files s !! i) as [f|] eqn:E; [|done].
  apply andb_prop in Hp as [Hu Hp]. exists f. rewrite file_of_Some. split; [done|].
  unfold str_eqb in Hp. by apply bool_decide_eq_true_1 in Hp.
Qed.

Lemma find_file_None path s i f :
  tmpfs_inv s -> find_file path s = None -> file_of i s = Some f -> tf_path f <> path.
Proof.
  unfold find_file. intros Hi Hn [Hf Hu]%file_of_Some Hp. pose proof (lookup_lt_Some _ _ _ Hf).
  rewrite (ti_len _ Hi) in *. specialize (proj1 (find_from_None _ _ _) Hn i ltac:(lia)) as Hx. cbv beta in Hx.
  rewrite Hf, Hu in Hx. unfold str_eqb in Hx. rewrite Hp, bool_decide_eq_true_2 in Hx; done.
Qed.

Lemma find_file_unique path s i f :
  tmpfs_inv s -> file_of i s = Some f -> tf_path f = path -> find_file path s = Some i.
Proof.
  intros Hi Hf Hp. destruct (find_file path s) as [j|] eqn:E.
  - destruct (find_file_Some _ _ _ E) as (g & Hg & Hgp). f_equal.
    apply file_of_Some in Hf as [? ?], Hg as [? ?]. eapply (ti_unique _ Hi); eauto. congruence.
  - by destruct (find_file_None _ _ _ _ Hi E Hf).
Qed.
End Files.

(** ** Operations on the table *)
Section Table.
Context {H : Type} `{Krealloc H}.
Implicit Types (s : tmpfs H) (v : nat) (path : list Z).

(** [file_write] with its store step named. *)
Lemma file_write_unfold v bytes offset s f :
  file_of v s = Some f -> 0 <= offset < TMPFS_MAX_FILE_SIZE -> bytes <> [] ->
  let b := take (Z.to_nat (TMPFS_MAX_FILE_SIZE - offset)) bytes in
  let stop := offset + Z.of_nat (length b) in
  file_write v (Some bytes) offset s =
    if tf_capacity f <? stop then
      match krealloc (t_heap s) (tf_data f) (grown_capacity (tf_capacity f) stop) with
      | (h, None) => (Tmpfs (g_files s) h, - ENOMEM)
      | (h, Some grown) =>
          (set_file v (stored_file offset b (set_block grown (grown_capacity (tf_capacity f) stop) f))
             (Tmpfs (g_files s) h), Z.of_nat (length b))
      end
    else (set_file v (stored_file offset b f) s, Z.of_nat (length b)).
Proof.
  intros Hf Ho Hb b stop. unfold file_write. destruct (Z.ltb_spec offset 0); [lia|].
  rewrite bool_decide_eq_false_2, Hf by done. destruct (Z.leb_spec TMPFS_MAX_FILE_SIZE offset); [lia|].
  set (count := if TMPFS_MAX_FILE_SIZE - offset <? Z.of_nat (length bytes) then _ else _).
  assert (Hcount : count = Z.of_nat (length b)).
  { unfold count, b. rewrite length_take. split_ifs; lia. }
  assert (Hbytes : take (Z.to_nat count) bytes = b).
  { rewrite Hcount, Nat2Z.id. unfold b. rewrite length_take. clear.
    destruct (decide (Z.to_nat (TMPFS_MAX_FILE_SIZE - offset) <= length bytes)%nat); [f_equal; lia|].
    rewrite !take_ge by lia. done. }
  assert (Hs : s32 count = count).
  { apply s32_small. rewrite Hcount. unfold b, TMPFS_MAX_FILE_SIZE in *. rewrite length_take. lia. }
  cbv zeta. rewrite Hbytes, Hs, Hcount. fold stop. unfold stored_file, filled. fold stop. done.
Qed.

(** What a write does: it fails without touching a file, or changes exactly
    the file [v], whose content is overwritten at [offset]. *)
Lemma file_write_spec v bytes offset s f :
  tmpfs_inv s -> file_of v s = Some f -> 0 <= offset < TMPFS_MAX_FILE_SIZE -> bytes <> [] ->
  let b := take (Z.to_nat (TMPFS_MAX_FILE_SIZE - offset)) bytes in
  let '(s', r) := file_write v (Some bytes) offset s in
  tmpfs_inv s' /\
  ((r = - ENOMEM /\ g_files s' = g_files s) \/
   (r = Z.of_nat (length b) /\ exists f', g_files s' = <[v := f']> (g_files s) /\ tf_used f' = true /\
      tf_path f' = tf_path f /\ tf_opens f' = tf_opens f /\
      content f' = overwrite (Z.to_nat offset) b (content f))).
Proof.
  intros Hi Hf Ho Hb b. rewrite (file_write_unfold v bytes offset s f Hf Ho Hb). fold b. cbv zeta.
  pose proof (file_of_live _ _ _ Hi Hf) as Hlive. pose proof (proj1 (file_of_Some _ _ _) Hf) as [_ Hu].
  assert (Hlb : offset + Z.of_nat (length b) <= TMPFS_MAX_FILE_SIZE) by (unfold b; rewrite length_take; lia).
  destruct (Z.ltb_spec (tf_capacity f) (offset + Z.of_nat (length b))) as [Hgrow|Hfit].
  - destruct (krealloc _ _ _) as [h [grown|]] eqn:Ek.
    + destruct (krealloc_spec _ _ _ _ _ Ek) as [Hlen Hpre].
      pose proof (fl_size _ Hlive). pose proof (fl_cap _ Hlive). pose proof (fl_data _ Hlive).
      destruct (grown_capacity_spec (tf_capacity f) (offset + Z.of_nat (length b))) as [Hg1 Hg2]; [lia..|].
      destruct (grow_live f grown _ Hlive (conj Hg2 (proj2 Hg1)) Hlen ltac:(apply Hpre; lia)) as [Hl2 Hc2].
      destruct (stored_file_spec offset b _ Hl2 ltac:(lia) (proj1 Hg1)) as (Hs1 & Hs2 & Hs3 & Hs4 & Hs5).
      split.
      * eapply set_file_inv; [by apply set_heap_inv|exact Hf|exact Hs1|by rewrite Hs3|by rewrite Hs4].
      * right. split; [done|]. eexists. split; [reflexivity|]. split_and!; [by rewrite Hs3|by rewrite Hs4|by rewrite Hs5|].
        by rewrite Hs2, Hc2.
    + split; [by apply set_heap_inv|]. by left.
  - destruct (stored_file_spec offset b f Hlive ltac:(lia) Hfit) as (Hs1 & Hs2 & Hs3 & Hs4 & Hs5). split.
    + eapply set_file_inv; [done|exact Hf|exact Hs1|by rewrite Hs3|by rewrite Hs4].
    + right. split; [done|]. eexists. split; [reflexivity|]. split_and!; [by rewrite Hs3|done|done|done].
Qed.

(** A read returns the bytes of the content from [offset]. *)
Lemma file_read_spec v count offset s f :
  tmpfs_inv s -> file_of v s = Some f -> 0 <= offset -> 0 <= count ->
  let out := take (Z.to_nat count) (drop (Z.to_nat offset) (content f)) in
  file_read v true count offset s = (Z.of_nat (length out), out).
Proof.
  intros Hi Hf Ho Hc out. pose proof (file_of_live _ _ _ Hi Hf) as [H1 H2 H3 _ _].
  unfold file_read. simpl. destruct (Z.ltb_spec offset 0); [lia|]. rewrite Hf.
  pose proof (length_content f ltac:(lia)) as Hlc. unfold out.
  destruct (Z.ltb_spec offset (tf_size f)) as [Hlt|Hge].
  - set (n := if tf_size f - offset <? count then tf_size f - offset else count).
    assert (Hn : n = Z.min (tf_size f - offset) count) by (unfold n; split_ifs; lia).
    assert (E : take (Z.to_nat count) (drop (Z.to_nat offset) (content f)) =
                take (Z.to_nat n) (drop (Z.to_nat offset) (tf_data f))).
    { unfold content. rewrite skipn_firstn_comm, take_take. f_equal. lia. }
    cbv zeta. rewrite E. f_equal. rewrite s32_small by (unfold TMPFS_MAX_FILE_SIZE in *; lia).
    rewrite length_take, length_drop. lia.
  - rewrite drop_ge by lia. by rewrite take_nil.
Qed.

Lemma check_name_nonneg name : check_name name < 0 \/ check_name name = 0.
Proof. unfold check_name. split_ifs; [left|left|left|right]; done. Qed.

Lemma check_name_length name : check_name name = 0 -> (length name <= TMPFS_NAME_MAX)%nat.
Proof. unfold check_name. case_bool_decide; [done|]. destruct (Nat.ltb_spec TMPFS_NAME_MAX (length name)); [done|lia]. Qed.

Lemma owned_path path :
  tmpfs_owns path = true -> str_eqb path TMP_DIR = false -> take TMPFS_PREFIX_LEN path = TMPFS_PREFIX.
Proof.
  unfold tmpfs_owns, strn_eqb. intros Ho Hd. rewrite Hd in Ho. simpl in Ho.
  by apply bool_decide_eq_true_1 in Ho.
Qed.

Lemma new_file_live path : valid_path path -> file_live (new_file path) /\ tf_path (new_file path) = path.
Proof.
  intros Hv. assert (Hp : take 127 path = path).
  { apply take_ge. destruct Hv as [_ Hc]. apply check_name_length in Hc. rewrite length_drop in Hc.
    unfold TMPFS_NAME_MAX, TMPFS_PREFIX_LEN in Hc. lia. }
  split; [|done]. split; simpl; [lia|unfold TMPFS_MAX_FILE_SIZE; lia|done| |done]. by rewrite Hp.
Qed.

(** Filling a free slot with a file whose path is not in the table. *)
Lemma create_inv i path s :
  tmpfs_inv s -> find_file path s = None -> valid_path path -> free_slot s = Some i ->
  tmpfs_inv (set_file i (new_file path) s) /\ g_files s !! i = Some file_zero.
Proof.
  intros Hi Hn Hv Hfree. destruct (new_file_live path Hv) as [Hl Hp].
  unfold free_slot in Hfree. apply find_from_Some in Hfree as (Hb & Hf & _).
  destruct (g_files s !! i) as [f|] eqn:Ei; [|done].
  pose proof (ti_files _ Hi i f Ei) as Hok. unfold file_ok in Hok. destruct (tf_used f) eqn:Eu; [done|]. subst f.
  split; [|done]. pose proof (lookup_lt_Some _ _ _ Ei) as Hlt. split.
  - simpl. rewrite length_insert. apply Hi.
  - intros j g. simpl. destruct (decide (j = i)) as [->|Hne].
    + rewrite list_lookup_insert_eq by done. intros [= <-]. exact Hl.
    + rewrite list_lookup_insert_ne by done. apply Hi.
  - assert (Hnew : forall j g, j <> i -> g_files s !! j = Some g -> tf_used g = true -> tf_path g <> path).
    { intros j g Hj Hg Hu. eapply find_file_None; [done..|]. by apply file_of_Some. }
    intros j k g g'. simpl. destruct (decide (j = i)) as [->|Hj], (decide (k = i)) as [->|Hk];
      rewrite ?list_lookup_insert_eq by done; rewrite ?list_lookup_insert_ne by done; intros; simplify_eq.
    + done.
    + exfalso. eapply (Hnew k); eauto. by rewrite <- Hp.
    + exfalso. eapply (Hnew j); eauto. by rewrite <- Hp.
    + by eapply (ti_unique _ Hi).
Qed.

(** Clearing a slot. *)
Lemma remove_inv i s : tmpfs_inv s -> (i < TMPFS_MAX_FILES)%nat -> tmpfs_inv (set_file i file_zero s).
Proof.
  intros Hi Hb. assert (Hlt : (i < length (g_files s))%nat) by (by rewrite (ti_len _ Hi)). split.
  - simpl. rewrite length_insert. apply Hi.
  - intros j g. simpl. destruct (decide (j = i)) as [->|Hne].
    + rewrite list_lookup_insert_eq by done. by intros [= <-].
    + rewrite list_lookup_insert_ne by done. apply Hi.
  - intros j k g g'. simpl. destruct (decide (j = i)) as [->|Hj], (decide (k = i)) as [->|Hk];
      rewrite ?list_lookup_insert_eq by done; rewrite ?list_lookup_insert_ne by done; intros; simplify_eq; try done.
    by eapply (ti_unique _ Hi).
Qed.
End Table.

(** ** Descriptors

    [opens] counts the descriptors of a file: [file_open] counts the one being
    opened, the hooks [dup] and [release] the others. *)
Section Descriptors.
Context {H : Type} `{Krealloc H}.
Implicit Types (s : tmpfs H) (v : nat) (path : list Z) (c : nat -> Z).

#[export] Instance tmpfs_hooks : VnodeHooks nat (tmpfs H) :=
  {| vnode_dup := file_dup; vnode_release := file_release |}.

Definition tmpfs_acct s c : Prop :=
  tmpfs_inv s /\ (forall i f, g_files s !! i = Some f -> tf_opens f = c i) /\
  (forall i, (TMPFS_MAX_FILES <= i)%nat -> c i = 0) /\ (forall i, 0 <= c i).

Lemma set_opens_live n f : file_live f -> 0 <= n -> file_live (set_opens n f).
Proof. intros [] ?. by split. Qed.

Lemma acct_live s c v : tmpfs_acct s c -> 1 <= c v -> exists f, file_of v s = Some f /\ tf_opens f = c v.
Proof.
  intros (Hi & Ho & Hout & _) Hc. destruct (decide (v < TMPFS_MAX_FILES)%nat) as [Hv|Hv].
  2: { rewrite Hout in Hc by lia. lia. }
  destruct (lookup_lt_is_Some_2 (g_files s) v) as [f Hf]; [by rewrite (ti_len _ Hi)|].
  exists f. rewrite file_of_Some. pose proof (Ho v f Hf) as E. split; [|done]. split; [done|].
  pose proof (ti_files _ Hi v f Hf) as Hok. unfold file_ok in Hok. destruct (tf_used f); [done|].
  subst f. simpl in E. lia.
Qed.

Lemma set_opens_acct s c v f n :
  tmpfs_acct s c -> file_of v s = Some f -> 0 <= n ->
  tmpfs_acct (set_file v (set_opens n f) s) (fun i => if decide (i = v) then n else c i).
Proof.
  intros (Hi & Ho & Hout & Hnn) Hf Hn. pose proof (file_of_live _ _ _ Hi Hf) as Hl.
  pose proof (proj1 (file_of_Some _ _ _) Hf) as [Hg Hu]. pose proof (lookup_lt_Some _ _ _ Hg) as Hlt. split_and!.
  - eapply set_file_inv; [done|exact Hf|by apply set_opens_live|done|done].
  - intros i g. simpl. destruct (decide (i = v)) as [->|].
    + rewrite list_lookup_insert_eq by done. by intros [= <-].
    + rewrite list_lookup_insert_ne by done. apply Ho.
  - intros i Hge. rewrite (ti_len _ Hi) in Hlt. case_decide; [lia|]. by apply Hout.
  - intros i. case_decide; [done|apply Hnn].
Qed.

#[export] Instance tmpfs_accounting : VnodeAccounting nat (tmpfs H) tmpfs_acct.
Proof.
  split.
  - intros s c c' E (H1 & H2 & H3 & H4). split_and!; [done|by intros; rewrite <- E; auto|by intros; rewrite <- E; auto|].
    intros i. rewrite <- E. auto.
  - intros s c v Ha Hc. destruct (acct_live s c v Ha Hc) as (f & Hf & Ef). unfold vnode_dup, tmpfs_hooks, file_dup.
    rewrite Hf, Ef. apply set_opens_acct; [done|done|lia].
  - intros s c v Ha Hc. destruct (acct_live s c v Ha Hc) as (f & Hf & Ef). unfold vnode_release, tmpfs_hooks, file_release.
    rewrite Hf, Ef. destruct (Z.eqb_spec (c v) 0); [lia|]. apply set_opens_acct; [done|done|lia].
Qed.

(** The lookup, on every branch. *)
Definition truncates (flags : Z) : bool := negb (flags .& O_TRUNC =? 0) && negb (flags .& O_ACCMODE =? 0).

Lemma truncate_live f : file_live f -> file_live (set_size 0 f) /\ content (set_size 0 f) = [].
Proof. intros []. split; [split; simpl; auto; lia|done]. Qed.

Lemma tmpfs_lookup_spec path flags s :
  tmpfs_inv s ->
  match tmpfs_lookup path flags s with
  | (s', inl TmpDir) => path = TMP_DIR /\ s' = s
  | (s', inl (TmpFile i)) => tmpfs_inv s' /\ valid_path path /\ exists f', g_files s' = <[i := f']> (g_files s) /\
      tf_used f' = true /\ tf_path f' = path /\
      ((exists f, file_of i s = Some f /\ tf_path f = path /\ tf_opens f' = tf_opens f /\
          content f' = if truncates flags then [] else content f) \/
       (find_file path s = None /\ flags .& O_CREAT <> 0 /\ g_files s !! i = Some file_zero /\
          tf_opens f' = 0 /\ content f' = []))
  | (s', inr e) => s' = s /\ e < 0
  end.
Proof.
  intros Hi. unfold tmpfs_lookup. destruct (tmpfs_owns path) eqn:Eo; simpl negb; cbv iota; [|done].
  destruct (str_eqb path TMP_DIR) eqn:Ed.
  { unfold str_eqb in Ed. by apply bool_decide_eq_true_1 in Ed. }
  destruct (Z.ltb_spec (check_name (drop TMPFS_PREFIX_LEN path)) 0) as [Hneg|Hpos]; [done|].
  assert (Hv : valid_path path).
  { split; [by apply owned_path|]. pose proof (check_name_nonneg (drop TMPFS_PREFIX_LEN path)). lia. }
  destruct (find_file path s) as [i|] eqn:Ef.
  - destruct (find_file_Some _ _ _ Ef) as (f & Hf & Hp). pose proof (file_of_live _ _ _ Hi Hf) as Hl.
    pose proof (proj1 (file_of_Some _ _ _) Hf) as [Hg Hu]. fold (truncates flags).
    destruct (truncates flags) eqn:Et.
    + destruct (truncate_live f Hl) as [Hl' Hc'].
      assert (Ea : alter (set_size 0) i (g_files s) = <[i := set_size 0 f]> (g_files s)).
      { by rewrite list_alter_insert with (y := f) || (apply list_eq; intros j;
          destruct (decide (j = i)) as [->|]; [rewrite list_lookup_alter, decide_True, Hg by done; simpl;
            by rewrite list_lookup_insert_eq by (by eapply lookup_lt_Some)
          |by rewrite list_lookup_alter_ne, list_lookup_insert_ne by done]). }
      split_and!; [|done|].
      * unfold set_files. rewrite Ea. by eapply (set_file_inv i f (set_size 0 f)).
      * exists (set_size 0 f). split_and!; [exact Ea|done|done|]. left. by exists f.
    + split_and!; [done|done|]. exists f. split_and!; [|done|done|left; by exists f].
      symmetry. by apply list_insert_id.
  - destruct (Z.eqb_spec (flags .& O_CREAT) 0) as [|Hc]; simpl; [done|].
    destruct (free_slot s) as [i|] eqn:Efree; [|done].
    destruct (create_inv i path s Hi Ef Hv Efree) as [Hi' Hz]. destruct (new_file_live path Hv) as [_ Hp].
    split_and!; [done|done|]. exists (new_file path). split_and!; [done|done|done|]. right. by split_and!.
Qed.

Lemma tmpfs_unlink_spec path s :
  tmpfs_inv s ->
  let '(s', r) := tmpfs_unlink path s in
  (r = 0 /\ exists i f, file_of i s = Some f /\ tf_path f = path /\ tf_opens f = 0 /\
     g_files s' = <[i := file_zero]> (g_files s) /\ tmpfs_inv s' /\ find_file path s' = None) \/
  (r < 0 /\ s' = s /\ (r = - EBUSY <-> exists i f, file_of i s = Some f /\ tf_path f = path /\ tf_opens f <> 0)).
Proof.
  intros Hi. unfold tmpfs_unlink.
  assert (Hnone : forall r, r < 0 -> r <> - EBUSY ->
    (forall i f, file_of i s = Some f -> tf_path f <> path) ->
    (r < 0 /\ s = s /\ (r = - EBUSY <-> exists i f, file_of i s = Some f /\ tf_path f = path /\ tf_opens f <> 0))).
  { intros r Hr Hne Hno. split_and!; [done|done|]. split; [done|].
    intros (i & f & Hf & Hp & _). by destruct (Hno i f Hf). }
  assert (Hvalid : forall i f, file_of i s = Some f -> tf_path f = path -> valid_path path).
  { intros i f Hf <-. apply (fl_path _ (file_of_live _ _ _ Hi Hf)). }
  destruct (tmpfs_owns path) eqn:Eo; simpl negb; cbv iota.
  2: { right; apply Hnone; [done..|]. intros i f Hf Hp. destruct (Hvalid i f Hf Hp) as [Hpre _].
       unfold tmpfs_owns, strn_eqb in Eo. rewrite (bool_decide_eq_true_2 (take _ path = _)) in Eo by done.
       by rewrite orb_true_r in Eo. }
  destruct (str_eqb path TMP_DIR) eqn:Ed.
  { right; apply Hnone; [done..|]. intros i f Hf Hp. destruct (Hvalid i f Hf Hp) as [Hpre _].
    unfold str_eqb in Ed. apply bool_decide_eq_true_1 in Ed. subst path. discriminate Hpre. }
  destruct (Z.ltb_spec (check_name (drop TMPFS_PREFIX_LEN path)) 0) as [Hneg|Hpos].
  { right; apply Hnone; [done| |].
    - unfold check_name. repeat case_bool_decide; [done|]. destruct (_ <? _)%nat; [done|]. by destruct (existsb _ _).
    - intros i f Hf Hp. destruct (Hvalid i f Hf Hp) as [_ Hc]. lia. }
  destruct (find_file path s) as [i|] eqn:Ef.
  2: { right; apply Hnone; [done..|]. intros i f Hf Hp. by eapply find_file_None. }
  destruct (find_file_Some _ _ _ Ef) as (f & Hf & Hp). pose proof (proj1 (file_of_Some _ _ _) Hf) as [Hg Hu].
  rewrite Hg. destruct (Z.eqb_spec (tf_opens f) 0) as [E0|E0]; simpl negb; cbv iota.
  2: { right. split_and!; [done|done|]. split; [|done]. intros _. by exists i, f. }
  assert (Hlt : (i < TMPFS_MAX_FILES)%nat) by (rewrite <- (ti_len _ Hi); by eapply lookup_lt_Some).
  pose proof (remove_inv i s Hi Hlt) as Hi'.
  assert (Hgone : find_file path (set_file i file_zero s) = None).
  { destruct (find_file path (set_file i file_zero s)) as [j|] eqn:Ej; [|done].
    destruct (find_file_Some _ _ _ Ej) as (g & Hj & Hgp). apply file_of_Some in Hj as [Hj Hju]. simpl in Hj.
    destruct (decide (j = i)) as [->|Hne].
    - rewrite list_lookup_insert_eq in Hj by (by eapply lookup_lt_Some). by injection Hj as <-.
    - rewrite list_lookup_insert_ne in Hj by done. destruct Hne. eapply (ti_unique _ Hi); eauto. congruence. }
  left. split; [done|]. exists i, f. case_bool_decide; split_and!; try done.
  by apply set_heap_inv.
Qed.
End Descriptors.

(** ** Properties *)

(** A write to a /tmp file at an offset below the size limit either fails
    with [-ENOMEM] and changes no file, or stores the first
    [TMPFS_MAX_FILE_SIZE - offset] bytes of the buffer at [offset], zero-fills a
    gap behind the old end, keeps every other byte and every other file, and
    returns the number of bytes stored; reading that many bytes back at the
    same offset returns them. The table invariant is preserved. *)
Theorem tmpfs_write_read {H : Type} `{Krealloc H} (s : tmpfs H) (v : nat) (f : tmpfs_file) (bytes : list Z) (offset : Z) :
  tmpfs_inv s -> file_of v s = Some f -> 0 <= offset < TMPFS_MAX_FILE_SIZE -> bytes <> [] ->
  let b := take (Z.to_nat (TMPFS_MAX_FILE_SIZE - offset)) bytes in
  let '(s', r) := file_write v (Some bytes) offset s in
  tmpfs_inv s' /\
  ((r = - ENOMEM /\ g_files s' = g_files s) \/
   (r = Z.of_nat (length b) /\
    file_read v true r offset s' = (r, b) /\
    (forall v', v' <> v -> file_of v' s' = file_of v' s) /\
    exists f', file_of v s' = Some f' /\ content f' = overwrite (Z.to_nat offset) b (content f))).
Proof.
  intros Hi Hf Ho Hb b. pose proof (file_write_spec v bytes offset s f Hi Hf Ho Hb) as Hw. fold b in Hw.
  pose proof (file_of_live _ _ _ Hi Hf) as Hl. pose proof (proj1 (file_of_Some _ _ _) Hf) as [Hg _].
  destruct (file_write v (Some bytes) offset s) as [s' r].
  destruct Hw as [Hi' [Hw|(-> & f' & Hs' & Hu & Hp & _ & Hc)]]; split; [done|by left|done|right].
  assert (Hf' : file_of v s' = Some f').
  { apply file_of_Some. rewrite Hs', list_lookup_insert_eq by (by eapply lookup_lt_Some). done. }
  split_and!; [done| | |by exists f'].
  - rewrite (file_read_spec v _ offset s' f' Hi' Hf') by lia. cbv zeta. rewrite Hc, Nat2Z.id. unfold overwrite.
    rewrite drop_app_length' by (rewrite length_take, length_app, length_replicate; lia).
    by rewrite take_app_length.
  - intros v' Hne. unfold file_of. rewrite Hs', list_lookup_insert_ne by done. done.
Qed.

#[local] Instance demo_heap : Krealloc unit.
Proof.
  refine {| krealloc := fun h b n => if n <? 0 then (h, None)
              else (h, Some (take (Z.to_nat n) (b ++ replicate (Z.to_nat n) 0)));
            kfree := fun h _ => h |}.
  intros h b n h' b'. destruct (n <? 0) eqn:E; [done|]. intros [= _ <-]. split.
  - rewrite length_take, length_app, length_replicate. lia.
  - intros Hn. rewrite take_take. replace (length b `min` Z.to_nat n)%nat with (length b) by lia. apply take_app_length.
Defined.

(** /tmp/a *)
Definition demo_path : list Z := [47; 116; 109; 112; 47; 97].
Definition demo_fs : tmpfs unit := (tmpfs_lookup demo_path O_CREAT (tmpfs_init tt)).1.

Lemma tmpfs_init_inv {H : Type} `{Krealloc H} (h : H) : tmpfs_inv (tmpfs_init h).
Proof.
  split; [done| |].
  - intros i f Hf. apply (lookup_replicate TMPFS_MAX_FILES file_zero) in Hf as [-> _]. done.
  - intros i j f g Hf. apply (lookup_replicate TMPFS_MAX_FILES file_zero) in Hf as [-> _]. done.
Qed.

Lemma demo_fs_inv : tmpfs_inv demo_fs.
Proof.
  pose proof (tmpfs_lookup_spec demo_path O_CREAT (tmpfs_init tt) (tmpfs_init_inv tt)) as Hl.
  assert (E : (tmpfs_lookup demo_path O_CREAT (tmpfs_init tt)).2 = inl (TmpFile 0)) by (vm_compute; reflexivity).
  unfold demo_fs. destruct (tmpfs_lookup demo_path O_CREAT (tmpfs_init tt)) as [s' r]. simpl in E |- *. subst r. apply Hl.
Qed.

Lemma tmpfs_write_read_witness :
  let '(s', r) := file_write 0 (Some [1; 2; 3]) 2 demo_fs in
  r = 3 /\ file_read 0 true r 2 s' = (r, [1; 2; 3]).
Proof.
  assert (Hf : exists f, file_of 0 demo_fs = Some f) by (eexists; vm_compute; reflexivity). destruct Hf as [f Hf].
  pose proof (tmpfs_write_read demo_fs 0 f [1; 2; 3] 2 demo_fs_inv Hf ltac:(unfold TMPFS_MAX_FILE_SIZE; lia) ltac:(done)) as Hw.
  assert (E : (file_write 0 (Some [1; 2; 3]) 2 demo_fs).2 = 3) by (vm_compute; reflexivity).
  assert (E2 : take (Z.to_nat (TMPFS_MAX_FILE_SIZE - 2)) [1; 2; 3] = [1; 2; 3]) by (apply take_ge; unfold TMPFS_MAX_FILE_SIZE; simpl length; lia).
  cbv zeta in Hw. rewrite E2 in Hw. clear E2.
  destruct (file_write 0 (Some [1; 2; 3]) 2 demo_fs) as [s' r]. simpl in E. subst r.
  destruct Hw as [_ [[Hbad _]|(_ & Hr & _)]]; [discriminate Hbad|]. split; [reflexivity|exact Hr].
Defined.

(** Under the agreement between [opens] and the descriptor tables,
    unlinking a /tmp file succeeds only when no descriptor refers to it, fails
    with [-EBUSY] exactly when one does, frees the slot so that the name no
    longer exists, and keeps the agreement, the reference counts and the table
    invariant; a failing unlink changes nothing. *)
Theorem tmpfs_unlink_safe {H : Type} `{Krealloc H} (base : nat -> Z) (s : fds nat (tmpfs H)) (path : list Z) :
  fd_inv tmpfs_acct base s ->
  let '(w', r) := tmpfs_unlink path (fd_world s) in
  fd_inv tmpfs_acct base (set_world (fun _ => w') s) /\
  (r = 0 -> (exists i f, file_of i (fd_world s) = Some f /\ tf_path f = path /\ slots s i = 0) /\
            find_file path w' = None) /\
  (r = - EBUSY <-> exists i f, file_of i (fd_world s) = Some f /\ tf_path f = path /\ 0 < slots s i) /\
  (r <> 0 -> w' = fd_world s).
Proof.
  intros Hi. destruct (fi_acct _ _ _ Hi) as (Ht & Ho & Hout & Hnn).
  pose proof (tmpfs_unlink_spec path (fd_world s) Ht) as Hu.
  assert (Hopens : forall i f, file_of i (fd_world s) = Some f -> tf_opens f = slots s i).
  { intros i f Hf. apply Ho. by apply file_of_Some in Hf as [? _]. }
  destruct (tmpfs_unlink path (fd_world s)) as [w' r].
  destruct Hu as [(-> & i & f & Hf & Hp & Hz & Hw & Hi' & Hgone)|(Hneg & -> & Hbusy)].
  - pose proof (Hopens i f Hf) as Hs. rewrite Hz in Hs.
    pose proof (proj1 (file_of_Some _ _ _) Hf) as [Hg Hused]. pose proof (lookup_lt_Some _ _ _ Hg) as Hlt. split_and!.
    + split; [by eapply fd_wf_same; [..|apply Hi]| |apply Hi]. split_and!; [done| |done|done].
      intros j g. simpl. rewrite Hw. destruct (decide (j = i)) as [->|].
      * rewrite list_lookup_insert_eq by done. intros [= <-]. exact Hs.
      * rewrite list_lookup_insert_ne by done. apply Ho.
    + intros _. split; [|done]. exists i, f. done.
    + split; [done|]. intros (j & g & Hj & Hgp & Hpos).
      apply file_of_Some in Hj as [Hj Hju]. assert (j = i) as -> by (eapply (ti_unique _ Ht); eauto; congruence). lia.
    + done.
  - split_and!; [by destruct s|lia| |done]. rewrite Hbusy. split; intros (i & f & Hf & Hp & Hx); exists i, f; split_and!; try done.
    + rewrite <- (Hopens i f Hf). pose proof (fl_opens _ (file_of_live _ _ _ Ht Hf)). lia.
    + rewrite (Hopens i f Hf). lia.
Qed.

Definition demo_fds : fds nat (tmpfs unit) := fds_init demo_fs (fun _ => 0).

Lemma demo_fds_inv : fd_inv tmpfs_acct (fun _ => 0) demo_fds.
Proof.
  assert (Hs : forall v, slots demo_fds v = 0) by (intros; apply fds_init_slots).
  split; [apply fds_init_wf| |].
  - split_and!; [exact demo_fs_inv| |by intros; rewrite Hs|by intros; rewrite Hs].
    intros i f Hf. rewrite Hs.
    assert (Ha : Forall (fun f => tf_opens f = 0) (g_files demo_fs)) by (vm_compute; repeat constructor).
    by apply (Forall_lookup_1 _ _ _ _ Ha Hf).
  - intros v. by rewrite Hs.
Qed.

Lemma tmpfs_unlink_safe_witness :
  (tmpfs_unlink demo_path demo_fs).2 = 0 /\ find_file demo_path (tmpfs_unlink demo_path demo_fs).1 = None.
Proof.
  pose proof (tmpfs_unlink_safe (fun _ => 0) demo_fds demo_path demo_fds_inv) as Hu.
  change (fd_world demo_fds) with demo_fs in Hu.
  assert (E : (tmpfs_unlink demo_path demo_fs).2 = 0) by (vm_compute; reflexivity).
  destruct (tmpfs_unlink demo_path demo_fs) as [w r]. simpl in E. subst r. split; [reflexivity|].
  destruct Hu as (_ & Hu & _). exact (proj2 (Hu eq_refl)).
Defined.
