(* ===== verification/Vfs.v ===== *)
(** * src/fs/vfs.c: mounts, directories, opening

    The path layer. Strings are byte lists without NUL. The mount table holds
    up to [VFS_MAX_MOUNTS] file systems; what a mounted file system does is a
    record of optional operations ([vfs_fsops], the struct of the same name)
    over its own state [W], and its vnodes are values of [M]. The other
    vnodes are the constructors of [vnode]. Directories are not stored: a path
    is a directory when some known path (fixed entries, disks, initrd files,
    procfs files) continues it, and [vfs_readdir] derives the entries from
    these. The reference count of a vnode is [v_rc]. *)
From S2P Require Import Prelude CString Fd Path Tmpfs.

Open Scope tach_scope.

Definition VFS_MAX_MOUNTS : nat := 8.
Definition VFS_MOUNT_PATH_MAX : nat := 64.
Definition VFS_MAX_MEMFILES : nat := 64.
Definition VFS_MAX_DIRS : nat := 16.
Definition VNODE_PATH_SIZE : nat := 128.
Definition VFS_PREFIX_MAX : nat := VNODE_PATH_SIZE + 2.
Definition DIRENT_NAME_SIZE : nat := 256.
Definition BLK_NAME_MAX : nat := 16.

Definition VNODE_FILE : Z := 1.
Definition VNODE_DIR : Z := 2.
Definition VNODE_LINK : Z := 3.
Definition VNODE_CHAR : Z := 4.
Definition VNODE_BLOCK : Z := 5.
Definition VNODE_PIPE : Z := 6.

(** Byte [i] of a string; behind the end there is the NUL. *)
Definition byte_at (s : list Z) (i : nat) : Z := default 0 (s !! i).

(** ** Mounted file systems *)
Record vfs_fsops (F W M : Type) := FsOps {
  op_open : option (F -> list Z -> Z -> W -> W * (M + Z));
  op_unlink : option (F -> list Z -> W -> W * Z);
  op_mkdir : option (F -> list Z -> W -> W * Z);
  op_rmdir : option (F -> list Z -> W -> W * Z);
  op_rename : option (F -> list Z -> list Z -> W -> W * Z);
  op_sync : option (F -> W -> W * Z);
  op_unmount : option (F -> W -> W * Z)
}.
Arguments op_open {F W M}.
Arguments op_unlink {F W M}.
Arguments op_mkdir {F W M}.
Arguments op_rmdir {F W M}.
Arguments op_rename {F W M}.
Arguments op_sync {F W M}.
Arguments op_unmount {F W M}.

Section Mounts.
Context {F W M : Type}.

(** A table slot; [None] is a slot with [used == false]. *)
Record vfs_mount := Mount { mt_path : list Z; mt_ops : vfs_fsops F W M; mt_fs : F }.
Implicit Types (g : list (option vfs_mount)) (path : list Z).

(** The test of one slot in [mount_find]. *)
Definition mount_matches path (mp : list Z) : bool :=
  strn_eqb path mp (length mp) &&
  ((byte_at path (length mp) =? 0) || (byte_at path (length mp) =? SLASH)).

Fixpoint mount_scan path (i : nat) g (best : option nat) (best_len : nat) : option nat * nat :=
  match g with
  | [] => (best, best_len)
  | slot :: g' =>
      match slot with
      | Some m =>
          let len := length (mt_path m) in
          if mount_matches path (mt_path m) && (best_len <? len)%nat
          then mount_scan path (S i) g' (Some i) len
          else mount_scan path (S i) g' best best_len
      | None => mount_scan path (S i) g' best best_len
      end
  end.

(** The slot and the path inside the file system. [None] as path is NULL. *)
Definition mount_find (opath : option (list Z)) g : option (nat * list Z) :=
  match opath with
  | None => None
  | Some path =>
      match mount_scan path 0 g None 0 with
      | (Some i, best_len) =>
          Some (i, if negb (byte_at path best_len =? 0) then drop best_len path else [SLASH])
      | (None, _) => None
      end
  end.

Definition first_free g : option nat :=
  find_from (fun i => match g !! i with Some None => true | _ => false end) 0 VFS_MAX_MOUNTS.

Definition mounted_at g path : bool :=
  existsb (fun slot => match slot with Some m => str_eqb (mt_path m) path | None => false end) g.

Definition vfs_mount_fs (opath : option (list Z)) (ops : option (vfs_fsops F W M)) (fs : F) g
  : list (option vfs_mount) * Z :=
  match opath, ops with
  | Some path, Some ops =>
      if negb (byte_at path 0 =? SLASH) then (g, - EINVAL)
      else
        let len := length path in
        if (len <? 2)%nat || (VFS_MOUNT_PATH_MAX <=? len)%nat
        then (g, if (len <? 2)%nat then - EINVAL else - ENAMETOOLONG)
        else if negb (str_eqb (render (normal path)) path) then (g, - EINVAL)
        else if mounted_at g path then (g, - EBUSY)
        else match first_free g with
             | None => (g, - ENOSPC)
             | Some i => (<[i := Some (Mount path ops fs)]> g, 0)
             end
  | _, _ => (g, - EINVAL)
  end.

(** The [index]-th slot in use. *)
Fixpoint vfs_mount_path (index : nat) g : option (list Z) :=
  match g with
  | [] => None
  | None :: g' => vfs_mount_path index g'
  | Some m :: g' => match index with O => Some (mt_path m) | S k => vfs_mount_path k g' end
  end.

Definition run_op (op : option (F -> W -> W * Z)) (fs : F) (w : W) : W * Z :=
  match op with Some f => f fs w | None => (w, 0) end.

Definition vfs_umount (opath : option (list Z)) (st : list (option vfs_mount) * W)
  : (list (option vfs_mount) * W) * Z :=
  let '(g, w) := st in
  match opath with
  | None => (st, - EINVAL)
  | Some path =>
      match find_from (fun i => match g !! i with Some (Some m) => str_eqb (mt_path m) path | _ => false end)
                      0 VFS_MAX_MOUNTS with
      | Some i =>
          match g !! i with
          | Some (Some m) =>
              let '(w, r) := run_op (op_sync (mt_ops m)) (mt_fs m) w in
              if r <? 0 then ((g, w), r)
              else
                let '(w, r) := run_op (op_unmount (mt_ops m)) (mt_fs m) w in
                if r <? 0 then ((g, w), r)
                else ((<[i := None]> g, w), 0)
          | _ => (st, - EINVAL)
          end
      | None => (st, - EINVAL)
      end
  end.

(** [vfs_mkdir], [vfs_rmdir] and [vfs_unlink] dispatch to the file system that
    owns the path; they differ in the operation and in what happens when none
    owns it. *)
Definition dispatch (op : vfs_fsops F W M -> option (F -> list Z -> W -> W * Z))
    (i : nat) (rel : list Z) (st : list (option vfs_mount) * W) : (list (option vfs_mount) * W) * Z :=
  match st.1 !! i with
  | Some (Some m) =>
      match op (mt_ops m) with
      | Some f => let '(w, r) := f (mt_fs m) rel st.2 in ((st.1, w), r)
      | None => (st, - ENOTSUP)
      end
  | _ => (st, - EINVAL)
  end.

Definition vfs_mkdir (opath : option (list Z)) (st : list (option vfs_mount) * W) :=
  match opath with
  | None => (st, - EINVAL)
  | Some _ =>
      match mount_find opath st.1 with
      | None => (st, - EROFS)
      | Some (i, rel) => dispatch op_mkdir i rel st
      end
  end.

Definition vfs_rmdir (opath : option (list Z)) (st : list (option vfs_mount) * W) :=
  match opath with
  | None => (st, - EINVAL)
  | Some _ =>
      match mount_find opath st.1 with
      | None => (st, - EROFS)
      | Some (i, rel) => dispatch op_rmdir i rel st
      end
  end.

Definition vfs_rename (old_path new_path : option (list Z)) (st : list (option vfs_mount) * W) :=
  match old_path, new_path with
  | Some _, Some _ =>
      match mount_find old_path st.1, mount_find new_path st.1 with
      | Some (a, r1), Some (b, r2) =>
          if negb (Nat.eqb a b) then (st, - EXDEV)
          else match st.1 !! a with
               | Some (Some m) =>
                   match op_rename (mt_ops m) with
                   | Some f => let '(w, r) := f (mt_fs m) r1 r2 st.2 in ((st.1, w), r)
                   | None => (st, - ENOTSUP)
                   end
               | _ => (st, - EINVAL)
               end
      | None, None => (st, - EROFS)
      | _, _ => (st, - EXDEV)
      end
  | _, _ => (st, - EINVAL)
  end.

Fixpoint sync_loop g (w : W) (first : Z) : W * Z :=
  match g with
  | [] => (w, first)
  | Some m :: g' =>
      match op_sync (mt_ops m) with
      | Some f => let '(w, r) := f (mt_fs m) w in
                  sync_loop g' w (if (r <? 0) && (first =? 0) then r else first)
      | None => sync_loop g' w first
      end
  | None :: g' => sync_loop g' w first
  end.

Definition vfs_sync (st : list (option vfs_mount) * W) : (list (option vfs_mount) * W) * Z :=
  let '(w, first) := sync_loop st.1 st.2 0 in ((st.1, w), first).
End Mounts.
Arguments vfs_mount : clear implicits.

(** ** Known paths and directories *)

(** C string literals of the source. *)
Definition dev_console : list Z := [47; 100; 101; 118; 47; 99; 111; 110; 115; 111; 108; 101].
Definition dev_tty : list Z := [47; 100; 101; 118; 47; 116; 116; 121].
Definition dev_null : list Z := [47; 100; 101; 118; 47; 110; 117; 108; 108].
Definition dev_zero : list Z := [47; 100; 101; 118; 47; 122; 101; 114; 111].
Definition dev_prefix : list Z := [47; 100; 101; 118; 47].

Definition g_fixed : list (list Z * Z) :=
  [(dev_console, VNODE_CHAR); (dev_tty, VNODE_CHAR); (dev_null, VNODE_CHAR); (dev_zero, VNODE_CHAR);
   (TMP_DIR, VNODE_DIR)].

(** The procfs table (src/fs/procfs.c). *)
Definition proc_paths : list (list Z) :=
  [ (* /proc/version *) [47; 112; 114; 111; 99; 47; 118; 101; 114; 115; 105; 111; 110];
    (* /proc/uname *) [47; 112; 114; 111; 99; 47; 117; 110; 97; 109; 101];
    (* /proc/meminfo *) [47; 112; 114; 111; 99; 47; 109; 101; 109; 105; 110; 102; 111];
    (* /proc/self/status *) [47; 112; 114; 111; 99; 47; 115; 101; 108; 102; 47; 115; 116; 97; 116; 117; 115];
    (* /proc/ps *) [47; 112; 114; 111; 99; 47; 112; 115];
    (* /proc/syscalls *) [47; 112; 114; 111; 99; 47; 115; 121; 115; 99; 97; 108; 108; 115];
    (* /proc/mounts *) [47; 112; 114; 111; 99; 47; 109; 111; 117; 110; 116; 115] ].
Definition procfs_count : nat := 7.
Definition procfs_path (index : nat) : option (list Z) := proc_paths !! index.
Definition procfs_lookup (path : list Z) : option nat :=
  find_from (fun i => match proc_paths !! i with Some p => str_eqb path p | None => false end) 0 procfs_count.

(** A registered initrd file: its path, address and size. *)
Record memfile := Memfile { mf_path : list Z; mf_data : Z; mf_size : Z }.

(** A block device as the path layer sees it. *)
Record disk := Disk { dk_name : list Z; dk_sectors : Z }.

Section Directories.
Context (disks : list disk) (memfiles : list memfile).
Implicit Types (path prefix dir : list Z) (i : nat).

Definition candidate_total : nat := length g_fixed + length disks + length memfiles + procfs_count.

Definition candidate_at i : option (list Z * Z) :=
  if (i <? length g_fixed)%nat then g_fixed !! i
  else
    let i := (i - length g_fixed)%nat in
    if (i <? length disks)%nat then
      d ← disks !! i;
      let n := length (dk_name d) in
      let n := if (BLK_NAME_MAX <=? n)%nat then (BLK_NAME_MAX - 1)%nat else n in
      Some (dev_prefix ++ take n (dk_name d), VNODE_BLOCK)
    else
      let i := (i - length disks)%nat in
      if (i <? length memfiles)%nat then
        f ← memfiles !! i; Some (mf_path f, VNODE_FILE)
      else
        let i := (i - length memfiles)%nat in
        p ← procfs_path i; Some (p, VNODE_FILE).

(** The prefix ["dir/"]; [None] when it does not fit. *)
Definition dir_prefix dir : option (list Z) :=
  let n := length dir in
  if (VFS_PREFIX_MAX <? n + 2)%nat then None
  else Some (if negb (Nat.eqb n 1) then dir ++ [SLASH] else dir).

(** The length of the first component below [prefix] and whether more follow. *)
Definition name_length (name : list Z) : nat :=
  match list_find (fun b => b = SLASH) name with Some (k, _) => k | None => length name end.

Definition child_of path prefix : option (nat * bool) :=
  if negb (strn_eqb path prefix (length prefix)) then None
  else
    let name := drop (length prefix) path in
    let length := name_length name in
    if Nat.eqb length 0 then None
    else Some (length, byte_at name length =? SLASH).

Definition candidate_child prefix i : option (list Z * nat * bool * Z) :=
  c ← candidate_at i; k ← child_of c.1 prefix; Some (c.1, k.1, k.2, c.2).

Definition is_directory path : bool :=
  if str_eqb path [SLASH] then true
  else
    let n := length path in
    if Nat.eqb n 0 || (byte_at path (n - 1) =? SLASH) then false
    else match dir_prefix path with
         | None => false
         | Some prefix => existsb (fun i => bool_decide (is_Some (candidate_child prefix i))) (seq 0 candidate_total)
         end.

(** The inner loop of [vfs_readdir]: is the same name found before [i]? *)
Definition duplicate_before prefix i (name : list Z) (length : nat) : bool :=
  existsb (fun j => match candidate_child prefix j with
                    | Some (other, other_length, _, _) =>
                        Nat.eqb other_length length &&
                        strn_eqb (drop (List.length prefix) other) name length
                    | None => false
                    end) (seq 0 i).

Record dirent := Dirent { d_name : list Z; d_type : Z; d_ino : Z; d_off : Z }.

Fixpoint readdir_loop prefix (index seen : Z) (cands : list nat) : option dirent :=
  match cands with
  | [] => None
  | i :: cands' =>
      match candidate_child prefix i with
      | None => readdir_loop prefix index seen cands'
      | Some (candidate, length, nested, type) =>
          if (DIRENT_NAME_SIZE <=? length)%nat then readdir_loop prefix index seen cands'
          else
            let name := drop (List.length prefix) candidate in
            if duplicate_before prefix i name length then readdir_loop prefix index seen cands'
            else if negb (seen =? index) then readdir_loop prefix index (seen + 1) cands'
            else Some (Dirent (take length name) (if nested then VNODE_DIR else type)
                         (u32 (Z.of_nat i + 1)) (u32 (index + 1)))
      end
  end.

(** [vfs_readdir] on a directory derived from known paths. *)
Definition readdir_derived dir (index : Z) : Z * option dirent :=
  if bool_decide (dir = []) then (- EINVAL, None)
  else match dir_prefix dir with
       | None => (- ENAMETOOLONG, None)
       | Some prefix =>
           match readdir_loop prefix index 0 (seq 0 candidate_total) with
           | Some e => (1, Some e)
           | None => (0, None)
           end
       end.
End Directories.

(** ** Opening *)

Inductive vnode (M : Type) :=
  | VnRoot | VnConsole | VnNull | VnZero
  | VnDisk (i : nat) | VnTmp (v : tmpfs_vnode) | VnProc (i : nat)
  | VnMem (i : nat) | VnDir (i : nat) | VnMounted (v : M).
Arguments VnRoot {M}.
Arguments VnConsole {M}.
Arguments VnNull {M}.
Arguments VnZero {M}.
Arguments VnDisk {M}.
Arguments VnTmp {M}.
Arguments VnProc {M}.
Arguments VnMem {M}.
Arguments VnDir {M}.
Arguments VnMounted {M}.

#[export] Instance tmpfs_vnode_eq_dec : EqDecision tmpfs_vnode.
Proof. solve_decision. Defined.
#[export] Instance vnode_eq_dec {M} `{EqDecision M} : EqDecision (vnode M).
Proof. solve_decision. Defined.

Section Open.
Context {F W M H : Type} `{EqDecision M} `{Krealloc H}.

(** [v_dirs] are the paths of the directory pool (an empty path is a free
    slot); [v_disk_size] the sizes of the disk vnodes already set up. *)
Record vfs := Vfs {
  v_mounts : list (option (vfs_mount F W M));
  v_world : W;
  v_disks : list disk;
  v_disk_size : list (option Z);
  v_memfiles : list memfile;
  v_dirs : list (list Z);
  v_tmp : tmpfs H;
  v_rc : vnode M -> Z
}.

Definition set_rc (v : vnode M) (n : Z) (s : vfs) : vfs :=
  Vfs (v_mounts s) (v_world s) (v_disks s) (v_disk_size s) (v_memfiles s) (v_dirs s) (v_tmp s)
      (fun v' => if decide (v' = v) then n else v_rc s v').
Definition set_tmp (t : tmpfs H) (s : vfs) : vfs :=
  Vfs (v_mounts s) (v_world s) (v_disks s) (v_disk_size s) (v_memfiles s) (v_dirs s) t (v_rc s).
Definition set_vworld (w : W) (s : vfs) : vfs :=
  Vfs (v_mounts s) w (v_disks s) (v_disk_size s) (v_memfiles s) (v_dirs s) (v_tmp s) (v_rc s).
Definition set_dirs (d : list (list Z)) (s : vfs) : vfs :=
  Vfs (v_mounts s) (v_world s) (v_disks s) (v_disk_size s) (v_memfiles s) d (v_tmp s) (v_rc s).
Definition set_disk_size (d : list (option Z)) (s : vfs) : vfs :=
  Vfs (v_mounts s) (v_world s) (v_disks s) d (v_memfiles s) (v_dirs s) (v_tmp s) (v_rc s).
Definition set_memfiles (f : list memfile) (s : vfs) : vfs :=
  Vfs (v_mounts s) (v_world s) (v_disks s) (v_disk_size s) f (v_dirs s) (v_tmp s) (v_rc s).

(** A disk vnode is zeroed when it is set up for the first time. *)
Definition disk_lookup (path : list Z) (s : vfs) : vfs * option nat :=
  if negb (strn_eqb path dev_prefix 5) || (byte_at path 5 =? 0) then (s, None)
  else match find_from (fun i => match v_disks s !! i with
                                 | Some d => str_eqb (dk_name d) (drop 5 path)
                                 | None => false
                                 end) 0 (length (v_disks s)) with
       | None => (s, None)
       | Some i =>
           let size := u64 (default 0 (dk_sectors <$> v_disks s !! i) * 512) in
           let s := match v_disk_size s !! i with
                    | Some (Some _) => s
                    | _ => set_rc (VnDisk i) 0 s
                    end in
           (set_disk_size (<[i := Some size]> (v_disk_size s)) s, Some i)
       end.

Definition dir_vnode (path : list Z) (s : vfs) : vfs * (nat + Z) :=
  if (VNODE_PATH_SIZE <=? length path)%nat then (s, inr (- ENAMETOOLONG))
  else match find_from (fun i => match v_dirs s !! i with
                                 | Some p => negb (byte_at p 0 =? 0) && str_eqb p path
                                 | None => false
                                 end) 0 VFS_MAX_DIRS with
       | Some i => (s, inl i)
       | None =>
           match find_from (fun i => match v_dirs s !! i with
                                     | Some p => byte_at p 0 =? 0
                                     | None => false
                                     end) 0 VFS_MAX_DIRS with
           | Some i => (set_rc (VnDir i) 1 (set_dirs (<[i := path]> (v_dirs s)) s), inl i)
           | None => (s, inr (- ENOSPC))
           end
       end.

(** [ops->open] of a vnode that is not on a mounted file system. *)
Definition vnode_open (v : vnode M) (flags : Z) (s : vfs) : vfs * Z :=
  match v with
  | VnRoot | VnDir _ | VnTmp TmpDir => (s, if flags .& O_ACCMODE =? 0 then 0 else - EISDIR)
  | VnProc _ => (s, if flags .& O_ACCMODE =? 0 then 0 else - EACCES)
  | VnTmp (TmpFile i) => let '(t, r) := file_open i flags (v_tmp s) in (set_tmp t s, r)
  | _ => (s, 0)
  end.

Definition memfile_find (path : list Z) (files : list memfile) : option nat :=
  find_from (fun i => match files !! i with Some f => str_eqb path (mf_path f) | None => false end)
            0 (length files).

(** The chain of tests of [vfs_open_err] up to the directory fallback:
    [inl None] is a path none of them knows. *)
Definition lookup_vnode (path : list Z) (flags : Z) (s : vfs) : vfs * (option (vnode M) + Z) :=
  if str_eqb path [SLASH] then (s, inl (Some VnRoot))
  else if str_eqb path dev_console || str_eqb path dev_tty then (s, inl (Some VnConsole))
  else if str_eqb path dev_null then (s, inl (Some VnNull))
  else if str_eqb path dev_zero then (s, inl (Some VnZero))
  else match disk_lookup path s with
       | (s, Some i) => (s, inl (Some (VnDisk i)))
       | (s, None) =>
           if tmpfs_owns path then
             match tmpfs_lookup path flags (v_tmp s) with
             | (t, inl v) => (set_tmp t s, inl (Some (VnTmp v)))
             | (t, inr e) => (set_tmp t s, inr e)
             end
           else match procfs_lookup path with
                | Some i => (s, inl (Some (VnProc i)))
                | None => (s, inl (VnMem <$> memfile_find path (v_memfiles s)))
                end
       end.

(** The directory fallback. *)
Definition lookup_or_dir (path : list Z) (flags : Z) (s : vfs) : vfs * (vnode M + Z) :=
  match lookup_vnode path flags s with
  | (s, inr e) => (s, inr e)
  | (s, inl (Some v)) => (s, inl v)
  | (s, inl None) =>
      if is_directory (v_disks s) (v_memfiles s) path then
        match dir_vnode path s with
        | (s, inl i) => (s, inl (VnDir i))
        | (s, inr e) => (s, inr e)
        end
      else (s, inr (- ENOENT))
  end.

Definition vfs_open_err (opath : option (list Z)) (flags : Z) (s : vfs) : vfs * (vnode M + Z) :=
  match opath with
  | None => (s, inr (- ENOENT))
  | Some path =>
      match mount_find (Some path) (v_mounts s) with
      | Some (i, rel) =>
          match v_mounts s !! i with
          | Some (Some m) =>
              match op_open (mt_ops m) with
              | None => (s, inr (- ENOTSUP))
              | Some f =>
                  match f (mt_fs m) rel flags (v_world s) with
                  | (w, inl v) => (set_vworld w s, inl (VnMounted v))
                  | (w, inr err) => (set_vworld w s, inr (if err <? 0 then err else - ENOENT))
                  end
              end
          | _ => (s, inr (- ENOENT))
          end
      | None =>
          match lookup_or_dir path flags s with
          | (s, inr e) => (s, inr e)
          | (s, inl v) =>
              let '(s, result) := vnode_open v flags s in
              if result <? 0 then (s, inr result)
              else (set_rc v (v_rc s v + 1) s, inl v)
          end
      end
  end.

Definition vfs_unlink (opath : option (list Z)) (s : vfs) : vfs * Z :=
  match opath with
  | None => (s, - EINVAL)
  | Some path =>
      match mount_find (Some path) (v_mounts s) with
      | Some (i, rel) =>
          let '((_, w), r) := dispatch op_unlink i rel (v_mounts s, v_world s) in (set_vworld w s, r)
      | None =>
          if tmpfs_owns path then let '(t, r) := tmpfs_unlink path (v_tmp s) in (set_tmp t s, r)
          else (s, - EROFS)
      end
  end.

(** [data] is the address of the file, 0 for NULL. *)
Definition vfs_register_memfile (opath : option (list Z)) (data size : Z) (s : vfs) : vfs * Z :=
  match opath with
  | None => (s, - EINVAL)
  | Some path =>
      if negb (byte_at path 0 =? SLASH) || (data =? 0) || (size =? 0) then (s, - EINVAL)
      else if (VNODE_PATH_SIZE <=? length path)%nat then (s, - ENAMETOOLONG)
      else match memfile_find path (v_memfiles s) with
           | Some _ => (s, - EEXIST)
           | None =>
               if (VFS_MAX_MEMFILES <=? length (v_memfiles s))%nat then (s, - ENOSPC)
               else (set_rc (VnMem (length (v_memfiles s))) 1
                       (set_memfiles (v_memfiles s ++ [Memfile path data size]) s), 0)
           end
  end.

Definition vfs_read_file (path : list Z) (s : vfs) : option (Z * Z) :=
  i ← memfile_find path (v_memfiles s); f ← v_memfiles s !! i; Some (mf_data f, mf_size f).

(** [vfs_close] of a vnode of this layer. *)
Definition vfs_close (v : vnode M) (s : vfs) : vfs * Z :=
  (if negb (v_rc s v =? 0) then set_rc v (v_rc s v - 1) s else s, 0).

Definition vfs_release (v : vnode M) (s : vfs) : vfs :=
  let '(s, _) := vfs_close v s in
  match v with
  | VnTmp (TmpFile i) => set_tmp (file_release i (v_tmp s)) s
  | _ => s
  end.
End Open.
Arguments vfs : clear implicits.

(** [memfile_read] of a file stored at [mf_data] in memory. *)
Definition memfile_read (m : memory) (f : memfile) (buffer_ok : bool) (count offset : Z) : Z * list Z :=
  if negb buffer_ok || (offset <? 0) then (- EFAULT, [])
  else if mf_size f <=? offset then (0, [])
  else
    let available := mf_size f - offset in
    let count := if available <? count then available else count in
    (s32 count, bytes_at m (mf_data f + offset) (Z.to_nat count)).

(** ** Longest prefix *)
Section Prefix.
Implicit Types (p q : list (list Z)) (path : list Z).

Lemma names_parts p : Forall is_name p -> Forall is_part p.
Proof. intros H. eapply Forall_impl; [exact H|]. by intros ? [? _]. Qed.

Lemma flat_app_list p q : flat (p ++ q) = flat p ++ flat q.
Proof. unfold flat. by rewrite fmap_app, concat_app. Qed.

Lemma flat_nonzero p : Forall is_part p -> Forall (fun b => b <> 0) (flat p).
Proof.
  induction p as [|c p IH]; intros H; [constructor|]. inversion_clear H as [|? ? [_ Hc] Hp].
  change (flat (c :: p)) with (SLASH :: c ++ flat p). constructor; [done|]. apply Forall_app. split; [|by apply IH].
  eapply Forall_impl; [exact Hc|]. by intros ? [_ ?].
Qed.

Lemma render_nonzero p : Forall is_part p -> Forall (fun b => b <> 0) (render p).
Proof. destruct p; [by constructor|]. apply flat_nonzero. Qed.

(** Byte [i] of a string without NULs is NUL only at its end. *)
Lemma byte_at_zero path (i : nat) : Forall (fun b => b <> 0) path -> byte_at path i = 0 <-> (length path <= i)%nat.
Proof.
  intros Hnz. unfold byte_at. split.
  - intros H. destruct (path !! i) as [b|] eqn:E; [|by apply lookup_ge_None].
    simpl in H. rewrite Forall_lookup in Hnz. by destruct (Hnz i b E).
  - intros H. by rewrite lookup_ge_None_2.
Qed.

Lemma mount_matches_prefix p q :
  Forall is_name p -> Forall is_name q -> q <> [] ->
  mount_matches (render p) (render q) = true <-> q `prefix_of` p.
Proof.
  intros Hp Hq Hne. unfold mount_matches. rewrite (render_flat q) by done.
  pose proof (flat_length_pos q Hne Hq) as Hlen. split.
  - intros [H1 H2]%andb_prop. unfold strn_eqb in H1. apply bool_decide_eq_true_1 in H1.
    rewrite (take_ge (flat q)) in H1 by lia.
    assert (Hpf : p <> []).
    { intros ->. apply (f_equal length) in H1. rewrite length_take in H1. simpl in H1. lia. }
    rewrite render_flat in * by done. set (t := drop (length (flat q)) (flat p)).
    assert (E : flat p = flat q ++ t) by (rewrite <- H1 at 1; unfold t; by rewrite take_drop).
    assert (Ht : t = [] \/ exists t', t = SLASH :: t').
    { assert (Eb : byte_at (flat p) (length (flat q)) = default 0 (t !! 0%nat)).
      { unfold byte_at. rewrite E, lookup_app_r, Nat.sub_diag by lia. done. }
      pose proof (flat_nonzero p (names_parts _ Hp)) as Hnz. rewrite E, Forall_app in Hnz. destruct Hnz as [_ Hnz].
      rewrite Eb in H2. destruct t as [|b t']; [by left|]. right. simpl in H2. inversion_clear Hnz.
      exists t'. f_equal. destruct (Z.eqb_spec b 0); [done|]. by apply Z.eqb_eq in H2. }
    pose proof (components_flat p (names_parts _ Hp)) as Cp. pose proof (components_flat q (names_parts _ Hq)) as Cq.
    rewrite E in Cp. destruct Ht as [Ht|[t' Ht]]; rewrite Ht in Cp.
    + rewrite app_nil_r in Cp. exists []. by rewrite app_nil_r, <- Cp, Cq.
    + rewrite components_snoc_slash, Cq in Cp. by exists (components t').
  - intros [r ->]. rewrite render_flat by (by destruct q). rewrite flat_app_list. apply andb_true_intro. split.
    + unfold strn_eqb. rewrite take_app_length, take_ge by lia. by rewrite bool_decide_eq_true_2.
    + unfold byte_at. rewrite lookup_app_r, Nat.sub_diag by lia. by destruct r.
Qed.

(** The rest of the path inside the file system. *)
Lemma mount_rest p q :
  Forall is_name p -> q <> [] -> q `prefix_of` p ->
  (if negb (byte_at (render p) (length (render q)) =? 0) then drop (length (render q)) (render p) else [SLASH])
  = render (drop (length q) p).
Proof.
  intros Hp Hne [r ->]. rewrite drop_app_length. rewrite !render_flat by (by destruct q).
  rewrite flat_app_list, drop_app_length. unfold byte_at. rewrite lookup_app_r, Nat.sub_diag by lia.
  by destruct r.
Qed.

(** Longer prefixes of the same path have more components. *)
Lemma prefix_components p q q' :
  q `prefix_of` p -> q' `prefix_of` p -> Forall is_name p -> q <> [] -> q' <> [] ->
  (length (render q) <= length (render q'))%nat -> (length q <= length q')%nat.
Proof.
  intros H1 H2 Hp Hn1 Hn2 Hl. rewrite !render_flat in Hl by done.
  destruct (decide (length q <= length q')%nat) as [|Hgt]; [done|].
  assert (q' `prefix_of` q) as [r ->].
  { destruct (prefix_weak_total q' q p H2 H1) as [Hx|Hx]; [done|]. apply prefix_length in Hx. lia. }
  rewrite flat_app_list, !length_app in *. destruct r as [|c r]; simpl in *; lia.
Qed.
End Prefix.

Section MountTable.
Context {F W M : Type}.
Implicit Types (g : list (option (vfs_mount F W M))) (path : list Z) (p q : list (list Z)).

(** Every slot in use holds a normalised path other than the root, and no two
    slots the same path. *)
Record mount_wf g : Prop := {
  mw_len : length g = VFS_MAX_MOUNTS;
  mw_path : forall i m, g !! i = Some (Some m) -> exists q, mt_path m = render q /\ q <> [] /\ Forall is_name q;
  mw_unique : forall i j m m', g !! i = Some (Some m) -> g !! j = Some (Some m') -> mt_path m = mt_path m' -> i = j
}.

Lemma mount_scan_spec path k g best bl :
  let '(b, l) := mount_scan path k g best bl in
  (bl <= l)%nat /\
  (forall j m, g !! j = Some (Some m) -> mount_matches path (mt_path m) = true -> (length (mt_path m) <= l)%nat) /\
  ((b = best /\ l = bl) \/
   exists j m, b = Some (k + j)%nat /\ g !! j = Some (Some m) /\ mount_matches path (mt_path m) = true /\
     l = length (mt_path m)).
Proof.
  revert k best bl. induction g as [|slot g IH]; intros k best bl; simpl; [split_and!; [done..|by left]|].
  assert (Hskip : forall b l, 
    (bl <= l)%nat /\ (forall j m, g !! j = Some (Some m) -> mount_matches path (mt_path m) = true -> (length (mt_path m) <= l)%nat) /\
    ((b = best /\ l = bl) \/ exists j m, b = Some (S k + j)%nat /\ g !! j = Some (Some m) /\
       mount_matches path (mt_path m) = true /\ l = length (mt_path m)) ->
    (forall m, slot = Some m -> mount_matches path (mt_path m) = true -> (length (mt_path m) <= bl)%nat) ->
    (bl <= l)%nat /\ (forall j m, (slot :: g) !! j = Some (Some m) -> mount_matches path (mt_path m) = true -> (length (mt_path m) <= l)%nat) /\
    ((b = best /\ l = bl) \/ exists j m, b = Some (k + j)%nat /\ (slot :: g) !! j = Some (Some m) /\
       mount_matches path (mt_path m) = true /\ l = length (mt_path m))).
  { intros b l (H1 & H2 & H3) Hs. split_and!; [done| |].
    - intros [|j] m Hj Hm; simpl in Hj; [|by apply (H2 j)]. simplify_eq. specialize (Hs m eq_refl Hm). lia.
    - destruct H3 as [H3|(j & m & -> & Hj & Hm & Hl)]; [by left|right]. exists (S j), m. split_and!; [f_equal; lia|done..]. }
  destruct slot as [m|].
  - destruct (mount_matches path (mt_path m)) eqn:Em; simpl.
    + destruct (Nat.ltb_spec bl (length (mt_path m))) as [Hlt|Hge].
      * specialize (IH (S k) (Some k) (length (mt_path m))). destruct (mount_scan _ _ g _ _) as [b l].
        destruct IH as (H1 & H2 & H3). split_and!; [lia| |].
        -- intros [|j] m' Hj Hm; simpl in Hj; [simplify_eq; lia|by apply (H2 j)].
        -- right. destruct H3 as [[-> ->]|(j & m' & -> & Hj & Hm & Hl)].
           ++ exists 0%nat, m. split_and!; [f_equal; lia|done..].
           ++ exists (S j), m'. split_and!; [f_equal; lia|done..].
      * specialize (IH (S k) best bl). destruct (mount_scan _ _ g _ _) as [b l]. apply Hskip; [done|].
        intros m' [= <-] _. lia.
    + specialize (IH (S k) best bl). destruct (mount_scan _ _ g _ _) as [b l]. apply Hskip; [done|].
      intros m' [= <-]. congruence.
  - specialize (IH (S k) best bl). destruct (mount_scan _ _ g _ _) as [b l]. by apply Hskip.
Qed.

Lemma mount_find_spec p g :
  mount_wf g -> Forall is_name p ->
  match mount_find (Some (render p)) g with
  | Some (i, rel) => exists m q, g !! i = Some (Some m) /\ mt_path m = render q /\ q `prefix_of` p /\
      rel = render (drop (length q) p) /\
      (forall j m' q', g !! j = Some (Some m') -> mt_path m' = render q' -> q' <> [] -> Forall is_name q' ->
         q' `prefix_of` p -> (length q' <= length q)%nat)
  | None => forall j m q, g !! j = Some (Some m) -> mt_path m = render q -> q <> [] -> Forall is_name q ->
      ~ q `prefix_of` p
  end.
Proof.
  intros Hwf Hp. unfold mount_find. pose proof (mount_scan_spec (render p) 0 g None 0) as Hs.
  destruct (mount_scan (render p) 0 g None 0) as [b l]. destruct Hs as (_ & Hmax & Hb).
  destruct Hb as [[-> ->]|(j & m & -> & Hj & Hm & ->)].
  - intros j m q Hj Hpath Hne Hq Hpre. specialize (Hmax j m Hj). rewrite Hpath in Hmax.
    pose proof (flat_length_pos q Hne Hq). rewrite (render_flat q) in Hmax by done.
    rewrite <- (render_flat q) in Hmax by done. specialize (Hmax (proj2 (mount_matches_prefix p q Hp Hq Hne) Hpre)).
    rewrite render_flat in Hmax by done. lia.
  - destruct (mw_path _ Hwf j m Hj) as (q & Eq & Hne & Hq). rewrite Eq in *. simpl.
    apply mount_matches_prefix in Hm; [|done..]. exists m, q. split_and!; [done|done|done|by apply mount_rest|].
    intros j' m' q' Hj' Hpath' Hne' Hq' Hpre. eapply (prefix_components p); [done..|].
    specialize (Hmax j' m' Hj'). rewrite Hpath' in Hmax. apply Hmax. by apply mount_matches_prefix.
Qed.

Lemma mount_wf_insert g i (slot : option (vfs_mount F W M)) :
  mount_wf g ->
  match slot with
  | Some m => (exists q, mt_path m = render q /\ q <> [] /\ Forall is_name q) /\
              (forall j m', j <> i -> g !! j = Some (Some m') -> mt_path m' <> mt_path m)
  | None => True
  end -> mount_wf (<[i := slot]> g).
Proof.
  intros Hwf Hs. split.
  - rewrite length_insert. apply Hwf.
  - intros j m Hj. destruct (decide (j = i)) as [->|].
    + apply list_lookup_insert_Some in Hj as [(_ & -> & _)|[? _]]; [apply Hs|done].
    + rewrite list_lookup_insert_ne in Hj by done. by apply (mw_path _ Hwf j).
  - intros j k m m' Hj Hk E.
    destruct (decide (j = i)) as [->|Hji], (decide (k = i)) as [->|Hki]; [done| | |].
    + rewrite list_lookup_insert_ne in Hk by done. apply list_lookup_insert_Some in Hj as [(_ & -> & _)|[? _]]; [|done].
      destruct Hs as [_ Hs]. by destruct (Hs k m' Hki Hk).
    + rewrite list_lookup_insert_ne in Hj by done. apply list_lookup_insert_Some in Hk as [(_ & -> & _)|[? _]]; [|done].
      destruct Hs as [_ Hs]. by destruct (Hs j m Hji Hj).
    + rewrite list_lookup_insert_ne in Hj, Hk by done. by eapply (mw_unique _ Hwf).
Qed.

Lemma mounted_at_spec g path : mounted_at g path = true <-> exists i m, g !! i = Some (Some m) /\ mt_path m = path.
Proof.
  unfold mounted_at. rewrite existsb_exists. split.
  - intros (slot & Hin & Hs). destruct slot as [m|]; [|done]. apply list_elem_of_In, list_elem_of_lookup in Hin as [i Hi].
    exists i, m. unfold str_eqb in Hs. by apply bool_decide_eq_true_1 in Hs.
  - intros (i & m & Hi & <-). exists (Some m). split; [apply list_elem_of_In; by eapply list_elem_of_lookup_2|].
    unfold str_eqb. by apply bool_decide_eq_true_2.
Qed.

Lemma first_free_spec g i : first_free g = Some i -> g !! i = Some None.
Proof.
  unfold first_free. intros (_ & Hp & _)%find_from_Some. by destruct (g !! i) as [[m|]|].
Qed.
End MountTable.

(** ** Listing a directory *)
Section Listing.

Lemma omap_cons {A B} (f : A -> option B) x l :
  omap f (x :: l) = match f x with Some y => y :: omap f l | None => omap f l end.
Proof. done. Qed.

Context (disks : list disk) (memfiles : list memfile).
Implicit Types (path prefix name : list Z) (i : nat).
Abbreviation child := (candidate_child disks memfiles).
Abbreviation dup := (duplicate_before disks memfiles).

(** The name of the child that candidate [i] shows below [prefix]. *)
Definition child_name prefix i : option (list Z) :=
  k ← child prefix i; let '(cand, n, _, _) := k in Some (take n (drop (length prefix) cand)).

(** Candidate [i] is listed: its name fits and no earlier candidate has it. *)
Definition listed prefix i : option (nat * list Z * Z) :=
  match child prefix i with
  | Some (cand, n, nested, type) =>
      let name := drop (length prefix) cand in
      if (DIRENT_NAME_SIZE <=? n)%nat || dup prefix i name n then None
      else Some (i, take n name, if nested then VNODE_DIR else type)
  | None => None
  end.

Definition mk_dirent (index : Z) (e : nat * list Z * Z) : dirent :=
  Dirent e.1.2 e.2 (u32 (Z.of_nat e.1.1 + 1)) (u32 (index + 1)).

Lemma readdir_loop_spec prefix index seen cands :
  seen <= index ->
  readdir_loop disks memfiles prefix index seen cands =
    mk_dirent index <$> (omap (listed prefix) cands) !! Z.to_nat (index - seen).
Proof.
  revert seen. induction cands as [|i cands IH]; intros seen Hs; [done|].
  cbn [readdir_loop]. rewrite omap_cons. unfold listed at 1.
  destruct (child prefix i) as [[[[cand n] nested] type]|]; [|by apply IH].
  destruct (DIRENT_NAME_SIZE <=? n)%nat; simpl orb; cbv iota; [by apply IH|].
  destruct (dup prefix i (drop (length prefix) cand) n); [by apply IH|].
  destruct (Z.eqb_spec seen index) as [->|Hne]; simpl negb; cbv iota.
  - rewrite Z.sub_diag. done.
  - rewrite IH by lia. replace (Z.to_nat (index - seen)) with (S (Z.to_nat (index - (seen + 1)))) by lia. done.
Qed.

Lemma name_length_spec name : exists rest,
  name = take (name_length name) name ++ rest /\ at_break rest /\
  Forall (fun b => b <> SLASH) (take (name_length name) name) /\ (name_length name <= length name)%nat /\
  rest = drop (name_length name) name.
Proof.
  exists (drop (name_length name) name). rewrite take_drop. split; [done|]. unfold name_length.
  destruct (list_find (fun b => b = SLASH) name) as [[k b]|] eqn:E.
  - apply list_find_Some in E as (Hk & -> & Hno). pose proof (lookup_lt_Some _ _ _ Hk). split_and!; [|clear H|lia|done].
    + rewrite (drop_S _ _ _ Hk). done.
    + apply Forall_forall. intros b Hb. apply list_elem_of_lookup in Hb as [j Hj].
      apply lookup_take_Some in Hj as [Hj Hlt]. eapply Hno; [exact Hj|lia].
  - apply list_find_None in E. split_and!; [by rewrite drop_all|by rewrite take_ge|done|done].
Qed.

(** A child is the first component of a known path that continues the prefix. *)
Lemma child_name_spec prefix i name :
  child_name prefix i = Some name <->
  exists cand type rest, candidate_at disks memfiles i = Some (cand, type) /\
    cand = prefix ++ name ++ rest /\ at_break rest /\ name <> [] /\ Forall (fun b => b <> SLASH) name.
Proof.
  unfold child_name, candidate_child. destruct (candidate_at disks memfiles i) as [[cand type]|]; simpl.
  2: { split; [done|]. by intros (?&?&?&?&_). }
  unfold child_of. split.
  - unfold strn_eqb. case_bool_decide as Hpre; simpl; [|done].
    rewrite (take_ge prefix) in Hpre by lia. destruct (name_length_spec (drop (length prefix) cand)) as (rest & E & Hr & Hn & Hl & _).
    destruct (Nat.eqb_spec (name_length (drop (length prefix) cand)) 0) as [|Hnz]; simpl; [done|].
    intros [= <-]. exists cand, type, rest. split_and!; [done| |done| |done].
    + rewrite <- E, <- Hpre at 1. by rewrite take_drop.
    + intros En. apply (f_equal length) in En. rewrite length_take in En. simpl in En. lia.
  - intros (cand' & type' & rest & [= <- <-] & -> & Hr & Hne & Hns). unfold strn_eqb.
    rewrite take_app_length, (take_ge prefix), bool_decide_eq_true_2 by done. simpl.
    rewrite drop_app_length. assert (Hnl : name_length (name ++ rest) = length name).
    { unfold name_length. destruct (list_find (fun b => b = SLASH) (name ++ rest)) as [[k b]|] eqn:E.
      - apply list_find_Some in E as (Hk & -> & Hno). rewrite Forall_lookup in Hns.
        destruct (decide (k < length name)%nat) as [Hlt|Hge].
        + rewrite lookup_app_l in Hk by done. by destruct (Hns k SLASH Hk).
        + destruct rest as [|b rest]; [rewrite app_nil_r in Hk; apply lookup_lt_Some in Hk; lia|]. simpl in Hr. subst b.
          destruct (decide (k = length name)) as [|Hk']; [done|]. exfalso. eapply (Hno (length name) SLASH); [|lia|done].
          by rewrite lookup_app_r, Nat.sub_diag by lia.
      - apply list_find_None in E. destruct rest as [|b rest]; [by rewrite app_nil_r|]. simpl in Hr. subst b.
        apply Forall_app in E as [_ E]. by inversion E. }
    rewrite Hnl. destruct (Nat.eqb_spec (length name) 0) as [E0|]; [by destruct name|]. simpl. by rewrite ?drop_app_length, take_app_length.
Qed.

Lemma dup_spec prefix i cand n nested type :
  child prefix i = Some (cand, n, nested, type) ->
  dup prefix i (drop (length prefix) cand) n = true <->
  exists j, (j < i)%nat /\ child_name prefix j = child_name prefix i.
Proof.
  assert (Hlen : forall j cand n nested type, child prefix j = Some (cand, n, nested, type) ->
    (n <= length (drop (length prefix) cand))%nat).
  { intros j cand' n' nested' type'. unfold candidate_child. destruct (candidate_at disks memfiles j) as [[c t]|]; simpl; [|done].
    unfold child_of. destruct (strn_eqb _ _ _); simpl; [|done]. destruct (Nat.eqb _ _); simpl; [done|].
    intros [= <- <- _ _]. by destruct (name_length_spec (drop (length prefix) c)) as (_ & _ & _ & _ & ? & _). }
  intros Hi. unfold duplicate_before. rewrite existsb_exists. unfold child_name at 2. rewrite Hi. simpl.
  pose proof (Hlen _ _ _ _ _ Hi) as Hn. split.
  - intros (j & Hj & Hd). apply in_seq in Hj. exists j. split; [lia|]. unfold child_name.
    destruct (child prefix j) as [[[[c m] ne] ty]|]; [|done]. apply andb_prop in Hd as [E1 E2].
    apply Nat.eqb_eq in E1. subst m. unfold strn_eqb in E2. apply bool_decide_eq_true_1 in E2. simpl. by rewrite E2.
  - intros (j & Hj & E). exists j. split; [apply in_seq; lia|]. unfold child_name in E.
    destruct (child prefix j) as [[[[c m] ne] ty]|] eqn:Ej; [|done]. simpl in E. injection E as E.
    pose proof (Hlen _ _ _ _ _ Ej) as Hm.
    assert (m = n) as ->. { apply (f_equal length) in E. rewrite !length_take in E. lia. }
    rewrite Nat.eqb_refl. unfold strn_eqb. by rewrite bool_decide_eq_true_2.
Qed.

Lemma listed_spec prefix i j name type :
  listed prefix i = Some (j, name, type) <->
  j = i /\ child_name prefix i = Some name /\ (length name < DIRENT_NAME_SIZE)%nat /\
  (forall k, (k < i)%nat -> child_name prefix k <> Some name) /\
  (exists cand n nested ty, child prefix i = Some (cand, n, nested, ty) /\ type = if nested then VNODE_DIR else ty).
Proof.
  unfold listed. destruct (child prefix i) as [[[[cand n] nested] ty]|] eqn:E.
  2: { unfold child_name. rewrite E. simpl. split; [done|]. by intros (_ & ? & _). }
  assert (En : child_name prefix i = Some (take n (drop (length prefix) cand))) by (unfold child_name; by rewrite E).
  assert (Hl : length (take n (drop (length prefix) cand)) = n).
  { pose proof E as E'. unfold candidate_child in E'. destruct (candidate_at disks memfiles i) as [[c t]|]; simpl in E'; [|done].
    unfold child_of in E'. destruct (strn_eqb _ _ _); simpl in E'; [|done]. destruct (Nat.eqb _ _); simpl in E'; [done|].
    injection E' as -> <- _ _. destruct (name_length_spec (drop (length prefix) cand)) as (_ & _ & _ & _ & ? & _).
    rewrite length_take. lia. }
  pose proof (dup_spec prefix i cand n nested ty E) as Hd.
  destruct (Nat.leb_spec DIRENT_NAME_SIZE n) as [Hge|Hlt]; simpl.
  { split; [done|]. rewrite En. intros (_ & [= <-] & Hx & _). lia. }
  destruct (dup prefix i (drop (length prefix) cand) n) eqn:Edup.
  - split; [done|]. intros (_ & Hn & _ & Hno & _). destruct (proj1 Hd eq_refl) as (k & Hk & Ek).
    rewrite Hn in Ek. by destruct (Hno k Hk).
  - rewrite En. split.
    + intros [= -> <- <-]. split_and!; [done|done|lia| |by eexists _, _, _, _].
      intros k Hk Ek. assert (false = true) by (apply Hd; exists k; by rewrite En). done.
    + intros (-> & [= ->] & _ & _ & (c' & n' & ne' & ty' & [= <- <- <- <-] & ->)). done.
Qed.

(** Every name appears once. *)
Lemma listed_NoDup prefix l :
  (forall i j, (i < j < length l)%nat -> (l !!! i < l !!! j)%nat) -> NoDup ((fun e => e.1.2) <$> omap (listed prefix) l).
Proof.
  induction l as [|i l IH]; intros Hsort; [constructor|]. rewrite omap_cons.
  assert (IH' := IH ltac:(intros a b Hab; apply (Hsort (S a) (S b)); simpl; lia)). clear IH.
  destruct (listed prefix i) as [[[j name] type]|] eqn:E; [|exact IH']. cbn [fmap list_fmap]. apply NoDup_cons. split; [|exact IH'].
  intros Hin. apply list_elem_of_fmap in Hin as ([[j' name'] type'] & Hname & Hin). simpl in Hname. subst name'.
  apply list_elem_of_omap in Hin as (i' & Hin & E'). apply listed_spec in E as (-> & En & _ & _ & _), E' as (-> & En' & _ & Hno & _).
  apply list_elem_of_lookup in Hin as [k Hk]. eapply (Hno i); [|exact En].
  specialize (Hsort 0%nat (S k)). simpl in Hsort. rewrite (list_lookup_total_correct _ _ _ Hk) in Hsort.
  apply Hsort. apply lookup_lt_Some in Hk. lia.
Qed.

Lemma listed_complete prefix total name :
  name ∈ ((fun e => e.1.2) <$> omap (listed prefix) (seq 0 total)) <->
  (length name < DIRENT_NAME_SIZE)%nat /\ exists i, (i < total)%nat /\ child_name prefix i = Some name.
Proof.
  rewrite list_elem_of_fmap. split.
  - intros ([[j n] ty] & -> & Hin). apply list_elem_of_omap in Hin as (i & Hi & E). apply elem_of_seq in Hi.
    apply listed_spec in E as (-> & En & Hl & _). simpl. split; [done|]. exists i. split; [lia|done].
  - intros (Hl & i & Hi & Hn).
    assert (Hfirst : exists k, (k <= i)%nat /\ child_name prefix k = Some name /\ forall j, (j < k)%nat -> child_name prefix j <> Some name).
    { clear Hi Hl. induction i as [i IH] using lt_wf_ind.
      destruct (find_from (fun j => bool_decide (child_name prefix j = Some name)) 0 i) as [j|] eqn:Ef.
      - apply find_from_Some in Ef as (Hb & Hp & _). apply bool_decide_eq_true_1 in Hp.
        destruct (IH j ltac:(lia) Hp) as (k & ? & ? & ?). exists k. split_and!; [lia|done|done].
      - exists i. split_and!; [lia|done|]. intros j Hj. specialize (proj1 (find_from_None _ _ _) Ef j ltac:(lia)) as Hx.
        by apply bool_decide_eq_false_1 in Hx. }
    destruct Hfirst as (k & Hk & Hkn & Hno).
    destruct (child prefix k) as [[[[cand n] nested] ty]|] eqn:Ec; [|unfold child_name in Hkn; by rewrite Ec in Hkn].
    exists (k, name, if nested then VNODE_DIR else ty). split; [done|]. apply list_elem_of_omap. exists k.
    split; [apply elem_of_seq; lia|]. apply listed_spec. split_and!; [done..|]. by eexists _, _, _, _.
Qed.
End Listing.

(** ** Properties *)

(** [mount_find] on a normalised path returns the mounted file system
    whose mount point is the longest component-wise prefix of the path, with
    the remaining components as the path inside it (["/"] for the mount point
    itself), and NULL exactly when no mount point is such a prefix; a mount
    point that is only a prefix of the bytes does not match. *)
Theorem mount_find_longest {F W M : Type} (g : list (option (vfs_mount F W M))) (p : list (list Z)) :
  mount_wf g -> Forall is_name p ->
  match mount_find (Some (render p)) g with
  | Some (i, rel) => exists m q, g !! i = Some (Some m) /\ mt_path m = render q /\ q `prefix_of` p /\
      rel = render (drop (length q) p) /\
      (forall j m' q', g !! j = Some (Some m') -> mt_path m' = render q' -> q' <> [] -> Forall is_name q' ->
         q' `prefix_of` p -> (length q' <= length q)%nat)
  | None => forall j m q, g !! j = Some (Some m) -> mt_path m = render q -> q <> [] -> Forall is_name q ->
      ~ q `prefix_of` p
  end.
Proof. apply mount_find_spec. Qed.

(** /mnt and /mnt/usb are mounted. *)
Definition demo_ops : vfs_fsops unit unit unit := FsOps _ _ _ None None None None None None None.
Definition demo_mnt : list (list Z) := [[109; 110; 116]].
Definition demo_usb : list (list Z) := [[109; 110; 116]; [117; 115; 98]].
Definition demo_mounts : list (option (vfs_mount unit unit unit)) :=
  [Some (Mount (render demo_mnt) demo_ops tt); Some (Mount (render demo_usb) demo_ops tt);
   None; None; None; None; None; None].

Lemma is_name_dec (c : list Z) :
  c <> [] -> forallb (fun b => negb (b =? SLASH) && negb (b =? 0)) c = true -> c <> [DOT] -> c <> [DOT; DOT] -> is_name c.
Proof.
  intros H1 H2 H3 H4. split_and!; [split|..]; try done. rewrite forallb_forall in H2. apply Forall_forall.
  intros b Hb. specialize (H2 b (proj1 (list_elem_of_In _ _) Hb)). lia.
Qed.

Lemma demo_names : Forall is_name demo_usb /\ Forall is_name demo_mnt /\ Forall is_name (demo_usb ++ [[97]]).
Proof. split_and!; repeat (apply Forall_cons; split); try apply Forall_nil_2; by apply is_name_dec. Qed.

Lemma demo_mounts_lookup i m :
  demo_mounts !! i = Some (Some m) ->
  (i = 0%nat /\ mt_path m = render demo_mnt) \/ (i = 1%nat /\ mt_path m = render demo_usb).
Proof.
  do 8 (destruct i as [|i]; [first [by intros [= <-]; auto|done]|]). done.
Qed.

Lemma demo_mounts_wf : mount_wf demo_mounts.
Proof.
  destruct demo_names as (Hu & Hm & _). split; [done| |].
  - intros i m [[-> ->]|[-> ->]]%demo_mounts_lookup; [by exists demo_mnt|by exists demo_usb].
  - intros i j m m' [[-> Ei]|[-> Ei]]%demo_mounts_lookup [[-> Ej]|[-> Ej]]%demo_mounts_lookup E;
      rewrite Ei, Ej in E; done.
Qed.

Lemma mount_find_longest_witness :
  mount_find (Some (render (demo_usb ++ [[97]]))) demo_mounts = Some (1%nat, render [[97]]) /\
  exists m q, demo_mounts !! 1%nat = Some (Some m) /\ mt_path m = render q /\ q `prefix_of` (demo_usb ++ [[97]]).
Proof.
  pose proof (mount_find_longest demo_mounts (demo_usb ++ [[97]]) demo_mounts_wf (proj2 (proj2 demo_names))) as H.
  assert (E : mount_find (Some (render (demo_usb ++ [[97]]))) demo_mounts = Some (1%nat, render [[97]]))
    by (vm_compute; reflexivity).
  rewrite E in H. split; [exact E|]. destruct H as (m & q & H1 & H2 & H3 & _). exists m, q. auto.
Defined.

(** Mounting and unmounting keep the mount table well formed: normalised
    mount points, none twice, never the root. [vfs_mount_fs] of a normalised
    path succeeds exactly when it is free and a slot is left, and then
    [mount_find] of the path is that file system with the path ["/"];
    [vfs_umount] removes the mount point only after the file system's [sync]
    and [unmount] both succeeded, and leaves the table alone otherwise. *)
Theorem mount_umount_correct {F W M : Type} (g : list (option (vfs_mount F W M))) (w : W) (p : list (list Z))
    (ops : vfs_fsops F W M) (fs : F) :
  mount_wf g -> Forall is_name p -> p <> [] -> (length (render p) < VFS_MOUNT_PATH_MAX)%nat ->
  (let '(g', r) := vfs_mount_fs (Some (render p)) (Some ops) fs g in
   mount_wf g' /\
   ((r = 0 /\ exists i, g !! i = Some None /\ g' = <[i := Some (Mount (render p) ops fs)]> g /\
       mount_find (Some (render p)) g' = Some (i, [SLASH])) \/
    (g' = g /\ (r = - EBUSY /\ mounted_at g (render p) = true \/ r = - ENOSPC /\ first_free g = None)))) /\
  (let '((g', w'), r) := vfs_umount (Some (render p)) (g, w) in
   mount_wf g' /\
   ((r = 0 /\ mounted_at g' (render p) = false /\ exists i m, g !! i = Some (Some m) /\ mt_path m = render p /\
       g' = <[i := None]> g /\ 0 <= (run_op (op_sync (mt_ops m)) (mt_fs m) w).2 /\
       0 <= (run_op (op_unmount (mt_ops m)) (mt_fs m) (run_op (op_sync (mt_ops m)) (mt_fs m) w).1).2) \/
    (r < 0 /\ g' = g))).
Proof.
  intros Hwf Hp Hne Hlen. pose proof (flat_length_pos p Hne Hp) as Hl2. split.
  - unfold vfs_mount_fs. assert (Hb : byte_at (render p) 0 = SLASH) by (by destruct p). rewrite Hb. simpl negb. cbv iota.
    rewrite (render_flat p) in * by done.
    destruct (Nat.ltb_spec (length (flat p)) 2); [lia|]. destruct (Nat.leb_spec VFS_MOUNT_PATH_MAX (length (flat p))); [lia|].
    simpl orb. cbv iota. rewrite <- (render_flat p) by done. rewrite normal_render by done.
    unfold str_eqb at 1. rewrite bool_decide_eq_true_2 by done. simpl negb. cbv iota.
    destruct (mounted_at g (render p)) eqn:Em; [split; [done|]; right; split; [done|by left]|].
    destruct (first_free g) as [i|] eqn:Ef; [|split; [done|]; right; split; [done|by right]].
    pose proof (first_free_spec g i Ef) as Hi. pose proof (lookup_lt_Some _ _ _ Hi) as Hlt.
    assert (Hno : forall j m', g !! j = Some (Some m') -> mt_path m' <> render p).
    { intros j m' Hj E. assert (mounted_at g (render p) = true) by (apply mounted_at_spec; by exists j, m'). congruence. }
    assert (Hwf' : mount_wf (<[i := Some (Mount (render p) ops fs)]> g)).
    { apply mount_wf_insert; [done|]. split; [by exists p|]. intros j m' _. apply Hno. }
    split; [done|]. left. split; [done|]. exists i. split_and!; [done|done|].
    pose proof (mount_find_spec p _ Hwf' Hp) as Hf. destruct (mount_find _ _) as [[j rel]|].
    + destruct Hf as (m & q & Hj & Hq & Hpre & -> & Hmax).
      specialize (Hmax i (Mount (render p) ops fs) p). rewrite list_lookup_insert_eq in Hmax by done.
      specialize (Hmax eq_refl eq_refl Hne Hp ltac:(done)).
      destruct Hpre as [r Er]. assert (r = []) as ->.
      { apply (f_equal length) in Er. rewrite length_app in Er. destruct r; simpl in *; [done|lia]. }
      rewrite app_nil_r in Er. subst q. rewrite drop_all. destruct (decide (j = i)) as [->|Hji]; [done|].
      rewrite list_lookup_insert_ne in Hj by done. by destruct (Hno j m Hj).
    + exfalso. apply (Hf i (Mount (render p) ops fs) p); [by rewrite list_lookup_insert_eq|done..].
  - unfold vfs_umount. destruct (find_from _ 0 VFS_MAX_MOUNTS) as [i|] eqn:Ef; [|split; [done|]; by right].
    apply find_from_Some in Ef as (_ & Hf & _). destruct (g !! i) as [[m|]|] eqn:Ei; [|done..].
    unfold str_eqb in Hf. apply bool_decide_eq_true_1 in Hf.
    destruct (run_op (op_sync (mt_ops m)) (mt_fs m) w) as [w1 r1] eqn:E1.
    destruct (Z.ltb_spec r1 0); [split; [done|]; by right|].
    destruct (run_op (op_unmount (mt_ops m)) (mt_fs m) w1) as [w2 r2] eqn:E2.
    destruct (Z.ltb_spec r2 0); [split; [done|]; by right|].
    split; [by apply mount_wf_insert|]. left. split_and!; [done| |].
    + destruct (mounted_at (<[i := None]> g) (render p)) eqn:Em; [|done].
      apply mounted_at_spec in Em as (j & m' & Hj & Hm'). destruct (decide (j = i)) as [->|Hji].
      * apply list_lookup_insert_Some in Hj as [(_ & ? & _)|[? _]]; done.
      * rewrite list_lookup_insert_ne in Hj by done. destruct Hji. eapply (mw_unique _ Hwf); eauto. congruence.
    + exists i, m. rewrite E1. simpl. rewrite E2. simpl. done.
Qed.

Lemma mount_umount_correct_witness :
  let p := [[120]] in
  let '(g', r) := vfs_mount_fs (Some (render p)) (Some demo_ops) tt demo_mounts in
  r = 0 /\ mount_wf g' /\ ((vfs_umount (Some (render demo_usb)) (demo_mounts, tt)).2 = 0).
Proof.
  intros p.
  assert (Hp : Forall is_name p) by (apply Forall_cons; split; [by apply is_name_dec|apply Forall_nil_2]).
  pose proof (mount_umount_correct demo_mounts tt p demo_ops tt demo_mounts_wf Hp ltac:(discriminate) ltac:(vm_compute; lia)) as H.
  assert (E : (vfs_mount_fs (Some (render p)) (Some demo_ops) tt demo_mounts).2 = 0) by (vm_compute; reflexivity).
  destruct (vfs_mount_fs (Some (render p)) (Some demo_ops) tt demo_mounts) as [g' r]. simpl in E. subst r.
  split; [reflexivity|]. split; [exact (proj1 (proj1 H))|vm_compute; reflexivity].
Defined.

(** Reading a derived directory with [index] = 0, 1, 2, ... enumerates one
    fixed list of entries and then reports the end: no name appears twice, and
    the names are exactly the first components, below the directory, of the
    known paths that continue it (names of 256 bytes or more are left out). A
    path other than the root is a directory exactly when some known path
    continues it in this way. *)
Theorem readdir_enumerates (disks : list disk) (memfiles : list memfile) (dir prefix : list Z) :
  dir <> [] -> dir_prefix dir = Some prefix ->
  let children name := exists i cand type rest, (i < candidate_total disks memfiles)%nat /\
    candidate_at disks memfiles i = Some (cand, type) /\
    cand = prefix ++ name ++ rest /\ at_break rest /\ name <> [] /\ Forall (fun b => b <> SLASH) name in
  (exists es : list (nat * list Z * Z),
    (forall index, 0 <= index -> readdir_derived disks memfiles dir index =
       match es !! Z.to_nat index with Some e => (1, Some (mk_dirent index e)) | None => (0, None) end) /\
    NoDup ((fun e => e.1.2) <$> es) /\
    (forall name, name ∈ ((fun e => e.1.2) <$> es) <-> (length name < DIRENT_NAME_SIZE)%nat /\ children name)) /\
  (dir <> [SLASH] -> byte_at dir (length dir - 1) <> SLASH ->
   is_directory disks memfiles dir = true <-> exists name, children name).
Proof.
  intros Hd Hpre children.
  assert (Hch : forall name, children name <-> exists i, (i < candidate_total disks memfiles)%nat /\ child_name disks memfiles prefix i = Some name).
  { intros name. unfold children. split.
    - intros (i & cand & type & rest & Hi & Hx). exists i. split; [done|]. apply child_name_spec. by exists cand, type, rest.
    - intros (i & Hi & (cand & type & rest & Hx)%child_name_spec). by exists i, cand, type, rest. }
  split.
  - exists (omap (listed disks memfiles prefix) (seq 0 (candidate_total disks memfiles))). split_and!.
    + intros index Hi. unfold readdir_derived. rewrite bool_decide_eq_false_2, Hpre by done.
      rewrite readdir_loop_spec by lia. rewrite Z.sub_0_r. by destruct (_ !! _).
    + apply listed_NoDup. intros i j Hij. rewrite length_seq in Hij.
      rewrite !list_lookup_total_alt, !lookup_seq_lt by lia. simpl. lia.
    + intros name. rewrite listed_complete. by rewrite Hch.
  - intros Hr Hsl. unfold is_directory. unfold str_eqb. rewrite bool_decide_eq_false_2 by done.
    destruct (Nat.eqb_spec (length dir) 0) as [E0|_]; [by destruct dir|]. simpl orb.
    destruct (Z.eqb_spec (byte_at dir (length dir - 1)) SLASH); [done|]. rewrite Hpre, existsb_exists. split.
    + intros (i & Hi & Hc). apply in_seq in Hi. apply bool_decide_eq_true_1 in Hc as [[[[cand n'] nested] ty] Hc].
      exists (take n' (drop (length prefix) cand)). apply Hch. exists i. split; [lia|]. unfold child_name. by rewrite Hc.
    + intros [name (i & Hi & Hn)%Hch]. exists i. split; [apply in_seq; lia|]. apply bool_decide_eq_true_2.
      unfold child_name in Hn. destruct (candidate_child _ _ prefix i); [by eexists|done].
Qed.

Lemma readdir_enumerates_witness :
  dir_prefix [47; 100; 101; 118] = Some dev_prefix /\ is_directory [] [] [47; 100; 101; 118] = true /\
  exists name, (exists i cand type rest, (i < candidate_total [] [])%nat /\ candidate_at [] [] i = Some (cand, type) /\
    cand = dev_prefix ++ name ++ rest /\ at_break rest /\ name <> [] /\ Forall (fun b => b <> SLASH) name).
Proof.
  split; [reflexivity|].
  assert (E : is_directory [] [] [47; 100; 101; 118] = true) by (vm_compute; reflexivity). split; [exact E|].
  exact (proj1 (proj2 (readdir_enumerates [] [] [47; 100; 101; 118] dev_prefix ltac:(discriminate) eq_refl)
    ltac:(discriminate) ltac:(discriminate)) E).
Defined.
