(* ===== verification/Blk.v ===== *)
(** * src/drivers/block/blk.c: device registry and write-back sector cache

    A device is a number; what the layer reads of its [struct blkdev] is the
    record [blkdev]. The driver behind a root device is the interface
    [BlockDriver]: its operations on the driver state [D], and the promise
    that a successful read returns the sectors of the device, a successful
    write replaces exactly them, and a failing one disturbs nothing outside
    its range. Ramdisk.v is an instance.

    The cache is the pool of [BCACHE_BUFFERS] buffers, the hash chains
    [g_buckets] (each the list of its buffers from the head along [hnext]) and
    the LRU order [g_lru] (from [g_lru_head] along [lru_next]). Buffers are
    indices into the pool. The pointer surgery on the LRU links is modelled
    in Lru.v, where it is shown to implement the list operations used here.
    Every operation runs under [g_blk_lock] and is one step. *)
From S2P Require Import Prelude CString.

Open Scope tach_scope.

Definition BLK_SECTOR_SIZE : Z := 512.
Definition BLK_MAX_DEVICES : nat := 32.
Definition BCACHE_BUFFERS : nat := 128.
Definition BCACHE_BUCKETS : Z := 64.
Definition BLK_READ_RUN : Z := 64.

(** A sector is a list of [BLK_SECTOR_SIZE] bytes. *)
Abbreviation sector := (list Z).
Definition is_sector (d : sector) : Prop := Z.of_nat (length d) = BLK_SECTOR_SIZE.

Record blkdev := Blkdev {
  dv_name : list Z;
  dv_sectors : Z;
  dv_readonly : bool;
  dv_has_read : bool;       (* ops && ops->read *)
  dv_has_write : bool;      (* ops && ops->write *)
  dv_has_flush : bool;      (* ops && ops->flush *)
  dv_parent : option nat;
  dv_start : Z;
  dv_addr : Z               (* the address of the struct, used by the hash *)
}.

(** ** The driver interface *)
Class BlockDriver (D : Type) := {
  ops_read : nat -> Z -> Z -> D -> D * Z * list sector;   (* device, lba, count *)
  ops_write : nat -> Z -> list sector -> D -> D * Z;
  ops_flush : nat -> D -> D * Z;
  contents : D -> nat -> Z -> sector
}.

(** What the layer relies on. A driver returns 0 or a negative errno. *)
Class BlockDriverOk (D : Type) `{BlockDriver D} := {
  contents_sector d r l : is_sector (contents d r l);
  ops_read_ok d r l n d' e out : ops_read r l n d = (d', e, out) ->
    e <= 0 /\ (forall r' l', contents d' r' l' = contents d r' l') /\
    (e = 0 -> out = (contents d r) <$> (seqZ l n));
  ops_write_ok d r l data d' e : ops_write r l data d = (d', e) ->
    e <= 0 /\
    (forall r' l', ~ (r' = r /\ l <= l' < l + Z.of_nat (length data)) -> contents d' r' l' = contents d r' l') /\
    (e = 0 -> Forall is_sector data -> forall k x, data !! k = Some x -> contents d' r (l + Z.of_nat k) = x);
  ops_flush_ok d r d' e : ops_flush r d = (d', e) ->
    e <= 0 /\ forall r' l', contents d' r' l' = contents d r' l'
}.

(** ** Definitions *)
Record blkbuf := Buf {
  b_dev : option nat;
  b_lba : Z;
  b_refs : Z;
  b_dirty : bool;
  b_data : sector
}.

Record cache (D : Type) := Cache {
  g_pool : list blkbuf;
  g_buckets : list (list nat);
  g_lru : list nat;
  g_ready : bool;
  g_devs : list (option nat);
  driver : D
}.
Arguments Cache {D}.
Arguments g_pool {D}.
Arguments g_buckets {D}.
Arguments g_lru {D}.
Arguments g_ready {D}.
Arguments g_devs {D}.
Arguments driver {D}.

Section Ops.
Context (dev : nat -> blkdev) {D : Type} `{BlockDriver D}.
Implicit Types (s : cache D) (root i : nat) (lba abs : Z).

Definition set_pool f s : cache D := Cache (f (g_pool s)) (g_buckets s) (g_lru s) (g_ready s) (g_devs s) (driver s).
Definition set_buckets f s : cache D := Cache (g_pool s) (f (g_buckets s)) (g_lru s) (g_ready s) (g_devs s) (driver s).
Definition set_lru f s : cache D := Cache (g_pool s) (g_buckets s) (f (g_lru s)) (g_ready s) (g_devs s) (driver s).
Definition set_devs f s : cache D := Cache (g_pool s) (g_buckets s) (g_lru s) (g_ready s) (f (g_devs s)) (driver s).
Definition set_driver (d : D) s : cache D := Cache (g_pool s) (g_buckets s) (g_lru s) (g_ready s) (g_devs s) d.
Definition upd_buf i f : cache D -> cache D := set_pool (alter f i).

(** [None] when the chain of parents is longer than the fuel. *)
Fixpoint root_of (fuel : nat) (d : nat) (abs : Z) : option (nat * Z) :=
  match fuel with
  | O => None
  | S k => match dv_parent (dev d) with
           | Some p => root_of k p (u64 (abs + dv_start (dev d)))
           | None => Some (d, abs)
           end
  end.

Definition range_ok (d : nat) (lba count : Z) : bool :=
  (0 <? count) && (lba <=? dv_sectors (dev d)) && (count <=? dv_sectors (dev d) - lba).

Definition hash_of root lba : nat :=
  let x := dv_addr (dev root) .>> 4 in
  let x := Z.lxor x (u64 (lba * 0x9E3779B1)) in
  let x := Z.lxor x (x .>> 17) in
  Z.to_nat (x mod BCACHE_BUCKETS).

Definition drv_read root lba count s : cache D * Z * list sector :=
  if negb (dv_has_read (dev root)) then (s, - ENODEV, [])
  else if negb (range_ok root lba count) then (s, - EINVAL, [])
  else let '(d, e, out) := ops_read root lba count (driver s) in (set_driver d s, e, out).

Definition drv_write root lba (data : list sector) s : cache D * Z :=
  if dv_readonly (dev root) then (s, - EROFS)
  else if negb (dv_has_write (dev root)) then (s, - EROFS)
  else if negb (range_ok root lba (Z.of_nat (length data))) then (s, - EINVAL)
  else let '(d, e) := ops_write root lba data (driver s) in (set_driver d s, e).

(** *** LRU and hash chains *)
Definition without i (l : list nat) : list nat := filter (fun j => j <> i) l.

Definition lru_remove i : cache D -> cache D := set_lru (without i).
Definition lru_push_front i : cache D -> cache D := set_lru (cons i).
Definition lru_touch i s : cache D :=
  if bool_decide (head (g_lru s) = Some i) then s else lru_push_front i (lru_remove i s).

Definition hash_remove i s : cache D :=
  match g_pool s !! i with
  | Some b => match b_dev b with
              | Some r => set_buckets (alter (without i) (hash_of r (b_lba b))) s
              | None => s
              end
  | None => s
  end.

Definition holds root lba (ob : option blkbuf) : bool :=
  match ob with
  | Some b => bool_decide (b_dev b = Some root) && (b_lba b =? lba)
  | None => false
  end.

(** The walk along the chain. *)
Definition lookup_buf root lba s : option nat :=
  head (filter (fun i => holds root lba (g_pool s !! i) = true) (default [] (g_buckets s !! hash_of root lba))).

Definition set_dirty (x : bool) (b : blkbuf) : blkbuf := Buf (b_dev b) (b_lba b) (b_refs b) x (b_data b).
Definition set_refs (f : Z -> Z) (b : blkbuf) : blkbuf := Buf (b_dev b) (b_lba b) (f (b_refs b)) (b_dirty b) (b_data b).
Definition set_data (d : sector) (b : blkbuf) : blkbuf := Buf (b_dev b) (b_lba b) (b_refs b) (b_dirty b) d.
Definition detach (b : blkbuf) : blkbuf := Buf None (b_lba b) (b_refs b) (b_dirty b) (b_data b).

Definition write_back i s : cache D * Z :=
  match g_pool s !! i with
  | Some b =>
      if negb (b_dirty b) then (s, 0)
      else match b_dev b with
           | Some r =>
               let '(s, result) := drv_write r (b_lba b) [b_data b] s in
               (if result =? 0 then upd_buf i (set_dirty false) s else s, result)
           | None => (s, 0)
           end
  | None => (s, 0)
  end.

(** The walk from the tail of the LRU list. *)
Fixpoint victim_loop (order : list nat) s : cache D * (nat + Z) :=
  match order with
  | [] => (s, inr (- EBUSY))
  | i :: order' =>
      if negb (default 0 (b_refs <$> g_pool s !! i) =? 0) then victim_loop order' s
      else
        let '(s, result) := write_back i s in
        if result <? 0 then (s, inr result)
        else (upd_buf i detach (hash_remove i s), inl i)
  end.

Definition take_victim s : cache D * (nat + Z) := victim_loop (rev (g_lru s)) s.

Definition zero_sector : sector := replicate (Z.to_nat BLK_SECTOR_SIZE) 0.

(** The end of [get_buf]: the buffer [i] now caches sector [abs] of [root]. *)
Definition install i root abs (data : sector) s : cache D :=
  let s := set_pool <[i := Buf (Some root) abs 1 false data]> s in
  let s := set_buckets (alter (cons i) (hash_of root abs)) s in
  lru_touch i s.

Definition get_buf root abs (read : bool) s : cache D * (nat + Z) :=
  match lookup_buf root abs s with
  | Some i => (lru_touch i (upd_buf i (set_refs (fun n => n + 1)) s), inl i)
  | None =>
      match take_victim s with
      | (s, inr e) => (s, inr e)
      | (s, inl i) =>
          if read then
            let '(s, result, out) := drv_read root abs 1 s in
            if result <? 0 then (s, inr result)
            else (install i root abs (default [] (head out)) s, inl i)
          else (install i root abs zero_sector s, inl i)
      end
  end.

(** *** Registry *)
Definition blk_init_cache (ready : bool) (d : D) : cache D :=
  Cache (replicate BCACHE_BUFFERS (Buf None 0 0 false zero_sector)) (replicate (Z.to_nat BCACHE_BUCKETS) [])
        (rev (seq 0 BCACHE_BUFFERS)) ready (replicate BLK_MAX_DEVICES None) d.

Definition named (name : list Z) (slot : option (option nat)) : bool :=
  match slot with Some (Some d) => str_eqb (dv_name (dev d)) name | _ => false end.

Definition blk_register (od : option nat) s : cache D * Z :=
  match od with
  | None => (s, - EINVAL)
  | Some d =>
      if bool_decide (dv_name (dev d) = []) then (s, - EINVAL)
      else if bool_decide (dv_parent (dev d) = None) && negb (dv_has_read (dev d)) then (s, - EINVAL)
      else if match dv_parent (dev d) with
              | Some p => dv_sectors (dev p) <? u64 (dv_start (dev d) + dv_sectors (dev d))
              | None => false
              end then (s, - EINVAL)
      else match find_from (fun i => named (dv_name (dev d)) (g_devs s !! i)) 0 BLK_MAX_DEVICES with
           | Some _ => (s, - EEXIST)
           | None =>
               match find_from (fun i => bool_decide (g_devs s !! i = Some None)) 0 BLK_MAX_DEVICES with
               | Some i => (set_devs <[i := Some d]> s, 0)
               | None => (s, - ENOSPC)
               end
           end
  end.

Definition blk_find (name : list Z) s : option nat :=
  i ← find_from (fun i => named name (g_devs s !! i)) 0 BLK_MAX_DEVICES; mjoin (g_devs s !! i).

Definition registered s : list nat := omap id (g_devs s).
Definition blk_get (index : nat) s : option nat := registered s !! index.
Definition blk_count s : nat := length (registered s).

(** *** Write-back of a device *)
Fixpoint flush_loop root (is_ : list nat) s (first : Z) : cache D * Z :=
  match is_ with
  | [] => (s, first)
  | i :: is' =>
      match g_pool s !! i with
      | Some b =>
          if bool_decide (b_dev b <> Some root) || negb (b_dirty b) then flush_loop root is' s first
          else
            let '(s, result) := write_back i s in
            flush_loop root is' s (if (result <? 0) && (first =? 0) then result else first)
      | None => flush_loop root is' s first
      end
  end.

Definition flush_root_locked root s : cache D * Z :=
  let '(s, first) := if g_ready s then flush_loop root (seq 0 BCACHE_BUFFERS) s 0 else (s, 0) in
  if (first =? 0) && dv_has_flush (dev root) then
    let '(d, e) := ops_flush root (driver s) in (set_driver d s, e)
  else (s, first).

Definition ROOT_FUEL : nat := BLK_MAX_DEVICES.

Definition blk_flush (od : option nat) s : option (cache D * Z) :=
  match od with
  | None => Some (s, - EINVAL)
  | Some d => r ← root_of ROOT_FUEL d 0; Some (flush_root_locked r.1 s)
  end.

Fixpoint sync_loop (slots : list (option nat)) s (first : Z) : cache D * Z :=
  match slots with
  | [] => (s, first)
  | None :: slots' => sync_loop slots' s first
  | Some d :: slots' =>
      if bool_decide (dv_parent (dev d) <> None) then sync_loop slots' s first
      else let '(s, result) := flush_root_locked d s in
           sync_loop slots' s (if (result <? 0) && (first =? 0) then result else first)
  end.

Definition blk_sync_all s : cache D * Z := sync_loop (g_devs s) s 0.

(** *** Sector I/O *)

(** [while (step < count && step < BLK_READ_RUN && !lookup(root, abs + step)) step++] *)
Fixpoint run_length (fuel : nat) root abs (count step : Z) s : Z :=
  match fuel with
  | O => step
  | S k =>
      if (step <? count) && (step <? BLK_READ_RUN) && bool_decide (lookup_buf root (u64 (abs + step)) s = None)
      then run_length k root abs count (step + 1) s else step
  end.

(** [fuel] bounds the iterations; the bytes delivered are the sectors [out]. *)
Fixpoint read_loop (fuel : nat) root abs (count : Z) s : cache D * Z * list sector :=
  match fuel with
  | O => (s, 0, [])
  | S k =>
      if count =? 0 then (s, 0, [])
      else match lookup_buf root abs s with
           | Some i =>
               let data := default [] (b_data <$> g_pool s !! i) in
               let s := lru_touch i s in
               let '(s, result, out) := read_loop k root (u64 (abs + 1)) (count - 1) s in
               (s, result, data :: out)
           | None =>
               let step := run_length (Z.to_nat BLK_READ_RUN) root abs count 1 s in
               let '(s, result, out) := drv_read root abs step s in
               if negb (result =? 0) then (s, result, [])
               else
                 let '(s, result, out') := read_loop k root (u64 (abs + step)) (count - step) s in
                 (s, result, out ++ out')
           end
  end.

Definition blk_read (od : option nat) lba (count : Z) (buf_ok : bool) s : option (cache D * Z * list sector) :=
  match od with
  | None => Some (s, - EINVAL, [])
  | Some d =>
      if negb buf_ok then Some (s, - EINVAL, [])
      else if negb (range_ok d lba count) then Some (s, - EINVAL, [])
      else
        r ← root_of ROOT_FUEL d lba;
        let '(root, abs) := r in
        Some (if negb (g_ready s) then drv_read root abs count s
              else read_loop (Z.to_nat count) root abs count s)
  end.

Definition store_buf i (data : sector) s : cache D :=
  upd_buf i (fun b => set_refs (fun n => n - 1) (set_dirty true (set_data data b))) s.

Fixpoint write_loop root abs (data : list sector) s : cache D * Z :=
  match data with
  | [] => (s, 0)
  | x :: data' =>
      match get_buf root abs false s with
      | (s, inr e) => (s, e)
      | (s, inl i) => write_loop root (u64 (abs + 1)) data' (store_buf i x s)
      end
  end.

Definition blk_write (od : option nat) lba (data : option (list sector)) s : option (cache D * Z) :=
  match od, data with
  | Some d, Some data =>
      if negb (range_ok d lba (Z.of_nat (length data))) then Some (s, - EINVAL)
      else
        r ← root_of ROOT_FUEL d lba;
        let '(root, abs) := r in
        Some (if dv_readonly (dev d) || dv_readonly (dev root) then (s, - EROFS)
              else if negb (g_ready s) then drv_write root abs data s
              else write_loop root abs data s)
  | _, _ => Some (s, - EINVAL)
  end.

(** *** Buffers *)
Definition buf_get (od : option nat) lba (read : bool) s : option (cache D * (nat + Z)) :=
  match od with
  | None => Some (s, inr (- EINVAL))
  | Some d =>
      if negb (range_ok d lba 1) then Some (s, inr (- EINVAL))
      else if negb (g_ready s) then Some (s, inr (- ENOMEM))
      else
        r ← root_of ROOT_FUEL d lba;
        let '(root, abs) := r in
        if negb read && (dv_readonly (dev d) || dv_readonly (dev root)) then Some (s, inr (- EROFS))
        else match get_buf root abs read s with
             | (s, inr e) => Some (s, inr e)
             | (s, inl i) =>
                 Some (if negb read then upd_buf i (fun b => set_dirty true (set_data zero_sector b)) s else s, inl i)
             end
  end.

Definition bread (od : option nat) lba s := buf_get od lba true s.
Definition bnew (od : option nat) lba s := buf_get od lba false s.
Definition bdirty i s : cache D := upd_buf i (set_dirty true) s.
Definition brelse i s : cache D := upd_buf i (set_refs (fun n => if negb (n =? 0) then n - 1 else n)) s.

(** *** Byte I/O *)

(** [memcpy(b->data + within, in, chunk)] *)
Definition patch (within : nat) (bytes : list Z) (d : sector) : sector :=
  take within d ++ bytes ++ drop (within + length bytes) d.

Fixpoint read_bytes_loop (fuel : nat) (d : nat) (offset len : Z) s : option (cache D * Z * list Z) :=
  match fuel with
  | O => None
  | S k =>
      if len =? 0 then Some (s, 0, [])
      else
        r ← bread (Some d) (offset / BLK_SECTOR_SIZE) s;
        match r with
        | (s, inr e) => Some (s, e, [])
        | (s, inl i) =>
            let within := offset mod BLK_SECTOR_SIZE in
            let chunk := BLK_SECTOR_SIZE - within in
            let chunk := if len <? chunk then len else chunk in
            let data := default [] (b_data <$> g_pool s !! i) in
            let part := take (Z.to_nat chunk) (drop (Z.to_nat within) data) in
            let s := brelse i s in
            r ← read_bytes_loop k d (offset + chunk) (len - chunk) s;
            let '(s, e, out) := r in Some (s, e, part ++ out)
        end
  end.

Definition blk_read_bytes (fuel : nat) (od : option nat) (offset : Z) (buf_ok : bool) (len : Z) s
  : option (cache D * Z * list Z) :=
  match od with
  | None => Some (s, - EINVAL, [])
  | Some d =>
      if negb buf_ok && negb (len =? 0) then Some (s, - EINVAL, [])
      else
        let size := u64 (dv_sectors (dev d) * BLK_SECTOR_SIZE) in
        if (size <? offset) || (size - offset <? len) then Some (s, - EINVAL, [])
        else read_bytes_loop fuel d offset len s
  end.

Fixpoint write_bytes_loop (fuel : nat) (d : nat) (offset : Z) (bytes : list Z) s : option (cache D * Z) :=
  match fuel with
  | O => None
  | S k =>
      match bytes with
      | [] => Some (s, 0)
      | _ =>
          let within := offset mod BLK_SECTOR_SIZE in
          let chunk := BLK_SECTOR_SIZE - within in
          let chunk := if Z.of_nat (length bytes) <? chunk then Z.of_nat (length bytes) else chunk in
          r ← (if chunk =? BLK_SECTOR_SIZE then bnew (Some d) (offset / BLK_SECTOR_SIZE) s
               else bread (Some d) (offset / BLK_SECTOR_SIZE) s);
          match r with
          | (s, inr e) => Some (s, e)
          | (s, inl i) =>
              let s := upd_buf i (fun b => set_data (patch (Z.to_nat within) (take (Z.to_nat chunk) bytes) (b_data b)) b) s in
              let s := brelse i (bdirty i s) in
              write_bytes_loop k d (offset + chunk) (drop (Z.to_nat chunk) bytes) s
          end
      end
  end.

Definition blk_write_bytes (fuel : nat) (od : option nat) (offset : Z) (buf : option (list Z)) (len : Z) s
  : option (cache D * Z) :=
  match od with
  | None => Some (s, - EINVAL)
  | Some d =>
      if bool_decide (buf = None) && negb (len =? 0) then Some (s, - EINVAL)
      else
        let size := u64 (dv_sectors (dev d) * BLK_SECTOR_SIZE) in
        if (size <? offset) || (size - offset <? len) then Some (s, - EINVAL)
        else
          r ← root_of ROOT_FUEL d 0;
          if dv_readonly (dev d) || dv_readonly (dev r.1) then Some (s, - EROFS)
          else write_bytes_loop fuel d offset (take (Z.to_nat len) (default [] buf)) s
  end.

(** *** Unregistering *)

(** Detach every buffer of the device. *)
Fixpoint drop_loop root (is_ : list nat) s : cache D :=
  match is_ with
  | [] => s
  | i :: is' =>
      drop_loop root is'
        (if bool_decide ((g_pool s !! i ≫= b_dev) = Some root)
         then upd_buf i (set_dirty false) (upd_buf i detach (hash_remove i s)) else s)
  end.

(** The part of [blk_unregister] after the partitions are gone. *)
Definition unregister_locked (d : nat) s : cache D * Z :=
  let '(s, result) :=
    if bool_decide (dv_parent (dev d) = None) then
      let '(s, result) := flush_root_locked d s in
      if g_ready s && (result =? 0) then
        if existsb (fun b => bool_decide (b_dev b = Some d) && negb (b_refs b =? 0)) (g_pool s)
        then (s, - EBUSY)
        else (drop_loop d (seq 0 BCACHE_BUFFERS) s, 0)
      else (s, result)
    else (s, 0) in
  if result =? 0 then
    (set_devs (fmap (fun slot => if bool_decide (slot = Some d) then None else slot)) s, 0)
  else (s, result).

Definition children_of (d : nat) s : list nat :=
  filter (fun c => dv_parent (dev c) = Some d /\ c <> d) (registered s).

(** [fuel] bounds the depth of the device tree. *)
Fixpoint blk_unregister (fuel : nat) (d : nat) s : option (cache D * Z) :=
  match fuel with
  | O => None
  | S k =>
      if negb (bool_decide (d ∈ registered s)) then Some (s, - ENODEV)
      else
        let fix each (cs : list nat) s : option (cache D * Z) :=
          match cs with
          | [] => Some (s, 0)
          | c :: cs' =>
              r ← blk_unregister k c s;
              let '(s, result) := r in
              if result <? 0 then Some (s, result) else each cs' s
          end in
        r ← each (children_of d s) s;
        let '(s, result) := r in
        if result <? 0 then Some (s, result) else Some (unregister_locked d s)
  end.
End Ops.

(** ** Invariant and abstract view *)
Section Invariant.
Context (dev : nat -> blkdev) {D : Type} `{BlockDriverOk D}.
Implicit Types (s : cache D) (r i j : nat) (l : Z) (b : blkbuf).
Abbreviation hash := (hash_of dev).
Abbreviation lookup := (lookup_buf dev).

(** Buffer [i] caches sector [l] of [r]. *)
Definition caches s i r l : Prop := exists b, g_pool s !! i = Some b /\ b_dev b = Some r /\ b_lba b = l.

(** [ex] names a buffer that may be clean and still differ from the disk: the
    one [get_buf] has just handed out without reading. *)
Record cache_inv (ex : option nat) s : Prop := {
  ci_pool : length (g_pool s) = BCACHE_BUFFERS;
  ci_buckets : length (g_buckets s) = Z.to_nat BCACHE_BUCKETS;
  ci_lru : g_lru s ≡ₚ seq 0 BCACHE_BUFFERS;
  ci_chain : forall h c, g_buckets s !! h = Some c ->
    NoDup c /\ forall i, i ∈ c <-> exists r l, caches s i r l /\ hash r l = h;
  ci_unique : forall i j r l, caches s i r l -> caches s j r l -> i = j;
  ci_data : forall i b, g_pool s !! i = Some b -> is_sector (b_data b) /\ 0 <= b_refs b;
  ci_free : forall i b, g_pool s !! i = Some b -> b_dev b = None -> b_dirty b = false /\ b_refs b = 0;
  ci_clean : forall i b r, g_pool s !! i = Some b -> b_dev b = Some r -> ex <> Some i -> b_dirty b = false ->
    b_data b = contents (driver s) r (b_lba b)
}.

(** What a reader sees: the cached sector if there is one, else the disk. *)
Definition view s r l : sector :=
  match lookup r l s with
  | Some i => default [] (b_data <$> g_pool s !! i)
  | None => contents (driver s) r l
  end.

Lemma hash_bound r l : (hash r l < Z.to_nat BCACHE_BUCKETS)%nat.
Proof.
  unfold hash_of. cbv zeta. set (x := Z.lxor _ _). pose proof (Z.mod_pos_bound x BCACHE_BUCKETS ltac:(done)). lia.
Qed.

Lemma bucket_at ex s r l : cache_inv ex s -> exists c, g_buckets s !! hash r l = Some c.
Proof. intros Hi. apply lookup_lt_is_Some_2. rewrite (ci_buckets _ _ Hi). apply hash_bound. Qed.

Lemma holds_caches s i r l : holds r l (g_pool s !! i) = true <-> caches s i r l.
Proof.
  unfold holds, caches. destruct (g_pool s !! i) as [b|]; [|split; [done|by intros (? & ? & _)]]. split.
  - intros [H1 H2]%andb_prop. apply bool_decide_eq_true_1 in H1. apply Z.eqb_eq in H2. by exists b.
  - intros (b' & [= <-] & -> & ->). by rewrite bool_decide_eq_true_2, Z.eqb_refl.
Qed.

Lemma head_filter_in {A} (P : A -> Prop) `{!forall x, Decision (P x)} (c : list A) (x : A) :
  head (filter P c) = Some x -> x ∈ c /\ P x.
Proof.
  intros Hh. assert (Hx : x ∈ filter P c) by (destruct (filter P c); [done|]; injection Hh as ->; left).
  apply list_elem_of_filter in Hx as [? ?]. done.
Qed.

Lemma head_filter_none {A} (P : A -> Prop) `{!forall x, Decision (P x)} (c : list A) :
  head (filter P c) = None -> forall x, x ∈ c -> ~ P x.
Proof.
  intros Hh x Hx Hp. assert (Hin : x ∈ filter P c) by (by apply list_elem_of_filter).
  destruct (filter P c); [by apply not_elem_of_nil in Hin|done].
Qed.

(** [lookup] finds the buffer that caches a sector. *)
Lemma lookup_iff ex s r l i : cache_inv ex s -> lookup r l s = Some i <-> caches s i r l.
Proof.
  intros Hi. unfold lookup_buf. destruct (bucket_at ex s r l Hi) as [c Hc]. rewrite Hc. simpl.
  destruct (ci_chain _ _ Hi _ _ Hc) as [_ Hm]. split.
  - intros [_ Hp]%head_filter_in. by apply holds_caches.
  - intros Hcs. destruct (head (filter _ c)) as [j|] eqn:Eh.
    + apply head_filter_in in Eh as [_ Hp]. apply holds_caches in Hp. f_equal. by eapply (ci_unique _ _ Hi).
    + exfalso. refine (head_filter_none _ _ Eh i _ _); [|by apply holds_caches].
      apply Hm. by exists r, l.
Qed.

Lemma lookup_none ex s r l : cache_inv ex s -> lookup r l s = None <-> forall i, ~ caches s i r l.
Proof.
  intros Hi. split.
  - intros Hn i Hc. apply (lookup_iff ex) in Hc; [congruence|done].
  - intros Hno. destruct (lookup r l s) as [i|] eqn:E; [|done]. apply (lookup_iff ex) in E; [|done]. by destruct (Hno i).
Qed.

Lemma view_cached ex s r l i b :
  cache_inv ex s -> g_pool s !! i = Some b -> b_dev b = Some r -> b_lba b = l -> view s r l = b_data b.
Proof.
  intros Hi Hb Hd Hl. unfold view. rewrite (proj2 (lookup_iff ex s r l i Hi)) by (by exists b). by rewrite Hb.
Qed.

Lemma view_uncached ex s r l : cache_inv ex s -> (forall i, ~ caches s i r l) -> view s r l = contents (driver s) r l.
Proof. intros Hi Hn. unfold view. by rewrite (proj2 (lookup_none ex s r l Hi)). Qed.

(** A view is a sector. *)
Lemma view_sector ex s r l : cache_inv ex s -> is_sector (view s r l).
Proof.
  intros Hi. unfold view. destruct (lookup r l s) as [i|] eqn:E; [|apply contents_sector].
  apply (lookup_iff ex) in E as (b & Hb & _); [|done]. rewrite Hb. by apply (ci_data _ _ Hi i b).
Qed.

(** Two states with the same keys cache the same sectors. *)
Definition key b : option nat * Z := (b_dev b, b_lba b).
Definition same_keys s s' : Prop := forall i, key <$> g_pool s' !! i = key <$> g_pool s !! i.

Lemma same_keys_caches s s' i r l : same_keys s s' -> caches s' i r l <-> caches s i r l.
Proof.
  intros Hk. specialize (Hk i). unfold caches. destruct (g_pool s' !! i) as [b'|], (g_pool s !! i) as [b|]; simpl in Hk; try done.
  - injection Hk as E1 E2. split; intros (x & [= <-] & H1 & H2); eexists; (split; [done|]); split; congruence.
Qed.

(** The frame of the invariant: same keys, chains and LRU set. *)
Lemma inv_frame ex ex' s s' :
  cache_inv ex s -> same_keys s s' -> g_buckets s' = g_buckets s -> g_lru s' ≡ₚ g_lru s ->
  (forall i b, g_pool s' !! i = Some b -> is_sector (b_data b) /\ 0 <= b_refs b) ->
  (forall i b, g_pool s' !! i = Some b -> b_dev b = None -> b_dirty b = false /\ b_refs b = 0) ->
  (forall i b r, g_pool s' !! i = Some b -> b_dev b = Some r -> ex' <> Some i -> b_dirty b = false ->
     b_data b = contents (driver s') r (b_lba b)) ->
  cache_inv ex' s'.
Proof.
  intros Hi Hk Hb Hl Hdata Hfree Hclean. split; [| | | | |done|done|done].
  - assert (E : length (key <$> g_pool s') = length (key <$> g_pool s)).
    { f_equal. apply list_eq. intros i. rewrite !list_lookup_fmap. apply Hk. }
    rewrite !length_fmap in E. rewrite E. apply Hi.
  - rewrite Hb. apply Hi.
  - rewrite Hl. apply Hi.
  - intros h c Hc. rewrite Hb in Hc. destruct (ci_chain _ _ Hi h c Hc) as [Hn Hm]. split; [done|].
    intros i. rewrite Hm. by setoid_rewrite (same_keys_caches s s' i _ _ Hk).
  - intros i j r l. rewrite !(same_keys_caches s s') by done. apply Hi.
Qed.

(** The view only depends on keys, data and disk. *)
Lemma view_frame ex ex' s s' r l :
  cache_inv ex s -> cache_inv ex' s' -> same_keys s s' ->
  (forall i b b', g_pool s !! i = Some b -> g_pool s' !! i = Some b' -> caches s i r l -> b_data b' = b_data b) ->
  ((forall i, ~ caches s i r l) -> contents (driver s') r l = contents (driver s) r l) ->
  view s' r l = view s r l.
Proof.
  intros Hi Hi' Hk Hd Hc. destruct (lookup r l s) as [i|] eqn:E.
  - apply (lookup_iff ex) in E; [|done]. pose proof (proj2 (same_keys_caches s s' i r l Hk) E) as E'.
    pose proof E as (b & Hb & Hd1 & Hd2). pose proof E' as (b' & Hb' & Hd1' & Hd2').
    rewrite (view_cached ex s r l i b), (view_cached ex' s' r l i b') by done. by eapply Hd.
  - pose proof (proj1 (lookup_none ex s r l Hi) E) as En.
    assert (En' : forall i, ~ caches s' i r l) by (intros i; rewrite (same_keys_caches s s') by done; apply En).
    rewrite (view_uncached ex s r l Hi En), (view_uncached ex' s' r l Hi' En'). by apply Hc.
Qed.

(** *** Single steps *)

Lemma key_alter i f s : (forall b, key (f b) = key b) -> same_keys s (upd_buf i f s).
Proof.
  intros Hf j. simpl. destruct (decide (j = i)) as [->|].
  - rewrite list_lookup_alter, decide_True by done. destruct (g_pool s !! i); simpl; [by rewrite Hf|done].
  - by rewrite list_lookup_alter_ne.
Qed.

Lemma pool_alter i f s j b' :
  g_pool (upd_buf i f s) !! j = Some b' ->
  exists b, g_pool s !! j = Some b /\ b' = if decide (j = i) then f b else b.
Proof.
  simpl. destruct (decide (j = i)) as [->|].
  - rewrite list_lookup_alter, decide_True by done. intros (b & ? & ->)%fmap_Some. by exists b.
  - rewrite list_lookup_alter_ne by done. intros Hj. by exists b'.
Qed.

(** Changing the reference count of a cached buffer. *)
Lemma refs_inv ex i f s :
  cache_inv ex s -> (forall b, g_pool s !! i = Some b -> 0 <= f (b_refs b)) -> (f 0 = 0 \/ exists r l, caches s i r l) ->
  cache_inv ex (upd_buf i (set_refs f) s) /\ (forall r l, view (upd_buf i (set_refs f) s) r l = view s r l).
Proof.
  intros Hi Hf Hz. pose proof (key_alter i (set_refs f) s (fun b => eq_refl)) as Hk.
  assert (Hi' : cache_inv ex (upd_buf i (set_refs f) s)).
  { eapply inv_frame; [exact Hi|exact Hk|done|done| | |].
    - intros j b' (b & Hb & ->)%pool_alter. destruct (ci_data _ _ Hi j b Hb). case_decide; subst; simpl; auto.
    - intros j b' (b & Hb & ->)%pool_alter. case_decide; [subst j|by apply (ci_free _ _ Hi j)]. simpl.
      intros Hd. destruct (ci_free _ _ Hi i b Hb Hd) as [-> ->].
      destruct Hz as [->|(r & l & b2 & Hb2 & Hr & _)]; [done|congruence].
    - intros j b' r (b & Hb & ->)%pool_alter. case_decide; [subst j|]; intros Hd He Hc; exact (ci_clean _ _ Hi _ b r Hb Hd He Hc). }
  split; [done|]. intros r l. eapply view_frame; [exact Hi|exact Hi'|exact Hk| |done].
  intros j b b' Hb (b2 & Hb2 & ->)%pool_alter _. assert (b2 = b) as -> by congruence. by case_decide.
Qed.

Lemma without_notin i (l : list nat) : i ∉ l -> without i l = l.
Proof.
  unfold without. induction l as [|x l IH]; intros Hn; [done|]. rewrite not_elem_of_cons in Hn. destruct Hn as [Hx Hn].
  rewrite filter_cons, decide_True by congruence. by rewrite IH.
Qed.

Lemma without_perm i (l : list nat) : i ∈ l -> NoDup l -> i :: without i l ≡ₚ l.
Proof.
  unfold without. induction l as [|x l IH]; intros Hin Hnd; [by apply not_elem_of_nil in Hin|].
  apply NoDup_cons in Hnd as [Hx Hnd]. rewrite filter_cons. destruct (decide (x = i)) as [->|Hne].
  - rewrite decide_False by (intros Hc; done). f_equiv. fold (without i l). by rewrite without_notin.
  - rewrite decide_True by done. rewrite Permutation_swap. f_equiv. apply IH; [|done].
    by apply elem_of_cons in Hin as [->|?].
Qed.

Lemma touch_inv ex i s :
  cache_inv ex s -> (i < BCACHE_BUFFERS)%nat ->
  cache_inv ex (lru_touch i s) /\ (forall r l, view (lru_touch i s) r l = view s r l) /\
  g_pool (lru_touch i s) = g_pool s.
Proof.
  intros Hi Hlt. unfold lru_touch. case_bool_decide; [done|].
  assert (Hp : i :: without i (g_lru s) ≡ₚ g_lru s).
  { apply without_perm; rewrite (ci_lru _ _ Hi); [apply elem_of_seq; lia|apply NoDup_seq]. }
  assert (Hi' : cache_inv ex (lru_push_front i (lru_remove i s))).
  { eapply inv_frame; [exact Hi|done|done|exact Hp|apply Hi..]. }
  split_and!; [done| |done]. intros r l. eapply view_frame; [exact Hi|exact Hi'|done| |done].
  intros j b b' Hb Hb' _. simpl in Hb'. congruence.
Qed.

(** Storing data in a cached buffer marks it dirty. *)
Lemma store_inv ex i r l (g : sector -> sector) s :
  cache_inv ex s -> caches s i r l -> (ex = None \/ ex = Some i) ->
  (forall d, is_sector d -> is_sector (g d)) ->
  let s' := upd_buf i (fun b => set_dirty true (set_data (g (b_data b)) b)) s in
  cache_inv None s' /\ caches s' i r l /\
  (forall r' l', view s' r' l' = if decide (r' = r /\ l' = l) then g (view s r l) else view s r' l').
Proof.
  intros Hi Hc Hex Hg s'. pose proof (key_alter i (fun b => set_dirty true (set_data (g (b_data b)) b)) s (fun b => eq_refl)) as Hk.
  fold s' in Hk. pose proof Hc as (b0 & Hb0 & Hr0 & Hl0).
  assert (Hi' : cache_inv None s').
  { eapply inv_frame; [exact Hi|exact Hk|done|done| | |].
    - intros j b' (b & Hb & ->)%pool_alter. destruct (ci_data _ _ Hi j b Hb). case_decide; simpl; auto.
    - intros j b' (b & Hb & ->)%pool_alter. case_decide; [subst j|by apply (ci_free _ _ Hi j)]. simpl.
      intros Hd. congruence.
    - intros j b' r' (b & Hb & ->)%pool_alter. case_decide as Hj; [done|]. intros. apply (ci_clean _ _ Hi j b); [done..| |done].
      destruct Hex as [->| ->]; [done|congruence]. }
  split_and!; [done|by apply (same_keys_caches s s')|]. intros r' l'. destruct (decide (r' = r /\ l' = l)) as [[-> ->]|Hne].
  - rewrite (view_cached ex s r l i b0) by done. assert (Hb0' : g_pool s' !! i = Some (set_dirty true (set_data (g (b_data b0)) b0))).
    { simpl. by rewrite list_lookup_alter, decide_True, Hb0 by done. }
    by rewrite (view_cached None s' r l i _ Hi' Hb0').
  - eapply view_frame; [exact Hi|exact Hi'|exact Hk| |done].
    intros j b b' Hb (b2 & Hb2 & ->)%pool_alter (b3 & Hb3 & Hr3 & Hl3). assert (b2 = b) as -> by congruence.
    case_decide as Hj; [subst j|done]. destruct Hne. split; congruence.
Qed.

(** *** Writing back *)

(** A driver write inside the cached sector [l] of [r], which is dirty. *)
Lemma driver_inv s d i b r :
  cache_inv None s -> g_pool s !! i = Some b -> b_dev b = Some r -> b_dirty b = true ->
  (forall r' l', ~ (r' = r /\ l' = b_lba b) -> contents d r' l' = contents (driver s) r' l') ->
  cache_inv None (set_driver d s) /\ (forall r' l', view (set_driver d s) r' l' = view s r' l').
Proof.
  intros Hi Hb Hr Hdirty Hc. assert (Hi' : cache_inv None (set_driver d s)).
  { eapply inv_frame; [exact Hi|done|done|done|apply Hi|apply Hi|].
    intros j b' r' Hj Hr' _ Hd. simpl. rewrite Hc; [by apply (ci_clean _ _ Hi j b')|].
    intros [-> El]. assert (j = i) as -> by (eapply (ci_unique _ _ Hi); [by exists b'|by exists b]).
    simpl in Hj. congruence. }
  split; [done|]. intros r' l'. eapply view_frame; [exact Hi|exact Hi'|done| |].
  - intros j b1 b2 H1 H2 _. simpl in H2. congruence.
  - intros Hno. apply Hc. intros [-> ->]. apply (Hno i). by exists b.
Qed.

Lemma write_back_spec i s b :
  cache_inv None s -> g_pool s !! i = Some b ->
  let '(s', e) := write_back dev i s in
  e <= 0 /\ cache_inv None s' /\ (forall r l, view s' r l = view s r l) /\
  g_lru s' = g_lru s /\ g_buckets s' = g_buckets s /\ g_ready s' = g_ready s /\ g_devs s' = g_devs s /\
  g_pool s' = (if e =? 0 then alter (set_dirty false) i (g_pool s) else g_pool s) /\
  (e = 0 -> forall r, b_dev b = Some r -> contents (driver s') r (b_lba b) = b_data b).
Proof.
  intros Hi Hb. unfold write_back. rewrite Hb.
  destruct (b_dirty b) eqn:Ed; simpl negb; cbv iota.
  2: { split_and!; try done.
       - change (0 =? 0) with true. cbv iota. apply list_eq. intros j. destruct (decide (j = i)) as [->|].
         + rewrite list_lookup_alter, decide_True, Hb by done. destruct b; simpl in *; by subst.
         + by rewrite list_lookup_alter_ne.
       - intros _ r Hr. symmetry. by apply (ci_clean _ _ Hi i b r). }
  destruct (b_dev b) as [r|] eqn:Er; [|by destruct (ci_free _ _ Hi i b Hb Er); congruence].
  assert (Hfail : forall e, e < 0 -> 
    e <= 0 /\ cache_inv None s /\ (forall r l, view s r l = view s r l) /\
    g_lru s = g_lru s /\ g_buckets s = g_buckets s /\ g_ready s = g_ready s /\ g_devs s = g_devs s /\
    g_pool s = (if e =? 0 then alter (set_dirty false) i (g_pool s) else g_pool s) /\
    (e = 0 -> forall r0, Some r = Some r0 -> contents (driver s) r0 (b_lba b) = b_data b)).
  { intros e He. destruct (Z.eqb_spec e 0); [lia|]. split_and!; try done; lia. }
  unfold drv_write. destruct (dv_readonly (dev r)); [by apply Hfail|].
  destruct (dv_has_write (dev r)); simpl negb; cbv iota; [|by apply Hfail].
  destruct (range_ok dev r (b_lba b) _); simpl negb; cbv iota; [|by apply Hfail].
  destruct (ops_write r (b_lba b) [b_data b] (driver s)) as [d e] eqn:Ew.
  destruct (ops_write_ok _ _ _ _ _ _ Ew) as (He & Hout & Hin). simpl length in Hout.
  destruct (driver_inv s d i b r Hi Hb Er Ed) as [Hi1 Hv1].
  { intros r' l' Hn. apply Hout. intros [-> Hl]. apply Hn. split; [done|lia]. }
  destruct (Z.eqb_spec e 0) as [->|Hne]; [|split_and!; try done; lia].
  assert (Hcont : contents d r (b_lba b) = b_data b).
  { assert (Hsec : Forall is_sector [b_data b]) by (apply Forall_singleton; by apply (ci_data _ _ Hi i b)).
    rewrite <- (Hin eq_refl Hsec 0%nat (b_data b) eq_refl). f_equal. simpl. lia. }
  pose proof (key_alter i (set_dirty false) (set_driver d s) (fun b => eq_refl)) as Hk.
  assert (Hi2 : cache_inv None (upd_buf i (set_dirty false) (set_driver d s))).
  { eapply inv_frame; [exact Hi1|exact Hk|done|done| | |].
    - intros j b' (b2 & Hb2 & ->)%pool_alter. destruct (ci_data _ _ Hi j b2 Hb2). by case_decide.
    - intros j b' (b2 & Hb2 & ->)%pool_alter Hd. simpl in Hb2.
      case_decide; [subst j; simpl in *; congruence|by apply (ci_free _ _ Hi j)].
    - intros j b' r' (b2 & Hb2 & ->)%pool_alter Hd _ Hdi. simpl in Hb2. case_decide as Hj.
      + subst j. assert (b2 = b) as -> by congruence. simpl in *. assert (r' = r) as -> by congruence. by rewrite Hcont.
      + by apply (ci_clean _ _ Hi1 j b2). }
  split_and!; try done.
  - intros r' l'. rewrite <- Hv1. eapply view_frame; [exact Hi1|exact Hi2|exact Hk| |done].
    intros j b1 b2 H1 (b3 & H3 & ->)%pool_alter _. assert (b3 = b1) as -> by congruence. by case_decide.
  - by intros _ r0 [= <-].
Qed.

(** *** Taking a victim *)
Lemma detach_inv i s b :
  cache_inv None s -> g_pool s !! i = Some b -> b_dirty b = false -> b_refs b = 0 ->
  let s' := upd_buf i detach (hash_remove dev i s) in
  cache_inv None s' /\ (forall r l, view s' r l = view s r l) /\
  g_pool s' = <[i := detach b]> (g_pool s) /\ (forall r l, ~ caches s' i r l).
Proof.
  intros Hi Hb Hd Hr s'.
  assert (Hpool : g_pool s' = <[i := detach b]> (g_pool s)).
  { assert (E : g_pool (hash_remove dev i s) = g_pool s).
    { unfold hash_remove. rewrite Hb. by destruct (b_dev b). }
    unfold s'. simpl. rewrite E. apply list_eq. intros j. destruct (decide (j = i)) as [->|].
    - rewrite list_lookup_alter, decide_True, Hb by done. simpl.
      by rewrite list_lookup_insert_eq by (by eapply lookup_lt_Some).
    - by rewrite list_lookup_alter_ne, list_lookup_insert_ne. }
  assert (Hc : forall j r l, caches s' j r l <-> caches s j r l /\ j <> i).
  { intros j r l. unfold caches. rewrite Hpool. destruct (decide (j = i)) as [->|Hne].
    - rewrite list_lookup_insert_eq by (by eapply lookup_lt_Some). split; [|by intros [_ ?]].
      by intros (b' & [= <-] & ? & _).
    - rewrite list_lookup_insert_ne by done. tauto. }
  assert (Hpl : forall j b', g_pool s' !! j = Some b' -> (j = i /\ b' = detach b) \/ (j <> i /\ g_pool s !! j = Some b')).
  { intros j b'. rewrite Hpool. destruct (decide (j = i)) as [->|Hne].
    - rewrite list_lookup_insert_eq by (by eapply lookup_lt_Some). intros [= <-]. by left.
    - rewrite list_lookup_insert_ne by done. by right. }
  assert (Hrest : g_lru s' = g_lru s /\ driver s' = driver s).
  { unfold s', hash_remove. rewrite Hb. by destruct (b_dev b). } destruct Hrest as [Hlru Hdrv].
  assert (Hi' : cache_inv None s').
  { split.
    - rewrite Hpool, length_insert. apply Hi.
    - unfold s', hash_remove. rewrite Hb. destruct (b_dev b); simpl; rewrite ?length_alter; apply Hi.
    - rewrite Hlru. apply Hi.
    - intros h c Hh. setoid_rewrite Hc. unfold s', hash_remove in Hh. rewrite Hb in Hh.
      destruct (b_dev b) as [r|] eqn:Er; simpl in Hh.
      + destruct (decide (h = hash r (b_lba b))) as [->|Hne].
        * rewrite list_lookup_alter, decide_True in Hh by done. apply fmap_Some in Hh as (c0 & Hc0 & ->).
          destruct (ci_chain _ _ Hi _ _ Hc0) as [Hnd Hm]. split; [by apply NoDup_filter|].
          intros j. unfold without. rewrite list_elem_of_filter, Hm. split.
          -- intros (Hne & r' & l' & H1 & H2). by exists r', l'.
          -- intros (r' & l' & [H1 Hne] & H2). split; [done|by exists r', l'].
        * rewrite list_lookup_alter_ne in Hh by done. destruct (ci_chain _ _ Hi _ _ Hh) as [Hnd Hm]. split; [done|].
          intros j. rewrite Hm. split; [|intros (r' & l' & [? _] & ?); by exists r', l']. intros (r' & l' & Hcs & Ehash). exists r', l'. split_and!; try done.
          intros ->. destruct Hcs as (b' & Hb' & Hr' & Hl'). apply Hne. rewrite Hb in Hb'. injection Hb' as <-. congruence.
      + destruct (ci_chain _ _ Hi _ _ Hh) as [Hnd Hm]. split; [done|].
        intros j. rewrite Hm. split; [|intros (r' & l' & [? _] & ?); by exists r', l']. intros (r' & l' & Hcs & Ehash). exists r', l'. split_and!; try done.
        intros ->. destruct Hcs as (b' & Hb' & Hr' & _). congruence.
    - intros j k r l [H1 _]%Hc [H2 _]%Hc. by eapply (ci_unique _ _ Hi).
    - intros j b' [[-> ->]|[_ Hj]]%Hpl; [by apply (ci_data _ _ Hi i b)|by apply (ci_data _ _ Hi j)].
    - intros j b' [[-> ->]|[_ Hj]]%Hpl Hn; [done|by apply (ci_free _ _ Hi j)].
    - intros j b' r [[-> ->]|[_ Hj]]%Hpl Hn Hex Hcl; [done|]. rewrite Hdrv. by apply (ci_clean _ _ Hi j). }
  split_and!; [done| |done|].
  - intros r l. destruct (lookup r l s') as [j|] eqn:El.
    + apply (lookup_iff None) in El; [|done]. pose proof El as (b' & Hb' & Hr' & Hl').
      apply Hc in El as [Hcs Hne]. destruct (Hpl j b' Hb') as [[? _]|[_ Hj]]; [done|].
      by rewrite (view_cached None s' r l j b'), (view_cached None s r l j b').
    + pose proof (proj1 (lookup_none None s' r l Hi') El) as Hno. rewrite (view_uncached None s' r l Hi' Hno), Hdrv.
      destruct (lookup r l s) as [j|] eqn:El2.
      * apply (lookup_iff None) in El2; [|done]. destruct (decide (j = i)) as [->|Hne]; [|exfalso; apply (Hno j), Hc; done].
        destruct El2 as (b' & Hb' & Hr' & Hl'). assert (b' = b) as -> by congruence.
        rewrite (view_cached None s r l i b) by done. subst l. by rewrite (ci_clean _ _ Hi i b r).
      * by rewrite (view_uncached None s r l Hi (proj1 (lookup_none None s r l Hi) El2)).
  - intros r l. rewrite Hc. by intros [_ ?].
Qed.

Lemma victim_loop_spec order s :
  cache_inv None s -> (forall i, i ∈ order -> (i < BCACHE_BUFFERS)%nat) ->
  let '(s', x) := victim_loop dev order s in
  cache_inv None s' /\ (forall r l, view s' r l = view s r l) /\ g_ready s' = g_ready s /\ g_devs s' = g_devs s /\
  (forall r l, (forall i, ~ caches s i r l) -> forall i, ~ caches s' i r l) /\
  match x with
  | inl i => (i < BCACHE_BUFFERS)%nat /\ exists b, g_pool s' !! i = Some b /\ b_dev b = None
  | inr e => e < 0
  end.
Proof.
  revert s. induction order as [|i order IH]; intros s Hi Hin; simpl; [done|].
  assert (Hlt : (i < BCACHE_BUFFERS)%nat) by (apply Hin; left).
  destruct (lookup_lt_is_Some_2 (g_pool s) i) as [b Hb]; [by rewrite (ci_pool _ _ Hi)|]. rewrite Hb. simpl.
  destruct (Z.eqb_spec (b_refs b) 0) as [Hr|Hr]; simpl; [|apply IH; [done|]; intros j Hj; apply Hin; by right].
  pose proof (write_back_spec i s b Hi Hb) as Hw. destruct (write_back dev i s) as [s1 e].
  destruct Hw as (He & Hi1 & Hv1 & _ & _ & Hrd & Hdv & Hp1 & _).
  assert (Hkeep : forall r l, (forall i, ~ caches s i r l) -> forall i, ~ caches s1 i r l).
  { intros r l Hno j. assert (Hk : same_keys s s1).
    { intros k. rewrite Hp1. destruct (e =? 0); [|done]. exact (key_alter i (set_dirty false) s (fun _ => eq_refl) k). }
    rewrite (same_keys_caches s s1) by done. apply Hno. }
  destruct (Z.ltb_spec e 0) as [Hneg|Hpos]; [done|]. assert (e = 0) as -> by lia. simpl in Hp1.
  assert (Hb1 : g_pool s1 !! i = Some (set_dirty false b)) by (by rewrite Hp1, list_lookup_alter, decide_True, Hb).
  destruct (detach_inv i s1 (set_dirty false b) Hi1 Hb1 eq_refl Hr) as (Hi2 & Hv2 & Hp2 & Hno2).
  assert (Hrest : g_ready (hash_remove dev i s1) = g_ready s1 /\ g_devs (hash_remove dev i s1) = g_devs s1).
  { unfold hash_remove. rewrite Hb1. by destruct (b_dev _). } destruct Hrest as [Hx1 Hx2].
  split_and!; [done|intros; by rewrite Hv2, Hv1|simpl; congruence|simpl; congruence| |done|].
  - intros r l Hno j. destruct (decide (j = i)) as [->|Hne]; [apply Hno2|].
    intros (b' & Hb' & Hx). rewrite Hp2, list_lookup_insert_ne in Hb' by done. apply (Hkeep r l Hno j). by exists b'.
  - eexists. rewrite Hp2, list_lookup_insert_eq by (by eapply lookup_lt_Some). done.
Qed.

Lemma take_victim_spec s :
  cache_inv None s ->
  let '(s', x) := take_victim dev s in
  cache_inv None s' /\ (forall r l, view s' r l = view s r l) /\ g_ready s' = g_ready s /\ g_devs s' = g_devs s /\
  (forall r l, (forall i, ~ caches s i r l) -> forall i, ~ caches s' i r l) /\
  match x with
  | inl i => (i < BCACHE_BUFFERS)%nat /\ exists b, g_pool s' !! i = Some b /\ b_dev b = None
  | inr e => e < 0
  end.
Proof.
  intros Hi. apply victim_loop_spec; [done|]. intros i Hin.
  apply list_elem_of_In, in_rev, list_elem_of_In in Hin. rewrite (ci_lru _ _ Hi) in Hin. apply elem_of_seq in Hin. lia.
Qed.

(** *** Getting a buffer *)
Lemma zero_is_sector : is_sector zero_sector.
Proof. unfold is_sector, zero_sector. rewrite length_replicate. done. Qed.

Lemma install_inv i r l data s b :
  cache_inv None s -> g_pool s !! i = Some b -> b_dev b = None -> (forall j, ~ caches s j r l) -> is_sector data ->
  let s' := install dev i r l data s in
  cache_inv (Some i) s' /\ caches s' i r l /\ view s' r l = data /\ b_refs <$> g_pool s' !! i = Some 1 /\
  (forall r' l', ~ (r' = r /\ l' = l) -> view s' r' l' = view s r' l') /\
  driver s' = driver s /\ g_ready s' = g_ready s /\ g_devs s' = g_devs s /\
  (data = contents (driver s) r l -> cache_inv None s').
Proof.
  intros Hi Hb Hd Hno Hsec s'.
  pose proof (lookup_lt_Some _ _ _ Hb) as Hlt. rewrite (ci_pool _ _ Hi) in Hlt.
  set (s1 := set_buckets (alter (cons i) (hash r l)) (set_pool <[i := Buf (Some r) l 1 false data]> s)).
  assert (Hpl : forall j b', g_pool s1 !! j = Some b' ->
    (j = i /\ b' = Buf (Some r) l 1 false data) \/ (j <> i /\ g_pool s !! j = Some b')).
  { intros j b'. simpl. destruct (decide (j = i)) as [->|Hne].
    - rewrite list_lookup_insert_eq by (by eapply lookup_lt_Some). intros [= <-]. by left.
    - rewrite list_lookup_insert_ne by done. by right. }
  assert (Hc : forall j r' l', caches s1 j r' l' <-> (j = i /\ r' = r /\ l' = l) \/ (j <> i /\ caches s j r' l')).
  { intros j r' l'. split.
    - intros (b' & [[-> ->]|[Hne Hj]]%Hpl & H1 & H2); [left; by simplify_eq/=|]. right. split; [done|]. by exists b'.
    - intros [(-> & -> & ->)|[Hne (b' & Hb' & H1 & H2)]].
      + eexists. simpl. rewrite list_lookup_insert_eq by (by eapply lookup_lt_Some). done.
      + exists b'. simpl. by rewrite list_lookup_insert_ne. }
  assert (Hci : forall r' l', ~ caches s i r' l').
  { intros r' l' (b' & Hb' & Hr' & _). congruence. }
  assert (Hinv1 : cache_inv (Some i) s1).
  { split.
    - simpl. rewrite length_insert. apply Hi.
    - simpl. rewrite length_alter. apply Hi.
    - apply Hi.
    - intros h c Hh. simpl in Hh. setoid_rewrite Hc. destruct (decide (h = hash r l)) as [->|Hne].
      + rewrite list_lookup_alter, decide_True in Hh by done. apply fmap_Some in Hh as (c0 & Hc0 & ->).
        destruct (ci_chain _ _ Hi _ _ Hc0) as [Hnd Hm]. split.
        * apply NoDup_cons. split; [|done]. rewrite Hm. intros (r' & l' & Hx & _). by apply (Hci r' l').
        * intros j. rewrite elem_of_cons, Hm. split.
          -- intros [->|(r' & l' & Hx & Ex)]; [exists r, l; split; [by left|done]|].
             exists r', l'. split; [|done]. right. split; [|done]. intros ->. by apply (Hci r' l').
          -- intros (r' & l' & [(-> & -> & ->)|[Hne Hx]] & Ex); [by left|right; by exists r', l'].
      + rewrite list_lookup_alter_ne in Hh by done. destruct (ci_chain _ _ Hi _ _ Hh) as [Hnd Hm]. split; [done|].
        intros j. rewrite Hm. split.
        * intros (r' & l' & Hx & Ex). exists r', l'. split; [|done]. right. split; [|done]. intros ->. by apply (Hci r' l').
        * intros (r' & l' & [(-> & -> & ->)|[_ Hx]] & Ex); [by destruct Hne|by exists r', l'].
    - intros j k r' l' [(-> & -> & ->)|[Hj Hx]]%Hc [(-> & E1 & E2)|[Hk Hy]]%Hc.
      + done.
      + by destruct (Hno k).
      + subst. by destruct (Hno j).
      + by eapply (ci_unique _ _ Hi).
    - intros j b' [[-> ->]|[_ Hj]]%Hpl; [simpl; split; [done|lia]|by apply (ci_data _ _ Hi j)].
    - intros j b' [[-> ->]|[_ Hj]]%Hpl Hn; [done|by apply (ci_free _ _ Hi j)].
    - intros j b' r' [[-> ->]|[Hne Hj]]%Hpl Hn Hex Hcl; [done|]. by apply (ci_clean _ _ Hi j). }
  destruct (touch_inv (Some i) i s1 Hinv1 Hlt) as (Hinv2 & Hv2 & Hp2).
  assert (Hs' : s' = lru_touch i s1) by done. rewrite Hs'.
  assert (Hb1 : g_pool s1 !! i = Some (Buf (Some r) l 1 false data)).
  { simpl. by rewrite list_lookup_insert_eq by (by eapply lookup_lt_Some). }
  assert (Hrest : driver (lru_touch i s1) = driver s /\ g_ready (lru_touch i s1) = g_ready s /\ g_devs (lru_touch i s1) = g_devs s).
  { unfold lru_touch. by case_bool_decide. } destruct Hrest as (Hd1 & Hd2 & Hd3).
  split_and!; [done| | | | |done|done|done|].
  - exists (Buf (Some r) l 1 false data). by rewrite Hp2.
  - rewrite Hv2. by rewrite (view_cached (Some i) s1 r l i _ Hinv1 Hb1).
  - by rewrite Hp2, Hb1.
  - intros r' l' Hne. rewrite Hv2. destruct (lookup r' l' s) as [j|] eqn:El.
    + apply (lookup_iff None) in El; [|done]. pose proof El as (b' & Hb' & Hr' & Hl').
      assert (j <> i) by (intros ->; by apply (Hci r' l')).
      rewrite (view_cached None s r' l' j b') by done. eapply view_cached; [exact Hinv1|..|done|done].
      simpl. by rewrite list_lookup_insert_ne.
    + pose proof (proj1 (lookup_none None s r' l' Hi) El) as Hn. rewrite (view_uncached None s r' l' Hi Hn).
      rewrite (view_uncached (Some i) s1 r' l' Hinv1); [done|]. intros j. rewrite Hc. intros [(_ & -> & ->)|[_ Hx]]; [by destruct Hne|by apply (Hn j)].
  - intros Hdata. destruct Hinv2 as [a1 a2 a3 a4 a5 a6 a7 a8]. split; [done..|].
    intros j b' r' Hj Hr' _ Hcl. destruct (decide (j = i)) as [->|Hne].
    + rewrite Hp2, Hb1 in Hj. injection Hj as <-. simpl in *. injection Hr' as <-. by rewrite Hd1.
    + apply (a8 j b' r'); [done..|congruence|done].
Qed.

Lemma caches_bound ex s i r l : cache_inv ex s -> caches s i r l -> (i < BCACHE_BUFFERS)%nat.
Proof. intros Hi (b & Hb & _). rewrite <- (ci_pool _ _ Hi). by eapply lookup_lt_Some. Qed.

(** [get_buf] returns a buffer that caches the sector; reading, nothing
    visible changes; not reading, only that sector may. *)
Lemma get_buf_spec r l (read : bool) s :
  cache_inv None s ->
  let '(s', x) := get_buf dev r l read s in
  g_ready s' = g_ready s /\ g_devs s' = g_devs s /\
  match x with
  | inl i => caches s' i r l /\ 1 <= default 0 (b_refs <$> g_pool s' !! i) /\
      cache_inv (if read then None else Some i) s' /\
      (forall r' l', ~ (r' = r /\ l' = l) -> view s' r' l' = view s r' l') /\
      (read = true -> view s' r l = view s r l)
  | inr e => e < 0 /\ cache_inv None s' /\ forall r' l', view s' r' l' = view s r' l'
  end.
Proof.
  intros Hi. unfold get_buf. destruct (lookup r l s) as [i|] eqn:El.
  - apply (lookup_iff None) in El; [|done].
    destruct (refs_inv None i (fun n => n + 1) s Hi) as [Hi1 Hv1]; [intros b Hb; destruct (ci_data _ _ Hi i b Hb); lia|right; by exists r, l|].
    destruct (touch_inv None i _ Hi1) as (Hi2 & Hv2 & Hp2); [exact (caches_bound None s i r l Hi El)|].
    pose proof El as (b & Hb & Hr & Hl). destruct (ci_data _ _ Hi i b Hb) as [_ Hrefs].
    assert (Hb1 : g_pool (lru_touch i (upd_buf i (set_refs (fun n => n + 1)) s)) !! i = Some (set_refs (fun n => n + 1) b)).
    { rewrite Hp2. simpl. by rewrite list_lookup_alter, decide_True, Hb. }
    split_and!; [unfold lru_touch; by case_bool_decide..| | | | |].
    + eexists. split; [exact Hb1|]. done.
    + rewrite Hb1. simpl. lia.
    + destruct read; [done|]. destruct Hi2 as [a1 a2 a3 a4 a5 a6 a7 a8]. split; [done..|].
      intros j b' r' H1 H2 _ H4. by apply (a8 j b' r').
    + intros. by rewrite Hv2, Hv1.
    + intros. by rewrite Hv2, Hv1.
  - pose proof (proj1 (lookup_none None s r l Hi) El) as Hno.
    pose proof (take_victim_spec s Hi) as Ht. destruct (take_victim dev s) as [s1 [i|e]].
    2: { destruct Ht as (Hi1 & Hv1 & Hrd & Hdv & _ & He). done. }
    destruct Ht as (Hi1 & Hv1 & Hrd & Hdv & Hkeep & Hlt & b & Hb & Hd). specialize (Hkeep r l Hno).
    assert (Hdone : forall s2 data, cache_inv None s2 -> g_pool s2 = g_pool s1 ->
      g_ready s2 = g_ready s1 -> g_devs s2 = g_devs s1 -> (forall r' l', view s2 r' l' = view s1 r' l') -> is_sector data ->
      (read = true -> data = contents (driver s2) r l) ->
      let s' := install dev i r l data s2 in
      g_ready s' = g_ready s /\ g_devs s' = g_devs s /\ caches s' i r l /\ 1 <= default 0 (b_refs <$> g_pool s' !! i) /\
      cache_inv (if read then None else Some i) s' /\ (forall r' l', ~ (r' = r /\ l' = l) -> view s' r' l' = view s r' l') /\
      (read = true -> view s' r l = view s r l)).
    { intros s2 data Hi2 Hp2 Hr2 Hd2 Hv2 Hsec Hdata s'.
      assert (Hno2 : forall j, ~ caches s2 j r l) by (intros j; unfold caches; rewrite Hp2; apply Hkeep).
      destruct (install_inv i r l data s2 b Hi2 ltac:(by rewrite Hp2) Hd Hno2 Hsec) as (A1 & A2 & A3 & A4 & A5 & A6 & A7 & A8 & A9).
      fold s' in A1, A2, A3, A4, A5, A6, A7, A8, A9. split_and!; [congruence|congruence|done|rewrite A4; simpl; lia| | |].
      - destruct read; [by apply A9, Hdata|done].
      - intros r' l' Hne. by rewrite A5, Hv2, Hv1.
      - intros Hr. rewrite A3, Hdata by done. rewrite <- (Hv1 r l), <- Hv2. symmetry. by apply (view_uncached None). }
    destruct read.
    + unfold drv_read. 
      assert (Herr : forall s2 e, cache_inv None s2 -> (forall r' l', view s2 r' l' = view s1 r' l') -> g_ready s2 = g_ready s1 ->
         g_devs s2 = g_devs s1 -> e < 0 -> g_ready s2 = g_ready s /\ g_devs s2 = g_devs s /\ e < 0 /\ cache_inv None s2 /\
         forall r' l', view s2 r' l' = view s r' l').
      { intros s2 e H1 H2 H3 H4 He. split_and!; [congruence|congruence|done|done|]. intros. by rewrite H2, Hv1. }
      destruct (dv_has_read (dev r)); simpl negb; cbv iota; [|by apply Herr].
      destruct (range_ok dev r l 1); simpl negb; cbv iota; [|by apply Herr].
      destruct (ops_read r l 1 (driver s1)) as [[d e] out] eqn:Er. destruct (ops_read_ok _ _ _ _ _ _ _ Er) as (He & Hsame & Hout).
      assert (Hi2 : cache_inv None (set_driver d s1)).
      { eapply inv_frame; [exact Hi1|done|done|done|apply Hi1|apply Hi1|]. intros j b' r' H1 H2 _ H4. simpl. rewrite Hsame. by apply (ci_clean _ _ Hi1 j b'). }
      assert (Hv2 : forall r' l', view (set_driver d s1) r' l' = view s1 r' l').
      { intros r' l'. eapply view_frame; [exact Hi1|exact Hi2|done| |intros; apply Hsame]. intros j b1 b2 H1 H2 _. simpl in H2. congruence. }
      destruct (Z.ltb_spec e 0); [by apply Herr|]. assert (e = 0) as -> by lia. specialize (Hout eq_refl).
      assert (Hh : default [] (head out) = contents (driver s1) r l) by (rewrite Hout; done). rewrite Hh.
      apply (Hdone (set_driver d s1)); try done; first [apply contents_sector|intros _; simpl; symmetry; apply Hsame].
    + by apply (Hdone s1).
Qed.

(** *** Sector loops *)
Lemma drv_read_spec r l n s :
  cache_inv None s ->
  let '(s', e, out) := drv_read dev r l n s in
  e <= 0 /\ cache_inv None s' /\ (forall r' l', view s' r' l' = view s r' l') /\
  g_ready s' = g_ready s /\ g_devs s' = g_devs s /\ (e = 0 -> out = contents (driver s) r <$> seqZ l n).
Proof.
  intros Hi. unfold drv_read. destruct (negb (dv_has_read (dev r))); [done|].
  destruct (negb (range_ok dev r l n)); [done|].
  destruct (ops_read r l n (driver s)) as [[d e] out] eqn:Er. destruct (ops_read_ok _ _ _ _ _ _ _ Er) as (He & Hsame & Hout).
  assert (Hi2 : cache_inv None (set_driver d s)).
  { eapply inv_frame; [exact Hi|done|done|done|apply Hi|apply Hi|]. intros j b' r' H1 H2 _ H4. simpl. rewrite Hsame. by apply (ci_clean _ _ Hi j b'). }
  split_and!; try done. intros r' l'. eapply view_frame; [exact Hi|exact Hi2|done| |intros; apply Hsame].
  intros j b1 b2 H1 H2 _. simpl in H2. congruence.
Qed.

Lemma run_length_spec fuel r abs count step s :
  1 <= step -> step <= Z.max 1 count -> 0 <= abs -> abs + count <= 2 ^ 64 ->
  let n := run_length dev fuel r abs count step s in
  step <= n <= Z.max 1 count /\ forall k, step <= k < n -> lookup r (abs + k) s = None.
Proof.
  revert step. induction fuel as [|fuel IH]; intros step H1 H2 Ha Hc; cbn [run_length]; [cbv zeta; split; [lia|intros; lia]|].
  destruct ((step <? count) && (step <? BLK_READ_RUN)) eqn:E; simpl; [|split; [lia|intros; lia]].
  case_bool_decide as El; [|split; [lia|intros; lia]].
  assert (Hu : u64 (abs + step) = abs + step) by (apply u64_small; unfold is_u64; lia). rewrite Hu in El.
  destruct (IH (step + 1)) as [Hb Hk]; [lia..|]. split; [lia|]. intros k Hk'.
  destruct (decide (k = step)) as [->|]; [done|]. apply Hk. lia.
Qed.

Lemma read_loop_spec fuel r abs count s :
  cache_inv None s -> 0 <= count <= Z.of_nat fuel -> 0 <= abs -> abs + count < 2 ^ 64 ->
  let '(s', e, out) := read_loop dev fuel r abs count s in
  e <= 0 /\ cache_inv None s' /\ (forall r' l', view s' r' l' = view s r' l') /\
  g_ready s' = g_ready s /\ g_devs s' = g_devs s /\ (e = 0 -> out = view s r <$> seqZ abs count).
Proof.
  revert abs count s. induction fuel as [|fuel IH]; intros abs count s Hi Hc Ha Hmax; cbn [read_loop].
  { assert (count = 0) as -> by lia. done. }
  destruct (Z.eqb_spec count 0) as [->|Hnz]; [done|].
  destruct (lookup r abs s) as [i|] eqn:El.
  - apply (lookup_iff None) in El; [|done]. pose proof (caches_bound None s i r abs Hi El) as Hlt.
    destruct (touch_inv None i s Hi Hlt) as (Hi1 & Hv1 & _). rewrite u64_small by (unfold is_u64; lia).
    specialize (IH (abs + 1) (count - 1) _ Hi1 ltac:(lia) ltac:(lia) ltac:(lia)).
    destruct (read_loop dev fuel r (abs + 1) (count - 1) (lru_touch i s)) as [[s' e] out].
    destruct IH as (He & Hi' & Hv' & Hr' & Hd' & Hout). split_and!; try done.
    + intros. by rewrite Hv', Hv1.
    + rewrite Hr'. unfold lru_touch. by case_bool_decide.
    + rewrite Hd'. unfold lru_touch. by case_bool_decide.
    + intros He0. rewrite (Hout He0). rewrite (seqZ_cons abs count) by lia. rewrite fmap_cons. f_equal.
      * destruct El as (b & Hb & Hr & Hl). rewrite Hb. simpl. symmetry. by eapply view_cached.
      * replace (Z.succ abs) with (abs + 1) by lia. replace (Z.pred count) with (count - 1) by lia.
        apply list_fmap_ext. intros k l _. apply Hv1.
  - destruct (run_length_spec (Z.to_nat BLK_READ_RUN) r abs count 1 s) as [Hn Hk]; [lia..|].
    set (n := run_length dev (Z.to_nat BLK_READ_RUN) r abs count 1 s) in *.
    pose proof (drv_read_spec r abs n s Hi) as Hd. destruct (drv_read dev r abs n s) as [[s1 e1] out1].
    destruct Hd as (He1 & Hi1 & Hv1 & Hr1 & Hd1 & Hout1).
    destruct (Z.eqb_spec e1 0) as [->|Hne]; simpl negb; cbv iota; [|split_and!; try done; lia].
    rewrite u64_small by (unfold is_u64; lia).
    specialize (IH (abs + n) (count - n) s1 Hi1 ltac:(lia) ltac:(lia) ltac:(lia)).
    destruct (read_loop dev fuel r (abs + n) (count - n) s1) as [[s' e] out].
    destruct IH as (He & Hi' & Hv' & Hr' & Hd' & Hout). split_and!; [done|done| |congruence|congruence|].
    + intros. by rewrite Hv', Hv1.
    + intros He0. rewrite (Hout He0), (Hout1 eq_refl). replace count with (n + (count - n)) at 2 by lia.
      rewrite seqZ_app by lia. rewrite fmap_app. f_equal.
      * apply list_fmap_ext. intros k l Hl. apply lookup_seqZ in Hl as [-> Hlt]. symmetry.
        apply (view_uncached None); [done|]. apply (lookup_none None); [done|].
        destruct k as [|k]; [rewrite Z.add_0_r; done|]. apply Hk. lia.
      * apply list_fmap_ext. intros k l _. apply Hv1.
Qed.

Lemma upd_buf_compose i f g s : upd_buf i f (upd_buf i g s) = upd_buf i (fun b => f (g b)) s.
Proof. unfold upd_buf, set_pool. simpl. f_equal. apply list_alter_alter_eq. Qed.

Lemma caches_upd i f s j r l : (forall b, key (f b) = key b) -> caches (upd_buf i f s) j r l <-> caches s j r l.
Proof. intros Hf. apply same_keys_caches. by apply key_alter. Qed.

(** [memcpy] into the buffer, [dirty = true], [refs--]. *)
Lemma store_buf_spec ex i r l x s :
  cache_inv ex s -> (ex = None \/ ex = Some i) -> caches s i r l -> 1 <= default 0 (b_refs <$> g_pool s !! i) -> is_sector x ->
  cache_inv None (store_buf i x s) /\
  forall r' l', view (store_buf i x s) r' l' = if decide (r' = r /\ l' = l) then x else view s r' l'.
Proof.
  intros Hi Hex Hc Hr Hx.
  destruct (store_inv ex i r l (fun _ => x) s Hi Hc Hex (fun _ _ => Hx)) as (Hi1 & Hc1 & Hv1).
  set (s1 := upd_buf i (fun b => set_dirty true (set_data x b)) s) in *.
  assert (E : store_buf i x s = upd_buf i (set_refs (fun n => n - 1)) s1).
  { unfold s1. rewrite upd_buf_compose. done. }
  rewrite E. destruct (refs_inv None i (fun n => n - 1) s1 Hi1) as [Hi2 Hv2].
  - intros b (b0 & Hb0 & ->)%pool_alter. rewrite Hb0 in Hr. case_decide; simpl in *; lia.
  - right. by exists r, l.
  - split; [done|]. intros r' l'. by rewrite Hv2, Hv1.
Qed.

Lemma write_loop_spec r abs data s :
  cache_inv None s -> Forall is_sector data -> 0 <= abs -> abs + Z.of_nat (length data) < 2 ^ 64 ->
  let '(s', e) := write_loop dev r abs data s in
  e <= 0 /\ cache_inv None s' /\ g_ready s' = g_ready s /\ g_devs s' = g_devs s /\
  exists n, (n <= length data)%nat /\ (e = 0 -> n = length data) /\
    forall r' l', view s' r' l' = if decide (r' = r /\ abs <= l' < abs + Z.of_nat n)
                                  then data !!! Z.to_nat (l' - abs) else view s r' l'.
Proof.
  revert abs s. induction data as [|x data IH]; intros abs s Hi Hsec Ha Hmax; cbn [write_loop].
  { split_and!; try done. exists 0%nat. split_and!; [done|done|]. intros. rewrite decide_False by lia. done. }
  inversion_clear Hsec as [|? ? Hx Hsec']. cbn [length] in Hmax.
  pose proof (get_buf_spec r abs false s Hi) as Hg. destruct (get_buf dev r abs false s) as [s1 [i|e]].
  2: { destruct Hg as (Hr & Hd & He & Hi1 & Hv). split_and!; try done; [lia|]. exists 0%nat. split_and!; [lia|lia|].
       intros. rewrite decide_False by lia. done. }
  destruct Hg as (Hr & Hd & Hc & Hrefs & Hi1 & Hv1 & _).
  destruct (store_buf_spec (Some i) i r abs x s1 Hi1 (or_intror eq_refl) Hc Hrefs Hx) as [Hi2 Hv2].
  rewrite u64_small by (unfold is_u64; lia).
  specialize (IH (abs + 1) _ Hi2 Hsec' ltac:(lia) ltac:(lia)).
  destruct (write_loop dev r (abs + 1) data (store_buf i x s1)) as [s' e].
  destruct IH as (He & Hi' & Hr' & Hd' & n & Hn & Hn0 & Hv'). simpl in Hr', Hd'. split_and!; [done|done|congruence|congruence|].
  exists (S n). split_and!; [simpl; lia|intros H2; rewrite (Hn0 H2); done|]. intros r' l'. rewrite Hv', Hv2.
  destruct (decide (r' = r /\ abs + 1 <= l' < abs + 1 + Z.of_nat n)) as [[-> Hl]|Hn1].
  - rewrite decide_True by lia. replace (Z.to_nat (l' - abs)) with (S (Z.to_nat (l' - (abs + 1)))) by lia. done.
  - destruct (decide (r' = r /\ l' = abs)) as [[-> ->]|Hn2].
    + rewrite decide_True by lia. by rewrite Z.sub_diag.
    + rewrite Hv1 by done. rewrite decide_False; [done|]. intros [-> Hl]. destruct (decide (l' = abs)); [tauto|lia].
Qed.

(** *** Flushing *)

(** Every buffer of [r] among [is_] is clean. *)
Definition all_clean r (is_ : list nat) s : Prop :=
  forall i b, i ∈ is_ -> g_pool s !! i = Some b -> b_dev b = Some r -> b_dirty b = false.

Lemma flush_loop_spec r is_ s first :
  cache_inv None s -> first <= 0 ->
  let '(s', e) := flush_loop dev r is_ s first in
  e <= 0 /\ cache_inv None s' /\ (forall r' l', view s' r' l' = view s r' l') /\
  g_ready s' = g_ready s /\ g_devs s' = g_devs s /\ same_keys s s' /\
  (forall i, b_refs <$> g_pool s' !! i = b_refs <$> g_pool s !! i) /\
  (forall i b b', g_pool s !! i = Some b -> g_pool s' !! i = Some b' -> b_dirty b = false -> b_dirty b' = false) /\
  (e = 0 -> first = 0 /\ all_clean r is_ s').
Proof.
  revert s first. induction is_ as [|i is_ IH]; intros s first Hi Hf; cbn [flush_loop].
  { split_and!; try done; [intros; congruence|]. intros ->. split; [done|]. intros i b Hin. by apply not_elem_of_nil in Hin. }
  assert (Hskip : (forall b, g_pool s !! i = Some b -> b_dev b = Some r -> b_dirty b = false) ->
    let '(s', e) := flush_loop dev r is_ s first in
    e <= 0 /\ cache_inv None s' /\ (forall r' l', view s' r' l' = view s r' l') /\
    g_ready s' = g_ready s /\ g_devs s' = g_devs s /\ same_keys s s' /\
    (forall i, b_refs <$> g_pool s' !! i = b_refs <$> g_pool s !! i) /\
    (forall i b b', g_pool s !! i = Some b -> g_pool s' !! i = Some b' -> b_dirty b = false -> b_dirty b' = false) /\
    (e = 0 -> first = 0 /\ all_clean r (i :: is_) s')).
  { intros Hcl. specialize (IH s first Hi Hf). destruct (flush_loop dev r is_ s first) as [s' e].
    destruct IH as (H1 & H2 & H3 & H4 & H5 & H6 & H6r & H7 & H8). split_and!; try done.
    intros He. destruct (H8 He) as [Hf0 Hall]. split; [done|]. intros j b' Hin Hb' Hd.
    apply elem_of_cons in Hin as [->|Hin]; [|by eapply Hall].
    pose proof (H6 i) as Hk. rewrite Hb' in Hk. destruct (g_pool s !! i) as [b|] eqn:Eb; [|done]. simpl in Hk.
    injection Hk as Hk1 Hk2. eapply H7; [exact Eb|exact Hb'|]. apply Hcl; [done|congruence]. }
  destruct (g_pool s !! i) as [b|] eqn:Eb; [|apply Hskip; done].
  destruct (bool_decide (b_dev b <> Some r) || negb (b_dirty b)) eqn:Econd.
  { apply Hskip. intros b' [= <-] Hd. apply orb_prop in Econd as [E|E].
    - by apply bool_decide_eq_true_1 in E.
    - by destruct (b_dirty b). }
  pose proof (write_back_spec i s b Hi Eb) as Hw. destruct (write_back dev i s) as [s1 e1].
  destruct Hw as (He1 & Hi1 & Hv1 & _ & _ & Hr1 & Hd1 & Hp1 & _).
  assert (Hk1 : same_keys s s1).
  { intros k. rewrite Hp1. destruct (e1 =? 0); [|done]. exact (key_alter i (set_dirty false) s (fun _ => eq_refl) k). }
  assert (Href1 : forall k, b_refs <$> g_pool s1 !! k = b_refs <$> g_pool s !! k).
  { intros k. rewrite Hp1. destruct (e1 =? 0); [|done]. destruct (decide (k = i)) as [->|].
    - rewrite list_lookup_alter, decide_True by done. by destruct (g_pool s !! i).
    - by rewrite list_lookup_alter_ne. }
  assert (Hcl1 : forall j b0 b', g_pool s !! j = Some b0 -> g_pool s1 !! j = Some b' -> b_dirty b0 = false -> b_dirty b' = false).
  { intros j b0 b' H1 H2 H3. rewrite Hp1 in H2. destruct (e1 =? 0); [|congruence].
    destruct (decide (j = i)) as [->|].
    - rewrite list_lookup_alter, decide_True, H1 in H2 by done. by injection H2 as <-.
    - rewrite list_lookup_alter_ne in H2 by done. congruence. }
  set (first' := if (e1 <? 0) && (first =? 0) then e1 else first).
  specialize (IH s1 first' Hi1 ltac:(unfold first'; split_ifs; lia)).
  destruct (flush_loop dev r is_ s1 first') as [s' e]. destruct IH as (H1 & H2 & H3 & H4 & H5 & H6 & H6r & H7 & H8).
  split_and!; [done|done|intros; by rewrite H3, Hv1|congruence|congruence| | | |].
  - intros k. by rewrite H6, Hk1.
  - intros k. by rewrite H6r, Href1.
  - intros j b0 b' Hj Hj' Hcl. destruct (g_pool s1 !! j) as [b1|] eqn:E1.
    + eapply H7; [exact E1|exact Hj'|]. by eapply Hcl1.
    + pose proof (H6 j) as Hx. rewrite E1, Hj' in Hx. done.
  - intros He. destruct (H8 He) as [Hf0 Hall].
    assert (He10 : e1 = 0 /\ first = 0).
    { unfold first' in Hf0. destruct ((e1 <? 0) && (first =? 0)) eqn:Ex; lia. }
    destruct He10 as [-> ->]. split; [done|]. intros j b' Hin Hb' Hd. apply elem_of_cons in Hin as [->|Hin]; [|by eapply Hall].
    simpl in Hp1. assert (E1 : g_pool s1 !! i = Some (set_dirty false b)) by (by rewrite Hp1, list_lookup_alter, decide_True, Eb).
    by eapply (H7 i _ _ E1 Hb').
Qed.

(** A flush that succeeds leaves the disk equal to the view. *)
Lemma flush_root_spec r s :
  cache_inv None s -> g_ready s = true ->
  let '(s', e) := flush_root_locked dev r s in
  e <= 0 /\ cache_inv None s' /\ (forall r' l', view s' r' l' = view s r' l') /\
  g_ready s' = true /\ g_devs s' = g_devs s /\
  (forall i, b_refs <$> g_pool s' !! i = b_refs <$> g_pool s !! i) /\
  (e = 0 -> all_clean r (seq 0 BCACHE_BUFFERS) s' /\ forall l, contents (driver s') r l = view s' r l).
Proof.
  intros Hi Hrdy. unfold flush_root_locked. rewrite Hrdy.
  pose proof (flush_loop_spec r (seq 0 BCACHE_BUFFERS) s 0 Hi ltac:(lia)) as Hf.
  destruct (flush_loop dev r (seq 0 BCACHE_BUFFERS) s 0) as [s1 e1].
  destruct Hf as (He & Hi1 & Hv1 & Hr1 & Hd1 & Hk & Hrefs & _ & Hcl).
  assert (Hdisk : forall s2, cache_inv None s2 -> all_clean r (seq 0 BCACHE_BUFFERS) s2 -> forall l, contents (driver s2) r l = view s2 r l).
  { intros s2 Hi2 Hall l. destruct (lookup r l s2) as [i|] eqn:El.
    - apply (lookup_iff None) in El; [|done]. pose proof (caches_bound None s2 i r l Hi2 El) as Hlt.
      destruct El as (b & Hb & Hr & Hl). rewrite (view_cached None s2 r l i b) by done. subst l. symmetry.
      apply (ci_clean _ _ Hi2 i b r); [done..|]. eapply (Hall i b); [|done|done]. apply elem_of_seq. lia.
    - symmetry. apply (view_uncached None); [done|]. by apply (lookup_none None). }
  destruct (Z.eqb_spec e1 0) as [->|Hne]; simpl.
  - destruct (dv_has_flush (dev r)).
    + destruct (ops_flush r (driver s1)) as [d e] eqn:Ef. destruct (ops_flush_ok _ _ _ _ Ef) as [He' Hsame].
      assert (Hi2 : cache_inv None (set_driver d s1)).
      { eapply inv_frame; [exact Hi1|done|done|done|apply Hi1|apply Hi1|]. intros j b' r' H1 H2 _ H4. simpl. rewrite Hsame. by apply (ci_clean _ _ Hi1 j b'). }
      split_and!; [done|done| |simpl; congruence|done|done|].
      * intros r' l'. rewrite <- Hv1. eapply view_frame; [exact Hi1|exact Hi2|done| |intros; apply Hsame].
        intros j b1 b2 H1 H2 _. simpl in H2. congruence.
      * intros _. destruct (Hcl eq_refl) as [_ Hall]. split; [exact Hall|]. by apply Hdisk.
    + split_and!; try done; [congruence|]. intros _. destruct (Hcl eq_refl) as [_ Hall]. split; [done|]. by apply Hdisk.
  - split_and!; try done; first [congruence|intros; lia].
Qed.

(** Dropping the buffers of a device that is clean and not referenced. *)
Lemma drop_loop_spec r is_ s :
  cache_inv None s -> all_clean r is_ s ->
  (forall i b, g_pool s !! i = Some b -> b_dev b = Some r -> b_refs b = 0) ->
  let s' := drop_loop dev r is_ s in
  cache_inv None s' /\ (forall r' l, view s' r' l = view s r' l) /\ g_ready s' = g_ready s /\
  g_devs s' = g_devs s /\ driver s' = driver s /\
  (forall i b, g_pool s' !! i = Some b -> b_dev b = Some r -> (i ∉ is_) /\ g_pool s !! i = Some b).
Proof.
  revert s. induction is_ as [|i is_ IH]; intros s Hi Hcl Hrf; cbn [drop_loop].
  { split_and!; try done. intros j b Hb _. split; [apply not_elem_of_nil|done]. }
  case_bool_decide as Hc.
  - destruct (g_pool s !! i) as [b|] eqn:Eb; [|done]. simpl in Hc.
    destruct (detach_inv i s b Hi Eb) as (Hi1 & Hv1 & Hp1 & _); [eapply (Hcl i); [left|done|done]|by eapply Hrf|].
    set (s1 := upd_buf i detach (hash_remove dev i s)) in *.
    assert (E : upd_buf i (set_dirty false) s1 = s1).
    { unfold upd_buf, set_pool. destruct s1 as [p1 bu l1 rd dv dr] eqn:Es1. simpl in *. f_equal.
      apply list_eq. intros j. destruct (decide (j = i)) as [->|]; [|by rewrite list_lookup_alter_ne].
      rewrite list_lookup_alter, decide_True by done. rewrite Hp1.
      rewrite list_lookup_insert_eq by (by eapply lookup_lt_Some). simpl.
      assert (Hd : b_dirty b = false) by (eapply (Hcl i); [left|done|done]). unfold detach, set_dirty. simpl. by rewrite Hd. }
    rewrite E.
    assert (Hpl : forall j b', g_pool s1 !! j = Some b' -> b_dev b' = Some r -> j <> i /\ g_pool s !! j = Some b').
    { intros j b'. rewrite Hp1. destruct (decide (j = i)) as [->|Hne].
      - rewrite list_lookup_insert_eq by (by eapply lookup_lt_Some). by intros [= <-].
      - rewrite list_lookup_insert_ne by done. done. }
    destruct (IH s1 Hi1) as (H1 & H2 & H3 & H4 & H5 & H6).
    { intros j b' Hin Hj Hd. destruct (Hpl j b' Hj Hd) as [_ Hj']. eapply (Hcl j); [by right|done|done]. }
    { intros j b' Hj Hd. destruct (Hpl j b' Hj Hd) as [_ Hj']. by eapply Hrf. }
    assert (Hrest : g_ready s1 = g_ready s /\ g_devs s1 = g_devs s /\ driver s1 = driver s).
    { unfold s1, hash_remove. rewrite Eb. by destruct (b_dev b). } destruct Hrest as (R1 & R2 & R3).
    split_and!; [done|intros; by rewrite H2, Hv1|congruence|congruence|congruence|].
    intros j b' Hj Hd. destruct (H6 j b' Hj Hd) as [Hn Hj1]. destruct (Hpl j b' Hj1 Hd) as [Hne Hj2].
    split; [|done]. rewrite not_elem_of_cons. done.
  - destruct (IH s Hi) as (H1 & H2 & H3 & H4 & H5 & H6).
    { intros j b' Hin. apply (Hcl j). by right. } { done. }
    split_and!; try done. intros j b' Hj Hd. destruct (H6 j b' Hj Hd) as [Hn Hj1]. split; [|done].
    rewrite not_elem_of_cons. split; [|done]. intros ->. by rewrite Hj1 in Hc.
Qed.

(** *** Devices and bytes *)

(** Device [d] is the range of sectors from [base] of the root [r]; byte
    addresses fit 64 bits. *)
Record dev_ok (d r : nat) (base : Z) : Prop := {
  do_root : (dv_parent (dev d) = None /\ r = d /\ base = 0) \/
            (dv_parent (dev d) = Some r /\ dv_parent (dev r) = None /\ base = dv_start (dev d));
  do_base : 0 <= base;
  do_size : 0 <= dv_sectors (dev d);
  do_fits : base + dv_sectors (dev d) <= dv_sectors (dev r);
  do_max : dv_sectors (dev r) * BLK_SECTOR_SIZE < 2 ^ 64
}.

Lemma root_of_ok d r base lba :
  dev_ok d r base -> 0 <= lba <= dv_sectors (dev d) -> root_of dev ROOT_FUEL d lba = Some (r, base + lba).
Proof.
  intros [Hr Hb Hs Hf Hm] Hl. change ROOT_FUEL with (S (S 30)). cbn [root_of].
  destruct Hr as [(-> & -> & ->)|(-> & -> & ->)]; [done|].
  rewrite u64_small by (unfold is_u64, BLK_SECTOR_SIZE in *; lia). do 2 f_equal. lia.
Qed.

(** The byte at absolute offset [o] of root [r]. *)
Definition byte_view s r (o : Z) : Z := view s r (o / BLK_SECTOR_SIZE) !!! Z.to_nat (o mod BLK_SECTOR_SIZE).

(** A run of bytes inside one sector. *)
Lemma sector_slice s r (o n : Z) :
  is_sector (view s r (o / BLK_SECTOR_SIZE)) -> 0 <= o -> 0 <= n -> o mod BLK_SECTOR_SIZE + n <= BLK_SECTOR_SIZE ->
  take (Z.to_nat n) (drop (Z.to_nat (o mod BLK_SECTOR_SIZE)) (view s r (o / BLK_SECTOR_SIZE))) = byte_view s r <$> seqZ o n.
Proof.
  intros Hsec Ho Hn Hfit. unfold is_sector in Hsec.
  pose proof (Z.mod_pos_bound o BLK_SECTOR_SIZE ltac:(done)) as Hm.
  apply list_eq. intros k. rewrite list_lookup_fmap. destruct (decide (Z.of_nat k < n)) as [Hk|Hk].
  - rewrite lookup_seqZ_lt by lia. rewrite lookup_take_lt, lookup_drop by lia. simpl. unfold byte_view.
    assert (E : (o + Z.of_nat k) / BLK_SECTOR_SIZE = o / BLK_SECTOR_SIZE /\ (o + Z.of_nat k) mod BLK_SECTOR_SIZE = o mod BLK_SECTOR_SIZE + Z.of_nat k).
    { unfold BLK_SECTOR_SIZE in *. split; dlia. }
    destruct E as [-> ->]. rewrite Z2Nat.inj_add, Nat2Z.id by lia.
    apply list_lookup_lookup_total_lt. lia.
  - rewrite lookup_seqZ_ge by lia. rewrite lookup_take_ge by lia. done.
Qed.

Lemma patch_lookup within bytes (d : sector) (k : nat) :
  (within + length bytes <= length d)%nat -> (k < length d)%nat ->
  patch within bytes d !!! k = if decide (within <= k < within + length bytes)%nat then bytes !!! (k - within)%nat else d !!! k.
Proof.
  intros Hl Hk. unfold patch. case_decide as Hc.
  - rewrite lookup_total_app_r by (rewrite length_take; lia). rewrite length_take, lookup_total_app_l by lia. f_equal. lia.
  - destruct (decide (k < within)%nat).
    + rewrite lookup_total_app_l by (rewrite length_take; lia). by rewrite lookup_total_take_lt by lia.
    + rewrite lookup_total_app_r by (rewrite length_take; lia). rewrite length_take.
      rewrite lookup_total_app_r by lia. rewrite lookup_total_drop. f_equal. lia.
Qed.

Lemma patch_sector within bytes d : is_sector d -> (within + length bytes <= length d)%nat -> is_sector (patch within bytes d).
Proof. unfold is_sector, patch. intros <- Hl. rewrite !length_app, length_take, length_drop. lia. Qed.

(** Patching a sector of the view is writing bytes. *)
Lemma byte_view_patch s s' r (o : Z) bytes :
  0 <= o -> o mod BLK_SECTOR_SIZE + Z.of_nat (length bytes) <= BLK_SECTOR_SIZE ->
  is_sector (view s r (o / BLK_SECTOR_SIZE)) ->
  (forall r' l', view s' r' l' = if decide (r' = r /\ l' = o / BLK_SECTOR_SIZE)
     then patch (Z.to_nat (o mod BLK_SECTOR_SIZE)) bytes (view s r (o / BLK_SECTOR_SIZE)) else view s r' l') ->
  forall r' o', 0 <= o' -> byte_view s' r' o' =
    if decide (r' = r /\ o <= o' < o + Z.of_nat (length bytes)) then bytes !!! Z.to_nat (o' - o) else byte_view s r' o'.
Proof.
  intros Ho Hfit Hsec Hv r' o' Ho'. unfold byte_view. rewrite Hv. unfold is_sector in Hsec.
  pose proof (Z.mod_pos_bound o BLK_SECTOR_SIZE ltac:(done)). pose proof (Z.mod_pos_bound o' BLK_SECTOR_SIZE ltac:(done)).
  destruct (decide (r' = r /\ o' / BLK_SECTOR_SIZE = o / BLK_SECTOR_SIZE)) as [[-> Eq]|Hne].
  - rewrite patch_lookup by lia. rewrite Eq.
    assert (Ed : o' - o = o' mod BLK_SECTOR_SIZE - o mod BLK_SECTOR_SIZE) by (unfold BLK_SECTOR_SIZE in *; dlia).
    destruct (decide (_ <= _ < _)%nat) as [Hin|Hout]; destruct (decide (r = r /\ _)) as [[_ Hin']|Hout']; try done; try lia.
    f_equal. lia.
  - destruct (decide (r' = r /\ o <= o' < o + Z.of_nat (length bytes))) as [[-> Hin]|]; [|done].
    destruct Hne. split; [done|]. unfold BLK_SECTOR_SIZE in *. dlia.
Qed.

Lemma brelse_spec i s :
  cache_inv None s -> cache_inv None (brelse i s) /\ forall r l, view (brelse i s) r l = view s r l.
Proof.
  intros Hi. apply refs_inv; [done| |by left]. intros b Hb. destruct (ci_data _ _ Hi i b Hb). destruct (Z.eqb_spec (b_refs b) 0); simpl; lia.
Qed.

(** [bread] and [bnew] of a sector inside the device. *)
Lemma buf_get_spec d r base lba (read : bool) s :
  cache_inv None s -> g_ready s = true -> dev_ok d r base -> 0 <= lba < dv_sectors (dev d) ->
  exists s' x, buf_get dev (Some d) lba read s = Some (s', x) /\ g_ready s' = true /\ g_devs s' = g_devs s /\
  match x with
  | inl i => caches s' i r (base + lba) /\ cache_inv None s' /\
      (forall r' l', ~ (r' = r /\ l' = base + lba) -> view s' r' l' = view s r' l') /\
      (read = true -> view s' r (base + lba) = view s r (base + lba)) /\
      (read = false -> dv_readonly (dev d) = false /\ view s' r (base + lba) = zero_sector)
  | inr e => e < 0 /\ cache_inv None s' /\ forall r' l', view s' r' l' = view s r' l'
  end.
Proof.
  intros Hi Hr Hd Hl. unfold buf_get.
  assert (Hrange : range_ok dev d lba 1 = true) by (unfold range_ok; lia). rewrite Hrange, Hr. simpl negb. cbv iota.
  rewrite (root_of_ok d r base lba Hd) by lia. cbn [mbind option_bind].
  destruct (negb read && (dv_readonly (dev d) || dv_readonly (dev r))) eqn:Ero.
  { eexists _, _. split_and!; done. }
  pose proof (get_buf_spec r (base + lba) read s Hi) as Hg. destruct (get_buf dev r (base + lba) read s) as [s1 [i|e]].
  2: { destruct Hg as (H1 & H2 & H3). eexists _, _. split_and!; [done|congruence|done|apply H3..]. }
  destruct Hg as (H1 & H2 & Hc & _ & Hi1 & Hv & Hvr). destruct read; simpl negb; cbv iota.
  - eexists _, _. split_and!; try done; congruence.
  - destruct (store_inv (Some i) i r (base + lba) (fun _ => zero_sector) s1 Hi1 Hc (or_intror eq_refl) (fun _ _ => zero_is_sector))
      as (Hi2 & Hc2 & Hv2).
    eexists _, _. split; [reflexivity|]. split_and!; [simpl; congruence|done|exact Hc2|exact Hi2| |done|].
    + intros r' l' Hne. rewrite Hv2, decide_False by done. by apply Hv.
    + intros _. split; [simpl in Ero; by destruct (dv_readonly (dev d))|]. rewrite Hv2. by rewrite decide_True.
Qed.

Lemma read_bytes_loop_spec fuel d r base off len s :
  cache_inv None s -> g_ready s = true -> dev_ok d r base -> 0 <= off -> 0 <= len < Z.of_nat fuel ->
  off + len <= dv_sectors (dev d) * BLK_SECTOR_SIZE ->
  exists s' e out, read_bytes_loop dev fuel d off len s = Some (s', e, out) /\
    e <= 0 /\ cache_inv None s' /\ g_ready s' = true /\ (forall r' l', view s' r' l' = view s r' l') /\
    (e = 0 -> out = byte_view s r <$> seqZ (base * BLK_SECTOR_SIZE + off) len).
Proof.
  revert off len s. induction fuel as [|fuel IH]; intros off len s Hi Hr Hd Ho Hl Hfit; [lia|]. cbn [read_bytes_loop].
  destruct (Z.eqb_spec len 0) as [->|Hnz]; [by eexists _, _, _|].
  assert (Hlba : 0 <= off / BLK_SECTOR_SIZE < dv_sectors (dev d)).
  { unfold BLK_SECTOR_SIZE in *. split; dlia. }
  destruct (buf_get_spec d r base _ true s Hi Hr Hd Hlba) as (s1 & x & E & Hr1 & _ & Hx).
  unfold bread. rewrite E. cbn [mbind option_bind]. destruct x as [i|e].
  2: { destruct Hx as (He & Hi1 & Hv1). eexists _, _, _. split_and!; [reflexivity|lia|done|done|done|lia]. }
  destruct Hx as (Hc & Hi1 & Hv1 & Hvr & _). specialize (Hvr eq_refl).
  assert (Hview : forall r' l', view s1 r' l' = view s r' l').
  { intros r' l'. destruct (decide (r' = r /\ l' = base + off / BLK_SECTOR_SIZE)) as [[-> ->]|]; [done|by apply Hv1]. }
  destruct (brelse_spec i s1 Hi1) as [Hi2 Hv2]. pose proof (Z.mod_pos_bound off BLK_SECTOR_SIZE ltac:(done)) as Hm.
  cbv zeta. set (chunk := if len <? BLK_SECTOR_SIZE - off mod BLK_SECTOR_SIZE then len else BLK_SECTOR_SIZE - off mod BLK_SECTOR_SIZE).
  assert (Hchunk : chunk = Z.min len (BLK_SECTOR_SIZE - off mod BLK_SECTOR_SIZE)) by (unfold chunk; split_ifs; lia).
  destruct (IH (off + chunk) (len - chunk) (brelse i s1) Hi2 Hr1 Hd ltac:(lia) ltac:(lia) ltac:(lia)) as (s' & e & out & Eq & He & Hi' & Hr' & Hv' & Hout).
  rewrite Eq. cbn [mbind option_bind]. eexists _, _, _. split_and!; [reflexivity|done|done|done| |].
  - intros. by rewrite Hv', Hv2, Hview.
  - intros He0. rewrite (Hout He0). replace len with (chunk + (len - chunk)) at 2 by lia. rewrite seqZ_app by lia. rewrite fmap_app.
    assert (Eo : (base * BLK_SECTOR_SIZE + off) / BLK_SECTOR_SIZE = base + off / BLK_SECTOR_SIZE /\
                 (base * BLK_SECTOR_SIZE + off) mod BLK_SECTOR_SIZE = off mod BLK_SECTOR_SIZE).
    { unfold BLK_SECTOR_SIZE in *. split; dlia. }
    destruct Eo as [Eo1 Eo2]. f_equal.
    + rewrite <- sector_slice; [|by eapply view_sector|pose proof (do_base _ _ _ Hd); unfold BLK_SECTOR_SIZE in *; lia|lia|lia].
      rewrite Eo1, Eo2. do 2 f_equal. destruct Hc as (b & Hb & Hbr & Hbl). rewrite Hb. simpl.
      rewrite <- Hview. symmetry. by eapply view_cached.
    + rewrite Z.add_assoc. apply list_fmap_ext. intros k o _. unfold byte_view. by rewrite Hv2, Hview.
Qed.

Lemma write_bytes_loop_spec fuel d r base off bytes s :
  cache_inv None s -> g_ready s = true -> dev_ok d r base -> 0 <= off -> (length bytes < fuel)%nat ->
  off + Z.of_nat (length bytes) <= dv_sectors (dev d) * BLK_SECTOR_SIZE ->
  exists s' e n, write_bytes_loop dev fuel d off bytes s = Some (s', e) /\
    e <= 0 /\ cache_inv None s' /\ g_ready s' = true /\ (n <= length bytes)%nat /\ (e = 0 -> n = length bytes) /\
    forall r' o', 0 <= o' -> byte_view s' r' o' =
      if decide (r' = r /\ base * BLK_SECTOR_SIZE + off <= o' < base * BLK_SECTOR_SIZE + off + Z.of_nat n)
      then bytes !!! Z.to_nat (o' - (base * BLK_SECTOR_SIZE + off)) else byte_view s r' o'.
Proof.
  revert off bytes s. induction fuel as [|fuel IH]; intros off bytes s Hi Hr Hd Ho Hl Hfit; [lia|]. cbn [write_bytes_loop].
  destruct bytes as [|b0 bytes0] eqn:Eb.
  { eexists s, 0, 0%nat. split_and!; try done. intros. rewrite decide_False by lia. done. }
  rewrite <- Eb in *. assert (Hpos : (0 < length bytes)%nat) by (rewrite Eb; simpl; lia). clear Eb b0 bytes0.
  pose proof (Z.mod_pos_bound off BLK_SECTOR_SIZE ltac:(done)) as Hm. pose proof (do_base _ _ _ Hd) as Hbase.
  cbv zeta. set (chunk := if Z.of_nat (length bytes) <? BLK_SECTOR_SIZE - off mod BLK_SECTOR_SIZE then Z.of_nat (length bytes) else BLK_SECTOR_SIZE - off mod BLK_SECTOR_SIZE).
  assert (Hchunk : chunk = Z.min (Z.of_nat (length bytes)) (BLK_SECTOR_SIZE - off mod BLK_SECTOR_SIZE)) by (unfold chunk; split_ifs; lia).
  assert (Hlba : 0 <= off / BLK_SECTOR_SIZE < dv_sectors (dev d)).
  { unfold BLK_SECTOR_SIZE in *. split; dlia. }
  assert (Hget : exists s1 x rd, (if chunk =? BLK_SECTOR_SIZE then bnew dev (Some d) (off / BLK_SECTOR_SIZE) s
      else bread dev (Some d) (off / BLK_SECTOR_SIZE) s) = Some (s1, x) /\ (rd = false -> chunk = BLK_SECTOR_SIZE) /\
      g_ready s1 = true /\ match x with
      | inl i => caches s1 i r (base + off / BLK_SECTOR_SIZE) /\ cache_inv None s1 /\
          (forall r' l', ~ (r' = r /\ l' = base + off / BLK_SECTOR_SIZE) -> view s1 r' l' = view s r' l') /\
          (rd = true -> view s1 r (base + off / BLK_SECTOR_SIZE) = view s r (base + off / BLK_SECTOR_SIZE))
      | inr e => e < 0 /\ cache_inv None s1 /\ forall r' l', view s1 r' l' = view s r' l' end).
  { destruct (Z.eqb_spec chunk BLK_SECTOR_SIZE) as [E|E].
    - destruct (buf_get_spec d r base _ false s Hi Hr Hd Hlba) as (s1 & x & Eg & H1 & _ & Hx). exists s1, x, false.
      split_and!; [done|done|done|]. destruct x; [|done]. destruct Hx as (?&?&?&?&_). done.
    - destruct (buf_get_spec d r base _ true s Hi Hr Hd Hlba) as (s1 & x & Eg & H1 & _ & Hx). exists s1, x, true.
      split_and!; [done|done|done|]. destruct x; [|done]. destruct Hx as (?&?&?&?&_). done. }
  destruct Hget as (s1 & x & rd & -> & Hrd & Hr1 & Hx). cbn [mbind option_bind]. destruct x as [i|e].
  2: { destruct Hx as (He & Hi1 & Hv1). eexists _, _, 0%nat. split_and!; [reflexivity|lia|done|done|lia|lia|].
       intros r' o' Ho'. rewrite decide_False by lia. unfold byte_view. by rewrite Hv1. }
  destruct Hx as (Hc & Hi1 & Hv1 & Hvr).
  set (part := take (Z.to_nat chunk) bytes). assert (Hpart : Z.of_nat (length part) = chunk) by (unfold part; rewrite length_take; lia).
  set (g := patch (Z.to_nat (off mod BLK_SECTOR_SIZE)) part).
  assert (Hg : forall dd, is_sector dd -> is_sector (g dd)).
  { intros dd Hdd. apply patch_sector; [done|]. unfold is_sector in Hdd. lia. }
  destruct (store_inv None i r _ g s1 Hi1 Hc (or_introl eq_refl) Hg) as (Hi2 & _ & Hv2).
  assert (Es : bdirty i (upd_buf i (fun b => set_data (g (b_data b)) b) s1) = upd_buf i (fun b => set_dirty true (set_data (g (b_data b)) b)) s1).
  { unfold bdirty. by rewrite upd_buf_compose. }
  fold part. fold g. rewrite Es. set (s2 := upd_buf i (fun b => set_dirty true (set_data (g (b_data b)) b)) s1) in *.
  destruct (brelse_spec i s2 Hi2) as [Hi3 Hv3].
  assert (Eo : (base * BLK_SECTOR_SIZE + off) / BLK_SECTOR_SIZE = base + off / BLK_SECTOR_SIZE /\
               (base * BLK_SECTOR_SIZE + off) mod BLK_SECTOR_SIZE = off mod BLK_SECTOR_SIZE).
  { unfold BLK_SECTOR_SIZE in *. split; dlia. }
  destruct Eo as [Eo1 Eo2].
  assert (Hbv : forall r' o', 0 <= o' -> byte_view (brelse i s2) r' o' =
    if decide (r' = r /\ base * BLK_SECTOR_SIZE + off <= o' < base * BLK_SECTOR_SIZE + off + Z.of_nat (length part))
    then part !!! Z.to_nat (o' - (base * BLK_SECTOR_SIZE + off)) else byte_view s r' o').
  { apply byte_view_patch; [unfold BLK_SECTOR_SIZE in *; lia|rewrite Eo2; lia|by eapply view_sector|].
    intros r' l'. rewrite Hv3, Hv2, Eo1, Eo2. destruct (decide (r' = r /\ _)) as [[-> ->]|Hne]; [|by apply Hv1].
    destruct rd; [by rewrite Hvr|]. specialize (Hrd eq_refl). unfold g, patch.
    assert (Hw0 : Z.to_nat (off mod BLK_SECTOR_SIZE) = 0%nat) by lia. rewrite Hw0. simpl. f_equal.
    pose proof (view_sector None s1 r (base + off / BLK_SECTOR_SIZE) Hi1). pose proof (view_sector None s r (base + off / BLK_SECTOR_SIZE) Hi).
    unfold is_sector in *. rewrite !drop_ge by lia. done. }
  destruct (IH (off + chunk) (drop (Z.to_nat chunk) bytes) (brelse i s2) Hi3 Hr1 Hd ltac:(lia) ltac:(rewrite length_drop; lia) ltac:(rewrite length_drop; lia))
    as (s' & e & n & Eq & He & Hi' & Hr' & Hn & Hn0 & Hv').
  rewrite Eq. rewrite length_drop in Hn, Hn0. eexists _, _, (Z.to_nat chunk + n)%nat. split_and!; [reflexivity|done|done|done|lia|intros H2; specialize (Hn0 H2); lia|].
  intros r' o' Ho'. rewrite Hv', Hbv by done. rewrite Hpart.
  destruct (decide (r' = r /\ base * BLK_SECTOR_SIZE + (off + chunk) <= o' < _)) as [[-> Hin]|Hnin].
  - rewrite decide_True by lia. rewrite lookup_total_drop. f_equal. lia.
  - destruct (decide (r' = r /\ base * BLK_SECTOR_SIZE + off <= o' < base * BLK_SECTOR_SIZE + off + chunk)) as [[-> Hin]|Hnin2].
    + rewrite decide_True by lia. unfold part. by rewrite lookup_total_take_lt by lia.
    + rewrite decide_False; [done|]. intros [-> Hx]. destruct (decide (o' < base * BLK_SECTOR_SIZE + off + chunk)); [apply Hnin2|apply Hnin]; split; done || lia.
Qed.
(** Sector I/O on a device of the registry. *)
Lemma blk_read_spec s d r base lba count :
  cache_inv None s -> g_ready s = true -> dev_ok d r base ->
  0 <= lba -> 0 < count -> lba + count <= dv_sectors (dev d) ->
  exists s' e out, blk_read dev (Some d) lba count true s = Some (s', e, out) /\
    e <= 0 /\ cache_inv None s' /\ g_ready s' = true /\ (forall r' l', view s' r' l' = view s r' l') /\
    (e = 0 -> out = view s r <$> seqZ (base + lba) count).
Proof.
  intros Hi Hr Hd Hl Hc Hfit. unfold blk_read. simpl negb. cbv iota.
  assert (Hrange : range_ok dev d lba count = true) by (unfold range_ok; lia). rewrite Hrange. simpl negb. cbv iota.
  rewrite (root_of_ok d r base lba Hd) by lia. cbn [mbind option_bind]. rewrite Hr. simpl negb. cbv iota.
  destruct Hd as [Hroot Hb Hs Hf Hm]. unfold BLK_SECTOR_SIZE in Hm.
  pose proof (read_loop_spec (Z.to_nat count) r (base + lba) count s Hi ltac:(lia) ltac:(lia) ltac:(lia)) as Hx.
  destruct (read_loop dev (Z.to_nat count) r (base + lba) count s) as [[s' e] out].
  destruct Hx as (A1 & A2 & A3 & A4 & A5 & A6). exists s', e, out. split_and!; try done. congruence.
Qed.

Lemma blk_write_spec s d r base lba (data : list sector) :
  cache_inv None s -> g_ready s = true -> dev_ok d r base ->
  0 <= lba -> data <> [] -> lba + Z.of_nat (length data) <= dv_sectors (dev d) -> Forall is_sector data ->
  exists s' e n, blk_write dev (Some d) lba (Some data) s = Some (s', e) /\
    e <= 0 /\ cache_inv None s' /\ g_ready s' = true /\ (n <= length data)%nat /\ (e = 0 -> n = length data) /\
    forall r' l', view s' r' l' =
      if decide (r' = r /\ base + lba <= l' < base + lba + Z.of_nat n) then data !!! Z.to_nat (l' - (base + lba)) else view s r' l'.
Proof.
  intros Hi Hr Hd Hl Hne Hfit Hsec. unfold blk_write. assert (0 < length data)%nat by (destruct data; simpl; done || lia).
  assert (Hrange : range_ok dev d lba (Z.of_nat (length data)) = true) by (unfold range_ok; lia). rewrite Hrange. simpl negb. cbv iota.
  rewrite (root_of_ok d r base lba Hd) by lia. cbn [mbind option_bind].
  destruct (dv_readonly (dev d) || dv_readonly (dev r)).
  { eexists _, _, 0%nat. split_and!; [done|done|done|done|lia|done|]. intros. rewrite decide_False by lia. done. }
  rewrite Hr. simpl negb. cbv iota. destruct Hd as [Hroot Hb Hs Hf Hm]. unfold BLK_SECTOR_SIZE in Hm.
  pose proof (write_loop_spec r (base + lba) data s Hi Hsec ltac:(lia) ltac:(lia)) as Hx.
  destruct (write_loop dev r (base + lba) data s) as [s' e]. destruct Hx as (A1 & A2 & A3 & A4 & n & A5 & A6 & A7).
  exists s', e, n. split_and!; try done. congruence.
Qed.
End Invariant.
