(* ===== verification/Lru.v ===== *)
(** * src/drivers/block/blk.c: the LRU links

    The LRU list of the sector cache is doubly linked through the buffers.
    Here the links are modelled as they are stored, a [lru_prev] and a
    [lru_next] per buffer and the two global ends, and each routine performs
    its pointer assignments in the order of the source. [rep l d] says that
    the links [d] store the list [l]; the routines implement the operations
    on lists that Blk.v uses. *)
From S2P Require Import Prelude Blk.

Record links := Links {
  lru_prev : nat -> option nat;
  lru_next : nat -> option nat;
  g_lru_head : option nat;
  g_lru_tail : option nat
}.

(** ** Definitions *)
Definition fset (f : nat -> option nat) (i : nat) (v : option nat) : nat -> option nat :=
  fun j => if Nat.eqb j i then v else f j.

Definition set_prev (i : nat) (v : option nat) (d : links) : links :=
  Links (fset (lru_prev d) i v) (lru_next d) (g_lru_head d) (g_lru_tail d).
Definition set_next (i : nat) (v : option nat) (d : links) : links :=
  Links (lru_prev d) (fset (lru_next d) i v) (g_lru_head d) (g_lru_tail d).
Definition set_head (v : option nat) (d : links) : links := Links (lru_prev d) (lru_next d) v (g_lru_tail d).
Definition set_tail (v : option nat) (d : links) : links := Links (lru_prev d) (lru_next d) (g_lru_head d) v.

Definition lru_remove (b : nat) (d : links) : links :=
  let d := match lru_prev d b with
           | Some a => set_next a (lru_next d b) d
           | None => set_head (lru_next d b) d
           end in
  let d := match lru_next d b with
           | Some c => set_prev c (lru_prev d b) d
           | None => set_tail (lru_prev d b) d
           end in
  set_next b None (set_prev b None d).

Definition lru_push_front (b : nat) (d : links) : links :=
  let d := set_prev b None d in
  let d := set_next b (g_lru_head d) d in
  let d := match g_lru_head d with Some h => set_prev h (Some b) d | None => d end in
  let d := set_head (Some b) d in
  match g_lru_tail d with None => set_tail (Some b) d | Some _ => d end.

Definition lru_touch (b : nat) (d : links) : links :=
  if bool_decide (g_lru_head d = Some b) then d else lru_push_front b (lru_remove b d).

(** ** Representation *)

(** [p] precedes the segment and [q] follows it. *)
Fixpoint seg (d : links) (p : option nat) (l : list nat) (q : option nat) : Prop :=
  match l with
  | [] => True
  | b :: l' => lru_prev d b = p /\ lru_next d b = match l' with [] => q | c :: _ => Some c end /\ seg d (Some b) l' q
  end.

Definition rep (l : list nat) (d : links) : Prop :=
  NoDup l /\ g_lru_head d = head l /\ g_lru_tail d = last l /\ seg d None l None.

Definition or_else (a b : option nat) : option nat := match a with Some _ => a | None => b end.

Section Links.
Implicit Types (d : links) (l : list nat) (b : nat) (p q : option nat).

Lemma fset_eq f i v : fset f i v i = v.
Proof. unfold fset. by rewrite Nat.eqb_refl. Qed.
Lemma fset_ne f i v j : j <> i -> fset f i v j = f j.
Proof. intros. unfold fset. destruct (Nat.eqb_spec j i); done. Qed.

Lemma seg_app d p l1 l2 q : seg d p (l1 ++ l2) q <-> seg d p l1 (or_else (head l2) q) /\ seg d (or_else (last l1) p) l2 q.
Proof.
  revert p. induction l1 as [|a l1 IH]; intros p; [simpl; tauto|].
  change ((a :: l1) ++ l2) with (a :: (l1 ++ l2)). cbn [seg]. rewrite IH.
  destruct l1 as [|b l1]; cbn [app seg last].
  - destruct l2 as [|c l2]; simpl; tauto.
  - assert (E : or_else (last (b :: l1)) (Some a) = or_else (last (b :: l1)) p).
    { destruct (last (b :: l1)) as [z|] eqn:Ez; [done|]. apply last_None in Ez. done. }
    rewrite E. tauto.
Qed.

(** Links outside the segment do not matter. *)
Lemma seg_frame d d' p l q :
  (forall b, b ∈ l -> lru_prev d' b = lru_prev d b /\ lru_next d' b = lru_next d b) -> seg d p l q -> seg d' p l q.
Proof.
  revert p. induction l as [|b l IH]; intros p Hf; [done|]. intros (H1 & H2 & H3).
  destruct (Hf b ltac:(left)) as [E1 E2]. cbn [seg]. rewrite E1, E2. split_and!; [done|done|].
  apply IH; [|done]. intros c Hc. apply Hf. by right.
Qed.

(** Redirecting the last [next], and the first [prev]. *)
Lemma seg_set_next d p l a q q' :
  NoDup (l ++ [a]) -> seg d p (l ++ [a]) q -> seg (set_next a q' d) p (l ++ [a]) q'.
Proof.
  intros Hnd. rewrite !seg_app. intros [H1 H2]. apply NoDup_app in Hnd as (_ & Hd & _). split.
  - eapply seg_frame; [|exact H1]. intros b Hb. simpl. rewrite fset_ne; [done|]. intros ->. apply (Hd a Hb). left.
  - cbn [seg] in *. destruct H2 as (H2 & _ & _). simpl. by rewrite fset_eq.
Qed.

Lemma seg_set_prev d p p' c l q :
  NoDup (c :: l) -> seg d p (c :: l) q -> seg (set_prev c p' d) p' (c :: l) q.
Proof.
  intros [Hc _]%NoDup_cons (H1 & H2 & H3). cbn [seg]. simpl. rewrite fset_eq. split_and!; [done|done|].
  eapply seg_frame; [|exact H3]. intros b Hb. simpl. rewrite fset_ne; [done|]. by intros ->.
Qed.

Lemma remove_middle l1 b l2 : NoDup (l1 ++ b :: l2) -> without b (l1 ++ b :: l2) = l1 ++ l2.
Proof.
  intros Hnd. apply NoDup_app in Hnd as (_ & Hd & [Hb _]%NoDup_cons). unfold without.
  rewrite filter_app, filter_cons, decide_False by (intros Hx; done). f_equal.
  - apply (without_notin b l1). intros Hin. apply (Hd b Hin). left.
  - by apply (without_notin b l2).
Qed.

Lemma lru_remove_rep l b d : rep l d -> b ∈ l -> rep (without b l) (lru_remove b d).
Proof.
  intros (Hnd & Hh & Ht & Hs) (l1 & l2 & ->)%list_elem_of_split. rewrite remove_middle by done.
  pose proof Hnd as (Hnd1 & Hd12 & [Hb2 Hnd2]%NoDup_cons)%NoDup_app.
  assert (Hb1 : b ∉ l1) by (intros Hin; apply (Hd12 b Hin); left).
  apply seg_app in Hs as [Hs1 Hs2]. cbn [seg head or_else] in Hs1, Hs2. destruct Hs2 as (Hp & Hn & Hs2).
  assert (Hn' : lru_next d b = head l2) by (by destruct l2).
  assert (Hp' : lru_prev d b = last l1) by (rewrite Hp; by destruct (last l1)).
  (* the link into [b] from the left *)
  set (d1 := match lru_prev d b with Some a => set_next a (lru_next d b) d | None => set_head (lru_next d b) d end).
  assert (H1 : seg d1 None l1 (head l2) /\ g_lru_head d1 = head (l1 ++ l2) /\ g_lru_tail d1 = last (l1 ++ b :: l2) /\
               lru_prev d1 = lru_prev d /\ lru_next d1 b = lru_next d b /\ seg d1 (Some b) l2 None).
  { unfold d1. rewrite Hp', Hn'. destruct l1 as [|a l1 _] using rev_ind.
    - split_and!; try done. eapply seg_frame; [|exact Hs2]. done.
    - rewrite last_snoc. assert (a <> b) by (intros ->; apply Hb1, elem_of_app; right; left).
      split_and!; [by eapply seg_set_next| |done|done|simpl; by rewrite fset_ne|].
      + simpl. rewrite Hh. by destruct l1.
      + eapply seg_frame; [|exact Hs2]. intros x Hx. simpl. rewrite fset_ne; [done|]. intros ->.
        apply (Hd12 a); [apply elem_of_app; right; left|by right]. }
  destruct H1 as (A1 & A2 & A3 & A4 & A5 & A6).
  set (d2 := match lru_next d1 b with Some c => set_prev c (lru_prev d1 b) d1 | None => set_tail (lru_prev d1 b) d1 end).
  assert (H2 : seg d2 None l1 (head l2) /\ seg d2 (last l1) l2 None /\ g_lru_head d2 = head (l1 ++ l2) /\ g_lru_tail d2 = last (l1 ++ l2)).
  { unfold d2. rewrite A5, Hn', A4, Hp'. destruct l2 as [|c l2]; cbn [head].
    - split_and!; [eapply seg_frame; [|exact A1]; done|done|exact A2|]. simpl. by rewrite app_nil_r.
    - split_and!; [| |exact A2|].
      + eapply seg_frame; [|exact A1]. intros x Hx. simpl. rewrite fset_ne; [done|]. intros ->. apply (Hd12 c Hx). right. left.
      + by eapply seg_set_prev.
      + simpl. rewrite A3. rewrite !last_app_cons. done. }
  destruct H2 as (B1 & B2 & B3 & B4).
  assert (Hfin : forall p l q, b ∉ l -> seg d2 p l q -> seg (set_next b None (set_prev b None d2)) p l q).
  { intros p l q Hnb. apply seg_frame. intros x Hx. simpl. rewrite !fset_ne; [done| |]; by intros ->. }
  change (lru_remove b d) with (set_next b None (set_prev b None d2)).
  split_and!; [|exact B3|exact B4|].
  - apply NoDup_app. split_and!; [done| |done]. intros x Hx Hx2. apply (Hd12 x Hx). by right.
  - apply seg_app. split; apply Hfin; try done.
    + by destruct (head l2).
    + by destruct (last l1).
Qed.

Lemma lru_push_front_rep l b d : rep l d -> b ∉ l -> rep (b :: l) (lru_push_front b d).
Proof.
  intros (Hnd & Hh & Ht & Hs) Hb.
  unfold lru_push_front, rep. simpl. rewrite Hh. destruct l as [|h l]; simpl; rewrite Ht; simpl.
  - rewrite !fset_eq. split_and!; try done. apply NoDup_singleton.
  - assert (h <> b) by (intros ->; apply Hb; left).
    change (match l with [] => Some h | _ :: _ => last l end) with (last (h :: l)).
    destruct (last (h :: l)) as [z|] eqn:Ez; [|by apply last_None in Ez]. simpl.
    split_and!; [by apply NoDup_cons|done|by rewrite Ht|rewrite fset_ne, fset_eq by done; done|by rewrite fset_eq|by rewrite fset_eq| |].
    + cbn [seg] in Hs. destruct Hs as (_ & Hn & _). by rewrite fset_ne.
    + cbn [seg] in Hs. destruct Hs as (_ & _ & Hs). eapply seg_frame; [|exact Hs]. intros x Hx. simpl.
      apply NoDup_cons in Hnd as [Hh' _]. assert (x <> h) by (by intros ->). assert (x <> b) by (intros ->; apply Hb; by right).
      by rewrite !fset_ne.
Qed.
End Links.

(** ** Properties *)

(** C26: moving a buffer to the front of the doubly linked LRU list implements
    the list operation: when the links store the list [l] (both directions and
    both ends) and [b] is on it, after [lru_touch] they store [b] followed by
    the rest of [l] in its old order; [lru_remove] alone stores [l] without [b],
    and [lru_push_front] of a buffer not on the list puts it in front. *)
Theorem lru_links_refine_list (l : list nat) (b : nat) (d : links) :
  rep l d ->
  (b ∈ l -> rep (without b l) (lru_remove b d) /\ rep (b :: without b l) (lru_touch b d)) /\
  (b ∉ l -> rep (b :: l) (lru_push_front b d)).
Proof.
  intros Hr. split; [|by apply lru_push_front_rep]. intros Hin. pose proof (lru_remove_rep l b d Hr Hin) as Hrem.
  split; [done|]. unfold lru_touch. case_bool_decide as Hh.
  - destruct Hr as (Hnd & Hh' & Hrest). rewrite Hh' in Hh. destruct l as [|x l]; [done|]. injection Hh as ->.
    assert (E : b :: without b (b :: l) = b :: l).
    { f_equal. exact (remove_middle [] b l Hnd). }
    rewrite E. done.
  - apply lru_push_front_rep; [done|]. unfold without. rewrite list_elem_of_filter. by intros [? _].
Qed.

Definition demo_links : links := lru_push_front 2 (lru_push_front 1 (lru_push_front 0 (Links (fun _ => None) (fun _ => None) None None))).

Lemma lru_links_refine_list_witness : rep [2; 1; 0]%nat demo_links /\ rep [1; 2; 0]%nat (lru_touch 1 demo_links).
Proof.
  assert (H : rep [2; 1; 0]%nat demo_links).
  { split; [apply (bool_decide_unpack _); vm_compute; exact I|]. vm_compute. repeat split. }
  split; [exact H|]. exact (proj2 (proj1 (lru_links_refine_list [2; 1; 0]%nat 1 demo_links H) ltac:(right; left))).
Defined.
