(* ===== verification/Ramdisk.v ===== *)
(** * src/drivers/block/ramdisk.c, and the theorems about the block layer

    A ramdisk serves sectors from its own block of memory ([rd->mem], one
    memory per device). It is an instance of the driver interface of Blk.v,
    on which the concrete runs below are computed; the theorems hold for
    every driver. *)
From S2P Require Import Prelude CString Blk.

(** ** Definitions *)

(** The memory block behind each ramdisk. *)
Definition ram := nat -> memory.

Definition sector_at (m : memory) (l : Z) : list Z :=
  (fun i => m (l * BLK_SECTOR_SIZE + i)) <$> seqZ 0 BLK_SECTOR_SIZE.

(** [memcpy(buf, mem + lba * 512, count * 512)] *)
Definition ram_read (r : nat) (lba count : Z) (d : ram) : ram * Z * list (list Z) :=
  (d, 0, sector_at (d r) <$> seqZ lba count).

(** [memcpy(mem + lba * 512, buf, count * 512)] *)
Definition ram_write (r : nat) (lba : Z) (data : list (list Z)) (d : ram) : ram * Z :=
  let start := lba * BLK_SECTOR_SIZE in
  (fun r' => if Nat.eqb r' r
             then fun x => if (start <=? x) && (x <? start + Z.of_nat (length data) * BLK_SECTOR_SIZE)
                           then (data !!! Z.to_nat ((x - start) / BLK_SECTOR_SIZE)) !!! Z.to_nat ((x - start) mod BLK_SECTOR_SIZE)
                           else d r x
             else d r', 0).

#[export] Instance ramdisk_driver : BlockDriver ram := {|
  ops_read := ram_read;
  ops_write := ram_write;
  ops_flush := fun _ d => (d, 0);       (* no flush operation *)
  contents := fun d r l => sector_at (d r) l
|}.

(** [ramdisk_create]: the device record it registers under the fresh number
    [d], and the registry after it. [mem_ok], [alloc_dev] and [alloc_rd] say
    whether the memory argument and the two [kzalloc] results are not NULL. *)
Definition ramdisk_create (dev : nat -> blkdev) (d : nat) (addr : Z) (name : option (list Z)) (mem_ok : bool) (size : Z)
    (readonly alloc_dev alloc_rd : bool) (s : cache ram) : option ((nat -> blkdev) * cache ram) :=
  match name with
  | None => None
  | Some name =>
      if negb mem_ok || (size <? BLK_SECTOR_SIZE) || (16 <=? Z.of_nat (length name)) then None
      else if negb alloc_dev || negb alloc_rd then None
      else
        let rec := Blkdev name (size / BLK_SECTOR_SIZE) readonly true true false None 0 addr in
        let dev' := fun x => if Nat.eqb x d then rec else dev x in
        let '(s', result) := blk_register dev' (Some d) s in
        if result <? 0 then None else Some (dev', s')
  end.

(** [ramdisk_alloc] rounds the size down to whole sectors and zeroes. *)
Definition ramdisk_alloc (dev : nat -> blkdev) (d : nat) (addr : Z) (name : option (list Z)) (size : Z)
    (alloc_mem alloc_dev alloc_rd : bool) (s : cache ram) : option ((nat -> blkdev) * cache ram) :=
  let size := Z.land size (Z.lnot (BLK_SECTOR_SIZE - 1)) in
  if (size =? 0) || negb alloc_mem then None
  else ramdisk_create dev d addr name true size false alloc_dev alloc_rd
         (set_driver (fun r => if Nat.eqb r d then (fun _ => 0) else driver s r) s).

(** ** The driver keeps its promise *)
Lemma sector_at_is_sector m l : is_sector (sector_at m l).
Proof. unfold is_sector, sector_at. rewrite length_fmap, length_seqZ. done. Qed.

Lemma sector_at_ext m m' l :
  (forall i, 0 <= i < BLK_SECTOR_SIZE -> m (l * BLK_SECTOR_SIZE + i) = m' (l * BLK_SECTOR_SIZE + i)) -> sector_at m l = sector_at m' l.
Proof.
  intros E. apply list_fmap_ext. intros k i Hi. apply lookup_seqZ in Hi as [-> Hk]. apply E. lia.
Qed.

#[export] Instance ramdisk_driver_ok : BlockDriverOk ram.
Proof.
  split.
  - intros d r l. apply sector_at_is_sector.
  - intros d r l n d' e out. unfold ops_read, ramdisk_driver, ram_read. intros [= <- <- <-]. split_and!; try done.
  - intros d r l data d' e. unfold ops_write, ramdisk_driver, ram_write. intros [= <- <-]. split_and!; [done| |].
    + intros r' l' Hn. unfold contents. destruct (Nat.eqb_spec r' r) as [->|]; [|done].
      apply sector_at_ext. intros i Hi. destruct (_ && _) eqn:E; [|done]. destruct Hn. split; [done|].
      unfold BLK_SECTOR_SIZE in *. lia.
    + intros _ Hsec k x Hk. unfold contents. rewrite Nat.eqb_refl. rewrite Forall_lookup in Hsec.
      pose proof (Hsec k x Hk) as Hx. unfold is_sector in Hx. pose proof (lookup_lt_Some _ _ _ Hk) as Hlt.
      apply list_eq. intros j. unfold sector_at. rewrite list_lookup_fmap.
      destruct (decide (Z.of_nat j < BLK_SECTOR_SIZE)) as [Hj|Hj].
      * rewrite lookup_seqZ_lt by lia. simpl. destruct (_ && _) eqn:E; [|unfold BLK_SECTOR_SIZE in *; lia].
        assert (Hq : ((l + Z.of_nat k) * BLK_SECTOR_SIZE + Z.of_nat j - l * BLK_SECTOR_SIZE) / BLK_SECTOR_SIZE = Z.of_nat k /\
                     ((l + Z.of_nat k) * BLK_SECTOR_SIZE + Z.of_nat j - l * BLK_SECTOR_SIZE) mod BLK_SECTOR_SIZE = Z.of_nat j).
        { unfold BLK_SECTOR_SIZE in *. split; dlia. }
        rewrite Z.add_0_l. destruct Hq as [-> ->]. rewrite !Nat2Z.id. rewrite (list_lookup_total_correct _ _ _ Hk).
        symmetry. apply list_lookup_lookup_total_lt. lia.
      * rewrite lookup_seqZ_ge by lia. symmetry. apply lookup_ge_None. lia.
  - intros d r d' e [= <- <-]. done.
Qed.

(** The empty cache after [blk_init]. *)
Lemma blk_init_inv (dev : nat -> blkdev) {D : Type} `{BlockDriverOk D} (d : D) : cache_inv dev None (blk_init_cache true d).
Proof.
  assert (Hpool : forall i b, g_pool (blk_init_cache true d) !! i = Some b -> b = Buf None 0 0 false zero_sector).
  { intros i b Hb. apply (lookup_replicate BCACHE_BUFFERS (Buf None 0 0 false zero_sector)) in Hb as [-> _]. done. }
  assert (Hc : forall i r l, ~ caches (blk_init_cache true d) i r l).
  { intros i r l (b & ->%Hpool & Hd & _). done. }
  split.
  - apply length_replicate.
  - apply length_replicate.
  - change (g_lru (blk_init_cache true d)) with (rev (seq 0 BCACHE_BUFFERS)). symmetry. apply Permutation_rev.
  - intros h c Hh. apply (lookup_replicate (Z.to_nat BCACHE_BUCKETS) []) in Hh as [-> _]. split; [constructor|].
    intros i. split; [intros Hin; by apply not_elem_of_nil in Hin|]. intros (r & l & Hx & _). by apply Hc in Hx.
  - intros i j r l Hx. by apply Hc in Hx.
  - intros i b ->%Hpool. split; [apply zero_is_sector|done].
  - intros i b ->%Hpool. done.
  - intros i b r ->%Hpool. done.
Qed.

(** ** When nothing fails

    The errors of the byte operations inside a device come from the driver, or
    from a cache in which every buffer is held. Without either there is none. *)
Section Live.
Context (dev : nat -> blkdev) {D : Type} `{BlockDriverOk D}.
Implicit Types (s : cache D) (r i j : nat) (l : Z) (b : blkbuf).

(** The driver serves every sector of its devices. *)
Definition drv_reliable : Prop :=
  (forall r l n (d : D), range_ok dev r l n = true -> (ops_read r l n d).1.2 = 0) /\
  (forall r l data (d : D), range_ok dev r l (Z.of_nat (length data)) = true -> (ops_write r l data d).2 = 0).

Definition writable r l : Prop :=
  dv_readonly (dev r) = false /\ dv_has_write (dev r) = true /\ 0 <= l < dv_sectors (dev r).

(** Every dirty buffer can be written back, and some buffer is not held. *)
Record live s : Prop := {
  lv_dirty : forall i b r, g_pool s !! i = Some b -> b_dirty b = true -> b_dev b = Some r -> writable r (b_lba b);
  lv_unheld : exists i b, g_pool s !! i = Some b /\ b_refs b = 0
}.

Lemma range_ok_one r l : 0 <= l < dv_sectors (dev r) -> range_ok dev r l 1 = true.
Proof. unfold range_ok. lia. Qed.

(** A buffer of [s'] is one of [s], as much held, and not dirtier. *)
Definition calmer s s' : Prop := forall j b', g_pool s' !! j = Some b' ->
  exists b, g_pool s !! j = Some b /\ b_refs b' = b_refs b /\
    (b_dirty b' = true -> forall r, b_dev b' = Some r -> b_dirty b = true /\ b_dev b = Some r /\ b_lba b' = b_lba b).

Lemma calmer_trans s1 s2 s3 : calmer s1 s2 -> calmer s2 s3 -> calmer s1 s3.
Proof.
  intros H1 H2 j b3 H3. destruct (H2 j b3 H3) as (b2 & Hb2 & E2 & D2). destruct (H1 j b2 Hb2) as (b1 & Hb1 & E1 & D1).
  exists b1. split_and!; [done|congruence|]. intros Hd r Hr. destruct (D2 Hd r Hr) as (A1 & A2 & A3).
  destruct (D1 A1 r A2) as (B1 & B2 & B3). split_and!; [done|done|congruence].
Qed.

Lemma calmer_upd i f s : (forall b, b_refs (f b) = b_refs b /\ (b_dirty (f b) = true -> b_dev (f b) <> None -> f b = b)) -> calmer s (upd_buf i f s).
Proof.
  intros Hf j b' (b & Hb & ->)%pool_alter. exists b. split; [done|]. case_decide as Hj; [|done]. destruct (Hf b) as [E1 E2].
  split; [done|]. intros Hd r Hr. assert (E : f b = b) by (apply E2; [done|by rewrite Hr]). by rewrite E in *.
Qed.

Lemma write_back_live i s b : drv_reliable -> live s -> g_pool s !! i = Some b ->
  (write_back dev i s).2 = 0 /\ calmer s (write_back dev i s).1.
Proof.
  intros [_ Hw] Hl Hb. unfold write_back. rewrite Hb. destruct (b_dirty b) eqn:Ed; simpl negb; cbv iota.
  2:{ split; [done|]. intros j b' Hj. by exists b'. }
  destruct (b_dev b) as [r|] eqn:Er; [|split; [done|]; intros j b' Hj; by exists b'].
  destruct (lv_dirty _ Hl i b r Hb Ed Er) as (H1 & H2 & H3). unfold drv_write. rewrite H1, H2. simpl negb. cbv iota.
  assert (Hr : range_ok dev r (b_lba b) (Z.of_nat (length [b_data b])) = true) by (by apply range_ok_one).
  pose proof (range_ok_one r (b_lba b) H3) as Hr1. change (Z.of_nat 1) with 1. rewrite Hr1. simpl negb. cbv iota.
  pose proof (Hw r (b_lba b) [b_data b] (driver s) Hr) as He. destruct (ops_write r (b_lba b) [b_data b] (driver s)) as [d e]. simpl in He. subst e.
  split; [done|]. change (calmer s (upd_buf i (set_dirty false) (set_driver d s))).
  eapply (calmer_trans _ (set_driver d s)); [intros j b' Hj; by exists b'|]. by apply calmer_upd.
Qed.

Lemma victim_loop_live order s : drv_reliable -> live s -> (forall j, j ∈ order -> is_Some (g_pool s !! j)) ->
  (exists j b, j ∈ order /\ g_pool s !! j = Some b /\ b_refs b = 0) ->
  exists s' i, victim_loop dev order s = (s', inl i) /\ calmer s s'.
Proof.
  intros Hrel Hl. induction order as [|i order IH]; intros Hin (j & b & Hj & Hb & Hr); [by apply elem_of_nil in Hj|].
  cbn [victim_loop]. destruct (Hin i ltac:(left)) as [bi Hbi]. rewrite Hbi. simpl.
  destruct (Z.eqb_spec (b_refs bi) 0) as [E|E]; simpl.
  - destruct (write_back_live i s bi Hrel Hl Hbi) as [He Hc]. destruct (write_back dev i s) as [s1 e]. simpl in He, Hc. subst e.
    eexists _, i. split; [reflexivity|]. eapply calmer_trans; [exact Hc|].
    assert (Hp : forall j, g_pool (hash_remove dev i s1) !! j = g_pool s1 !! j).
    { intros k. unfold hash_remove. destruct (g_pool s1 !! i) as [b1|]; [|done]. by destruct (b_dev b1). }
    eapply (calmer_trans _ (hash_remove dev i s1)); [intros k b' Hk; rewrite Hp in Hk; by exists b'|]. apply calmer_upd. by intros [].
  - apply IH; [intros k Hk; apply Hin; by right|]. exists j, b. split_and!; [|done|done].
    apply elem_of_cons in Hj as [->|]; [congruence|done].
Qed.

(** The state while buffer [i] is in use: letting it go makes the state live. *)
Definition lends s i : Prop :=
  (forall j b r, g_pool s !! j = Some b -> b_dirty b = true -> b_dev b = Some r -> writable r (b_lba b)) /\
  exists j b, g_pool s !! j = Some b /\ (if decide (j = i) then b_refs b = 1 else b_refs b = 0).

Lemma touch_pool i s : g_pool (lru_touch i s) = g_pool s.
Proof. unfold lru_touch. by case_bool_decide. Qed.

Lemma install_lends i r l data s s' : live s -> calmer s s' -> is_Some (g_pool s' !! i) -> lends (install dev i r l data s') i.
Proof.
  intros Hl Hc [bi Hbi]. unfold install, lends. rewrite touch_pool. simpl. split.
  - intros j b r'. destruct (decide (j = i)) as [->|Hne].
    + rewrite list_lookup_insert_eq by (by eapply lookup_lt_Some). by intros [= <-].
    + rewrite list_lookup_insert_ne by done. intros Hb Hd Hr. destruct (Hc j b Hb) as (b0 & Hb0 & _ & Hx).
      destruct (Hx Hd r' Hr) as (A1 & A2 & ->). by apply (lv_dirty _ Hl j).
  - exists i, (Buf (Some r) l 1 false data). rewrite list_lookup_insert_eq by (by eapply lookup_lt_Some).
    split; [done|]. by rewrite decide_True.
Qed.

Lemma get_buf_live r l (read : bool) s : drv_reliable -> cache_inv dev None s -> live s ->
  0 <= l < dv_sectors (dev r) -> dv_has_read (dev r) = true ->
  exists s' i, get_buf dev r l read s = (s', inl i) /\ lends s' i.
Proof.
  intros Hrel Hi Hl Hr Hread. unfold get_buf. destruct (lookup_buf dev r l s) as [i|] eqn:El.
  - eexists _, i. split; [reflexivity|]. unfold lends. rewrite touch_pool. split.
    + intros j b r' (b0 & Hb0 & ->)%pool_alter. case_decide; apply (lv_dirty _ Hl j b0); done.
    + destruct (lv_unheld _ Hl) as (j & b & Hb & Hz). simpl. destruct (decide (j = i)) as [->|Hne].
      * exists i, (set_refs (fun n => n + 1) b). rewrite list_lookup_alter, decide_True, Hb by done. split; [done|].
        rewrite decide_True by done. simpl. lia.
      * exists j, b. rewrite list_lookup_alter_ne by done. split; [done|]. by rewrite decide_False.
  - destruct (victim_loop_live (rev (g_lru s)) s Hrel Hl) as (s1 & i & Ev & Hc).
    { intros j Hj. apply lookup_lt_is_Some_2. rewrite (ci_pool _ _ _ Hi).
      apply list_elem_of_In, in_rev, list_elem_of_In in Hj. rewrite (ci_lru _ _ _ Hi) in Hj. apply elem_of_seq in Hj. lia. }
    { destruct (lv_unheld _ Hl) as (j & b & Hb & Hz). exists j, b. split; [|done].
      apply list_elem_of_In, in_rev. rewrite rev_involutive. apply list_elem_of_In. rewrite (ci_lru _ _ _ Hi).
      apply elem_of_seq. apply lookup_lt_Some in Hb. rewrite (ci_pool _ _ _ Hi) in Hb. lia. }
    pose proof (take_victim_spec dev s Hi) as Ht. unfold take_victim in *. rewrite Ev in Ht |- *.
    destruct Ht as (_ & _ & _ & _ & _ & _ & b & Hb & _).
    destruct read; [|eexists _, i; split; [reflexivity|]; by apply (install_lends _ _ _ _ s)].
    unfold drv_read. rewrite Hread, range_ok_one by done. simpl negb. cbv iota.
    pose proof (proj1 Hrel r l 1 (driver s1) (range_ok_one r l Hr)) as He.
    destruct (ops_read r l 1 (driver s1)) as [[d e] out]. simpl in He. subst e. simpl.
    eexists _, i. split; [reflexivity|]. by apply (install_lends _ _ _ _ s).
Qed.

Lemma brelse_live i f s : (forall b, b_refs (f b) = b_refs b /\ key (f b) = key b) ->
  (forall b r, g_pool s !! i = Some b -> b_dev b = Some r -> writable r (b_lba b)) ->
  lends s i -> live (brelse i (upd_buf i f s)).
Proof.
  intros Hf Hw [Hd (j & b & Hb & Hz)]. unfold brelse. split.
  - intros k b' r (b1 & (b0 & Hb0 & ->)%pool_alter & ->)%pool_alter. destruct (Hf b0) as [_ Hk]. unfold key in Hk. injection Hk as K1 K2.
    destruct (decide (k = i)) as [->|Hki]; [|by apply (Hd k b0)]. simpl. intros _. rewrite K1, K2. by apply Hw.
  - destruct (decide (j = i)) as [->|Hne].
    + destruct (Hf b) as [Hrf _].
      exists i, (set_refs (fun n => if negb (n =? 0) then n - 1 else n) (f b)). simpl. rewrite !list_lookup_alter, !decide_True, Hb by done.
      split; [done|]. by rewrite Hrf, Hz.
    + exists j, b. simpl. by rewrite !list_lookup_alter_ne.
Qed.

Lemma upd_id i s : upd_buf i (fun b => b) s = s.
Proof.
  destruct s as [pool bk lru rdy dv d]. unfold upd_buf, set_pool. simpl. f_equal. apply list_eq. intros j. destruct (decide (j = i)) as [->|].
  - rewrite list_lookup_alter, decide_True by done. by destruct (pool !! i).
  - by rewrite list_lookup_alter_ne.
Qed.

Lemma buf_get_live d r base lba (read : bool) s : drv_reliable -> cache_inv dev None s -> live s -> g_ready s = true ->
  dev_ok dev d r base -> 0 <= lba < dv_sectors (dev d) -> dv_has_read (dev r) = true ->
  (read = false -> dv_readonly (dev d) = false /\ writable r (base + lba)) ->
  exists s' i, buf_get dev (Some d) lba read s = Some (s', inl i) /\ lends s' i.
Proof.
  intros Hrel Hi Hl Hr Hd Hlba Hread Hw. unfold buf_get. rewrite range_ok_one, Hr by done. simpl negb. cbv iota.
  rewrite (root_of_ok dev d r base lba Hd) by lia. cbn [mbind option_bind].
  pose proof (do_base _ _ _ _ Hd). pose proof (do_fits _ _ _ _ Hd).
  destruct (get_buf_live r (base + lba) read s Hrel Hi Hl ltac:(lia) Hread) as (s1 & i & E & Hlend).
  pose proof (get_buf_spec dev r (base + lba) read s Hi) as Hg. rewrite E in Hg. destruct Hg as (_ & _ & (bi & Hbi & Hbr & Hbl) & _).
  rewrite E. destruct read; simpl negb; [eexists _, i; by split|].
  destruct (Hw eq_refl) as (Hw1 & Hwr). pose proof Hwr as (Hw2 & _ & _). rewrite Hw1, Hw2. simpl. eexists _, i. split; [reflexivity|].
  destruct Hlend as [Hdirty (j & b & Hb & Hz)]. split.
  - intros k b' r' (b0 & Hb0 & ->)%pool_alter. destruct (decide (k = i)) as [->|Hk]; [|by apply (Hdirty k)]. simpl. intros _ Hr'.
    assert (b0 = bi) as -> by congruence. rewrite Hbl. assert (r' = r) as -> by congruence. done.
  - destruct (decide (j = i)) as [->|Hne].
    + exists i, (set_dirty true (set_data zero_sector b)). simpl.
      rewrite list_lookup_alter, decide_True, Hb by done. split; [done|]. by rewrite decide_True.
    + exists j, b. simpl. rewrite list_lookup_alter_ne by done. split; [done|]. by rewrite decide_False.
Qed.

Lemma read_bytes_live fuel d r base off len s : drv_reliable -> cache_inv dev None s -> live s -> g_ready s = true ->
  dev_ok dev d r base -> 0 <= off -> 0 <= len -> off + len <= dv_sectors (dev d) * BLK_SECTOR_SIZE ->
  dv_has_read (dev r) = true -> dv_readonly (dev r) = false -> dv_has_write (dev r) = true ->
  forall s' e out, read_bytes_loop dev fuel d off len s = Some (s', e, out) -> e = 0.
Proof.
  intros Hrel Hi Hl Hr Hd Ho Hlen Hfit Hread Hro Hwr. revert off len s Hi Hl Hr Ho Hlen Hfit.
  induction fuel as [|fuel IH]; intros off len s Hi Hl Hr Ho Hlen Hfit s' e out; cbn [read_bytes_loop]; [done|].
  destruct (Z.eqb_spec len 0) as [->|Hnz]; [by intros [= <- <- <-]|].
  assert (Hlba : 0 <= off / BLK_SECTOR_SIZE < dv_sectors (dev d)) by (unfold BLK_SECTOR_SIZE in *; split; dlia).
  destruct (buf_get_live d r base _ true s Hrel Hi Hl Hr Hd Hlba Hread) as (s1 & i & E & Hlend); [done|].
  destruct (buf_get_spec dev d r base _ true s Hi Hr Hd Hlba) as (s1' & x & E' & Hr1 & _ & Hx). rewrite E in E'. injection E' as <- <-.
  unfold bread. rewrite E. cbn [mbind option_bind]. destruct Hx as ((bi & Hbi & Hbr & Hbl) & Hi1 & _).
  pose proof (Z.mod_pos_bound off BLK_SECTOR_SIZE ltac:(done)) as Hm. pose proof (do_base _ _ _ _ Hd). pose proof (do_fits _ _ _ _ Hd).
  cbv zeta. set (chunk := if len <? _ then _ else _). assert (Hchunk : 0 <= chunk <= len) by (unfold chunk; split_ifs; lia).
  destruct (read_bytes_loop dev fuel d (off + chunk) (len - chunk) (brelse i s1)) as [[[s2 e2] out2]|] eqn:E2; [|done].
  cbn [mbind option_bind]. intros [= <- <- <-]. eapply (IH (off + chunk) (len - chunk) (brelse i s1)); [by apply brelse_spec| |done|lia|lia|lia|exact E2].
  rewrite <- (upd_id i s1). apply brelse_live; [done| |done]. intros b r' Hb Hbr'.
  assert (b = bi) as -> by congruence. assert (r' = r) as -> by congruence. rewrite Hbl. split; [done|]. split; [done|lia].
Qed.

Lemma write_bytes_live fuel d r base off bytes s : drv_reliable -> cache_inv dev None s -> live s -> g_ready s = true ->
  dev_ok dev d r base -> 0 <= off -> off + Z.of_nat (length bytes) <= dv_sectors (dev d) * BLK_SECTOR_SIZE ->
  dv_has_read (dev r) = true -> dv_readonly (dev d) = false -> dv_readonly (dev r) = false -> dv_has_write (dev r) = true ->
  forall s' e, write_bytes_loop dev fuel d off bytes s = Some (s', e) -> e = 0 /\ live s'.
Proof.
  intros Hrel Hi Hl Hr Hd Ho Hfit Hread Hrd Hro Hwr. revert off bytes s Hi Hl Hr Ho Hfit.
  induction fuel as [|fuel IH]; intros off bytes s Hi Hl Hr Ho Hfit s' e; cbn [write_bytes_loop]; [done|].
  destruct bytes as [|b0 bytes0] eqn:Eb; [by intros [= <- <-]|].
  rewrite <- Eb in *. assert (Hpos : (0 < length bytes)%nat) by (rewrite Eb; simpl; lia). clear Eb b0 bytes0.
  pose proof (Z.mod_pos_bound off BLK_SECTOR_SIZE ltac:(done)) as Hm. pose proof (do_base _ _ _ _ Hd). pose proof (do_fits _ _ _ _ Hd).
  cbv zeta. set (chunk := if Z.of_nat (length bytes) <? _ then _ else _).
  assert (Hchunk : chunk = Z.min (Z.of_nat (length bytes)) (BLK_SECTOR_SIZE - off mod BLK_SECTOR_SIZE)) by (unfold chunk; split_ifs; lia).
  assert (Hlba : 0 <= off / BLK_SECTOR_SIZE < dv_sectors (dev d)) by (unfold BLK_SECTOR_SIZE in *; split; dlia).
  assert (Hw : writable r (base + off / BLK_SECTOR_SIZE)) by (split_and!; [done|done|lia|lia]).
  assert (Hget : exists s1 i, (if chunk =? BLK_SECTOR_SIZE then bnew dev (Some d) (off / BLK_SECTOR_SIZE) s
      else bread dev (Some d) (off / BLK_SECTOR_SIZE) s) = Some (s1, inl i) /\ lends s1 i /\ g_ready s1 = true /\
      caches s1 i r (base + off / BLK_SECTOR_SIZE) /\ cache_inv dev None s1).
  { destruct (chunk =? BLK_SECTOR_SIZE).
    - destruct (buf_get_live d r base _ false s Hrel Hi Hl Hr Hd Hlba Hread) as (s1 & i & E & Hlend); [done|].
      destruct (buf_get_spec dev d r base _ false s Hi Hr Hd Hlba) as (s1' & x & E' & Hr1 & _ & Hx). rewrite E in E'. injection E' as <- <-.
      destruct Hx as (?&?&_). by exists s1, i.
    - destruct (buf_get_live d r base _ true s Hrel Hi Hl Hr Hd Hlba Hread) as (s1 & i & E & Hlend); [done|].
      destruct (buf_get_spec dev d r base _ true s Hi Hr Hd Hlba) as (s1' & x & E' & Hr1 & _ & Hx). rewrite E in E'. injection E' as <- <-.
      destruct Hx as (?&?&_). by exists s1, i. }
  destruct Hget as (s1 & i & -> & Hlend & Hr1 & Hc & Hi1). cbn [mbind option_bind].
  set (part := take (Z.to_nat chunk) bytes). assert (Hpart : Z.of_nat (length part) = chunk) by (unfold part; rewrite length_take; lia).
  set (g := patch (Z.to_nat (off mod BLK_SECTOR_SIZE)) part).
  assert (Hg : forall dd, is_sector dd -> is_sector (g dd)) by (intros dd Hdd; apply patch_sector; [done|]; unfold is_sector in Hdd; lia).
  destruct (store_inv dev None i r _ g s1 Hi1 Hc (or_introl eq_refl) Hg) as (Hi2 & _ & _).
  unfold bdirty. rewrite upd_buf_compose. fold part. fold g.
  apply IH; [by apply brelse_spec| |done|lia|rewrite length_drop; lia].
  apply brelse_live; [done| |done]. intros b r' Hb Hbr. destruct Hc as (bi & Hbi & Hbir & Hbil).
  assert (b = bi) as -> by congruence. assert (r' = r) as -> by congruence. by rewrite Hbil.
Qed.
End Live.

(** ** Properties *)

(** Reading sectors through the cache returns, when it reports success,
    exactly the current data of the device: for each sector the cached copy if
    there is one, written back or not, and the disk otherwise, whatever the
    mix of cached and uncached sectors in the range. A read, successful or
    not, changes no data. Partitions and their disk see the same data. *)
Theorem blk_read_correct (dev : nat -> blkdev) {D : Type} `{BlockDriverOk D} (s : cache D) (d r : nat) (base lba count : Z) :
  cache_inv dev None s -> g_ready s = true -> dev_ok dev d r base ->
  0 <= lba -> 0 < count -> lba + count <= dv_sectors (dev d) ->
  exists s' e out, blk_read dev (Some d) lba count true s = Some (s', e, out) /\
    e <= 0 /\ cache_inv dev None s' /\ g_ready s' = true /\ (forall r' l', view dev s' r' l' = view dev s r' l') /\
    (e = 0 -> out = view dev s r <$> seqZ (base + lba) count).
Proof.
  intros. by apply (blk_read_spec dev).
Qed.

(** A write through the cache changes exactly the sectors it names: on
    success all of them, on an error a prefix, and no other sector of any
    device, although the write may evict and write back other buffers. *)
Theorem blk_write_correct (dev : nat -> blkdev) {D : Type} `{BlockDriverOk D} (s : cache D) (d r : nat) (base lba : Z) (data : list (list Z)) :
  cache_inv dev None s -> g_ready s = true -> dev_ok dev d r base ->
  0 <= lba -> data <> [] -> lba + Z.of_nat (length data) <= dv_sectors (dev d) -> Forall is_sector data ->
  exists s' e n, blk_write dev (Some d) lba (Some data) s = Some (s', e) /\
    e <= 0 /\ cache_inv dev None s' /\ g_ready s' = true /\ (n <= length data)%nat /\ (e = 0 -> n = length data) /\
    forall r' l', view dev s' r' l' =
      if decide (r' = r /\ base + lba <= l' < base + lba + Z.of_nat n) then data !!! Z.to_nat (l' - (base + lba)) else view dev s r' l'.
Proof.
  intros. by apply (blk_write_spec dev).
Qed.

(** A flush changes no data, and when it succeeds every sector of the
    device on the disk is the current one: nothing dirty is left. *)
Theorem blk_flush_durable (dev : nat -> blkdev) {D : Type} `{BlockDriverOk D} (s : cache D) (d r : nat) (base : Z) :
  cache_inv dev None s -> g_ready s = true -> dev_ok dev d r base ->
  exists s' e, blk_flush dev (Some d) s = Some (s', e) /\
    e <= 0 /\ cache_inv dev None s' /\ (forall r' l', view dev s' r' l' = view dev s r' l') /\
    (e = 0 -> forall l, contents (driver s') r l = view dev s r l).
Proof.
  intros Hi Hr Hd. unfold blk_flush. rewrite (root_of_ok dev d r base 0 Hd) by (pose proof (do_size _ _ _ _ Hd); lia).
  cbn [mbind option_bind fst]. pose proof (flush_root_spec dev r s Hi Hr) as Hx.
  destruct (flush_root_locked dev r s) as [s' e]. destruct Hx as (A1 & A2 & A3 & A4 & A5 & _ & A6).
  exists s', e. split_and!; try done. intros He l. destruct (A6 He) as [_ ->]. apply A3.
Qed.

(** C27: byte I/O. [blk_write_bytes] of any range inside the device, aligned or
    not, replaces exactly those bytes when it succeeds (a prefix of them on an
    error) and no byte of any other device; a following [blk_read_bytes] of
    the range returns them. Both terminate. When the driver serves every
    sector of its devices and some buffer of the cache is not held, both
    succeed, up to the last byte of the device. *)
Theorem blk_bytes_roundtrip (dev : nat -> blkdev) {D : Type} `{BlockDriverOk D} (s : cache D) (d r : nat) (base off : Z) (bytes : list Z) (fuel : nat) :
  cache_inv dev None s -> g_ready s = true -> dev_ok dev d r base ->
  dv_readonly (dev d) = false -> dv_readonly (dev r) = false ->
  0 <= off -> off + Z.of_nat (length bytes) <= dv_sectors (dev d) * BLK_SECTOR_SIZE -> (length bytes < fuel)%nat ->
  exists s1 e1 n, blk_write_bytes dev fuel (Some d) off (Some bytes) (Z.of_nat (length bytes)) s = Some (s1, e1) /\
    e1 <= 0 /\ cache_inv dev None s1 /\ (n <= length bytes)%nat /\ (e1 = 0 -> n = length bytes) /\
    (forall r' o, 0 <= o -> byte_view dev s1 r' o =
       if decide (r' = r /\ base * BLK_SECTOR_SIZE + off <= o < base * BLK_SECTOR_SIZE + off + Z.of_nat n)
       then bytes !!! Z.to_nat (o - (base * BLK_SECTOR_SIZE + off)) else byte_view dev s r' o) /\
    exists s2 e2 out, blk_read_bytes dev fuel (Some d) off true (Z.of_nat (length bytes)) s1 = Some (s2, e2, out) /\
      e2 <= 0 /\ (e1 = 0 -> e2 = 0 -> out = bytes) /\
      (drv_reliable (D := D) dev -> live dev s -> dv_has_read (dev r) = true -> dv_has_write (dev r) = true -> e1 = 0 /\ e2 = 0).
Proof.
  intros Hi Hr Hd Hro1 Hro2 Ho Hfit Hfuel.
  pose proof (do_base _ _ _ _ Hd). pose proof (do_size _ _ _ _ Hd). pose proof (do_fits _ _ _ _ Hd). pose proof (do_max _ _ _ _ Hd).
  assert (Hsize : u64 (dv_sectors (dev d) * BLK_SECTOR_SIZE) = dv_sectors (dev d) * BLK_SECTOR_SIZE).
  { apply u64_small. unfold is_u64, BLK_SECTOR_SIZE in *. lia. }
  destruct (write_bytes_loop_spec dev fuel d r base off bytes s Hi Hr Hd Ho Hfuel Hfit)
    as (s1 & e1 & n & E1 & He1 & Hi1 & Hr1 & Hn & Hn0 & Hv1).
  destruct (read_bytes_loop_spec dev fuel d r base off (Z.of_nat (length bytes)) s1 Hi1 Hr1 Hd Ho ltac:(lia) Hfit)
    as (s2 & e2 & out & E2 & He2 & _ & _ & _ & Hout).
  assert (Hcheck : (dv_sectors (dev d) * BLK_SECTOR_SIZE <? off) || (dv_sectors (dev d) * BLK_SECTOR_SIZE - off <? Z.of_nat (length bytes)) = false) by lia.
  exists s1, e1, n. split_and!; try done.
  - unfold blk_write_bytes. rewrite bool_decide_eq_false_2 by done. simpl andb. cbv iota. rewrite Hsize, Hcheck.
    rewrite (root_of_ok dev d r base 0 Hd) by lia. cbn [mbind option_bind fst]. rewrite Hro1, Hro2. simpl orb. cbv iota.
    rewrite Nat2Z.id. simpl default. by rewrite take_ge by lia.
  - exists s2, e2, out. split_and!; [|done| |].
    + unfold blk_read_bytes. simpl andb. cbv iota. by rewrite Hsize, Hcheck.
    + intros -> ->. rewrite (Hout eq_refl). specialize (Hn0 eq_refl). subst n.
      apply list_eq. intros k. rewrite list_lookup_fmap. destruct (decide (k < length bytes)%nat) as [Hk|Hk].
      * rewrite lookup_seqZ_lt by lia. simpl. rewrite Hv1 by (unfold BLK_SECTOR_SIZE in *; lia).
        rewrite decide_True by lia. replace (Z.to_nat _) with k by lia. symmetry. by apply list_lookup_lookup_total_lt.
      * rewrite lookup_seqZ_ge by lia. symmetry. apply lookup_ge_None. lia.
    + intros Hrel Hl Hrd Hwr.
      destruct (write_bytes_live dev fuel d r base off bytes s Hrel Hi Hl Hr Hd Ho Hfit Hrd Hro1 Hro2 Hwr s1 e1 E1) as [-> Hl1]. split; [done|].
      exact (read_bytes_live dev fuel d r base off (Z.of_nat (length bytes)) s1 Hrel Hi1 Hl1 Hr1 Hd Ho ltac:(lia) Hfit Hrd Hro2 Hwr s2 e2 out E2).
Qed.

(** Unregistering a disk succeeds only when every dirty sector reached the
    disk and no buffer of the device is held; afterwards no buffer caches it,
    its slot in the registry is free and no data of any device has changed.
    With a held buffer it answers [-EBUSY] and the device stays registered. *)
Theorem blk_unregister_safe (dev : nat -> blkdev) {D : Type} `{BlockDriverOk D} (s : cache D) (d : nat) :
  cache_inv dev None s -> g_ready s = true -> dv_parent (dev d) = None ->
  let '(s', e) := unregister_locked dev d s in
  e <= 0 /\ cache_inv dev None s' /\ (forall r l, view dev s' r l = view dev s r l) /\
  (e = 0 -> (forall i l, ~ caches s' i d l) /\ (forall l, contents (driver s') d l = view dev s d l) /\ (d ∉ registered s')) /\
  (e <> 0 -> g_devs s' = g_devs s) /\
  ((exists i b, g_pool s !! i = Some b /\ b_dev b = Some d /\ b_refs b <> 0) -> e <> 0).
Proof.
  intros Hi Hr Hp. unfold unregister_locked. rewrite bool_decide_eq_true_2 by done.
  assert (Hkeys : same_keys s (flush_root_locked dev d s).1).
  { unfold flush_root_locked. rewrite Hr. pose proof (flush_loop_spec dev d (seq 0 BCACHE_BUFFERS) s 0 Hi ltac:(lia)) as Hf.
    destruct (flush_loop dev d (seq 0 BCACHE_BUFFERS) s 0) as [s1 e1]. destruct Hf as (_ & _ & _ & _ & _ & Hk & _).
    destruct ((e1 =? 0) && dv_has_flush (dev d)); [|exact Hk]. destruct (ops_flush d (driver s1)). exact Hk. }
  pose proof (flush_root_spec dev d s Hi Hr) as Hf. destruct (flush_root_locked dev d s) as [s1 e1].
  destruct Hf as (He1 & Hi1 & Hv1 & Hr1 & Hd1 & Hrefs & Hcl). rewrite Hr1, andb_true_l.
  assert (Hheld : (exists i b, g_pool s !! i = Some b /\ b_dev b = Some d /\ b_refs b <> 0) ->
    existsb (fun b => bool_decide (b_dev b = Some d) && negb (b_refs b =? 0)) (g_pool s1) = true).
  { intros (i & b & Hb & Hbd & Hbr). specialize (Hkeys i). specialize (Hrefs i). rewrite Hb in Hkeys, Hrefs. simpl in Hkeys.
    destruct (g_pool s1 !! i) as [b1|] eqn:Eb1; [|done]. simpl in Hkeys, Hrefs. unfold key in Hkeys.
    apply existsb_exists. exists b1. split; [apply list_elem_of_In; by eapply list_elem_of_lookup_2|].
    assert (Ed : b_dev b1 = Some d) by congruence. assert (Er : b_refs b1 <> 0) by congruence.
    rewrite bool_decide_eq_true_2 by done. destruct (Z.eqb_spec (b_refs b1) 0); done. }
  destruct (Z.eqb_spec e1 0) as [->|Hne].
  2: { destruct (Z.eqb_spec e1 0); [done|]. split_and!; try done; congruence. }
  destruct (existsb _ (g_pool s1)) eqn:Ex.
  { change (- EBUSY =? 0) with false. cbv iota. split_and!; done. }
  change (0 =? 0) with true. cbv iota. destruct (Hcl eq_refl) as [Hall Hdisk].
  destruct (drop_loop_spec dev d (seq 0 BCACHE_BUFFERS) s1 Hi1 Hall) as (A1 & A2 & A3 & A4 & A5 & A6).
  { intros i b Hb Hbd. destruct (Z.eqb_spec (b_refs b) 0) as [|Hnz]; [done|].
    assert (Htrue : existsb (fun b => bool_decide (b_dev b = Some d) && negb (b_refs b =? 0)) (g_pool s1) = true).
    { apply existsb_exists. exists b. split; [apply list_elem_of_In; by eapply list_elem_of_lookup_2|].
      rewrite bool_decide_eq_true_2 by done. destruct (Z.eqb_spec (b_refs b) 0); done. }
    congruence. }
  generalize dependent (drop_loop dev d (seq 0 BCACHE_BUFFERS) s1). intros s2 A1 A2 A3 A4 A5 A6.
  set (s3 := set_devs (fmap (fun slot => if bool_decide (slot = Some d) then None else slot)) s2).
  assert (Hi3 : cache_inv dev None s3) 
    by exact (inv_frame dev None None s2 s3 A1 (fun _ => eq_refl) eq_refl (Permutation_refl _)
                (ci_data _ _ _ A1) (ci_free _ _ _ A1) (ci_clean _ _ _ A1)).
  split_and!; [done|done| | |done|].
  - intros r l. change (view dev s3 r l) with (view dev s2 r l). by rewrite A2, Hv1.
  - intros _. split_and!.
    + intros i l (b & Hb & Hbd & _). destruct (A6 i b Hb Hbd) as [Hn Hb1]. apply Hn, elem_of_seq.
      pose proof (lookup_lt_Some _ _ _ Hb1) as Hlt. rewrite (ci_pool _ _ _ Hi1) in Hlt. lia.
    + intros l. change (contents (driver s2) d l = view dev s d l). by rewrite A5, Hdisk, Hv1.
    + unfold registered, s3. simpl. rewrite list_elem_of_omap. intros (slot & Hin & Hslot).
      apply list_elem_of_fmap in Hin as (slot' & -> & _). case_bool_decide; [done|]. unfold id in Hslot. congruence.
  - intros Hh. specialize (Hheld Hh). congruence.
Qed.

(** ** Concrete runs: disk 0 with 64 sectors, device 1 its partition from
    sector 8 with 16 sectors *)
Definition demo_dev (d : nat) : blkdev :=
  match d with
  | O => Blkdev [114; 48] 64 false true true false None 0 4096
  | _ => Blkdev [114; 48; 112; 49] 16 false false false false (Some 0%nat) 8 8192
  end.
Definition demo_ram : ram := fun _ x => x mod 251.
Definition demo_cache : cache ram := blk_init_cache true demo_ram.

Lemma demo_dev_ok : dev_ok demo_dev 1 0 8.
Proof. split; [right; done|simpl; lia|simpl; lia|simpl; lia|simpl; unfold BLK_SECTOR_SIZE; lia]. Qed.
Lemma demo_root_ok : dev_ok demo_dev 0 0 0.
Proof. split; [left; done|simpl; lia|simpl; lia|simpl; lia|simpl; unfold BLK_SECTOR_SIZE; lia]. Qed.

Lemma blk_read_correct_witness :
  exists s' e out, blk_read demo_dev (Some 1%nat) 2 3 true demo_cache = Some (s', e, out) /\
    (e = 0 -> out = view demo_dev demo_cache 0 <$> seqZ 10 3).
Proof.
  destruct (blk_read_correct demo_dev demo_cache 1 0 8 2 3 (blk_init_inv demo_dev demo_ram) eq_refl demo_dev_ok
    ltac:(lia) ltac:(lia) ltac:(simpl; lia)) as (s' & e & out & E & _ & _ & _ & _ & Hout).
  exists s', e, out. split; [exact E|exact Hout].
Defined.

Lemma blk_write_correct_witness :
  exists s' e n, blk_write demo_dev (Some 1%nat) 2 (Some [zero_sector]) demo_cache = Some (s', e) /\
    (e = 0 -> n = 1%nat) /\
    forall l', view demo_dev s' 0 l' =
      if decide (0%nat = 0%nat /\ 10 <= l' < 10 + Z.of_nat n) then [zero_sector] !!! Z.to_nat (l' - 10) else view demo_dev demo_cache 0 l'.
Proof.
  destruct (blk_write_correct demo_dev demo_cache 1 0 8 2 [zero_sector] (blk_init_inv demo_dev demo_ram) eq_refl demo_dev_ok
    ltac:(lia) ltac:(discriminate) ltac:(simpl; lia) ltac:(apply Forall_singleton; apply zero_is_sector))
    as (s' & e & n & E & _ & _ & _ & _ & Hn & Hv).
  exists s', e, n. split; [exact E|]. split; [exact Hn|]. intros l'. exact (Hv 0%nat l').
Defined.

Lemma blk_flush_durable_witness :
  exists s' e, blk_flush demo_dev (Some 0%nat) demo_cache = Some (s', e) /\
    (e = 0 -> forall l, contents (driver s') 0%nat l = view demo_dev demo_cache 0 l).
Proof.
  destruct (blk_flush_durable demo_dev demo_cache 0 0 0 (blk_init_inv demo_dev demo_ram) eq_refl demo_root_ok)
    as (s' & e & E & _ & _ & _ & H). exists s', e. split; [exact E|exact H].
Defined.

Lemma ram_reliable (dev : nat -> blkdev) : drv_reliable (D := ram) dev.
Proof. done. Qed.

Lemma demo_volume_live : live demo_dev demo_cache.
Proof.
  split.
  - intros i b r Hb. apply (lookup_replicate BCACHE_BUFFERS (Buf None 0 0 false zero_sector)) in Hb as [-> _]. done.
  - exists 0%nat, (Buf None 0 0 false zero_sector). done.
Qed.

(** Four bytes across a sector boundary, and the last bytes of the device:
    written and read back without an error. *)
Lemma blk_bytes_roundtrip_witness :
  (exists s1 s2, blk_write_bytes demo_dev 8 (Some 1%nat) 1022 (Some [1; 2; 3; 4]) 4 demo_cache = Some (s1, 0) /\
    blk_read_bytes demo_dev 8 (Some 1%nat) 1022 true 4 s1 = Some (s2, 0, [1; 2; 3; 4])) /\
  (exists s1 s2, blk_write_bytes demo_dev 8 (Some 1%nat) 8190 (Some [5; 6]) 2 demo_cache = Some (s1, 0) /\
    blk_read_bytes demo_dev 8 (Some 1%nat) 8190 true 2 s1 = Some (s2, 0, [5; 6])).
Proof.
  split.
  - destruct (blk_bytes_roundtrip demo_dev demo_cache 1 0 8 1022 [1; 2; 3; 4] 8 (blk_init_inv demo_dev demo_ram) eq_refl demo_dev_ok
      eq_refl eq_refl ltac:(lia) ltac:(simpl; unfold BLK_SECTOR_SIZE; lia) ltac:(simpl; lia))
      as (s1 & e1 & n & E1 & _ & _ & _ & _ & _ & s2 & e2 & out & E2 & _ & H & H0).
    destruct (H0 (ram_reliable demo_dev) demo_volume_live eq_refl eq_refl) as [-> ->]. rewrite (H eq_refl eq_refl) in E2. by exists s1, s2.
  - destruct (blk_bytes_roundtrip demo_dev demo_cache 1 0 8 8190 [5; 6] 8 (blk_init_inv demo_dev demo_ram) eq_refl demo_dev_ok
      eq_refl eq_refl ltac:(lia) ltac:(simpl; unfold BLK_SECTOR_SIZE; lia) ltac:(simpl; lia))
      as (s1 & e1 & n & E1 & _ & _ & _ & _ & _ & s2 & e2 & out & E2 & _ & H & H0).
    destruct (H0 (ram_reliable demo_dev) demo_volume_live eq_refl eq_refl) as [-> ->]. rewrite (H eq_refl eq_refl) in E2. by exists s1, s2.
Defined.

Lemma blk_unregister_safe_witness :
  exists s' e, unregister_locked demo_dev 0 demo_cache = (s', e) /\ (e = 0 -> forall i l, ~ caches s' i 0%nat l).
Proof.
  pose proof (blk_unregister_safe demo_dev demo_cache 0 (blk_init_inv demo_dev demo_ram) eq_refl eq_refl) as H.
  destruct (unregister_locked demo_dev 0 demo_cache) as [s' e]. exists s', e. split; [reflexivity|].
  destruct H as (_ & _ & _ & H & _). intros He. exact (proj1 (H He)).
Defined.
