(* ===== verification/Timer.v ===== *)
(** * src/kernel/timer.c: the timer list

    Timers live in storage of their callers; [objs] is the table of all of
    them and a [timer_t*] is an index into it. The list is modelled as it is
    stored, a [next] pointer per timer and the global head, and the C idiom
    [timer_t** link] as a [link] that names the pointer it addresses.
    [chain] relates the pointers to the abstract list of armed timers; the
    theorems say that the list stays sorted with equal deadlines in arming
    order, and that a tick fires the due timers, in that order, and returns
    even when callbacks re-arm timers. *)
From S2P Require Import Prelude.

Record timer := Timer {
  expires : Z;
  callback : option Z;
  arg : Z;
  next : option nat;
  active : bool
}.

(** [g_timer_head] and the storage of the timers. *)
Record timers := Timers { g_timer_head : option nat; objs : list timer }.

(** [timer_t** link]: the address of the head, or of a timer's [next]. *)
Inductive link := LHead | LNext (t : nat).

(** ** Definitions *)
Definition zero_timer : timer := Timer 0 None 0 None false.
Definition obj (st : timers) (t : nat) : timer := default zero_timer (objs st !! t).
Definition on_obj (t : nat) (f : timer -> timer) (st : timers) : timers :=
  Timers (g_timer_head st) (alter f t (objs st)).

Definition with_next (v : option nat) (x : timer) : timer := Timer (expires x) (callback x) (arg x) v (active x).
Definition with_active (b : bool) (x : timer) : timer := Timer (expires x) (callback x) (arg x) (next x) b.

(** [*link] and [*link = v]. *)
Definition deref (st : timers) (lk : link) : option nat :=
  match lk with LHead => g_timer_head st | LNext t => next (obj st t) end.
Definition assign (lk : link) (v : option nat) (st : timers) : timers :=
  match lk with
  | LHead => Timers v (objs st)
  | LNext t => on_obj t (with_next v) st
  end.

(** The walk of [timer_unlink_locked]. A list of timers is no longer than the
    table of timers, which bounds the walk. *)
Fixpoint unlink_walk (fuel : nat) (tmr : nat) (lk : link) (st : timers) : timers :=
  match fuel with
  | O => st
  | S fuel' =>
      match deref st lk with
      | None => st
      | Some p => if Nat.eqb p tmr then assign lk (next (obj st tmr)) st
                  else unlink_walk fuel' tmr (LNext p) st
      end
  end.

Definition timer_unlink_locked (tmr : nat) (st : timers) : timers :=
  on_obj tmr (fun x => with_active false (with_next None x))
    (unlink_walk (S (length (objs st))) tmr LHead st).

Definition timer_subsystem_init (st : timers) : timers := Timers None (objs st).

Definition timer_init (tmr : option nat) (st : timers) : timers :=
  match tmr with
  | None => st
  | Some t => on_obj t (fun _ => zero_timer) st
  end.

(** The walk of [timer_set]: the link in front of the first later deadline. *)
Fixpoint insert_walk (fuel : nat) (e : Z) (lk : link) (st : timers) : link :=
  match fuel with
  | O => lk
  | S fuel' =>
      match deref st lk with
      | Some p => if expires (obj st p) <=? e then insert_walk fuel' e (LNext p) st else lk
      | None => lk
      end
  end.

(** [now] is the value [timer_get_ticks] reads from the HAL. *)
Definition timer_set (now : Z) (tmr : option nat) (ticks : Z) (cb : option Z) (a : Z) (st : timers) : timers :=
  match tmr, cb with
  | Some t, Some _ =>
      let ticks := if ticks =? 0 then 1 else ticks in
      let st := if active (obj st t) then timer_unlink_locked t st else st in
      let e := u64 (now + ticks) in
      let st := on_obj t (fun x => Timer e cb a (next x) (active x)) st in
      let lk := insert_walk (S (length (objs st))) e LHead st in
      let st := on_obj t (with_next (deref st lk)) st in
      let st := assign lk (Some t) st in
      on_obj t (with_active true) st
  | _, _ => st
  end.

Definition timer_cancel (tmr : option nat) (st : timers) : timers :=
  match tmr with
  | None => st
  | Some t => if active (obj st t) then timer_unlink_locked t st else st
  end.

Definition timer_is_active (tmr : option nat) (st : timers) : bool :=
  match tmr with None => false | Some t => active (obj st t) end.

(** What a callback does to the timer list: the timer calls it makes. *)
Inductive call :=
  | CSet (tmr : option nat) (ticks : Z) (cb : option Z) (a : Z)
  | CCancel (tmr : option nat).

Definition run_call (now : Z) (c : call) (st : timers) : timers :=
  match c with
  | CSet tmr ticks cb a => timer_set now tmr ticks cb a st
  | CCancel tmr => timer_cancel tmr st
  end.

Definition run_calls (now : Z) (cs : list call) (st : timers) : timers :=
  fold_left (fun st c => run_call now c st) cs st.

Section Tick.
(** The code of the callbacks, by function and argument, and the tick counter. *)
Variable run : option Z -> Z -> timers -> list call.
Variable now : Z.

(** The [for (;;)] of [timer_tick], with the timers fired so far; [None] when
    the fuel is exhausted. *)
Fixpoint tick_loop (fuel : nat) (st : timers) : option (timers * list nat) :=
  match fuel with
  | O => None
  | S fuel' =>
      match g_timer_head st with
      | None => Some (st, [])
      | Some t =>
          if now <? expires (obj st t) then Some (st, [])
          else
            let st := Timers (next (obj st t)) (objs st) in
            let st := on_obj t (fun x => with_active false (with_next None x)) st in
            let st := run_calls now (run (callback (obj st t)) (arg (obj st t)) st) st in
            match tick_loop fuel' st with
            | Some (st', fired) => Some (st', t :: fired)
            | None => None
            end
      end
  end.

Definition timer_tick (st : timers) : option (timers * list nat) :=
  tick_loop (S (length (objs st))) st.
End Tick.

(** ** Representation *)
Fixpoint chain (st : timers) (p : option nat) (l : list nat) : Prop :=
  match l with
  | [] => p = None
  | t :: l' => p = Some t /\ (t < length (objs st))%nat /\ chain st (next (obj st t)) l'
  end.

(** The list sorted by deadline. *)
Fixpoint sorted (st : timers) (l : list nat) : Prop :=
  match l with
  | [] => True
  | t :: l' => (forall u, u ∈ l' -> expires (obj st t) <= expires (obj st u)) /\ sorted st l'
  end.

(** [l] is the list of the armed timers. *)
Definition timer_inv (st : timers) (l : list nat) : Prop :=
  chain st (g_timer_head st) l /\ NoDup l /\ sorted st l /\
  (forall t, active (obj st t) = true <-> t ∈ l).

(** Abstract operations on the list of armed timers, with [e] their deadlines. *)
Definition arm (e : nat -> Z) (t : nat) (l : list nat) : list nat :=
  filter (fun u => e u <= e t) l ++ t :: filter (fun u => e t < e u) l.
Definition disarm (t : nat) (l : list nat) : list nat := filter (fun u => u <> t) l.

(** The end of the link path that follows the timers [l]. *)
Fixpoint path_end (lk : link) (l : list nat) : link :=
  match l with [] => lk | t :: l' => path_end (LNext t) l' end.

Definition avoids (lk : link) (l : list nat) : Prop :=
  match lk with LHead => True | LNext t => t ∉ l end.
Definition valid_link (st : timers) (lk : link) : Prop :=
  match lk with LHead => True | LNext t => (t < length (objs st))%nat end.

(** ** Lemmas on the storage *)
Section Storage.
Implicit Types (st : timers) (lk : link) (t u : nat) (l : list nat).

Lemma obj_on_obj_eq st t f : (t < length (objs st))%nat -> obj (on_obj t f st) t = f (obj st t).
Proof.
  intros H. unfold obj, on_obj. simpl. rewrite list_lookup_alter_eq.
  apply lookup_lt_is_Some_2 in H as [x ->]. done.
Qed.

Lemma obj_on_obj_ne st t u f : t <> u -> obj (on_obj t f st) u = obj st u.
Proof. intros H. unfold obj, on_obj. simpl. by rewrite list_lookup_alter_ne. Qed.

Lemma length_on_obj st t f : length (objs (on_obj t f st)) = length (objs st).
Proof. apply length_alter. Qed.

Lemma length_assign st lk v : length (objs (assign lk v st)) = length (objs st).
Proof. destruct lk; [done|]. apply length_on_obj. Qed.

(** An update of one field of a timer leaves a field it does not touch. *)
Lemma field_on_obj {A} (g : timer -> A) st t u f :
  (forall x, g (f x) = g x) -> g (obj (on_obj t f st) u) = g (obj st u).
Proof.
  intros Hf. destruct (decide (t = u)) as [->|]; [|by rewrite obj_on_obj_ne].
  unfold obj, on_obj. simpl. rewrite list_lookup_alter_eq. destruct (objs st !! u); simpl; [apply Hf|done].
Qed.

Lemma field_assign {A} (g : timer -> A) st lk v u :
  (forall w x, g (with_next w x) = g x) -> g (obj (assign lk v st) u) = g (obj st u).
Proof. intros Hg. destruct lk; [done|]. by apply field_on_obj. Qed.

Lemma deref_assign_eq st lk v : valid_link st lk -> deref (assign lk v st) lk = v.
Proof. destruct lk; intros H; [done|]. simpl in *. by rewrite obj_on_obj_eq. Qed.

Lemma deref_assign_ne st lk lk' v : lk <> lk' -> deref (assign lk v st) lk' = deref st lk'.
Proof.
  destruct lk as [|t], lk' as [|u]; intros H; try done. simpl. rewrite obj_on_obj_ne; congruence.
Qed.

(** [chain] reads only the [next] pointers of the timers of the list. *)
Lemma chain_ext st st' p l :
  length (objs st') = length (objs st) -> (forall t, t ∈ l -> next (obj st' t) = next (obj st t)) ->
  chain st p l -> chain st' p l.
Proof.
  intros Hlen. revert p. induction l as [|t l IH]; intros p Hn; simpl; [done|].
  intros (-> & Ht & Hc). rewrite Hlen. repeat split; [done|]. rewrite Hn by left.
  apply IH; [|done]. intros u Hu. apply Hn. by right.
Qed.

Lemma sorted_ext st st' l :
  (forall t, t ∈ l -> expires (obj st' t) = expires (obj st t)) -> sorted st l -> sorted st' l.
Proof.
  induction l as [|t l IH]; intros He; simpl; [done|]. intros [Ht Hs]. split.
  - intros u Hu. rewrite !He by (by left || by right). by apply Ht.
  - apply IH; [|done]. intros u Hu. apply He. by right.
Qed.

Lemma sorted_filter st P `{!forall u : nat, Decision (P u)} l : sorted st l -> sorted st (filter P l).
Proof.
  induction l as [|t l IH]; simpl; [done|]. intros [Ht Hs]. rewrite filter_cons.
  destruct (decide (P t)); [|by apply IH]. split; [|by apply IH].
  intros u [_ Hu]%list_elem_of_filter. by apply Ht.
Qed.

Lemma chain_bound st p l : chain st p l -> forall t, t ∈ l -> (t < length (objs st))%nat.
Proof.
  revert p. induction l as [|t l IH]; intros p; simpl; [by intros _ t ?%not_elem_of_nil|].
  intros (_ & Ht & Hc) u [->|Hu]%elem_of_cons; [done|]. by eapply IH.
Qed.

(** A list of distinct timers is no longer than their table. *)
Lemma chain_length st p l : chain st p l -> NoDup l -> (length l <= length (objs st))%nat.
Proof.
  intros Hc Hnd. rewrite <- (length_seq (length (objs st)) 0).
  apply submseteq_length, NoDup_submseteq; [done|].
  intros t Ht%(chain_bound _ _ _ Hc). apply elem_of_seq. lia.
Qed.
End Storage.

(** ** Lemmas on link paths *)
Section Paths.
Implicit Types (st : timers) (lk : link) (t u : nat) (l : list nat).

Lemma path_end_cases lk l : path_end lk l = lk \/ exists t, path_end lk l = LNext t /\ t ∈ l.
Proof.
  revert lk. induction l as [|t l IH]; intros lk; simpl; [by left|]. right.
  destruct (IH (LNext t)) as [->|(u & -> & Hu)]; [exists t|exists u]; (split; [done|]); [by left|by right].
Qed.

Lemma path_end_app lk l l' : path_end lk (l ++ l') = path_end (path_end lk l) l'.
Proof. revert lk. induction l as [|t l IH]; intros lk; simpl; [done|apply IH]. Qed.

(** Assigning the pointer at the end of a path replaces what follows it. *)
Lemma assign_chain st lk l1 l2 l3 v :
  chain st (deref st lk) (l1 ++ l2) -> NoDup (l1 ++ l2) -> avoids lk (l1 ++ l2) -> valid_link st lk ->
  chain (assign (path_end lk l1) v st) v l3 ->
  chain (assign (path_end lk l1) v st) (deref (assign (path_end lk l1) v st) lk) (l1 ++ l3).
Proof.
  revert lk. induction l1 as [|t l1 IH]; intros lk Hc Hnd Hav Hv H3; simpl in *.
  - rewrite deref_assign_eq; done.
  - destruct Hc as (Hd & Ht & Hc). apply NoDup_cons in Hnd as [Hnt Hnd].
    assert (Hne : path_end (LNext t) l1 <> lk).
    { destruct (path_end_cases (LNext t) l1) as [->|(u & -> & Hu)]; intros <-; apply Hav; set_solver. }
    rewrite deref_assign_ne, length_assign by done. repeat split; [done..|].
    by apply (IH (LNext t)).
Qed.

(** The walk of [timer_unlink_locked] stops at the link to the timer. *)
Lemma unlink_walk_found fuel st lk l1 l2 t :
  chain st (deref st lk) (l1 ++ t :: l2) -> t ∉ l1 -> (length l1 < fuel)%nat ->
  unlink_walk fuel t lk st = assign (path_end lk l1) (next (obj st t)) st.
Proof.
  revert lk l1. induction fuel as [|fuel IH]; intros lk l1 Hc Ht Hf; [lia|].
  destruct l1 as [|u l1]; destruct Hc as (Hd & _ & Hc); simpl; rewrite Hd.
  - by rewrite Nat.eqb_refl.
  - apply not_elem_of_cons in Ht as [Htu Ht].
    rewrite (proj2 (Nat.eqb_neq u t)) by done. apply IH; [done..|simpl in Hf; lia].
Qed.

(** The walk of [timer_set] passes the deadlines up to the new one. *)
Lemma insert_walk_found fuel st lk l1 l2 e :
  chain st (deref st lk) (l1 ++ l2) ->
  (forall u, u ∈ l1 -> expires (obj st u) <= e) ->
  (forall u, head l2 = Some u -> e < expires (obj st u)) ->
  (length l1 < fuel)%nat ->
  insert_walk fuel e lk st = path_end lk l1.
Proof.
  revert lk l1. induction fuel as [|fuel IH]; intros lk l1 Hc H1 H2 Hf; [lia|].
  destruct l1 as [|u l1]; simpl in *.
  - destruct l2 as [|u l2]; simpl in *; [by rewrite Hc|]. destruct Hc as (-> & _).
    specialize (H2 u eq_refl). rewrite (proj2 (Z.leb_gt _ _)) by done. done.
  - destruct Hc as (-> & _ & Hc). rewrite (proj2 (Z.leb_le _ _)) by (apply H1; left).
    apply IH; [done| |done|lia]. intros w Hw. apply H1. by right.
Qed.

Lemma chain_deref_end st lk l1 l2 :
  chain st (deref st lk) (l1 ++ l2) -> chain st (deref st (path_end lk l1)) l2.
Proof.
  revert lk. induction l1 as [|t l1 IH]; intros lk; simpl; [done|]. intros (_ & _ & Hc). by apply (IH (LNext t)).
Qed.

(** In a sorted list the two filters of [arm] split it. *)
Lemma sorted_split st l e :
  sorted st l -> l = filter (fun u => expires (obj st u) <= e) l ++ filter (fun u => e < expires (obj st u)) l.
Proof.
  induction l as [|t l IH]; simpl; [done|]. intros [Ht Hs]. rewrite !filter_cons.
  destruct (decide (expires (obj st t) <= e)) as [Hle|Hgt].
  - rewrite decide_False by lia. simpl. by rewrite <- IH.
  - rewrite decide_True by lia.
    rewrite filter_none, filter_all; [done|intros u Hu; specialize (Ht u Hu); lia..].
Qed.
End Paths.

(** ** The operations on the abstract list *)
Section Operations.
Implicit Types (st : timers) (t u : nat) (l : list nat).

Lemma disarm_notin t l : t ∉ l -> disarm t l = l.
Proof. intros H. apply filter_all. intros u Hu ->. done. Qed.

Lemma disarm_split t l1 l2 : NoDup (l1 ++ t :: l2) -> disarm t (l1 ++ t :: l2) = l1 ++ l2.
Proof.
  intros (Hn1 & Hd & Hn2)%NoDup_app. apply NoDup_cons in Hn2 as [Ht Hn2].
  unfold disarm. rewrite filter_app, filter_cons_False by tauto.
  f_equal; apply filter_all; intros u Hu ->; [apply (Hd t Hu); left|done].
Qed.

Lemma elem_of_disarm t u l : u ∈ disarm t l <-> u <> t /\ u ∈ l.
Proof. unfold disarm. by rewrite list_elem_of_filter. Qed.

Lemma length_unlink t st : length (objs (timer_unlink_locked t st)) = length (objs st).
Proof.
  unfold timer_unlink_locked. rewrite length_on_obj. generalize (S (length (objs st))) LHead.
  intros n. induction n as [|n IH]; intros lk; simpl; [done|].
  destruct (deref st lk); [|done]. case_match; [apply length_assign|apply IH].
Qed.

Lemma field_unlink_walk {A} (g : timer -> A) fuel t lk st u :
  (forall w x, g (with_next w x) = g x) -> g (obj (unlink_walk fuel t lk st) u) = g (obj st u).
Proof.
  intros Hg. revert lk. induction fuel as [|n IH]; intros lk; simpl; [done|].
  destruct (deref st lk); [|done]. case_match; [by apply field_assign|apply IH].
Qed.

(** Unlinking an armed timer. *)
Lemma timer_unlink_inv st l t :
  timer_inv st l -> t ∈ l -> timer_inv (timer_unlink_locked t st) (disarm t l).
Proof.
  intros (Hc & Hnd & Hs & Ha) Ht.
  assert (Hb : (t < length (objs st))%nat) by (by eapply chain_bound).
  assert (Hfuel : (length l <= length (objs st))%nat) by (by eapply chain_length).
  apply list_elem_of_split in Ht as (l1 & l2 & ->).
  pose proof Hnd as (Hnd1 & Hdis & Hnd2)%NoDup_app. apply NoDup_cons in Hnd2 as [Ht2 Hnd2].
  assert (Ht1 : t ∉ l1) by (intros H; apply (Hdis t H); left).
  pose proof (chain_deref_end st LHead l1 (t :: l2) Hc) as (_ & _ & Hc2).
  rewrite disarm_split by done. unfold timer_unlink_locked.
  rewrite (unlink_walk_found _ st LHead l1 l2 t) by (done || (rewrite length_app in Hfuel; simpl in *; lia)).
  set (st1 := assign (path_end LHead l1) (next (obj st t)) st).
  assert (Hc3 : chain st1 (g_timer_head st1) (l1 ++ l2)).
  { apply (assign_chain st LHead l1 (t :: l2)); [done..|].
    apply (chain_ext st); [apply length_assign| |done]. intros u Hu. unfold st1.
    destruct (path_end_cases LHead l1) as [->|(w & -> & Hw)]; [done|]. simpl.
    rewrite obj_on_obj_ne; [done|]. intros ->. apply (Hdis u Hw). by right. }
  split_and!.
  - apply (chain_ext st1); [apply length_on_obj| |done]. intros u Hu. rewrite obj_on_obj_ne; [done|].
    intros ->. by apply elem_of_app in Hu as [?|?].
  - apply NoDup_app. split_and!; [done| |done]. intros u Hu H2. apply (Hdis u Hu). by right.
  - apply (sorted_ext st); [|rewrite <- (disarm_split t) by done; by apply sorted_filter].
    intros u _. rewrite field_on_obj by done. by apply field_assign.
  - intros u. rewrite <- (disarm_split t) by done. rewrite elem_of_disarm, <- Ha.
    destruct (decide (t = u)) as [->|Hne].
    + rewrite obj_on_obj_eq by (unfold st1; by rewrite length_assign). simpl. split; [done|]. by intros [? _].
    + rewrite obj_on_obj_ne by done. unfold st1. rewrite (field_assign active) by done. split; [by split|by intros [_ ?]].
Qed.

Lemma expires_unlink t st u : expires (obj (timer_unlink_locked t st) u) = expires (obj st u).
Proof. unfold timer_unlink_locked. rewrite field_on_obj by done. by apply field_unlink_walk. Qed.

Lemma timer_cancel_inv st l t :
  timer_inv st l -> timer_inv (timer_cancel (Some t) st) (disarm t l).
Proof.
  intros Hi. simpl. destruct (active (obj st t)) eqn:E.
  - apply timer_unlink_inv; [done|]. by apply Hi.
  - rewrite disarm_notin; [done|]. intros Ht. apply Hi in Ht. congruence.
Qed.

Lemma length_cancel o st : length (objs (timer_cancel o st)) = length (objs st).
Proof. destruct o as [t|]; simpl; [|done]. case_match; [apply length_unlink|done]. Qed.

Lemma expires_cancel o st u : expires (obj (timer_cancel o st) u) = expires (obj st u).
Proof. destruct o as [t|]; simpl; [|done]. case_match; [apply expires_unlink|done]. Qed.
End Operations.

Section Arming.
Implicit Types (st : timers) (t u : nat) (l : list nat).

Lemma elem_of_arm e t u l : u ∈ arm e t l <-> u = t \/ u ∈ l.
Proof.
  unfold arm. rewrite elem_of_app, elem_of_cons, !list_elem_of_filter.
  destruct (decide (e u <= e t)); [tauto|]. assert (e t < e u) by lia. tauto.
Qed.

Lemma arm_NoDup e t l : NoDup l -> t ∉ l -> NoDup (arm e t l).
Proof.
  intros Hnd Ht. apply NoDup_app. split_and!.
  - by apply NoDup_filter.
  - intros u [H1 H2]%list_elem_of_filter [->|[H3 _]%list_elem_of_filter]%elem_of_cons; [done|lia].
  - apply NoDup_cons. split; [|by apply NoDup_filter]. by intros [_ ?]%list_elem_of_filter.
Qed.

Lemma sorted_arm st t l : sorted st l -> sorted st (arm (fun u => expires (obj st u)) t l).
Proof.
  intros Hs. unfold arm. induction l as [|u l IH]; simpl.
  - split; [by intros ? ?%not_elem_of_nil|done].
  - destruct Hs as [Hu Hs]. rewrite !filter_cons.
    destruct (decide (expires (obj st u) <= expires (obj st t))) as [Hle|Hgt].
    + rewrite decide_False by lia. simpl. split; [|by apply IH].
      intros w [[_ Hw]%list_elem_of_filter|[->|[_ Hw]%list_elem_of_filter]%elem_of_cons]%elem_of_app; auto.
    + rewrite decide_True by lia. rewrite filter_none, filter_all by (intros w Hw; specialize (Hu w Hw); lia).
      simpl. split_and!; [|done..].
      intros w [->|Hw]%elem_of_cons; [lia|]. specialize (Hu w Hw). lia.
Qed.

(** Linking an unarmed timer whose deadline is set. *)
Lemma link_inv st l t e cb a :
  timer_inv st l -> t ∉ l -> (t < length (objs st))%nat ->
  let st1 := on_obj t (fun x => Timer e cb a (next x) (active x)) st in
  let lk := insert_walk (S (length (objs st1))) e LHead st1 in
  let st2 := assign lk (Some t) (on_obj t (with_next (deref st1 lk)) st1) in
  timer_inv (on_obj t (with_active true) st2) (arm (fun u => expires (obj st1 u)) t l).
Proof.
  intros (Hc & Hnd & Hs & Ha) Ht Hlt st1 lk st2.
  set (ex := fun u => expires (obj st1 u)).
  assert (Hlen1 : length (objs st1) = length (objs st)) by apply length_on_obj.
  assert (Ho : forall u, u ∈ l -> obj st1 u = obj st u) by (intros u Hu; apply obj_on_obj_ne; congruence).
  assert (Het : ex t = e) by (unfold ex, st1; by rewrite obj_on_obj_eq).
  assert (Hc1 : chain st1 (g_timer_head st1) l).
  { apply (chain_ext st); [done| |done]. intros u Hu. by rewrite Ho. }
  assert (Hs1 : sorted st1 l).
  { apply (sorted_ext st); [|done]. intros u Hu. by rewrite Ho. }
  set (l1 := filter (fun u => ex u <= ex t) l). set (l2 := filter (fun u => ex t < ex u) l).
  assert (Hl : l = l1 ++ l2) by (by apply sorted_split).
  assert (Hlk : lk = path_end LHead l1).
  { apply (insert_walk_found _ st1 LHead l1 l2); [by rewrite <- Hl| | |].
    - intros u [Hu _]%list_elem_of_filter. by rewrite <- Het.
    - intros u Hu. apply head_Some_elem_of in Hu. apply list_elem_of_filter in Hu as [Hu _]. by rewrite <- Het.
    - pose proof (chain_length _ _ _ Hc Hnd). pose proof (length_filter (fun u => ex u <= ex t) l).
      unfold l1. lia. }
  assert (Ht12 : t ∉ l1 ++ l2) by (by rewrite <- Hl).
  assert (Hc2 : chain st2 (g_timer_head st2) (l1 ++ t :: l2)).
  { unfold st2. rewrite Hlk. apply (assign_chain _ LHead l1 l2); [|by rewrite <- Hl|done..|].
    - rewrite <- Hl. apply (chain_ext st1); [apply length_on_obj| |done]. intros u Hu.
      rewrite obj_on_obj_ne; congruence.
    - pose proof (chain_deref_end st1 LHead l1 l2 ltac:(by rewrite <- Hl)) as Hd.
      assert (Hne : forall u, u ∈ t :: l2 -> path_end LHead l1 <> LNext u).
      { intros u Hu. destruct (path_end_cases LHead l1) as [->|(w & -> & Hw)]; [done|]. intros [= ->].
        apply elem_of_cons in Hu as [->|Hu]; [by apply Ht12, elem_of_app; left|].
        rewrite Hl in Hnd. apply NoDup_app in Hnd as (_ & Hdis & _). by apply (Hdis u). }
      split; [done|]. split; [rewrite length_assign, length_on_obj; lia|].
      change (next (obj ?s t)) with (deref s (LNext t)). rewrite deref_assign_ne by (apply Hne; left).
      simpl. rewrite obj_on_obj_eq by lia. simpl.
      apply (chain_ext st1); [by rewrite length_assign, length_on_obj| |done]. intros u Hu.
      change (next (obj ?s u)) with (deref s (LNext u)). rewrite deref_assign_ne by (apply Hne; by right).
      simpl. rewrite obj_on_obj_ne; [done|]. intros ->. apply Ht12, elem_of_app. by right. }
  assert (Hf : forall A (g : timer -> A) u, (forall w x, g (with_next w x) = g x) -> (forall x, g (with_active true x) = g x) ->
             g (obj (on_obj t (with_active true) st2) u) = g (obj st1 u)).
  { intros A g u H1 H2. rewrite field_on_obj by done. unfold st2. rewrite field_assign by done. by apply field_on_obj. }
  split_and!.
  - apply (chain_ext st2); [apply length_on_obj| |done]. intros u _. by apply field_on_obj.
  - by apply arm_NoDup.
  - apply (sorted_ext st1); [intros u _; by apply Hf|]. by apply sorted_arm.
  - intros u. rewrite elem_of_arm, <- Ha. destruct (decide (t = u)) as [<-|Hne].
    + rewrite obj_on_obj_eq by (unfold st2; rewrite length_assign, length_on_obj; lia). simpl. tauto.
    + rewrite obj_on_obj_ne by done. unfold st2. rewrite (field_assign active), (field_on_obj active) by done.
      unfold st1. rewrite obj_on_obj_ne by done. split; [by right|]. by intros [->|?].
Qed.
End Arming.

(** ** Arming, cancelling and firing *)
Section Firing.
Implicit Types (st : timers) (t u : nat) (l : list nat).

Lemma arm_ext e e' t l : (forall u, e u = e' u) -> arm e t l = arm e' t l.
Proof.
  intros H. unfold arm. f_equal; [|f_equal]; apply list_filter_iff; intros u; by rewrite !H.
Qed.

(** [timer_set] first disarms. *)
Lemma timer_set_unfold now st t ticks c a :
  timer_set now (Some t) ticks (Some c) a st =
  let st0 := timer_cancel (Some t) st in
  let e := u64 (now + (if ticks =? 0 then 1 else ticks)) in
  let st1 := on_obj t (fun x => Timer e (Some c) a (next x) (active x)) st0 in
  let lk := insert_walk (S (length (objs st1))) e LHead st1 in
  on_obj t (with_active true) (assign lk (Some t) (on_obj t (with_next (deref st1 lk)) st1)).
Proof. done. Qed.

(** Every field but [next] and [active] after [timer_set]. *)
Lemma timer_set_fields now st t ticks c a {A} (g : timer -> A) u :
  (t < length (objs st))%nat ->
  (forall w x, g (with_next w x) = g x) -> (forall b x, g (with_active b x) = g x) ->
  g (obj (timer_set now (Some t) ticks (Some c) a st) u) =
  if Nat.eqb u t then g (Timer (u64 (now + (if ticks =? 0 then 1 else ticks))) (Some c) a None true)
  else g (obj st u).
Proof.
  intros Hlt H1 H2. rewrite timer_set_unfold. cbv zeta.
  rewrite (field_on_obj g), (field_assign g), (field_on_obj g) by done.
  destruct (Nat.eqb_spec u t) as [->|Hne].
  - rewrite obj_on_obj_eq by (by rewrite length_cancel).
    rewrite <- (H1 None), <- (H2 true). done.
  - rewrite obj_on_obj_ne by done. simpl. case_match; [|done].
    unfold timer_unlink_locked. rewrite field_on_obj by (intros; by rewrite H2, H1).
    by apply field_unlink_walk.
Qed.

Lemma length_set now st o ticks cb a : length (objs (timer_set now o ticks cb a st)) = length (objs st).
Proof.
  destruct o as [t|], cb as [c|]; try done. rewrite timer_set_unfold. cbv zeta.
  by rewrite length_on_obj, length_assign, !length_on_obj, length_cancel.
Qed.

Lemma timer_set_inv now st l t ticks c a :
  timer_inv st l -> (t < length (objs st))%nat ->
  let st' := timer_set now (Some t) ticks (Some c) a st in
  timer_inv st' (arm (fun u => expires (obj st' u)) t (disarm t l)).
Proof.
  intros Hi Hlt st'. unfold st'. set (e := u64 (now + (if ticks =? 0 then 1 else ticks))).
  assert (Hn : t ∉ disarm t l) by (rewrite elem_of_disarm; tauto).
  assert (Hlt' : (t < length (objs (timer_cancel (Some t) st)))%nat) by (by rewrite length_cancel).
  pose proof (link_inv (timer_cancel (Some t) st) (disarm t l) t e (Some c) a
                (timer_cancel_inv st l t Hi) Hn Hlt') as H.
  erewrite arm_ext; [exact H|]. intros u. cbv beta.
  rewrite (timer_set_fields _ _ _ _ _ _ expires) by done.
  fold e. destruct (Nat.eqb_spec u t) as [->|Hne].
  - by rewrite obj_on_obj_eq.
  - rewrite obj_on_obj_ne by done. symmetry. apply expires_cancel.
Qed.

(** The armed timers whose deadline has passed, in the order of the list. *)
Definition due (now : Z) st l : list nat := filter (fun u => expires (obj st u) <= now) l.

Lemma due_ext now st st' l :
  (forall u, u ∈ l -> expires (obj st' u) = expires (obj st u)) -> due now st' l = due now st l.
Proof.
  induction l as [|t l IH]; intros H; [done|]. unfold due in *. rewrite !filter_cons.
  rewrite (H t) by left. rewrite IH by (intros u Hu; apply H; by right). done.
Qed.

Lemma due_disarm now st t l : due now st (disarm t l) = disarm t (due now st l).
Proof. unfold due, disarm. rewrite !list_filter_filter. apply list_filter_iff. tauto. Qed.

Lemma due_arm now st t l :
  now < expires (obj st t) -> due now st (arm (fun u => expires (obj st u)) t l) = due now st l.
Proof.
  intros Ht. unfold due, arm. rewrite filter_app, filter_cons_False by lia.
  rewrite list_filter_filter_l by (intros u; lia).
  match goal with |- _ ++ ?x = _ => enough (x = []) as -> by apply app_nil_r end.
  apply filter_none. intros u [Hu _]%list_elem_of_filter. lia.
Qed.

(** A call of a callback: it names a timer of the table, and its delay does
    not run past the end of the tick counter. *)
Definition call_ok (n : nat) (now : Z) (c : call) : Prop :=
  match c with
  | CSet (Some t) ticks (Some _) _ => (t < n)%nat /\ 0 <= ticks /\ now + Z.max 1 ticks < 2 ^ 64
  | _ => True
  end.

Definition target (c : call) : option nat :=
  match c with CSet tmr _ (Some _) _ => tmr | CSet _ _ None _ => None | CCancel tmr => tmr end.

Lemma run_call_due now st l c :
  0 <= now -> timer_inv st l -> call_ok (length (objs st)) now c ->
  exists l', timer_inv (run_call now c st) l' /\ length (objs (run_call now c st)) = length (objs st) /\
    due now (run_call now c st) l' = match target c with Some t => disarm t (due now st l) | None => due now st l end.
Proof.
  intros Hnow Hi Hok. destruct c as [[t|] ticks [c|] a|[t|]]; cbn [run_call target]; try by exists l.
  - destruct Hok as (Hlt & Hpos & Hw). eexists. split; [by apply timer_set_inv|]. split; [apply length_set|].
    rewrite due_arm.
    + rewrite <- due_disarm. apply due_ext. intros u [Hu _]%elem_of_disarm.
      rewrite (timer_set_fields _ _ _ _ _ _ expires) by done. by rewrite (proj2 (Nat.eqb_neq _ _)).
    + rewrite (timer_set_fields _ _ _ _ _ _ expires), Nat.eqb_refl by done. simpl.
      rewrite u64_small by (unfold is_u64; destruct (Z.eqb_spec ticks 0); lia).
      destruct (Z.eqb_spec ticks 0); lia.
  - exists (disarm t l). split; [by apply (timer_cancel_inv st l t)|]. split; [apply (length_cancel (Some t))|].
    rewrite <- due_disarm. apply due_ext. intros u _. apply (expires_cancel (Some t)).
Qed.

Lemma disarm_sublist t l : sublist (disarm t l) l.
Proof. apply sublist_filter. Qed.

Lemma run_calls_due now cs st l :
  0 <= now -> timer_inv st l -> Forall (call_ok (length (objs st)) now) cs ->
  exists l', timer_inv (run_calls now cs st) l' /\ length (objs (run_calls now cs st)) = length (objs st) /\
    sublist (due now (run_calls now cs st) l') (due now st l) /\
    (Forall (fun c => forall t, target c = Some t -> t ∉ due now st l) cs ->
     due now (run_calls now cs st) l' = due now st l).
Proof.
  intros Hnow. revert st l. induction cs as [|c cs IH]; intros st l Hi Hok.
  { exists l. done. }
  apply Forall_cons in Hok as [Hc Hok].
  destruct (run_call_due now st l c Hnow Hi Hc) as (l1 & Hi1 & Hlen & Hd).
  rewrite <- Hlen in Hok. destruct (IH _ _ Hi1 Hok) as (l2 & Hi2 & Hlen2 & Hsub & Hkeep).
  exists l2. split; [done|]. split; [simpl; congruence|]. split.
  - etrans; [done|]. rewrite Hd. destruct (target c); [apply disarm_sublist|done].
  - intros [Hq Hqs]%Forall_cons. simpl in *.
    assert (E : due now (run_call now c st) l1 = due now st l).
    { rewrite Hd. destruct (target c); [|done]. by apply disarm_notin, Hq. }
    rewrite Hkeep; [done|]. by rewrite E.
Qed.

(** Removing the head from the list, as [timer_tick] does. *)
Lemma pop_inv st l t :
  timer_inv st (t :: l) ->
  let st1 := on_obj t (fun x => with_active false (with_next None x)) (Timers (next (obj st t)) (objs st)) in
  timer_inv st1 l /\ forall u, expires (obj st1 u) = expires (obj st u).
Proof.
  intros ((_ & Hlt & Hc) & Hnd & (_ & Hs) & Ha) st1. apply NoDup_cons in Hnd as [Ht Hnd].
  assert (He : forall u, expires (obj st1 u) = expires (obj st u)).
  { intros u. unfold st1. by rewrite field_on_obj. }
  assert (Ho : forall u, u <> t -> obj st1 u = obj st u) by (intros u Hu; unfold st1; by rewrite obj_on_obj_ne).
  split; [|done]. split_and!; [|done| |].
  - apply (chain_ext st); [unfold st1; by rewrite length_on_obj| |done]. intros u Hu. rewrite Ho; congruence.
  - apply (sorted_ext st); [|done]. intros u _. apply He.
  - intros u. destruct (decide (u = t)) as [->|Hne].
    + unfold st1. rewrite obj_on_obj_eq by done. simpl. split; [done|]. intros H. done.
    + rewrite Ho by done. rewrite Ha, elem_of_cons. tauto.
Qed.

(** A call leaves the fields of a timer it does not name. *)
Lemma field_run_calls {A} (g : timer -> A) now cs st u :
  (forall w x, g (with_next w x) = g x) -> (forall b x, g (with_active b x) = g x) ->
  Forall (call_ok (length (objs st)) now) cs -> Forall (fun c => target c <> Some u) cs ->
  g (obj (run_calls now cs st) u) = g (obj st u).
Proof.
  intros H1 H2. revert st. induction cs as [|c cs IH]; intros st Hok Ht; [done|].
  apply Forall_cons in Hok as [Hc Hok]. apply Forall_cons in Ht as [Hcu Ht].
  assert (Hlen : length (objs (run_call now c st)) = length (objs st)).
  { destruct c as [o ticks cb a|o]; cbn [run_call]; [apply length_set|apply length_cancel]. }
  simpl. rewrite IH by (done || by rewrite Hlen).
  destruct c as [[t|] ticks [c|] a|[t|]]; cbn [run_call target] in *; try done.
  - rewrite (timer_set_fields _ _ _ _ _ _ g) by (done || apply Hc).
    rewrite (proj2 (Nat.eqb_neq _ _)); [done|]. congruence.
  - simpl. case_match; [|done]. unfold timer_unlink_locked.
    rewrite field_on_obj by (intros; by rewrite H2, H1). by apply field_unlink_walk.
Qed.

Section Callbacks.
Variable run : option Z -> Z -> timers -> list call.
Variables (n : nat) (now : Z).
Hypothesis Hnow : 0 <= now.
Hypothesis Hrun : forall cb a st, Forall (call_ok n now) (run cb a st).

(** No callback of a due timer sets or cancels another due timer: it may
    re-arm its own. *)
Definition undisturbed st l : Prop :=
  forall u s, u ∈ due now st l ->
  Forall (fun c => forall t, target c = Some t -> t = u \/ t ∉ due now st l)
    (run (callback (obj st u)) (arg (obj st u)) s).

Lemma tick_loop_spec fuel st l :
  timer_inv st l -> length (objs st) = n -> (length (due now st l) < fuel)%nat ->
  exists st' fired l', tick_loop run now fuel st = Some (st', fired) /\
    timer_inv st' l' /\ due now st' l' = [] /\ sublist fired (due now st l) /\
    (undisturbed st l -> fired = due now st l).
Proof.
  revert st l. induction fuel as [|fuel IH]; intros st l Hi Hn Hf; [lia|]. simpl.
  pose proof Hi as (Hc & _ & Hs & _). destruct l as [|t l].
  { rewrite Hc. exists st, [], []. split_and!; try done. }
  destruct Hc as (-> & _ & _). destruct (Z.ltb_spec now (expires (obj st t))) as [Hlt|Hge].
  - assert (Hd : due now st (t :: l) = []).
    { apply filter_none. destruct Hs as [Ht _]. intros u [->|Hu]%elem_of_cons; [lia|]. specialize (Ht u Hu). lia. }
    rewrite Hd. exists st, [], (t :: l). done.
  - destruct (pop_inv st l t Hi) as [Hi1 He]. set (st1 := on_obj t _ _) in *.
    assert (Hd : due now st (t :: l) = t :: due now st1 l).
    { unfold due at 1. rewrite filter_cons_True by lia. f_equal. symmetry. by apply due_ext. }
    assert (Hlen : length (objs st1) = n) by (unfold st1; by rewrite length_on_obj).
    pose proof (Hrun (callback (obj st1 t)) (arg (obj st1 t)) st1) as Hok. rewrite <- Hlen in Hok.
    destruct (run_calls_due now _ st1 l Hnow Hi1 Hok) as (l2 & Hi2 & Hlen2 & Hsub & Hkeep).
    rewrite Hd in *. set (st2 := run_calls _ _ _) in *.
    pose proof (sublist_length _ _ Hsub).
    destruct (IH st2 l2 Hi2 ltac:(congruence) ltac:(simpl in Hf; lia)) as (st' & fired & l' & -> & Hi' & Hd' & Hs' & Hx).
    exists st', (t :: fired), l'. split_and!; [done..| |].
    + apply sublist_skip. by etrans.
    + intros Hq. assert (Hnd : NoDup (t :: due now st1 l)) by (rewrite <- Hd; apply NoDup_filter, Hi).
      apply NoDup_cons in Hnd as [Ht Hnd].
      assert (Hf1 : forall u, callback (obj st1 u) = callback (obj st u) /\ arg (obj st1 u) = arg (obj st u)).
      { intros u. unfold st1. by rewrite !field_on_obj. }
      pose proof (Hq t st1) as Hqt. rewrite Hd in Hqt. specialize (Hqt ltac:(left)).
      destruct (Hf1 t) as [Hcb Harg]. rewrite <- Hcb, <- Harg in Hqt.
      assert (Hkeep' : due now st2 l2 = due now st1 l).
      { apply Hkeep. eapply Forall_impl; [exact Hqt|]. intros c Hx' u Hu.
        destruct (Hx' u Hu) as [->|Hu']; [done|]. intros ?. apply Hu'. by right. }
      rewrite Hx, Hkeep'; [done|]. intros u s Hu. rewrite Hkeep' in Hu |- *.
      assert (Hnt : Forall (fun c => target c <> Some u) (run (callback (obj st1 t)) (arg (obj st1 t)) st1)).
      { eapply Forall_impl; [exact Hqt|]. intros c Hx' Hc'.
        destruct (Hx' u Hc') as [->|Hu']; [done|]. apply Hu'. by right. }
      unfold st2. rewrite (field_run_calls callback), (field_run_calls arg) by done. destruct (Hf1 u) as [-> ->].
      specialize (Hq u s). rewrite Hd in Hq. specialize (Hq ltac:(by right)).
      eapply Forall_impl; [exact Hq|]. intros c Hx' w Hw. destruct (Hx' w Hw) as [?|Hw']; [by left|].
      right. intros ?. apply Hw'. by right.
Qed.
End Callbacks.
End Firing.

(** ** Properties *)

(** C28: The timer list refines a sorted list. From a state whose pointers
    store the list [l] of armed timers, [timer_set] leaves the pointers
    storing that list with the timer first taken out and then put behind
    every deadline that is not later than its own (so equal deadlines keep
    the order of arming), with the deadline [now + ticks] at 64 bits, one tick
    for a delay of zero; no other timer's deadline changes. [timer_cancel]
    leaves the list without the timer, and [timer_is_active] is membership. *)
Theorem timer_list_refines now st l t ticks c a :
  timer_inv st l -> (t < length (objs st))%nat ->
  let st' := timer_set now (Some t) ticks (Some c) a st in
  timer_inv st' (arm (fun u => expires (obj st' u)) t (disarm t l)) /\
  expires (obj st' t) = u64 (now + (if ticks =? 0 then 1 else ticks)) /\
  callback (obj st' t) = Some c /\ arg (obj st' t) = a /\
  (forall u, u <> t -> expires (obj st' u) = expires (obj st u)) /\
  timer_inv (timer_cancel (Some t) st) (disarm t l) /\
  (timer_is_active (Some t) st = true <-> t ∈ l).
Proof.
  intros Hi Hlt st'. unfold st'.
  split; [by apply timer_set_inv|].
  rewrite (timer_set_fields _ _ _ _ _ _ expires), (timer_set_fields _ _ _ _ _ _ callback),
    (timer_set_fields _ _ _ _ _ _ arg), Nat.eqb_refl by done.
  split_and!; try done.
  - intros u Hu. rewrite (timer_set_fields _ _ _ _ _ _ expires) by done. by rewrite (proj2 (Nat.eqb_neq _ _)).
  - by apply timer_cancel_inv.
  - apply Hi.
Qed.

(** Two timers with the same deadline and a later one, armed at tick 7. *)
Definition wheel : timers :=
  timer_set 7 (Some 2%nat) 5 (Some 1) 0
    (timer_set 7 (Some 0%nat) 9 (Some 1) 0
      (timer_set 7 (Some 1%nat) 5 (Some 1) 0
        (timer_subsystem_init (Timers None (replicate 4 zero_timer))))).

Lemma wheel_inv : timer_inv wheel [1; 2; 0]%nat.
Proof.
  split_and!.
  - vm_compute. repeat split; lia.
  - apply NoDup_ListNoDup. repeat constructor; simpl; lia.
  - simpl. split_and!; try done; intros u Hu; rewrite ?elem_of_cons in Hu;
      (destruct_or?; subst; vm_compute; try done; by apply not_elem_of_nil in Hu).
  - intros t. rewrite !elem_of_cons, elem_of_nil.
    destruct t as [|[|[|[|t]]]];
      match goal with |- active ?x = true <-> _ => let b := eval vm_compute in (active x) in change (active x) with b end;
      split; intros H; try done; lia.
Qed.

Lemma timer_list_refines_witness :
  timer_inv (timer_set 8 (Some 3%nat) 4 (Some 1) 0 wheel) [1; 2; 3; 0]%nat.
Proof. apply (timer_list_refines 8 wheel [1; 2; 0]%nat 3 4 1 0 wheel_inv). vm_compute. lia. Defined.

(** C29: A tick returns, whatever its callbacks set and cancel: as long as a
    delay does not run past the end of the 64-bit counter, a re-armed timer is
    later than the present, so the loop ends within one iteration per due
    timer. Afterwards the list is still well formed and holds no due timer,
    and the timers fired are due ones, each once and in the order of the
    list; they are all of them when no callback sets or cancels another timer
    that is due (re-arming its own is allowed). *)
Theorem timer_tick_fires run now st l :
  0 <= now -> (forall cb a s, Forall (call_ok (length (objs st)) now) (run cb a s)) -> timer_inv st l ->
  exists st' fired l', timer_tick run now st = Some (st', fired) /\
    timer_inv st' l' /\ (forall t, t ∈ l' -> now < expires (obj st' t)) /\
    sublist fired (due now st l) /\
    (undisturbed run now st l -> fired = due now st l).
Proof.
  intros Hnow Hrun Hi. pose proof Hi as (Hc & Hnd & _).
  assert (Hf : (length (due now st l) < S (length (objs st)))%nat).
  { pose proof (chain_length _ _ _ Hc Hnd). unfold due.
    pose proof (length_filter (fun u => expires (obj st u) <= now) l). lia. }
  destruct (tick_loop_spec run (length (objs st)) now Hnow Hrun _ st l Hi eq_refl Hf)
    as (st' & fired & l' & Ht & Hi' & Hd & Hs & Hx).
  exists st', fired, l'. split_and!; try done.
  intros t Ht'. destruct (Z.lt_ge_cases now (expires (obj st' t))) as [|Hle]; [done|].
  exfalso. eapply filter_nil_not_elem_of; [exact Hd|exact Hle|done].
Qed.

(** A periodic callback: it re-arms its own timer, which here is the only one
    with deadline 12 besides timer 2. *)
Definition periodic (cb : option Z) (a : Z) (st : timers) : list call :=
  if a =? 1 then [CSet (Some 1%nat) 3 cb a] else [].

(** [wheel] with the argument of timer 1 naming it. *)
Definition wheel' : timers := on_obj 1 (fun x => Timer (expires x) (callback x) 1 (next x) (active x)) wheel.

Lemma wheel'_inv : timer_inv wheel' [1; 2; 0]%nat.
Proof.
  destruct wheel_inv as (Hc & Hnd & Hs & Ha). split_and!; [|done| |].
  - apply (chain_ext wheel); [apply length_on_obj| |done]. intros u _. by apply field_on_obj.
  - apply (sorted_ext wheel); [|done]. intros u _. by apply field_on_obj.
  - intros u. rewrite <- Ha. unfold wheel'. by rewrite (field_on_obj active).
Qed.

Lemma timer_tick_fires_witness :
  exists st' l', timer_tick periodic 12 wheel' = Some (st', [1; 2]%nat) /\ timer_inv st' l' /\
    (forall t, t ∈ l' -> 12 < expires (obj st' t)).
Proof.
  assert (Hok : forall cb a s, Forall (call_ok (length (objs wheel')) 12) (periodic cb a s)).
  { intros cb a s. unfold periodic. destruct (a =? 1); [|done]. repeat constructor. destruct cb; vm_compute; [|done].
    split_and!; first [lia|done]. }
  destruct (timer_tick_fires periodic 12 wheel' [1; 2; 0]%nat ltac:(lia) Hok wheel'_inv)
    as (st' & fired & l' & Ht & Hi & Hl & Hs & Hx).
  exists st', l'. split; [|split; [exact Hi|exact Hl]]. rewrite Ht. do 2 f_equal. rewrite Hx; [vm_compute; reflexivity|].
  intros u s Hu. change (due 12 wheel' [1; 2; 0]%nat) with [1; 2]%nat in *.
  apply elem_of_cons in Hu as [->|[->|Hu%not_elem_of_nil]%elem_of_cons]; [|vm_compute; constructor|destruct Hu].
  apply Forall_cons. split; [|constructor]. intros t [= <-]. by left.
Defined.
