(* ===== verification/Locks.v ===== *)
(** * src/sync: spinlocks, mutexes and reader/writer locks

    Each lock is a machine of several processors that share it. A processor's
    state is its program counter inside the lock routine; one step performs
    one access to shared memory ([lock cmpxchg], an atomic load or store, an
    atomic add) in the order of the source, and processors interleave freely.
    The theorems are invariants of every reachable state, for any number of
    processors; for the reader/writer lock the invariant that holds is the
    count of readers, and a schedule shows that exclusion does not. *)
From S2P Require Import Prelude.

(** ** include/kernel/atomic.h *)
Definition atomic_cas (v expected desired : Z) : Z * bool :=
  if v =? expected then (desired, true) else (v, false).
Definition atomic_compare_exchange_weak (v expected desired : Z) : Z * bool := atomic_cas v expected desired.
Definition atomic_fetch_add (v d : Z) : Z := s32 (v + d).
Definition atomic_fetch_sub (v d : Z) : Z := atomic_fetch_add v (- d).

(** The processors that satisfy a predicate. *)
Definition count_pc {A} (p : A -> bool) (l : list A) : Z := zsum (fun c => if p c then 1 else 0) l.

Lemma count_pc_insert {A} (p : A -> bool) l i x y :
  l !! i = Some x ->
  count_pc p (<[i:=y]> l) = count_pc p l - (if p x then 1 else 0) + (if p y then 1 else 0).
Proof. apply zsum_insert. Qed.

Lemma count_pc_nonneg {A} (p : A -> bool) l : 0 <= count_pc p l.
Proof. apply zsum_nonneg. intros x. by destruct (p x). Qed.

Lemma count_pc_le {A} (p : A -> bool) l : count_pc p l <= Z.of_nat (length l).
Proof. induction l as [|x l IH]; unfold count_pc in *; simpl; [lia|]. destruct (p x); lia. Qed.

Lemma count_pc_ge {A} (p : A -> bool) l i x : l !! i = Some x -> p x = true -> 1 <= count_pc p l.
Proof.
  intros Hi Hp. pose proof (zsum_ge (fun c => if p c then 1 else 0) l i x) as H.
  simpl in H. rewrite Hp in H. apply H; [|done]. intros c. by destruct (p c).
Qed.

(** Two different processors count for two. *)
Lemma count_pc_two {A} (p : A -> bool) l i j x y :
  i <> j -> l !! i = Some x -> l !! j = Some y -> p x = true -> p y = true -> 2 <= count_pc p l.
Proof.
  revert i j. induction l as [|a l IH]; intros i j Hij Hi Hj Hx Hy; [done|].
  change (count_pc p (a :: l)) with ((if p a then 1 else 0) + count_pc p l).
  destruct i as [|i], j as [|j]; [done| | |]; simpl in *; simplify_eq.
  - pose proof (count_pc_ge p l j y Hj Hy). rewrite Hx. lia.
  - pose proof (count_pc_ge p l i x Hi Hx). rewrite Hy. lia.
  - specialize (IH i j ltac:(congruence) Hi Hj Hx Hy). destruct (p a); lia.
Qed.

(** ** src/sync/spinlock.c *)
Module Spin.
Record spinlock := Spinlock { locked : Z; cpu_id : Z; irq_flags : Z }.

(** Where a processor is: outside, before the compare-and-swap with its saved
    flags ([trylock] marks a single attempt), after it and before the flags
    are stored, inside, and the three points of the release. *)
Inductive pc :=
  | Out
  | Spinning (flags : Z) (trylock : bool)
  | Won (flags : Z)
  | Inside
  | Reading
  | Releasing (flags : Z)
  | Restoring (flags : Z).

(** A processor: its program counter and its interrupt flags; [entry] records
    the flags at the last entry to [spinlock_lock] or [spinlock_trylock]. *)
Record cpu := Cpu { at_pc : pc; irq : Z; entry : Z }.
Record machine := Machine { lock : spinlock; cpus : list cpu }.

Definition spinlock_init : spinlock := Spinlock 0 0 0.

(** The steps of one processor; [irq_off] is the value of the flags after
    [hal_irq_save] has masked interrupts. *)
Inductive action := CallLock | CallTrylock | CallUnlock | Next.

Definition spin_step1 (irq_off : Z -> Z) (a : action) (l : spinlock) (c : cpu) : option (spinlock * cpu) :=
  match a, at_pc c with
  | CallLock, Out => Some (l, Cpu (Spinning (irq c) false) (irq_off (irq c)) (irq c))
  | CallTrylock, Out => Some (l, Cpu (Spinning (irq c) true) (irq_off (irq c)) (irq c))
  | Next, Spinning flags try =>
      match atomic_compare_exchange_weak (locked l) 0 1 with
      | (v, true) => Some (Spinlock v (cpu_id l) (irq_flags l), Cpu (Won flags) (irq c) (entry c))
      | (v, false) =>
          if try then Some (l, Cpu (Restoring flags) (irq c) (entry c))
          else Some (l, c)
      end
  | Next, Won flags => Some (Spinlock (locked l) (cpu_id l) flags, Cpu Inside (irq c) (entry c))
  | CallUnlock, Inside => Some (l, Cpu Reading (irq c) (entry c))
  | Next, Reading => Some (l, Cpu (Releasing (irq_flags l)) (irq c) (entry c))
  | Next, Releasing flags => Some (Spinlock 0 (cpu_id l) (irq_flags l), Cpu (Restoring flags) (irq c) (entry c))
  | Next, Restoring flags => Some (l, Cpu Out flags (entry c))
  | _, _ => None
  end.

Definition step (irq_off : Z -> Z) (i : nat) (a : action) (m : machine) : option machine :=
  match cpus m !! i with
  | None => None
  | Some c =>
      match spin_step1 irq_off a (lock m) c with
      | None => None
      | Some (l, c') => Some (Machine l (<[i:=c']> (cpus m)))
      end
  end.

Definition machine_step (irq_off : Z -> Z) (m m' : machine) : Prop := exists i a, step irq_off i a m = Some m'.

(** The processors between a successful compare-and-swap and the store that
    clears [locked]. *)
Definition owns (c : cpu) : bool :=
  match at_pc c with Won _ | Inside | Reading | Releasing _ => true | _ => false end.

Definition start (irqs : list Z) : machine := Machine spinlock_init (map (fun f => Cpu Out f f) irqs).

(** The flags a processor carries are those of its entry. *)
Definition flags_ok (l : spinlock) (c : cpu) : Prop :=
  match at_pc c with
  | Out => True
  | Spinning flags _ | Won flags | Releasing flags | Restoring flags => flags = entry c
  | Inside | Reading => irq_flags l = entry c
  end.

Definition inv (m : machine) : Prop :=
  locked (lock m) = count_pc owns (cpus m) /\ locked (lock m) <= 1 /\
  (forall i c, cpus m !! i = Some c -> flags_ok (lock m) c).

Lemma spin_start_inv irqs : inv (start irqs).
Proof.
  split_and!; [|done|].
  - unfold count_pc. simpl. rewrite zsum_zero; [done|]. intros c Hc.
    apply list_elem_of_In, in_map_iff in Hc as (f & <- & _). done.
  - intros i c Hc. simpl in Hc. rewrite list_lookup_fmap in Hc. destruct (irqs !! i); by simplify_eq/=.
Qed.

(** A store to the lock by a processor that owns it cannot affect another's flags. *)
Lemma owner_unique m i j c d :
  inv m -> cpus m !! i = Some c -> cpus m !! j = Some d -> owns c = true -> owns d = true -> i = j.
Proof.
  intros (Hl & Hle & _) Hi Hj Hc Hd. destruct (decide (i = j)) as [|Hne]; [done|].
  pose proof (count_pc_two owns (cpus m) i j c d Hne Hi Hj Hc Hd). lia.
Qed.

Lemma flags_ok_stored l l' c : owns c = false -> flags_ok l c -> flags_ok l' c.
Proof. unfold owns, flags_ok. by destruct (at_pc c). Qed.

Lemma flags_ok_same l l' c : irq_flags l = irq_flags l' -> flags_ok l c -> flags_ok l' c.
Proof. unfold flags_ok. intros ->. done. Qed.

Lemma spin_step_inv irq_off m m' : inv m -> machine_step irq_off m m' -> inv m'.
Proof.
  intros Hinv (i & a & Hs). pose proof Hinv as (Hl & Hle & Hf). unfold step in Hs.
  destruct (cpus m !! i) as [c|] eqn:Hi; [|done].
  destruct (spin_step1 irq_off a (lock m) c) as [[l c']|] eqn:H1; [|done]. simplify_eq.
  pose proof (Hf i c Hi) as Hfc. pose proof (count_pc_nonneg owns (cpus m)).
  assert (Hdone : locked l = locked (lock m) - (if owns c then 1 else 0) + (if owns c' then 1 else 0) /\
            locked l <= 1 /\ flags_ok l c' /\ (irq_flags l = irq_flags (lock m) \/ owns c = true)).
  { assert (Hin : owns c = true -> locked (lock m) = 1).
    { intros Ho. pose proof (count_pc_ge owns (cpus m) i _ Hi Ho). lia. }
    assert (Hpos : 0 <= locked (lock m)) by lia. clear - Hin Hpos Hle H1 Hfc.
    destruct c as [p f e]. unfold owns, flags_ok, spin_step1, atomic_compare_exchange_weak, atomic_cas in *. simpl in *.
    destruct a, p; simplify_eq/=; try split_ifs_in H1; simplify_eq/=; try specialize (Hin eq_refl); split_and!; auto; lia. }
  destruct Hdone as (E1 & E2 & E3 & E4). split_and!; simpl; [|done|].
  - rewrite (count_pc_insert _ _ _ _ _ Hi). lia.
  - intros j d Hj. destruct (decide (i = j)) as [<-|Hne].
    + rewrite list_lookup_insert_eq in Hj by (by eapply lookup_lt_Some). by simplify_eq.
    + rewrite list_lookup_insert_ne in Hj by done. specialize (Hf j d Hj).
      destruct E4 as [E4|Ho]; [by eapply flags_ok_same|].
      apply (flags_ok_stored (lock m)); [|done]. destruct (owns d) eqn:Hd; [|done].
      by pose proof (owner_unique m i j c d Hinv Hi Hj Ho Hd).
Qed.
End Spin.

(** ** src/sync/mutex.c *)
Module Mutex.
Record mutex := MutexT { state : Z; owner : option Z; waiters : option Z }.
Inductive pc := Out | Spinning (trylock : bool) | Inside.
Record machine := Machine { mtx : mutex; cpus : list pc }.
Inductive action := CallLock | CallTrylock | CallUnlock | Next.

Definition mutex_init : mutex := MutexT 0 None None.

(** [mutex_destroy] does nothing and is not a step. *)
Definition mutex_step1 (a : action) (m : mutex) (c : pc) : option (mutex * pc) :=
  match a, c with
  | CallLock, Out => Some (m, Spinning false)
  | CallTrylock, Out => Some (m, Spinning true)
  | Next, Spinning try =>
      match atomic_compare_exchange_weak (state m) 0 1 with
      | (v, true) => Some (MutexT v (owner m) (waiters m), Inside)
      | (v, false) => Some (m, if try then Out else Spinning false)
      end
  | CallUnlock, Inside => Some (MutexT 0 (owner m) (waiters m), Out)
  | _, _ => None
  end.

Definition step (i : nat) (a : action) (m : machine) : option machine :=
  match cpus m !! i with
  | None => None
  | Some c => match mutex_step1 a (mtx m) c with
              | None => None
              | Some (x, c') => Some (Machine x (<[i:=c']> (cpus m)))
              end
  end.

Definition machine_step (m m' : machine) : Prop := exists i a, step i a m = Some m'.
Definition start (n : nat) : machine := Machine mutex_init (replicate n Out).
Definition owns (c : pc) : bool := match c with Inside => true | _ => false end.

Definition inv (m : machine) : Prop := state (mtx m) = count_pc owns (cpus m) /\ state (mtx m) <= 1.

Lemma mutex_start_inv n : inv (start n).
Proof.
  split; [|done]. unfold count_pc. simpl. rewrite zsum_zero; [done|].
  intros c [-> _]%elem_of_replicate. done.
Qed.

Lemma mutex_step_inv m m' : inv m -> machine_step m m' -> inv m'.
Proof.
  intros [Hl Hle] (i & a & Hs). unfold step in Hs.
  destruct (cpus m !! i) as [c|] eqn:Hi; [|done].
  destruct (mutex_step1 a (mtx m) c) as [[x c']|] eqn:H1; [|done]. simplify_eq.
  assert (Hin : owns c = true -> state (mtx m) = 1).
  { intros Ho. pose proof (count_pc_ge owns (cpus m) i _ Hi Ho). lia. }
  assert (Hpos : 0 <= state (mtx m)) by (pose proof (count_pc_nonneg owns (cpus m)); lia).
  unfold inv. simpl. rewrite (count_pc_insert _ _ _ _ _ Hi), <- Hl. clear Hl Hi.
  unfold mutex_step1, atomic_compare_exchange_weak, atomic_cas in H1.
  destruct a, c; simplify_eq/=; try split_ifs_in H1; simplify_eq/=; try specialize (Hin eq_refl); lia.
Qed.
End Mutex.

(** ** src/sync/rwlock.c *)
Module Rw.
Record rwlock := Rwlock {
  readers : Z;
  writers : Z;
  write_waiters : option Z;
  read_waiters : option Z
}.
Definition set_counts (r w : Z) (l : rwlock) : rwlock := Rwlock r w (write_waiters l) (read_waiters l).

(** Before and after the test of each routine: [RTest] reads [writers] and
    [RAdd] has seen it zero; [WTest1] reads [readers], [WTest2] has seen it
    zero and reads [writers], [WStore] has seen both zero. *)
Inductive pc := Out | RTest | RAdd | Reader | WTest1 | WTest2 | WStore | Writer.
Record machine := Machine { lock : rwlock; cpus : list pc }.
Inductive action := CallRead | CallWrite | CallReadUnlock | CallWriteUnlock | Next.

Definition rwlock_init : rwlock := Rwlock 0 0 None None.

Definition rw_step1 (a : action) (l : rwlock) (c : pc) : option (rwlock * pc) :=
  match a, c with
  | CallRead, Out => Some (l, RTest)
  | Next, RTest => Some (l, if writers l =? 0 then RAdd else RTest)
  | Next, RAdd => Some (set_counts (atomic_fetch_add (readers l) 1) (writers l) l, Reader)
  | CallReadUnlock, Reader => Some (set_counts (atomic_fetch_sub (readers l) 1) (writers l) l, Out)
  | CallWrite, Out => Some (l, WTest1)
  | Next, WTest1 => Some (l, if readers l =? 0 then WTest2 else WTest1)
  | Next, WTest2 => Some (l, if writers l =? 0 then WStore else WTest1)
  | Next, WStore => Some (set_counts (readers l) 1 l, Writer)
  | CallWriteUnlock, Writer => Some (set_counts (readers l) 0 l, Out)
  | _, _ => None
  end.

Definition step (i : nat) (a : action) (m : machine) : option machine :=
  match cpus m !! i with
  | None => None
  | Some c => match rw_step1 a (lock m) c with
              | None => None
              | Some (x, c') => Some (Machine x (<[i:=c']> (cpus m)))
              end
  end.

Definition machine_step (m m' : machine) : Prop := exists i a, step i a m = Some m'.
Definition start (n : nat) : machine := Machine rwlock_init (replicate n Out).
Definition is_reader (c : pc) : bool := match c with Reader => true | _ => false end.
Definition is_writer (c : pc) : bool := match c with Writer => true | _ => false end.

(** Runs a schedule. *)
Fixpoint run (sched : list (nat * action)) (m : machine) : option machine :=
  match sched with
  | [] => Some m
  | (i, a) :: sched' => match step i a m with Some m' => run sched' m' | None => None end
  end.

Lemma run_rtc sched m m' : run sched m = Some m' -> rtc machine_step m m'.
Proof.
  revert m. induction sched as [|[i a] sched IH]; intros m; simpl; [by intros [= ->]|].
  destruct (step i a m) as [m1|] eqn:E; [|done]. intros H. apply (rtc_l _ m m1); [by exists i, a|by apply IH].
Qed.

(** The reader count is the number of readers; no write lock is held while
    [writers] is zero. *)
Definition inv (n : nat) (m : machine) : Prop :=
  length (cpus m) = n /\ readers (lock m) = count_pc is_reader (cpus m).

Lemma rw_step_inv n m m' : Z.of_nat n < 2 ^ 31 -> inv n m -> machine_step m m' -> inv n m'.
Proof.
  intros Hn [Hlen Hr] (i & a & Hs). unfold step in Hs.
  destruct (cpus m !! i) as [c|] eqn:Hi; [|done].
  destruct (rw_step1 a (lock m) c) as [[x c']|] eqn:H1; [|done]. simplify_eq.
  split; simpl; [apply length_insert|].
  pose proof (count_pc_le is_reader (<[i:=c']> (cpus m))) as Hb. rewrite length_insert in Hb.
  pose proof (count_pc_nonneg is_reader (<[i:=c']> (cpus m))) as Hp.
  rewrite (count_pc_insert _ _ _ _ _ Hi), <- Hr in *.
  unfold rw_step1, atomic_fetch_sub, atomic_fetch_add in H1.
  destruct a, c; simplify_eq/=; rewrite ?s32_small by lia;
    split_ifs; simplify_eq/=; lia.
Qed.
End Rw.

(** ** Properties *)

(** C30: Mutual exclusion. In every state the processors can reach, under any
    interleaving of the memory accesses of [spinlock_lock],
    [spinlock_trylock] and [spinlock_unlock], at most one of them is between
    winning the compare-and-swap and clearing [locked], and a processor that
    leaves restores exactly the interrupt flags it had when it entered,
    although the flags are kept in the shared lock. The mutex excludes in the
    same way. *)
Theorem locks_exclude irq_off irqs m n x :
  rtc (Spin.machine_step irq_off) (Spin.start irqs) m ->
  rtc Mutex.machine_step (Mutex.start n) x ->
  (forall i j c d, Spin.cpus m !! i = Some c -> Spin.cpus m !! j = Some d ->
     Spin.owns c = true -> Spin.owns d = true -> i = j) /\
  (forall i c flags, Spin.cpus m !! i = Some c -> Spin.at_pc c = Spin.Restoring flags -> flags = Spin.entry c) /\
  (Spin.locked (Spin.lock m) = 0 <-> forall i c, Spin.cpus m !! i = Some c -> Spin.owns c = false) /\
  (forall i j, Mutex.cpus x !! i = Some Mutex.Inside -> Mutex.cpus x !! j = Some Mutex.Inside -> i = j).
Proof.
  intros Hm Hx.
  assert (Hi : Spin.inv m).
  { revert Hm. apply rtc_preserve; [apply Spin.spin_step_inv|apply Spin.spin_start_inv]. }
  assert (Hy : Mutex.inv x).
  { revert Hx. apply rtc_preserve; [apply Mutex.mutex_step_inv|apply Mutex.mutex_start_inv]. }
  split_and!.
  - intros i j c d. by apply Spin.owner_unique.
  - intros i c flags Hc Hp. destruct Hi as (_ & _ & Hf). specialize (Hf i c Hc).
    unfold Spin.flags_ok in Hf. by rewrite Hp in Hf.
  - destruct Hi as (Hl & _ & _). rewrite Hl. split.
    + intros H0 i c Hc. destruct (Spin.owns c) eqn:Ho; [|done].
      pose proof (count_pc_ge Spin.owns (Spin.cpus m) i c Hc Ho). lia.
    + intros H0. apply zsum_zero. intros c [i Hc]%list_elem_of_lookup. by rewrite (H0 i c Hc).
  - intros i j Hi1 Hj1. destruct (decide (i = j)) as [|Hne]; [done|].
    pose proof (count_pc_two Mutex.owns _ i j _ _ Hne Hi1 Hj1 eq_refl eq_refl).
    destruct Hy as [Hl Hle]. lia.
Qed.

(** Processor 0 takes the lock with interrupts on while processor 1 spins. *)
Definition contended : Spin.machine :=
  Spin.Machine (Spin.Spinlock 1 0 512)
    [Spin.Cpu Spin.Inside 0 512; Spin.Cpu (Spin.Spinning 512 false) 0 512].

Lemma locks_exclude_witness :
  Spin.cpus contended !! 1%nat <> None /\
  (forall i j c d, Spin.cpus contended !! i = Some c -> Spin.cpus contended !! j = Some d ->
     Spin.owns c = true -> Spin.owns d = true -> i = j).
Proof.
  split; [done|].
  assert (Hm : rtc (Spin.machine_step (fun _ => 0)) (Spin.start [512; 512]) contended).
  { eapply rtc_l; [exists 1%nat, Spin.CallLock; reflexivity|].
    eapply rtc_l; [exists 0%nat, Spin.CallLock; reflexivity|].
    eapply rtc_l; [exists 0%nat, Spin.Next; reflexivity|].
    eapply rtc_l; [exists 1%nat, Spin.Next; reflexivity|].
    apply rtc_once. exists 0%nat, Spin.Next. reflexivity. }
  apply (locks_exclude (fun _ => 0) [512; 512] contended 2 (Mutex.start 2) Hm). apply rtc_refl.
Defined.

(** C31: The reader/writer lock counts but does not exclude. In every
    reachable state [readers] is the number of processors that hold the read
    lock (below 2^31 of them). But the tests of [rwlock_write_lock] and
    [rwlock_read_lock] and the store that follows are separate accesses: two
    processors can both acquire the write lock, and a reader and a writer can
    both hold the lock. *)
Theorem rwlock_counts_not_excludes n m :
  Z.of_nat n < 2 ^ 31 -> rtc Rw.machine_step (Rw.start n) m ->
  Rw.readers (Rw.lock m) = count_pc Rw.is_reader (Rw.cpus m) /\
  (exists m', rtc Rw.machine_step (Rw.start 2) m' /\ Rw.cpus m' = [Rw.Writer; Rw.Writer]) /\
  (exists m', rtc Rw.machine_step (Rw.start 2) m' /\ Rw.cpus m' = [Rw.Reader; Rw.Writer]).
Proof.
  intros Hn Hm. split_and!.
  - enough (Rw.inv n m) as [_ ?] by done. revert Hm. apply rtc_preserve; [intros a b; by apply Rw.rw_step_inv|].
    split; [apply length_replicate|]. symmetry. apply zsum_zero. intros c [-> _]%elem_of_replicate. done.
  - eexists. split; [|].
    + apply (Rw.run_rtc [(0, Rw.CallWrite); (1, Rw.CallWrite); (0, Rw.Next); (1, Rw.Next); (0, Rw.Next);
                         (1, Rw.Next); (0, Rw.Next); (1, Rw.Next)]%nat). reflexivity.
    + reflexivity.
  - eexists. split; [|].
    + apply (Rw.run_rtc [(0, Rw.CallRead); (1, Rw.CallWrite); (0, Rw.Next); (1, Rw.Next); (1, Rw.Next);
                         (0, Rw.Next); (1, Rw.Next)]%nat). reflexivity.
    + reflexivity.
Qed.

Lemma rwlock_counts_not_excludes_witness :
  Rw.readers (Rw.Rwlock 1 0 None None) = count_pc Rw.is_reader [Rw.Out; Rw.Reader; Rw.WTest1].
Proof.
  apply (rwlock_counts_not_excludes 3 (Rw.Machine (Rw.Rwlock 1 0 None None) [Rw.Out; Rw.Reader; Rw.WTest1])); [lia|].
  apply (Rw.run_rtc [(1, Rw.CallRead); (2, Rw.CallWrite); (1, Rw.Next); (1, Rw.Next); (2, Rw.Next)]%nat). reflexivity.
Defined.
