(* ===== verification/Proc.v ===== *)
(** * src/proc: the process table, the scheduler and signals

    The table of [MAX_PROCESSES] processes, the per-processor run queues and
    the signal state of scheduler.c, signal.c and the part of process.c that
    works on them. A [struct process*] is an index into the table and NULL is
    [None]; the processor that executes an operation is its argument [cpu]
    ([hal_smp_current_cpu]). A process carries the fields these operations
    read or write; its address space and kernel stack belong to other parts.
    Descriptor tables are those of Fd.v, so that a terminating process
    releases its descriptors there. *)
From Stdlib Require Import String Ascii.
From S2P Require Import Prelude Fd.

Definition MAX_PROCESSES : nat := 32.
Definition MAX_CPUS : nat := 256.

Definition PROCESS_STATE_UNUSED : Z := 0.
Definition PROCESS_STATE_RUNNING : Z := 1.
Definition PROCESS_STATE_SLEEPING : Z := 2.
Definition PROCESS_STATE_STOPPED : Z := 3.
Definition PROCESS_STATE_ZOMBIE : Z := 4.
Definition PROCESS_STATE_BLOCKED : Z := 5.

Definition SIGKILL : Z := 9.
Definition SIGSEGV : Z := 11.
Definition SIGCHLD : Z := 17.
Definition SIGCONT : Z := 18.
Definition SIGSTOP : Z := 19.
Definition SIGTSTP : Z := 20.
Definition SIGTTIN : Z := 21.
Definition SIGTTOU : Z := 22.
Definition SIGURG : Z := 23.
Definition SIGWINCH : Z := 28.
Definition SIG_DFL : Z := 0.
Definition SIG_IGN : Z := 1.

Record sigaction := Sigaction { sa_handler : Z; sa_mask : list Z; sa_flags : Z }.
Definition default_action : sigaction := Sigaction SIG_DFL (replicate 8 0) 0.

Record process := Process {
  pid : Z;
  ppid : Z;
  state : Z;
  fds_of : option nat;
  exit_code : Z;
  runtime_ticks : Z;
  cpu_id : nat;
  on_cpu : bool;
  queued : bool;
  block_reason : Z;
  signal_actions : list sigaction;
  signal_pending : Z;
  signal_blocked : Z
}.

Definition set_state (v : Z) (x : process) : process :=
  Process (pid x) (ppid x) v (fds_of x) (exit_code x) (runtime_ticks x) (cpu_id x) (on_cpu x) (queued x) (block_reason x) (signal_actions x) (signal_pending x) (signal_blocked x).
Definition set_fds_of (v : option nat) (x : process) : process :=
  Process (pid x) (ppid x) (state x) v (exit_code x) (runtime_ticks x) (cpu_id x) (on_cpu x) (queued x) (block_reason x) (signal_actions x) (signal_pending x) (signal_blocked x).
Definition set_exit_code (v : Z) (x : process) : process :=
  Process (pid x) (ppid x) (state x) (fds_of x) v (runtime_ticks x) (cpu_id x) (on_cpu x) (queued x) (block_reason x) (signal_actions x) (signal_pending x) (signal_blocked x).
Definition set_runtime_ticks (v : Z) (x : process) : process :=
  Process (pid x) (ppid x) (state x) (fds_of x) (exit_code x) v (cpu_id x) (on_cpu x) (queued x) (block_reason x) (signal_actions x) (signal_pending x) (signal_blocked x).
Definition set_cpu_id (v : nat) (x : process) : process :=
  Process (pid x) (ppid x) (state x) (fds_of x) (exit_code x) (runtime_ticks x) v (on_cpu x) (queued x) (block_reason x) (signal_actions x) (signal_pending x) (signal_blocked x).
Definition set_on_cpu (v : bool) (x : process) : process :=
  Process (pid x) (ppid x) (state x) (fds_of x) (exit_code x) (runtime_ticks x) (cpu_id x) v (queued x) (block_reason x) (signal_actions x) (signal_pending x) (signal_blocked x).
Definition set_queued (v : bool) (x : process) : process :=
  Process (pid x) (ppid x) (state x) (fds_of x) (exit_code x) (runtime_ticks x) (cpu_id x) (on_cpu x) v (block_reason x) (signal_actions x) (signal_pending x) (signal_blocked x).
Definition set_block_reason (v : Z) (x : process) : process :=
  Process (pid x) (ppid x) (state x) (fds_of x) (exit_code x) (runtime_ticks x) (cpu_id x) (on_cpu x) (queued x) v (signal_actions x) (signal_pending x) (signal_blocked x).
Definition set_signal_actions (v : list sigaction) (x : process) : process :=
  Process (pid x) (ppid x) (state x) (fds_of x) (exit_code x) (runtime_ticks x) (cpu_id x) (on_cpu x) (queued x) (block_reason x) v (signal_pending x) (signal_blocked x).
Definition set_signal_pending (v : Z) (x : process) : process :=
  Process (pid x) (ppid x) (state x) (fds_of x) (exit_code x) (runtime_ticks x) (cpu_id x) (on_cpu x) (queued x) (block_reason x) (signal_actions x) v (signal_blocked x).

(** [struct cpu_runqueue]: an array of pointers, the number in use and the
    position of the next pick. *)
Record runqueue := Runqueue { rq_processes : list (option nat); rq_count : nat; rq_next : nat }.

Definition zero_process : process :=
  Process 0 0 PROCESS_STATE_UNUSED None 0 0 0 false false 0 (replicate 32 default_action) 0 0.
Definition zero_runqueue : runqueue := Runqueue (replicate MAX_PROCESSES None) 0 0.
#[export] Instance process_inhabited : Inhabited process := populate zero_process.
#[export] Instance runqueue_inhabited : Inhabited runqueue := populate zero_runqueue.
#[export] Instance sigaction_inhabited : Inhabited sigaction := populate default_action.

Section Proc.
Context {V W : Type} `{EqDecision V} `{VnodeHooks V W}.

(** ** State *)
Record kernel := Kernel {
  procs : list process;
  used : list bool;
  g_current : list (option nat);
  g_next_pid : Z;
  runqueues : list runqueue;
  switched_from : list (option nat);
  fdw : fds V W
}.

Definition map_procs f (k : kernel) : kernel :=
  Kernel (f (procs k)) (used k) (g_current k) (g_next_pid k) (runqueues k) (switched_from k) (fdw k).
Definition map_g_current f (k : kernel) : kernel :=
  Kernel (procs k) (used k) (f (g_current k)) (g_next_pid k) (runqueues k) (switched_from k) (fdw k).
Definition map_runqueues f (k : kernel) : kernel :=
  Kernel (procs k) (used k) (g_current k) (g_next_pid k) (f (runqueues k)) (switched_from k) (fdw k).
Definition map_switched_from f (k : kernel) : kernel :=
  Kernel (procs k) (used k) (g_current k) (g_next_pid k) (runqueues k) (f (switched_from k)) (fdw k).
Definition map_fdw f (k : kernel) : kernel :=
  Kernel (procs k) (used k) (g_current k) (g_next_pid k) (runqueues k) (switched_from k) (f (fdw k)).

Definition proc (k : kernel) (p : nat) : process := procs k !!! p.
Definition on_proc (p : nat) (f : process -> process) : kernel -> kernel := map_procs (alter f p).
Definition queue (k : kernel) (c : nat) : runqueue := runqueues k !!! c.
Definition current (k : kernel) (cpu : nat) : option nat := mjoin (g_current k !! cpu).

(** ** src/proc/process.c: the table *)
Definition process_init (w : fds V W) : kernel :=
  Kernel (replicate MAX_PROCESSES zero_process) (replicate MAX_PROCESSES false) (replicate MAX_CPUS None) 1
         (replicate MAX_CPUS zero_runqueue) (replicate MAX_CPUS None) w.

Definition is_used (k : kernel) (i : nat) : bool := default false (used k !! i).

Definition process_get (id : Z) (k : kernel) : option nat :=
  find_from (fun i => is_used k i && (pid (proc k i) =? id)) 0 MAX_PROCESSES.

Definition process_get_current (cpu : nat) (k : kernel) : option nat := current k cpu.

Definition process_set_current (cpu : nat) (p : option nat) (k : kernel) : kernel :=
  let k := map_g_current <[cpu := p]> k in
  match p with
  | Some q => on_proc q (fun x => set_on_cpu true (set_cpu_id cpu x)) k
  | None => k
  end.

Definition process_count (k : kernel) : Z :=
  for_range 0 (Z.of_nat MAX_PROCESSES) (fun i n => if is_used k (idx i) then n + 1 else n) 0.

(** The loop of [process_at] with its counter [cur]. *)
Fixpoint process_at_from (k : kernel) (n i cur index : nat) : option nat :=
  match n with
  | O => None
  | S n' =>
      if negb (is_used k i) then process_at_from k n' (S i) cur index
      else if Nat.eqb cur index then Some i
      else process_at_from k n' (S i) (S cur) index
  end.
Definition process_at (index : nat) (k : kernel) : option nat := process_at_from k MAX_PROCESSES 0 0 index.

(** ** src/proc/scheduler.c *)
Definition scheduler_finish_switch (cpu : nat) (k : kernel) : kernel :=
  match mjoin (switched_from k !! cpu) with
  | None => k
  | Some prev => on_proc prev (set_on_cpu false) (map_switched_from <[cpu := None]> k)
  end.

Definition scheduler_init_cpu (cpu cpu_id : nat) (k : kernel) : kernel :=
  if (MAX_CPUS <=? cpu_id)%nat then k else process_set_current cpu None k.

(** The scan for the lightest queue: [target] and [lightest], which starts at
    the largest [size_t]. *)
Fixpoint lightest_from (k : kernel) (n cpu : nat) (target : nat) (lightest : Z) : nat :=
  match n with
  | O => target
  | S n' =>
      if Z.of_nat (rq_count (queue k cpu)) <? lightest
      then lightest_from k n' (S cpu) cpu (Z.of_nat (rq_count (queue k cpu)))
      else lightest_from k n' (S cpu) target lightest
  end.

Definition in_queue (q : runqueue) (p : nat) : bool :=
  bool_decide (find_from (fun i => bool_decide (mjoin (rq_processes q !! i) = Some p)) 0 (rq_count q) <> None).

(** What [scheduler_add] does under g_balance_lock and the lock of the queue.
    [cpus] is [hal_smp_cpu_count()]. *)
Definition add_locked (cpus : nat) (p : nat) (k : kernel) : kernel :=
  let target := lightest_from k cpus 0 0 (2 ^ 64 - 1) in
  let q := queue k target in
  if in_queue q p then k
  else if (rq_count q <? MAX_PROCESSES)%nat then
    let q := Runqueue (<[rq_count q := Some p]> (rq_processes q)) (S (rq_count q)) (rq_next q) in
    on_proc p (fun x => set_queued true (set_cpu_id target x)) (map_runqueues <[target := q]> k)
  else k.

(** The test of [queued] comes before the locks. *)
Definition scheduler_add (cpus : nat) (o : option nat) (k : kernel) : kernel :=
  match o with
  | None => k
  | Some p => if queued (proc k p) then k else add_locked cpus p k
  end.

(** The inner loop of [scheduler_remove]: [processes[j - 1] = processes[j]]. *)
Definition shift_down (i count : nat) (a : list (option nat)) : list (option nat) :=
  foldl (fun a j => <[(j - 1)%nat := mjoin (a !! j)]> a) a (seq (S i) (count - S i)).

(** What [scheduler_remove] does under the lock of the queue of [cpu]. *)
Definition dequeue_locked (cpu : nat) (p : nat) (k : kernel) : kernel :=
  let q := queue k cpu in
  match find_from (fun i => bool_decide (mjoin (rq_processes q !! i) = Some p)) 0 (rq_count q) with
  | Some i =>
      let a := shift_down i (rq_count q) (rq_processes q) in
      let count := (rq_count q - 1)%nat in
      let a := <[count := None]> a in
      let next := if (count <=? rq_next q)%nat then O else rq_next q in
      on_proc p (set_queued false) (map_runqueues <[cpu := Runqueue a count next]> k)
  | None => k
  end.

(** [cpu_id] is read before the lock. *)
Definition remove_cpu (p : nat) (k : kernel) : nat :=
  if (cpu_id (proc k p) <? MAX_CPUS)%nat then cpu_id (proc k p) else O.

Definition scheduler_remove (o : option nat) (k : kernel) : kernel :=
  match o with
  | Some p => dequeue_locked (remove_cpu p k) p k
  | None => k
  end.

(** The loop of [scheduler_pick_next]; [n] iterations are left. *)
Fixpoint pick_loop (k : kernel) (n : nat) (q : runqueue) : runqueue * option nat :=
  match n with
  | O => (q, None)
  | S n' =>
      let p := mjoin (rq_processes q !! rq_next q) in
      let next := S (rq_next q) in
      let next := if (rq_count q <=? next)%nat then O else next in
      let q := Runqueue (rq_processes q) (rq_count q) next in
      match p with
      | Some x => if (state (proc k x) =? PROCESS_STATE_RUNNING) && negb (on_cpu (proc k x)) then (q, Some x)
                  else pick_loop k n' q
      | None => pick_loop k n' q
      end
  end.

Definition scheduler_pick_next (cpu : nat) (k : kernel) : kernel * option nat :=
  let q := queue k cpu in
  if Nat.eqb (rq_count q) 0 then (k, None)
  else let '(q, r) := pick_loop k (rq_count q) q in (map_runqueues <[cpu := q]> k, r).

(** A switch up to [task_switch]; [scheduler_finish_switch] is the first thing
    the incoming context does. *)
Definition context_switch_begin (cpu : nat) (from to : option nat) (k : kernel) : kernel :=
  match to with
  | None => k
  | Some _ =>
      if bool_decide (to = from) then k
      else process_set_current cpu to (map_switched_from <[cpu := from]> k)
  end.

Definition switch_to_idle_begin (cpu : nat) (from : option nat) (k : kernel) : kernel :=
  match from with
  | None => k
  | Some _ => process_set_current cpu None (map_switched_from <[cpu := from]> k)
  end.

Definition scheduler_context_switch (cpu : nat) (from to : option nat) (k : kernel) : kernel :=
  match to with
  | None => k
  | Some _ =>
      if bool_decide (to = from) then k
      else scheduler_finish_switch cpu (context_switch_begin cpu from to k)
  end.

Definition scheduler_switch_to_idle (cpu : nat) (from : option nat) (k : kernel) : kernel :=
  match from with
  | None => k
  | Some _ => scheduler_finish_switch cpu (switch_to_idle_begin cpu from k)
  end.

(** [scheduler_yield] after the pick, when the lock of the queue is free
    again, over its two ways to switch. *)
Definition yield_after (switch : option nat -> option nat -> kernel -> kernel) (idle : option nat -> kernel -> kernel)
    (from to : option nat) (k : kernel) : kernel :=
  match to with
  | None =>
      match from with
      | Some f => if negb (state (proc k f) =? PROCESS_STATE_RUNNING) then idle from k else k
      | None => k
      end
  | Some _ => if negb (bool_decide (to = from)) then switch from to k else k
  end.

(** The body of [scheduler_yield]. *)
Definition yield_with (switch : option nat -> option nat -> kernel -> kernel) (idle : option nat -> kernel -> kernel)
    (cpu : nat) (k : kernel) : kernel :=
  let from := process_get_current cpu k in
  let '(k, to) := scheduler_pick_next cpu k in
  yield_after switch idle from to k.

Definition scheduler_yield (cpu : nat) : kernel -> kernel :=
  yield_with (scheduler_context_switch cpu) (scheduler_switch_to_idle cpu) cpu.

(** [scheduler_yield] as the outgoing context runs it, up to [task_switch]. *)
Definition scheduler_yield_begin (cpu : nat) : kernel -> kernel :=
  yield_with (context_switch_begin cpu) (switch_to_idle_begin cpu) cpu.

Definition block_with (yield : kernel -> kernel) (cpu : nat) (reason : Z) (k : kernel) : kernel :=
  match process_get_current cpu k with
  | None => k
  | Some c => yield (on_proc c (fun x => set_state PROCESS_STATE_BLOCKED (set_block_reason reason x)) k)
  end.
Definition scheduler_block_current (cpu : nat) : Z -> kernel -> kernel := block_with (scheduler_yield cpu) cpu.

Definition scheduler_wake (cpus : nat) (o : option nat) (k : kernel) : kernel :=
  match o with
  | None => k
  | Some p =>
      if negb (state (proc k p) =? PROCESS_STATE_BLOCKED) then k
      else scheduler_add cpus o
             (on_proc p (fun x => set_state PROCESS_STATE_RUNNING (set_block_reason 0 x)) k)
  end.

Definition tick_with (yield : kernel -> kernel) (cpu : nat) (k : kernel) : kernel :=
  let k := match process_get_current cpu k with
           | Some c => on_proc c (fun x => set_runtime_ticks (u64 (runtime_ticks x + 1)) x) k
           | None => k
           end in
  yield k.
Definition scheduler_tick (cpu : nat) : kernel -> kernel := tick_with (scheduler_yield cpu) cpu.

(** ** src/proc/signal.c *)
Open Scope tach_scope.
Definition valid_signal (signal : Z) : bool := (0 <? signal) && (signal <? 32).
Definition signal_bit (signal : Z) : Z := u32 (1 .<< signal).

(** A [sigset_t] is its eight words. *)
Definition sigemptyset : list Z := replicate 8 0.
Definition sigfillset : list Z := replicate 8 (2 ^ 32 - 1).
Definition sigaddset (set : list Z) (signal : Z) : list Z :=
  if valid_signal signal
  then alter (fun w => w .| u32 (1 .<< (signal mod 32))) (idx (signal / 32)) set
  else set.
Definition sigdelset (set : list Z) (signal : Z) : list Z :=
  if valid_signal signal
  then alter (fun w => w .& u32 (Z.lnot (u32 (1 .<< (signal mod 32))))) (idx (signal / 32)) set
  else set.
Definition sigismember (set : list Z) (signal : Z) : Z :=
  if negb (valid_signal signal) then 0
  else if negb (((set !!! idx (signal / 32)) .& u32 (1 .<< (signal mod 32))) =? 0) then 1 else 0.

Definition signal_register (signal : Z) : Z := if valid_signal signal then 0 else - EINVAL.

(** [None] as process or action is the NULL pointer; the last result is what
    is stored through [old_action]. *)
Definition signal_set_action (o : option nat) (signal : Z) (action : option sigaction) (k : kernel)
    : kernel * Z * option sigaction :=
  match o with
  | None => (k, - EINVAL, None)
  | Some p =>
      if negb (valid_signal signal) then (k, - EINVAL, None)
      else
        let old := Some (signal_actions (proc k p) !!! idx signal) in
        match action with
        | None => (k, 0, old)
        | Some a =>
            if (signal =? SIGKILL) || (signal =? SIGSTOP) then (k, - EINVAL, old)
            else (on_proc p (fun x => set_signal_actions (<[idx signal := a]> (signal_actions x)) x) k, 0, old)
        end
  end.

(** [signal_send], over [process_terminate], which calls it back. *)
Definition signal_send_with (terminate : option nat -> Z -> kernel -> kernel) (cpus : nat) (id signal : Z) (k : kernel)
    : kernel * Z :=
  if negb (valid_signal signal) then (k, - EINVAL)
  else
    match process_get id k with
    | None => (k, - ESRCH)
    | Some p =>
        if signal =? SIGKILL then (terminate (Some p) (128 + signal) k, 0)
        else
          let k := if (signal =? SIGCONT) && (state (proc k p) =? PROCESS_STATE_STOPPED)
                   then scheduler_add cpus (Some p) (on_proc p (set_state PROCESS_STATE_RUNNING) k) else k in
          let k := on_proc p (fun x => set_signal_pending (signal_pending x .| signal_bit signal) x) k in
          let k := if state (proc k p) =? PROCESS_STATE_BLOCKED then scheduler_wake cpus (Some p) k else k in
          (k, 0)
    end.

(** ** src/proc/process.c: termination

    The signal sent here is [SIGCHLD], so [signal_send] does not reach its
    call of [process_terminate]. *)
Definition process_terminate (cpus : nat) (o : option nat) (code : Z) (k : kernel) : kernel :=
  match o with
  | None => k
  | Some p =>
      if state (proc k p) =? PROCESS_STATE_ZOMBIE then k
      else
        let k := on_proc p (fun x => set_state PROCESS_STATE_ZOMBIE (set_exit_code code x)) k in
        let k := scheduler_remove (Some p) k in
        let k := match fds_of (proc k p) with
                 | Some t => on_proc p (set_fds_of None) (map_fdw (fd_table_destroy (Some t)) k)
                 | None => k
                 end in
        match process_get (ppid (proc k p)) k with
        | None => k
        | Some parent =>
            let k := fst (signal_send_with (fun _ _ k => k) cpus (pid (proc k parent)) SIGCHLD k) in
            if state (proc k parent) =? PROCESS_STATE_BLOCKED then scheduler_wake cpus (Some parent) k else k
        end
  end.

Definition signal_send (cpus : nat) : Z -> Z -> kernel -> kernel * Z := signal_send_with (process_terminate cpus) cpus.

(** [process_exit] up to the switch to another process. *)
Definition process_exit (cpus cpu : nat) (code : Z) (k : kernel) : kernel :=
  match process_get_current cpu k with
  | None => k
  | Some c => scheduler_yield_begin cpu (process_terminate cpus (Some c) code k)
  end.

Definition process_state_name (s : Z) : list Z :=
  map (fun c => Z.of_N (Ascii.N_of_ascii c)) (String.list_ascii_of_string
    (if s =? PROCESS_STATE_RUNNING then "running"%string
     else if s =? PROCESS_STATE_SLEEPING then "sleeping"%string
     else if s =? PROCESS_STATE_STOPPED then "stopped"%string
     else if s =? PROCESS_STATE_ZOMBIE then "zombie"%string
     else if s =? PROCESS_STATE_BLOCKED then "blocked"%string
     else "unused"%string)).

(** ** src/proc/signal.c: delivery *)
Definition ignored_by_default (signal : Z) : bool :=
  (signal =? SIGCHLD) || (signal =? SIGWINCH) || (signal =? SIGURG) || (signal =? SIGCONT).

Record user_context := UserContext { uc_pc : Z; uc_sp : Z; uc_flags : Z; uc_regs : list Z }.

(** What delivery leaves: the kernel, the user context, the word stored on the
    user stack (physical address and value) if any, and the result. *)
Record delivery := Delivery {
  dl_kernel : kernel;
  dl_context : user_context;
  dl_store : option (Z * Z);
  dl_result : Z
}.

(** The x86-64 build; [resolve] is [vmm_resolve] of the process's address
    space, zero for an unmapped address. *)
Definition signal_deliver_pending (resolve : Z -> Z) (cpus : nat) (o : option nat) (ctx : user_context) (k : kernel)
    : delivery :=
  match o with
  | None => Delivery k ctx None (- EINVAL)
  | Some p =>
      let available := signal_pending (proc k p) .& u32 (Z.lnot (signal_blocked (proc k p))) in
      if available =? 0 then Delivery k ctx None 0
      else
        match find_from (fun s => negb ((available .& signal_bit (Z.of_nat s)) =? 0)) 1 31 with
        | None => Delivery k ctx None 0
        | Some s =>
            let signal := Z.of_nat s in
            let k := on_proc p (fun x => set_signal_pending (signal_pending x .& u32 (Z.lnot (signal_bit signal))) x) k in
            let handler := sa_handler (signal_actions (proc k p) !!! s) in
            if (handler =? SIG_IGN) && negb (signal =? SIGKILL) && negb (signal =? SIGSTOP)
            then Delivery k ctx None signal
            else if (signal =? SIGSTOP) || (signal =? SIGTSTP) || (signal =? SIGTTIN) || (signal =? SIGTTOU)
            then Delivery (scheduler_remove (Some p) (on_proc p (set_state PROCESS_STATE_STOPPED) k)) ctx None signal
            else if handler =? SIG_DFL
            then if ignored_by_default signal then Delivery k ctx None signal
                 else Delivery (process_terminate cpus (Some p) (128 + signal) k) ctx None signal
            else
              let new_stack := u64 (uc_sp ctx - 8) in
              let physical := resolve new_stack in
              if physical =? 0
              then Delivery (process_terminate cpus (Some p) (128 + SIGSEGV) k) ctx None (- EFAULT)
              else Delivery k (UserContext handler new_stack (uc_flags ctx) (<[1%nat := signal]> (uc_regs ctx)))
                     (Some (physical, uc_pc ctx)) signal
        end
  end.
End Proc.
Arguments kernel : clear implicits.
Arguments delivery : clear implicits.
