(* ===== verification/Sched.v ===== *)
(** * src/proc/scheduler.c: correctness

    [holds_list q l] relates the array of a run queue to the list of its
    processes. Over that, the invariant of the scheduler: the [queued] flag and
    [cpu_id] of a process name the one queue it is in, and [on_cpu] is set
    exactly while one processor runs it or is still switching away from it. The
    steps interleave the operations of all processors, with a context switch
    in two steps around [task_switch]. *)
From S2P Require Import Prelude Fd Proc.

(** ** Queues as lists *)
Definition pad (l : list nat) : list (option nat) := map Some l ++ replicate (MAX_PROCESSES - length l) None.

Definition holds_list (q : runqueue) (l : list nat) : Prop :=
  rq_processes q = pad l /\ rq_count q = length l /\ (length l <= MAX_PROCESSES)%nat /\
  (rq_next q < Nat.max 1 (length l))%nat.

Section Queues.
Implicit Types (q : runqueue) (l : list nat) (p i : nat).

Lemma pad_lookup_lt l i p : l !! i = Some p -> pad l !! i = Some (Some p).
Proof.
  intros Hi. pose proof (lookup_lt_Some _ _ _ Hi). unfold pad.
  rewrite lookup_app_l by (rewrite length_map; done). change (map Some l) with (Some <$> l).
  by rewrite list_lookup_fmap, Hi.
Qed.

Lemma pad_length l : (length l <= MAX_PROCESSES)%nat -> length (pad l) = MAX_PROCESSES.
Proof. intros. unfold pad. rewrite length_app, length_map, length_replicate. lia. Qed.

(** Storing behind the last process. *)
Lemma pad_push l p :
  (length l < MAX_PROCESSES)%nat -> <[length l := Some p]> (pad l) = pad (l ++ [p]).
Proof.
  intros Hl. unfold pad. rewrite length_app. simpl.
  replace (MAX_PROCESSES - length l)%nat with (S (MAX_PROCESSES - (length l + 1))) by lia.
  change (map Some l) with (Some <$> l). change (map Some (l ++ [p])) with (Some <$> (l ++ [p])).
  rewrite insert_app_r_alt by (rewrite length_fmap; lia). rewrite length_fmap, Nat.sub_diag. simpl.
  rewrite fmap_app. simpl. by rewrite <- (assoc_L (++)).
Qed.

Lemma shift_down_length i n a : length (shift_down i n a) = length a.
Proof.
  unfold shift_down. generalize (seq (S i) (n - S i)). intros js. revert a.
  induction js as [|j js IH]; intros a; simpl; [done|]. rewrite IH. apply length_insert.
Qed.

(** The loop of [scheduler_remove] moves each later entry one place down. *)
Lemma shift_down_lookup i n a x :
  (n <= length a)%nat -> (i < n)%nat ->
  shift_down i n a !! x = if decide (i <= x < n - 1)%nat then a !! S x else a !! x.
Proof.
  intros Hn Hi. unfold shift_down.
  enough (Hgen : forall m s b, length b = length a -> (s + m = n)%nat -> (i < s)%nat ->
            (forall y, b !! y = if decide (i <= y < s - 1)%nat then a !! S y else a !! y) ->
            foldl (fun a j => <[(j - 1)%nat := mjoin (a !! j)]> a) b (seq s m) !! x =
            if decide (i <= x < n - 1)%nat then a !! S x else a !! x).
  { apply (Hgen (n - S i)%nat (S i) a); [done|lia|lia|]. intros y. rewrite decide_False; [done|lia]. }
  intros m. induction m as [|m IH]; intros s b Hlen Hs Hlt Hb; simpl.
  - rewrite Hb. by replace (s - 1)%nat with (n - 1)%nat by lia.
  - apply IH; [rewrite length_insert; done|lia|lia|]. intros y.
    destruct (lookup_lt_is_Some_2 a s) as [v Hv]; [lia|].
    assert (Hbs : b !! s = Some v) by (rewrite Hb, decide_False by lia; done).
    rewrite Hbs. simpl. destruct (decide (y = (s - 1)%nat)) as [->|Hne].
    + rewrite list_lookup_insert_eq by lia. rewrite decide_True by lia.
      replace (S (s - 1)) with s by lia. by rewrite Hv.
    + rewrite list_lookup_insert_ne by done. rewrite Hb. repeat case_decide; try done; lia.
Qed.

(** Removing the process at position [i]. *)
Lemma pad_remove l1 p l2 :
  (length (l1 ++ p :: l2) <= MAX_PROCESSES)%nat ->
  <[(length (l1 ++ p :: l2) - 1)%nat := None]> (shift_down (length l1) (length (l1 ++ p :: l2)) (pad (l1 ++ p :: l2)))
  = pad (l1 ++ l2).
Proof.
  intros Hl. set (l := l1 ++ p :: l2) in *. assert (Hlen : length l = S (length (l1 ++ l2))).
  { unfold l. rewrite !length_app. simpl. lia. }
  assert (H1 : (length l1 < length l)%nat) by (unfold l; rewrite length_app; simpl; lia).
  apply list_eq. intros x.
  destruct (decide (x = (length l - 1)%nat)) as [->|Hne].
  - rewrite list_lookup_insert_eq by (rewrite shift_down_length, pad_length; lia).
    unfold pad. rewrite lookup_app_r by (rewrite length_map; lia). symmetry.
    rewrite length_map. apply lookup_replicate. split; [done|]. lia.
  - rewrite list_lookup_insert_ne by done. rewrite shift_down_lookup by (rewrite ?pad_length; lia).
    destruct (decide (x < length (l1 ++ l2))%nat) as [Hx|Hx].
    + destruct (lookup_lt_is_Some_2 (l1 ++ l2) x Hx) as [y Hy]. rewrite (pad_lookup_lt _ _ _ Hy).
      destruct (decide (length l1 <= x)%nat).
      * rewrite decide_True by lia. apply pad_lookup_lt.
        unfold l. rewrite lookup_app_r in Hy |- * by lia.
        replace (S x - length l1)%nat with (S (x - length l1)) by lia. done.
      * rewrite decide_False by lia. apply pad_lookup_lt. unfold l.
        rewrite lookup_app_l in Hy |- * by lia. done.
    + rewrite decide_False by lia. unfold pad.
      rewrite !lookup_app_r by (rewrite length_map; lia). rewrite !length_map.
      destruct (decide (x < MAX_PROCESSES)%nat).
      * rewrite !lookup_replicate_2; [done|lia..].
      * rewrite !lookup_ge_None_2; [done|rewrite length_replicate; lia..].
Qed.

(** The search loops over the entries in use. *)
Lemma find_queue_Some q l p :
  holds_list q l -> p ∈ l ->
  exists i l1 l2, find_from (fun i => bool_decide (mjoin (rq_processes q !! i) = Some p)) 0 (rq_count q) = Some i /\
    l = l1 ++ p :: l2 /\ i = length l1.
Proof.
  intros (Ha & Hc & Hl & _) Hp.
  destruct (find_from _ _ _) as [i|] eqn:E.
  - apply find_from_Some in E as (Hi & Hb & _). exists i. apply bool_decide_eq_true in Hb.
    rewrite Hc in Hi. destruct (lookup_lt_is_Some_2 l i) as [y Hy]; [lia|].
    rewrite Ha, (pad_lookup_lt _ _ _ Hy) in Hb. simplify_eq/=.
    exists (take i l), (drop (S i) l). split_and!; [done|symmetry; by apply take_drop_middle|].
    rewrite length_take. lia.
  - apply list_elem_of_lookup in Hp as [i Hi]. rewrite find_from_None in E.
    pose proof (lookup_lt_Some _ _ _ Hi). specialize (E i ltac:(lia)).
    rewrite Ha, (pad_lookup_lt _ _ _ Hi) in E. by rewrite bool_decide_eq_false in E.
Qed.

Lemma find_queue_None q l p :
  holds_list q l -> p ∉ l ->
  find_from (fun i => bool_decide (mjoin (rq_processes q !! i) = Some p)) 0 (rq_count q) = None.
Proof.
  intros (Ha & Hc & Hl & _) Hp. apply find_from_None. intros i Hi.
  destruct (lookup_lt_is_Some_2 l i) as [y Hy]; [lia|]. rewrite Ha, (pad_lookup_lt _ _ _ Hy).
  apply bool_decide_eq_false. intros [= ->]. apply Hp. by eapply list_elem_of_lookup_2.
Qed.

Lemma in_queue_spec q l p : holds_list q l -> in_queue q p = bool_decide (p ∈ l).
Proof.
  intros Hq. unfold in_queue. apply bool_decide_ext. destruct (decide (p ∈ l)) as [Hp|Hp].
  - destruct (find_queue_Some q l p Hq Hp) as (i & _ & _ & -> & _). done.
  - rewrite (find_queue_None q l p Hq Hp). done.
Qed.
End Queues.

(** ** The invariant *)
Section Invariant.
Context {V W : Type} `{EqDecision V} `{VnodeHooks V W}.
Implicit Types (k : kernel V W) (p c : nat) (f : process -> process).

Definition leaving k c : option nat := mjoin (switched_from k !! c).

(** The processor [c] runs [p], or is switching away from it. *)
Definition occupies k c p : Prop := current k c = Some p \/ leaving k c = Some p.

Record queues_ok k : Prop := {
  qo_procs : length (procs k) = MAX_PROCESSES;
  qo_rq : length (runqueues k) = MAX_CPUS;
  qo_cpu : forall p, (p < MAX_PROCESSES)%nat -> (cpu_id (proc k p) < MAX_CPUS)%nat;
  qo_queue : forall c, (c < MAX_CPUS)%nat -> exists l, holds_list (queue k c) l /\ NoDup l /\
    forall p, p ∈ l <-> (p < MAX_PROCESSES)%nat /\ queued (proc k p) = true /\ cpu_id (proc k p) = c
}.

Record cpus_ok k : Prop := {
  co_procs : length (procs k) = MAX_PROCESSES;
  co_current : length (g_current k) = MAX_CPUS;
  co_switched : length (switched_from k) = MAX_CPUS;
  co_on : forall p c, occupies k c p -> (p < MAX_PROCESSES)%nat /\ on_cpu (proc k p) = true;
  co_off : forall p, (p < MAX_PROCESSES)%nat -> on_cpu (proc k p) = true -> exists c, occupies k c p;
  co_unique : forall p c c', occupies k c p -> occupies k c' p -> c = c';
  co_apart : forall p c, current k c = Some p -> leaving k c <> Some p
}.

Definition sched_ok k : Prop := queues_ok k /\ cpus_ok k.

Lemma proc_on_proc_eq k p f : (p < length (procs k))%nat -> proc (on_proc p f k) p = f (proc k p).
Proof.
  intros Hp. unfold proc, on_proc. simpl. rewrite !list_lookup_total_alt, list_lookup_alter_eq.
  apply lookup_lt_is_Some_2 in Hp as [x ->]. done.
Qed.

Lemma proc_on_proc_ne k p f p' : p <> p' -> proc (on_proc p f k) p' = proc k p'.
Proof. intros Hp. unfold proc, on_proc. simpl. by rewrite !list_lookup_total_alt, list_lookup_alter_ne. Qed.

Lemma field_on_proc {A} (g : process -> A) k p f p' :
  (forall x, g (f x) = g x) -> g (proc (on_proc p f k) p') = g (proc k p').
Proof.
  intros Hg. destruct (decide (p = p')) as [->|]; [|by rewrite proc_on_proc_ne].
  unfold proc, on_proc. simpl. rewrite !list_lookup_total_alt, list_lookup_alter_eq.
  destruct (procs k !! p'); simpl; [apply Hg|done].
Qed.

Lemma length_on_proc k p f : length (procs (on_proc p f k)) = length (procs k).
Proof. apply length_alter. Qed.

(** The invariants read only these fields. *)
Lemma queues_ok_ext k k' :
  length (procs k') = length (procs k) -> runqueues k' = runqueues k ->
  (forall p, queued (proc k' p) = queued (proc k p)) -> (forall p, cpu_id (proc k' p) = cpu_id (proc k p)) ->
  queues_ok k -> queues_ok k'.
Proof.
  intros Hl Hr Hq Hc [Ha Hb Hd He]. split; [congruence..| |].
  - intros p Hp. rewrite Hc. by apply Hd.
  - intros c Hlt. unfold queue. rewrite Hr. destruct (He c Hlt) as (l & Hh & Hnd & Hin).
    exists l. split_and!; [done..|]. intros p. by rewrite Hin, Hq, Hc.
Qed.

Lemma cpus_ok_ext k k' :
  length (procs k') = length (procs k) -> g_current k' = g_current k -> switched_from k' = switched_from k ->
  (forall p, on_cpu (proc k' p) = on_cpu (proc k p)) -> cpus_ok k -> cpus_ok k'.
Proof.
  intros Hl Hg Hs Ho [H1 H2 H3 H4 H5 H6 H7].
  assert (Hoc : forall c p, occupies k' c p <-> occupies k c p).
  { intros c p. unfold occupies, current, leaving. by rewrite Hg, Hs. }
  split; [congruence..| | | |].
  - intros p c Hp%Hoc. rewrite Ho. by apply (H4 p c).
  - intros p Hp Hon. rewrite Ho in Hon. destruct (H5 p Hp Hon) as [c Hc]. exists c. by apply Hoc.
  - intros p c c' Ha%Hoc Hb%Hoc. by apply (H6 p).
  - intros p c. unfold current, leaving. rewrite Hg, Hs. apply H7.
Qed.

(** An update of a process that keeps its place in the scheduler. *)
Definition keeps_place f : Prop :=
  forall x, queued (f x) = queued x /\ cpu_id (f x) = cpu_id x /\ on_cpu (f x) = on_cpu x.

Lemma on_proc_ok k p f : keeps_place f -> sched_ok k -> sched_ok (on_proc p f k).
Proof.
  intros Hf [Hq Hc]. split.
  - apply (queues_ok_ext k); [apply length_on_proc|done| | |done]; intros p'; apply field_on_proc; apply Hf.
  - apply (cpus_ok_ext k); [apply length_on_proc|done|done| |done]. intros p'. apply field_on_proc; apply Hf.
Qed.

(** *** Adding to the lightest queue *)
Lemma lightest_spec k n c t (b : Z) :
  (forall c', (c <= c' < c + n)%nat -> Z.of_nat (rq_count (queue k c')) <= 2 ^ 64 - 2) ->
  let r := lightest_from k n c t b in
  (r = t /\ (forall c', (c <= c' < c + n)%nat -> b <= Z.of_nat (rq_count (queue k c')))) \/
  ((c <= r < c + n)%nat /\ Z.of_nat (rq_count (queue k r)) < b /\
   (forall c', (c <= c' < c + n)%nat -> (rq_count (queue k r) <= rq_count (queue k c'))%nat)).
Proof.
  revert c t b. induction n as [|n IH]; intros c t b Hb; simpl; [left; split; [done|lia]|].
  assert (Hb' : forall c', (S c <= c' < S c + n)%nat -> Z.of_nat (rq_count (queue k c')) <= 2 ^ 64 - 2) by (intros; apply Hb; lia).
  destruct (Z.ltb_spec (Z.of_nat (rq_count (queue k c))) b) as [Hlt|Hge].
  - right. destruct (IH (S c) c (Z.of_nat (rq_count (queue k c))) Hb') as [[-> Hall]|(Hr & Hs & Hall)].
    + split_and!; [lia..|]. intros c' Hc'. destruct (decide (c' = c)) as [->|]; [lia|].
      specialize (Hall c' ltac:(lia)). lia.
    + split_and!; [lia..|]. intros c' Hc'. destruct (decide (c' = c)) as [->|]; [lia|]. apply Hall. lia.
  - destruct (IH (S c) t b Hb') as [[-> Hall]|(Hr & Hs & Hall)].
    + left. split; [done|]. intros c' Hc'. destruct (decide (c' = c)) as [->|]; [lia|]. apply Hall. lia.
    + right. split_and!; [lia..|]. intros c' Hc'. destruct (decide (c' = c)) as [->|]; [lia|]. apply Hall. lia.
Qed.

Lemma lightest_ok k cpus :
  queues_ok k -> (1 <= cpus <= MAX_CPUS)%nat ->
  let r := lightest_from k cpus 0 0 (2 ^ 64 - 1) in
  (r < cpus)%nat /\ forall c', (c' < cpus)%nat -> (rq_count (queue k r) <= rq_count (queue k c'))%nat.
Proof.
  intros Hq Hn.
  assert (Hb : forall c', (0 <= c' < 0 + cpus)%nat -> Z.of_nat (rq_count (queue k c')) <= 2 ^ 64 - 2).
  { intros c' Hc'. destruct (qo_queue _ Hq c' ltac:(lia)) as (l & (_ & -> & Hl & _) & _).
    unfold MAX_PROCESSES in Hl. lia. }
  destruct (lightest_spec k cpus 0 0 (2 ^ 64 - 1) Hb) as [[_ Hall]|(Hr & _ & Hall)].
  - specialize (Hall O ltac:(lia)). specialize (Hb O ltac:(lia)). lia.
  - split; [lia|]. intros c' Hc'. apply Hall. lia.
Qed.

Lemma queue_insert_eq k c q : (c < length (runqueues k))%nat -> queue (map_runqueues <[c := q]> k) c = q.
Proof. intros. unfold queue. simpl. by rewrite list_lookup_total_insert_eq. Qed.
Lemma queue_insert_ne k c c' q : c <> c' -> queue (map_runqueues <[c := q]> k) c' = queue k c'.
Proof. intros. unfold queue. simpl. by rewrite list_lookup_total_insert_ne. Qed.

(** A queue that lacks a process of the table has room for it. *)
Lemma queue_room k c l p :
  queues_ok k -> (forall x, x ∈ l -> (x < MAX_PROCESSES)%nat) -> NoDup l -> (p < MAX_PROCESSES)%nat -> p ∉ l ->
  (length l < MAX_PROCESSES)%nat.
Proof.
  intros Hq Hin Hnd Hp Hpl. assert (Hlen : (length (p :: l) <= length (seq 0 MAX_PROCESSES))%nat).
  { apply submseteq_length, NoDup_submseteq; [by apply NoDup_cons|].
    intros x [->|Hx]%elem_of_cons; apply elem_of_seq; [lia|]. specialize (Hin x Hx). lia. }
  rewrite length_seq in Hlen. simpl in Hlen. lia.
Qed.

(** [scheduler_add] puts a process that is in no queue at the end of a
    lightest queue of the active processors; it never fails. *)
Lemma scheduler_add_spec k cpus p :
  queues_ok k -> (1 <= cpus <= MAX_CPUS)%nat -> (p < MAX_PROCESSES)%nat -> queued (proc k p) = false ->
  exists t l, (t < cpus)%nat /\ holds_list (queue k t) l /\ (p ∉ l) /\
    (forall c, (c < cpus)%nat -> (length l <= rq_count (queue k c))%nat) /\
    scheduler_add cpus (Some p) k =
      on_proc p (fun x => set_queued true (set_cpu_id t x))
        (map_runqueues <[t := Runqueue (pad (l ++ [p])) (S (length l)) (rq_next (queue k t))]> k) /\
    (length l < MAX_PROCESSES)%nat.
Proof.
  intros Hq Hn Hp Hf. destruct (lightest_ok k cpus Hq Hn) as [Ht Hmin].
  set (t := lightest_from k cpus 0 0 (2 ^ 64 - 1)) in *.
  destruct (qo_queue _ Hq t ltac:(lia)) as (l & Hl & Hnd & Hin). pose proof Hl as (Ha & Hc & _ & _).
  assert (Hpl : p ∉ l) by (intros (_ & ? & _)%Hin; congruence).
  assert (Hroom : (length l < MAX_PROCESSES)%nat).
  { apply (queue_room k t l p Hq); [|done..]. intros x (? & _)%Hin. done. }
  exists t, l. split_and!; [done..| | |done].
  - intros c Hc'. rewrite <- Hc. by apply Hmin.
  - unfold scheduler_add, add_locked. rewrite Hf. fold t. cbv zeta. rewrite (in_queue_spec _ l) by done.
    rewrite bool_decide_eq_false_2 by done. rewrite Hc, (proj2 (Nat.ltb_lt _ _)) by done.
    rewrite Ha, pad_push by done. done.
Qed.

Lemma scheduler_add_ok k cpus o :
  sched_ok k -> (1 <= cpus <= MAX_CPUS)%nat -> (forall p, o = Some p -> (p < MAX_PROCESSES)%nat) ->
  sched_ok (scheduler_add cpus o k).
Proof.
  intros [Hq Hc] Hn Ho. destruct o as [p|]; [|done]. specialize (Ho p eq_refl).
  destruct (queued (proc k p)) eqn:Hf; [unfold scheduler_add, add_locked; by rewrite Hf|].
  destruct (scheduler_add_spec k cpus p Hq Hn Ho Hf) as (t & l & Ht & Hl & Hpl & _ & -> & Hroom).
  destruct (qo_queue _ Hq t ltac:(lia)) as (l' & Hl' & Hnd & Hin).
  assert (l' = l) as ->.
  { destruct Hl as (Ha & Hcnt & _), Hl' as (Ha' & Hcnt' & _). apply list_eq_same_length with (length l); [done|congruence|].
    intros i x y Hi Hx Hy. apply pad_lookup_lt in Hx, Hy. rewrite <- Ha' in Hx. rewrite <- Ha in Hy. congruence. }
  assert (Hlen : length (procs k) = MAX_PROCESSES) by apply Hq.
  assert (Hpe : forall x, proc (on_proc p (fun x => set_queued true (set_cpu_id t x))
            (map_runqueues <[t := Runqueue (pad (l ++ [p])) (S (length l)) (rq_next (queue k t))]> k)) x =
            if decide (x = p) then set_queued true (set_cpu_id t (proc k p)) else proc k x).
  { intros x. case_decide as E; [subst; by rewrite proc_on_proc_eq by (simpl; lia)|by rewrite proc_on_proc_ne]. }
  split; [split|].
  - by rewrite length_on_proc.
  - simpl. rewrite length_insert. apply Hq.
  - intros x Hx. rewrite Hpe. case_decide; simpl; [lia|]. by apply Hq.
  - intros c Hlt. destruct (decide (c = t)) as [->|Hne].
    + exists (l ++ [p]). split_and!.
      * match goal with |- holds_list (queue (on_proc _ _ ?k1) _) _ => change (holds_list (queue k1 t) (l ++ [p])) end.
        rewrite queue_insert_eq by (rewrite (qo_rq _ Hq); lia).
        destruct Hl as (_ & _ & _ & Hnext). unfold holds_list. simpl. rewrite length_app. simpl. split_and!; [done|lia..].
      * apply NoDup_app. split_and!; [done| |apply NoDup_singleton]. intros x Hx ->%list_elem_of_singleton. done.
      * intros x. rewrite elem_of_app, list_elem_of_singleton, Hin, Hpe. case_decide as E; simpl; [subst; tauto|tauto].
    + destruct (qo_queue _ Hq c Hlt) as (lc & Hlc & Hndc & Hinc). exists lc. split_and!; [|done|].
      * match goal with |- holds_list (queue (on_proc _ _ ?k1) _) _ => change (holds_list (queue k1 c) lc) end.
        by rewrite queue_insert_ne.
      * intros x. rewrite Hinc, Hpe. case_decide as E; simpl; [|done]. subst. split; intros (_ & ? & ?); congruence.
  - apply (cpus_ok_ext k); [by rewrite length_on_proc|done..| |done]. intros x. rewrite Hpe. by case_decide; subst.
Qed.

(** *** Removing *)

(** Two lists stored in one queue are the same. *)
Lemma holds_list_unique q l l' : holds_list q l -> holds_list q l' -> l = l'.
Proof.
  intros (Ha & Hc & _) (Ha' & Hc' & _). apply list_eq_same_length with (length l'); [done|congruence|].
  intros i x y Hi Hx Hy. apply pad_lookup_lt in Hx, Hy. rewrite <- Ha in Hx. rewrite <- Ha' in Hy. congruence.
Qed.

(** [scheduler_remove] takes a queued process out of its queue, keeping the
    others in order, and leaves the kernel alone for one that is not queued. *)
Lemma scheduler_remove_spec k p :
  queues_ok k -> (p < MAX_PROCESSES)%nat ->
  (queued (proc k p) = false /\ scheduler_remove (Some p) k = k) \/
  (queued (proc k p) = true /\ exists l1 l2 nx,
     holds_list (queue k (cpu_id (proc k p))) (l1 ++ p :: l2) /\ (nx < Nat.max 1 (length (l1 ++ l2)))%nat /\
     scheduler_remove (Some p) k =
       on_proc p (set_queued false)
         (map_runqueues <[cpu_id (proc k p) := Runqueue (pad (l1 ++ l2)) (length (l1 ++ l2)) nx]> k)).
Proof.
  intros Hq Hp. pose proof (qo_cpu _ Hq p Hp) as Hc. unfold scheduler_remove, dequeue_locked, remove_cpu.
  rewrite (proj2 (Nat.ltb_lt _ _)) by done. cbv zeta.
  destruct (qo_queue _ Hq _ Hc) as (l & Hl & Hnd & Hin). destruct (queued (proc k p)) eqn:Hqd.
  - right. split; [done|].
    assert (Hpl : p ∈ l) by (by apply Hin).
    destruct (find_queue_Some _ l p Hl Hpl) as (i & l1 & l2 & -> & -> & ->).
    pose proof Hl as (Ha & Hcnt & Hle & Hnx).
    rewrite Ha, Hcnt, pad_remove by done.
    assert (Hlen : (length (l1 ++ p :: l2) - 1)%nat = length (l1 ++ l2)) by (rewrite !length_app; simpl; lia).
    rewrite Hlen. eexists l1, l2, _. split_and!; [done| |done].
    destruct (Nat.leb_spec (length (l1 ++ l2)) (rq_next (queue k (cpu_id (proc k p))))); lia.
  - left. split; [done|]. rewrite (find_queue_None _ l); [done|done|]. intros (_ & ? & _)%Hin. congruence.
Qed.

Lemma NoDup_drop_middle (l1 l2 : list nat) p : NoDup (l1 ++ p :: l2) -> NoDup (l1 ++ l2) /\ p ∉ l1 ++ l2.
Proof.
  intros Hnd. assert (Hp : Permutation (l1 ++ p :: l2) (p :: l1 ++ l2)) by (symmetry; apply Permutation_middle).
  rewrite Hp in Hnd. apply NoDup_cons in Hnd as [? ?]. done.
Qed.

Lemma scheduler_remove_ok k o :
  sched_ok k -> (forall p, o = Some p -> (p < MAX_PROCESSES)%nat) -> sched_ok (scheduler_remove o k).
Proof.
  intros [Hq Hc] Ho. destruct o as [p|]; [|done]. specialize (Ho p eq_refl).
  destruct (scheduler_remove_spec k p Hq Ho) as [[_ ->]|(Hqd & l1 & l2 & nx & Hl & Hnx & ->)]; [done|].
  set (t := cpu_id (proc k p)) in *. assert (Ht : (t < MAX_CPUS)%nat) by (by apply Hq).
  destruct (qo_queue _ Hq t Ht) as (l & Hl' & Hnd & Hin). rewrite (holds_list_unique _ _ _ Hl' Hl) in *. clear l Hl'.
  apply NoDup_drop_middle in Hnd as [Hnd Hpl].
  assert (Hlen : length (procs k) = MAX_PROCESSES) by apply Hq.
  set (q := Runqueue (pad (l1 ++ l2)) (length (l1 ++ l2)) nx).
  assert (Hpe : forall x, proc (on_proc p (set_queued false) (map_runqueues <[t := q]> k)) x =
            if decide (x = p) then set_queued false (proc k p) else proc k x).
  { intros x. case_decide as E; [subst; by rewrite proc_on_proc_eq by (simpl; lia)|by rewrite proc_on_proc_ne]. }
  split; [split|].
  - by rewrite length_on_proc.
  - simpl. rewrite length_insert. apply Hq.
  - intros x Hx. rewrite Hpe. case_decide; simpl; [subst; done|]. by apply Hq.
  - intros c Hlt. destruct (decide (c = t)) as [->|Hne].
    + exists (l1 ++ l2). split_and!; [|done|].
      * change (holds_list (queue (map_runqueues <[t := q]> k) t) (l1 ++ l2)).
        rewrite queue_insert_eq by (rewrite (qo_rq _ Hq); lia).
        destruct Hl as (_ & _ & Hle & _). rewrite !length_app in *. simpl in *. split_and!; [done..| |]; simpl; rewrite ?length_app; lia.
      * intros x. rewrite Hpe. specialize (Hin x). rewrite elem_of_app, elem_of_cons in Hin. rewrite elem_of_app in *.
        case_decide as E; simpl; [subst; split; [intros ?; by exfalso; apply Hpl, elem_of_app|by intros (_ & ? & _)]|].
        rewrite <- Hin. tauto.
    + destruct (qo_queue _ Hq c Hlt) as (lc & Hlc & Hndc & Hinc). exists lc. split_and!; [|done|].
      * change (holds_list (queue (map_runqueues <[t := q]> k) c) lc). by rewrite queue_insert_ne.
      * intros x. rewrite Hinc, Hpe. case_decide as E; simpl; [|done]. subst. split; [intros (_ & _ & <-); by destruct Hne|by intros (_ & ? & _)].
  - apply (cpus_ok_ext k); [by rewrite length_on_proc|done..| |done]. intros x. rewrite Hpe. by case_decide; subst.
Qed.

(** *** Picking *)
Definition eligible k p : bool := (state (proc k p) =? PROCESS_STATE_RUNNING) && negb (on_cpu (proc k p)).

(** The entry at cyclic distance [d] from position [i]. *)
Definition at_distance (l : list nat) (i d : nat) : option nat := l !! ((i + d) mod length l)%nat.

Lemma next_mod (n i : nat) : (i < n)%nat -> (if (n <=? S i)%nat then O else S i) = (S i mod n)%nat.
Proof.
  intros Hi. destruct (Nat.leb_spec n (S i)).
  - replace (S i) with n by lia. by rewrite Nat.Div0.mod_same.
  - by rewrite Nat.mod_small.
Qed.

(** The loop picks the first eligible process in cyclic order. *)
Lemma pick_loop_spec k l n q q' r :
  holds_list q l -> l <> [] -> pick_loop k n q = (q', r) ->
  exists d, holds_list q' l /\ rq_next q' = ((rq_next q + d) mod length l)%nat /\ (d <= n)%nat /\
    match r with
    | Some p => (1 <= d)%nat /\ at_distance l (rq_next q) (d - 1) = Some p /\ eligible k p = true /\
                forall e p', (e < d - 1)%nat -> at_distance l (rq_next q) e = Some p' -> eligible k p' = false
    | None => d = n /\ forall e p', (e < n)%nat -> at_distance l (rq_next q) e = Some p' -> eligible k p' = false
    end.
Proof.
  intros Hl Hne. assert (Hpos : (0 < length l)%nat) by (destruct l; [done|simpl; lia]).
  revert q Hl. induction n as [|n IH]; intros q Hl; simpl.
  - intros [= <- <-]. exists O. pose proof Hl as (_ & _ & _ & Hnx). rewrite Nat.add_0_r, Nat.mod_small by lia.
    split_and!; [done..|]. intros; lia.
  - pose proof Hl as (Ha & Hc & Hle & Hnx). rewrite Hc, next_mod by lia.
    destruct (lookup_lt_is_Some_2 l (rq_next q)) as [x Hx]; [lia|].
    rewrite Ha, (pad_lookup_lt _ _ _ Hx). simpl.
    set (q1 := Runqueue _ _ _).
    assert (Hl1 : holds_list q1 l).
    { split_and!; [done..|]. pose proof (Nat.mod_upper_bound (S (rq_next q)) (length l)). unfold q1. cbn [rq_next]. lia. }
    assert (Hat0 : at_distance l (rq_next q) 0 = Some x).
    { unfold at_distance. rewrite Nat.add_0_r, Nat.mod_small by lia. done. }
    assert (Hat : forall e, at_distance l (rq_next q1) e = at_distance l (rq_next q) (S e)).
    { intros e. unfold at_distance, q1. cbn [rq_next]. rewrite Nat.Div0.add_mod_idemp_l. f_equal. f_equal. lia. }
    fold (eligible k x). destruct (eligible k x) eqn:Ex.
    + intros [= <- <-]. exists 1%nat. split_and!; [done|unfold q1; cbn [rq_next]; by rewrite Nat.add_1_r|lia|lia|done|done|].
      intros; lia.
    + intros Hpick. destruct (IH q1 Hl1 Hpick) as (d & Hq' & Hn' & Hd & Hr). exists (S d).
      split; [done|]. split; [|split; [lia|]].
      * rewrite Hn'. unfold q1. cbn [rq_next]. rewrite Nat.Div0.add_mod_idemp_l. f_equal. lia.
      * assert (Hstep : forall (m e : nat) p', (forall e p', (e < m)%nat -> at_distance l (rq_next q1) e = Some p' -> eligible k p' = false) ->
                  (e < S m)%nat -> at_distance l (rq_next q) e = Some p' -> eligible k p' = false).
        { intros m [|e] p' Hm He Hp'; [congruence|]. apply (Hm e); [lia|]. by rewrite Hat. }
        destruct r as [p|].
        -- destruct Hr as (Hd1 & Hp & Hel & Hbefore). split_and!; [lia| |done|].
           ++ rewrite Hat in Hp. by replace (S d - 1)%nat with (S (d - 1)) by lia.
           ++ intros e p' He. apply (Hstep (d - 1)%nat); [done|lia].
        -- destruct Hr as [-> Hbefore]. split; [done|]. intros e p' He. by apply (Hstep n).
Qed.

(** Replacing a queue by one with the same processes. *)
Lemma requeue_ok k c q l :
  sched_ok k -> holds_list (queue k c) l -> holds_list q l -> sched_ok (map_runqueues <[c := q]> k).
Proof.
  intros [[Q1 Q2 Q3 Q4] Hc] Hl Hq. split; [|by apply (cpus_ok_ext k)].
  split; [done|simpl; by rewrite length_insert|done|].
  intros c' Hc'. destruct (Q4 c' Hc') as (l' & Hl' & Hnd & Hin). exists l'. split_and!; [|done..].
  destruct (decide (c = c')) as [<-|Hne]; [|by rewrite queue_insert_ne].
  rewrite queue_insert_eq by lia. by rewrite (holds_list_unique _ _ _ Hl' Hl).
Qed.

(** [scheduler_pick_next] keeps everything but the queue's position, and
    returns an eligible process of the queue unless there is none. *)
Lemma scheduler_pick_next_spec k c k' r :
  sched_ok k -> (c < MAX_CPUS)%nat -> scheduler_pick_next c k = (k', r) ->
  sched_ok k' /\ procs k' = procs k /\ g_current k' = g_current k /\ switched_from k' = switched_from k /\
  match r with
  | Some p => (p < MAX_PROCESSES)%nat /\ queued (proc k p) = true /\ cpu_id (proc k p) = c /\ eligible k p = true
  | None => forall p, (p < MAX_PROCESSES)%nat -> queued (proc k p) = true -> cpu_id (proc k p) = c -> eligible k p = false
  end.
Proof.
  intros Hok Hc. unfold scheduler_pick_next. destruct (qo_queue _ (proj1 Hok) c Hc) as (l & Hl & Hnd & Hin).
  pose proof Hl as (_ & Hcnt & _ & Hnx). rewrite Hcnt. destruct (Nat.eqb_spec (length l) 0) as [H0|H0].
  - intros [= <- <-]. split_and!; [done..|]. intros p Hp Hqd Hcp.
    assert (Hpl : p ∈ l) by (by apply Hin). destruct l; [by apply not_elem_of_nil in Hpl|done].
  - destruct (pick_loop k (length l) (queue k c)) as [q r'] eqn:E. intros [= <- <-].
    assert (Hne : l <> []) by (by destruct l).
    destruct (pick_loop_spec k l _ _ _ _ Hl Hne E) as (d & Hq & Hn & Hd & Hr).
    split; [by eapply requeue_ok|]. split_and!; [done..|]. destruct r' as [p|].
    + destruct Hr as (_ & Hat & Hel & _). unfold at_distance in Hat. apply list_elem_of_lookup_2 in Hat.
      apply Hin in Hat as (? & ? & ?). done.
    + destruct Hr as [-> Hall]. intros p Hp Hqd Hcp. assert (Hpl : p ∈ l) by (by apply Hin).
      apply list_elem_of_lookup in Hpl as [i Hi]. pose proof (lookup_lt_Some _ _ _ Hi).
      apply (Hall ((i + (length l - rq_next (queue k c))) mod length l)%nat); [apply Nat.mod_upper_bound; lia|].
      unfold at_distance. rewrite Nat.Div0.add_mod_idemp_r.
      replace (rq_next (queue k c) + (i + (length l - rq_next (queue k c))))%nat with (i + 1 * length l)%nat by lia.
      by rewrite Nat.Div0.mod_add, Nat.mod_small.
Qed.

(** *** Switching *)
Lemma current_insert k c v c' :
  (c < length (g_current k))%nat -> current (map_g_current <[c := v]> k) c' = if decide (c' = c) then v else current k c'.
Proof.
  intros Hc. unfold current. simpl. case_decide as E.
  - subst. by rewrite list_lookup_insert_eq.
  - by rewrite list_lookup_insert_ne.
Qed.

Lemma leaving_insert k c v c' :
  (c < length (switched_from k))%nat ->
  leaving (map_switched_from <[c := v]> k) c' = if decide (c' = c) then v else leaving k c'.
Proof.
  intros Hc. unfold leaving. simpl. case_decide as E.
  - subst. by rewrite list_lookup_insert_eq.
  - by rewrite list_lookup_insert_ne.
Qed.

(** Occupation after the processor [c] runs [to] and leaves [from]. *)
Lemma cpus_ok_switch k k' c to from :
  cpus_ok k -> (c < MAX_CPUS)%nat -> from = current k c -> leaving k c = None ->
  length (procs k') = length (procs k) -> length (g_current k') = length (g_current k) ->
  length (switched_from k') = length (switched_from k) ->
  (forall c', current k' c' = if decide (c' = c) then to else current k c') ->
  (forall c', leaving k' c' = if decide (c' = c) then from else leaving k c') ->
  (forall p, on_cpu (proc k' p) = if decide (to = Some p) then true else on_cpu (proc k p)) ->
  (forall p, to = Some p -> (p < MAX_PROCESSES)%nat /\ on_cpu (proc k p) = false) ->
  cpus_ok k'.
Proof.
  intros [C1 C2 C3 C4 C5 C6 C7] Hc -> Hlv L1 L2 L3 Hcur Hlea Hon Hto.
  assert (Hocc : forall c' p, occupies k' c' p <-> occupies k c' p \/ (c' = c /\ to = Some p)).
  { intros c' p. unfold occupies. rewrite Hcur, Hlea. case_decide as E; [subst|tauto].
    rewrite Hlv. intuition congruence. }
  assert (Hno : forall p c', to = Some p -> ~ occupies k c' p).
  { intros p c' Hp Ho. destruct (Hto p Hp) as [_ Hf]. destruct (C4 p c' Ho). congruence. }
  split; [congruence..| | | |].
  - intros p c' [Ho|[-> Hp]]%Hocc; rewrite Hon; case_decide; try (by apply Hto); try done.
    + split; [by apply Hto|done].
    + by apply (C4 p c').
    + split; [by apply Hto|done].
  - intros p Hp. rewrite Hon. case_decide as E.
    + intros _. exists c. apply Hocc. by right.
    + intros Ht. destruct (C5 p Hp Ht) as [c' Hc']. exists c'. apply Hocc. by left.
  - intros p c1 c2 [H1|[-> H1]]%Hocc [H2|[-> H2]]%Hocc.
    + by apply (C6 p).
    + by destruct (Hno p c1 H2).
    + by destruct (Hno p c2 H1).
    + done.
  - intros p c'. rewrite Hcur, Hlea. case_decide as E; [subst|apply C7].
    intros Hp Hq. destruct (Hto p Hp) as [_ Hf]. destruct (C4 p c (or_introl Hq)). congruence.
Qed.

Lemma finish_switch_ok k c : sched_ok k -> sched_ok (scheduler_finish_switch c k) /\ leaving (scheduler_finish_switch c k) c = None.
Proof.
  intros [Hq Hc]. unfold scheduler_finish_switch. fold (leaving k c).
  destruct (leaving k c) as [prev|] eqn:E; [|done].
  assert (Hlt : (c < length (switched_from k))%nat).
  { unfold leaving in E. destruct (switched_from k !! c) eqn:E'; [|done]. by eapply lookup_lt_Some. }
  pose proof Hc as [C1 C2 C3 C4 C5 C6 C7].
  assert (Hlea : forall c', leaving (on_proc prev (set_on_cpu false) (map_switched_from <[c:=None]> k)) c' =
                       if decide (c' = c) then None else leaving k c') by (intros; by apply leaving_insert).
  split; [|rewrite Hlea; by case_decide].
  assert (Hprev : (prev < MAX_PROCESSES)%nat) by (by apply (C4 prev c (or_intror E))).
  assert (Hon : forall p, on_cpu (proc (on_proc prev (set_on_cpu false) (map_switched_from <[c:=None]> k)) p) =
                     if decide (p = prev) then false else on_cpu (proc k p)).
  { intros p. case_decide as Ep; [subst; by rewrite proc_on_proc_eq by (simpl; lia)|by rewrite proc_on_proc_ne]. }
  split.
  - apply (queues_ok_ext k); [by rewrite length_on_proc|done| | |done]; intros p; by rewrite field_on_proc.
  - assert (Hocc : forall c' p, occupies (on_proc prev (set_on_cpu false) (map_switched_from <[c:=None]> k)) c' p <->
                            occupies k c' p /\ p <> prev).
    { intros c' p. unfold occupies. rewrite Hlea. change (current _ c') with (current k c') at 1.
      split.
      - intros Ho. assert (Ho' : occupies k c' p) by (destruct Ho as [?|Hl]; [by left|right; by case_decide]).
        split; [done|]. intros ->. assert (c' = c) by (apply (C6 prev); [done|by right]). subst.
        destruct Ho as [Hcur|Hl]; [by apply (C7 _ _ Hcur)|by case_decide].
      - intros [[Hcur|Hl] Hne]; [by left|]. right. case_decide; [subst; congruence|done]. }
    split; [by rewrite length_on_proc|done|simpl; by rewrite length_insert| | | |].
    + intros p c' [Ho Hne]%Hocc. rewrite Hon. case_decide; [done|]. by apply (C4 p c').
    + intros p Hp. rewrite Hon. case_decide; [done|]. intros Ht. destruct (C5 p Hp Ht) as [c' Hc']. exists c'. by apply Hocc.
    + intros p c1 c2 [H1 _]%Hocc [H2 _]%Hocc. by apply (C6 p).
    + intros p c' Hcur. rewrite Hlea. case_decide; [done|]. by apply C7.
Qed.

(** What a processor that has picked [to] may rely on until it switches. *)
Definition pick_held k c (to : option nat) : Prop :=
  leaving k c = None /\
  match to with
  | Some x => (x < MAX_PROCESSES)%nat /\ queued (proc k x) = true /\ cpu_id (proc k x) = c /\ on_cpu (proc k x) = false
  | None => True
  end.

(** The switch up to [task_switch] to a process that was picked. *)
Lemma yield_after_ok k c to :
  sched_ok k -> (c < MAX_CPUS)%nat -> pick_held k c to ->
  sched_ok (yield_after (context_switch_begin c) (switch_to_idle_begin c) (current k c) to k).
Proof.
  intros [Hq1 Hc1] Hc [Hlv1 Hto]. unfold yield_after.
  pose proof (co_current _ Hc1) as L1. pose proof (co_switched _ Hc1) as L2. destruct to as [x|].
  - destruct Hto as (Hx & Hqd & Hcpu & Hoff).
    case_bool_decide as Eq; [done|]. unfold context_switch_begin. simpl negb. cbv iota.
    rewrite bool_decide_eq_false_2 by done. unfold process_set_current. split.
    + apply (queues_ok_ext k); [by rewrite length_on_proc|done| | |done].
      * intros p. by rewrite field_on_proc.
      * intros p. destruct (decide (x = p)) as [<-|Hne]; [|by rewrite proc_on_proc_ne].
        rewrite proc_on_proc_eq by (simpl; rewrite (qo_procs _ Hq1); lia). simpl. done.
    + apply (cpus_ok_switch k _ c (Some x) (current k c)); [done..|by rewrite length_on_proc| | | | | |].
      * simpl. by rewrite length_insert.
      * simpl. by rewrite length_insert.
      * intros c'. apply (current_insert (map_switched_from <[c := current k c]> k)). simpl. lia.
      * intros c'. apply leaving_insert. lia.
      * intros p. destruct (decide (x = p)) as [<-|Hne].
        -- rewrite decide_True, proc_on_proc_eq by (done || (simpl; rewrite (qo_procs _ Hq1); lia)). done.
        -- rewrite decide_False, proc_on_proc_ne by congruence. done.
      * intros p [= <-]. done.
  - destruct (current k c) as [f|] eqn:Ef; [|done]. case_match; [|done].
    unfold switch_to_idle_begin, process_set_current. split; [by apply (queues_ok_ext k)|].
    apply (cpus_ok_switch k _ c None (Some f)); [done..| | | | | |done].
    + simpl. by rewrite length_insert.
    + simpl. by rewrite length_insert.
    + intros c'. apply (current_insert (map_switched_from <[c := Some f]> k)). simpl. lia.
    + intros c'. apply leaving_insert. lia.
    + intros p. rewrite decide_False by done. done.
Qed.

(** The pick is held when the lock of the queue is given up. *)
Lemma pick_next_held k c k' to :
  sched_ok k -> (c < MAX_CPUS)%nat -> leaving k c = None -> scheduler_pick_next c k = (k', to) ->
  sched_ok k' /\ procs k' = procs k /\ g_current k' = g_current k /\ switched_from k' = switched_from k /\ pick_held k' c to.
Proof.
  intros Hok Hc Hlv E. destruct (scheduler_pick_next_spec k c k' to Hok Hc E) as (Hok' & Hp & Hg & Hs & Hto).
  split; [done|]. split; [done|]. split; [done|]. split; [done|]. split; [unfold leaving; by rewrite Hs|]. destruct to as [x|]; [|done].
  destruct Hto as (Hx & Hqd & Hcpu & Hel). unfold eligible in Hel. apply andb_true_iff in Hel as [_ Hoff%negb_true_iff].
  assert (Hproc : proc k' x = proc k x) by (unfold proc; by rewrite Hp). by rewrite Hproc.
Qed.

(** A process switch up to [task_switch] on a processor that is not switching. *)
Lemma yield_begin_ok k c :
  sched_ok k -> (c < MAX_CPUS)%nat -> leaving k c = None -> sched_ok (scheduler_yield_begin c k).
Proof.
  intros Hok Hc Hlv. unfold scheduler_yield_begin, yield_with, process_get_current.
  destruct (scheduler_pick_next c k) as [k1 to] eqn:E.
  destruct (pick_next_held k c k1 to Hok Hc Hlv E) as (Hok1 & _ & Hg & _ & Hheld).
  assert (Hcur : current k c = current k1 c) by (unfold current; by rewrite Hg). rewrite Hcur. by apply yield_after_ok.
Qed.

Lemma process_get_lt id k p : process_get id k = Some p -> (p < MAX_PROCESSES)%nat.
Proof. unfold process_get. intros (? & _)%find_from_Some. lia. Qed.

Lemma current_lt k c p : cpus_ok k -> current k c = Some p -> (p < MAX_PROCESSES)%nat.
Proof. intros Hc Hp. apply (co_on _ Hc p c). by left. Qed.

Lemma leaving_on_proc k p f c : leaving (on_proc p f k) c = leaving k c.
Proof. done. Qed.

Section Operations.
Context (cpus : nat) (Hcpus : (1 <= cpus <= MAX_CPUS)%nat).

Lemma scheduler_wake_ok k p : (p < MAX_PROCESSES)%nat -> sched_ok k -> sched_ok (scheduler_wake cpus (Some p) k).
Proof.
  intros Hp Hok. unfold scheduler_wake. case_match; [done|].
  apply scheduler_add_ok; [by apply on_proc_ok|done|]. by intros ? [= <-].
Qed.

Lemma signal_send_with_ok terminate id sig k :
  (forall p code k', (p < MAX_PROCESSES)%nat -> sched_ok k' -> sched_ok (terminate (Some p) code k')) ->
  sched_ok k -> sched_ok (fst (signal_send_with terminate cpus id sig k)).
Proof.
  intros Ht Hok. unfold signal_send_with. destruct (valid_signal sig); [|done]. simpl negb. cbv iota.
  destruct (process_get id k) as [p|] eqn:E; [|done]. apply process_get_lt in E.
  destruct (sig =? SIGKILL); [by apply Ht|]. cbv zeta. cbn [fst].
  set (k1 := if _ && _ then _ else k). assert (Hok1 : sched_ok k1).
  { unfold k1. case_match; [|done]. apply scheduler_add_ok; [by apply on_proc_ok|done|]. by intros ? [= <-]. }
  assert (Hok2 : sched_ok (on_proc p (fun x => set_signal_pending (Z.lor (signal_pending x) (signal_bit sig)) x) k1))
    by (by apply on_proc_ok).
  case_match; [by apply scheduler_wake_ok|done].
Qed.

Lemma map_fdw_ok k (g : fds V W -> fds V W) : sched_ok k -> sched_ok (map_fdw g k).
Proof. intros [? ?]. split; [by apply (queues_ok_ext k)|by apply (cpus_ok_ext k)]. Qed.

Lemma process_terminate_ok k p code :
  (p < MAX_PROCESSES)%nat -> sched_ok k -> sched_ok (process_terminate cpus (Some p) code k).
Proof.
  intros Hp Hok. unfold process_terminate. case_match; [done|]. cbv zeta.
  set (k1 := scheduler_remove _ _).
  assert (Hok1 : sched_ok k1).
  { apply scheduler_remove_ok; [by apply on_proc_ok|]. by intros ? [= <-]. }
  set (k2 := match fds_of _ with Some _ => _ | None => _ end).
  assert (Hok2 : sched_ok k2).
  { unfold k2. case_match; [|done]. apply on_proc_ok; [done|]. by apply map_fdw_ok. }
  destruct (process_get _ k2) as [parent|] eqn:E; [|done]. apply process_get_lt in E.
  assert (Hok3 : sched_ok (fst (signal_send_with (fun _ _ k => k) cpus (pid (proc k2 parent)) SIGCHLD k2)))
    by (by apply signal_send_with_ok).
  case_match; [by apply scheduler_wake_ok|done].
Qed.

Lemma signal_send_ok id sig k : sched_ok k -> sched_ok (fst (signal_send cpus id sig k)).
Proof. apply signal_send_with_ok. intros. by apply process_terminate_ok. Qed.

Lemma signal_deliver_ok resolve p ctx k :
  (p < MAX_PROCESSES)%nat -> sched_ok k -> sched_ok (dl_kernel (signal_deliver_pending resolve cpus (Some p) ctx k)).
Proof.
  intros Hp Hok. unfold signal_deliver_pending. case_match; [done|].
  destruct (find_from _ 1 31) as [sg|]; [|done]. cbv zeta.
  set (k1 := on_proc p _ k). assert (Hok1 : sched_ok k1) by (by apply on_proc_ok).
  assert (Hstop : sched_ok (scheduler_remove (Some p) (on_proc p (set_state PROCESS_STATE_STOPPED) k1))).
  { apply scheduler_remove_ok; [by apply on_proc_ok|]. by intros ? [= <-]. }
  repeat case_match; cbn [dl_kernel]; try done; by apply process_terminate_ok.
Qed.

Lemma leaving_terminate k p code c : leaving (process_terminate cpus (Some p) code k) c = leaving k c.
Proof.
  assert (Ha : forall o k, switched_from (scheduler_add cpus o k) = switched_from k).
  { intros [x|] k'; unfold scheduler_add, add_locked; [|done]. repeat case_match; done. }
  assert (Hw : forall o k, switched_from (scheduler_wake cpus o k) = switched_from k).
  { intros [x|] k'; unfold scheduler_wake; [|done]. case_match; [done|]. by rewrite Ha. }
  assert (Hr : forall o k, switched_from (scheduler_remove o k) = switched_from k).
  { intros [x|] k'; unfold scheduler_remove, dequeue_locked, remove_cpu; [|done]. case_match; done. }
  assert (Hs : forall id sig k, switched_from (fst (signal_send_with (fun _ _ k => k) cpus id sig k)) = switched_from k).
  { intros id sig k'. unfold signal_send_with. destruct (valid_signal sig); [|done]. simpl negb. cbv iota.
    destruct (process_get id k') as [x|]; [|done]. destruct (sig =? SIGKILL); [done|]. cbv zeta. cbn [fst].
    set (k1 := if _ && _ then _ else k').
    assert (E1 : switched_from k1 = switched_from k') by (unfold k1; case_match; [by rewrite Ha|done]).
    case_match; [rewrite Hw|]; done. }
  unfold leaving, process_terminate. case_match; [done|]. cbv zeta.
  set (k1 := scheduler_remove _ _). set (k2 := match fds_of _ with Some _ => _ | None => _ end).
  assert (E2 : switched_from k2 = switched_from k).
  { transitivity (switched_from k1); [unfold k2; by case_match|]. unfold k1. by rewrite Hr. }
  repeat case_match; rewrite ?Hw, ?Hs, ?E2; done.
Qed.
End Operations.

(** *** The steps of all processors

    A processor that is between [task_switch] and [scheduler_finish_switch]
    runs only the latter. Any processor may send a signal or wake a process at
    any time. *)
Inductive sched_step (cpus : nat) : kernel V W -> kernel V W -> Prop :=
  | step_yield c k : (c < MAX_CPUS)%nat -> leaving k c = None ->
      sched_step cpus k (scheduler_yield_begin c k)
  | step_finish c k : sched_step cpus k (scheduler_finish_switch c k)
  | step_tick c k : (c < MAX_CPUS)%nat -> leaving k c = None ->
      sched_step cpus k (tick_with (scheduler_yield_begin c) c k)
  | step_block c reason k : (c < MAX_CPUS)%nat -> leaving k c = None ->
      sched_step cpus k (block_with (scheduler_yield_begin c) c reason k)
  | step_exit c code k : (c < MAX_CPUS)%nat -> leaving k c = None ->
      sched_step cpus k (process_exit cpus c code k)
  | step_wake p k : (p < MAX_PROCESSES)%nat -> sched_step cpus k (scheduler_wake cpus (Some p) k)
  | step_add p k : (p < MAX_PROCESSES)%nat -> sched_step cpus k (scheduler_add cpus (Some p) k)
  | step_signal id sig k : sched_step cpus k (fst (signal_send cpus id sig k))
  | step_deliver resolve p ctx k : (p < MAX_PROCESSES)%nat ->
      sched_step cpus k (dl_kernel (signal_deliver_pending resolve cpus (Some p) ctx k))
  | step_action p sig act k : sched_step cpus k (fst (fst (signal_set_action (Some p) sig act k))).

Lemma sched_step_ok cpus k k' :
  (1 <= cpus <= MAX_CPUS)%nat -> sched_ok k -> sched_step cpus k k' -> sched_ok k'.
Proof.
  intros Hn Hok Hs. destruct Hs as [c k Hc Hl|c k|c k Hc Hl|c r k Hc Hl|c code k Hc Hl|p k Hp|p k Hp|id sig k|res p ctx k Hp|p sig act k].
  - by apply yield_begin_ok.
  - by apply finish_switch_ok.
  - unfold tick_with. apply yield_begin_ok; [|done|by case_match]. case_match; [by apply on_proc_ok|done].
  - unfold block_with. case_match; [|done]. apply yield_begin_ok; [by apply on_proc_ok|done..].
  - unfold process_exit, process_get_current. destruct (current k c) as [p|] eqn:E; [|done].
    assert (Hp : (p < MAX_PROCESSES)%nat) by (eapply current_lt; [apply Hok|done]).
    apply yield_begin_ok; [by apply process_terminate_ok|done|]. by rewrite leaving_terminate.
  - by apply scheduler_wake_ok.
  - apply scheduler_add_ok; [done..|]. by intros ? [= <-].
  - by apply signal_send_ok.
  - by apply signal_deliver_ok.
  - unfold signal_set_action. repeat case_match; try done. by apply on_proc_ok.
Qed.

(** A table of processes none of which has been started. *)
Definition boot (ps : list process) (us : list bool) (w : fds V W) : kernel V W :=
  Kernel ps us (replicate MAX_CPUS None) 1 (replicate MAX_CPUS zero_runqueue) (replicate MAX_CPUS None) w.

Definition unstarted (x : process) : Prop := queued x = false /\ on_cpu x = false /\ cpu_id x = O.

Lemma mjoin_replicate_None n (i : nat) : mjoin (replicate n (@None nat) !! i) = None.
Proof. destruct (replicate n None !! i) eqn:E; [|done]. by apply lookup_replicate in E as [-> _]. Qed.

Lemma boot_ok ps us w : length ps = MAX_PROCESSES -> Forall unstarted ps -> sched_ok (boot ps us w).
Proof.
  intros Hlen Hun.
  assert (Hp : forall p, unstarted (proc (boot ps us w) p)).
  { intros p. unfold proc. rewrite list_lookup_total_alt. simpl.
    destruct (ps !! p) as [x|] eqn:E; [|done]. by apply (Forall_lookup_1 _ _ _ _ Hun E). }
  assert (Hocc : forall c p, ~ occupies (boot ps us w) c p).
  { intros c p [Hc|Hc]; [unfold current in Hc|unfold leaving in Hc];
      cbn [g_current switched_from boot] in Hc; by rewrite mjoin_replicate_None in Hc. }
  split; split; try done.
  - intros p _. destruct (Hp p) as (_ & _ & ->). unfold MAX_CPUS. lia.
  - intros c Hc. exists []. split_and!; [|constructor|].
    + unfold queue. rewrite list_lookup_total_alt. cbn [runqueues boot]. rewrite lookup_replicate_2 by done.
      split_and!; [done..| |]; simpl; lia.
    + intros p. destruct (Hp p) as (-> & _). split; [by intros ?%not_elem_of_nil|by intros (_ & ? & _)].
  - intros p c Ho. by destruct (Hocc c p).
  - intros p _. destruct (Hp p) as (_ & -> & _). done.
  - intros p c c' Ho. by destruct (Hocc c p).
  - intros p c Ho. destruct (Hocc c p). by left.
Qed.
End Invariant.

(** ** Round robin *)
Section Fair.
Context {V W : Type} `{EqDecision V} `{VnodeHooks V W}.
Implicit Types (k : kernel V W) (p c n : nat) (l : list nat).

(** [n] calls of [scheduler_pick_next] on processor [c] that all return
    something else than [p], although [p] is eligible at each; between two
    calls the kernel may change in any way that leaves the queue of [c]. *)
Inductive passes c p : nat -> kernel V W -> kernel V W -> Prop :=
  | passes_0 k : passes c p 0 k k
  | passes_S n k k1 k2 k3 r :
      passes c p n k k1 -> queue k2 c = queue k1 c -> (c < length (runqueues k2))%nat -> eligible k2 p = true ->
      scheduler_pick_next c k2 = (k3, r) -> r <> Some p -> passes c p (S n) k k3.

(** One pick that passes over an eligible process comes closer to it. *)
Lemma pick_closer k c l p d k' r :
  holds_list (queue k c) l -> (c < length (runqueues k))%nat ->
  (d < length l)%nat -> at_distance l (rq_next (queue k c)) d = Some p -> eligible k p = true ->
  scheduler_pick_next c k = (k', r) -> r <> Some p ->
  holds_list (queue k' c) l /\ exists d', (d' < d)%nat /\ at_distance l (rq_next (queue k' c)) d' = Some p.
Proof.
  intros Hl Hc Hd Hat Hel Hpick Hr. unfold scheduler_pick_next in Hpick. pose proof Hl as (_ & Hcnt & _ & _).
  rewrite Hcnt in Hpick. destruct (Nat.eqb_spec (length l) 0) as [|Hne]; [lia|].
  destruct (pick_loop k (length l) (queue k c)) as [q r'] eqn:E. simplify_eq.
  destruct (pick_loop_spec k l _ _ _ _ Hl ltac:(by destruct l) E) as (e & Hq & Hn & Hle & Hres).
  rewrite queue_insert_eq by done. split; [done|]. destruct r as [x|].
  - destruct Hres as (He1 & Hx & _ & Hbefore).
    assert (Hed : (e - 1 <> d)%nat) by (intros <-; congruence).
    assert (Hlt : (e <= d)%nat).
    { destruct (decide (d < e - 1)%nat) as [Hd'|]; [|lia]. specialize (Hbefore d p Hd' Hat). congruence. }
    exists (d - e)%nat. split; [lia|]. rewrite Hn. unfold at_distance in *.
    rewrite Nat.Div0.add_mod_idemp_l. by replace (rq_next (queue k c) + e + (d - e))%nat with (rq_next (queue k c) + d)%nat by lia.
  - destruct Hres as [-> Hnone]. specialize (Hnone d p Hd Hat). congruence.
Qed.

Lemma passes_bound c p n k k' l d :
  passes c p n k k' -> holds_list (queue k c) l -> (d < length l)%nat ->
  at_distance l (rq_next (queue k c)) d = Some p ->
  holds_list (queue k' c) l /\ exists d', (d' + n <= d)%nat /\ at_distance l (rq_next (queue k' c)) d' = Some p.
Proof.
  intros Hp Hl Hd Hat. induction Hp as [k|n k k1 k2 k3 r _ IH Hq Hc Hel Hpick Hr].
  - split; [done|]. exists d. split; [lia|done].
  - destruct (IH Hl Hat) as (Hl1 & d1 & Hd1 & Hat1). rewrite <- Hq in Hl1, Hat1.
    destruct (pick_closer k2 c l p d1 k3 r Hl1 Hc ltac:(lia) Hat1 Hel Hpick Hr) as (Hl3 & d3 & Hd3 & Hat3).
    split; [done|]. exists d3. split; [lia|done].
Qed.

(** Every process of a queue is at some distance from the next pick. *)
Lemma distance_of q l p : holds_list q l -> p ∈ l -> exists d, (d < length l)%nat /\ at_distance l (rq_next q) d = Some p.
Proof.
  intros (_ & _ & _ & Hnx) Hp. apply list_elem_of_lookup in Hp as [i Hi]. pose proof (lookup_lt_Some _ _ _ Hi).
  exists ((i + (length l - rq_next q)) mod length l)%nat. split; [apply Nat.mod_upper_bound; lia|].
  unfold at_distance. rewrite Nat.Div0.add_mod_idemp_r.
  replace (rq_next q + (i + (length l - rq_next q)))%nat with (i + 1 * length l)%nat by lia.
  by rewrite Nat.Div0.mod_add, Nat.mod_small.
Qed.
End Fair.

(** ** Properties *)
Section Properties.
Context {V W : Type} `{EqDecision V} `{VnodeHooks V W}.

(** C32: Round robin is fair. While a process of a queue stays eligible, fewer
    consecutive picks than the queue has processes can return another one,
    whatever else happens to the processes between the picks. *)
Theorem scheduler_pick_fair (k k' : kernel V W) (c p n : nat) (l : list nat) :
  holds_list (queue k c) l -> p ∈ l -> passes c p n k k' -> (n < length l)%nat.
Proof.
  intros Hl Hp Hps. destruct (distance_of _ _ _ Hl Hp) as (d & Hd & Hat).
  destruct (passes_bound c p n k k' l d Hps Hl Hd Hat) as (_ & d' & Hd' & _). lia.
Qed.

(** Load balancing. Adding a process that is not queued always succeeds:
    it goes to the end of the queue of an active processor that no other
    active processor's queue is shorter than, with [queued] and [cpu_id] set,
    and no other queue changes. Removing it takes it out of its queue, keeps
    the others in order, and leaves the position of the next pick inside the
    queue. *)
Theorem scheduler_add_remove (k : kernel V W) (cpus p : nat) :
  queues_ok k -> (1 <= cpus <= MAX_CPUS)%nat -> (p < MAX_PROCESSES)%nat -> queued (proc k p) = false ->
  exists t l, (t < cpus)%nat /\ holds_list (queue k t) l /\
    (forall c, (c < cpus)%nat -> (length l <= rq_count (queue k c))%nat) /\
    let k' := scheduler_add cpus (Some p) k in
    holds_list (queue k' t) (l ++ [p]) /\ queued (proc k' p) = true /\ cpu_id (proc k' p) = t /\
    (forall c, c <> t -> queue k' c = queue k c) /\
    let k'' := scheduler_remove (Some p) k' in
    holds_list (queue k'' t) l /\ queued (proc k'' p) = false /\ (forall c, c <> t -> queue k'' c = queue k c).
Proof.
  intros Hq Hn Hp Hf. destruct (scheduler_add_spec k cpus p Hq Hn Hp Hf) as (t & l & Ht & Hl & Hpl & Hmin & E & Hroom).
  exists t, l. split_and!; [done..|]. cbv zeta.
  assert (Hrq : (t < length (runqueues k))%nat) by (rewrite (qo_rq _ Hq); lia).
  assert (Hpp : (p < length (procs k))%nat) by (rewrite (qo_procs _ Hq); lia).
  set (q := Runqueue (pad (l ++ [p])) (S (length l)) (rq_next (queue k t))) in *.
  assert (Hq' : holds_list q (l ++ [p])).
  { destruct Hl as (_ & _ & _ & Hnx). unfold holds_list, q. simpl. rewrite length_app. simpl. split_and!; [done|lia..]. }
  rewrite E. set (k' := on_proc _ _ _).
  assert (Hqt : queue k' t = q) by (by apply queue_insert_eq).
  assert (Hqo : forall c, c <> t -> queue k' c = queue k c) by (intros; by apply queue_insert_ne).
  assert (Hpr : proc k' p = set_queued true (set_cpu_id t (proc k p))) by (by apply proc_on_proc_eq).
  rewrite Hqt, Hpr. do 4 (split; [done|]).
  unfold scheduler_remove, dequeue_locked, remove_cpu. rewrite Hpr. cbn [cpu_id set_queued set_cpu_id].
  rewrite (proj2 (Nat.ltb_lt _ _)) by lia. cbv zeta. rewrite Hqt.
  destruct (find_queue_Some q (l ++ [p]) p Hq') as (i & l1 & l2 & -> & El & ->); [apply elem_of_app; right; by left|].
  assert (l1 = l /\ l2 = []) as [-> ->].
  { destruct (decide (l2 = [])) as [->|Hne]; [by apply app_inj_tail in El as [<- _]|].
    destruct (exists_last Hne) as (l3 & x & ->). rewrite app_comm_cons, app_assoc in El.
    apply app_inj_tail in El as [-> _]. exfalso. apply Hpl, elem_of_app. right. left. }
  destruct Hq' as (Ha & Hcnt & Hle & Hnx). rewrite Ha, Hcnt, pad_remove by done. rewrite app_nil_r.
  assert (Hlen : (length (l ++ [p]) - 1)%nat = length l) by (rewrite length_app; simpl; lia). rewrite Hlen.
  split_and!.
  - match goal with |- holds_list (queue (on_proc _ _ ?k2) _) _ => change (holds_list (queue k2 t) l) end.
    rewrite queue_insert_eq by (unfold k'; simpl; rewrite length_insert; done).
    split_and!; [done..|simpl; lia|]. cbn [rq_next]. destruct (Nat.leb_spec (length l) (rq_next q)); lia.
  - rewrite proc_on_proc_eq; [done|]. simpl. rewrite length_alter. done.
  - intros c Hc. match goal with |- queue (on_proc _ _ ?k2) _ = _ => change (queue k2 c = queue k c) end.
    rewrite queue_insert_ne by done. by apply Hqo.
Qed.
End Properties.

(** ** Witnesses *)
#[export] Instance plain_hooks : VnodeHooks unit unit := {| vnode_dup _ w := w; vnode_release _ w := w |}.

Definition fresh (n s : Z) : process :=
  Process n 0 s None 0 0 0 false false 0 (replicate 32 default_action) 0 0.
Definition demo_table (s : Z) : list process := fresh 1 s :: fresh 2 s :: replicate 30 zero_process.
Definition demo_boot (s : Z) : kernel unit unit :=
  boot (demo_table s) (true :: true :: replicate 30 false) (fds_init tt (fun _ : unit => 0)).

(** Process 0 is continued by a signal and picked by processor 0. *)
Definition demo_running : kernel unit unit :=
  scheduler_yield_begin 0 (fst (signal_send 2 1 SIGCONT (demo_boot PROCESS_STATE_STOPPED))).

Lemma demo_table_unstarted s : Forall unstarted (demo_table s).
Proof.
  by repeat (apply Forall_cons; split; [done|]).
Qed.

Definition demo_queued : kernel unit unit :=
  scheduler_add 1 (Some 1%nat) (scheduler_add 1 (Some 0%nat) (demo_boot PROCESS_STATE_RUNNING)).

Lemma scheduler_pick_fair_witness :
  snd (scheduler_pick_next 0 demo_queued) = Some 0%nat /\ (1 < length [0; 1])%nat.
Proof.
  split; [vm_compute; reflexivity|].
  apply (scheduler_pick_fair demo_queued (fst (scheduler_pick_next 0 demo_queued)) 0 1 1 [0; 1]%nat).
  - split_and!; vm_compute; first [reflexivity|lia].
  - apply elem_of_cons. right. left.
  - eapply (passes_S 0 1 0 demo_queued demo_queued demo_queued); [apply passes_0|reflexivity| | | |].
    + vm_compute. lia.
    + vm_compute. reflexivity.
    + vm_compute. reflexivity.
    + discriminate.
Defined.

Lemma scheduler_add_remove_witness :
  exists t l, (t < 2)%nat /\ holds_list (queue (scheduler_add 2 (Some 0%nat) (demo_boot PROCESS_STATE_RUNNING)) t) (l ++ [0%nat]).
Proof.
  destruct (boot_ok (demo_table PROCESS_STATE_RUNNING) (true :: true :: replicate 30 false)
              (fds_init tt (fun _ : unit => 0)) eq_refl (demo_table_unstarted _)) as [Hq _].
  destruct (scheduler_add_remove (demo_boot PROCESS_STATE_RUNNING) 2 0 Hq) as (t & l & Ht & _ & _ & Hl & _).
  - unfold MAX_CPUS. lia.
  - unfold MAX_PROCESSES. lia.
  - reflexivity.
  - exists t, l. split; [exact Ht|exact Hl].
Defined.
