(* ===== verification/Smp.v ===== *)
(** * Overlapping calls of the scheduler

    src/proc/scheduler.c once more, with the points at which no lock is held
    as steps of their own. scheduler_add tests proc->queued before it takes its
    locks, scheduler_remove reads proc->cpu_id before, and scheduler_yield
    gives the lock of the queue up between the pick and the switch that sets
    on_cpu. Each processor is at one of these points ([sched_pc]); [smp_step]
    interleaves the processors. Everything else the kernel does to a process
    (states, signals, exit codes) is an update that keeps its place in the
    scheduler, at any time.

    Exclusive execution holds for calls that do not overlap (the steps of
    Sched.v), and for overlapping calls as long as each one finds what it
    tested still true when it acts ([careful]). The code does not see to that,
    and without it one process can run on two processors. *)
From S2P Require Import Prelude Fd Proc Sched.

(** ** The machine *)

(** Between two steps a processor is outside the three functions, or has seen
    that [p] is not queued, or has read the processor of [p], or has picked. *)
Inductive sched_pc := Ready | Adding (p : nat) | Removing (cpu p : nat) | Picked (to : option nat).

Section Machine.
Context {V W : Type} `{EqDecision V} `{VnodeHooks V W}.

Record smp := Smp { sm_kernel : kernel V W; sm_pcs : list sched_pc }.
Implicit Types (s : smp) (k : kernel V W) (p q c d : nat).

Definition holds_pick s p : Prop := exists d, sm_pcs s !! d = Some (Picked (Some p)).

Inductive smp_step (careful : bool) (cpus : nat) s : smp -> Prop :=
| ms_update p f : keeps_place f -> smp_step careful cpus s (Smp (on_proc p f (sm_kernel s)) (sm_pcs s))
| ms_test c p : sm_pcs s !! c = Some Ready -> (p < MAX_PROCESSES)%nat -> queued (proc (sm_kernel s) p) = false ->
    smp_step careful cpus s (Smp (sm_kernel s) (<[c := Adding p]> (sm_pcs s)))
| ms_add c p : sm_pcs s !! c = Some (Adding p) -> (careful = true -> queued (proc (sm_kernel s) p) = false) ->
    smp_step careful cpus s (Smp (add_locked cpus p (sm_kernel s)) (<[c := Ready]> (sm_pcs s)))
| ms_look c p : sm_pcs s !! c = Some Ready -> (p < MAX_PROCESSES)%nat ->
    smp_step careful cpus s (Smp (sm_kernel s) (<[c := Removing (remove_cpu p (sm_kernel s)) p]> (sm_pcs s)))
| ms_remove c cpu p : sm_pcs s !! c = Some (Removing cpu p) ->
    (careful = true -> cpu = remove_cpu p (sm_kernel s) /\ ~ holds_pick s p) ->
    smp_step careful cpus s (Smp (dequeue_locked cpu p (sm_kernel s)) (<[c := Ready]> (sm_pcs s)))
| ms_pick c k to : sm_pcs s !! c = Some Ready -> leaving (sm_kernel s) c = None ->
    scheduler_pick_next c (sm_kernel s) = (k, to) ->
    smp_step careful cpus s (Smp k (<[c := Picked to]> (sm_pcs s)))
| ms_switch c to : sm_pcs s !! c = Some (Picked to) ->
    smp_step careful cpus s
      (Smp (yield_after (context_switch_begin c) (switch_to_idle_begin c) (current (sm_kernel s) c) to (sm_kernel s))
           (<[c := Ready]> (sm_pcs s)))
| ms_finish c : smp_step careful cpus s (Smp (scheduler_finish_switch c (sm_kernel s)) (sm_pcs s)).

Definition smp_boot ps us (w : fds V W) : smp := Smp (boot ps us w) (replicate MAX_CPUS Ready).

(** ** The invariant of careful interleavings *)
Record smp_inv s : Prop := {
  mi_sched : sched_ok (sm_kernel s);
  mi_len : length (sm_pcs s) = MAX_CPUS;
  mi_args : forall c pc p, sm_pcs s !! c = Some pc -> (pc = Adding p \/ exists cpu, pc = Removing cpu p) -> (p < MAX_PROCESSES)%nat;
  mi_picked : forall c to, sm_pcs s !! c = Some (Picked to) -> pick_held (sm_kernel s) c to
}.

(** The fields of a process that make a pick valid. *)
Definition same_place k k' p : Prop :=
  queued (proc k' p) = queued (proc k p) /\ cpu_id (proc k' p) = cpu_id (proc k p) /\ on_cpu (proc k' p) = on_cpu (proc k p).

Lemma pick_held_keep k k' c to :
  (leaving k c = None -> leaving k' c = None) -> (forall p, to = Some p -> same_place k k' p) -> pick_held k c to -> pick_held k' c to.
Proof.
  intros Hl Hp [H1 H2]. split; [by apply Hl|]. destruct to as [x|]; [|done]. destruct (Hp x eq_refl) as (-> & -> & ->). done.
Qed.

(** A processor goes from one point to another: the picks of the others have
    to stay valid, and its own to be one. *)
Lemma smp_inv_step s k c pc :
  smp_inv s -> sched_ok k -> (forall d, leaving (sm_kernel s) d = None -> d <> c -> leaving k d = None) ->
  (forall d p, d <> c -> sm_pcs s !! d = Some (Picked (Some p)) -> same_place (sm_kernel s) k p) ->
  (forall p, (pc = Adding p \/ exists cpu, pc = Removing cpu p) -> (p < MAX_PROCESSES)%nat) ->
  (forall to, pc = Picked to -> pick_held k c to) ->
  smp_inv (Smp k (<[c := pc]> (sm_pcs s))).
Proof.
  intros [M1 M2 M3 M4] Hk Hl Hp Ha Hn. split; cbn [sm_kernel sm_pcs]; [done|by rewrite length_insert| |].
  - intros d pc' p. destruct (decide (d = c)) as [->|Hne].
    + destruct (decide (c < length (sm_pcs s))%nat); [rewrite list_lookup_insert_eq by done; intros [= <-]; apply Ha|].
      rewrite list_insert_ge by lia. by apply M3.
    + rewrite list_lookup_insert_ne by done. by apply M3.
  - intros d to. destruct (decide (d = c)) as [->|Hne].
    + destruct (decide (c < length (sm_pcs s))%nat) as [Hlt|Hge]; [rewrite list_lookup_insert_eq by done; intros [= ->]; by apply Hn|].
      rewrite list_insert_ge by lia. intros E. apply lookup_lt_Some in E. lia.
    + rewrite list_lookup_insert_ne by done. intros E. apply (pick_held_keep (sm_kernel s)); [by intros; apply Hl| |by apply M4].
      intros p ->. by apply (Hp d).
Qed.

Lemma add_place cpus k p q : q <> p -> same_place k (add_locked cpus p k) q.
Proof. intros Hne. unfold add_locked, same_place. repeat case_match; try done. by rewrite !proc_on_proc_ne. Qed.

Lemma add_leaving cpus k p c : leaving (add_locked cpus p k) c = leaving k c.
Proof. unfold add_locked. repeat case_match; done. Qed.

Lemma remove_place cpu k p q : q <> p -> same_place k (dequeue_locked cpu p k) q.
Proof. intros Hne. unfold dequeue_locked, same_place. case_match; try done. by rewrite !proc_on_proc_ne. Qed.

Lemma remove_leaving cpu k p c : leaving (dequeue_locked cpu p k) c = leaving k c.
Proof. unfold dequeue_locked. by case_match. Qed.

Lemma switch_place k c to q : to <> Some q ->
  same_place k (yield_after (context_switch_begin c) (switch_to_idle_begin c) (current k c) to k) q.
Proof.
  intros Hne. unfold yield_after, context_switch_begin, switch_to_idle_begin, process_set_current, same_place.
  destruct to as [x|].
  - repeat case_match; try done; by rewrite !proc_on_proc_ne by congruence.
  - repeat case_match; done.
Qed.

Lemma switch_leaving k c to d : (c < length (switched_from k))%nat -> d <> c ->
  leaving (yield_after (context_switch_begin c) (switch_to_idle_begin c) (current k c) to k) d = leaving k d.
Proof.
  intros Hc Hne. unfold yield_after, context_switch_begin, switch_to_idle_begin, process_set_current.
  assert (Hx : forall v, leaving (map_switched_from <[c := v]> k) d = leaving k d) by (intros v; rewrite leaving_insert by done; by rewrite decide_False).
  destruct to as [x|]; repeat case_match; try done; apply Hx.
Qed.

Lemma finish_leaving k c d : cpus_ok k -> leaving k d = None -> leaving (scheduler_finish_switch c k) d = None.
Proof.
  intros Hc Hl. unfold scheduler_finish_switch. destruct (mjoin (switched_from k !! c)) as [prev|] eqn:E; [|done].
  assert (Hlt : (c < length (switched_from k))%nat) by (destruct (switched_from k !! c) eqn:E'; [by eapply lookup_lt_Some|done]).
  change (leaving (map_switched_from <[c := None]> k) d = None). rewrite leaving_insert by done. by case_decide.
Qed.

Lemma smp_step_inv cpus s s' :
  (1 <= cpus <= MAX_CPUS)%nat -> smp_inv s -> smp_step true cpus s s' -> smp_inv s'.
Proof.
  intros Hn Hi. pose proof Hi as [M1 M2 M3 M4]. destruct 1 as [p f Hf|c p Hc Hp Hq|c p Hc Hq|c p Hc Hp|c cpu p Hc Hcar|c k to Hc Hl E|c to Hc|c].
  - split; cbn [sm_kernel sm_pcs]; [by apply on_proc_ok|done|done|]. intros c to E. apply (pick_held_keep (sm_kernel s)); [done| |by apply M4].
    intros q _. unfold same_place. destruct (decide (p = q)) as [->|]; [|by rewrite !proc_on_proc_ne].
    split_and!; apply field_on_proc; apply Hf.
  - apply smp_inv_step; try done. intros q [[= <-]|[? ?]]; [done|congruence].
  - specialize (Hq eq_refl). assert (Hp : (p < MAX_PROCESSES)%nat) by (apply (M3 c _ _ Hc); by left).
    assert (Hadd : add_locked cpus p (sm_kernel s) = scheduler_add cpus (Some p) (sm_kernel s)) by (unfold scheduler_add; by rewrite Hq).
    apply smp_inv_step; try done.
    + rewrite Hadd. apply scheduler_add_ok; [done..|]. by intros ? [= <-].
    + intros d Hd _. by rewrite add_leaving.
    + intros d q _ Ed. apply add_place. intros ->. destruct (M4 d _ Ed) as (_ & _ & Hqd & _). congruence.
    + intros q [?|[? ?]]; congruence.
  - apply smp_inv_step; try done. intros q [?|[? [= <- <-]]]; [congruence|done].
  - destruct (Hcar eq_refl) as [-> Hno]. assert (Hp : (p < MAX_PROCESSES)%nat) by (apply (M3 c _ _ Hc); right; eauto).
    apply smp_inv_step; try done.
    + apply (scheduler_remove_ok (sm_kernel s) (Some p)); [done|]. by intros ? [= <-].
    + intros d Hd _. by rewrite remove_leaving.
    + intros d q _ Ed. apply remove_place. intros ->. apply Hno. by exists d.
    + intros q [?|[? ?]]; congruence.
  - assert (Hcl : (c < MAX_CPUS)%nat) by (rewrite <- M2; by eapply lookup_lt_Some).
    destruct (pick_next_held _ c k to M1 Hcl Hl E) as (Hok & Hpr & _ & Hs & Hheld).
    apply smp_inv_step; try done.
    + intros d Hd _. unfold leaving. by rewrite Hs.
    + intros d q _ _. unfold same_place, proc. by rewrite Hpr.
    + intros q [?|[? ?]]; congruence.
    + by intros ? [= <-].
  - assert (Hcl : (c < MAX_CPUS)%nat) by (rewrite <- M2; by eapply lookup_lt_Some).
    pose proof (M4 c to Hc) as Hheld. apply smp_inv_step; try done.
    + by apply yield_after_ok.
    + intros d Hd Hne. rewrite switch_leaving; [done| |done]. rewrite (co_switched _ (proj2 M1)). done.
    + intros d q Hne Ed. apply switch_place. intros ->. destruct (M4 d _ Ed) as (_ & _ & _ & Ec & _).
      destruct Hheld as (_ & _ & _ & Ec' & _). congruence.
    + intros q [?|[? ?]]; congruence.
  - split; cbn [sm_kernel sm_pcs]; [by apply finish_switch_ok|done|done|]. intros d to E.
    pose proof (M4 d to E) as [Hl Hto]. split; [by apply finish_leaving; [apply M1|]|]. destruct to as [x|]; [|done].
    unfold scheduler_finish_switch. destruct (mjoin (switched_from (sm_kernel s) !! c)) as [prev|] eqn:Ep; [|done].
    destruct Hto as (Hx & Hqd & Hcpu & Hoff). split; [done|].
    destruct (decide (prev = x)) as [->|Hne]; [|by rewrite !proc_on_proc_ne].
    rewrite proc_on_proc_eq by (cbn; rewrite (co_procs _ (proj2 M1)); done). done.
Qed.

Lemma smp_boot_inv ps us w : length ps = MAX_PROCESSES -> Forall unstarted ps -> smp_inv (smp_boot ps us w).
Proof.
  intros Hl Hu. split; cbn [sm_kernel sm_pcs smp_boot]; [by apply boot_ok|apply length_replicate| |].
  - intros c pc p E. apply lookup_replicate in E as [-> _]. intros [?|[? ?]]; congruence.
  - intros c to E. apply lookup_replicate in E as [? _]. congruence.
Qed.

(** ** Exclusive execution *)
Definition exclusive k : Prop :=
  (forall p c c', current k c = Some p -> current k c' = Some p -> c = c') /\
  (forall p c c', leaving k c = Some p -> current k c' <> Some p) /\
  (forall p c c', leaving k c = Some p -> leaving k c' = Some p -> c = c') /\
  (forall c, (c < MAX_CPUS)%nat -> exists l, holds_list (queue k c) l /\ NoDup l /\
     forall p, p ∈ l <-> (p < MAX_PROCESSES)%nat /\ queued (proc k p) = true /\ cpu_id (proc k p) = c).

Lemma sched_ok_exclusive k : sched_ok k -> exclusive k.
Proof.
  intros [Hq Hc]. unfold exclusive. split_and!.
  - intros p c c' H1 H2. by apply (co_unique _ Hc p); left.
  - intros p c c' H1 H2. assert (c = c') as <- by (by apply (co_unique _ Hc p); [right|left]).
    by apply (co_apart _ Hc p c).
  - intros p c c' H1 H2. by apply (co_unique _ Hc p); right.
  - apply (qo_queue _ Hq).
Qed.
End Machine.
Arguments smp : clear implicits.

(** ** The race *)

(** Two processors wake process 0 at the same time, pick it, and switch to it. *)
Definition race_boot : smp unit unit :=
  smp_boot (demo_table PROCESS_STATE_RUNNING) (true :: true :: replicate 30 false) (fds_init tt (fun _ : unit => 0)).

Definition race_added : kernel unit unit := add_locked 2 0 (add_locked 2 0 (sm_kernel race_boot)).
Definition race_picked : kernel unit unit := (scheduler_pick_next 1 (scheduler_pick_next 0 race_added).1).1.
Definition switch_on (c : nat) (k : kernel unit unit) : kernel unit unit :=
  yield_after (context_switch_begin c) (switch_to_idle_begin c) (current k c) (Some 0%nat) k.
Definition race_end : kernel unit unit := switch_on 1 (switch_on 0 race_picked).

Lemma race_reach : exists pcs, rtc (smp_step false 2) race_boot (Smp race_end pcs).
Proof.
  eexists. unfold race_boot, smp_boot.
  eapply rtc_l; [apply (ms_test _ _ _ 0 0); [reflexivity|unfold MAX_PROCESSES; lia|vm_compute; reflexivity]|].
  eapply rtc_l; [apply (ms_test _ _ _ 1 0); [reflexivity|unfold MAX_PROCESSES; lia|vm_compute; reflexivity]|].
  eapply rtc_l; [apply (ms_add _ _ _ 0 0); [reflexivity|done]|].
  eapply rtc_l; [apply (ms_add _ _ _ 1 0); [reflexivity|done]|]. cbn [sm_kernel].
  eapply rtc_l; [apply (ms_pick _ _ _ 0 (scheduler_pick_next 0 race_added).1 (Some 0%nat)); [reflexivity|vm_compute; reflexivity|]|].
  { change (scheduler_pick_next 0 race_added = ((scheduler_pick_next 0 race_added).1, Some 0%nat)).
    assert (E : (scheduler_pick_next 0 race_added).2 = Some 0%nat) by (vm_compute; reflexivity).
    destruct (scheduler_pick_next 0 race_added). cbn in *. by subst. }
  cbn [sm_kernel].
  eapply rtc_l; [apply (ms_pick _ _ _ 1 race_picked (Some 0%nat)); [reflexivity|vm_compute; reflexivity|]|].
  { cbn [sm_kernel]. unfold race_picked. set (k := (scheduler_pick_next 0 race_added).1).
    assert (E : (scheduler_pick_next 1 k).2 = Some 0%nat) by (vm_compute; reflexivity). clearbody k.
    destruct (scheduler_pick_next 1 k). cbn in *. by subst. }
  eapply rtc_l; [apply (ms_switch _ _ _ 0 (Some 0%nat)); reflexivity|].
  eapply rtc_l; [apply (ms_switch _ _ _ 1 (Some 0%nat)); reflexivity|]. cbn [sm_kernel]. apply rtc_refl.
Qed.

(** Process 0 runs on processors 0 and 1, and is in both their queues. *)
Definition scheduler_race : Prop :=
  exists k pcs, rtc (smp_step false 2) race_boot (Smp k pcs) /\
    current k 0 = Some 0%nat /\ current k 1 = Some 0%nat /\
    in_queue (queue k 0) 0 = true /\ in_queue (queue k 1) 0 = true.

Lemma scheduler_race_holds : scheduler_race.
Proof. destruct race_reach as [pcs Hr]. exists race_end, pcs. split; [exact Hr|]. split_and!; vm_compute; reflexivity. Qed.

(** ** Properties *)

(** C17: Exclusive execution. Start from a table of unstarted processes. As
    long as calls of the scheduler do not overlap, whatever the order of
    yields, ticks, blocking, exits, wake-ups, signals and their delivery on any
    processors, with each context switch in two steps, no process is current
    on two processors, and a process that a processor is still switching away
    from is current nowhere, so that no other processor can resume it before
    its stack pointer is saved; [queued] and [cpu_id] name the only queue a
    process is in, in which it is exactly once. The same holds when the calls
    of the processors overlap at the points where they hold no lock, if each
    call finds what it has tested still true when it acts: the process to add
    is still in no queue, the one to remove still in the queue that was read,
    and nobody has picked it. The code does not see to this: two processors
    that wake a process at the same time can put it in two queues and then
    both run it. *)
Theorem scheduler_exclusive {V W : Type} `{EqDecision V} `{VnodeHooks V W} (cpus : nat) ps us (w : fds V W) :
  (1 <= cpus <= MAX_CPUS)%nat -> length ps = MAX_PROCESSES -> Forall unstarted ps ->
  (forall k, rtc (sched_step cpus) (boot ps us w) k -> exclusive k) /\
  (forall s, rtc (smp_step true cpus) (smp_boot ps us w) s -> exclusive (sm_kernel s)) /\
  scheduler_race.
Proof.
  intros Hn Hlen Hun. split; [|split; [|exact scheduler_race_holds]].
  - intros k Hr. apply sched_ok_exclusive. revert Hr. apply rtc_preserve; [intros a b; by apply sched_step_ok|by apply boot_ok].
  - intros s Hr. apply sched_ok_exclusive, mi_sched. revert Hr.
    apply rtc_preserve; [intros a b; by apply smp_step_inv|by apply smp_boot_inv].
Qed.

Lemma scheduler_exclusive_witness :
  current demo_running 0 = Some 0%nat /\
  forall p c c', current demo_running c = Some p -> current demo_running c' = Some p -> c = c'.
Proof.
  split; [vm_compute; reflexivity|].
  apply (proj1 (scheduler_exclusive 2 (demo_table PROCESS_STATE_STOPPED) (true :: true :: replicate 30 false)
           (fds_init tt (fun _ : unit => 0)) ltac:(unfold MAX_CPUS; lia) ltac:(vm_compute; reflexivity) (demo_table_unstarted _))).
  eapply rtc_l; [apply (step_signal 2 1 SIGCONT)|].
  apply rtc_once, step_yield; [unfold MAX_CPUS; lia|vm_compute; reflexivity].
Defined.
