(* ===== verification/Signal.v ===== *)
(** * src/proc/signal.c and the exit path of src/proc/process.c: correctness

    Which pending signal is delivered and what it does, and what a
    terminating process leaves behind: its descriptors closed in the tables of
    Fd.v, its queue slot free, and its parent signalled and awake. *)
From S2P Require Import Prelude Fd Pipe Proc Sched.
#[local] Open Scope tach_scope.

(** ** Signal bits *)
Section Bits.
Lemma signal_bit_pow s : 0 <= s < 32 -> signal_bit s = 2 ^ s.
Proof.
  intros Hs. unfold signal_bit. rewrite Z.shiftl_1_l. apply u32_small. unfold is_u32.
  split; [apply Z.pow_nonneg; lia|apply Z.pow_lt_mono_r; lia].
Qed.

Lemma testbit_signal s x : 0 <= s < 32 -> negb ((x .& signal_bit s) =? 0) = Z.testbit x s.
Proof.
  intros Hs. rewrite signal_bit_pow, <- Z.shiftl_1_l, land_pow2_testbit by lia. apply negb_involutive.
Qed.

Lemma testbit_u32 x i : 0 <= i < 32 -> Z.testbit (u32 x) i = Z.testbit x i.
Proof. intros Hi. unfold u32. rewrite Z.mod_pow2_bits_low by lia. done. Qed.

Lemma testbit_u32_high x i : is_u32 x -> 32 <= i -> Z.testbit x i = false.
Proof. intros Hx Hi. rewrite <- (u32_small x Hx). unfold u32. apply Z.mod_pow2_bits_high. lia. Qed.

(** Clearing and setting one bit of a signal word. *)
Lemma testbit_clear x s i :
  0 <= s < 32 -> 0 <= i < 32 -> Z.testbit (x .& u32 (Z.lnot (signal_bit s))) i = Z.testbit x i && negb (i =? s).
Proof.
  intros Hs Hi. rewrite Z.land_spec, testbit_u32, Z.lnot_spec, signal_bit_pow by lia. f_equal. f_equal.
  rewrite Z.pow2_bits_eqb by lia. apply Z.eqb_sym.
Qed.

Lemma testbit_post x s i : 0 <= s < 32 -> 0 <= i -> Z.testbit (x .| signal_bit s) i = Z.testbit x i || (i =? s).
Proof.
  intros Hs Hi. rewrite Z.lor_spec, signal_bit_pow by lia. f_equal. rewrite Z.pow2_bits_eqb by lia. apply Z.eqb_sym.
Qed.

Lemma testbit_unblocked x b i :
  0 <= i < 32 -> Z.testbit (x .& u32 (Z.lnot b)) i = Z.testbit x i && negb (Z.testbit b i).
Proof. intros Hi. rewrite Z.land_spec, testbit_u32, Z.lnot_spec by lia. done. Qed.
End Bits.

(** ** Delivery *)

(** What a signal does to a process, by its number and handler. *)
Inductive disposition := Ignored | Stops | Kills | Handled (handler : Z).

Definition disposition_of (signal handler : Z) : disposition :=
  if (handler =? SIG_IGN) && negb (signal =? SIGKILL) && negb (signal =? SIGSTOP) then Ignored
  else if existsb (Z.eqb signal) [SIGSTOP; SIGTSTP; SIGTTIN; SIGTTOU] then Stops
  else if negb (handler =? SIG_DFL) then Handled handler
  else if existsb (Z.eqb signal) [SIGCHLD; SIGWINCH; SIGURG; SIGCONT] then Ignored
  else Kills.

Section Delivery.
Context {V W : Type} `{EqDecision V} `{VnodeHooks V W}.
Implicit Types (k : kernel V W) (p : nat) (ctx : user_context).

(** The signal is pending and not blocked. *)
Definition deliverable k p (s : Z) : bool :=
  Z.testbit (signal_pending (proc k p)) s && negb (Z.testbit (signal_blocked (proc k p)) s).

(** The effect of a disposition, once the signal is no longer pending. *)
Definition apply_disposition (resolve : Z -> Z) (cpus p : nat) ctx (signal : Z) (d : disposition) k : delivery V W :=
  match d with
  | Ignored => Delivery k ctx None signal
  | Stops => Delivery (scheduler_remove (Some p) (on_proc p (set_state PROCESS_STATE_STOPPED) k)) ctx None signal
  | Kills => Delivery (process_terminate cpus (Some p) (128 + signal) k) ctx None signal
  | Handled h =>
      let sp := u64 (uc_sp ctx - 8) in
      if resolve sp =? 0 then Delivery (process_terminate cpus (Some p) (128 + SIGSEGV) k) ctx None (- EFAULT)
      else Delivery k (UserContext h sp (uc_flags ctx) (<[1%nat := signal]> (uc_regs ctx))) (Some (resolve sp, uc_pc ctx)) signal
  end.

Lemma available_zero k p :
  is_u32 (signal_pending (proc k p)) ->
  (signal_pending (proc k p) .& u32 (Z.lnot (signal_blocked (proc k p))) = 0 <->
   forall s, 0 <= s < 32 -> deliverable k p s = false).
Proof.
  intros Hp. split.
  - intros E s Hs. unfold deliverable. rewrite <- testbit_unblocked by lia. by rewrite E, Z.testbit_0_l.
  - intros Hall. apply Z.bits_inj'. intros i Hi. rewrite Z.testbit_0_l.
    destruct (Z.lt_ge_cases i 32) as [Hlt|Hge].
    + rewrite testbit_unblocked by lia. by apply Hall.
    + by rewrite Z.land_spec, testbit_u32_high.
Qed.

Lemma deliver_disposition resolve cpus p ctx k s :
  (1 <= s < 32)%nat -> deliverable k p (Z.of_nat s) = true ->
  (forall j, 1 <= j < Z.of_nat s -> deliverable k p j = false) ->
  let k1 := on_proc p (fun x => set_signal_pending (signal_pending x .& u32 (Z.lnot (signal_bit (Z.of_nat s)))) x) k in
  signal_deliver_pending resolve cpus (Some p) ctx k =
  apply_disposition resolve cpus p ctx (Z.of_nat s)
    (disposition_of (Z.of_nat s) (sa_handler (signal_actions (proc k1 p) !!! s))) k1.
Proof.
  intros Hs Hd Hlow k1. unfold signal_deliver_pending.
  set (available := _ .& u32 (Z.lnot _)).
  assert (Hbit : forall j, 0 <= j < 32 -> Z.testbit available j = deliverable k p j) by (intros; by apply testbit_unblocked).
  assert (Hne : available <> 0).
  { intros E. specialize (Hbit (Z.of_nat s) ltac:(lia)). rewrite E, Z.testbit_0_l in Hbit. congruence. }
  rewrite (proj2 (Z.eqb_neq _ _)) by done.
  assert (Hfind : find_from (fun s => negb ((available .& signal_bit (Z.of_nat s)) =? 0)) 1 31 = Some s).
  { destruct (find_from _ 1 31) as [s'|] eqn:E.
    - apply find_from_Some in E as (Hs' & Ht & Hmin). rewrite testbit_signal, Hbit in Ht by lia.
      f_equal. destruct (lt_eq_lt_dec s' s) as [[Hlt|]|Hgt]; [|done|].
      + rewrite Hlow in Ht by lia. done.
      + specialize (Hmin s ltac:(lia)). rewrite testbit_signal, Hbit in Hmin by lia. congruence.
    - rewrite find_from_None in E. specialize (E s ltac:(lia)). rewrite testbit_signal, Hbit in E by lia. congruence. }
  rewrite Hfind. fold k1. cbv zeta. unfold disposition_of, ignored_by_default. cbn [existsb].
  rewrite !orb_false_r, !orb_assoc. set (h := sa_handler _).
  destruct ((h =? SIG_IGN) && _ && _); [done|].
  destruct ((_ =? SIGSTOP) || _ || _ || _); [done|].
  destruct (h =? SIG_DFL); cbn [negb]; [|done]. by destruct (_ || _ || _ || _).
Qed.
End Delivery.

(** ** Frame lemmas of the scheduler's operations *)
Section Frames.
Context {V W : Type} `{EqDecision V} `{VnodeHooks V W}.
Implicit Types (k : kernel V W) (p : nat).

(** A field of a process that the scheduler does not write. *)
Class SchedulerFree {A} (g : process -> A) : Prop := {
  sf_queued b x : g (set_queued b x) = g x;
  sf_cpu_id c x : g (set_cpu_id c x) = g x
}.

Lemma field_add {A} (g : process -> A) `{!SchedulerFree g} cpus o k y : g (proc (scheduler_add cpus o k) y) = g (proc k y).
Proof.
  destruct o as [p|]; [|done]. unfold scheduler_add, add_locked. repeat case_match; try done.
  rewrite field_on_proc; [done|]. intros x. by rewrite sf_queued, sf_cpu_id.
Qed.

Lemma field_remove {A} (g : process -> A) `{!SchedulerFree g} o k y : g (proc (scheduler_remove o k) y) = g (proc k y).
Proof.
  destruct o as [p|]; [|done]. unfold scheduler_remove, dequeue_locked, remove_cpu. case_match; [|done].
  rewrite field_on_proc; [done|]. intros x. by rewrite sf_queued.
Qed.

Lemma same_add cpus o k :
  used (scheduler_add cpus o k) = used k /\ fdw (scheduler_add cpus o k) = fdw k /\
  length (procs (scheduler_add cpus o k)) = length (procs k).
Proof.
  destruct o as [p|]; [|done]. unfold scheduler_add, add_locked. repeat case_match; try done.
  split_and!; [done..|]. by rewrite length_on_proc.
Qed.

Lemma same_remove o k :
  used (scheduler_remove o k) = used k /\ fdw (scheduler_remove o k) = fdw k /\
  length (procs (scheduler_remove o k)) = length (procs k).
Proof.
  destruct o as [p|]; [|done]. unfold scheduler_remove, dequeue_locked, remove_cpu. case_match; [|done].
  split_and!; [done..|]. by rewrite length_on_proc.
Qed.

(** [process_get] depends on the identifiers only. *)
Lemma process_get_ext id k k' :
  used k' = used k -> (forall x, pid (proc k' x) = pid (proc k x)) -> process_get id k' = process_get id k.
Proof.
  intros Hu Hp. unfold process_get. apply find_from_ext. intros j _. unfold is_used. by rewrite Hu, Hp.
Qed.

Lemma process_get_pid id k p : process_get id k = Some p -> pid (proc k p) = id.
Proof. unfold process_get. intros (_ & Hb & _)%find_from_Some. apply andb_true_iff in Hb as [_ Hb]. lia. Qed.
End Frames.

#[export] Instance sf_state : SchedulerFree state.
Proof. done. Qed.
#[export] Instance sf_pid : SchedulerFree pid.
Proof. done. Qed.
#[export] Instance sf_ppid : SchedulerFree ppid.
Proof. done. Qed.
#[export] Instance sf_fds_of : SchedulerFree fds_of.
Proof. done. Qed.
#[export] Instance sf_exit_code : SchedulerFree exit_code.
Proof. done. Qed.
#[export] Instance sf_pending : SchedulerFree signal_pending.
Proof. done. Qed.

(** ** Termination *)
Section Terminate.
Context {V W : Type} `{EqDecision V} `{VnodeHooks V W}.
Context (cpus : nat) (Hcpus : (1 <= cpus <= MAX_CPUS)%nat).
Implicit Types (k : kernel V W) (p : nat).

(** Posting [SIGCHLD] to a process and waking it. *)
Definition notify (parent : nat) k : kernel V W :=
  let k := fst (signal_send_with (fun _ _ k => k) cpus (pid (proc k parent)) SIGCHLD k) in
  if state (proc k parent) =? PROCESS_STATE_BLOCKED then scheduler_wake cpus (Some parent) k else k.

Lemma field_wake {A} (g : process -> A) `{!SchedulerFree g} p k y :
  (forall s x, g (set_state s x) = g x) -> (forall r x, g (set_block_reason r x) = g x) ->
  g (proc (scheduler_wake cpus (Some p) k) y) = g (proc k y).
Proof.
  intros H1 H2. unfold scheduler_wake. case_match; [done|]. rewrite field_add by done.
  apply field_on_proc. intros x. by rewrite H1, H2.
Qed.

Lemma same_wake p k :
  used (scheduler_wake cpus (Some p) k) = used k /\ fdw (scheduler_wake cpus (Some p) k) = fdw k /\
  length (procs (scheduler_wake cpus (Some p) k)) = length (procs k).
Proof.
  unfold scheduler_wake. case_match; [done|].
  destruct (same_add cpus (Some p) (on_proc p (fun x => set_state PROCESS_STATE_RUNNING (set_block_reason 0 x)) k))
    as (-> & -> & ->). split_and!; [done..|]. by rewrite length_on_proc.
Qed.

(** A woken process runs and is in a queue. *)
Lemma wake_runs p k :
  sched_ok k -> (p < MAX_PROCESSES)%nat -> state (proc k p) = PROCESS_STATE_BLOCKED ->
  state (proc (scheduler_wake cpus (Some p) k) p) = PROCESS_STATE_RUNNING /\
  queued (proc (scheduler_wake cpus (Some p) k) p) = true.
Proof.
  intros Hok Hp Hs. unfold scheduler_wake. rewrite Hs, Z.eqb_refl. simpl negb. cbv iota.
  set (k1 := on_proc p _ k). assert (Hok1 : sched_ok k1) by (by apply on_proc_ok).
  assert (Hlen : (p < length (procs k))%nat) by (rewrite (qo_procs _ (proj1 Hok)); lia).
  assert (H1 : state (proc k1 p) = PROCESS_STATE_RUNNING) by (unfold k1; by rewrite proc_on_proc_eq).
  split; [by rewrite (field_add state)|]. destruct (queued (proc k1 p)) eqn:E.
  - unfold scheduler_add, add_locked. by rewrite E.
  - destruct (scheduler_add_spec k1 cpus p (proj1 Hok1) Hcpus Hp E) as (t & l & _ & _ & _ & _ & -> & _).
    rewrite proc_on_proc_eq; [done|].
    change (p < length (procs k1))%nat. rewrite (qo_procs _ (proj1 Hok1)). lia.
Qed.

(** The notification of a parent. *)
Lemma notify_spec k parent :
  sched_ok k -> process_get (pid (proc k parent)) k = Some parent ->
  let k' := notify parent k in
  fdw k' = fdw k /\ Z.testbit (signal_pending (proc k' parent)) SIGCHLD = true /\
  (state (proc k parent) = PROCESS_STATE_BLOCKED ->
     state (proc k' parent) = PROCESS_STATE_RUNNING /\ queued (proc k' parent) = true) /\
  (forall y, y <> parent -> state (proc k' y) = state (proc k y) /\ exit_code (proc k' y) = exit_code (proc k y) /\
     fds_of (proc k' y) = fds_of (proc k y) /\ queued (proc k' y) = queued (proc k y)).
Proof.
  intros Hok Hget. unfold notify, signal_send_with. change (negb (valid_signal SIGCHLD)) with false. cbv iota.
  rewrite Hget. change (SIGCHLD =? SIGKILL) with false. change (SIGCHLD =? SIGCONT) with false. cbn [andb fst]. cbv iota zeta.
  pose proof (process_get_lt _ _ _ Hget) as Hp. set (k1 := on_proc parent _ k).
  assert (Hok1 : sched_ok k1) by (by apply on_proc_ok).
  assert (Hlen : (parent < length (procs k))%nat) by (rewrite (qo_procs _ (proj1 Hok)); lia).
  assert (Hst : state (proc k1 parent) = state (proc k parent)) by (unfold k1; by rewrite (field_on_proc state)).
  assert (Hbit : Z.testbit (signal_pending (proc k1 parent)) SIGCHLD = true).
  { unfold k1. rewrite proc_on_proc_eq by done. cbn [signal_pending set_signal_pending].
    rewrite testbit_post by (unfold SIGCHLD; lia). apply orb_true_r. }
  assert (Ho : forall y, y <> parent -> proc k1 y = proc k y) by (intros; unfold k1; by apply proc_on_proc_ne).
  destruct (state (proc k1 parent) =? PROCESS_STATE_BLOCKED) eqn:Eb.
  - apply Z.eqb_eq in Eb. destruct (wake_runs parent k1 Hok1 Hp Eb) as [Hr Hq].
    set (k2 := scheduler_wake cpus (Some parent) k1) in *.
    rewrite Hr. change (PROCESS_STATE_RUNNING =? PROCESS_STATE_BLOCKED) with false. cbv iota.
    split_and!.
    + unfold k2. by destruct (same_wake parent k1) as (_ & -> & _).
    + unfold k2. by rewrite (field_wake signal_pending).
    + done.
    + intros y Hy. rewrite <- (Ho y Hy).
      assert (Hy2 : proc k2 y = proc k1 y).
      { unfold k2, scheduler_wake. case_match; [done|]. unfold scheduler_add, add_locked.
        repeat case_match; rewrite ?proc_on_proc_ne by done; try done.
        change (proc (on_proc parent (fun x => set_state PROCESS_STATE_RUNNING (set_block_reason 0 x)) k1) y = proc k1 y).
        by rewrite proc_on_proc_ne. }
      by rewrite Hy2.
  - rewrite Eb. split_and!; [done|done| |].
    + intros E. rewrite <- Hst in E. apply Z.eqb_neq in Eb. done.
    + intros y Hy. by rewrite (Ho y Hy).
Qed.

(** What is left of a process before its parent is notified. *)
Lemma terminate_steps p code t k :
  sched_ok k -> (p < MAX_PROCESSES)%nat -> state (proc k p) <> PROCESS_STATE_ZOMBIE -> fds_of (proc k p) = Some t ->
  exists k1, process_terminate cpus (Some p) code k =
      match process_get (ppid (proc k p)) k with Some parent => notify parent k1 | None => k1 end /\
    sched_ok k1 /\ fdw k1 = fd_table_destroy (Some t) (fdw k) /\
    state (proc k1 p) = PROCESS_STATE_ZOMBIE /\ exit_code (proc k1 p) = code /\ fds_of (proc k1 p) = None /\
    queued (proc k1 p) = false /\ used k1 = used k /\ (forall y, pid (proc k1 y) = pid (proc k y)) /\
    (forall y, y <> p -> state (proc k1 y) = state (proc k y)).
Proof.
  intros Hok Hp Hz Ht. unfold process_terminate. rewrite (proj2 (Z.eqb_neq _ _)) by done. cbv zeta.
  set (k0 := on_proc p (fun x => set_state PROCESS_STATE_ZOMBIE (set_exit_code code x)) k).
  set (k1 := scheduler_remove (Some p) k0).
  assert (Hok0 : sched_ok k0) by (by apply on_proc_ok).
  assert (Hok1 : sched_ok k1) by (apply scheduler_remove_ok; [done|by intros ? [= <-]]).
  assert (Hlen : (p < length (procs k))%nat) by (rewrite (qo_procs _ (proj1 Hok)); lia).
  assert (Hlen1 : (p < length (procs k1))%nat) by (rewrite (qo_procs _ (proj1 Hok1)); lia).
  assert (E0 : proc k0 p = set_state PROCESS_STATE_ZOMBIE (set_exit_code code (proc k p)))
    by (unfold k0; by rewrite proc_on_proc_eq).
  assert (Ef : fds_of (proc k1 p) = Some t) by (unfold k1; by rewrite (field_remove fds_of), E0).
  assert (Hq1 : queued (proc k1 p) = false).
  { unfold k1. destruct (scheduler_remove_spec k0 p (proj1 Hok0) Hp) as [[? ->]|(_ & l1 & l2 & nx & _ & _ & ->)]; [done|].
    rewrite proc_on_proc_eq; [done|]. simpl. rewrite length_alter. done. }
  rewrite Ef. set (k2 := on_proc p (set_fds_of None) (map_fdw (fd_table_destroy (Some t)) k1)).
  assert (Hk2 : forall A (g : process -> A), SchedulerFree g -> (forall o x, g (set_fds_of o x) = g x) ->
            forall y, g (proc k2 y) = g (proc k0 y)).
  { intros A g Hg Hs y. unfold k2. rewrite field_on_proc by (intros; apply Hs).
    change (g (proc k1 y) = g (proc k0 y)). unfold k1. by apply field_remove. }
  assert (Hpid : forall y, pid (proc k2 y) = pid (proc k y)).
  { intros y. rewrite (Hk2 _ pid _) by done. unfold k0. by rewrite field_on_proc. }
  assert (Hppid : ppid (proc k2 p) = ppid (proc k p)) by (rewrite (Hk2 _ ppid _) by done; by rewrite E0).
  assert (Hused : used k2 = used k).
  { unfold k2. change (used k1 = used k). unfold k1. by destruct (same_remove (Some p) k0) as (-> & _). }
  exists k2. split_and!.
  - rewrite Hppid, (process_get_ext _ k k2) by done. destruct (process_get (ppid (proc k p)) k); done.
  - apply on_proc_ok; [done|]. by apply map_fdw_ok.
  - unfold k2. change (fd_table_destroy (Some t) (fdw k1) = fd_table_destroy (Some t) (fdw k)). f_equal.
    unfold k1. by destruct (same_remove (Some p) k0) as (_ & -> & _).
  - rewrite (Hk2 _ state _) by done. by rewrite E0.
  - rewrite (Hk2 _ exit_code _) by done. by rewrite E0.
  - unfold k2. rewrite proc_on_proc_eq by done. done.
  - unfold k2. by rewrite (field_on_proc queued).
  - done.
  - done.
  - intros y Hy. rewrite (Hk2 _ state _) by done. unfold k0. by rewrite proc_on_proc_ne.
Qed.
End Terminate.

(** ** Properties *)
Section Properties.
Context {V W : Type} `{EqDecision V} `{VnodeHooks V W}.

(** C33: Delivery takes the lowest-numbered signal that is pending and not
    blocked. If there is none, nothing changes and the result is 0. Otherwise
    exactly its bit of the pending set is cleared and it is ignored, stops or
    kills the process, or enters its handler: then the user context resumes in
    the handler with the signal in its argument register and the interrupted
    program counter stored where the stack pointer now points. [SIGKILL] and
    [SIGSTOP] are never ignored, and [signal_set_action] refuses to change
    their actions. *)
Theorem signal_delivery (k : kernel V W) (resolve : Z -> Z) (cpus p : nat) (ctx : user_context) (act : sigaction) :
  (p < length (procs k))%nat -> is_u32 (signal_pending (proc k p)) ->
  ((forall s, 0 <= s < 32 -> deliverable k p s = false) ->
     signal_deliver_pending resolve cpus (Some p) ctx k = Delivery k ctx None 0) /\
  (forall s : nat, (1 <= s < 32)%nat -> deliverable k p (Z.of_nat s) = true ->
     (forall j, 1 <= j < Z.of_nat s -> deliverable k p j = false) ->
     exists v, (forall i, 0 <= i < 32 -> Z.testbit v i = Z.testbit (signal_pending (proc k p)) i && negb (i =? Z.of_nat s)) /\
       signal_deliver_pending resolve cpus (Some p) ctx k =
       apply_disposition resolve cpus p ctx (Z.of_nat s)
         (disposition_of (Z.of_nat s) (sa_handler (signal_actions (proc k p) !!! s)))
         (on_proc p (set_signal_pending v) k)) /\
  (forall h, disposition_of SIGKILL h <> Ignored /\ disposition_of SIGSTOP h = Stops) /\
  fst (fst (signal_set_action (Some p) SIGKILL (Some act) k)) = k /\
  fst (fst (signal_set_action (Some p) SIGSTOP (Some act) k)) = k.
Proof.
  intros Hp Hu. split_and!; [| | |done..].
  - intros Hn. apply available_zero in Hn; [|done]. unfold signal_deliver_pending. by rewrite Hn, Z.eqb_refl.
  - intros s Hs Hd Hlow.
    exists (signal_pending (proc k p) .& u32 (Z.lnot (signal_bit (Z.of_nat s)))). split.
    + intros i Hi. apply testbit_clear; lia.
    + rewrite (deliver_disposition resolve cpus p ctx k s Hs Hd Hlow).
      rewrite (field_on_proc signal_actions) by done. f_equal.
      unfold on_proc, map_procs. f_equal. apply list_eq. intros i.
      destruct (decide (i = p)) as [->|Hne]; [|by rewrite !list_lookup_alter_ne].
      rewrite !list_lookup_alter_eq. unfold proc. rewrite list_lookup_total_alt.
      by destruct (procs k !! p).
  - intros h. split; [|unfold disposition_of; by destruct (h =? SIG_IGN)].
    unfold disposition_of. destruct (h =? SIG_IGN); simpl; by destruct (h =? SIG_DFL).
Qed.

(** A terminating process releases what it holds. It becomes a zombie
    with its exit code and in no run queue; every slot of its descriptor table
    is closed at once, with the counts of the vnodes (the ends of a pipe
    among them) kept exact and the slots of other tables untouched; and its
    parent has [SIGCHLD] pending and, if it was blocked, runs and is queued. *)
Theorem process_terminate_releases (acct : W -> (V -> Z) -> Prop) `{!VnodeAccounting V W acct} (base : V -> Z)
    (cpus p t parent : nat) (code : Z) (k : kernel V W) :
  (forall v, 0 <= base v) -> (1 <= cpus <= MAX_CPUS)%nat -> sched_ok k -> (p < MAX_PROCESSES)%nat ->
  state (proc k p) <> PROCESS_STATE_ZOMBIE -> fds_of (proc k p) = Some t -> (t < FD_TABLE_POOL_SIZE)%nat ->
  fd_inv acct base (fdw k) -> process_get (ppid (proc k p)) k = Some parent -> parent <> p ->
  let k' := process_terminate cpus (Some p) code k in
  state (proc k' p) = PROCESS_STATE_ZOMBIE /\ exit_code (proc k' p) = code /\ queued (proc k' p) = false /\
  fds_of (proc k' p) = None /\ fd_inv acct base (fdw k') /\
  (forall t' fd, entry_at (fdw k') t' fd = if decide (t' = t) then None else entry_at (fdw k) t' fd) /\
  Z.testbit (signal_pending (proc k' parent)) SIGCHLD = true /\
  (state (proc k parent) = PROCESS_STATE_BLOCKED ->
     state (proc k' parent) = PROCESS_STATE_RUNNING /\ queued (proc k' parent) = true).
Proof.
  intros Hb Hn Hok Hp Hz Ht Htl Hfd Hpar Hne.
  destruct (terminate_steps cpus Hn p code t k Hok Hp Hz Ht) as (k1 & E & Hok1 & Ef & Es & Ec & Eo & Eq & Hu & Hpid & Hst).
  cbv zeta. rewrite E, Hpar.
  assert (Hget : process_get (pid (proc k1 parent)) k1 = Some parent).
  { rewrite (process_get_ext _ k k1), Hpid by done. by rewrite (process_get_pid _ _ _ Hpar). }
  destruct (notify_spec cpus Hn k1 parent Hok1 Hget) as (Nf & Nb & Nw & No).
  destruct (No p) as (-> & -> & -> & ->); [done|].
  rewrite Nf, Ef. destruct (fd_table_destroy_inv acct base Hb t (fdw k) Hfd Htl) as [Hi He].
  split_and!; try done. intros Hbl. apply Nw. by rewrite Hst.
Qed.
End Properties.

(** ** Witnesses *)

(** The parent is blocked; the child owns a table with the two ends of a pipe. *)
Definition demo_family : kernel vref (list pipe) :=
  boot (set_state PROCESS_STATE_BLOCKED (fresh 1 0)
        :: Process 2 1 PROCESS_STATE_RUNNING (Some 0%nat) 0 0 0 false false 0 (replicate 32 default_action) 0x8004 0x4
        :: replicate 30 zero_process)
       (true :: true :: replicate 30 false) demo_sys.

Lemma signal_delivery_witness :
  exists v, (forall i, 0 <= i < 32 -> Z.testbit v i = Z.testbit 0x8004 i && negb (i =? 15)) /\
    dl_result (signal_deliver_pending (fun _ => 0) 1 (Some 1%nat) (UserContext 0 0 0 []) demo_family) = 15.
Proof.
  destruct (signal_delivery demo_family (fun _ => 0) 1 1 (UserContext 0 0 0 []) default_action) as (_ & Hd & _).
  - vm_compute. lia.
  - unfold is_u32. vm_compute. split; congruence.
  - destruct (Hd 15%nat) as (v & Hv & Hr).
    + lia.
    + reflexivity.
    + intros j Hj. assert (Hc : j = 1 \/ j = 2 \/ j = 3 \/ j = 4 \/ j = 5 \/ j = 6 \/ j = 7 \/ j = 8 \/ j = 9 \/ j = 10 \/
        j = 11 \/ j = 12 \/ j = 13 \/ j = 14) by lia. by destruct_or!; subst.
    + exists v. split; [exact Hv|]. rewrite Hr. reflexivity.
Defined.

Lemma demo_sys_inv : fd_inv pipe_acct (file_base (fun _ => 0)) demo_sys.
Proof.
  apply (sys_step_inv (fun _ => 0) ltac:(done) (fd_table_create (sys_init (fun _ => 0))).1).
  - apply (sys_step_inv (fun _ => 0) ltac:(done) (sys_init (fun _ => 0))); [by apply sys_init_inv|apply step_table_create].
  - apply step_pipe. vm_compute. reflexivity.
Qed.

Lemma process_terminate_releases_witness :
  let k' := process_terminate 1 (Some 1%nat) 3 demo_family in
  entry_at (fdw demo_family) 0 1 <> None /\ (forall fd, entry_at (fdw k') 0 fd = None) /\
  state (proc k' 0) = PROCESS_STATE_RUNNING.
Proof.
  assert (Hok : sched_ok demo_family).
  { apply boot_ok; [reflexivity|]. by repeat (apply Forall_cons; split; [done|]). }
  assert (Hb : forall v, 0 <= file_base (fun _ => 0) v) by (by intros []).
  destruct (process_terminate_releases pipe_acct (file_base (fun _ => 0)) 1 1 0 0 3 demo_family) as (_ & _ & _ & _ & _ & He & _ & Hw).
  - exact Hb.
  - unfold MAX_CPUS. lia.
  - exact Hok.
  - unfold MAX_PROCESSES. lia.
  - vm_compute. discriminate.
  - reflexivity.
  - unfold FD_TABLE_POOL_SIZE. lia.
  - exact demo_sys_inv.
  - vm_compute. reflexivity.
  - discriminate.
  - split; [vm_compute; discriminate|]. split.
    + intros fd. rewrite He. reflexivity.
    + apply Hw. reflexivity.
Defined.
