(* ===== verification/Sem.v ===== *)
(** * src/ipc/sem.c: blocking semaphores

    The wait queue is a ring of process pointers. [waits s l] relates it to
    the list of waiting processes, oldest first. A failed [KASSERT] stops the
    kernel and is [None]. *)
From Stdlib Require Import ZifyNat.
From S2P Require Import Prelude Fd Proc Sched Signal.

Record sem := Sem {
  sem_value : Z;
  sem_waiters : Z;
  wait_queue : list (option nat);
  wait_head : nat;
  wait_tail : nat;
  wait_count : nat
}.

(** ** Definitions *)
Section Sem.
Context {V W : Type} `{EqDecision V} `{VnodeHooks V W}.
Implicit Types (k : kernel V W).

Definition sem_init (value : Z) : option sem :=
  if 0 <=? value then Some (Sem value 0 (replicate MAX_PROCESSES None) 0 0 0) else None.

(** [wrap i] is [i++; if (i >= MAX_PROCESSES) i = 0]. *)
Definition wrap (i : nat) : nat := if (MAX_PROCESSES <=? S i)%nat then O else S i.

(** The caller's identity stands for [block_reason], the address of the
    semaphore. The call returns once the process is scheduled again; here it
    ends at the switch to another process. *)
Definition sem_acquire (cpu : nat) (addr : Z) (s : sem) k : option (sem * kernel V W) :=
  if 0 <? sem_value s then Some (Sem (sem_value s - 1) (sem_waiters s) (wait_queue s) (wait_head s) (wait_tail s) (wait_count s), k)
  else
    match process_get_current cpu k with
    | None => None
    | Some c =>
        if (wait_count s <? MAX_PROCESSES)%nat then
          let s' := Sem (sem_value s) (Z.of_nat (S (wait_count s))) (<[wait_tail s := Some c]> (wait_queue s))
                        (wait_head s) (wrap (wait_tail s)) (S (wait_count s)) in
          let k := on_proc c (fun x => set_state PROCESS_STATE_BLOCKED (set_block_reason addr x)) k in
          Some (s', scheduler_yield cpu k)
        else None
    end.

Definition sem_release (cpus : nat) (s : sem) k : sem * kernel V W :=
  if (0 <? wait_count s)%nat then
    let p := mjoin (wait_queue s !! wait_head s) in
    let s' := Sem (sem_value s) (Z.of_nat (wait_count s - 1)) (<[wait_head s := None]> (wait_queue s))
                  (wrap (wait_head s)) (wait_tail s) (wait_count s - 1) in
    (s', scheduler_wake cpus p k)
  else (Sem (s32 (sem_value s + 1)) (sem_waiters s) (wait_queue s) (wait_head s) (wait_tail s) (wait_count s), k).
End Sem.

(** ** The wait queue as a list *)
Definition ring_at (s : sem) (i : nat) : option nat := mjoin (wait_queue s !! ((wait_head s + i) mod MAX_PROCESSES)%nat).

Record waits (s : sem) (l : list nat) : Prop := {
  wt_len : length (wait_queue s) = MAX_PROCESSES;
  wt_head : (wait_head s < MAX_PROCESSES)%nat;
  wt_count : wait_count s = length l;
  wt_tail : wait_tail s = ((wait_head s + length l) mod MAX_PROCESSES)%nat;
  wt_room : (length l <= MAX_PROCESSES)%nat;
  wt_at : forall i, ring_at s i = l !! i \/ (length l <= i)%nat;
  wt_waiters : sem_waiters s = Z.of_nat (length l);
  wt_value : 0 <= sem_value s /\ (l <> [] -> sem_value s = 0)
}.

(** Projections of a literal semaphore. *)
Ltac sem_simpl := cbn [sem_value sem_waiters wait_queue wait_head wait_tail wait_count length app].

Section Ring.
Lemma wrap_mod i : (i < MAX_PROCESSES)%nat -> wrap i = (S i mod MAX_PROCESSES)%nat.
Proof. intros Hi. unfold wrap. by apply (next_mod MAX_PROCESSES i). Qed.

Lemma ring_index_inj h i j :
  (i < MAX_PROCESSES)%nat -> (j < MAX_PROCESSES)%nat ->
  ((h + i) mod MAX_PROCESSES = (h + j) mod MAX_PROCESSES)%nat -> i = j.
Proof. unfold MAX_PROCESSES. intros Hi Hj E. ndlia. Qed.

Lemma ring_next h n : (S ((h + n) mod MAX_PROCESSES) mod MAX_PROCESSES = (h + (n + 1)) mod MAX_PROCESSES)%nat.
Proof. unfold MAX_PROCESSES. ndlia. Qed.

Lemma ring_shift h n : ((h + S n) mod MAX_PROCESSES = (S h mod MAX_PROCESSES + n) mod MAX_PROCESSES)%nat.
Proof. unfold MAX_PROCESSES. ndlia. Qed.

Lemma ring_push s l c :
  waits s l -> (length l < MAX_PROCESSES)%nat -> sem_value s = 0 ->
  waits (Sem (sem_value s) (Z.of_nat (S (wait_count s))) (<[wait_tail s := Some c]> (wait_queue s))
             (wait_head s) (wrap (wait_tail s)) (S (wait_count s))) (l ++ [c]).
Proof.
  intros [L Hh Hc Ht Hr Ha Hw Hv] Hroom H0.
  assert (Htl : (wait_tail s < MAX_PROCESSES)%nat) by (rewrite Ht; apply Nat.mod_upper_bound; done).
  split; sem_simpl; rewrite ?length_insert, ?length_app; sem_simpl; try done; try lia.
  - rewrite wrap_mod by done. rewrite Ht. apply ring_next.
  - intros i. destruct (decide (length l + 1 <= i)%nat) as [|Hlt]; [right; lia|left].
    unfold ring_at. sem_simpl. destruct (decide (i = length l)) as [->|Hne].
    + rewrite <- Ht, list_lookup_insert_eq by lia. simpl. by rewrite lookup_app_r, Nat.sub_diag by lia.
    + rewrite list_lookup_insert_ne.
      * destruct (Ha i) as [E|]; [|lia]. unfold ring_at in E. rewrite E, lookup_app_l by lia. done.
      * rewrite Ht. intros E. apply ring_index_inj in E; [done| |]; lia.
Qed.

Lemma ring_pop s p l :
  waits s (p :: l) ->
  mjoin (wait_queue s !! wait_head s) = Some p /\
  waits (Sem (sem_value s) (Z.of_nat (wait_count s - 1)) (<[wait_head s := None]> (wait_queue s))
             (wrap (wait_head s)) (wait_tail s) (wait_count s - 1)) l.
Proof.
  intros [L Hh Hc Ht Hr Ha Hw Hv]. simpl length in *. split.
  - destruct (Ha O) as [E|]; [|lia]. unfold ring_at in E. rewrite Nat.add_0_r, Nat.mod_small in E by done. done.
  - split; sem_simpl; rewrite ?length_insert; try done; try lia.
    + rewrite wrap_mod by done. apply Nat.mod_upper_bound. done.
    + rewrite Ht, wrap_mod by done. apply ring_shift.
    + intros i. destruct (decide (length l <= i)%nat) as [|Hlt]; [by right|left].
      unfold ring_at. sem_simpl. destruct (Ha (S i)) as [E|]; [|lia]. unfold ring_at in E. change ((p :: l) !! S i) with (l !! i) in E.
      rewrite wrap_mod by done. rewrite Nat.Div0.add_mod_idemp_l.
      replace (S (wait_head s) + i)%nat with (wait_head s + S i)%nat by lia.
      rewrite list_lookup_insert_ne; [done|]. intros E'.
      assert (S i = O); [|done]. apply (ring_index_inj (wait_head s)); [lia..|].
      rewrite Nat.add_0_r, (Nat.mod_small (wait_head s)) by done. done.
    + destruct Hv as [Hv1 Hv2]. split; [done|]. intros _. by apply Hv2.
Qed.
End Ring.

(** ** Properties *)
Section Properties.
Context {V W : Type} `{EqDecision V} `{VnodeHooks V W}.

(** C34: The semaphore is a counter with a first-in first-out queue. An
    initialised semaphore has its permits and no waiter. [sem_acquire] takes a
    permit when there is one, and otherwise appends the caller to the queue,
    marks it blocked and switches away; it does not fail as long as the
    waiters are distinct processes that do not include the caller. [sem_release] hands the permit
    to the process that has waited longest, which is woken without the count
    changing, and adds a permit only when nobody waits. A waiter that a signal
    has woken in the meantime is still in the queue: the permit handed to it
    changes no process and is lost. *)
Theorem sem_fifo (cpus cpu c : nat) (addr : Z) (s : sem) (l : list nat) (k : kernel V W) :
  waits s l -> NoDup l -> (forall p, p ∈ l -> (p < MAX_PROCESSES)%nat) ->
  current k cpu = Some c -> (c < MAX_PROCESSES)%nat -> c ∉ l -> sem_value s < 2 ^ 31 - 1 ->
  (exists s' k', sem_acquire cpu addr s k = Some (s', k') /\
     if 0 <? sem_value s then waits s' l /\ sem_value s' = sem_value s - 1 /\ k' = k
     else waits s' (l ++ [c]) /\
       k' = scheduler_yield cpu (on_proc c (fun x => set_state PROCESS_STATE_BLOCKED (set_block_reason addr x)) k)) /\
  match l with
  | [] => exists s', sem_release cpus s k = (s', k) /\ waits s' [] /\ sem_value s' = sem_value s + 1
  | p :: l' => exists s', sem_release cpus s k = (s', scheduler_wake cpus (Some p) k) /\ waits s' l' /\ sem_value s' = 0 /\
      (state (proc k p) <> PROCESS_STATE_BLOCKED -> scheduler_wake cpus (Some p) k = k)
  end.
Proof.
  intros Hw Hnd Hin Hcur Hc Hcl Hb. pose proof Hw as [L Hh Hcnt Ht Hr Ha Hwt Hv]. split.
  - unfold sem_acquire. destruct (Z.ltb_spec 0 (sem_value s)) as [Hpos|Hneg].
    + eexists _, _. split; [done|]. split_and!; [|done|done].
      assert (l = []) as -> by (destruct l; [done|]; destruct Hv as [_ Hv]; specialize (Hv ltac:(done)); lia).
      split; simpl; try done. split; [lia|done].
    + unfold process_get_current. rewrite Hcur.
      assert (Hroom : (length l < MAX_PROCESSES)%nat).
      { assert (Hlen : (length (c :: l) <= length (seq 0 MAX_PROCESSES))%nat).
        { apply submseteq_length, NoDup_submseteq; [by apply NoDup_cons|].
          intros x [->|Hx]%elem_of_cons; apply elem_of_seq; [lia|]. specialize (Hin x Hx). lia. }
        rewrite length_seq in Hlen. simpl in Hlen. lia. }
      rewrite Hcnt, (proj2 (Nat.ltb_lt _ _)) by done. eexists _, _. split; [done|]. split; [|done].
      rewrite <- Hcnt. apply ring_push; [done..|lia].
  - unfold sem_release. destruct l as [|p l]; simpl length in *.
    + rewrite Hcnt. simpl. eexists. split; [done|]. split.
      * rewrite s32_small by lia. split; simpl; try done. split; [lia|done].
      * simpl. apply s32_small. lia.
    + rewrite (proj2 (Nat.ltb_lt _ _)) by lia. destruct (ring_pop s p l Hw) as [-> Hp].
      eexists. split; [done|]. split; [done|]. split; [simpl; by apply Hv|].
      intros Hs. unfold scheduler_wake. by rewrite (proj2 (Z.eqb_neq _ _)).
Qed.

End Properties.

(** ** Witness *)

(** Processor 0 runs process 0, and process 1 already waits. *)
Definition demo_sem : sem := Sem 0 1 (<[31%nat := Some 1%nat]> (replicate MAX_PROCESSES None)) 31 0 1.

Lemma demo_sem_waits : waits demo_sem [1%nat].
Proof.
  split; try (vm_compute; reflexivity || lia).
  - intros [|i]; [by left|right; simpl; lia].
  - by split.
Qed.

Lemma sem_fifo_witness :
  exists s' k', sem_acquire 0 7 demo_sem demo_running = Some (s', k') /\ waits s' [1; 0]%nat.
Proof.
  destruct (sem_fifo 2 0 0 7 demo_sem [1%nat] demo_running demo_sem_waits) as [(s' & k' & Ha & Hw) _].
  - apply NoDup_singleton.
  - intros p ->%list_elem_of_singleton. unfold MAX_PROCESSES. lia.
  - vm_compute. reflexivity.
  - unfold MAX_PROCESSES. lia.
  - by intros ?%list_elem_of_singleton.
  - vm_compute. reflexivity.
  - exists s', k'. split; [exact Ha|]. apply Hw.
Defined.
