(* ===== verification/Vmm.v ===== *)
(** * src/mm/vmm.c and src/kernel/userptr.c: address spaces

    Thirty-two address-space slots with their lists of mappings, the kernel
    context, the context current on each processor, copy on write, page
    faults and the copies between kernel and user memory.

    A [struct vmm_context*] is [KernelCtx] or [SlotCtx i] (the context inside
    slot [i]); NULL is [None]. The array [mappings] with [mapping_count] is
    the list of its valid prefix. Frames are those of Pmm.v; physical memory,
    which the kernel maps one to one, is the byte array [ram]. The page-table
    code of an architecture (include/hal/paging.h) is the class [PagingOps],
    and what vmm.c relies on is the class [Paging]. The process that runs on
    the executing processor is the field [running], with the fields the fault
    handler uses. *)
From S2P Require Import Prelude Pmm.
Open Scope tach_scope.

(** ** src/kernel/userptr.c *)
Definition KERNEL_BASE : Z := 0x100000.
Definition USER_SPACE_START : Z := 0x400000.
Definition USER_SPACE_END : Z := 0x7FFFFFFFFFFF.

Definition is_valid_user_range (addr size : Z) : bool :=
  if addr =? 0 then false
  else if (0 <? size) && (u64 (addr + size) <? addr) then false
  else if (addr <? USER_SPACE_START) || (USER_SPACE_END <=? addr) then false
  else if 0 <? size then
    let end_addr := u64 (addr + size - 1) in
    negb ((end_addr <? USER_SPACE_START) || (USER_SPACE_END <=? end_addr))
  else true.

Definition in_kernel (addr : Z) : bool :=
  ((KERNEL_BASE <=? addr) && (addr <? USER_SPACE_START)) || (USER_SPACE_END <=? addr).

Definition is_valid_kernel_range (addr size : Z) : bool :=
  if addr =? 0 then false
  else if (0 <? size) && (u64 (addr + size) <? addr) then false
  else if negb (in_kernel addr) then false
  else if 0 <? size then in_kernel (u64 (addr + size - 1))
  else true.

(** ** Data *)
Definition VMM_MAX_CONTEXTS : nat := 32.
Definition VMM_MAX_MAPPINGS : nat := 512.
Definition MAX_CPUS : nat := 256.
Definition VMM_DYNAMIC_BASE : Z := 0x4000000000.
Definition PROCESS_USER_STACK_MAX : Z := 8 * 1024 * 1024.

Definition VMM_PRESENT : Z := 1 .<< 0.
Definition VMM_WRITABLE : Z := 1 .<< 1.
Definition VMM_USER : Z := 1 .<< 2.
Definition VMM_NOCACHE : Z := 1 .<< 3.
Definition VMM_EXECUTABLE : Z := 1 .<< 4.
Definition VMM_COW : Z := 1 .<< 5.

(** The C test [flags & mask]. *)
Definition has (flags mask : Z) : bool := negb (flags .& mask =? 0).

(** [address & ~(uintptr_t)(PAGE_SIZE - 1)]. *)
Definition page_of (address : Z) : Z := address .& Z.lnot (PAGE_SIZE - 1).

Record mapping := Mapping { virt : Z; phys : Z; flags : Z; owned : bool }.
Record context := Context { page_table : Z; owner : Z; next_free : Z }.
Record slot := Slot { used : bool; s_context : context; mappings : list mapping }.

Definition zero_slot : slot := Slot false (Context 0 0 0) [].
#[export] Instance mapping_inhabited : Inhabited mapping := populate (Mapping 0 0 0 false).
#[export] Instance slot_inhabited : Inhabited slot := populate zero_slot.

Definition set_flags v m := Mapping (virt m) (phys m) v (owned m).
Definition set_owned v m := Mapping (virt m) (phys m) (flags m) v.
Definition set_next_free v c := Context (page_table c) (owner c) v.
Definition map_mappings f s := Slot (used s) (s_context s) (f (mappings s)).
Definition map_context f s := Slot (used s) (f (s_context s)) (mappings s).

Inductive cref := KernelCtx | SlotCtx (i : nat).
#[export] Instance cref_eq_dec : EqDecision cref.
Proof. solve_decision. Defined.
#[export] Instance cref_inhabited : Inhabited cref := populate KernelCtx.

(** What the fault handler reads and writes of [struct process]. *)
Record uproc := Uproc {
  user_mode : bool;
  mm : option cref;
  user_stack_top : Z;
  user_stack_bottom : Z;
  brk_start : Z;
  brk_end : Z
}.
Definition set_stack_bottom v u := Uproc (user_mode u) (mm u) (user_stack_top u) v (brk_start u) (brk_end u).

(** ** The architecture's page tables (include/hal/paging.h)

    [T] is the state of the page tables. Creating a root and mapping a page
    take frames for tables from the allocator. Results are C [int]s, roots
    are addresses with 0 for NULL. *)
Class PagingOps (T : Type) := {
  arch_paging_init : T -> T * Z;
  arch_paging_kernel_root : T -> Z;
  arch_paging_create_root : T -> pmm -> T * pmm * Z;
  arch_paging_destroy_root : Z -> T -> pmm -> T * pmm;
  arch_paging_map : Z -> Z -> Z -> Z -> T -> pmm -> T * pmm * Z;
  arch_paging_unmap : Z -> Z -> T -> T * Z
}.

(** Copying and filling physical memory. *)
Definition mem_fill (ram : Z -> Z) (a n v : Z) : Z -> Z :=
  fun x => if (a <=? x) && (x <? a + n) then v else ram x.
Definition mem_copy (ram : Z -> Z) (dst src n : Z) : Z -> Z :=
  fun x => if (dst <=? x) && (x <? dst + n) then ram (src + (x - dst)) else ram x.
Definition mem_store (ram : Z -> Z) (a : Z) (bs : list Z) : Z -> Z :=
  fun x => if (a <=? x) && (x <? a + Z.of_nat (length bs)) then bs !!! Z.to_nat (x - a) else ram x.
Definition mem_load (ram : Z -> Z) (a n : Z) : list Z :=
  (fun k => ram (a + Z.of_nat k)) <$> seq 0 (Z.to_nat n).

Section Vmm.
Context {T : Type} `{PagingOps T}.

Record vmm := Vmm {
  g_kernel_context : context;
  g_slots : list slot;
  g_current_context : list cref;
  cr3 : list Z;
  tables : T;
  frames : pmm;
  ram : Z -> Z;
  running : option uproc
}.

Definition set_kernel_context v st := Vmm v (g_slots st) (g_current_context st) (cr3 st) (tables st) (frames st) (ram st) (running st).
Definition set_slots v st := Vmm (g_kernel_context st) v (g_current_context st) (cr3 st) (tables st) (frames st) (ram st) (running st).
Definition set_current c r st := Vmm (g_kernel_context st) (g_slots st) c r (tables st) (frames st) (ram st) (running st).
Definition set_pages t p st := Vmm (g_kernel_context st) (g_slots st) (g_current_context st) (cr3 st) t p (ram st) (running st).
Definition set_frames p st := set_pages (tables st) p st.
Definition set_ram r st := Vmm (g_kernel_context st) (g_slots st) (g_current_context st) (cr3 st) (tables st) (frames st) r (running st).
Definition set_running v st := Vmm (g_kernel_context st) (g_slots st) (g_current_context st) (cr3 st) (tables st) (frames st) (ram st) v.

Definition the_slot (st : vmm) (i : nat) : slot := g_slots st !!! i.
Definition on_slot (i : nat) (f : slot -> slot) (st : vmm) : vmm := set_slots (alter f i (g_slots st)) st.

(** [*context] and its assignment. *)
Definition ctx (st : vmm) (c : cref) : context :=
  match c with KernelCtx => g_kernel_context st | SlotCtx i => s_context (the_slot st i) end.
Definition on_ctx (c : cref) (f : context -> context) (st : vmm) : vmm :=
  match c with
  | KernelCtx => set_kernel_context (f (g_kernel_context st)) st
  | SlotCtx i => on_slot i (map_context f) st
  end.

(** Calls into the allocator and the page tables. *)
Definition alloc_frame (st : vmm) : vmm * Z :=
  let '(p, a) := pmm_alloc_frame (frames st) in (set_frames p st, a).
Definition retain_frame (a : Z) (st : vmm) : vmm * bool :=
  let '(p, ok) := pmm_retain_frame a (frames st) in (set_frames p st, ok).
Definition free_frame (a : Z) (st : vmm) : vmm := set_frames (pmm_free_frame a (frames st)) st.
Definition paging_map (root v p fl : Z) (st : vmm) : vmm * Z :=
  let '(t, fr, r) := arch_paging_map root v p fl (tables st) (frames st) in (set_pages t fr st, r).
Definition paging_unmap (root v : Z) (st : vmm) : vmm * Z :=
  let '(t, r) := arch_paging_unmap root v (tables st) in (set_pages t (frames st) st, r).

(** ** Operations *)
Definition cref_eqb (c d : cref) : bool := bool_decide (c = d).

Definition slot_for (st : vmm) (c : cref) : option nat :=
  find_from (fun i => used (the_slot st i) && cref_eqb (SlotCtx i) c) 0 VMM_MAX_CONTEXTS.

(** A [struct vmm_mapping*]: the slot and the index in its array. *)
Definition mapping_at (st : vmm) (m : nat * nat) : mapping := mappings (the_slot st m.1) !!! m.2.
Definition on_mapping (m : nat * nat) (f : mapping -> mapping) : vmm -> vmm :=
  on_slot m.1 (map_mappings (alter f m.2)).

Definition find_mapping (st : vmm) (s : option nat) (v : Z) : option (nat * nat) :=
  match s with
  | None => None
  | Some i =>
      let v := page_of v in
      let ms := mappings (the_slot st i) in
      match find_from (fun j => virt (ms !!! j) =? v) 0 (length ms) with
      | Some j => Some (i, j)
      | None => None
      end
  end.

Definition vmm_init (st : vmm) : vmm :=
  let '(t, r) := arch_paging_init (tables st) in
  let root := if r =? 0 then arch_paging_kernel_root t else 0 in
  let st := set_pages t (frames st) st in
  let st := set_slots (replicate VMM_MAX_CONTEXTS zero_slot) st in
  let st := set_kernel_context (Context root 0 VMM_DYNAMIC_BASE) st in
  set_current (replicate MAX_CPUS KernelCtx) (cr3 st) st.

Definition vmm_create_context (st : vmm) : vmm * option cref :=
  match find_from (fun i => negb (used (the_slot st i))) 0 VMM_MAX_CONTEXTS with
  | None => (st, None)
  | Some i =>
      let '(t, p, root) := arch_paging_create_root (tables st) (frames st) in
      let st := set_pages t p st in
      if root =? 0 then (st, None)
      else (on_slot i (fun _ => Slot true (Context root 0 VMM_DYNAMIC_BASE) []) st, Some (SlotCtx i))
  end.

(** The loop of [vmm_destroy_context] over the mappings. *)
Definition release_mapping (root : Z) (m : mapping) (st : vmm) : vmm :=
  let st := (paging_unmap root (virt m) st).1 in
  if owned m then free_frame (phys m) st else st.

Definition vmm_destroy_context (c : cref) (st : vmm) : vmm :=
  match slot_for st c with
  | None => st
  | Some i =>
      if existsb (cref_eqb c) (g_current_context st) then st
      else
        let root := page_table (ctx st c) in
        let st := fold_left (fun st m => release_mapping root m st) (mappings (the_slot st i)) st in
        let '(t, p) := arch_paging_destroy_root root (tables st) (frames st) in
        on_slot i (fun _ => zero_slot) (set_pages t p st)
  end.

(** [cpu] is [hal_smp_current_cpu()]; loading the root register is
    [arch_paging_switch]. *)
Definition vmm_switch_context (cpu : nat) (c : option cref) (st : vmm) : vmm :=
  let c := default KernelCtx c in
  if cref_eqb c (g_current_context st !!! cpu) || (page_table (ctx st c) =? 0) then st
  else set_current (<[cpu := c]> (g_current_context st)) (<[cpu := page_table (ctx st c)]> (cr3 st)) st.

Definition vmm_map (c : option cref) (v p fl : Z) (st : vmm) : vmm * Z :=
  match c with
  | None => (st, - EINVAL)
  | Some c =>
      if (page_table (ctx st c) =? 0) || (v =? 0) || has v (PAGE_SIZE - 1) || has p (PAGE_SIZE - 1)
      then (st, - EINVAL)
      else
        let s := slot_for st c in
        let m := find_mapping st s v in
        let full := match m, s with
                    | None, Some i => (VMM_MAX_MAPPINGS <=? length (mappings (the_slot st i)))%nat
                    | _, _ => false
                    end in
        if full then (st, - ENOSPC)
        else
          let '(st, r) := paging_map (page_table (ctx st c)) v p (fl .| VMM_PRESENT) st in
          if r <? 0 then (st, r)
          else
            match s, m with
            | None, _ => (st, 0)
            | Some i, None =>
                (on_slot i (map_mappings (fun l => l ++ [Mapping v p (fl .| VMM_PRESENT) false])) st, 0)
            | Some i, Some m =>
                (on_mapping m (fun x => Mapping (virt x) p (fl .| VMM_PRESENT) (owned x)) st, 0)
            end
  end.

(** The result, and [*physical_out] when it is 0. *)
Definition vmm_map_allocated (c : option cref) (v fl : Z) (st : vmm) : vmm * Z * Z :=
  let '(st, physical) := alloc_frame st in
  if physical =? 0 then (st, - ENOMEM, 0)
  else
    let st := set_ram (mem_fill (ram st) physical PAGE_SIZE 0) st in
    let '(st, r) := vmm_map c v physical fl st in
    if r <? 0 then (free_frame physical st, r, 0)
    else
      let m := match c with Some c => find_mapping st (slot_for st c) v | None => None end in
      let st := match m with Some m => on_mapping m (set_owned true) st | None => st end in
      (st, 0, physical).

(** One round of the loop of [vmm_clone_context]: [false] is [goto rollback]. *)
Definition share_mapping (source clone : nat) (i : nat) (st : vmm) : vmm * bool :=
  let root := page_table (s_context (the_slot st source)) in
  let m := mapping_at st (source, i) in
  let cow := owned m && has (flags m) (VMM_WRITABLE .| VMM_COW) in
  let shared_flags := if cow then (flags m .& Z.lnot VMM_WRITABLE) .| VMM_COW else flags m in
  let '(st, ok) :=
    if cow then
      let '(st, protected) := paging_map root (virt m) (phys m) shared_flags st in
      if protected <? 0 then (st, false)
      else (on_mapping (source, i) (set_flags (shared_flags .| VMM_PRESENT)) st, true)
    else (st, true) in
  if negb ok then (st, false)
  else
    let '(st, ok) := if owned m then retain_frame (phys m) st else (st, true) in
    if negb ok then (st, false)
    else
      let '(st, r) := vmm_map (Some (SlotCtx clone)) (virt m) (phys m) shared_flags st in
      if r <? 0 then (if owned m then free_frame (phys m) st else st, false)
      else
        match find_mapping st (slot_for st (SlotCtx clone)) (virt m) with
        | Some child => (on_mapping child (set_owned (owned m)) st, true)
        | None => (st, true)
        end.

Fixpoint share_loop (source clone : nat) (n i : nat) (st : vmm) : vmm * bool :=
  match n with
  | O => (st, true)
  | S n' =>
      let '(st, ok) := share_mapping source clone i st in
      if ok then share_loop source clone n' (S i) st else (st, false)
  end.

(** The loop at [rollback]: [i] counts [original_flags]. *)
Fixpoint restore_loop (source : nat) (original_flags : list Z) (i : nat) (st : vmm) : vmm :=
  match original_flags with
  | [] => st
  | f :: rest =>
      let m := mapping_at st (source, i) in
      let st := if flags m =? f then st
                else
                  let st := (paging_map (page_table (s_context (the_slot st source))) (virt m) (phys m) f st).1 in
                  on_mapping (source, i) (set_flags f) st in
      restore_loop source rest (S i) st
  end.

Definition vmm_clone_context (source : option cref) (st : vmm) : vmm * option cref :=
  match source with
  | None => (st, None)
  | Some src =>
      let '(st, clone) := vmm_create_context st in
      match clone with
      | None | Some KernelCtx => (st, None)
      | Some (SlotCtx c) =>
          match slot_for st src with
          | None => (st, Some (SlotCtx c))
          | Some s =>
              let original_flags := flags <$> mappings (the_slot st s) in
              let '(st, ok) := share_loop s c (length original_flags) 0 st in
              if ok then (on_ctx (SlotCtx c) (set_next_free (next_free (ctx st src))) st, Some (SlotCtx c))
              else (vmm_destroy_context (SlotCtx c) (restore_loop s original_flags 0 st), None)
          end
      end
  end.

Definition break_cow (c : cref) (page : Z) (st : vmm) : vmm * Z :=
  match find_mapping st (slot_for st c) page with
  | None => (st, - EACCES)
  | Some i =>
      let m := mapping_at st i in
      if negb (has (flags m) VMM_COW) || negb (owned m) then (st, - EACCES)
      else
        let writable := (flags m .| VMM_WRITABLE) .& Z.lnot VMM_COW in
        let root := page_table (ctx st c) in
        if pmm_frame_refcount (phys m) (frames st) =? 1 then
          let '(st, r) := paging_map root page (phys m) writable st in
          if r <? 0 then (st, r)
          else (on_mapping i (set_flags (writable .| VMM_PRESENT)) st, 0)
        else
          let '(st, replacement) := alloc_frame st in
          if replacement =? 0 then (st, - ENOMEM)
          else
            let st := set_ram (mem_copy (ram st) replacement (phys m) PAGE_SIZE) st in
            let '(st, r) := paging_map root page replacement writable st in
            if r <? 0 then (free_frame replacement st, r)
            else
              let st := on_mapping i (fun x => Mapping (virt x) replacement (writable .| VMM_PRESENT) (owned x)) st in
              (free_frame (phys m) st, 0)
  end.

Definition vmm_unmap (c : option cref) (v : Z) (st : vmm) : vmm * Z :=
  match c with
  | None => (st, - EINVAL)
  | Some c =>
      if (v =? 0) || has v (PAGE_SIZE - 1) then (st, - EINVAL)
      else
        let '(st, r) := paging_unmap (page_table (ctx st c)) v st in
        if r <? 0 then (st, r)
        else
          match slot_for st c with
          | None => (st, 0)
          | Some i =>
              let ms := mappings (the_slot st i) in
              match find_from (fun j => virt (ms !!! j) =? v) 0 (length ms) with
              | None => (st, 0)
              | Some j =>
                  let st := if owned (ms !!! j) then free_frame (phys (ms !!! j)) st else st in
                  let last := pred (length ms) in
                  (on_slot i (map_mappings (fun l => take last (<[j := ms !!! last]> l))) st, 0)
              end
          end
  end.

Definition vmm_free_page (c : option cref) (v : Z) (st : vmm) : vmm := (vmm_unmap c v st).1.

Definition vmm_resolve (st : vmm) (c : cref) (address : Z) : Z :=
  match find_mapping st (slot_for st c) address with
  | None => 0
  | Some m => phys (mapping_at st m) + address .& (PAGE_SIZE - 1)
  end.

Definition vmm_get_flags (st : vmm) (c : cref) (address : Z) : Z :=
  match find_mapping st (slot_for st c) address with
  | None => 0
  | Some m => flags (mapping_at st m)
  end.

(** The search loop of [vmm_alloc_page]. *)
Fixpoint next_unmapped (fuel : nat) (st : vmm) (c : cref) (v : Z) : option Z :=
  match fuel with
  | O => None
  | S fuel' => if vmm_resolve st c v =? 0 then Some v else next_unmapped fuel' st c (u64 (v + PAGE_SIZE))
  end.

Definition vmm_alloc_page (fuel : nat) (c : option cref) (fl : Z) (st : vmm) : option (vmm * Z) :=
  match c with
  | None => Some (st, 0)
  | Some c =>
      match next_unmapped fuel st c (page_of (u64 (next_free (ctx st c) + PAGE_SIZE - 1))) with
      | None => None
      | Some v =>
          let '(st, r, _) := vmm_map_allocated (Some c) v fl st in
          if r <? 0 then Some (st, 0)
          else Some (on_ctx c (set_next_free (u64 (v + PAGE_SIZE))) st, v)
      end
  end.

Definition vmm_protect (c : option cref) (address fl : Z) (st : vmm) : vmm * Z :=
  match c with
  | None => (st, - EINVAL)
  | Some c =>
      if address =? 0 then (st, - EINVAL)
      else
        let page := page_of address in
        match find_mapping st (slot_for st c) page with
        | None => (st, - ENOENT)
        | Some m =>
            let '(st', r) := paging_map (page_table (ctx st c)) page (phys (mapping_at st m)) (fl .| VMM_PRESENT) st in
            if r <? 0 then (st', r)
            else (on_mapping m (set_flags (fl .| VMM_PRESENT)) st', 0)
        end
  end.

Definition vmm_handle_fault (address : Z) (is_write : bool) (st : vmm) : vmm * Z :=
  match running st with
  | None => (st, - EFAULT)
  | Some process =>
      match user_mode process, mm process with
      | true, Some c =>
          let page := page_of address in
          if negb (vmm_resolve st c page =? 0) then
            let fl := vmm_get_flags st c page in
            if is_write && has fl VMM_COW then break_cow c page st
            else if is_write && negb (has fl VMM_WRITABLE) then (st, - EACCES)
            else (st, 0)
          else
            let stack_limit := u64 (user_stack_top process - PROCESS_USER_STACK_MAX) in
            if (page <? user_stack_bottom process) && (stack_limit <=? page) &&
               (u64 (page + PAGE_SIZE) =? user_stack_bottom process) then
              let '(st, r, _) := vmm_map_allocated (Some c) page (VMM_USER .| VMM_WRITABLE) st in
              if r <? 0 then (st, r)
              else (set_running (Some (set_stack_bottom page process)) st, 0)
            else if (brk_start process <=? page) && (address <? brk_end process) then
              (vmm_map_allocated (Some c) page (VMM_USER .| VMM_WRITABLE) st).1
            else (st, - EFAULT)
      | _, _ => (st, - EFAULT)
      end
  end.

(** One page of [copy_user_range]: the fault, the permission checks and the
    physical address, or an error. *)
Definition user_page (c : cref) (user_address : Z) (to_user : bool) (st : vmm) : vmm * (Z + Z) :=
  let st := (vmm_handle_fault user_address to_user st).1 in
  let fl := vmm_get_flags st c user_address in
  let '(st, r) := if to_user && has fl VMM_COW then break_cow c (page_of user_address) st else (st, 0) in
  if r <? 0 then (st, inl r)
  else
    let fl := vmm_get_flags st c user_address in
    if negb (has fl VMM_USER) || (to_user && negb (has fl VMM_WRITABLE)) then (st, inl (- EFAULT))
    else
      let physical := vmm_resolve st c user_address in
      if physical =? 0 then (st, inl (- EFAULT)) else (st, inr physical).

Definition chunk_of (user_address size : Z) : Z :=
  let chunk := PAGE_SIZE - user_address .& (PAGE_SIZE - 1) in
  if size <? chunk then size else chunk.

(** The loop of [copy_user_range] in its two directions. A copy to the user
    consumes [input]; a copy from the user extends [output]. *)
Fixpoint copy_out (fuel : nat) (c : cref) (address : Z) (input : list Z) (st : vmm) : option (vmm * Z) :=
  match fuel with
  | O => None
  | S fuel' =>
      let size := Z.of_nat (length input) in
      if size =? 0 then Some (st, 0)
      else
        match user_page c address true st with
        | (st, inl r) => Some (st, r)
        | (st, inr physical) =>
            let chunk := chunk_of address size in
            let st := set_ram (mem_store (ram st) physical (take (Z.to_nat chunk) input)) st in
            copy_out fuel' c (u64 (address + chunk)) (drop (Z.to_nat chunk) input) st
        end
  end.

Fixpoint copy_in (fuel : nat) (c : cref) (address size : Z) (output : list Z) (st : vmm)
    : option (vmm * Z * list Z) :=
  match fuel with
  | O => None
  | S fuel' =>
      if size =? 0 then Some (st, 0, output)
      else
        match user_page c address false st with
        | (st, inl r) => Some (st, r, output)
        | (st, inr physical) =>
            let chunk := chunk_of address size in
            copy_in fuel' c (u64 (address + chunk)) (size - chunk)
                    (output ++ mem_load (ram st) physical chunk) st
        end
  end.

(** [kernel_null]: the kernel's pointer is NULL. *)
Definition vmm_copy_from_user (fuel : nat) (kernel_null : bool) (c : option cref) (source size : Z) (st : vmm)
    : option (vmm * Z * list Z) :=
  match c with
  | None => Some (st, - EFAULT, [])
  | Some c =>
      if (kernel_null && negb (size =? 0)) || ((source =? 0) && negb (size =? 0)) then Some (st, - EFAULT, [])
      else if (0 <? size) && negb (is_valid_user_range source size) then Some (st, - EFAULT, [])
      else copy_in fuel c source size [] st
  end.

Definition vmm_copy_to_user (fuel : nat) (kernel_null : bool) (c : option cref) (destination : Z)
    (input : list Z) (st : vmm) : option (vmm * Z) :=
  let size := Z.of_nat (length input) in
  match c with
  | None => Some (st, - EFAULT)
  | Some c =>
      if ((destination =? 0) && negb (size =? 0)) || (kernel_null && negb (size =? 0)) then Some (st, - EFAULT)
      else if (0 <? size) && negb (is_valid_user_range destination size) then Some (st, - EFAULT)
      else copy_out fuel c destination input st
  end.

(** The loop of [vmm_copy_string_from_user]: [out] holds the bytes before [i],
    [n] is [capacity - i]. A byte copy takes one page. *)
Fixpoint copy_string (c : option cref) (source : Z) (n : nat) (out : list Z) (st : vmm)
    : option (vmm * Z * list Z) :=
  match n with
  | O => Some (st, - ENAMETOOLONG, take (pred (length out)) out ++ [0])
  | S n' =>
      match vmm_copy_from_user 2 false c (u64 (source + Z.of_nat (length out))) 1 st with
      | None => None
      | Some (st, r, bs) =>
          if r <? 0 then Some (st, r, out)
          else
            let b := default 0 (head bs) in
            if b =? 0 then Some (st, 0, out ++ [0]) else copy_string c source n' (out ++ [b]) st
      end
  end.

Definition vmm_copy_string_from_user (destination_null : bool) (capacity : nat) (c : option cref)
    (source : Z) (st : vmm) : option (vmm * Z * list Z) :=
  if destination_null || (capacity =? 0)%nat || (source =? 0) then Some (st, - EFAULT, [])
  else copy_string c source capacity [] st.
End Vmm.
Arguments vmm : clear implicits.
