(* ===== verification/Cow.v ===== *)
(** * Address spaces: ownership of frames and copy on write

    The class [Paging] states what vmm.c relies on from the page tables of an
    architecture. Against it, the invariant [vm_inv] is proved for every
    operation of Vmm.v: the reference count of a frame is the number of
    mappings that own it, a writable page is mapped once, and the page tables
    translate exactly the recorded mappings. *)
From S2P Require Import Prelude Pmm Vmm.
Open Scope tach_scope.

(** ** Reference counts by address *)
Section FrameOps.
Implicit Types (p : pmm) (a b : Z).

Lemma refcount_frame p a :
  0 <= a -> 1 <= pmm_frame_refcount a p ->
  exists f, a = f .<< PAGE_SHIFT /\ 1 <= f < g_frame_limit p /\ g_frame_refs p f = pmm_frame_refcount a p.
Proof.
  intros Ha Hr. unfold pmm_frame_refcount in *. destruct (bad_frame_address p a) eqn:E; [lia|].
  apply bad_frame_address_false in E as (f & -> & E2 & Hf); [|done]. rewrite E2. exists f.
  split; [|done]. unfold PAGE_SHIFT. by rewrite Z.shiftl_mul_pow2 by lia.
Qed.

(** A positive count is on a frame in use, at an aligned address. *)
Lemma refcount_used p f :
  pmm_inv p -> 1 <= f -> 1 <= g_frame_refs p f -> frame_is_used p f = true.
Proof.
  intros Hi Hf Hr. destruct (frame_is_used p f) eqn:E; [done|].
  rewrite (inv_free_refs _ Hi) in Hr by (done || lia). lia.
Qed.

Lemma refcount_update p p' f v b :
  g_frame_limit p' = g_frame_limit p -> 1 <= f < g_frame_limit p ->
  (forall g, g_frame_refs p' g = if g =? f then v else g_frame_refs p g) -> 0 <= b ->
  pmm_frame_refcount b p' = if b =? f .<< PAGE_SHIFT then v else pmm_frame_refcount b p.
Proof.
  intros Hl Hf Hg Hb. unfold pmm_frame_refcount.
  assert (bad_frame_address p' b = bad_frame_address p b) as -> by (unfold bad_frame_address; by rewrite Hl).
  destruct (Z.eqb_spec b (f .<< PAGE_SHIFT)) as [->|Hne].
  - destruct (good_frame_address p f Hf) as [-> ->]. by rewrite Hg, Z.eqb_refl.
  - destruct (bad_frame_address p b) eqn:E; [done|].
    apply bad_frame_address_false in E as (g & -> & -> & _); [|done].
    rewrite Hg. destruct (Z.eqb_spec g f) as [->|]; [|done]. destruct Hne. unfold PAGE_SHIFT.
    by rewrite Z.shiftl_mul_pow2 by lia.
Qed.

Lemma refcount_bounds p a : pmm_inv p -> 0 <= pmm_frame_refcount a p <= PMM_REF_SATURATED.
Proof.
  intros Hi. unfold pmm_frame_refcount, PMM_REF_SATURATED. destruct (bad_frame_address p a); [lia|].
  apply (inv_refs _ Hi).
Qed.

(** Allocation gives a frame nobody holds, with one reference. *)
Lemma alloc_refs p p' a :
  pmm_inv p -> pmm_alloc_frame p = (p', a) ->
  pmm_inv p' /\ g_frame_limit p' = g_frame_limit p /\
  ((a = 0 /\ p' = p) \/
   (0 < a /\ a mod PAGE_SIZE = 0 /\ pmm_frame_refcount a p = 0 /\
    forall b, 0 <= b -> pmm_frame_refcount b p' = if b =? a then 1 else pmm_frame_refcount b p)).
Proof.
  intros Hi E. pose proof (inv_alloc_frame p Hi) as Hi'. rewrite E in Hi'. split; [done|].
  destruct (alloc_frame_cases p Hi) as [[E' _]|(f & Hf & Hu & E')]; rewrite E' in E; simplify_eq;
    [split; [done|by left]|].
  assert (Hl : g_frame_limit (set_search (f + 1) (take_frame f p)) = g_frame_limit p) by apply take_frame_limit.
  split; [done|]. right. unfold PAGE_SHIFT at 1 2. rewrite Z.shiftl_mul_pow2 by lia.
  split; [lia|]. split; [change PAGE_SIZE with (2 ^ 12); apply Z.mod_mul; lia|].
  rewrite refcount_eq by done. split; [apply (inv_free_refs _ Hi); [lia|done]|].
  intros b Hb. apply refcount_update; [done|done| |done]. intros g. apply take_frame_refs.
Qed.

Lemma retain_refs p p' a ok :
  pmm_inv p -> 0 <= a -> pmm_retain_frame a p = (p', ok) ->
  pmm_inv p' /\ g_frame_limit p' = g_frame_limit p /\
  if ok then 1 <= pmm_frame_refcount a p /\
    forall b, 0 <= b -> pmm_frame_refcount b p' = pmm_frame_refcount b p + if b =? a then 1 else 0
  else p' = p.
Proof.
  intros Hi Ha E. pose proof (inv_retain_frame p a Hi) as Hi'. rewrite E in Hi'. split; [done|].
  unfold pmm_retain_frame in E. destruct (bad_frame_address p a) eqn:Eb; simplify_eq; [done|].
  apply bad_frame_address_false in Eb as (f & -> & Es & Hf); [|done]. rewrite Es in *.
  destruct (frame_is_used p f && _ && _) eqn:Eu; [|done]. split; [done|].
  replace (f * PAGE_SIZE) with (f .<< PAGE_SHIFT) by (unfold PAGE_SHIFT; by rewrite Z.shiftl_mul_pow2 by lia).
  rewrite refcount_eq by done. pose proof (inv_refs _ Hi f). split; [lia|]. intros b Hb.
  rewrite (refcount_update p _ f (g_frame_refs p f + 1)) by (done || (intros; apply upd_spec)).
  destruct (Z.eqb_spec b (f .<< PAGE_SHIFT)) as [->|]; [by rewrite refcount_eq|lia].
Qed.

Lemma free_refs p a :
  pmm_inv p -> 0 <= a -> 1 <= pmm_frame_refcount a p ->
  pmm_inv (pmm_free_frame a p) /\ g_frame_limit (pmm_free_frame a p) = g_frame_limit p /\
  forall b, 0 <= b ->
    pmm_frame_refcount b (pmm_free_frame a p) = pmm_frame_refcount b p - if b =? a then 1 else 0.
Proof.
  intros Hi Ha Hr. split; [by apply inv_free_frame|].
  destruct (refcount_frame p a Ha Hr) as (f & -> & Hf & Er).
  assert (Hu : frame_is_used p f = true) by (apply refcount_used; lia || done).
  assert (Hl : g_frame_limit (pmm_free_frame (f .<< PAGE_SHIFT) p) = g_frame_limit p).
  { unfold pmm_free_frame, frame_set_free. split_ifs; done. }
  split; [done|]. intros b Hb.
  rewrite (refcount_update p _ f (g_frame_refs p f - 1)); [|done|done| |done].
  - destruct (Z.eqb_spec b (f .<< PAGE_SHIFT)) as [->|]; lia.
  - intros g. destruct (decide (g_frame_refs p f = 1)) as [E1|].
    + destruct (free_frame_last p f Hf Hu E1) as (_ & Hg & _). rewrite Hg, E1. done.
    + rewrite free_frame_shared by (done || lia). apply upd_spec.
Qed.
End FrameOps.

(** ** What vmm.c relies on from the page tables *)

(** The bits of the flags that reach the hardware. *)
Definition visible (fl : Z) : Z := fl .& 0x1e.

Definition page_aligned (x : Z) : Prop := x mod PAGE_SIZE = 0.
(** An address an entry of a page table can hold. *)
Definition phys_ok (a : Z) : Prop := page_aligned a /\ a < 2 ^ 52.
Lemma used_phys p a : pmm_inv p -> 0 <= a -> 1 <= pmm_frame_refcount a p -> phys_ok a.
Proof.
  intros Hp Ha H1. destruct (refcount_frame p a Ha H1) as (f & -> & Hf & _). pose proof (inv_limit _ Hp) as Hlim.
  unfold phys_ok, page_aligned. change PAGE_SIZE with (2 ^ 12). unfold PAGE_SHIFT. rewrite Z.shiftl_mul_pow2 by lia.
  rewrite Z.mod_mul by lia. change PMM_MAX_FRAMES with (2 ^ 20) in Hlim. lia.
Qed.
(** A page of the lower half of the address space. *)
Definition user_va (v : Z) : Prop := page_aligned v /\ 0 < v < 2 ^ 47.
(** Any page a walk of the tables can start from. *)
Definition page_va (v : Z) : Prop := page_aligned v /\ 0 <= v < 2 ^ 48.

(** The abstract view of an architecture's page tables: the frames that hold
    tables, the live roots, the 4 KiB translations of a root, and the pages a
    root lets user mode reach, whatever the size of their translation. *)
Class PagingView (T : Type) := {
  pg_inv : T -> pmm -> Prop;
  pg_table : T -> Z -> Prop;
  pg_root : T -> Z -> Prop;
  pg_lookup : T -> Z -> Z -> option (Z * Z);
  pg_user : T -> Z -> Z -> Prop
}.

Section View.
Context {T : Type} `{PagingView T}.
(** Frames in use that hold no table stay as they are. *)
Definition frames_kept (t : T) (p : pmm) (t' : T) (p' : pmm) : Prop :=
  pg_inv t' p' /\
  forall a, 0 <= a -> 1 <= pmm_frame_refcount a p -> ~ pg_table t a ->
    pmm_frame_refcount a p' = pmm_frame_refcount a p /\ ~ pg_table t' a.

(** A root keeps its translations and opens no page to user mode, [except]
    one page. *)
Definition root_kept (t t' : T) (r : Z) (except : Z -> Prop) : Prop :=
  pg_root t' r /\
  (forall v x, user_va v -> ~ except v -> pg_lookup t r v = Some x -> pg_lookup t' r v = Some x) /\
  (forall v, page_va v -> ~ except v -> pg_user t' r v -> pg_user t r v).
Definition others_kept (t t' : T) (root : Z) : Prop :=
  forall r, pg_root t r -> r <> root -> root_kept t t' r (fun _ => False).
End View.

Class Paging (T : Type) `{PagingOps T, PagingView T} := {
  pg_inv_pmm t p : pg_inv t p -> pmm_inv p;
  pg_table_ref t p a : pg_inv t p -> pg_table t a -> 0 <= a -> 1 <= pmm_frame_refcount a p;
  pg_root_pos t p r : pg_inv t p -> pg_root t r -> 0 < r;
  pg_stable t p p' :
    pg_inv t p -> pmm_inv p' -> g_frame_limit p' = g_frame_limit p ->
    (forall a, 0 <= a -> pg_table t a -> pmm_frame_refcount a p' = pmm_frame_refcount a p) -> pg_inv t p';
  pg_create t p t' p' r :
    pg_inv t p -> arch_paging_create_root t p = (t', p', r) ->
    frames_kept t p t' p' /\ others_kept t t' 0 /\
    (r = 0 \/ (pg_root t' r /\ ~ pg_root t r /\
       forall v, page_va v -> pg_user t' r v -> pg_user t (arch_paging_kernel_root t) v));
  pg_destroy t p t' p' r :
    pg_inv t p -> pg_root t r -> r <> arch_paging_kernel_root t -> arch_paging_destroy_root r t p = (t', p') ->
    frames_kept t p t' p' /\ others_kept t t' r /\
    (forall a, 0 <= a -> ~ pg_table t a -> pmm_frame_refcount a p' = pmm_frame_refcount a p /\ ~ pg_table t' a);
  pg_map t p t' p' root v a fl r :
    pg_inv t p -> pg_root t root -> user_va v -> 0 <= a -> phys_ok a ->
    arch_paging_map root v a fl t p = (t', p', r) ->
    frames_kept t p t' p' /\ others_kept t t' root /\ root_kept t t' root (eq v) /\
    arch_paging_kernel_root t' = arch_paging_kernel_root t /\
    ((r = 0 /\ pg_lookup t' root v = Some (a, visible fl)) \/
     (r < 0 /\ pg_lookup t root v = None /\ (pg_user t' root v -> pg_user t root v)));
  pg_unmap t p t' root v r :
    pg_inv t p -> pg_root t root -> user_va v -> arch_paging_unmap root v t = (t', r) ->
    pg_inv t' p /\ (forall a, pg_table t' a -> pg_table t a) /\ others_kept t t' root /\ root_kept t t' root (eq v) /\
    arch_paging_kernel_root t' = arch_paging_kernel_root t /\
    ((r = 0 /\ pg_lookup t' root v = None /\ ~ pg_user t' root v) \/ (r < 0 /\ t' = t /\ pg_lookup t root v = None));
  pg_lookup_user t r v a fl : pg_lookup t r v = Some (a, fl) -> pg_user t r v -> has fl VMM_USER = true;
  pg_kernel_create t p t' p' r : arch_paging_create_root t p = (t', p', r) ->
    arch_paging_kernel_root t' = arch_paging_kernel_root t;
  pg_kernel_destroy t p t' p' r : arch_paging_destroy_root r t p = (t', p') ->
    arch_paging_kernel_root t' = arch_paging_kernel_root t
}.

(** ** The invariant *)
Definition owns (a : Z) (m : mapping) : Z := if phys m =? a then 1 else 0.
Definition slot_owners (a : Z) (s : slot) : Z := zsum (owns a) (mappings s).
Definition owners_in (ss : list slot) (a : Z) : Z := zsum (slot_owners a) ss.
Definition writable (m : mapping) : Prop := has (flags m) VMM_WRITABLE = true.
Definition root_of (s : slot) : Z := page_table (s_context s).

(** A new address space starts as a copy of the kernel's tables. Whether calls
    keep pages for user mode out of them: where they do, the tables of an
    address space open nothing to user mode but its recorded mappings. *)
Class Clean := clean : bool.
#[export] Instance any_kernel_pages : Clean | 100 := false.

Section Inv.
Context {T : Type} `{Paging T} {cl : Clean}.
Implicit Types (st : vmm T) (t : T) (p : pmm) (s : slot) (m : mapping) (extra : Z -> Z).

Definition owners st (a : Z) : Z := owners_in (g_slots st) a.

Record mapping_ok (t : T) (root : Z) (m : mapping) : Prop := {
  mo_virt : user_va (virt m);
  mo_phys : 0 < phys m /\ phys_ok (phys m);
  mo_owned : owned m = true;
  mo_lookup : pg_lookup t root (virt m) = Some (phys m, visible (flags m))
}.

Record slot_ok (t : T) (s : slot) : Prop := {
  so_root : pg_root t (root_of s);
  so_nodup : NoDup (virt <$> mappings s);
  so_length : (length (mappings s) <= VMM_MAX_MAPPINGS)%nat;
  so_maps : forall m, m ∈ mappings s -> mapping_ok t (root_of s) m;
  so_user : clean = true -> forall v, page_va v -> pg_user t (root_of s) v -> exists m, m ∈ mappings s /\ virt m = v
}.

Definition ctx_live st (c : cref) : Prop :=
  match c with KernelCtx => True | SlotCtx i => exists s, g_slots st !! i = Some s /\ used s = true end.

Definition uproc_ok (u : option uproc) : Prop :=
  match u with
  | None => True
  | Some u => 0 <= user_stack_bottom u <= 2 ^ 47 /\ brk_end u <= 2 ^ 47 /\
              (user_mode u = true -> mm u <> Some KernelCtx)
  end.

(** [extra a] references to the frame at [a] are not held by a mapping of a
    slot: a frame in the hands of an operation, one mapped into the kernel's
    tables, or one whose mapping was overwritten. While [vmm_clone_context]
    rolls back, a page is writable again before the clone has gone; [strict]
    is false there. *)
Record vm_inv_at (strict : bool) (extra : Z -> Z) (st : vmm T) : Prop := {
  vi_len : length (g_slots st) = VMM_MAX_CONTEXTS;
  vi_pg : pg_inv (tables st) (frames st);
  vi_kernel : pg_root (tables st) (page_table (g_kernel_context st)) /\
              arch_paging_kernel_root (tables st) = page_table (g_kernel_context st);
  vi_private : clean = true -> forall v, page_va v -> ~ pg_user (tables st) (page_table (g_kernel_context st)) v;
  vi_slot : forall i s, g_slots st !! i = Some s -> used s = true -> slot_ok (tables st) s;
  vi_empty : forall i s, g_slots st !! i = Some s -> used s = false -> s = zero_slot;
  vi_roots : forall i s, g_slots st !! i = Some s -> used s = true -> root_of s <> page_table (g_kernel_context st);
  vi_distinct : forall i j s s', g_slots st !! i = Some s -> g_slots st !! j = Some s' ->
    used s = true -> used s' = true -> root_of s = root_of s' -> i = j;
  vi_extra : forall a, 0 <= extra a;
  vi_refs : forall a, 0 <= a -> 0 < owners st a + extra a ->
    ~ pg_table (tables st) a /\ pmm_frame_refcount a (frames st) = owners st a + extra a;
  vi_iso : forall i s m, g_slots st !! i = Some s -> m ∈ mappings s -> writable m -> strict = true ->
    owners st (phys m) = 1;
  vi_current : forall cpu c, g_current_context st !! cpu = Some c ->
    ctx_live st c /\ cr3 st !! cpu = Some (page_table (ctx st c));
  vi_cpus : length (g_current_context st) = MAX_CPUS /\ length (cr3 st) = MAX_CPUS;
  vi_running : uproc_ok (running st)
}.
End Inv.
Arguments vi_len {T _ _ cl strict} extra st _.
Arguments vi_pg {T _ _ cl strict} extra st _.
Arguments vi_kernel {T _ _ cl strict} extra st _.
Arguments vi_private {T _ _ cl strict} extra st _.
Arguments vi_slot {T _ _ cl strict} extra st _ i s.
Arguments vi_empty {T _ _ cl strict} extra st _ i s.
Arguments vi_roots {T _ _ cl strict} extra st _ i s.
Arguments vi_distinct {T _ _ cl strict} extra st _ i j s s'.
Arguments vi_extra {T _ _ cl strict} extra st _ a.
Arguments vi_refs {T _ _ cl strict} extra st _ a.
Arguments vi_iso {T _ _ cl strict} extra st _ i s m.
Arguments vi_current {T _ _ cl strict} extra st _ cpu c.
Arguments vi_cpus {T _ _ cl strict} extra st _.
Arguments vi_running {T _ _ cl strict} extra st _.

(** ** Counting owners *)
Section Owners.
Implicit Types (ss : list slot) (s : slot) (m : mapping).

Lemma owns_nonneg a m : 0 <= owns a m.
Proof. unfold owns. split_ifs; lia. Qed.
Lemma slot_owners_nonneg a s : 0 <= slot_owners a s.
Proof. apply zsum_nonneg, owns_nonneg. Qed.
Lemma owners_nonneg ss a : 0 <= owners_in ss a.
Proof. apply zsum_nonneg, slot_owners_nonneg. Qed.

Lemma owners_insert ss i s s' a :
  ss !! i = Some s -> owners_in (<[i := s']> ss) a = owners_in ss a - slot_owners a s + slot_owners a s'.
Proof. apply zsum_insert. Qed.

Lemma slot_owners_ge s m a : m ∈ mappings s -> phys m = a -> 1 <= slot_owners a s.
Proof.
  intros Hm Hp. apply list_elem_of_lookup in Hm as [j Hj].
  pose proof (zsum_ge (owns a) _ j m (owns_nonneg a) Hj) as Hg. unfold owns at 1 in Hg.
  rewrite Hp, Z.eqb_refl in Hg. done.
Qed.

Lemma slot_owners_pos a s : 0 < slot_owners a s -> exists m, m ∈ mappings s /\ phys m = a.
Proof.
  unfold slot_owners. induction (mappings s) as [|m l IH]; simpl; [lia|]. unfold owns at 1.
  destruct (Z.eqb_spec (phys m) a) as [<-|]; [intros; exists m; split; [left|done]|].
  intros Hp. destruct IH as (m' & Hm & Hp'); [lia|]. exists m'. split; [by right|done].
Qed.

Lemma owners_ge ss i s a : ss !! i = Some s -> slot_owners a s <= owners_in ss a.
Proof. apply zsum_ge. apply slot_owners_nonneg. Qed.

Lemma owners_of ss i s m : ss !! i = Some s -> m ∈ mappings s -> 1 <= owners_in ss (phys m).
Proof.
  intros Hs Hm. pose proof (owners_ge ss i s (phys m) Hs). pose proof (slot_owners_ge s m _ Hm eq_refl). lia.
Qed.

(** A frame with one owner has one mapping. *)
Lemma sole_owner ss i j s s' k k' m m' :
  owners_in ss (phys m) = 1 -> ss !! i = Some s -> ss !! j = Some s' ->
  mappings s !! k = Some m -> mappings s' !! k' = Some m' -> phys m' = phys m -> i = j /\ k = k'.
Proof.
  intros Ho Hi Hj Hk Hk' Hp.
  pose proof (slot_owners_ge s m _ (list_elem_of_lookup_2 _ _ _ Hk) eq_refl).
  pose proof (slot_owners_ge s' m' _ (list_elem_of_lookup_2 _ _ _ Hk') Hp).
  assert (i = j) as <-.
  { eapply (zsum_one (slot_owners (phys m))); eauto using slot_owners_nonneg. }
  split; [done|]. rewrite Hi in Hj. injection Hj as <-. pose proof (owners_ge ss i _ (phys m) Hi).
  eapply (zsum_one (owns (phys m)) (mappings s)); eauto using owns_nonneg.
  - unfold slot_owners in *. lia.
  - unfold owns. by rewrite Z.eqb_refl.
  - unfold owns. by rewrite Hp, Z.eqb_refl.
Qed.
End Owners.

(** ** The basic steps keep the invariant *)
Definition bump (a k : Z) (extra : Z -> Z) : Z -> Z := fun b => extra b + if b =? a then k else 0.

Definition with_slot {T} (i : nat) (s : slot) (st : vmm T) : vmm T := set_slots (<[i := s]> (g_slots st)) st.

Lemma has_visible fl : has fl VMM_WRITABLE = has (visible fl) VMM_WRITABLE.
Proof. unfold has, visible. rewrite <- Z.land_assoc. by change (0x1e .& VMM_WRITABLE) with VMM_WRITABLE. Qed.

Lemma has_visible_user fl : has fl VMM_USER = has (visible fl) VMM_USER.
Proof. unfold has, visible. rewrite <- Z.land_assoc. by change (0x1e .& VMM_USER) with VMM_USER. Qed.

Lemma user_page_va v : user_va v -> page_va v.
Proof. intros [? ?]. split; [done|lia]. Qed.

Section Steps.
Context {T : Type} `{Paging T} {cl : Clean}.
Context {strict : bool}.
Implicit Types (st : vmm T) (t : T) (p : pmm) (s : slot) (m : mapping) (extra : Z -> Z).
Local Abbreviation vm_inv := (vm_inv_at strict).

Lemma the_slot_eq st i s : g_slots st !! i = Some s -> the_slot st i = s.
Proof. intros Hs. unfold the_slot. by rewrite list_lookup_total_alt, Hs. Qed.

Lemma on_slot_eq st i s f : g_slots st !! i = Some s -> on_slot i f st = with_slot i (f s) st.
Proof. intros Hs. unfold on_slot, with_slot. by rewrite (alter_insert _ _ _ _ Hs). Qed.

(** A used slot is the address space with its index. *)
Lemma slot_for_Some st c i :
  slot_for st c = Some i -> c = SlotCtx i /\ (i < VMM_MAX_CONTEXTS)%nat /\ used (the_slot st i) = true.
Proof.
  unfold slot_for. intros E. apply find_from_Some in E as (Hi & Hp & _).
  apply andb_true_iff in Hp as [Hu Hc]. unfold cref_eqb in Hc. apply bool_decide_eq_true in Hc. split; [done|]. split; [lia|done].
Qed.

Lemma slot_for_slot st i s :
  length (g_slots st) = VMM_MAX_CONTEXTS -> g_slots st !! i = Some s -> used s = true -> slot_for st (SlotCtx i) = Some i.
Proof.
  intros Hl Hs Hu. pose proof (lookup_lt_Some _ _ _ Hs).
  destruct (slot_for st (SlotCtx i)) as [j|] eqn:E.
  - apply slot_for_Some in E as (E & _). congruence.
  - unfold slot_for in E. rewrite find_from_None in E. specialize (E i ltac:(lia)).
    rewrite (the_slot_eq _ _ _ Hs), Hu in E. unfold cref_eqb in E. by rewrite bool_decide_true in E.
Qed.

(** [slot_for] gives a used slot, with its record. *)
Lemma slot_for_inv extra st c i :
  vm_inv extra st -> slot_for st c = Some i ->
  c = SlotCtx i /\ exists s, g_slots st !! i = Some s /\ used s = true /\ slot_ok (tables st) s.
Proof.
  intros Hi E. apply slot_for_Some in E as (-> & Hlt & Hu). split; [done|].
  destruct (lookup_lt_is_Some_2 (g_slots st) i) as [s Hs]; [by rewrite (vi_len _ _ Hi)|].
  rewrite (the_slot_eq _ _ _ Hs) in Hu. exists s. split_and!; [done|done|]. by apply (vi_slot _ _ Hi i).
Qed.

Lemma vm_inv_ext extra extra' st : (forall a, extra a = extra' a) -> vm_inv extra st -> vm_inv extra' st.
Proof.
  intros E []. constructor; try done; intros a; rewrite <- E; auto.
Qed.

(** Only the frame allocator changes; the references that are counted stay
    counted. *)
Lemma inv_frames extra extra' st p' :
  vm_inv extra st -> pmm_inv p' -> g_frame_limit p' = g_frame_limit (frames st) ->
  (forall a, 0 <= extra' a) ->
  (forall a, 0 <= a -> pg_table (tables st) a -> pmm_frame_refcount a p' = pmm_frame_refcount a (frames st)) ->
  (forall a, 0 <= a -> 0 < owners st a + extra' a ->
     ~ pg_table (tables st) a /\ pmm_frame_refcount a p' = owners st a + extra' a) ->
  vm_inv extra' (set_frames p' st).
Proof.
  intros Hi Hp Hl He Ht Hr. destruct Hi. constructor; try done. by eapply pg_stable.
Qed.

Lemma inv_alloc extra st st' a :
  vm_inv extra st -> alloc_frame st = (st', a) ->
  exists p', st' = set_frames p' st /\
  ((a = 0 /\ vm_inv extra st') \/
   (0 < a /\ phys_ok a /\ owners st a = 0 /\ extra a = 0 /\ vm_inv (bump a 1 extra) st')).
Proof.
  intros Hi E. unfold alloc_frame in E. destruct (pmm_alloc_frame (frames st)) as [p' a'] eqn:Ea. simplify_eq.
  exists p'. split; [done|].
  destruct (alloc_refs _ _ _ (pg_inv_pmm _ _ (vi_pg _ _ Hi)) Ea) as (Hp & Hl & [[-> ->]|(Ha & Hal & Hz0 & Hr)]).
  - left. split; [done|]. eapply inv_frames; eauto; apply Hi.
  - right. pose proof (owners_nonneg (g_slots st) a). pose proof (vi_extra _ _ Hi a).
    assert (Hz : owners st a + extra a = 0).
    { destruct (decide (0 < owners st a + extra a)) as [Hpos|]; [|unfold owners in *; lia].
      apply (vi_refs _ _ Hi) in Hpos as [_ Hc]; lia. }
    unfold owners in Hz. split_and!; [done| |unfold owners; lia|lia|].
    { apply (used_phys p'); [done|lia|]. rewrite Hr, Z.eqb_refl by lia. lia. }
    assert (Hnt : ~ pg_table (tables st) a).
    { intros Ht. apply (pg_table_ref _ _ _ (vi_pg _ _ Hi)) in Ht; lia. }
    eapply inv_frames; eauto; unfold bump.
    + intros b. pose proof (vi_extra _ _ Hi b). split_ifs; lia.
    + intros b Hb Ht. rewrite Hr by done. destruct (Z.eqb_spec b a) as [->|]; done.
    + intros b Hb. rewrite Hr by done. destruct (Z.eqb_spec b a) as [->|].
      * unfold owners. intros _. split; [done|lia].
      * rewrite Z.add_0_r. by apply (vi_refs _ _ Hi).
Qed.

Lemma inv_free extra st a :
  vm_inv extra st -> 0 <= a -> 1 <= extra a -> vm_inv (bump a (-1) extra) (free_frame a st).
Proof.
  intros Hi Ha He. pose proof (owners_nonneg (g_slots st) a).
  destruct (vi_refs _ _ Hi a Ha) as [Hnt Hc]; [unfold owners; lia|]. unfold owners in Hc.
  destruct (free_refs (frames st) a (pg_inv_pmm _ _ (vi_pg _ _ Hi)) Ha) as (Hp & Hl & Hr); [lia|].
  unfold free_frame. eapply inv_frames; eauto; unfold bump.
  - intros b. pose proof (vi_extra _ _ Hi b). destruct (Z.eqb_spec b a) as [->|]; lia.
  - intros b Hb Ht. rewrite Hr by done. destruct (Z.eqb_spec b a) as [->|]; [done|lia].
  - intros b Hb Hpos. rewrite Hr by done. destruct (Z.eqb_spec b a) as [->|].
    + split; [done|]. unfold owners. lia.
    + rewrite Z.add_0_r in *. rewrite Z.sub_0_r. by apply (vi_refs _ _ Hi).
Qed.

Lemma inv_retain extra st st' a ok :
  vm_inv extra st -> 0 <= a -> 0 < owners st a -> retain_frame a st = (st', ok) ->
  exists p', st' = set_frames p' st /\ vm_inv (if ok then bump a 1 extra else extra) st'.
Proof.
  intros Hi Ha Ho E. unfold retain_frame in E. destruct (pmm_retain_frame a (frames st)) as [p' ok'] eqn:Er. simplify_eq.
  exists p'. split; [done|]. pose proof (vi_extra _ _ Hi a).
  destruct (vi_refs _ _ Hi a Ha ltac:(lia)) as [Hnt Hc].
  destruct (retain_refs _ _ _ _ (pg_inv_pmm _ _ (vi_pg _ _ Hi)) Ha Er) as (Hp & Hl & Hr). destruct ok.
  - destruct Hr as [_ Hr]. eapply inv_frames; eauto; unfold bump.
    + intros b. pose proof (vi_extra _ _ Hi b). split_ifs; lia.
    + intros b Hb Ht. rewrite Hr by done. destruct (Z.eqb_spec b a) as [->|]; [done|lia].
    + intros b Hb Hpos. rewrite Hr by done. destruct (Z.eqb_spec b a) as [->|].
      * split; [done|]. lia.
      * rewrite Z.add_0_r in *. rewrite Z.add_0_r. by apply (vi_refs _ _ Hi).
  - subst p'. eapply inv_frames; eauto; apply Hi.
Qed.

(** A slot whose root is kept. *)
Lemma slot_ok_kept t t' s : slot_ok t s -> root_kept t t' (root_of s) (fun _ => False) -> slot_ok t' s.
Proof.
  intros [A B C D E] (A' & Hl & Hus). constructor; [done..| |].
  - intros m Hm. destruct (D m Hm). constructor; [done..|]. by apply Hl; [|tauto|].
  - intros Hcl v Hv Hu. apply E; [done|done|]. by apply Hus; [|tauto|].
Qed.

(** The page tables change, and with them the contents of one used slot. *)
Lemma inv_slot extra extra' st i s s' t' p' :
  vm_inv extra st -> g_slots st !! i = Some s -> used s = true ->
  frames_kept (tables st) (frames st) t' p' -> others_kept (tables st) t' (root_of s) ->
  arch_paging_kernel_root t' = arch_paging_kernel_root (tables st) ->
  used s' = true -> root_of s' = root_of s -> slot_ok t' s' ->
  (forall a, 0 <= extra' a) ->
  (forall a, slot_owners a s' + extra' a = slot_owners a s + extra a) ->
  (forall m, m ∈ mappings s' -> writable m -> strict = true -> owners_in (<[i := s']> (g_slots st)) (phys m) = 1) ->
  (forall j s2 m, j <> i -> g_slots st !! j = Some s2 -> m ∈ mappings s2 -> writable m -> strict = true ->
     slot_owners (phys m) s' <= slot_owners (phys m) s) ->
  vm_inv extra' (with_slot i s' (set_pages t' p' st)).
Proof.
  intros Hi Hs Hu [Hpg Hkept] Hoth Hk Hu' Hroot Hok He Hsum Hiso Hiso2.
  pose proof (lookup_lt_Some _ _ _ Hs) as Hlt.
  assert (Hown : forall a, owners_in (<[i := s']> (g_slots st)) a + extra' a = owners st a + extra a).
  { intros a. rewrite (owners_insert _ _ s) by done. unfold owners. specialize (Hsum a). lia. }
  pose proof (lookup_insert_cases (g_slots st) i) as Hlk.
  constructor; cbn [with_slot set_slots set_pages g_slots tables frames g_kernel_context g_current_context cr3 running].
  - rewrite length_insert. apply Hi.
  - done.
  - rewrite Hk. destruct (vi_kernel _ _ Hi) as [Hkr ->]. split; [|done].
    apply (Hoth _ Hkr). intros E. by apply (vi_roots _ _ Hi i s Hs Hu).
  - intros Hcl v Hv Hus. apply (vi_private _ _ Hi Hcl v Hv). destruct (vi_kernel _ _ Hi) as [Hkr _].
    apply (Hoth _ Hkr); [|done|tauto|done]. intros E. by apply (vi_roots _ _ Hi i s Hs Hu).
  - intros j x Hx Hux. apply Hlk in Hx as [[-> ->]|[Hne Hx]]; [done|].
    apply (slot_ok_kept (tables st)); [by eapply (vi_slot _ _ Hi)|]. apply Hoth; [by apply (vi_slot _ _ Hi j)|].
    intros E; apply Hne; by eapply (vi_distinct _ _ Hi).
  - intros j x Hx Hux. apply Hlk in Hx as [[-> ->]|[Hne Hx]]; [congruence|]. by eapply (vi_empty _ _ Hi).
  - intros j x Hx Hux. apply Hlk in Hx as [[-> ->]|[Hne Hx]]; [rewrite Hroot|]; by eapply (vi_roots _ _ Hi).
  - intros j k x y Hx Hy Hux Huy. apply Hlk in Hx as [[-> ->]|[Hne Hx]], Hy as [[-> ->]|[Hne' Hy]];
      [done|rewrite Hroot; by apply (vi_distinct _ _ Hi)..|by apply (vi_distinct _ _ Hi)].
  - done.
  - intros a Ha. unfold owners at 1 2. cbn [with_slot set_slots g_slots]. rewrite Hown. intros Hpos.
    destruct (vi_refs _ _ Hi a Ha Hpos) as [Hnt Hc]. rewrite <- Hc. pose proof (Hkept a Ha ltac:(lia) Hnt). tauto.
  - intros j x m Hx Hm Hw Hst. unfold owners. cbn [with_slot set_slots set_pages g_slots].
    apply Hlk in Hx as [[-> ->]|[Hne Hx]]; [by apply Hiso|].
    pose proof (vi_iso _ _ Hi j x m Hx Hm Hw Hst) as Hone. unfold owners in Hone.
    pose proof (Hiso2 j x m Hne Hx Hm Hw Hst). rewrite (owners_insert _ _ s) by done.
    pose proof (owners_of (<[i := s']> (g_slots st)) j x m) as Hge.
    rewrite list_lookup_insert_ne, (owners_insert _ _ s) in Hge by done. specialize (Hge Hx Hm). lia.
  - intros cpu c Hc. destruct (vi_current _ _ Hi cpu c Hc) as [Hl Hr]. rewrite Hr. destruct c as [|j]; [done|].
    destruct Hl as (x & Hx & Hux). cbn [ctx_live ctx with_slot set_slots g_slots].
    rewrite (the_slot_eq _ _ _ Hx). destruct (decide (j = i)) as [->|].
    + rewrite Hx in Hs. injection Hs as ->. split; [exists s'; by rewrite list_lookup_insert_eq|].
      rewrite (the_slot_eq _ _ s') by (by apply list_lookup_insert_eq). f_equal. symmetry. exact Hroot.
    + split; [exists x; by rewrite list_lookup_insert_ne|].
      by rewrite (the_slot_eq _ _ x) by (simpl; by rewrite list_lookup_insert_ne).
  - apply Hi.
  - apply Hi.
Qed.

Lemma mapping_kept t t' root v m :
  root_kept t t' root (eq v) -> mapping_ok t root m -> virt m <> v -> mapping_ok t' root m.
Proof. intros (_ & Hk & _) [A B C D] Hne. constructor; [done..|]. apply Hk; [done|congruence|done]. Qed.

(** The recorded pages still cover those open to user mode when the page [v]
    was changed and is recorded, or is not open. *)
Lemma user_kept t t' root v s s' :
  slot_ok t s -> root = root_of s -> root_kept t t' root (eq v) -> user_va v ->
  (forall m, m ∈ mappings s -> virt m <> v -> m ∈ mappings s') ->
  (clean = true -> pg_user t' root v -> exists m, m ∈ mappings s' /\ virt m = v) ->
  clean = true -> forall w, page_va w -> pg_user t' root w -> exists m, m ∈ mappings s' /\ virt m = w.
Proof.
  intros Hok -> (_ & _ & Hus) Hv Hms Hnew Hcl w Hw Hu. destruct (decide (v = w)) as [->|Hne]; [by apply Hnew|].
  destruct (so_user _ _ Hok Hcl w Hw) as (m & Hm & Hvm); [by apply Hus|]. exists m. split; [|done]. apply Hms; [done|congruence].
Qed.

(** Updating a context in any field but its page table. *)
Lemma inv_context f extra st i s :
  (forall c, page_table (f c) = page_table c) -> vm_inv extra st -> g_slots st !! i = Some s -> used s = true ->
  vm_inv extra (with_slot i (map_context f s) st).
Proof.
  intros Hf Hi Hs Hu. set (s' := map_context _ s). assert (Hr : root_of s' = root_of s) by apply Hf.
  replace (with_slot i s' st) with (with_slot i s' (set_pages (tables st) (frames st) st)) by by destruct st.
  apply (inv_slot extra extra st i _ s' _ _ Hi Hs Hu); try done.
  - split; [apply Hi|]. done.
  - pose proof (vi_slot _ _ Hi i _ Hs Hu) as [A B C D F]. constructor; rewrite ?Hr; done.
  - apply Hi.
  - intros m Hm Hw Hst. pose proof (vi_iso _ _ Hi i _ m Hs Hm Hw Hst) as Ho. unfold owners in Ho.
    rewrite (owners_insert _ _ _ _ _ Hs). change (slot_owners (phys m) s') with (slot_owners (phys m) s). lia.
Qed.

Lemma inv_next_free extra st i s v :
  vm_inv extra st -> g_slots st !! i = Some s -> used s = true ->
  vm_inv extra (with_slot i (map_context (set_next_free v) s) st).
Proof. by apply inv_context. Qed.

(** Entering or changing the page [v] of the slot [i]: [s'] is the slot as the
    caller updates it after [arch_paging_map] succeeded. *)
Lemma inv_map extra st st1 i s v a fl r :
  vm_inv extra st -> g_slots st !! i = Some s -> used s = true -> user_va v -> 0 < a -> phys_ok a ->
  paging_map (root_of s) v a fl st = (st1, r) ->
  exists t' p', st1 = set_pages t' p' st /\
  ((r < 0 /\ (forall m, m ∈ mappings s -> virt m <> v) /\ vm_inv extra st1) \/
   (r = 0 /\ forall s' extra',
      used s' = true -> root_of s' = root_of s -> NoDup (virt <$> mappings s') ->
      (length (mappings s') <= VMM_MAX_MAPPINGS)%nat ->
      (forall m, m ∈ mappings s' -> (m ∈ mappings s /\ virt m <> v) \/
         (virt m = v /\ phys m = a /\ owned m = true /\ visible (flags m) = visible fl)) ->
      (forall m, m ∈ mappings s -> virt m <> v -> m ∈ mappings s') -> (exists m, m ∈ mappings s' /\ virt m = v) ->
      (forall b, 0 <= extra' b) ->
      (forall b, slot_owners b s' + extra' b = slot_owners b s + extra b) ->
      (forall m, m ∈ mappings s' -> writable m -> strict = true -> owners_in (<[i := s']> (g_slots st)) (phys m) = 1) ->
      (forall j s2 m, j <> i -> g_slots st !! j = Some s2 -> m ∈ mappings s2 -> writable m -> strict = true ->
         slot_owners (phys m) s' <= slot_owners (phys m) s) ->
      vm_inv extra' (with_slot i s' st1))).
Proof.
  intros Hi Hs Hu Hv Ha Hal E. unfold paging_map in E.
  destruct (arch_paging_map (root_of s) v a fl (tables st) (frames st)) as [[t' p'] r'] eqn:Em. simplify_eq.
  exists t', p'. split; [done|]. pose proof (vi_slot _ _ Hi i s Hs Hu) as Hok.
  destruct (pg_map _ _ _ _ _ _ _ _ _ (vi_pg _ _ Hi) (so_root _ _ Hok) Hv (Z.lt_le_incl _ _ Ha) Hal Em)
    as (Hf & Ho & Hr & Hk & [[-> Hl]|(Hneg & Hl & Hlu)]); [right|left].
  - split; [done|]. intros s' extra' Hu' Hroot Hnd Hlen Hms Hkeep Hrec He Hsum Hiso Hiso2.
    eapply inv_slot; eauto. constructor; [rewrite Hroot; apply Hr|done|done| |]; rewrite Hroot.
    + intros m Hm. destruct (Hms m Hm) as [[Hin Hne]|(Hvm & Hpm & Hom & Hfm)].
      * eapply mapping_kept; [done|by apply (so_maps _ _ Hok)|done].
      * constructor; [congruence|by rewrite Hpm|done|by rewrite Hvm, Hpm, Hfm].
    + by apply (user_kept (tables st) t' _ v s s').
  - assert (Hno : forall m, m ∈ mappings s -> virt m <> v).
    { intros m Hm <-. rewrite (mo_lookup _ _ _ (so_maps _ _ Hok m Hm)) in Hl. done. }
    split; [done|]. split; [done|].
    assert (Heq : set_pages t' p' st = with_slot i s (set_pages t' p' st)).
    { unfold with_slot. cbn [set_pages g_slots]. by rewrite list_insert_id by done. }
    rewrite Heq. eapply inv_slot; eauto.
    + pose proof Hok as [A B C D F]. constructor; [apply Hr|done|done| |].
      * intros m Hm. eapply mapping_kept; [done|by apply D|by apply Hno].
      * apply (user_kept (tables st) t' _ v s s); try done. intros Hcl Hus. apply F; [done|by apply user_page_va|by apply Hlu].
    + apply Hi.
    + intros m Hm Hw Hst. rewrite list_insert_id by done. by apply (vi_iso _ _ Hi i s).
    + intros. lia.
Qed.

(** The kernel's tables change. *)
Lemma inv_kernel_pages extra st t' p' :
  vm_inv extra st -> frames_kept (tables st) (frames st) t' p' ->
  others_kept (tables st) t' (page_table (g_kernel_context st)) ->
  pg_root t' (page_table (g_kernel_context st)) ->
  arch_paging_kernel_root t' = arch_paging_kernel_root (tables st) ->
  (clean = true -> forall v, page_va v -> ~ pg_user t' (page_table (g_kernel_context st)) v) ->
  vm_inv extra (set_pages t' p' st).
Proof.
  intros Hi [Hpg Hkept] Hoth Hr Hk Hpr. destruct (vi_kernel _ _ Hi) as [_ Ek].
  constructor; cbn [set_pages g_slots tables frames g_kernel_context g_current_context cr3 running]; try apply Hi; try done.
  - split; [done|congruence].
  - intros i s Hs Hu. apply (slot_ok_kept (tables st)); [by apply (vi_slot _ _ Hi i)|].
    apply Hoth; [by apply (vi_slot _ _ Hi i)|by apply (vi_roots _ _ Hi i)].
  - intros a Ha Hpos. destruct (vi_refs _ _ Hi a Ha Hpos) as [Hnt Hc]. unfold owners in *.
    cbn [set_pages g_slots] in *. rewrite <- Hc. pose proof (Hkept a Ha ltac:(lia) Hnt). tauto.
Qed.

(** Only the page [v] of the kernel's tables changes. *)
Lemma private_kept extra st t' v :
  vm_inv extra st -> root_kept (tables st) t' (page_table (g_kernel_context st)) (eq v) ->
  (clean = true -> ~ pg_user t' (page_table (g_kernel_context st)) v) ->
  clean = true -> forall w, page_va w -> ~ pg_user t' (page_table (g_kernel_context st)) w.
Proof.
  intros Hi (_ & _ & Hus) Hv Hcl w Hw Hu. destruct (decide (v = w)) as [->|Hne]; [by apply Hv|].
  apply (vi_private _ _ Hi Hcl w Hw). by apply Hus.
Qed.

Lemma inv_map_kernel extra st st1 v a fl r :
  vm_inv extra st -> user_va v -> 0 <= a -> phys_ok a -> (clean = true -> has fl VMM_USER = false) ->
  paging_map (page_table (g_kernel_context st)) v a fl st = (st1, r) ->
  vm_inv extra st1 /\ exists t' p', st1 = set_pages t' p' st.
Proof.
  intros Hi Hv Ha Hal Hfl E. unfold paging_map in E.
  destruct (arch_paging_map _ v a fl (tables st) (frames st)) as [[t' p'] r'] eqn:Em. simplify_eq.
  split; [|by exists t', p']. destruct (vi_kernel _ _ Hi) as [Hk _].
  destruct (pg_map _ _ _ _ _ _ _ _ _ (vi_pg _ _ Hi) Hk Hv Ha Hal Em) as (Hf & Ho & Hr & Hke & Hres).
  apply inv_kernel_pages; try done; [apply Hr|]. apply (private_kept _ _ _ v Hi Hr). intros Hcl Hus.
  destruct Hres as [[_ Hl]|(_ & _ & Hlu)]; [|by apply (vi_private _ _ Hi Hcl v); [apply user_page_va|apply Hlu]].
  apply (pg_lookup_user _ _ _ _ _ Hl) in Hus. rewrite <- has_visible_user, (Hfl Hcl) in Hus. done.
Qed.

Lemma inv_unmap_kernel extra st st1 v r :
  vm_inv extra st -> user_va v -> paging_unmap (page_table (g_kernel_context st)) v st = (st1, r) ->
  vm_inv extra st1 /\ g_slots st1 = g_slots st.
Proof.
  intros Hi Hv E. unfold paging_unmap in E.
  destruct (arch_paging_unmap _ v (tables st)) as [t' r'] eqn:Em. simplify_eq.
  split; [|done]. destruct (vi_kernel _ _ Hi) as [Hk _].
  destruct (pg_unmap _ _ _ _ _ _ (vi_pg _ _ Hi) Hk Hv Em) as (Hf & Ht & Ho & Hr & Hke & Hres).
  apply inv_kernel_pages; try done; [split; [done|]; split; [done|]; intros Htab; by apply Ht in Htab|apply Hr|].
  apply (private_kept _ _ _ v Hi Hr). intros Hcl. destruct Hres as [(_ & _ & Hn)|(_ & -> & _)]; [done|].
  apply (vi_private _ _ Hi Hcl). by apply user_page_va.
Qed.

(** Taking one mapping out of a slot and releasing its frame. *)
Lemma inv_unmap extra st st1 i s m rest r :
  vm_inv extra st -> g_slots st !! i = Some s -> used s = true -> mappings s ≡ₚ m :: rest ->
  paging_unmap (root_of s) (virt m) st = (st1, r) ->
  r = 0 /\ g_slots st1 = g_slots st /\ frames st1 = frames st /\
  vm_inv extra (free_frame (phys m) (with_slot i (map_mappings (fun _ => rest) s) st1)).
Proof.
  intros Hi Hs Hu Hp E. unfold paging_unmap in E.
  destruct (arch_paging_unmap _ (virt m) (tables st)) as [t' r'] eqn:Em. simplify_eq.
  pose proof (vi_slot _ _ Hi i s Hs Hu) as Hok.
  assert (Hm : m ∈ mappings s) by (rewrite Hp; left). pose proof (so_maps _ _ Hok m Hm) as Hmo.
  destruct (pg_unmap _ _ _ _ _ _ (vi_pg _ _ Hi) (so_root _ _ Hok) (mo_virt _ _ _ Hmo) Em)
    as (Hf & Ht & Ho & Hr & Hke & [(-> & _ & Hnu)|(_ & _ & Hn)]); [|rewrite (mo_lookup _ _ _ Hmo) in Hn; done].
  split; [done|]. split; [done|]. split; [done|].
  set (s' := map_mappings (fun _ => rest) s).
  assert (Hcnt : forall b, slot_owners b s = owns b m + slot_owners b s').
  { intros b. unfold slot_owners. rewrite (zsum_perm _ _ _ Hp). done. }
  assert (Hnd : NoDup (virt <$> m :: rest)) by (rewrite <- Hp; apply Hok).
  apply NoDup_cons in Hnd as [Hni Hnd].
  assert (Hi1 : vm_inv (bump (phys m) 1 extra) (with_slot i s' (set_pages t' (frames st) st))).
  { eapply inv_slot; eauto.
    - split; [done|]. intros a Ha Ha1 Hnt. split; [done|]. intros Htab. by apply Ht in Htab.
    - constructor; [apply Hr|done| | |].
      + pose proof (so_length _ _ Hok) as Hl. rewrite Hp in Hl. simpl in *. lia.
      + intros x Hx. eapply mapping_kept; [done|apply Hok; rewrite Hp; by right|].
        intros Ev. apply Hni. rewrite <- Ev. by apply list_elem_of_fmap_2.
      + apply (user_kept (tables st) t' _ (virt m) s s'); try done; [by apply Hmo|]. intros x Hx Hne.
        rewrite Hp in Hx. apply elem_of_cons in Hx as [->|Hx]; done.
    - intros b. unfold bump. pose proof (vi_extra _ _ Hi b). split_ifs; lia.
    - intros b. rewrite (Hcnt b). unfold bump, owns. rewrite (Z.eqb_sym (phys m) b). split_ifs; lia.
    - intros x Hx Hw Hst. rewrite (owners_insert _ _ s) by done. rewrite (Hcnt (phys x)).
      assert (Hx' : x ∈ mappings s) by (rewrite Hp; by right).
      pose proof (vi_iso _ _ Hi i s x Hs Hx' Hw Hst) as Hone. unfold owners in Hone.
      pose proof (slot_owners_ge s' x _ Hx eq_refl). pose proof (owners_ge _ _ _ (phys x) Hs).
      pose proof (owns_nonneg (phys x) m). rewrite (Hcnt (phys x)) in *. lia.
    - intros j s2 x _ _ _ _ _. rewrite (Hcnt (phys x)). pose proof (owns_nonneg (phys x) m). lia. }
  apply (inv_free _ _ (phys m)) in Hi1; [|pose proof (mo_phys _ _ _ Hmo); lia|].
  - eapply vm_inv_ext; [|done]. intros b. unfold bump. split_ifs; lia.
  - unfold bump. rewrite Z.eqb_refl. pose proof (vi_extra _ _ Hi (phys m)). lia.
Qed.

(** ** Contexts *)
Lemma vmm_create_context_inv extra st st' c :
  vm_inv extra st -> vmm_create_context st = (st', c) ->
  vm_inv extra st' /\
  match c with
  | None => g_slots st' = g_slots st
  | Some KernelCtx => False
  | Some (SlotCtx i) => exists s, g_slots st !! i = Some zero_slot /\ g_slots st' = <[i := s]> (g_slots st) /\
      used s = true /\ mappings s = [] /\ ~ pg_root (tables st) (root_of s)
  end /\ ram st' = ram st /\ running st' = running st /\ g_current_context st' = g_current_context st.
Proof.
  intros Hi E. unfold vmm_create_context in E. destruct (find_from _ _ _) as [i|] eqn:Ef; [|by simplify_eq].
  apply find_from_Some in Ef as (Hlt & Hu & _). apply negb_true_iff in Hu.
  destruct (lookup_lt_is_Some_2 (g_slots st) i) as [s0 Hs0]; [rewrite (vi_len _ _ Hi); lia|].
  rewrite (the_slot_eq _ _ _ Hs0) in Hu. pose proof (vi_empty _ _ Hi i s0 Hs0 Hu) as ->.
  destruct (arch_paging_create_root (tables st) (frames st)) as [[t p] root] eqn:Ec.
  destruct (pg_create _ _ _ _ _ (vi_pg _ _ Hi) Ec) as ([Hpg Hf] & Ho & Hroot).
  assert (Hpos : forall r, pg_root (tables st) r -> r <> 0).
  { intros r Hr. pose proof (pg_root_pos _ _ _ (vi_pg _ _ Hi) Hr). lia. }
  assert (Hi1 : vm_inv extra (set_pages t p st)).
  { destruct (vi_kernel _ _ Hi) as [Hk _]. apply inv_kernel_pages; try done.
    - intros r Hr _. apply Ho; auto.
    - by apply Ho; auto.
    - by eapply pg_kernel_create.
    - intros Hcl v Hv Hus. apply (vi_private _ _ Hi Hcl v Hv). apply (Ho _ Hk); auto. }
  destruct (Z.eqb_spec root 0); simplify_eq; [done|]. destruct Hroot as [|(Hr & Hnr & Hcopy)]; [done|].
  set (s := Slot true (Context root 0 VMM_DYNAMIC_BASE) []).
  rewrite (on_slot_eq _ _ zero_slot) by done. split; [|split; [by exists s|done]].
  assert (Hown : forall a, owners_in (<[i := s]> (g_slots st)) a = owners st a).
  { intros a. rewrite (owners_insert _ _ zero_slot) by done. unfold owners, slot_owners. simpl. lia. }
  pose proof (lookup_lt_Some _ _ _ Hs0) as Hlen.
  pose proof (lookup_insert_cases (g_slots st) i) as Hlk.
  assert (Hold : forall j x, g_slots st !! j = Some x -> used x = true -> root_of x <> root).
  { intros j x Hx Hux Er. apply Hnr. rewrite <- Er. by apply (so_root _ _ (vi_slot _ _ Hi j x Hx Hux)). }
  constructor; cbn [with_slot set_slots set_pages g_slots tables frames g_kernel_context g_current_context cr3 running];
    try apply Hi1; unfold owners; cbn [with_slot set_slots set_pages g_slots].
  - rewrite length_insert. apply Hi.
  - intros j x Hx Hux. apply Hlk in Hx as [[-> ->]|[_ Hx]]; [|by apply (vi_slot _ _ Hi1 j)].
    constructor; [done|constructor|simpl; lia|intros m Hm; by apply elem_of_nil in Hm|]. intros Hcl v Hv Hus.
    destruct (vi_private _ _ Hi Hcl v Hv). rewrite <- (proj2 (vi_kernel _ _ Hi)). by apply Hcopy.
  - intros j x Hx Hux. apply Hlk in Hx as [[-> ->]|[_ Hx]]; [done|]. by eapply (vi_empty _ _ Hi).
  - intros j x Hx Hux. apply Hlk in Hx as [[-> ->]|[_ Hx]]; [|by eapply (vi_roots _ _ Hi)].
    unfold s, root_of. simpl. intros ->. apply Hnr. apply Hi.
  - intros j k x y Hx Hy Hux Huy Er. apply Hlk in Hx as [[-> ->]|[_ Hx]], Hy as [[-> ->]|[_ Hy]]; [done| | |].
    + by destruct (Hold _ _ Hy Huy).
    + by destruct (Hold _ _ Hx Hux).
    + by eapply (vi_distinct _ _ Hi).
  - intros a Ha. rewrite Hown. apply (vi_refs _ _ Hi1 a Ha).
  - intros j x m Hx Hm Hw Hst. rewrite Hown. apply Hlk in Hx as [[-> ->]|[_ Hx]]; [by apply elem_of_nil in Hm|].
    by apply (vi_iso _ _ Hi j x).
  - intros cpu c Hc. destruct (vi_current _ _ Hi cpu c Hc) as [Hl Hr']. rewrite Hr'. destruct c as [|j]; [done|].
    destruct Hl as (x & Hx & Hux). assert (j <> i) by (intros ->; simplify_eq).
    cbn [ctx_live ctx with_slot set_slots set_pages g_slots]. rewrite (the_slot_eq _ _ _ Hx).
    rewrite (the_slot_eq _ _ x) by (simpl; by rewrite list_lookup_insert_ne).
    split; [exists x; by rewrite list_lookup_insert_ne|done].
Qed.

(** One round of the loop of [vmm_destroy_context]: the slot is read with the
    mappings that are still to be released. *)
Lemma release_one extra i s m l st :
  let sl := map_mappings (fun _ => m :: l) s in
  let st1 := release_mapping (root_of s) m st in
  vm_inv extra (with_slot i sl st) -> g_slots st !! i = Some s -> used s = true ->
  exists st2 r, paging_unmap (root_of sl) (virt m) (with_slot i sl st) = (st2, r) /\
    g_slots st1 = g_slots st /\ ram st1 = ram st /\ running st1 = running st /\
    free_frame (phys m) (with_slot i (map_mappings (fun _ => l) sl) st2) = with_slot i (map_mappings (fun _ => l) s) st1 /\
    vm_inv extra (free_frame (phys m) (with_slot i (map_mappings (fun _ => l) sl) st2)).
Proof.
  intros sl st1 Hi Hs Hu. pose proof (lookup_lt_Some _ _ _ Hs) as Hlt.
  assert (Hsl : g_slots (with_slot i sl st) !! i = Some sl) by (by apply list_lookup_insert_eq).
  destruct (paging_unmap (root_of sl) (virt m) (with_slot i sl st)) as [st2 r] eqn:E.
  destruct (inv_unmap _ _ _ i sl m l r Hi Hsl Hu ltac:(done) E) as (_ & _ & _ & Hi2).
  assert (Hom : owned m = true).
  { apply (mo_owned _ _ _ (so_maps _ _ (vi_slot _ _ Hi i sl Hsl Hu) m ltac:(left))). }
  exists st2, r. split; [done|].
  assert (Hst : g_slots st1 = g_slots st /\ ram st1 = ram st /\ running st1 = running st /\
    free_frame (phys m) (with_slot i (map_mappings (fun _ => l) sl) st2) = with_slot i (map_mappings (fun _ => l) s) st1).
  { unfold st1, release_mapping. rewrite Hom. unfold paging_unmap in *. change (root_of sl) with (root_of s) in E.
    cbn [with_slot set_slots tables] in E. destruct (arch_paging_unmap (root_of s) (virt m) (tables st)) as [t' r'].
    simplify_eq. split; [done|]. split; [done|]. split; [done|].
    unfold free_frame, with_slot, set_frames. cbn. by rewrite list_insert_insert_eq. }
  destruct Hst as (A & B & C & D). done.
Qed.

Lemma release_loop_inv extra i s l : forall st,
  vm_inv extra (with_slot i (map_mappings (fun _ => l) s) st) -> g_slots st !! i = Some s -> used s = true ->
  let st' := fold_left (fun st m => release_mapping (root_of s) m st) l st in
  vm_inv extra (with_slot i (map_mappings (fun _ => []) s) st') /\ g_slots st' = g_slots st /\
  ram st' = ram st /\ running st' = running st.
Proof.
  induction l as [|m l IH]; intros st Hi Hs Hu; [done|]. cbn [fold_left].
  destruct (release_one extra i s m l st Hi Hs Hu) as (st2 & r & _ & Hsl1 & Hram & Hrun & Heq & Hi2). rewrite Heq in Hi2.
  destruct (IH _ Hi2) as (A & B & C & D); [by rewrite Hsl1|done|].
  split; [done|]. rewrite B, C, D. done.
Qed.

(** Giving the root of an emptied slot back. *)
Lemma inv_drop_slot extra st i s t' p' :
  vm_inv extra st -> g_slots st !! i = Some s -> used s = true -> mappings s = [] ->
  (forall cpu, g_current_context st !! cpu <> Some (SlotCtx i)) ->
  arch_paging_destroy_root (root_of s) (tables st) (frames st) = (t', p') ->
  vm_inv extra (with_slot i zero_slot (set_pages t' p' st)).
Proof.
  intros Hi Hs Hu Hm Hcur E. pose proof (vi_slot _ _ Hi i s Hs Hu) as Hok.
  destruct (vi_kernel _ _ Hi) as [Hk Hke]. pose proof (vi_roots _ _ Hi i s Hs Hu) as Hnk.
  rewrite <- Hke in Hnk. destruct (pg_destroy _ _ _ _ _ (vi_pg _ _ Hi) (so_root _ _ Hok) Hnk E) as ([Hpg Hf] & Ho & _).
  assert (Hown : forall a, owners_in (<[i := zero_slot]> (g_slots st)) a = owners st a).
  { intros a. rewrite (owners_insert _ _ s) by done. unfold owners, slot_owners. rewrite Hm. simpl. lia. }
  pose proof (lookup_insert_cases (g_slots st) i) as Hlk. pose proof (lookup_lt_Some _ _ _ Hs) as Hlen.
  constructor; cbn [with_slot set_slots set_pages g_slots tables frames g_kernel_context g_current_context cr3 running];
    try apply Hi; unfold owners; cbn [with_slot set_slots set_pages g_slots]; try done.
  - rewrite length_insert. apply Hi.
  - rewrite Hke in Hnk. split; [apply Ho; [done|congruence]|]. rewrite <- Hke. by eapply pg_kernel_destroy.
  - intros Hcl v Hv Hus. apply (vi_private _ _ Hi Hcl v Hv). rewrite Hke in Hnk. apply (Ho _ Hk); [congruence|done|tauto|done].
  - intros j x Hx Hux. apply Hlk in Hx as [[-> ->]|[Hne Hx]]; [done|].
    apply (slot_ok_kept (tables st)); [by apply (vi_slot _ _ Hi j)|]. apply Ho; [by apply (vi_slot _ _ Hi j)|].
    intros Er; apply Hne; by eapply (vi_distinct _ _ Hi).
  - intros j x Hx Hux. apply Hlk in Hx as [[-> ->]|[_ Hx]]; [done|]. by eapply (vi_empty _ _ Hi).
  - intros j x Hx Hux. apply Hlk in Hx as [[-> ->]|[_ Hx]]; [done|]. by eapply (vi_roots _ _ Hi).
  - intros j k x y Hx Hy Hux Huy Er. apply Hlk in Hx as [[-> ->]|[_ Hx]], Hy as [[-> ->]|[_ Hy]]; try done.
    by eapply (vi_distinct _ _ Hi).
  - intros a Ha. rewrite Hown. intros Hpos. destruct (vi_refs _ _ Hi a Ha Hpos) as [Hnt Hc]. rewrite <- Hc.
    pose proof (Hf a Ha ltac:(lia) Hnt). tauto.
  - intros j x m' Hx Hm' Hw Hst. rewrite Hown. apply Hlk in Hx as [[-> ->]|[_ Hx]]; [by apply elem_of_nil in Hm'|].
    by apply (vi_iso _ _ Hi j x).
  - intros cpu c Hc. destruct (vi_current _ _ Hi cpu c Hc) as [Hl Hr']. rewrite Hr'. destruct c as [|j]; [done|].
    destruct Hl as (x & Hx & Hux). assert (j <> i) by (intros ->; by apply (Hcur cpu)).
    cbn [ctx_live ctx with_slot set_slots set_pages g_slots]. rewrite (the_slot_eq _ _ _ Hx).
    rewrite (the_slot_eq _ _ x) by (simpl; by rewrite list_lookup_insert_ne).
    split; [exists x; by rewrite list_lookup_insert_ne|done].
Qed.

Lemma existsb_current st c :
  existsb (cref_eqb c) (g_current_context st) = false -> forall cpu, g_current_context st !! cpu <> Some c.
Proof.
  intros E cpu Hc. apply not_true_iff_false in E. apply E. apply existsb_exists. exists c.
  split; [|unfold cref_eqb; by rewrite bool_decide_true]. apply list_elem_of_In. by eapply list_elem_of_lookup_2.
Qed.

(** The references to a frame are exactly those of mappings and of [extra],
    also when there are none. Dropping an address space keeps that: the frames
    of its mappings are released, not lost. *)
Definition counted extra st (a : Z) : Prop :=
  ~ pg_table (tables st) a /\ pmm_frame_refcount a (frames st) = owners st a + extra a.

Lemma unmap_counted extra st st1 i s m rest r a :
  vm_inv extra st -> g_slots st !! i = Some s -> used s = true -> mappings s ≡ₚ m :: rest ->
  paging_unmap (root_of s) (virt m) st = (st1, r) -> 0 <= a -> counted extra st a ->
  counted extra (free_frame (phys m) (with_slot i (map_mappings (fun _ => rest) s) st1)) a.
Proof.
  intros Hi Hs Hu Hp E Ha [Hnt Hc]. unfold paging_unmap in E.
  destruct (arch_paging_unmap _ (virt m) (tables st)) as [t' r'] eqn:Em. simplify_eq.
  pose proof (vi_slot _ _ Hi i s Hs Hu) as Hok.
  assert (Hm : m ∈ mappings s) by (rewrite Hp; left). pose proof (so_maps _ _ Hok m Hm) as Hmo.
  destruct (pg_unmap _ _ _ _ _ _ (vi_pg _ _ Hi) (so_root _ _ Hok) (mo_virt _ _ _ Hmo) Em) as (_ & Ht & _).
  pose proof (owners_of _ _ _ _ Hs Hm) as Ho. pose proof (vi_extra _ _ Hi (phys m)). destruct (mo_phys _ _ _ Hmo) as [Hp0 _].
  destruct (vi_refs _ _ Hi (phys m)) as [_ Hcm]; [lia|unfold owners; lia|].
  destruct (free_refs (frames st) (phys m) (pg_inv_pmm _ _ (vi_pg _ _ Hi))) as (_ & _ & Hr); [lia|unfold owners in Hcm; lia|].
  split; [cbn; auto|]. unfold owners, free_frame. cbn [with_slot set_slots set_frames set_pages g_slots frames].
  rewrite Hr by done. rewrite (owners_insert _ _ s) by done.
  assert (Hcnt : slot_owners a s = owns a m + slot_owners a (map_mappings (fun _ => rest) s))
    by (unfold slot_owners; by rewrite (zsum_perm _ _ _ Hp)).
  rewrite Hcnt. unfold owners in Hc. unfold owns. rewrite (Z.eqb_sym (phys m) a). split_ifs; lia.
Qed.

Lemma release_counted extra i s a l : forall st,
  vm_inv extra (with_slot i (map_mappings (fun _ => l) s) st) -> g_slots st !! i = Some s -> used s = true -> 0 <= a ->
  counted extra (with_slot i (map_mappings (fun _ => l) s) st) a ->
  counted extra (with_slot i (map_mappings (fun _ => []) s) (fold_left (fun st m => release_mapping (root_of s) m st) l st)) a.
Proof.
  induction l as [|m l IH]; intros st Hi Hs Hu Ha Hc; [done|]. cbn [fold_left].
  destruct (release_one extra i s m l st Hi Hs Hu) as (st2 & r & E & Hsl & _ & _ & Heq & Hi2).
  set (sl := map_mappings (fun _ => m :: l) s) in *.
  assert (Hsl' : g_slots (with_slot i sl st) !! i = Some sl) by (apply list_lookup_insert_eq; by eapply lookup_lt_Some).
  pose proof (unmap_counted _ _ _ i sl m l r a Hi Hsl' Hu ltac:(done) E Ha Hc) as Hc2. rewrite Heq in Hc2, Hi2.
  by apply IH; [|rewrite Hsl| | |].
Qed.

Lemma destroy_counted extra st c a :
  vm_inv extra st -> 0 <= a -> counted extra st a -> counted extra (vmm_destroy_context c st) a.
Proof.
  intros Hi Ha Hc. unfold vmm_destroy_context. destruct (slot_for st c) as [i|] eqn:Es; [|done].
  destruct (slot_for_inv _ _ _ _ Hi Es) as (-> & s & Hs & Hu & Hok).
  destruct (existsb _ _) eqn:Ec; [done|]. cbn [ctx]. rewrite (the_slot_eq _ _ _ Hs). fold (root_of s).
  assert (Hself : with_slot i (map_mappings (fun _ => mappings s) s) st = st).
  { unfold with_slot. rewrite list_insert_id; [by destruct st|]. rewrite Hs. by destruct s. }
  pose proof (release_loop_inv extra i s (mappings s) st) as Hl. pose proof (release_counted extra i s a (mappings s) st) as Hlc.
  rewrite Hself in Hl, Hlc. destruct (Hl Hi Hs Hu) as (Hi1 & Hsl & _). specialize (Hlc Hi Hs Hu Ha Hc). clear Hl.
  set (st1 := fold_left _ _ _) in *. destruct (arch_paging_destroy_root _ _ _) as [t' p'] eqn:Ed.
  set (s1 := map_mappings (fun _ => []) s) in *. pose proof (lookup_lt_Some _ _ _ Hs) as Hlt.
  assert (Hs1 : g_slots (with_slot i s1 st1) !! i = Some s1) by (cbn; rewrite Hsl; by apply list_lookup_insert_eq).
  pose proof (vi_slot _ _ Hi1 i s1 Hs1 Hu) as Hok1. pose proof (vi_roots _ _ Hi1 i s1 Hs1 Hu) as Hnk.
  rewrite <- (proj2 (vi_kernel _ _ Hi1)) in Hnk.
  destruct (pg_destroy _ _ _ _ _ (vi_pg _ _ Hi1) (so_root _ _ Hok1) Hnk Ed) as (_ & _ & Hr). destruct Hlc as [Hnt Hcnt].
  destruct (Hr a Ha Hnt) as [Hr1 Hnt']. rewrite (on_slot_eq _ _ s) by (cbn [set_pages g_slots]; by rewrite Hsl).
  split; [done|]. unfold owners in *. cbn [with_slot set_slots set_pages g_slots frames tables] in *. rewrite Hr1, Hcnt.
  by rewrite Hsl, !(owners_insert _ _ s) by done.
Qed.

Lemma vmm_destroy_context_inv extra st c :
  vm_inv extra st ->
  let st' := vmm_destroy_context c st in
  vm_inv extra st' /\ ram st' = ram st /\ running st' = running st /\
  ((st' = st /\ (slot_for st c = None \/ existsb (cref_eqb c) (g_current_context st) = true)) \/
   exists i, c = SlotCtx i /\ g_slots st' = <[i := zero_slot]> (g_slots st)).
Proof.
  intros Hi. unfold vmm_destroy_context. destruct (slot_for st c) as [i|] eqn:Es; [|tauto].
  destruct (slot_for_inv _ _ _ _ Hi Es) as (-> & s & Hs & Hu & Hok).
  destruct (existsb _ _) eqn:Ec; [tauto|]. cbn [ctx]. rewrite (the_slot_eq _ _ _ Hs).
  destruct (release_loop_inv extra i s (mappings s) st) as (Hi1 & Hsl & Hram & Hrun); [|done|done|].
  { replace (with_slot i _ st) with st; [done|]. unfold with_slot. rewrite list_insert_id; [by destruct st|].
    rewrite Hs. by destruct s. }
  unfold root_of in *. set (st1 := fold_left _ _ _) in *.
  assert (Hcur : g_current_context st1 = g_current_context st).
  { unfold st1. clear. generalize (mappings s). intros l. revert st. induction l as [|m l IH]; intros st; [done|].
    cbn [fold_left]. rewrite IH. unfold release_mapping, paging_unmap. destruct (arch_paging_unmap _ _ _). by destruct (owned m). }
  destruct (arch_paging_destroy_root _ _ _) as [t' p'] eqn:Ed.
  pose proof (lookup_lt_Some _ _ _ Hs) as Hlt.
  rewrite (on_slot_eq _ _ s) by (cbn [set_pages g_slots]; by rewrite Hsl).
  assert (Hi2 := inv_drop_slot extra _ i (map_mappings (fun _ => []) s) t' p' Hi1).
  replace (with_slot i zero_slot (set_pages t' p' st1)) with
    (with_slot i zero_slot (set_pages t' p' (with_slot i (map_mappings (fun _ => []) s) st1)))
    by (unfold with_slot; cbn; by rewrite list_insert_insert_eq).
  split; [|split_and!; [done|done|right; exists i; split; [done|]]].
  - apply Hi2; [cbn [with_slot set_slots g_slots]; rewrite Hsl; by apply list_lookup_insert_eq|done|done| |done].
    intros cpu. cbn [with_slot set_slots g_current_context]. rewrite Hcur. by apply existsb_current.
  - cbn [with_slot set_slots set_pages g_slots]. by rewrite list_insert_insert_eq, Hsl.
Qed.

Lemma vmm_switch_context_inv extra st cpu c :
  vm_inv extra st -> (forall i, c = Some (SlotCtx i) -> ctx_live st (SlotCtx i)) ->
  vm_inv extra (vmm_switch_context cpu c st).
Proof.
  intros Hi Hc. unfold vmm_switch_context. destruct (_ || _) eqn:E; [done|].
  destruct Hi. constructor; try done; cbn [set_current g_current_context cr3].
  - intros cpu' c' Hc'. pose proof (lookup_lt_Some _ _ _ Hc') as Hlt. rewrite length_insert in Hlt.
    destruct vi_cpus0 as [Hl1 Hl2]. apply lookup_insert_cases in Hc' as [[-> ->]|[Hne Hc']].
    + split; [destruct c as [[|i]|]; [done|by apply Hc|done]|]. apply list_lookup_insert_eq. lia.
    + destruct (vi_current0 cpu' c' Hc') as [A B]. split; [done|]. by rewrite list_lookup_insert_ne.
  - by rewrite !length_insert.
Qed.

(** ** Mappings *)
Lemma page_of_eq v : page_of v = v - v mod PAGE_SIZE.
Proof. unfold page_of. change (PAGE_SIZE - 1) with (2 ^ 12 - 1). by rewrite land_lnot_mask by lia. Qed.
Lemma page_of_aligned v : page_aligned v -> page_of v = v.
Proof. intros Hv. rewrite page_of_eq, Hv. lia. Qed.
Lemma page_of_is_aligned v : page_aligned (page_of v).
Proof. unfold page_aligned. rewrite page_of_eq. unfold PAGE_SIZE. dlia. Qed.
Lemma page_of_bounds v : page_of v <= v < page_of v + PAGE_SIZE.
Proof. rewrite page_of_eq. unfold PAGE_SIZE. dlia. Qed.

Lemma has_offset v : has v (PAGE_SIZE - 1) = negb (v mod PAGE_SIZE =? 0).
Proof. unfold has. change (PAGE_SIZE - 1) with (2 ^ 12 - 1). by rewrite land_low_mask by lia. Qed.

Lemma find_virt_Some (ms : list mapping) v j :
  find_from (fun j => virt (ms !!! j) =? v) 0 (length ms) = Some j ->
  exists m, ms !! j = Some m /\ virt m = v.
Proof.
  intros E. apply find_from_Some in E as (Hj & Hv & _).
  destruct (lookup_lt_is_Some_2 ms j) as [m Hm]; [lia|]. exists m. split; [done|].
  rewrite list_lookup_total_alt, Hm in Hv. simpl in Hv. lia.
Qed.

Lemma find_virt_None (ms : list mapping) v :
  find_from (fun j => virt (ms !!! j) =? v) 0 (length ms) = None -> forall m, m ∈ ms -> virt m <> v.
Proof.
  intros E m Hm Hv. apply list_elem_of_lookup in Hm as [j Hj]. rewrite find_from_None in E.
  specialize (E j ltac:(apply lookup_lt_Some in Hj; lia)). rewrite list_lookup_total_alt, Hj in E. simpl in E. lia.
Qed.

Lemma find_mapping_Some st i s v k j :
  g_slots st !! i = Some s -> find_mapping st (Some i) v = Some (k, j) ->
  k = i /\ exists m, mappings s !! j = Some m /\ virt m = page_of v /\ mapping_at st (k, j) = m.
Proof.
  intros Hs E. unfold find_mapping in E. rewrite (the_slot_eq _ _ _ Hs) in E.
  destruct (find_from _ _ _) as [j'|] eqn:Ef; simplify_eq. split; [done|].
  apply find_virt_Some in Ef as (m & Hm & Hv). exists m. split; [done|]. split; [done|].
  unfold mapping_at. cbn [fst snd]. by rewrite (the_slot_eq _ _ _ Hs), list_lookup_total_alt, Hm.
Qed.

Lemma find_mapping_None st i s v :
  g_slots st !! i = Some s -> find_mapping st (Some i) v = None -> forall m, m ∈ mappings s -> virt m <> page_of v.
Proof.
  intros Hs E. unfold find_mapping in E. rewrite (the_slot_eq _ _ _ Hs) in E.
  destruct (find_from _ _ _) eqn:Ef; [done|]. by apply find_virt_None.
Qed.

(** In a well-formed slot, a mapping is found by its page. *)
Lemma find_mapping_eq st i s v j m :
  g_slots st !! i = Some s -> NoDup (virt <$> mappings s) -> mappings s !! j = Some m -> virt m = page_of v ->
  find_mapping st (Some i) v = Some (i, j).
Proof.
  intros Hs Hnd Hm Hv. destruct (find_mapping st (Some i) v) as [[k j']|] eqn:E.
  - destruct (find_mapping_Some _ _ _ _ _ _ Hs E) as (-> & m' & Hm' & Hv' & _). f_equal. f_equal.
    apply (NoDup_lookup _ _ _ (virt m) Hnd); rewrite list_lookup_fmap; [rewrite Hm'|rewrite Hm]; simpl; congruence.
  - by destruct (find_mapping_None _ _ _ _ Hs E m (list_elem_of_lookup_2 _ _ _ Hm)).
Qed.

Lemma visible_present fl : visible (fl .| VMM_PRESENT) = visible fl.
Proof. unfold visible. rewrite Z.land_lor_distr_l. change (VMM_PRESENT .& 0x1e) with 0. apply Z.lor_0_r. Qed.

Lemma fmap_virt_insert (l : list mapping) j m m' :
  l !! j = Some m -> virt m' = virt m -> virt <$> <[j := m']> l = virt <$> l.
Proof.
  intros Hm Hv. rewrite list_fmap_insert. apply list_insert_id. by rewrite list_lookup_fmap, Hm, Hv.
Qed.

Lemma slot_owners_replace s j m m' a :
  mappings s !! j = Some m ->
  slot_owners a (map_mappings (fun _ => <[j := m']> (mappings s)) s) = slot_owners a s - owns a m + owns a m'.
Proof. apply zsum_insert. Qed.

Lemma slot_owners_append s m a :
  slot_owners a (map_mappings (fun _ => mappings s ++ [m]) s) = slot_owners a s + owns a m.
Proof. unfold slot_owners. cbn [map_mappings mappings]. rewrite zsum_app. simpl. lia. Qed.

(** No mapping may write to the frame at [a]. *)
Definition unwritten st (a : Z) : Prop :=
  forall i s m, g_slots st !! i = Some s -> m ∈ mappings s -> writable m -> phys m <> a.

Lemma unowned_unwritten extra st a : vm_inv extra st -> owners st a = 0 -> unwritten st a.
Proof.
  intros Hi Ho i s m Hs Hm _ <-. pose proof (owners_of _ _ _ _ Hs Hm). unfold owners in Ho. lia.
Qed.

(** The slot after page [v] was entered with an owned frame: the old mapping
    of the page is replaced, or one is added. *)
Inductive entered (s : slot) (m : mapping) : option mapping -> slot -> Prop :=
| entered_new : (forall x, x ∈ mappings s -> virt x <> virt m) -> (length (mappings s) < VMM_MAX_MAPPINGS)%nat ->
    entered s m None (map_mappings (fun _ => mappings s ++ [m]) s)
| entered_over j old : mappings s !! j = Some old -> virt old = virt m ->
    entered s m (Some old) (map_mappings (fun _ => <[j := m]> (mappings s)) s).

Lemma entered_facts t s m o s' :
  slot_ok t s -> entered s m o s' ->
  used s' = used s /\ s_context s' = s_context s /\ NoDup (virt <$> mappings s') /\
  (length (mappings s') <= VMM_MAX_MAPPINGS)%nat /\
  (forall x, x ∈ mappings s' -> (x ∈ mappings s /\ virt x <> virt m) \/ x = m) /\
  (forall a, slot_owners a s' = slot_owners a s + owns a m - match o with Some old => owns a old | None => 0 end) /\
  m ∈ mappings s' /\ (forall x, x ∈ mappings s -> virt x <> virt m -> x ∈ mappings s').
Proof.
  intros Hok He. destruct He as [Hno Hl|j old Hj Hv]; cbn [map_mappings used s_context mappings].
  - split; [done|]. split; [done|]. split; [|split; [rewrite length_app; simpl; lia|]].
    + rewrite fmap_app. apply NoDup_app. split; [apply Hok|]. split; [|apply NoDup_singleton].
      intros w Hw Hw'. apply list_elem_of_singleton in Hw' as ->. apply list_elem_of_fmap in Hw as (x & Hx & Hxin).
      by apply (Hno x).
    + split; [|split; [|split]].
      * intros x Hx. apply elem_of_app in Hx as [Hx|Hx]; [left; auto|right; by apply list_elem_of_singleton in Hx].
      * intros a. rewrite slot_owners_append. lia.
      * apply elem_of_app. right. by apply list_elem_of_singleton.
      * intros x Hx _. apply elem_of_app. by left.
  - split; [done|]. split; [done|]. split; [|split; [rewrite length_insert; apply Hok|]].
    + rewrite (fmap_virt_insert _ _ _ _ Hj) by done. apply Hok.
    + pose proof (lookup_lt_Some _ _ _ Hj) as Hlt. split; [|split; [|split]].
      * intros x Hx. apply list_elem_of_lookup in Hx as [k Hk].
        apply lookup_insert_cases in Hk as [[-> ->]|[Hne Hk]]; [by right|]. left.
        split; [by eapply list_elem_of_lookup_2|]. intros Hvx. apply Hne.
        apply (NoDup_lookup _ _ _ (virt m) (so_nodup _ _ Hok)); rewrite list_lookup_fmap;
          [rewrite Hk|rewrite Hj]; simpl; congruence.
      * intros a. rewrite (slot_owners_replace _ _ old) by done. lia.
      * apply list_elem_of_lookup. exists j. by apply list_lookup_insert_eq.
      * intros x Hx Hvx. apply list_elem_of_lookup in Hx as [k Hk]. apply list_elem_of_lookup. exists k.
        rewrite list_lookup_insert_ne; [done|]. intros <-. simplify_eq.
Qed.

(** References handed from the caller to the mapping, and from an overwritten
    mapping to nobody. *)
Definition handed (a : Z) (o : option mapping) (extra : Z -> Z) : Z -> Z :=
  match o with None => bump a (-1) extra | Some old => bump (phys old) 1 (bump a (-1) extra) end.

(** A writable mapping that stays in its slot stays the only owner when the
    slot takes no other reference to its frame. *)
Lemma iso_stays extra st i s s' x :
  vm_inv extra st -> g_slots st !! i = Some s -> x ∈ mappings s -> x ∈ mappings s' -> writable x ->
  strict = true -> slot_owners (phys x) s' <= slot_owners (phys x) s -> owners_in (<[i := s']> (g_slots st)) (phys x) = 1.
Proof.
  intros Hi Hs Hx Hx' Hw Hst Hle. pose proof (vi_iso _ _ Hi i s x Hs Hx Hw Hst) as Hone. unfold owners in Hone.
  pose proof (owners_of (<[i := s']> (g_slots st)) i s' x) as Hge.
  rewrite list_lookup_insert_eq in Hge by (by eapply lookup_lt_Some). specialize (Hge eq_refl Hx').
  rewrite (owners_insert _ _ s) in * by done. lia.
Qed.

Lemma inv_enter extra st st1 i s v a fl r :
  vm_inv extra st -> g_slots st !! i = Some s -> used s = true -> user_va v -> 0 < a -> phys_ok a ->
  1 <= extra a -> unwritten st a -> (has fl VMM_WRITABLE = true -> owners st a = 0) ->
  paging_map (root_of s) v a fl st = (st1, r) ->
  exists t' p', st1 = set_pages t' p' st /\
  ((r < 0 /\ vm_inv extra st1) \/
   (r = 0 /\ forall m o s', entered s m o s' -> virt m = v -> phys m = a -> owned m = true ->
      visible (flags m) = visible fl -> vm_inv (handed a o extra) (with_slot i s' st1))).
Proof.
  intros Hi Hs Hu Hv Ha Hal He Hun Hw E.
  destruct (inv_map _ _ _ _ _ _ _ _ _ Hi Hs Hu Hv Ha Hal E) as (t' & p' & -> & [(Hr & _ & Hi')|[-> Hput]]);
    exists t', p'; (split; [done|]); [left; done|right]. split; [done|].
  intros m o s' Hent Hvm Hpm Hom Hfm. pose proof (vi_slot _ _ Hi i s Hs Hu) as Hok.
  destruct (entered_facts _ _ _ _ _ Hok Hent) as (Hu' & Hc' & Hnd & Hlen & Hms & Hcnt & Hin & Hkeep).
  assert (Hle : forall x, phys x <> a -> slot_owners (phys x) s' <= slot_owners (phys x) s).
  { intros x Hx. rewrite Hcnt. pose proof (owns_nonneg (phys x) m) as Hn1. unfold owns in *. rewrite Hpm.
    destruct (Z.eqb_spec a (phys x)); [congruence|]. destruct o; split_ifs; lia. }
  apply Hput; try done; try congruence.
  - unfold root_of. by rewrite Hc'.
  - intros x Hx. destruct (Hms x Hx) as [[Hx1 Hx2]| ->]; [left; split; [done|congruence]|right; done].
  - intros x Hx Hne. apply Hkeep; [done|congruence].
  - by exists m.
  - intros b. pose proof (vi_extra _ _ Hi b). unfold handed, bump. destruct o, (Z.eqb_spec b a) as [->|]; split_ifs; lia.
  - intros b. rewrite (Hcnt b). unfold handed, bump, owns. rewrite Hpm.
    destruct o as [old|]; rewrite (Z.eqb_sym b a), ?(Z.eqb_sym b (phys _)); split_ifs; lia.
  - intros x Hx Hwx Hst. destruct (Hms x Hx) as [[Hx1 Hx2]| ->].
    + eapply iso_stays; eauto.
    + unfold writable in Hwx. rewrite has_visible, Hfm, <- has_visible in Hwx. specialize (Hw Hwx). unfold owners in Hw.
      rewrite Hpm, (owners_insert _ _ s), Hcnt by done.
      pose proof (owners_ge _ _ _ a Hs) as Hge. pose proof (slot_owners_nonneg a s).
      destruct o as [old|]; unfold owns; rewrite Hpm, Z.eqb_refl; [|lia].
      destruct (Z.eqb_spec (phys old) a) as [Ho|]; [|lia]. inversion Hent as [|j old' Hj]; subst.
      pose proof (slot_owners_ge s old _ (list_elem_of_lookup_2 _ _ _ Hj) Ho). lia.
  - intros j s2 x Hne Hs2 Hx Hwx _. apply Hle. by eapply Hun.
Qed.

(** Changing the flags of one mapping. *)
Lemma inv_reflag extra st st1 i s j m fl fl' r :
  vm_inv extra st -> g_slots st !! i = Some s -> used s = true -> mappings s !! j = Some m ->
  (has fl VMM_WRITABLE = true -> strict = true -> owners st (phys m) = 1) -> visible fl' = visible fl ->
  paging_map (root_of s) (virt m) (phys m) fl st = (st1, r) ->
  r = 0 /\ exists t' p', st1 = set_pages t' p' st /\ vm_inv extra (on_mapping (i, j) (set_flags fl') st1) /\
    on_mapping (i, j) (set_flags fl') st1 =
      with_slot i (map_mappings (fun _ => <[j := set_flags fl' m]> (mappings s)) s) st1.
Proof.
  intros Hi Hs Hu Hm Hw Hvis E. pose proof (vi_slot _ _ Hi i s Hs Hu) as Hok.
  pose proof (list_elem_of_lookup_2 _ _ _ Hm) as Hin. pose proof (so_maps _ _ Hok m Hin) as Hmo.
  destruct (inv_map _ _ _ _ _ _ _ _ _ Hi Hs Hu (mo_virt _ _ _ Hmo) (proj1 (mo_phys _ _ _ Hmo)) (proj2 (mo_phys _ _ _ Hmo)) E)
    as (t' & p' & -> & [(_ & Hno & _)|[-> Hput]]); [by destruct (Hno m Hin)|].
  split; [done|]. exists t', p'. split; [done|].
  set (s' := map_mappings (fun _ => <[j := set_flags fl' m]> (mappings s)) s).
  assert (Heq : on_mapping (i, j) (set_flags fl') (set_pages t' p' st) = with_slot i s' (set_pages t' p' st)).
  { unfold on_mapping. cbn [fst snd]. rewrite (on_slot_eq _ _ s) by done. unfold s', map_mappings.
    by rewrite (alter_insert _ _ _ _ Hm). }
  split; [|done]. rewrite Heq.
  pose proof (entered_over s (set_flags fl' m) j m Hm eq_refl) as Hent. fold s' in Hent.
  destruct (entered_facts _ _ _ _ _ Hok Hent)
    as (Hu' & Hc' & Hnd & Hlen & Hms & Hcnt & Hnew & Hkeep).
  assert (Hsame : forall a, slot_owners a s' = slot_owners a s) by (intros a; rewrite Hcnt; unfold owns; simpl; lia).
  apply Hput; try done.
  - intros x Hx. destruct (Hms x Hx) as [[Hx1 Hx2]| ->]; [left; done|right]. split_and!; try done. apply Hmo.
  - by eexists.
  - apply Hi.
  - intros b. by rewrite Hsame.
  - intros x Hx Hwx Hst. destruct (Hms x Hx) as [[Hx1 Hx2]| ->].
    + eapply iso_stays; eauto. by rewrite Hsame.
    + unfold writable in Hwx. cbn [set_flags flags phys] in *. rewrite has_visible, Hvis, <- has_visible in Hwx.
      rewrite (owners_insert _ _ s), Hsame by done. specialize (Hw Hwx Hst). unfold owners in Hw. lia.
  - intros k s2 x _ _ _ _ _. by rewrite Hsame.
Qed.

Lemma insert_snoc (l : list mapping) x y : <[length l := y]> (l ++ [x]) = l ++ [y].
Proof. rewrite insert_app_r_alt by lia. by rewrite Nat.sub_diag. Qed.

(** What [vmm_map_allocated] and [vmm_clone_context] do after [vmm_map]. *)
Definition own (c : cref) (v : Z) st : vmm T :=
  match find_mapping st (slot_for st c) v with Some m => on_mapping m (set_owned true) st | None => st end.

(** Fields no operation on page tables touches. *)
Definition same_rest st st' : Prop :=
  ram st' = ram st /\ running st' = running st /\ g_current_context st' = g_current_context st /\
  g_kernel_context st' = g_kernel_context st.

Lemma same_rest_trans st1 st2 st3 : same_rest st1 st2 -> same_rest st2 st3 -> same_rest st1 st3.
Proof. intros (A & B & C & D) (A' & B' & C' & D'). unfold same_rest. by rewrite A', B', C', D'. Qed.

Lemma used_root_pos extra st i s : vm_inv extra st -> g_slots st !! i = Some s -> used s = true -> (root_of s =? 0) = false.
Proof.
  intros Hi Hs Hu. pose proof (pg_root_pos _ _ _ (vi_pg _ _ Hi) (so_root _ _ (vi_slot _ _ Hi i s Hs Hu))). lia.
Qed.

Lemma own_eq st i s j m v :
  length (g_slots st) = VMM_MAX_CONTEXTS -> g_slots st !! i = Some s -> used s = true -> NoDup (virt <$> mappings s) ->
  mappings s !! j = Some m -> virt m = v -> page_aligned v ->
  own (SlotCtx i) v st = with_slot i (map_mappings (fun _ => <[j := set_owned true m]> (mappings s)) s) st.
Proof.
  intros Hl Hs Hu Hnd Hm Hv Hal. unfold own. rewrite (slot_for_slot _ _ _ Hl Hs Hu).
  rewrite (find_mapping_eq _ _ _ _ j m Hs Hnd Hm) by (by rewrite page_of_aligned).
  unfold on_mapping. cbn [fst snd]. rewrite (on_slot_eq _ _ _ _ Hs). unfold map_mappings.
  by rewrite (alter_insert _ _ _ _ Hm).
Qed.

Lemma vmm_map_own extra st st1 i s v a fl r :
  vm_inv extra st -> g_slots st !! i = Some s -> used s = true -> 0 <= v < 2 ^ 47 -> 0 < a -> phys_ok a ->
  1 <= extra a -> unwritten st a -> (has fl VMM_WRITABLE = true -> owners st a = 0) ->
  vmm_map (Some (SlotCtx i)) v a fl st = (st1, r) ->
  same_rest st st1 /\
  ((r < 0 /\ vm_inv extra st1 /\ g_slots st1 = g_slots st) \/
   (r = 0 /\ user_va v /\ same_rest st (own (SlotCtx i) v st1) /\
    exists o s', entered s (Mapping v a (fl .| VMM_PRESENT) true) o s' /\
      g_slots (own (SlotCtx i) v st1) = <[i := s']> (g_slots st) /\
      vm_inv (handed a o extra) (own (SlotCtx i) v st1))).
Proof.
  intros Hi Hs Hu Hv Ha Hal He Hun Hw E. pose proof (vi_slot _ _ Hi i s Hs Hu) as Hok.
  pose proof (lookup_lt_Some _ _ _ Hs) as Hlt.
  unfold vmm_map in E. cbn [ctx] in E. rewrite (the_slot_eq _ _ _ Hs) in E. fold (root_of s) in E.
  rewrite (used_root_pos _ _ _ _ Hi Hs Hu) in E. simpl orb in E.
  destruct (_ || has a (PAGE_SIZE - 1)) eqn:Ebad; [simplify_eq; split; [done|]; left; by split_and!|].
  rewrite !has_offset in Ebad. assert (Hva : user_va v) by (unfold user_va, page_aligned; lia).
  rewrite (slot_for_slot _ _ _ (vi_len _ _ Hi) Hs Hu) in E.
  destruct (match find_mapping st (Some i) v with Some _ => false | None => _ end) eqn:Efull;
    [simplify_eq; split; [done|]; left; by split_and!|].
  destruct (paging_map (root_of s) v a (fl .| VMM_PRESENT) st) as [st2 r2] eqn:Em.
  assert (Hw' : has (fl .| VMM_PRESENT) VMM_WRITABLE = true -> owners st a = 0).
  { rewrite has_visible, visible_present, <- has_visible. done. }
  destruct (inv_enter _ _ _ _ _ _ _ _ _ Hi Hs Hu Hva Ha Hal He Hun Hw' Em) as (t' & p' & -> & [[Hr Hi2]|[-> Hput]]).
  { destruct (Z.ltb_spec r2 0); [|lia]. simplify_eq. split; [done|]. left. by split_and!. }
  change (0 <? 0) with false in E. cbv iota in E.
  assert (Hsl : forall l, g_slots (with_slot i (map_mappings (fun _ => l) s) (set_pages t' p' st)) !! i =
            Some (map_mappings (fun _ => l) s)) by (intros; by apply list_lookup_insert_eq).
  assert (Hll : forall x, length (g_slots (with_slot i x (set_pages t' p' st))) = VMM_MAX_CONTEXTS).
  { intros. cbn [with_slot set_slots set_pages g_slots]. rewrite length_insert. apply Hi. }
  assert (Hent : exists o l', st1 = with_slot i (map_mappings (fun _ => l') s) (set_pages t' p' st) /\ r = 0 /\
     exists s', entered s (Mapping v a (fl .| VMM_PRESENT) true) o s' /\
       own (SlotCtx i) v st1 = with_slot i s' (set_pages t' p' st)).
  { destruct (find_mapping st (Some i) v) as [[k j]|] eqn:Ef.
    - destruct (find_mapping_Some _ _ _ _ _ _ Hs Ef) as (-> & m & Hm & Hvm & _).
      rewrite page_of_aligned in Hvm by apply Hva.
      set (m1 := Mapping v a (fl .| VMM_PRESENT) (owned m)).
      exists (Some m), (<[j := m1]> (mappings s)). unfold on_mapping in E. cbn [fst snd] in E.
      rewrite (on_slot_eq _ _ s) in E by done. simplify_eq.
      split; [unfold map_mappings; by rewrite (alter_insert _ _ _ _ Hm)|]. split; [done|].
      exists (map_mappings (fun _ => <[j := Mapping (virt m) a (fl .| VMM_PRESENT) true]> (mappings s)) s).
      split; [by apply entered_over|]. unfold map_mappings at 1. rewrite (alter_insert _ _ _ _ Hm).
      rewrite (own_eq _ i (map_mappings (fun _ => <[j := m1]> (mappings s)) s) j m1 (virt m));
        [|done|apply Hsl|done| |by apply list_lookup_insert_eq, (lookup_lt_Some _ _ _ Hm)|done|apply Hva].
      + unfold with_slot. cbn. by rewrite !list_insert_insert_eq.
      + cbn [map_mappings mappings]. rewrite (fmap_virt_insert _ _ _ _ Hm) by done. apply Hok.
    - pose proof (find_mapping_None _ _ _ _ Hs Ef) as Hno. rewrite page_of_aligned in Hno by apply Hva.
      rewrite (the_slot_eq _ _ _ Hs) in Efull. apply Nat.leb_gt in Efull.
      set (m1 := Mapping v a (fl .| VMM_PRESENT) false).
      exists None, (mappings s ++ [m1]). rewrite (on_slot_eq _ _ s) in E by done. simplify_eq.
      split; [done|]. split; [done|].
      exists (map_mappings (fun _ => mappings s ++ [Mapping v a (fl .| VMM_PRESENT) true]) s).
      split; [by apply entered_new|]. fold m1.
      destruct (entered_facts _ _ _ _ _ Hok (entered_new s m1 Hno Efull)) as (_ & _ & Hnd & _).
      change (map_mappings (fun l => l ++ [m1]) s) with (map_mappings (fun _ => mappings s ++ [m1]) s).
      rewrite (own_eq _ i (map_mappings (fun _ => mappings s ++ [m1]) s) (length (mappings s)) m1 v);
        [|done|apply Hsl|done|done|cbn; by apply list_lookup_middle|done|apply Hva].
      unfold with_slot, map_mappings. cbn. rewrite list_insert_insert_eq, insert_snoc. done. }
  destruct Hent as (o & l' & -> & -> & s' & Hent & Heq). split; [done|]. right. split; [done|]. split; [done|].
  rewrite Heq. split; [done|]. exists o, s'. split; [done|]. split; [done|]. by eapply Hput.
Qed.

(** ** Allocating, unmapping and copying pages *)
Lemma inv_ram extra st f : vm_inv extra st -> vm_inv extra (set_ram f st).
Proof. intros []. by constructor. Qed.

Lemma inv_running extra st u : vm_inv extra st -> uproc_ok u -> vm_inv extra (set_running u st).
Proof. intros [] Hu. by constructor. Qed.

(** The bytes of every page mapped in [st] are the same in [st']. *)
Definition pages_same st st' : Prop :=
  forall i s m k, g_slots st !! i = Some s -> m ∈ mappings s -> 0 <= k < PAGE_SIZE ->
    ram st' (phys m + k) = ram st (phys m + k).

(** Distinct frames do not overlap. *)
Lemma frames_disjoint a b k :
  page_aligned a -> page_aligned b -> a <> b -> 0 <= k < PAGE_SIZE -> (a <=? b + k) && (b + k <? a + PAGE_SIZE) = false.
Proof.
  unfold page_aligned, PAGE_SIZE. intros Ha Hb Hne Hk. apply andb_false_iff.
  destruct (Z.leb_spec a (b + k)), (Z.ltb_spec (b + k) (a + 4096)); [|tauto..]. exfalso. dlia.
Qed.

(** Writing a frame that no mapping has changes no mapped page. *)
Lemma fresh_frame_pages extra st st' a g :
  vm_inv extra st -> owners st a = 0 -> phys_ok a ->
  (forall x, ram st' x = if (a <=? x) && (x <? a + PAGE_SIZE) then g x else ram st x) -> pages_same st st'.
Proof.
  intros Hi Ho Ha Hr i s m k Hs Hm Hk. rewrite Hr, frames_disjoint; [done|apply Ha| | |done].
  - destruct (used s) eqn:Hu; [|rewrite (vi_empty _ _ Hi i s Hs Hu) in Hm; by apply elem_of_nil in Hm].
    apply (mo_phys _ _ _ (so_maps _ _ (vi_slot _ _ Hi i s Hs Hu) m Hm)).
  - intros ->. pose proof (owners_of _ _ _ _ Hs Hm). unfold owners in Ho. lia.
Qed.

Lemma bump_back a extra st : vm_inv (bump a (-1) (bump a 1 extra)) st -> vm_inv extra st.
Proof. apply vm_inv_ext. intros b. unfold bump. split_ifs; lia. Qed.

(** The references no mapping holds after a frame was mapped by
    [vmm_map_allocated] over [o]. *)
Definition leaked (o : option mapping) (extra : Z -> Z) : Z -> Z :=
  match o with None => extra | Some old => bump (phys old) 1 extra end.

Lemma handed_fresh a o extra st : vm_inv (handed a o (bump a 1 extra)) st -> vm_inv (leaked o extra) st.
Proof. apply vm_inv_ext. intros b. unfold handed, leaked, bump. destruct o; split_ifs; lia. Qed.

Lemma slot_for_None extra st i :
  vm_inv extra st -> slot_for st (SlotCtx i) = None -> page_table (ctx st (SlotCtx i)) = 0.
Proof.
  intros Hi E. cbn [ctx]. unfold the_slot. rewrite list_lookup_total_alt.
  destruct (g_slots st !! i) as [s|] eqn:Hs; [|done]. destruct (used s) eqn:Hu.
  - by rewrite (slot_for_slot _ _ _ (vi_len _ _ Hi) Hs Hu) in E.
  - by rewrite (vi_empty _ _ Hi i s Hs Hu).
Qed.

Lemma slot_for_kernel st : slot_for st KernelCtx = None.
Proof. destruct (slot_for st KernelCtx) eqn:E; [|done]. apply slot_for_Some in E as [E _]. done. Qed.

Lemma vmm_map_kernel extra st st1 v a fl r :
  vm_inv extra st -> 0 <= v < 2 ^ 47 -> 0 <= a < 2 ^ 52 -> (clean = true -> has fl VMM_USER = false) ->
  vmm_map (Some KernelCtx) v a fl st = (st1, r) ->
  vm_inv extra st1 /\ same_rest st st1 /\ g_slots st1 = g_slots st /\ r <= 0.
Proof.
  intros Hi Hv Ha Hfl E. unfold vmm_map in E. destruct (_ || has a (PAGE_SIZE - 1)) eqn:Ebad; [simplify_eq; done|].
  rewrite !has_offset in Ebad. rewrite slot_for_kernel in E. cbn [find_mapping ctx] in E.
  destruct (paging_map _ _ _ _ st) as [st2 r2] eqn:Em.
  assert (Hva : user_va v) by (unfold user_va, page_aligned; lia).
  assert (Hal : phys_ok a) by (unfold phys_ok, page_aligned; lia).
  assert (Hfl' : clean = true -> has (fl .| VMM_PRESENT) VMM_USER = false)
    by (intros; rewrite has_visible_user, visible_present, <- has_visible_user; auto).
  destruct (inv_map_kernel _ _ _ _ _ _ _ Hi Hva (proj1 Ha) Hal Hfl' Em)
    as (Hi2 & t' & p' & ->).
  destruct (Z.ltb_spec r2 0); simplify_eq; split_and!; done || lia.
Qed.

Lemma slot_flags i fl : clean = true -> SlotCtx i = KernelCtx -> has fl VMM_USER = false.
Proof. done. Qed.

Lemma vmm_map_allocated_inv extra st st' c v fl r a :
  vm_inv extra st -> 0 <= v < 2 ^ 47 -> (clean = true -> c = KernelCtx -> has fl VMM_USER = false) ->
  vmm_map_allocated (Some c) v fl st = (st', r, a) ->
  running st' = running st /\ g_current_context st' = g_current_context st /\ pages_same st st' /\
  ((r < 0 /\ vm_inv extra st' /\ g_slots st' = g_slots st) \/
   (r = 0 /\ c = KernelCtx /\ vm_inv (bump a 1 extra) st' /\ g_slots st' = g_slots st) \/
   (exists i s s' o, r = 0 /\ c = SlotCtx i /\ g_slots st !! i = Some s /\ used s = true /\ user_va v /\
      entered s (Mapping v a (fl .| VMM_PRESENT) true) o s' /\ g_slots st' = <[i := s']> (g_slots st) /\
      ram st' = mem_fill (ram st) a PAGE_SIZE 0 /\ owners st a = 0 /\ vm_inv (leaked o extra) st')).
Proof.
  intros Hi Hv Hfl E. unfold vmm_map_allocated in E. destruct (alloc_frame st) as [st1 a1] eqn:Ea.
  destruct (inv_alloc _ _ _ _ Hi Ea) as (p1 & -> & [[-> Hi1]|(Ha & Hal & Ho & He & Hi1)]).
  { change (0 =? 0) with true in E. cbv iota in E. simplify_eq.
    split; [done|]. split; [done|]. split; [by intros ? ? ? ?|]. by left. }
  destruct (Z.eqb_spec a1 0); [lia|]. set (st1 := set_ram _ _) in E.
  assert (Hi1' : vm_inv (bump a1 1 extra) st1) by (by apply inv_ram).
  assert (Hfree : forall st2, vm_inv (bump a1 1 extra) st2 -> vm_inv extra (free_frame a1 st2)).
  { intros st2 Hi2. apply (bump_back a1), inv_free; [done|lia|]. unfold bump. rewrite Z.eqb_refl, He. lia. }
  assert (Hpages : forall st2, ram st2 = ram st1 -> pages_same st st2).
  { intros st2 Hr. apply (fresh_frame_pages extra st st2 a1 (fun _ => 0)); try done. intros x. by rewrite Hr. }
  destruct (vmm_map (Some c) v a1 fl st1) as [st2 r2] eqn:Em.
  destruct c as [|i].
  - destruct (vmm_map_kernel _ _ _ _ _ _ _ Hi1' Hv (conj (Z.lt_le_incl _ _ Ha) (proj2 Hal)) (fun H => Hfl H eq_refl) Em) as (Hi2 & (Hr1 & Hr2 & Hr3 & _) & Hsl & Hr0).
    rewrite slot_for_kernel in E. cbn [find_mapping] in E. destruct (Z.ltb_spec r2 0); simplify_eq.
    + split_and!; [done|done|by apply Hpages|]. left. split_and!; [done|by apply Hfree|done].
    + split_and!; [done|done|by apply Hpages|]. right. left. split_and!; try done. 
  - destruct (slot_for st1 (SlotCtx i)) as [k|] eqn:Es.
    + destruct (slot_for_inv _ _ _ _ Hi1' Es) as (E1 & s & Hs & Hu & _). injection E1 as <-.
      assert (Hun : unwritten st1 a1) by (by apply (unowned_unwritten _ _ _ Hi1')).
      assert (He1 : 1 <= bump a1 1 extra a1) by (unfold bump; rewrite Z.eqb_refl, He; lia).
      destruct (vmm_map_own _ _ _ _ _ _ _ _ _ Hi1' Hs Hu Hv Ha Hal He1 Hun (fun _ => Ho) Em)
        as ((Hr1 & Hr2 & Hr3 & _) & [(Hr & Hi2 & Hsl)|(-> & Hva & (Hq1 & Hq2 & Hq3 & _) & o & s' & Hent & Hsl & Hi2)]).
      * destruct (Z.ltb_spec r2 0); [|lia]. simplify_eq. split_and!; [done|done|by apply Hpages|].
        left. split_and!; [done|by apply Hfree|done].
      * change (0 <? 0) with false in E. cbv iota in E. fold (own (SlotCtx i) v st2) in E. simplify_eq.
        split_and!; [done|done|by apply Hpages|]. right. right. exists i, s, s', o. split_and!; try done.
        by apply (handed_fresh a).
    + unfold vmm_map in Em. rewrite (slot_for_None _ _ _ Hi1' Es) in Em. simplify_eq/=.
      split_and!; [done|done|by apply Hpages|]. left. split_and!; [done|by apply Hfree|done].
Qed.

Lemma has_bit x n : 0 <= n -> has x (1 .<< n) = Z.testbit x n.
Proof. intros Hn. unfold has. rewrite land_pow2_testbit by done. by rewrite negb_involutive. Qed.

(** The flags [break_cow] gives a page: writable, private, otherwise as before. *)
Definition private_flags (fl : Z) : Z := ((fl .| VMM_WRITABLE) .& Z.lnot VMM_COW) .| VMM_PRESENT.

Lemma private_flags_spec fl :
  has (private_flags fl) VMM_WRITABLE = true /\ has (private_flags fl) VMM_COW = false /\
  has (private_flags fl) VMM_USER = has fl VMM_USER /\ has (private_flags fl) VMM_EXECUTABLE = has fl VMM_EXECUTABLE.
Proof.
  unfold private_flags, VMM_USER, VMM_EXECUTABLE, VMM_COW, VMM_WRITABLE, VMM_PRESENT. rewrite !has_bit by lia.
  rewrite !Z.lor_spec, !Z.land_spec, !Z.lor_spec, !Z.lnot_spec, !Z.shiftl_1_l, !Z.pow2_bits_eqb by lia.
  destruct (Z.testbit fl 1), (Z.testbit fl 2), (Z.testbit fl 4), (Z.testbit fl 5); done.
Qed.

Lemma on_mapping_eq st i s j m f :
  g_slots st !! i = Some s -> mappings s !! j = Some m ->
  on_mapping (i, j) f st = with_slot i (map_mappings (fun _ => <[j := f m]> (mappings s)) s) st.
Proof.
  intros Hs Hm. unfold on_mapping. cbn [fst snd]. rewrite (on_slot_eq _ _ _ _ Hs). unfold map_mappings.
  by rewrite (alter_insert _ _ _ _ Hm).
Qed.

(** [break_cow] gives the page a frame of its own with the same bytes. *)
Definition privatised st st' (c : cref) (page : Z) : Prop :=
  exists i s j m a, c = SlotCtx i /\ g_slots st !! i = Some s /\ used s = true /\ mappings s !! j = Some m /\
    virt m = page /\ has (flags m) VMM_COW = true /\
    g_slots st' = <[i := map_mappings (fun _ => <[j := Mapping page a (private_flags (flags m)) true]> (mappings s)) s]>
                  (g_slots st) /\
    (forall k, 0 <= k < PAGE_SIZE -> ram st' (a + k) = ram st (phys m + k)).

Lemma break_cow_inv extra st st' c page r :
  vm_inv extra st -> page_aligned page -> break_cow c page st = (st', r) ->
  vm_inv extra st' /\ pages_same st st' /\ running st' = running st /\
  ((r < 0 /\ g_slots st' = g_slots st) \/ (r = 0 /\ privatised st st' c page)).
Proof.
  intros Hi Hpage E. unfold break_cow in E.
  assert (Herr : forall e, e < 0 -> (st, e) = (st', r) -> vm_inv extra st' /\ pages_same st st' /\
    running st' = running st /\ ((r < 0 /\ g_slots st' = g_slots st) \/ (r = 0 /\ privatised st st' c page))).
  { intros e He Heq. simplify_eq. split; [done|]. split; [by intros ? ? ? ?|]. split; [done|]. by left. }
  destruct (slot_for st c) as [i|] eqn:Es; [|by eapply Herr; [|exact E]].
  destruct (slot_for_inv _ _ _ _ Hi Es) as (-> & s & Hs & Hu & Hok).
  destruct (find_mapping st (Some i) page) as [[k j]|] eqn:Ef;
    [|by eapply Herr; [|exact E]].
  destruct (find_mapping_Some _ _ _ _ _ _ Hs Ef) as (-> & m & Hm & Hvm & Hat). rewrite Hat in E. clear Hat.
  rewrite page_of_aligned in Hvm by done.
  pose proof (list_elem_of_lookup_2 _ _ _ Hm) as Hin. pose proof (so_maps _ _ Hok m Hin) as Hmo.
  destruct (mo_phys _ _ _ Hmo) as [Hp0 Hpal]. pose proof (mo_owned _ _ _ Hmo) as Hown. rewrite Hown in E.
  cbn [negb orb] in E. rewrite orb_false_r in E.
  destruct (has (flags m) VMM_COW) eqn:Hcow; cbn [negb] in E;
    [|by eapply Herr; [|exact E]].
  cbn [ctx] in E. rewrite (the_slot_eq _ _ _ Hs) in E. fold (root_of s) in E.
  set (w := (flags m .| VMM_WRITABLE) .& Z.lnot VMM_COW) in *.
  assert (Hvis : visible (w .| VMM_PRESENT) = visible w) by apply visible_present.
  pose proof (owners_of _ _ _ _ Hs Hin) as Hge. pose proof (vi_extra _ _ Hi (phys m)) as Hex.
  destruct (vi_refs _ _ Hi (phys m) ltac:(lia)) as [_ Hrc]; [unfold owners; lia|].
  destruct (Z.eqb_spec (pmm_frame_refcount (phys m) (frames st)) 1) as [Hone|Hmany].
  - destruct (paging_map (root_of s) page (phys m) w st) as [st1 r1] eqn:Em. rewrite <- Hvm in Em.
    destruct (inv_reflag _ _ _ _ _ _ _ _ (w .| VMM_PRESENT) _ Hi Hs Hu Hm ltac:(unfold owners in *; lia) Hvis Em)
      as (-> & t' & p' & -> & Hi1 & Heq).
    change (0 <? 0) with false in E. cbv iota in E. simplify_eq.
    split; [done|]. rewrite Heq. split; [by intros ? ? ? ?|]. split; [done|]. right. split; [done|].
    exists i, s, j, m, (phys m). split_and!; try done. unfold set_flags. by rewrite Hown.
  - destruct (alloc_frame st) as [st1 a] eqn:Ea.
    destruct (inv_alloc _ _ _ _ Hi Ea) as (p1 & -> & [[-> Hi1]|(Ha & Hal & Ho & He & Hi1)]).
    { change (0 =? 0) with true in E. cbv iota in E. simplify_eq. split; [done|]. split; [by intros ? ? ? ?|].
      split; [done|]. by left. }
    destruct (Z.eqb_spec a 0); [lia|]. set (st1 := set_ram _ _) in E.
    assert (Hi1' : vm_inv (bump a 1 extra) st1) by (by apply inv_ram).
    assert (He1 : 1 <= bump a 1 extra a) by (unfold bump; rewrite Z.eqb_refl, He; lia).
    assert (Hpages : forall st2, ram st2 = ram st1 -> pages_same st st2).
    { intros st2 Hr. apply (fresh_frame_pages extra st st2 a (fun x => ram st (phys m + (x - a)))); try done.
      intros x. by rewrite Hr. }
    destruct (paging_map (root_of s) page a w st1) as [st2 r2] eqn:Em.
    assert (Hva : user_va page) by (rewrite <- Hvm; apply Hmo).
    destruct (inv_enter _ _ _ i s _ _ _ _ Hi1' Hs Hu Hva Ha Hal He1 (unowned_unwritten _ _ _ Hi1' Ho) (fun _ => Ho) Em)
      as (t' & p' & -> & [[Hr Hi2]|[-> Hput]]).
    + destruct (Z.ltb_spec r2 0); [|lia]. simplify_eq.
      split; [apply (bump_back a), inv_free; done || lia|]. split; [by apply Hpages|]. split; [done|]. by left.
    + change (0 <? 0) with false in E. cbv iota in E.
      rewrite (on_mapping_eq _ _ s _ m) in E by done. simplify_eq. rewrite Hown.
      pose proof (Hput _ _ _ (entered_over s (Mapping (virt m) a (w .| VMM_PRESENT) true) j m Hm eq_refl)
        eq_refl eq_refl eq_refl Hvis) as Hi2.
      apply (inv_free _ _ (phys m)) in Hi2; [|lia|].
      * split; [|split; [by apply Hpages|split; [done|right]]].
        { eapply vm_inv_ext; [|exact Hi2]. intros b. unfold handed, bump. split_ifs; lia. }
        split; [done|]. exists i, s, j, m, a. split_and!; try done.
        intros k Hk. cbn. unfold mem_copy.
        replace ((a <=? a + k) && (a + k <? a + PAGE_SIZE)) with true by lia. f_equal. lia.
      * unfold handed, bump. pose proof (vi_extra _ _ Hi (phys m)). rewrite Z.eqb_refl. split_ifs; lia.
Qed.

(** Moving the last element over the removed one. *)
Lemma swap_remove_perm (l : list mapping) j m :
  l !! j = Some m -> l ≡ₚ m :: take (pred (length l)) (<[j := l !!! pred (length l)]> l).
Proof.
  destruct l as [|z l] using rev_ind; [done|]. clear IHl. intros Hj. rewrite length_app. simpl length.
  rewrite Nat.add_1_r. cbn [pred]. rewrite (lookup_total_app_r l) by lia. rewrite Nat.sub_diag. cbn.
  destruct (decide (j = length l)) as [->|Hne].
  - rewrite list_lookup_middle in Hj by done. simplify_eq. rewrite insert_snoc, take_app_length.
    rewrite (Permutation_app_comm l). done.
  - pose proof (lookup_lt_Some _ _ _ Hj) as Hlt. rewrite length_app in Hlt. simpl in Hlt.
    rewrite lookup_app_l in Hj by lia. rewrite insert_app_l by lia.
    rewrite take_app_length' by (by rewrite length_insert). rewrite insert_take_drop by lia.
    rewrite <- (take_drop_middle l j m Hj) at 1. rewrite <- app_assoc. cbn. rewrite <- Permutation_middle.
    constructor. rewrite app_assoc, (Permutation_app_comm _ [z]). cbn. by rewrite <- Permutation_middle.
Qed.

(** [arch_paging_unmap] of a page the slot does not record. *)
Lemma inv_unmap_absent extra st st1 i s v r :
  vm_inv extra st -> g_slots st !! i = Some s -> used s = true -> user_va v ->
  (forall m, m ∈ mappings s -> virt m <> v) -> paging_unmap (root_of s) v st = (st1, r) ->
  vm_inv extra st1 /\ g_slots st1 = g_slots st.
Proof.
  intros Hi Hs Hu Hv Hno E. unfold paging_unmap in E.
  destruct (arch_paging_unmap _ v (tables st)) as [t' r'] eqn:Em. simplify_eq. split; [|done].
  pose proof (vi_slot _ _ Hi i s Hs Hu) as Hok.
  destruct (pg_unmap _ _ _ _ _ _ (vi_pg _ _ Hi) (so_root _ _ Hok) Hv Em) as (Hf & Ht & Ho & Hr & Hke & Hres).
  replace (set_pages t' (frames st) st) with (with_slot i s (set_pages t' (frames st) st))
    by (unfold with_slot; cbn [set_pages g_slots]; by rewrite list_insert_id).
  eapply inv_slot; eauto.
  - split; [done|]. intros a Ha Ha1 Hnt. split; [done|]. intros Htab. by apply Ht in Htab.
  - pose proof Hok as [A B C D F]. constructor; [apply Hr|done|done| |].
    + intros m Hm. eapply mapping_kept; [done|by apply D|by apply Hno].
    + apply (user_kept (tables st) t' _ v s s); try done. intros Hcl Hus.
      destruct Hres as [(_ & _ & Hn)|(_ & -> & _)]; [done|]. apply F; [done|by apply user_page_va|done].
  - apply Hi.
  - intros m Hm Hw Hst. rewrite list_insert_id by done. by apply (vi_iso _ _ Hi i s).
  - intros. lia.
Qed.

Lemma paging_unmap_rest st st1 root v r : paging_unmap root v st = (st1, r) -> same_rest st st1 /\ g_slots st1 = g_slots st.
Proof. unfold paging_unmap. destruct (arch_paging_unmap _ _ _). intros. by simplify_eq. Qed.

Lemma vmm_unmap_inv extra st st' c v r :
  vm_inv extra st -> ctx_live st c -> 0 <= v < 2 ^ 47 -> vmm_unmap (Some c) v st = (st', r) ->
  vm_inv extra st' /\ same_rest st st' /\
  ((g_slots st' = g_slots st /\ forall i s m, c = SlotCtx i -> g_slots st !! i = Some s -> m ∈ mappings s -> virt m <> v) \/
   exists i s j m rest, c = SlotCtx i /\ g_slots st !! i = Some s /\ mappings s !! j = Some m /\ virt m = v /\ r = 0 /\
     mappings s ≡ₚ m :: rest /\ g_slots st' = <[i := map_mappings (fun _ => rest) s]> (g_slots st)).
Proof.
  intros Hi Hc Hv E. unfold vmm_unmap in E. destruct (_ || has v (PAGE_SIZE - 1)) eqn:Ebad.
  { simplify_eq. split; [done|]. split; [done|]. left. split; [done|]. intros i s m -> Hs Hm. destruct Hc as (s2 & Hs2 & Hu).
    rewrite Hs in Hs2. injection Hs2 as <-. destruct (mo_virt _ _ _ (so_maps _ _ (vi_slot _ _ Hi i s Hs Hu) m Hm)) as [Hva Hvb].
    intros Heq. rewrite has_offset, <- Heq in Ebad. unfold page_aligned in Hva. rewrite Hva in Ebad. change (negb (0 =? 0)) with false in Ebad. lia. }
  rewrite has_offset in Ebad. assert (Hva : user_va v) by (unfold user_va, page_aligned; lia).
  destruct (paging_unmap (page_table (ctx st c)) v st) as [st1 r1] eqn:Em.
  destruct (paging_unmap_rest _ _ _ _ _ Em) as [Hrest Hsl].
  destruct c as [|i].
  - destruct (inv_unmap_kernel _ _ _ _ _ Hi Hva Em) as [Hi1 _]. rewrite slot_for_kernel in E.
    destruct (r1 <? 0); simplify_eq; (split; [done|]; split; [done|]; left; by split).
  - destruct Hc as (s & Hs & Hu). cbn [ctx] in Em. rewrite (the_slot_eq _ _ _ Hs) in Em. fold (root_of s) in Em.
    assert (Es : slot_for st1 (SlotCtx i) = Some i) by (eapply slot_for_slot; rewrite ?Hsl; [apply Hi|done|done]).
    rewrite Es in E. rewrite <- Hsl in Hs. rewrite (the_slot_eq _ _ _ Hs) in E. rewrite Hsl in Hs.
    destruct (find_from _ _ _) as [j|] eqn:Ef.
    + apply find_virt_Some in Ef as (m & Hm & Hvm). rewrite (list_lookup_total_alt _ j), Hm in E. cbn [from_option] in E.
      pose proof (mo_owned _ _ _ (so_maps _ _ (vi_slot _ _ Hi i s Hs Hu) m (list_elem_of_lookup_2 _ _ _ Hm))) as Hom.
      cbn in E. rewrite Hom in E.
      set (rest := take (pred (length (mappings s))) (<[j := mappings s !!! pred (length (mappings s))]> (mappings s))) in *.
      assert (Hp : mappings s ≡ₚ m :: rest) by (by apply swap_remove_perm). rewrite <- Hvm in Em.
      destruct (inv_unmap _ _ _ i s m rest r1 Hi Hs Hu Hp Em) as (-> & _ & Hfr & Hi1).
      change (0 <? 0) with false in E. cbv iota in E. rewrite (on_slot_eq _ _ s) in E by (cbn; by rewrite Hsl).
      simplify_eq. split; [exact Hi1|]. split; [done|]. right. exists i, s, j, m, rest. split_and!; try done.
      cbn. by rewrite Hsl.
    + pose proof (find_virt_None _ _ Ef) as Hno.
      destruct (inv_unmap_absent _ _ _ _ _ _ _ Hi Hs Hu Hva Hno Em) as [Hi1 _].
      assert (Hnone : forall i2 s2 m, SlotCtx i = SlotCtx i2 -> g_slots st !! i2 = Some s2 -> m ∈ mappings s2 -> virt m <> v).
      { intros i2 s2 m [= <-] Hs2 Hm. rewrite Hs in Hs2. injection Hs2 as <-. by apply Hno. }
      destruct (r1 <? 0); simplify_eq; (split; [done|]; split; [done|]; by left).
Qed.

Lemma vmm_protect_inv extra st st' i s j m address fl r :
  vm_inv extra st -> g_slots st !! i = Some s -> used s = true -> mappings s !! j = Some m ->
  virt m = page_of address -> address <> 0 ->
  (has fl VMM_WRITABLE = true -> strict = true -> owners st (phys m) = 1) ->
  vmm_protect (Some (SlotCtx i)) address fl st = (st', r) ->
  r = 0 /\ vm_inv extra st' /\ same_rest st st' /\
  g_slots st' = <[i := map_mappings (fun _ => <[j := set_flags (fl .| VMM_PRESENT) m]> (mappings s)) s]> (g_slots st).
Proof.
  intros Hi Hs Hu Hm Hvm Hne Hw E. unfold vmm_protect in E. destruct (Z.eqb_spec address 0); [done|].
  rewrite (slot_for_slot _ _ _ (vi_len _ _ Hi) Hs Hu) in E. pose proof (vi_slot _ _ Hi i s Hs Hu) as Hok.
  rewrite (find_mapping_eq _ _ _ _ j m Hs (so_nodup _ _ Hok) Hm) in E
    by (rewrite page_of_aligned by apply page_of_is_aligned; done).
  unfold mapping_at in E. cbn [fst snd ctx] in E. rewrite (the_slot_eq _ _ _ Hs) in E. fold (root_of s) in E.
  rewrite list_lookup_total_alt, Hm in E. cbn in E. rewrite <- Hvm in E.
  destruct (paging_map (root_of s) (virt m) (phys m) (fl .| VMM_PRESENT) st) as [st1 r1] eqn:Em.
  assert (Hw' : has (fl .| VMM_PRESENT) VMM_WRITABLE = true -> strict = true -> owners st (phys m) = 1).
  { rewrite has_visible, visible_present, <- has_visible. done. }
  destruct (inv_reflag _ _ _ _ _ _ _ _ _ _ Hi Hs Hu Hm Hw' eq_refl Em) as (-> & t' & p' & -> & Hi1 & Heq).
  change (0 <? 0) with false in E. cbv iota in E. simplify_eq. split; [done|]. split; [done|]. by rewrite Heq.
Qed.
End Steps.
Abbreviation vm_inv := (vm_inv_at true).

(** ** Cloning an address space *)
Definition share_flags (fl : Z) : Z :=
  if has fl (VMM_WRITABLE .| VMM_COW) then (fl .& Z.lnot VMM_WRITABLE) .| VMM_COW else fl.
(** A mapping of the source, and of the clone, after it was shared. *)
Definition share_src (m : mapping) : mapping :=
  if has (flags m) (VMM_WRITABLE .| VMM_COW) then set_flags (share_flags (flags m) .| VMM_PRESENT) m else m.
Definition share_child (m : mapping) : mapping :=
  Mapping (virt m) (phys m) (share_flags (flags m) .| VMM_PRESENT) true.

Section Clone.
Context {T : Type} `{Paging T} {ck : Clean}.
Implicit Types (st : vmm T) (s c : slot) (m : mapping) (extra : Z -> Z) (L : list mapping).

Lemma share_flags_readonly fl : has (share_flags fl) VMM_WRITABLE = false.
Proof.
  unfold share_flags. destruct (has fl (VMM_WRITABLE .| VMM_COW)) eqn:E.
  - unfold VMM_WRITABLE, VMM_COW in *. rewrite has_bit, Z.lor_spec, Z.land_spec, Z.lnot_spec by lia.
    rewrite !Z.shiftl_1_l, !Z.pow2_bits_eqb by lia. by destruct (Z.testbit fl 1).
  - unfold has in *. apply negb_false_iff in E. apply Z.eqb_eq in E. apply negb_false_iff, Z.eqb_eq.
    rewrite Z.land_lor_distr_r in E. by apply Z.lor_eq_0_l in E.
Qed.

Lemma share_src_readonly m : has (flags (share_src m)) VMM_WRITABLE = false.
Proof.
  unfold share_src. destruct (has (flags m) (VMM_WRITABLE .| VMM_COW)) eqn:E.
  - cbn [set_flags flags]. rewrite has_visible, visible_present, <- has_visible. apply share_flags_readonly.
  - pose proof (share_flags_readonly (flags m)) as Hr. unfold share_flags in Hr. by rewrite E in Hr.
Qed.

Lemma share_src_same m : virt (share_src m) = virt m /\ phys (share_src m) = phys m /\ owned (share_src m) = owned m.
Proof. unfold share_src. by destruct (has _ _). Qed.

(** The slots while the first [k] mappings of the source and [i] of the clone
    are done: [G] are the slots at the start, [L] the mappings of [src]. *)
Section Loop.
Variables (G : list slot) (src cl : nat) (s c : slot) (L : list mapping).
Hypothesis (Hs : G !! src = Some s) (Hus : used s = true) (HL : mappings s = L).
Hypothesis (Hc : G !! cl = Some c) (Huc : used c = true) (Hne : src <> cl).

Definition src_slot (k : nat) : slot := map_mappings (fun _ => (share_src <$> take k L) ++ drop k L) s.
Definition cl_slot (i : nat) : slot := map_mappings (fun _ => share_child <$> take i L) c.
Definition clone_slots (k i : nat) : list slot := <[cl := cl_slot i]> (<[src := src_slot k]> G).

Lemma clone_slots_src k i : clone_slots k i !! src = Some (src_slot k).
Proof.
  unfold clone_slots. rewrite list_lookup_insert_ne by done. apply list_lookup_insert_eq. by eapply lookup_lt_Some.
Qed.
Lemma clone_slots_cl k i : clone_slots k i !! cl = Some (cl_slot i).
Proof. apply list_lookup_insert_eq. rewrite length_insert. by eapply lookup_lt_Some. Qed.

Lemma src_slot_lookup k i m :
  L !! i = Some m -> mappings (src_slot k) !! i = Some (if decide (i < k)%nat then share_src m else m).
Proof using Type.
  clear Hus Huc Hne.
  intros Hm. pose proof (lookup_lt_Some _ _ _ Hm). cbn [src_slot map_mappings mappings]. destruct (decide (i < k)%nat).
  - rewrite lookup_app_l by (rewrite length_fmap, length_take; lia).
    rewrite list_lookup_fmap, lookup_take_lt, Hm by lia. done.
  - rewrite lookup_app_r by (rewrite length_fmap, length_take; lia).
    rewrite length_fmap, length_take, lookup_drop. rewrite <- Hm. f_equal. lia.
Qed.

Lemma src_slot_next k m :
  L !! k = Some m ->
  <[k := share_src m]> (mappings (src_slot k)) = mappings (src_slot (S k)).
Proof using Type.
  clear Hus Huc Hne.
  intros Hm. pose proof (lookup_lt_Some _ _ _ Hm). cbn [src_slot map_mappings mappings].
  rewrite (take_S_r L k m Hm), fmap_app, <- app_assoc. rewrite insert_app_r_alt by (rewrite length_fmap, length_take; lia).
  f_equal. rewrite length_fmap, length_take, Nat.min_l, Nat.sub_diag by lia.
  by rewrite (drop_S L m k Hm).
Qed.

Lemma src_slot_stop k m : L !! k = Some m -> share_src m = m -> src_slot (S k) = src_slot k.
Proof using Type.
  clear Hus Huc Hne.
  intros Hm E. pose proof (src_slot_next k m Hm) as Hn. rewrite list_insert_id in Hn.
  - unfold src_slot, map_mappings in *. f_equal. by symmetry.
  - rewrite (src_slot_lookup k k m Hm). destruct (decide _); [lia|]. by rewrite E.
Qed.

Lemma clone_slots_set_src k i x :
  <[src := x]> (clone_slots k i) = <[cl := cl_slot i]> (<[src := x]> G).
Proof. unfold clone_slots. rewrite list_insert_insert_ne by done. by rewrite list_insert_insert_eq. Qed.
Lemma clone_slots_set_cl k i x :
  <[cl := x]> (clone_slots k i) = <[cl := x]> (<[src := src_slot k]> G).
Proof. unfold clone_slots. by rewrite list_insert_insert_eq. Qed.

(** Making the page of the source read-only. *)
Lemma share_protect extra st i m :
  vm_inv extra st -> g_slots st = clone_slots i i -> L !! i = Some m ->
  exists st1, vm_inv extra st1 /\ same_rest st st1 /\ g_slots st1 = clone_slots (S i) i /\
    (if has (flags m) (VMM_WRITABLE .| VMM_COW) then
       let '(st, protected) := paging_map (root_of (src_slot i)) (virt m) (phys m) (share_flags (flags m)) st in
       if protected <? 0 then (st, false)
       else (on_mapping (src, i) (set_flags (share_flags (flags m) .| VMM_PRESENT)) st, true)
     else (st, true)) = (st1, true).
Proof.
  intros Hi Hg Hm. pose proof (clone_slots_src i i) as Hsrc. rewrite <- Hg in Hsrc.
  pose proof (src_slot_lookup i i m Hm) as Hmi. rewrite decide_False in Hmi by lia.
  destruct (has (flags m) (VMM_WRITABLE .| VMM_COW)) eqn:Ec.
  - destruct (paging_map _ _ _ _ st) as [st1 r] eqn:Em.
    assert (Hw : has (share_flags (flags m)) VMM_WRITABLE = true -> true = true -> owners st (phys m) = 1)
      by (rewrite share_flags_readonly; done).
    destruct (inv_reflag _ _ _ _ _ _ _ _ (share_flags (flags m) .| VMM_PRESENT) _ Hi Hsrc Hus Hmi Hw
      (visible_present _) Em) as (-> & t' & p' & -> & Hi1 & Heq).
    change (0 <? 0) with false. cbv iota. eexists. split; [exact Hi1|]. rewrite Heq. split; [done|]. split; [|done].
    cbn [with_slot set_slots set_pages g_slots]. rewrite Hg, clone_slots_set_src. unfold clone_slots. do 2 f_equal.
    pose proof (src_slot_next i m Hm) as Hn. unfold share_src in Hn. rewrite Ec in Hn. rewrite Hn. done.
  - exists st. split; [done|]. split; [done|]. split; [|done]. rewrite Hg. unfold clone_slots.
    rewrite (src_slot_stop i m Hm); [done|]. unfold share_src. by rewrite Ec.
Qed.

(** After that no mapping may write to its frame. *)
Lemma shared_unwritten extra st i m :
  vm_inv extra st -> g_slots st = clone_slots (S i) i -> L !! i = Some m -> unwritten st (phys m).
Proof.
  intros Hi Hg Hm j x y Hx Hy Hw Hp. pose proof (clone_slots_src (S i) i) as Hsrc. rewrite <- Hg in Hsrc.
  pose proof (src_slot_lookup (S i) i m Hm) as Hmi. rewrite decide_True in Hmi by lia.
  destruct (share_src_same m) as (_ & Hsp & _). apply list_elem_of_lookup in Hy as [k Hk].
  pose proof (vi_iso _ _ Hi j x y Hx (list_elem_of_lookup_2 _ _ _ Hk) Hw eq_refl) as Hone. unfold owners in Hone.
  destruct (sole_owner _ _ _ _ _ _ _ y (share_src m) Hone Hx Hsrc Hk Hmi) as [-> ->]; [congruence|].
  simplify_eq. unfold writable in Hw. by rewrite share_src_readonly in Hw.
Qed.

Lemma share_mapping_inv extra st st' i m ok :
  vm_inv extra st -> g_slots st = clone_slots i i -> NoDup (virt <$> L) -> L !! i = Some m ->
  share_mapping src cl i st = (st', ok) ->
  vm_inv extra st' /\ same_rest st st' /\
  g_slots st' = clone_slots (S i) (if ok then S i else i).
Proof.
  intros Hi Hg Hnd Hm E. pose proof (clone_slots_src i i) as Hsrc. rewrite <- Hg in Hsrc.
  pose proof (src_slot_lookup i i m Hm) as Hmi. rewrite decide_False in Hmi by lia.
  pose proof (so_maps _ _ (vi_slot _ _ Hi src _ Hsrc Hus) m (list_elem_of_lookup_2 _ _ _ Hmi)) as Hmo.
  destruct (mo_virt _ _ _ Hmo) as [Hval Hvr]. destruct (mo_phys _ _ _ Hmo) as [Hp0 Hpal].
  unfold share_mapping in E. rewrite (the_slot_eq _ _ _ Hsrc) in E. fold (root_of (src_slot i)) in E.
  unfold mapping_at in E. cbn [fst snd] in E. rewrite (the_slot_eq _ _ _ Hsrc) in E.
  rewrite list_lookup_total_alt, Hmi in E. cbn [default from_option id] in E. rewrite (mo_owned _ _ _ Hmo) in E.
  rewrite andb_true_l in E. fold (share_flags (flags m)) in E.
  destruct (share_protect extra st i m Hi Hg Hm) as (st1 & Hi1 & Hrest1 & Hg1 & E1).
  assert (E1' : (if has (flags m) (VMM_WRITABLE .| VMM_COW) then
       let '(st, protected) := paging_map (root_of (src_slot i)) (virt m) (phys m) (share_flags (flags m)) st in
       if protected <? 0 then (st, false)
       else (on_mapping (src, i) (set_flags (share_flags (flags m) .| VMM_PRESENT)) st, true)
     else (st, true)) = (st1, true)) by exact E1.
  rewrite E1' in E. cbn [negb] in E. clear E1 E1'.
  pose proof (shared_unwritten _ _ _ _ Hi1 Hg1 Hm) as Hun.
  pose proof (clone_slots_src (S i) i) as Hsrc1. rewrite <- Hg1 in Hsrc1.
  pose proof (src_slot_lookup (S i) i m Hm) as Hmi1. rewrite decide_True in Hmi1 by lia.
  destruct (share_src_same m) as (_ & Hsp & _).
  pose proof (owners_of _ _ _ _ Hsrc1 (list_elem_of_lookup_2 _ _ _ Hmi1)) as Hown. rewrite Hsp in Hown.
  destruct (retain_frame (phys m) st1) as [st2 ok2] eqn:Er.
  destruct (inv_retain extra st1 _ (phys m) _ Hi1 ltac:(lia) ltac:(unfold owners; lia) Er) as (p2 & -> & Hi2).
  destruct ok2; cbn [negb] in E; [|simplify_eq; by split_and!].
  pose proof (clone_slots_cl (S i) i) as Hcl. rewrite <- Hg1 in Hcl.
  destruct (vmm_map (Some (SlotCtx cl)) (virt m) (phys m) (share_flags (flags m)) (set_frames p2 st1)) as [st3 r] eqn:Ev.
  assert (He : 1 <= bump (phys m) 1 extra (phys m)).
  { unfold bump. rewrite Z.eqb_refl. pose proof (vi_extra _ _ Hi (phys m)). lia. }
  destruct (vmm_map_own (bump (phys m) 1 extra) _ _ cl (cl_slot i) (virt m) (phys m) (share_flags (flags m)) r Hi2 Hcl Huc ltac:(lia) Hp0 Hpal He Hun
    ltac:(rewrite share_flags_readonly; done) Ev)
    as (Hrest3 & [(Hr & Hi3 & Hg3)|(-> & _ & Hrest4 & o & s' & Hent & Hg4 & Hi4)]).
  - destruct (Z.ltb_spec r 0); [|lia]. simplify_eq. split; [apply (bump_back (phys m)), inv_free; done || lia|].
    split; [exact (same_rest_trans _ _ _ Hrest1 Hrest3)|]. cbn. rewrite Hg3. exact Hg1.
  - change (0 <? 0) with false in E. cbv iota in E.
    assert (E' : (own (SlotCtx cl) (virt m) st3, true) = (st', ok)).
    { rewrite <- E. unfold own. by destruct (find_mapping _ _ _). }
    simplify_eq. destruct Hent as [Hno Hlt|j old Hj Hv].
    + split; [by apply (bump_back (phys m))|]. split; [exact (same_rest_trans _ _ _ Hrest1 Hrest4)|].
      rewrite Hg4. cbn [set_frames set_pages g_slots]. rewrite Hg1, clone_slots_set_cl. unfold clone_slots. f_equal.
      unfold cl_slot, map_mappings. f_equal. cbn [mappings]. rewrite (take_S_r L i m Hm), fmap_app. done.
    + exfalso. cbn [cl_slot map_mappings mappings] in Hj. rewrite list_lookup_fmap in Hj.
      destruct (take i L !! j) as [x|] eqn:Ex; simplify_eq/=. pose proof (lookup_lt_Some _ _ _ Ex) as Hlt.
      rewrite length_take in Hlt. rewrite lookup_take_lt in Ex by lia.
      assert (j = i); [|lia]. apply (NoDup_lookup _ _ _ (virt m) Hnd); rewrite list_lookup_fmap; [rewrite Ex|rewrite Hm]; simpl; congruence.
Qed.

Lemma share_loop_inv extra n : forall st st' i ok,
  vm_inv extra st -> g_slots st = clone_slots i i -> NoDup (virt <$> L) -> (i + n = length L)%nat ->
  share_loop src cl n i st = (st', ok) ->
  vm_inv extra st' /\ same_rest st st' /\
  if ok then g_slots st' = clone_slots (length L) (length L)
  else exists k, (k <= length L)%nat /\ g_slots st' = clone_slots k (pred k).
Proof.
  induction n as [|n IH]; intros st st' i ok Hi Hg Hnd Hn E.
  - cbn in E. simplify_eq. split; [done|]. split; [done|]. rewrite Hg. f_equal; lia.
  - cbn [share_loop] in E. destruct (lookup_lt_is_Some_2 L i) as [m Hm]; [lia|].
    destruct (share_mapping src cl i st) as [st1 ok1] eqn:E1.
    destruct (share_mapping_inv _ _ _ _ _ _ Hi Hg Hnd Hm E1) as (Hi1 & Hr1 & Hg1). destruct ok1.
    + destruct (IH _ _ _ _ Hi1 Hg1 Hnd ltac:(lia) E) as (Hi2 & Hr2 & Hg2).
      split; [done|]. split; [by eapply same_rest_trans|done].
    + simplify_eq. split; [done|]. split; [done|]. exists (S i). split; [lia|done].
Qed.

(** Mappings that differ in their flags only. *)
Definition same_pages (M : list mapping) : Prop :=
  length M = length L /\ forall j m l, M !! j = Some m -> L !! j = Some l -> set_flags (flags l) m = l.

Lemma restore_loop_inv extra cx fs : forall st M i,
  vm_inv_at false extra st -> g_slots st = <[cl := cx]> (<[src := map_mappings (fun _ => M) s]> G) ->
  same_pages M -> take i M = take i L -> fs = flags <$> drop i L ->
  let st' := restore_loop src fs i st in
  vm_inv_at false extra st' /\ same_rest st st' /\ g_slots st' = <[cl := cx]> G.
Proof using H1 Hs Hus HL Hne.
  clear Huc.
  induction fs as [|f fs IH]; intros st M i Hi Hg [Hlen Hsp] Htake Hfs; cbn [restore_loop].
  - split; [done|]. split; [done|]. rewrite Hg. f_equal.
    symmetry in Hfs. apply fmap_nil_inv in Hfs.
    assert (Hd : (length L <= i)%nat) by (pose proof (length_drop L i) as Hd; rewrite Hfs in Hd; simpl in Hd; lia).
    rewrite !take_ge in Htake by lia. subst M. apply list_insert_id. rewrite Hs, <- HL. by destruct s.
  - destruct (L !! i) as [l|] eqn:El.
    2: { apply lookup_ge_None in El. rewrite drop_ge in Hfs by lia. done. }
    rewrite (drop_S L l i El) in Hfs. cbn in Hfs. injection Hfs as -> ->.
    pose proof (lookup_lt_Some _ _ _ El) as Hlt. destruct (lookup_lt_is_Some_2 M i) as [m Hm]; [lia|].
    pose proof (Hsp i m l Hm El) as Hml.
    assert (Hsrc : g_slots st !! src = Some (map_mappings (fun _ => M) s)).
    { rewrite Hg, list_lookup_insert_ne by done. apply list_lookup_insert_eq. by eapply lookup_lt_Some. }
    assert (Hat : mapping_at st (src, i) = m).
    { unfold mapping_at. cbn [fst snd]. rewrite (the_slot_eq _ _ _ Hsrc). cbn. by rewrite list_lookup_total_alt, Hm. }
    rewrite Hat. destruct (Z.eqb_spec (flags m) (flags l)) as [Ef|Ef].
    + apply (IH st M (S i)); try done. rewrite (take_S_r M i m Hm), (take_S_r L i l El), Htake. do 2 f_equal.
      rewrite <- Hml, <- Ef. by destruct m.
    + rewrite (the_slot_eq _ _ _ Hsrc). fold (root_of (map_mappings (fun _ => M) s)).
      destruct (paging_map _ _ _ _ st) as [st1 r] eqn:Em.
      destruct (inv_reflag _ _ _ _ _ _ _ _ (flags l) _ Hi Hsrc Hus Hm ltac:(done) eq_refl Em)
        as (-> & t' & p' & -> & Hi1 & Heq). cbn [fst].
      destruct (IH (on_mapping (src, i) (set_flags (flags l)) (set_pages t' p' st)) (<[i := l]> M) (S i) Hi1) as (A & B & C).
      * rewrite Heq. cbn [with_slot set_slots set_pages g_slots]. rewrite Hg, list_insert_insert_ne by done.
        rewrite list_insert_insert_eq. cbn [map_mappings mappings]. rewrite Hml. done.
      * split; [by rewrite length_insert|]. intros j m' l' Hm' Hl'.
        apply lookup_insert_cases in Hm' as [[-> ->]|[_ Hm']]; [|by eapply Hsp].
        rewrite El in Hl'. injection Hl' as <-. by destruct l.
      * rewrite (take_S_r L i l El), (take_S_r _ i l); [|apply list_lookup_insert_eq; lia].
        by rewrite take_insert_ge, Htake by lia.
      * done.
      * split; [done|]. split; [|done]. eapply same_rest_trans; [|exact B]. by rewrite Heq.
Qed.

Lemma src_slot_same k : same_pages ((share_src <$> take k L) ++ drop k L).
Proof using s L.
  clear Hus Huc Hne.
  split; [rewrite length_app, length_fmap, length_take, length_drop; lia|].
  intros j m l Hm Hl. pose proof (src_slot_lookup k j l Hl) as Hj. cbn [src_slot map_mappings mappings] in Hj.
  rewrite Hm in Hj. injection Hj as ->. destruct (decide _); [|by destruct l].
  unfold share_src. destruct (has _ _); by destruct l.
Qed.
End Loop.

Lemma inv_weaken extra st : vm_inv extra st -> vm_inv_at false extra st.
Proof. intros []. constructor; try done. Qed.

Lemma inv_strengthen extra st st' :
  vm_inv extra st -> vm_inv_at false extra st' -> g_slots st' = g_slots st -> vm_inv extra st'.
Proof.
  intros Hi [] Hg. constructor; try done. unfold owners. rewrite Hg. intros. by eapply (vi_iso _ _ Hi).
Qed.

(** A clone that failed: the flags of the source are restored and the new
    context goes away. *)
Lemma clone_rollback extra st0 st1 st2 src cl s x k :
  vm_inv extra st0 -> vm_inv extra st2 -> g_slots st0 !! src = Some s -> used s = true ->
  g_slots st0 !! cl = Some zero_slot -> used x = true -> src <> cl ->
  (forall cpu, g_current_context st2 !! cpu <> Some (SlotCtx cl)) ->
  g_slots st2 = clone_slots (<[cl := x]> (g_slots st0)) src cl s x (mappings s) k (pred k) ->
  st1 = restore_loop src (flags <$> mappings s) 0 st2 ->
  let st' := vmm_destroy_context (SlotCtx cl) st1 in
  vm_inv extra st' /\ g_slots st' = g_slots st0 /\ ram st' = ram st2 /\ running st' = running st2.
Proof.
  intros Hi0 Hi2 Hs Hu Hz Hux Hne Hcur Hg2 ->. pose proof (lookup_lt_Some _ _ _ Hz) as Hlc.
  set (G := <[cl := x]> (g_slots st0)) in *.
  assert (HGs : G !! src = Some s) by (unfold G; by rewrite list_lookup_insert_ne).
  destruct (restore_loop_inv G src cl s (mappings s) HGs Hu eq_refl Hne extra (cl_slot x (mappings s) (pred k))
    (flags <$> mappings s) st2 ((share_src <$> take k (mappings s)) ++ drop k (mappings s)) 0)
    as (Hi3 & (Hr1 & Hr2 & Hr3 & _) & Hg3); [by apply inv_weaken|exact Hg2|by apply (src_slot_same s)|by rewrite !take_0|done|].
  set (st3 := restore_loop _ _ _ _) in *.
  destruct (vmm_destroy_context_inv _ _ (SlotCtx cl) Hi3) as (Hi4 & Hram & Hrun & [[_ [Hn|Hn]]|(i & Ei & Hg4)]).
  - exfalso. rewrite (slot_for_slot st3 cl (cl_slot x (mappings s) (pred k))) in Hn; [done|apply Hi3| |done].
    rewrite Hg3. apply list_lookup_insert_eq. unfold G. by rewrite length_insert.
  - exfalso. apply existsb_exists in Hn as (c & Hc & Heq). unfold cref_eqb in Heq. apply bool_decide_eq_true in Heq as <-.
    apply list_elem_of_In, list_elem_of_lookup in Hc as [cpu Hc]. rewrite Hr3 in Hc. by apply (Hcur cpu).
  - injection Ei as <-. cbv zeta.
    assert (Hg5 : g_slots (vmm_destroy_context (SlotCtx cl) st3) = g_slots st0).
    { rewrite Hg4, Hg3. unfold G. rewrite !list_insert_insert_eq. by apply list_insert_id. }
    split; [exact (inv_strengthen extra st0 _ Hi0 Hi4 Hg5)|]. split; [done|]. split; congruence.
Qed.

Lemma vmm_clone_context_inv extra st st' src r :
  vm_inv extra st -> ctx_live st src -> vmm_clone_context (Some src) st = (st', r) ->
  vm_inv extra st' /\ ram st' = ram st /\ running st' = running st /\
  match r with
  | None => g_slots st' = g_slots st
  | Some KernelCtx => False
  | Some (SlotCtx c) => g_slots st !! c = Some zero_slot /\ exists x, used x = true /\
      match src with
      | KernelCtx => mappings x = [] /\ g_slots st' = <[c := x]> (g_slots st)
      | SlotCtx i => exists s, g_slots st !! i = Some s /\ i <> c /\
          mappings x = share_child <$> mappings s /\ next_free (s_context x) = next_free (s_context s) /\
          g_slots st' = <[c := x]> (<[i := map_mappings (fmap share_src) s]> (g_slots st))
      end
  end.
Proof.
  intros Hi Hlive E. unfold vmm_clone_context in E. destruct (vmm_create_context st) as [st1 c] eqn:Ec.
  destruct (vmm_create_context_inv _ _ _ _ Hi Ec) as (Hi1 & Hcr & Hram & Hrun & Hcur).
  destruct c as [[|c]|]; [done| |by simplify_eq]. destruct Hcr as (x & Hz & Hg1 & Hux & Hmx & Hnr).
  pose proof (lookup_lt_Some _ _ _ Hz) as Hlc. destruct src as [|i].
  { rewrite slot_for_kernel in E. simplify_eq. split_and!; try done. by exists x. }
  destruct Hlive as (s & Hs & Hu). assert (Hne : i <> c) by (intros ->; simplify_eq).
  assert (Hs1 : g_slots st1 !! i = Some s) by (rewrite Hg1; by rewrite list_lookup_insert_ne).
  rewrite (slot_for_slot _ _ _ (vi_len _ _ Hi1) Hs1 Hu), (the_slot_eq _ _ _ Hs1), length_fmap in E.
  pose proof (vi_slot _ _ Hi i s Hs Hu) as Hok.
  assert (Hc1 : g_slots st1 !! c = Some x) by (rewrite Hg1; by apply list_lookup_insert_eq).
  assert (Hstart : g_slots st1 = clone_slots (g_slots st1) i c s x (mappings s) 0 0).
  { unfold clone_slots, src_slot, cl_slot. rewrite take_0, drop_0. cbn [fmap list_fmap app].
    rewrite (list_insert_id (g_slots st1) i); [|rewrite Hs1; by destruct s].
    symmetry. apply list_insert_id. rewrite Hc1. f_equal. destruct x. simpl in *. by subst. }
  destruct (share_loop i c (length (mappings s)) 0 st1) as [st2 ok] eqn:El.
  destruct (share_loop_inv (g_slots st1) i c s x (mappings s) Hs1 Hu Hc1 Hux Hne extra _ _ _ _ _ Hi1 Hstart
    (so_nodup _ _ Hok) eq_refl El) as (Hi2 & (Hr1 & Hr2 & Hr3 & _) & Hg2). destruct ok.
  - simplify_eq. cbn [on_ctx ctx].
    assert (Hsi : g_slots st2 !! i = Some (src_slot s (mappings s) (length (mappings s))))
      by (rewrite Hg2; by apply clone_slots_src).
    assert (Hci : g_slots st2 !! c = Some (cl_slot x (mappings s) (length (mappings s))))
      by (rewrite Hg2; by apply clone_slots_cl).
    rewrite (the_slot_eq _ _ _ Hsi), (on_slot_eq _ _ _ _ Hci).
    set (x' := map_context _ _).
    split; [|split; [cbn; congruence|split; [cbn; congruence|split; [done|]]]].
    + by apply inv_next_free.
    + exists x'. split; [done|]. exists s. split; [done|]. split; [done|]. split; [|split; [done|]].
      * cbn. by rewrite firstn_all.
      * cbn [with_slot set_slots g_slots]. rewrite Hg2. unfold clone_slots. rewrite list_insert_insert_eq, Hg1.
        rewrite (list_insert_insert_ne _ i c) by done. rewrite list_insert_insert_eq.
        unfold src_slot. by rewrite firstn_all, drop_all, app_nil_r.
  - simplify_eq. destruct Hg2 as (k & Hk & Hg2). rewrite Hg1 in Hg2.
    assert (Hcl : forall cpu, g_current_context st2 !! cpu <> Some (SlotCtx c)).
    { intros cpu Hc. rewrite Hr3, Hcur in Hc. destruct (vi_current _ _ Hi cpu _ Hc) as [(y & Hy & Huy) _]. simplify_eq. }
    destruct (clone_rollback extra st _ st2 i c s x k Hi Hi2 Hs Hu Hz Hux Hne Hcl Hg2 eq_refl) as (A & B & C & D).
    split; [done|]. split; [congruence|]. split; [congruence|done].
Qed.
End Clone.
