(* ===== verification/X86.v ===== *)
(** * src/arch/x86_64/paging.c: four-level page tables

    A page table is a frame of 512 64-bit entries; [entries t a i] is entry [i]
    of the table at physical address [a] (the kernel maps physical memory one
    to one, so a table pointer is its frame's address). Frames that hold tables
    come from Pmm.v. [live] lists the roots that exist; the code has no such
    list, it is there to say which tables are in use. [boot_cr3] is the root
    that boot.S loaded. TLB invalidation and the EFER write of
    [arch_paging_init] have no effect in this model.

    [leaf] walks the tables the way the processor does. The tables implement
    the interface of Vmm.v and satisfy the laws of Cow.v. *)
From S2P Require Import Prelude Pmm Vmm Cow.
Open Scope tach_scope.

(** ** Definitions *)
Definition X86_PTE_PRESENT : Z := 1 .<< 0.
Definition X86_PTE_WRITE : Z := 1 .<< 1.
Definition X86_PTE_USER : Z := 1 .<< 2.
Definition X86_PTE_PCD : Z := 1 .<< 4.
Definition X86_PTE_HUGE : Z := 1 .<< 7.
Definition X86_PTE_NX : Z := 1 .<< 63.
Definition X86_ADDR_MASK : Z := 0x000ffffffffff000.

Record x86 := X86 { g_kernel_root : Z; boot_cr3 : Z; entries : Z -> Z -> Z; live : list Z }.

Definition set_entries e t := X86 (g_kernel_root t) (boot_cr3 t) e (live t).
Definition set_live l t := X86 (g_kernel_root t) (boot_cr3 t) (entries t) l.
(** [table[i] = e]. *)
Definition store (table i e : Z) (t : x86) : x86 :=
  set_entries (upd (entries t) table (upd (entries t table) i e)) t.

Definition allocate_table (t : x86) (p : pmm) : x86 * pmm * Z :=
  let '(p, frame) := pmm_alloc_frame p in
  if frame =? 0 then (t, p, 0)
  else (set_entries (upd (entries t) frame (fun _ => 0)) t, p, frame).

Definition native_flags (flags : Z) : Z :=
  let result := X86_PTE_PRESENT in
  let result := if has flags VMM_WRITABLE then result .| X86_PTE_WRITE else result in
  let result := if has flags VMM_USER then result .| X86_PTE_USER else result in
  let result := if has flags VMM_NOCACHE then result .| X86_PTE_PCD else result in
  if negb (has flags VMM_EXECUTABLE) then result .| X86_PTE_NX else result.

(** The loop of [clone_level]; [n] entries are left, from entry [i]. [child]
    is the recursive call one level down. *)
Fixpoint clone_entries (child : Z -> x86 -> pmm -> x86 * pmm * Z) (level : nat) (source destination : Z)
    (n : nat) (i : Z) (t : x86) (p : pmm) : x86 * pmm * Z :=
  match n with
  | O => (t, p, destination)
  | S n' =>
      let entry := entries t source i in
      if negb (has entry X86_PTE_PRESENT) || (level =? 1)%nat || has entry X86_PTE_HUGE then
        clone_entries child level source destination n' (i + 1) (store destination i entry t) p
      else
        let '(t, p, c) := child (entry .& X86_ADDR_MASK) t p in
        if c =? 0 then (t, pmm_free_frame destination p, 0)
        else
          clone_entries child level source destination n' (i + 1)
            (store destination i ((c .& X86_ADDR_MASK) .| (entry .& Z.lnot X86_ADDR_MASK)) t) p
  end.

(** Level 0 is not reached: the entries of level 1 are copied. *)
Fixpoint clone_level (level : nat) (source : Z) (t : x86) (p : pmm) : x86 * pmm * Z :=
  match level with
  | O => (t, p, 0)
  | S level' =>
      let '(t, p, destination) := allocate_table t p in
      if destination =? 0 then (t, p, 0)
      else clone_entries (clone_level level') level source destination 512 0 t p
  end.

Definition is_table (e : Z) : bool := has e X86_PTE_PRESENT && negb (has e X86_PTE_HUGE).

Fixpoint destroy_level (level : nat) (table : Z) (t : x86) (p : pmm) : pmm :=
  if table =? 0 then p
  else
    let p := match level with
             | S (S _ as level') =>
                 for_range 0 512 (fun i p =>
                   let entry := entries t table i in
                   if is_table entry then destroy_level level' (entry .& X86_ADDR_MASK) t p else p) p
             | _ => p
             end in
    pmm_free_frame table p.

Definition HUGE_MASK : Z := 0x000fffffffe00000.

(** The loop of [split_2m_page]. *)
Definition fill_table (table base flags : Z) (t : x86) : x86 :=
  for_range 0 512 (fun i t => store table i (u64 (base + i * PAGE_SIZE + flags)) t) t.

Definition split_2m_page (directory index : Z) (t : x86) (p : pmm) : x86 * pmm * Z :=
  let old := entries t directory index in
  let '(t, p, table) := allocate_table t p in
  if table =? 0 then (t, p, - ENOMEM)
  else
    let base := old .& HUGE_MASK in
    let flags := (old .& Z.lnot HUGE_MASK) .& Z.lnot X86_PTE_HUGE in
    let t := fill_table table base flags t in
    let t := store directory index
               ((table .& X86_ADDR_MASK) .| X86_PTE_PRESENT .| X86_PTE_WRITE .| (old .& X86_PTE_USER)) t in
    (t, p, 0).

(** Index of a table at a level (1 for the last), and the four of an address. *)
Definition index_at (level v : Z) : Z := (v .>> (12 + 9 * (level - 1))) .& 0x1ff.

(** A missing table is allocated and entered with [table_flags], an existing
    one gets them too. *)
Definition ensure_table (table i table_flags : Z) (t : x86) (p : pmm) : x86 * pmm * Z :=
  if negb (has (entries t table i) X86_PTE_PRESENT) then
    let '(t, p, next) := allocate_table t p in
    if next =? 0 then (t, p, - ENOMEM) else (store table i (next .| table_flags) t, p, 0)
  else (store table i (entries t table i .| table_flags) t, p, 0).

Definition map_pdpt (pdpt i3 table_flags : Z) (t : x86) (p : pmm) : x86 * pmm * Z :=
  if has (entries t pdpt i3) X86_PTE_PRESENT && has (entries t pdpt i3) X86_PTE_HUGE then (t, p, - ENOTSUP)
  else ensure_table pdpt i3 table_flags t p.

Definition map_pd (pd i2 table_flags : Z) (t : x86) (p : pmm) : x86 * pmm * Z :=
  if has (entries t pd i2) X86_PTE_HUGE then
    let '(t, p, result) := split_2m_page pd i2 t p in
    if result <? 0 then (t, p, result)
    else (store pd i2 (entries t pd i2 .| table_flags) t, p, 0)
  else ensure_table pd i2 table_flags t p.

Definition map_page (root virtual_address physical_address flags : Z) (t : x86) (p : pmm) : x86 * pmm * Z :=
  let i4 := index_at 4 virtual_address in
  let i3 := index_at 3 virtual_address in
  let i2 := index_at 2 virtual_address in
  let i1 := index_at 1 virtual_address in
  let table_flags := X86_PTE_PRESENT .| X86_PTE_WRITE .| (if has flags VMM_USER then X86_PTE_USER else 0) in
  let '(t, p, r) := ensure_table root i4 table_flags t p in
  if r <? 0 then (t, p, r)
  else
    let pdpt := entries t root i4 .& X86_ADDR_MASK in
    let '(t, p, r) := map_pdpt pdpt i3 table_flags t p in
    if r <? 0 then (t, p, r)
    else
      let pd := entries t pdpt i3 .& X86_ADDR_MASK in
      let '(t, p, r) := map_pd pd i2 table_flags t p in
      if r <? 0 then (t, p, r)
      else
        let pt := entries t pd i2 .& X86_ADDR_MASK in
        (store pt i1 ((physical_address .& X86_ADDR_MASK) .| native_flags flags) t, p, 0).

Definition unmap_page (root virtual_address : Z) (t : x86) : x86 * Z :=
  let e4 := entries t root (index_at 4 virtual_address) in
  if negb (has e4 X86_PTE_PRESENT) then (t, - ENOENT)
  else
    let e3 := entries t (e4 .& X86_ADDR_MASK) (index_at 3 virtual_address) in
    if negb (has e3 X86_PTE_PRESENT) || has e3 X86_PTE_HUGE then (t, - ENOENT)
    else
      let e2 := entries t (e3 .& X86_ADDR_MASK) (index_at 2 virtual_address) in
      if negb (has e2 X86_PTE_PRESENT) || has e2 X86_PTE_HUGE then (t, - ENOENT)
      else (store (e2 .& X86_ADDR_MASK) (index_at 1 virtual_address) 0 t, 0).

Definition paging_init (t : x86) : x86 * Z :=
  let root := boot_cr3 t .& X86_ADDR_MASK in
  (X86 root (boot_cr3 t) (entries t) (live t), if root =? 0 then - EINVAL else 0).

Definition create_root (t : x86) (p : pmm) : x86 * pmm * Z :=
  let '(t, p, r) := clone_level 4 (g_kernel_root t) t p in
  (if r =? 0 then t else set_live (r :: live t) t, p, r).

Definition destroy_root (root : Z) (t : x86) (p : pmm) : x86 * pmm :=
  if negb (root =? 0) && negb (root =? g_kernel_root t)
  then (set_live (filter (fun r => r <> root) (live t)) t, destroy_level 4 root t p)
  else (t, p).

#[export] Instance x86_ops : PagingOps x86 := {
  arch_paging_init := paging_init;
  arch_paging_kernel_root := g_kernel_root;
  arch_paging_create_root := create_root;
  arch_paging_destroy_root := destroy_root;
  arch_paging_map := map_page;
  arch_paging_unmap := unmap_page
}.

(** ** The processor's walk *)
(** The table an entry of an upper level points to. *)
Definition child (e : Z) : option Z := if is_table e then Some (e .& X86_ADDR_MASK) else None.

Fixpoint walk (t : x86) (a : Z) (path : list Z) : option Z :=
  match path with
  | [] => Some a
  | i :: q => c ← child (entries t a i); walk t c q
  end.

(** The entry that translates a path of indices, with the number of levels
    below it (0 for a 4 KiB page, 1 for a 2 MiB page). *)
Fixpoint leaf (t : x86) (a : Z) (path : list Z) : option (nat * Z) :=
  match path with
  | [] => None
  | i :: q =>
      let e := entries t a i in
      if negb (has e X86_PTE_PRESENT) then None
      else if bool_decide (q = []) || has e X86_PTE_HUGE then Some (length q, e)
      else leaf t (e .& X86_ADDR_MASK) q
  end.

(** What an entry allows, in the flags of vmm.h; the processor allows an access
    when every level of the walk does. *)
Definition allows (e : Z) : Z :=
  (if has e X86_PTE_WRITE then VMM_WRITABLE else 0) .| (if has e X86_PTE_USER then VMM_USER else 0) .|
  (if has e X86_PTE_PCD then VMM_NOCACHE else 0) .| (if has e X86_PTE_NX then 0 else VMM_EXECUTABLE).

Fixpoint mmu (t : x86) (a : Z) (path : list Z) : option (nat * Z * Z) :=
  match path with
  | [] => None
  | i :: q =>
      let e := entries t a i in
      if negb (has e X86_PTE_PRESENT) then None
      else if bool_decide (q = []) || has e X86_PTE_HUGE then Some (length q, e, allows e)
      else '(n, x, f) ← mmu t (e .& X86_ADDR_MASK) q; Some (n, x, (allows e .| VMM_NOCACHE) .& f)
  end.

Definition path_of (v : Z) : list Z := [index_at 4 v; index_at 3 v; index_at 2 v; index_at 1 v].

(** The physical address of [v] and what may be done there. *)
Definition translate (t : x86) (root v : Z) : option (Z * Z) :=
  '(n, e, f) ← mmu t root (path_of v);
  let size := 2 ^ (12 + 9 * Z.of_nat n) in
  Some ((e .& X86_ADDR_MASK) - (e .& X86_ADDR_MASK) mod size + v mod size, f).

(** ** Bits of entries *)
Section Bits.
Implicit Types (e a c v fl n : Z).

Lemma mask_bit n : 0 <= n -> Z.testbit X86_ADDR_MASK n = (12 <=? n) && (n <? 52).
Proof.
  intros Hn. change X86_ADDR_MASK with (Z.ones 40 .<< 12). rewrite Z.shiftl_spec by done.
  destruct (Z.leb_spec 12 n); [|rewrite Z.testbit_neg_r by lia; done].
  rewrite Z.testbit_ones_nonneg by lia. cbn [andb]. lia.
Qed.

Lemma huge_mask_bit n : 0 <= n -> Z.testbit HUGE_MASK n = (21 <=? n) && (n <? 52).
Proof.
  intros Hn. change HUGE_MASK with (Z.ones 31 .<< 21). rewrite Z.shiftl_spec by done.
  destruct (Z.leb_spec 21 n); [|rewrite Z.testbit_neg_r by lia; done].
  rewrite Z.testbit_ones_nonneg by lia. cbn [andb]. lia.
Qed.

Lemma bit_one k n : 0 <= k -> 0 <= n -> Z.testbit (1 .<< k) n = (n =? k).
Proof. intros. rewrite Z.shiftl_1_l, Z.pow2_bits_eqb by done. apply Z.eqb_sym. Qed.

Lemma low_bit a k n : 0 <= n < k -> a mod 2 ^ k = 0 -> Z.testbit a n = false.
Proof. intros Hn Ha. rewrite <- (Z.mod_pow2_bits_low a k n) by lia. rewrite Ha. apply Z.bits_0. Qed.

Lemma high_bit a k n : 0 <= a < 2 ^ k -> k <= n -> 0 <= k -> Z.testbit a n = false.
Proof. intros Ha Hn Hk. rewrite <- (Z.mod_small a (2 ^ k)) by lia. apply Z.mod_pow2_bits_high. lia. Qed.

Lemma mask_page a : phys_ok a -> 0 <= a -> a .& X86_ADDR_MASK = a.
Proof.
  intros [Ha Hb] H0. apply Z.bits_inj'. intros n Hn. rewrite Z.land_spec, mask_bit by done.
  destruct (Z.leb_spec 12 n); [|by rewrite (low_bit a 12) by (done || lia)].
  destruct (Z.ltb_spec n 52); [apply andb_true_r|]. by rewrite (high_bit a 52) by lia.
Qed.

Lemma masked_ok e : phys_ok (e .& X86_ADDR_MASK) /\ 0 <= e .& X86_ADDR_MASK.
Proof.
  assert (H0 : 0 <= e .& X86_ADDR_MASK) by (apply Z.land_nonneg; right; done). split; [split|done].
  - unfold page_aligned. change PAGE_SIZE with (2 ^ 12). rewrite <- Z.land_ones by lia. apply Z.bits_inj'. intros n Hn.
    rewrite !Z.land_spec, mask_bit, Z.testbit_ones_nonneg, Z.bits_0 by lia. destruct (Z.testbit e n); lia.
  - replace (e .& X86_ADDR_MASK) with ((e .& X86_ADDR_MASK) mod 2 ^ 52); [by apply Z.mod_pos_bound|].
    rewrite <- Z.land_ones by lia. apply Z.bits_inj'. intros n Hn.
    rewrite !Z.land_spec, mask_bit, Z.testbit_ones_nonneg by lia. destruct (Z.testbit e n); lia.
Qed.

(** The address of a table or page with bits outside the address field. *)
Lemma tagged_addr c x : phys_ok c -> 0 <= c -> x .& X86_ADDR_MASK = 0 -> (c .| x) .& X86_ADDR_MASK = c.
Proof. intros Hc H0 Hx. rewrite Z.land_lor_distr_l, Hx, mask_page by done. apply Z.lor_0_r. Qed.

Lemma tagged_bit c x n : phys_ok c -> 0 <= c -> 0 <= n -> n < 12 \/ 52 <= n -> Z.testbit (c .| x) n = Z.testbit x n.
Proof.
  intros [Ha Hb] H0 Hn Hr. rewrite Z.lor_spec. destruct Hr.
  - by rewrite (low_bit c 12) by (done || lia).
  - by rewrite (high_bit c 52) by lia.
Qed.

Lemma is_table_bits e : is_table e = Z.testbit e 0 && negb (Z.testbit e 7).
Proof. unfold is_table, X86_PTE_PRESENT, X86_PTE_HUGE. by rewrite !has_bit. Qed.

Lemma allows_bits e :
  allows e = (if Z.testbit e 1 then 2 else 0) .| (if Z.testbit e 2 then 4 else 0) .|
             (if Z.testbit e 4 then 8 else 0) .| (if Z.testbit e 63 then 0 else 16).
Proof.
  unfold allows, X86_PTE_WRITE, X86_PTE_USER, X86_PTE_PCD, X86_PTE_NX. by rewrite !has_bit.
Qed.

Lemma native_bit fl n :
  0 <= n ->
  Z.testbit (native_flags fl) n =
  (n =? 0) || (n =? 1) && Z.testbit fl 1 || (n =? 2) && Z.testbit fl 2 || (n =? 4) && Z.testbit fl 3 ||
  (n =? 63) && negb (Z.testbit fl 4).
Proof.
  intros Hn. unfold native_flags, VMM_WRITABLE, VMM_USER, VMM_NOCACHE, VMM_EXECUTABLE. rewrite !has_bit by lia.
  unfold X86_PTE_PRESENT, X86_PTE_WRITE, X86_PTE_USER, X86_PTE_PCD, X86_PTE_NX.
  destruct (Z.testbit fl 1), (Z.testbit fl 2), (Z.testbit fl 3), (Z.testbit fl 4); cbn [negb];
    rewrite ?Z.lor_spec, ?bit_one by lia; lia.
Qed.

Lemma native_u64 fl : is_u64 (native_flags fl).
Proof.
  unfold native_flags. by destruct (has fl VMM_WRITABLE), (has fl VMM_USER), (has fl VMM_NOCACHE), (has fl VMM_EXECUTABLE).
Qed.

Lemma native_outside fl : native_flags fl .& X86_ADDR_MASK = 0.
Proof.
  apply Z.bits_inj'. intros n Hn. rewrite Z.land_spec, native_bit, mask_bit, Z.bits_0 by done.
  destruct (Z.testbit fl 1), (Z.testbit fl 2), (Z.testbit fl 3), (Z.testbit fl 4); lia.
Qed.

Lemma visible_bits fl :
  visible fl = (if Z.testbit fl 1 then 2 else 0) .| (if Z.testbit fl 2 then 4 else 0) .|
               (if Z.testbit fl 3 then 8 else 0) .| (if Z.testbit fl 4 then 16 else 0).
Proof.
  unfold visible. apply Z.bits_inj'. intros n Hn. rewrite Z.land_spec.
  assert (Hb : forall (b : bool) k, 0 <= k -> Z.testbit (if b then 1 .<< k else 0) n = b && (n =? k)).
  { intros b k Hk. destruct b; [by rewrite bit_one|apply Z.bits_0]. }
  change 0x1e with ((1 .<< 1) .| (1 .<< 2) .| (1 .<< 3) .| (1 .<< 4)).
  rewrite !Z.lor_spec, (Hb _ 1), (Hb _ 2), (Hb _ 3), (Hb _ 4), !bit_one by lia.
  destruct (Z.eqb_spec n 1) as [->|]; [by destruct (Z.testbit fl 1), (Z.testbit fl 2), (Z.testbit fl 3), (Z.testbit fl 4)|].
  destruct (Z.eqb_spec n 2) as [->|]; [by destruct (Z.testbit fl 1), (Z.testbit fl 2), (Z.testbit fl 3), (Z.testbit fl 4)|].
  destruct (Z.eqb_spec n 3) as [->|]; [by destruct (Z.testbit fl 1), (Z.testbit fl 2), (Z.testbit fl 3), (Z.testbit fl 4)|].
  destruct (Z.eqb_spec n 4) as [->|]; [by destruct (Z.testbit fl 1), (Z.testbit fl 2), (Z.testbit fl 3), (Z.testbit fl 4)|].
  by rewrite !andb_false_r.
Qed.

(** The entry [map_page] writes: the address, and what [flags] ask for. *)
Lemma page_entry a fl :
  phys_ok a -> 0 <= a ->
  let e := (a .& X86_ADDR_MASK) .| native_flags fl in
  Z.testbit e 0 = true /\ e .& X86_ADDR_MASK = a /\ allows e = visible fl /\ Z.testbit e 2 = Z.testbit fl 2.
Proof.
  intros Ha H0 e. subst e. rewrite (mask_page a) by done.
  assert (Hb : forall n, 0 <= n -> n < 12 \/ 52 <= n -> Z.testbit (a .| native_flags fl) n = Z.testbit (native_flags fl) n)
    by (intros; by apply tagged_bit).
  split; [by rewrite Hb, native_bit by lia|]. split; [apply tagged_addr; [done|done|apply native_outside]|].
  rewrite allows_bits, visible_bits, !Hb, !native_bit by lia. cbn [Z.eqb Pos.eqb orb andb].
  by destruct (Z.testbit fl 1), (Z.testbit fl 2), (Z.testbit fl 3), (Z.testbit fl 4).
Qed.

(** Bits that name no address: the flags of a table, or those of an entry. *)
Definition table_bits (user : bool) : Z := X86_PTE_PRESENT .| X86_PTE_WRITE .| (if user then X86_PTE_USER else 0).

Lemma table_bits_bit user n : 0 <= n -> Z.testbit (table_bits user) n = (n =? 0) || (n =? 1) || (n =? 2) && user.
Proof.
  intros Hn. unfold table_bits, X86_PTE_PRESENT, X86_PTE_WRITE, X86_PTE_USER.
  rewrite !Z.lor_spec. destruct user; rewrite ?bit_one, ?Z.bits_0 by lia; lia.
Qed.

Lemma table_bits_outside user : table_bits user .& X86_ADDR_MASK = 0.
Proof. by destruct user. Qed.

(** Adding table flags keeps the address. *)
Lemma flagged_addr e user : (e .| table_bits user) .& X86_ADDR_MASK = e .& X86_ADDR_MASK.
Proof. by rewrite Z.land_lor_distr_l, table_bits_outside, Z.lor_0_r. Qed.

Lemma flagged_child e user : Z.testbit e 0 = true -> child (e .| table_bits user) = child e.
Proof.
  intros He. unfold child. rewrite !is_table_bits, flagged_addr, !Z.lor_spec, !table_bits_bit, He by lia. by destruct (Z.testbit e 7).
Qed.

Lemma linked_child c user : phys_ok c -> 0 <= c -> child (c .| table_bits user) = Some c.
Proof.
  intros Hc H0. unfold child. rewrite is_table_bits, !tagged_bit, !table_bits_bit by (done || lia). cbn.
  by rewrite tagged_addr by (done || apply table_bits_outside).
Qed.

(** The entry [clone_level] writes for a child. *)
Lemma redirected e c :
  phys_ok c -> 0 <= c ->
  let e' := (c .& X86_ADDR_MASK) .| (e .& Z.lnot X86_ADDR_MASK) in
  e' .& X86_ADDR_MASK = c /\ forall n, 0 <= n -> n < 12 \/ 52 <= n -> Z.testbit e' n = Z.testbit e n.
Proof.
  intros Hc H0 e'. subst e'. rewrite (mask_page c) by done. split.
  - apply tagged_addr; [done|done|]. apply Z.bits_inj'. intros n Hn. rewrite !Z.land_spec, Z.lnot_spec, Z.bits_0 by done.
    destruct (Z.testbit e n), (Z.testbit X86_ADDR_MASK n); done.
  - intros n Hn Hr. rewrite tagged_bit, Z.land_spec, Z.lnot_spec, mask_bit by done. destruct (Z.testbit e n); lia.
Qed.

(** The entries a 2 MiB page is split into: 4 KiB pages of the same memory,
    with the same flags. *)
Lemma add_disjoint a c : a .& c = 0 -> a + c = a .| c.
Proof. intros H. rewrite Z.add_nocarry_lxor by done. by apply Z.lxor_lor. Qed.

Lemma split_entry old i :
  is_u64 old -> Z.testbit old 7 = true -> (forall n, 12 <= n < 21 -> Z.testbit old n = false) -> 0 <= i < 512 ->
  let e := u64 ((old .& HUGE_MASK) + i * PAGE_SIZE + ((old .& Z.lnot HUGE_MASK) .& Z.lnot X86_PTE_HUGE)) in
  is_u64 e /\ Z.testbit e 7 = false /\ (forall n, 0 <= n -> n <> 7 -> n < 12 \/ 52 <= n -> Z.testbit e n = Z.testbit old n) /\
  e .& X86_ADDR_MASK = (old .& X86_ADDR_MASK) + i * PAGE_SIZE.
Proof.
  intros Hold Hh Hz Hi. change PAGE_SIZE with (2 ^ 12). rewrite <- (Z.shiftl_mul_pow2 i 12) by lia.
  set (fl := (old .& Z.lnot HUGE_MASK) .& Z.lnot X86_PTE_HUGE).
  assert (Hib : forall n, 0 <= n -> Z.testbit (i .<< 12) n = (12 <=? n) && (n <? 21) && Z.testbit i (n - 12)).
  { intros n Hn. rewrite Z.shiftl_spec by done. destruct (Z.leb_spec 12 n); [|by rewrite Z.testbit_neg_r by lia].
    destruct (Z.ltb_spec n 21); [done|]. by rewrite (high_bit i 9) by lia. }
  assert (Hfb : forall n, 0 <= n -> Z.testbit fl n = Z.testbit old n && negb (n =? 7) && negb ((12 <=? n) && (n <? 52))).
  { intros n Hn. unfold fl, X86_PTE_HUGE. rewrite !Z.land_spec, !Z.lnot_spec, huge_mask_bit, bit_one by lia.
    destruct (decide (12 <= n < 21)) as [Hr|]; [rewrite Hz by done; done|]. destruct (Z.testbit old n); lia. }
  assert (Hd1 : (old .& HUGE_MASK) .& (i .<< 12) = 0).
  { apply Z.bits_inj'. intros n Hn. rewrite !Z.land_spec, huge_mask_bit, Hib, Z.bits_0 by done.
    destruct (Z.testbit old n), (Z.testbit i (n - 12)); lia. }
  assert (Hd2 : ((old .& HUGE_MASK) .| (i .<< 12)) .& fl = 0).
  { apply Z.bits_inj'. intros n Hn. rewrite Z.land_spec, Z.lor_spec, Z.land_spec, huge_mask_bit, Hib, Hfb, Z.bits_0 by done.
    destruct (Z.testbit old n), (Z.testbit i (n - 12)); lia. }
  rewrite (add_disjoint _ _ Hd1), (add_disjoint _ _ Hd2). set (x := _ .| fl).
  assert (Hx : forall n, 0 <= n -> Z.testbit x n =
    (21 <=? n) && (n <? 52) && Z.testbit old n || (12 <=? n) && (n <? 21) && Z.testbit i (n - 12) ||
    Z.testbit old n && negb (n =? 7) && negb ((12 <=? n) && (n <? 52))).
  { intros n Hn. unfold x. rewrite !Z.lor_spec, Z.land_spec, huge_mask_bit, Hib, Hfb by done.
    f_equal. f_equal. apply andb_comm. }
  assert (Hxu : u64 x = x).
  { unfold u64. rewrite <- Z.land_ones by lia. apply Z.bits_inj'. intros n Hn. rewrite Z.land_spec, Z.testbit_ones_nonneg by lia.
    destruct (Z.ltb_spec n 64); [apply andb_true_r|]. rewrite Hx, (high_bit old 64) by (done || lia). lia. }
  rewrite Hxu. split; [rewrite <- Hxu; apply u64_is_u64|]. split; [rewrite Hx by lia; rewrite Hh; done|]. split.
  - intros n Hn H7 Hr. rewrite Hx by done. destruct (Z.testbit old n); lia.
  - assert (Hm : (old .& X86_ADDR_MASK) .& (i .<< 12) = 0).
    { apply Z.bits_inj'. intros n Hn. rewrite !Z.land_spec, mask_bit, Hib, Z.bits_0 by done.
      destruct (decide (12 <= n < 21)) as [Hr|]; [rewrite Hz by done; done|]. destruct (Z.testbit old n); lia. }
    rewrite (add_disjoint _ _ Hm). apply Z.bits_inj'. intros n Hn. rewrite Z.lor_spec, !Z.land_spec, Hx, mask_bit, Hib by done.
    destruct (decide (12 <= n < 21)) as [Hr|].
    + rewrite Hz by done. destruct (Z.testbit i (n - 12)); lia.
    + destruct (Z.testbit old n); lia.
Qed.
End Bits.

(** ** The tree of tables *)
Section Walk.
Implicit Types (t : x86) (q : list Z) (a b r i : Z).

Lemma walk_app t a q q' : walk t a (q ++ q') = b ← walk t a q; walk t b q'.
Proof. revert a. induction q as [|i q IH]; intros a; [done|]. cbn. destruct (child _); [apply IH|done]. Qed.

Lemma walk_snoc t a q b i : walk t a q = Some b -> walk t a (q ++ [i]) = child (entries t b i).
Proof. intros H. rewrite walk_app, H. cbn. by destruct (child _). Qed.

(** A walk depends on the children it follows. *)
Lemma walk_agree t t' a q :
  (forall q1 j q2 b, q = q1 ++ j :: q2 -> walk t a q1 = Some b -> child (entries t' b j) = child (entries t b j)) ->
  walk t' a q = walk t a q.
Proof.
  revert a. induction q as [|i q IH]; intros a H; [done|]. cbn. rewrite (H [] i q a) by done.
  destruct (child (entries t a i)) as [c|] eqn:E; [|done]. cbn. apply IH. intros q1 j q2 b -> Hw.
  apply (H (i :: q1) j q2); [done|]. cbn. by rewrite E.
Qed.

Lemma child_present e c : child e = Some c -> Z.testbit e 0 = true /\ Z.testbit e 7 = false /\ e .& X86_ADDR_MASK = c.
Proof. unfold child. rewrite is_table_bits. destruct (Z.testbit e 0), (Z.testbit e 7); cbn; intros; by simplify_eq. Qed.

(** So does the entry that translates; entries that name the same child are
    passed through. *)
Lemma leaf_agree t t' a q :
  (forall q1 j q2 b, q = q1 ++ j :: q2 -> walk t a q1 = Some b ->
     entries t' b j = entries t b j \/
     (q2 <> [] /\ exists c, child (entries t' b j) = Some c /\ child (entries t b j) = Some c)) ->
  leaf t' a q = leaf t a q.
Proof.
  revert a. induction q as [|i q IH]; intros a H; [done|]. cbn [leaf]. unfold X86_PTE_PRESENT, X86_PTE_HUGE. rewrite !has_bit by lia.
  assert (Hrec : forall c, child (entries t a i) = Some c -> leaf t' c q = leaf t c q).
  { intros c Hc. apply IH. intros q1 j q2 b -> Hw. apply (H (i :: q1) j q2); [done|]. cbn. by rewrite Hc. }
  destruct (H [] i q a eq_refl eq_refl) as [->|(Hq & c & H1 & H2)].
  - destruct (Z.testbit (entries t a i) 0) eqn:E0; [|done]. cbn [negb].
    destruct (Z.testbit (entries t a i) 7) eqn:E7; [by rewrite !orb_true_r|]. rewrite !orb_false_r.
    case_bool_decide; [done|]. apply Hrec. unfold child. by rewrite is_table_bits, E0, E7.
  - specialize (Hrec c H2). apply child_present in H1 as (-> & -> & ->). apply child_present in H2 as (-> & -> & ->).
    cbn [negb]. rewrite !orb_false_r. by case_bool_decide.
Qed.

Lemma leaf_walk t a q b q' : walk t a q = Some b -> q' <> [] -> leaf t a (q ++ q') = leaf t b q'.
Proof.
  revert a. induction q as [|i q IH]; intros a Hw Hq; cbn in Hw; [by simplify_eq|]. cbn [app leaf].
  destruct (child (entries t a i)) as [c|] eqn:E; [|done]. cbn in Hw. apply child_present in E as (E0 & E7 & Em).
  unfold X86_PTE_PRESENT, X86_PTE_HUGE. rewrite !has_bit, E0, E7, Em by lia. cbn [negb]. rewrite orb_false_r.
  rewrite bool_decide_false by (by destruct q). by apply IH.
Qed.
End Walk.

Definition path_ok (q : list Z) : Prop := Forall (fun i => 0 <= i < 512) q.
Definition reaches (t : x86) (r : Z) (q : list Z) (a : Z) : Prop :=
  r ∈ live t /\ path_ok q /\ (length q <= 3)%nat /\ walk t r q = Some a.

(** Every table is reached by one path from one root, so writing an entry
    affects the translations below that entry alone; upper entries allow
    whatever the entries below them do. *)
Record x86_inv (t : x86) (p : pmm) : Prop := {
  xi_pmm : pmm_inv p;
  xi_inj : forall r r' q q' a, reaches t r q a -> reaches t r' q' a -> r = r' /\ q = q';
  xi_ref : forall r q a, reaches t r q a -> 0 < a /\ 1 <= pmm_frame_refcount a p;
  xi_u64 : forall r q a i, reaches t r q a -> 0 <= i < 512 -> is_u64 (entries t a i);
  xi_top : forall r i, r ∈ live t -> 0 <= i < 512 -> Z.testbit (entries t r i) 7 = false;
  xi_table : forall r q a i c, reaches t r q a -> (length q <= 2)%nat -> 0 <= i < 512 -> child (entries t a i) = Some c ->
    Z.testbit (entries t a i) 1 = true /\ Z.testbit (entries t a i) 63 = false /\
    forall j, 0 <= j < 512 -> Z.testbit (entries t c j) 0 = true -> Z.testbit (entries t c j) 2 = true ->
      Z.testbit (entries t a i) 2 = true;
  xi_huge : forall r q a i, reaches t r q a -> length q = 2%nat -> 0 <= i < 512 -> Z.testbit (entries t a i) 7 = true ->
    Z.testbit (entries t a i) 0 = true /\ forall n, 12 <= n < 21 -> Z.testbit (entries t a i) n = false
}.

(** ** Writing entries *)
Definition parent_user (t : x86) (r : Z) (q : list Z) : Prop :=
  forall q' j a, q = q' ++ [j] -> walk t r q' = Some a -> Z.testbit (entries t a j) 2 = true.

Lemma entries_store b i e t a j : entries (store b i e t) a j = if (a =? b) && (j =? i) then e else entries t a j.
Proof.
  unfold store, set_entries. cbn. rewrite upd_spec. destruct (Z.eqb_spec a b) as [->|]; [|done]. cbn. by rewrite upd_spec.
Qed.

Lemma path_ok_app q q' : path_ok (q ++ q') <-> path_ok q /\ path_ok q'.
Proof. apply Forall_app. Qed.
Lemma path_ok_cons i q : path_ok (i :: q) <-> 0 <= i < 512 /\ path_ok q.
Proof. unfold path_ok. by rewrite Forall_cons. Qed.
Lemma path_ok_nil : path_ok [].
Proof. constructor. Qed.

Lemma prefix_reaches t r q q1 j q2 b :
  r ∈ live t -> path_ok q -> (length q <= 4)%nat -> q = q1 ++ j :: q2 -> walk t r q1 = Some b ->
  reaches t r q1 b /\ 0 <= j < 512.
Proof.
  intros Hr Hq Hl -> Hw. apply path_ok_app in Hq as [Hq1 Hq2]. apply path_ok_cons in Hq2 as [Hj _].
  rewrite length_app in Hl. cbn in Hl. split; [|done]. split; [done|]. split; [done|]. split; [lia|done].
Qed.

Lemma reaches_root t r : r ∈ live t -> reaches t r [] r.
Proof. intros Hr. split; [done|]. split; [constructor|]. split; [cbn; lia|done]. Qed.

Lemma reaches_child t r q a i c :
  reaches t r q a -> (length q <= 2)%nat -> 0 <= i < 512 -> child (entries t a i) = Some c -> reaches t r (q ++ [i]) c.
Proof.
  intros (Hr & Hq & _ & Hw) Hl Hi Hc. split; [done|]. split; [apply path_ok_app; split; [done|apply path_ok_cons; by split; [|constructor]]|].
  rewrite length_app. cbn. split; [lia|]. by rewrite (walk_snoc _ _ _ _ _ Hw).
Qed.

Section Inv.
Context (t : x86) (p : pmm) (Hinv : x86_inv t p).
Implicit Types (r a b c i e : Z) (q : list Z).

(** Everything the roots reach stays as it is. *)
Lemma inv_agree t' p' :
  live t' = live t -> pmm_inv p' ->
  (forall r q a, reaches t r q a -> (forall j, entries t' a j = entries t a j) /\ 1 <= pmm_frame_refcount a p') ->
  (forall r q a, reaches t' r q a <-> reaches t r q a) /\ x86_inv t' p' /\
  (forall r path, r ∈ live t -> path_ok path -> (length path <= 4)%nat -> leaf t' r path = leaf t r path).
Proof using Hinv.
  intros Hl Hp Ha.
  assert (Hw : forall r q, r ∈ live t -> path_ok q -> (length q <= 3)%nat -> walk t' r q = walk t r q).
  { intros r q Hr Hq Hlen. apply walk_agree. intros q1 j q2 b E Hw.
    destruct (prefix_reaches t r q q1 j q2 b) as [Hb _]; [done|done|lia|done|done|].
    by rewrite (proj1 (Ha _ _ _ Hb)). }
  assert (Hre : forall r q a, reaches t' r q a <-> reaches t r q a).
  { intros r q a. unfold reaches. rewrite Hl. split; intros (? & ? & ? & E); (split; [done|split; [done|split; [done|]]]);
      [rewrite <- Hw|rewrite Hw]; done. }
  split; [done|]. split.
  - constructor; [done|..].
    + intros r r' q q' a. rewrite !Hre. apply (xi_inj _ _ Hinv).
    + intros r q a. rewrite Hre. intros H. split; [by apply (xi_ref _ _ Hinv r q)|apply (Ha _ _ _ H)].
    + intros r q a i. rewrite Hre. intros H Hi. rewrite (proj1 (Ha _ _ _ H)). by apply (xi_u64 _ _ Hinv r q).
    + intros r i. rewrite Hl. intros Hr Hi. rewrite (proj1 (Ha _ _ _ (reaches_root _ _ Hr))). by apply (xi_top _ _ Hinv).
    + intros r q a i c. rewrite Hre. intros H H2 Hi. rewrite (proj1 (Ha _ _ _ H)). intros Hc.
      destruct (xi_table _ _ Hinv _ _ _ _ _ H H2 Hi Hc) as (X & Y & Z0). split; [done|]. split; [done|]. intros j.
      rewrite (proj1 (Ha _ _ _ (reaches_child _ _ _ _ _ _ H H2 Hi Hc))). apply Z0.
    + intros r q a i. rewrite Hre. intros H. rewrite (proj1 (Ha _ _ _ H)). by apply (xi_huge _ _ Hinv r q).
  - intros r path Hr Hq Hlen. apply leaf_agree. intros q1 j q2 b E Hb. left.
    destruct (prefix_reaches t r path q1 j q2 b) as [Hb' _]; [done..|]. apply (Ha _ _ _ Hb').
Qed.

Context (rb : Z) (qb : list Z) (b i : Z) (Hb : reaches t rb qb b) (Hi : 0 <= i < 512).
Implicit Types (j : Z).

(** A path that reads entry [i] of [b] starts at [rb] and goes through [qb]. *)
Lemma read_here r q q1 j q2 b' e :
  r ∈ live t -> path_ok q -> (length q <= 4)%nat -> q = q1 ++ j :: q2 -> walk t r q1 = Some b' ->
  entries (store b i e t) b' j = entries t b' j \/ (r = rb /\ q1 = qb /\ b' = b /\ j = i).
Proof using Hinv Hb.
  intros Hr Hq Hl E Hw. destruct (prefix_reaches _ _ _ _ _ _ _ Hr Hq Hl E Hw) as [Hre _]. rewrite entries_store.
  destruct (Z.eqb_spec b' b) as [->|]; [|by left]. destruct (Z.eqb_spec j i) as [->|]; [|by left]. right.
  by destruct (xi_inj _ _ Hinv _ _ _ _ _ Hre Hb) as [-> ->].
Qed.

Section Keep.
Context (e : Z) (Hk : length qb = 3%nat \/ child e = child (entries t b i)).
Let t' := store b i e t.

Lemma keep_reaches r q a : reaches t' r q a <-> reaches t r q a.
Proof using Hinv Hb Hi Hk.
  assert (Hw : r ∈ live t -> path_ok q -> (length q <= 3)%nat -> walk t' r q = walk t r q).
  { intros Hr Hq Hl. unfold t'. apply walk_agree. intros q1 j q2 b' E Hw.
    destruct (read_here r q q1 j q2 b' e) as [Heq|(-> & -> & -> & ->)]; [done|done|lia|done|done|by rewrite Heq|].
    rewrite entries_store, !Z.eqb_refl. cbn. destruct Hk as [H3|Heq]; [|done].
    rewrite E, length_app in Hl. cbn in Hl. lia. }
  unfold reaches. change (live t') with (live t).
  split; intros (? & ? & ? & E); (split; [done|split; [done|split; [done|]]]); [rewrite <- Hw|rewrite Hw]; done.
Qed.

Lemma keep_inv :
  is_u64 e -> (qb = [] -> Z.testbit e 7 = false) ->
  (forall c, (length qb <= 2)%nat -> child e = Some c -> Z.testbit e 1 = true /\ Z.testbit e 63 = false /\
     forall j, 0 <= j < 512 -> Z.testbit (entries t c j) 0 = true -> Z.testbit (entries t c j) 2 = true -> Z.testbit e 2 = true) ->
  (length qb = 2%nat -> Z.testbit e 7 = true -> Z.testbit e 0 = true /\ forall n, 12 <= n < 21 -> Z.testbit e n = false) ->
  (Z.testbit e 0 = true -> Z.testbit e 2 = true -> parent_user t rb qb) ->
  x86_inv t' p.
Proof using Hinv Hb Hi Hk.
  intros He Htop Htab Hhuge Hpar. constructor; [apply (xi_pmm _ _ Hinv)|..].
  - intros r r' q q' a. rewrite !keep_reaches. apply (xi_inj _ _ Hinv).
  - intros r q a. rewrite keep_reaches. apply (xi_ref _ _ Hinv).
  - intros r q a j. rewrite keep_reaches. intros H Hj. unfold t' in *. rewrite entries_store. split_ifs; [done|].
    by apply (xi_u64 _ _ Hinv r q).
  - intros r j Hr Hj. unfold t' in *. rewrite entries_store. destruct (Z.eqb_spec r b) as [->|]; [|by apply (xi_top _ _ Hinv)].
    destruct (Z.eqb_spec j i); [|by apply (xi_top _ _ Hinv)]. cbn. apply Htop.
    by destruct (xi_inj _ _ Hinv _ _ _ _ _ Hb (reaches_root _ _ Hr)).
  - intros r q a j c. rewrite keep_reaches. intros H H2 Hj Hc. unfold t' in *. rewrite entries_store in *.
    destruct (Z.eqb_spec a b) as [->|Hab]; [destruct (Z.eqb_spec j i) as [->|Hji]|]; cbn [andb] in *.
    + destruct (xi_inj _ _ Hinv _ _ _ _ _ H Hb) as [-> ->]. destruct (Htab c H2 Hc) as (X & Y & Z0).
      split; [done|]. split; [done|]. intros k Hk'. rewrite entries_store. destruct (Z.eqb_spec c b) as [->|]; [|by apply Z0].
      destruct Hk as [H3|Hck]; [lia|]. rewrite Hc in Hck. symmetry in Hck.
      pose proof (reaches_child _ _ _ _ _ _ Hb H2 Hi Hck) as Hcc.
      destruct (xi_inj _ _ Hinv _ _ _ _ _ Hcc Hb) as [_ Hf]. apply (f_equal length) in Hf. rewrite length_app in Hf. cbn in Hf. lia.
    + destruct (xi_table _ _ Hinv _ _ _ _ _ H H2 Hj Hc) as (X & Y & Z0). split; [done|]. split; [done|]. intros k Hk'.
      rewrite entries_store. destruct (Z.eqb_spec c b) as [->|]; [|by apply Z0]. exfalso.
      pose proof (reaches_child _ _ _ _ _ _ H H2 Hj Hc) as Hcc.
      destruct (xi_inj _ _ Hinv _ _ _ _ _ Hcc H) as [_ Hf]. apply (f_equal length) in Hf. rewrite length_app in Hf. cbn in Hf. lia.
    + destruct (xi_table _ _ Hinv _ _ _ _ _ H H2 Hj Hc) as (X & Y & Z0). split; [done|]. split; [done|]. intros k Hk'.
      rewrite entries_store. destruct (Z.eqb_spec c b) as [->|]; [|by apply Z0]. destruct (Z.eqb_spec k i); [|by apply Z0].
      cbn. intros H0 Hu. destruct (xi_inj _ _ Hinv _ _ _ _ _ (reaches_child _ _ _ _ _ _ H H2 Hj Hc) Hb) as [-> <-].
      apply (Hpar H0 Hu q j a); [done|]. apply H.
  - intros r q a j. rewrite keep_reaches. intros H H2 Hj. unfold t' in *. rewrite entries_store.
    destruct (Z.eqb_spec a b) as [->|]; [|by apply (xi_huge _ _ Hinv r q)].
    destruct (Z.eqb_spec j i); [|by apply (xi_huge _ _ Hinv r q)]. cbn. apply Hhuge.
    by destruct (xi_inj _ _ Hinv _ _ _ _ _ H Hb) as [_ <-].
Qed.

Lemma keep_leaf c r path :
  (length qb <= 2)%nat -> child e = Some c -> child (entries t b i) = Some c ->
  r ∈ live t -> path_ok path -> length path = 4%nat -> leaf t' r path = leaf t r path.
Proof using Hinv Hb Hi Hk.
  intros H2 He Ho Hr Hq Hl. apply leaf_agree. intros q1 j q2 b' E Hw. unfold t'.
  destruct (read_here r path q1 j q2 b' e) as [Heq|(-> & -> & -> & ->)]; [done|done|lia|done|done|by left|].
  right. split; [rewrite E, length_app in Hl; destruct q2; cbn in Hl; [lia|done]|].
  exists c. by rewrite entries_store, !Z.eqb_refl.
Qed.

Lemma last_leaf r path :
  length qb = 3%nat -> r ∈ live t -> path_ok path -> length path = 4%nat ->
  leaf t' r path = if bool_decide (r = rb /\ path = qb ++ [i]) then if Z.testbit e 0 then Some (0%nat, e) else None
                   else leaf t r path.
Proof using Hinv Hb Hi Hk.
  intros H3 Hr Hq Hl. case_bool_decide as Hp.
  - destruct Hp as [-> ->].
    assert (Hw : walk t' rb qb = Some b) by (apply (proj2 (keep_reaches rb qb b) Hb)).
    rewrite (leaf_walk _ _ _ _ _ Hw) by done. cbn [leaf length]. unfold t', X86_PTE_PRESENT.
    rewrite entries_store, !Z.eqb_refl, has_bit by lia. cbn [andb]. destruct (Z.testbit e 0); [|done]. cbn [negb orb].
    by rewrite bool_decide_true.
  - apply leaf_agree. intros q1 j q2 b' E Hw. left. unfold t'.
    destruct (read_here r path q1 j q2 b' e) as [Heq|(-> & -> & -> & ->)]; [done|done|lia|done|done|done|].
    destruct Hp. split; [done|]. rewrite E, length_app in Hl. cbn in Hl. destruct q2; [done|cbn in Hl; lia].
Qed.
End Keep.

(** Entering a new table where there was none. *)
Section Enter.
Context (e c : Z) (H2 : (length qb <= 2)%nat) (Hold : child (entries t b i) = None) (He : child e = Some c).
Context (Hfresh : forall r q, ~ reaches t r q c) (Hempty : (length qb <= 1)%nat -> forall j, 0 <= j < 512 -> entries t c j = 0).
Let t' := store b i e t.

Lemma fresh_ne r q a : reaches t r q a -> a <> c.
Proof. intros Hr ->. by apply (Hfresh r q). Qed.

Lemma store_off r q a j : reaches t r q a -> a <> b -> entries t' a j = entries t a j.
Proof. intros _ Hne. unfold t'. rewrite entries_store. by destruct (Z.eqb_spec a b). Qed.

Lemma entries_new j : entries t' c j = entries t c j.
Proof. unfold t'. rewrite entries_store. destruct (Z.eqb_spec c b) as [E|]; [|done]. destruct (Hfresh rb qb). by rewrite E. Qed.

Lemma entries_here : entries t' b i = e.
Proof. unfold t'. by rewrite entries_store, !Z.eqb_refl. Qed.

Lemma enter_walk r q :
  r ∈ live t -> path_ok q -> (length q <= 3)%nat -> ~ (r = rb /\ exists q2, q = qb ++ i :: q2) -> walk t' r q = walk t r q.
Proof.
  intros Hr Hq Hl Hn. apply walk_agree. intros q1 j q2 b' E Hw. unfold t'.
  destruct (read_here r q q1 j q2 b' e) as [->|(-> & -> & -> & ->)]; [done|done|lia|done|done|done|].
  destruct Hn. split; [done|]. by exists q2.
Qed.

Lemma enter_walk_base : walk t' rb qb = Some b.
Proof.
  destruct Hb as (Hr & Hq & Hl & Hw). rewrite enter_walk; [done..|]. intros (_ & q2 & E).
  apply (f_equal length) in E. rewrite length_app in E. cbn in E. lia.
Qed.

Lemma enter_walk_new q2 : path_ok q2 -> (length qb + length q2 <= 2)%nat -> walk t' rb (qb ++ i :: q2) = if q2 is [] then Some c else None.
Proof.
  intros Hq Hl. rewrite walk_app, enter_walk_base. cbn [mbind option_bind walk].
  rewrite entries_here, He. cbn [mbind option_bind]. destruct q2 as [|j q3]; [done|]. cbn [walk]. cbn in Hl. apply path_ok_cons in Hq as [Hj _]. rewrite entries_new, Hempty by (done || lia). done.
Qed.

Lemma enter_reaches r q a : reaches t' r q a <-> reaches t r q a \/ (r = rb /\ q = qb ++ [i] /\ a = c).
Proof.
  destruct Hb as (Hrb & Hqb & _ & Hwb).
  assert (Hdec : (r = rb /\ exists q2, q = qb ++ i :: q2) \/ ~ (r = rb /\ exists q2, q = qb ++ i :: q2)).
  { destruct (decide (r = rb)) as [->|]; [|right; by intros [? _]].
    destruct (decide (qb ++ [i] `prefix_of` q)) as [[q2 ->]|Hn].
    - left. split; [done|]. exists q2. by rewrite <- app_assoc.
    - right. intros (_ & q2 & ->). apply Hn. exists q2. by rewrite <- app_assoc. }
  destruct Hdec as [(-> & q2 & ->)|Hn].
  - unfold reaches at 1 2. change (live t') with (live t). split.
    + intros (_ & Hq & Hl & Hw). apply path_ok_app in Hq as [_ Hq]. apply path_ok_cons in Hq as [_ Hq].
      rewrite length_app in Hl. cbn in Hl. rewrite enter_walk_new in Hw by (done || lia). destruct q2; [|done]. simplify_eq. by right.
    + intros [(_ & Hq & Hl & Hw)|(_ & E & ->)].
      * rewrite walk_app, Hwb in Hw. cbn in Hw. by rewrite Hold in Hw.
      * apply app_inv_head in E. simplify_eq. rewrite length_app, enter_walk_new by (apply path_ok_nil || (cbn; lia)). cbn.
        split; [done|]. split; [|split; [lia|done]]. apply path_ok_app. split; [done|]. apply path_ok_cons. split; [done|apply path_ok_nil].
  - unfold reaches at 1 2. change (live t') with (live t). split.
    + intros (Hr & Hq & Hl & Hw). rewrite enter_walk in Hw by done. by left.
    + intros [(Hr & Hq & Hl & Hw)|(-> & -> & ->)]; [by rewrite enter_walk|]. destruct Hn. split; [done|]. by exists [].
Qed.

Lemma enter_inv :
  is_u64 e -> Z.testbit e 1 = true -> Z.testbit e 63 = false -> 0 < c -> 1 <= pmm_frame_refcount c p ->
  (forall j, 0 <= j < 512 -> is_u64 (entries t c j) /\
     (Z.testbit (entries t c j) 0 = true -> Z.testbit (entries t c j) 2 = true -> Z.testbit e 2 = true)) ->
  (Z.testbit e 2 = true -> parent_user t rb qb) -> x86_inv t' p.
Proof.
  intros Hu He1 He63 Hc0 Hc1 Hnew Hpar. destruct (child_present _ _ He) as (He0 & He7 & _).
  assert (Hbc : b <> c) by (by apply (fresh_ne rb qb)).
  constructor; [apply (xi_pmm _ _ Hinv)|..].
  - intros r r' q q' a. rewrite !enter_reaches. intros [H|(-> & -> & ->)] [H'|(-> & -> & E)].
    + by apply (xi_inj _ _ Hinv _ _ _ _ a).
    + subst a. by destruct (Hfresh r q).
    + by destruct (Hfresh r' q').
    + done.
  - intros r q a. rewrite enter_reaches. intros [H|(-> & -> & ->)]; [by apply (xi_ref _ _ Hinv r q)|done].
  - intros r q a j. rewrite enter_reaches. intros [H|(-> & -> & ->)] Hj; [|rewrite entries_new; by apply Hnew].
    unfold t'. rewrite entries_store. split_ifs; [done|]. by apply (xi_u64 _ _ Hinv r q).
  - intros r j Hr Hj. unfold t'. rewrite entries_store. split_ifs; [done|]. by apply (xi_top _ _ Hinv).
  - intros r q a j d. rewrite enter_reaches. intros [H|(-> & -> & ->)] Hq Hj Hd.
    + unfold t' in Hd |- *. rewrite entries_store in *. destruct ((a =? b) && (j =? i)) eqn:E.
      * assert (d = c) as -> by congruence. split; [done|]. split; [done|]. intros k Hk. fold t'. rewrite entries_new. by apply Hnew.
      * destruct (xi_table _ _ Hinv _ _ _ _ _ H Hq Hj Hd) as (X & Y & Z0). split; [done|]. split; [done|]. intros k Hk.
        rewrite entries_store. destruct (Z.eqb_spec d b) as [->|]; [|by apply Z0]. destruct (Z.eqb_spec k i); [|by apply Z0].
        cbn. intros _ Hu2. destruct (xi_inj _ _ Hinv _ _ _ _ _ (reaches_child _ _ _ _ _ _ H Hq Hj Hd) Hb) as [-> <-].
        apply (Hpar Hu2 q j a); [done|]. apply H.
    + exfalso. rewrite length_app in Hq. cbn in Hq. rewrite entries_new, Hempty in Hd by (done || lia). done.
  - intros r q a j. rewrite enter_reaches. intros [H|(-> & -> & ->)] Hq Hj H7.
    + unfold t' in *. rewrite entries_store in *. destruct ((a =? b) && (j =? i)); [congruence|]. by apply (xi_huge _ _ Hinv r q).
    + rewrite length_app in Hq. cbn in Hq. rewrite entries_new, Hempty in H7 by (done || lia). done.
Qed.

Lemma enter_leaf r path :
  r ∈ live t -> path_ok path -> length path = 4%nat ->
  (leaf t' r path = leaf t r path /\ ~ (r = rb /\ exists q2, path = qb ++ i :: q2)) \/
  (r = rb /\ exists q2, path = qb ++ i :: q2 /\ q2 <> [] /\ leaf t' r path = leaf t c q2 /\ leaf t r path = leaf t b (i :: q2)).
Proof.
  intros Hr Hq Hl.
  destruct (decide (r = rb /\ qb ++ [i] `prefix_of` path)) as [[-> [q2 E]]|Hn].
  - right. split; [done|]. exists q2. rewrite <- app_assoc in E. cbn in E. subst path. rewrite length_app in Hl. cbn in Hl.
    assert (Hq2 : q2 <> []) by (destruct q2; [cbn in Hl; lia|done]). split; [done|]. split; [done|]. destruct Hb as (_ & _ & _ & Hwb).
    split; [|by rewrite (leaf_walk _ _ _ _ _ Hwb)].
    change (i :: q2) with ([i] ++ q2). rewrite app_assoc, (leaf_walk _ _ _ c); [| |done].
    + apply leaf_agree. intros q1 j q3 b' -> Hw. left. apply path_ok_app in Hq as [_ Hq]. apply path_ok_cons in Hq as [_ Hq].
      destruct q1 as [|k q1]; [cbn in Hw; injection Hw as <-; apply entries_new|]. exfalso.
      rewrite length_app in Hl. cbn in Hl, Hw, Hq. apply path_ok_cons in Hq as [Hk _]. rewrite Hempty in Hw by (done || lia). done.
    + rewrite walk_app, enter_walk_base. cbn [mbind option_bind walk].
      by rewrite entries_here, He.
  - left. split.
    + apply leaf_agree. intros q1 j q2 b' E Hw. left. unfold t'.
      destruct (read_here r path q1 j q2 b' e) as [Heq|(-> & -> & -> & ->)]; [done|done|lia|done|done|done|].
      destruct Hn. split; [done|]. exists q2. by rewrite <- app_assoc.
    + intros (-> & q2 & ->). apply Hn. split; [done|]. exists q2. by rewrite <- app_assoc.
Qed.
End Enter.
End Inv.

(** ** Steps that leave every translation as it is *)
Definition located (v : Z) (x : nat * Z) : Z * Z :=
  let size := 2 ^ (12 + 9 * Z.of_nat x.1) in
  ((x.2 .& X86_ADDR_MASK) - (x.2 .& X86_ADDR_MASK) mod size + v mod size, allows x.2).

Record grows (t : x86) (p : pmm) (t' : x86) (p' : pmm) : Prop := {
  gr_inv : x86_inv t' p';
  gr_live : live t' = live t;
  gr_kernel : g_kernel_root t' = g_kernel_root t;
  gr_reach : forall r q a, reaches t r q a -> reaches t' r q a;
  gr_new : forall r q a, reaches t' r q a -> reaches t r q a \/ ~ 1 <= pmm_frame_refcount a p;
  gr_ref : forall a, 0 <= a -> 1 <= pmm_frame_refcount a p -> pmm_frame_refcount a p' = pmm_frame_refcount a p;
  gr_tr : forall r v, r ∈ live t -> located v <$> leaf t' r (path_of v) = located v <$> leaf t r (path_of v);
  gr_leaf : forall r v e, r ∈ live t -> leaf t r (path_of v) = Some (0%nat, e) -> leaf t' r (path_of v) = Some (0%nat, e)
}.

Lemma grows_refl t p : x86_inv t p -> grows t p t p.
Proof. intros Hi. constructor; try done. by left. Qed.

Lemma grows_trans t p t1 p1 t2 p2 : grows t p t1 p1 -> grows t1 p1 t2 p2 -> grows t p t2 p2.
Proof.
  intros [A1 A2 A3 A4 A5 A6 A7 A8] [B1 B2 B3 B4 B5 B6 B7 B8]. constructor; try done; try congruence.
  - intros r q a H. by apply B4, A4.
  - intros r q a H. destruct (xi_ref _ _ B1 _ _ _ H) as [H0 _]. destruct (B5 _ _ _ H) as [H1|H1]; [by apply A5 in H1|]. right.
    intros Hr. apply H1. rewrite A6; [done|lia|done].
  - intros a Ha Hr. rewrite B6, A6; [done|done|done|done|]. by rewrite A6.
  - intros r v Hr. rewrite B7, A7; [done|done|congruence].
  - intros r v e Hr Hl. apply B8; [congruence|]. by apply A8.
Qed.

Lemma index_bounds k v : 0 <= index_at k v < 512.
Proof.
  unfold index_at. change 0x1ff with (2 ^ 9 - 1). rewrite land_low_mask by lia. apply Z.mod_pos_bound. lia.
Qed.

Lemma path_of_ok v : path_ok (path_of v) /\ length (path_of v) = 4%nat.
Proof. split; [|done]. unfold path_of. repeat (apply path_ok_cons; split; [apply index_bounds|]). apply path_ok_nil. Qed.

(** A frame for a table: unreached, and empty. *)
Lemma allocate_table_spec t p t1 p1 c :
  x86_inv t p -> allocate_table t p = (t1, p1, c) ->
  (c = 0 /\ t1 = t /\ p1 = p) \/
  (0 < c /\ phys_ok c /\ grows t p t1 p1 /\ 1 <= pmm_frame_refcount c p1 /\ (forall r q, ~ reaches t1 r q c) /\
   ~ 1 <= pmm_frame_refcount c p /\
   (forall r path, r ∈ live t -> path_ok path -> (length path <= 4)%nat -> leaf t1 r path = leaf t r path) /\
   (forall r q a, reaches t1 r q a <-> reaches t r q a) /\
   (forall a j, entries t1 a j = if a =? c then 0 else entries t a j)).
Proof.
  intros Hi E. unfold allocate_table in E. destruct (pmm_alloc_frame p) as [p' f] eqn:Ea.
  destruct (alloc_refs _ _ _ (xi_pmm _ _ Hi) Ea) as (Hp' & Hl & [[-> ->]|(Hf & Hal & Hz & Hr)]).
  { change (0 =? 0) with true in E. cbv iota in E. simplify_eq. by left. }
  destruct (Z.eqb_spec f 0); [lia|]. simplify_eq. right. set (t1 := set_entries _ t).
  assert (Hent : forall a j, entries t1 a j = if a =? c then 0 else entries t a j).
  { intros a j. cbn. rewrite upd_spec. by destruct (a =? c). }
  assert (Hun : forall r q, ~ reaches t r q c).
  { intros r q H. destruct (xi_ref _ _ Hi _ _ _ H). lia. }
  destruct (inv_agree t p Hi t1 p1 eq_refl Hp') as (Hre & Hi1 & Hleaf).
  { intros r q a H. assert (a <> c) by (intros ->; by apply (Hun r q)). split.
    - intros j. rewrite Hent. by destruct (Z.eqb_spec a c).
    - destruct (xi_ref _ _ Hi _ _ _ H). rewrite Hr by lia. by destruct (Z.eqb_spec a c). }
  assert (Hc1 : pmm_frame_refcount c p1 = 1) by (rewrite Hr by lia; by rewrite Z.eqb_refl).
  assert (Hphys : phys_ok c) by (apply (used_phys p1); [done|lia|lia]).
  assert (Hlp : forall r v, r ∈ live t -> leaf t1 r (path_of v) = leaf t r (path_of v)).
  { intros r v Hr'. destruct (path_of_ok v) as [H1 H2]. apply Hleaf; [done|done|lia]. }
  split; [done|]. split; [done|]. split; [constructor; try done|].
  - intros r q a. by rewrite Hre.
  - intros r q a H. left. by apply Hre.
  - intros a Ha H1. rewrite Hr by done. destruct (Z.eqb_spec a c) as [->|]; [lia|done].
  - intros r v Hr'. by rewrite Hlp.
  - intros r v e Hr'. by rewrite Hlp.
  - split; [lia|]. split; [intros r q; rewrite Hre; apply Hun|]. split; [lia|]. done.
Qed.

(** What an entry allows to users, the entries above it allow too. *)
Lemma entry_parent t p r q b i :
  x86_inv t p -> reaches t r q b -> 0 <= i < 512 -> Z.testbit (entries t b i) 0 = true -> Z.testbit (entries t b i) 2 = true ->
  parent_user t r q.
Proof.
  intros Hi (Hr & Hq & Hl & Hw) Hib H0 H2 q' j a -> Hw'. rewrite (walk_snoc _ _ _ _ _ Hw') in Hw.
  apply path_ok_app in Hq as [Hq Hj]. apply path_ok_cons in Hj as [Hj _]. rewrite length_app in Hl. cbn in Hl.
  assert (Hre : reaches t r q' a) by (split; [done|split; [done|split; [lia|done]]]).
  destruct (xi_table _ _ Hi _ _ _ _ _ Hre ltac:(lia) Hj Hw) as (_ & _ & H). by apply (H i).
Qed.

Lemma parent_here t r q b i : walk t r q = Some b -> Z.testbit (entries t b i) 2 = true -> parent_user t r (q ++ [i]).
Proof. intros Hw Hb q' j a E Hw'. apply app_inj_tail in E as [<- <-]. congruence. Qed.

Lemma u64_lor x y : is_u64 x -> is_u64 y -> is_u64 (x .| y).
Proof.
  unfold is_u64. intros Hx Hy. split; [apply Z.lor_nonneg; lia|].
  assert (H : (x .| y) mod 2 ^ 64 = x .| y).
  { rewrite <- Z.land_ones by lia. apply Z.bits_inj'. intros n Hn. rewrite Z.land_spec, Z.lor_spec, Z.testbit_ones_nonneg by lia.
    destruct (Z.ltb_spec n 64); [apply andb_true_r|]. by rewrite (high_bit x 64), (high_bit y 64) by lia. }
  rewrite <- H. apply Z.mod_pos_bound. lia.
Qed.

Lemma u64_land x y : is_u64 x -> is_u64 (x .& y).
Proof.
  unfold is_u64. intros Hx. split; [apply Z.land_nonneg; lia|].
  assert (H : (x .& y) mod 2 ^ 64 = x .& y).
  { rewrite <- Z.land_ones by lia. apply Z.bits_inj'. intros n Hn. rewrite !Z.land_spec, Z.testbit_ones_nonneg by lia.
    destruct (Z.ltb_spec n 64); [apply andb_true_r|]. by rewrite (high_bit x 64) by lia. }
  rewrite <- H. apply Z.mod_pos_bound. lia.
Qed.

(** Adding the flags of a table to an entry that names one. *)
Lemma flag_spec t p r q b i c user :
  x86_inv t p -> reaches t r q b -> (length q <= 2)%nat -> 0 <= i < 512 -> child (entries t b i) = Some c ->
  (user = true -> parent_user t r q) ->
  let t' := store b i (entries t b i .| table_bits user) t in
  grows t p t' p /\ reaches t' r (q ++ [i]) c /\ entries t' b i .& X86_ADDR_MASK = c /\
  (user = true -> parent_user t' r (q ++ [i])).
Proof.
  intros Hi Hb H2 Hib Hc Hpar t'. set (e := entries t b i .| table_bits user).
  destruct (child_present _ _ Hc) as (E0 & E7 & Em).
  assert (He : child e = child (entries t b i)) by (by apply flagged_child).
  assert (Hbit : forall n, 0 <= n -> Z.testbit e n = Z.testbit (entries t b i) n || ((n =? 0) || (n =? 1) || (n =? 2) && user)).
  { intros n Hn. unfold e. by rewrite Z.lor_spec, table_bits_bit. }
  assert (Hre : forall r q a, reaches t' r q a <-> reaches t r q a) by (apply (keep_reaches _ _ Hi _ _ _ _ Hb Hib); by right).
  assert (Hleaf : forall r v, r ∈ live t -> leaf t' r (path_of v) = leaf t r (path_of v)).
  { intros r' v Hr'. destruct (path_of_ok v). apply (keep_leaf _ _ Hi _ _ _ _ Hb Hib _ (or_intror He) c); try done. congruence. }
  assert (Hhere : entries t' b i = e) by (unfold t'; by rewrite entries_store, !Z.eqb_refl).
  split; [constructor; try done|split; [|split]].
  - apply (keep_inv _ _ Hi _ _ _ _ Hb Hib _ (or_intror He)).
    + apply u64_lor; [by apply (xi_u64 _ _ Hi r q)|by destruct user].
    + intros ->. rewrite Hbit, E7 by lia. cbn. by destruct user.
    + intros c' _ Hc'. assert (c' = c) as -> by congruence. destruct (xi_table _ _ Hi _ _ _ _ _ Hb H2 Hib Hc) as (X & Y & W).
      split; [by rewrite Hbit, X by lia|]. split; [by rewrite Hbit, Y by lia|]. intros j Hj J0 J2.
      by rewrite Hbit, (W j Hj J0 J2) by lia.
    + intros _. rewrite Hbit, E7 by lia. cbn. done.
    + rewrite (Hbit 2) by lia. intros _ Hu. destruct user; [by apply Hpar|]. apply (entry_parent t p r q b i); try done.
      by rewrite orb_false_r in Hu.
  - intros r' q' a. by rewrite Hre.
  - intros r' q' a H. left. by apply Hre.
  - intros r' v Hr'. by rewrite Hleaf.
  - intros r' v e' Hr'. by rewrite Hleaf.
  - apply Hre. by apply (reaches_child t r q b i).
  - rewrite Hhere. unfold e. by rewrite flagged_addr.
  - intros ->. apply parent_here with b.
    + by destruct (proj2 (Hre r q b) Hb) as (_ & _ & _ & ?).
    + rewrite Hhere, Hbit by lia. by rewrite orb_true_r.
Qed.

(** Entering a new table [c] keeps the translations when it translates as the
    entry did before. *)
Lemma enter_grows t p r q b i e c :
  x86_inv t p -> reaches t r q b -> (length q <= 2)%nat -> 0 <= i < 512 -> child (entries t b i) = None -> child e = Some c ->
  (forall r q, ~ reaches t r q c) -> ((length q <= 1)%nat -> forall j, 0 <= j < 512 -> entries t c j = 0) ->
  is_u64 e -> Z.testbit e 1 = true -> Z.testbit e 63 = false -> 0 < c -> 1 <= pmm_frame_refcount c p ->
  (forall j, 0 <= j < 512 -> is_u64 (entries t c j) /\
     (Z.testbit (entries t c j) 0 = true -> Z.testbit (entries t c j) 2 = true -> Z.testbit e 2 = true)) ->
  (Z.testbit e 2 = true -> parent_user t r q) ->
  (forall v q2, path_of v = q ++ i :: q2 -> q2 <> [] ->
     located v <$> leaf t c q2 = located v <$> leaf t b (i :: q2) /\ forall e', leaf t b (i :: q2) <> Some (0%nat, e')) ->
  let t' := store b i e t in
  x86_inv t' p /\ (forall r' q' a, reaches t' r' q' a <-> reaches t r' q' a \/ (r' = r /\ q' = q ++ [i] /\ a = c)) /\
  (forall r v, r ∈ live t -> located v <$> leaf t' r (path_of v) = located v <$> leaf t r (path_of v)) /\
  (forall r v e', r ∈ live t -> leaf t r (path_of v) = Some (0%nat, e') -> leaf t' r (path_of v) = Some (0%nat, e')).
Proof.
  intros Hi Hb H2 Hib Hold He Hfresh Hempty Hu He1 He63 Hc0 Hc1 Hnew Hpar Hsame t'.
  assert (Hre := enter_reaches _ _ Hi _ _ _ _ Hb Hib _ _ H2 Hold He Hfresh Hempty).
  assert (Hleaf : forall r' v, r' ∈ live t -> leaf t' r' (path_of v) = leaf t r' (path_of v) \/
    exists q2, r' = r /\ path_of v = q ++ i :: q2 /\ q2 <> [] /\ leaf t' r' (path_of v) = leaf t c q2 /\
               leaf t r' (path_of v) = leaf t b (i :: q2)).
  { intros r' v Hr'. destruct (path_of_ok v) as [H1 H4].
    destruct (enter_leaf t p Hi r q b i Hb e c H2 He Hfresh Hempty r' (path_of v) Hr' H1 H4) as [[H _]|(-> & q2 & A & B & C & D)];
      [by left|]. right. by exists q2. }
  split; [apply (enter_inv _ _ Hi _ _ _ _ Hb Hib _ _ H2 Hold He Hfresh Hempty); done|]. split; [done|]. split.
  - intros r' v Hr'. destruct (Hleaf r' v Hr') as [->|(q2 & _ & A & B & -> & ->)]; [done|]. by apply Hsame.
  - intros r' v e' Hr' Hl. destruct (Hleaf r' v Hr') as [->|(q2 & _ & A & B & _ & E)]; [done|]. rewrite E in Hl.
    destruct (Hsame v q2 A B) as [_ H]. by destruct (H e').
Qed.

(** [grows] for a table that was just allocated and is now entered. *)
Lemma enter_new t p t1 p1 t2 r q b i c :
  grows t p t1 p1 -> ~ 1 <= pmm_frame_refcount c p -> x86_inv t2 p1 -> live t2 = live t1 -> g_kernel_root t2 = g_kernel_root t1 ->
  (forall r' q' a, reaches t2 r' q' a <-> reaches t1 r' q' a \/ (r' = r /\ q' = q ++ [i] /\ a = c)) ->
  reaches t1 r q b ->
  (forall r v, r ∈ live t1 -> located v <$> leaf t2 r (path_of v) = located v <$> leaf t1 r (path_of v)) ->
  (forall r v e', r ∈ live t1 -> leaf t1 r (path_of v) = Some (0%nat, e') -> leaf t2 r (path_of v) = Some (0%nat, e')) ->
  grows t p t2 p1.
Proof.
  intros [A1 A2 A3 A4 A5 A6 A7 A8] Hc Hi Hl Hk Hre Hb Htr Hlf. constructor; try done; try congruence.
  - intros r' q' a H. apply Hre. left. by apply A4.
  - intros r' q' a H. apply Hre in H as [H|(-> & -> & ->)]; [by apply A5 in H|by right].
  - intros r' v Hr'. rewrite Htr, A7; [done|done|congruence].
  - intros r' v e' Hr' He. apply Hlf; [congruence|]. by apply A8.
Qed.

Lemma phys_u64 c : phys_ok c -> 0 <= c -> is_u64 c.
Proof. intros [_ H] H0. unfold is_u64. lia. Qed.

(** [ensure_table] gives a table below the entry, or fails with no 4 KiB page
    there. *)
Lemma ensure_spec t p r q b i user t' p' res :
  x86_inv t p -> reaches t r q b -> (length q <= 2)%nat -> 0 <= i < 512 ->
  (Z.testbit (entries t b i) 0 = true -> Z.testbit (entries t b i) 7 = false) ->
  (user = true -> parent_user t r q) -> ensure_table b i (table_bits user) t p = (t', p', res) ->
  grows t p t' p' /\
  ((res = - ENOMEM /\ forall q2, leaf t r (q ++ i :: q2) = None) \/
   (res = 0 /\ reaches t' r (q ++ [i]) (entries t' b i .& X86_ADDR_MASK) /\ (user = true -> parent_user t' r (q ++ [i])))).
Proof.
  intros Hi Hb H2 Hib H7 Hpar E. unfold ensure_table, X86_PTE_PRESENT in E. rewrite has_bit in E by lia.
  destruct (Z.testbit (entries t b i) 0) eqn:E0; cbn [negb] in E.
  { simplify_eq. destruct (flag_spec t p' r q b i (entries t b i .& X86_ADDR_MASK) user) as (A & B & C & D); try done.
    - unfold child. by rewrite is_table_bits, E0, H7.
    - split; [done|]. right. split; [done|]. by rewrite C. }
  assert (Hnone : forall q2, leaf t b (i :: q2) = None).
  { intros q2. cbn [leaf]. unfold X86_PTE_PRESENT. by rewrite has_bit, E0 by lia. }
  assert (Hold : child (entries t b i) = None) by (unfold child; by rewrite is_table_bits, E0).
  destruct (allocate_table t p) as [[t1 p1] c] eqn:Ea.
  destruct (allocate_table_spec _ _ _ _ _ Hi Ea) as [(-> & -> & ->)|(Hc0 & Hcp & Hg & Hc1 & Hfr & Hcf & Hlf & Hre & Hent)].
  { change (0 =? 0) with true in E. cbv iota in E. simplify_eq. split; [by apply grows_refl|]. left. split; [done|].
    intros q2. destruct Hb as (_ & _ & _ & Hw). by rewrite (leaf_walk _ _ _ _ _ Hw). }
  destruct (Z.eqb_spec c 0); [lia|]. simplify_eq. apply Hre in Hb as Hb1.
  assert (Hbc : b <> c) by (intros ->; by apply (Hfr r q)).
  assert (Hb1e : forall j, entries t1 b j = entries t b j) by (intros j; rewrite Hent; by destruct (Z.eqb_spec b c)).
  assert (Hce : forall j, entries t1 c j = 0) by (intros j; by rewrite Hent, Z.eqb_refl).
  assert (Hu : is_u64 (c .| table_bits user)) by (apply u64_lor; [apply phys_u64; [done|lia]|by destruct user]).
  assert (Hbit : forall n, 0 <= n < 12 \/ 52 <= n -> Z.testbit (c .| table_bits user) n = (n =? 0) || (n =? 1) || (n =? 2) && user).
  { intros k Hk. by rewrite tagged_bit, table_bits_bit by (done || lia). }
  destruct (enter_grows t1 p' r q b i (c .| table_bits user) c) as (A & B & C & D);
    try done; try (by rewrite Hbit by lia); try (apply Hg).
  - by rewrite Hb1e.
  - apply linked_child; [done|lia].
  - intros j Hj. rewrite Hce. split; [done|]. by rewrite Z.bits_0.
  - rewrite Hbit by lia. cbn. intros -> q' j a Eq Hw. rewrite Hent.
    assert (Ha : reaches t1 r q' a).
    { destruct Hb1 as (R1 & R2 & R3 & _). subst q. apply path_ok_app in R2 as [R2 _]. rewrite length_app in R3. split; [done|]. split; [done|].
      split; [lia|done]. }
    assert (a <> c) by (intros ->; by apply (Hfr r q')). destruct (Z.eqb_spec a c); [done|].
    apply (Hpar eq_refl q' j a); [done|]. apply Hre in Ha. apply Ha.
  - intros v q2 _ Hq2. assert (Hb2 : leaf t1 b (i :: q2) = None).
    { cbn [leaf]. unfold X86_PTE_PRESENT. by rewrite Hb1e, has_bit, E0 by lia. }
    rewrite Hb2. split; [|done]. destruct q2 as [|j q3]; [done|]. cbn [leaf]. by rewrite Hce.
  - split; [apply (enter_new t p t1 p' _ r q b i c); done|]. right. split; [done|].
    rewrite entries_store, !Z.eqb_refl. cbn [andb]. rewrite tagged_addr by (done || lia || apply table_bits_outside).
    assert (Hrc : reaches (store b i (c .| table_bits user) t1) r (q ++ [i]) c) by (apply B; by right). split; [done|].
    intros ->. apply parent_here with b; [|rewrite entries_store, !Z.eqb_refl; cbn [andb]; by rewrite Hbit by lia].
    assert (Hrb : reaches (store b i (c .| table_bits true) t1) r q b) by (apply B; by left). apply Hrb.
Qed.

(** ** Splitting a 2 MiB page *)
Lemma fill_entries t c base flags :
  let t' := fill_table c base flags t in
  live t' = live t /\ g_kernel_root t' = g_kernel_root t /\
  forall a j, entries t' a j = if (a =? c) && (0 <=? j) && (j <? 512) then u64 (base + j * PAGE_SIZE + flags) else entries t a j.
Proof.
  apply (for_range_ind (fun k s => live s = live t /\ g_kernel_root s = g_kernel_root t /\
    forall a j, entries s a j = if (a =? c) && (0 <=? j) && (j <? k) then u64 (base + j * PAGE_SIZE + flags) else entries t a j)); [lia| |].
  - split; [done|]. split; [done|]. intros a j. by replace ((a =? c) && (0 <=? j) && (j <? 0)) with false by lia.
  - intros k s Hk (Hl & Hr & He). split; [done|]. split; [done|]. intros a j. rewrite entries_store, He.
    destruct (Z.eqb_spec a c) as [->|]; [|done]. cbn [andb]. destruct (Z.eqb_spec j k) as [->|Hne].
    + by replace ((0 <=? k) && (k <? k + 1)) with true by lia.
    + by replace ((0 <=? j) && (j <? k + 1)) with ((0 <=? j) && (j <? k)) by lia.
Qed.

Lemma offset_split v : v mod 2 ^ 21 = index_at 1 v * PAGE_SIZE + v mod PAGE_SIZE.
Proof.
  unfold index_at. change 0x1ff with (2 ^ 9 - 1). rewrite land_low_mask, Z.shiftr_div_pow2 by lia.
  change (12 + 9 * (1 - 1)) with 12. change PAGE_SIZE with (2 ^ 12). dlia.
Qed.

(** The small pages a large one is split into lie where it lay. *)
Lemma split_located old v :
  is_u64 old -> Z.testbit old 7 = true -> (forall n, 12 <= n < 21 -> Z.testbit old n = false) ->
  located v (0%nat, u64 ((old .& HUGE_MASK) + index_at 1 v * PAGE_SIZE + ((old .& Z.lnot HUGE_MASK) .& Z.lnot X86_PTE_HUGE))) =
  located v (1%nat, old).
Proof.
  intros Hold H7 Hz. destruct (split_entry old (index_at 1 v) Hold H7 Hz (index_bounds 1 v)) as (_ & _ & Hb & Hm).
  unfold located. cbn [fst snd]. rewrite Hm. rewrite !allows_bits, !Hb by lia. f_equal.
  change (12 + 9 * Z.of_nat 0) with 12. change (12 + 9 * Z.of_nat 1) with 21. change (2 ^ 12) with PAGE_SIZE.
  rewrite Z.mod_add by done. destruct (masked_ok old) as [[Ha _] _]. rewrite Ha, (offset_split v).
  assert (Hs : (old .& X86_ADDR_MASK) mod 2 ^ 21 = 0).
  { rewrite <- Z.land_ones by lia. apply Z.bits_inj'. intros n Hn. rewrite !Z.land_spec, mask_bit, Z.testbit_ones_nonneg, Z.bits_0 by lia.
    destruct (decide (12 <= n < 21)) as [Hr|]; [by rewrite Hz|]. destruct (Z.testbit old n); lia. }
  rewrite Hs. lia.
Qed.

Lemma land_bit2 x : x .& X86_PTE_USER = if Z.testbit x 2 then 4 else 0.
Proof.
  apply Z.bits_inj'. intros n Hn. unfold X86_PTE_USER. rewrite Z.land_spec, bit_one by lia. destruct (Z.eqb_spec n 2) as [->|Hne].
  - by destruct (Z.testbit x 2).
  - rewrite andb_false_r. destruct (Z.testbit x 2); [|by rewrite Z.bits_0]. change 4 with (1 .<< 2). rewrite bit_one by lia.
    by destruct (Z.eqb_spec n 2).
Qed.

Lemma split_spec t p r q b i t' p' res :
  x86_inv t p -> reaches t r q b -> length q = 2%nat -> 0 <= i < 512 -> Z.testbit (entries t b i) 7 = true ->
  split_2m_page b i t p = (t', p', res) ->
  grows t p t' p' /\ (res = - ENOMEM \/ (res = 0 /\ is_Some (child (entries t' b i)) /\ forall q' a, walk t r q' = Some a ->
    (length q' <= 1)%nat -> path_ok q' -> forall j, entries t' a j = entries t a j)).
Proof.
  intros Hi Hb H2 Hib H7 E. unfold split_2m_page in E. destruct (allocate_table t p) as [[t1 p1] c] eqn:Ea.
  destruct (allocate_table_spec _ _ _ _ _ Hi Ea) as [(-> & -> & ->)|(Hc0 & Hcp & Hg & Hc1 & Hfr & Hcf & Hlf & Hre & Hent)].
  { change (0 =? 0) with true in E. cbv iota in E. simplify_eq. split; [by apply grows_refl|]. by left. }
  destruct (Z.eqb_spec c 0) as [|Hcne]; [lia|]. set (old := entries t b i) in *.
  set (f := fun j => u64 ((old .& HUGE_MASK) + j * PAGE_SIZE + ((old .& Z.lnot HUGE_MASK) .& Z.lnot X86_PTE_HUGE))).
  set (e := (c .& X86_ADDR_MASK) .| X86_PTE_PRESENT .| X86_PTE_WRITE .| (old .& X86_PTE_USER)).
  cbv zeta in E. fold e in E. destruct (fill_entries t1 c (old .& HUGE_MASK) ((old .& Z.lnot HUGE_MASK) .& Z.lnot X86_PTE_HUGE)) as (Hl2 & Hk2 & He2).
  generalize dependent (fill_table c (old .& HUGE_MASK) ((old .& Z.lnot HUGE_MASK) .& Z.lnot X86_PTE_HUGE) t1). intros t2 E Hl2 Hk2 He2.
  injection E as <- <- <-. change (forall a j, entries t2 a j = if (a =? c) && (0 <=? j) && (j <? 512) then f j else entries t1 a j) in He2.
  destruct (xi_huge _ _ Hi _ _ _ _ Hb H2 Hib H7) as [H0 Hz]. fold old in H0, Hz.
  pose proof (xi_u64 _ _ Hi _ _ _ _ Hb Hib) as Hold. fold old in Hold.
  destruct (inv_agree t1 p1 (gr_inv _ _ _ _ Hg) t2 p1 Hl2 (xi_pmm _ _ (gr_inv _ _ _ _ Hg))) as (Hre2 & Hi2 & Hlf2).
  { intros r' q' a H. split; [|apply (xi_ref _ _ (gr_inv _ _ _ _ Hg) _ _ _ H)]. intros j. rewrite He2.
    destruct (Z.eqb_spec a c) as [->|]; [by destruct (Hfr r' q')|done]. }
  assert (Hbc : b <> c) by (intros ->; apply Hre in Hb; by apply (Hfr r q)).
  assert (Hoff : forall a j, a <> c -> entries t2 a j = entries t a j).
  { intros a j Hne. rewrite He2, Hent. by destruct (Z.eqb_spec a c). }
  assert (Hin : forall j, 0 <= j < 512 -> entries t2 c j = f j).
  { intros j Hj. rewrite He2, Z.eqb_refl. by replace (true && (0 <=? j) && (j <? 512)) with true by lia. }
  assert (Hbit : forall n, 0 <= n < 12 \/ 52 <= n -> Z.testbit e n = (n =? 0) || (n =? 1) || (n =? 2) && Z.testbit old 2).
  { intros k Hk. unfold e. rewrite <- !Z.lor_assoc, mask_page, tagged_bit by (done || lia).
    unfold X86_PTE_PRESENT, X86_PTE_WRITE, X86_PTE_USER. rewrite !Z.lor_spec, Z.land_spec, !bit_one by lia.
    destruct (Z.eqb_spec k 2) as [->|]; [by destruct (Z.testbit old 2)|]. destruct (Z.testbit old k); lia. }
  assert (Hem : e .& X86_ADDR_MASK = c).
  { unfold e. rewrite <- !Z.lor_assoc, (mask_page c) by (done || lia). apply tagged_addr; [done|lia|].
    apply Z.bits_inj'. intros k Hk. rewrite Z.land_spec, mask_bit, !Z.lor_spec, Z.land_spec, Z.bits_0 by done.
    unfold X86_PTE_PRESENT, X86_PTE_WRITE, X86_PTE_USER. rewrite !bit_one by lia. destruct (Z.testbit old k); lia. }
  assert (Hch : child e = Some c) by (unfold child; by rewrite is_table_bits, !Hbit, Hem by lia).
  assert (Hb2 : reaches t2 r q b) by (by apply Hre2, Hre).
  assert (Hold2 : child (entries t2 b i) = None).
  { rewrite Hoff by done. unfold child. fold old. by rewrite is_table_bits, H7, andb_false_r. }
  assert (Hu : is_u64 e).
  { unfold e. rewrite mask_page by (done || lia). repeat apply u64_lor; [apply phys_u64; [done|lia]|done|done|].
    unfold is_u64, X86_PTE_USER. rewrite land_bit2. by destruct (Z.testbit old 2). }
  assert (Hfb : forall j, 0 <= j < 512 -> is_u64 (f j) /\ Z.testbit (f j) 7 = false /\ Z.testbit (f j) 0 = true /\ Z.testbit (f j) 2 = Z.testbit old 2).
  { intros j Hj. destruct (split_entry old j Hold H7 Hz Hj) as (X & Y & W & _). fold (f j) in X, Y, W.
    split; [done|]. split; [done|]. split; [by rewrite W by lia|]. by rewrite W by lia. }
  assert (Hfr2 : forall r q, ~ reaches t2 r q c) by (intros r' q'; rewrite Hre2; apply Hfr).
  assert (Hnew : forall j, 0 <= j < 512 -> is_u64 (entries t2 c j) /\
    (Z.testbit (entries t2 c j) 0 = true -> Z.testbit (entries t2 c j) 2 = true -> Z.testbit e 2 = true)).
  { intros j Hj. rewrite Hin by done. destruct (Hfb j Hj) as (X & _ & _ & Y). split; [exact X|]. rewrite Y, Hbit by lia. auto. }
  assert (Hpar : Z.testbit e 2 = true -> parent_user t2 r q).
  { rewrite Hbit by lia. cbn [Z.eqb Pos.eqb orb andb]. intros HU.
    apply (entry_parent t2 p1 r q b i Hi2 Hb2 Hib); rewrite Hoff by exact Hbc; [exact H0|exact HU]. }
  assert (Hsame : forall v q2, path_of v = q ++ i :: q2 -> q2 <> [] ->
    located v <$> leaf t2 c q2 = located v <$> leaf t2 b (i :: q2) /\ forall e', leaf t2 b (i :: q2) <> Some (0%nat, e')).
  { intros v q2 Hv Hq2. assert (Hq2' : q2 = [index_at 1 v]).
    { destruct q as [|x [|y [|? ?]]]; cbn in H2; try lia. cbn in Hv. unfold path_of in Hv. by simplify_eq. }
    subst q2. cbn [leaf length]. unfold X86_PTE_PRESENT, X86_PTE_HUGE. rewrite !has_bit by lia.
    rewrite (Hoff b i Hbc), (Hin _ (index_bounds 1 v)). fold old. rewrite H0, H7.
    destruct (Hfb (index_at 1 v) (index_bounds 1 v)) as (_ & -> & -> & _). cbn [negb orb].
    rewrite bool_decide_true, orb_true_r by reflexivity. cbn [orb]. split; [|discriminate]. cbn [fmap option_fmap option_map].
    f_equal. exact (split_located old v Hold H7 Hz). }
  assert (Hlen : (length q <= 2)%nat) by lia.
  assert (Hemp : (length q <= 1)%nat -> forall j, 0 <= j < 512 -> entries t2 c j = 0) by lia.
  assert (He1 : Z.testbit e 1 = true) by (rewrite Hbit by lia; reflexivity).
  assert (He63 : Z.testbit e 63 = false) by (rewrite Hbit by lia; reflexivity).
  pose proof (enter_grows t2 p1 r q b i e c Hi2 Hb2 Hlen Hib Hold2 Hch Hfr2 Hemp Hu He1 He63 Hc0 Hc1 Hnew Hpar Hsame) as (A & B & C & D).
  assert (Hg2 : grows t p t2 p1).
    { destruct Hg as [G1 G2 G3 G4 G5 G6 G7 G8].
      assert (Hlp : forall r v, r ∈ live t1 -> leaf t2 r (path_of v) = leaf t1 r (path_of v)).
      { intros r' v Hr'. destruct (path_of_ok v). apply Hlf2; [done|done|lia]. }
      constructor; try done; try congruence.
      - intros r' q' a H. by apply Hre2, G4.
      - intros r' q' a H. apply Hre2 in H. by apply G5 in H.
      - intros r' v Hr'. rewrite Hlp, G7; [done|done|congruence].
      - intros r' v e' Hr' Hl. rewrite Hlp by congruence. by apply G8. }
  split; [exact (enter_new t p t2 p1 _ r q b i c Hg2 Hcf A eq_refl eq_refl B Hb2 C D)|]. right. split; [done|]. split.
  - rewrite entries_store, !Z.eqb_refl. cbn [andb]. by rewrite Hch.
  - intros q' a Hw Hl Hq j. assert (Ha : reaches t r q' a) by (split; [apply Hb|split; [done|split; [lia|done]]]).
      rewrite entries_store. destruct (Z.eqb_spec a b) as [->|].
    + destruct (xi_inj _ _ Hi _ _ _ _ _ Ha Hb) as [_ ->]. lia.
    + cbn [andb]. apply Hoff. intros ->. apply Hre in Ha. by apply (Hfr r q').
Qed.

Lemma map_pd_spec t p r q b i user t' p' res :
  x86_inv t p -> reaches t r q b -> length q = 2%nat -> 0 <= i < 512 -> (user = true -> parent_user t r q) ->
  map_pd b i (table_bits user) t p = (t', p', res) ->
  grows t p t' p' /\
  ((res = - ENOMEM /\ forall q2 e, q2 <> [] -> leaf t r (q ++ i :: q2) <> Some (0%nat, e)) \/
   (res = 0 /\ reaches t' r (q ++ [i]) (entries t' b i .& X86_ADDR_MASK) /\ (user = true -> parent_user t' r (q ++ [i])))).
Proof.
  intros Hi Hb H2 Hib Hpar E. unfold map_pd, X86_PTE_HUGE in E. rewrite has_bit in E by lia.
  destruct (Z.testbit (entries t b i) 7) eqn:H7.
  - destruct (split_2m_page b i t p) as [[t1 p1] r1] eqn:Es.
    destruct (split_spec _ _ _ _ _ _ _ _ _ Hi Hb H2 Hib H7 Es) as (Hg & [->|(-> & [c Hc] & Hup)]).
    + change (- ENOMEM <? 0) with true in E. cbv iota in E. simplify_eq. split; [done|]. left. split; [done|].
      intros q2 e Hq2. destruct (xi_huge _ _ Hi _ _ _ _ Hb H2 Hib H7) as [H0 _]. destruct Hb as (_ & _ & _ & Hw).
      rewrite (leaf_walk _ _ _ _ _ Hw) by done. cbn [leaf]. unfold X86_PTE_PRESENT, X86_PTE_HUGE. rewrite !has_bit, H0, H7 by lia.
      cbn [negb]. rewrite orb_true_r. destruct q2; [done|]. cbn [length]. congruence.
    + change (0 <? 0) with false in E. cbv iota in E. injection E as <- <- <-.
      assert (Hpar1 : user = true -> parent_user t1 r q).
      { intros Hu q' j a Eq Hw'. subst q. rewrite length_app in H2. cbn in H2. destruct Hb as (Hr & Hq & Hl & Hw).
        rewrite walk_app in Hw. destruct (walk t r q') as [a0|] eqn:Ew; [|done]. apply path_ok_app in Hq as [Hq _].
        assert (Ha0 : reaches t1 r q' a0) by (apply (gr_reach _ _ _ _ Hg); split; [done|split; [done|split; [lia|done]]]).
        destruct Ha0 as (_ & _ & _ & Hw1). assert (a = a0) as -> by congruence.
        rewrite (Hup q' a0 Ew ltac:(lia) Hq). by apply (Hpar Hu q' j a0). }
      destruct (flag_spec t1 p1 r q b i c user (gr_inv _ _ _ _ Hg) (gr_reach _ _ _ _ Hg _ _ _ Hb) ltac:(lia) Hib Hc Hpar1)
        as (A & B & C & D).
      split; [by apply (grows_trans _ _ t1 p1)|]. right. split; [done|]. rewrite C. done.
  - destruct (ensure_spec t p r q b i user t' p' res) as [Hg Hc]; try done; [lia|]. split; [done|].
    destruct Hc as [[-> Hn]|Hc]; [left|by right]. split; [done|]. intros q2 e _. by rewrite Hn.
Qed.

(** ** arch_paging_map *)
Lemma path_of_split v : path_of v = [] ++ index_at 4 v :: [index_at 3 v; index_at 2 v; index_at 1 v].
Proof. done. Qed.

Lemma map_page_spec t p root v a fl t' p' res :
  x86_inv t p -> root ∈ live t -> phys_ok a -> 0 <= a -> map_page root v a fl t p = (t', p', res) ->
  exists t3, grows t p t3 p' /\
  ((res < 0 /\ t' = t3 /\ forall e, leaf t root (path_of v) <> Some (0%nat, e)) \/
   (res = 0 /\ exists pt, reaches t3 root [index_at 4 v; index_at 3 v; index_at 2 v] pt /\
      t' = store pt (index_at 1 v) ((a .& X86_ADDR_MASK) .| native_flags fl) t3 /\ x86_inv t' p')).
Proof.
  intros Hi Hr Hap Ha E. unfold map_page in E.
  set (user := has fl VMM_USER) in E. change (_ .| (if user then X86_PTE_USER else 0)) with (table_bits user) in E.
  pose proof (index_bounds 4 v) as B4. pose proof (index_bounds 3 v) as B3. pose proof (index_bounds 2 v) as B2.
  pose proof (index_bounds 1 v) as B1.
  destruct (ensure_table root _ _ t p) as [[t1 p1] r1] eqn:E1.
  destruct (ensure_spec _ _ _ _ _ _ _ _ _ _ Hi (reaches_root _ _ Hr) ltac:(cbn; lia) B4
    (fun _ => xi_top _ _ Hi _ _ Hr B4) ltac:(intros _ [|? ?] ? ? Hq; done) E1) as (G1 & [[-> N1]|(-> & R1 & P1)]).
  { change (- ENOMEM <? 0) with true in E. cbv iota in E. injection E as <- <- <-. exists t1. split; [done|]. left. split; [done|].
    split; [done|]. intros e. rewrite path_of_split, N1. done. }
  change (0 <? 0) with false in E. cbv iota in E. set (pdpt := entries t1 root _ .& _) in *. cbn [app] in *.
  unfold map_pdpt, X86_PTE_PRESENT, X86_PTE_HUGE in E. rewrite !has_bit in E by lia.
  assert (Hkeep : forall t2 p2, grows t p t2 p2 -> (forall e, leaf t2 root (path_of v) <> Some (0%nat, e)) ->
    forall e, leaf t root (path_of v) <> Some (0%nat, e)).
  { intros t2 p2 G Hn e Hl. by apply (Hn e), (gr_leaf _ _ _ _ G). }
  destruct (Z.testbit (entries t1 pdpt (index_at 3 v)) 0 && Z.testbit (entries t1 pdpt (index_at 3 v)) 7) eqn:E37.
  { change (- ENOTSUP <? 0) with true in E. cbv iota in E. injection E as <- <- <-. exists t1. split; [done|]. left. split; [done|].
    split; [done|]. apply (Hkeep t1 p1 G1). intros e. apply andb_true_iff in E37 as [F0 F7].
    change (path_of v) with ([index_at 4 v] ++ index_at 3 v :: [index_at 2 v; index_at 1 v]).
    destruct R1 as (_ & _ & _ & Hw1). rewrite (leaf_walk _ _ _ _ _ Hw1) by done. cbn [leaf]. unfold X86_PTE_PRESENT, X86_PTE_HUGE.
    rewrite !has_bit, F0, F7 by lia. cbn. congruence. }
  destruct (ensure_table pdpt _ _ t1 p1) as [[t2 p2] r2] eqn:E2.
  destruct (ensure_spec _ _ _ _ _ _ _ _ _ _ (gr_inv _ _ _ _ G1) R1 ltac:(cbn; lia) B3 ltac:(intros F0; rewrite F0 in E37; exact E37)
    P1 E2) as (G2 & [[-> N2]|(-> & R2 & P2)]).
  { change (- ENOMEM <? 0) with true in E. cbv iota in E. injection E as <- <- <-. exists t2.
    split; [by apply (grows_trans _ _ t1 p1)|]. left. split; [done|]. split; [done|]. apply (Hkeep t1 p1 G1). intros e.
    change (path_of v) with ([index_at 4 v] ++ index_at 3 v :: [index_at 2 v; index_at 1 v]). by rewrite N2. }
  change (0 <? 0) with false in E. cbv iota in E. set (pd := entries t2 pdpt _ .& _) in *. cbn [app] in *.
  pose proof (grows_trans _ _ _ _ _ _ G1 G2) as G12.
  destruct (map_pd pd _ _ t2 p2) as [[t3 p3] r3] eqn:E3.
  destruct (map_pd_spec _ _ _ _ _ _ _ _ _ _ (gr_inv _ _ _ _ G2) R2 eq_refl B2 P2 E3) as (G3 & [[-> N3]|(-> & R3 & P3)]).
  { change (- ENOMEM <? 0) with true in E. cbv iota in E. injection E as <- <- <-. exists t3.
    split; [by apply (grows_trans _ _ t2 p2)|]. left. split; [done|]. split; [done|]. apply (Hkeep t2 p2 G12). intros e.
    change (path_of v) with ([index_at 4 v; index_at 3 v] ++ index_at 2 v :: [index_at 1 v]). by apply N3. }
  change (0 <? 0) with false in E. cbv iota in E. set (pt := entries t3 pd _ .& _) in *. cbn [app] in *.
  injection E as <- <- <-. exists t3. split; [by apply (grows_trans _ _ t2 p2)|]. right. split; [done|]. exists pt.
  split; [done|]. split; [done|]. destruct (page_entry a fl Hap Ha) as (F0 & Fm & Fa & F2).
  apply (keep_inv _ _ (gr_inv _ _ _ _ G3) _ _ _ _ R3 B1); try (cbn; lia); try done.
  - apply u64_lor; [apply phys_u64; apply masked_ok|]. apply native_u64.
  - intros _. rewrite F2. intros Hu. apply P3. unfold user, VMM_USER. rewrite has_bit by lia. done.
Qed.

(** ** The view of the interface *)
Lemma allows_below e x :
  Z.testbit e 1 = true -> Z.testbit e 63 = false -> (Z.testbit x 2 = true -> Z.testbit e 2 = true) ->
  (allows e .| VMM_NOCACHE) .& allows x = allows x.
Proof.
  intros H1 H63 H2. rewrite !allows_bits, H1, H63.
  destruct (Z.testbit x 2) eqn:Ex; [rewrite H2 by done|];
    destruct (Z.testbit e 2), (Z.testbit e 4), (Z.testbit x 1), (Z.testbit x 4), (Z.testbit x 63); done.
Qed.

(** The access rights of a page are those of its last entry. *)
Lemma mmu_leaf_below t p r q b path :
  x86_inv t p -> reaches t r q b -> path_ok path -> (length q + length path = 4)%nat ->
  mmu t b path = (fun x => (x, allows x.2)) <$> leaf t b path /\
  (forall n x i path', path = i :: path' -> leaf t b path = Some (n, x) -> Z.testbit x 2 = true ->
     Z.testbit (entries t b i) 0 = true /\ Z.testbit (entries t b i) 2 = true).
Proof.
  intros Hi. revert q b. induction path as [|i path IH]; intros q b Hb Hq Hl; [done|].
  apply path_ok_cons in Hq as [Hib Hq]. cbn [mmu leaf length] in *. unfold X86_PTE_PRESENT, X86_PTE_HUGE. rewrite !has_bit by lia.
  destruct (Z.testbit (entries t b i) 0) eqn:E0; cbn [negb]; [|done].
  destruct (bool_decide (path = []) || Z.testbit (entries t b i) 7) eqn:E7.
  { split; [done|]. intros n x j path' Ej Hx Hx2. by simplify_eq. }
  apply orb_false_iff in E7 as [En E7]. apply bool_decide_eq_false in En.
  assert (Hc : child (entries t b i) = Some (entries t b i .& X86_ADDR_MASK)) by (unfold child; by rewrite is_table_bits, E0, E7).
  assert (Hq2 : (length q <= 2)%nat) by (destruct path as [|? [|? ?]]; cbn in Hl; [done|lia|lia]).
  destruct (IH (q ++ [i]) (entries t b i .& X86_ADDR_MASK)) as [IH1 IH2];
    [by apply (reaches_child t r q b)|done|rewrite length_app; cbn; lia|].
  destruct (xi_table _ _ Hi _ _ _ _ _ Hb Hq2 Hib Hc) as (X & Y & W). rewrite IH1.
  destruct (leaf t (entries t b i .& X86_ADDR_MASK) path) as [[n x]|] eqn:El; [|done]. cbn.
  assert (Hup : Z.testbit x 2 = true -> Z.testbit (entries t b i) 2 = true).
  { intros Hx. destruct path as [|j path']; [done|]. destruct (IH2 n x j path' eq_refl eq_refl Hx) as [J0 J2].
    apply (W j); [|done|done]. by apply path_ok_cons in Hq as [? _]. }
  split; [by rewrite allows_below|]. intros n' x' j path' Ej Hx Hx2. simplify_eq. split; [done|]. by apply Hup.
Qed.

Lemma translate_leaf t p r v :
  x86_inv t p -> r ∈ live t -> translate t r v = located v <$> leaf t r (path_of v).
Proof.
  intros Hi Hr. destruct (path_of_ok v) as [H1 H4]. unfold translate.
  destruct (mmu_leaf_below t p r [] r (path_of v)) as [-> _]; [done|by apply reaches_root|done|done|].
  by destruct (leaf t r (path_of v)) as [[n x]|].
Qed.

#[export] Instance x86_view : PagingView x86 := {
  pg_inv t p := x86_inv t p /\ g_kernel_root t ∈ live t;
  pg_table t a := exists r q, reaches t r q a;
  pg_root t r := r ∈ live t;
  pg_lookup t r v := match leaf t r (path_of v) with Some (O, e) => Some (e .& X86_ADDR_MASK, allows e) | _ => None end;
  pg_user t r v := exists x, leaf t r (path_of v) = Some x /\ has (allows x.2) VMM_USER = true
}.

Lemma path_value v : page_aligned v -> 0 <= v < 2 ^ 48 -> v = index_at 4 v * 2 ^ 39 + index_at 3 v * 2 ^ 30 + index_at 2 v * 2 ^ 21 + index_at 1 v * 2 ^ 12.
Proof.
  intros Ha Hv. unfold page_aligned in Ha. change PAGE_SIZE with (2 ^ 12) in Ha. unfold index_at. change 0x1ff with (2 ^ 9 - 1).
  rewrite !land_low_mask, !Z.shiftr_div_pow2 by lia.
  change (12 + 9 * (4 - 1)) with 39. change (12 + 9 * (3 - 1)) with 30. change (12 + 9 * (2 - 1)) with 21. change (12 + 9 * (1 - 1)) with 12.
  dlia.
Qed.

Lemma path_inj v w :
  page_aligned v -> page_aligned w -> 0 <= v < 2 ^ 48 -> 0 <= w < 2 ^ 48 -> path_of v = path_of w -> v = w.
Proof.
  intros Hv Hw Bv Bw E. unfold path_of in E. injection E as E4 E3 E2 E1. rewrite (path_value v Hv Bv), (path_value w Hw Bw). congruence.
Qed.

Lemma user_path_inj v w : user_va v -> user_va w -> path_of v = path_of w -> v = w.
Proof. intros [Hv Bv] [Hw Bw]. apply path_inj; (done || lia). Qed.

Lemma page_path_inj v w : page_va v -> page_va w -> path_of v = path_of w -> v = w.
Proof. intros [Hv Bv] [Hw Bw]. by apply path_inj. Qed.

Lemma path_of_page v : path_of (v - v mod PAGE_SIZE) = path_of v.
Proof.
  assert (H : forall k, 12 <= k -> (v - v mod PAGE_SIZE) .>> k = v .>> k).
  { intros k Hk. rewrite !Z.shiftr_div_pow2 by lia. change PAGE_SIZE with (2 ^ 12). replace k with (12 + (k - 12)) by lia.
    rewrite Z.pow_add_r, <- !Z.div_div by lia. f_equal. dlia. }
  unfold path_of, index_at. by rewrite !H by lia.
Qed.

Lemma grows_kept t p t' p' :
  grows t p t' p' -> g_kernel_root t ∈ live t ->
  frames_kept t p t' p' /\ forall r, pg_root t r -> root_kept t t' r (fun _ => False).
Proof.
  intros [G1 G2 G3 G4 G5 G6 G7 G8] Hk. split; [split|].
  - cbn. split; [done|]. congruence.
  - intros a Ha H1 Hn. split; [by apply G6|]. intros (r & q & H). apply G5 in H as [H|H]; [|done]. apply Hn. by exists r, q.
  - intros r Hr. cbn in Hr. split; [cbn; congruence|]. split.
    + intros v x Hv _ Hx. cbn [pg_lookup x86_view] in *.
      destruct (leaf t r (path_of v)) as [[[|n] e]|] eqn:El; [|done|done]. by rewrite (G8 _ _ _ Hr El).
    + intros v _ _ (x & Hx & Hux). pose proof (G7 r v Hr) as Hloc. rewrite Hx in Hloc.
      destruct (leaf t r (path_of v)) as [y|] eqn:El; [|done]. exists y. split; [done|].
      cbn in Hloc. unfold located in Hloc. injection Hloc as _ Hal. by rewrite <- Hal.
Qed.

Lemma x86_map t p t' p' root v a fl r :
  pg_inv t p -> pg_root t root -> user_va v -> 0 <= a -> phys_ok a ->
  arch_paging_map root v a fl t p = (t', p', r) ->
  frames_kept t p t' p' /\ others_kept t t' root /\ root_kept t t' root (eq v) /\
  arch_paging_kernel_root t' = arch_paging_kernel_root t /\
  ((r = 0 /\ pg_lookup t' root v = Some (a, visible fl)) \/
   (r < 0 /\ pg_lookup t root v = None /\ (pg_user t' root v -> pg_user t root v))).
Proof.
  intros [Hi Hk] Hr Hv Ha Hap E. cbn in Hr, E.
  destruct (map_page_spec _ _ _ _ _ _ _ _ _ Hi Hr Hap Ha E) as (t3 & G & [(Hr0 & -> & Hn)|(-> & pt & Hpt & -> & Hi')]).
  - destruct (grows_kept _ _ _ _ G Hk) as [Hf Ho]. split; [done|]. split; [intros r' Hr' _; by apply Ho|].
    destruct (Ho root Hr) as (A & B & C).
    split; [split; [done|]; split; [intros w x Hw _; exact (B w x Hw (fun H => H))|intros w Hw _; exact (C w Hw (fun H => H))]|].
    split; [apply G|]. right. split; [done|]. split; [|exact (C v (user_page_va v Hv) (fun H => H))].
    cbn [pg_lookup x86_view]. destruct (leaf t root (path_of v)) as [[[|n] e]|] eqn:El; [|done|done]. by destruct (Hn e).
  - destruct (grows_kept _ _ _ _ G Hk) as [[[_ Hk3] Hf] Ho]. set (e := _ .| native_flags fl) in *. destruct (page_entry a fl Hap Ha) as (F0 & Fm & Fa & _).
    fold e in F0, Fm, Fa. set (t4 := store pt (index_at 1 v) e t3) in *. pose proof (index_bounds 1 v) as B1.
    assert (Hre : forall r q b, reaches t4 r q b <-> reaches t3 r q b) by (apply (keep_reaches _ _ (gr_inv _ _ _ _ G) _ _ _ _ Hpt B1); by left).
    assert (Hleaf : forall r w, r ∈ live t3 -> leaf t4 r (path_of w) =
      if bool_decide (r = root /\ path_of w = path_of v) then Some (0%nat, e) else leaf t3 r (path_of w)).
    { intros r' w Hr'. destruct (path_of_ok w) as [P1 P4].
      pose proof (last_leaf _ _ (gr_inv _ _ _ _ G) _ _ _ _ Hpt B1 e (or_introl eq_refl) r' (path_of w) eq_refl Hr' P1 P4) as H.
      rewrite F0 in H. exact H. }
    pose proof (gr_live _ _ _ _ G) as Hlive.
    assert (Hlk : forall r w x, r ∈ live t -> user_va w -> ~ (r = root /\ v = w) -> pg_lookup t r w = Some x -> pg_lookup t4 r w = Some x).
    { intros r' w x Hr' Hw Hne Hx. destruct (Ho r' Hr') as (_ & Hx3 & _). specialize (Hx3 w x Hw (fun H => H) Hx). cbn [pg_lookup x86_view] in *.
      rewrite Hleaf by congruence. rewrite bool_decide_false; [done|]. intros [-> Hp]. apply Hne. split; [done|]. by apply user_path_inj. }
    assert (Hus : forall r w, r ∈ live t -> page_va w -> ~ (r = root /\ v = w) -> pg_user t4 r w -> pg_user t r w).
    { intros r' w Hr' Hw Hne Hx. apply (Ho r' Hr'); [done|tauto|]. cbn [pg_user x86_view] in Hx |- *.
      rewrite Hleaf, bool_decide_false in Hx; [done| |congruence]. intros [-> Hp]. apply Hne. split; [done|].
      apply page_path_inj; [by apply user_page_va|done|done]. }
    split; [split|split; [|split; [|split]]].
    + cbn. split; [done|]. exact Hk3.
    + intros b Hb H1 Hn. destruct (Hf b Hb H1 Hn) as [X Y]. split; [done|]. intros (r' & q & H). apply Y. exists r', q. by apply Hre.
    + intros r' Hr' Hne. split; [cbn in *; congruence|]. split.
      * intros w x Hw _. apply Hlk; [done|done|]. by intros [-> _].
      * intros w Hw _. apply Hus; [done|done|]. by intros [-> _].
    + split; [cbn; congruence|]. split.
      * intros w x Hw Hne. apply Hlk; [done|done|]. by intros [_ ->].
      * intros w Hw Hne. apply Hus; [done|done|]. by intros [_ ->].
    + apply G.
    + left. split; [done|]. cbn [pg_lookup x86_view]. rewrite Hleaf by congruence. rewrite bool_decide_true by done. by rewrite Fm, Fa.
Qed.

Lemma unmap_page_spec t p root v t' res :
  x86_inv t p -> root ∈ live t -> unmap_page root v t = (t', res) ->
  (res < 0 /\ t' = t /\ forall e, leaf t root (path_of v) <> Some (0%nat, e)) \/
  (res = 0 /\ exists pt, reaches t root [index_at 4 v; index_at 3 v; index_at 2 v] pt /\ t' = store pt (index_at 1 v) 0 t).
Proof.
  intros Hi Hr E. pose proof (index_bounds 4 v) as B4. pose proof (index_bounds 3 v) as B3. pose proof (index_bounds 2 v) as B2.
  unfold unmap_page, X86_PTE_PRESENT, X86_PTE_HUGE in E. rewrite !has_bit in E by lia.
  unfold path_of. cbn [leaf length]. unfold X86_PTE_PRESENT, X86_PTE_HUGE. rewrite !has_bit by lia.
  pose proof (xi_top _ _ Hi _ _ Hr B4) as H47. rewrite H47.
  set (e4 := entries t root (index_at 4 v)) in *. destruct (Z.testbit e4 0) eqn:E40; cbn [negb] in E |- *; [|left; by simplify_eq].
  set (pdpt := e4 .& X86_ADDR_MASK) in *. set (e3 := entries t pdpt (index_at 3 v)) in *.
  destruct (Z.testbit e3 0) eqn:E30; cbn [negb orb] in E |- *; [|left; by simplify_eq].
  destruct (Z.testbit e3 7) eqn:E37; cbn [orb] in E |- *; [left; by simplify_eq|].
  set (pd := e3 .& X86_ADDR_MASK) in *. set (e2 := entries t pd (index_at 2 v)) in *.
  destruct (Z.testbit e2 0) eqn:E20; cbn [negb orb] in E |- *; [|left; by simplify_eq].
  destruct (Z.testbit e2 7) eqn:E27; cbn [orb] in E |- *; [left; by simplify_eq|].
  right. injection E as <- <-. split; [done|]. exists (e2 .& X86_ADDR_MASK). split; [|done].
  assert (R1 : reaches t root [index_at 4 v] pdpt).
  { apply (reaches_child t root [] root); [by apply reaches_root|cbn; lia|done|]. unfold child. fold e4. by rewrite is_table_bits, E40, H47. }
  assert (R2 : reaches t root [index_at 4 v; index_at 3 v] pd).
  { apply (reaches_child t root [index_at 4 v] pdpt); [done|cbn; lia|done|]. unfold child. fold e3. by rewrite is_table_bits, E30, E37. }
  apply (reaches_child t root [index_at 4 v; index_at 3 v] pd); [done|cbn; lia|done|]. unfold child. fold e2. by rewrite is_table_bits, E20, E27.
Qed.

Lemma x86_unmap t p t' root v r :
  pg_inv t p -> pg_root t root -> user_va v -> arch_paging_unmap root v t = (t', r) ->
  pg_inv t' p /\ (forall a, pg_table t' a -> pg_table t a) /\ others_kept t t' root /\ root_kept t t' root (eq v) /\
  arch_paging_kernel_root t' = arch_paging_kernel_root t /\
  ((r = 0 /\ pg_lookup t' root v = None /\ ~ pg_user t' root v) \/ (r < 0 /\ t' = t /\ pg_lookup t root v = None)).
Proof.
  intros [Hi Hk] Hr Hv E. cbn in Hr, E.
  destruct (unmap_page_spec _ _ _ _ _ _ Hi Hr E) as [(Hr0 & -> & Hn)|(-> & pt & Hpt & ->)].
  - split; [done|]. split; [done|]. split; [by intros r' Hr' _|]. split; [done|]. split; [done|]. right. split; [done|]. split; [done|].
    cbn [pg_lookup x86_view]. destruct (leaf t root (path_of v)) as [[[|n] e]|] eqn:El; [|done|done]. by destruct (Hn e).
  - pose proof (index_bounds 1 v) as B1. set (t4 := store pt (index_at 1 v) 0 t).
    assert (Hre : forall r q b, reaches t4 r q b <-> reaches t r q b) by (apply (keep_reaches _ _ Hi _ _ _ _ Hpt B1); by left).
    assert (Hleaf : forall r w, r ∈ live t -> leaf t4 r (path_of w) =
      if bool_decide (r = root /\ path_of w = path_of v) then None else leaf t r (path_of w)).
    { intros r' w Hr'. destruct (path_of_ok w) as [P1 P4].
      exact (last_leaf _ _ Hi _ _ _ _ Hpt B1 0 (or_introl eq_refl) r' (path_of w) eq_refl Hr' P1 P4). }
    assert (Hlk : forall r w x, r ∈ live t -> user_va w -> ~ (r = root /\ v = w) -> pg_lookup t r w = Some x -> pg_lookup t4 r w = Some x).
    { intros r' w x Hr' Hw Hne. cbn [pg_lookup x86_view]. rewrite Hleaf by done. rewrite bool_decide_false; [done|].
      intros [-> Hp]. apply Hne. split; [done|]. by apply user_path_inj. }
    assert (Hus : forall r w, r ∈ live t -> pg_user t4 r w -> pg_user t r w).
    { intros r' w Hr' (x & Hx & Hu). rewrite Hleaf in Hx by done. case_bool_decide; [done|]. by exists x. }
    split; [split; [|done]|split; [|split; [|split; [|split]]]].
    + apply (keep_inv _ _ Hi _ _ _ _ Hpt B1); try (cbn; lia); try done; by left.
    + intros a (r' & q & H). exists r', q. by apply Hre.
    + intros r' Hr' Hne. split; [done|]. split; [|intros; by apply Hus]. intros w x Hw _. apply Hlk; [done|done|]. by intros [-> _].
    + split; [done|]. split; [|intros; by apply Hus]. intros w x Hw Hne. apply Hlk; [done|done|]. by intros [_ ->].
    + done.
    + left. split; [done|]. cbn [pg_lookup pg_user x86_view]. rewrite Hleaf by done. rewrite bool_decide_true by done.
      split; [done|]. by intros (x & ? & _).
Qed.

(** ** Destroying a tree *)
Definition tree_path (level : nat) (q : list Z) : Prop := path_ok q /\ (length q < level)%nat.

Lemma tree_path_cons level i q : tree_path (S level) (i :: q) <-> 0 <= i < 512 /\ tree_path level q.
Proof. unfold tree_path. rewrite path_ok_cons. cbn. split; intros H; split; try split; try tauto; lia. Qed.

Lemma tree_path_cons_inv level i q : tree_path level (i :: q) -> 0 <= i < 512 /\ exists l, level = S l /\ tree_path l q.
Proof.
  intros [Hp Hl]. cbn in Hl. destruct level as [|l]; [lia|]. apply path_ok_cons in Hp as [Hi Hp]. split; [done|]. exists l.
  split; [done|]. split; [done|lia].
Qed.

Lemma walk_cons t a i q c : child (entries t a i) = Some c -> walk t a (i :: q) = walk t c q.
Proof. intros H. cbn. by rewrite H. Qed.

Definition outside (t : x86) (level : nat) (a b : Z) : Prop := forall q, tree_path level q -> walk t a q <> Some b.

Lemma destroy_level_spec t level a p :
  pmm_inv p -> (1 <= level)%nat ->
  (forall q q' b, tree_path level q -> tree_path level q' -> walk t a q = Some b -> walk t a q' = Some b -> q = q') ->
  (forall q b, tree_path level q -> walk t a q = Some b -> 0 < b /\ 1 <= pmm_frame_refcount b p) ->
  pmm_inv (destroy_level level a t p) /\
  forall b, 0 <= b -> outside t level a b -> pmm_frame_refcount b (destroy_level level a t p) = pmm_frame_refcount b p.
Proof.
  revert a p. induction level as [|level IH]; intros a p Hp Hl Hinj Href; [lia|].
  assert (Hroot : tree_path (S level) []) by (split; [apply path_ok_nil|cbn; lia]).
  destruct (Href [] a Hroot eq_refl) as [Ha Ha1].
  assert (Hself : forall i q, tree_path (S level) (i :: q) -> walk t a (i :: q) <> Some a).
  { intros i q Hq Hw. by specialize (Hinj [] (i :: q) a Hroot Hq eq_refl Hw). }
  set (s := match level with
            | O => p
            | S _ => for_range 0 512 (fun i p => let entry := entries t a i in
                       if is_table entry then destroy_level level (entry .& X86_ADDR_MASK) t p else p) p
            end).
  assert (Hs : pmm_inv s /\ forall b, 0 <= b -> (forall i q, tree_path (S level) (i :: q) -> walk t a (i :: q) <> Some b) ->
    pmm_frame_refcount b s = pmm_frame_refcount b p).
  { subst s. destruct level as [|l]; [done|]. set (f := fun (i : Z) (p : pmm) => _).
    assert (Hloop : pmm_inv (for_range 0 512 f p) /\ forall b, 0 <= b ->
      (forall i q, i < 512 -> tree_path (S (S l)) (i :: q) -> walk t a (i :: q) <> Some b) ->
      pmm_frame_refcount b (for_range 0 512 f p) = pmm_frame_refcount b p).
    { apply (for_range_ind (fun k s => pmm_inv s /\ forall b, 0 <= b ->
        (forall i q, i < k -> tree_path (S (S l)) (i :: q) -> walk t a (i :: q) <> Some b) ->
        pmm_frame_refcount b s = pmm_frame_refcount b p)); [lia|done|].
      intros k s Hk [Hsi Hsr]. unfold f. destruct (is_table (entries t a k)) eqn:Et.
      2:{ split; [done|]. intros b Hb Ho. apply Hsr; [done|]. intros i q Hik. apply Ho. lia. }
      set (c := entries t a k .& X86_ADDR_MASK). assert (Hc : child (entries t a k) = Some c) by (unfold child; by rewrite Et).
      assert (Hpath : forall q, tree_path (S l) q -> tree_path (S (S l)) (k :: q)) by (intros q Hq; by apply tree_path_cons).
      destruct (IH c s Hsi) as [IHi IHr]; [lia| | |].
      - intros q q' b Hq Hq' Hw Hw'. rewrite <- (walk_cons _ _ _ _ _ Hc) in Hw. rewrite <- (walk_cons _ _ _ _ _ Hc) in Hw'.
        specialize (Hinj _ _ _ (Hpath q Hq) (Hpath q' Hq') Hw Hw'). by simplify_eq.
      - intros q b Hq Hw. rewrite <- (walk_cons _ _ _ _ _ Hc) in Hw. destruct (Href _ _ (Hpath q Hq) Hw) as [H0 H1].
        split; [done|]. rewrite Hsr; [done|lia|]. intros i q' Hik Hq' Hw'. specialize (Hinj _ _ _ (Hpath q Hq) Hq' Hw Hw').
        simplify_eq. lia.
      - split; [done|]. intros b Hb Ho. rewrite IHr, Hsr; [done|done| |done|].
        + intros i q Hik. apply Ho. lia.
        + intros q Hq. rewrite <- (walk_cons _ _ _ _ _ Hc). apply Ho; [lia|]. by apply Hpath. }
    destruct Hloop as [A B]. split; [done|]. intros b Hb Ho. apply B; [done|]. intros i q _. apply Ho. }
  destruct Hs as [Hsi Hsr]. assert (Ha2 : 1 <= pmm_frame_refcount a s) by (rewrite Hsr; [done|lia|done]).
  assert (Hd : destroy_level (S level) a t p = pmm_free_frame a s).
  { cbn [destroy_level]. destruct (Z.eqb_spec a 0); [lia|]. by destruct level. }
  rewrite Hd. destruct (free_refs s a Hsi ltac:(lia) Ha2) as (A & _ & B). split; [done|]. intros b Hb Ho. rewrite B by done.
  destruct (Z.eqb_spec b a) as [->|]; [by destruct (Ho [] Hroot)|]. rewrite Hsr; [lia|done|]. intros i q Hq. by apply Ho.
Qed.

Lemma x86_destroy t p t' p' r :
  pg_inv t p -> pg_root t r -> r <> arch_paging_kernel_root t -> arch_paging_destroy_root r t p = (t', p') ->
  frames_kept t p t' p' /\ others_kept t t' r /\
  (forall a, 0 <= a -> ~ pg_table t a -> pmm_frame_refcount a p' = pmm_frame_refcount a p /\ ~ pg_table t' a).
Proof.
  intros [Hi Hk] Hr Hne E. cbn in Hr, Hne. change (destroy_root r t p = (t', p')) in E. unfold destroy_root in E.
  destruct (xi_ref _ _ Hi _ _ _ (reaches_root _ _ Hr)) as [Hr0 _].
  destruct (Z.eqb_spec r 0); [lia|]. destruct (Z.eqb_spec r (g_kernel_root t)); [done|]. cbn [negb andb] in E. simplify_eq.
  set (t' := set_live _ t). assert (Hin : forall x, x ∈ live t' <-> x <> r /\ x ∈ live t) by (intros x; cbn; by rewrite list_elem_of_filter).
  assert (Hre : forall x q a, reaches t' x q a <-> x <> r /\ reaches t x q a).
  { intros x q a. unfold reaches. rewrite Hin, (walk_agree t t' x q) by done. tauto. }
  assert (Htree : forall q b, tree_path 4 q -> walk t r q = Some b -> reaches t r q b).
  { intros q b [Hq Hl] Hw. split; [done|]. split; [done|]. split; [lia|done]. }
  destruct (destroy_level_spec t 4 r p (xi_pmm _ _ Hi) ltac:(lia)) as [Hp' Href].
  { intros q q' b Hq Hq' Hw Hw'. by destruct (xi_inj _ _ Hi _ _ _ _ _ (Htree q b Hq Hw) (Htree q' b Hq' Hw')). }
  { intros q b Hq Hw. apply (xi_ref _ _ Hi r q). by apply Htree. }
  assert (Hout : forall x q a, x <> r -> reaches t x q a -> outside t 4 r a).
  { intros x q a Hx Ha q' Hq' Hw. by destruct (xi_inj _ _ Hi _ _ _ _ _ (Htree q' a Hq' Hw) Ha). }
  assert (Hfr : forall a, 0 <= a -> ~ pg_table t a -> pmm_frame_refcount a (destroy_level 4 r t p) = pmm_frame_refcount a p /\ ~ pg_table t' a).
  { intros a Ha Hn. split.
    - apply Href; [done|]. intros q Hq Hw. apply Hn. exists r, q. by apply Htree.
    - intros (x & q & H). apply Hre in H as [_ H]. apply Hn. by exists x, q. }
  split; [split|split; [|done]].
  - cbn. split; [|by apply Hin].
    constructor; [done|..].
    + intros x x' q q' a. rewrite !Hre. intros [_ H] [_ H']. by apply (xi_inj _ _ Hi _ _ _ _ a).
    + intros x q a. rewrite Hre. intros [Hx H]. destruct (xi_ref _ _ Hi _ _ _ H) as [A B]. split; [done|].
      rewrite Href; [done|lia|]. by apply (Hout x q).
    + intros x q a i. rewrite Hre. intros [_ H]. by apply (xi_u64 _ _ Hi x q).
    + intros x i. rewrite Hin. intros [_ H]. by apply (xi_top _ _ Hi).
    + intros x q a i c. rewrite Hre. intros [_ H]. by apply (xi_table _ _ Hi x q).
    + intros x q a i. rewrite Hre. intros [_ H]. by apply (xi_huge _ _ Hi x q).
  - intros a Ha _. by apply Hfr.
  - intros x Hx Hxr. split; [by apply Hin|]. done.
Qed.

(** ** Cloning a tree *)
Abbreviation held p b := (1 <= pmm_frame_refcount b p).

(** A copied entry: the same, or the same flags with a table of its own. *)
Definition copy_of (last : bool) (e e' : Z) : Prop :=
  (is_u64 e -> is_u64 e') /\
  if last then e' = e
  else match child e with
       | None => e' = e
       | Some _ => is_Some (child e') /\ forall n, 0 <= n -> n < 12 \/ 52 <= n -> Z.testbit e' n = Z.testbit e n
       end.

Definition kept (t0 : x86) (p0 : pmm) (t : x86) (p : pmm) : Prop :=
  pmm_inv p /\ live t = live t0 /\ g_kernel_root t = g_kernel_root t0 /\
  forall b, 0 <= b -> held p0 b -> pmm_frame_refcount b p = pmm_frame_refcount b p0 /\ forall j, entries t b j = entries t0 b j.

(** The first [n] entries of the table [a] are copied to [d]. *)
Record cloned (level : nat) (t0 : x86) (p0 : pmm) (a : Z) (t : x86) (p : pmm) (d : Z) (n : Z) : Prop := {
  cl_kept : kept t0 p0 t p;
  cl_new : 0 < d /\ ~ held p0 d /\ held p d;
  cl_entry : forall i, 0 <= i < n -> copy_of (level =? 1)%nat (entries t0 a i) (entries t d i);
  cl_sub : forall i q b', i < n -> tree_path level (i :: q) -> walk t d (i :: q) = Some b' ->
    b' <> d /\ 0 < b' /\ ~ held p0 b' /\ held p b' /\
    exists b, walk t0 a (i :: q) = Some b /\
      forall j, 0 <= j < 512 -> copy_of (S (length (i :: q)) =? level)%nat (entries t0 b j) (entries t b' j);
  cl_inj : forall i q i' q' b, i < n -> i' < n -> tree_path level (i :: q) -> tree_path level (i' :: q') ->
    walk t d (i :: q) = Some b -> walk t d (i' :: q') = Some b -> i :: q = i' :: q'
}.

Lemma kept_held t0 p0 t p b : kept t0 p0 t p -> 0 <= b -> held p0 b -> held p b.
Proof. intros (_ & _ & _ & H) Hb Hu. by destruct (H b Hb Hu) as [-> _]. Qed.

Lemma kept_trans t0 p0 t p t' p' : kept t0 p0 t p -> kept t p t' p' -> kept t0 p0 t' p'.
Proof.
  intros K K'. pose proof K as (_ & A2 & A3 & A4). pose proof K' as (B1 & B2 & B3 & B4). split; [done|]. split; [congruence|]. split; [congruence|].
  intros b Hb Hu. destruct (A4 b Hb Hu) as [E1 E2]. destruct (B4 b Hb) as [F1 F2]; [by apply (kept_held t0 p0 t p)|].
  split; [congruence|]. intros j. by rewrite F2, E2.
Qed.

Lemma kept_store t0 p0 t p d i e : kept t0 p0 t p -> ~ held p0 d -> kept t0 p0 (store d i e t) p.
Proof.
  intros (A1 & A2 & A3 & A4) Hd. split; [done|]. split; [done|]. split; [done|]. intros b Hb Hu. destruct (A4 b Hb Hu) as [E1 E2].
  split; [done|]. intros j. rewrite entries_store. destruct (Z.eqb_spec b d) as [->|]; [done|apply E2].
Qed.

Lemma kept_refl t p : pmm_inv p -> kept t p t p.
Proof. intros Hp. by split. Qed.

(** Walks over frames in use are kept. *)
Lemma kept_walk t0 p0 t p a q :
  kept t0 p0 t p -> (forall q1 j q2 b, q = q1 ++ j :: q2 -> walk t0 a q1 = Some b -> 0 <= b /\ held p0 b) ->
  walk t a q = walk t0 a q.
Proof.
  intros (_ & _ & _ & H) Hw. apply walk_agree. intros q1 j q2 b E Hq. destruct (Hw q1 j q2 b E Hq) as [Hb Hu].
  by destruct (H b Hb Hu) as [_ ->].
Qed.

Lemma tree_prefix level q1 j q2 : tree_path level (q1 ++ j :: q2) -> tree_path level q1.
Proof. intros [Hp Hl]. apply path_ok_app in Hp as [Hp _]. rewrite length_app in Hl. split; [done|lia]. Qed.

Section CloneStep.
Context (level : nat) (t0 : x86) (p0 : pmm) (a : Z) (t : x86) (p : pmm) (d n : Z).
Context (Hcl : cloned level t0 p0 a t p d n) (Hn : 0 <= n < 512).

(** Walks through the entries copied so far, after the next step. *)
Lemma step_walk_old t' p' i q :
  kept t p t' p' -> forall e, i < n -> tree_path level (i :: q) -> walk (store d n e t') d (i :: q) = walk t d (i :: q).
Proof.
  intros K e Hi Hq. apply walk_agree. intros q1 j q2 b E Hw. rewrite entries_store.
  destruct q1 as [|i1 q1]; cbn in E; injection E as <- E.
  - cbn in Hw. injection Hw as <-. destruct (Z.eqb_spec i n); [lia|]. rewrite andb_false_r.
    destruct (cl_new _ _ _ _ _ _ _ _ Hcl) as (D0 & _ & D1). destruct K as (_ & _ & _ & K). by destruct (K d ltac:(lia) D1) as [_ ->].
  - destruct (cl_sub _ _ _ _ _ _ _ _ Hcl i q1 b Hi) as (Hne & Hb & _ & Hu & _); [|done|].
    { apply (tree_prefix level (i :: q1) j q2). by rewrite <- app_comm_cons, <- E. }
    destruct (Z.eqb_spec b d); [done|]. cbn [andb]. destruct K as (_ & _ & _ & K). by destruct (K b ltac:(lia) Hu) as [_ ->].
Qed.

(** Adding entry [n], with the tables below it in [t']. *)
Lemma step_cloned t' p' e :
  kept t p t' p' -> copy_of (level =? 1)%nat (entries t0 a n) e ->
  (forall q b', tree_path level (n :: q) -> walk (store d n e t') d (n :: q) = Some b' ->
     ~ held p b' /\ 0 < b' /\ held p' b' /\ exists b, walk t0 a (n :: q) = Some b /\
       forall j, 0 <= j < 512 -> copy_of (S (length (n :: q)) =? level)%nat (entries t0 b j) (entries t' b' j)) ->
  (forall q q' b, tree_path level (n :: q) -> tree_path level (n :: q') -> walk (store d n e t') d (n :: q) = Some b ->
     walk (store d n e t') d (n :: q') = Some b -> q = q') ->
  cloned level t0 p0 a (store d n e t') p' d (n + 1).
Proof.
  intros K Hcopy Hnew Hninj. destruct (cl_new _ _ _ _ _ _ _ _ Hcl) as (D0 & Dn & D1).
  assert (Hkk : kept t0 p0 t' p') by (by apply (kept_trans t0 p0 t p), K; apply Hcl).
  assert (Hoff : forall b j, b <> d -> entries (store d n e t') b j = entries t' b j).
  { intros b j Hne. rewrite entries_store. by destruct (Z.eqb_spec b d). }
  assert (Hsub : forall q b', tree_path level (n :: q) -> walk (store d n e t') d (n :: q) = Some b' -> b' <> d).
  { intros q b' Hq Hw ->. by destruct (Hnew q d Hq Hw) as [? _]. }
  constructor.
  - by apply kept_store.
  - split; [done|]. split; [done|]. by apply (kept_held t p t' p'); [|lia|].
  - intros i Hi. rewrite entries_store, Z.eqb_refl. cbn [andb]. destruct (Z.eqb_spec i n) as [->|]; [done|].
    destruct K as (_ & _ & _ & K). destruct (K d ltac:(lia) D1) as [_ ->]. apply (cl_entry _ _ _ _ _ _ _ _ Hcl). lia.
  - intros i q b' Hi Hq Hw. destruct (Z.eq_dec i n) as [->|].
    + destruct (Hnew q b' Hq Hw) as (X & Y & Z0 & b & W & V). pose proof (Hsub q b' Hq Hw) as Hne. split; [done|]. split; [done|].
      split; [intros Hu; apply X; apply (kept_held t0 p0 t p); [apply Hcl|lia|done]|]. split; [done|]. exists b. split; [done|].
      intros j Hj. rewrite Hoff by done. by apply V.
    + assert (i < n) as Hin by lia. rewrite (step_walk_old t' p') in Hw by done.
      destruct (cl_sub _ _ _ _ _ _ _ _ Hcl i q b' Hin Hq Hw) as (X & Y & Z0 & U & b & W & V). split; [done|]. split; [done|]. split; [done|].
      split; [apply (kept_held t p t' p'); [done|lia|done]|]. exists b. split; [done|]. intros j Hj. rewrite Hoff by done.
      destruct K as (_ & _ & _ & K). destruct (K b' ltac:(lia) U) as [_ ->]. by apply V.
  - intros i q i' q' b Hi Hi' Hq Hq' Hw Hw'.
    assert (Hold : forall i q, i < n -> tree_path level (i :: q) -> walk (store d n e t') d (i :: q) = Some b -> held p b /\ walk t d (i :: q) = Some b).
    { intros i0 q0 H1 H2 H3. rewrite (step_walk_old t' p') in H3 by done. by destruct (cl_sub _ _ _ _ _ _ _ _ Hcl i0 q0 b H1 H2 H3) as (_ & _ & _ & U & _). }
    destruct (Z.eq_dec i n) as [->|], (Z.eq_dec i' n) as [->|].
    + f_equal. by apply (Hninj q q' b).
    + destruct (Hold i' q') as [U _]; [lia|done|done|]. by destruct (Hnew q b Hq Hw) as [? _].
    + destruct (Hold i q) as [U _]; [lia|done|done|]. by destruct (Hnew q' b Hq' Hw') as [? _].
    + destruct (Hold i q) as [_ W1]; [lia|done|done|]. destruct (Hold i' q') as [_ W2]; [lia|done|done|].
      apply (cl_inj _ _ _ _ _ _ _ _ Hcl i q i' q' b); (done || lia).
Qed.
End CloneStep.

Lemma copy_same e : forall last : bool, last = true \/ child e = None -> copy_of last e e.
Proof. intros last H. split; [done|]. destruct last; [done|]. destruct H as [H|H]; [done|]. by rewrite H. Qed.

Definition clones (level : nat) (child : Z -> x86 -> pmm -> x86 * pmm * Z) : Prop :=
  forall a t p t' p' r, pmm_inv p -> (forall q b, tree_path level q -> walk t a q = Some b -> 0 < b /\ held p b) ->
    child a t p = (t', p', r) -> (r = 0 /\ kept t p t' p') \/ cloned level t p a t' p' r 512.

Lemma clone_entries_spec level f t0 p0 a d :
  (forall l, level = S l -> (1 <= l)%nat -> clones l f) -> (1 <= level)%nat ->
  (forall q b, tree_path level q -> walk t0 a q = Some b -> 0 < b /\ held p0 b) ->
  forall k n t p t' p' r, n + Z.of_nat k = 512 -> 0 <= n -> cloned level t0 p0 a t p d n ->
    clone_entries f level a d k n t p = (t', p', r) -> (r = 0 /\ kept t0 p0 t' p') \/ cloned level t0 p0 a t' p' r 512.
Proof.
  intros Hf Hlev Hsrc. destruct (Hsrc [] a) as [Ha0 Ha]; [split; [apply path_ok_nil|cbn; lia]|done|].
  induction k as [|k IH]; intros n t p t' p' r Hnk Hn0 Hcl E; cbn [clone_entries] in E.
  { injection E as <- <- <-. right. by replace 512 with n by lia. }
  pose proof (cl_kept _ _ _ _ _ _ _ _ Hcl) as K. pose proof K as (Kp & Kl & Kk & Ke).
  assert (Hent : entries t a n = entries t0 a n) by (by destruct (Ke a ltac:(lia) Ha) as [_ ->]).
  destruct (cl_new _ _ _ _ _ _ _ _ Hcl) as (D0 & Dn & D1). rewrite Hent in E. set (e := entries t0 a n) in *.
  unfold X86_PTE_PRESENT, X86_PTE_HUGE in E. rewrite !has_bit in E by lia.
  destruct (negb (Z.testbit e 0) || (level =? 1)%nat || Z.testbit e 7) eqn:Ec.
  - apply IH in E; [done|lia|lia|]. apply (step_cloned _ _ _ _ _ _ _ _ Hcl); [by apply kept_refl| | |].
    + apply copy_same. destruct (Nat.eqb_spec level 1); [by left|right]. unfold child. rewrite is_table_bits.
      destruct (Z.testbit e 0), (Z.testbit e 7); done.
    + intros q b' Hq Hw. exfalso. apply tree_path_cons_inv in Hq as (Hi & l & -> & Hl). destruct (Nat.eqb_spec (S l) 1); [destruct Hl; lia|].
      revert Hw. cbn [walk]. rewrite entries_store, !Z.eqb_refl. cbn [andb]. unfold child. rewrite is_table_bits.
      destruct (Z.testbit e 0), (Z.testbit e 7); done.
    + intros q q' b Hq _ Hw. exfalso. apply tree_path_cons_inv in Hq as (Hi & l & -> & Hl). destruct (Nat.eqb_spec (S l) 1); [destruct Hl; lia|].
      revert Hw. cbn [walk]. rewrite entries_store, !Z.eqb_refl. cbn [andb]. unfold child. rewrite is_table_bits.
      destruct (Z.testbit e 0), (Z.testbit e 7); done.
  - apply orb_false_iff in Ec as [Ec E7]. apply orb_false_iff in Ec as [E0 E1]. apply negb_false_iff in E0. apply Nat.eqb_neq in E1.
    destruct level as [|l]; [lia|]. set (c0 := e .& X86_ADDR_MASK) in *.
    assert (Hc0 : child e = Some c0) by (unfold child; by rewrite is_table_bits, E0, E7).
    assert (Hsrc' : forall q b, tree_path l q -> walk t0 c0 q = Some b -> 0 < b /\ held p0 b).
    { intros q b Hq Hw. apply (Hsrc (n :: q) b); [apply tree_path_cons; split; [lia|done]|]. by rewrite (walk_cons _ _ _ _ _ Hc0). }
    assert (Hw0 : forall q, tree_path l q -> walk t c0 q = walk t0 c0 q).
    { intros q Hq. apply (kept_walk t0 p0 t p); [done|]. intros q1 j q2 b Eq Hw. subst q.
      destruct (Hsrc' q1 b (tree_prefix _ _ _ _ Hq) Hw). split; [lia|done]. }
    destruct (f c0 t p) as [[t2 p2] c] eqn:Ef.
    destruct (Hf l eq_refl ltac:(lia) c0 t p t2 p2 c) as [ [Hcz K2] | Hsub]; [done| |done| |].
    { intros q b Hq. rewrite Hw0 by done. intros Hw. destruct (Hsrc' q b Hq Hw). split; [done|]. apply (kept_held t0 p0 t p); [done|lia|done]. }
    { subst c. change (0 =? 0) with true in E. cbv iota in E. injection E as <- <- <-. left. split; [done|].
      assert (Hd2 : held p2 d) by (apply (kept_held t p t2 p2); [done|lia|done]).
      destruct (kept_trans _ _ _ _ _ _ K K2) as (A & B & C & D). destruct (free_refs p2 d A ltac:(lia) Hd2) as (F1 & _ & F3).
      split; [done|]. split; [done|]. split; [done|]. intros b Hb Hu. destruct (D b Hb Hu) as [X Y]. split; [|done].
      rewrite F3 by done. destruct (Z.eqb_spec b d) as [->|]; [done|lia]. }
    destruct (cl_new _ _ _ _ _ _ _ _ Hsub) as (C0 & Cn & C1). destruct (Z.eqb_spec c 0) as [|Hcz]; [lia|].
    pose proof (cl_kept _ _ _ _ _ _ _ _ Hsub) as K2. pose proof K2 as (K2p & _ & _ & _).
    assert (Hcphys : phys_ok c) by (apply (used_phys p2); [done|lia|done]).
    destruct (redirected e c Hcphys ltac:(lia)) as [Rm Rb]. set (e' := (c .& X86_ADDR_MASK) .| _) in *.
    assert (He' : child e' = Some c) by (unfold child; by rewrite is_table_bits, !Rb, E0, E7, Rm by lia).
    assert (Hwn : forall q, tree_path l q -> walk (store d n e' t2) d (n :: q) = walk t2 c q).
    { intros q Hq. cbn [walk]. rewrite entries_store, !Z.eqb_refl. cbn [andb]. rewrite He'. cbn [mbind option_bind]. apply walk_agree.
      intros q1 j q2 b Eq Hw. rewrite entries_store. subst q. destruct (Z.eqb_spec b d) as [->|]; [|done]. exfalso.
      destruct q1 as [|i1 q1]; [cbn in Hw; injection Hw as <-; done|]. apply tree_prefix in Hq.
      destruct (tree_path_cons_inv _ _ _ Hq) as [Hi1 _].
      by destruct (cl_sub _ _ _ _ _ _ _ _ Hsub i1 q1 d ltac:(lia) Hq Hw) as (_ & _ & ? & _). }
    assert (Hsame : forall q b j, tree_path l q -> walk t0 c0 q = Some b -> entries t b j = entries t0 b j).
    { intros q b j Hq Hw. destruct (Hsrc' q b Hq Hw) as [Hb Hu]. by destruct (Ke b ltac:(lia) Hu) as [_ ->]. }
    assert (Hnil : tree_path l []) by (split; [apply path_ok_nil|cbn; lia]).
    apply IH in E; [done|lia|lia|]. apply (step_cloned _ _ _ _ _ _ _ _ Hcl); [done| | |].
    + fold e. split; [intros Hu; apply u64_lor; [apply phys_u64; apply masked_ok|by apply u64_land]|].
      destruct (Nat.eqb_spec (S l) 1); [lia|]. rewrite Hc0. split; [by rewrite He'|]. done.
    + intros q b' Hq. destruct (tree_path_cons_inv _ _ _ Hq) as (_ & l' & El & Hq'). injection El as <-. rewrite Hwn by done. intros Hw.
      destruct q as [|j q].
      * cbn in Hw. injection Hw as <-. split; [done|]. split; [done|]. split; [done|]. exists c0. split; [by rewrite (walk_cons _ _ _ _ _ Hc0)|].
        intros j Hj. rewrite <- (Hsame [] c0 j Hnil eq_refl). change (S (length [n]) =? S l)%nat with (1 =? l)%nat.
        rewrite (Nat.eqb_sym 1 l). apply (cl_entry _ _ _ _ _ _ _ _ Hsub). done.
      * destruct (tree_path_cons_inv _ _ _ Hq') as [Hj _].
        destruct (cl_sub _ _ _ _ _ _ _ _ Hsub j q b' ltac:(lia) Hq' Hw) as (_ & X & Y & U & b & W & V).
        rewrite Hw0 in W by done. split; [done|]. split; [done|]. split; [done|]. exists b. split; [by rewrite (walk_cons _ _ _ _ _ Hc0)|].
        intros j' Hj'. rewrite <- (Hsame _ b j' Hq' W). by apply V.
    + intros q q' b Hq Hq'. destruct (tree_path_cons_inv _ _ _ Hq) as (_ & l' & El & Hql). injection El as <-.
      destruct (tree_path_cons_inv _ _ _ Hq') as (_ & l' & El & Hql'). injection El as <-. rewrite !Hwn by done. intros Hw Hw'.
      assert (Hnc : forall j q, tree_path l (j :: q) -> walk t2 c (j :: q) <> Some c).
      { intros j q0 Hj Hwj. destruct (tree_path_cons_inv _ _ _ Hj) as [Hj0 _].
        by destruct (cl_sub _ _ _ _ _ _ _ _ Hsub j q0 c ltac:(lia) Hj Hwj) as [? _]. }
      destruct q as [|j q], q' as [|j' q']; [done| | |].
      * cbn in Hw. injection Hw as <-. by destruct (Hnc j' q' Hql').
      * cbn in Hw'. injection Hw' as <-. by destruct (Hnc j q Hql).
      * destruct (tree_path_cons_inv _ _ _ Hql) as [Hj _]. destruct (tree_path_cons_inv _ _ _ Hql') as [Hj' _].
        by apply (cl_inj _ _ _ _ _ _ _ _ Hsub j q j' q' b); try lia.
Qed.

Lemma clone_level_spec level : (1 <= level)%nat -> clones level (clone_level level).
Proof.
  induction level as [|level IH]; intros Hl; [lia|]. intros a t p t' p' r Hp Hsrc E. cbn [clone_level] in E.
  unfold allocate_table in E. destruct (pmm_alloc_frame p) as [p1 d] eqn:Ea.
  destruct (alloc_refs _ _ _ Hp Ea) as (Hp1 & _ & [[-> ->]|(Hd & Hal & Hz & Hr)]).
  { change (0 =? 0) with true in E. cbv iota beta in E. change (0 =? 0) with true in E. cbv iota in E. injection E as <- <- <-. left. split; [done|]. by apply kept_refl. }
  destruct (Z.eqb_spec d 0) as [|Hdz]; [lia|]. destruct (Z.eqb_spec d 0); [lia|].
  apply (clone_entries_spec (S level) (clone_level level) t p a d) in E; [done| |lia|done|lia|lia|].
  - intros l El Hl1. injection El as <-. by apply IH.
  - constructor.
    + split; [done|]. split; [done|]. split; [done|]. intros b Hb Hu. rewrite Hr by done. destruct (Z.eqb_spec b d) as [->|]; [lia|].
      split; [done|]. intros j. cbn. by rewrite upd_ne.
    + split; [done|]. split; [lia|]. rewrite Hr by lia. rewrite Z.eqb_refl. lia.
    + intros i Hi. lia.
    + intros i q b' Hi Hq. apply tree_path_cons_inv in Hq as [Hq _]. lia.
    + intros i q i' q' b Hi _ Hq. apply tree_path_cons_inv in Hq as [Hq _]. lia.
Qed.

Lemma copy_bits last e e' n : copy_of last e e' -> 0 <= n -> n < 12 \/ 52 <= n -> Z.testbit e' n = Z.testbit e n.
Proof.
  intros [_ H] Hn Hr. destruct last; [congruence|]. destruct (child e); [|congruence]. by apply H.
Qed.

Lemma copy_no_child last e e' : copy_of last e e' -> child e = None -> e' = e.
Proof. intros [_ H] Hc. destruct last; [done|]. by rewrite Hc in H. Qed.

(** A complete clone of a live tree. *)
Section NewRoot.
Context (t : x86) (p : pmm) (t1 : x86) (p1 : pmm) (r k : Z).
Context (Hi : x86_inv t p) (Hk : k ∈ live t) (Hcl : cloned 4 t p k t1 p1 r 512).
Let t' := set_live (r :: live t1) t1.

Lemma new_table q b' :
  tree_path 4 q -> walk t1 r q = Some b' ->
  0 < b' /\ ~ held p b' /\ held p1 b' /\ exists b, reaches t k q b /\
    forall j, 0 <= j < 512 -> copy_of (S (length q) =? 4)%nat (entries t b j) (entries t1 b' j).
Proof.
  intros Hq Hw. destruct q as [|i q].
  - cbn in Hw. injection Hw as <-. destruct (cl_new _ _ _ _ _ _ _ _ Hcl) as (A & B & C). split; [done|]. split; [done|]. split; [done|].
    exists k. split; [by apply reaches_root|]. intros j Hj. by apply (cl_entry _ _ _ _ _ _ _ _ Hcl).
  - destruct (tree_path_cons_inv _ _ _ Hq) as [Hi0 _].
    destruct (cl_sub _ _ _ _ _ _ _ _ Hcl i q b' ltac:(lia) Hq Hw) as (_ & X & Y & U & b & W & V).
    split; [done|]. split; [done|]. split; [done|]. exists b. split; [|done]. destruct Hq as [Hq Hl]. split; [done|]. split; [done|]. split; [lia|done].
Qed.

Lemma old_table x q a : reaches t x q a -> held p a /\ forall j, entries t1 a j = entries t a j.
Proof.
  intros H. destruct (xi_ref _ _ Hi _ _ _ H) as [Ha Hu]. split; [done|].
  destruct (cl_kept _ _ _ _ _ _ _ _ Hcl) as (_ & _ & _ & K). apply (K a); [lia|done].
Qed.

Lemma new_root : r ∉ live t.
Proof.
  intros H. destruct (cl_new _ _ _ _ _ _ _ _ Hcl) as (_ & B & _). apply B. by apply (old_table r []), reaches_root.
Qed.

Lemma new_reaches x q a :
  reaches t' x q a <-> reaches t x q a \/ (x = r /\ tree_path 4 q /\ walk t1 r q = Some a).
Proof.
  destruct (cl_kept _ _ _ _ _ _ _ _ Hcl) as (_ & Hl & _ & _).
  assert (Hw : walk t' x q = walk t1 x q) by (by apply walk_agree).
  assert (Hold : x ∈ live t -> path_ok q -> (length q <= 3)%nat -> walk t1 x q = walk t x q).
  { intros Hx Hq Hlen. apply walk_agree. intros q1 j q2 b E Hb.
    destruct (prefix_reaches t x q q1 j q2 b) as [Hre _]; [done|done|lia|done|done|]. by rewrite (proj2 (old_table _ _ _ Hre)). }
  unfold reaches, tree_path. rewrite Hw. cbn [live set_live t']. rewrite elem_of_cons, Hl. split.
  - intros ([->|Hx] & Hq & Hlen & E); [right; split; [done|]; split; [split; [done|lia]|done]|left].
    rewrite Hold in E by done. done.
  - intros [(Hx & Hq & Hlen & E)|(-> & (Hq & Hlen) & E)].
    + rewrite Hold by done. by split; [right|].
    + split; [by left|]. split; [done|]. split; [lia|done].
Qed.

Lemma new_inv : x86_inv t' p1.
Proof.
  destruct (cl_kept _ _ _ _ _ _ _ _ Hcl) as (Hp1 & Hl & _ & K). constructor; [done|..].
  - intros x x' q q' a. rewrite !new_reaches. intros [H|(-> & Hq & H)] [H'|(-> & Hq' & H')].
    + by apply (xi_inj _ _ Hi _ _ _ _ a).
    + destruct (new_table _ _ Hq' H') as (_ & B & _). by destruct (old_table _ _ _ H).
    + destruct (new_table _ _ Hq H) as (_ & B & _). by destruct (old_table _ _ _ H').
    + split; [done|]. destruct q as [|i q], q' as [|i' q']; [done| | |].
      * cbn in H. injection H as <-. destruct (tree_path_cons_inv _ _ _ Hq') as [Hi' _].
        by destruct (cl_sub _ _ _ _ _ _ _ _ Hcl i' q' r ltac:(lia) Hq' H') as [? _].
      * cbn in H'. injection H' as <-. destruct (tree_path_cons_inv _ _ _ Hq) as [Hi' _].
        by destruct (cl_sub _ _ _ _ _ _ _ _ Hcl i q r ltac:(lia) Hq H) as [? _].
      * destruct (tree_path_cons_inv _ _ _ Hq) as [Hi0 _]. destruct (tree_path_cons_inv _ _ _ Hq') as [Hi' _].
        apply (cl_inj _ _ _ _ _ _ _ _ Hcl i q i' q' a); (done || lia).
  - intros x q a. rewrite new_reaches. intros [H|(-> & Hq & H)].
    + destruct (xi_ref _ _ Hi _ _ _ H) as [A B]. split; [done|]. destruct (K a ltac:(lia) B) as [-> _]. done.
    + by destruct (new_table _ _ Hq H) as (A & _ & B & _).
  - intros x q a i. rewrite new_reaches. intros [H|(-> & Hq & H)] Hib.
    + change (entries t' a i) with (entries t1 a i). rewrite (proj2 (old_table _ _ _ H)). by apply (xi_u64 _ _ Hi x q).
    + destruct (new_table _ _ Hq H) as (_ & _ & _ & b & Hb & Hc). apply (Hc i Hib). by apply (xi_u64 _ _ Hi k q).
  - intros x i Hx Hib. change (entries t' x i) with (entries t1 x i). cbn [live set_live t'] in Hx. rewrite elem_of_cons, Hl in Hx.
    destruct Hx as [->|Hx].
    + destruct (new_table [] r) as (_ & _ & _ & b & Hb & Hc); [split; [apply path_ok_nil|cbn; lia]|done|].
      rewrite (copy_bits _ _ _ 7 (Hc i Hib)) by lia. destruct Hb as (_ & _ & _ & Hb). cbn in Hb. injection Hb as <-. by apply (xi_top _ _ Hi).
    + rewrite (proj2 (old_table _ _ _ (reaches_root _ _ Hx))). by apply (xi_top _ _ Hi).
  - intros x q a i c. rewrite new_reaches. change (entries t' a i) with (entries t1 a i). intros [H|(-> & Hq & H)] H2 Hib.
    + rewrite (proj2 (old_table _ _ _ H)). intros Hc. destruct (xi_table _ _ Hi _ _ _ _ _ H H2 Hib Hc) as (X & Y & W).
      split; [done|]. split; [done|]. intros j Hj. change (entries t' c j) with (entries t1 c j).
      rewrite (proj2 (old_table _ _ _ (reaches_child _ _ _ _ _ _ H H2 Hib Hc))). by apply W.
    + intros Hc. destruct (new_table _ _ Hq H) as (_ & _ & _ & b & Hb & Hcp). specialize (Hcp i Hib).
      destruct (child (entries t b i)) as [c0|] eqn:Ec0; [|rewrite (copy_no_child _ _ _ Hcp Ec0) in Hc; congruence].
      destruct (xi_table _ _ Hi _ _ _ _ _ Hb H2 Hib Ec0) as (X & Y & W). rewrite !(copy_bits _ _ _ _ Hcp) by lia.
      split; [done|]. split; [done|]. intros j Hj. change (entries t' c j) with (entries t1 c j).
      assert (Hq' : tree_path 4 (q ++ [i])).
      { destruct Hq as [Hq _]. split; [apply path_ok_app; split; [done|]; apply path_ok_cons; split; [done|apply path_ok_nil]|].
        rewrite length_app. cbn. lia. }
      destruct (new_table (q ++ [i]) c Hq') as (_ & _ & _ & b2 & Hb2 & Hcp2); [by rewrite (walk_snoc _ _ _ _ _ H)|].
      destruct Hb as (_ & _ & _ & Hb), Hb2 as (_ & _ & _ & Hb2). rewrite (walk_snoc _ _ _ _ _ Hb) in Hb2. assert (b2 = c0) as -> by congruence.
      rewrite !(copy_bits _ _ _ _ (Hcp2 j Hj)) by lia. by apply W.
  - intros x q a i. rewrite new_reaches. change (entries t' a i) with (entries t1 a i). intros [H|(-> & Hq & H)] H2 Hib.
    + rewrite (proj2 (old_table _ _ _ H)). by apply (xi_huge _ _ Hi x q).
    + destruct (new_table _ _ Hq H) as (_ & _ & _ & b & Hb & Hcp). specialize (Hcp i Hib). rewrite (copy_bits _ _ _ 7 Hcp) by lia. intros H7.
      rewrite (copy_no_child _ _ _ Hcp); [by apply (xi_huge _ _ Hi k q)|]. unfold child. by rewrite is_table_bits, H7, andb_false_r.
Qed.

(** The new root translates as the one it was cloned from. *)
Lemma new_leaf path q b b' :
  walk t1 r q = Some b' -> reaches t k q b -> path_ok path -> (length q + length path = 4)%nat -> leaf t' b' path = leaf t b path.
Proof.
  revert q b b'. induction path as [|i path IH]; intros q b b' Hw Hb Hp Hlen; [done|]. apply path_ok_cons in Hp as [Hib Hp].
  cbn [length] in Hlen. assert (Hq : tree_path 4 q) by (destruct Hb as (_ & Hq & _); split; [done|lia]).
  destruct (new_table q b' Hq Hw) as (_ & _ & _ & b0 & Hb0 & Hc). specialize (Hc i Hib).
  assert (b0 = b) as -> by (destruct Hb as (_ & _ & _ & ?), Hb0 as (_ & _ & _ & ?); congruence).
  cbn [leaf]. change (entries t' b' i) with (entries t1 b' i). unfold X86_PTE_PRESENT, X86_PTE_HUGE. rewrite !has_bit by lia.
  rewrite !(copy_bits _ _ _ _ Hc) by lia. destruct (Z.testbit (entries t b i) 0) eqn:E0; cbn [negb]; [|done].
  destruct (bool_decide (path = [])) eqn:En; cbn [orb].
  { apply bool_decide_eq_true in En as ->. cbn in Hlen. replace (S (length q) =? 4)%nat with true in Hc by (symmetry; apply Nat.eqb_eq; lia).
    by destruct Hc as [_ ->]. }
  destruct (Z.testbit (entries t b i) 7) eqn:E7.
  { rewrite (copy_no_child _ _ _ Hc); [done|]. unfold child. by rewrite is_table_bits, E7, andb_false_r. }
  apply bool_decide_eq_false in En. destruct path as [|j path]; [done|]. cbn [length] in Hlen.
  apply (IH (q ++ [i])); [| |done|rewrite length_app; cbn; lia].
  - rewrite (walk_snoc _ _ _ _ _ Hw). unfold child. by rewrite is_table_bits, !(copy_bits _ _ _ _ Hc), E0, E7 by lia.
  - apply (reaches_child t k q b); [done|lia|done|]. unfold child. by rewrite is_table_bits, E0, E7.
Qed.
End NewRoot.

(** ** The laws of the interface *)
Lemma create_root_spec t p t' p' r :
  x86_inv t p -> g_kernel_root t ∈ live t -> create_root t p = (t', p', r) ->
  (r = 0 /\ kept t p t' p') \/
  exists t1, cloned 4 t p (g_kernel_root t) t1 p' r 512 /\ t' = set_live (r :: live t1) t1.
Proof.
  intros Hi Hk E. unfold create_root in E. destruct (clone_level 4 (g_kernel_root t) t p) as [[t1 p1] c] eqn:Ec.
  destruct (clone_level_spec 4 ltac:(lia) (g_kernel_root t) t p t1 p1 c) as [[Hz K]|Hcl]; [apply Hi| |done| |].
  - intros q b [Hq Hl] Hw. apply (xi_ref _ _ Hi (g_kernel_root t) q). split; [done|]. split; [done|]. split; [lia|done].
  - subst c. change (0 =? 0) with true in E. cbv iota in E. injection E as <- <- <-. by left.
  - right. exists t1. destruct (cl_new _ _ _ _ _ _ _ _ Hcl) as (C0 & _). destruct (Z.eqb_spec c 0); [lia|].
    by injection E as <- <- <-.
Qed.

Lemma kept_grows t p t' p' : x86_inv t p -> kept t p t' p' -> grows t p t' p'.
Proof.
  intros Hi (Hp & Hl & Hk & K).
  destruct (inv_agree t p Hi t' p' Hl Hp) as (Hre & Hi' & Hleaf).
  { intros r q a H. destruct (xi_ref _ _ Hi _ _ _ H) as [Ha Hu]. destruct (K a ltac:(lia) Hu) as [E1 E2]. split; [done|]. lia. }
  assert (Hlp : forall r v, r ∈ live t -> leaf t' r (path_of v) = leaf t r (path_of v)).
  { intros r v Hr. destruct (path_of_ok v). apply Hleaf; [done|done|lia]. }
  constructor; try done.
  - intros r q a. by rewrite Hre.
  - intros r q a H. left. by apply Hre.
  - intros a Ha Hu. by destruct (K a Ha Hu).
  - intros r v Hr. by rewrite Hlp.
  - intros r v e Hr. by rewrite Hlp.
Qed.

(** An old root keeps its translations when a new one is made. *)
Lemma new_root_leaf t p t1 p1 r k x v :
  x86_inv t p -> cloned 4 t p k t1 p1 r 512 -> x ∈ live t ->
  leaf (set_live (r :: live t1) t1) x (path_of v) = leaf t x (path_of v).
Proof.
  intros Hi Hcl Hx. apply leaf_agree. intros q1 j q2 b E Hw. left. destruct (path_of_ok v) as [P1 P4].
  destruct (prefix_reaches t x (path_of v) q1 j q2 b) as [Hre _]; [done|done|lia|done|done|].
  exact (proj2 (old_table t p t1 p1 r k Hi Hcl _ _ _ Hre) j).
Qed.

Lemma x86_create t p t' p' r :
  pg_inv t p -> arch_paging_create_root t p = (t', p', r) ->
  frames_kept t p t' p' /\ others_kept t t' 0 /\
  (r = 0 \/ (pg_root t' r /\ ~ pg_root t r /\
     forall v, page_va v -> pg_user t' r v -> pg_user t (arch_paging_kernel_root t) v)).
Proof.
  intros [Hi Hk] E. change (create_root t p = (t', p', r)) in E.
  destruct (create_root_spec _ _ _ _ _ Hi Hk E) as [[-> K]|(t1 & Hcl & ->)].
  - destruct (grows_kept _ _ _ _ (kept_grows _ _ _ _ Hi K) Hk) as [A B]. split; [done|]. split; [intros x Hx _; by apply B|by left].
  - pose proof (cl_kept _ _ _ _ _ _ _ _ Hcl) as (_ & Hl & Hkr & K). pose proof (new_root _ _ _ _ _ _ Hi Hcl) as Hnr.
    split; [split|split].
    + split; [exact (new_inv _ _ _ _ _ _ Hi Hk Hcl)|]. cbn. rewrite Hkr, Hl, elem_of_cons. by right.
    + intros a Ha Hu Hn. split; [by destruct (K a Ha Hu)|]. intros (x & q & H). apply (new_reaches _ _ _ _ _ _ Hi Hcl) in H as [H|(-> & Hq & H)].
      * apply Hn. by exists x, q.
      * by destruct (new_table _ _ _ _ _ _ Hk Hcl _ _ Hq H) as (_ & ? & _).
    + intros x Hx _. cbn in Hx. split; [cbn; rewrite Hl, elem_of_cons; by right|].
      cbn [pg_lookup pg_user x86_view]. split; intros v; by rewrite (new_root_leaf t p t1 p' r _ x v Hi Hcl Hx).
    + right. split; [cbn; rewrite elem_of_cons; by left|]. split; [done|]. intros v _. cbn [pg_user x86_view].
      destruct (path_of_ok v) as [P1 P4]. change (arch_paging_kernel_root t) with (g_kernel_root t).
      by rewrite (new_leaf t p t1 p' r (g_kernel_root t) Hk Hcl (path_of v) [] (g_kernel_root t) r) by (done || by apply reaches_root).
Qed.

Lemma clone_entries_kernel f level a d k n t p t' p' r :
  (forall a t p t' p' r, f a t p = (t', p', r) -> g_kernel_root t' = g_kernel_root t) ->
  clone_entries f level a d k n t p = (t', p', r) -> g_kernel_root t' = g_kernel_root t.
Proof.
  intros Hf. revert n t p. induction k as [|k IH]; intros n t p E; cbn [clone_entries] in E; [by simplify_eq|].
  destruct (_ || _ || _); [by rewrite (IH _ _ _ E)|]. destruct (f _ t p) as [[t1 p1] c] eqn:Ef. apply Hf in Ef.
  destruct (c =? 0); [by simplify_eq|]. by rewrite (IH _ _ _ E).
Qed.

Lemma clone_level_kernel level a t p t' p' r : clone_level level a t p = (t', p', r) -> g_kernel_root t' = g_kernel_root t.
Proof.
  revert a t p t' p' r. induction level as [|level IH]; intros a t p t' p' r E; cbn [clone_level] in E; [by simplify_eq|].
  unfold allocate_table in E. destruct (pmm_alloc_frame p) as [p1 d]. destruct (d =? 0) eqn:Ed.
  - change (0 =? 0) with true in E. cbv iota in E. by injection E as <- _ _.
  - rewrite Ed in E. by rewrite (clone_entries_kernel _ _ _ _ _ _ _ _ _ _ _ IH E).
Qed.

#[export] Instance x86_paging : Paging x86.
Proof.
  split.
  - intros t p [Hi _]. apply Hi.
  - intros t p a [Hi _] (r & q & H) _. by apply (xi_ref _ _ Hi r q).
  - intros t p r [Hi _] Hr. by apply (xi_ref _ _ Hi r [] r), reaches_root.
  - intros t p p' [Hi Hk] Hp' _ Hr. split; [|done].
    destruct (inv_agree t p Hi t p' eq_refl Hp') as (_ & Hi' & _); [|done]. intros r q a H. split; [done|].
    destruct (xi_ref _ _ Hi _ _ _ H) as [A B]. rewrite Hr; [done|lia|]. by exists r, q.
  - apply x86_create.
  - apply x86_destroy.
  - apply x86_map.
  - apply x86_unmap.
  - intros t r v a fl Hl (x & Hx & Hu). cbn [pg_lookup x86_view] in Hl. rewrite Hx in Hl. destruct x as [[|n] e]; [|done].
    by injection Hl as _ <-.
  - intros t p t' p' r E. change (create_root t p = (t', p', r)) in E. unfold create_root in E. cbn.
    destruct (clone_level 4 (g_kernel_root t) t p) as [[t1 p1] c] eqn:Ec. apply clone_level_kernel in Ec.
    injection E as <- _ _. by destruct (c =? 0).
  - intros t p t' p' r E. change (destroy_root r t p = (t', p')) in E. unfold destroy_root in E. cbn. destruct (_ && _); by simplify_eq.
Qed.

(** ** The tables of boot.S

    One PML4, one PDPT and four page directories in the kernel image, which map
    the first 4 GiB one to one with 2 MiB pages. *)
Definition boot_entry (pml4 a i : Z) : Z :=
  let pdpt := pml4 + PAGE_SIZE in
  let pd := pdpt + PAGE_SIZE in
  if a =? pml4 then if i =? 0 then pdpt .| 0x03 else 0
  else if a =? pdpt then if (0 <=? i) && (i <? 4) then (pd + i * PAGE_SIZE) .| 0x03 else 0
  else if (pd <=? a) && (a <? pd + 4 * PAGE_SIZE) then (((a - pd) / PAGE_SIZE * 512 + i) * 0x200000) .| 0x83
  else 0.

Definition boot_tables (pml4 : Z) : x86 := X86 0 pml4 (boot_entry pml4) [pml4].

Section Boot.
Context (pml4 : Z) (p : pmm) (Hp : pmm_inv p) (Hpos : 0 < pml4) (Hal : page_aligned pml4).
Context (Hheld : forall k, 0 <= k < 6 -> held p (pml4 + k * PAGE_SIZE)).
Let t := (paging_init (boot_tables pml4)).1.
Let pdpt := pml4 + PAGE_SIZE.
Let pd k := pdpt + PAGE_SIZE + k * PAGE_SIZE.

Lemma boot_phys k : 0 <= k < 6 -> phys_ok (pml4 + k * PAGE_SIZE) /\ 0 <= pml4 + k * PAGE_SIZE.
Proof using Hp Hpos Hheld.
  intros Hk. assert (0 <= pml4 + k * PAGE_SIZE) by (unfold PAGE_SIZE; lia). split; [|done]. by apply (used_phys p), Hheld.
Qed.

Lemma boot_root : g_kernel_root t = pml4.
Proof using Hp Hpos Hheld.
  cbn. destruct (boot_phys 0) as [H1 H2]; [lia|]. rewrite Z.mul_0_l, Z.add_0_r in *. by apply mask_page.
Qed.

Lemma boot_pml4 i : entries t pml4 i = if i =? 0 then pdpt .| table_bits false else 0.
Proof. cbn. unfold boot_entry. rewrite Z.eqb_refl. done. Qed.

Lemma boot_pdpt i : entries t pdpt i = if (0 <=? i) && (i <? 4) then pd i .| table_bits false else 0.
Proof.
  cbn. unfold boot_entry. destruct (Z.eqb_spec pdpt pml4) as [E|_]; [unfold pdpt, PAGE_SIZE in E; lia|]. fold pdpt. by rewrite Z.eqb_refl.
Qed.

Lemma boot_pd k i : 0 <= k < 4 -> entries t (pd k) i = (((k * 512 + i) * 0x200000) .| 0x83).
Proof.
  intros Hk. cbn. unfold boot_entry. fold pdpt. unfold pd, PAGE_SIZE in *.
  destruct (Z.eqb_spec (pdpt + 4096 + k * 4096) pml4) as [E|_]; [unfold pdpt, PAGE_SIZE in E; lia|].
  destruct (Z.eqb_spec (pdpt + 4096 + k * 4096) pdpt) as [E|_]; [lia|].
  replace ((pdpt + 4096 <=? pdpt + 4096 + k * 4096) && (pdpt + 4096 + k * 4096 <? pdpt + 4096 + 4 * 4096)) with true by lia.
  replace (pdpt + 4096 + k * 4096 - (pdpt + 4096)) with (k * 4096) by lia. by rewrite Z.div_mul.
Qed.

Lemma boot_child_pml4 i : child (entries t pml4 i) = if i =? 0 then Some pdpt else None.
Proof using Hp Hpos Hheld.
  rewrite boot_pml4. destruct (i =? 0); [|done]. destruct (boot_phys 1) as [H1 H2]; [lia|]. rewrite Z.mul_1_l in *.
  by apply linked_child.
Qed.

Lemma boot_child_pdpt i : child (entries t pdpt i) = if (0 <=? i) && (i <? 4) then Some (pd i) else None.
Proof using Hp Hpos Hheld.
  rewrite boot_pdpt. destruct ((0 <=? i) && (i <? 4)) eqn:E; [|done]. destruct (boot_phys (2 + i)) as [H1 H2]; [lia|].
  replace (pml4 + (2 + i) * PAGE_SIZE) with (pd i) in * by (unfold pd, pdpt; lia). by apply linked_child.
Qed.

(** A 2 MiB page of the boot tables. *)
Lemma boot_page n :
  0 <= n < 2048 ->
  let e := (n * 0x200000) .| 0x83 in
  is_u64 e /\ Z.testbit e 0 = true /\ Z.testbit e 2 = false /\ Z.testbit e 7 = true /\ forall j, 12 <= j < 21 -> Z.testbit e j = false.
Proof.
  intros Hn e. change 0x200000 with (2 ^ 21) in e. subst e. rewrite <- Z.shiftl_mul_pow2 by lia.
  assert (Hl : forall j, 0 <= j < 21 -> Z.testbit ((n .<< 21) .| 0x83) j = Z.testbit 0x83 j).
  { intros j Hj. rewrite Z.lor_spec, Z.shiftl_spec, Z.testbit_neg_r by lia. done. }
  split; [apply u64_lor; [rewrite Z.shiftl_mul_pow2 by lia; unfold is_u64; lia|done]|]. rewrite !Hl by lia. split; [done|]. split; [done|]. split; [done|].
  intros j Hj. rewrite Hl by lia. by apply (high_bit 0x83 8); lia.
Qed.

Lemma boot_pd_child k i : 0 <= k < 4 -> 0 <= i < 512 -> child (entries t (pd k) i) = None.
Proof.
  intros Hk Hi. rewrite boot_pd by done. destruct (boot_page (k * 512 + i)) as (_ & _ & _ & H7 & _); [lia|].
  unfold child. by rewrite is_table_bits, H7, andb_false_r.
Qed.

Lemma boot_reaches r q a :
  reaches t r q a -> r = pml4 /\ ((q = [] /\ a = pml4) \/ (q = [0] /\ a = pdpt) \/ exists k, 0 <= k < 4 /\ q = [0; k] /\ a = pd k).
Proof using Hp Hpos Hheld.
  intros (Hr & Hq & Hl & Hw). change (r ∈ [pml4]) in Hr. apply list_elem_of_singleton in Hr as ->. split; [done|].
  destruct q as [|i q]; [cbn in Hw; injection Hw as <-; by left|]. apply path_ok_cons in Hq as [_ Hq].
  cbn [walk] in Hw. rewrite boot_child_pml4 in Hw. destruct (Z.eqb_spec i 0) as [->|]; [|done]. cbn [mbind option_bind] in Hw.
  destruct q as [|k q]; [cbn in Hw; injection Hw as <-; right; by left|]. apply path_ok_cons in Hq as [_ Hq].
  cbn [walk] in Hw. rewrite boot_child_pdpt in Hw. destruct ((0 <=? k) && (k <? 4)) eqn:Ek; [|done]. cbn [mbind option_bind] in Hw.
  destruct q as [|j q]; [cbn in Hw; injection Hw as <-; right; right; exists k; split; [lia|done]|]. apply path_ok_cons in Hq as [Hj _].
  cbn [walk] in Hw. by rewrite boot_pd_child in Hw by lia.
Qed.

Lemma boot_inv : x86_inv t p /\ g_kernel_root t ∈ live t.
Proof using Hp Hpos Hheld.
  assert (Hpd : forall k, 0 <= k < 4 -> pd k = pml4 + (2 + k) * PAGE_SIZE) by (intros k Hk; unfold pd, pdpt; lia).
  assert (Hbits : forall c n, phys_ok c -> 0 <= c -> 0 <= n < 12 \/ 52 <= n -> Z.testbit (c .| table_bits false) n = (n =? 0) || (n =? 1)).
  { intros c n Hc H0 Hn. rewrite tagged_bit, table_bits_bit by (done || lia). by rewrite andb_false_r, orb_false_r. }
  assert (Hu : forall c, phys_ok c -> 0 <= c -> is_u64 (c .| table_bits false)) by (intros c Hc H0; apply u64_lor; [by apply phys_u64|done]).
  destruct (boot_phys 1 ltac:(lia)) as [P1 P1']. rewrite Z.mul_1_l in P1, P1'. fold pdpt in P1, P1'.
  assert (Ppd : forall k, 0 <= k < 4 -> phys_ok (pd k) /\ 0 <= pd k) by (intros k Hk; rewrite Hpd by done; apply boot_phys; lia).
  split; [|change (live t) with [pml4]; rewrite boot_root; by apply list_elem_of_singleton].
  constructor; [done|..].
  - intros r r' q q' a H H'. apply boot_reaches in H as (-> & H), H' as (-> & H'). split; [done|].
    unfold pd, pdpt, PAGE_SIZE in *.
    destruct H as [[-> ->]|[[-> ->]|(k & Hk & -> & ->)]], H' as [[-> E]|[[-> E]|(k' & Hk' & -> & E)]]; try done; try lia.
    by replace k' with k by lia.
  - intros r q a H. apply boot_reaches in H as (_ & [[_ ->]|[[_ ->]|(k & Hk & _ & ->)]]).
    + split; [done|]. specialize (Hheld 0 ltac:(lia)). by rewrite Z.mul_0_l, Z.add_0_r in Hheld.
    + split; [unfold pdpt, PAGE_SIZE; lia|]. specialize (Hheld 1 ltac:(lia)). by rewrite Z.mul_1_l in Hheld.
    + split; [unfold pd, pdpt, PAGE_SIZE; lia|]. rewrite Hpd by done. apply Hheld. lia.
  - intros r q a i H Hi. apply boot_reaches in H as (_ & [[_ ->]|[[_ ->]|(k & Hk & _ & ->)]]).
    + rewrite boot_pml4. destruct (i =? 0); [by apply Hu|done].
    + rewrite boot_pdpt. destruct (_ && _) eqn:Ei; [|done]. apply Hu; apply Ppd; lia.
    + rewrite boot_pd by done. apply boot_page. lia.
  - intros r i Hr Hi. change (r ∈ [pml4]) in Hr. apply list_elem_of_singleton in Hr as ->. rewrite boot_pml4.
    destruct (i =? 0); [by rewrite Hbits by (done || lia)|done].
  - intros r q a i c H Hl Hi Hc. apply boot_reaches in H as (_ & [[_ ->]|[[_ ->]|(k & Hk & _ & ->)]]).
    + rewrite boot_child_pml4 in Hc. rewrite boot_pml4. destruct (i =? 0) eqn:Ei; [|done]. injection Hc as <-.
      rewrite !Hbits by (done || lia). split; [done|]. split; [done|]. intros j Hj _. rewrite boot_pdpt. destruct (_ && _) eqn:Ej; [|done].
      destruct (Ppd j ltac:(lia)). by rewrite Hbits by (done || lia).
    + rewrite boot_child_pdpt in Hc. rewrite boot_pdpt. destruct ((0 <=? i) && (i <? 4)) eqn:Ei; [|done]. injection Hc as <-.
      destruct (Ppd i ltac:(lia)). rewrite !Hbits by (done || lia). split; [done|]. split; [done|]. intros j Hj _. rewrite boot_pd by lia.
      destruct (boot_page (i * 512 + j)) as (_ & _ & -> & _); [lia|done].
    + by rewrite boot_pd_child in Hc by done.
  - intros r q a i H Hl Hi H7. apply boot_reaches in H as (_ & [[-> _]|[[-> _]|(k & Hk & _ & ->)]]); [done|done|].
    rewrite boot_pd by done. destruct (boot_page (k * 512 + i)) as (_ & H0 & _ & _ & Hz); [lia|]. by split.
Qed.

(** They open nothing to user mode. *)
Lemma boot_user v : ~ pg_user t (g_kernel_root t) v.
Proof using Hp Hpos Hheld.
  intros ([n x] & Hx & Hu). destruct boot_inv as [Hi Hk]. destruct (path_of_ok v) as [P1 P4].
  destruct (mmu_leaf_below t p _ [] _ (path_of v) Hi (reaches_root _ _ Hk) P1 P4) as [_ Hb].
  assert (Hx2 : Z.testbit x 2 = true).
  { cbn [snd] in Hu. rewrite allows_bits in Hu. destruct (Z.testbit x 1), (Z.testbit x 2), (Z.testbit x 4), (Z.testbit x 63); done. }
  destruct (Hb n x (index_at 4 v) _ eq_refl Hx Hx2) as [_ H2]. rewrite boot_root, boot_pml4 in H2.
  destruct (index_at 4 v =? 0); [|done]. destruct (boot_phys 1 ltac:(lia)) as [Q1 Q2]. rewrite Z.mul_1_l in Q1, Q2.
  by rewrite tagged_bit, table_bits_bit in H2 by (done || lia).
Qed.
End Boot.

(** A root that maps nothing yet. *)
Definition empty_tables (root : Z) : x86 := X86 0 root (fun _ _ => 0) [root].

Lemma empty_inv root p :
  pmm_inv p -> 0 < root -> held p root ->
  let t := (paging_init (empty_tables root)).1 in x86_inv t p /\ g_kernel_root t ∈ live t.
Proof.
  intros Hp Hpos Hheld t.
  assert (Hre : forall r q a, reaches t r q a -> r = root /\ q = [] /\ a = root).
  { intros r q a (Hr & Hq & Hl & Hw). change (r ∈ [root]) in Hr. apply list_elem_of_singleton in Hr as ->.
    destruct q as [|i q]; [cbn in Hw; by simplify_eq|done]. }
  split.
  - constructor; [done|..].
    + intros r r' q q' a H H'. apply Hre in H as (-> & -> & _), H' as (-> & -> & _). done.
    + intros r q a H. by apply Hre in H as (_ & _ & ->).
    + done.
    + done.
    + done.
    + done.
  - change (root .& X86_ADDR_MASK ∈ [root]). rewrite mask_page; [by apply list_elem_of_singleton| |lia].
    apply (used_phys p); [done|lia|done].
Qed.

(** ** The processor's view of the operations *)
Section Views.
Context (t : x86) (p : pmm) (Hi : x86_inv t p).

Lemma grows_translate t' p' r w : grows t p t' p' -> r ∈ live t -> translate t' r w = translate t r w.
Proof.
  intros G Hr. rewrite (translate_leaf t' p'), (translate_leaf t p); [by apply (gr_tr _ _ _ _ G)|done|done|apply G|].
  by rewrite (gr_live _ _ _ _ G).
Qed.

(** Writing the last entry of [v] changes what [v]'s page translates to. *)
Lemma last_translate root v pt e w r :
  reaches t root [index_at 4 v; index_at 3 v; index_at 2 v] pt -> x86_inv (store pt (index_at 1 v) e t) p ->
  user_va v -> 0 <= w < 2 ^ 48 -> r ∈ live t ->
  translate (store pt (index_at 1 v) e t) r w =
  if bool_decide (r = root /\ w - w mod PAGE_SIZE = v)
  then if Z.testbit e 0 then Some ((e .& X86_ADDR_MASK) + w mod PAGE_SIZE, allows e) else None
  else translate t r w.
Proof using Hi.
  intros Hpt Hi' [Hva Hv] Hw Hr. rewrite (translate_leaf _ p) by done. rewrite (translate_leaf t p) by done.
  destruct (path_of_ok w) as [P1 P4]. pose proof (index_bounds 1 v) as B1.
  pose proof (last_leaf _ _ Hi _ _ _ _ Hpt B1 e (or_introl eq_refl) r (path_of w) eq_refl Hr P1 P4) as H.
  change ([index_at 4 v; index_at 3 v; index_at 2 v] ++ [index_at 1 v]) with (path_of v) in H. rewrite H. clear H.
  rewrite (bool_decide_ext (r = root /\ path_of w = path_of v) (r = root /\ w - w mod PAGE_SIZE = v)).
  - case_bool_decide; [|done]. destruct (Z.testbit e 0); [|done]. cbn [fmap option_fmap option_map]. unfold located. cbn [fst snd].
    change (12 + 9 * Z.of_nat 0) with 12. change (2 ^ 12) with PAGE_SIZE. destruct (masked_ok e) as [[-> _] _]. by rewrite Z.sub_0_r.
  - split; intros [-> E]; (split; [done|]).
    + apply path_inj; [| |unfold PAGE_SIZE; dlia|lia|by rewrite path_of_page]; [|done]. unfold page_aligned, PAGE_SIZE. dlia.
    + by rewrite <- E, path_of_page.
Qed.
End Views.

Lemma page_mod v o : page_aligned v -> 0 <= o < PAGE_SIZE -> (v + o) mod PAGE_SIZE = o.
Proof. unfold page_aligned, PAGE_SIZE. intros. dlia. Qed.

(** What the view of the interface says, the processor does. *)
Lemma lookup_translate t p root v a f o :
  x86_inv t p -> root ∈ live t -> page_aligned v -> 0 <= o < PAGE_SIZE -> pg_lookup t root v = Some (a, f) ->
  translate t root (v + o) = Some (a + o, f).
Proof.
  intros Hi Hr Hv Ho Hl. cbn [pg_lookup x86_view] in Hl. rewrite (translate_leaf t p) by done.
  rewrite <- (path_of_page (v + o)), page_mod, Z.add_simpl_r by done.
  destruct (leaf t root (path_of v)) as [[[|n] e]|]; [|done|done]. injection Hl as <- <-.
  cbn [fmap option_fmap option_map]. unfold located. cbn [fst snd]. change (12 + 9 * Z.of_nat 0) with 12. change (2 ^ 12) with PAGE_SIZE.
  destruct (masked_ok e) as [[-> _] _]. by rewrite Z.sub_0_r, page_mod.
Qed.

(** C19: the page tables of x86-64, as the processor walks them. When
    [arch_paging_map] succeeds the page translates to the given frame with
    exactly the given rights, and otherwise, like every other address of every
    address space in either case (also in a 2 MiB page that had to be split),
    it translates as before; [arch_paging_unmap] removes that page and nothing
    else; a new root translates as the kernel's, and destroying a root leaves
    all others as they are. Every call keeps the tables a forest of frames in
    use. *)
Theorem x86_paging_correct (t : x86) (p : pmm) (root v : Z) :
  x86_inv t p -> g_kernel_root t ∈ live t -> root ∈ live t -> user_va v ->
  (forall a fl t' p' r, phys_ok a -> 0 <= a -> arch_paging_map root v a fl t p = (t', p', r) ->
     x86_inv t' p' /\ r <= 0 /\
     forall x w, x ∈ live t -> 0 <= w < 2 ^ 48 ->
       translate t' x w = if bool_decide (r = 0 /\ x = root /\ w - w mod PAGE_SIZE = v)
                          then Some (a + w mod PAGE_SIZE, visible fl) else translate t x w) /\
  (forall t' r, arch_paging_unmap root v t = (t', r) ->
     x86_inv t' p /\
     forall x w, x ∈ live t -> 0 <= w < 2 ^ 48 ->
       translate t' x w = if bool_decide (r = 0 /\ x = root /\ w - w mod PAGE_SIZE = v) then None else translate t x w) /\
  (forall t' p' r, arch_paging_create_root t p = (t', p', r) ->
     x86_inv t' p' /\ (forall x w, x ∈ live t -> translate t' x w = translate t x w) /\
     (r = 0 \/ ((r ∉ live t) /\ r ∈ live t' /\ forall w, translate t' r w = translate t (g_kernel_root t) w))) /\
  (forall t' p', root <> g_kernel_root t -> arch_paging_destroy_root root t p = (t', p') ->
     x86_inv t' p' /\ forall x w, x ∈ live t -> x <> root -> x ∈ live t' /\ translate t' x w = translate t x w).
Proof.
  intros Hi Hk Hr Hv. split; [|split; [|split]].
  - intros a fl t' p' r Hap Ha E.
    destruct (map_page_spec _ _ _ _ _ _ _ _ _ Hi Hr Hap Ha E) as (t3 & G & [(Hr0 & -> & _)|(-> & pt & Hpt & -> & Hi')]).
    + split; [apply G|]. split; [lia|]. intros x w Hx Hw. rewrite bool_decide_false by lia. by apply (grows_translate t p Hi t3 p').
    + split; [done|]. split; [lia|]. intros x w Hx Hw. destruct (page_entry a fl Hap Ha) as (F0 & Fm & Fa & _).
      rewrite (last_translate t3 p' (gr_inv _ _ _ _ G) root v pt) by (done || by rewrite (gr_live _ _ _ _ G)). rewrite F0, Fm, Fa.
      rewrite (bool_decide_ext (0 = 0 /\ x = root /\ w - w mod PAGE_SIZE = v) (x = root /\ w - w mod PAGE_SIZE = v)) by tauto.
      case_bool_decide; [done|]. by apply (grows_translate t p Hi t3 p').
  - intros t' r E. pose proof (x86_unmap t p t' root v r (conj Hi Hk) Hr Hv E) as ([Hi' _] & _). split; [done|].
    destruct (unmap_page_spec _ _ _ _ _ _ Hi Hr E) as [(Hr0 & -> & _)|(-> & pt & Hpt & ->)]; intros x w Hx Hw.
    + by rewrite bool_decide_false by lia.
    + rewrite (last_translate t p Hi root v pt) by done.
      rewrite (bool_decide_ext (0 = 0 /\ x = root /\ w - w mod PAGE_SIZE = v) (x = root /\ w - w mod PAGE_SIZE = v)) by tauto.
      by case_bool_decide.
  - intros t' p' r E. pose proof (x86_create t p t' p' r (conj Hi Hk) E) as ([[Hi' _] _] & _). split; [done|].
    destruct (create_root_spec _ _ _ _ _ Hi Hk E) as [[-> K]|(t1 & Hcl & ->)].
    + split; [|by left]. intros x w Hx. apply (grows_translate t p Hi t' p'); [by apply kept_grows|done].
    + pose proof (cl_kept _ _ _ _ _ _ _ _ Hcl) as (_ & Hl & _ & _).
      assert (Hin : forall x, x ∈ live t -> x ∈ live (set_live (r :: live t1) t1)).
      { intros x Hx. cbn. rewrite Hl, elem_of_cons. by right. }
      split.
      * intros x w Hx. rewrite (translate_leaf _ p' x w Hi') by (by apply Hin). rewrite (translate_leaf t p x w Hi Hx).
        by rewrite (new_root_leaf t p t1 p' r _ x w Hi Hcl Hx).
      * right. split; [by apply (new_root t p t1 p' r _ Hi Hcl)|]. assert (Hrl : r ∈ live (set_live (r :: live t1) t1)) by (cbn; apply elem_of_cons; by left).
        split; [done|]. intros w. rewrite (translate_leaf _ p' r w Hi' Hrl), (translate_leaf t p _ w Hi Hk).
        destruct (path_of_ok w) as [P1 P4].
        by rewrite (new_leaf t p t1 p' r (g_kernel_root t) Hk Hcl (path_of w) [] (g_kernel_root t) r) by (done || by apply reaches_root).
  - intros t' p' Hne E. pose proof (x86_destroy t p t' p' root (conj Hi Hk) Hr Hne E) as ([[Hi' _] _] & Ho & _). split; [done|].
    intros x w Hx Hxr. destruct (Ho x Hx Hxr) as [Hx' _]. split; [done|]. change (destroy_root root t p = (t', p')) in E.
    unfold destroy_root in E. rewrite (translate_leaf t' p' x w Hi' Hx'), (translate_leaf t p x w Hi Hx).
    destruct (negb (root =? 0) && negb (root =? g_kernel_root t)); by simplify_eq.
Qed.

(** A machine with 256 KiB of memory and the kernel image at 64 KiB. *)
Definition boot_frames : pmm := pmm_init [MemRegion 0 0x40000 1] 0x10000 0x16345.
Definition boot_x86 : x86 := (paging_init (boot_tables 0x10000)).1.

Lemma boot_frames_inv : pmm_inv boot_frames.
Proof. apply pmm_init_inv; [repeat constructor; simpl; lia|lia]. Qed.

Lemma boot_frames_held k : 0 <= k < 6 -> held boot_frames (0x10000 + k * PAGE_SIZE).
Proof.
  intros Hk. assert (k = 0 \/ k = 1 \/ k = 2 \/ k = 3 \/ k = 4 \/ k = 5) as [->|[->|[->|[->|[->| ->]]]]] by lia; vm_compute; discriminate.
Qed.

Lemma boot_x86_inv : x86_inv boot_x86 boot_frames /\ g_kernel_root boot_x86 ∈ live boot_x86.
Proof. apply boot_inv; [apply boot_frames_inv|lia|apply boot_frames_held]. Qed.

Definition boot_mapped : x86 * pmm * Z :=
  arch_paging_map 0x10000 0x400000 0x20000 (VMM_USER .| VMM_WRITABLE) boot_x86 boot_frames.

Lemma x86_paging_correct_witness :
  translate boot_mapped.1.1 0x10000 0x400123 = Some (0x20123, VMM_USER .| VMM_WRITABLE) /\
  translate boot_mapped.1.1 0x10000 0x401123 = Some (0x401123, VMM_EXECUTABLE .| VMM_WRITABLE).
Proof.
  destruct boot_x86_inv as [Hi Hk].
  destruct (x86_paging_correct boot_x86 boot_frames 0x10000 0x400000 Hi Hk) as (Hmap & _);
    [change (live boot_x86) with [0x10000]; left|split; [reflexivity|lia]|].
  assert (Hr : boot_mapped.2 = 0) by (vm_compute; reflexivity).
  assert (E : arch_paging_map 0x10000 0x400000 0x20000 (VMM_USER .| VMM_WRITABLE) boot_x86 boot_frames =
    (boot_mapped.1.1, boot_mapped.1.2, boot_mapped.2)).
  { fold boot_mapped. destruct boot_mapped as [[? ?] ?]. reflexivity. }
  destruct (Hmap 0x20000 _ _ _ _ ltac:(split; [reflexivity|lia]) ltac:(lia) E) as (_ & _ & Ht).
  rewrite Hr in Ht.
  split; (rewrite Ht by (lia || (change (live boot_x86) with [0x10000]; left))).
  - rewrite bool_decide_true by (split; [reflexivity|split; reflexivity]). reflexivity.
  - rewrite bool_decide_false by (intros (_ & _ & H); discriminate H). vm_compute. reflexivity.
Defined.
