(* ===== verification/Aspace.v ===== *)
(** * Address spaces: faults, copies and isolation

    On top of the invariant of Cow.v: what an address space looks like from
    outside ([view], the byte at a virtual address), that faults, clones and
    copies keep the views of all address spaces, that a copy to a user buffer
    changes exactly that buffer of exactly that address space, the
    reachability of the invariant, and what the processor translates when the
    page tables are those of X86.v. *)

From S2P Require Import Prelude Pmm Vmm Cow X86.
Open Scope tach_scope.

(** ** Views *)
Section View.
Context {T : Type} `{Paging T} {ck : Clean}.
Implicit Types (st : vmm T) (s : slot) (m : mapping) (extra : Z -> Z) (c : cref).

(** The byte an address space has at an address. *)
Definition view st (c : cref) (x : Z) : option Z :=
  if vmm_resolve st c x =? 0 then None else Some (ram st (vmm_resolve st c x)).

(** Every byte that was there is still there. *)
Definition views_kept st st' : Prop := forall c x b, view st c x = Some b -> view st' c x = Some b.

#[export] Instance views_kept_preorder : PreOrder views_kept.
Proof. split; unfold Reflexive, Transitive, views_kept; eauto. Qed.

Lemma offset_eq x : x .& (PAGE_SIZE - 1) = x mod PAGE_SIZE.
Proof. change (PAGE_SIZE - 1) with (2 ^ 12 - 1). by rewrite land_low_mask by lia. Qed.

Lemma offset_bounds x : 0 <= x mod PAGE_SIZE < PAGE_SIZE.
Proof. apply Z.mod_pos_bound. done. Qed.

(** A mapping with its place. *)
Definition maps st (c : cref) (m : mapping) : Prop :=
  exists i s, c = SlotCtx i /\ g_slots st !! i = Some s /\ m ∈ mappings s.

Lemma maps_used extra st i s m :
  vm_inv extra st -> g_slots st !! i = Some s -> m ∈ mappings s -> used s = true /\ mapping_ok (tables st) (root_of s) m.
Proof.
  intros Hi Hs Hm. destruct (used s) eqn:Hu.
  - split; [done|]. by apply (so_maps _ _ (vi_slot _ _ Hi i s Hs Hu)).
  - rewrite (vi_empty _ _ Hi i s Hs Hu) in Hm. by apply elem_of_nil in Hm.
Qed.

Lemma find_maps extra st c x :
  vm_inv extra st ->
  match find_mapping st (slot_for st c) x with
  | Some p => maps st c (mapping_at st p) /\ virt (mapping_at st p) = page_of x
  | None => forall m, maps st c m -> virt m <> page_of x
  end.
Proof.
  intros Hi. destruct (slot_for st c) as [i|] eqn:Es.
  - destruct (slot_for_inv _ _ _ _ Hi Es) as (-> & s & Hs & Hu & Hok).
    destruct (find_mapping st (Some i) x) as [[k j]|] eqn:Ef.
    + destruct (find_mapping_Some _ _ _ _ _ _ Hs Ef) as (-> & m & Hm & Hv & ->). split; [|done].
      exists i, s. split; [done|]. split; [done|]. by eapply list_elem_of_lookup_2.
    + intros m (i' & s' & [= <-] & Hs' & Hm). rewrite Hs in Hs'. injection Hs' as <-.
      by eapply find_mapping_None.
  - cbn. intros m (i & s & -> & Hs & Hm). destruct (maps_used _ _ _ _ _ Hi Hs Hm) as [Hu _].
    by rewrite (slot_for_slot _ _ _ (vi_len _ _ Hi) Hs Hu) in Es.
Qed.

Lemma maps_unique extra st c m m' : vm_inv extra st -> maps st c m -> maps st c m' -> virt m = virt m' -> m = m'.
Proof.
  intros Hi (i & s & -> & Hs & Hm) (i' & s' & [= <-] & Hs' & Hm') Hv. rewrite Hs in Hs'. injection Hs' as <-.
  destruct (maps_used _ _ _ _ _ Hi Hs Hm) as [Hu _]. pose proof (so_nodup _ _ (vi_slot _ _ Hi i s Hs Hu)) as Hnd.
  apply list_elem_of_lookup in Hm as [j Hj], Hm' as [j' Hj'].
  assert (j = j') as <-; [|congruence].
  apply (NoDup_lookup _ _ _ (virt m) Hnd); rewrite list_lookup_fmap; [by rewrite Hj|rewrite Hj'; simpl; congruence].
Qed.

(** The lookups of vmm.c in terms of the mapping of the page. *)
Lemma resolve_maps extra st c m x :
  vm_inv extra st -> maps st c m -> virt m = page_of x ->
  vmm_resolve st c x = phys m + x mod PAGE_SIZE /\ vmm_get_flags st c x = flags m /\ vmm_resolve st c x <> 0.
Proof.
  intros Hi Hm Hv. pose proof (find_maps extra st c x Hi) as Hf. unfold vmm_resolve, vmm_get_flags.
  destruct (find_mapping st (slot_for st c) x) as [p|]; [|by destruct (Hf m Hm)].
  destruct Hf as [Hm' Hv']. rewrite (maps_unique _ _ _ _ _ Hi Hm' Hm) by congruence. rewrite offset_eq.
  split; [done|]. split; [done|]. destruct Hm as (i & s & -> & Hs & Hin).
  destruct (maps_used _ _ _ _ _ Hi Hs Hin) as [_ Hmo]. pose proof (mo_phys _ _ _ Hmo). pose proof (offset_bounds x). lia.
Qed.

Lemma resolve_absent extra st c x :
  vm_inv extra st -> vmm_resolve st c x = 0 -> forall m, maps st c m -> virt m <> page_of x.
Proof.
  intros Hi E m Hm Hv. by destruct (resolve_maps _ _ _ _ _ Hi Hm Hv) as (_ & _ & Hn).
Qed.

Lemma resolve_present extra st c x :
  vm_inv extra st -> vmm_resolve st c x <> 0 -> exists m, maps st c m /\ virt m = page_of x.
Proof.
  intros Hi Hn. pose proof (find_maps extra st c x Hi) as Hf. unfold vmm_resolve in Hn.
  destruct (find_mapping st (slot_for st c) x) as [p|]; [|done]. by exists (mapping_at st p).
Qed.

Lemma view_spec extra st c x b :
  vm_inv extra st ->
  view st c x = Some b <-> exists m, maps st c m /\ virt m = page_of x /\ b = ram st (phys m + x mod PAGE_SIZE).
Proof.
  intros Hi. unfold view. destruct (Z.eqb_spec (vmm_resolve st c x) 0) as [E|E]; split.
  - done.
  - intros (m & Hm & Hv & _). by destruct (resolve_absent _ _ _ _ Hi E m Hm).
  - intros [= <-]. destruct (resolve_present _ _ _ _ Hi E) as (m & Hm & Hv). exists m. split; [done|]. split; [done|].
    by destruct (resolve_maps _ _ _ _ _ Hi Hm Hv) as (-> & _).
  - intros (m & Hm & Hv & ->). by destruct (resolve_maps _ _ _ _ _ Hi Hm Hv) as (-> & _).
Qed.

(** Views are kept when each mapping has a successor with the same page and
    the same bytes. *)
Lemma views_kept_maps extra extra' st st' :
  vm_inv extra st -> vm_inv extra' st' ->
  (forall c m, maps st c m -> exists m', maps st' c m' /\ virt m' = virt m /\
     forall k, 0 <= k < PAGE_SIZE -> ram st' (phys m' + k) = ram st (phys m + k)) ->
  views_kept st st'.
Proof.
  intros Hi Hi' Hk c x b Hv. apply (view_spec _ _ _ _ _ Hi) in Hv as (m & Hm & Hv & ->).
  destruct (Hk c m Hm) as (m' & Hm' & Hv' & Hb). apply (view_spec _ _ _ _ _ Hi'). exists m'.
  split; [done|]. split; [congruence|]. symmetry. apply Hb. apply offset_bounds.
Qed.

Lemma pages_same_views extra extra' st st' :
  vm_inv extra st -> vm_inv extra' st' -> pages_same st st' ->
  (forall c m, maps st c m -> exists m', maps st' c m' /\ virt m' = virt m /\ phys m' = phys m) ->
  views_kept st st'.
Proof.
  intros Hi Hi' Hp Hk. apply (views_kept_maps _ _ _ _ Hi Hi'). intros c m Hm. destruct (Hk c m Hm) as (m' & Hm' & Hv & Hph).
  exists m'. split; [done|]. split; [done|]. intros k Hr. rewrite Hph. destruct Hm as (i & s & -> & Hs & Hin). by eapply Hp.
Qed.

Lemma maps_same st st' c m : g_slots st' = g_slots st -> maps st c m -> maps st' c m.
Proof. intros Hg (i & s & -> & Hs & Hm). exists i, s. by rewrite Hg. Qed.

Lemma same_slots_views extra extra' st st' :
  vm_inv extra st -> vm_inv extra' st' -> pages_same st st' -> g_slots st' = g_slots st -> views_kept st st'.
Proof.
  intros Hi Hi' Hp Hg. apply (pages_same_views _ _ _ _ Hi Hi' Hp). intros c m Hm. exists m. split; [|done].
  by eapply maps_same.
Qed.

Lemma entered_views extra extra' st st' i s m s' :
  vm_inv extra st -> vm_inv extra' st' -> pages_same st st' -> g_slots st !! i = Some s ->
  entered s m None s' -> g_slots st' = <[i := s']> (g_slots st) -> views_kept st st'.
Proof.
  intros Hi Hi' Hp Hs He Hg. apply (pages_same_views _ _ _ _ Hi Hi' Hp). intros c x (i2 & s2 & -> & Hs2 & Hx).
  exists x. split; [|done]. destruct (decide (i2 = i)) as [->|Hne].
  - rewrite Hs in Hs2. injection Hs2 as <-. exists i, s'. split; [done|].
    split; [rewrite Hg; apply list_lookup_insert_eq; by eapply lookup_lt_Some|].
    inversion He. cbn. apply elem_of_app. by left.
  - exists i2, s2. split; [done|]. by rewrite Hg, list_lookup_insert_ne.
Qed.

Lemma privatised_views extra extra' st st' c page :
  vm_inv extra st -> vm_inv extra' st' -> pages_same st st' -> privatised st st' c page -> views_kept st st'.
Proof.
  intros Hi Hi' Hp (i & s & j & m & a & -> & Hs & Hu & Hm & Hv & Hc & Hg & Hb).
  apply (views_kept_maps _ _ _ _ Hi Hi'). intros c x (i2 & s2 & -> & Hs2 & Hx).
  pose proof (lookup_lt_Some _ _ _ Hs) as Hlt. pose proof (lookup_lt_Some _ _ _ Hm) as Hlj.
  destruct (decide (i2 = i)) as [->|Hne].
  - rewrite Hs in Hs2. injection Hs2 as <-. apply list_elem_of_lookup in Hx as [k Hk].
    assert (Hat : g_slots st' !! i = Some (map_mappings (fun _ => <[j := Mapping page a (private_flags (flags m)) true]> (mappings s)) s))
      by (rewrite Hg; by apply list_lookup_insert_eq).
    destruct (decide (k = j)) as [->|Hkj].
    + rewrite Hm in Hk. injection Hk as <-. exists (Mapping page a (private_flags (flags m)) true).
      split; [|done]. eexists i, _. split; [done|]. split; [exact Hat|]. cbn.
      apply list_elem_of_lookup. exists j. by apply list_lookup_insert_eq.
    + exists x. split; [|split; [done|]].
      * eexists i, _. split; [done|]. split; [exact Hat|]. cbn. apply list_elem_of_lookup. exists k.
        by rewrite list_lookup_insert_ne.
      * intros k0 Hk0. eapply Hp; [exact Hs| |done]. by eapply list_elem_of_lookup_2.
  - exists x. split; [|split; [done|]].
    + exists i2, s2. split; [done|]. by rewrite Hg, list_lookup_insert_ne.
    + intros k0 Hk0. by eapply Hp.
Qed.

(** ** Faults *)
Lemma break_cow_keeps extra st st' c page r :
  vm_inv extra st -> page_aligned page -> break_cow c page st = (st', r) ->
  vm_inv extra st' /\ views_kept st st' /\
  (r = 0 -> exists m, maps st' c m /\ virt m = page /\ writable m /\ has (flags m) VMM_COW = false).
Proof.
  intros Hi Hp E. destruct (break_cow_inv _ _ _ _ _ _ Hi Hp E) as (Hi' & Hps & _ & [[Hr Hg]|[-> Hpr]]).
  - split; [done|]. split; [by eapply same_slots_views|]. lia.
  - split; [done|]. split; [by eapply privatised_views|]. intros _.
    destruct Hpr as (i & s & j & m & a & -> & Hs & Hu & Hm & Hv & Hc & Hg & Hb).
    pose proof (private_flags_spec (flags m)) as (Hw & Hnc & _).
    exists (Mapping page a (private_flags (flags m)) true). split; [|done].
    eexists i, _. split; [done|]. split; [rewrite Hg; apply list_lookup_insert_eq; by eapply lookup_lt_Some|].
    cbn. apply list_elem_of_lookup. exists j. apply list_lookup_insert_eq. by eapply lookup_lt_Some.
Qed.

(** Mapping a zeroed frame at a page that has none. *)
Lemma map_fresh_keeps extra st st' i v fl r a :
  vm_inv extra st -> 0 <= v < 2 ^ 47 -> vmm_resolve st (SlotCtx i) v = 0 ->
  vmm_map_allocated (Some (SlotCtx i)) v fl st = (st', r, a) ->
  vm_inv extra st' /\ views_kept st st' /\ running st' = running st /\
  ((r < 0 /\ g_slots st' = g_slots st) \/
   (r = 0 /\ user_va v /\ maps st' (SlotCtx i) (Mapping v a (fl .| VMM_PRESENT) true) /\
    forall k, 0 <= k < PAGE_SIZE -> view st' (SlotCtx i) (v + k) = Some 0)).
Proof.
  intros Hi Hv Hr0 E.
  destruct (vmm_map_allocated_inv _ _ _ _ _ _ _ _ Hi Hv (slot_flags _ _) E) as (Hrun & _ & Hps &
    [(Hr & Hi' & Hg)|[(_ & Hk & _)|(i' & s & s' & o & -> & [= <-] & Hs & Hu & Hva & Hent & Hg & Hram & Hown & Hi')]]).
  - split; [done|]. split; [by eapply same_slots_views|]. split; [done|]. by left.
  - done.
  - assert (o = None) as ->.
    { inversion Hent as [|j old Hj Hvo]; [done|]. exfalso. apply (resolve_absent _ _ _ _ Hi Hr0 old).
      - exists i, s. split; [done|]. split; [done|]. by eapply list_elem_of_lookup_2.
      - rewrite page_of_aligned by apply Hva. done. }
    split; [done|]. split; [by eapply entered_views|]. split; [done|]. right. split; [done|]. split; [done|].
    assert (Hmaps : maps st' (SlotCtx i) (Mapping v a (fl .| VMM_PRESENT) true)).
    { exists i, s'. split; [done|]. split; [rewrite Hg; apply list_lookup_insert_eq; by eapply lookup_lt_Some|].
      inversion Hent. cbn. apply elem_of_app. right. by apply list_elem_of_singleton. }
    split; [done|]. intros k Hk. apply (view_spec _ _ _ _ _ Hi'). eexists. split; [exact Hmaps|].
    destruct Hva as [Hal _]. unfold page_aligned in Hal.
    assert (Hmod : (v + k) mod PAGE_SIZE = k) by (unfold PAGE_SIZE in *; dlia).
    split; [cbn; rewrite page_of_eq, Hmod; lia|]. rewrite Hram, Hmod. unfold mem_fill. cbn [phys].
    by replace ((a <=? a + k) && (a + k <? a + PAGE_SIZE)) with true by lia.
Qed.

Lemma vmm_handle_fault_keeps extra st st' address w r :
  vm_inv extra st -> 0 <= address -> vmm_handle_fault address w st = (st', r) ->
  vm_inv extra st' /\ views_kept st st'.
Proof.
  intros Hi Ha E. unfold vmm_handle_fault in E. pose proof (vi_running _ _ Hi) as Hup.
  destruct (running st) as [u|] eqn:Eu; [|by simplify_eq].
  destruct Hup as (Hsb & Hbrk & Hnk). destruct (user_mode u) eqn:Em; [|by simplify_eq].
  destruct (mm u) as [c|] eqn:Ec; [|by simplify_eq]. specialize (Hnk eq_refl).
  destruct c as [|i]; [congruence|]. pose proof (page_of_is_aligned address) as Hpa.
  pose proof (page_of_bounds address) as Hpb.
  assert (Hp0 : 0 <= page_of address) by (unfold page_aligned, PAGE_SIZE in *; dlia).
  destruct (Z.eqb_spec (vmm_resolve st (SlotCtx i) (page_of address)) 0) as [Hr0|Hr0]; cbn [negb] in E.
  - destruct (_ && (u64 _ =? _)) eqn:Es.
    + destruct (vmm_map_allocated _ _ _ st) as [[st1 r1] a] eqn:Emp.
      destruct (map_fresh_keeps extra st st1 i (page_of address) _ r1 a Hi ltac:(lia) Hr0 Emp) as (Hi1 & Hv1 & Hrun & _).
      destruct (r1 <? 0); simplify_eq; [done|]. split; [|done]. apply inv_running; [done|].
      split; [cbn; lia|]. split; [done|]. cbn. rewrite Ec. congruence.
    + destruct (_ && (address <? _)) eqn:Eb; [|by simplify_eq].
      destruct (vmm_map_allocated _ _ _ st) as [[st1 r1] a] eqn:Emp.
      destruct (map_fresh_keeps extra st st1 i (page_of address) _ r1 a Hi ltac:(lia) Hr0 Emp) as (Hi1 & Hv1 & Hrun & _).
      by simplify_eq/=.
  - destruct (w && has _ VMM_COW).
    + by destruct (break_cow_keeps _ _ _ _ _ _ Hi Hpa E) as (A & B & _).
    + destruct (w && _); by simplify_eq.
Qed.

(** What [copy_user_range] finds at one page: an error, or the physical
    address of a user page, private and writable when it is to be written. *)
Lemma user_page_spec extra st st' c x w res :
  vm_inv extra st -> 0 <= x -> user_page c x w st = (st', res) ->
  vm_inv extra st' /\ views_kept st st' /\
  match res with
  | inl r => r < 0
  | inr physical => exists m, maps st' c m /\ virt m = page_of x /\ physical = phys m + x mod PAGE_SIZE /\
      has (flags m) VMM_USER = true /\ (w = true -> writable m)
  end.
Proof.
  intros Hi Hx E. unfold user_page in E. destruct (vmm_handle_fault x w st) as [st1 r1] eqn:Ef. cbn [fst] in E.
  destruct (vmm_handle_fault_keeps _ _ _ _ _ _ Hi Hx Ef) as [Hi1 Hv1].
  assert (Hstep : exists st2 r2, (if w && has (vmm_get_flags st1 c x) VMM_COW then break_cow c (page_of x) st1 else (st1, 0)) = (st2, r2) /\
            vm_inv extra st2 /\ views_kept st1 st2).
  { destruct (w && has _ VMM_COW); [|by exists st1, 0].
    destruct (break_cow c (page_of x) st1) as [st2 r2] eqn:Eb.
    destruct (break_cow_keeps _ _ _ _ _ _ Hi1 (page_of_is_aligned x) Eb) as (A & B & _). by exists st2, r2. }
  destruct Hstep as (st2 & r2 & E2 & Hi2 & Hv2). rewrite E2 in E.
  destruct (Z.ltb_spec r2 0); [simplify_eq; split; [done|]; split; [by etrans|done]|].
  destruct (_ || _) eqn:Efl; [simplify_eq; split; [done|]; split; [by etrans|done]|].
  destruct (Z.eqb_spec (vmm_resolve st2 c x) 0) as [|Hn]; simplify_eq; (split; [done|]; split; [by etrans|]); [done|].
  destruct (resolve_present _ _ _ _ Hi2 Hn) as (m & Hm & Hv). exists m.
  destruct (resolve_maps _ _ _ _ _ Hi2 Hm Hv) as (Hr & Hfl & _). rewrite Hfl in Efl.
  apply orb_false_iff in Efl as [Eu Ew]. apply negb_false_iff in Eu.
  split; [done|]. split; [done|]. split; [done|]. split; [done|]. intros ->. cbn in Ew. by apply negb_false_iff in Ew.
Qed.

(** *** User pages stay user pages *)
Definition user_at st c (v : Z) : Prop := exists m, maps st c m /\ virt m = v /\ has (flags m) VMM_USER = true.
Definition users_kept st st' : Prop := forall c v, user_at st c v -> user_at st' c v.

#[export] Instance users_kept_preorder : PreOrder users_kept.
Proof. split; unfold Reflexive, Transitive, users_kept; eauto. Qed.

Lemma same_slots_users st st' : g_slots st' = g_slots st -> users_kept st st'.
Proof. intros Hg c v (m & Hm & Hx). exists m. split; [by eapply maps_same|done]. Qed.

Lemma entered_users st st' i s m s' :
  g_slots st !! i = Some s -> entered s m None s' -> g_slots st' = <[i := s']> (g_slots st) -> users_kept st st'.
Proof.
  intros Hs He Hg c v (x & (i2 & s2 & -> & Hs2 & Hx) & Hvx). exists x. split; [|done]. destruct (decide (i2 = i)) as [->|Hne].
  - rewrite Hs in Hs2. injection Hs2 as <-. exists i, s'. split; [done|].
    split; [rewrite Hg; apply list_lookup_insert_eq; by eapply lookup_lt_Some|]. inversion He. cbn. apply elem_of_app. by left.
  - exists i2, s2. split; [done|]. by rewrite Hg, list_lookup_insert_ne.
Qed.

Lemma privatised_users st st' c page : privatised st st' c page -> users_kept st st'.
Proof.
  intros (i & s & j & m & a & -> & Hs & Hu & Hm & Hv & Hc & Hg & Hb). intros c v (x & (i2 & s2 & -> & Hs2 & Hx) & Hvx & Hux).
  destruct (decide (i2 = i)) as [->|Hne].
  - rewrite Hs in Hs2. injection Hs2 as <-. apply list_elem_of_lookup in Hx as [k Hk].
    assert (Hat : g_slots st' !! i = Some (map_mappings (fun _ => <[j := Mapping page a (private_flags (flags m)) true]> (mappings s)) s))
      by (rewrite Hg; apply list_lookup_insert_eq; by eapply lookup_lt_Some).
    destruct (decide (k = j)) as [->|Hkj].
    + rewrite Hm in Hk. injection Hk as <-. exists (Mapping page a (private_flags (flags m)) true). split; [|split; [cbn; congruence|]].
      * eexists i, _. split; [done|]. split; [exact Hat|]. cbn. apply list_elem_of_lookup. exists j. apply list_lookup_insert_eq. by eapply lookup_lt_Some.
      * cbn [flags]. by destruct (private_flags_spec (flags m)) as (_ & _ & -> & _).
    + exists x. split; [|done]. eexists i, _. split; [done|]. split; [exact Hat|]. cbn. apply list_elem_of_lookup. exists k. by rewrite list_lookup_insert_ne.
  - exists x. split; [|done]. exists i2, s2. split; [done|]. by rewrite Hg, list_lookup_insert_ne.
Qed.

Lemma break_cow_users extra st st' c page r :
  vm_inv extra st -> page_aligned page -> break_cow c page st = (st', r) -> users_kept st st'.
Proof.
  intros Hi Hp E. destruct (break_cow_inv _ _ _ _ _ _ Hi Hp E) as (_ & _ & _ & [[_ Hg]|[_ Hpr]]).
  - by apply same_slots_users.
  - by eapply privatised_users.
Qed.

Lemma map_fresh_users extra st st' i v fl r a :
  vm_inv extra st -> 0 <= v < 2 ^ 47 -> vmm_resolve st (SlotCtx i) v = 0 ->
  vmm_map_allocated (Some (SlotCtx i)) v fl st = (st', r, a) -> users_kept st st'.
Proof.
  intros Hi Hv Hr0 E.
  destruct (vmm_map_allocated_inv _ _ _ _ _ _ _ _ Hi Hv (slot_flags _ _) E) as (_ & _ & _ &
    [(_ & _ & Hg)|[(_ & Hk & _)|(i' & s & s' & o & -> & [= <-] & Hs & Hu & Hva & Hent & Hg & _)]]); [by apply same_slots_users|done|].
  assert (o = None) as ->; [|by eapply entered_users].
  inversion Hent as [|j old Hj Hvo]; [done|]. exfalso. apply (resolve_absent _ _ _ _ Hi Hr0 old).
  - exists i, s. split; [done|]. split; [done|]. by eapply list_elem_of_lookup_2.
  - rewrite page_of_aligned by apply Hva. done.
Qed.

Lemma vmm_handle_fault_users extra st st' address w r :
  vm_inv extra st -> 0 <= address -> vmm_handle_fault address w st = (st', r) -> users_kept st st'.
Proof.
  intros Hi Ha E. unfold vmm_handle_fault in E. pose proof (vi_running _ _ Hi) as Hup.
  destruct (running st) as [u|] eqn:Eu; [|by simplify_eq].
  destruct Hup as (Hsb & Hbrk & Hnk). destruct (user_mode u) eqn:Em; [|by simplify_eq].
  destruct (mm u) as [c|] eqn:Ec; [|by simplify_eq]. specialize (Hnk eq_refl).
  destruct c as [|i]; [congruence|]. pose proof (page_of_is_aligned address) as Hpa. pose proof (page_of_bounds address) as Hpb.
  assert (Hp0 : 0 <= page_of address) by (unfold page_aligned, PAGE_SIZE in *; dlia).
  destruct (Z.eqb_spec (vmm_resolve st (SlotCtx i) (page_of address)) 0) as [Hr0|Hr0]; cbn [negb] in E.
  - destruct (_ && (u64 _ =? _)) eqn:Es; [|destruct (_ && (address <? _)) eqn:Eb; [|by simplify_eq]];
      destruct (vmm_map_allocated _ _ _ st) as [[st1 r1] a] eqn:Emp;
      pose proof (map_fresh_users extra st st1 i (page_of address) _ r1 a Hi ltac:(lia) Hr0 Emp) as Hk1.
    + destruct (r1 <? 0); simplify_eq; [done|]. etrans; [exact Hk1|]. by apply same_slots_users.
    + by simplify_eq/=.
  - destruct (w && has _ VMM_COW); [by eapply break_cow_users|]. destruct (w && _); by simplify_eq.
Qed.

Lemma user_page_users extra st st' c x w res :
  vm_inv extra st -> 0 <= x -> user_page c x w st = (st', res) ->
  users_kept st st' /\ (forall p, res = inr p -> user_at st' c (page_of x)) /\ (w = false -> user_at st c (page_of x) -> exists p, res = inr p).
Proof.
  intros Hi Hx E. pose proof (user_page_spec _ _ _ _ _ _ _ Hi Hx E) as (_ & _ & Hres). unfold user_page in E.
  destruct (vmm_handle_fault x w st) as [st1 r1] eqn:Ef. cbn [fst] in E.
  destruct (vmm_handle_fault_keeps _ _ _ _ _ _ Hi Hx Ef) as [Hi1 _]. pose proof (vmm_handle_fault_users _ _ _ _ _ _ Hi Hx Ef) as Hk1.
  assert (Hstep : exists st2 r2, (if w && has (vmm_get_flags st1 c x) VMM_COW then break_cow c (page_of x) st1 else (st1, 0)) = (st2, r2) /\
            users_kept st1 st2 /\ (w = false -> st2 = st1 /\ r2 = 0)).
  { destruct w; [|by exists st1, 0]. cbn [andb]. destruct (has _ VMM_COW); [|by exists st1, 0].
    destruct (break_cow c (page_of x) st1) as [st2 r2] eqn:Eb. exists st2, r2. split; [done|]. split; [|done].
    by apply (break_cow_users _ _ _ _ _ _ Hi1 (page_of_is_aligned x) Eb). }
  destruct Hstep as (st2 & r2 & E2 & Hk2 & Hw). rewrite E2 in E.
  assert (Hst : st' = st2) by (revert E; split_ifs; congruence). subst st'.
  split; [by etrans|]. split.
  - intros p ->. destruct Hres as (m & Hm & Hv & _ & Hu & _). by exists m.
  - intros -> Hu. destruct (Hw eq_refl) as [-> ->]. apply Hk1 in Hu as (m & Hm & Hv & Hus).
    destruct (resolve_maps _ _ _ _ _ Hi1 Hm Hv) as (_ & Hfl & Hn). rewrite Hfl, Hus in E. cbn [negb orb andb] in E.
    change (0 <? 0) with false in E. cbv iota in E. rewrite (proj2 (Z.eqb_neq _ _) Hn) in E. simplify_eq. eauto.
Qed.

(** ** Copies *)

(** Writing bytes into a private page changes them in that address space and
    nowhere else. *)
Lemma store_sole_views extra st c m x bs :
  vm_inv extra st -> maps st c m -> virt m = page_of x -> owners st (phys m) = 1 ->
  Z.of_nat (length bs) <= PAGE_SIZE - x mod PAGE_SIZE ->
  let st' := set_ram (mem_store (ram st) (phys m + x mod PAGE_SIZE) bs) st in
  vm_inv extra st' /\
  (forall c' y b, view st c' y = Some b -> ~ (c' = c /\ x <= y < x + Z.of_nat (length bs)) -> view st' c' y = Some b) /\
  (forall k b, bs !! k = Some b -> view st' c (x + Z.of_nat k) = Some b).
Proof.
  intros Hi Hm Hv Hone Hlen st'. pose proof (offset_bounds x) as Hox. pose proof (page_of_eq x) as Epx.
  assert (Hi' : vm_inv extra st') by (by apply inv_ram). split; [done|].
  destruct Hm as (i & s & -> & Hs & Hin). destruct (maps_used _ _ _ _ _ Hi Hs Hin) as [Hu Hmo].
  destruct (mo_phys _ _ _ Hmo) as [Hp0 [Hpal _]]. split.
  - intros c' y b Hb Hout. apply (view_spec _ _ _ _ _ Hi) in Hb as (m' & Hm' & Hv' & ->).
    apply (view_spec _ _ _ _ _ Hi'). exists m'. split; [done|]. split; [done|]. unfold st', mem_store. cbn.
    pose proof (offset_bounds y) as Hoy. pose proof (page_of_eq y) as Epy.
    destruct (_ && _) eqn:Erange; [exfalso|done].
    destruct Hm' as (i' & s' & -> & Hs' & Hin'). destruct (maps_used _ _ _ _ _ Hi Hs' Hin') as [Hu' Hmo'].
    destruct (mo_phys _ _ _ Hmo') as [Hp0' [Hpal' _]].
    destruct (decide (phys m' = phys m)) as [Heq|Hneq].
    + apply list_elem_of_lookup in Hin as [j Hj], Hin' as [j' Hj'].
      destruct (sole_owner _ _ _ _ _ _ _ m m' Hone Hs Hs' Hj Hj' Heq) as [<- <-].
      rewrite Hs in Hs'. injection Hs' as <-. rewrite Hj in Hj'. injection Hj' as <-.
      apply Hout. split; [done|]. lia.
    + unfold page_aligned, PAGE_SIZE in *. clear - Erange Hneq Hpal Hpal' Hoy Hox Hlen. dlia.
  - intros k b Hk. pose proof (lookup_lt_Some _ _ _ Hk) as Hlt.
    apply (view_spec _ _ _ _ _ Hi'). exists m. split; [by exists i, s|].
    assert (Hmod : (x + Z.of_nat k) mod PAGE_SIZE = x mod PAGE_SIZE + Z.of_nat k).
    { unfold PAGE_SIZE in *. clear - Hlt Hlen. dlia. }
    split; [rewrite page_of_eq, Hmod; lia|]. unfold st', mem_store. cbn. rewrite Hmod.
    replace (_ && _) with true by lia. replace (Z.to_nat _) with k by lia. by rewrite list_lookup_total_alt, Hk.
Qed.

Lemma store_views extra st c m x bs :
  vm_inv extra st -> maps st c m -> virt m = page_of x -> writable m ->
  Z.of_nat (length bs) <= PAGE_SIZE - x mod PAGE_SIZE ->
  let st' := set_ram (mem_store (ram st) (phys m + x mod PAGE_SIZE) bs) st in
  vm_inv extra st' /\
  (forall c' y b, view st c' y = Some b -> ~ (c' = c /\ x <= y < x + Z.of_nat (length bs)) -> view st' c' y = Some b) /\
  (forall k b, bs !! k = Some b -> view st' c (x + Z.of_nat k) = Some b).
Proof.
  intros Hi Hm Hv Hw. apply (store_sole_views extra st c m x bs Hi Hm Hv). destruct Hm as (i & s & -> & Hs & Hin).
  by apply (vi_iso _ _ Hi i s m Hs Hin Hw).
Qed.

Lemma chunk_of_bounds x n :
  0 < n -> 0 < chunk_of x n <= n /\ chunk_of x n <= PAGE_SIZE - x mod PAGE_SIZE /\
  (chunk_of x n < n -> chunk_of x n = PAGE_SIZE - x mod PAGE_SIZE).
Proof.
  intros Hn. unfold chunk_of. rewrite offset_eq. pose proof (offset_bounds x). split_ifs; lia.
Qed.

(** Pages a copy touches, and one more round to see that nothing is left. *)
Definition copy_fuel (x n : Z) : Z := if n =? 0 then 1 else (x mod PAGE_SIZE + n - 1) / PAGE_SIZE + 2.

Lemma copy_fuel_step x n :
  0 < n -> copy_fuel (x + chunk_of x n) (n - chunk_of x n) <= copy_fuel x n - 1 /\ 1 < copy_fuel x n.
Proof.
  intros Hn. destruct (chunk_of_bounds x n Hn) as (Hc & Hb & Heq). pose proof (offset_bounds x) as Ho. unfold copy_fuel.
  destruct (Z.eqb_spec n 0); [lia|].
  assert (0 <= (x mod PAGE_SIZE + n - 1) / PAGE_SIZE) by (apply Z.div_pos; [lia|done]). split; [|lia].
  destruct (Z.eqb_spec (n - chunk_of x n) 0); [lia|]. rewrite Heq by lia.
  replace ((x + (PAGE_SIZE - x mod PAGE_SIZE)) mod PAGE_SIZE) with 0 by (unfold PAGE_SIZE in *; dlia).
  unfold PAGE_SIZE in *. dlia.
Qed.

Lemma copy_out_spec extra c fuel : forall x input st,
  vm_inv extra st -> 0 <= x -> x + Z.of_nat (length input) <= 2 ^ 47 ->
  copy_fuel x (Z.of_nat (length input)) <= Z.of_nat fuel ->
  exists st' r, copy_out fuel c x input st = Some (st', r) /\ vm_inv extra st' /\ r <= 0 /\
    (forall c' y b, view st c' y = Some b -> ~ (c' = c /\ x <= y < x + Z.of_nat (length input)) -> view st' c' y = Some b) /\
    (r = 0 -> forall k b, input !! k = Some b -> view st' c (x + Z.of_nat k) = Some b).
Proof.
  induction fuel as [|fuel IH]; intros x input st Hi Hx Hend Hf.
  { exfalso. unfold copy_fuel in Hf. destruct (Z.eqb_spec (Z.of_nat (length input)) 0); [lia|].
    pose proof (Z.div_pos (x mod PAGE_SIZE + Z.of_nat (length input) - 1) PAGE_SIZE). pose proof (offset_bounds x).
    unfold PAGE_SIZE in *. lia. }
  cbn [copy_out]. set (n := Z.of_nat (length input)) in *. destruct (Z.eqb_spec n 0) as [Hn|Hn].
  { exists st, 0. split; [done|]. split; [done|]. split; [lia|]. split; [done|]. intros _ k b Hk.
    apply lookup_lt_Some in Hk. lia. }
  destruct (user_page c x true st) as [st1 [r|physical]] eqn:Ep;
    destruct (user_page_spec _ _ _ _ _ _ _ Hi Hx Ep) as (Hi1 & Hv1 & Hres).
  { exists st1, r. split; [done|]. split; [done|]. split; [lia|]. split; [intros; by apply Hv1|lia]. }
  destruct Hres as (m & Hm & Hv & -> & _ & Hw). specialize (Hw eq_refl).
  destruct (chunk_of_bounds x n ltac:(lia)) as (Hc & Hb & _). destruct (copy_fuel_step x n ltac:(lia)) as [Hf1 Hf2].
  set (q := chunk_of x n) in *. set (bs := take (Z.to_nat q) input).
  assert (Hlb : Z.of_nat (length bs) = q) by (unfold bs; rewrite length_take; lia).
  destruct (store_views _ _ _ _ _ bs Hi1 Hm Hv Hw ltac:(lia)) as (Hi2 & Hout & Hin). rewrite Hlb in Hout.
  set (st2 := set_ram _ st1) in *. rewrite u64_small by (unfold is_u64; lia).
  assert (Hld : Z.of_nat (length (drop (Z.to_nat q) input)) = n - q) by (rewrite length_drop; lia).
  destruct (IH (x + q) (drop (Z.to_nat q) input) st2 Hi2) as (st' & r & E & Hi' & Hr & Hkeep & Hdone);
    [lia|lia|rewrite Hld; lia|].
  exists st', r. split; [done|]. split; [done|]. split; [done|]. rewrite Hld in Hkeep. split.
  - intros c' y b Hb' Hno. apply Hkeep; [|intros [-> Hr']; apply Hno; split; [done|lia]].
    apply Hout; [by apply Hv1|]. intros [-> Hr']. apply Hno. split; [done|lia].
  - intros Hr0 k b Hk. destruct (decide (k < Z.to_nat q)%nat) as [Hlt|Hge].
    + apply Hkeep; [|lia]. apply Hin. unfold bs. by rewrite lookup_take_lt.
    + replace (x + Z.of_nat k) with (x + q + Z.of_nat (k - Z.to_nat q)) by lia. apply Hdone; [done|].
      rewrite lookup_drop. rewrite <- Hk. f_equal. lia.
Qed.

Lemma mem_load_lookup f a n k b : mem_load f a n !! k = Some b -> Z.of_nat k < n /\ b = f (a + Z.of_nat k).
Proof.
  unfold mem_load. rewrite list_lookup_fmap. destruct (seq 0 (Z.to_nat n) !! k) as [j|] eqn:E; [|done].
  apply lookup_seq in E as [-> Hk]. cbn. intros [= <-]. split; [lia|done].
Qed.

Lemma copy_in_spec extra c fuel : forall x n out st,
  vm_inv extra st -> 0 <= x -> 0 <= n -> x + n <= 2 ^ 47 -> copy_fuel x n <= Z.of_nat fuel ->
  exists st' r bs, copy_in fuel c x n out st = Some (st', r, out ++ bs) /\ vm_inv extra st' /\ views_kept st st' /\ r <= 0 /\
    (forall k b, bs !! k = Some b -> view st' c (x + Z.of_nat k) = Some b) /\ (r = 0 -> Z.of_nat (length bs) = n).
Proof.
  induction fuel as [|fuel IH]; intros x n out st Hi Hx Hn0 Hend Hf.
  { exfalso. unfold copy_fuel in Hf. destruct (Z.eqb_spec n 0); [lia|].
    pose proof (Z.div_pos (x mod PAGE_SIZE + n - 1) PAGE_SIZE). pose proof (offset_bounds x).
    unfold PAGE_SIZE in *. lia. }
  cbn [copy_in]. destruct (Z.eqb_spec n 0) as [Hn|Hn].
  { exists st, 0, []. rewrite app_nil_r. split; [done|]. split; [done|]. split; [done|]. split; [lia|]. split; [done|]. cbn. lia. }
  destruct (user_page c x false st) as [st1 [r|physical]] eqn:Ep;
    destruct (user_page_spec _ _ _ _ _ _ _ Hi Hx Ep) as (Hi1 & Hv1 & Hres).
  { exists st1, r, []. rewrite app_nil_r. split; [done|]. split; [done|]. split; [done|]. split; [lia|]. split; [done|lia]. }
  destruct Hres as (m & Hm & Hv & -> & _ & _).
  destruct (chunk_of_bounds x n ltac:(lia)) as (Hc & Hb & _). destruct (copy_fuel_step x n ltac:(lia)) as [Hf1 Hf2].
  set (q := chunk_of x n) in *. set (bs := mem_load (ram st1) (phys m + x mod PAGE_SIZE) q).
  assert (Hlb : Z.of_nat (length bs) = q) by (unfold bs, mem_load; rewrite length_fmap, length_seq; lia).
  rewrite u64_small by (unfold is_u64; lia).
  destruct (IH (x + q) (n - q) (out ++ bs) st1 Hi1) as (st' & r & bs' & E & Hi' & Hv' & Hr & Hin & Hdone); [lia..|].
  exists st', r, (bs ++ bs'). rewrite app_assoc. split; [done|]. split; [done|]. split; [by etrans|]. split; [done|]. split.
  - intros k b Hk. apply lookup_app_Some in Hk as [Hk|[Hge Hk]].
    + apply mem_load_lookup in Hk as [Hlt ->]. apply Hv', (view_spec _ _ _ _ _ Hi1). exists m. split; [done|].
      assert (Hmod : (x + Z.of_nat k) mod PAGE_SIZE = x mod PAGE_SIZE + Z.of_nat k).
      { clear - Hlt Hb. pose proof (offset_bounds x). unfold PAGE_SIZE in *. dlia. }
      pose proof (page_of_eq x). split; [rewrite page_of_eq, Hmod; lia|]. by rewrite Hmod, Z.add_assoc.
    + specialize (Hin _ _ Hk). replace (x + Z.of_nat k) with (x + q + Z.of_nat (k - length bs)) by lia. done.
  - intros Hr0. rewrite length_app. specialize (Hdone Hr0). lia.
Qed.

(** ** Finding a free page *)
Definition ALLOC_FUEL : nat := S VMM_MAX_MAPPINGS.

Lemma next_unmapped_spec extra st c fuel : forall v,
  vm_inv extra st -> page_aligned v -> 0 <= v -> v + Z.of_nat fuel * PAGE_SIZE <= 2 ^ 47 ->
  match next_unmapped fuel st c v with
  | Some w => vmm_resolve st c w = 0 /\ page_aligned w /\ v <= w /\ w + PAGE_SIZE <= v + Z.of_nat fuel * PAGE_SIZE
  | None => forall k, (k < fuel)%nat -> exists m, maps st c m /\ virt m = v + Z.of_nat k * PAGE_SIZE
  end.
Proof.
  induction fuel as [|fuel IH]; intros v Hi Hal Hv Hend; [cbn; intros; lia|]. cbn [next_unmapped].
  destruct (Z.eqb_spec (vmm_resolve st c v) 0) as [E|E]; [unfold PAGE_SIZE in *; split_and!; done || lia|].
  destruct (resolve_present _ _ _ _ Hi E) as (m & Hm & Hvm). rewrite page_of_aligned in Hvm by done.
  rewrite u64_small by (unfold is_u64, PAGE_SIZE in *; lia).
  assert (Hal' : page_aligned (v + PAGE_SIZE)) by (clear - Hal; unfold page_aligned, PAGE_SIZE in *; dlia).
  specialize (IH (v + PAGE_SIZE) Hi Hal'). unfold page_aligned, PAGE_SIZE in *.
  specialize (IH ltac:(lia) ltac:(lia)).
  destruct (next_unmapped fuel st c (v + 4096)) as [w|].
  - destruct IH as (A & B & C & D). split_and!; try done; lia.
  - intros k Hk. destruct k as [|k]; [exists m; split; [done|]; lia|].
    destruct (IH k ltac:(lia)) as (m' & Hm' & Hv'). exists m'. split; [done|]. lia.
Qed.

(** Among [VMM_MAX_MAPPINGS + 1] consecutive pages one is not mapped. *)
Lemma next_unmapped_found extra st i v :
  vm_inv extra st -> page_aligned v -> 0 <= v -> v + Z.of_nat ALLOC_FUEL * PAGE_SIZE <= 2 ^ 47 ->
  exists w, next_unmapped ALLOC_FUEL st (SlotCtx i) v = Some w /\ vmm_resolve st (SlotCtx i) w = 0 /\ page_aligned w /\
    v <= w /\ w + PAGE_SIZE <= v + Z.of_nat ALLOC_FUEL * PAGE_SIZE.
Proof.
  intros Hi Hal Hv Hend. pose proof (next_unmapped_spec extra st (SlotCtx i) ALLOC_FUEL v Hi Hal Hv Hend) as Hsp.
  destruct (next_unmapped ALLOC_FUEL st (SlotCtx i) v) as [w|]; [by exists w|]. exfalso.
  destruct (Hsp 0%nat ltac:(unfold ALLOC_FUEL; lia)) as (m0 & (i' & s & [= <-] & Hs & Hm0) & _).
  destruct (maps_used _ _ _ _ _ Hi Hs Hm0) as [Hu _].
  pose proof (so_length _ _ (vi_slot _ _ Hi i s Hs Hu)) as Hlen.
  set (pages := (fun k => v + Z.of_nat k * PAGE_SIZE) <$> seq 0 ALLOC_FUEL).
  assert (Hsub : pages ⊆+ (virt <$> mappings s)).
  { apply NoDup_submseteq.
    - unfold pages. apply (NoDup_fmap_2_strong _ _); [|apply NoDup_seq]. intros a b _ _ E. unfold PAGE_SIZE in E. lia.
    - intros x Hx. unfold pages in Hx. apply list_elem_of_fmap in Hx as (k & -> & Hk). apply elem_of_seq in Hk.
      destruct (Hsp k ltac:(lia)) as (m & (i' & s' & [= <-] & Hs' & Hm) & <-). rewrite Hs in Hs'. injection Hs' as <-.
      by apply list_elem_of_fmap_2. }
  apply submseteq_length in Hsub. unfold pages in Hsub. rewrite !length_fmap, length_seq in Hsub.
  unfold ALLOC_FUEL in Hsub. lia.
Qed.

(** [vmm_alloc_page] maps a zeroed page where there was none. *)
Lemma vmm_alloc_page_spec extra st i s fl :
  vm_inv extra st -> g_slots st !! i = Some s -> used s = true ->
  0 <= next_free (s_context s) -> next_free (s_context s) + (Z.of_nat ALLOC_FUEL + 1) * PAGE_SIZE <= 2 ^ 47 ->
  exists st' v, vmm_alloc_page ALLOC_FUEL (Some (SlotCtx i)) fl st = Some (st', v) /\
    vm_inv extra st' /\ views_kept st st' /\
    (v <> 0 -> vmm_resolve st (SlotCtx i) v = 0 /\ user_va v /\
       forall k, 0 <= k < PAGE_SIZE -> view st' (SlotCtx i) (v + k) = Some 0).
Proof.
  intros Hi Hs Hu Hn0 Hn. unfold vmm_alloc_page. cbn [ctx]. rewrite (the_slot_eq _ _ _ Hs).
  set (n := next_free (s_context s)) in *. rewrite u64_small by (unfold is_u64, PAGE_SIZE, ALLOC_FUEL in *; lia).
  pose proof (page_of_is_aligned (n + PAGE_SIZE - 1)) as Hal. pose proof (page_of_bounds (n + PAGE_SIZE - 1)) as Hb.
  set (v0 := page_of (n + PAGE_SIZE - 1)) in *.
  destruct (next_unmapped_found extra st i v0 Hi Hal) as (v & E & Hr & Hva & Hle & Hend);
    [unfold PAGE_SIZE in *; lia|lia|].
  rewrite E. destruct (vmm_map_allocated (Some (SlotCtx i)) v fl st) as [[st1 r] a] eqn:Em.
  destruct (map_fresh_keeps _ _ _ i v _ _ _ Hi ltac:(unfold PAGE_SIZE in *; lia) Hr Em)
    as (Hi1 & Hv1 & _ & [(Hneg & _)|(-> & Hu' & Hmaps & Hz)]).
  - destruct (Z.ltb_spec r 0); [|lia]. exists st1, 0. split; [done|]. split; [done|]. split; [done|]. done.
  - change (0 <? 0) with false. cbv iota. eexists _, v. split; [done|].
    destruct Hmaps as (i' & s1 & [= <-] & Hs1 & Hin). destruct (maps_used _ _ _ _ _ Hi1 Hs1 Hin) as [Hu1 _].
    cbn [on_ctx]. rewrite (on_slot_eq _ _ _ _ Hs1).
    assert (Hi2 := inv_next_free _ _ _ _ (u64 (v + PAGE_SIZE)) Hi1 Hs1 Hu1).
    assert (Hv2 : views_kept st1 (with_slot i (map_context (set_next_free (u64 (v + PAGE_SIZE))) s1) st1)).
    { apply (pages_same_views _ _ _ _ Hi1 Hi2); [by intros ? ? ? ?|]. intros c m (j & x & -> & Hx & Hm). exists m.
      split; [|done]. destruct (decide (j = i)) as [->|].
      - rewrite Hs1 in Hx. injection Hx as <-. eexists i, _. split; [done|].
        split; [apply list_lookup_insert_eq; by eapply lookup_lt_Some|done].
      - exists j, x. split; [done|]. split; [|done]. cbn. by rewrite list_lookup_insert_ne. }
    split; [done|]. split; [by etrans|]. intros _. split; [done|]. split; [done|].
    intros k Hk. by apply Hv2, Hz.
Qed.
(** The pages of a range are user pages after a copy to it; a copy from user
    pages succeeds. *)
Definition user_pages st c (x n : Z) : Prop := forall y, x <= y < x + n -> user_at st c (page_of y).

Lemma page_of_chunk x n y : 0 < n -> x <= y < x + chunk_of x n -> page_of y = page_of x.
Proof.
  intros Hn Hy. destruct (chunk_of_bounds x n Hn) as (_ & Hb & _). rewrite !page_of_eq. pose proof (offset_bounds x).
  unfold PAGE_SIZE in *. clear - Hy Hb. dlia.
Qed.

Lemma copy_out_users extra c fuel : forall x input st st' r,
  vm_inv extra st -> 0 <= x -> x + Z.of_nat (length input) <= 2 ^ 47 -> copy_out fuel c x input st = Some (st', r) ->
  users_kept st st' /\ (r = 0 -> user_pages st' c x (Z.of_nat (length input))).
Proof.
  induction fuel as [|fuel IH]; intros x input st st' r Hi Hx Hend; cbn [copy_out]; [done|].
  set (n := Z.of_nat (length input)) in *. destruct (Z.eqb_spec n 0) as [Hn|Hn].
  { intros [= <- <-]. split; [done|]. intros _ y Hy. lia. }
  destruct (user_page c x true st) as [st1 [e|physical]] eqn:Ep; destruct (user_page_users _ _ _ _ _ _ _ Hi Hx Ep) as (Hk1 & Hu1 & _);
    destruct (user_page_spec _ _ _ _ _ _ _ Hi Hx Ep) as (Hi1 & _ & Hres).
  { intros [= <- <-]. split; [done|]. lia. }
  destruct Hres as (m & Hm & Hv & -> & _ & Hw). specialize (Hw eq_refl). specialize (Hu1 _ eq_refl).
  destruct (chunk_of_bounds x n ltac:(lia)) as (Hc & Hb & _). pose proof (page_of_chunk x n) as Hpc.
  set (q := chunk_of x n) in *. set (bs := take (Z.to_nat q) input).
  assert (Hlb : Z.of_nat (length bs) = q) by (unfold bs; rewrite length_take; lia).
  destruct (store_views _ _ _ _ _ bs Hi1 Hm Hv Hw ltac:(lia)) as (Hi2 & _ & _).
  set (st2 := set_ram _ st1) in *. rewrite u64_small by (unfold is_u64; lia). intros E.
  assert (Hld : Z.of_nat (length (drop (Z.to_nat q) input)) = n - q) by (rewrite length_drop; lia).
  destruct (IH (x + q) (drop (Z.to_nat q) input) st2 st' r Hi2 ltac:(lia) ltac:(lia) E) as [Hk2 Hu2].
  assert (Hk12 : users_kept st1 st') by exact Hk2. split; [by etrans|]. intros Hr y Hy. rewrite Hld in Hu2.
  destruct (decide (y < x + q)) as [Hlt|Hge]; [|apply Hu2; [done|lia]]. rewrite Hpc by lia. by apply Hk12.
Qed.

Lemma copy_in_users extra c fuel : forall x n out st st' r bs,
  vm_inv extra st -> 0 <= x -> 0 <= n -> x + n <= 2 ^ 47 -> user_pages st c x n ->
  copy_in fuel c x n out st = Some (st', r, bs) -> r = 0.
Proof.
  induction fuel as [|fuel IH]; intros x n out st st' r bs Hi Hx Hn0 Hend Hu; cbn [copy_in]; [done|].
  destruct (Z.eqb_spec n 0) as [Hn|Hn]; [by intros [= <- <- <-]|].
  destruct (user_page c x false st) as [st1 res] eqn:Ep. destruct (user_page_users _ _ _ _ _ _ _ Hi Hx Ep) as (Hk1 & _ & Hok).
  destruct (Hok eq_refl ltac:(apply Hu; lia)) as [p ->].
  destruct (user_page_spec _ _ _ _ _ _ _ Hi Hx Ep) as (Hi1 & _ & _).
  destruct (chunk_of_bounds x n ltac:(lia)) as (Hc & Hb & _). rewrite u64_small by (unfold is_u64; lia).
  apply IH; [done|lia|lia|lia|]. intros y Hy. apply Hk1, Hu. lia.
Qed.
End View.

(** ** Reachable states *)
Section Reach.
Context {T : Type} `{Paging T} {ck : Clean}.
Implicit Types (st : vmm T) (s : slot) (m : mapping) (extra : Z -> Z) (c : cref).

(** The state [vmm_init] finds: page tables that can be initialised, with the
    kernel's root loaded on every processor. *)
Record vm_boot st : Prop := {
  vb_init : (arch_paging_init (tables st)).2 = 0;
  vb_pg : pg_inv (arch_paging_init (tables st)).1 (frames st);
  vb_root : pg_root (arch_paging_init (tables st)).1 (arch_paging_kernel_root (arch_paging_init (tables st)).1);
  vb_cr3 : cr3 st = replicate MAX_CPUS (arch_paging_kernel_root (arch_paging_init (tables st)).1);
  vb_running : uproc_ok (running st)
}.

(** No page of the kernel's own tables is open to user mode. *)
Definition kernel_private st : Prop :=
  forall v, page_va v -> ~ pg_user (tables st) (page_table (g_kernel_context st)) v.

(** The calls into vmm.c. With [fresh], pages are only allocated where none
    is mapped, which the page-fault handler and [vmm_alloc_page] never do
    otherwise, and the kernel maps no page for user mode into its own tables,
    which no call of [vmm_map] in the kernel does. *)
Inductive vm_step (fresh : bool) st : vmm T -> Prop :=
| step_create : vm_step fresh st (vmm_create_context st).1
| step_clone c : ctx_live st c -> vm_step fresh st (vmm_clone_context (Some c) st).1
| step_destroy c : vm_step fresh st (vmm_destroy_context c st)
| step_switch cpu (next : option cref) : (forall i, next = Some (SlotCtx i) -> ctx_live st (SlotCtx i)) ->
    vm_step fresh st (vmm_switch_context cpu next st)
| step_kernel_map v a fl : 0 <= v < 2 ^ 47 -> 0 <= a < 2 ^ 52 -> (fresh = true -> has fl VMM_USER = false) ->
    vm_step fresh st (vmm_map (Some KernelCtx) v a fl st).1
| step_map_allocated i v fl : 0 <= v < 2 ^ 47 -> (fresh = true -> vmm_resolve st (SlotCtx i) v = 0) ->
    vm_step fresh st (vmm_map_allocated (Some (SlotCtx i)) v fl st).1.1
| step_unmap c v : ctx_live st c -> 0 <= v < 2 ^ 47 -> vm_step fresh st (vmm_unmap (Some c) v st).1
| step_alloc_page i s fl st' v : g_slots st !! i = Some s -> used s = true -> 0 <= next_free (s_context s) ->
    next_free (s_context s) + (Z.of_nat ALLOC_FUEL + 1) * PAGE_SIZE <= 2 ^ 47 ->
    vmm_alloc_page ALLOC_FUEL (Some (SlotCtx i)) fl st = Some (st', v) -> vm_step fresh st st'
| step_fault address w : 0 <= address -> vm_step fresh st (vmm_handle_fault address w st).1
| step_copy_to fuel c x input st' r : 0 <= x -> x + Z.of_nat (length input) <= 2 ^ 47 ->
    copy_fuel x (Z.of_nat (length input)) <= Z.of_nat fuel ->
    copy_out fuel c x input st = Some (st', r) -> vm_step fresh st st'
| step_copy_from fuel c x n st' r bs : 0 <= x -> 0 <= n -> x + n <= 2 ^ 47 -> copy_fuel x n <= Z.of_nat fuel ->
    copy_in fuel c x n [] st = Some (st', r, bs) -> vm_step fresh st st'
| step_run u : uproc_ok u -> vm_step fresh st (set_running u st).

Lemma vm_boot_inv st : vm_boot st -> (clean = true -> kernel_private (vmm_init st)) -> vm_inv (fun _ => 0) (vmm_init st).
Proof.
  intros [Hin Hpg Hroot Hcr Hrun] Hpr. unfold kernel_private in Hpr. revert Hpr. unfold vmm_init. destruct (arch_paging_init (tables st)) as [t r] eqn:E. cbn [fst snd] in *.
  subst r. change (0 =? 0) with true. cbv iota. intros Hpr.
  assert (Hzero : forall i s, replicate VMM_MAX_CONTEXTS zero_slot !! i = Some s -> s = zero_slot).
  { intros i s Hs. by apply lookup_replicate in Hs as [-> _]. }
  constructor; cbn; try done.
  - intros i s Hs Hu. by rewrite (Hzero i s Hs) in Hu.
  - intros i s Hs _. by apply (Hzero i).
  - intros i s Hs Hu. by rewrite (Hzero i s Hs) in Hu.
  - intros i j s s' Hs _ Hu. by rewrite (Hzero i s Hs) in Hu.
  - intros i s m Hs Hm. rewrite (Hzero i s Hs) in Hm. by apply elem_of_nil in Hm.
  - intros cpu c Hc. change ((replicate MAX_CPUS KernelCtx : list cref) !! cpu = Some c) in Hc.
    apply lookup_replicate in Hc as [-> Hlt]. rewrite Hcr. split; [done|]. by apply lookup_replicate_2.
  - by rewrite Hcr.
Qed.

Lemma vm_step_inv fresh extra st st' :
  vm_inv extra st -> (clean = true -> fresh = true) -> vm_step fresh st st' ->
  exists extra', vm_inv extra' st' /\ (fresh = true -> extra' = extra).
Proof.
  intros Hi Hcf Hstep. destruct Hstep as [|c Hc|c|cpu c Hc|v a fl Hv Ha Hnu|i v fl Hv Hf|c v Hc Hv|i s fl st' v Hs Hu Hn0 Hn E
    |address w Ha|fuel c x input st' r Hx Hend Hf E|fuel c x n st' r bs Hx Hn Hend Hf E|u Hu].
  - destruct (vmm_create_context st) as [st' c] eqn:E. exists extra. split; [|done]. apply (vmm_create_context_inv _ _ _ _ Hi E).
  - destruct (vmm_clone_context (Some c) st) as [st' r] eqn:E. exists extra. split; [|done].
    apply (vmm_clone_context_inv _ _ _ _ _ Hi Hc E).
  - exists extra. split; [|done]. apply (vmm_destroy_context_inv _ _ _ Hi).
  - exists extra. split; [|done]. by apply vmm_switch_context_inv.
  - destruct (vmm_map (Some KernelCtx) v a fl st) as [st' r] eqn:E. exists extra. split; [|done].
    apply (vmm_map_kernel _ _ _ _ _ _ _ Hi Hv Ha (fun H => Hnu (Hcf H)) E).
  - destruct (vmm_map_allocated (Some (SlotCtx i)) v fl st) as [[st' r] a] eqn:E. cbn [fst]. destruct fresh.
    + exists extra. split; [|done]. apply (map_fresh_keeps _ _ _ _ _ _ _ _ Hi Hv (Hf eq_refl) E).
    + destruct (vmm_map_allocated_inv _ _ _ _ _ _ _ _ Hi Hv (slot_flags _ _) E) as (_ & _ & _ &
        [(_ & Hi' & _)|[(_ & _ & Hi' & _)|(i' & s & s' & o & _ & _ & _ & _ & _ & _ & _ & _ & _ & Hi')]]);
        (eexists; split; [exact Hi'|done]).
  - destruct (vmm_unmap (Some c) v st) as [st' r] eqn:E. exists extra. split; [|done].
    apply (vmm_unmap_inv _ _ _ _ _ _ Hi Hc Hv E).
  - destruct (vmm_alloc_page_spec _ _ _ _ fl Hi Hs Hu Hn0 Hn) as (st2 & v2 & E2 & Hi' & _). rewrite E in E2. simplify_eq. eauto.
  - destruct (vmm_handle_fault address w st) as [st' r] eqn:E. exists extra. split; [|done].
    apply (vmm_handle_fault_keeps _ _ _ _ _ _ Hi Ha E).
  - destruct (copy_out_spec _ c fuel _ _ _ Hi Hx Hend Hf) as (st2 & r2 & E2 & Hi' & _). rewrite E in E2. simplify_eq. eauto.
  - destruct (copy_in_spec _ c fuel _ _ [] _ Hi Hx Hn Hend Hf) as (st2 & r2 & bs2 & E2 & Hi' & _). rewrite E in E2. simplify_eq. eauto.
  - exists extra. split; [|done]. by apply inv_running.
Qed.

Lemma vm_reach_inv fresh st0 st :
  vm_boot st0 -> (clean = true -> fresh = true /\ kernel_private (vmm_init st0)) ->
  rtc (vm_step fresh) (vmm_init st0) st ->
  exists extra, vm_inv extra st /\ (fresh = true -> forall a, extra a = 0).
Proof.
  intros Hb Hcf Hr.
  eapply (rtc_preserve (fun st => exists extra, vm_inv extra st /\ (fresh = true -> forall a, extra a = 0)) (vm_step fresh));
    [|exists (fun _ => 0); split; [apply vm_boot_inv; [done|]; intros Hc; apply (Hcf Hc)|done]|exact Hr].
  intros s1 s2 (extra & Hi & Hz) Hs. destruct (vm_step_inv _ _ _ _ Hi (fun H => proj1 (Hcf H)) Hs) as (extra' & Hi' & He).
  exists extra'. split; [done|]. intros Hf. rewrite (He Hf). by apply Hz.
Qed.
End Reach.

(** ** User ranges *)
Lemma user_range_spec (a n : Z) :
  is_u64 a -> 0 < n < 2 ^ 64 ->
  is_valid_user_range a n = true <-> USER_SPACE_START <= a /\ a + n <= USER_SPACE_END.
Proof.
  intros Ha Hn. unfold is_u64 in *. unfold is_valid_user_range, USER_SPACE_START, USER_SPACE_END.
  assert (Hw : u64 (a + n) = if a + n <? 2 ^ 64 then a + n else a + n - 2 ^ 64) by (unfold u64; split_ifs; dlia).
  assert (Hw1 : u64 (a + n - 1) = if a + n - 1 <? 2 ^ 64 then a + n - 1 else a + n - 1 - 2 ^ 64) by (unfold u64; split_ifs; dlia).
  rewrite Hw, Hw1. replace (0 <? n) with true by lia. cbn [andb]. split_ifs; lia.
Qed.

(** An empty or invalid range copies nothing. *)
Section CopyEntry.
Context {T : Type} `{Paging T} {ck : Clean}.
Implicit Types (st : vmm T) (c : cref) (extra : Z -> Z).

Definition user_span (x n : Z) : Prop := USER_SPACE_START <= x /\ x + n <= USER_SPACE_END.

Lemma copy_to_user_entry fuel c x input st :
  is_u64 x -> 0 < Z.of_nat (length input) < 2 ^ 64 ->
  vmm_copy_to_user fuel false (Some c) x input st =
    if decide (user_span x (Z.of_nat (length input))) then copy_out fuel c x input st else Some (st, - EFAULT).
Proof.
  intros Hx Hn. unfold vmm_copy_to_user. pose proof (user_range_spec x _ Hx Hn) as Hr.
  replace (0 <? _) with true by lia. rewrite andb_true_l. cbn [andb]. rewrite orb_false_r.
  replace (negb (Z.of_nat (length input) =? 0)) with true by lia. rewrite andb_true_r.
  destruct (Z.eqb_spec x 0) as [->|].
  - rewrite decide_False; [done|]. unfold user_span, USER_SPACE_START. lia.
  - destruct (is_valid_user_range x (Z.of_nat (length input))); cbn [negb].
    + rewrite decide_True; [done|]. by apply Hr.
    + rewrite decide_False; [done|]. intros Hs. apply Hr in Hs. done.
Qed.

Lemma copy_from_user_entry fuel c x n st :
  is_u64 x -> 0 < n < 2 ^ 64 ->
  vmm_copy_from_user fuel false (Some c) x n st =
    if decide (user_span x n) then copy_in fuel c x n [] st else Some (st, - EFAULT, []).
Proof.
  intros Hx Hn. unfold vmm_copy_from_user. pose proof (user_range_spec x _ Hx Hn) as Hr.
  replace (0 <? _) with true by lia. rewrite andb_true_l. cbn [andb orb].
  replace (negb (n =? 0)) with true by lia. rewrite andb_true_r.
  destruct (Z.eqb_spec x 0) as [->|].
  - rewrite decide_False; [done|]. unfold user_span, USER_SPACE_START. lia.
  - destruct (is_valid_user_range x n); cbn [negb].
    + rewrite decide_True; [done|]. by apply Hr.
    + rewrite decide_False; [done|]. intros Hs. apply Hr in Hs. done.
Qed.

Lemma span_bounds x n : user_span x n -> 0 <= x /\ x + n <= 2 ^ 47.
Proof. unfold user_span, USER_SPACE_START, USER_SPACE_END. lia. Qed.

(** The views of a clone are those of its source. *)
Lemma clone_views extra st st' i c :
  vm_inv extra st -> ctx_live st (SlotCtx i) -> vmm_clone_context (Some (SlotCtx i)) st = (st', Some c) ->
  vm_inv extra st' /\ c <> SlotCtx i /\ views_kept st st' /\
  (forall x b, view st (SlotCtx i) x = Some b <-> view st' c x = Some b).
Proof.
  intros Hi Hlive E. destruct (vmm_clone_context_inv _ _ _ _ _ Hi Hlive E) as (Hi' & Hram & _ & Hc).
  destruct c as [|c]; [done|]. destruct Hc as (Hz & x & Hux & s & Hs & Hne & Hmx & _ & Hg). split; [done|]. split; [congruence|].
  pose proof (lookup_lt_Some _ _ _ Hz) as Hlc. pose proof (lookup_lt_Some _ _ _ Hs) as Hli.
  assert (Hsi : g_slots st' !! i = Some (map_mappings (fmap share_src) s)).
  { rewrite Hg, list_lookup_insert_ne by done. by apply list_lookup_insert_eq. }
  assert (Hsc : g_slots st' !! c = Some x) by (rewrite Hg; apply list_lookup_insert_eq; by rewrite length_insert).
  split.
  - apply (pages_same_views _ _ _ _ Hi Hi'); [intros j y m k _ _ _; by rewrite Hram|].
    intros c' m (j & y & -> & Hy & Hm). destruct (decide (j = i)) as [->|Hji].
    + rewrite Hs in Hy. injection Hy as <-. destruct (share_src_same m) as (A & B & _).
      exists (share_src m). split; [|done]. eexists i, _. split; [done|]. split; [exact Hsi|]. cbn. by apply list_elem_of_fmap_2.
    + assert (j <> c) by (intros ->; rewrite Hz in Hy; injection Hy as <-; by apply elem_of_nil in Hm).
      exists m. split; [|done]. exists j, y. split; [done|]. split; [|done]. rewrite Hg. by rewrite !list_lookup_insert_ne by done.
  - intros y b. rewrite (view_spec _ _ _ _ _ Hi), (view_spec _ _ _ _ _ Hi'). rewrite Hram. split.
    + intros (m & (i' & s' & [= <-] & Hs' & Hm) & Hv & ->). rewrite Hs in Hs'. injection Hs' as <-.
      exists (share_child m). split; [|done]. exists c, x. split; [done|]. split; [done|]. rewrite Hmx. by apply list_elem_of_fmap_2.
    + intros (m & (c' & x' & [= <-] & Hx' & Hm) & Hv & ->). rewrite Hsc in Hx'. injection Hx' as <-.
      rewrite Hmx in Hm. apply list_elem_of_fmap in Hm as (m0 & -> & Hm0). exists m0. split; [by exists i, s|done].
Qed.
End CopyEntry.

(** ** Theorems *)
Section Theorems.
Context {T : Type} `{Paging T}.
Implicit Types (st : vmm T) (c : cref) (extra : Z -> Z).


(** Cloning an address space either fails, and then every slot, byte and
    reference count is as before although pages had already been made
    read-only, or gives a new address space with the same bytes at the same
    addresses, in which no page is writable; no view changes. *)
Theorem vmm_clone_context_correct extra st st' i r :
  vm_inv extra st -> ctx_live st (SlotCtx i) -> vmm_clone_context (Some (SlotCtx i)) st = (st', r) ->
  vm_inv extra st' /\ ram st' = ram st /\
  match r with
  | None => g_slots st' = g_slots st /\
      forall a, 0 <= a -> 0 < owners st a -> pmm_frame_refcount a (frames st') = pmm_frame_refcount a (frames st)
  | Some c => c <> SlotCtx i /\ views_kept st st' /\
      (forall x b, view st (SlotCtx i) x = Some b <-> view st' c x = Some b) /\
      (forall x, has (vmm_get_flags st' c x) VMM_WRITABLE = false)
  end.
Proof.
  intros Hi Hlive E. destruct (vmm_clone_context_inv _ _ _ _ _ Hi Hlive E) as (Hi' & Hram & _ & Hr).
  split; [done|]. split; [done|]. destruct r as [c|].
  - destruct (clone_views _ _ _ _ _ Hi Hlive E) as (_ & Hne & Hk & Hv). split; [done|]. split; [done|]. split; [done|].
    intros x. destruct (decide (vmm_resolve st' c x = 0)) as [E0|E0].
    + unfold vmm_resolve, vmm_get_flags in *. pose proof (find_maps _ st' c x Hi') as Hf.
      destruct (find_mapping st' (slot_for st' c) x) as [p|]; [|done]. destruct Hf as [Hm Hp].
      destruct Hm as (j & y & -> & Hy & Hin). destruct (maps_used _ _ _ _ _ Hi' Hy Hin) as [_ Hmo].
      pose proof (mo_phys _ _ _ Hmo). pose proof (offset_bounds x). rewrite offset_eq in E0. lia.
    + destruct (resolve_present _ _ _ _ Hi' E0) as (m & Hm & Hvm).
      destruct (resolve_maps _ _ _ _ _ Hi' Hm Hvm) as (_ & -> & _).
      destruct c as [|c]; [done|]. destruct Hr as (Hz & y & _ & s & Hs & Hic & Hmy & _ & Hg).
      destruct Hm as (c' & y' & [= <-] & Hy & Hin).
      rewrite Hg, list_lookup_insert_eq in Hy by (rewrite length_insert; by eapply lookup_lt_Some). injection Hy as <-.
      rewrite Hmy in Hin. apply list_elem_of_fmap in Hin as (m0 & -> & _). cbn [share_child flags].
      rewrite has_visible, visible_present, <- has_visible. apply share_flags_readonly.
  - split; [done|]. intros a Ha Ho. pose proof (vi_extra _ _ Hi a).
    destruct (vi_refs _ _ Hi a Ha ltac:(lia)) as [_ ->].
    assert (Ho' : owners st' a = owners st a) by (unfold owners; by rewrite Hr).
    destruct (vi_refs _ _ Hi' a Ha ltac:(lia)) as [_ ->]. lia.
Qed.

(** C5: after a fork, writing to a buffer of one of the two address spaces
    leaves every byte the other had at the time of the fork, whatever pages
    the two still share; every other address space keeps its bytes too. *)
Theorem fork_write_isolation extra st st1 i c (target : cref) fuel x input :
  vm_inv extra st -> ctx_live st (SlotCtx i) -> vmm_clone_context (Some (SlotCtx i)) st = (st1, Some c) ->
  user_span x (Z.of_nat (length input)) -> copy_fuel x (Z.of_nat (length input)) <= Z.of_nat fuel ->
  exists st2 r, copy_out fuel target x input st1 = Some (st2, r) /\ vm_inv extra st2 /\
    (target <> c -> forall y b, view st (SlotCtx i) y = Some b -> view st2 c y = Some b) /\
    (target <> SlotCtx i -> forall y b, view st (SlotCtx i) y = Some b -> view st2 (SlotCtx i) y = Some b) /\
    (forall d, d <> target -> forall y b, view st d y = Some b -> view st2 d y = Some b).
Proof.
  intros Hi Hlive E Hspan Hf. destruct (clone_views _ _ _ _ _ Hi Hlive E) as (Hi1 & Hne & Hk & Hv).
  destruct (span_bounds _ _ Hspan) as [Hx Hend].
  destruct (copy_out_spec _ target fuel _ _ _ Hi1 Hx Hend Hf) as (st2 & r & E2 & Hi2 & _ & Hkeep & _).
  exists st2, r. split; [done|]. split; [done|]. split; [|split].
  - intros Ht y b Hy. apply Hkeep; [by apply Hv|]. intros [Ec _]. congruence.
  - intros Ht y b Hy. apply Hkeep; [by apply Hk|]. intros [Ec _]. congruence.
  - intros d Hd y b Hy. apply Hkeep; [by apply Hk|]. intros [Ec _]. congruence.
Qed.

(** C35: a copy to or from user memory outside user space returns [-EFAULT]
    and changes nothing. Inside, both copies terminate and keep the invariant;
    a copy to the user changes no byte of any address space outside the
    buffer, on success and on error, and a copy from the user changes no byte
    at all and on success returns what the buffer holds. After a copy to the
    user that succeeds, a copy from the same buffer succeeds and returns what
    was written. *)
Theorem vmm_copy_user_correct extra st c fuel x input :
  vm_inv extra st -> is_u64 x -> 0 < Z.of_nat (length input) < 2 ^ 64 ->
  copy_fuel x (Z.of_nat (length input)) <= Z.of_nat fuel ->
  let n := Z.of_nat (length input) in
  (~ user_span x n ->
     vmm_copy_to_user fuel false (Some c) x input st = Some (st, - EFAULT) /\
     vmm_copy_from_user fuel false (Some c) x n st = Some (st, - EFAULT, [])) /\
  (user_span x n ->
     (exists st1 r1 bs, vmm_copy_from_user fuel false (Some c) x n st = Some (st1, r1, bs) /\
        vm_inv extra st1 /\ views_kept st st1 /\ r1 <= 0 /\
        (r1 = 0 -> Z.of_nat (length bs) = n /\ forall k b, bs !! k = Some b -> view st1 c (x + Z.of_nat k) = Some b)) /\
     exists st' r, vmm_copy_to_user fuel false (Some c) x input st = Some (st', r) /\ vm_inv extra st' /\ r <= 0 /\
       (forall d y b, view st d y = Some b -> ~ (d = c /\ x <= y < x + n) -> view st' d y = Some b) /\
       (r = 0 -> exists st2, vmm_copy_from_user fuel false (Some c) x n st' = Some (st2, 0, input) /\
          vm_inv extra st2 /\ views_kept st' st2)).
Proof.
  intros Hi Hx Hn Hf n. rewrite copy_to_user_entry, copy_from_user_entry by done. split.
  - intros Hs. by rewrite !decide_False by done.
  - intros Hs. rewrite !decide_True by done. destruct (span_bounds _ _ Hs) as [Hx0 Hend]. split.
    { destruct (copy_in_spec _ c fuel _ _ [] _ Hi Hx0 (Nat2Z.is_nonneg _) Hend Hf) as (st1 & r1 & bs & E1 & Hi1 & Hv1 & Hr1 & Hin & Hlen).
      exists st1, r1, bs. split; [done|]. split; [done|]. split; [done|]. split; [done|]. auto. }
    destruct (copy_out_spec _ c fuel _ _ _ Hi Hx0 Hend Hf) as (st' & r & E & Hi' & Hr & Hkeep & Hdone).
    exists st', r. split; [done|]. split; [done|]. split; [done|]. split; [done|]. intros ->.
    destruct (copy_out_users _ _ _ _ _ _ _ _ Hi Hx0 Hend E) as [_ Hu].
    rewrite copy_from_user_entry, decide_True by done.
    destruct (copy_in_spec _ c fuel _ _ [] _ Hi' Hx0 (Nat2Z.is_nonneg _) Hend Hf) as (st3 & r3 & bs3 & E3 & Hi3 & Hv3 & _ & Hin & Hlen).
    assert (r3 = 0) as -> by (eapply copy_in_users; [exact Hi'|exact Hx0|apply Nat2Z.is_nonneg|exact Hend|by apply Hu|exact E3]).
    specialize (Hlen eq_refl). exists st3. split; [|done]. cbn [app] in E3. unfold n. rewrite E3. do 2 f_equal.
    apply list_eq_same_length with (n := length input); [done|lia|]. intros k b b' Hk Hb Hb'.
    specialize (Hdone eq_refl k b' Hb'). apply Hv3 in Hdone. specialize (Hin k b Hb). congruence.
Qed.

(** A page fault of a user process keeps every byte of every address
    space. When the handler returns 0 the access can be repeated: the address
    is mapped, and writable after a write fault. A page that was not mapped is
    then a zeroed page of the heap or the page just below the stack, and the
    stack grew by it; every error leaves all mappings as they were. *)
Theorem vmm_handle_fault_correct extra st st' u i address w r :
  vm_inv extra st -> running st = Some u -> user_mode u = true -> mm u = Some (SlotCtx i) -> 0 <= address ->
  vmm_handle_fault address w st = (st', r) ->
  vm_inv extra st' /\ views_kept st st' /\ (r <> 0 -> g_slots st' = g_slots st) /\
  (r = 0 -> exists b, view st' (SlotCtx i) address = Some b /\
     (w = true -> has (vmm_get_flags st' (SlotCtx i) address) VMM_WRITABLE = true) /\
     (view st (SlotCtx i) address = None -> b = 0 /\
        ((user_stack_bottom u = page_of address + PAGE_SIZE /\
          running st' = Some (set_stack_bottom (page_of address) u)) \/
         brk_start u <= page_of address /\ address < brk_end u))).
Proof.
  intros Hi Hu Hmode Hmm Ha E. destruct (vmm_handle_fault_keeps _ _ _ _ _ _ Hi Ha E) as [Hi' Hk].
  split; [done|]. split; [done|]. pose proof (page_of_is_aligned address) as Hpa. pose proof (page_of_bounds address) as Hpb.
  assert (Hp0 : 0 <= page_of address) by (unfold page_aligned, PAGE_SIZE in *; dlia).
  assert (Hpp : page_of (page_of address) = page_of address) by (by apply page_of_aligned).
  pose proof (vi_running _ _ Hi) as Hup. rewrite Hu in Hup. destruct Hup as (Hsb & Hbrk & _).
  unfold vmm_handle_fault in E. rewrite Hu, Hmode, Hmm in E.
  destruct (Z.eqb_spec (vmm_resolve st (SlotCtx i) (page_of address)) 0) as [Hr0|Hr0]; cbn [negb] in E.
  - assert (Hfresh : forall st1 r1 a, vmm_map_allocated (Some (SlotCtx i)) (page_of address) (VMM_USER .| VMM_WRITABLE) st = (st1, r1, a) ->
       page_of address < 2 ^ 47 -> vm_inv extra st1 /\ running st1 = running st /\ ((r1 < 0 /\ g_slots st1 = g_slots st) \/
         (r1 = 0 /\ view st1 (SlotCtx i) address = Some 0 /\ has (vmm_get_flags st1 (SlotCtx i) address) VMM_WRITABLE = true))).
    { intros st1 r1 a Em Hlt. destruct (map_fresh_keeps extra st st1 i (page_of address) _ r1 a Hi ltac:(lia) Hr0 Em)
        as (Hi1 & _ & Hrun & [?|(-> & _ & Hmp & Hz)]); (split; [done|]; split; [done|]); [by left|right].
      split; [done|]. split; [replace address with (page_of address + (address - page_of address)) at 1 by lia; apply Hz; lia|].
      by destruct (resolve_maps _ _ _ _ address Hi1 Hmp eq_refl) as (_ & -> & _). }
    destruct (_ && (u64 _ =? _)) eqn:Es.
    + destruct (vmm_map_allocated _ _ _ st) as [[st1 r1] a] eqn:Em.
      destruct (Hfresh _ _ _ eq_refl ltac:(lia)) as (Hi1 & Hrun & [[Hr Hg]|(-> & Hv & Hw)]).
      * destruct (Z.ltb_spec r1 0); [|lia]. simplify_eq. split; [done|lia].
      * change (0 <? 0) with false in E. cbv iota in E. simplify_eq. split; [done|]. intros _. exists 0.
        split; [exact Hv|]. split; [done|]. intros _. split; [done|]. left. rewrite (u64_small (page_of address + PAGE_SIZE)) in Es by (unfold is_u64, PAGE_SIZE; lia). split; [lia|done].
    + destruct (_ && (address <? _)) eqn:Eb; [|simplify_eq; split; [done|]; intros; done].
      destruct (vmm_map_allocated _ _ _ st) as [[st1 r1] a] eqn:Em. cbn [fst] in E. simplify_eq.
      destruct (Hfresh _ _ _ eq_refl ltac:(lia)) as (Hi1 & Hrun & [[Hr Hg]|(-> & Hv & Hw)]); [split; [done|lia]|].
      split; [done|]. intros _. exists 0. split; [exact Hv|]. split; [done|]. intros _. split; [done|]. right. lia.
  - destruct (resolve_present _ _ _ _ Hi Hr0) as (m & Hm & Hv). rewrite Hpp in Hv.
    destruct (resolve_maps _ _ _ _ address Hi Hm Hv) as (Hr & Hfl & Hn0).
    assert (Hb : view st (SlotCtx i) address = Some (ram st (vmm_resolve st (SlotCtx i) address))).
    { unfold view. by rewrite (proj2 (Z.eqb_neq _ _) Hn0). }
    destruct (resolve_maps _ _ _ _ (page_of address) Hi Hm ltac:(by rewrite Hpp)) as (_ & Hfl' & _). rewrite Hfl' in E.
    destruct (w && has (flags m) VMM_COW) eqn:Ew.
    + destruct (break_cow_inv _ _ _ _ _ _ Hi Hpa E) as (_ & _ & _ & [[Hr' Hg]|[-> _]]); [split; [done|lia]|].
      split; [done|]. intros _. destruct (break_cow_keeps _ _ _ _ _ _ Hi Hpa E) as (_ & _ & Hmp). destruct (Hmp eq_refl) as (m' & Hm' & Hv' & Hw' & _).
      eexists. split; [apply Hk; exact Hb|]. split; [|by rewrite Hb]. intros _.
      by destruct (resolve_maps _ _ _ _ address Hi' Hm' Hv') as (_ & -> & _).
    + destruct (w && negb _) eqn:Ew2; simplify_eq; [split; [done|]; intros; done|]. split; [done|]. intros _.
      eexists. split; [exact Hb|]. split; [|by rewrite Hb]. intros ->. cbn in Ew2. rewrite Hfl. by apply negb_false_iff in Ew2.
Qed.
End Theorems.


(** ** Witnesses: one address space with a writable page, then a fork *)
Definition demo_proc : uproc := Uproc true (Some (SlotCtx 0)) 0x7ff00000 0x7fef0000 0x500000 0x600000.
Definition demo_start : vmm x86 :=
  Vmm (Context 0 0 0) [] [] (replicate MAX_CPUS 0x10000) (empty_tables 0x10000) boot_frames (fun _ => 7) (Some demo_proc).
Definition demo_space : vmm x86 := (vmm_create_context (vmm_init demo_start)).1.
Definition demo_page : vmm x86 :=
  (vmm_map_allocated (Some (SlotCtx 0)) 0x400000 (VMM_USER .| VMM_WRITABLE) demo_space).1.1.

Lemma demo_boots : vm_boot demo_start.
Proof.
  constructor.
  - reflexivity.
  - apply (empty_inv 0x10000 boot_frames boot_frames_inv); [lia|exact (boot_frames_held 0 ltac:(lia))].
  - apply (empty_inv 0x10000 boot_frames boot_frames_inv); [lia|exact (boot_frames_held 0 ltac:(lia))].
  - reflexivity.
  - split; [cbn; lia|]. split; [cbn; lia|]. intros _ Hm. discriminate Hm.
Qed.

(** Unfold these before anything they are compared with. *)
Strategy expand [demo_space demo_page].

Lemma create_and_map (st : vmm x86) v fl :
  0 <= v < 2 ^ 47 -> vmm_resolve (vmm_create_context st).1 (SlotCtx 0) v = 0 ->
  rtc (vm_step true) st (vmm_map_allocated (Some (SlotCtx 0)) v fl (vmm_create_context st).1).1.1.
Proof.
  intros Hv H0. eapply rtc_l; [apply step_create|]. eapply rtc_l; [|apply rtc_refl]. by apply step_map_allocated.
Qed.

Lemma demo_reach : rtc (vm_step true) (vmm_init demo_start) demo_page.
Proof.
  assert (H0 : vmm_resolve demo_space (SlotCtx 0) 0x400000 = 0) by (vm_compute; reflexivity).
  unfold demo_page, demo_space in *. refine (create_and_map _ _ _ _ H0). lia.
Qed.

Lemma demo_inv : vm_inv (fun _ => 0) demo_page.
Proof.
  destruct (vm_reach_inv true demo_start demo_page demo_boots ltac:(done) demo_reach) as (extra & Hi & Hz).
  eapply vm_inv_ext; [|exact Hi]. by apply Hz.
Qed.

Lemma demo_live : ctx_live demo_page (SlotCtx 0).
Proof. exists (the_slot demo_page 0). vm_compute. split; reflexivity. Qed.




Definition demo_fork : vmm x86 := (vmm_clone_context (Some (SlotCtx 0)) demo_page).1.

Lemma demo_fork_eq : vmm_clone_context (Some (SlotCtx 0)) demo_page = (demo_fork, Some (SlotCtx 1)).
Proof.
  unfold demo_fork. assert (E : (vmm_clone_context (Some (SlotCtx 0)) demo_page).2 = Some (SlotCtx 1)) by (vm_compute; reflexivity).
  destruct (vmm_clone_context (Some (SlotCtx 0)) demo_page) as [st' r]. cbn in *. by subst.
Qed.

Lemma demo_byte : view demo_page (SlotCtx 0) 0x400123 = Some 0.
Proof. vm_compute. reflexivity. Qed.

Lemma vmm_clone_context_correct_witness :
  view demo_fork (SlotCtx 1) 0x400123 = Some 0 /\ has (vmm_get_flags demo_fork (SlotCtx 1) 0x400123) VMM_WRITABLE = false.
Proof.
  destruct (vmm_clone_context_correct (fun _ => 0) demo_page demo_fork 0 (Some (SlotCtx 1)) demo_inv demo_live demo_fork_eq)
    as (_ & _ & _ & _ & Hv & Hw).
  split; [exact (proj1 (Hv 0x400123 0) demo_byte)|exact (Hw 0x400123)].
Defined.

Lemma fork_write_isolation_witness :
  exists st2 r, copy_out 2 (SlotCtx 0) 0x400123 [5; 6] demo_fork = Some (st2, r) /\
    view st2 (SlotCtx 1) 0x400123 = Some 0.
Proof.
  destruct (fork_write_isolation (fun _ => 0) demo_page demo_fork 0 (SlotCtx 1) (SlotCtx 0) 2 0x400123 [5; 6] demo_inv demo_live demo_fork_eq)
    as (st2 & r & E & _ & Hc & _).
  - vm_compute. split; congruence.
  - vm_compute. congruence.
  - exists st2, r. split; [exact E|]. refine (Hc _ 0x400123 0 demo_byte). discriminate.
Defined.

(** Three bytes are written to a user page and read back. *)
Lemma vmm_copy_user_correct_witness :
  exists st' st2, vmm_copy_to_user 3 false (Some (SlotCtx 0)) 0x400ff0 [1; 2; 3] demo_page = Some (st', 0) /\
    vmm_copy_from_user 3 false (Some (SlotCtx 0)) 0x400ff0 3 st' = Some (st2, 0, [1; 2; 3]).
Proof.
  destruct (vmm_copy_user_correct (fun _ => 0) demo_page (SlotCtx 0) 3 0x400ff0 [1; 2; 3] demo_inv) as [_ Hc].
  - unfold is_u64. lia.
  - cbn. lia.
  - vm_compute. congruence.
  - destruct Hc as (_ & st' & r & E & _ & _ & _ & Hb); [vm_compute; split; congruence|].
    assert (Hr : (fun o => match o with Some (_, r) => r | None => 1 end)
                   (vmm_copy_to_user 3 false (Some (SlotCtx 0)) 0x400ff0 [1; 2; 3] demo_page) = 0) by (vm_compute; reflexivity).
    rewrite E in Hr. cbv beta iota in Hr. subst r. destruct (Hb eq_refl) as (st2 & E2 & _). exists st', st2. split; [exact E|exact E2].
Defined.

Lemma vmm_handle_fault_correct_witness :
  exists st' r, vmm_handle_fault 0x500abc true demo_page = (st', r) /\ r = 0 /\
    view st' (SlotCtx 0) 0x500abc = Some 0.
Proof.
  assert (Hr : (vmm_handle_fault 0x500abc true demo_page).2 = 0) by (vm_compute; reflexivity).
  destruct (vmm_handle_fault 0x500abc true demo_page) as [st' r] eqn:E. cbn [snd] in Hr. exists st', r. split; [reflexivity|]. split; [exact Hr|].
  destruct (vmm_handle_fault_correct (fun _ => 0) demo_page st' demo_proc 0 0x500abc true r demo_inv) as (_ & _ & _ & Hok);
    [vm_compute; reflexivity|reflexivity|reflexivity|lia|exact E|].
  destruct (Hok Hr) as (b & Hv & _ & Hz). destruct Hz as [-> _]; [vm_compute; reflexivity|]. exact Hv.
Defined.
