(* ===== verification/Elf.v ===== *)
(** * src/proc/elf_loader.c: loading programs

    An image is the list of its bytes; its length is the [size] the caller
    passes, and a NULL pointer is [None]. Fields of the headers are read little
    endian at their offsets in the packed structs of include/proc/elf.h. The
    build is the 64-bit one ([UINTPTR_MAX > UINT32_MAX]) for x86-64. The address
    space is a context of Vmm.v; pages are copied through their physical
    addresses, as in the source. *)
From S2P Require Import Prelude Pmm Vmm Cow X86 Aspace.
Open Scope tach_scope.

(** ** Definitions *)
Definition ELF_MAX_PROGRAM_HEADERS : Z := 128.
Definition ELF_MAX_LOADED_PAGES : nat := 512.
Definition ELF_DYN_BASE : Z := 0x1000000000.
Definition ELF_CLASS_32 : Z := 1.
Definition ELF_CLASS_64 : Z := 2.
Definition ELF_TYPE_EXEC : Z := 2.
Definition ELF_TYPE_DYN : Z := 3.
Definition ELF_MACHINE_X86_64 : Z := 62.
Definition ELF_PT_LOAD : Z := 1.
Definition ELF_PF_X : Z := 1.
Definition ELF_PF_W : Z := 2.

Record parsed_elf := ParsedElf {
  elf_class : Z; e_type : Z; e_machine : Z; e_entry : Z; e_phoff : Z; e_phentsize : Z; e_phnum : Z
}.
Record parsed_segment := ParsedSegment {
  p_type : Z; p_flags : Z; p_offset : Z; p_vaddr : Z; p_filesz : Z; p_memsz : Z
}.

Definition image_at (image : list Z) (k : Z) : Z := default 0 (image !! Z.to_nat k).

(** An [n]-byte little-endian field. *)
Fixpoint field (image : list Z) (off : Z) (n : nat) : Z :=
  match n with
  | O => 0
  | S n' => image_at image off + 256 * field image (off + 1) n'
  end.

Definition range_fits (offset length size : Z) : bool := (offset <=? size) && (length <=? size - offset).
Definition machine_matches (machine : Z) : bool := machine =? ELF_MACHINE_X86_64.
Definition size_of (image : list Z) : Z := Z.of_nat (length image).

Definition parse_header (data : option (list Z)) : Z + parsed_elf :=
  match data with
  | None => inl (- ENOEXEC)
  | Some image =>
      let size := size_of image in
      if size <? 16 then inl (- ENOEXEC)
      else if negb (bool_decide (take 4 image = [0x7f; 0x45; 0x4c; 0x46])) || negb (image_at image 5 =? 1) ||
              negb (image_at image 6 =? 1) then inl (- ENOEXEC)
      else
        let c := image_at image 4 in
        let parsed :=
          if c =? ELF_CLASS_32 then
            if size <? 52 then None
            else if negb (field image 20 4 =? 1) || (field image 40 2 <? 52) || (field image 42 2 <? 32) then None
            else Some (ParsedElf c (field image 16 2) (field image 18 2) (field image 24 4) (field image 28 4)
                                 (field image 42 2) (field image 44 2))
          else if c =? ELF_CLASS_64 then
            if size <? 64 then None
            else if negb (field image 20 4 =? 1) || (field image 52 2 <? 64) || (field image 54 2 <? 56) then None
            else Some (ParsedElf c (field image 16 2) (field image 18 2) (field image 24 8) (field image 32 8)
                                 (field image 54 2) (field image 56 2))
          else None in
        match parsed with
        | None => inl (- ENOEXEC)
        | Some e =>
            if negb (elf_class e =? ELF_CLASS_64) then inl (- ENOEXEC)
            else if (negb (e_type e =? ELF_TYPE_EXEC) && negb (e_type e =? ELF_TYPE_DYN)) || negb (machine_matches (e_machine e)) ||
                    (e_phnum e =? 0) || (ELF_MAX_PROGRAM_HEADERS <? e_phnum e) ||
                    negb (range_fits (e_phoff e) (e_phentsize e * e_phnum e) size) then inl (- ENOEXEC)
            else inr e
        end
  end.

Definition parse_segment (image : list Z) (e : parsed_elf) (index : Z) : Z + parsed_segment :=
  let size := size_of image in
  let offset := u64 (e_phoff e + index * e_phentsize e) in
  if negb (range_fits offset (e_phentsize e) size) then inl (- ENOEXEC)
  else
    let s :=
      if elf_class e =? ELF_CLASS_32 then
        ParsedSegment (field image offset 4) (field image (offset + 24) 4) (field image (offset + 4) 4) (field image (offset + 8) 4)
                      (field image (offset + 16) 4) (field image (offset + 20) 4)
      else
        ParsedSegment (field image offset 4) (field image (offset + 4) 4) (field image (offset + 8) 8) (field image (offset + 16) 8)
                      (field image (offset + 32) 8) (field image (offset + 40) 8) in
    if (p_type s =? ELF_PT_LOAD) &&
       ((p_memsz s <? p_filesz s) || negb (range_fits (p_offset s) (p_filesz s) size) ||
        (u64 (p_vaddr s + p_memsz s) <? p_vaddr s)) then inl (- ENOEXEC)
    else inr s.

Fixpoint validate_loop (image : list Z) (e : parsed_elf) (n : nat) (i : Z) (loadable : bool) : Z :=
  match n with
  | O => if loadable then 0 else - ENOEXEC
  | S n' =>
      match parse_segment image e i with
      | inl r => r
      | inr s => validate_loop image e n' (i + 1) (loadable || ((p_type s =? ELF_PT_LOAD) && negb (p_memsz s =? 0)))
      end
  end.

Definition elf_validate (data : option (list Z)) : Z :=
  match parse_header data, data with
  | inr e, Some image => validate_loop image e (Z.to_nat (e_phnum e)) 0 false
  | inl r, _ => r
  | _, None => - ENOEXEC
  end.

Definition elf_get_entry (data : option (list Z)) : Z :=
  match data with
  | None => 0
  | Some image =>
      if negb (bool_decide (take 4 image = [0x7f; 0x45; 0x4c; 0x46])) then 0
      else if image_at image 4 =? ELF_CLASS_32 then field image 24 4
      else if image_at image 4 =? ELF_CLASS_64 then field image 24 8
      else 0
  end.

Section Load.
Context {T : Type} `{PagingOps T}.
Implicit Types (st : vmm T) (c : cref) (loaded : list Z).

(** The page loop of a segment. [loaded] is [loaded_pages], the last first. *)
Fixpoint load_pages (fuel : nat) c (flags page page_end : Z) st loaded : option (vmm T * list Z * Z) :=
  match fuel with
  | O => None
  | S fuel' =>
      if page_end <=? page then Some (st, loaded, 0)
      else if negb (vmm_resolve st c page =? 0) then load_pages fuel' c flags (page + PAGE_SIZE) page_end st loaded
      else if (ELF_MAX_LOADED_PAGES <=? length loaded)%nat then Some (st, loaded, - E2BIG)
      else
        let '(st, result, _) := vmm_map_allocated (Some c) page flags st in
        if result <? 0 then Some (st, loaded, result)
        else load_pages fuel' c flags (page + PAGE_SIZE) page_end st (page :: loaded)
  end.

(** The copy loop of a segment, from [copied] on. *)
Fixpoint copy_file (fuel : nat) (image : list Z) c (segment_start offset filesz copied : Z) st : option (vmm T * Z) :=
  match fuel with
  | O => None
  | S fuel' =>
      if filesz <=? copied then Some (st, 0)
      else
        let destination := u64 (segment_start + copied) in
        let physical := vmm_resolve st c destination in
        if physical =? 0 then Some (st, - EFAULT)
        else
          let page_remaining := PAGE_SIZE - (destination .& (PAGE_SIZE - 1)) in
          let chunk := if page_remaining <? filesz - copied then page_remaining else filesz - copied in
          let bytes := take (Z.to_nat chunk) (drop (Z.to_nat (offset + copied)) image) in
          copy_file fuel' image c segment_start offset filesz (copied + chunk) (set_ram (mem_store (ram st) physical bytes) st)
  end.

Definition segment_flags (s : parsed_segment) : Z :=
  let flags := VMM_PRESENT .| VMM_USER in
  let flags := if has (p_flags s) ELF_PF_W then flags .| VMM_WRITABLE else flags in
  if has (p_flags s) ELF_PF_X then flags .| VMM_EXECUTABLE else flags.

Definition load_segment (fuel : nat) (image : list Z) c (bias : Z) (s : parsed_segment) st loaded
    : option (vmm T * list Z * Z) :=
  let segment_start := u64 (p_vaddr s + bias) in
  if segment_start <? bias then Some (st, loaded, - EOVERFLOW)
  else
    let page_start := segment_start .& Z.lnot (PAGE_SIZE - 1) in
    let segment_end := u64 (segment_start + p_memsz s) in
    if segment_end <? segment_start then Some (st, loaded, - EOVERFLOW)
    else
      let page_end := u64 (segment_end + PAGE_SIZE - 1) .& Z.lnot (PAGE_SIZE - 1) in
      match load_pages fuel c (segment_flags s) page_start page_end st loaded with
      | None => None
      | Some (st, loaded, result) =>
          if result <? 0 then Some (st, loaded, result)
          else
            match copy_file fuel image c segment_start (p_offset s) (p_filesz s) 0 st with
            | None => None
            | Some (st, result) => Some (st, loaded, result)
            end
      end.

(** The loop over the program headers: a negative result is [goto rollback]. *)
Fixpoint load_loop (fuel : nat) (image : list Z) (e : parsed_elf) c (bias : Z) (n : nat) (i : Z) (loadable : bool) st loaded
    : option (vmm T * list Z * Z) :=
  match n with
  | O =>
      Some (st, loaded,
        if negb loadable then - ENOEXEC
        else if u64 (e_entry e + bias) <? bias then - EOVERFLOW
        else 0)
  | S n' =>
      match parse_segment image e i with
      | inl r => Some (st, loaded, r)
      | inr s =>
          if negb (p_type s =? ELF_PT_LOAD) || (p_memsz s =? 0)
          then load_loop fuel image e c bias n' (i + 1) loadable st loaded
          else
            match load_segment fuel image c bias s st loaded with
            | None => None
            | Some (st, loaded, result) =>
                if result <? 0 then Some (st, loaded, result)
                else load_loop fuel image e c bias n' (i + 1) true st loaded
            end
      end
  end.

Definition rollback c loaded st : vmm T := foldl (fun st page => (vmm_unmap (Some c) page st).1) st loaded.

(** The result and, when it is 0, [proc->entry_point]. [c] is [proc->mm]. *)
Definition elf_load (fuel : nat) (data : option (list Z)) (c : option cref) st : option (vmm T * Z * Z) :=
  match c with
  | None => Some (st, - EINVAL, 0)
  | Some c =>
      match parse_header data, data with
      | inl r, _ => Some (st, r, 0)
      | inr _, None => Some (st, - ENOEXEC, 0)
      | inr e, Some image =>
          let bias := if e_type e =? ELF_TYPE_DYN then ELF_DYN_BASE else 0 in
          match load_loop fuel image e c bias (Z.to_nat (e_phnum e)) 0 false st [] with
          | None => None
          | Some (st, loaded, result) =>
              if result <? 0 then Some (rollback c loaded st, result, 0)
              else Some (st, 0, u64 (e_entry e + bias))
          end
      end
  end.
End Load.

(** ** The program an image describes *)

(** A segment laid over what is there: its file bytes, zeros in the rest of
    its pages where nothing was. *)
Definition place (image : list Z) (bias : Z) (s : parsed_segment) (f : Z -> option Z) (x : Z) : option Z :=
  let start := p_vaddr s + bias in
  if (start <=? x) && (x <? start + p_filesz s) then Some (image_at image (p_offset s + (x - start)))
  else if (page_of start <=? x) && (page_of x <? start + p_memsz s) then Some (default 0 (f x))
  else f x.

Fixpoint program_loop (image : list Z) (e : parsed_elf) (bias : Z) (n : nat) (i : Z) (f : Z -> option Z) : Z -> option Z :=
  match n with
  | O => f
  | S n' =>
      match parse_segment image e i with
      | inl _ => f
      | inr s =>
          program_loop image e bias n' (i + 1)
            (if (p_type s =? ELF_PT_LOAD) && negb (p_memsz s =? 0) then place image bias s f else f)
      end
  end.

Definition load_bias (e : parsed_elf) : Z := if e_type e =? ELF_TYPE_DYN then ELF_DYN_BASE else 0.

(** The memory of the program: the byte at each address, or no page. *)
Definition program (image : list Z) (e : parsed_elf) : Z -> option Z :=
  program_loop image e (load_bias e) (Z.to_nat (e_phnum e)) 0 (fun _ => None).

(** ** Parsing stays inside the image *)
Definition bytes_ok (image : list Z) : Prop := Forall (fun b => 0 <= b < 256) image.

Lemma image_at_byte image k : bytes_ok image -> 0 <= image_at image k < 256.
Proof.
  intros Hb. unfold image_at. destruct (image !! Z.to_nat k) eqn:E; cbn; [|lia].
  by apply (Forall_lookup_1 _ _ _ _ Hb E).
Qed.

Lemma field_bounds image off n : bytes_ok image -> 0 <= field image off n < 256 ^ Z.of_nat n.
Proof.
  intros Hb. revert off. induction n as [|n IH]; intros off; cbn [field]; [lia|].
  pose proof (image_at_byte image off Hb). specialize (IH (off + 1)).
  rewrite Nat2Z.inj_succ, Z.pow_succ_r by lia. lia.
Qed.

Definition header_ok (image : list Z) (e : parsed_elf) : Prop :=
  64 <= size_of image /\ elf_class e = ELF_CLASS_64 /\ (e_type e = ELF_TYPE_EXEC \/ e_type e = ELF_TYPE_DYN) /\
  56 <= e_phentsize e < 2 ^ 16 /\ 1 <= e_phnum e <= ELF_MAX_PROGRAM_HEADERS /\ 0 <= e_entry e < 2 ^ 64 /\
  0 <= e_phoff e /\ e_phoff e + e_phentsize e * e_phnum e <= size_of image.

Lemma parse_header_ok image e : bytes_ok image -> parse_header (Some image) = inr e -> header_ok image e.
Proof.
  intros Hb E. unfold parse_header in E. destruct (size_of image <? 16); [done|].
  destruct (negb (bool_decide _) || _ || _); [done|].
  destruct (image_at image 4 =? ELF_CLASS_32) eqn:E32.
  { destruct (size_of image <? 52); [done|]. destruct (negb _ || _ || _); [done|]. cbn [elf_class] in E.
    apply Z.eqb_eq in E32. rewrite E32 in E. done. }
  destruct (image_at image 4 =? ELF_CLASS_64) eqn:E64; [|done].
  destruct (Z.ltb_spec (size_of image) 64); [done|].
  pose proof (field_bounds image 54 2 Hb). pose proof (field_bounds image 56 2 Hb).
  pose proof (field_bounds image 24 8 Hb). pose proof (field_bounds image 32 8 Hb).
  generalize dependent (field image 54 2). generalize dependent (field image 56 2).
  generalize dependent (field image 24 8). generalize dependent (field image 32 8). generalize dependent (field image 16 2). intros.
  destruct (negb (field image 20 4 =? 1) || _ || _) eqn:E1; [done|]. cbn [elf_class e_type e_machine e_entry e_phoff e_phentsize e_phnum] in E.
  destruct (negb (image_at image 4 =? ELF_CLASS_64)); [done|]. destruct (_ || negb (range_fits _ _ _)) eqn:E2; [done|].
  injection E as <-. unfold header_ok. cbn [elf_class e_type e_machine e_entry e_phoff e_phentsize e_phnum].
  unfold range_fits in E2. change (256 ^ Z.of_nat 2) with (2 ^ 16) in *. change (256 ^ Z.of_nat 8) with (2 ^ 64) in *.
  apply Z.eqb_eq in E64. repeat rewrite orb_false_iff in E2. repeat rewrite orb_false_iff in E1. lia.
Qed.

Definition segment_ok (image : list Z) (e : parsed_elf) (i : Z) (s : parsed_segment) : Prop :=
  u64 (e_phoff e + i * e_phentsize e) = e_phoff e + i * e_phentsize e /\
  e_phoff e + i * e_phentsize e + 56 <= size_of image /\
  0 <= p_vaddr s /\ 0 <= p_offset s /\ 0 <= p_filesz s /\ 0 <= p_memsz s /\
  (p_type s = ELF_PT_LOAD ->
     p_filesz s <= p_memsz s /\ p_offset s + p_filesz s <= size_of image /\ p_vaddr s + p_memsz s < 2 ^ 64).

Lemma parse_segment_ok image e i s :
  bytes_ok image -> header_ok image e -> size_of image < 2 ^ 64 -> 0 <= i < e_phnum e ->
  parse_segment image e i = inr s -> segment_ok image e i s.
Proof.
  intros Hb He Hsz Hi E. destruct He as (H64 & Hcl & _ & Hps & Hpn & _ & Hpo & Hend). unfold parse_segment in E.
  assert (Hoff : u64 (e_phoff e + i * e_phentsize e) = e_phoff e + i * e_phentsize e /\
                 e_phoff e + i * e_phentsize e + e_phentsize e <= size_of image).
  { assert (i * e_phentsize e + e_phentsize e <= e_phentsize e * e_phnum e) by nia.
    assert (0 <= i * e_phentsize e) by nia. split; [|lia]. apply u64_small. unfold is_u64. lia. }
  destruct Hoff as [Hoff Hfit]. rewrite Hoff in E. set (o := e_phoff e + i * e_phentsize e) in *.
  destruct (negb (range_fits _ _ _)); [done|]. rewrite Hcl in E. change (ELF_CLASS_64 =? ELF_CLASS_32) with false in E. cbv iota in E.
  pose proof (field_bounds image (o + 8) 8 Hb). pose proof (field_bounds image (o + 16) 8 Hb).
  pose proof (field_bounds image (o + 32) 8 Hb). pose proof (field_bounds image (o + 40) 8 Hb).
  change (256 ^ Z.of_nat 8) with (2 ^ 64) in *.
  generalize dependent (field image (o + 8) 8). generalize dependent (field image (o + 16) 8).
  generalize dependent (field image (o + 32) 8). generalize dependent (field image (o + 40) 8). intros memsz ? filesz ? vaddr ? offset.
  generalize (field image o 4), (field image (o + 4) 4). intros ptype pflags. intros. destruct (_ && _) eqn:Ebad; [done|]. injection E as <-. unfold segment_ok.
  cbn [p_type p_flags p_offset p_vaddr p_filesz p_memsz] in *. split; [done|]. split; [lia|]. do 4 (split; [lia|]).
  intros Ht. rewrite Ht, Z.eqb_refl in Ebad. cbn [andb] in Ebad. unfold range_fits in Ebad. split; [lia|]. split; [lia|].
  assert (~ u64 (vaddr + memsz) < vaddr) by lia. unfold u64 in *. dlia.
Qed.

(** ** Loading *)
Section Loading.
Context {T : Type} `{Paging T}.
Variables (extra : Z -> Z) (st0 : vmm T) (i : nat) (s0 : slot).
Implicit Types (st : vmm T) (m : mapping) (loaded : list Z).

(** A state in the middle of a load into the empty slot [i] of [st0]. *)
Record loading loaded st : Prop := {
  ld_inv : vm_inv extra st;
  ld_slot : exists ms, g_slots st = <[i := map_mappings (fun _ => ms) s0]> (g_slots st0) /\ (virt <$> ms) ≡ₚ loaded;
  ld_sole : forall m, maps st (SlotCtx i) m -> owners st (phys m) = 1;
  ld_bytes : forall j s m k, j <> i -> g_slots st0 !! j = Some s -> m ∈ mappings s -> 0 <= k < PAGE_SIZE ->
    ram st (phys m + k) = ram st0 (phys m + k);
  ld_rest : running st = running st0 /\ g_current_context st = g_current_context st0
}.

Hypothesis (Hs0 : g_slots st0 !! i = Some s0) (Hu0 : used s0 = true).

Lemma loading_at loaded st :
  loading loaded st -> exists ms, g_slots st !! i = Some (map_mappings (fun _ => ms) s0) /\ (virt <$> ms) ≡ₚ loaded /\
  g_slots st = <[i := map_mappings (fun _ => ms) s0]> (g_slots st0).
Proof.
  intros Hl. destruct (ld_slot _ _ Hl) as (ms & Hg & Hp). exists ms. rewrite Hg. split; [|done].
  apply list_lookup_insert_eq. by eapply lookup_lt_Some.
Qed.

Lemma loading_maps loaded st v :
  loading loaded st -> v ∈ loaded <-> exists m, maps st (SlotCtx i) m /\ virt m = v.
Proof.
  intros Hl. destruct (loading_at _ _ Hl) as (ms & Hg & Hp & _). rewrite <- Hp, list_elem_of_fmap. split.
  - intros (m & -> & Hm). exists m. split; [|done]. eexists i, _. by split_and!.
  - intros (m & (i' & s & [= <-] & Hs & Hm) & <-). rewrite Hg in Hs. injection Hs as <-. by exists m.
Qed.

Lemma loading_length loaded st : loading loaded st -> NoDup loaded /\ (length loaded <= VMM_MAX_MAPPINGS)%nat.
Proof.
  intros Hl. destruct (loading_at _ _ Hl) as (ms & Hg & Hp & _). pose proof (vi_slot _ _ (ld_inv _ _ Hl) i _ Hg Hu0) as Hok.
  rewrite <- Hp. split; [apply Hok|]. rewrite length_fmap. apply Hok.
Qed.

Lemma loading_resolve loaded st x :
  loading loaded st -> vmm_resolve st (SlotCtx i) x = 0 <-> page_of x ∉ loaded.
Proof.
  intros Hl. rewrite (loading_maps _ _ _ Hl). split.
  - intros E (m & Hm & Hv). by apply (resolve_absent _ _ _ _ (ld_inv _ _ Hl) E m Hm).
  - intros Hno. destruct (decide (vmm_resolve st (SlotCtx i) x = 0)) as [|E]; [done|].
    destruct (Hno (resolve_present _ _ _ _ (ld_inv _ _ Hl) E)).
Qed.

Lemma loading_view loaded st x : loading loaded st -> is_Some (view st (SlotCtx i) x) <-> page_of x ∈ loaded.
Proof.
  intros Hl. pose proof (loading_resolve _ _ x Hl) as Hr. unfold view.
  destruct (Z.eqb_spec (vmm_resolve st (SlotCtx i) x) 0) as [E|E].
  - split; [by intros [? ?]|]. intros Hin. by apply Hr in E.
  - split; [|done]. intros _. destruct (decide (page_of x ∈ loaded)); [done|]. exfalso. apply E. by apply Hr.
Qed.

(** A step that changes the bytes of no mapping of [st0]'s other slots. *)
Lemma bytes_trans st st' :
  (forall j s m k, j <> i -> g_slots st0 !! j = Some s -> m ∈ mappings s -> 0 <= k < PAGE_SIZE ->
     ram st (phys m + k) = ram st0 (phys m + k)) ->
  (forall j, j <> i -> g_slots st !! j = g_slots st0 !! j) -> pages_same st st' ->
  forall j s m k, j <> i -> g_slots st0 !! j = Some s -> m ∈ mappings s -> 0 <= k < PAGE_SIZE ->
     ram st' (phys m + k) = ram st0 (phys m + k).
Proof.
  intros Hb Hg Hp j s m k Hj Hs Hm Hk. rewrite <- (Hb j s m k) by done. apply (Hp j s); [by rewrite Hg|done|done].
Qed.

Lemma loading_map loaded st st' v fl r a :
  loading loaded st -> page_aligned v -> 0 <= v < 2 ^ 47 -> v ∉ loaded ->
  vmm_map_allocated (Some (SlotCtx i)) v fl st = (st', r, a) ->
  (r < 0 /\ loading loaded st') \/
  (r = 0 /\ loading (v :: loaded) st' /\
  forall x, view st' (SlotCtx i) x = if page_of x =? v then Some 0 else view st (SlotCtx i) x).
Proof.
  intros Hl Hal Hv Hno E. pose proof (ld_inv _ _ Hl) as Hi.
  assert (Hr0 : vmm_resolve st (SlotCtx i) v = 0) by (apply (loading_resolve _ _ _ Hl); by rewrite page_of_aligned).
  destruct (map_fresh_keeps _ _ _ _ _ _ _ _ Hi Hv Hr0 E) as (Hi' & Hk & _ & Hcase).
  destruct (loading_at _ _ Hl) as (ms & Hg & Hp & Hgs).
  assert (Hothers : forall j, j <> i -> g_slots st !! j = g_slots st0 !! j).
  { intros j Hj. rewrite Hgs. by apply list_lookup_insert_ne. }
  destruct (vmm_map_allocated_inv _ _ _ _ _ _ _ _ Hi Hv (slot_flags _ _) E) as (Hrun & Hcur & Hps &
    [(Hr & _ & Hgs')|[(_ & Hkc & _)|(i' & s & s' & o & -> & [= <-] & Hs & _ & Hva & Hent & Hgs' & _ & Hown & _)]]).
  - left. split; [done|]. constructor; [done| | | |].
    + exists ms. by rewrite Hgs'.
    + intros m Hm. unfold owners. rewrite Hgs'. apply (ld_sole _ _ Hl). by eapply maps_same.
    + eapply bytes_trans; [apply Hl|done|done].
    + rewrite Hrun, Hcur. apply Hl.
  - done.
  - right. split; [done|]. destruct Hcase as [[? _]|(_ & _ & Hmv & Hview)]; [lia|].
    rewrite Hg in Hs. injection Hs as <-. destruct o as [old|].
    { inversion Hent as [|j old' Hj Hvo]. exfalso. apply Hno. apply (loading_maps _ _ _ Hl). exists old. split; [|done].
      eexists i, _. split; [done|]. split; [exact Hg|]. by eapply list_elem_of_lookup_2. }
    destruct (entered_facts _ _ _ _ _ (vi_slot _ _ Hi i _ Hg Hu0) Hent) as (_ & _ & _ & _ & Hmem & Hso & _).
    assert (Hs' : s' = map_mappings (fun _ => ms ++ [Mapping v a (fl .| VMM_PRESENT) true]) s0) by (by inversion Hent).
    assert (Hat : g_slots st' !! i = Some s') by (rewrite Hgs'; apply list_lookup_insert_eq; by eapply lookup_lt_Some).
    assert (Howners : forall b, owners st' b = owners st b + owns b (Mapping v a (fl .| VMM_PRESENT) true)).
    { intros b. unfold owners. rewrite Hgs', (owners_insert _ _ _ _ _ Hg), Hso. lia. }
    assert (Hold : forall m, maps st' (SlotCtx i) m -> m = Mapping v a (fl .| VMM_PRESENT) true \/ (maps st (SlotCtx i) m /\ virt m <> v)).
    { intros m (i' & s2 & [= <-] & Hs2 & Hm). rewrite Hat in Hs2. injection Hs2 as <-.
      destruct (Hmem m Hm) as [[Hin Hne]| ->]; [right|by left]. split; [|done]. eexists i, _. split; [done|]. by split; [exact Hg|]. }
    split.
    + constructor; [done| | | |].
      * eexists. split; [rewrite Hgs', Hgs, list_insert_insert_eq, Hs'; reflexivity|].
        rewrite fmap_app. cbn. rewrite Permutation_app_comm. cbn. by constructor.
      * intros m Hm. rewrite Howners. unfold owns. destruct (Hold m Hm) as [-> |[Hm' _]]; cbn [phys].
        -- rewrite Hown, Z.eqb_refl. done.
        -- rewrite (ld_sole _ _ Hl m Hm'). destruct (Z.eqb_spec a (phys m)) as [->|]; [|lia].
           pose proof (ld_sole _ _ Hl m Hm'). lia.
      * eapply bytes_trans; [apply Hl|done|done].
      * rewrite Hrun, Hcur. apply Hl.
    + intros x. pose proof (page_of_bounds x) as Hpb. pose proof (page_of_eq x) as Hpe.
      destruct (Z.eqb_spec (page_of x) v) as [<-|Hne].
      * replace x with (page_of x + (x - page_of x)) at 1 by lia. apply Hview. lia.
      * destruct (view st (SlotCtx i) x) as [b|] eqn:Ev; [by apply Hk|].
        destruct (view st' (SlotCtx i) x) as [b|] eqn:Ev'; [|done]. exfalso.
        apply (view_spec _ _ _ _ _ Hi') in Ev' as (m & Hm & Hvm & _). destruct (Hold m Hm) as [-> |[Hm' _]]; [cbn in Hvm; congruence|].
        assert (view st (SlotCtx i) x = Some (ram st (phys m + x mod PAGE_SIZE))) as Hsome; [|congruence].
        apply (view_spec _ _ _ _ _ Hi). by exists m.
Qed.

(** Writing into a page of the slot. *)
Lemma loading_store loaded st x bs :
  loading loaded st -> page_of x ∈ loaded -> Z.of_nat (length bs) <= PAGE_SIZE - x mod PAGE_SIZE ->
  let st' := set_ram (mem_store (ram st) (vmm_resolve st (SlotCtx i) x) bs) st in
  vmm_resolve st (SlotCtx i) x <> 0 /\ loading loaded st' /\
  forall y, view st' (SlotCtx i) y = if (x <=? y) && (y <? x + Z.of_nat (length bs)) then bs !! Z.to_nat (y - x) else view st (SlotCtx i) y.
Proof.
  intros Hl Hin Hlen st'. pose proof (ld_inv _ _ Hl) as Hi. destruct (proj1 (loading_maps _ _ _ Hl) Hin) as (m & Hm & Hv).
  destruct (resolve_maps _ _ _ _ _ Hi Hm Hv) as (Hr & _ & Hne). split; [done|].
  pose proof (ld_sole _ _ Hl m Hm) as Hone.
  destruct (store_sole_views _ _ _ _ _ bs Hi Hm Hv Hone Hlen) as (Hi' & Hout & Hins). rewrite <- Hr in Hi', Hout, Hins. fold st' in Hi', Hout, Hins.
  assert (Hl' : loading loaded st').
  { constructor; [done|apply Hl|apply Hl| |apply Hl]. intros j s m' k Hj Hs Hm' Hk.
    rewrite <- (ld_bytes _ _ Hl j s m' k) by done. unfold st'. cbn [set_ram ram]. unfold mem_store.
    destruct (_ && _) eqn:Erange; [exfalso|done].
    destruct (loading_at _ _ Hl) as (ms & Hg & _ & Hgs).
    assert (Hsj : g_slots st !! j = Some s) by (by rewrite Hgs, list_lookup_insert_ne).
    destruct (maps_used _ _ _ _ _ Hi Hsj Hm') as [_ Hmo']. destruct (mo_phys _ _ _ Hmo') as [_ [Hal' _]].
    destruct Hm as (i' & s1 & [= <-] & Hs1 & Hm1). destruct (maps_used _ _ _ _ _ Hi Hs1 Hm1) as [_ Hmo].
    destruct (mo_phys _ _ _ Hmo) as [_ [Hal _]]. rewrite Hr in Erange. pose proof (offset_bounds x).
    destruct (decide (phys m' = phys m)) as [Heq|Hneq].
    - apply list_elem_of_lookup in Hm' as [k1 Hk1], Hm1 as [k2 Hk2].
      by destruct (sole_owner _ _ _ _ _ _ _ m m' Hone Hs1 Hsj Hk2 Hk1 Heq) as [<- _].
    - unfold page_aligned, PAGE_SIZE in *. clear - Erange Hneq Hal Hal' Hk Hlen H2. dlia. }
  split; [done|]. intros y. destruct (_ && _) eqn:Ey.
  - destruct (bs !! Z.to_nat (y - x)) as [b|] eqn:Eb; [|apply lookup_ge_None in Eb; lia].
    replace y with (x + Z.of_nat (Z.to_nat (y - x))) at 1 by lia. by apply Hins.
  - destruct (view st (SlotCtx i) y) as [b|] eqn:Ev; [apply Hout; [done|]; intros [_ ?]; lia|].
    destruct (view st' (SlotCtx i) y) as [b|] eqn:Ev'; [|done]. exfalso.
    assert (is_Some (view st (SlotCtx i) y)) as [? ?]; [|congruence].
    apply (loading_view _ _ _ Hl), (loading_view _ _ _ Hl'). by eexists.
Qed.

(** *** The loops of a segment *)

(** The pages from [a] to [b] are loaded. *)
Definition covered (a b : Z) loaded : Prop := forall q, page_aligned q -> a <= q < b -> q ∈ loaded.

Lemma covered_length a b loaded st :
  loading loaded st -> page_aligned a -> page_aligned b -> covered a b loaded -> (b - a) / PAGE_SIZE <= Z.of_nat VMM_MAX_MAPPINGS.
Proof.
  intros Hl Ha Hb Hc. destruct (loading_length _ _ Hl) as [_ Hlen].
  set (n := Z.to_nat ((b - a) / PAGE_SIZE)).
  assert (Hsub : (fun k => a + Z.of_nat k * PAGE_SIZE) <$> seq 0 n ⊆+ loaded).
  { apply NoDup_submseteq.
    - apply NoDup_fmap_2_strong, NoDup_seq. intros k1 k2 _ _. unfold PAGE_SIZE. lia.
    - intros q Hq. apply list_elem_of_fmap in Hq as (k & -> & Hk). apply elem_of_seq in Hk.
      apply Hc; unfold page_aligned, n, PAGE_SIZE in *; clear - Ha Hb Hk; dlia. }
  apply submseteq_length in Hsub. rewrite length_fmap, length_seq in Hsub. unfold n in Hsub. lia.
Qed.

Definition ELF_FUEL : nat := 514.

Lemma load_pages_spec fl a b fuel : forall page st loaded,
  loading loaded st -> page_aligned a -> page_aligned page -> page_aligned b -> 0 <= a <= page -> b <= 2 ^ 47 ->
  covered a page loaded -> Z.of_nat ELF_FUEL <= (page - a) / PAGE_SIZE + Z.of_nat fuel ->
  exists st' loaded' r, load_pages fuel (SlotCtx i) fl page b st loaded = Some (st', loaded', r) /\ r <= 0 /\
    loading loaded' st' /\
    (r = 0 -> covered a b loaded' /\
       forall x, view st' (SlotCtx i) x =
         if (page <=? x) && (page_of x <? b) then Some (default 0 (view st (SlotCtx i) x)) else view st (SlotCtx i) x).
Proof.
  induction fuel as [|fuel IH]; intros page st loaded Hl Ha Hp Hb Hle Hb47 Hc Hf.
  { pose proof (covered_length _ _ _ _ Hl Ha Hp Hc). unfold ELF_FUEL, VMM_MAX_MAPPINGS in *. lia. }
  cbn [load_pages]. destruct (Z.leb_spec b page) as [Hend|Hlt].
  { exists st, loaded, 0. split; [done|]. split; [done|]. split; [done|]. intros _. split.
    - intros q Hq Hr. apply Hc; [done|lia].
    - intros x. pose proof (page_of_bounds x). pose proof (page_of_is_aligned x). replace (_ && _) with false; [done|].
      unfold page_aligned, PAGE_SIZE in *. clear - H2 H3 Hend Hp. dlia. }
  assert (Hp' : page_aligned (page + PAGE_SIZE)) by (unfold page_aligned, PAGE_SIZE in *; clear - Hp; dlia).
  assert (Hf' : Z.of_nat ELF_FUEL <= (page + PAGE_SIZE - a) / PAGE_SIZE + Z.of_nat fuel).
  { clear IH. unfold PAGE_SIZE in *. clear - Hf. dlia. }
  assert (Hview : forall x, (page <=? x) && (page_of x <? b) = (page_of x =? page) || (page + PAGE_SIZE <=? x) && (page_of x <? b)).
  { intros x. pose proof (page_of_bounds x). pose proof (page_of_is_aligned x). clear IH. unfold page_aligned, PAGE_SIZE in *.
    clear - H2 H3 Hp Hlt. dlia. }
  assert (Hne : forall x, (page_of x =? page) = true -> (page + PAGE_SIZE <=? x) = false).
  { intros x Hx. pose proof (page_of_bounds x). lia. }
  destruct (Z.eqb_spec (vmm_resolve st (SlotCtx i) page) 0) as [E0|E0]; cbn [negb].
  - apply (loading_resolve _ _ _ Hl) in E0. rewrite page_of_aligned in E0 by done.
    destruct (_ <=? _)%nat; [by exists st, loaded, (- E2BIG)|].
    destruct (vmm_map_allocated _ page fl st) as [[st1 r1] a1] eqn:Em.
    destruct (loading_map _ _ _ _ _ _ _ Hl Hp ltac:(lia) E0 Em) as [[Hr Hl1]|(-> & Hl1 & Hv1)].
    { destruct (Z.ltb_spec r1 0); [|lia]. exists st1, loaded, r1. split_and!; [done|lia|done|lia]. }
    change (0 <? 0) with false. cbv iota. destruct (IH (page + PAGE_SIZE) st1 (page :: loaded) Hl1) as (st' & l' & r & E & Hr & Hl' & Hok); try done.
    { unfold PAGE_SIZE in *. lia. }
    { intros q Hq Hqr. destruct (decide (q = page)) as [->|]; [left|right]. apply Hc; [done|].
      clear IH. unfold page_aligned, PAGE_SIZE in *. clear - Hq Hqr n Hp. dlia. }
    exists st', l', r. split_and!; [done|done|done|]. intros Hr0. destruct (Hok Hr0) as [Hc' Hv']. split; [done|]. intros x.
    rewrite Hv', Hview. specialize (Hne x). rewrite Hv1. destruct (page_of x =? page) eqn:Epx; [|done].
    rewrite Hne by done. cbn [orb andb]. destruct (view st (SlotCtx i) x) as [b'|] eqn:Ev; [|done].
    exfalso. apply E0. apply Z.eqb_eq in Epx. rewrite <- Epx. apply (loading_view _ _ _ Hl). by eexists.
  - assert (Hin : page ∈ loaded).
    { destruct (decide (page ∈ loaded)); [done|]. exfalso. apply E0, (loading_resolve _ _ _ Hl). by rewrite page_of_aligned. }
    destruct (IH (page + PAGE_SIZE) st loaded Hl) as (st' & l' & r & E & Hr & Hl' & Hok); try done.
    { unfold PAGE_SIZE in *. lia. }
    { intros q Hq Hqr. destruct (decide (q = page)) as [->|]; [done|]. apply Hc; [done|].
      clear IH. unfold page_aligned, PAGE_SIZE in *. clear - Hq Hqr n Hp. dlia. }
    exists st', l', r. split_and!; [done|done|done|]. intros Hr0. destruct (Hok Hr0) as [Hc' Hv']. split; [done|]. intros x.
    rewrite Hv', Hview. specialize (Hne x). destruct (page_of x =? page) eqn:Epx; [|done].
    rewrite Hne by done. cbn [orb andb]. apply Z.eqb_eq in Epx. rewrite <- Epx in Hin. apply (loading_view _ _ _ Hl) in Hin as [b' ->]. done.
Qed.

Lemma copy_file_spec image start offset filesz a b loaded fuel : forall copied st,
  loading loaded st -> covered a b loaded -> 0 <= a -> a <= page_of start -> start + filesz <= b -> b <= 2 ^ 47 ->
  0 <= offset -> offset + filesz <= size_of image -> 0 <= copied <= filesz ->
  copy_fuel (start + copied) (filesz - copied) <= Z.of_nat fuel ->
  exists st', copy_file fuel image (SlotCtx i) start offset filesz copied st = Some (st', 0) /\ loading loaded st' /\
    forall y, view st' (SlotCtx i) y =
      if (start + copied <=? y) && (y <? start + filesz) then Some (image_at image (offset + (y - start))) else view st (SlotCtx i) y.
Proof.
  induction fuel as [|fuel IH]; intros copied st Hl Hc Ha Has Hb Hb47 Ho Hoe Hco Hf.
  { exfalso. unfold copy_fuel in Hf. destruct (Z.eqb_spec (filesz - copied) 0); [lia|].
    pose proof (Z.div_pos ((start + copied) mod PAGE_SIZE + (filesz - copied) - 1) PAGE_SIZE). pose proof (offset_bounds (start + copied)).
    unfold PAGE_SIZE in *. lia. }
  cbn [copy_file]. destruct (Z.leb_spec filesz copied) as [Hend|Hlt].
  { exists st. split; [done|]. split; [done|]. intros y. replace (_ && _) with false by lia. done. }
  pose proof (page_of_bounds start) as Hps. set (x := start + copied) in *.
  assert (Hx : u64 x = x) by (apply u64_small; unfold is_u64; lia). rewrite Hx, offset_eq.
  assert (Hin : page_of x ∈ loaded).
  { apply Hc; [apply page_of_is_aligned|]. pose proof (page_of_bounds x). pose proof (page_of_is_aligned x).
    pose proof (page_of_is_aligned start). clear IH. unfold page_aligned, PAGE_SIZE, x in *.
    clear - H2 H3 H4 Hps Hco Hlt Has Hb. dlia. }
  assert (Hchunk : (if PAGE_SIZE - x mod PAGE_SIZE <? filesz - copied then PAGE_SIZE - x mod PAGE_SIZE else filesz - copied)
                   = chunk_of x (filesz - copied)).
  { unfold chunk_of. rewrite offset_eq. split_ifs; lia. }
  rewrite Hchunk. destruct (chunk_of_bounds x (filesz - copied) ltac:(lia)) as (Hq & Hqp & _).
  destruct (copy_fuel_step x (filesz - copied) ltac:(lia)) as [Hf1 Hf2]. set (q := chunk_of x (filesz - copied)) in *.
  set (bs := take (Z.to_nat q) (drop (Z.to_nat (offset + copied)) image)).
  assert (Hlb : Z.of_nat (length bs) = q) by (unfold bs; rewrite length_take, length_drop; unfold size_of in Hoe; lia).
  destruct (loading_store _ _ _ bs Hl Hin ltac:(lia)) as (Hne & Hl1 & Hv1). rewrite Hlb in Hv1.
  destruct (Z.eqb_spec (vmm_resolve st (SlotCtx i) x) 0); [done|].
  destruct (IH (copied + q) _ Hl1 Hc Ha Has Hb Hb47 Ho Hoe ltac:(lia)) as (st' & E & Hl' & Hv').
  { replace (start + (copied + q)) with (x + q) by lia. replace (filesz - (copied + q)) with (filesz - copied - q) by lia. lia. }
  exists st'. split; [done|]. split; [done|]. intros y. rewrite Hv', Hv1.
  destruct ((start + (copied + q) <=? y) && (y <? start + filesz)) eqn:E1; [by replace ((x <=? y) && _) with true by lia|].
  destruct ((x <=? y) && (y <? x + q)) eqn:E2; [replace ((x <=? y) && _) with true by lia|replace ((x <=? y) && _) with false by lia; done].
  unfold bs. rewrite lookup_take_lt by lia. rewrite lookup_drop. unfold image_at.
  replace (Z.to_nat (offset + copied) + Z.to_nat (y - x))%nat with (Z.to_nat (offset + (y - start))) by lia.
  destruct (image !! _) eqn:Eb; [done|]. apply lookup_ge_None in Eb. unfold size_of in Hoe. lia.
Qed.

Lemma load_segment_spec image bias s loaded st :
  loading loaded st -> 0 <= bias -> 0 <= p_vaddr s -> 0 <= p_offset s -> 0 <= p_filesz s <= p_memsz s ->
  p_memsz s <> 0 -> p_offset s + p_filesz s <= size_of image -> p_vaddr s + bias + p_memsz s <= 2 ^ 47 ->
  exists st' loaded' r, load_segment ELF_FUEL image (SlotCtx i) bias s st loaded = Some (st', loaded', r) /\ r <= 0 /\
    loading loaded' st' /\
    (r = 0 -> forall x, view st' (SlotCtx i) x = place image bias s (view st (SlotCtx i)) x).
Proof.
  intros Hl Hbias Hva Ho Hfs Hms Hoe Hend. unfold load_segment. set (start := p_vaddr s + bias) in *.
  rewrite !(u64_small start) by (unfold is_u64; lia). destruct (Z.ltb_spec start bias); [lia|].
  rewrite !(u64_small (start + _)) by (unfold is_u64; lia). destruct (Z.ltb_spec (start + p_memsz s) start); [lia|].
  rewrite (u64_small (start + p_memsz s + PAGE_SIZE - 1)) by (unfold is_u64, PAGE_SIZE; lia).
  fold (page_of start) (page_of (start + p_memsz s + PAGE_SIZE - 1)).
  set (a := page_of start). set (b := page_of (start + p_memsz s + PAGE_SIZE - 1)).
  assert (Ha : page_aligned a) by apply page_of_is_aligned. assert (Hb : page_aligned b) by apply page_of_is_aligned.
  pose proof (page_of_bounds start) as Hab. pose proof (page_of_bounds (start + p_memsz s + PAGE_SIZE - 1)) as Hbb.
  fold a in Hab. fold b in Hbb.
  assert (Hrange : 0 <= a /\ start + p_memsz s <= b < start + p_memsz s + PAGE_SIZE /\ b <= 2 ^ 47).
  { unfold page_aligned, PAGE_SIZE in *. clear - Ha Hb Hab Hbb Hend Hva Hbias start. subst start. dlia. }
  destruct (load_pages_spec (segment_flags s) a b ELF_FUEL a st loaded Hl Ha Ha Hb) as (st1 & l1 & r1 & E1 & Hr1 & Hl1 & Hok1);
    [lia|lia|intros q _ ?; lia|rewrite Z.sub_diag; done|].
  rewrite E1. destruct (Z.ltb_spec r1 0); [exists st1, l1, r1; split_and!; [done|lia|done|lia]|].
  destruct (Hok1 ltac:(lia)) as [Hcov Hv1]. pose proof (covered_length _ _ _ _ Hl1 Ha Hb Hcov) as Hlen.
  destruct (copy_file_spec image start (p_offset s) (p_filesz s) a b l1 ELF_FUEL 0 st1 Hl1 Hcov) as (st2 & E2 & Hl2 & Hv2); try lia.
  { unfold copy_fuel. rewrite Z.add_0_r, Z.sub_0_r. unfold ELF_FUEL, VMM_MAX_MAPPINGS in *. destruct (Z.eqb_spec (p_filesz s) 0); [lia|].
    pose proof (page_of_eq start) as Hpe. fold a in Hpe. unfold PAGE_SIZE, page_aligned in *.
    clear - Hlen Hpe Hrange Hfs Ha Hb. dlia. }
  rewrite E2. exists st2, l1, 0. split_and!; [done|done|done|]. intros _ x. rewrite Hv2, Hv1. unfold place. fold start. rewrite Z.add_0_r.
  destruct (_ && _); [done|]. fold a. pose proof (page_of_is_aligned x) as Hxa. pose proof (page_of_bounds x).
  replace (page_of x <? b) with (page_of x <? start + p_memsz s); [done|].
  unfold page_aligned, PAGE_SIZE in *. clear - Hrange Hxa Hb. dlia.
Qed.

(** Every segment to be loaded ends in the lower half of the address space. *)
Definition in_low_half (image : list Z) (e : parsed_elf) : Prop :=
  forall k s, 0 <= k < e_phnum e -> parse_segment image e k = inr s -> p_type s = ELF_PT_LOAD ->
    p_vaddr s + load_bias e + p_memsz s <= 2 ^ 47.

Lemma parse_segment_error image e k r : parse_segment image e k = inl r -> r < 0.
Proof.
  unfold parse_segment. cbv zeta. intros E. destruct (negb _); [by injection E as <-|].
  set (s := if elf_class e =? ELF_CLASS_32 then _ else _) in E. clearbody s. destruct (_ && _); [by injection E as <-|done].
Qed.

Lemma load_loop_spec image e n : forall k loadable st loaded f,
  bytes_ok image -> header_ok image e -> size_of image < 2 ^ 64 -> in_low_half image e -> 0 <= k ->
  k + Z.of_nat n <= e_phnum e -> loading loaded st -> (forall x, view st (SlotCtx i) x = f x) ->
  exists st' loaded' r, load_loop ELF_FUEL image e (SlotCtx i) (load_bias e) n k loadable st loaded = Some (st', loaded', r) /\
    r <= 0 /\ loading loaded' st' /\
    (r = 0 -> forall x, view st' (SlotCtx i) x = program_loop image e (load_bias e) n k f x).
Proof.
  induction n as [|n IH]; intros k loadable st loaded f Hb He Hsz Hlow Hk Hn Hl Hf; cbn [load_loop program_loop].
  { eexists st, loaded, _. split; [done|]. split; [repeat case_match; done|]. by split. }
  destruct (parse_segment image e k) as [r|s] eqn:Ep.
  { exists st, loaded, r. pose proof (parse_segment_error _ _ _ _ Ep). split_and!; [done|lia|done|lia]. }
  destruct (parse_segment_ok image e k s Hb He Hsz ltac:(lia) Ep) as (_ & _ & Hva & Ho & Hfs & Hms & Hload).
  destruct (Z.eqb_spec (p_type s) ELF_PT_LOAD) as [Et|Et]; cbn [negb orb andb]; [|by apply IH; try lia].
  destruct (Z.eqb_spec (p_memsz s) 0) as [Em|Em]; cbn [negb]; [by apply IH; try lia|].
  destruct (Hload Et) as (Hfm & Hoe & _). pose proof (Hlow k s ltac:(lia) Ep Et) as Hend.
  assert (Hbias : 0 <= load_bias e) by (unfold load_bias; split_ifs; done).
  destruct (load_segment_spec image (load_bias e) s loaded st Hl Hbias Hva Ho (conj Hfs Hfm) Em Hoe Hend)
    as (st1 & l1 & r1 & E1 & Hr1 & Hl1 & Hok1).
  rewrite E1. destruct (Z.ltb_spec r1 0); [exists st1, l1, r1; split_and!; [done|lia|done|lia]|].
  apply IH; try done; try lia. intros x. rewrite Hok1 by lia. unfold place. by rewrite Hf.
Qed.

(** *** Rolling back *)
Lemma loading_unmap v loaded st : loading (v :: loaded) st -> loading loaded (vmm_unmap (Some (SlotCtx i)) v st).1.
Proof.
  intros Hl. pose proof (ld_inv _ _ Hl) as Hi. destruct (loading_at _ _ Hl) as (ms & Hg & Hp & Hgs).
  destruct (proj1 (loading_maps _ _ v Hl)) as (m & (i' & s & [= <-] & Hs & Hm) & Hv); [left|].
  destruct (maps_used _ _ _ _ _ Hi Hs Hm) as [Hu Hmo]. pose proof (mo_virt _ _ _ Hmo) as [_ Hvr]. rewrite Hv in Hvr.
  destruct (vmm_unmap _ v st) as [st' r] eqn:E.
  assert (Hlive : ctx_live st (SlotCtx i)) by (by exists s).
  destruct (vmm_unmap_inv extra st st' (SlotCtx i) v r Hi Hlive ltac:(lia) E) as (Hi' & (Hram & Hrun & Hcur & _) & [[_ Hno]|Hcase]).
  { by destruct (Hno i s m eq_refl Hs Hm). }
  destruct Hcase as (i' & s' & j & m' & rest & [= <-] & Hs' & _ & Hv' & _ & Hperm & Hgs').
  rewrite Hs in Hs', Hg. injection Hs' as <-. injection Hg as ->. cbn [map_mappings mappings] in Hperm.
  assert (Hat : g_slots st' !! i = Some (map_mappings (fun _ => rest) s0)).
  { rewrite Hgs'. apply list_lookup_insert_eq. by eapply lookup_lt_Some. }
  cbn [fst]. constructor; [done| | | |].
  - exists rest. split; [by rewrite Hgs', Hgs, list_insert_insert_eq|].
    apply (Permutation_cons_inv (a := v)). rewrite <- Hp, Hperm, <- Hv'. done.
  - intros x (i' & s & [= <-] & Hs' & Hx). rewrite Hat in Hs'. injection Hs' as <-. cbn in Hx.
    assert (Hmx : maps st (SlotCtx i) x).
    { eexists i, _. split; [done|]. split; [exact Hs|]. cbn. rewrite Hperm. by right. }
    pose proof (ld_sole _ _ Hl x Hmx) as Hone.
    pose proof (owners_of _ _ _ _ Hat Hx) as Hge. unfold owners in *. rewrite Hgs' in Hge |- *.
    rewrite (owners_insert _ _ _ _ _ Hs) in Hge |- *. pose proof (zsum_perm (owns (phys x)) _ _ Hperm) as Hz. cbn [zsum] in Hz.
    pose proof (owns_nonneg (phys x) m'). unfold slot_owners, map_mappings in *. cbn [mappings] in *. lia.
  - intros j' s m'' k Hj Hs' Hm' Hk. rewrite Hram. by apply (ld_bytes _ _ Hl j' s).
  - rewrite Hrun, Hcur. apply Hl.
Qed.

Lemma rollback_spec loaded : forall st, loading loaded st -> loading [] (rollback (SlotCtx i) loaded st).
Proof.
  unfold rollback. induction loaded as [|v loaded IH]; intros st Hl; [done|]. cbn [foldl]. by apply IH, loading_unmap.
Qed.

Lemma loading_others extra0 loaded st c x :
  vm_inv extra0 st0 -> loading loaded st -> c <> SlotCtx i -> view st c x = view st0 c x.
Proof.
  intros Hi0 Hl Hne. pose proof (ld_inv _ _ Hl) as Hi. destruct (loading_at _ _ Hl) as (ms & _ & _ & Hgs).
  assert (Hmaps : forall m, maps st c m <-> maps st0 c m).
  { intros m. split; intros (j & s & -> & Hs & Hm); exists j, s; (split; [done|]); (split; [|done]).
    - rewrite Hgs, list_lookup_insert_ne in Hs; [done|]. congruence.
    - rewrite Hgs, list_lookup_insert_ne; [done|]. congruence. }
  apply option_eq. intros b. rewrite (view_spec _ _ _ _ _ Hi), (view_spec _ _ _ _ _ Hi0).
  assert (Hb : forall m, maps st0 c m -> ram st (phys m + x mod PAGE_SIZE) = ram st0 (phys m + x mod PAGE_SIZE)).
  { intros m (j & s & -> & Hs & Hm). apply (ld_bytes _ _ Hl j s); [congruence|done|done|apply offset_bounds]. }
  split; intros (m & Hm & Hv & ->); exists m; (split; [by apply Hmaps|]); (split; [done|]);
    [apply Hb; by apply Hmaps|symmetry; by apply Hb].
Qed.

Lemma loading_start : vm_inv extra st0 -> mappings s0 = [] -> loading [] st0.
Proof.
  intros Hi Hms. constructor; [done| |intros m (j & s & [= <-] & Hs & Hm)|done|done].
  - exists []. split; [|done]. rewrite list_insert_id; [done|]. rewrite Hs0. destruct s0. cbn in *. by subst.
  - rewrite Hs0 in Hs. injection Hs as <-. rewrite Hms in Hm. by apply elem_of_nil in Hm.
Qed.

Lemma loading_none st : loading [] st -> mappings s0 = [] -> g_slots st = g_slots st0.
Proof.
  intros Hl Hms. destruct (ld_slot _ _ Hl) as (ms & -> & Hp). symmetry in Hp. apply Permutation_nil in Hp.
  apply fmap_nil_inv in Hp as ->. rewrite list_insert_id; [done|]. rewrite Hs0. destruct s0. cbn in *. by subst.
Qed.
End Loading.

(** A load that succeeds is of a valid image. *)
Lemma load_loop_validates {T} `{PagingOps T} fuel image e c bias n : forall k loadable (st st' : vmm T) loaded loaded' r,
  load_loop fuel image e c bias n k loadable st loaded = Some (st', loaded', r) -> 0 <= r ->
  validate_loop image e n k loadable = 0 /\ bias <= u64 (e_entry e + bias).
Proof.
  induction n as [|n IH]; intros k loadable st st' loaded loaded' r E Hr; cbn [load_loop validate_loop] in *.
  { injection E as <- <- <-. destruct loadable; cbn [negb] in *; [|done]. split; [done|].
    destruct (Z.ltb_spec (u64 (e_entry e + bias)) bias); done. }
  destruct (parse_segment image e k) as [r1|s] eqn:Ep.
  { simplify_eq. apply parse_segment_error in Ep. lia. }
  destruct (p_type s =? ELF_PT_LOAD); cbn [negb orb andb] in *; [|rewrite orb_false_r; by eapply IH].
  destruct (p_memsz s =? 0); cbn [negb] in *; [rewrite orb_false_r; by eapply IH|]. rewrite orb_true_r.
  destruct (load_segment _ _ _ _ _ _ _) as [[[st1 l1] r1]|]; [|done].
  destruct (Z.ltb_spec r1 0); [simplify_eq; lia|]. by eapply IH.
Qed.

Lemma validate_loop_spec image e n : forall k loadable, 
  validate_loop image e n k loadable = 0 <->
  (forall j, k <= j < k + Z.of_nat n -> exists s, parse_segment image e j = inr s) /\
  (loadable = true \/ exists j s, k <= j < k + Z.of_nat n /\ parse_segment image e j = inr s /\
     p_type s = ELF_PT_LOAD /\ p_memsz s <> 0).
Proof.
  induction n as [|n IH]; intros k loadable; cbn [validate_loop].
  { destruct loadable; split; [intros _; split; [intros; lia|by left]|done|done|intros [_ [?|(j & s & ? & _)]]; [done|lia]]. }
  destruct (parse_segment image e k) as [r|s] eqn:Ep.
  { apply parse_segment_error in Ep as Hr. split; [lia|]. intros [Hall _]. destruct (Hall k ltac:(lia)) as [s Hs]. congruence. }
  rewrite IH. split.
  - intros [Hall Hex]. split.
    + intros j Hj. destruct (decide (j = k)) as [->|]; [by exists s|]. apply Hall. lia.
    + destruct Hex as [Hl|(j & s' & Hj & Hp & Ht & Hm)]; [|right; exists j, s'; split_and!; [lia..|done|done|done]].
      apply orb_true_iff in Hl as [->|Hl]; [by left|]. right. exists k, s. split_and!; [lia..|done|lia|lia].
  - intros [Hall Hex]. split; [intros j Hj; apply Hall; lia|].
    destruct Hex as [->|(j & s' & Hj & Hp & Ht & Hm)]; [by left|]. destruct (decide (j = k)) as [->|].
    + left. rewrite Ep in Hp. injection Hp as ->. rewrite Ht. destruct (Z.eqb_spec (p_memsz s') 0); [done|]. apply orb_true_r.
    + right. exists j, s'. split_and!; [lia..|done|done|done].
Qed.

(** ** Properties *)

(** [elf_validate] accepts an image exactly when its header parses, every
    program header parses and one of them is a loadable segment that is not
    empty; everything the loader then reads lies inside the image, and no
    address it computes from the headers wraps: the file header and each program
    header, without wrap-around of their offsets, and the file bytes of each
    loadable segment, which are not more than its size in memory. *)
Theorem elf_validate_bounds image :
  bytes_ok image -> size_of image < 2 ^ 64 ->
  (elf_validate (Some image) = 0 <->
   exists e, parse_header (Some image) = inr e /\
     (forall k, 0 <= k < e_phnum e -> exists s, parse_segment image e k = inr s) /\
     exists k s, 0 <= k < e_phnum e /\ parse_segment image e k = inr s /\ p_type s = ELF_PT_LOAD /\ p_memsz s <> 0) /\
  forall e, parse_header (Some image) = inr e -> header_ok image e /\
    forall k s, 0 <= k < e_phnum e -> parse_segment image e k = inr s -> segment_ok image e k s.
Proof.
  intros Hb Hsz. split.
  - unfold elf_validate. destruct (parse_header (Some image)) as [r|e] eqn:Eh.
    + split; [|by intros (e & ? & _)]. intros ->. exfalso. unfold parse_header in Eh. by repeat case_match; simplify_eq.
    + destruct (parse_header_ok _ _ Hb Eh) as (_ & _ & _ & _ & Hn & _). rewrite validate_loop_spec, Z2Nat.id by lia. cbn.
      split; [intros [Hall [?|Hex]]; [done|by exists e]|]. intros (e' & [= <-] & Hall & Hex). split; [done|by right].
  - intros e Eh. pose proof (parse_header_ok _ _ Hb Eh) as He. split; [done|]. intros k s Hk. by apply parse_segment_ok.
Qed.

Section Theorems.
Context {T : Type} `{Paging T}.

(** The whole of [elf_load], with the state of the load it leaves. *)
Lemma elf_load_spec extra (st : vmm T) i s image :
  vm_inv extra st -> g_slots st !! i = Some s -> used s = true -> mappings s = [] ->
  bytes_ok image -> size_of image < 2 ^ 64 -> (forall e, parse_header (Some image) = inr e -> in_low_half image e) ->
  exists st' r entry loaded, elf_load ELF_FUEL (Some image) (Some (SlotCtx i)) st = Some (st', r, entry) /\
    r <= 0 /\ loading extra st i s loaded st' /\ (r < 0 -> loaded = []) /\
    (r = 0 -> elf_validate (Some image) = 0 /\ exists e, parse_header (Some image) = inr e /\ entry = e_entry e + load_bias e /\
       forall x, view st' (SlotCtx i) x = program image e x).
Proof.
  intros Hi Hs Hu Hms Hb Hsz Hlow. unfold elf_load, elf_validate. pose proof (loading_start _ _ _ _ Hs Hu Hi Hms) as Hl.
  destruct (parse_header (Some image)) as [r|e] eqn:Eh.
  { exists st, r, 0, []. assert (r < 0) by (unfold parse_header in Eh; repeat case_match; simplify_eq; done).
    split_and!; [done|lia|done|done|lia]. }
  pose proof (parse_header_ok _ _ Hb Eh) as He. pose proof He as (_ & _ & _ & _ & Hn & Hent & _). fold (load_bias e).
  destruct (load_loop_spec extra st i s Hs Hu image e (Z.to_nat (e_phnum e)) 0 false st [] (fun _ => None) Hb He Hsz (Hlow e eq_refl))
    as (st' & loaded & r & E & Hr & Hl' & Hok); [lia|lia|done| |].
  { intros x. destruct (view st (SlotCtx i) x) eqn:Ev; [exfalso|done].
    assert (page_of x ∈ []) as Hin; [|by apply elem_of_nil in Hin]. apply (loading_view extra st i s Hs [] st x Hl). by eexists. }
  rewrite E. destruct (Z.ltb_spec r 0).
  - pose proof (rollback_spec extra st i s Hs Hu loaded st' Hl') as Hl2. eexists _, r, 0, []. split_and!; [done|lia|done|done|lia].
  - assert (r = 0) as -> by lia. eexists st', 0, _, loaded. split; [done|]. split; [done|]. split; [done|]. split; [lia|]. intros _.
    destruct (load_loop_validates _ _ _ _ _ _ _ _ _ _ _ _ _ E) as [Hval Hfit]; [done|]. split; [done|].
    exists e. split; [done|]. split; [|by apply Hok].
    assert (0 <= load_bias e < 2 ^ 64) by (unfold load_bias; case_match; done). unfold u64 in *. clear - Hfit Hent H3. dlia.
Qed.

(** C8: loading an image into an address space without mappings, as exec and
    process creation do, when its segments end in the lower half of the address
    space: [elf_load] terminates (no loop takes more than [ELF_FUEL] rounds);
    on success the image is valid, the entry point is the header's plus the
    load bias, and the address space reads at every address what the program
    headers say: the bytes of the file, zeros in the rest of the pages of the
    segments, and no page elsewhere; on failure all pages loaded so far are
    unmapped and the mappings are what they were; no other address space
    changes, and the memory invariant holds in both cases. *)
Theorem elf_load_correct extra (st : vmm T) i s image :
  vm_inv extra st -> g_slots st !! i = Some s -> used s = true -> mappings s = [] ->
  bytes_ok image -> size_of image < 2 ^ 64 -> (forall e, parse_header (Some image) = inr e -> in_low_half image e) ->
  exists st' r entry, elf_load ELF_FUEL (Some image) (Some (SlotCtx i)) st = Some (st', r, entry) /\
    r <= 0 /\ vm_inv extra st' /\ (forall c x, c <> SlotCtx i -> view st' c x = view st c x) /\
    (r < 0 -> g_slots st' = g_slots st) /\
    (r = 0 -> elf_validate (Some image) = 0 /\ exists e, parse_header (Some image) = inr e /\ entry = e_entry e + load_bias e /\
       forall x, view st' (SlotCtx i) x = program image e x).
Proof.
  intros Hi Hs Hu Hms Hb Hsz Hlow.
  destruct (elf_load_spec extra st i s image Hi Hs Hu Hms Hb Hsz Hlow) as (st' & r & entry & loaded & E & Hr & Hl & Hroll & Hok).
  exists st', r, entry. split; [done|]. split; [done|]. split; [apply Hl|]. split; [intros c x; by eapply loading_others|].
  split; [|done]. intros Hneg. rewrite (Hroll Hneg) in Hl. by eapply loading_none.
Qed.
End Theorems.

(** ** Witnesses: a small program in the address space of Aspace.v *)
Definition le (n : nat) (x : Z) : list Z := (fun k => (x / 256 ^ Z.of_nat k) mod 256) <$> seq 0 n.

(** One segment: the three bytes after the headers, at 0x400ffe. *)
Definition demo_image : list Z :=
  [0x7f; 0x45; 0x4c; 0x46; 2; 1; 1] ++ replicate 9 0 ++ le 2 ELF_TYPE_EXEC ++ le 2 ELF_MACHINE_X86_64 ++ le 4 1 ++
  le 8 0x400ffe ++ le 8 64 ++ le 8 0 ++ le 4 0 ++ le 2 64 ++ le 2 56 ++ le 2 1 ++ replicate 6 0 ++
  (le 4 ELF_PT_LOAD ++ le 4 5 ++ le 8 120 ++ le 8 0x400ffe ++ le 8 0 ++ le 8 3 ++ le 8 8 ++ le 8 4096) ++ [0xf4; 0x90; 0xc3].

Definition demo_elf : parsed_elf := ParsedElf 2 2 62 0x400ffe 64 56 1.

Lemma demo_bytes_ok : bytes_ok demo_image.
Proof. unfold bytes_ok. vm_compute. repeat constructor; congruence. Qed.

Lemma demo_image_parses : parse_header (Some demo_image) = inr demo_elf.
Proof. vm_compute. reflexivity. Qed.

Lemma elf_validate_bounds_witness :
  elf_validate (Some demo_image) = 0 /\ header_ok demo_image demo_elf.
Proof.
  destruct (elf_validate_bounds demo_image demo_bytes_ok) as [Hv Hok]; [vm_compute; reflexivity|].
  split; [|exact (proj1 (Hok demo_elf demo_image_parses))].
  apply Hv. exists demo_elf. split; [exact demo_image_parses|]. split.
  - intros k Hk. assert (k = 0) as -> by (cbn in Hk; lia). eexists. vm_compute. reflexivity.
  - exists 0. eexists. split; [cbn; lia|]. split; [vm_compute; reflexivity|]. split; [reflexivity|]. discriminate.
Defined.

Lemma demo_space_inv : vm_inv (fun _ => 0) demo_space.
Proof.
  assert (Hreach : rtc (vm_step true) (vmm_init demo_start) demo_space) by (eapply rtc_l; [apply step_create|apply rtc_refl]).
  destruct (vm_reach_inv true demo_start demo_space demo_boots ltac:(done) Hreach) as (extra & Hi & Hz). eapply vm_inv_ext; [|exact Hi]. by apply Hz.
Qed.

Lemma elf_load_correct_witness :
  exists st' r entry, elf_load ELF_FUEL (Some demo_image) (Some (SlotCtx 0)) demo_space = Some (st', r, entry) /\
    (r = 0 -> entry = 0x400ffe /\ view st' (SlotCtx 0) 0x401000 = Some 0xc3 /\ view st' (SlotCtx 0) 0x401abc = Some 0).
Proof.
  destruct (elf_load_correct (fun _ => 0) demo_space 0 (the_slot demo_space 0) demo_image demo_space_inv)
    as (st' & r & entry & E & _ & _ & _ & _ & Hok).
  - vm_compute. reflexivity.
  - vm_compute. reflexivity.
  - vm_compute. reflexivity.
  - exact demo_bytes_ok.
  - vm_compute. reflexivity.
  - intros e He. rewrite demo_image_parses in He. injection He as <-. intros k s Hk Hs _.
    assert (k = 0) as -> by (cbn in Hk; lia). vm_compute in Hs. injection Hs as <-. vm_compute. discriminate.
  - exists st', r, entry. split; [exact E|]. intros Hr. destruct (Hok Hr) as (_ & e & He & Hen & Hv).
    rewrite demo_image_parses in He. injection He as <-. split; [exact Hen|]. rewrite !Hv. vm_compute. split; reflexivity.
Defined.
