(* ===== verification/Process.v ===== *)
(** * src/proc/process.c: the life of a process

    Processes over descriptor tables (Fd.v), the scheduler (Proc.v), address
    spaces (Vmm.v) and the loader (Elf.v). A process is split in two: its
    scheduling and signal fields are in the table of Proc.v, the rest is a
    [pcb] with the same index. The build is the kernel's for x86-64 (not
    [TACH_HOST_TEST]). Kernel stacks are frames, reached through their physical
    addresses as in the source; [trampoline] is the address of
    [process_trampoline] and [console] is [vfs_console()]. C strings are lists
    of bytes without the final NUL. *)
From S2P Require Import Prelude Pmm Fd Vmm Cow Aspace Elf Proc Sched.
Open Scope tach_scope.

(** ** Definitions *)
Definition PROCESS_STACK_PAGES : Z := 4.
Definition MAX_PROCESS_NAME : nat := 64.
Definition PROCESS_USER_STACK_TOP : Z := 0x7ff00000.
Definition WNOHANG : Z := 1.
Definition O_RDONLY : Z := 0.
Definition O_WRONLY : Z := 1.
Definition MAX_ARGUMENTS : nat := 16.

(** The fields of [struct process] that Proc.v does not have. [space] holds
    the fields the fault handler uses: [user_mode], [mm], the user stack and
    the program break. *)
Record pcb := Pcb {
  name : list Z;
  stack : Z;
  stack_pages : Z;
  saved_stack : Z;
  entry_point : Z;
  entry_arg : Z;
  uid : Z;
  gid : Z;
  refcount : Z;
  space : uproc;
  exec_pending : bool;
  context : user_context;
  cwd : list Z
}.

Definition zero_context : user_context := UserContext 0 0 0 (replicate 16 0).
Definition zero_pcb : pcb := Pcb [] 0 0 0 0 0 0 0 0 (Uproc false None 0 0 0 0) false zero_context [].
#[export] Instance pcb_inhabited : Inhabited pcb := populate zero_pcb.

Definition set_stack v n saved x :=
  Pcb (name x) v n saved (entry_point x) (entry_arg x) (uid x) (gid x) (refcount x) (space x) (exec_pending x) (context x) (cwd x).
Definition set_entry_point v a x :=
  Pcb (name x) (stack x) (stack_pages x) (saved_stack x) v a (uid x) (gid x) (refcount x) (space x) (exec_pending x) (context x) (cwd x).
Definition set_space v x :=
  Pcb (name x) (stack x) (stack_pages x) (saved_stack x) (entry_point x) (entry_arg x) (uid x) (gid x) (refcount x) v (exec_pending x) (context x) (cwd x).
Definition set_context v x :=
  Pcb (name x) (stack x) (stack_pages x) (saved_stack x) (entry_point x) (entry_arg x) (uid x) (gid x) (refcount x) (space x) (exec_pending x) v (cwd x).
Definition set_name v x :=
  Pcb v (stack x) (stack_pages x) (saved_stack x) (entry_point x) (entry_arg x) (uid x) (gid x) (refcount x) (space x) (exec_pending x) (context x) (cwd x).
Definition set_exec_pending v x :=
  Pcb (name x) (stack x) (stack_pages x) (saved_stack x) (entry_point x) (entry_arg x) (uid x) (gid x) (refcount x) (space x) v (context x) (cwd x).
Definition set_mm c (u : uproc) := Uproc (user_mode u) c (user_stack_top u) (user_stack_bottom u) (brk_start u) (brk_end u).

(** [strncpy(dst, src, MAX_PROCESS_NAME - 1)] into a zeroed array. *)
Definition copy_name (n : list Z) : list Z := take (MAX_PROCESS_NAME - 1) n.

(** The part of a path behind its last slash. *)
Fixpoint base_name (base rest : list Z) : list Z :=
  match rest with
  | [] => base
  | c :: rest' => base_name (if c =? 47 then rest' else base) rest'
  end.

Section Process.
Context {V W T : Type} `{EqDecision V} `{VnodeHooks V W} `{PagingOps T}.

Record system := Sys { kern : kernel V W; pcbs : list pcb; mem : vmm T }.
Implicit Types (s : system) (p : nat).

Definition map_kern f s := Sys (f (kern s)) (pcbs s) (mem s).
Definition map_mem f s := Sys (kern s) (pcbs s) (f (mem s)).
Definition pcb_of s (p : nat) : pcb := pcbs s !!! p.
Definition on_pcb (p : nat) (f : pcb -> pcb) s := Sys (kern s) (alter f p (pcbs s)) (mem s).
Definition mm_of s p : option cref := mm (space (pcb_of s p)).

(** [context->owner = pid] *)
Definition set_owner (v : Z) (c : Vmm.context) := Vmm.Context (page_table c) v (next_free c).

Context (trampoline : Z) (console : option V) (cpus : nat).

(** Seven words, all zero but the return address of the first switch. *)
Definition prepare_initial_stack (stack bytes : Z) (st : vmm T) : vmm T * Z :=
  let top := u64 (u64 (stack + bytes) .& Z.lnot 0xf) in
  let top := u64 (top - 8) in
  let frame := u64 (top - 7 * 8) in
  let st := set_ram (mem_fill (ram st) frame (7 * 8) 0) st in
  (set_ram (mem_store (ram st) (frame + 6 * 8) (le 8 trampoline)) st, frame).

Definition allocate_kernel_stack p s : system * Z :=
  if negb (stack (pcb_of s p) =? 0) then (s, 0)
  else
    let '(fr, stack) := pmm_alloc_pages PROCESS_STACK_PAGES (frames (mem s)) in
    let s := map_mem (set_frames fr) s in
    if stack =? 0 then (s, - ENOMEM)
    else
      let '(st, saved) := prepare_initial_stack stack (PROCESS_STACK_PAGES * PAGE_SIZE) (mem s) in
      (on_pcb p (set_stack stack PROCESS_STACK_PAGES saved) (map_mem (fun _ => st) s), 0).

Definition process_attach_stdio p s : system :=
  match fds_of (proc (kern s) p), console with
  | Some t, Some v =>
      let w := (fd_alloc (Some t) (Some v) O_RDONLY (fdw (kern s))).1 in
      let w := (fd_alloc (Some t) (Some v) O_WRONLY w).1 in
      let w := (fd_alloc (Some t) (Some v) O_WRONLY w).1 in
      map_kern (map_fdw (fun _ => w)) s
  | _, _ => s
  end.

Definition set_process_used (i : nat) (b : bool) (k : kernel V W) : kernel V W :=
  Kernel (procs k) (<[i := b]> (Proc.used k)) (g_current k) (g_next_pid k) (runqueues k) (switched_from k) (fdw k).
Definition take_pid (k : kernel V W) : kernel V W :=
  Kernel (procs k) (Proc.used k) (g_current k) (u32 (g_next_pid k + 1)) (runqueues k) (switched_from k) (fdw k).

(** [None] as name is the NULL pointer. *)
Definition process_create (cpu : nat) (nm : option (list Z)) s : system * option nat :=
  match nm with
  | None | Some [] => (s, None)
  | Some nm =>
      match find_from (fun i => negb (is_used (kern s) i)) 0 MAX_PROCESSES with
      | None => (s, None)
      | Some i =>
          let '(w, fds) := fd_table_create (fdw (kern s)) in
          let s := map_kern (map_fdw (fun _ => w)) s in
          match fds with
          | None => (s, None)
          | Some t =>
              let '(st, address_space) := vmm_create_context (mem s) in
              let s := map_mem (fun _ => st) s in
              match address_space with
              | None => (map_kern (map_fdw (fd_table_destroy (Some t))) s, None)
              | Some c =>
                  let pid := g_next_pid (kern s) in
                  let ppid := match process_get_current cpu (kern s) with
                              | Some q => if Nat.eqb q i then pid else Proc.pid (proc (kern s) q)
                              | None => 0
                              end in
                  let s := map_kern (fun k => on_proc i (fun _ => Process pid ppid PROCESS_STATE_STOPPED (Some t) 0 0 0 false false 0
                                                        (replicate 32 default_action) 0 0)
                                                (take_pid (set_process_used i true k))) s in
                  let s := on_pcb i (fun _ => Pcb (copy_name nm) 0 0 0 0 0 0 0 1 (Uproc false (Some c) 0 0 0 0) false zero_context [47]) s in
                  let s := map_mem (on_ctx c (set_owner pid)) s in
                  (process_attach_stdio i s, Some i)
              end
          end
      end
  end.

Definition process_destroy (cpu : nat) (o : option nat) s : system :=
  match o with
  | None => s
  | Some p =>
      if is_used (kern s) p then
        let s := map_kern (scheduler_remove (Some p)) s in
        let s := map_kern (fun k => map_fdw (fd_table_destroy (fds_of (proc k p))) k) s in
        let x := pcb_of s p in
        let s := if negb (stack x =? 0) && negb (stack_pages x =? 0)
                 then map_mem (fun st => set_frames (pmm_free_pages (stack x) (stack_pages x) (frames st)) st) s else s in
        let s := match mm (space x) with
                 | None => s
                 | Some c =>
                     let s := if bool_decide (process_get_current cpu (kern s) = Some p)
                              then map_mem (vmm_switch_context cpu (Some KernelCtx)) s else s in
                     map_mem (vmm_destroy_context c) s
                 end in
        let s := map_kern (map_g_current (fmap (fun c => if bool_decide (c = Some p) then None else c))) s in
        let s := on_pcb p (fun _ => zero_pcb) (map_kern (on_proc p (fun _ => zero_process)) s) in
        map_kern (set_process_used p false) s
      else s
  end.

Definition process_start (o : option nat) (entry arg : Z) s : system * Z :=
  match o with
  | None => (s, - EINVAL)
  | Some p =>
      if entry =? 0 then (s, - EINVAL)
      else
        let s := on_pcb p (set_entry_point entry arg) s in
        let '(s, result) := allocate_kernel_stack p s in
        if result <? 0 then (s, result)
        else (map_kern (fun k => scheduler_add cpus (Some p) (on_proc p (set_state PROCESS_STATE_RUNNING) k)) s, 0)
  end.

Definition process_start_user (o : option nat) (entry stack_top : Z) s : system * Z :=
  match o with
  | None => (s, - EINVAL)
  | Some p =>
      match mm_of s p with
      | None => (s, - EINVAL)
      | Some c =>
          if entry =? 0 then (s, - EINVAL)
          else
            let stack_top := if stack_top =? 0 then PROCESS_USER_STACK_TOP else stack_top in
            let stack_top := stack_top .& Z.lnot 0xf in
            let '(s, result) := allocate_kernel_stack p s in
            if result <? 0 then (s, result)
            else
              let stack_page := page_of (u64 (stack_top - PAGE_SIZE)) in
              let '(st, result) := if vmm_resolve (mem s) c stack_page =? 0
                                   then (vmm_map_allocated (Some c) stack_page (VMM_USER .| VMM_WRITABLE) (mem s)).1
                                   else (mem s, 0) in
              let s := map_mem (fun _ => st) s in
              if result <? 0 then (s, result)
              else
                let s := on_pcb p (fun x =>
                  let x := set_entry_point entry (entry_arg x) x in
                  let u := space x in
                  let x := set_space (Uproc true (mm u) stack_top (u64 (stack_top - PAGE_SIZE)) (brk_start u) (brk_end u)) x in
                  set_context (UserContext entry stack_top 0x202 (replicate 16 0)) x) s in
                (map_kern (fun k => scheduler_add cpus (Some p) (on_proc p (set_state PROCESS_STATE_RUNNING) k)) s, 0)
      end
  end.

Definition set_signal_blocked (v : Z) (x : process) : process :=
  Process (Proc.pid x) (ppid x) (state x) (fds_of x) (exit_code x) (runtime_ticks x) (cpu_id x) (on_cpu x) (queued x)
          (block_reason x) (signal_actions x) (signal_pending x) v.
Definition set_ppid (v : Z) (x : process) : process :=
  Process (Proc.pid x) v (state x) (fds_of x) (exit_code x) (runtime_ticks x) (cpu_id x) (on_cpu x) (queued x)
          (block_reason x) (signal_actions x) (signal_pending x) (signal_blocked x).

(** The fields a child inherits. *)
Definition inherit (parent child : pcb) : pcb :=
  let u := space parent in
  Pcb (name child) (stack child) (stack_pages child) (saved_stack child) (entry_point parent) (entry_arg parent)
      (uid parent) (gid parent) (refcount child)
      (Uproc (user_mode u) (mm (space child)) (user_stack_top u) (user_stack_bottom u) (brk_start u) (brk_end u))
      (exec_pending child)
      (UserContext (uc_pc (context parent)) (uc_sp (context parent)) (uc_flags (context parent)) (<[0%nat := 0]> (uc_regs (context parent))))
      (cwd parent).
Definition inherit_proc (parent child : process) : process :=
  set_state PROCESS_STATE_RUNNING
    (set_signal_blocked (signal_blocked parent) (set_signal_actions (signal_actions parent) (set_ppid (Proc.pid parent) child))).

Definition process_fork (cpu : nat) (o : option nat) s : system * option nat :=
  match o with
  | None => (s, None)
  | Some parent =>
      let '(s, r) := process_create cpu (Some (name (pcb_of s parent))) s in
      match r with
      | None => (s, None)
      | Some child =>
          let '(w, descriptors) := fd_table_clone (fds_of (proc (kern s) parent)) (fdw (kern s)) in
          let s := map_kern (map_fdw (fun _ => w)) s in
          match descriptors with
          | None => (process_destroy cpu (Some child) s, None)
          | Some t =>
              let s := map_kern (fun k => map_fdw (fd_table_destroy (fds_of (proc k child))) k) s in
              let s := map_kern (on_proc child (set_fds_of (Some t))) s in
              let '(st, address_space) := vmm_clone_context (mm_of s parent) (mem s) in
              let s := map_mem (fun _ => st) s in
              match address_space with
              | None => (process_destroy cpu (Some child) s, None)
              | Some c =>
                  let s := match mm_of s child with Some old => map_mem (vmm_destroy_context old) s | None => s end in
                  let s := on_pcb child (fun x => set_space (set_mm (Some c) (space x)) x) s in
                  let s := map_mem (on_ctx c (set_owner (Proc.pid (proc (kern s) child)))) s in
                  let '(s, result) := allocate_kernel_stack child s in
                  if result <? 0 then (process_destroy cpu (Some child) s, None)
                  else
                    let x := pcb_of s parent in
                    let k := proc (kern s) parent in
                    let s := on_pcb child (inherit x) s in
                    (map_kern (fun k0 => scheduler_add cpus (Some child) (on_proc child (inherit_proc k) k0)) s, Some child)
              end
          end
      end
  end.

(** The arguments, the last first: each below the one before, with its NUL.
    [Error] is the negative result; otherwise the cursor and the addresses. *)
Fixpoint push_args (stack_page stack_physical : Z) (rev_args : list (list Z)) (cursor : Z) (addresses : list Z) (st : vmm T)
    : vmm T * (Z + Z * list Z) :=
  match rev_args with
  | [] => (st, inr (cursor, addresses))
  | arg :: rest =>
      let length := Z.of_nat (List.length arg) + 1 in
      if (256 <? length) || (u64 (cursor - stack_page) <? length) then (st, inl (- E2BIG))
      else
        let cursor := u64 (cursor - length) in
        let st := set_ram (mem_store (ram st) (u64 (stack_physical + cursor - stack_page)) (arg ++ [0])) st in
        push_args stack_page stack_physical rest cursor (cursor :: addresses) st
  end.

(** [initial[k] = word] for successive words. *)
Fixpoint store_words (a : Z) (words : list Z) (st : vmm T) : vmm T :=
  match words with
  | [] => st
  | w :: rest => store_words (a + 8) rest (set_ram (mem_store (ram st) a (le 8 w)) st)
  end.

(** The arguments and the words below them on the stack page of a new
    program: the stack pointer, or an error. *)
Definition fill_stack (stack_top stack_page stack_physical : Z) (argv : list (list Z)) (st : vmm T) : vmm T * (Z + Z) :=
  if (MAX_ARGUMENTS <? length argv)%nat then (st, inl (- E2BIG))
  else
    let '(st, r) := push_args stack_page stack_physical (rev argv) stack_top [] st in
    match r with
    | inl result => (st, inl result)
    | inr (cursor, addresses) =>
        let cursor := cursor .& Z.lnot 0xf in
        let words := Z.of_nat (length argv) + 3 in
        let initial_sp := u64 (cursor - words * 8) .& Z.lnot 0xf in
        if initial_sp <? stack_page then (st, inl (- E2BIG))
        else
          let initial := u64 (stack_physical + (initial_sp - stack_page)) in
          (store_words initial (Z.of_nat (length argv) :: addresses ++ [0; 0]) st, inr initial_sp)
    end.

(** The new address space up to the point of no return: the context, the
    stack pointer and the entry point, or an error. *)
Definition build_image (p : nat) (image : option (list Z)) (argv : list (list Z)) s : option (system * (Z + cref * Z * Z)) :=
  let '(st, r) := vmm_create_context (mem s) in
  let s := map_mem (fun _ => st) s in
  match r with
  | None => Some (s, inl (- ENOMEM))
  | Some new_context =>
      let fail s result := Some (map_mem (vmm_destroy_context new_context) s, inl result) in
      match elf_load ELF_FUEL image (Some new_context) (mem s) with
      | None => None
      | Some (st, result, entry) =>
          let s := map_mem (fun _ => st) s in
          if result <? 0 then fail s result
          else
            let '(s, result) := allocate_kernel_stack p s in
            if result <? 0 then fail s result
            else
              let stack_top := PROCESS_USER_STACK_TOP .& Z.lnot 0xf in
              let stack_page := stack_top - PAGE_SIZE in
              let '(st, result, stack_physical) := vmm_map_allocated (Some new_context) stack_page (VMM_USER .| VMM_WRITABLE) (mem s) in
              let s := map_mem (fun _ => st) s in
              if result <? 0 then fail s result
              else
                let '(st, r) := fill_stack stack_top stack_page stack_physical argv (mem s) in
                let s := map_mem (fun _ => st) s in
                match r with
                | inl result => fail s result
                | inr initial_sp => Some (s, inr (new_context, initial_sp, entry))
                end
      end
  end.

(** [exec]: [None] only if a loop of the loader ran out of rounds. *)
Definition process_exec_image_args (cpu : nat) (o : option nat) (image : option (list Z)) (nm : option (list Z))
    (argv : list (list Z)) s : option (system * Z) :=
  match o, image with
  | None, _ | _, None | _, Some [] => Some (s, - EINVAL)
  | Some p, Some _ =>
      match build_image p image argv s with
      | None => None
      | Some (s, inl result) => Some (s, result)
      | Some (s, inr (new_context, initial_sp, entry)) =>
          let old_context := mm_of s p in
          let is_current := bool_decide (process_get_current cpu (kern s) = Some p) in
          let s := on_pcb p (fun x => set_space (set_mm (Some new_context) (space x)) x) s in
          let s := map_mem (on_ctx new_context (set_owner (Proc.pid (proc (kern s) p)))) s in
          let s := if is_current then map_mem (vmm_switch_context cpu (Some new_context)) s else s in
          let s := match old_context with Some old => map_mem (vmm_destroy_context old) s | None => s end in
          let stack_top := PROCESS_USER_STACK_TOP .& Z.lnot 0xf in
          let s := on_pcb p (fun x =>
            let x := set_exec_pending true (set_entry_point entry 0 x) in
            let x := set_space (Uproc true (Some new_context) stack_top (stack_top - PAGE_SIZE) 0x40000000 0x40000000) x in
            set_context (UserContext entry initial_sp 0x202 (replicate 16 0)) x) s in
          let s := map_kern (fun k => scheduler_add cpus (Some p)
                     (on_proc p (fun x => set_state PROCESS_STATE_RUNNING (set_signal_pending 0 x)) k)) s in
          let s := match nm with
                   | None | Some [] => s
                   | Some nm => on_pcb p (set_name (copy_name (base_name nm nm))) s
                   end in
          Some (s, 0)
      end
  end.

Definition process_exec_image (cpu : nat) (o : option nat) (image : option (list Z)) (nm : option (list Z)) s
    : option (system * Z) :=
  process_exec_image_args cpu o image nm (match nm with None | Some [] => [] | Some n => [n] end) s.

(** One scan of [process_waitpid] over the processes from index [i] on:
    whether a child was found, and a zombie among those found. *)
Fixpoint wait_scan (n i : nat) (parent : nat) (id : Z) (found : bool) (k : kernel V W) : bool * option nat :=
  match n with
  | O => (found, None)
  | S n' =>
      match process_at i k with
      | None => wait_scan n' (S i) parent id found k
      | Some child =>
          if negb (ppid (proc k child) =? Proc.pid (proc k parent)) ||
             (negb (s32 id =? -1) && negb (Proc.pid (proc k child) =? id))
          then wait_scan n' (S i) parent id found k
          else if state (proc k child) =? PROCESS_STATE_ZOMBIE then (true, Some child)
          else wait_scan n' (S i) parent id true k
      end
  end.

(** A switch as the outgoing context sees it: the scheduler picks, and the
    address space of the incoming process is loaded. *)
Definition sys_switch (cpu : nat) (f : kernel V W -> kernel V W) s : system :=
  let before := process_get_current cpu (kern s) in
  let s := map_kern f s in
  let after := process_get_current cpu (kern s) in
  if bool_decide (after = before) then s
  else match after with
       | Some q => map_mem (vmm_switch_context cpu (mm_of s q)) s
       | None => map_mem (vmm_switch_context cpu (Some KernelCtx)) s
       end.

(** The loop of [process_waitpid]: the result and what is stored through
    [status]. [between] is what happens from a call of
    [scheduler_block_current] until it returns, once per round; [None] means
    that the caller is still blocked when [between] is used up. *)
Fixpoint waitpid_loop (between : list (system -> system)) (cpu parent : nat) (id options : Z) s : option (system * Z * option Z) :=
  match wait_scan (Z.to_nat (process_count (kern s))) 0 parent id false (kern s) with
  | (_, Some child) =>
      let child_pid := Proc.pid (proc (kern s) child) in
      let status := exit_code (proc (kern s) child) in
      Some (process_destroy cpu (Some child) s, child_pid, Some status)
  | (false, None) => Some (s, u32 (- ECHILD), None)
  | (true, None) =>
      if has options WNOHANG then Some (s, 0, None)
      else
        match between with
        | [] => None
        | g :: rest => waitpid_loop rest cpu parent id options (g (sys_switch cpu (block_with (scheduler_yield_begin cpu) cpu id) s))
        end
  end.

Definition process_waitpid (between : list (system -> system)) (cpu : nat) (id options : Z) s : option (system * Z * option Z) :=
  match process_get_current cpu (kern s) with
  | None => Some (s, u32 (- ESRCH), None)
  | Some parent => waitpid_loop between cpu parent id options s
  end.

Definition process_set_user_context (cpu : nat) (ctx : option user_context) s : system :=
  match process_get_current cpu (kern s), ctx with
  | Some p, Some c => on_pcb p (set_context c) s
  | _, _ => s
  end.

Definition process_get_user_context (cpu : nat) s : option user_context :=
  match process_get_current cpu (kern s) with Some p => Some (context (pcb_of s p)) | None => None end.
End Process.
Arguments system : clear implicits.

(** ** Frames of kernel stacks *)

(** The frames of [n] pages from [a] on. *)
Definition run (a n b : Z) : Z := if (b mod PAGE_SIZE =? 0) && (a <=? b) && (b <? a + n * PAGE_SIZE) then 1 else 0.

Lemma run_bounds a n b : 0 <= run a n b <= 1.
Proof. unfold run. split_ifs; lia. Qed.

Lemma run_zero a b : run a 0 b = 0.
Proof. unfold run. split_ifs; lia. Qed.

Lemma run_step a n b : page_aligned a -> 0 <= n -> run a (n + 1) b = run a n b + if b =? a + n * PAGE_SIZE then 1 else 0.
Proof.
  intros Ha Hn. unfold run, page_aligned, PAGE_SIZE in *.
  destruct (Z.eqb_spec b (a + n * 4096)) as [->|Hne]; split_ifs; try lia; exfalso; dlia.
Qed.

Section Stacks.
Context {T : Type} `{Paging T}.
Implicit Types (st : vmm T) (extra : Z -> Z).

Lemma alloc_pages_refs (p p' : pmm) n a :
  pmm_inv p -> 0 < n -> pmm_alloc_pages n p = (p', a) ->
  (a = 0 /\ p' = p) \/
  (0 < a /\ page_aligned a /\ a + n * PAGE_SIZE <= 2 ^ 32 /\ pmm_inv p' /\ g_frame_limit p' = g_frame_limit p /\
   (forall b, 0 <= b -> run a n b = 1 -> pmm_frame_refcount b p = 0) /\
   forall b, 0 <= b -> pmm_frame_refcount b p' = if run a n b =? 1 then 1 else pmm_frame_refcount b p).
Proof.
  intros Hi Hn E. unfold pmm_alloc_pages in E.
  destruct (alloc_aligned_cases p n 1 Hi Hn ltac:(lia)) as [[E' _]|(f & (K1 & K2 & K3 & K4) & E')]; rewrite E' in E; injection E as <- <-;
    [by left|right].
  destruct (take_run p f n Hi ltac:(lia) K1 K2 K4) as (Hi' & Hl & _ & _ & Hr).
  assert (Hlim : g_frame_limit p <= 2 ^ 20) by (pose proof (inv_limit _ Hi); change PMM_MAX_FRAMES with (2 ^ 20) in *; lia).
  unfold PAGE_SHIFT. rewrite !Z.shiftl_mul_pow2 by lia. change (2 ^ 12) with PAGE_SIZE. unfold page_aligned, PAGE_SIZE in *.
  split; [lia|]. split; [dlia|]. split; [lia|]. split; [by apply inv_set_search; [|lia]|]. split; [done|].
  set (p' := for_range _ _ _ _) in *. clearbody p'.
  assert (Hb : forall b, 0 <= b -> bad_frame_address p b = false ->
            exists g, b = g * 4096 /\ b .>> PAGE_SHIFT = g /\ 1 <= g < g_frame_limit p).
  { intros b Hb E. by apply bad_frame_address_false in E as (g & -> & E2 & Hg); [exists g|]. }
  split; intros b Hb0.
  - intros Hrun. unfold pmm_frame_refcount. destruct (bad_frame_address p b) eqn:Eb; [done|].
    destruct (Hb b Hb0 Eb) as (g & -> & Eg & Hg). rewrite Eg. apply (inv_free_refs _ Hi); [lia|]. apply K4.
    unfold run in Hrun. destruct (_ && _) eqn:Er in Hrun; [|done]. unfold PAGE_SIZE in Er. lia.
  - unfold pmm_frame_refcount at 1 2.
    replace (bad_frame_address (set_search (f + n) p') b) with (bad_frame_address p b)
      by (unfold bad_frame_address; cbn [set_search g_frame_limit]; by rewrite Hl).
    destruct (bad_frame_address p b) eqn:Eb.
    + destruct (Z.eqb_spec (run (f * 4096) n b) 1) as [Hrun|]; [exfalso|done].
      unfold run in Hrun. destruct (_ && _) eqn:Er in Hrun; [|done]. unfold PAGE_SIZE in Er.
      assert (Hg : b = (b / 4096) .<< PAGE_SHIFT) by (unfold PAGE_SHIFT; rewrite Z.shiftl_mul_pow2 by lia; clear - Er; dlia).
      destruct (good_frame_address p (b / 4096)) as [Hbad _]; [clear - Er K1 K2; dlia|]. rewrite <- Hg in Hbad. congruence.
    + destruct (Hb b Hb0 Eb) as (g & -> & Eg & Hg). rewrite Eg. cbn [set_search g_frame_refs]. rewrite Hr.
      unfold run, PAGE_SIZE. destruct ((f <=? g) && (g <? f + n)) eqn:Ec.
      * replace (_ && _) with true; [done|]. symmetry. clear - Ec. dlia.
      * replace (_ && (g * 4096 <? _)) with false; [done|]. symmetry. clear - Ec. lia.
Qed.

Lemma inv_alloc_pages extra st n p' a :
  vm_inv extra st -> 0 < n -> pmm_alloc_pages n (frames st) = (p', a) ->
  (a = 0 /\ p' = frames st) \/
  (0 < a /\ page_aligned a /\ a + n * PAGE_SIZE <= 2 ^ 32 /\ (forall b, run a n b = 1 -> owners st b = 0 /\ extra b = 0) /\
   vm_inv (fun b => extra b + run a n b) (set_frames p' st)).
Proof.
  intros Hi Hn E. destruct (alloc_pages_refs _ _ _ _ (pg_inv_pmm _ _ (vi_pg _ _ Hi)) Hn E)
    as [?|(Ha & Hal & Hend & Hp & Hl & Hz & Hr)]; [by left|right].
  assert (Hfree : forall b, run a n b = 1 -> 0 <= b /\ owners st b = 0 /\ extra b = 0).
  { intros b Hb. assert (0 <= b) by (unfold run in Hb; destruct (_ && _) eqn:E' in Hb; [lia|done]).
    pose proof (owners_nonneg (g_slots st) b). pose proof (vi_extra _ _ Hi b). specialize (Hz b ltac:(done) Hb).
    destruct (decide (0 < owners st b + extra b)) as [Hpos|]; [|unfold owners in *; lia].
    apply (vi_refs _ _ Hi) in Hpos as [_ Hc]; [|done]. unfold owners in *. lia. }
  split_and!; [done..| |].
  - intros b Hb. by apply Hfree.
  - eapply inv_frames; eauto.
    + intros b. pose proof (vi_extra _ _ Hi b). pose proof (run_bounds a n b). lia.
    + intros b Hb Ht. rewrite Hr by done. destruct (Z.eqb_spec (run a n b) 1) as [Hrun|]; [|done].
      specialize (Hz b Hb Hrun). apply (pg_table_ref _ _ _ (vi_pg _ _ Hi)) in Ht; lia.
    + intros b Hb Hpos. rewrite Hr by done. destruct (Z.eqb_spec (run a n b) 1) as [Hrun|Hrun].
      * destruct (Hfree b Hrun) as (_ & Ho & He). split; [|lia]. intros Ht. specialize (Hz b Hb Hrun).
        apply (pg_table_ref _ _ _ (vi_pg _ _ Hi)) in Ht; lia.
      * pose proof (run_bounds a n b). replace (run a n b) with 0 in * by lia. rewrite Z.add_0_r in *. by apply (vi_refs _ _ Hi).
Qed.

Lemma inv_free_pages_at extra st n a :
  vm_inv extra st -> 0 <= n -> 0 <= a -> page_aligned a -> a + n * PAGE_SIZE <= 2 ^ 32 -> (forall b, run a n b <= extra b) ->
  vm_inv (fun b => extra b - run a n b) (set_frames (pmm_free_pages a n (frames st)) st).
Proof.
  intros Hi Hn Ha0 Ha Hend Hle. unfold pmm_free_pages.
  apply (for_range_ind (fun j fr => vm_inv (fun b => extra b - run a j b) (set_frames fr st))); [done| |].
  - eapply vm_inv_ext; [|by destruct st]. intros b. cbv beta. rewrite run_zero. lia.
  - intros j fr Hj Hi1. rewrite u64_small by (unfold is_u64, PAGE_SIZE in *; lia).
    assert (Hfree := inv_free _ _ (a + j * PAGE_SIZE) Hi1). unfold free_frame in Hfree.
    eapply vm_inv_ext; [|apply Hfree].
    + intros b. unfold bump. rewrite run_step by (done || lia). split_ifs; lia.
    + unfold PAGE_SIZE. lia.
    + specialize (Hle (a + j * PAGE_SIZE)).
      assert (Hn1 : run a n (a + j * PAGE_SIZE) = 1).
      { unfold run. replace (_ && _) with true; [done|]. unfold page_aligned, PAGE_SIZE in *. clear - Ha Hj. symmetry. dlia. }
      assert (Hj0 : run a j (a + j * PAGE_SIZE) = 0) by (unfold run; split_ifs; lia). lia.
Qed.

Lemma free_pages_counted extra st n a b :
  vm_inv extra st -> 0 <= n -> 0 <= a -> page_aligned a -> a + n * PAGE_SIZE <= 2 ^ 32 -> (forall b, run a n b <= extra b) ->
  0 <= b -> counted extra st b ->
  counted (fun b => extra b - run a n b) (set_frames (pmm_free_pages a n (frames st)) st) b.
Proof.
  intros Hi Hn Ha0 Ha Hend Hle Hb [Hnt Hc]. split; [done|]. unfold owners in *. cbn [set_frames set_pages g_slots frames tables]. unfold pmm_free_pages.
  apply (for_range_ind (fun j fr => vm_inv (fun b => extra b - run a j b) (set_frames fr st) /\
    pmm_frame_refcount b fr = owners_in (g_slots st) b + (extra b - run a j b))); [done| |].
  - split; [eapply vm_inv_ext; [|by destruct st]; intros c; cbv beta; rewrite run_zero; lia|]. rewrite run_zero. lia.
  - intros j fr Hj [Hi1 Hc1]. rewrite u64_small by (unfold is_u64, PAGE_SIZE in *; lia).
    assert (Hn1 : run a n (a + j * PAGE_SIZE) = 1).
    { unfold run. replace (_ && _) with true; [done|]. unfold page_aligned, PAGE_SIZE in *. clear - Ha Hj. symmetry. dlia. }
    assert (Hj0 : run a j (a + j * PAGE_SIZE) = 0) by (unfold run; split_ifs; lia).
    assert (He1 : 1 <= extra (a + j * PAGE_SIZE) - run a j (a + j * PAGE_SIZE)) by (specialize (Hle (a + j * PAGE_SIZE)); lia).
    assert (Hpos : 0 <= a + j * PAGE_SIZE) by (unfold PAGE_SIZE; lia).
    assert (Hfree := inv_free _ _ (a + j * PAGE_SIZE) Hi1 Hpos He1). unfold free_frame in Hfree. split.
    + eapply vm_inv_ext; [|exact Hfree]. intros c. unfold bump. rewrite run_step by (done || lia). split_ifs; lia.
    + pose proof (owners_nonneg (g_slots st) (a + j * PAGE_SIZE)).
      destruct (vi_refs _ _ Hi1 (a + j * PAGE_SIZE) Hpos) as [_ Hcj]; [unfold owners; cbn [set_frames set_pages g_slots]; lia|].
      unfold owners in Hcj. cbn [set_frames set_pages g_slots frames] in Hcj.
      destruct (free_refs fr (a + j * PAGE_SIZE) (pg_inv_pmm _ _ (vi_pg _ _ Hi1)) Hpos) as (_ & _ & Hr); [lia|].
      rewrite Hr, Hc1, run_step by (done || lia). lia.
Qed.
End Stacks.

Lemma land_lnot_15 x : x .& Z.lnot 0xf = x - x mod 16.
Proof.
  change 0xf with (Z.ones 4). rewrite <- Z.ldiff_land, Z.ldiff_ones_r by lia. rewrite Z.shiftl_mul_pow2, Z.shiftr_div_pow2 by lia.
  change (2 ^ 4) with 16. dlia.
Qed.

(** ** The invariant *)

(** Frames held by the kernel stacks. *)
Definition stack_ref (a : Z) (x : pcb) : Z := if stack x =? 0 then 0 else run (stack x) (stack_pages x) a.

Section Invariant.
Context {V W T : Type} `{EqDecision V} `{VnodeHooks V W} `{Paging T}.
Context (acct : W -> (V -> Z) -> Prop) `{!VnodeAccounting V W acct} (base : V -> Z) (Hbase : forall v, 0 <= base v).
Context (trampoline : Z) (console : option V) (cpus : nat) (Hcpus : (1 <= cpus <= MAX_CPUS)%nat).
(** The console's vnode has no hooks: its owner counts nothing. *)
Context (Hconsole : forall v, console = Some v ->
  forall w c c', (forall x, x <> v -> c x = c' x) -> 0 <= c' v -> acct w c -> acct w c').
Implicit Types (s : system V W T) (p q : nat) (k : kernel V W).

Definition stack_refs s (a : Z) : Z := zsum (stack_ref a) (pcbs s).

(** The address space a processor has loaded. *)
Definition loaded_space s (cpu : nat) : cref :=
  match current (kern s) cpu with Some p => default KernelCtx (mm_of s p) | None => KernelCtx end.

Definition stack_ok (x : pcb) : Prop :=
  stack x = 0 \/ (0 < stack x /\ page_aligned (stack x) /\ stack_pages x = PROCESS_STACK_PAGES /\
                  stack x + PROCESS_STACK_PAGES * PAGE_SIZE <= 2 ^ 32).

(** Every descriptor table in use, every address space and every frame
    belongs to one process; [spare] is an address space that an operation has
    in hand. *)
Record sys_inv (spare : option nat) s : Prop := {
  si_pcbs : length (pcbs s) = MAX_PROCESSES;
  si_used : length (Proc.used (kern s)) = MAX_PROCESSES;
  si_sched : sched_ok (kern s);
  si_fd : fd_inv acct base (fdw (kern s));
  si_vm : vm_inv (stack_refs s) (mem s);
  si_free : forall p, is_used (kern s) p = false -> proc (kern s) p = zero_process /\ pcb_of s p = zero_pcb;
  si_tables : forall t, g_fd_table_used (fdw (kern s)) !! t = Some true <-> exists p, fds_of (proc (kern s) p) = Some t;
  si_tables_apart : forall p q t, fds_of (proc (kern s) p) = Some t -> fds_of (proc (kern s) q) = Some t -> p = q;
  si_space : forall p, is_used (kern s) p = true -> exists i, mm_of s p = Some (SlotCtx i);
  si_spaces : forall i, ctx_live (mem s) (SlotCtx i) <-> (exists p, mm_of s p = Some (SlotCtx i)) \/ spare = Some i;
  si_spare : forall i p, spare = Some i -> mm_of s p <> Some (SlotCtx i);
  si_spaces_apart : forall p q c, mm_of s p = Some c -> mm_of s q = Some c -> p = q;
  si_stack : forall p, stack_ok (pcb_of s p);
  si_current : forall cpu, (cpu < MAX_CPUS)%nat -> g_current_context (mem s) !! cpu = Some (loaded_space s cpu)
}.

Lemma used_lt spare s p : sys_inv spare s -> is_used (kern s) p = true -> (p < MAX_PROCESSES)%nat.
Proof.
  intros Hi Hu. unfold is_used in Hu. destruct (Proc.used (kern s) !! p) eqn:E; [|done].
  rewrite <- (si_used _ _ Hi). by eapply lookup_lt_Some.
Qed.

(** Whoever has something is in use. *)
Lemma busy_used spare s p :
  sys_inv spare s -> fds_of (proc (kern s) p) <> None \/ mm_of s p <> None \/ on_cpu (proc (kern s) p) = true \/
    queued (proc (kern s) p) = true \/ state (proc (kern s) p) <> PROCESS_STATE_UNUSED \/ stack (pcb_of s p) <> 0 ->
  is_used (kern s) p = true.
Proof.
  intros Hi Hb. destruct (is_used (kern s) p) eqn:E; [done|]. destruct (si_free _ _ Hi p E) as [Hz Hz'].
  unfold mm_of in Hb. rewrite Hz, Hz' in Hb. cbn in Hb. by destruct_or! Hb.
Qed.

Lemma table_live spare s p t : sys_inv spare s -> fds_of (proc (kern s) p) = Some t -> (t < FD_TABLE_POOL_SIZE)%nat.
Proof.
  intros Hi Ht. assert (Hu : g_fd_table_used (fdw (kern s)) !! t = Some true) by (apply (si_tables _ _ Hi); by exists p).
  apply lookup_lt_Some in Hu. by rewrite (wf_used _ (fi_wf _ _ _ (si_fd _ _ Hi))) in Hu.
Qed.

Lemma current_used spare s cpu p : sys_inv spare s -> current (kern s) cpu = Some p -> is_used (kern s) p = true.
Proof.
  intros Hi Hc. apply (busy_used _ _ _ Hi). right. right. left.
  apply (co_on _ (proj2 (si_sched _ _ Hi)) p cpu). by left.
Qed.

(** *** Changes of one component *)

(** The scheduling state changes; processes keep their descriptor tables and
    processors their processes. *)
Lemma sys_kern spare s k' :
  sys_inv spare s -> sched_ok k' -> Proc.used k' = Proc.used (kern s) -> fdw k' = fdw (kern s) ->
  (forall p, fds_of (proc k' p) = fds_of (proc (kern s) p)) ->
  (forall p, is_used (kern s) p = false -> proc k' p = proc (kern s) p) ->
  (forall cpu, current k' cpu = current (kern s) cpu) ->
  sys_inv spare (map_kern (fun _ => k') s).
Proof.
  intros Hi Hs Hu Hw Hf Hz Hc. destruct Hi. constructor; cbn [map_kern kern pcbs mem]; try done.
  - by rewrite Hu.
  - by rewrite Hw.
  - intros p Hp. unfold is_used in Hp. rewrite Hu in Hp. change (is_used (kern s) p = false) in Hp. rewrite (Hz p Hp). by apply si_free0.
  - intros t. rewrite Hw, si_tables0. split; intros [p Hp]; exists p; [by rewrite Hf|by rewrite Hf in Hp].
  - intros p q t. rewrite !Hf. apply si_tables_apart0.
  - intros p Hp. unfold is_used in Hp. rewrite Hu in Hp. by apply si_space0.
  - intros cpu Hlt. rewrite si_current0 by done. unfold loaded_space. cbn [map_kern kern]. by rewrite Hc.
Qed.

Lemma current_add o k cpu : current (scheduler_add cpus o k) cpu = current k cpu.
Proof. destruct o as [p|]; [|done]. unfold scheduler_add, add_locked. repeat case_match; done. Qed.
Lemma current_remove o k cpu : current (scheduler_remove o k) cpu = current k cpu.
Proof. destruct o as [p|]; [|done]. unfold scheduler_remove, dequeue_locked, remove_cpu. case_match; done. Qed.
Lemma proc_add_ne p q k : p <> q -> proc (scheduler_add cpus (Some p) k) q = proc k q.
Proof. intros Hne. unfold scheduler_add, add_locked. repeat case_match; try done. by rewrite proc_on_proc_ne. Qed.
Lemma proc_remove_ne p q k : p <> q -> proc (scheduler_remove (Some p) k) q = proc k q.
Proof. intros Hne. unfold scheduler_remove, dequeue_locked, remove_cpu. case_match; try done. by rewrite proc_on_proc_ne. Qed.
Lemma fdw_add o k : fdw (scheduler_add cpus o k) = fdw k /\ Proc.used (scheduler_add cpus o k) = Proc.used k.
Proof. destruct o as [p|]; [|done]. unfold scheduler_add, add_locked. repeat case_match; done. Qed.
Lemma fdw_remove o k : fdw (scheduler_remove o k) = fdw k /\ Proc.used (scheduler_remove o k) = Proc.used k.
Proof. destruct o as [p|]; [|done]. unfold scheduler_remove, dequeue_locked, remove_cpu. case_match; done. Qed.
Lemma fds_add o k q : fds_of (proc (scheduler_add cpus o k) q) = fds_of (proc k q).
Proof. destruct o as [p|]; [|done]. unfold scheduler_add, add_locked. repeat case_match; try done. by rewrite (field_on_proc fds_of). Qed.
Lemma fds_remove o k q : fds_of (proc (scheduler_remove o k) q) = fds_of (proc k q).
Proof. destruct o as [p|]; [|done]. unfold scheduler_remove, dequeue_locked, remove_cpu. case_match; try done. by rewrite (field_on_proc fds_of). Qed.

(** Updating a process in use and putting it in a queue. *)
Lemma sys_run spare s p f :
  sys_inv spare s -> is_used (kern s) p = true -> keeps_place f -> (forall x, fds_of (f x) = fds_of x) ->
  sys_inv spare (map_kern (fun k => scheduler_add cpus (Some p) (on_proc p f k)) s).
Proof.
  intros Hi Hu Hf Hfd. pose proof (used_lt _ _ _ Hi Hu) as Hp.
  apply (sys_kern spare s (scheduler_add cpus (Some p) (on_proc p f (kern s)))); try done.
  - apply scheduler_add_ok; [by apply on_proc_ok, Hi|done|]. by intros ? [= <-].
  - by destruct (fdw_add (Some p) (on_proc p f (kern s))) as [_ ->].
  - by destruct (fdw_add (Some p) (on_proc p f (kern s))) as [-> _].
  - intros q. rewrite fds_add. by apply field_on_proc.
  - intros q Hq. assert (p <> q) by (intros ->; congruence). by rewrite proc_add_ne, proc_on_proc_ne.
  - intros cpu. by rewrite current_add.
Qed.

Lemma pcb_on_pcb s p q f : pcb_of (on_pcb p f s) q = if decide (p = q /\ (p < length (pcbs s))%nat) then f (pcb_of s q) else pcb_of s q.
Proof.
  unfold pcb_of, on_pcb. cbn [pcbs]. rewrite !list_lookup_total_alt. case_decide as Hd.
  - destruct Hd as [-> Hl]. rewrite list_lookup_alter_eq. by apply lookup_lt_is_Some_2 in Hl as [x ->].
  - destruct (decide (p = q)) as [->|]; [|by rewrite list_lookup_alter_ne].
    rewrite lookup_ge_None_2; [|rewrite length_alter; lia]. rewrite lookup_ge_None_2; [done|lia].
Qed.

Lemma pcb_on_pcb_eq spare s p f : sys_inv spare s -> is_used (kern s) p = true -> pcb_of (on_pcb p f s) p = f (pcb_of s p).
Proof. intros Hi Hu. rewrite pcb_on_pcb, decide_True; [done|]. split; [done|]. rewrite (si_pcbs _ _ Hi). by eapply used_lt. Qed.

Lemma pcb_on_pcb_ne s p q f : p <> q -> pcb_of (on_pcb p f s) q = pcb_of s q.
Proof. intros Hne. rewrite pcb_on_pcb, decide_False; [done|]. by intros [? _]. Qed.

Lemma stack_refs_pcb s p f a x :
  pcbs s !! p = Some x -> stack_refs (on_pcb p f s) a = stack_refs s a - stack_ref a x + stack_ref a (f x).
Proof. intros Hx. unfold stack_refs, on_pcb. cbn [pcbs]. by apply zsum_alter. Qed.

Lemma pcb_lookup spare s p : sys_inv spare s -> is_used (kern s) p = true -> pcbs s !! p = Some (pcb_of s p).
Proof.
  intros Hi Hu. pose proof (used_lt _ _ _ Hi Hu) as Hp. rewrite <- (si_pcbs _ _ Hi) in Hp.
  apply lookup_lt_is_Some_2 in Hp as [x Hx]. unfold pcb_of. by rewrite list_lookup_total_alt, Hx.
Qed.

(** Updating fields of a process in use other than its stack and its space. *)
Lemma sys_pcb spare s p f :
  sys_inv spare s -> is_used (kern s) p = true ->
  (forall x, stack (f x) = stack x /\ stack_pages (f x) = stack_pages x /\ mm (space (f x)) = mm (space x)) ->
  sys_inv spare (on_pcb p f s).
Proof.
  intros Hi Hu Hf. pose proof (pcb_lookup _ _ _ Hi Hu) as Hl.
  assert (Hmm : forall q, mm_of (on_pcb p f s) q = mm_of s q).
  { intros q. unfold mm_of. rewrite pcb_on_pcb. case_decide; [apply Hf|done]. }
  assert (Hrefs : forall a, stack_refs (on_pcb p f s) a = stack_refs s a).
  { intros a. rewrite (stack_refs_pcb _ _ _ _ _ Hl). unfold stack_ref. destruct (Hf (pcb_of s p)) as (-> & -> & _). lia. }
  destruct Hi. constructor; cbn [on_pcb kern pcbs mem]; try done.
  - by rewrite length_alter.
  - eapply vm_inv_ext; [|done]. intros a. by rewrite Hrefs.
  - intros q Hq. rewrite pcb_on_pcb, decide_False; [by apply si_free0|]. intros [-> _]. congruence.
  - intros q Hq. rewrite Hmm. by apply si_space0.
  - intros i. rewrite si_spaces0. split; (intros [[q Hq]|?]; [left; exists q|by right]); [by rewrite Hmm|by rewrite Hmm in Hq].
  - intros i q. rewrite Hmm. apply si_spare0.
  - intros q r c. rewrite !Hmm. apply si_spaces_apart0.
  - intros q. rewrite pcb_on_pcb. case_decide; [|apply si_stack0]. unfold stack_ok. destruct (Hf (pcb_of s q)) as (-> & -> & _). apply si_stack0.
  - intros cpu Hc. rewrite si_current0 by done. unfold loaded_space. cbn [on_pcb kern]. destruct (current (kern s) cpu); [|done]. by rewrite Hmm.
Qed.

(** Memory changes; the same address spaces are alive and loaded. *)
Lemma sys_mem spare s st' :
  sys_inv spare s -> vm_inv (stack_refs s) st' -> (forall i, ctx_live st' (SlotCtx i) <-> ctx_live (mem s) (SlotCtx i)) ->
  g_current_context st' = g_current_context (mem s) -> sys_inv spare (map_mem (fun _ => st') s).
Proof.
  intros Hi Hv Hl Hc. destruct Hi. constructor; cbn [map_mem kern pcbs mem]; try done.
  - intros i. by rewrite Hl.
  - intros cpu Hlt. by rewrite Hc, si_current0.
Qed.

(** *** Kernel stacks *)

(** Address spaces, their bytes and what is loaded stay. *)
Definition same_memory (st st' : vmm T) : Prop :=
  g_slots st' = g_slots st /\ pages_same st st' /\ g_current_context st' = g_current_context st /\ running st' = running st.

Lemma same_memory_views extra extra' st st' :
  vm_inv extra st -> vm_inv extra' st' -> same_memory st st' -> forall c x, view st' c x = view st c x.
Proof.
  intros Hi Hi' (Hg & Hp & _) c x. apply option_eq. intros b. rewrite (view_spec _ _ _ _ _ Hi), (view_spec _ _ _ _ _ Hi').
  assert (Hb : forall m, maps st c m -> ram st' (phys m + x mod PAGE_SIZE) = ram st (phys m + x mod PAGE_SIZE)).
  { intros m (j & y & -> & Hy & Hm). apply (Hp j y); [done|done|apply offset_bounds]. }
  assert (Hm : forall m, maps st' c m <-> maps st c m) by (intros m; split; intros Hm; [apply (maps_same st' st)|apply (maps_same st st')]; done).
  split; intros (m & Hin & Hv & ->); exists m; (split; [by apply Hm|]); (split; [done|]); [apply Hb; by apply Hm|symmetry; by apply Hb].
Qed.

(** Writing into frames no address space has. *)
Lemma unowned_pages extra st st' a n :
  vm_inv extra st -> page_aligned a -> g_slots st' = g_slots st -> (forall b, run a n b = 1 -> owners st b = 0) ->
  (forall x, ~ (a <= x < a + n * PAGE_SIZE) -> ram st' x = ram st x) -> pages_same st st'.
Proof.
  intros Hi Ha Hg Ho Hr j y m o Hy Hm Hk. apply Hr. intros Hin. destruct (maps_used _ _ _ _ _ Hi Hy Hm) as [_ Hmo].
  destruct (mo_phys _ _ _ Hmo) as [Hp [Hal _]]. pose proof (owners_of _ _ _ _ Hy Hm) as Hge.
  assert (Hrun : run a n (phys m) = 1).
  { unfold run. replace (_ && _) with true; [done|]. unfold page_aligned, PAGE_SIZE in *. clear - Hin Hk Hal Ha. symmetry. dlia. }
  specialize (Ho _ Hrun). unfold owners in Ho. lia.
Qed.

Lemma prepare_stack_inv extra st st' a frame :
  vm_inv extra st -> 0 < a -> page_aligned a -> a + PROCESS_STACK_PAGES * PAGE_SIZE <= 2 ^ 32 ->
  (forall b, run a PROCESS_STACK_PAGES b = 1 -> owners st b = 0) ->
  prepare_initial_stack trampoline a (PROCESS_STACK_PAGES * PAGE_SIZE) st = (st', frame) ->
  vm_inv extra st' /\ same_memory st st'.
Proof.
  intros Hi Ha Hal Hend Ho E. unfold prepare_initial_stack in E. unfold PROCESS_STACK_PAGES, PAGE_SIZE in *.
  set (top := a + 4 * 4096) in *. assert (Htop : u64 (u64 top .& Z.lnot 15) = top).
  { rewrite (u64_small top) by (unfold is_u64; lia). rewrite land_lnot_15.
    replace (top mod 16) with 0 by (unfold top, page_aligned, PAGE_SIZE in *; clear - Hal; dlia).
    rewrite Z.sub_0_r. apply u64_small. unfold is_u64. lia. }
  rewrite Htop in E. rewrite (u64_small (top - 8)) in E by (unfold is_u64; lia).
  rewrite (u64_small (top - 8 - 7 * 8)) in E by (unfold is_u64; lia). injection E as <- <-.
  split; [by apply inv_ram, inv_ram|]. split; [done|]. split; [|done].
  apply (unowned_pages extra _ _ a 4 Hi Hal); [done|exact Ho|]. intros x Hx. unfold mem_store, mem_fill. cbn [set_ram ram].
  assert (Hlen : Z.of_nat (length (le 8 trampoline)) = 8) by reflexivity. rewrite Hlen. unfold PAGE_SIZE in Hx.
  replace (_ && _) with false by lia. by replace (_ && _) with false by lia.
Qed.

Lemma sys_new_stack spare s p st' a saved :
  sys_inv spare s -> is_used (kern s) p = true -> stack (pcb_of s p) = 0 -> 0 < a -> page_aligned a ->
  a + PROCESS_STACK_PAGES * PAGE_SIZE <= 2 ^ 32 -> same_memory (mem s) st' ->
  vm_inv (fun b => stack_refs s b + run a PROCESS_STACK_PAGES b) st' ->
  sys_inv spare (on_pcb p (set_stack a PROCESS_STACK_PAGES saved) (map_mem (fun _ => st') s)).
Proof.
  intros Hi Hu Hs Ha Hal Hend (Hg & Hps & Hcur & _) Hv. pose proof (pcb_lookup _ _ _ Hi Hu) as Hl.
  set (s1 := map_mem (fun _ => st') s). set (f := set_stack _ _ _).
  assert (Hmm : forall q, mm_of (on_pcb p f s1) q = mm_of s q).
  { intros q. unfold mm_of. rewrite pcb_on_pcb. by case_decide. }
  assert (Hlive : forall j, ctx_live st' (SlotCtx j) <-> ctx_live (mem s) (SlotCtx j)) by (intros j; cbn; by rewrite Hg).
  destruct Hi. constructor; cbn [on_pcb map_mem kern pcbs mem]; try done.
  - by rewrite length_alter.
  - eapply vm_inv_ext; [|exact Hv]. intros b. cbv beta. symmetry. etransitivity; [apply (stack_refs_pcb s1 p f b _ Hl)|].
    unfold stack_ref at 1 2. rewrite Hs. cbn [f set_stack stack stack_pages]. change (0 =? 0) with true. destruct (Z.eqb_spec a 0); [lia|].
    change (stack_refs s1 b) with (stack_refs s b). lia.
  - intros q Hq. rewrite pcb_on_pcb, decide_False; [by apply si_free0|]. intros [-> _]. change (is_used (kern s) q = false) in Hq. congruence.
  - intros q Hq. rewrite Hmm. by apply si_space0.
  - intros j. change (mem s1) with st'. rewrite Hlive, si_spaces0. split; (intros [[q Hq]|?]; [left; exists q|by right]); [by rewrite Hmm|by rewrite Hmm in Hq].
  - intros j q. rewrite Hmm. apply si_spare0.
  - intros q r c. rewrite !Hmm. apply si_spaces_apart0.
  - intros q. rewrite pcb_on_pcb. case_decide; [|apply si_stack0]. right. by split_and!.
  - intros cpu Hc. change (mem s1) with st'. rewrite Hcur, si_current0 by done. unfold loaded_space. cbn [on_pcb kern].
    change (kern s1) with (kern s). destruct (current (kern s) cpu); [|done]. by rewrite Hmm.
Qed.

Lemma allocate_stack_inv spare s p s' r :
  sys_inv spare s -> is_used (kern s) p = true -> allocate_kernel_stack trampoline p s = (s', r) ->
  sys_inv spare s' /\ kern s' = kern s /\ same_memory (mem s) (mem s') /\ (r = - ENOMEM \/ r = 0 /\ stack (pcb_of s' p) <> 0) /\
  (forall q, pcb_of s' q = set_stack (stack (pcb_of s' q)) (stack_pages (pcb_of s' q)) (saved_stack (pcb_of s' q)) (pcb_of s q)) /\
  (forall q, q <> p -> pcb_of s' q = pcb_of s q).
Proof.
  intros Hi Hu E. unfold allocate_kernel_stack in E.
  assert (Hid : forall x, x = set_stack (stack x) (stack_pages x) (saved_stack x) x) by by intros [].
  assert (Hrefl : same_memory (mem s) (mem s)) by (split_and!; [done| |done|done]; by intros ????).
  destruct (Z.eqb_spec (stack (pcb_of s p)) 0) as [H0'|H0']; cbn [negb] in E; [|injection E as <- <-; split_and!; [done..|by right|auto|done]].
  destruct (pmm_alloc_pages PROCESS_STACK_PAGES (frames (mem s))) as [fr a] eqn:Ea.
  destruct (inv_alloc_pages _ _ PROCESS_STACK_PAGES fr a (si_vm _ _ Hi) ltac:(done) Ea) as [[-> ->]|(Ha & Hal & Hend & Hfree & Hv)].
  - change (0 =? 0) with true in E. cbv iota in E. injection E as <- <-.
    replace (map_mem (set_frames (frames (mem s))) s) with s; [split_and!; [done..|by left|auto|done]|].
    destruct s as [k ps st]. unfold map_mem. cbn. f_equal. by destruct st.
  - destruct (Z.eqb_spec a 0); [lia|].
    destruct (prepare_initial_stack trampoline a _ _) as [st' saved] eqn:Ep. injection E as <- <-. cbn [map_mem mem] in Ep.
    destruct (prepare_stack_inv _ _ _ _ _ Hv Ha Hal Hend (fun b Hb => proj1 (Hfree b Hb)) Ep) as [Hv' Hsame].
    assert (Hsame' : same_memory (mem s) st') by exact Hsame.
    assert (Hnew := sys_new_stack spare s p st' a saved Hi Hu H0' Ha Hal Hend Hsame' Hv').
    set (s2 := on_pcb p _ _). change (sys_inv spare s2) in Hnew.
    assert (Hpcb : forall q, pcb_of s2 q = if decide (p = q /\ (p < length (pcbs s))%nat) then set_stack a PROCESS_STACK_PAGES saved (pcb_of s q) else pcb_of s q).
    { intros q. unfold s2. by rewrite pcb_on_pcb. }
    split_and!; [done|done|exact Hsame'| | |].
    + right. split; [done|]. rewrite Hpcb, decide_True; [cbn; lia|]. split; [done|]. rewrite (si_pcbs _ _ Hi). by eapply used_lt.
    + intros q. rewrite Hpcb. destruct (decide _); [reflexivity|apply Hid].
    + intros q Hq. rewrite Hpcb, decide_False; [done|]. by intros [<- _].
Qed.

(** *** Creating a process *)
Lemma alloc_console w t v fl :
  console = Some v -> fd_inv acct base w -> g_fd_table_used w !! t = Some true ->
  let w' := (fd_alloc (Some t) (Some v) fl w).1 in
  fd_inv acct base w' /\ g_fd_table_used w' = g_fd_table_used w /\
  (forall t' fd, t' <> t -> entry_at w' t' fd = entry_at w t' fd).
Proof.
  intros Hv Hw Hu. pose proof (fd_alloc_spec t v fl w (fi_wf _ _ _ Hw) Hu) as Hs.
  destruct (fd_alloc (Some t) (Some v) fl w) as [w' r]. cbn [fst].
  destruct Hs as [(_ & -> & _)|(fd & _ & Hfd & He & _ & Hent & Hwf & Hworld & Hus & Hsl & Hrc)]; [done|].
  split; [|split; [done|]].
  - constructor; [done| |].
    + rewrite Hworld. eapply (Hconsole v Hv); [|apply slots_nonneg|apply Hw]. intros x Hx. rewrite Hsl. unfold one. rewrite decide_False by done. lia.
    + intros x. rewrite Hrc, Hsl, (fi_refs _ _ _ Hw). lia.
  - intros t' fd' Hne. rewrite Hent, decide_False; [done|]. by intros [? _].
Qed.

(** The descriptors after [process_attach_stdio]. *)
Definition attach_stdio (o : option V) (t : nat) (w : fds V W) : fds V W :=
  match o with
  | Some v =>
      let w := (fd_alloc (Some t) (Some v) O_RDONLY w).1 in
      let w := (fd_alloc (Some t) (Some v) O_WRONLY w).1 in
      (fd_alloc (Some t) (Some v) O_WRONLY w).1
  | None => w
  end.

Lemma attach_stdio_inv o w t :
  console = o -> fd_inv acct base w -> g_fd_table_used w !! t = Some true ->
  fd_inv acct base (attach_stdio o t w) /\ g_fd_table_used (attach_stdio o t w) = g_fd_table_used w /\
  (forall t' fd, t' <> t -> entry_at (attach_stdio o t w) t' fd = entry_at w t' fd).
Proof.
  intros Hv Hw Hu. unfold attach_stdio. destruct o as [v|]; [|done].
  destruct (alloc_console w t v O_RDONLY Hv Hw Hu) as (Hw1 & Hu1 & He1).
  destruct (alloc_console _ t v O_WRONLY Hv Hw1 ltac:(by rewrite Hu1)) as (Hw2 & Hu2 & He2).
  destruct (alloc_console _ t v O_WRONLY Hv Hw2 ltac:(by rewrite Hu2, Hu1)) as (Hw3 & Hu3 & He3).
  split; [done|]. split; [congruence|]. intros t' fd Hne. by rewrite He3, He2, He1.
Qed.

Lemma process_attach_eq i t s :
  fds_of (proc (kern s) i) = Some t ->
  process_attach_stdio console i s = map_kern (map_fdw (fun _ => attach_stdio console t (fdw (kern s)))) s.
Proof.
  intros Ht. unfold process_attach_stdio, attach_stdio. rewrite Ht. case console; [done|].
  destruct s as [[] ? ?]. done.
Qed.

Lemma destroyed_table t w :
  fd_inv acct base w -> (t < FD_TABLE_POOL_SIZE)%nat ->
  g_fd_table_used (fd_table_destroy (Some t) w) = <[t := false]> (g_fd_table_used w).
Proof.
  intros Hw Ht. unfold fd_table_destroy. destruct (Nat.ltb_spec t FD_TABLE_POOL_SIZE); [|lia].
  destruct (destroy_loop_inv acct base Hbase t w FD_TABLE_SIZE Hw) as (_ & Hus & _); [lia|].
  generalize dependent (foldl (fun (s : fds V W) fd => fd_put (Some t) (Z.of_nat fd) s) w (seq 0 FD_TABLE_SIZE)).
  intros w1 Hus. cbn [set_used set_tables g_fd_table_used]. by rewrite Hus.
Qed.

(** An address space that an operation creates: a fresh slot without pages. *)
Definition new_space (st : vmm T) (j : nat) (st' : vmm T) : Prop :=
  exists sl, g_slots st !! j = Some zero_slot /\ g_slots st' = <[j := sl]> (g_slots st) /\
    Vmm.used sl = true /\ mappings sl = [] /\ ram st' = ram st /\ g_current_context st' = g_current_context st.

Lemma new_space_live st j st' i :
  new_space st j st' -> ctx_live st' (SlotCtx i) <-> ctx_live st (SlotCtx i) \/ i = j.
Proof.
  intros (sl & Hz & Hg & Hu & _). pose proof (lookup_lt_Some _ _ _ Hz) as Hlt. cbn [ctx_live]. rewrite Hg.
  destruct (decide (i = j)) as [->|Hne].
  - rewrite list_lookup_insert_eq by done. split; [by right|]. intros _. by exists sl.
  - rewrite list_lookup_insert_ne by done. tauto.
Qed.

Lemma new_space_not_live st j st' : new_space st j st' -> ~ ctx_live st (SlotCtx j).
Proof. intros (sl & Hz & _) (x & Hx & Hu). by simplify_eq. Qed.

Lemma create_space extra st st' c v :
  vm_inv extra st -> vmm_create_context st = (st', Some c) ->
  exists j, c = SlotCtx j /\ new_space st j (on_ctx c (set_owner v) st') /\ vm_inv extra (on_ctx c (set_owner v) st').
Proof.
  intros Hi E. destruct (vmm_create_context_inv _ _ _ _ Hi E) as (Hi' & Hc & Hram & _ & Hcur).
  destruct c as [|j]; [done|]. destruct Hc as (sl & Hz & Hg & Hu & Hm & _). exists j. split; [done|]. cbn [on_ctx].
  pose proof (lookup_lt_Some _ _ _ Hz) as Hlt.
  assert (Hj : g_slots st' !! j = Some sl) by (rewrite Hg; by apply list_lookup_insert_eq).
  rewrite (on_slot_eq _ _ _ _ Hj). split.
  - exists (map_context (set_owner v) sl). split_and!; try done. cbn. by rewrite Hg, list_insert_insert_eq.
  - by apply inv_context.
Qed.

Lemma is_used_set k i b q : (i < length (Proc.used k))%nat -> is_used (set_process_used i b k) q = if decide (i = q) then b else is_used k q.
Proof.
  intros Hi. unfold is_used, set_process_used. cbn [Proc.used]. case_decide as Hd.
  - subst. by rewrite list_lookup_insert_eq.
  - by rewrite list_lookup_insert_ne.
Qed.

(** What [process_create] makes of the free process [i], descriptor table [t]
    and address space [c]. *)
Definition created (cpu i t : nat) (c : cref) (nm : list Z) (w : fds V W) (st : vmm T) s : system V W T :=
  let pid := g_next_pid (kern s) in
  let ppid := match current (kern s) cpu with Some q => if Nat.eqb q i then pid else Proc.pid (proc (kern s) q) | None => 0 end in
  Sys (map_fdw (fun _ => w)
         (on_proc i (fun _ => Process pid ppid PROCESS_STATE_STOPPED (Some t) 0 0 0 false false 0 (replicate 32 default_action) 0 0)
            (take_pid (set_process_used i true (kern s)))))
      (alter (fun _ => Pcb (copy_name nm) 0 0 0 0 0 0 0 1 (Uproc false (Some c) 0 0 0 0) false zero_context [47]) i (pcbs s)) st.

Lemma create_cases cpu nm s s' r :
  sys_inv None s -> process_create console cpu nm s = (s', r) ->
  (r = None /\ exists w st, s' = map_mem (fun _ => st) (map_kern (map_fdw (fun _ => w)) s) /\ fd_inv acct base w /\
     vm_inv (stack_refs s) st /\ same_memory (mem s) st /\ g_fd_table_used w = g_fd_table_used (fdw (kern s)) /\
     forall t fd, entry_at w t fd = entry_at (fdw (kern s)) t fd) \/
  (exists i t j name w st, nm = Some name /\ r = Some i /\ is_used (kern s) i = false /\ (i < MAX_PROCESSES)%nat /\
     s' = created cpu i t (SlotCtx j) name w st s /\ fd_inv acct base w /\
     g_fd_table_used (fdw (kern s)) !! t = Some false /\ g_fd_table_used w = <[t := true]> (g_fd_table_used (fdw (kern s))) /\
     (forall t' fd, t' <> t -> entry_at w t' fd = entry_at (fdw (kern s)) t' fd) /\
     new_space (mem s) j st /\ vm_inv (stack_refs s) st).
Proof.
  intros Hi E. unfold process_create in E.
  assert (Hid : forall k : kernel V W, map_fdw (fun _ => fdw k) k = k) by by intros [].
  assert (Hsame : same_memory (mem s) (mem s)) by (split_and!; [done| |done|done]; by intros ????).
  assert (Hnone : s' = s -> r = None -> r = None /\ exists w st, s' = map_mem (fun _ => st) (map_kern (map_fdw (fun _ => w)) s) /\ fd_inv acct base w /\
     vm_inv (stack_refs s) st /\ same_memory (mem s) st /\ g_fd_table_used w = g_fd_table_used (fdw (kern s)) /\
     forall t fd, entry_at w t fd = entry_at (fdw (kern s)) t fd).
  { intros -> ->. split; [done|]. exists (fdw (kern s)), (mem s). split_and!; [|apply Hi|apply Hi|done|done|done].
    destruct s as [k ps st]. unfold map_mem, map_kern. cbn [kern pcbs mem]. by rewrite Hid. }
  destruct nm as [[|b nm]|]; [injection E as <- <-; left; by apply Hnone| |injection E as <- <-; left; by apply Hnone].
  destruct (find_from _ 0 MAX_PROCESSES) as [i|] eqn:Ef; [|injection E as <- <-; left; by apply Hnone].
  apply find_from_Some in Ef as (Hlt & Hfree & _). apply negb_true_iff in Hfree.
  pose proof (fd_table_create_inv acct base (fdw (kern s)) (si_fd _ _ Hi)) as Hc.
  destruct (fd_table_create (fdw (kern s))) as [w [t|]] eqn:Et; cbn [map_kern kern mem] in E;
    [|destruct Hc as (_ & _ & ->); injection E as <- <-; left; apply Hnone; [|done]; destruct s; unfold map_kern; cbn; by rewrite Hid].
  destruct Hc as (Hw & _ & Hf & Hu & Hent & Hoth).
  assert (Hused : g_fd_table_used w = <[t := true]> (g_fd_table_used (fdw (kern s)))).
  { apply list_eq. intros t'. destruct (decide (t' = t)) as [->|Hne]; [rewrite Hu; symmetry; apply list_lookup_insert_eq; by eapply lookup_lt_Some|].
    rewrite Hoth by done. by rewrite list_lookup_insert_ne. }
  destruct (vmm_create_context (mem s)) as [st [c|]] eqn:Ec; cbn [map_mem map_kern kern mem pcbs] in E.
  - destruct (create_space _ _ _ _ (g_next_pid (kern s)) (si_vm _ _ Hi) Ec) as (j & -> & Hns & Hv).
    destruct (attach_stdio_inv console w t eq_refl Hw Hu) as (Hw2 & Hu2 & He2).
    right. eexists i, t, j, (b :: nm), (attach_stdio console t w), _. split; [done|].
    assert (Hin : (i < length (procs (kern s)))%nat) by (rewrite (qo_procs _ (proj1 (si_sched _ _ Hi))); lia).
    rewrite (process_attach_eq i t) in E by (cbn [map_mem map_kern on_pcb kern]; rewrite proc_on_proc_eq by exact Hin; reflexivity).
    pose proof (f_equal fst E) as Es. pose proof (f_equal snd E) as Er. cbn [fst snd] in Es, Er. clear E.
    split; [by symmetry|]. split; [done|]. split; [lia|].
    split; [|split; [exact Hw2|split; [exact Hf|split; [by rewrite Hu2|split; [intros t' fd Ht; rewrite He2 by exact Ht; apply Hent|split; [exact Hns|exact Hv]]]]]].
    rewrite <- Es. unfold created, map_mem, map_kern, on_pcb. cbn [kern pcbs mem]. reflexivity.
  - left. injection E as <- <-. split; [done|].
    destruct (vmm_create_context_inv _ _ _ _ (si_vm _ _ Hi) Ec) as (Hv & Hg & Hram & Hrun & Hcur).
    assert (Htl : (t < FD_TABLE_POOL_SIZE)%nat).
    { rewrite <- (wf_used _ (fi_wf _ _ _ Hw)). by eapply lookup_lt_Some. }
    destruct (fd_table_destroy_inv acct base Hbase t w Hw Htl) as [Hw2 He2].
    exists (fd_table_destroy (Some t) w), st. split; [done|]. split; [done|]. split; [done|]. split; [|split].
    + split; [done|]. split; [|done]. intros ?????. by rewrite Hram.
    + rewrite destroyed_table by done. rewrite Hused, list_insert_insert_eq. by apply list_insert_id.
    + intros t' fd. rewrite He2. case_decide as Hd; [subst|by rewrite Hent]. symmetry. by apply (wf_unused _ (fi_wf _ _ _ (si_fd _ _ Hi))).
Qed.

(** Replacing the descriptors by ones with the same tables in use. *)
Lemma sys_fdw spare s w :
  sys_inv spare s -> fd_inv acct base w -> g_fd_table_used w = g_fd_table_used (fdw (kern s)) ->
  sys_inv spare (map_kern (map_fdw (fun _ => w)) s).
Proof.
  intros Hi Hw Hu. destruct Hi. constructor; cbn [map_kern map_fdw kern pcbs mem fdw Proc.used]; try done.
  - by apply map_fdw_ok.
  - intros t. by rewrite Hu.
Qed.

Lemma created_proc cpu i t c nm w st s q :
  (i < length (procs (kern s)))%nat -> q <> i -> proc (kern (created cpu i t c nm w st s)) q = proc (kern s) q.
Proof.
  intros Hi Hq. unfold created. cbn [kern]. set (f := fun _ : process => _).
  change (proc (on_proc i f (take_pid (set_process_used i true (kern s)))) q = proc (kern s) q). by rewrite proc_on_proc_ne.
Qed.

Lemma created_same cpu i t c nm w st s :
  (i < length (procs (kern s)))%nat ->
  fds_of (proc (kern (created cpu i t c nm w st s)) i) = Some t /\
  queued (proc (kern (created cpu i t c nm w st s)) i) = false /\ cpu_id (proc (kern (created cpu i t c nm w st s)) i) = 0%nat /\
  on_cpu (proc (kern (created cpu i t c nm w st s)) i) = false.
Proof.
  intros Hi. unfold created. cbn [kern]. set (f := fun _ : process => _).
  change (fds_of (proc (on_proc i f (take_pid (set_process_used i true (kern s)))) i) = Some t /\
    queued (proc (on_proc i f (take_pid (set_process_used i true (kern s)))) i) = false /\
    cpu_id (proc (on_proc i f (take_pid (set_process_used i true (kern s)))) i) = 0%nat /\
    on_cpu (proc (on_proc i f (take_pid (set_process_used i true (kern s)))) i) = false).
  by rewrite proc_on_proc_eq.
Qed.

Lemma created_pcb cpu i t c nm w st s q :
  (i < length (pcbs s))%nat -> pcb_of (created cpu i t c nm w st s) q =
    if decide (i = q) then Pcb (copy_name nm) 0 0 0 0 0 0 0 1 (Uproc false (Some c) 0 0 0 0) false zero_context [47] else pcb_of s q.
Proof.
  intros Hi. set (x := Pcb _ _ _ _ _ _ _ _ _ _ _ _ _). set (f := fun _ : pcb => x). pose proof (pcb_on_pcb s i q f) as Hp.
  change (pcb_of (created cpu i t c nm w st s) q) with (pcb_of (on_pcb i f s) q). rewrite Hp.
  repeat case_decide; tauto.
Qed.

Lemma created_inv cpu i t j nm w st s :
  sys_inv None s -> is_used (kern s) i = false -> (i < MAX_PROCESSES)%nat -> fd_inv acct base w ->
  g_fd_table_used (fdw (kern s)) !! t = Some false -> g_fd_table_used w = <[t := true]> (g_fd_table_used (fdw (kern s))) ->
  new_space (mem s) j st -> vm_inv (stack_refs s) st -> sys_inv None (created cpu i t (SlotCtx j) nm w st s).
Proof.
  intros Hi Hfree Hlt Hw Hf Hu Hns Hv. set (s' := created cpu i t (SlotCtx j) nm w st s).
  destruct (si_free _ _ Hi i Hfree) as [Hz Hzp].
  assert (Hlen : (i < length (procs (kern s)))%nat) by (rewrite (qo_procs _ (proj1 (si_sched _ _ Hi))); lia).
  assert (Hlp : (i < length (pcbs s))%nat) by (rewrite (si_pcbs _ _ Hi); lia).
  assert (Hpcb : forall q, mm_of s' q = if decide (i = q) then Some (SlotCtx j) else mm_of s q).
  { intros q. unfold mm_of, s'. rewrite created_pcb by done. by case_decide. }
  destruct (created_same cpu i t (SlotCtx j) nm w st s Hlen) as (Ht & Hqd & Hcid & Hon). fold s' in Ht, Hqd, Hcid, Hon.
  assert (Hp : forall q, q <> i -> proc (kern s') q = proc (kern s) q) by (intros q Hq; by apply created_proc).
  assert (Hus : forall q, is_used (kern s') q = if decide (i = q) then true else is_used (kern s) q).
  { intros q. apply is_used_set. rewrite (si_used _ _ Hi). done. }
  assert (Hfds : forall q t', fds_of (proc (kern s') q) = Some t' <-> (q = i /\ t' = t) \/ fds_of (proc (kern s) q) = Some t').
  { intros q t'. destruct (decide (q = i)) as [->|Hne].
    - rewrite Ht, Hz. cbn. split; [intros [= ->]; by left|]. by intros [[_ ->]|?].
    - rewrite Hp by done. split; [by right|]. by intros [[? _]|?]. }
  assert (Hnt : forall q, fds_of (proc (kern s) q) <> Some t).
  { intros q Hq. assert (g_fd_table_used (fdw (kern s)) !! t = Some true) by (apply (si_tables _ _ Hi); by exists q). congruence. }
  assert (Hnm : forall q, mm_of s q <> Some (SlotCtx j)).
  { intros q Hq. apply (new_space_not_live _ _ _ Hns). apply (si_spaces _ _ Hi). left. by exists q. }
  assert (Hmi : mm_of s i = None) by (unfold mm_of; by rewrite Hzp).
  constructor.
  - unfold s', created. cbn [pcbs]. rewrite length_alter. apply Hi.
  - change (length (<[i := true]> (Proc.used (kern s))) = MAX_PROCESSES). rewrite length_insert. apply Hi.
  - destruct (si_sched _ _ Hi) as [Hq Hc].
    assert (Hl : length (procs (kern s')) = length (procs (kern s))) by apply length_alter.
    split; [apply (queues_ok_ext (kern s)); [done|done| | |done]|apply (cpus_ok_ext (kern s)); [done|done|done| |done]]; intros q;
      (destruct (decide (q = i)) as [->|]; [rewrite Hz|by rewrite Hp]); done.
  - done.
  - eapply vm_inv_ext; [|exact Hv]. intros a. symmetry.
    destruct (lookup_lt_is_Some_2 (pcbs s) i Hlp) as [x Hx].
    assert (Hx0 : x = zero_pcb) by (rewrite <- Hzp; unfold pcb_of; by rewrite list_lookup_total_alt, Hx).
    etransitivity; [apply (stack_refs_pcb s i _ a x Hx)|]. subst x. cbn. lia.
  - intros q Hq. rewrite Hus in Hq. case_decide; [done|]. rewrite Hp by done. unfold s'. rewrite created_pcb, decide_False by done. by apply Hi.
  - intros t'. change (fdw (kern s')) with w. rewrite Hu. split.
    + intros Hl. apply lookup_insert_cases in Hl as [[-> _]|[_ Hl]]; [exists i; apply Hfds; by left|].
      apply (si_tables _ _ Hi) in Hl as [q Hq]. exists q. apply Hfds. by right.
    + intros [q Hq]. apply Hfds in Hq as [[-> ->]|Hq]; [apply list_lookup_insert_eq; by eapply lookup_lt_Some|].
      rewrite list_lookup_insert_ne; [apply (si_tables _ _ Hi); by exists q|]. intros <-. by apply (Hnt q).
  - intros q r t' Hq Hr. apply Hfds in Hq as [[-> ->]|Hq], Hr as [[-> ?]|Hr]; [done| | |by eapply (si_tables_apart _ _ Hi)].
    + by destruct (Hnt r).
    + subst. by destruct (Hnt q).
  - intros q Hq. rewrite Hpcb. case_decide; [by exists j|]. rewrite Hus, decide_False in Hq by done. by apply (si_space _ _ Hi).
  - intros n. change (mem s') with st. rewrite (new_space_live _ _ _ _ Hns), (si_spaces _ _ Hi). split.
    + intros [[[q Hq]|?]| ->]; [left; exists q|done|left; exists i; by rewrite Hpcb, decide_True].
      rewrite Hpcb, decide_False; [done|]. intros <-. congruence.
    + intros [[q Hq]|?]; [|done]. rewrite Hpcb in Hq. case_decide; [right; congruence|left; left; by exists q].
  - done.
  - intros q r c. rewrite !Hpcb. repeat case_decide; subst; try done.
    + intros [= <-] Hr. by destruct (Hnm r).
    + intros Hq [= <-]. by destruct (Hnm q).
    + apply (si_spaces_apart _ _ Hi).
  - intros q. unfold s'. rewrite created_pcb by done. case_decide; [by left|]. apply Hi.
  - intros n Hn. change (mem s') with st. destruct Hns as (sl & _ & _ & _ & _ & _ & ->). rewrite (si_current _ _ Hi) by done.
    unfold loaded_space. change (current (kern s') n) with (current (kern s) n). destruct (current (kern s) n) as [q|] eqn:Eq; [|done].
    rewrite Hpcb, decide_False; [done|]. intros <-. rewrite (current_used _ _ _ _ Hi Eq) in Hfree. done.
Qed.

(** *** What cloning does not touch *)
Lemma paging_map_current root v a fl (st : vmm T) : g_current_context (paging_map root v a fl st).1 = g_current_context st.
Proof. unfold paging_map. by destruct (arch_paging_map _ _ _ _ _ _) as [[? ?] ?]. Qed.

Lemma vmm_map_current c v a fl (st : vmm T) : g_current_context (vmm_map c v a fl st).1 = g_current_context st.
Proof.
  unfold vmm_map. destruct c as [c|]; [|done]. destruct (_ || _); [done|].
  destruct (match find_mapping _ _ _ with Some _ => _ | None => _ end); [done|].
  pose proof (paging_map_current (page_table (ctx st c)) v a (fl .| VMM_PRESENT) st) as Hp.
  destruct (paging_map _ _ _ _ st) as [st1 r]. cbn [fst] in Hp. destruct (r <? 0); [done|].
  by repeat case_match.
Qed.

Lemma share_mapping_current src cl i (st : vmm T) : g_current_context (share_mapping src cl i st).1 = g_current_context st.
Proof.
  unfold share_mapping. set (m := mapping_at st (src, i)). set (cow := owned m && _). cbv zeta.
  set (x := if cow then _ else (st, true)).
  assert (Hx : g_current_context x.1 = g_current_context st).
  { unfold x. destruct cow; [|done].
    pose proof (paging_map_current (page_table (s_context (the_slot st src))) (virt m) (phys m) ((flags m .& Z.lnot VMM_WRITABLE) .| VMM_COW) st) as Hp.
    destruct (paging_map _ _ _ _ st) as [st1 r]. by destruct (r <? 0). }
  clearbody x. destruct x as [st1 ok]. cbn [fst] in Hx. destruct ok; [|done]. cbn [negb]. cbv iota.
  set (y := if owned m then _ else (st1, true)).
  assert (Hy : g_current_context y.1 = g_current_context st).
  { unfold y. destruct (owned m); [|done]. unfold retain_frame. by destruct (pmm_retain_frame _ _). }
  clearbody y. destruct y as [st2 ok2]. cbn [fst] in Hy. destruct ok2; [|done]. cbn [negb]. cbv iota.
  pose proof (vmm_map_current (Some (SlotCtx cl)) (virt m) (phys m) (if cow then (flags m .& Z.lnot VMM_WRITABLE) .| VMM_COW else flags m) st2) as Hm.
  destruct (vmm_map _ _ _ _ st2) as [st3 r]. cbn [fst] in Hm. rewrite <- Hy, <- Hm.
  by repeat case_match.
Qed.

Lemma share_loop_current src cl n : forall i (st : vmm T), g_current_context (share_loop src cl n i st).1 = g_current_context st.
Proof.
  induction n as [|n IH]; intros i st; [done|]. cbn [share_loop]. pose proof (share_mapping_current src cl i st) as Hs.
  destruct (share_mapping src cl i st) as [st1 ok]. cbn [fst] in Hs. destruct ok; [by rewrite IH|done].
Qed.

Lemma restore_loop_current src fs : forall i (st : vmm T), g_current_context (restore_loop src fs i st) = g_current_context st.
Proof.
  induction fs as [|f fs IH]; intros i st; [done|]. cbn [restore_loop]. rewrite IH. destruct (_ =? f); [done|].
  cbn [on_mapping on_slot set_slots g_current_context]. apply paging_map_current.
Qed.

(** *** Destroying a process *)
Lemma switch_space extra st cpu c :
  vm_inv extra st -> ctx_live st c -> (cpu < MAX_CPUS)%nat ->
  let st' := vmm_switch_context cpu (Some c) st in
  vm_inv extra st' /\ g_current_context st' = <[cpu := c]> (g_current_context st) /\ g_slots st' = g_slots st /\ ram st' = ram st.
Proof.
  intros Hi Hl Hc st'. split.
  { apply vmm_switch_context_inv; [done|]. by intros i [= ->]. }
  destruct (vi_cpus _ _ Hi) as [Hlen _]. change Vmm.MAX_CPUS with MAX_CPUS in Hlen.
  destruct (lookup_lt_is_Some_2 (g_current_context st) cpu) as [d Hd]; [by rewrite Hlen|].
  assert (Hp : 0 < page_table (ctx st c)).
  { destruct c as [|i]; [eapply pg_root_pos; apply Hi|]. destruct Hl as (x & Hx & Hu). cbn [ctx]. rewrite (the_slot_eq _ _ _ Hx).
    pose proof (used_root_pos _ _ _ _ Hi Hx Hu). pose proof (pg_root_pos _ _ _ (vi_pg _ _ Hi) (so_root _ _ (vi_slot _ _ Hi i x Hx Hu))). done. }
  unfold st', vmm_switch_context. change (default KernelCtx (Some c)) with c. rewrite list_lookup_total_alt, Hd. cbv zeta.
  change (default inhabitant (Some d)) with d.
  destruct (Z.eqb_spec (page_table (ctx st c)) 0); [lia|]. rewrite orb_false_r. unfold cref_eqb. case_bool_decide as E; [|done].
  subst d. by rewrite list_insert_id.
Qed.

Lemma release_current (st : vmm T) l root :
  g_current_context (fold_left (fun st m => release_mapping root m st) l st) = g_current_context st.
Proof.
  revert st. induction l as [|m l IH]; intros st; [done|].
  cbn [fold_left]. rewrite IH. unfold release_mapping, paging_unmap. destruct (arch_paging_unmap _ _ _). by destruct (owned m).
Qed.

Lemma destroy_current (st : vmm T) c : g_current_context (vmm_destroy_context c st) = g_current_context st.
Proof.
  unfold vmm_destroy_context. destruct (slot_for st c) as [i|]; [|done]. destruct (existsb _ _); [done|].
  pose proof (release_current st (mappings (the_slot st i)) (page_table (ctx st c))) as Hc.
  set (st1 := fold_left _ _ _) in *. destruct (arch_paging_destroy_root _ _ _). cbn. exact Hc.
Qed.

(** An address space that goes away. *)
Definition dropped (st : vmm T) (j : nat) (st' : vmm T) : Prop :=
  g_slots st' = <[j := zero_slot]> (g_slots st) /\ ram st' = ram st /\ g_current_context st' = g_current_context st.

Lemma destroy_space extra st j :
  vm_inv extra st -> ctx_live st (SlotCtx j) -> (forall cpu, g_current_context st !! cpu <> Some (SlotCtx j)) ->
  let st' := vmm_destroy_context (SlotCtx j) st in vm_inv extra st' /\ dropped st j st'.
Proof.
  intros Hi (x & Hx & Hu) Hcur st'. pose proof (destroy_current st (SlotCtx j)) as Hc. fold st' in Hc.
  destruct (vmm_destroy_context_inv extra st (SlotCtx j) Hi) as (Hi' & Hram & _ & Hcase). fold st' in Hi', Hram, Hcase.
  split; [done|]. destruct Hcase as [[_ [Hn|He]]|(i & [= <-] & Hg)]; [| |done].
  - by rewrite (slot_for_slot _ _ _ (vi_len _ _ Hi) Hx Hu) in Hn.
  - apply existsb_exists in He as (d & Hd & He). unfold cref_eqb in He. apply bool_decide_eq_true in He. subst d.
    apply list_elem_of_In, list_elem_of_lookup in Hd as [cpu Hd]. by destruct (Hcur cpu).
Qed.

Lemma dropped_live st j st' i :
  (j < length (g_slots st))%nat -> dropped st j st' -> ctx_live st' (SlotCtx i) <-> ctx_live st (SlotCtx i) /\ i <> j.
Proof.
  intros Hj (Hg & _). cbn [ctx_live]. rewrite Hg. destruct (decide (i = j)) as [->|Hne].
  - rewrite list_lookup_insert_eq by done. split; [|tauto]. intros (x & [= <-] & Hu). done.
  - rewrite list_lookup_insert_ne by done. tauto.
Qed.

(** A process that is in no queue and on no processor can be replaced by
    another such one. *)
Lemma queues_ok_swap k k' p :
  queues_ok k -> length (procs k') = length (procs k) -> runqueues k' = runqueues k ->
  queued (proc k p) = false -> queued (proc k' p) = false -> (cpu_id (proc k' p) < MAX_CPUS)%nat ->
  (forall q, q <> p -> proc k' q = proc k q) -> queues_ok k'.
Proof.
  intros [Ha Hb Hd He] Hl Hr Hq Hq' Hcid Hne. split; [congruence..| |].
  - intros q Hlt. destruct (decide (q = p)) as [->|]; [done|]. rewrite Hne by done. by apply Hd.
  - intros c Hc. unfold queue. rewrite Hr. destruct (He c Hc) as (l & Hh & Hnd & Hin). exists l. split_and!; [done..|].
    intros q. rewrite Hin. destruct (decide (q = p)) as [->|]; [|by rewrite Hne]. rewrite Hq, Hq'. split; by intros (_ & ? & _).
Qed.

Lemma cpus_ok_drop k k' p :
  cpus_ok k -> length (procs k') = length (procs k) -> length (g_current k') = length (g_current k) ->
  switched_from k' = switched_from k -> (forall c, leaving k c <> Some p) ->
  (forall c, current k' c = if bool_decide (current k c = Some p) then None else current k c) ->
  on_cpu (proc k' p) = false -> (forall q, q <> p -> on_cpu (proc k' q) = on_cpu (proc k q)) -> cpus_ok k'.
Proof.
  intros [A1 A2 A3 A4 A5 A6 A7] Hl Hg Hs Hlv Hc Hp Hq.
  assert (Hoc : forall c q, occupies k' c q <-> occupies k c q /\ q <> p).
  { intros c q. unfold occupies, leaving. rewrite Hs, Hc. fold (leaving k c). case_bool_decide as E.
    - split; [intros [?|Hx]; [done|]; split; [by right|]; intros ->; by apply (Hlv c)|]. intros [[Hx|Hx] Hn]; [congruence|by right].
    - split; [intros [Hx|Hx]; (split; [tauto|]); intros ->; [done|by apply (Hlv c)]|]. tauto. }
  split; [congruence|congruence|congruence| | | |].
  - intros q c [Ho Hn]%Hoc. rewrite Hq by done. by apply (A4 q c).
  - intros q Hlt Hon. destruct (decide (q = p)) as [->|Hn]; [congruence|]. rewrite Hq in Hon by done.
    destruct (A5 q Hlt Hon) as [c Hcc]. exists c. by apply Hoc.
  - intros q c c' [H1' _]%Hoc [H2' _]%Hoc. by apply (A6 q).
  - intros q c. rewrite Hc. unfold leaving. rewrite Hs. case_bool_decide; [done|]. apply A7.
Qed.

(** No processor is switching away from [p], and only [cpu] may run it. *)
Definition leaves_alone cpu p s : Prop :=
  (cpu < MAX_CPUS)%nat /\ (forall c, leaving (kern s) c <> Some p) /\ (forall c, current (kern s) c = Some p -> c = cpu).

Definition destroyed_kernel p k : kernel V W :=
  set_process_used p false (on_proc p (fun _ => zero_process)
    (map_g_current (fmap (fun c => if bool_decide (c = Some p) then None else c))
       (map_fdw (fd_table_destroy (fds_of (proc k p))) (scheduler_remove (Some p) k)))).

Definition destroyed_memory cpu p s : vmm T :=
  let x := pcb_of s p in
  let st := mem s in
  let st := if negb (stack x =? 0) && negb (stack_pages x =? 0)
            then set_frames (pmm_free_pages (stack x) (stack_pages x) (frames st)) st else st in
  match mm (space x) with
  | None => st
  | Some c => vmm_destroy_context c (if bool_decide (current (kern s) cpu = Some p) then vmm_switch_context cpu (Some KernelCtx) st else st)
  end.

Lemma process_destroy_eq cpu p s :
  is_used (kern s) p = true ->
  process_destroy cpu (Some p) s = Sys (destroyed_kernel p (kern s)) (alter (fun _ => zero_pcb) p (pcbs s)) (destroyed_memory cpu p s).
Proof.
  intros Hu. unfold process_destroy, destroyed_kernel, destroyed_memory, process_get_current. rewrite Hu. cbv zeta.
  set (s1 := map_kern (fun k => _) (map_kern _ s)). change (pcb_of s1 p) with (pcb_of s p). set (x := pcb_of s p).
  assert (Es1 : s1 = Sys (map_fdw (fd_table_destroy (fds_of (proc (kern s) p))) (scheduler_remove (Some p) (kern s))) (pcbs s) (mem s))
    by (unfold s1, map_kern; cbn [kern pcbs mem]; by rewrite fds_remove).
  rewrite Es1. clearbody x. clear s1 Es1.
  set (k1 := map_fdw _ _). assert (Hc : current k1 cpu = current (kern s) cpu) by apply current_remove.
  clearbody k1.
  destruct (negb (stack x =? 0) && negb (stack_pages x =? 0)); destruct (mm (space x)) as [c|]; try reflexivity;
    unfold map_mem; cbn [kern pcbs mem]; rewrite Hc; case_bool_decide; reflexivity.
Qed.

Lemma stack_ref_free x a : stack_ok x -> (negb (stack x =? 0) && negb (stack_pages x =? 0) = false -> stack_ref a x = 0).
Proof.
  intros [H0'|(Ha & _ & Hn & _)] E; unfold stack_ref; [by rewrite H0'|]. rewrite Hn in E. unfold PROCESS_STACK_PAGES in E. lia.
Qed.

Lemma stack_refs_ge spare s p a : sys_inv spare s -> is_used (kern s) p = true -> stack_ref a (pcb_of s p) <= stack_refs s a.
Proof.
  intros Hi Hu. apply (zsum_ge _ _ p); [|by eapply pcb_lookup]. intros x. unfold stack_ref. split_ifs; [lia|apply run_bounds].
Qed.

Lemma destroyed_memory_inv spare cpu p s :
  sys_inv spare s -> is_used (kern s) p = true -> leaves_alone cpu p s ->
  let st' := destroyed_memory cpu p s in
  exists j, mm_of s p = Some (SlotCtx j) /\ vm_inv (fun a => stack_refs s a - stack_ref a (pcb_of s p)) st' /\
    g_slots st' = <[j := zero_slot]> (g_slots (mem s)) /\ ram st' = ram (mem s) /\
    g_current_context st' = (if bool_decide (current (kern s) cpu = Some p) then <[cpu := KernelCtx]> (g_current_context (mem s))
                             else g_current_context (mem s)) /\
    forall a, 0 <= a -> counted (stack_refs s) (mem s) a -> counted (fun a => stack_refs s a - stack_ref a (pcb_of s p)) st' a.
Proof.
  intros Hi Hu (Hcpu & _ & Honly). destruct (si_space _ _ Hi p Hu) as [j Hj]. exists j. split; [done|].
  unfold destroyed_memory. unfold mm_of in Hj. rewrite Hj. set (x := pcb_of s p) in *.
  set (st1 := if negb _ && _ then _ else mem s).
  assert (Hst1 : vm_inv (fun a => stack_refs s a - stack_ref a x) st1 /\ g_slots st1 = g_slots (mem s) /\ ram st1 = ram (mem s) /\
                 g_current_context st1 = g_current_context (mem s) /\
                 forall a, 0 <= a -> counted (stack_refs s) (mem s) a -> counted (fun a => stack_refs s a - stack_ref a x) st1 a).
  { unfold st1. pose proof (si_stack _ _ Hi p) as Hok. fold x in Hok. destruct (_ && _) eqn:E.
    - destruct Hok as [H0'|(Ha & Hal & Hn & Hend)]; [rewrite H0' in E; done|].
      assert (Hrun : forall a, stack_ref a x = run (stack x) PROCESS_STACK_PAGES a)
        by (intros a; unfold stack_ref; rewrite Hn; destruct (Z.eqb_spec (stack x) 0); [lia|done]).
      assert (Hle : forall a, run (stack x) PROCESS_STACK_PAGES a <= stack_refs s a).
      { intros a. pose proof (stack_refs_ge _ _ _ a Hi Hu) as Hge. fold x in Hge. by rewrite Hrun in Hge. }
      rewrite Hn in *. split; [|split; [done|split; [done|split; [done|]]]].
      + eapply vm_inv_ext; [|apply (inv_free_pages_at (stack_refs s) (mem s) PROCESS_STACK_PAGES (stack x) (si_vm _ _ Hi)); [done|lia|done|done|done]].
        intros a. by rewrite Hrun.
      + intros a Ha' Hca. pose proof (free_pages_counted _ _ PROCESS_STACK_PAGES (stack x) a (si_vm _ _ Hi) ltac:(done) ltac:(lia) Hal Hend Hle Ha' Hca) as [A B].
        split; [exact A|]. rewrite Hrun. exact B.
    - assert (Hz : forall a, stack_ref a x = 0) by (intros; by apply stack_ref_free).
      split; [eapply vm_inv_ext; [|apply Hi]; intros a; rewrite Hz; lia|]. split; [done|]. split; [done|]. split; [done|].
      intros a _ [A B]. split; [done|]. rewrite Hz. lia. }
  destruct Hst1 as (Hv1 & Hg1 & Hr1 & Hc1 & Hn1).
  set (st2 := if bool_decide _ then _ else st1).
  assert (Hst2 : vm_inv (fun a => stack_refs s a - stack_ref a x) st2 /\ g_slots st2 = g_slots (mem s) /\ ram st2 = ram (mem s) /\
     g_current_context st2 = (if bool_decide (current (kern s) cpu = Some p) then <[cpu := KernelCtx]> (g_current_context (mem s))
                             else g_current_context (mem s)) /\
     forall a, 0 <= a -> counted (stack_refs s) (mem s) a -> counted (fun a => stack_refs s a - stack_ref a x) st2 a).
  { unfold st2. case_bool_decide; [|done].
    destruct (switch_space _ st1 cpu KernelCtx Hv1 I Hcpu) as (A & B & C & D). split; [done|]. rewrite B, C, D, Hg1, Hr1, Hc1.
    split; [done|]. split; [done|]. split; [done|]. intros a Ha Hca. unfold vmm_switch_context. case_match; exact (Hn1 a Ha Hca). }
  destruct Hst2 as (Hv2 & Hg2 & Hr2 & Hc2 & Hn2).
  assert (Hlive : ctx_live st2 (SlotCtx j)).
  { cbn [ctx_live]. rewrite Hg2. apply (si_spaces _ _ Hi j). left. by exists p. }
  destruct (destroy_space _ st2 j Hv2 Hlive) as (Hv3 & Hg3 & Hr3 & Hc3).
  { intros c Hc. rewrite Hc2 in Hc. assert (Hlt : (c < MAX_CPUS)%nat).
    { apply lookup_lt_Some in Hc. destruct (vi_cpus _ _ (si_vm _ _ Hi)) as [Hl _]. change Vmm.MAX_CPUS with MAX_CPUS in Hl.
      case_bool_decide; rewrite ?length_insert in Hc; lia. }
    assert (Hsp : loaded_space s c = SlotCtx j -> current (kern s) c = Some p).
    { unfold loaded_space. destruct (current (kern s) c) as [q|]; [|done]. destruct (mm_of s q) as [d|] eqn:Eq; [|done]. cbn. intros ->.
      by rewrite (si_spaces_apart _ _ Hi q p (SlotCtx j)). }
    case_bool_decide as Ec.
    - apply lookup_insert_cases in Hc as [[_ ?]|[Hne Hc]]; [done|]. rewrite (si_current _ _ Hi) in Hc by done. injection Hc as Hc.
      apply Hsp, Honly in Hc. congruence.
    - rewrite (si_current _ _ Hi) in Hc by done. injection Hc as Hc. pose proof (Hsp Hc) as Hcp. rewrite (Honly _ Hcp) in Hcp. done. }
  split; [done|]. rewrite Hg3, Hr3, Hc3, Hg2, Hr2, Hc2. split; [done|]. split; [done|]. split; [done|].
  intros a Ha Hca. exact (destroy_counted _ st2 (SlotCtx j) a Hv2 Ha (Hn2 a Ha Hca)).
Qed.

Lemma destroyed_sched k p cpu :
  sched_ok k -> (p < MAX_PROCESSES)%nat -> (forall c, leaving k c <> Some p) -> (forall c, current k c = Some p -> c = cpu) ->
  sched_ok (destroyed_kernel p k) /\
  (forall c, current (destroyed_kernel p k) c = if bool_decide (current k c = Some p) then None else current k c) /\
  (forall q, proc (destroyed_kernel p k) q = if decide (q = p) then zero_process else proc k q).
Proof.
  intros Hok Hp Hlv Honly. assert (Hok1 : sched_ok (scheduler_remove (Some p) k)) by (apply scheduler_remove_ok; [done|by intros ? [= <-]]).
  set (k1 := scheduler_remove (Some p) k) in *.
  assert (Hlen1 : length (procs k1) = MAX_PROCESSES) by apply (proj1 Hok1).
  assert (Hq1 : queued (proc k1 p) = false).
  { unfold k1. destruct (scheduler_remove_spec k p (proj1 Hok) Hp) as [[Hq ->]|(_ & l1 & l2 & nx & _ & _ & ->)]; [done|].
    rewrite proc_on_proc_eq; [done|]. cbn. rewrite (qo_procs _ (proj1 Hok)). lia. }
  set (k' := destroyed_kernel p k).
  assert (Hcur : forall c, current k' c = if bool_decide (current k c = Some p) then None else current k c).
  { intros c. rewrite <- (current_remove (Some p) k c). fold k1. unfold current. change (g_current k') with ((fun c => if bool_decide (c = Some p) then None else c) <$> g_current k1).
    rewrite list_lookup_fmap. destruct (g_current k1 !! c) as [o|]; cbn; [|by case_bool_decide]. done. }
  assert (Hproc : forall q, proc k' q = if decide (q = p) then zero_process else proc k q).
  { intros q. change (proc k' q) with (proc (on_proc p (fun _ => zero_process) k1) q). case_decide as Hd.
    - subst. by rewrite proc_on_proc_eq by lia.
    - rewrite proc_on_proc_ne by done. unfold k1. by rewrite proc_remove_ne. }
  assert (Hl : length (procs k') = length (procs k1)) by apply length_alter.
  assert (Hproc1 : forall q, q <> p -> proc k' q = proc k1 q).
  { intros q Hne. rewrite Hproc, decide_False by done. unfold k1. by rewrite proc_remove_ne. }
  split; [|done]. split.
  - apply (queues_ok_swap k1 k' p (proj1 Hok1)); [done|done|done| | |done]; rewrite Hproc, decide_True by done; [done|cbn; unfold MAX_CPUS; lia].
  - apply (cpus_ok_drop k1 k' p (proj2 Hok1)); [done| |done| | | |].
    + apply length_fmap.
    + intros c. assert (E : leaving k1 c = leaving k c) by (unfold k1, leaving, scheduler_remove, dequeue_locked; by repeat case_match). by rewrite E.
    + intros c. unfold k1. by rewrite current_remove.
    + by rewrite Hproc, decide_True.
    + intros q Hne. by rewrite Hproc1.
Qed.

Lemma process_destroy_inv spare cpu p s :
  sys_inv spare s -> is_used (kern s) p = true -> leaves_alone cpu p s ->
  sys_inv spare (process_destroy cpu (Some p) s).
Proof.
  intros Hi Hu Halone. destruct (destroyed_memory_inv _ _ _ _ Hi Hu Halone) as (j & Hj & Hv & Hg & _ & Hcc & _).
  pose proof Halone as (Hcpu & Hlv & Honly). pose proof (used_lt _ _ _ Hi Hu) as Hp.
  destruct (destroyed_sched (kern s) p cpu (si_sched _ _ Hi) Hp Hlv Honly) as (Hsched & Hcur & Hproc).
  rewrite process_destroy_eq by done. set (k' := destroyed_kernel p (kern s)) in *. set (st' := destroyed_memory cpu p s) in *.
  set (s' := Sys k' _ st').
  assert (Hpcb : forall q, pcb_of s' q = if decide (q = p) then zero_pcb else pcb_of s q).
  { intros q. change (pcb_of s' q) with (pcb_of (on_pcb p (fun _ => zero_pcb) s) q). rewrite pcb_on_pcb, (si_pcbs _ _ Hi).
    destruct (decide (q = p)) as [->|Hne]; [by rewrite decide_True|]. rewrite decide_False; [done|]. by intros [<- _]. }
  assert (Hmm : forall q c, mm_of s' q = Some c <-> mm_of s q = Some c /\ q <> p).
  { intros q c. unfold mm_of. rewrite Hpcb. destruct (decide (q = p)) as [Hqp|Hqp]; [cbn; split; [done|by intros []]|]. by split; [|intros []]. }
  assert (Hfds : forall q t, fds_of (proc k' q) = Some t <-> fds_of (proc (kern s) q) = Some t /\ q <> p).
  { intros q t. rewrite Hproc. destruct (decide (q = p)) as [Hqp|Hqp]; [cbn; split; [done|by intros []]|]. by split; [|intros []]. }
  assert (Hus : forall q, is_used k' q = if decide (p = q) then false else is_used (kern s) q).
  { intros q. unfold k', destroyed_kernel. rewrite is_used_set.
    - destruct (decide (p = q)); [done|]. unfold is_used. cbn [Proc.used on_proc map_procs map_g_current map_fdw]. by destruct (fdw_remove (Some p) (kern s)) as [_ ->].
    - cbn [Proc.used on_proc map_procs map_g_current map_fdw]. destruct (fdw_remove (Some p) (kern s)) as [_ ->]. by rewrite (si_used _ _ Hi). }
  assert (Hw : fdw k' = fd_table_destroy (fds_of (proc (kern s) p)) (fdw (kern s))).
  { change (fdw k') with (fd_table_destroy (fds_of (proc (kern s) p)) (fdw (scheduler_remove (Some p) (kern s)))).
    by destruct (fdw_remove (Some p) (kern s)) as [-> _]. }
  assert (Hfd : fd_inv acct base (fdw k') /\ forall t, g_fd_table_used (fdw k') !! t = Some true <->
             g_fd_table_used (fdw (kern s)) !! t = Some true /\ fds_of (proc (kern s) p) <> Some t).
  { rewrite Hw. destruct (fds_of (proc (kern s) p)) as [t0|] eqn:Et; [|split; [apply Hi|intros t; split; [done|tauto]]].
    pose proof (table_live _ _ _ _ Hi Et) as Ht0. split; [apply (fd_table_destroy_inv acct base Hbase t0 (fdw (kern s)) (si_fd _ _ Hi) Ht0)|]. intros t.
    rewrite (destroyed_table _ _ (si_fd _ _ Hi) Ht0). split.
    - intros Hl. apply lookup_insert_cases in Hl as [[_ ?]|[Hne Hl]]; [done|]. split; [done|congruence].
    - intros [Hl Hne]. rewrite list_lookup_insert_ne; [done|]. congruence. }
  destruct Hfd as [Hfd Htab]. 
  assert (Hjl : (j < length (g_slots (mem s)))%nat).
  { assert (Hl : ctx_live (mem s) (SlotCtx j)) by (apply (si_spaces _ _ Hi); left; by exists p). destruct Hl as (x & Hx & _). by eapply lookup_lt_Some. }
  assert (Hlive : forall n, ctx_live st' (SlotCtx n) <-> ctx_live (mem s) (SlotCtx n) /\ n <> j).
  { intros n. cbn [ctx_live]. rewrite Hg. destruct (decide (n = j)) as [->|Hne].
    - rewrite list_lookup_insert_eq by done. split; [|tauto]. by intros (x & [= <-] & ?).
    - rewrite list_lookup_insert_ne by done. tauto. }
  clear Hw. constructor; cbn [kern pcbs mem]; try done.
  - unfold s'. cbn [pcbs]. rewrite length_alter. apply Hi.
  - unfold s', k', destroyed_kernel. cbn [kern Proc.used set_process_used on_proc map_procs map_g_current map_fdw]. rewrite length_insert.
    destruct (fdw_remove (Some p) (kern s)) as [_ ->]. apply Hi.
  - eapply vm_inv_ext; [|exact Hv]. intros a. cbv beta. symmetry.
    etransitivity; [apply (stack_refs_pcb s p (fun _ => zero_pcb) a _ (pcb_lookup _ _ _ Hi Hu))|]. cbn. lia.
  - intros q Hq. change (kern s') with k' in *. rewrite Hus in Hq. rewrite Hproc, Hpcb. destruct (decide (p = q)) as [<-|Hne]; [by rewrite !decide_True|].
    rewrite !decide_False by congruence. by apply (si_free _ _ Hi).
  - intros t. change (kern s') with k'. rewrite Htab, (si_tables _ _ Hi). split.
    + intros [[q Hq] Hne]. exists q. apply Hfds. split; [done|]. congruence.
    + intros [q Hq]. apply Hfds in Hq as [Hq Hne]. split; [by exists q|]. intros Hpt. apply Hne. by eapply (si_tables_apart _ _ Hi).
  - intros q r t Hq Hr. change (kern s') with k' in *. apply Hfds in Hq as [Hq _], Hr as [Hr _]. by eapply (si_tables_apart _ _ Hi).
  - intros q Hq. change (kern s') with k' in *. rewrite Hus in Hq. destruct (decide (p = q)); [done|]. destruct (si_space _ _ Hi q Hq) as [j2 Hn].
    exists j2. apply Hmm. split; [done|congruence].
  - intros n. change (mem s') with st'. rewrite Hlive, (si_spaces _ _ Hi). split.
    + intros [[[q Hq]|?] Hne]; [left; exists q|by right]. apply Hmm. split; [done|]. intros ->. congruence.
    + intros [[q Hq]|Hsp].
      * apply Hmm in Hq as [Hq Hne]. split; [left; by exists q|]. intros ->. apply Hne. by eapply (si_spaces_apart _ _ Hi).
      * split; [by right|]. intros ->. by apply (si_spare _ _ Hi j p Hsp).
  - intros n q Hsp Hq. apply Hmm in Hq as [Hq _]. by apply (si_spare _ _ Hi n q Hsp).
  - intros q r c Hq Hr. apply Hmm in Hq as [Hq _], Hr as [Hr _]. by eapply (si_spaces_apart _ _ Hi).
  - intros q. rewrite Hpcb. destruct (decide (q = p)); [by left|apply Hi].
  - intros c Hc. change (mem s') with st'. rewrite Hcc. unfold loaded_space. change (kern s') with k'. rewrite Hcur.
    pose proof (si_current _ _ Hi c Hc) as Hsc. unfold loaded_space in Hsc.
    destruct (decide (current (kern s) c = Some p)) as [Ecp|Ecp].
    + assert (c = cpu) as -> by (by apply Honly). rewrite !bool_decide_true by exact Ecp. apply list_lookup_insert_eq. by eapply lookup_lt_Some.
    + rewrite (bool_decide_false (current (kern s) c = Some p)) by done.
      assert (E : forall d, (if bool_decide (current (kern s) cpu = Some p) then <[cpu:=KernelCtx]> (g_current_context (mem s)) else g_current_context (mem s)) !! c = Some d <-> g_current_context (mem s) !! c = Some d).
      { intros d. case_bool_decide as Ec; [|done]. by rewrite list_lookup_insert_ne by congruence. }
      apply E. rewrite Hsc. destruct (current (kern s) c) as [q|] eqn:Eq; [|done]. f_equal. f_equal. unfold mm_of. rewrite Hpcb, decide_False; [done|]. congruence.
Qed.

(** A destroyed process gives back the references it held: the frames it
    shared keep those of the others, and the rest are free. *)
Lemma process_destroy_counted spare cpu p s a :
  sys_inv spare s -> is_used (kern s) p = true -> leaves_alone cpu p s -> 0 <= a -> 0 < owners (mem s) a + stack_refs s a ->
  let s' := process_destroy cpu (Some p) s in
  pmm_frame_refcount a (frames (mem s')) = owners (mem s') a + stack_refs s' a.
Proof.
  intros Hi Hu Halone Ha Hpos s'. destruct (destroyed_memory_inv _ _ _ _ Hi Hu Halone) as (_ & _ & _ & _ & _ & _ & Hc).
  destruct (Hc a Ha (vi_refs _ _ (si_vm _ _ Hi) a Ha Hpos)) as [_ Hr]. unfold s'. rewrite process_destroy_eq by done. cbn [mem].
  rewrite Hr. f_equal. symmetry. etransitivity; [apply (stack_refs_pcb s p (fun _ => zero_pcb) a _ (pcb_lookup _ _ _ Hi Hu))|]. cbn. lia.
Qed.

(** *** Exchanging what a process has *)

(** A table for another one, which is destroyed. *)
Lemma swap_table spare s p t0 t w :
  sys_inv spare s -> is_used (kern s) p = true -> fds_of (proc (kern s) p) = Some t0 ->
  fd_inv acct base w -> g_fd_table_used (fdw (kern s)) !! t = Some false ->
  g_fd_table_used w = <[t := true]> (g_fd_table_used (fdw (kern s))) ->
  sys_inv spare (map_kern (fun k => on_proc p (set_fds_of (Some t)) (map_fdw (fun _ => fd_table_destroy (Some t0) w) k)) s).
Proof.
  intros Hi Hu Ht0 Hw Hf Hus. pose proof (used_lt _ _ _ Hi Hu) as Hp. pose proof (table_live _ _ _ _ Hi Ht0) as Hl0.
  assert (Hne : t <> t0).
  { intros ->. assert (g_fd_table_used (fdw (kern s)) !! t0 = Some true) by (apply (si_tables _ _ Hi); by exists p). congruence. }
  destruct (fd_table_destroy_inv acct base Hbase t0 w Hw Hl0) as [Hw' _]. pose proof (destroyed_table t0 w Hw Hl0) as Hus'.
  rewrite Hus in Hus'. set (w' := fd_table_destroy (Some t0) w) in *. clearbody w'.
  assert (Hfds : forall q, fds_of (proc (on_proc p (set_fds_of (Some t)) (map_fdw (fun _ => w') (kern s))) q) =
                   if decide (q = p) then Some t else fds_of (proc (kern s) q)).
  { intros q. destruct (decide (q = p)) as [->|Hq]; [|by rewrite proc_on_proc_ne].
    rewrite proc_on_proc_eq; [done|]. change (p < length (procs (kern s)))%nat. rewrite (qo_procs _ (proj1 (si_sched _ _ Hi))). lia. }
  assert (Hnt : forall q, fds_of (proc (kern s) q) <> Some t).
  { intros q Hq. assert (g_fd_table_used (fdw (kern s)) !! t = Some true) by (apply (si_tables _ _ Hi); by exists q). congruence. }
  pose proof (si_tables _ _ Hi) as Htab. pose proof (si_tables_apart _ _ Hi) as Hapart.
  destruct Hi. constructor; cbn [map_kern kern pcbs mem]; try done.
  - apply on_proc_ok; [done|]. by apply map_fdw_ok.
  - intros q Hq. change (is_used (kern s) q = false) in Hq. assert (q <> p) by congruence. rewrite proc_on_proc_ne by done. by apply si_free0.
  - intros t'. change (g_fd_table_used w' !! t' = Some true <-> exists q, fds_of (proc (on_proc p (set_fds_of (Some t)) (map_fdw (fun _ => w') (kern s))) q) = Some t').
    rewrite Hus'. split.
    + intros Hl. apply lookup_insert_cases in Hl as [[_ ?]|[Hn0 Hl]]; [done|]. apply lookup_insert_cases in Hl as [[-> _]|[Hn Hl]].
      * exists p. by rewrite Hfds, decide_True.
      * apply Htab in Hl as [q Hq]. exists q. rewrite Hfds, decide_False; [done|]. intros ->. congruence.
    + intros [q Hq]. rewrite Hfds in Hq. destruct (decide (q = p)) as [->|Hqp].
      * injection Hq as <-. rewrite list_lookup_insert_ne by done. apply list_lookup_insert_eq. by eapply lookup_lt_Some.
      * assert (t' <> t0) by (intros ->; apply Hqp; by eapply Hapart). assert (t' <> t) by (intros ->; by apply (Hnt q)).
        rewrite !list_lookup_insert_ne by done. apply Htab. by exists q.
  - intros q r t'. rewrite !Hfds. destruct (decide (q = p)) as [->|], (decide (r = p)) as [->|]; try done.
    + intros [= <-] Hr. by destruct (Hnt r).
    + intros Hq [= <-]. by destruct (Hnt q).
    + apply Hapart.
Qed.

(** An address space in hand. *)
Lemma sys_spare s c st' :
  sys_inv None s -> vm_inv (stack_refs s) st' -> ~ ctx_live (mem s) (SlotCtx c) ->
  (forall n, ctx_live st' (SlotCtx n) <-> ctx_live (mem s) (SlotCtx n) \/ n = c) ->
  g_current_context st' = g_current_context (mem s) -> sys_inv (Some c) (map_mem (fun _ => st') s).
Proof.
  intros Hi Hv Hn Hl Hc. pose proof (si_spaces _ _ Hi) as Hsp. destruct Hi. constructor; cbn [map_mem kern pcbs mem]; try done.
  - intros n. rewrite Hl, Hsp. split; [intros [[[q Hq]|?]| ->]; [left; by exists q|done|by right]|].
    intros [[q Hq]|[= ->]]; [left; left; by exists q|by right].
  - intros n q [= <-] Hq. apply Hn, Hsp. left. by exists q.
  - intros cpu Hlt. by rewrite Hc, si_current0.
Qed.

Lemma spare_not_loaded s c : sys_inv (Some c) s -> forall cpu, g_current_context (mem s) !! cpu <> Some (SlotCtx c).
Proof.
  intros Hi cpu Hc. assert (Hlt : (cpu < MAX_CPUS)%nat).
  { apply lookup_lt_Some in Hc. destruct (vi_cpus _ _ (si_vm _ _ Hi)) as [Hl _]. by change Vmm.MAX_CPUS with MAX_CPUS in Hl; lia. }
  rewrite (si_current _ _ Hi cpu Hlt) in Hc. injection Hc as Hc. unfold loaded_space in Hc.
  destruct (current (kern s) cpu) as [q|]; [|done]. destruct (mm_of s q) as [d|] eqn:Eq; [|done]. cbn in Hc. subst d.
  by apply (si_spare _ _ Hi c q).
Qed.

Lemma drop_spare s c :
  sys_inv (Some c) s ->
  let s' := map_mem (vmm_destroy_context (SlotCtx c)) s in sys_inv None s' /\ dropped (mem s) c (mem s').
Proof.
  intros Hi s'. assert (Hlive : ctx_live (mem s) (SlotCtx c)) by (apply (si_spaces _ _ Hi); by right).
  destruct (destroy_space _ _ _ (si_vm _ _ Hi) Hlive (spare_not_loaded _ _ Hi)) as [Hv Hd]. split; [|done].
  assert (Hcl : (c < length (g_slots (mem s)))%nat) by (destruct Hlive as (x & Hx & _); by eapply lookup_lt_Some).
  pose proof (si_spaces _ _ Hi) as Hsp. pose proof (si_spare _ _ Hi c) as Hns.
  destruct Hi. constructor; unfold s'; cbn [map_mem kern pcbs mem]; try done.
  - intros n. rewrite (dropped_live _ _ _ _ Hcl Hd), Hsp. split.
    + intros [[[q Hq]|[= ->]] Hne]; [left; by exists q|done].
    + intros [[q Hq]|?]; [|done]. split; [left; by exists q|]. intros ->. by apply (Hns q).
  - intros cpu Hlt. destruct Hd as (_ & _ & ->). by rewrite si_current0.
Qed.

(** A process changes to the address space in hand. *)
Lemma take_spare s p j c f st' :
  sys_inv (Some c) s -> is_used (kern s) p = true -> mm_of s p = Some (SlotCtx j) ->
  (forall x, stack (f x) = stack x /\ stack_pages (f x) = stack_pages x /\ mm (space (f x)) = Some (SlotCtx c)) ->
  vm_inv (stack_refs s) st' -> (forall n, ctx_live st' (SlotCtx n) <-> ctx_live (mem s) (SlotCtx n) /\ n <> j) ->
  (forall cpu, (cpu < MAX_CPUS)%nat -> g_current_context st' !! cpu =
     Some (if bool_decide (current (kern s) cpu = Some p) then SlotCtx c else loaded_space s cpu)) ->
  sys_inv None (on_pcb p f (map_mem (fun _ => st') s)).
Proof.
  intros Hi Hu Hj Hf Hv Hl Hc. pose proof (pcb_lookup _ _ _ Hi Hu) as Hlk. pose proof (used_lt _ _ _ Hi Hu) as Hp.
  set (s' := on_pcb p f _).
  assert (Hpcb : forall q, pcb_of s' q = if decide (q = p) then f (pcb_of s p) else pcb_of s q).
  { intros q. unfold s'. rewrite pcb_on_pcb. cbn [map_mem pcbs]. rewrite (si_pcbs _ _ Hi).
    destruct (decide (q = p)) as [->|Hne]; [by rewrite decide_True|]. rewrite decide_False; [done|]. by intros [<- _]. }
  assert (Hmm : forall q, mm_of s' q = if decide (q = p) then Some (SlotCtx c) else mm_of s q).
  { intros q. unfold mm_of. rewrite Hpcb. destruct (decide (q = p)); [apply Hf|done]. }
  assert (Hrefs : forall a, stack_refs s' a = stack_refs s a).
  { intros a. unfold s'. rewrite (stack_refs_pcb (map_mem (fun _ => st') s) p f a _ Hlk). unfold stack_ref.
    destruct (Hf (pcb_of s p)) as (-> & -> & _). change (stack_refs (map_mem (fun _ => st') s) a) with (stack_refs s a). lia. }
  pose proof (si_spaces _ _ Hi) as Hsp. pose proof (fun q => si_spare _ _ Hi c q eq_refl) as Hns. pose proof (si_spaces_apart _ _ Hi) as Hap.
  destruct Hi. constructor; try done.
  - unfold s'. cbn [on_pcb map_mem pcbs]. by rewrite length_alter.
  - eapply vm_inv_ext; [|exact Hv]. intros a. by rewrite Hrefs.
  - intros q Hq. change (is_used (kern s) q = false) in Hq. rewrite Hpcb, decide_False by congruence. by apply si_free0.
  - intros q Hq. rewrite Hmm. destruct (decide (q = p)); [by exists c|]. by apply si_space0.
  - intros n. change (mem s') with st'. rewrite Hl, Hsp. split.
    + intros [[[q Hq]|[= ->]] Hne]; left; [exists q|exists p; by rewrite Hmm, decide_True].
      rewrite Hmm, decide_False; [done|]. intros ->. congruence.
    + intros [[q Hq]|?]; [|done]. rewrite Hmm in Hq. destruct (decide (q = p)) as [->|Hne].
      * injection Hq as <-. split; [by right|]. intros ->. by apply (Hns p).
      * split; [left; by exists q|]. intros ->. apply Hne. by eapply Hap.
  - intros q r d. rewrite !Hmm. destruct (decide (q = p)) as [->|], (decide (r = p)) as [->|]; try done.
    + intros [= <-] Hr. by destruct (Hns r).
    + intros Hq [= <-]. by destruct (Hns q).
    + apply Hap.
  - intros q. rewrite Hpcb. destruct (decide (q = p)); [|apply si_stack0]. unfold stack_ok. destruct (Hf (pcb_of s p)) as (-> & -> & _). apply si_stack0.
  - intros cpu Hlt. change (mem s') with st'. rewrite Hc by done. f_equal. unfold loaded_space. change (kern s') with (kern s).
    case_bool_decide as E; [by rewrite E, Hmm, decide_True|]. destruct (current (kern s) cpu) as [q|]; [|done].
    rewrite Hmm, decide_False; [done|]. congruence.
Qed.

Lemma clone_current extra st st' src r :
  vm_inv extra st -> vmm_clone_context src st = (st', r) -> g_current_context st' = g_current_context st.
Proof.
  intros Hi E. unfold vmm_clone_context in E. destruct src as [src|]; [|by injection E as <- <-].
  destruct (vmm_create_context st) as [st1 c] eqn:Ec. destruct (vmm_create_context_inv _ _ _ _ Hi Ec) as (_ & _ & _ & _ & Hc).
  destruct c as [[|c]|]; [by injection E as <- <-| |by injection E as <- <-].
  destruct (slot_for st1 src) as [i|]; [|by injection E as <- <-]. cbv zeta in E.
  pose proof (share_loop_current i c (length (flags <$> mappings (the_slot st1 i))) 0 st1) as Hs.
  destruct (share_loop _ _ _ _ _) as [st2 ok]. cbn [fst] in Hs. destruct ok; injection E as <- <-.
  - cbn. congruence.
  - by rewrite destroy_current, restore_loop_current, Hs.
Qed.

(** *** Fork *)

(** Cloning adds one address space and leaves the bytes of the others. *)
Lemma clone_other_views extra st st' i c n x :
  vm_inv extra st -> ctx_live st (SlotCtx i) -> vmm_clone_context (Some (SlotCtx i)) st = (st', Some (SlotCtx c)) ->
  n <> c -> view st' (SlotCtx n) x = view st (SlotCtx n) x.
Proof.
  intros Hi Hlive E Hn. destruct (clone_views _ _ _ _ _ Hi Hlive E) as (Hi' & _ & Hkeep & _).
  destruct (vmm_clone_context_inv _ _ _ _ _ Hi Hlive E) as (_ & Hram & _ & _ & y & _ & s2 & Hs2 & _ & _ & _ & Hg).
  apply option_eq. intros b. split; [|apply Hkeep]. rewrite (view_spec _ _ _ _ _ Hi), (view_spec _ _ _ _ _ Hi'), Hram.
  intros (m & (n' & z & [= <-] & Hz & Hm) & Hv & ->). rewrite Hg, list_lookup_insert_ne in Hz by done.
  apply lookup_insert_cases in Hz as [[-> ->]|[Hni Hz]]; [|exists m; split; [by exists n, z|done]].
  cbn in Hm. apply list_elem_of_fmap in Hm as (m0 & -> & Hm0). destruct (share_src_same m0) as (A & B & _).
  exists m0. rewrite <- A, <- B. split; [by exists i, s2|done].
Qed.

(** Views of address spaces other than a dropped one. *)
Lemma slot_view extra extra' st st' j :
  vm_inv extra st -> vm_inv extra' st' -> ram st' = ram st -> g_slots st' !! j = g_slots st !! j ->
  forall x, view st' (SlotCtx j) x = view st (SlotCtx j) x.
Proof.
  intros Hi Hi' Hr Hg x. apply option_eq. intros b. rewrite (view_spec _ _ _ _ _ Hi), (view_spec _ _ _ _ _ Hi'), Hr.
  assert (Hm : forall m, maps st' (SlotCtx j) m <-> maps st (SlotCtx j) m).
  { intros m. split; intros (n & y & [= <-] & Hy & Hin); exists j, y; (split; [done|]); (split; [congruence|done]). }
  split; intros (m & Hin & ?); exists m; (split; [by apply Hm|done]).
Qed.

(** Setting the owner of an address space. *)
Lemma owner_space extra st c v :
  vm_inv extra st -> ctx_live st (SlotCtx c) ->
  let st' := on_ctx (SlotCtx c) (set_owner v) st in
  vm_inv extra st' /\ (forall n, ctx_live st' (SlotCtx n) <-> ctx_live st (SlotCtx n)) /\
  g_current_context st' = g_current_context st /\ (forall n x, view st' (SlotCtx n) x = view st (SlotCtx n) x).
Proof.
  intros Hi (z & Hz & Hu) st'. pose proof (lookup_lt_Some _ _ _ Hz) as Hl.
  assert (Hi' : vm_inv extra st') by (unfold st'; cbn [on_ctx]; rewrite (on_slot_eq _ _ _ _ Hz); by apply inv_context).
  assert (Hg : g_slots st' = <[c := map_context (set_owner v) z]> (g_slots st)) by (unfold st'; cbn [on_ctx]; by rewrite (on_slot_eq _ _ _ _ Hz)).
  split; [done|]. split; [|split; [done|]].
  - intros n. cbn [ctx_live]. rewrite Hg. destruct (decide (n = c)) as [->|Hn]; [|by rewrite list_lookup_insert_ne].
    rewrite list_lookup_insert_eq by done. split; intros _; by eexists.
  - intros n x. destruct (decide (n = c)) as [->|Hn]; [|by eapply slot_view; [done..|rewrite Hg; by apply list_lookup_insert_ne]].
    apply option_eq. intros b. rewrite (view_spec _ _ _ _ _ Hi), (view_spec _ _ _ _ _ Hi').
    assert (Hm : forall m, maps st' (SlotCtx c) m <-> maps st (SlotCtx c) m).
    { intros m. split; intros (n & y & [= <-] & Hy & Hin).
      - rewrite Hg, list_lookup_insert_eq in Hy by done. injection Hy as <-. by exists c, z.
      - rewrite Hz in Hy. injection Hy as <-. eexists c, _. split; [done|]. split; [rewrite Hg; by apply list_lookup_insert_eq|done]. }
    split; intros (m & Hin & ?); exists m; (split; [by apply Hm|done]).
Qed.

(** The address space of a child: a clone of the parent's, which takes the
    place of the one the child was created with. *)
Lemma fork_space s s' p child i j c st f v :
  sys_inv None s -> is_used (kern s) child = true -> (forall cpu, current (kern s) cpu <> Some child) ->
  mm_of s p = Some (SlotCtx i) -> mm_of s child = Some (SlotCtx j) -> p <> child ->
  vmm_clone_context (Some (SlotCtx i)) (mem s) = (st, Some (SlotCtx c)) ->
  (forall x, stack (f x) = stack x /\ stack_pages (f x) = stack_pages x /\ mm (space (f x)) = Some (SlotCtx c)) ->
  s' = map_mem (on_ctx (SlotCtx c) (set_owner v)) (on_pcb child f (map_mem (vmm_destroy_context (SlotCtx j)) (map_mem (fun _ => st) s))) ->
  sys_inv None s' /\ c <> i /\ c <> j /\
  (forall n x, n <> j -> n <> c -> view (mem s') (SlotCtx n) x = view (mem s) (SlotCtx n) x) /\
  (forall x b, view (mem s) (SlotCtx i) x = Some b <-> view (mem s') (SlotCtx c) x = Some b).
Proof.
  intros Hi Hu Hnc Hmp Hmc Hne E Hf ->.
  assert (Hli : ctx_live (mem s) (SlotCtx i)) by (apply (si_spaces _ _ Hi); left; by exists p).
  assert (Hlj : ctx_live (mem s) (SlotCtx j)) by (apply (si_spaces _ _ Hi); left; by exists child).
  destruct (clone_views _ _ _ _ _ (si_vm _ _ Hi) Hli E) as (Hv & Hci & _ & Hcopy).
  destruct (vmm_clone_context_inv _ _ _ _ _ (si_vm _ _ Hi) Hli E) as (_ & _ & _ & Hz & y & Huy & s2 & Hs2 & _ & _ & _ & Hg).
  pose proof (lookup_lt_Some _ _ _ Hz) as Hcl. pose proof (lookup_lt_Some _ _ _ Hs2) as Hil.
  assert (Hij : i <> j) by (intros ->; apply Hne; by eapply (si_spaces_apart _ _ Hi)).
  assert (Hcj : c <> j) by (intros ->; destruct Hlj as (x & Hx & Hux); simplify_eq).
  assert (Hlive : forall n, ctx_live st (SlotCtx n) <-> ctx_live (mem s) (SlotCtx n) \/ n = c).
  { intros n. cbn [ctx_live]. rewrite Hg. destruct (decide (n = c)) as [->|Hnc'].
    - rewrite list_lookup_insert_eq by (by rewrite length_insert). split; [by right|]. intros _. by exists y.
    - rewrite list_lookup_insert_ne by done. destruct (decide (n = i)) as [->|Hni].
      + rewrite list_lookup_insert_eq by done. split; [by left|]. intros _. destruct Hli as (x & Hx & Hux). simplify_eq. by eexists.
      + rewrite list_lookup_insert_ne by done. tauto. }
  assert (Hdead : ~ ctx_live (mem s) (SlotCtx c)) by (intros (x & Hx & Hux); simplify_eq).
  pose proof (clone_current _ _ _ _ _ (si_vm _ _ Hi) E) as Hcur.
  pose proof (sys_spare s c st Hi Hv Hdead Hlive Hcur) as Hi1. set (s1 := map_mem (fun _ => st) s) in *.
  assert (Hlj1 : ctx_live (mem s1) (SlotCtx j)) by (apply Hlive; by left).
  assert (Hload : forall cpu, (cpu < MAX_CPUS)%nat -> loaded_space s1 cpu <> SlotCtx j).
  { intros cpu _. unfold loaded_space. change (kern s1) with (kern s). destruct (current (kern s) cpu) as [q|] eqn:Eq; [|done].
    change (mm_of s1 q) with (mm_of s q). destruct (mm_of s q) as [d|] eqn:Ed; [|done]. cbn. intros ->. apply (Hnc cpu).
    by rewrite Eq, (si_spaces_apart _ _ Hi q child (SlotCtx j)). }
  destruct (destroy_space _ (mem s1) j (si_vm _ _ Hi1) Hlj1) as [Hv2 Hd].
  { intros cpu Hc. assert (Hlt : (cpu < MAX_CPUS)%nat).
    { apply lookup_lt_Some in Hc. destruct (vi_cpus _ _ (si_vm _ _ Hi1)) as [Hl _]. change Vmm.MAX_CPUS with MAX_CPUS in Hl. lia. }
    rewrite (si_current _ _ Hi1 cpu Hlt) in Hc. injection Hc as Hc. by apply (Hload cpu). }
  set (st2 := vmm_destroy_context (SlotCtx j) (mem s1)) in *.
  assert (Hjl : (j < length (g_slots (mem s1)))%nat) by (destruct Hlj1 as (x & Hx & _); by eapply lookup_lt_Some).
  assert (Hlc2 : ctx_live st2 (SlotCtx c)) by (apply (dropped_live _ _ _ _ Hjl Hd); split; [apply Hlive; by right|done]).
  destruct (owner_space _ _ c v Hv2 Hlc2) as (Hv3 & Hlive3 & Hcur3 & Hview3). set (st3 := on_ctx (SlotCtx c) (set_owner v) st2) in *.
  assert (Hview : forall n x, n <> j -> view st3 (SlotCtx n) x = view (mem s1) (SlotCtx n) x).
  { intros n x Hnj. rewrite Hview3. destruct Hd as (Hgd & Hrd & _). eapply slot_view; [apply Hi1|done|done|]. rewrite Hgd. by apply list_lookup_insert_ne. }
  split.
  { apply (take_spare s1 child j c f st3 Hi1 Hu Hmc Hf Hv3).
    - intros n. rewrite <- (dropped_live _ _ _ _ Hjl Hd). apply Hlive3.
    - intros cpu Hlt. rewrite bool_decide_false by apply Hnc. rewrite Hcur3.
      destruct Hd as (_ & _ & ->). by apply (si_current _ _ Hi1). }
  split; [congruence|]. split; [done|]. split.
  - intros n x Hnj Hnc'. change (view st3 (SlotCtx n) x = view (mem s) (SlotCtx n) x). rewrite Hview by done.
    apply (clone_other_views _ _ _ i c n x (si_vm _ _ Hi) Hli E Hnc').
  - intros x b. rewrite Hcopy. change (view st (SlotCtx c) x = Some b <-> view st3 (SlotCtx c) x = Some b). by rewrite Hview.
Qed.

(** *** What an operation on one process leaves alone *)
Record rest_kept p s s' : Prop := {
  rk_used : forall q, q <> p -> is_used (kern s') q = is_used (kern s) q;
  rk_proc : forall q, q <> p -> proc (kern s') q = proc (kern s) q;
  rk_pcb : forall q, q <> p -> pcb_of s' q = pcb_of s q;
  rk_entries : forall q t fd, q <> p -> fds_of (proc (kern s) q) = Some t ->
    entry_at (fdw (kern s')) t fd = entry_at (fdw (kern s)) t fd;
  rk_views : forall q c x, q <> p -> mm_of s q = Some c -> view (mem s') c x = view (mem s) c x;
  rk_current : forall cpu, current (kern s) cpu <> Some p -> current (kern s') cpu = current (kern s) cpu
}.

Lemma rest_kept_trans p s1 s2 s3 : rest_kept p s1 s2 -> rest_kept p s2 s3 -> rest_kept p s1 s3.
Proof.
  intros [A1 A2 A3 A4 A5 A6] [B1 B2 B3 B4 B5 B6]. constructor.
  - intros q Hq. by rewrite B1, A1.
  - intros q Hq. by rewrite B2, A2.
  - intros q Hq. by rewrite B3, A3.
  - intros q t fd Hq Ht. rewrite (B4 q), (A4 q); [done..|]. by rewrite A2.
  - intros q c x Hq Hc. rewrite (B5 q), (A5 q); [done..|]. unfold mm_of. by rewrite A3.
  - intros cpu Hc. rewrite B6; rewrite A6; done.
Qed.

(** A step that keeps memory and descriptors. *)
Lemma rest_kept_local p s s' :
  (forall q, q <> p -> is_used (kern s') q = is_used (kern s) q) -> (forall q, q <> p -> proc (kern s') q = proc (kern s) q) ->
  (forall q, q <> p -> pcb_of s' q = pcb_of s q) -> fdw (kern s') = fdw (kern s) -> mem s' = mem s ->
  (forall cpu, current (kern s) cpu <> Some p -> current (kern s') cpu = current (kern s) cpu) -> rest_kept p s s'.
Proof. intros A B C D E F. constructor; [done|done|done| | |done]; intros; by rewrite ?D, ?E. Qed.

Lemma rest_kept_fdw p s w :
  (forall q t fd, q <> p -> fds_of (proc (kern s) q) = Some t -> entry_at w t fd = entry_at (fdw (kern s)) t fd) ->
  rest_kept p s (map_kern (map_fdw (fun _ => w)) s).
Proof. intros Hw. by constructor. Qed.

Lemma rest_kept_mem p s st' :
  (forall q c x, q <> p -> mm_of s q = Some c -> view st' c x = view (mem s) c x) ->
  rest_kept p s (map_mem (fun _ => st') s).
Proof. intros Hv. by constructor. Qed.

Lemma rest_kept_pcb p s f : rest_kept p s (on_pcb p f s).
Proof. apply rest_kept_local; try done. intros q Hq. by apply pcb_on_pcb_ne. Qed.

Lemma rest_kept_run p s f : rest_kept p s (map_kern (fun k => scheduler_add cpus (Some p) (on_proc p f k)) s).
Proof.
  apply rest_kept_local; cbn [map_kern kern mem]; try done.
  - intros q Hq. unfold is_used. by destruct (fdw_add (Some p) (on_proc p f (kern s))) as [_ ->].
  - intros q Hq. by rewrite proc_add_ne, proc_on_proc_ne.
  - by destruct (fdw_add (Some p) (on_proc p f (kern s))) as [-> _].
  - intros cpu _. by rewrite current_add.
Qed.

Lemma space_slot spare s q : sys_inv spare s -> forall c, mm_of s q = Some c -> exists j, c = SlotCtx j.
Proof.
  intros Hi c Hc. assert (Hu : is_used (kern s) q = true) by (apply (busy_used _ _ _ Hi); right; left; congruence).
  destruct (si_space _ _ Hi q Hu) as [j Hj]. exists j. congruence.
Qed.

Lemma destroy_rest spare cpu p s :
  sys_inv spare s -> is_used (kern s) p = true -> leaves_alone cpu p s -> rest_kept p s (process_destroy cpu (Some p) s).
Proof.
  intros Hi Hu Halone. destruct (destroyed_memory_inv _ _ _ _ Hi Hu Halone) as (j & Hj & Hv & Hg & Hram & _).
  pose proof Halone as (Hcpu & Hlv & Honly). pose proof (used_lt _ _ _ Hi Hu) as Hp.
  destruct (destroyed_sched (kern s) p cpu (si_sched _ _ Hi) Hp Hlv Honly) as (_ & Hcur & Hproc).
  rewrite process_destroy_eq by done. constructor; cbn [kern mem].
  - intros q Hq. unfold destroyed_kernel. destruct (fdw_remove (Some p) (kern s)) as [_ Hus]. rewrite is_used_set.
    + rewrite decide_False by done. unfold is_used. cbn [Proc.used on_proc map_procs map_g_current map_fdw]. by rewrite Hus.
    + cbn [Proc.used on_proc map_procs map_g_current map_fdw]. rewrite Hus. by rewrite (si_used _ _ Hi).
  - intros q Hq. by rewrite Hproc, decide_False.
  - intros q Hq. apply (pcb_on_pcb_ne s p q (fun _ => zero_pcb)). done.
  - intros q t fd Hq Ht. change (fdw (destroyed_kernel p (kern s))) with (fd_table_destroy (fds_of (proc (kern s) p)) (fdw (scheduler_remove (Some p) (kern s)))).
    destruct (fdw_remove (Some p) (kern s)) as [-> _]. destruct (fds_of (proc (kern s) p)) as [t0|] eqn:Et; [|done].
    destruct (fd_table_destroy_inv acct base Hbase t0 (fdw (kern s)) (si_fd _ _ Hi) (table_live _ _ _ _ Hi Et)) as [_ He].
    rewrite He, decide_False; [done|]. intros ->. apply Hq. by eapply (si_tables_apart _ _ Hi).
  - intros q c x Hq Hc. destruct (space_slot _ _ _ Hi c Hc) as [n ->].
    rewrite (slot_view _ _ (mem s) _ n (si_vm _ _ Hi) Hv Hram); [done|]. rewrite Hg. apply list_lookup_insert_ne. intros <-.
    apply Hq. by eapply (si_spaces_apart _ _ Hi).
  - intros c Hc. rewrite Hcur. by rewrite bool_decide_false.
Qed.

Lemma destroy_gone spare cpu p s :
  sys_inv spare s -> is_used (kern s) p = true -> leaves_alone cpu p s ->
  is_used (kern (process_destroy cpu (Some p) s)) p = false.
Proof.
  intros Hi Hu _. pose proof (used_lt _ _ _ Hi Hu) as Hp. rewrite process_destroy_eq by done. cbn [kern]. unfold destroyed_kernel.
  rewrite is_used_set; [by rewrite decide_True|]. cbn [Proc.used on_proc map_procs map_g_current map_fdw].
  destruct (fdw_remove (Some p) (kern s)) as [_ ->]. by rewrite (si_used _ _ Hi).
Qed.

Lemma new_space_views extra extra' st j st' :
  vm_inv extra st -> vm_inv extra' st' -> new_space st j st' ->
  forall n x, n <> j -> view st' (SlotCtx n) x = view st (SlotCtx n) x.
Proof.
  intros Hi Hi' (sl & _ & Hg & _ & _ & Hr & _) n x Hne. apply (slot_view _ _ _ _ _ Hi Hi' Hr). rewrite Hg. by apply list_lookup_insert_ne.
Qed.

(** [process_create]: a new process in use, or nothing. *)
Lemma process_create_inv cpu nm s s' r :
  sys_inv None s -> process_create console cpu nm s = (s', r) ->
  sys_inv None s' /\
  match r with
  | None => (forall p, rest_kept p s s') /\ kern s' = map_fdw (fun _ => fdw (kern s')) (kern s)
  | Some i => rest_kept i s s' /\ is_used (kern s) i = false /\ is_used (kern s') i = true /\
      (forall c, current (kern s') c = current (kern s) c) /\ (forall c, leaving (kern s') c = leaving (kern s) c) /\
      exists t j name pp, nm = Some name /\ mm_of s' i = Some (SlotCtx j) /\
        proc (kern s') i = Process (g_next_pid (kern s)) pp PROCESS_STATE_STOPPED (Some t) 0 0 0 false false 0 (replicate 32 default_action) 0 0 /\
        pcb_of s' i = Pcb (copy_name name) 0 0 0 0 0 0 0 1 (Uproc false (Some (SlotCtx j)) 0 0 0 0) false zero_context [47]
  end.
Proof.
  intros Hi E. destruct (create_cases _ _ _ _ _ Hi E)
    as [(-> & w & st & -> & Hw & Hv & Hsame & Hus & Hent)|(i & t & j & name & w & st & -> & -> & Hfree & Hlt & -> & Hw & Hf & Hus & Hent & Hns & Hv)].
  - pose proof (sys_fdw None s w Hi Hw Hus) as Hi1. split.
    + apply (sys_mem None _ st Hi1 Hv); [|apply Hsame]. intros n. cbn [ctx_live]. destruct Hsame as (Hg & _). cbn [map_kern mem]. by rewrite Hg.
    + split; [|done]. intros p. eapply rest_kept_trans; [apply (rest_kept_fdw p s w); intros; apply Hent|]. apply rest_kept_mem.
      intros q c x _ Hc. by rewrite (same_memory_views _ _ _ _ (si_vm _ _ Hi) Hv Hsame).
  - assert (Hlen : (i < length (procs (kern s)))%nat) by (rewrite (qo_procs _ (proj1 (si_sched _ _ Hi))); lia).
    assert (Hlp : (i < length (pcbs s))%nat) by (rewrite (si_pcbs _ _ Hi); lia).
    assert (Hlu : (i < length (Proc.used (kern s)))%nat) by (rewrite (si_used _ _ Hi); lia).
    assert (Hi' := created_inv cpu i t j name w st s Hi Hfree Hlt Hw Hf Hus Hns Hv). split; [done|].
    assert (Hus' : forall q, is_used (kern (created cpu i t (SlotCtx j) name w st s)) q = if decide (i = q) then true else is_used (kern s) q)
      by (intros q; by apply is_used_set).
    split; [|split_and!; [done|by rewrite Hus', decide_True|done|done|]].
    + constructor.
      * intros q Hq. by rewrite Hus', decide_False.
      * intros q Hq. by apply created_proc.
      * intros q Hq. by rewrite created_pcb, decide_False.
      * intros q t' fd Hq Ht. change (fdw (kern (created cpu i t (SlotCtx j) name w st s))) with w. apply Hent. intros ->.
        assert (g_fd_table_used (fdw (kern s)) !! t = Some true) by (apply (si_tables _ _ Hi); by exists q). congruence.
      * intros q c x Hq Hc. destruct (space_slot _ _ _ Hi c Hc) as [n ->]. change (mem (created cpu i t (SlotCtx j) name w st s)) with st.
        rewrite (new_space_views _ _ _ _ _ (si_vm _ _ Hi) Hv Hns); [done|]. intros ->. apply (new_space_not_live _ _ _ Hns).
        apply (si_spaces _ _ Hi). left. by exists q.
      * done.
    + eexists t, j, name, _. split; [done|]. split; [unfold mm_of; by rewrite created_pcb, decide_True|]. split; [|by rewrite created_pcb, decide_True].
      unfold created. cbn [kern]. set (f := fun _ : process => _).
      change (proc (map_fdw (fun _ => w) (on_proc i f (take_pid (set_process_used i true (kern s))))) i) with (proc (on_proc i f (take_pid (set_process_used i true (kern s)))) i).
      rewrite proc_on_proc_eq by done. reflexivity.
Qed.

(** A process no processor has to do with can be destroyed. *)
Lemma idle_alone cpu p s :
  (cpu < MAX_CPUS)%nat -> (forall c, current (kern s) c <> Some p) -> (forall c, leaving (kern s) c <> Some p) -> leaves_alone cpu p s.
Proof. intros Hc Hcur Hlv. split; [done|]. split; [done|]. intros c Hp. by destruct (Hcur c). Qed.

Lemma unused_idle spare s p c : sys_inv spare s -> is_used (kern s) p = false -> ~ occupies (kern s) c p.
Proof.
  intros Hi Hu Ho. destruct (co_on _ (proj2 (si_sched _ _ Hi)) p c Ho) as [_ Hon]. rewrite (proj1 (si_free _ _ Hi p Hu)) in Hon. done.
Qed.

(** The steps of [process_fork] after the child was created. *)
Definition fork_tables child t0 t w s : system V W T :=
  map_kern (fun k => on_proc child (set_fds_of (Some t)) (map_fdw (fun _ => fd_table_destroy (Some t0) w) k)) s.

Lemma fork_tables_inv s parent child tp t0 t w :
  sys_inv None s -> is_used (kern s) child = true -> fds_of (proc (kern s) child) = Some t0 -> fds_of (proc (kern s) parent) = Some tp ->
  parent <> child -> fd_table_clone (Some tp) (fdw (kern s)) = (w, Some t) ->
  let s' := fork_tables child t0 t w s in
  sys_inv None s' /\ rest_kept child s s' /\ fds_of (proc (kern s') child) = Some t /\
  (forall fd, (fd < FD_TABLE_SIZE)%nat -> entry_at (fdw (kern s')) t fd = entry_at (fdw (kern s)) tp fd).
Proof.
  intros Hi Hu Ht0 Htp Hne E s'. pose proof (fd_table_clone_inv acct base tp (fdw (kern s)) (si_fd _ _ Hi)) as Hc. rewrite E in Hc.
  destruct Hc as (Hw & Hf & Hcopy & Hus & Hent). pose proof (table_live _ _ _ _ Hi Ht0) as Hl0.
  destruct (fd_table_destroy_inv acct base Hbase t0 w Hw Hl0) as [_ He].
  assert (Htab : forall q t', fds_of (proc (kern s) q) = Some t' -> t' <> t).
  { intros q t' Hq ->. assert (g_fd_table_used (fdw (kern s)) !! t = Some true) by (apply (si_tables _ _ Hi); by exists q). congruence. }
  assert (Hfd : fdw (kern s') = fd_table_destroy (Some t0) w) by done.
  split; [by apply swap_table|]. split; [|split].
  - constructor; try done.
    + intros q Hq. unfold s', fork_tables. cbn [map_kern kern]. by rewrite proc_on_proc_ne.
    + intros q t' fd Hq Ht. rewrite Hfd, He, decide_False; [by apply Hent, (Htab q)|]. intros ->. apply Hq. by eapply (si_tables_apart _ _ Hi).
  - unfold s', fork_tables. cbn [map_kern kern]. rewrite proc_on_proc_eq; [done|]. change (child < length (procs (kern s)))%nat.
    rewrite (qo_procs _ (proj1 (si_sched _ _ Hi))). by eapply used_lt.
  - intros fd Hlt. rewrite Hfd, He, decide_False; [by apply Hcopy|]. intros <-. by apply (Htab child t Ht0).
Qed.

(** What a child has of its parent. *)
Record forked s parent child s' : Prop := {
  fk_rest : rest_kept child s s';
  fk_new : is_used (kern s) child = false /\ is_used (kern s') child = true;
  fk_fds : exists tp t, fds_of (proc (kern s) parent) = Some tp /\ fds_of (proc (kern s') child) = Some t /\
    forall fd, (fd < FD_TABLE_SIZE)%nat -> entry_at (fdw (kern s')) t fd = entry_at (fdw (kern s)) tp fd;
  fk_space : exists i c, mm_of s parent = Some (SlotCtx i) /\ mm_of s' child = Some (SlotCtx c) /\ c <> i /\
    forall x b, view (mem s) (SlotCtx i) x = Some b <-> view (mem s') (SlotCtx c) x = Some b;
  fk_proc : proc (kern s') child = set_queued true (set_cpu_id (cpu_id (proc (kern s') child))
    (inherit_proc (proc (kern s) parent)
       (Process (g_next_pid (kern s)) 0 PROCESS_STATE_STOPPED (fds_of (proc (kern s') child)) 0 0 0 false false 0 (replicate 32 default_action) 0 0)));
  fk_pcb : exists saved, stack (pcb_of s' child) <> 0 /\ pcb_of s' child =
    inherit (pcb_of s parent) (set_stack (stack (pcb_of s' child)) (stack_pages (pcb_of s' child)) saved
      (Pcb (copy_name (name (pcb_of s parent))) 0 0 0 0 0 0 0 1 (Uproc false (mm_of s' child) 0 0 0 0) false zero_context [47]))
}.

Definition idle_process s p : Prop := forall c, current (kern s) c <> Some p /\ leaving (kern s) c <> Some p.

(** The end of a fork: the address space, the kernel stack, the fields a
    child inherits. *)
Definition fork_end cpu parent child s : system V W T * option nat :=
  let '(st, address_space) := vmm_clone_context (mm_of s parent) (mem s) in
  let s := map_mem (fun _ => st) s in
  match address_space with
  | None => (process_destroy cpu (Some child) s, None)
  | Some c =>
      let s := match mm_of s child with Some old => map_mem (vmm_destroy_context old) s | None => s end in
      let s := on_pcb child (fun x => set_space (set_mm (Some c) (space x)) x) s in
      let s := map_mem (on_ctx c (set_owner (Proc.pid (proc (kern s) child)))) s in
      let '(s, result) := allocate_kernel_stack trampoline child s in
      if result <? 0 then (process_destroy cpu (Some child) s, None)
      else
        let x := pcb_of s parent in
        let k := proc (kern s) parent in
        let s := on_pcb child (inherit x) s in
        (map_kern (fun k0 => scheduler_add cpus (Some child) (on_proc child (inherit_proc k) k0)) s, Some child)
  end.

Lemma fork_end_spec s cpu parent child s' r :
  sys_inv None s -> is_used (kern s) child = true -> is_used (kern s) parent = true -> parent <> child -> idle_process s child ->
  queued (proc (kern s) child) = false ->
  fork_end cpu parent child s = (s', r) ->
  match r with
  | None => exists s3, s' = process_destroy cpu (Some child) s3 /\ sys_inv None s3 /\ rest_kept child s s3 /\
      is_used (kern s3) child = true /\ idle_process s3 child
  | Some x => x = child /\ sys_inv None s' /\ rest_kept child s s' /\ is_used (kern s') child = true /\ fdw (kern s') = fdw (kern s) /\
      (exists i c, mm_of s parent = Some (SlotCtx i) /\ mm_of s' child = Some (SlotCtx c) /\ c <> i /\
         forall x b, view (mem s) (SlotCtx i) x = Some b <-> view (mem s') (SlotCtx c) x = Some b) /\
      (exists n, proc (kern s') child = set_queued true (set_cpu_id n (inherit_proc (proc (kern s) parent) (proc (kern s) child)))) /\
      exists saved, stack (pcb_of s' child) <> 0 /\ pcb_of s' child =
        inherit (pcb_of s parent) (set_stack (stack (pcb_of s' child)) (stack_pages (pcb_of s' child)) saved
          (set_space (set_mm (mm_of s' child) (space (pcb_of s child))) (pcb_of s child)))
  end.
Proof.
  intros Hi Huc Hup Hne Hid Hnq E. unfold fork_end in E.
  destruct (si_space _ _ Hi parent Hup) as [i Hpi]. destruct (si_space _ _ Hi child Huc) as [j Hcj].
  assert (Hli : ctx_live (mem s) (SlotCtx i)) by (apply (si_spaces _ _ Hi); left; by exists parent).
  rewrite Hpi in E. destruct (vmm_clone_context (Some (SlotCtx i)) (mem s)) as [st a] eqn:Ec.
  destruct (vmm_clone_context_inv _ _ _ _ _ (si_vm _ _ Hi) Hli Ec) as (Hv & Hram & Hrun & Hres).
  pose proof (clone_current _ _ _ _ _ (si_vm _ _ Hi) Ec) as Hcur.
  destruct a as [c|].
  2: { injection E as <- <-. assert (Hsame : same_memory (mem s) st) by (split_and!; [done|intros ?????; by rewrite Hram|done|done]).
       exists (map_mem (fun _ => st) s). split; [done|]. split; [|split; [|done]].
       - apply sys_mem; [done|done| |done]. intros n. cbn [ctx_live]. by rewrite Hres.
       - apply rest_kept_mem. intros q d x _ _. by rewrite (same_memory_views _ _ _ _ (si_vm _ _ Hi) Hv Hsame). }
  destruct c as [|c]; [done|]. assert (Hdead : ~ ctx_live (mem s) (SlotCtx c)) by (destruct Hres as [Hz _]; intros (x & Hx & Hux); simplify_eq).
  cbv zeta in E. change (mm_of (map_mem (fun _ => st) s) child) with (mm_of s child) in E. rewrite Hcj in E.
  set (f := fun x : pcb => set_space (set_mm (Some (SlotCtx c)) (space x)) x) in E.
  set (s3 := map_mem (on_ctx (SlotCtx c) _) _) in E.
  destruct (fork_space s s3 parent child i j c st f _ Hi Huc (fun cpu => proj1 (Hid cpu)) Hpi Hcj Hne Ec ltac:(done) eq_refl)
    as (Hi3 & Hci & Hcj' & Hvk & Hcopy).
  assert (Hr3 : rest_kept child s s3).
  { constructor; try done.
    - intros q Hq. apply (pcb_on_pcb_ne (map_mem (vmm_destroy_context (SlotCtx j)) (map_mem (fun _ => st) s)) child q f). done.
    - intros q d x Hq Hd. destruct (space_slot _ _ _ Hi d Hd) as [n ->]. apply Hvk.
      + intros ->. apply Hq. by eapply (si_spaces_apart _ _ Hi).
      + intros ->. apply Hdead, (si_spaces _ _ Hi). left. by exists q. }
  assert (Hu3 : is_used (kern s3) child = true) by exact Huc.
  assert (Hp3 : pcb_of s3 child = f (pcb_of s child)).
  { change (pcb_of (on_pcb child f s) child = f (pcb_of s child)). by eapply pcb_on_pcb_eq. }
  destruct (allocate_kernel_stack trampoline child s3) as [s4 r4] eqn:Ea.
  destruct (allocate_stack_inv None s3 child s4 r4 Hi3 Hu3 Ea) as (Hi4 & Hk4 & Hsame4 & Hr4 & Hpcb4 & Hoth4).
  assert (Hview4 : forall d x, view (mem s4) d x = view (mem s3) d x) by (by eapply same_memory_views; [apply Hi3|apply Hi4|]).
  assert (Hrk4 : rest_kept child s s4).
  { eapply rest_kept_trans; [exact Hr3|]. constructor; try (intros; by rewrite Hk4).
    - done.
    - intros q d x _ _. by rewrite Hview4. }
  assert (Hu4 : is_used (kern s4) child = true) by (by rewrite Hk4).
  assert (Hmm4 : mm_of s4 child = Some (SlotCtx c)) by (unfold mm_of; by rewrite Hpcb4, Hp3).
  destruct Hr4 as [-> |[-> Hst]].
  { change (- ENOMEM <? 0) with true in E. cbv iota in E. injection E as <- <-. exists s4. split_and!; try done.
    intros d. rewrite Hk4. apply Hid. }
  change (0 <? 0) with false in E. cbv iota in E. injection E as <- <-.
  set (s5 := on_pcb child (inherit (pcb_of s4 parent)) s4). set (g := inherit_proc (proc (kern s4) parent)).
  assert (Hi5 : sys_inv None s5) by by apply sys_pcb.
  set (s6 := map_kern _ s5).
  assert (Hi6 : sys_inv None s6) by by apply sys_run.
  assert (Hp5 : pcb_of s6 child = inherit (pcb_of s4 parent) (pcb_of s4 child)) by exact (pcb_on_pcb_eq None s4 child _ Hi4 Hu4).
  assert (Hk5 : kern s6 = scheduler_add cpus (Some child) (on_proc child g (kern s))) by (unfold s6, s5; cbn [map_kern on_pcb kern]; by rewrite Hk4).
  assert (Hmm6 : mm_of s6 child = Some (SlotCtx c)) by (unfold mm_of in *; by rewrite Hp5).
  assert (Hlen : (child < length (procs (kern s)))%nat) by (rewrite (qo_procs _ (proj1 (si_sched _ _ Hi))); apply (used_lt _ _ _ Hi Huc)).
  split; [done|]. split; [done|]. split; [|split; [|split; [|split; [|split]]]].
  - eapply rest_kept_trans; [exact Hrk4|]. eapply rest_kept_trans; [apply rest_kept_pcb|]. apply rest_kept_run.
  - unfold is_used. rewrite Hk5. destruct (fdw_add (Some child) (on_proc child g (kern s))) as [_ ->]. exact Huc.
  - rewrite Hk5. by destruct (fdw_add (Some child) (on_proc child g (kern s))) as [-> _].
  - exists i, c. split_and!; try done. intros x b. rewrite Hcopy. change (mem s6) with (mem s4). by rewrite Hview4.
  - rewrite Hk5.
    destruct (scheduler_add_spec (on_proc child g (kern s)) cpus child) as (n & l & _ & _ & _ & _ & Eq & _); [|done|apply (used_lt _ _ _ Hi Huc)| |].
    + apply (on_proc_ok (kern s) child g); [done|apply Hi].
    + by rewrite proc_on_proc_eq.
    + exists n. rewrite Eq, proc_on_proc_eq by (change (child < length (procs (on_proc child g (kern s))))%nat; by rewrite length_on_proc).
      change (proc (map_runqueues _ _) child) with (proc (on_proc child g (kern s)) child). rewrite proc_on_proc_eq by done. unfold g. by rewrite Hk4.
  - exists (saved_stack (pcb_of s4 child)). rewrite Hmm6, Hp5. split; [exact Hst|].
    rewrite (rk_pcb _ _ _ Hrk4) by done. rewrite Hpcb4, Hp3. reflexivity.
Qed.

Lemma process_fork_spec cpu parent s s' r :
  sys_inv None s -> is_used (kern s) parent = true -> (cpu < MAX_CPUS)%nat -> process_fork trampoline console cpus cpu (Some parent) s = (s', r) ->
  sys_inv None s' /\
  match r with
  | None => (forall q, is_used (kern s') q = is_used (kern s) q) /\ exists p, is_used (kern s) p = false /\ rest_kept p s s'
  | Some child => forked s parent child s'
  end.
Proof.
  intros Hi Hup Hcpu E. unfold process_fork in E.
  destruct (process_create console cpu _ s) as [s1 rc] eqn:Ec. destruct (process_create_inv _ _ _ _ _ Hi Ec) as [Hi1 Hcr].
  destruct rc as [child|].
  2: { injection E as <- <-. destruct Hcr as [Hrest Hk]. split; [done|]. split; [intros q; by rewrite Hk|].
       exists MAX_PROCESSES. split; [|apply Hrest]. unfold is_used. rewrite lookup_ge_None_2; [done|]. by rewrite (si_used _ _ Hi). }
  destruct Hcr as (Hrest1 & Hfree & Hu1 & Hcur1 & Hlv1 & t0 & j & nm & pp & [= <-] & Hmm1 & Hproc1 & Hpcb1).
  assert (Hne : parent <> child) by congruence.
  assert (Hidle : forall c, current (kern s1) c <> Some child /\ leaving (kern s1) c <> Some child).
  { intros c. rewrite Hcur1, Hlv1. split; intros Hc; apply (unused_idle _ _ _ c Hi Hfree); [by left|by right]. }
  assert (Hfail : forall s2, sys_inv None s2 -> rest_kept child s s2 -> is_used (kern s2) child = true ->
            (forall c, current (kern s2) c <> Some child /\ leaving (kern s2) c <> Some child) ->
            sys_inv None (process_destroy cpu (Some child) s2) /\
            (forall q, is_used (kern (process_destroy cpu (Some child) s2)) q = is_used (kern s) q) /\
            exists p, is_used (kern s) p = false /\ rest_kept p s (process_destroy cpu (Some child) s2)).
  { intros s2 Hi2 Hr2 Hu2 Hid2. assert (Hal : leaves_alone cpu child s2) by (apply idle_alone; [done|apply Hid2..]).
    pose proof (destroy_rest None cpu child s2 Hi2 Hu2 Hal) as Hrd. pose proof (rest_kept_trans _ _ _ _ Hr2 Hrd) as Hr.
    split; [by apply process_destroy_inv|]. split; [|by exists child]. intros q. destruct (decide (q = child)) as [->|Hq].
    - rewrite Hfree. by eapply destroy_gone.
    - by apply (rk_used _ _ _ Hr). }
  assert (Hpar1 : proc (kern s1) parent = proc (kern s) parent) by (by apply (rk_proc _ _ _ Hrest1)).
  assert (Hid1 : map_kern (map_fdw (fun _ => fdw (kern s1))) s1 = s1) by (destruct s1 as [[] ? ?]; done).
  rewrite Hpar1 in E. destruct (fd_table_clone (fds_of (proc (kern s) parent)) (fdw (kern s1))) as [w d] eqn:Et.
  destruct d as [t|].
  2: { assert (w = fdw (kern s1)) as ->.
       { destruct (fds_of (proc (kern s) parent)) as [tp|]; [|by injection Et].
         pose proof (fd_table_clone_inv acct base tp (fdw (kern s1)) (si_fd _ _ Hi1)) as Hc. rewrite Et in Hc. apply Hc. }
       rewrite Hid1 in E. injection E as <- <-. by apply Hfail. }
  destruct (fds_of (proc (kern s) parent)) as [tp|] eqn:Etp; [|done].
  destruct (fork_tables_inv s1 parent child tp t0 t w Hi1 Hu1 ltac:(by rewrite Hproc1) ltac:(by rewrite Hpar1) Hne Et) as (Hi2 & Hr2 & Ht2 & He2).
  assert (E2 : map_kern (on_proc child (set_fds_of (Some t)))
            (map_kern (fun k => map_fdw (fd_table_destroy (fds_of (proc k child))) k) (map_kern (map_fdw (fun _ => w)) s1)) = fork_tables child t0 t w s1).
  { unfold fork_tables, map_kern. cbn [kern pcbs mem]. change (proc (map_fdw (fun _ => w) (kern s1)) child) with (proc (kern s1) child).
    by rewrite Hproc1. }
  cbv zeta in E. rewrite E2 in E. set (s2 := fork_tables child t0 t w s1) in *. clear E2.
  change (fork_end cpu parent child s2 = (s', r)) in E.
  assert (Hu2 : is_used (kern s2) child = true) by exact Hu1.
  assert (Hup2 : is_used (kern s2) parent = true) by (change (is_used (kern s1) parent = true); by rewrite (rk_used _ _ _ Hrest1)).
  assert (Hproc2 : proc (kern s2) child = set_fds_of (Some t) (proc (kern s1) child)).
  { apply (proc_on_proc_eq (map_fdw (fun _ => fd_table_destroy (Some t0) w) (kern s1))). change (child < length (procs (kern s1)))%nat.
    rewrite (qo_procs _ (proj1 (si_sched _ _ Hi1))). apply (used_lt _ _ _ Hi1 Hu1). }
  pose proof (rest_kept_trans _ _ _ _ Hrest1 Hr2) as Hr02.
  assert (Hmmp : mm_of s2 parent = mm_of s parent) by (unfold mm_of; by rewrite (rk_pcb _ _ _ Hr02)).
  pose proof (fork_end_spec s2 cpu parent child s' r Hi2 Hu2 Hup2 Hne Hidle ltac:(by rewrite Hproc2, Hproc1) E) as Hend.
  destruct r as [x|].
  - destruct Hend as (-> & Hi' & Hr3 & Hu' & Hfd & (i & c & Hpi & Hcc & Hci & Hcopy) & (n & Hpr) & saved & Hst & Hpcb). split; [done|].
    rewrite (rk_pcb _ _ _ Hr02) in Hpcb by done. rewrite (rk_proc _ _ _ Hr02) in Hpr by done.
    assert (Hft : fds_of (proc (kern s') child) = Some t) by (by rewrite Hpr, Hproc2).
    constructor.
    + by eapply rest_kept_trans.
    + done.
    + exists tp, t. split_and!; [done..|]. intros fd Hlt. rewrite Hfd, He2 by done. by apply (rk_entries _ _ _ Hrest1 parent).
    + exists i, c. rewrite <- Hmmp. split_and!; [done..|]. intros x b. rewrite <- Hcopy.
      by rewrite (rk_views _ _ _ Hr02 parent (SlotCtx i) x) by (congruence || done).
    + rewrite Hft. rewrite Hpr at 2. rewrite Hpr, Hproc2, Hproc1. reflexivity.
    + exists saved. split; [done|]. rewrite Hpcb at 1. change (pcb_of s2 child) with (pcb_of s1 child). rewrite Hpcb1. reflexivity.
  - destruct Hend as (s3 & -> & Hi3 & Hr3 & Hu3 & Hid3). apply Hfail; [done| |done|done]. by eapply rest_kept_trans.
Qed.

(** *** The start *)
Definition sys_boot (w : fds V W) (st0 : vmm T) : system V W T := Sys (process_init w) (replicate MAX_PROCESSES zero_pcb) (vmm_init st0).

Lemma sys_boot_inv w st0 :
  fd_inv acct base w -> (forall t, g_fd_table_used w !! t <> Some true) -> vm_boot st0 -> sys_inv None (sys_boot w st0).
Proof.
  intros Hw Hno Hb. set (s := sys_boot w st0).
  assert (Hz : forall {A} `{Inhabited A} n (x : A) i, (replicate n x !!! i) = x \/ (replicate n x !!! i) = inhabitant).
  { intros A ? n x i. rewrite list_lookup_total_alt. destruct (replicate n x !! i) eqn:E; [|by right]. apply lookup_replicate in E as [-> _]. by left. }
  assert (Hp : forall p, proc (kern s) p = zero_process /\ pcb_of s p = zero_pcb).
  { intros p. split; [destruct (Hz _ _ MAX_PROCESSES zero_process p)|destruct (Hz _ _ MAX_PROCESSES zero_pcb p)]; done. }
  assert (Hrefs : forall a, stack_refs s a = 0) by (intros a; reflexivity).
  assert (Hdead : forall i, ~ ctx_live (mem s) (SlotCtx i)).
  { intros i (x & Hx & Hu). assert (Hg : g_slots (mem s) = replicate VMM_MAX_CONTEXTS zero_slot).
    { unfold s, sys_boot, vmm_init. cbn [mem]. by destruct (arch_paging_init _). }
    rewrite Hg in Hx. apply lookup_replicate in Hx as [-> _]. done. }
  assert (Hcur : forall c, current (kern s) c = None) by (intros c; apply mjoin_replicate_None).
  assert (Hmm : forall p, mm_of s p = None) by (intros p; unfold mm_of; by rewrite (proj2 (Hp p))).
  assert (Hfds : forall p, fds_of (proc (kern s) p) = None) by (intros p; by rewrite (proj1 (Hp p))).
  constructor; try done.
  - apply boot_ok; [done|]. by apply Forall_replicate.
  - eapply vm_inv_ext; [|by apply vm_boot_inv]. intros a. by rewrite Hrefs.
  - intros t. split; [intros Ht; by destruct (Hno t)|]. intros [p Hpt]. by rewrite Hfds in Hpt.
  - intros p q t. by rewrite Hfds.
  - intros p Hu. unfold is_used in Hu. change (Proc.used (kern s)) with (replicate MAX_PROCESSES false) in Hu.
    destruct (replicate MAX_PROCESSES false !! p) eqn:E; [|done]. apply lookup_replicate in E as [-> _]. done.
  - intros i. split; [intros Hl; by destruct (Hdead i)|]. intros [[p Hpi]|?]; [|done]. by rewrite Hmm in Hpi.
  - intros p q c. by rewrite Hmm.
  - intros p. left. by rewrite (proj2 (Hp p)).
  - intros c Hc. unfold loaded_space. rewrite Hcur. assert (Hg : g_current_context (mem s) = replicate Vmm.MAX_CPUS KernelCtx).
    { unfold s, sys_boot, vmm_init. cbn [mem]. by destruct (arch_paging_init _). }
    rewrite Hg. by apply lookup_replicate.
Qed.
End Invariant.
