(* ===== verification/Exec.v ===== *)
(** * src/proc/process.c: exec, wait and the reachable states

    The theorems about replacing the program of a process and about reaping
    children, over the definitions and the invariant of Process.v. *)
From S2P Require Import Prelude Pmm Fd Vmm Cow Aspace Elf Proc Sched Process.
Open Scope tach_scope.

(** ** The stack page of a new program *)
Section Stack.
Context {T : Type} `{Paging T}.
Context (extra : Z -> Z) (st0 : vmm T) (i : nat) (s0 : slot) (Hs0 : g_slots st0 !! i = Some s0) (Hu0 : Vmm.used s0 = true).
Context (page physical : Z) (loaded : list Z) (Hal : page_aligned page) (Hpage : 0 < page < 2 ^ 32).
Implicit Types (st : vmm T).

(** The address space under construction has the frame [physical] at [page]. *)
Definition stack_at st : Prop :=
  loading extra st0 i s0 (page :: loaded) st /\ exists m, maps st (SlotCtx i) m /\ virt m = page /\ phys m = physical.

(** The bytes [bs] are read at [a]. *)
Definition reads st (a : Z) (bs : list Z) : Prop := forall k b, bs !! k = Some b -> view st (SlotCtx i) (a + Z.of_nat k) = Some b.

Lemma in_page x : page <= x < page + PAGE_SIZE -> page_of x = page /\ x mod PAGE_SIZE = x - page.
Proof.
  intros Hx. rewrite page_of_eq. assert (x mod PAGE_SIZE = x - page) as ->; [|lia].
  unfold page_aligned, PAGE_SIZE in *. clear - Hal Hx. dlia.
Qed.

Lemma stack_bound st : stack_at st -> 0 < physical < 2 ^ 52.
Proof.
  intros (Hl & m & (j & y & [= <-] & Hy & Hm) & _ & <-). destruct (maps_used _ _ _ _ _ (ld_inv _ _ _ _ _ _ Hl) Hy Hm) as [_ Hmo].
  destruct (mo_phys _ _ _ Hmo) as [? [_ ?]]. lia.
Qed.

Lemma stack_store st x bs :
  stack_at st -> bs <> [] -> page <= x -> x + Z.of_nat (length bs) <= page + PAGE_SIZE ->
  let st' := set_ram (mem_store (ram st) (physical + (x - page)) bs) st in
  stack_at st' /\ reads st' x bs /\
  forall y, ~ (x <= y < x + Z.of_nat (length bs)) -> view st' (SlotCtx i) y = view st (SlotCtx i) y.
Proof.
  intros [Hl (m & Hm & Hv & Hp)] Hne Hx Hend st'. assert (0 < length bs)%nat by (destruct bs; [done|cbn; lia]).
  destruct (in_page x ltac:(lia)) as [Hpo Hmod].
  destruct (resolve_maps _ _ _ _ x (ld_inv _ _ _ _ _ _ Hl) Hm ltac:(congruence)) as (Hr & _ & _). rewrite Hp, Hmod in Hr.
  destruct (loading_store extra st0 i s0 Hs0 Hu0 (page :: loaded) st x bs Hl ltac:(rewrite Hpo; by left) ltac:(lia)) as (_ & Hl' & Hview).
  rewrite Hr in Hl', Hview. fold st' in Hl', Hview. split; [|split].
  - split; [done|]. exists m. split; [|done]. destruct Hm as (j & y & ?). by exists j, y.
  - intros k b Hb. pose proof (lookup_lt_Some _ _ _ Hb). rewrite Hview. replace (_ && _) with true by lia. rewrite <- Hb. f_equal. lia.
  - intros y Hy. rewrite Hview. by replace (_ && _) with false by lia.
Qed.

Lemma reads_kept st st' a bs :
  reads st a bs -> (forall y, a <= y < a + Z.of_nat (length bs) -> view st' (SlotCtx i) y = view st (SlotCtx i) y) -> reads st' a bs.
Proof. clear Hs0 Hu0 Hal Hpage. intros Hr Hk k b Hb. pose proof (lookup_lt_Some _ _ _ Hb). rewrite Hk by lia. by apply Hr. Qed.

(** The arguments end up below the cursor, each with its NUL. *)
Lemma push_args_spec rev_args : forall cursor addresses st,
  stack_at st -> page <= cursor <= page + PAGE_SIZE ->
  exists st' r, push_args page physical rev_args cursor addresses st = (st', r) /\ stack_at st' /\
    match r with
    | inl e => e = - E2BIG
    | inr (cursor', addrs) => page <= cursor' <= cursor /\ exists new, addrs = new ++ addresses /\
        Forall2 (fun a arg => cursor' <= a /\ a + Z.of_nat (length arg) < cursor /\ reads st' a (arg ++ [0])) new (rev rev_args) /\
        forall y, ~ (cursor' <= y < cursor) -> view st' (SlotCtx i) y = view st (SlotCtx i) y
    end.
Proof.
  unfold PAGE_SIZE. induction rev_args as [|arg rest IH]; intros cursor addresses st Hst Hc; cbn [push_args].
  { exists st, (inr (cursor, addresses)). split; [done|]. split; [done|]. split; [lia|]. exists []. by split. }
  rewrite (u64_small (cursor - page)) by (unfold is_u64; lia).
  set (len := Z.of_nat (length arg) + 1). destruct (_ || _) eqn:Ebig; [by exists st, (inl (- E2BIG))|].
  rewrite (u64_small (cursor - len)) by (unfold is_u64; lia). pose proof (stack_bound st Hst).
  rewrite (u64_small (physical + (cursor - len) - page)) by (unfold is_u64; lia).
  replace (physical + (cursor - len) - page) with (physical + ((cursor - len) - page)) by lia.
  assert (Hlen : Z.of_nat (length (arg ++ [0])) = len) by (rewrite length_app; cbn; lia).
  destruct (stack_store st (cursor - len) (arg ++ [0]) Hst) as (Hst1 & Hr1 & Hk1); [by destruct arg|lia|unfold PAGE_SIZE; lia|].
  set (st1 := set_ram _ st) in *. destruct (IH (cursor - len) (cursor - len :: addresses) st1 Hst1 ltac:(lia)) as (st' & r & E & Hst' & Hr).
  exists st', r. split; [exact E|]. split; [done|]. destruct r as [e|[cursor' addrs]]; [done|].
  destruct Hr as (Hc' & new & -> & Hall & Hk). split; [lia|]. exists (new ++ [cursor - len]). split; [by rewrite <- app_assoc|]. split.
  - cbn [rev]. apply Forall2_app.
    + eapply Forall2_impl; [exact Hall|]. cbv beta. intros a b (? & ? & ?). split_and!; [lia|lia|done].
    + constructor; [|constructor]. split; [lia|]. split; [lia|]. eapply reads_kept; [exact Hr1|]. intros y Hy. apply Hk. lia.
  - intros y Hy. rewrite Hk by lia. apply Hk1. lia.
Qed.

Lemma length_le n x : length (le n x) = n.
Proof. unfold le. by rewrite length_fmap, length_seq. Qed.

Lemma store_words_spec ws : forall x st,
  stack_at st -> page <= x -> x + 8 * Z.of_nat (length ws) <= page + PAGE_SIZE ->
  let st' := store_words (physical + (x - page)) ws st in
  stack_at st' /\ reads st' x (ws ≫= le 8) /\
  forall y, ~ (x <= y < x + 8 * Z.of_nat (length ws)) -> view st' (SlotCtx i) y = view st (SlotCtx i) y.
Proof.
  induction ws as [|w ws IH]; intros x st Hst Hx Hend; [by split_and!|]. cbn [store_words length] in *.
  destruct (stack_store st x (le 8 w) Hst) as (Hst1 & Hr1 & Hk1); [done|lia|rewrite length_le; lia|]. rewrite length_le in Hk1.
  set (st1 := set_ram _ st) in *. replace (physical + (x - page) + 8) with (physical + (x + 8 - page)) by lia.
  destruct (IH (x + 8) st1 Hst1 ltac:(lia) ltac:(lia)) as (Hst2 & Hr2 & Hk2). split; [done|]. split.
  - intros k b Hb. change ((w :: ws) ≫= le 8) with (le 8 w ++ (ws ≫= le 8)) in Hb. apply lookup_app_Some in Hb as [Hb|[Hge Hb]].
    + pose proof (lookup_lt_Some _ _ _ Hb) as Hlt. rewrite length_le in Hlt. rewrite Hk2 by lia. by apply Hr1.
    + rewrite length_le in Hge, Hb. replace (x + Z.of_nat k) with (x + 8 + Z.of_nat (k - 8)) by lia. by apply Hr2.
  - intros y Hy. rewrite Hk2 by lia. apply Hk1. lia.
Qed.
End Stack.

(** ** The new address space *)
Definition STACK_TOP : Z := PROCESS_USER_STACK_TOP .& Z.lnot 0xf.
Definition STACK_PAGE : Z := STACK_TOP - PAGE_SIZE.

(** What a program finds on its stack: the number of arguments, a pointer to
    each of them, and two null words. *)
Record started {T} `{PagingOps T} (st : vmm T) (i : nat) (argv : list (list Z)) (sp : Z) : Prop := {
  en_sp : sp mod 16 = 0 /\ STACK_PAGE <= sp < STACK_TOP;
  en_args : exists addresses, Forall2 (fun a arg => STACK_PAGE <= a < STACK_TOP /\ reads i st a (arg ++ [0])) addresses argv /\
    reads i st sp ((Z.of_nat (length argv) :: addresses ++ [0; 0]) ≫= le 8)
}.

Section Exec.
Context {V W T : Type} `{EqDecision V} `{VnodeHooks V W} `{Paging T}.
Context (acct : W -> (V -> Z) -> Prop) `{!VnodeAccounting V W acct} (base : V -> Z) (Hbase : forall v, 0 <= base v).
Context (trampoline : Z) (console : option V) (cpus : nat) (Hcpus : (1 <= cpus <= MAX_CPUS)%nat).
Implicit Types (s : system V W T) (p q : nat) (k : kernel V W).

Lemma loading_live extra (st0 : vmm T) i (s0 : slot) loaded st n :
  g_slots st0 !! i = Some s0 -> loading extra st0 i s0 loaded st -> ctx_live st (SlotCtx n) <-> ctx_live st0 (SlotCtx n).
Proof.
  intros Hs0 Hl. destruct (loading_at _ _ _ _ Hs0 _ _ Hl) as (ms & Hi & _ & Hg). cbn [ctx_live].
  destruct (decide (n = i)) as [->|Hn]; [|by rewrite Hg, list_lookup_insert_ne].
  rewrite Hi, Hs0. split; intros (x & [= <-] & Hu); by eexists.
Qed.

(** The state with the address space in hand, while it is being filled. *)
Lemma loading_sys s st0 i (s0 : slot) loaded loaded' st :
  sys_inv acct base (Some i) s -> g_slots st0 !! i = Some s0 -> loading (stack_refs s) st0 i s0 loaded (mem s) -> loading (stack_refs s) st0 i s0 loaded' st ->
  sys_inv acct base (Some i) (map_mem (fun _ => st) s).
Proof.
  intros Hi Hs0 Hl Hl'. apply sys_mem; [done|apply Hl'| |].
  - intros n. by rewrite (loading_live _ _ _ _ _ _ n Hs0 Hl'), (loading_live _ _ _ _ _ _ n Hs0 Hl).
  - destruct (ld_rest _ _ _ _ _ _ Hl) as [_ ->]. by destruct (ld_rest _ _ _ _ _ _ Hl') as [_ ->].
Qed.

(** A kernel stack can be allocated meanwhile. *)
Lemma loading_rebase extra extra' (st0 : vmm T) i (s0 : slot) loaded st st' :
  g_slots st0 !! i = Some s0 -> loading extra st0 i s0 loaded st -> vm_inv extra' st' -> same_memory st st' -> loading extra' st0 i s0 loaded st'.
Proof.
  intros Hs0 Hl Hv (Hg & Hp & Hc & Hr). destruct (loading_at _ _ _ _ Hs0 _ _ Hl) as (ms & _ & _ & Hgs). constructor; [done| | | |].
  - rewrite Hg. apply Hl.
  - intros m Hm. unfold owners. rewrite Hg. apply (ld_sole _ _ _ _ _ _ Hl). by eapply maps_same.
  - apply (bytes_trans st0 i st st'); [apply Hl| |done]. intros j Hj. by rewrite Hgs, list_lookup_insert_ne.
  - rewrite Hc, Hr. apply Hl.
Qed.

(** Giving up: the address space in hand is destroyed. *)
Lemma loading_drop extra0 s st0 i (s0 : slot) loaded :
  sys_inv acct base (Some i) s -> vm_inv extra0 st0 -> g_slots st0 !! i = Some s0 -> loading (stack_refs s) st0 i s0 loaded (mem s) ->
  let s' := map_mem (vmm_destroy_context (SlotCtx i)) s in
  sys_inv acct base None s' /\ forall n x, n <> i -> view (mem s') (SlotCtx n) x = view st0 (SlotCtx n) x.
Proof.
  intros Hi Hi0 Hs0 Hl s'. destruct (drop_spare acct base cpus Hcpus s i Hi) as [Hi' (Hg & Hr & _)]. fold s' in Hi', Hg, Hr.
  split; [done|]. intros n x Hn. rewrite <- (loading_others _ _ _ _ Hs0 extra0 _ _ (SlotCtx n) x Hi0 Hl) by congruence.
  apply (slot_view _ _ _ _ n (si_vm _ _ _ _ Hi) (si_vm _ _ _ _ Hi') Hr). rewrite Hg. by apply list_lookup_insert_ne.
Qed.

Lemma fill_stack_spec extra (st0 : vmm T) i (s0 : slot) loaded physical argv st :
  g_slots st0 !! i = Some s0 -> Vmm.used s0 = true -> stack_at extra st0 i s0 STACK_PAGE physical loaded st ->
  exists st' r, fill_stack STACK_TOP STACK_PAGE physical argv st = (st', r) /\ stack_at extra st0 i s0 STACK_PAGE physical loaded st' /\
    match r with
    | inl e => e = - E2BIG
    | inr sp => started st' i argv sp /\ forall y, ~ (STACK_PAGE <= y < STACK_TOP) -> view st' (SlotCtx i) y = view st (SlotCtx i) y
    end.
Proof.
  intros Hs0 Hu0 Hst. unfold fill_stack. destruct (MAX_ARGUMENTS <? length argv)%nat eqn:Emax; [by exists st, (inl (- E2BIG))|].
  assert (Htop : STACK_TOP = 0x7ff00000 /\ STACK_PAGE = 0x7feff000) by done.
  assert (Hal : page_aligned STACK_PAGE) by done. assert (Hpg : 0 < STACK_PAGE < 2 ^ 32) by done.
  assert (Hph : 0 < physical < 2 ^ 52) by (by eapply stack_bound).
  destruct (push_args_spec extra st0 i s0 Hs0 Hu0 STACK_PAGE physical loaded Hal Hpg (rev argv) STACK_TOP [] st Hst ltac:(unfold PAGE_SIZE; lia))
    as (st1 & r & -> & Hst1 & Hr).
  destruct r as [e|[cursor addresses]]; [by exists st1, (inl e)|]. destruct Hr as (Hc & new & -> & Hall & Hk).
  rewrite app_nil_r, rev_involutive in *. pose proof (Forall2_length _ _ _ Hall) as Hlen. apply Nat.ltb_ge in Emax. unfold MAX_ARGUMENTS in Emax.
  rewrite !land_lnot_15. set (n := Z.of_nat (length argv) + 3). assert (0 <= cursor mod 16 < 16) by (apply Z.mod_pos_bound; lia).
  rewrite (u64_small (cursor - cursor mod 16 - n * 8)) by (unfold is_u64; lia).
  set (c8 := cursor - cursor mod 16 - n * 8). assert (0 <= c8 mod 16 < 16) by (apply Z.mod_pos_bound; lia).
  destruct (Z.ltb_spec (c8 - c8 mod 16) STACK_PAGE); [by exists st1, (inl (- E2BIG))|].
  rewrite u64_small by (unfold is_u64; lia).
  destruct (store_words_spec extra st0 i s0 Hs0 Hu0 STACK_PAGE physical loaded Hal (Z.of_nat (length argv) :: new ++ [0; 0])
              (c8 - c8 mod 16) st1 Hst1) as (Hst2 & Hw & Hk2); [lia|cbn [length]; rewrite length_app; cbn [length]; unfold PAGE_SIZE; lia|].
  assert (Hroom : c8 - c8 mod 16 + 8 * Z.of_nat (length (Z.of_nat (length argv) :: new ++ [0; 0])) <= cursor)
    by (cbn [length]; rewrite length_app; cbn [length]; lia).
  eexists _, (inr (c8 - c8 mod 16)). split; [done|]. split; [done|]. split.
  - constructor; [split; [clear; dlia|lia]|]. exists new. split; [|done].
    eapply Forall2_impl; [exact Hall|]. cbv beta. intros a arg (Ha & Hend & Hrd). split; [lia|].
    eapply reads_kept; [exact Hrd|]. intros y Hy. apply Hk2. lia.
  - intros y Hy. rewrite Hk2 by lia. apply Hk. lia.
Qed.

(** An image that [exec] can load: bytes, segments in the lower half of the
    address space and none of them over the stack page. *)
Definition loadable (image : list Z) : Prop :=
  bytes_ok image /\ size_of image < 2 ^ 64 /\
  forall e, parse_header (Some image) = inr e -> in_low_half image e /\ program image e STACK_PAGE = None.

(** Nothing but the kernel stack of [p] and address spaces in hand changed, and
    the kernel stack only if [p] had none. *)
Record built p s s' : Prop := {
  bu_kern : kern s' = kern s;
  bu_pcb : forall q, pcb_of s' q = set_stack (stack (pcb_of s' q)) (stack_pages (pcb_of s' q)) (saved_stack (pcb_of s' q)) (pcb_of s q);
  bu_rest : forall q, q <> p -> pcb_of s' q = pcb_of s q;
  bu_stack : stack (pcb_of s p) <> 0 -> pcb_of s' p = pcb_of s p;
  bu_views : forall n x, ctx_live (mem s) (SlotCtx n) -> view (mem s') (SlotCtx n) x = view (mem s) (SlotCtx n) x
}.

(** A program in an address space in hand. *)
Definition image_built image argv s' (j : nat) (sp entry : Z) : Prop :=
  exists e, parse_header (Some image) = inr e /\ entry = e_entry e + load_bias e /\ started (mem s') j argv sp /\
    forall x, ~ (STACK_PAGE <= x < STACK_TOP) -> view (mem s') (SlotCtx j) x = program image e x.

Lemma set_stack_id x : x = set_stack (stack x) (stack_pages x) (saved_stack x) x.
Proof. by destruct x. Qed.

(** After the image was loaded: the kernel stack and the user stack. *)
Lemma build_end_spec s st0 i (s0 : slot) loaded p extra0 argv :
  sys_inv acct base (Some i) s -> is_used (kern s) p = true -> vm_inv extra0 st0 -> g_slots st0 !! i = Some s0 -> Vmm.used s0 = true ->
  loading (stack_refs s) st0 i s0 loaded (mem s) -> (STACK_PAGE ∉ loaded) ->
  forall s3 r3, allocate_kernel_stack trampoline p s = (s3, r3) ->
  built p s s3 /\ sys_inv acct base (Some i) s3 /\ loading (stack_refs s3) st0 i s0 loaded (mem s3) /\ r3 <= 0 /\ (r3 = 0 -> stack (pcb_of s3 p) <> 0) /\
  forall st4 r4 a, vmm_map_allocated (Some (SlotCtx i)) STACK_PAGE (VMM_USER .| VMM_WRITABLE) (mem s3) = (st4, r4, a) ->
    sys_inv acct base (Some i) (map_mem (fun _ => st4) s3) /\
    ((r4 < 0 /\ loading (stack_refs s3) st0 i s0 loaded st4) \/
     (r4 = 0 /\ exists st5 r5, fill_stack STACK_TOP STACK_PAGE a argv st4 = (st5, r5) /\
        loading (stack_refs s3) st0 i s0 (STACK_PAGE :: loaded) st5 /\ sys_inv acct base (Some i) (map_mem (fun _ => st5) s3) /\
        match r5 with
        | inl e => e = - E2BIG
        | inr sp => started st5 i argv sp /\
            forall y, ~ (STACK_PAGE <= y < STACK_TOP) -> view st5 (SlotCtx i) y = view (mem s) (SlotCtx i) y
        end)).
Proof.
  intros Hi Hu Hi0 Hs0 Hu0 Hl Hno s3 r3 Ea.
  destruct (allocate_stack_inv acct base trampoline cpus Hcpus _ s p s3 r3 Hi Hu Ea) as (Hi3 & Hk3 & Hsame & Hr3 & Hp3 & Ho3).
  assert (Hv3 : forall c x, view (mem s3) c x = view (mem s) c x) by (intros; eapply same_memory_views; [apply Hi|apply Hi3|done]).
  assert (Hl3 : loading (stack_refs s3) st0 i s0 loaded (mem s3)) by (eapply loading_rebase; [done|exact Hl|apply Hi3|done]).
  assert (Hkept : stack (pcb_of s p) <> 0 -> pcb_of s3 p = pcb_of s p).
  { intros Hst. unfold allocate_kernel_stack in Ea. destruct (Z.eqb_spec (stack (pcb_of s p)) 0); [done|]. cbn [negb] in Ea. congruence. }
  split; [by constructor|]. split; [done|]. split; [done|]. split; [destruct Hr3 as [->|[-> _]]; done|]. split; [destruct Hr3 as [->|[_ ?]]; done|].
  intros st4 r4 a Em.
  destruct (loading_map _ _ _ _ Hs0 Hu0 loaded (mem s3) st4 STACK_PAGE _ r4 a Hl3 eq_refl ltac:(done) Hno Em) as [[Hr4 Hl4]|(-> & Hl4 & Hv4)].
  { split; [by eapply loading_sys|]. by left. }
  split; [by eapply loading_sys|]. right. split; [done|].
  assert (Hr0 : vmm_resolve (mem s3) (SlotCtx i) STACK_PAGE = 0).
  { apply (loading_resolve _ _ _ _ Hs0 _ _ _ Hl3). by rewrite page_of_aligned. }
  destruct (map_fresh_keeps _ _ _ i STACK_PAGE _ _ _ (si_vm _ _ _ _ Hi3) ltac:(done) Hr0 Em) as (_ & _ & _ & [[? _]|(_ & _ & Hm & _)]); [lia|].
  assert (Hst : stack_at (stack_refs s3) st0 i s0 STACK_PAGE a loaded st4) by (split; [done|]; by eexists).
  destruct (fill_stack_spec _ _ _ _ _ _ argv _ Hs0 Hu0 Hst) as (st5 & r5 & E5 & [Hl5 _] & H5). exists st5, r5.
  split; [done|]. split; [done|]. split; [by eapply loading_sys|]. destruct r5 as [e|sp]; [done|]. destruct H5 as [Hen Hk]. split; [done|].
  intros y Hy. rewrite Hk, Hv4 by done. destruct (Z.eqb_spec (page_of y) STACK_PAGE) as [Heq|]; [|by apply Hv3]. exfalso. apply Hy.
  pose proof (page_of_bounds y). unfold STACK_PAGE, PAGE_SIZE in *. lia.
Qed.

Lemma built_mem p s s' st' :
  built p s s' -> (forall n x, ctx_live (mem s) (SlotCtx n) -> view st' (SlotCtx n) x = view (mem s) (SlotCtx n) x) ->
  built p s (map_mem (fun _ => st') s').
Proof. intros [A B C D E] Hv. by constructor. Qed.

Lemma built_trans p s1 s2 s3 :
  (forall n, ctx_live (mem s1) (SlotCtx n) -> ctx_live (mem s2) (SlotCtx n)) -> built p s1 s2 -> built p s2 s3 -> built p s1 s3.
Proof.
  intros Hl [A1 A2 A3 A5 A4] [B1 B2 B3 B5 B4]. constructor.
  - congruence.
  - intros q. rewrite (B2 q) at 1. rewrite A2. reflexivity.
  - intros q Hq. by rewrite B3, A3.
  - intros Hst. rewrite B5; [by apply A5|]. by rewrite A5.
  - intros n x Hn. rewrite B4, A4; [done|done|by apply Hl].
Qed.

Lemma build_image_spec p image argv s :
  sys_inv acct base None s -> is_used (kern s) p = true -> loadable image ->
  exists s' r, build_image trampoline p (Some image) argv s = Some (s', r) /\ built p s s' /\
    match r with
    | inl e => e < 0 /\ sys_inv acct base None s'
    | inr (c, sp, entry) => exists j, c = SlotCtx j /\ ~ ctx_live (mem s) (SlotCtx j) /\ sys_inv acct base (Some j) s' /\ stack (pcb_of s' p) <> 0 /\
        image_built image argv s' j sp entry
    end.
Proof.
  intros Hi Hu (Hb & Hsz & Himg). unfold build_image. pose proof (si_vm _ _ _ _ Hi) as Hv.
  assert (Hself : built p s s) by (constructor; [done| |done|done|done]; intros; apply set_stack_id).
  destruct (vmm_create_context (mem s)) as [st1 [c|]] eqn:Ec; destruct (vmm_create_context_inv _ _ _ _ Hv Ec) as (Hv1 & Hc & Hram & Hrun & Hcur).
  2: { eexists _, (inl (- ENOMEM)). split; [done|]. split; [|split; [done|]].
       - apply built_mem; [done|]. intros n x _. eapply slot_view; [done|done|done|by rewrite Hc].
       - apply sys_mem; [done|done| |done]. intros n. cbn [ctx_live]. by rewrite Hc. }
  destruct c as [|j]; [done|]. destruct Hc as (s0 & Hz & Hg & Hu0 & Hm0 & _). cbv zeta.
  pose proof (lookup_lt_Some _ _ _ Hz) as Hjl.
  assert (Hs0 : g_slots st1 !! j = Some s0) by (rewrite Hg; by apply list_lookup_insert_eq).
  assert (Hdead : ~ ctx_live (mem s) (SlotCtx j)) by (intros (x & Hx & Hux); simplify_eq).
  assert (Hviews : forall n x, ctx_live (mem s) (SlotCtx n) -> view st1 (SlotCtx n) x = view (mem s) (SlotCtx n) x).
  { intros n x Hn. eapply slot_view; [done|done|done|]. rewrite Hg. apply list_lookup_insert_ne. by intros ->. }
  set (s1 := map_mem (fun _ => st1) s).
  assert (Hi1 : sys_inv acct base (Some j) s1).
  { apply sys_spare; [done|done|done| |done]. intros n. cbn [ctx_live]. rewrite Hg. destruct (decide (n = j)) as [->|Hn].
    - rewrite list_lookup_insert_eq by done. split; [by right|]. intros _. by exists s0.
    - rewrite list_lookup_insert_ne by done. tauto. }
  destruct (elf_load_spec _ _ _ _ _ Hv1 Hs0 Hu0 Hm0 Hb Hsz (fun e He => proj1 (Himg e He))) as (st2 & r2 & entry & loaded & E2 & Hr2 & Hl2 & Hroll & Hok).
  change (mem s1) with st1. rewrite E2. set (s2 := map_mem (fun _ => st2) s1).
  assert (Hl1 : loading (stack_refs s) st1 j s0 [] st1) by (by apply loading_start).
  assert (Hi2 : sys_inv acct base (Some j) s2) by (by apply (loading_sys s1 st1 j s0 [] loaded)).
  assert (Hfail : forall sx loadedx, built p s sx -> sys_inv acct base (Some j) sx -> loading (stack_refs sx) st1 j s0 loadedx (mem sx) ->
            built p s (map_mem (vmm_destroy_context (SlotCtx j)) sx) /\ sys_inv acct base None (map_mem (vmm_destroy_context (SlotCtx j)) sx)).
  { intros sx lx Hbx Hix Hlx. destruct (loading_drop _ sx st1 j s0 lx Hix Hv1 Hs0 Hlx) as [Hid Hvd]. split; [|done].
    apply built_mem; [done|]. intros n x Hn. rewrite <- Hviews by done. apply Hvd. by intros ->. }
  assert (Hb2 : forall st, loading (stack_refs s) st1 j s0 loaded st -> built p s (map_mem (fun _ => st) s1)).
  { intros st Hl. apply built_mem; [by apply built_mem|]. intros n x Hn. rewrite <- Hviews by done.
    eapply loading_others; [done|done|done|]. by intros [= ->]. }
  destruct (Z.ltb_spec r2 0).
  { eexists _, (inl r2). split; [done|]. destruct (Hfail s2 loaded (Hb2 st2 Hl2) Hi2 Hl2). done. }
  assert (r2 = 0) as -> by lia. destruct (Hok eq_refl) as (_ & e & He & Hentry & Hprog).
  assert (Hno : STACK_PAGE ∉ loaded).
  { intros Hin. assert (is_Some (view st2 (SlotCtx j) STACK_PAGE)) as [b Hb']; [apply (loading_view _ _ _ _ Hs0 _ _ _ Hl2); by rewrite page_of_aligned|].
    rewrite Hprog, (proj2 (Himg e He)) in Hb'. done. }
  destruct (allocate_kernel_stack trampoline p s2) as [s3 r3] eqn:Ea.
  destruct (build_end_spec s2 st1 j s0 loaded p _ argv Hi2 Hu Hv1 Hs0 Hu0 Hl2 Hno s3 r3 Ea) as (Hb3 & Hi3 & Hl3 & Hr3 & Hstk & Hend).
  assert (Hlive : forall n, ctx_live (mem s) (SlotCtx n) -> ctx_live (mem s2) (SlotCtx n)).
  { intros n Hn. apply (loading_live _ _ _ _ _ _ n Hs0 Hl2). cbn [ctx_live]. rewrite Hg, list_lookup_insert_ne; [done|]. by intros ->. }
  pose proof (built_trans _ _ _ _ Hlive (Hb2 st2 Hl2) Hb3) as Hb03.
  assert (Hb4 : forall st lx, loading (stack_refs s3) st1 j s0 lx st -> built p s (map_mem (fun _ => st) s3)).
  { intros st lx Hl. apply built_mem; [done|]. intros n x Hn. rewrite <- Hviews by done. eapply loading_others; [done|done|done|]. by intros [= ->]. }
  destruct (Z.ltb_spec r3 0).
  { eexists _, (inl r3). split; [done|]. by destruct (Hfail s3 loaded Hb03 Hi3 Hl3). }
  fold STACK_TOP STACK_PAGE. destruct (vmm_map_allocated _ STACK_PAGE _ _) as [[st4 r4] a] eqn:Em.
  destruct (Hend _ _ _ eq_refl) as (Hi4 & [[Hr4 Hl4]|(-> & st5 & r5 & E5 & Hl5 & Hi5 & H5)]).
  { replace (r4 <? 0) with true by lia. eexists _, (inl r4). split; [done|]. by destruct (Hfail _ loaded (Hb4 st4 _ Hl4) Hi4 Hl4). }
  change (0 <? 0) with false. cbv iota. change (mem (map_mem _ s3)) with st4. rewrite E5.
  destruct r5 as [r5|sp].
  - subst r5. eexists _, (inl (- E2BIG)). split; [done|]. by destruct (Hfail _ _ (Hb4 st5 _ Hl5) Hi5 Hl5).
  - destruct H5 as [Hen Hk]. eexists _, (inr (SlotCtx j, sp, entry)). split; [done|]. split; [by eapply Hb4|].
    exists j. split; [done|]. split; [done|]. split; [done|]. split; [apply Hstk; lia|]. exists e. split_and!; [done..|]. intros x Hx. exact (eq_trans (Hk x Hx) (Hprog x)).
Qed.

(** Only [cpu] may have the process as its current one. *)
Definition runs_only cpu p s : Prop := (cpu < MAX_CPUS)%nat /\ forall c, current (kern s) c = Some p -> c = cpu.

(** A process changes to the address space in hand, and its old one goes. *)
Definition exec_memory cpu p (i j : nat) v s : vmm T :=
  let st := on_ctx (SlotCtx j) (set_owner v) (mem s) in
  let st := if bool_decide (process_get_current cpu (kern s) = Some p) then vmm_switch_context cpu (Some (SlotCtx j)) st else st in
  vmm_destroy_context (SlotCtx i) st.

Lemma exec_space cpu p i j v f s :
  sys_inv acct base (Some j) s -> is_used (kern s) p = true -> mm_of s p = Some (SlotCtx i) -> runs_only cpu p s ->
  (forall x, stack (f x) = stack x /\ stack_pages (f x) = stack_pages x /\ mm (space (f x)) = Some (SlotCtx j)) ->
  let st := exec_memory cpu p i j v s in
  sys_inv acct base None (on_pcb p f (map_mem (fun _ => st) s)) /\
  forall n x, n <> i -> view st (SlotCtx n) x = view (mem s) (SlotCtx n) x.
Proof.
  intros Hi Hu Hmm [Hcpu Honly] Hf st. pose proof (si_vm _ _ _ _ Hi) as Hv.
  assert (Hlj : ctx_live (mem s) (SlotCtx j)) by (apply (si_spaces _ _ _ _ Hi); by right).
  assert (Hli : ctx_live (mem s) (SlotCtx i)) by (apply (si_spaces _ _ _ _ Hi); left; by exists p).
  assert (Hij : i <> j) by (intros ->; by apply (si_spare _ _ _ _ Hi j p)).
  destruct (owner_space _ _ j v Hv Hlj) as (Hv1 & Hlive1 & Hcur1 & Hview1). unfold st, exec_memory.
  set (st1 := on_ctx _ _ _) in *. set (st2 := if bool_decide _ then _ else _).
  assert (Hsw : vm_inv (stack_refs s) st2 /\ g_slots st2 = g_slots st1 /\ ram st2 = ram st1 /\
    forall c, (c < MAX_CPUS)%nat -> g_current_context st2 !! c = Some (if bool_decide (current (kern s) c = Some p) then SlotCtx j else loaded_space s c)).
  { unfold st2, process_get_current. destruct (bool_decide (current (kern s) cpu = Some p)) eqn:Eb.
    - destruct (switch_space cpus Hcpus _ st1 cpu (SlotCtx j) Hv1 (proj2 (Hlive1 j) Hlj) Hcpu) as (A & B & C & D). split_and!; [done..|].
      intros c Hc. rewrite B, Hcur1. destruct (decide (c = cpu)) as [->|Hne].
      + rewrite Eb. apply list_lookup_insert_eq. destruct (vi_cpus _ _ Hv) as [Hlen _]. change Vmm.MAX_CPUS with MAX_CPUS in Hlen. lia.
      + rewrite list_lookup_insert_ne by done. rewrite (si_current _ _ _ _ Hi) by done. rewrite bool_decide_false; [done|]. intros Hp. by apply Hne, Honly.
    - split_and!; [done..|]. intros c Hc. rewrite Hcur1, (si_current _ _ _ _ Hi) by done. rewrite bool_decide_false; [done|].
      intros Hp. apply bool_decide_eq_false in Eb. apply Eb. by rewrite <- (Honly c Hp). }
  destruct Hsw as (Hv2 & Hg2 & Hr2 & Hcur2). clearbody st2.
  assert (Hlive2 : forall n, ctx_live st2 (SlotCtx n) <-> ctx_live (mem s) (SlotCtx n)) by (intros n; rewrite <- Hlive1; cbn [ctx_live]; by rewrite Hg2).
  destruct (destroy_space _ st2 i Hv2 (proj2 (Hlive2 i) Hli)) as [Hv3 Hd].
  { intros c Hc. assert (Hlt : (c < MAX_CPUS)%nat).
    { apply lookup_lt_Some in Hc. destruct (vi_cpus _ _ Hv2) as [Hl _]. change Vmm.MAX_CPUS with MAX_CPUS in Hl. lia. }
    rewrite (Hcur2 c Hlt) in Hc. case_bool_decide as Eb; [congruence|]. injection Hc as Hc. unfold loaded_space in Hc.
    destruct (current (kern s) c) as [q|] eqn:Eq; [|done]. destruct (mm_of s q) as [d|] eqn:Ed; [|done]. cbn in Hc. subst d.
    apply Eb. by rewrite (si_spaces_apart _ _ _ _ Hi q p (SlotCtx i)). }
  assert (Hil : (i < length (g_slots st2))%nat) by (destruct (proj2 (Hlive2 i) Hli) as (x & Hx & _); by eapply lookup_lt_Some).
  split.
  - apply (take_spare acct base cpus Hcpus s p i j f _ Hi Hu Hmm Hf Hv3).
    + intros n. rewrite (dropped_live _ Hcpus _ _ _ n Hil Hd). by rewrite Hlive2.
    + intros c Hc. destruct Hd as (_ & _ & ->). by apply Hcur2.
  - intros n x Hn. rewrite <- Hview1. destruct Hd as (Hg & Hr & _). eapply slot_view; [exact Hv1|exact Hv3|congruence|].
    rewrite Hg, list_lookup_insert_ne by done. by rewrite Hg2.
Qed.

Lemma built_rest p s s' : sys_inv acct base None s -> built p s s' -> rest_kept p s s'.
Proof.
  intros Hi [A B C E D]. constructor; try (intros; by rewrite A); [done|].
  intros q c x _ Hc. destruct (space_slot acct base _ s q Hi c Hc) as [n ->]. apply D, (si_spaces _ _ _ _ Hi). left. by exists q.
Qed.

(** Putting a process in a queue sets only its queue. *)
Lemma scheduler_add_proc p k :
  queues_ok k -> (p < MAX_PROCESSES)%nat ->
  exists n, proc (scheduler_add cpus (Some p) k) p = set_queued true (set_cpu_id n (proc k p)).
Proof.
  intros Hq Hp. destruct (queued (proc k p)) eqn:E.
  - exists (cpu_id (proc k p)). unfold scheduler_add, add_locked. rewrite E. destruct (proc k p). cbn in *. by subst.
  - destruct (scheduler_add_spec k cpus p Hq Hcpus Hp E) as (n & l & _ & _ & _ & _ & -> & _). exists n.
    rewrite proc_on_proc_eq; [done|]. change (p < length (procs k))%nat. by rewrite (qo_procs _ Hq).
Qed.

Definition new_name (nm : option (list Z)) (x : pcb) : pcb :=
  match nm with None | Some [] => x | Some n => set_name (copy_name (base_name n n)) x end.

(** The fields of a process that runs a new program. *)
Definition exec_pcb (j : nat) (sp entry : Z) (x : pcb) : pcb :=
  set_context (UserContext entry sp 0x202 (replicate 16 0))
    (set_space (Uproc true (Some (SlotCtx j)) STACK_TOP STACK_PAGE 0x40000000 0x40000000)
      (set_exec_pending true (set_entry_point entry 0 x))).
Definition exec_proc (x : process) : process := set_state PROCESS_STATE_RUNNING (set_signal_pending 0 x).

Record executed p image nm argv s s' : Prop := {
  ex_rest : rest_kept p s s';
  ex_proc : exists n, proc (kern s') p = set_queued true (set_cpu_id n (exec_proc (proc (kern s) p)));
  ex_fdw : fdw (kern s') = fdw (kern s);
  ex_old : forall i, mm_of s p = Some (SlotCtx i) -> ~ ctx_live (mem s') (SlotCtx i);
  ex_space : exists j sp entry, mm_of s' p = Some (SlotCtx j) /\ ~ ctx_live (mem s) (SlotCtx j) /\ image_built image argv s' j sp entry /\
    exists a n saved, a <> 0 /\ pcb_of s' p = new_name nm (exec_pcb j sp entry (set_stack a n saved (pcb_of s p))) /\
      (stack (pcb_of s p) <> 0 -> set_stack a n saved (pcb_of s p) = pcb_of s p)
}.

(** The end of [exec], from the point of no return on. *)
Lemma exec_end_spec cpu p image nm argv i j sp entry s s1 :
  sys_inv acct base None s -> is_used (kern s) p = true -> mm_of s p = Some (SlotCtx i) -> runs_only cpu p s ->
  built p s s1 -> ~ ctx_live (mem s) (SlotCtx j) -> sys_inv acct base (Some j) s1 -> stack (pcb_of s1 p) <> 0 -> image_built image argv s1 j sp entry ->
  let s2 := on_pcb p (new_name nm) (map_kern (fun k => scheduler_add cpus (Some p) (on_proc p exec_proc k))
             (on_pcb p (exec_pcb j sp entry) (map_mem (fun _ => exec_memory cpu p i j (Proc.pid (proc (kern s) p)) s1) s1))) in
  sys_inv acct base None s2 /\ executed p image nm argv s s2.
Proof.
  intros Hi Hu Hmm Hon Hb Hdead Hi1 Hst Himg s2. pose proof (bu_kern _ _ _ Hb) as Hk.
  assert (Hu1 : is_used (kern s1) p = true) by (by rewrite Hk). pose proof (used_lt _ _ _ _ _ Hi Hu) as Hlt.
  assert (Hmm1 : mm_of s1 p = Some (SlotCtx i)) by (unfold mm_of; by rewrite (bu_pcb _ _ _ Hb)).
  assert (Hon1 : runs_only cpu p s1) by (unfold runs_only; by rewrite Hk).
  destruct (exec_space cpu p i j (Proc.pid (proc (kern s) p)) (exec_pcb j sp entry) s1 Hi1 Hu1 Hmm1 Hon1 ltac:(done)) as [Hi2 Hv].
  set (st := exec_memory _ _ _ _ _ _) in *. clearbody st. set (sa := on_pcb p (exec_pcb j sp entry) _) in *.
  assert (Hi3 : sys_inv acct base None (map_kern (fun k => scheduler_add cpus (Some p) (on_proc p exec_proc k)) sa)) by (by apply sys_run).
  set (sb := map_kern _ sa) in *.
  assert (Hus : is_used (kern sb) p = true).
  { unfold is_used, sb. cbn [map_kern kern]. destruct (fdw_add cpus (Some p) (on_proc p exec_proc (kern sa))) as [_ ->]. exact Hu1. }
  assert (Hij : i <> j) by (intros ->; apply Hdead, (si_spaces _ _ _ _ Hi); left; by exists p).
  assert (Hpa : pcb_of sb p = exec_pcb j sp entry (pcb_of s1 p)) by exact (pcb_on_pcb_eq acct base cpus Hcpus _ s1 p _ Hi1 Hu1).
  assert (Hp2 : pcb_of s2 p = new_name nm (pcb_of sb p)) by exact (pcb_on_pcb_eq acct base cpus Hcpus _ sb p _ Hi3 Hus).
  assert (Hnm : forall x, stack (new_name nm x) = stack x /\ stack_pages (new_name nm x) = stack_pages x /\ space (new_name nm x) = space x)
    by (by destruct nm as [[]|]).
  assert (Hi4 : sys_inv acct base None s2) by (apply (sys_pcb acct base cpus Hcpus); [done|done|]; intros x; by destruct (Hnm x) as (-> & -> & ->)).
  assert (Hmm2 : mm_of s2 p = Some (SlotCtx j)) by (unfold mm_of; rewrite Hp2; destruct (Hnm (pcb_of sb p)) as (_ & _ & ->); by rewrite Hpa).
  assert (Hrest : rest_kept p s s2).
  { eapply rest_kept_trans; [by apply built_rest|]. eapply rest_kept_trans; [|eapply rest_kept_trans; [apply rest_kept_run|apply (rest_kept_pcb cpus Hcpus)]].
    eapply rest_kept_trans; [|apply (rest_kept_pcb cpus Hcpus)]. apply rest_kept_mem. intros q c x Hq Hc.
    destruct (space_slot acct base _ s1 q Hi1 c Hc) as [n ->]. apply Hv. intros ->. apply Hq. by eapply (si_spaces_apart _ _ _ _ Hi1). }
  split; [exact Hi4|]. constructor; [exact Hrest|..].
  - destruct (scheduler_add_proc p (on_proc p exec_proc (kern sa))) as [n Hn]; [|done|].
    + apply (on_proc_ok (kern sa) p exec_proc); [done|apply Hi2].
    + exists n. etransitivity; [exact Hn|]. rewrite proc_on_proc_eq; [by rewrite <- Hk|].
      change (p < length (procs (kern s1)))%nat. by rewrite (qo_procs _ (proj1 (si_sched _ _ _ _ Hi1))).
  - change (fdw (kern s2)) with (fdw (scheduler_add cpus (Some p) (on_proc p exec_proc (kern s1)))).
    destruct (fdw_add cpus (Some p) (on_proc p exec_proc (kern s1))) as [-> _]. by rewrite <- Hk.
  - intros i' Hmm' Hl. rewrite Hmm in Hmm'. injection Hmm' as <-. apply (si_spaces _ _ _ _ Hi4) in Hl as [[q Hq]|?]; [|done].
    destruct (decide (q = p)) as [->|Hne]; [congruence|]. apply Hne, (si_spaces_apart _ _ _ _ Hi q p (SlotCtx i)); [|done].
    rewrite <- Hq. unfold mm_of. by rewrite (rk_pcb _ _ _ Hrest q Hne).
  - exists j, sp, entry. split; [exact Hmm2|]. split; [exact Hdead|]. split.
    + destruct Himg as (e & He & Hent & [Hsp (addrs & Hargs & Hw)] & Hprog). exists e. split; [done|]. split; [done|].
      assert (Hvj : forall x, view (mem s2) (SlotCtx j) x = view (mem s1) (SlotCtx j) x) by (intros x; by apply (Hv j x); congruence).
      assert (Hrd : forall a bs, reads j (mem s1) a bs -> reads j (mem s2) a bs) by (intros a bs Hr; eapply reads_kept; [exact Hr|intros; apply Hvj]).
      split; [|intros x Hx; rewrite Hvj; by apply Hprog]. constructor; [done|]. exists addrs. split; [|by apply Hrd].
      eapply Forall2_impl; [exact Hargs|]. cbv beta. intros a arg [? ?]. split; [done|by apply Hrd].
    + eexists _, _, _. split; [exact Hst|]. split; [rewrite Hp2, Hpa; do 2 f_equal; apply (bu_pcb _ _ _ Hb)|].
      intros Hold. rewrite (bu_stack _ _ _ Hb Hold). symmetry. apply set_stack_id.
Qed.

Lemma process_exec_image_spec cpu p image nm argv s :
  sys_inv acct base None s -> is_used (kern s) p = true -> runs_only cpu p s -> loadable image ->
  exists s' r, process_exec_image_args trampoline cpus cpu (Some p) (Some image) nm argv s = Some (s', r) /\
    sys_inv acct base None s' /\ ((r < 0 /\ built p s s') \/ (r = 0 /\ executed p image nm argv s s')).
Proof.
  intros Hi Hu Hon Himg. destruct (si_space _ _ _ _ Hi p Hu) as [i Hmm].
  assert (Hself : built p s s) by (constructor; [done| |done|done|done]; intros; apply set_stack_id).
  unfold process_exec_image_args. destruct image as [|b image]; [exists s, (- EINVAL); split; [done|]; split; [done|by left]|].
  destruct (build_image_spec p (b :: image) argv s Hi Hu Himg) as (s1 & r & -> & Hb & Hr).
  destruct r as [r|[[c sp] entry]]; [destruct Hr as [Hr Hi1]; exists s1, r; split; [done|]; split; [done|by left]|].
  destruct Hr as (j & -> & Hdead & Hi1 & Hst & Hbuilt).
  assert (Hmm1 : mm_of s1 p = Some (SlotCtx i)) by (unfold mm_of; by rewrite (bu_pcb _ _ _ Hb)).
  destruct (exec_end_spec cpu p (b :: image) nm argv i j sp entry s s1 Hi Hu Hmm Hon Hb Hdead Hi1 Hst Hbuilt) as [Hi2 Hex].
  eexists _, 0. split; [|split; [exact Hi2|right; split; [done|exact Hex]]].
  rewrite Hmm1, (bu_kern _ _ _ Hb).
  assert (Hpcbs : forall l : list pcb, alter (exec_pcb j sp entry) p (alter (fun x => set_space (set_mm (Some (SlotCtx j)) (space x)) x) p l) =
    alter (exec_pcb j sp entry) p l) by (intros l; by rewrite list_alter_alter_eq).
  assert (Hname : forall l : list pcb, alter (new_name nm) p l = match nm with None | Some [] => l | Some n => alter (set_name (copy_name (base_name n n))) p l end).
  { intros l. destruct nm as [[|]|]; [|done|]; apply list_alter_id; done. }
  unfold exec_memory, process_get_current, map_kern, map_mem, on_pcb. cbn [kern pcbs mem]. rewrite Hname, (bu_kern _ _ _ Hb).
  case_bool_decide; cbn [kern pcbs mem]; fold (exec_pcb j sp entry); destruct nm as [[|]|]; cbn [kern pcbs mem]; do 2 f_equal;
    first [exact (Hpcbs (pcbs s1))|f_equal; first [exact (Hpcbs (pcbs s1))|f_equal; exact (Hpcbs (pcbs s1))]].
Qed.
End Exec.

(** ** Waiting for children *)
Section Wait.
Context {V W T : Type} `{EqDecision V} `{VnodeHooks V W} `{Paging T}.
Implicit Types (s : system V W T) (p q : nat) (k : kernel V W).

(** The processes in use, in the order of the table. *)
Definition live k : list nat := filter (fun q => is_used k q = true) (seq 0 MAX_PROCESSES).

(** The children a call waits for, and those that can be reaped. *)
Definition awaited parent (id : Z) k q : Prop :=
  ppid (proc k q) = Proc.pid (proc k parent) /\ (s32 id = -1 \/ Proc.pid (proc k q) = id).
#[export] Instance awaited_dec parent id k q : Decision (awaited parent id k q).
Proof. unfold awaited. apply _. Defined.
Definition children parent (id : Z) k : list nat := filter (awaited parent id k) (live k).
Definition zombies parent (id : Z) k : list nat :=
  filter (fun q => state (proc k q) = PROCESS_STATE_ZOMBIE) (children parent id k).

Lemma process_at_from_live k index n : forall i cur, (cur <= index)%nat ->
  process_at_from k n i cur index = filter (fun q => is_used k q = true) (seq i n) !! (index - cur)%nat.
Proof.
  induction n as [|n IH]; intros i cur Hc; [done|]. cbn [process_at_from seq]. rewrite filter_cons.
  destruct (is_used k i) eqn:Eu; cbn [negb]; [rewrite decide_True by done|rewrite decide_False by congruence; by apply IH].
  destruct (Nat.eqb_spec cur index) as [->|Hne]; [by rewrite Nat.sub_diag|]. rewrite IH by lia.
  by replace (index - cur)%nat with (S (index - S cur)) by lia.
Qed.

Lemma process_at_live index k : process_at index k = live k !! index.
Proof. unfold process_at. rewrite process_at_from_live by lia. by rewrite Nat.sub_0_r. Qed.

Lemma process_count_live k : process_count k = Z.of_nat (length (live k)).
Proof.
  unfold process_count, live.
  apply (for_range_ind (fun i n => n = Z.of_nat (length (filter (fun q => is_used k q = true) (seq 0 (Z.to_nat i)))))); [lia|done|].
  intros i n Hi ->. replace (Z.to_nat (i + 1)) with (S (Z.to_nat i)) by lia. rewrite seq_S, filter_app, length_app.
  cbn [Nat.add]. rewrite filter_cons, filter_nil. unfold idx. destruct (is_used k (Z.to_nat i)); [rewrite decide_True by done|rewrite decide_False by done]; cbn [length]; lia.
Qed.

(** The scan finds the first zombie among the children. *)
Lemma wait_scan_spec parent id k n : forall i found, (n + i = length (live k))%nat ->
  wait_scan n i parent id found k =
    let rest := filter (awaited parent id k) (drop i (live k)) in
    match head (filter (fun q => state (proc k q) = PROCESS_STATE_ZOMBIE) rest) with
    | Some child => (true, Some child)
    | None => (found || negb (bool_decide (rest = [])), None)
    end.
Proof.
  induction n as [|n IH]; intros i found Hn; cbn [wait_scan].
  { rewrite drop_ge by lia. by rewrite orb_false_r. }
  rewrite process_at_live. destruct (lookup_lt_is_Some_2 (live k) i ltac:(lia)) as [q Hq]. rewrite Hq, (drop_S _ _ _ Hq), filter_cons.
  set (rest := drop (S i) (live k)) in *. destruct (decide (awaited parent id k q)) as [[Hp Hid]|Hno].
  - replace (negb (ppid _ =? _) || _) with false by (destruct Hid; lia).
    destruct (Z.eqb_spec (state (proc k q)) PROCESS_STATE_ZOMBIE) as [Hz|Hz]; cbv zeta; rewrite filter_cons.
    + by rewrite decide_True.
    + rewrite decide_False by done. rewrite IH by lia. fold rest. cbv zeta. case_match; [done|]. by rewrite orb_true_r.
  - replace (negb (ppid _ =? _) || _) with true by (unfold awaited in Hno; lia). by rewrite IH by lia.
Qed.

Lemma wait_scan_children parent id k :
  wait_scan (Z.to_nat (process_count k)) 0 parent id false k =
    match head (zombies parent id k) with
    | Some child => (true, Some child)
    | None => (negb (bool_decide (children parent id k = [])), None)
    end.
Proof. rewrite process_count_live, wait_scan_spec by lia. done. Qed.

Lemma waitpid_loop_eq between cpu parent id options s :
  waitpid_loop between cpu parent id options s =
    match head (zombies parent id (kern s)) with
    | Some child => Some (process_destroy cpu (Some child) s, Proc.pid (proc (kern s) child), Some (exit_code (proc (kern s) child)))
    | None =>
        if decide (children parent id (kern s) = []) then Some (s, u32 (- ECHILD), None)
        else if has options WNOHANG then Some (s, 0, None)
        else match between with
             | [] => None
             | g :: rest => waitpid_loop rest cpu parent id options (g (sys_switch cpu (block_with (scheduler_yield_begin cpu) cpu id) s))
             end
    end.
Proof.
  assert (E := wait_scan_children parent id (kern s)).
  destruct between as [|g rest]; cbn [waitpid_loop]; destruct (wait_scan _ _ _ _ _ _) as [found r]; 
    destruct (head (zombies parent id (kern s))) as [child|]; injection E as -> ->; try done;
    (destruct (decide (children parent id (kern s) = [])) as [Hc|Hc]; [rewrite bool_decide_true by done|rewrite bool_decide_false by done]; done).
Qed.

Lemma zombies_spec parent id k q :
  q ∈ zombies parent id k -> state (proc k q) = PROCESS_STATE_ZOMBIE /\ awaited parent id k q /\ is_used k q = true.
Proof.
  intros Hq. apply list_elem_of_filter in Hq as [Hst Hq]. apply list_elem_of_filter in Hq as [Ha Hq].
  apply list_elem_of_filter in Hq as [Hu _]. done.
Qed.
End Wait.
