(* ===== verification/Life.v ===== *)
(** * src/proc/process.c: the states a system of processes reaches

    Creating, starting, forking, replacing, stopping, ending and reaping
    processes, and switching between them, in any order: every descriptor
    table, address space and frame keeps exactly one owner. *)
From S2P Require Import Prelude Pmm Fd Pipe Vmm Cow X86 Aspace Elf Proc Sched Process Exec.
Open Scope tach_scope.

Section Life.
Context {V W T : Type} `{EqDecision V} `{VnodeHooks V W} `{Paging T}.
Context (acct : W -> (V -> Z) -> Prop) `{!VnodeAccounting V W acct} (base : V -> Z) (Hbase : forall v, 0 <= base v).
Context (trampoline : Z) (console : option V) (cpus : nat) (Hcpus : (1 <= cpus <= MAX_CPUS)%nat).
Context (Hconsole : forall v, console = Some v ->
  forall w c c', (forall x, x <> v -> c x = c' x) -> 0 <= c' v -> acct w c -> acct w c').
Implicit Types (s : system V W T) (p q : nat) (k : kernel V W).

(** ** Scheduling steps *)

(** Steps that touch only scheduling fields of processes in use. *)
Record quiet k k' : Prop := {
  qu_used : Proc.used k' = Proc.used k;
  qu_fdw : fdw k' = fdw k;
  qu_fds : forall p, fds_of (proc k' p) = fds_of (proc k p);
  qu_free : forall p, is_used k p = false -> proc k' p = proc k p;
  qu_length : length (procs k') = length (procs k)
}.

#[export] Instance quiet_preorder : PreOrder quiet.
Proof.
  split; [by intros k; constructor|]. intros k1 k2 k3 [A1 A2 A3 A4 A5] [B1 B2 B3 B4 B5]. constructor; try congruence.
  intros p Hp. rewrite B4, A4; [done|done|]. unfold is_used. by rewrite A1.
Qed.

Lemma quiet_proc k p f : is_used k p = true -> (forall x, fds_of (f x) = fds_of x) -> quiet k (on_proc p f k).
Proof.
  intros Hu Hf. constructor; [done|done| | |apply length_on_proc].
  - intros q. by apply field_on_proc.
  - intros q Hq. apply proc_on_proc_ne. congruence.
Qed.

Lemma quiet_add k p : is_used k p = true -> quiet k (scheduler_add cpus (Some p) k).
Proof.
  intros Hu. destruct (fdw_add cpus (Some p) k) as [Hw Hus]. constructor; [done|done| | |].
  - intros q. apply fds_add.
  - intros q Hq. apply proc_add_ne. congruence.
  - unfold scheduler_add, add_locked. repeat case_match; try done. by rewrite length_on_proc.
Qed.

Lemma quiet_remove k p : is_used k p = true -> quiet k (scheduler_remove (Some p) k).
Proof.
  intros Hu. destruct (fdw_remove (Some p) k) as [Hw Hus]. constructor; [done|done| | |].
  - intros q. apply fds_remove.
  - intros q Hq. apply proc_remove_ne. congruence.
  - unfold scheduler_remove, dequeue_locked, remove_cpu. case_match; [|done]. by rewrite length_on_proc.
Qed.

Lemma quiet_used k k' p : quiet k k' -> is_used k' p = is_used k p.
Proof. intros [A _ _ _ _]. unfold is_used. by rewrite A. Qed.

Lemma sys_quiet spare s k' :
  sys_inv acct base spare s -> quiet (kern s) k' -> sched_ok k' -> (forall cpu, current k' cpu = current (kern s) cpu) ->
  sys_inv acct base spare (map_kern (fun _ => k') s).
Proof. intros Hi [A B C D E] Hok Hc. by apply sys_kern. Qed.

(** ** Ending a process *)
Lemma notify_quiet k parent :
  is_used k parent = true -> sched_ok k -> (parent < MAX_PROCESSES)%nat ->
  let k1 := fst (signal_send_with (fun _ _ k => k) cpus (Proc.pid (proc k parent)) SIGCHLD k) in
  let k2 := if state (proc k1 parent) =? PROCESS_STATE_BLOCKED then scheduler_wake cpus (Some parent) k1 else k1 in
  quiet k k2 /\ sched_ok k2 /\ forall c, current k2 c = current k c.
Proof.
  intros Hu Hok Hlt.
  assert (Hwake : forall k p, is_used k p = true -> (p < MAX_PROCESSES)%nat -> sched_ok k ->
    quiet k (scheduler_wake cpus (Some p) k) /\ sched_ok (scheduler_wake cpus (Some p) k) /\
    forall c, current (scheduler_wake cpus (Some p) k) c = current k c).
  { clear - Hcpus. intros k p Hu Hlt Hok. split; [|split; [by apply scheduler_wake_ok|]].
    - unfold scheduler_wake. case_match; [done|]. etransitivity; [|apply quiet_add; exact Hu]. apply quiet_proc; [done|by intros []].
    - intros c. unfold scheduler_wake. case_match; [done|]. by rewrite current_add. }
  intros k1 k2. assert (Hk1 : quiet k k1 /\ sched_ok k1 /\ forall c, current k1 c = current k c).
  { unfold k1, signal_send_with. change (negb (valid_signal SIGCHLD)) with false. cbv iota.
    destruct (process_get _ k) as [p|] eqn:Eg; [|done]. change (SIGCHLD =? SIGKILL) with false.
    change (SIGCHLD =? SIGCONT) with false. cbn [andb]. cbv iota zeta. cbn [fst].
    pose proof Eg as Eg'. apply find_from_Some in Eg' as (Hp & Hup & _). apply andb_true_iff in Hup as [Hup _].
    set (f := fun x : process => set_signal_pending _ x). assert (Hf : keeps_place f) by done.
    assert (Hq1 : quiet k (on_proc p f k)) by (apply quiet_proc; [done|by intros []]). pose proof (on_proc_ok k p f Hf Hok) as Hok1.
    case_match; [|done]. destruct (Hwake (on_proc p f k) p) as (A & B & C); [by rewrite (quiet_used _ _ _ Hq1)|lia|done|].
    split; [by etransitivity|]. split; [done|]. intros c. by rewrite C. }
  destruct Hk1 as (A & B & C). unfold k2. case_match; [|done].
  destruct (Hwake k1 parent) as (A' & B' & C'); [by rewrite (quiet_used _ _ _ A)|done|done|].
  split; [by etransitivity|]. split; [done|]. intros c. by rewrite C'.
Qed.

(** The descriptors of a process are closed. *)
Lemma sys_close spare s p t :
  sys_inv acct base spare s -> fds_of (proc (kern s) p) = Some t ->
  sys_inv acct base spare (map_kern (fun k => on_proc p (set_fds_of None) (map_fdw (fd_table_destroy (Some t)) k)) s).
Proof.
  intros Hi Ht. pose proof (table_live _ _ _ _ _ _ Hi Ht) as Hl.
  assert (Hu : is_used (kern s) p = true) by (apply (busy_used _ _ _ _ _ Hi); left; congruence).
  destruct (fd_table_destroy_inv acct base Hbase t _ (si_fd _ _ _ _ Hi) Hl) as [Hw _].
  pose proof (destroyed_table acct base Hbase cpus Hcpus t _ (si_fd _ _ _ _ Hi) Hl) as Hus. set (w := fd_table_destroy (Some t) (fdw (kern s))) in *.
  set (k' := on_proc p (set_fds_of None) (map_fdw (fun _ => w) (kern s))).
  change (sys_inv acct base spare (map_kern (fun _ => k') s)).
  assert (Hfds : forall q, fds_of (proc k' q) = if decide (q = p) then None else fds_of (proc (kern s) q)).
  { intros q. destruct (decide (q = p)) as [->|Hq]; [|unfold k'; by rewrite proc_on_proc_ne]. unfold k'. rewrite proc_on_proc_eq; [done|].
    change (p < length (procs (kern s)))%nat. rewrite (qo_procs _ (proj1 (si_sched _ _ _ _ Hi))). by eapply used_lt. }
  pose proof (si_tables _ _ _ _ Hi) as Htab. pose proof (si_tables_apart _ _ _ _ Hi) as Hap. clearbody w.
  destruct Hi. constructor; cbn [map_kern kern pcbs mem]; try done.
  - apply on_proc_ok; [done|]. by apply map_fdw_ok.
  - intros q Hq. change (is_used (kern s) q = false) in Hq. assert (q <> p) by congruence. unfold k'. rewrite proc_on_proc_ne by done. by apply si_free.
  - intros t'. change (fdw k') with w. rewrite Hus. split.
    + intros Hl'. apply lookup_insert_cases in Hl' as [[_ ?]|[Hne Hl']]; [done|]. apply Htab in Hl' as [q Hq]. exists q.
      rewrite Hfds, decide_False; [done|]. intros ->. congruence.
    + intros [q Hq]. rewrite Hfds in Hq. destruct (decide (q = p)) as [->|Hqp]; [done|]. rewrite list_lookup_insert_ne; [apply Htab; by exists q|].
      intros <-. by apply Hqp, (Hap q p t).
  - intros q r t'. rewrite !Hfds. destruct (decide (q = p)), (decide (r = p)); try done. apply Hap.
Qed.

Lemma process_terminate_inv s p code :
  sys_inv acct base None s -> is_used (kern s) p = true ->
  sys_inv acct base None (map_kern (process_terminate cpus (Some p) code) s).
Proof.
  intros Hi Hu. unfold process_terminate. pose proof (used_lt _ _ _ _ _ Hi Hu) as Hlt.
  destruct (state (proc (kern s) p) =? PROCESS_STATE_ZOMBIE) eqn:Ez; [unfold map_kern; rewrite Ez; by destruct s|].
  unfold map_kern at 1. rewrite Ez. cbv zeta.
  set (k1 := on_proc p _ (kern s)). set (k2 := scheduler_remove (Some p) k1).
  assert (Hq1 : quiet (kern s) k1) by (apply quiet_proc; [done|by intros []]).
  assert (Hq2 : quiet (kern s) k2) by (etransitivity; [exact Hq1|apply quiet_remove; by rewrite (quiet_used _ _ _ Hq1)]).
  assert (Hok2 : sched_ok k2).
  { apply scheduler_remove_ok; [apply on_proc_ok; [done|apply Hi]|]. by intros ? [= <-]. }
  assert (Hi2 : sys_inv acct base None (map_kern (fun _ => k2) s)).
  { apply sys_quiet; [done..|]. intros c. unfold k2. by rewrite current_remove. }
  set (k3 := match fds_of (proc k2 p) with Some t => _ | None => k2 end).
  assert (Hi3 : sys_inv acct base None (map_kern (fun _ => k3) s)).
  { unfold k3. destruct (fds_of (proc k2 p)) as [t|] eqn:Et; [|done]. exact (sys_close None (map_kern (fun _ => k2) s) p t Hi2 Et). }
  destruct (process_get (ppid (proc k3 p)) k3) as [parent|] eqn:Eg; [|exact Hi3].
  apply find_from_Some in Eg as (Hp & Hup & _). apply andb_true_iff in Hup as [Hup _].
  destruct (notify_quiet k3 parent Hup (si_sched _ _ _ _ Hi3) ltac:(lia)) as (A & B & C).
  exact (sys_quiet None (map_kern (fun _ => k3) s) _ Hi3 A B C).
Qed.

(** ** Switching *)
Lemma sys_switch_inv s cpu f :
  sys_inv acct base None s -> quiet (kern s) (f (kern s)) -> sched_ok (f (kern s)) -> (cpu < MAX_CPUS)%nat ->
  (forall c, c <> cpu -> current (f (kern s)) c = current (kern s) c) ->
  sys_inv acct base None (sys_switch cpu f s).
Proof.
  intros Hi Hq Hok Hcpu Hcur. unfold sys_switch, process_get_current. cbn [map_kern kern]. set (k' := f (kern s)) in *.
  change (map_kern f s) with (map_kern (fun _ => k') s). case_bool_decide as E.
  { apply sys_quiet; [done..|]. intros c. destruct (decide (c = cpu)) as [->|Hc]; [done|by apply Hcur]. }
  set (to := match current k' cpu with Some q => mm_of s q | None => Some KernelCtx end).
  assert (Hto : exists c, to = Some c /\ ctx_live (mem s) c /\
            c = match current k' cpu with Some q => default KernelCtx (mm_of s q) | None => KernelCtx end).
  { unfold to. destruct (current k' cpu) as [q|] eqn:Eq; [|by exists KernelCtx].
    assert (Hu : is_used (kern s) q = true).
    { destruct (is_used (kern s) q) eqn:Eu; [done|]. destruct (co_on _ (proj2 Hok) q cpu (or_introl Eq)) as [_ Hon].
      rewrite (qu_free _ _ Hq q Eu), (proj1 (si_free _ _ _ _ Hi q Eu)) in Hon. done. }
    destruct (si_space _ _ _ _ Hi q Hu) as [i Hm]. rewrite Hm. exists (SlotCtx i). split_and!; [done| |done].
    apply (si_spaces _ _ _ _ Hi). left. by exists q. }
  destruct Hto as (c & Hto & Hlive & Hc).
  assert (Heq : match current k' cpu with
    | Some q => map_mem (vmm_switch_context cpu (mm_of (map_kern (fun _ => k') s) q)) (map_kern (fun _ => k') s)
    | None => map_mem (vmm_switch_context cpu (Some KernelCtx)) (map_kern (fun _ => k') s)
    end = map_mem (vmm_switch_context cpu (Some c)) (map_kern (fun _ => k') s)).
  { rewrite <- Hto. unfold to. by destruct (current k' cpu). }
  rewrite Heq. destruct (switch_space cpus Hcpus _ _ cpu c (si_vm _ _ _ _ Hi) Hlive Hcpu) as (Hv & Hg & Hs & _).
  set (st := vmm_switch_context cpu (Some c) (mem s)) in *.
  change (map_mem (vmm_switch_context cpu (Some c)) (map_kern (fun _ => k') s)) with (map_kern (fun _ => k') (map_mem (fun _ => st) s)).
  clearbody st to. destruct Hi, Hq. constructor; cbn [map_kern map_mem kern pcbs mem]; try done.
  - by rewrite qu_used0.
  - by rewrite qu_fdw0.
  - intros p Hp. unfold is_used in Hp. rewrite qu_used0 in Hp. change (is_used (kern s) p = false) in Hp. rewrite qu_free0 by done. by apply si_free.
  - intros t. rewrite qu_fdw0, si_tables. split; intros [p Hp]; exists p; [by rewrite qu_fds0|by rewrite qu_fds0 in Hp].
  - intros p q t. rewrite !qu_fds0. apply si_tables_apart.
  - intros p Hp. unfold is_used in Hp. rewrite qu_used0 in Hp. by apply si_space.
  - intros i. cbn [ctx_live]. rewrite Hs. apply si_spaces.
  - intros d Hd. rewrite Hg. unfold loaded_space. cbn [map_kern map_mem kern]. destruct (decide (d = cpu)) as [->|Hne].
    + rewrite list_lookup_insert_eq; [by rewrite Hc|]. apply lookup_lt_is_Some. rewrite si_current by done. by eexists.
    + rewrite list_lookup_insert_ne, si_current by done. unfold loaded_space. by rewrite Hcur.
Qed.

Lemma yield_quiet s cpu k :
  sys_inv acct base None s -> quiet (kern s) k -> sched_ok k -> (cpu < MAX_CPUS)%nat ->
  quiet k (scheduler_yield_begin cpu k) /\ (forall c, c <> cpu -> current (scheduler_yield_begin cpu k) c = current k c).
Proof.
  intros Hi Hqk Hok Hcpu. unfold scheduler_yield_begin, yield_with, yield_after, process_get_current.
  destruct (scheduler_pick_next cpu k) as [k1 to] eqn:E.
  destruct (scheduler_pick_next_spec k cpu k1 to Hok Hcpu E) as (_ & Hp & Hg & Hs & Hto).
  assert (Hproc : forall p, proc k1 p = proc k p) by (intros p; unfold proc; by rewrite Hp).
  assert (Hq1 : quiet k k1 /\ forall c, current k1 c = current k c).
  { split; [|intros c; unfold current; by rewrite Hg]. unfold scheduler_pick_next in E. repeat case_match; simplify_eq; by constructor. }
  destruct Hq1 as [Hq1 Hc1]. destruct to as [x|].
  - destruct Hto as (Hx & Hqd & _). case_bool_decide; cbn [negb]; [done|].
    assert (Hux : is_used k x = true).
    { rewrite (quiet_used _ _ _ Hqk). destruct (is_used (kern s) x) eqn:Eu; [done|]. 
      rewrite (qu_free _ _ Hqk x Eu), (proj1 (si_free _ _ _ _ Hi x Eu)) in Hqd. done. }
    unfold context_switch_begin. rewrite bool_decide_false by done. unfold process_set_current. split.
    + etransitivity; [exact Hq1|]. etransitivity; [|apply quiet_proc; [|by intros []]]; [by constructor|].
      change (is_used k1 x = true). by rewrite (quiet_used _ _ _ Hq1).
    + intros c Hc. etransitivity; [|apply Hc1]. unfold current. cbn. by rewrite list_lookup_insert_ne.
  - destruct (current k cpu) as [f|] eqn:Ef; [|done]. case_match; [|done]. unfold switch_to_idle_begin, process_set_current. split.
    + etransitivity; [exact Hq1|]. by constructor.
    + intros c Hc. etransitivity; [|apply Hc1]. unfold current. cbn. by rewrite list_lookup_insert_ne.
Qed.

(** ** Starting a process *)
Lemma pages_same_view extra extra' (st st' : vmm T) n x :
  vm_inv extra st -> vm_inv extra' st' -> pages_same st st' -> g_slots st' !! n = g_slots st !! n ->
  view st' (SlotCtx n) x = view st (SlotCtx n) x.
Proof.
  intros Hi Hi' Hp Hg. apply option_eq. intros b. rewrite (view_spec _ _ _ _ _ Hi), (view_spec _ _ _ _ _ Hi').
  assert (Hm : forall m, maps st' (SlotCtx n) m <-> maps st (SlotCtx n) m).
  { intros m. split; intros (j & y & [= <-] & Hy & Hm); exists n, y; (split; [done|]); (split; [congruence|done]). }
  assert (Hb : forall m, maps st (SlotCtx n) m -> ram st' (phys m + x mod PAGE_SIZE) = ram st (phys m + x mod PAGE_SIZE)).
  { intros m (j & y & _ & Hy & Hin). apply (Hp j y); [done|done|apply offset_bounds]. }
  split; intros (m & Hin & Hv & ->); exists m; (split; [by apply Hm|]); (split; [done|]); [apply Hb; by apply Hm|symmetry; by apply Hb].
Qed.

Lemma map_user_page s p i v fl st r a :
  sys_inv acct base None s -> mm_of s p = Some (SlotCtx i) -> 0 <= v < 2 ^ 47 -> vmm_resolve (mem s) (SlotCtx i) v = 0 ->
  vmm_map_allocated (Some (SlotCtx i)) v fl (mem s) = (st, r, a) ->
  sys_inv acct base None (map_mem (fun _ => st) s) /\ rest_kept p s (map_mem (fun _ => st) s) /\ r <= 0.
Proof.
  intros Hi Hp Hv Hr E. pose proof (si_vm _ _ _ _ Hi) as Hvm.
  destruct (map_fresh_keeps _ _ _ i v _ _ _ Hvm Hv Hr E) as (Hvm' & _ & _ & Hcase).
  destruct (vmm_map_allocated_inv _ _ _ _ _ _ _ _ Hvm Hv (slot_flags _ _) E) as (_ & Hcur & Hps & Hs).
  assert (Hslots : (forall n, n <> i -> g_slots st !! n = g_slots (mem s) !! n) /\ forall n, ctx_live st (SlotCtx n) <-> ctx_live (mem s) (SlotCtx n)).
  { destruct Hs as [(_ & _ & Hg)|[(_ & ? & _)|(i' & x & x' & o & _ & [= <-] & Hx & Hu & _ & Hen & Hg & _)]]; [|done|].
    - split; [intros; by rewrite Hg|]. intros n. cbn [ctx_live]. by rewrite Hg.
    - destruct (entered_facts _ _ _ _ _ (vi_slot _ _ Hvm i x Hx Hu) Hen) as (Hu' & _).
      split; [intros n Hn; rewrite Hg; by apply list_lookup_insert_ne|]. intros n. cbn [ctx_live]. rewrite Hg.
      destruct (decide (n = i)) as [->|Hn]; [|by rewrite list_lookup_insert_ne].
      rewrite list_lookup_insert_eq by (by eapply lookup_lt_Some). rewrite Hx. split; intros (y & [= <-] & Hy); eexists; (split; [done|congruence]). }
  destruct Hslots as [Hoth Hlive]. split; [by apply sys_mem|]. split; [|destruct Hcase as [[? _]|[? _]]; lia].
  apply rest_kept_mem. intros q c x Hq Hc. destruct (space_slot acct base _ s q Hi c Hc) as [n ->].
  eapply pages_same_view; [done|done|done|]. apply Hoth. intros ->. apply Hq. by eapply (si_spaces_apart _ _ _ _ Hi).
Qed.

Lemma stack_rest spare s p s' r :
  sys_inv acct base spare s -> is_used (kern s) p = true -> allocate_kernel_stack trampoline p s = (s', r) ->
  sys_inv acct base spare s' /\ rest_kept p s s' /\ kern s' = kern s /\ mm_of s' p = mm_of s p /\ (r = - ENOMEM \/ r = 0).
Proof.
  intros Hi Hu E. destruct (allocate_stack_inv acct base trampoline cpus Hcpus _ s p s' r Hi Hu E) as (Hi' & Hk & Hsame & Hr & Hp & Ho).
  split; [done|]. split; [|split; [done|]; split; [unfold mm_of; by rewrite Hp|destruct Hr as [|[? _]]; auto]].
  constructor; try (intros; by rewrite Hk); [done|]. intros. eapply same_memory_views; [apply Hi|apply Hi'|done].
Qed.

Lemma process_start_inv s p entry arg s' r :
  sys_inv acct base None s -> is_used (kern s) p = true -> process_start trampoline cpus (Some p) entry arg s = (s', r) ->
  sys_inv acct base None s' /\ rest_kept p s s'.
Proof.
  intros Hi Hu E. unfold process_start in E. destruct (entry =? 0); [injection E as <- <-; split; [done|by constructor]|].
  set (s1 := on_pcb p (set_entry_point entry arg) s) in E.
  assert (Hi1 : sys_inv acct base None s1) by (by apply (sys_pcb acct base cpus Hcpus)).
  assert (Hr1 : rest_kept p s s1) by apply (rest_kept_pcb cpus Hcpus).
  destruct (allocate_kernel_stack trampoline p s1) as [s2 r2] eqn:Ea.
  destruct (stack_rest _ _ _ _ _ Hi1 Hu Ea) as (Hi2 & Hr2 & Hk2 & _ & Hres). pose proof (rest_kept_trans _ _ _ _ Hr1 Hr2) as Hr02.
  destruct (r2 <? 0); injection E as <- <-; [done|]. split; [|eapply rest_kept_trans; [exact Hr02|apply rest_kept_run]].
  apply sys_run; [done|done|by rewrite Hk2|done|by intros []].
Qed.

(** The stack lies in the lower half. *)
Definition user_top (stack_top : Z) : Prop := stack_top = 0 \/ PAGE_SIZE + 16 <= stack_top <= 2 ^ 47.

Lemma process_start_user_inv s p entry stack_top s' r :
  sys_inv acct base None s -> is_used (kern s) p = true -> user_top stack_top ->
  process_start_user trampoline cpus (Some p) entry stack_top s = (s', r) ->
  sys_inv acct base None s' /\ rest_kept p s s'.
Proof.
  intros Hi Hu Htop E. unfold process_start_user in E. destruct (si_space _ _ _ _ Hi p Hu) as [i Hmm]. rewrite Hmm in E.
  destruct (entry =? 0); [injection E as <- <-; split; [done|by constructor]|]. rewrite land_lnot_15 in E.
  set (top := (if stack_top =? 0 then PROCESS_USER_STACK_TOP else stack_top) - _ mod 16) in E.
  assert (Hb : PAGE_SIZE <= top <= 2 ^ 47).
  { unfold top, user_top, PAGE_SIZE in *. destruct (Z.eqb_spec stack_top 0) as [->|]; [done|]. clear - Htop n. dlia. }
  clearbody top. destruct (allocate_kernel_stack trampoline p s) as [s1 r1] eqn:Ea.
  destruct (stack_rest _ _ _ _ _ Hi Hu Ea) as (Hi1 & Hr1 & Hk1 & Hm1 & _). assert (Hu1 : is_used (kern s1) p = true) by (by rewrite Hk1).
  destruct (r1 <? 0); [injection E as <- <-; done|].
  rewrite u64_small in E by (unfold is_u64, PAGE_SIZE in *; lia). set (v := page_of (top - PAGE_SIZE)) in E.
  assert (Hv : 0 <= v < 2 ^ 47) by (unfold v; rewrite page_of_eq; unfold PAGE_SIZE in *; clear - Hb; dlia).
  set (m := if vmm_resolve (mem s1) (SlotCtx i) v =? 0 then _ else _) in E.
  assert (Hmap : sys_inv acct base None (map_mem (fun _ => m.1) s1) /\ rest_kept p s1 (map_mem (fun _ => m.1) s1)).
  { unfold m. destruct (Z.eqb_spec (vmm_resolve (mem s1) (SlotCtx i) v) 0) as [E0|_]; [|cbn [fst]; split; [by destruct s1|by constructor]].
    destruct (vmm_map_allocated _ _ _ _) as [[st r2] a] eqn:Em. cbn [fst].
    destruct (map_user_page s1 p i v _ st r2 a Hi1 ltac:(congruence) Hv E0 Em) as (A & B & _). done. }
  destruct m as [st r2]. cbn [fst] in Hmap. destruct Hmap as [Hi2 Hr2].
  pose proof (rest_kept_trans _ _ _ _ Hr1 Hr2) as Hr02. destruct (r2 <? 0); injection E as <- <-; [done|]. split.
  - apply sys_run; [done| |exact Hu1|done|by intros []]. by apply (sys_pcb acct base cpus Hcpus).
  - eapply rest_kept_trans; [exact Hr02|]. eapply rest_kept_trans; [apply (rest_kept_pcb cpus Hcpus)|apply rest_kept_run].
Qed.

(** ** Reachable states *)
Inductive life_step s : system V W T -> Prop :=
| ls_create cpu nm : life_step s (process_create console cpu nm s).1
| ls_start p entry arg : is_used (kern s) p = true -> life_step s (process_start trampoline cpus (Some p) entry arg s).1
| ls_start_user p entry top : is_used (kern s) p = true -> user_top top ->
    life_step s (process_start_user trampoline cpus (Some p) entry top s).1
| ls_fork cpu p : is_used (kern s) p = true -> (cpu < MAX_CPUS)%nat ->
    life_step s (process_fork trampoline console cpus cpu (Some p) s).1
| ls_exec cpu p image nm argv s' r : is_used (kern s) p = true -> runs_only cpu p s -> loadable image ->
    process_exec_image_args trampoline cpus cpu (Some p) (Some image) nm argv s = Some (s', r) -> life_step s s'
| ls_terminate p code : is_used (kern s) p = true -> life_step s (map_kern (process_terminate cpus (Some p) code) s)
| ls_destroy cpu p : is_used (kern s) p = true -> leaves_alone cpu p s -> life_step s (process_destroy cpu (Some p) s)
| ls_wait cpu id options s' r status : (forall q, is_used (kern s) q = true -> state (proc (kern s) q) = PROCESS_STATE_ZOMBIE -> leaves_alone cpu q s) ->
    process_waitpid [] cpu id options s = Some (s', r, status) -> life_step s s'
| ls_yield cpu : (cpu < MAX_CPUS)%nat -> leaving (kern s) cpu = None -> life_step s (sys_switch cpu (scheduler_yield_begin cpu) s)
| ls_block cpu reason : (cpu < MAX_CPUS)%nat -> leaving (kern s) cpu = None ->
    life_step s (sys_switch cpu (block_with (scheduler_yield_begin cpu) cpu reason) s)
| ls_finish cpu : life_step s (map_kern (scheduler_finish_switch cpu) s).

Lemma finish_switch_quiet s cpu : sys_inv acct base None s -> quiet (kern s) (scheduler_finish_switch cpu (kern s)).
Proof.
  intros Hi. unfold scheduler_finish_switch. destruct (mjoin _) as [prev|] eqn:E; [|done].
  etransitivity; [|apply quiet_proc; [|by intros []]]; [by constructor|]. change (is_used (kern s) prev = true).
  apply (busy_used _ _ _ _ _ Hi). right. right. left. apply (co_on _ (proj2 (si_sched _ _ _ _ Hi)) prev cpu). by right.
Qed.

Lemma block_step s cpu reason :
  sys_inv acct base None s -> (cpu < MAX_CPUS)%nat -> leaving (kern s) cpu = None ->
  sys_inv acct base None (sys_switch cpu (block_with (scheduler_yield_begin cpu) cpu reason) s).
Proof.
  intros Hi Hcpu Hlv. unfold block_with.
  destruct (process_get_current cpu (kern s)) as [p|] eqn:Ep.
  - set (k1 := on_proc p (fun x => set_state PROCESS_STATE_BLOCKED (set_block_reason reason x)) (kern s)).
    assert (Hq1 : quiet (kern s) k1) by (apply quiet_proc; [by eapply current_used|by intros []]).
    assert (Hok1 : sched_ok k1) by (apply on_proc_ok; [done|apply Hi]).
    destruct (yield_quiet s cpu k1) as [Hq Hc]; [done..|]. apply sys_switch_inv; [done| | |done|]; rewrite Ep; fold k1.
    + by etransitivity.
    + by apply yield_begin_ok.
    + exact Hc.
  - apply sys_switch_inv; [done| | |done|]; rewrite Ep; [done|apply Hi|done].
Qed.

Lemma wait_step s cpu id options s' r status :
  sys_inv acct base None s ->
  (forall q, is_used (kern s) q = true -> state (proc (kern s) q) = PROCESS_STATE_ZOMBIE -> leaves_alone cpu q s) ->
  process_waitpid [] cpu id options s = Some (s', r, status) -> sys_inv acct base None s'.
Proof.
  intros Hi Hz E. unfold process_waitpid in E.
  destruct (process_get_current cpu (kern s)) as [parent|]; [|apply (f_equal (fmap (fst ∘ fst))) in E; cbn in E; congruence].
  rewrite waitpid_loop_eq in E. destruct (head (zombies parent id (kern s))) as [child|] eqn:Eh.
  - assert (s' = process_destroy cpu (Some child) s) as ->.
    { generalize dependent (process_destroy cpu (Some child) s). intros sd E. congruence. }
    destruct (zombies_spec parent id (kern s) child) as (Hst & _ & Hu); [destruct (zombies _ _ _); [done|injection Eh as ->; by left]|].
    eapply process_destroy_inv; [done..|]. by apply Hz.
  - destruct (decide _); [congruence|]. destruct (has options WNOHANG); [congruence|done].
Qed.

Lemma life_step_inv s s' : sys_inv acct base None s -> life_step s s' -> sys_inv acct base None s'.
Proof.
  intros Hi Hs. destruct Hs.
  - destruct (process_create _ _ _ _) as [s' r] eqn:E. eapply process_create_inv in E as [? _]; done.
  - destruct (process_start _ _ _ _ _ _) as [s' r] eqn:E. by apply process_start_inv in E as [? _].
  - destruct (process_start_user _ _ _ _ _ _) as [s' r] eqn:E. by apply process_start_user_inv in E as [? _].
  - destruct (process_fork _ _ _ _ _ _) as [s' r] eqn:E. by eapply process_fork_spec in E as [? _].
  - destruct (process_exec_image_spec acct base trampoline cpus Hcpus cpu p image nm argv s Hi) as (s2 & r2 & E & Hi2 & _); [done..|].
    assert (s2 = s') as <-; [|done]. congruence.
  - by apply process_terminate_inv.
  - by eapply process_destroy_inv.
  - by eapply wait_step.
  - destruct (yield_quiet s cpu (kern s)) as [Hq Hc]; [done|done|apply Hi|done|]. apply sys_switch_inv; [done|done| |done|done].
    apply yield_begin_ok; [apply Hi|done|done].
  - apply block_step; done.
  - apply (sys_quiet None s (scheduler_finish_switch cpu (kern s)) Hi); [by apply finish_switch_quiet|apply finish_switch_ok, Hi|].
    intros c. unfold scheduler_finish_switch. by destruct (mjoin _).
Qed.
End Life.

(** ** Theorems *)
Section Theorems.
Context {V W T : Type} `{EqDecision V} `{VnodeHooks V W} `{Paging T}.
Context (acct : W -> (V -> Z) -> Prop) `{!VnodeAccounting V W acct} (base : V -> Z) (Hbase : forall v, 0 <= base v).
Context (trampoline : Z) (console : option V) (cpus : nat) (Hcpus : (1 <= cpus <= MAX_CPUS)%nat).
Context (Hconsole : forall v, console = Some v ->
  forall w c c', (forall x, x <> v -> c x = c' x) -> 0 <= c' v -> acct w c -> acct w c').
Implicit Types (s : system V W T) (p q : nat).

(** C3: in every state reached from boot by creating, starting, forking,
    replacing, ending, destroying and waiting for processes and by switching
    between them: a descriptor table is in use, and an address space exists, if
    and only if exactly one process has it; every process has an address space;
    each processor has the address space of its process loaded; the counts of
    open vnodes are exact; a frame mapped into an address space or part of a
    kernel stack is no page table and has as many references as there are
    mappings and stacks with it; and destroying a process gives its references
    back, so that a frame of its kernel stack or memory that nothing else holds
    has none left. The steps are restricted where the code relies on its
    callers and checks nothing: a process that is destroyed, and each zombie
    when a parent waits, runs on no other processor and no processor is still
    switching away from it ([leaves_alone]); a process replaces its own program
    or that of a process no processor runs, with an image whose segments are in
    the lower half and leave the stack page free. Nothing is claimed of frames
    that hold page tables. *)
Theorem process_life_safe w st0 s :
  fd_inv acct base w -> (forall t, g_fd_table_used w !! t <> Some true) -> vm_boot st0 ->
  rtc (life_step trampoline console cpus) (sys_boot w st0) s ->
  (forall t, g_fd_table_used (fdw (kern s)) !! t = Some true <-> exists! p, fds_of (proc (kern s) p) = Some t) /\
  (forall i, ctx_live (mem s) (SlotCtx i) <-> exists! p, mm_of s p = Some (SlotCtx i)) /\
  (forall p, is_used (kern s) p = true -> exists i, mm_of s p = Some (SlotCtx i) /\ ctx_live (mem s) (SlotCtx i)) /\
  (forall cpu p, current (kern s) cpu = Some p -> (cpu < MAX_CPUS)%nat -> g_current_context (mem s) !! cpu = mm_of s p) /\
  fd_inv acct base (fdw (kern s)) /\
  (forall a, 0 <= a -> 0 < owners (mem s) a + stack_refs s a ->
     ~ pg_table (tables (mem s)) a /\ pmm_frame_refcount a (frames (mem s)) = owners (mem s) a + stack_refs s a) /\
  (forall cpu p a, is_used (kern s) p = true -> leaves_alone cpu p s -> 0 <= a -> 0 < owners (mem s) a + stack_refs s a ->
     let s' := process_destroy cpu (Some p) s in
     is_used (kern s') p = false /\ pmm_frame_refcount a (frames (mem s')) = owners (mem s') a + stack_refs s' a).
Proof.
  intros Hw Hno Hb Hr. assert (Hi : sys_inv acct base None s).
  { eapply (rtc_preserve (sys_inv acct base None)); [|by apply sys_boot_inv|exact Hr]. intros s1 s2. by apply life_step_inv. }
  split; [|split; [|split; [|split; [|split; [apply Hi|split; [apply Hi|]]]]]].
  - intros t. rewrite (si_tables _ _ _ _ Hi). split; [|intros (p & Hp & _); by exists p].
    intros [p Hp]. exists p. split; [done|]. intros q Hq. by eapply (si_tables_apart _ _ _ _ Hi).
  - intros i. rewrite (si_spaces _ _ _ _ Hi). split; [|intros (p & Hp & _); left; by exists p].
    intros [[p Hp]|?]; [|done]. exists p. split; [done|]. intros q Hq. by eapply (si_spaces_apart _ _ _ _ Hi).
  - intros p Hu. destruct (si_space _ _ _ _ Hi p Hu) as [i Hm]. exists i. split; [done|]. apply (si_spaces _ _ _ _ Hi). left. by exists p.
  - intros cpu p Hc Hlt. rewrite (si_current _ _ _ _ Hi cpu Hlt). unfold loaded_space. rewrite Hc.
    destruct (si_space _ _ _ _ Hi p (current_used _ _ _ _ _ _ Hi Hc)) as [i ->]. done.
  - intros cpu p a Hu Halone Ha Hpos s'. split; [by eapply destroy_gone|]. by eapply process_destroy_counted.
Qed.

(** C7: forking a process either fails and leaves every process, its memory
    and its descriptors as they were, or makes a child in a free slot with the
    descriptors of the parent, a new address space that reads at every address
    as the parent's does, a kernel stack, the parent's context with 0 in the
    result register and the parent's signal actions and mask, queued to run;
    no other process changes, nor the parent. *)
Theorem process_fork_correct cpu parent s :
  sys_inv acct base None s -> is_used (kern s) parent = true -> (cpu < MAX_CPUS)%nat ->
  exists s' r, process_fork trampoline console cpus cpu (Some parent) s = (s', r) /\ sys_inv acct base None s' /\
    match r with
    | None => (forall q, is_used (kern s') q = is_used (kern s) q) /\ exists p, is_used (kern s) p = false /\ rest_kept p s s'
    | Some child => forked s parent child s'
    end.
Proof.
  intros Hi Hu Hc. destruct (process_fork trampoline console cpus cpu (Some parent) s) as [s' r] eqn:E. exists s', r. split; [done|].
  by eapply process_fork_spec.
Qed.

(** C6: replacing the program of a process, called on the process itself or on
    one no processor runs, with an image whose segments are in the lower half
    and leave the stack page free: the call terminates; on an error the old
    program, every process and every address space are as before, but for the
    kernel stack of a process that had none, which may have been allocated; on
    success the process runs in a new address space that reads as the program
    headers say, with a 16-byte aligned stack of argument count, argument
    pointers to the NUL-terminated arguments and two null words, the old
    address space is gone, and no other process changed. A kernel stack the
    process had stays its kernel stack in both cases. *)
Theorem process_exec_correct cpu p image nm argv s :
  sys_inv acct base None s -> is_used (kern s) p = true -> runs_only cpu p s -> loadable image ->
  exists s' r, process_exec_image_args trampoline cpus cpu (Some p) (Some image) nm argv s = Some (s', r) /\
    sys_inv acct base None s' /\ ((r < 0 /\ built p s s') \/ (r = 0 /\ executed p image nm argv s s')).
Proof. by apply process_exec_image_spec. Qed.

(** C36: one call of [process_waitpid]. If a child that is waited for is a
    zombie, the first such child of the table is reaped: its identifier and
    exit code are the result, it is gone with all it held, and nothing else
    changes. Otherwise the result is [ECHILD] exactly if there is no such
    child, 0 with [WNOHANG], and else the caller blocks. *)
Theorem process_waitpid_correct between cpu parent id options s :
  sys_inv acct base None s -> process_get_current cpu (kern s) = Some parent ->
  (forall q, q ∈ zombies parent id (kern s) -> leaves_alone cpu q s) ->
  match head (zombies parent id (kern s)) with
  | Some child =>
      let s' := process_destroy cpu (Some child) s in
      process_waitpid between cpu id options s = Some (s', Proc.pid (proc (kern s) child), Some (exit_code (proc (kern s) child))) /\
      sys_inv acct base None s' /\ is_used (kern s) child = true /\ is_used (kern s') child = false /\ rest_kept child s s'
  | None =>
      process_waitpid between cpu id options s =
        if decide (children parent id (kern s) = []) then Some (s, u32 (- ECHILD), None)
        else if has options WNOHANG then Some (s, 0, None)
        else match between with
             | [] => None
             | g :: rest => waitpid_loop rest cpu parent id options (g (sys_switch cpu (block_with (scheduler_yield_begin cpu) cpu id) s))
             end
  end.
Proof.
  intros Hi Hc Hz. unfold process_waitpid. rewrite Hc, waitpid_loop_eq.
  destruct (head (zombies parent id (kern s))) as [child|] eqn:Eh; [|done]. cbv zeta.
  assert (Hin : child ∈ zombies parent id (kern s)) by (destruct (zombies _ _ _); [done|injection Eh as ->; by left]).
  destruct (zombies_spec _ _ _ _ Hin) as (_ & _ & Hu). specialize (Hz child Hin). split; [reflexivity|].
  split; [by eapply process_destroy_inv|]. split; [done|]. split; [by eapply destroy_gone|by eapply destroy_rest].
Qed.
End Theorems.

(** ** Witnesses: x86 page tables, descriptors over pipes, the console a file *)
Definition demo_console : option vref := Some (VFile 1).
Definition demo_empty : system vref (list pipe) x86 := sys_boot (sys_init (fun _ => 0)) demo_start.
Definition demo_one : system vref (list pipe) x86 := (process_create demo_console 0 (Some [105; 110; 105; 116]) demo_empty).1.

Lemma demo_console_free v : demo_console = Some v ->
  forall w c c', (forall x, x <> v -> c x = c' x) -> 0 <= c' v -> pipe_acct w c -> pipe_acct w c'.
Proof.
  intros [= <-] w c c' He H0 (Hl & Ha & Hout & Hnn). unfold pipe_acct, pipe_agrees in *. split; [done|]. split; [|split].
  - intros i p Hp. rewrite <- !He by done. by apply Ha.
  - intros i Hi. rewrite <- !He by done. by apply Hout.
  - intros v. destruct (decide (v = VFile 1)) as [->|Hv]; [done|]. rewrite <- He by done. apply Hnn.
Qed.

Lemma demo_base v : 0 <= file_base (fun _ => 0) v.
Proof. by destruct v. Qed.

Lemma demo_tables t : g_fd_table_used (sys_init (fun _ => 0)) !! t <> Some true.
Proof.
  intros Ht. change (g_fd_table_used (sys_init (fun _ => 0))) with (replicate FD_TABLE_POOL_SIZE false) in Ht.
  by apply lookup_replicate in Ht as [? _].
Qed.

Lemma demo_empty_inv : sys_inv pipe_acct (file_base (fun _ => 0)) None demo_empty.
Proof. apply sys_boot_inv; [by apply sys_init_inv|exact demo_tables|exact demo_boots]. Qed.

Lemma demo_step s s' :
  sys_inv pipe_acct (file_base (fun _ => 0)) None s -> life_step 1 demo_console 1 s s' -> sys_inv pipe_acct (file_base (fun _ => 0)) None s'.
Proof. apply (life_step_inv pipe_acct _ demo_base 1 demo_console 1 ltac:(unfold MAX_CPUS; lia) demo_console_free). Qed.

Lemma demo_one_inv : sys_inv pipe_acct (file_base (fun _ => 0)) None demo_one.
Proof. eapply demo_step; [exact demo_empty_inv|apply ls_create]. Qed.

Strategy expand [demo_one demo_empty].

Lemma demo_one_reach : rtc (life_step 1 demo_console 1) (sys_boot (sys_init (fun _ => 0)) demo_start) demo_one.
Proof. unfold demo_one, demo_empty. eapply rtc_l; [apply ls_create|apply rtc_refl]. Qed.

Lemma process_life_safe_witness :
  is_used (kern demo_one) 0 = true /\
  (forall i, ctx_live (mem demo_one) (SlotCtx i) <-> exists! p, mm_of demo_one p = Some (SlotCtx i)).
Proof.
  split; [vm_compute; reflexivity|].
  destruct (process_life_safe pipe_acct _ demo_base 1 demo_console 1 ltac:(unfold MAX_CPUS; lia) demo_console_free (sys_init (fun _ => 0)) demo_start demo_one)
    as (_ & Hs & _); [by apply sys_init_inv|exact demo_tables|exact demo_boots|exact demo_one_reach|exact Hs].
Defined.

Lemma process_fork_correct_witness :
  exists s' r, process_fork 1 demo_console 1 0 (Some 0%nat) demo_one = (s', r) /\
    match r with
    | None => forall q, is_used (kern s') q = is_used (kern demo_one) q
    | Some child => forked demo_one 0 child s'
    end.
Proof.
  destruct (process_fork_correct pipe_acct _ demo_base 1 demo_console 1 ltac:(unfold MAX_CPUS; lia) demo_console_free 0 0 demo_one demo_one_inv)
    as (s' & r & E & _ & Hr).
  - vm_compute. reflexivity.
  - unfold MAX_CPUS. lia.
  - exists s', r. split; [exact E|]. destruct r; [exact Hr|exact (proj1 Hr)].
Defined.

Lemma demo_one_idle c : current (kern demo_one) c = None.
Proof.
  pose proof demo_empty_inv as Hi. unfold demo_one. destruct (process_create demo_console 0 _ demo_empty) as [s r] eqn:E. cbn [fst].
  eapply (process_create_inv pipe_acct _ demo_base demo_console 1 ltac:(unfold MAX_CPUS; lia) demo_console_free) in E as [_ Hr]; [|exact Hi].
  assert (Hc : current (kern demo_empty) c = None) by apply mjoin_replicate_None.
  destruct r as [i|]; [destruct Hr as (_ & _ & _ & Hcur & _); by rewrite Hcur|]. destruct Hr as [_ ->]. exact Hc.
Qed.

Lemma demo_loadable : loadable demo_image.
Proof.
  split; [exact demo_bytes_ok|]. split; [vm_compute; reflexivity|]. intros e He. rewrite demo_image_parses in He. injection He as <-.
  split; [|vm_compute; reflexivity]. intros k s Hk Hs _. assert (k = 0) as -> by (cbn in Hk; lia). vm_compute in Hs. injection Hs as <-.
  vm_compute. discriminate.
Qed.

(** The demonstration image is loaded, and the process now runs it. *)
Lemma process_exec_correct_witness :
  exists s', process_exec_image_args 1 1 0 (Some 0%nat) (Some demo_image) None [[97]; [98; 99]] demo_one = Some (s', 0) /\
    executed 0 demo_image None [[97]; [98; 99]] demo_one s'.
Proof.
  destruct (process_exec_correct pipe_acct (file_base (fun _ => 0)) 1 1 ltac:(unfold MAX_CPUS; lia) 0 0 demo_image None [[97]; [98; 99]] demo_one demo_one_inv)
    as (s' & r & E & _ & Hr).
  - vm_compute. reflexivity.
  - split; [unfold MAX_CPUS; lia|]. intros c Hc. rewrite demo_one_idle in Hc. discriminate Hc.
  - exact demo_loadable.
  - assert (E0 : snd <$> process_exec_image_args 1 1 0 (Some 0%nat) (Some demo_image) None [[97]; [98; 99]] demo_one = Some 0)
      by (vm_compute; reflexivity).
    rewrite E in E0. injection E0 as ->. exists s'. split; [exact E|]. destruct Hr as [[Hr _]|[_ Hr]]; [discriminate Hr|exact Hr].
Defined.

(** The first process runs and its child has ended with code 7. *)
Definition demo_run : system vref (list pipe) x86 :=
  sys_switch 0 (scheduler_yield_begin 0) (process_start 1 1 (Some 0%nat) 4096 0 demo_one).1.
Definition demo_zombie : system vref (list pipe) x86 :=
  map_kern (process_terminate 1 (Some 1%nat) 7) (process_create demo_console 0 (Some [99]) demo_run).1.

Lemma demo_zombie_inv : sys_inv pipe_acct (file_base (fun _ => 0)) None demo_zombie.
Proof.
  assert (H1 : sys_inv pipe_acct (file_base (fun _ => 0)) None (process_start 1 1 (Some 0%nat) 4096 0 demo_one).1).
  { eapply demo_step; [exact demo_one_inv|apply ls_start; vm_compute; reflexivity]. }
  assert (H2 : sys_inv pipe_acct (file_base (fun _ => 0)) None demo_run).
  { eapply demo_step; [exact H1|apply ls_yield; [unfold MAX_CPUS; lia|vm_compute; reflexivity]]. }
  eapply demo_step; [eapply demo_step; [exact H2|apply ls_create]|apply ls_terminate; vm_compute; reflexivity].
Qed.

Lemma process_waitpid_correct_witness :
  exists s', process_waitpid [] 0 2 0 demo_zombie = Some (s', 2, Some 7) /\ is_used (kern s') 1 = false.
Proof.
  pose proof (process_waitpid_correct pipe_acct (file_base (fun _ => 0)) demo_base 1 ltac:(unfold MAX_CPUS; lia) [] 0 0 2 0 demo_zombie demo_zombie_inv) as Hw.
  assert (Hz : zombies 0 2 (kern demo_zombie) = [1%nat]) by (vm_compute; reflexivity). rewrite Hz in Hw. cbn [head] in Hw.
  destruct Hw as (E & _ & _ & Hg & _).
  - vm_compute. reflexivity.
  - intros q Hq. apply list_elem_of_singleton in Hq as ->.
    assert (Hoff : forall c, ~ occupies (kern demo_zombie) c 1).
    { intros c Hc. destruct (co_on _ (proj2 (si_sched _ _ _ _ demo_zombie_inv)) 1 c Hc) as [_ Hon]. vm_compute in Hon. discriminate Hon. }
    apply idle_alone; [unfold MAX_CPUS; lia|intros c Hc; apply (Hoff c); by left|intros c Hc; apply (Hoff c); by right].
  - eexists. split; [rewrite E|exact Hg]. do 3 f_equal.
Defined.
