(* ===== verification/Kheap.v ===== *)
(** * src/mm/kheap.c: the kernel heap

    Blocks with a header in front of the payload, either cut from an arena
    handed to [kheap_init] or taken as whole pages from the frame allocator of
    Pmm.v. The list [g_blocks] holds the headers in list order, a header is
    identified by its address, [previous] and [next] are the neighbours in the
    list. A header that left the list reads as free or with its magic cleared,
    so a pointer whose header is not in the list is ignored by [kfree].
    Payload bytes are the memory [h_ram]. *)
From S2P Require Import Prelude Pmm.
Open Scope tach_scope.

(** ** Definitions *)
Definition KHEAP_ALIGN : Z := 16.
(** [sizeof(struct heap_block)]. *)
Definition BLOCK_BYTES : Z := 48.

Record block := Block { b_addr : Z; b_size : Z; b_pages : Z; b_free : bool; b_pmm : bool }.
#[export] Instance block_inhabited : Inhabited block := populate (Block 0 0 0 false false).

Definition set_size v b := Block (b_addr b) v (b_pages b) (b_free b) (b_pmm b).
Definition set_free v b := Block (b_addr b) (b_size b) (b_pages b) v (b_pmm b).

Record heap := Heap { g_blocks : list block; g_heap_ready : bool; h_pmm : pmm; h_ram : Z -> Z }.
Definition set_blocks l h := Heap l (g_heap_ready h) (h_pmm h) (h_ram h).
Definition set_pmm p h := Heap (g_blocks h) (g_heap_ready h) p (h_ram h).
Definition set_h_ram m h := Heap (g_blocks h) (g_heap_ready h) (h_pmm h) m.

Definition align_up (value alignment : Z) : Z := u64 (value + alignment - 1) .& Z.lnot (alignment - 1).
Definition header_size : Z := align_up BLOCK_BYTES KHEAP_ALIGN.

Definition append_block (b : block) (h : heap) : heap := set_blocks (b :: g_blocks h) h.
Definition remove_block (i : nat) (h : heap) : heap := set_blocks (delete i (g_blocks h)) h.

Definition kheap_init (start size : Z) (h : heap) : heap :=
  let h := Heap [] true (h_pmm h) (h_ram h) in
  if (start =? 0) || (size <=? header_size + KHEAP_ALIGN) then h
  else
    let base := u64 (start + KHEAP_ALIGN - 1) .& Z.lnot (KHEAP_ALIGN - 1) in
    let skipped := u64 (base - start) in
    if (size <=? skipped) || (size - skipped <=? header_size) then h
    else append_block (Block base (size - skipped - header_size) 0 true false) h.

(** The block at index [i] keeps [wanted] bytes; the rest becomes a free block
    behind it. *)
Definition split_arena_block (i : nat) (wanted : Z) (h : heap) : heap :=
  let b := g_blocks h !!! i in
  if b_pmm b || (b_size b <? u64 (wanted + header_size + KHEAP_ALIGN)) then h
  else
    let remainder := Block (b_addr b + header_size + wanted) (b_size b - wanted - header_size) 0 true false in
    set_blocks (take i (g_blocks h) ++ set_size wanted b :: remainder :: drop (S i) (g_blocks h)) h.

Definition fits (h : heap) (size : Z) (i : nat) : bool :=
  b_free (g_blocks h !!! i) && (size <=? b_size (g_blocks h !!! i)).

(** The page-backed half of [kmalloc]. *)
Definition kmalloc_pages (size : Z) (h : heap) : heap * Z :=
  let bytes := u64 (header_size + size) in
  let pages := u64 (bytes + PAGE_SIZE - 1) / PAGE_SIZE in
  let '(p, a) := pmm_alloc_pages pages (h_pmm h) in
  let h := set_pmm p h in
  if a =? 0 then (h, 0)
  else (append_block (Block a (pages * PAGE_SIZE - header_size) pages false true) h, a + header_size).

Definition kmalloc (size : Z) (h : heap) : heap * Z :=
  if size =? 0 then (h, 0)
  else
    let h := if g_heap_ready h then h else kheap_init 0 0 h in
    let size := align_up size KHEAP_ALIGN in
    match find_from (fits h size) 0 (length (g_blocks h)) with
    | Some i =>
        let h := split_arena_block i size h in
        let h := set_blocks (alter (set_free false) i (g_blocks h)) h in
        (h, b_addr (g_blocks h !!! i) + header_size)
    | None => kmalloc_pages size h
    end.

Definition kzalloc (size : Z) (h : heap) : heap * Z :=
  let '(h, a) := kmalloc size h in
  if a =? 0 then (h, a)
  else (set_h_ram (fun x => if (a <=? x) && (x <? a + size) then 0 else h_ram h x) h, a).

(** The two halves of [merge_arena_neighbors]; [i] is the index of [block]. *)
Definition merge_next (i : nat) (h : heap) : heap :=
  let b := g_blocks h !!! i in
  match g_blocks h !! S i with
  | Some next =>
      if b_free next && negb (b_pmm next) && (b_addr b + header_size + b_size b =? b_addr next)
      then set_blocks (delete (S i) (alter (set_size (b_size b + header_size + b_size next)) i (g_blocks h))) h
      else h
  | None => h
  end.

Definition merge_previous (i : nat) (h : heap) : heap :=
  match i with
  | O => h
  | S j =>
      let b := g_blocks h !!! i in
      let previous := g_blocks h !!! j in
      if b_free previous && negb (b_pmm previous) && (b_addr previous + header_size + b_size previous =? b_addr b)
      then set_blocks (delete i (alter (set_size (b_size previous + header_size + b_size b)) j (g_blocks h))) h
      else h
  end.

Definition merge_arena_neighbors (i : nat) (h : heap) : heap := merge_previous i (merge_next i h).

(** The header in front of a pointer. *)
Definition block_of (h : heap) (pointer : Z) : option nat :=
  find_from (fun i => b_addr (g_blocks h !!! i) =? pointer - header_size) 0 (length (g_blocks h)).

Definition kfree (pointer : Z) (h : heap) : heap :=
  if pointer =? 0 then h
  else
    match block_of h pointer with
    | None => h
    | Some i =>
        let b := g_blocks h !!! i in
        if b_free b then h
        else if b_pmm b then
          let h := remove_block i h in
          set_pmm (pmm_free_pages (b_addr b) (b_pages b) (h_pmm h)) h
        else
          let h := set_blocks (alter (set_free true) i (g_blocks h)) h in
          merge_arena_neighbors i h
    end.

Definition krealloc (pointer new_size : Z) (h : heap) : heap * Z :=
  if pointer =? 0 then kmalloc new_size h
  else if new_size =? 0 then (kfree pointer h, 0)
  else
    match block_of h pointer with
    | None => (h, 0)
    | Some i =>
        let size := b_size (g_blocks h !!! i) in
        if new_size <=? size then (h, pointer)
        else
          let '(h, replacement) := kmalloc new_size h in
          if replacement =? 0 then (h, 0)
          else
            let copy x := if (replacement <=? x) && (x <? replacement + size)
                          then h_ram h (pointer + (x - replacement)) else h_ram h x in
            (kfree pointer (set_h_ram copy h), replacement)
    end.

(** ** Sizes *)
Lemma header_size_eq : header_size = 48.
Proof. reflexivity. Qed.

Lemma align_up_spec n :
  0 < n < 2 ^ 63 -> n <= align_up n KHEAP_ALIGN < n + 16 /\ align_up n KHEAP_ALIGN mod 16 = 0.
Proof.
  intros Hn. unfold align_up, KHEAP_ALIGN. rewrite u64_small by (unfold is_u64; lia).
  change (16 - 1) with (2 ^ 4 - 1). rewrite land_lnot_mask by lia. change (2 ^ 4) with 16. dlia.
Qed.

(** ** Giving a run of frames back *)
Lemma free_pages_run st first n :
  pmm_inv st -> 0 <= n -> 1 <= first -> first + n <= g_frame_limit st ->
  (forall g, first <= g < first + n -> frame_is_used st g = true /\ g_frame_refs st g = 1) ->
  let st' := pmm_free_pages (first * PAGE_SIZE) n st in
  pmm_inv st' /\ g_frame_limit st' = g_frame_limit st /\
  (forall g, 0 <= g -> frame_is_used st' g = negb ((first <=? g) && (g <? first + n)) && frame_is_used st g) /\
  (forall g, g_frame_refs st' g = if (first <=? g) && (g <? first + n) then 0 else g_frame_refs st g).
Proof.
  intros H Hn H1 Hlim Hown st'. unfold st', pmm_free_pages.
  pose proof (inv_limit _ H) as Hmax. change PMM_MAX_FRAMES with 1048576 in Hmax.
  apply (for_range_ind (fun j s => pmm_inv s /\ g_frame_limit s = g_frame_limit st /\
    (forall g, 0 <= g -> frame_is_used s g = negb ((first <=? g) && (g <? first + j)) && frame_is_used st g) /\
    (forall g, g_frame_refs s g = if (first <=? g) && (g <? first + j) then 0 else g_frame_refs st g))); [done| |].
  - split; [done|]. split; [done|]. split.
    + intros g Hg. by replace ((first <=? g) && (g <? first + 0)) with false by lia.
    + intros g. by replace ((first <=? g) && (g <? first + 0)) with false by lia.
  - intros j s Hj (Hs & El & Eu & Er).
    replace (u64 (first * PAGE_SIZE + j * PAGE_SIZE)) with ((first + j) .<< PAGE_SHIFT).
    2: { unfold PAGE_SHIFT, PAGE_SIZE. rewrite Z.shiftl_mul_pow2, u64_small by (unfold is_u64; lia). lia. }
    assert (Hf : 1 <= first + j < g_frame_limit s) by lia. destruct (Hown (first + j) ltac:(lia)) as [Hu Hr].
    assert (Hu' : frame_is_used s (first + j) = true) by (rewrite Eu, Hu by lia; lia).
    assert (Hr' : g_frame_refs s (first + j) = 1) by (rewrite Er; replace (_ && _) with false by lia; done).
    destruct (free_frame_last s (first + j) Hf Hu' Hr') as (Hu2 & Hr2 & _). split; [|split; [|split]].
    + apply inv_free_frame; [done|]. unfold PAGE_SHIFT. rewrite Z.shiftl_mul_pow2 by lia. lia.
    + rewrite <- El. unfold pmm_free_frame, frame_set_free. split_ifs; done.
    + intros g Hg. rewrite Hu2, Eu by done. destruct (frame_is_used st g); lia.
    + intros g. rewrite Hr2, Er. split_ifs; lia || done.
Qed.

(** ** The invariant *)
Fixpoint tiles (lo : Z) (A : list block) (hi : Z) : Prop :=
  match A with
  | [] => lo = hi
  | b :: A' => b_addr b = lo /\ b_addr b mod 16 = 0 /\ 0 <= b_size b /\ b_pmm b = false /\
               tiles (b_addr b + 48 + b_size b) A' hi
  end.

(** No two neighbours of the arena are both free. *)
Fixpoint coalesced (A : list block) : Prop :=
  match A with
  | x :: (y :: _) as A' => (b_free x && b_free y = false) /\ coalesced A'
  | _ => True
  end.

Definition has_frame (b : block) (g : Z) : Prop := b_addr b / PAGE_SIZE <= g < b_addr b / PAGE_SIZE + b_pages b.

Record page_block (p : pmm) (b : block) : Prop := {
  pb_kind : b_pmm b = true /\ b_free b = false;
  pb_addr : b_addr b mod PAGE_SIZE = 0 /\ 1 <= b_addr b / PAGE_SIZE;
  pb_pages : 1 <= b_pages b /\ b_addr b / PAGE_SIZE + b_pages b <= g_frame_limit p;
  pb_size : b_size b = b_pages b * PAGE_SIZE - 48;
  pb_frames : forall g, has_frame b g -> frame_is_used p g = true /\ g_frame_refs p g = 1
}.

Definition apart (x y : block) : Prop := forall g, has_frame x g -> ~ has_frame y g.

Fixpoint all_apart (P : list block) : Prop :=
  match P with
  | [] => True
  | x :: P' => (forall y, y ∈ P' -> apart x y) /\ all_apart P'
  end.

(** Frames the arena touches. *)
Definition arena_frame (lo hi g : Z) : Prop := lo / PAGE_SIZE <= g /\ g * PAGE_SIZE < hi.

(** The list is page-backed blocks followed by the arena's blocks. *)
Record heap_inv (lo hi : Z) (P A : list block) (h : heap) : Prop := {
  hv_blocks : g_blocks h = P ++ A;
  hv_ready : g_heap_ready h = true;
  hv_pmm : pmm_inv (h_pmm h);
  hv_pages : forall b, b ∈ P -> page_block (h_pmm h) b;
  hv_apart : all_apart P;
  hv_tiles : tiles lo A hi;
  hv_coal : coalesced A;
  hv_range : 0 < lo /\ hi < 2 ^ 63;
  hv_arena : forall g, arena_frame lo hi g -> frame_is_used (h_pmm h) g = true /\
               forall b, b ∈ P -> ~ has_frame b g
}.

Section Lists.
Implicit Types (A P : list block) (b x y : block).

Lemma tiles_app lo A1 A2 hi : tiles lo (A1 ++ A2) hi <-> exists mid, tiles lo A1 mid /\ tiles mid A2 hi.
Proof.
  revert lo. induction A1 as [|b A1 IH]; intros lo; cbn [app tiles].
  - split; [intros; by exists lo|]. by intros (mid & -> & ?).
  - rewrite IH. split.
    + intros (? & ? & ? & ? & mid & ? & ?). exists mid. tauto.
    + intros (mid & (? & ? & ? & ? & ?) & ?). split_and!; try done. by exists mid.
Qed.

Lemma tiles_le lo A hi : tiles lo A hi -> lo <= hi.
Proof.
  revert lo. induction A as [|b A IH]; intros lo; cbn [tiles]; [lia|].
  intros (<- & _ & Hs & _ & Ht). apply IH in Ht. lia.
Qed.

(** Blocks of a tiling lie inside it, in order. *)
Lemma tiles_block lo A1 b A2 hi :
  tiles lo (A1 ++ b :: A2) hi ->
  lo <= b_addr b /\ b_addr b + 48 + b_size b <= hi /\ 0 <= b_size b /\ b_addr b mod 16 = 0 /\ b_pmm b = false.
Proof.
  intros Ht. apply tiles_app in Ht as (mid & Ht1 & Ht2). apply tiles_le in Ht1. cbn in Ht2.
  destruct Ht2 as (<- & Ha & Hs & Hp & Ht). apply tiles_le in Ht. lia.
Qed.

Lemma tiles_before lo A1 b A2 hi x :
  tiles lo (A1 ++ b :: A2) hi -> x ∈ A1 -> b_addr x + 48 + b_size x <= b_addr b.
Proof.
  intros Ht Hx. apply tiles_app in Ht as (mid & Ht1 & Ht2). cbn in Ht2. destruct Ht2 as (<- & _).
  apply list_elem_of_split in Hx as (B1 & B2 & ->). apply tiles_block in Ht1 as (_ & Hle & _). exact Hle.
Qed.

Lemma tiles_after lo A1 b A2 hi x :
  tiles lo (A1 ++ b :: A2) hi -> x ∈ A2 -> b_addr b + 48 + b_size b <= b_addr x.
Proof.
  intros Ht Hx. apply list_elem_of_split in Hx as (B1 & B2 & ->).
  replace (A1 ++ b :: B1 ++ x :: B2) with ((A1 ++ b :: B1) ++ x :: B2) in Ht by (by rewrite <- app_assoc).
  eapply tiles_before; [exact Ht|]. apply elem_of_app. right. left.
Qed.

Definition head_ok (x : block) (A : list block) : Prop :=
  match A with [] => True | y :: _ => b_free x && b_free y = false end.

Lemma coalesced_cons x A : coalesced (x :: A) <-> head_ok x A /\ coalesced A.
Proof. destruct A; cbn; tauto. Qed.

Lemma head_ok_app x A1 b A2 : head_ok x (A1 ++ b :: A2) <-> head_ok x (A1 ++ [b]).
Proof. by destruct A1. Qed.

Lemma coalesced_app A1 b A2 : coalesced (A1 ++ b :: A2) <-> coalesced (A1 ++ [b]) /\ coalesced (b :: A2).
Proof.
  induction A1 as [|x A1 IH]; cbn [app]; [cbn; tauto|].
  rewrite (coalesced_cons x (A1 ++ b :: A2)), (coalesced_cons x (A1 ++ [b])), IH, head_ok_app. tauto.
Qed.

(** A block may change in place unless it becomes free. *)
Lemma coalesced_swap A1 b b' A2 :
  (b_free b' = true -> b_free b = true) -> coalesced (A1 ++ b :: A2) -> coalesced (A1 ++ b' :: A2).
Proof.
  intros Hf. induction A1 as [|x A1 IH]; cbn [app]; rewrite !coalesced_cons; intros [Hh Hc]; split; try (by auto).
  - destruct A2 as [|y A2]; [done|]. cbn in *. destruct (b_free b'); [|done]. by rewrite (Hf eq_refl) in Hh.
  - destruct A1 as [|y A1]; [|done]. cbn in *. destruct (b_free x), (b_free b'); try done. by rewrite (Hf eq_refl) in Hh.
Qed.

Lemma apart_sym x y : apart x y -> apart y x.
Proof. intros Ha g Hy Hx. by apply (Ha g). Qed.

Lemma all_apart_mid P1 x P2 :
  all_apart (P1 ++ x :: P2) -> all_apart (P1 ++ P2) /\ forall y, y ∈ P1 ++ P2 -> apart x y.
Proof.
  induction P1 as [|z P1 IH]; cbn [app all_apart]; [intros [? ?]; done|].
  intros [Hz Ha]. destruct (IH Ha) as [Hb Hx]. split.
  - split; [|done]. intros y Hy. apply Hz. rewrite elem_of_app, elem_of_cons. apply elem_of_app in Hy. tauto.
  - intros y Hy. apply elem_of_cons in Hy as [->|Hy]; [|by apply Hx]. apply apart_sym, Hz.
    apply elem_of_app. right. left.
Qed.
End Lists.

(** ** Allocation *)

(** The payloads that are handed out. *)
Definition lives (l : list block) : list (Z * Z) :=
  (fun b => (b_addr b + header_size, b_size b)) <$> filter (fun b => b_free b = false) l.

Lemma lives_app l k : lives (l ++ k) = lives l ++ lives k.
Proof. unfold lives. by rewrite filter_app, fmap_app. Qed.
Lemma lives_cons_free b l : b_free b = true -> lives (b :: l) = lives l.
Proof. intros Hb. unfold lives. rewrite filter_cons_False; [done|]. congruence. Qed.
Lemma lives_cons_used b l : b_free b = false -> lives (b :: l) = (b_addr b + header_size, b_size b) :: lives l.
Proof. intros Hb. unfold lives. by rewrite filter_cons_True. Qed.

Lemma alter_mid {X} (f : X -> X) (l k : list X) x : alter f (length l) (l ++ x :: k) = l ++ f x :: k.
Proof. rewrite (alter_insert _ _ _ x) by (by apply list_lookup_middle). by rewrite insert_app_r_alt, Nat.sub_diag by lia. Qed.

Lemma total_mid (l k : list block) x : (l ++ x :: k) !!! length l = x.
Proof. by rewrite list_lookup_total_alt, list_lookup_middle. Qed.

Lemma delete_second {X} (l k : list X) x y : delete (S (length l)) (l ++ x :: y :: k) = l ++ x :: k.
Proof. induction l as [|z l IH]; cbn; [done|]. f_equal. exact IH. Qed.

Section Ops.
Variables (lo hi : Z) (P A : list block) (h : heap).
Hypothesis Hi : heap_inv lo hi P A h.

(** Only arena blocks are ever free. *)
Lemma fits_arena sz i :
  find_from (fits h sz) 0 (length (g_blocks h)) = Some i ->
  exists A1 b A2, A = A1 ++ b :: A2 /\ i = length (P ++ A1) /\ b_free b = true /\ sz <= b_size b.
Proof.
  intros E. apply find_from_Some in E as (Hlt & Hf & _). unfold fits in Hf. rewrite (hv_blocks _ _ _ _ _ Hi) in *.
  destruct (lookup_lt_is_Some_2 (P ++ A) i) as [b Hb]; [lia|].
  rewrite list_lookup_total_alt, Hb in Hf. cbn in Hf. apply andb_true_iff in Hf as [Hf Hs].
  apply lookup_app_Some in Hb as [Hb|[Hge Hb]].
  - destruct (pb_kind _ _ (hv_pages _ _ _ _ _ Hi b (list_elem_of_lookup_2 _ _ _ Hb))). congruence.
  - exists (take (i - length P) A), b, (drop (S (i - length P)) A). pose proof (lookup_lt_Some _ _ _ Hb).
    split; [by rewrite take_drop_middle|]. split; [rewrite length_app, length_take; lia|]. split; [done|lia].
Qed.

(** Replacing one arena block by blocks that tile the same bytes. *)
Lemma inv_arena A1 b A2 N :
  A = A1 ++ b :: A2 -> tiles (b_addr b) N (b_addr b + 48 + b_size b) -> coalesced (A1 ++ N ++ A2) ->
  heap_inv lo hi P (A1 ++ N ++ A2) (set_blocks ((P ++ A1) ++ N ++ A2) h).
Proof.
  intros -> Ht Hc. destruct Hi as [H1 H2 H3 H4 H5 H6 H7 H8 H9]. constructor; cbn; try done.
  - by rewrite <- app_assoc.
  - apply tiles_app in H6 as (mid & Ha & Hb). cbn in Hb. destruct Hb as (Hb1 & _ & _ & _ & Hb2). subst mid.
    apply tiles_app. exists (b_addr b). split; [done|]. apply tiles_app. by exists (b_addr b + 48 + b_size b).
Qed.

Lemma kmalloc_reuse sz i :
  0 <= sz < 2 ^ 63 -> sz mod 16 = 0 -> find_from (fits h sz) 0 (length (g_blocks h)) = Some i ->
  let h1 := split_arena_block i sz h in
  let h2 := set_blocks (alter (set_free false) i (g_blocks h1)) h1 in
  exists X Y b' Y', g_blocks h = X ++ Y /\ i = length X /\ h2 = set_blocks (X ++ b' :: Y') h /\
    b_free b' = false /\ sz <= b_size b' /\ b_addr b' mod 16 = 0 /\ 0 < b_addr b' /\ lives Y' = lives Y /\
    exists A', heap_inv lo hi P A' h2.
Proof.
  intros Hsz Hmod E. destruct (fits_arena sz i E) as (A1 & b & A2 & HA & -> & Hbf & Hbs).
  assert (Hbl : g_blocks h = (P ++ A1) ++ b :: A2) by (rewrite (hv_blocks _ _ _ _ _ Hi), HA; by rewrite app_assoc).
  assert (Hb := hv_tiles _ _ _ _ _ Hi). rewrite HA in Hb. apply tiles_block in Hb as (Hb1 & Hb2 & Hb3 & Hb4 & Hb5).
  pose proof (hv_range _ _ _ _ _ Hi) as [Hlo Hhi].
  assert (Hcoal := hv_coal _ _ _ _ _ Hi). rewrite HA in Hcoal.
  unfold split_arena_block. rewrite Hbl, total_mid, Hb5, header_size_eq. cbn [orb].
  rewrite u64_small by (unfold is_u64, KHEAP_ALIGN; lia).
  destruct (Z.ltb_spec (b_size b) (sz + 48 + KHEAP_ALIGN)) as [Hlt|Hge]; cbv zeta.
  - rewrite Hbl, alter_mid. exists (P ++ A1), (b :: A2), (set_free false b), A2.
    split; [done|]. split; [done|]. split; [done|]. split; [done|]. split; [done|]. split; [done|]. split; [cbn; lia|].
    split; [by rewrite lives_cons_free|]. exists (A1 ++ [set_free false b] ++ A2).
    apply (inv_arena A1 b A2 [set_free false b] HA); [cbn; tauto|]. by eapply coalesced_swap; [|exact Hcoal].
  - rewrite take_app_length. replace (drop (S (length (P ++ A1))) ((P ++ A1) ++ b :: A2)) with A2
      by (rewrite drop_app_ge by lia; by replace (S (length (P ++ A1)) - length (P ++ A1))%nat with 1%nat by lia).
    cbn [set_blocks g_blocks]. rewrite alter_mid.
    set (b' := set_free false (set_size sz b)). set (rem := Block (b_addr b + 48 + sz) (b_size b - sz - 48) 0 true false).
    exists (P ++ A1), (b :: A2), b', (rem :: A2).
    split; [done|]. split; [done|]. split; [done|]. split; [done|]. split; [done|]. split; [done|]. split; [cbn; lia|].
    split; [by rewrite !lives_cons_free|]. exists (A1 ++ [b'; rem] ++ A2).
    apply (inv_arena A1 b A2 [b'; rem] HA).
    + cbn. unfold KHEAP_ALIGN in Hge. split_and!; try done; lia || dlia.
    + apply coalesced_app. split; [eapply coalesced_swap with (b := b); [done|]; by apply coalesced_app in Hcoal as [? _]|].
      cbn [app]. rewrite !coalesced_cons. apply coalesced_app in Hcoal as [_ Hc]. rewrite coalesced_cons in Hc.
      destruct Hc as [Hh Hc]. split; [done|]. split; [|done]. destruct A2; [done|]. cbn in *. by rewrite Hbf in Hh.
Qed.

Lemma kmalloc_pages_spec sz h' a :
  0 <= sz < 2 ^ 63 -> kmalloc_pages sz h = (h', a) ->
  (a = 0 /\ g_blocks h' = g_blocks h /\ heap_inv lo hi P A h') \/
  (exists b, g_blocks h' = b :: g_blocks h /\ a = b_addr b + header_size /\ 0 < b_addr b /\ b_addr b mod 16 = 0 /\
     b_free b = false /\ sz <= b_size b /\ heap_inv lo hi (b :: P) A h').
Proof.
  intros Hsz E. unfold kmalloc_pages in E. rewrite header_size_eq in *.
  rewrite (u64_small (48 + sz)), (u64_small (48 + sz + PAGE_SIZE - 1)) in E by (unfold is_u64, PAGE_SIZE; lia).
  set (n := (48 + sz + PAGE_SIZE - 1) / PAGE_SIZE) in *.
  assert (Hn : 1 <= n /\ 48 + sz <= n * PAGE_SIZE) by (unfold n, PAGE_SIZE; dlia).
  destruct Hi as [H1 H2 H3 H4 H5 H6 H7 H8 H9]. unfold pmm_alloc_pages in E.
  destruct (alloc_aligned_cases (h_pmm h) n 1 H3 ltac:(lia) ltac:(lia)) as [[E1 _]|(f & (Hf1 & Hf2 & _ & Hf4) & E1)];
    rewrite E1 in E.
  { change (0 =? 0) with true in E. cbv iota in E. simplify_eq. left. split; [done|]. split; [done|].
    destruct h. by constructor. }
  destruct (take_run (h_pmm h) f n H3 ltac:(lia) Hf1 Hf2 Hf4) as (Hp & Hl & _ & Hu & Hr).
  set (p1 := for_range 0 n _ _) in *.
  assert (Ha : f .<< PAGE_SHIFT = f * PAGE_SIZE) by (unfold PAGE_SHIFT; by rewrite Z.shiftl_mul_pow2 by lia).
  rewrite Ha in E. destruct (Z.eqb_spec (f * PAGE_SIZE) 0); [unfold PAGE_SIZE in *; lia|]. simplify_eq. right.
  set (b := Block (f * PAGE_SIZE) (n * PAGE_SIZE - 48) n false true).
  assert (Hfr : forall g, has_frame b g <-> f <= g < f + n).
  { intros g. unfold has_frame, b. cbn. rewrite Z.div_mul by (unfold PAGE_SIZE; lia). lia. }
  assert (Hold : forall g, frame_is_used (h_pmm h) g = true -> ~ has_frame b g).
  { intros g Hg Hb. apply Hfr in Hb. by rewrite Hf4 in Hg. }
  exists b. split; [done|]. split; [done|]. split; [unfold b, PAGE_SIZE; cbn; lia|].
  split; [unfold b, PAGE_SIZE; cbn; clear; dlia|]. split; [done|]. split; [cbn; lia|].
  constructor; cbn; try done.
  - by rewrite H1.
  - by apply inv_set_search; [|lia].
  - intros x Hx. apply elem_of_cons in Hx as [->|Hx].
    + constructor; cbn; [done| |rewrite Z.div_mul by (unfold PAGE_SIZE; lia)|done|].
      * rewrite Z.div_mul, Z.mod_mul by (unfold PAGE_SIZE; lia). lia.
      * change (g_frame_limit (set_search (f + n) p1)) with (g_frame_limit p1). lia.
      * intros g Hg. apply Hfr in Hg. change (frame_is_used (set_search (f + n) p1) g) with (frame_is_used p1 g).
        change (g_frame_refs (set_search (f + n) p1) g) with (g_frame_refs p1 g). rewrite Hu, Hr by lia.
        by replace ((f <=? g) && (g <? f + n)) with true by lia.
    + destruct (H4 x Hx) as [A1 A2 A3 A4 A5]. constructor; try done.
      * change (g_frame_limit (set_search (f + n) p1)) with (g_frame_limit p1). by rewrite Hl.
      * intros g Hg. destruct (A5 g Hg) as [B1 B2]. pose proof (Hold g B1) as Hnb. rewrite Hfr in Hnb.
        change (frame_is_used (set_search (f + n) p1) g) with (frame_is_used p1 g).
        change (g_frame_refs (set_search (f + n) p1) g) with (g_frame_refs p1 g).
        unfold has_frame in Hg. rewrite Hu, Hr, B1, B2 by lia.
        by replace ((f <=? g) && (g <? f + n)) with false by lia.
  - split; [|done]. intros y Hy g Hb Hg. destruct (pb_frames _ _ (H4 y Hy) g Hg) as [B1 _]. by apply (Hold g).
  - intros g Hg. destruct (H9 g Hg) as [B1 B2].
    assert (0 <= g).
    { destruct Hg as [Hg _]. pose proof (Z.div_pos lo PAGE_SIZE ltac:(lia) ltac:(done)). lia. }
    change (frame_is_used (set_search (f + n) p1) g) with (frame_is_used p1 g).
    split; [rewrite Hu, B1 by done; apply orb_true_r|]. intros x Hx. apply elem_of_cons in Hx as [->|Hx]; [by apply Hold|by apply B2].
Qed.

(** Two blocks of the heap do not overlap. *)
Lemma blocks_disjoint L b R x :
  g_blocks h = L ++ b :: R -> x ∈ L ++ R ->
  b_addr b + 48 + b_size b <= b_addr x \/ b_addr x + 48 + b_size x <= b_addr b.
Proof.
  intros Hb Hx. destruct Hi as [H1 H2 H3 H4 H5 H6 H7 H8 H9]. rewrite H1 in Hb.
  assert (Hpage : forall y, y ∈ P -> b_addr y = b_addr y / PAGE_SIZE * PAGE_SIZE /\
            b_addr y + 48 + b_size y = (b_addr y / PAGE_SIZE + b_pages y) * PAGE_SIZE /\ 1 <= b_pages y).
  { intros y Hy. destruct (H4 y Hy) as [A1 A2 A3 A4 A5]. unfold PAGE_SIZE in *. split; [dlia|]. split; [rewrite A4; dlia|lia]. }
  assert (Hcross : forall y z, y ∈ P -> z ∈ A -> b_addr y + 48 + b_size y <= b_addr z \/ b_addr z + 48 + b_size z <= b_addr y).
  { intros y z Hy Hz. destruct (Hpage y Hy) as (B1 & B2 & B3). apply list_elem_of_split in Hz as (A1 & A2 & ->).
    apply tiles_block in H6 as (C1 & C2 & C3 & _).
    destruct (decide (b_addr y + 48 + b_size y <= b_addr z)) as [|Hn1]; [by left|].
    destruct (decide (b_addr z + 48 + b_size z <= b_addr y)) as [|Hn2]; [by right|]. exfalso.
    set (g := Z.max (b_addr y / PAGE_SIZE) (b_addr z / PAGE_SIZE)).
    destruct (H9 g) as [_ Hno].
    - split; [unfold g; apply Z.max_le_iff; right; apply Z.div_le_mono; [done|lia]|].
      unfold g. pose proof (Z.mul_div_le (b_addr z) PAGE_SIZE ltac:(done)). lia.
    - apply (Hno y Hy). unfold has_frame, g. split; [lia|].
      assert (b_addr z / PAGE_SIZE < b_addr y / PAGE_SIZE + b_pages y); [|lia].
      apply Z.div_lt_upper_bound; [done|]. lia. }
  apply app_eq_inv in Hb as [(L2 & HP & Hr)|(L2 & -> & HA)].
  - destruct L2 as [|b' L2]; cbn in Hr.
    + rewrite <- Hr in *. rewrite app_nil_r in HP. subst L. apply elem_of_app in Hx as [Hx|Hx].
      * destruct (Hcross x b Hx) as [?|?]; [left|by right|by left].
      * left. by eapply (tiles_after lo [] b R).
    + injection Hr as <- ->. rewrite HP in *. apply all_apart_mid in H5 as [_ H5].
      assert (HbP : b ∈ L ++ b :: L2) by (apply elem_of_app; right; left).
      rewrite app_assoc in Hx. apply elem_of_app in Hx as [Hx|Hx]; [|by apply Hcross].
      assert (HxP : x ∈ L ++ b :: L2) by (rewrite elem_of_app, elem_of_cons; apply elem_of_app in Hx; tauto).
      destruct (Hpage b HbP) as (B1 & B2 & B3), (Hpage x HxP) as (C1 & C2 & C3). specialize (H5 x Hx).
      rewrite B2, C2. destruct (decide (b_addr b / PAGE_SIZE + b_pages b <= b_addr x / PAGE_SIZE)) as [Hle|Hgt].
      * left. rewrite C1. unfold PAGE_SIZE in *. lia.
      * right. rewrite B1. destruct (decide (b_addr x / PAGE_SIZE + b_pages x <= b_addr b / PAGE_SIZE)) as [Hle|Hgt2].
        { unfold PAGE_SIZE in *. lia. }
        exfalso. apply (H5 (Z.max (b_addr b / PAGE_SIZE) (b_addr x / PAGE_SIZE))); unfold has_frame; lia.
  - rewrite HA in *. apply elem_of_app in Hx as [Hx|Hx].
    + apply elem_of_app in Hx as [Hx|Hx].
      * destruct (Hcross x b Hx) as [?|?]; [apply elem_of_app; right; left|by right|by left].
      * right. by eapply tiles_before.
    + left. by eapply tiles_after.
Qed.

Lemma block_size_nonneg b : b ∈ g_blocks h -> 0 <= b_size b /\ 0 < b_addr b.
Proof.
  intros Hb. destruct Hi as [H1 H2 H3 H4 H5 H6 H7 H8 H9]. rewrite H1 in Hb. apply elem_of_app in Hb as [Hb|Hb].
  - destruct (H4 b Hb) as [A1 A2 A3 A4 A5]. unfold PAGE_SIZE in *. split; [lia|]. clear - A2. dlia.
  - apply list_elem_of_split in Hb as (A1 & A2 & HA). rewrite HA in H6. apply tiles_block in H6. lia.
Qed.

(** A pointer finds the header in front of it. *)
Lemma block_of_eq L b R :
  g_blocks h = L ++ b :: R -> block_of h (b_addr b + header_size) = Some (length L).
Proof.
  intros Hb. unfold block_of. destruct (find_from _ _ _) as [i|] eqn:E.
  - apply find_from_Some in E as (Hlt & Ha & _). f_equal. destruct (decide (i = length L)) as [|Hne]; [done|]. exfalso.
    destruct (lookup_lt_is_Some_2 (g_blocks h) i) as [x Hx]; [lia|].
    rewrite list_lookup_total_alt, Hx in Ha. cbn in Ha.
    assert (Hin : x ∈ L ++ R).
    { rewrite Hb in Hx. apply lookup_app_Some in Hx as [Hx|[Hge Hx]].
      - apply elem_of_app. left. by eapply list_elem_of_lookup_2.
      - destruct (i - length L)%nat eqn:Ei; [lia|]. apply elem_of_app. right. by eapply list_elem_of_lookup_2. }
    pose proof (blocks_disjoint L b R x Hb Hin). rewrite header_size_eq in Ha.
    destruct (block_size_nonneg b) as [? _]; [rewrite Hb; apply elem_of_app; right; left|].
    destruct (block_size_nonneg x) as [? _]; [by eapply list_elem_of_lookup_2|]. lia.
  - rewrite find_from_None in E. specialize (E (length L)). rewrite Hb, total_mid, length_app in E. cbn in E.
    specialize (E ltac:(lia)). lia.
Qed.

Lemma inv_relist A' :
  tiles lo A' hi -> coalesced A' -> heap_inv lo hi P A' (set_blocks (P ++ A') h).
Proof. intros Ht Hc. destruct Hi. by constructor. Qed.

Lemma kfree_pages L b R :
  g_blocks h = L ++ b :: R -> b ∈ P -> b_free b = false -> b_pmm b = true ->
  exists P', heap_inv lo hi P' A (kfree (b_addr b + header_size) h) /\
    g_blocks (kfree (b_addr b + header_size) h) = L ++ R.
Proof.
  intros Hb HbP Hf Hp. assert (Hfind := block_of_eq L b R Hb).
  destruct (block_size_nonneg b) as [_ Hpos]; [rewrite Hb; apply elem_of_app; right; left|].
  unfold kfree. rewrite header_size_eq in *. destruct (Z.eqb_spec (b_addr b + 48) 0); [lia|].
  rewrite Hfind, Hb, total_mid, Hf, Hp. unfold remove_block, set_pmm, set_blocks. cbn [g_blocks h_pmm g_heap_ready h_ram].
  rewrite Hb, delete_middle.
  pose proof Hi as [H1 H2 H3 H4 H5 H6 H7 H8 H9]. destruct (H4 b HbP) as [A1 A2 A3 A4 A5].
  assert (Ha : b_addr b = b_addr b / PAGE_SIZE * PAGE_SIZE) by (unfold PAGE_SIZE in *; clear - A2; dlia).
  destruct (free_pages_run (h_pmm h) (b_addr b / PAGE_SIZE) (b_pages b) H3 ltac:(lia) ltac:(lia) ltac:(lia) A5) as (Q1 & Q2 & Q3 & Q4).
  rewrite <- Ha in *. set (p' := pmm_free_pages _ _ _) in *.
  assert (HP : exists P2, P = L ++ b :: P2 /\ R = P2 ++ A).
  { rewrite H1 in Hb. apply app_eq_inv in Hb as [(L2 & HP & Hr)|(L2 & -> & HA)].
    - destruct L2 as [|b' L2]; cbn in Hr.
      + exfalso. rewrite <- Hr in H6. cbn in H6. destruct H6 as (_ & _ & _ & H6 & _). congruence.
      + injection Hr as <- ->. by exists L2.
    - exfalso. rewrite HA in H6. apply tiles_block in H6 as (_ & _ & _ & _ & H6). congruence. }
  destruct HP as (P2 & HP & ->). rewrite HP in *. apply all_apart_mid in H5 as [H5 Hap].
  assert (Hsub : forall x, x ∈ L ++ P2 -> x ∈ L ++ b :: P2) by (intros x; rewrite !elem_of_app, elem_of_cons; tauto).
  assert (Hkeep : forall g, 0 <= g -> ~ has_frame b g -> frame_is_used p' g = frame_is_used (h_pmm h) g /\ g_frame_refs p' g = g_frame_refs (h_pmm h) g).
  { intros g Hg Hn. unfold has_frame in Hn. rewrite Q3, Q4 by done.
    by replace ((b_addr b / PAGE_SIZE <=? g) && (g <? b_addr b / PAGE_SIZE + b_pages b)) with false by lia. }
  exists (L ++ P2). split; [|done]. constructor; cbn; try done.
  - by rewrite app_assoc.
  - intros x Hx. destruct (H4 x (Hsub x Hx)) as [B1 B2 B3 B4 B5]. constructor; try done; [by rewrite Q2|].
    intros g Hg. destruct (Hkeep g) as [-> ->]; [unfold has_frame in Hg; lia| |by apply B5].
    intros Hbg. by apply (Hap x Hx g).
  - intros g Hg. destruct (H9 g Hg) as [B1 B2]. assert (0 <= g).
    { destruct Hg as [Hg _]. pose proof (Z.div_pos lo PAGE_SIZE ltac:(lia) ltac:(done)). lia. }
    destruct (Hkeep g) as [-> _]; [done|by apply B2|]. split; [done|]. intros x Hx. by apply B2, Hsub.
Qed.

(** Joining a freed block with the free block behind it. *)
Lemma merge_next_spec X b Y h0 :
  b_free b = true -> tiles (b_addr b) (b :: Y) hi -> coalesced Y ->
  exists b2 Y', merge_next (length X) (set_blocks (X ++ b :: Y) h0) = set_blocks (X ++ b2 :: Y') h0 /\
    b_addr b2 = b_addr b /\ b_free b2 = true /\ tiles (b_addr b) (b2 :: Y') hi /\ coalesced (b2 :: Y') /\ lives Y' = lives Y.
Proof.
  intros Hf Ht Hc. unfold merge_next. cbn [set_blocks g_blocks]. rewrite total_mid.
  assert (Hnx : (X ++ b :: Y) !! S (length X) = head Y).
  { rewrite lookup_app_r by lia. replace (S (length X) - length X)%nat with 1%nat by lia. by destruct Y. }
  rewrite Hnx. destruct Y as [|y Y]; cbn [head].
  { exists b, []. split; [done|]. by split_and!. }
  cbn [tiles] in Ht. destruct Ht as (_ & T1 & T2 & T3 & T4 & T5 & T6 & T7 & T8). rewrite header_size_eq, T7, T4, Z.eqb_refl.
  rewrite coalesced_cons in Hc. destruct Hc as [Hh Hc]. destruct (b_free y) eqn:Ey; cbn [andb negb].
  - rewrite alter_mid. exists (set_size (b_size b + 48 + b_size y) b), Y. split; [|split; [done|split; [done|]]].
    + by rewrite delete_second.
    + split; [cbn; rewrite T4 in T8; split_and!; try done; [lia|];
        by replace (b_addr b + 48 + (b_size b + 48 + b_size y)) with (b_addr b + 48 + b_size b + 48 + b_size y) by lia|].
      split; [|by rewrite lives_cons_free]. rewrite coalesced_cons. split; [|done].
      destruct Y as [|z Y]; [done|]. cbn in *. rewrite Ey in Hh. by rewrite Hf.
  - exists b, (y :: Y). split; [done|]. split; [done|]. split; [done|]. split; [cbn; tauto|]. split; [|done].
    rewrite coalesced_cons. split; [cbn; by rewrite Ey, andb_false_r|]. by rewrite coalesced_cons.
Qed.

(** Joining a free block with the free block in front of it. *)
Lemma merge_previous_spec A1 b Y :
  tiles lo (A1 ++ b :: Y) hi -> b_free b = true -> coalesced A1 -> coalesced (b :: Y) ->
  (forall x, x ∈ P -> b_free x = false) ->
  exists A', merge_previous (length (P ++ A1)) (set_blocks ((P ++ A1) ++ b :: Y) h) = set_blocks (P ++ A') h /\
    tiles lo A' hi /\ coalesced A' /\ lives A' = lives A1 ++ lives Y.
Proof.
  intros Ht Hf Hc1 Hc2 HP.
  assert (Hstop : head_ok b (reverse A1) -> exists A', set_blocks ((P ++ A1) ++ b :: Y) h = set_blocks (P ++ A') h /\
    tiles lo A' hi /\ coalesced A' /\ lives A' = lives A1 ++ lives Y).
  { intros Hh. exists (A1 ++ b :: Y). rewrite app_assoc. split; [done|]. split; [done|].
    split; [|by rewrite lives_app, lives_cons_free]. apply coalesced_app. split; [|done].
    destruct A1 as [|z A1 _] using rev_ind; [done|]. rewrite reverse_snoc in Hh. cbn in Hh.
    rewrite <- app_assoc. cbn. apply coalesced_app. split; [done|]. cbn. rewrite andb_comm. done. }
  destruct A1 as [|z A1 _] using rev_ind.
  - rewrite app_nil_r in *. unfold merge_previous. destruct P as [|x P' _] using rev_ind; [by apply Hstop|].
    rewrite length_app. cbn [length]. rewrite Nat.add_1_r. cbn [set_blocks g_blocks]. rewrite <- app_assoc. cbn [app].
    rewrite total_mid. rewrite (HP x) by (apply elem_of_app; right; left). cbn [andb].
    rewrite cons_middle, app_assoc. by apply Hstop.
  - unfold merge_previous. rewrite app_assoc, length_app. cbn [length]. rewrite Nat.add_1_r. cbn [set_blocks g_blocks].
    rewrite <- app_assoc in *. cbn [app] in *. rewrite total_mid.
    replace ((((P ++ A1) ++ z :: b :: Y)) !!! S (length (P ++ A1))) with b.
    2: { rewrite list_lookup_total_alt, lookup_app_r by lia. by replace (S (length (P ++ A1)) - length (P ++ A1))%nat with 1%nat by lia. }
    apply tiles_app in Ht as (mid & Ht1 & Ht2). cbn in Ht2. destruct Ht2 as (Z1 & Z2 & Z3 & Z4 & Z5 & Z6 & Z7 & Z8 & Z9).
    rewrite header_size_eq, Z4, Z5, Z.eqb_refl. destruct (b_free z) eqn:Ez; cbn [andb negb].
    + rewrite alter_mid. set (z' := set_size (b_size z + 48 + b_size b) z). exists (A1 ++ z' :: Y).
      split; [rewrite delete_second; by rewrite <- app_assoc|]. split; [|split].
      * apply tiles_app. exists mid. split; [done|]. cbn. split_and!; try done; [lia|].
        rewrite Z5 in Z9. by replace (b_addr z + 48 + (b_size z + 48 + b_size b)) with (b_addr z + 48 + b_size z + 48 + b_size b) by lia.
      * apply coalesced_app. split; [by eapply coalesced_swap with (b := z)|]. rewrite coalesced_cons in *.
        split; [|tauto]. destruct Hc2 as [Hh _]. destruct Y; [done|]. cbn in *. rewrite Hf in Hh. by rewrite Ez.
      * rewrite !lives_app, !lives_cons_free by done. by rewrite app_nil_r.
    + destruct Hstop as (A' & E & ?); [rewrite reverse_snoc; cbn; by rewrite Ez, andb_false_r|].
      exists A'. rewrite <- E. by rewrite <- !app_assoc.
Qed.

Lemma kfree_arena A1 b Y :
  A = A1 ++ b :: Y -> b_free b = false ->
  exists A', heap_inv lo hi P A' (kfree (b_addr b + header_size) h) /\
    lives A' = lives A1 ++ lives Y.
Proof.
  intros HA Hf. assert (Hbl : g_blocks h = (P ++ A1) ++ b :: Y) by (rewrite (hv_blocks _ _ _ _ _ Hi), HA; by rewrite app_assoc).
  assert (Hfind := block_of_eq _ _ _ Hbl).
  destruct (block_size_nonneg b) as [_ Hpos]; [rewrite Hbl; apply elem_of_app; right; left|].
  assert (Ht := hv_tiles _ _ _ _ _ Hi). assert (Hc := hv_coal _ _ _ _ _ Hi). rewrite HA in Ht, Hc.
  destruct (tiles_block _ _ _ _ _ Ht) as (_ & _ & _ & _ & Hp).
  unfold kfree. rewrite Hfind. destruct (Z.eqb_spec (b_addr b + header_size) 0); [rewrite header_size_eq in *; lia|].
  rewrite Hbl, total_mid, Hf, Hp, alter_mid. unfold merge_arena_neighbors.
  apply tiles_app in Ht as (mid & Ht1 & Ht2). apply coalesced_app in Hc as [Hc1 Hc2]. rewrite coalesced_cons in Hc2.
  destruct (merge_next_spec (P ++ A1) (set_free true b) Y h) as (b2 & Y' & E & Ea & Ef & Et & Ec & El); [done| |tauto|].
  { cbn in *. tauto. }
  rewrite E. cbn in Ht2. destruct Ht2 as (<- & _).
  destruct (merge_previous_spec A1 b2 Y') as (A' & E' & Et' & Ec' & El'); [|done| |done| |].
  - apply tiles_app. by exists (b_addr b).
  - destruct A1 as [|z A1 _] using rev_ind; [done|]. rewrite <- app_assoc in Hc1. by apply coalesced_app in Hc1 as [? _].
  - intros x Hx. by apply (pb_kind _ _ (hv_pages _ _ _ _ _ Hi x Hx)).
  - rewrite E'. exists A'. split; [by apply inv_relist|]. by rewrite El', El.
Qed.

(** Freeing a block that is handed out. *)
Lemma kfree_spec L b R :
  g_blocks h = L ++ b :: R -> b_free b = false ->
  exists P' A', heap_inv lo hi P' A' (kfree (b_addr b + header_size) h) /\
    lives (g_blocks (kfree (b_addr b + header_size) h)) = lives L ++ lives R.
Proof.
  intros Hb Hf. assert (Hin : b ∈ g_blocks h) by (rewrite Hb; apply elem_of_app; right; left).
  pose proof (hv_blocks _ _ _ _ _ Hi) as H1. rewrite H1 in Hb. pose proof Hb as Hb'.
  apply app_eq_inv in Hb as [(L2 & HP & Hr)|(L2 & -> & HA)].
  - destruct L2 as [|b' L2]; cbn in Hr.
    + rewrite app_nil_r in HP. destruct (kfree_arena [] b R (eq_sym Hr) Hf) as (A' & Hi' & El). exists P, A'. split; [done|].
      rewrite (hv_blocks _ _ _ _ _ Hi'), lives_app, El, HP. done.
    + injection Hr as <- Hr. assert (HbP : b ∈ P) by (rewrite HP; apply elem_of_app; right; left).
      rewrite <- H1 in Hb'. destruct (pb_kind _ _ (hv_pages _ _ _ _ _ Hi b HbP)) as [Hk _].
      destruct (kfree_pages L b R Hb' HbP Hf Hk) as (P' & Hi' & El). exists P', A. split; [done|]. by rewrite El, lives_app.
  - destruct (kfree_arena L2 b R HA Hf) as (A' & Hi' & El). exists P, A'. split; [done|].
    rewrite (hv_blocks _ _ _ _ _ Hi'), !lives_app, El. by rewrite app_assoc.
Qed.

(** Allocation, in both ways. *)
Lemma kmalloc_spec n h' a :
  0 < n < 2 ^ 62 -> kmalloc n h = (h', a) ->
  (a = 0 /\ g_blocks h' = g_blocks h /\ heap_inv lo hi P A h') \/
  (exists L b R, g_blocks h' = L ++ b :: R /\ a = b_addr b + header_size /\ 0 < b_addr b /\ b_addr b mod 16 = 0 /\
     b_free b = false /\ n <= b_size b /\ lives (g_blocks h) = lives L ++ lives R /\
     exists P' A', heap_inv lo hi P' A' h').
Proof.
  intros Hn E. unfold kmalloc in E. destruct (Z.eqb_spec n 0); [lia|]. rewrite (hv_ready _ _ _ _ _ Hi) in E.
  destruct (align_up_spec n ltac:(lia)) as [Hal Hm]. set (sz := align_up n KHEAP_ALIGN) in *.
  assert (Hsz : 0 <= sz < 2 ^ 63) by lia. destruct (find_from _ _ _) as [i|] eqn:Ef.
  - destruct (kmalloc_reuse _ i Hsz Hm Ef) as (X & Y & b & Y' & Hb & -> & Eh & Hf & Hs & Ha & Hpos & El & A' & Hi').
    cbv zeta in Eh, Hi', E. rewrite Eh in E, Hi'. change (g_blocks (set_blocks (X ++ b :: Y') h)) with (X ++ b :: Y') in E.
    rewrite total_mid in E. injection E as <- <-.
    right. exists X, b, Y'. split; [done|]. split; [done|]. split; [done|]. split; [done|]. split; [done|]. split; [lia|].
    split; [rewrite Hb, lives_app, El; done|]. by exists P, A'.
  - destruct (kmalloc_pages_spec _ _ _ Hsz E) as [?|(b & Hb & -> & Hpos & Ha & Hf & Hs & Hi')]; [by left|right].
    exists [], b, (g_blocks h). split; [done|]. split; [done|]. split; [done|]. split; [done|]. split; [done|]. split; [lia|].
    split; [done|]. by exists (b :: P), A.
Qed.
End Ops.

(** ** Reachable heaps *)
Definition heap_ok (h : heap) : Prop := exists lo hi P A, heap_inv lo hi P A h.

Inductive heap_step (h : heap) : heap -> Prop :=
| step_kmalloc n : 0 <= n < 2 ^ 62 -> heap_step h (kmalloc n h).1
| step_kzalloc n : 0 <= n < 2 ^ 62 -> heap_step h (kzalloc n h).1
| step_kfree a : heap_step h (kfree a h)
| step_krealloc a n : 0 <= n < 2 ^ 62 -> heap_step h (krealloc a n h).1.

(** The state before [kheap_init] with no arena, or with an arena in memory
    that is in use. *)
Definition arena_ok (start size : Z) (h : heap) : Prop :=
  pmm_inv (h_pmm h) /\ 0 <= start /\ 0 <= size /\ start + size < 2 ^ 63 /\
  (start <> 0 -> forall g, arena_frame start (start + size) g -> frame_is_used (h_pmm h) g = true).

Section Reach.
Implicit Types (h : heap).

Lemma block_at h i : (i < length (g_blocks h))%nat ->
  g_blocks h = take i (g_blocks h) ++ (g_blocks h !!! i) :: drop (S i) (g_blocks h).
Proof.
  intros Hi. destruct (lookup_lt_is_Some_2 (g_blocks h) i Hi) as [b Hb].
  rewrite list_lookup_total_alt, Hb. cbn. by rewrite take_drop_middle.
Qed.

Lemma block_of_Some h a i : block_of h a = Some i ->
  (i < length (g_blocks h))%nat /\ a = b_addr (g_blocks h !!! i) + header_size.
Proof. unfold block_of. intros E. apply find_from_Some in E as (Hlt & Ha & _). lia. Qed.

Lemma heap_inv_ram lo hi P A h m : heap_inv lo hi P A h -> heap_inv lo hi P A (set_h_ram m h).
Proof. intros []. by constructor. Qed.

Lemma kfree_ok h a : heap_ok h -> heap_ok (kfree a h).
Proof.
  intros (lo & hi & P & A & Hi). destruct (a =? 0) eqn:E0; [unfold kfree; rewrite E0; by exists lo, hi, P, A|].
  destruct (block_of h a) as [i|] eqn:Eb; [|unfold kfree; rewrite E0, Eb; by exists lo, hi, P, A].
  destruct (block_of_Some _ _ _ Eb) as [Hlt Ha]. destruct (b_free (g_blocks h !!! i)) eqn:Ef.
  - unfold kfree. rewrite E0, Eb, Ef. by exists lo, hi, P, A.
  - rewrite Ha. destruct (kfree_spec _ _ _ _ _ Hi _ _ _ (block_at h i Hlt) Ef) as (P' & A' & Hi' & _). by exists lo, hi, P', A'.
Qed.

Lemma kmalloc_ok h n : 0 <= n < 2 ^ 62 -> heap_ok h -> heap_ok (kmalloc n h).1.
Proof.
  intros Hn (lo & hi & P & A & Hi). destruct (decide (n = 0)) as [->|]; [by exists lo, hi, P, A|].
  destruct (kmalloc n h) as [h' a] eqn:E.
  destruct (kmalloc_spec _ _ _ _ _ Hi n h' a ltac:(lia) E) as [(_ & _ & Hi')|(L & b & R & _ & _ & _ & _ & _ & _ & _ & P' & A' & Hi')].
  - by exists lo, hi, P, A.
  - by exists lo, hi, P', A'.
Qed.

Lemma heap_ok_ram h m : heap_ok h -> heap_ok (set_h_ram m h).
Proof. intros (lo & hi & P & A & Hi). exists lo, hi, P, A. by apply heap_inv_ram. Qed.

Lemma heap_step_ok h h' : heap_ok h -> heap_step h h' -> heap_ok h'.
Proof.
  intros Hok [n Hn|n Hn|a|a n Hn].
  - by apply kmalloc_ok.
  - pose proof (kmalloc_ok h n Hn Hok) as H'. unfold kzalloc. destruct (kmalloc n h) as [h1 a]. cbn in *.
    destruct (a =? 0); [done|]. by apply heap_ok_ram.
  - by apply kfree_ok.
  - unfold krealloc. destruct (a =? 0); [by apply kmalloc_ok|]. destruct (n =? 0); [by apply kfree_ok|].
    destruct (block_of h a); [|done]. destruct (n <=? _); [done|].
    pose proof (kmalloc_ok h n Hn Hok) as H'. destruct (kmalloc n h) as [h1 r]. cbn in *. destruct (r =? 0); [done|].
    by apply kfree_ok, heap_ok_ram.
Qed.

Lemma kheap_init_ok start size h : arena_ok start size h -> heap_ok (kheap_init start size h).
Proof.
  intros (Hp & Hs & Hz & Hend & Hused). unfold kheap_init. rewrite header_size_eq.
  set (h0 := Heap [] true (h_pmm h) (h_ram h)).
  assert (Hempty : heap_ok h0).
  { exists PAGE_SIZE, PAGE_SIZE, [], []. constructor; cbn; try done.
    - intros b Hb. by apply elem_of_nil in Hb.
    - intros g [H1 H2]. exfalso. change (PAGE_SIZE / PAGE_SIZE) with 1 in H1. unfold PAGE_SIZE in *. lia. }
  destruct ((start =? 0) || _) eqn:E1; [done|]. unfold KHEAP_ALIGN in *.
  rewrite (u64_small (start + 16 - 1)) by (unfold is_u64; lia). change (16 - 1) with (2 ^ 4 - 1).
  rewrite land_lnot_mask by lia. change (2 ^ 4) with 16. set (base := start + 16 - 1 - (start + 16 - 1) mod 16).
  assert (Hbase : start <= base < start + 16 /\ base mod 16 = 0) by (unfold base; clear; dlia).
  rewrite (u64_small (base - start)) by (unfold is_u64; lia).
  destruct (_ || (size - _ <=? 48)) eqn:E2; [done|].
  set (b := Block base _ 0 true false). exists base, (start + size), [], [b]. constructor; cbn; try done.
  - intros x Hx. by apply elem_of_nil in Hx.
  - split_and!; try done; lia.
  - lia.
  - intros g [H1 H2]. split; [|intros x Hx; by apply elem_of_nil in Hx].
    apply Hused; [lia|]. split; [|done]. pose proof (Z.div_le_mono start base PAGE_SIZE ltac:(done) ltac:(lia)). lia.
Qed.

Lemma heap_reach_ok start size h0 h :
  arena_ok start size h0 -> rtc heap_step (kheap_init start size h0) h -> heap_ok h.
Proof.
  intros Ha Hr. eapply (rtc_preserve heap_ok heap_step); [apply heap_step_ok|by apply kheap_init_ok|exact Hr].
Qed.

Lemma kmalloc_ram n h : h_ram (kmalloc n h).1 = h_ram h.
Proof.
  unfold kmalloc, kmalloc_pages. destruct (n =? 0); [done|].
  assert (Hr : forall x, h_ram (if g_heap_ready h then h else kheap_init 0 0 h) = x -> h_ram h = x)
    by (intros x <-; by destruct (g_heap_ready h)).
  destruct (find_from _ _ _) as [i|].
  - cbn. unfold split_arena_block. apply eq_sym, Hr. by destruct (_ || _).
  - destruct (pmm_alloc_pages _ _) as [p a]. apply eq_sym, Hr. by destruct (a =? 0).
Qed.

Lemma kfree_ram a h : h_ram (kfree a h) = h_ram h.
Proof.
  unfold kfree, merge_arena_neighbors. destruct (a =? 0); [done|]. destruct (block_of h a) as [i|]; [|done].
  destruct (b_free _); [done|]. destruct (b_pmm _); [done|].
  assert (Hn : forall j k, h_ram (merge_next j k) = h_ram k).
  { intros j k. unfold merge_next. destruct (_ !! _); [|done]. by destruct (_ && _). }
  assert (Hp : forall j k, h_ram (merge_previous j k) = h_ram k).
  { intros [|j] k; [done|]. unfold merge_previous. by destruct (_ && _). }
  by rewrite Hp, Hn.
Qed.

Lemma lives_elem l q m : (q, m) ∈ lives l <-> exists b, b ∈ l /\ b_free b = false /\ q = b_addr b + header_size /\ m = b_size b.
Proof.
  unfold lives. rewrite list_elem_of_fmap. split.
  - intros (b & [= -> ->] & Hb). apply list_elem_of_filter in Hb as [Hf Hb]. by exists b.
  - intros (b & Hb & Hf & -> & ->). exists b. split; [done|]. by apply list_elem_of_filter.
Qed.

Lemma krealloc_bytes h a sz n h' r :
  heap_ok h -> (a, sz) ∈ lives (g_blocks h) -> 0 < n -> krealloc a n h = (h', r) -> r <> 0 ->
  forall k, 0 <= k < sz -> h_ram h' (r + k) = h_ram h (a + k).
Proof.
  intros (lo & hi & P & A & Hi) Hl Hn E Hr k Hk. apply lives_elem in Hl as (b & Hb & Hf & -> & ->).
  destruct (block_size_nonneg _ _ _ _ _ Hi b Hb) as [_ Hpos].
  pose proof Hb as Hb2. apply list_elem_of_split in Hb2 as (L & R & HLR).
  pose proof (block_of_eq _ _ _ _ _ Hi L b R HLR) as Hfind.
  unfold krealloc in E. rewrite Hfind in E. destruct (Z.eqb_spec (b_addr b + header_size) 0); [rewrite header_size_eq in *; lia|].
  destruct (Z.eqb_spec n 0); [lia|]. rewrite HLR, total_mid in E. destruct (n <=? b_size b); [by simplify_eq|].
  pose proof (kmalloc_ram n h) as Hram. destruct (kmalloc n h) as [h1 r1]. cbn in Hram.
  destruct (r1 =? 0) eqn:E0; [simplify_eq; lia|]. simplify_eq. rewrite kfree_ram. cbn.
  replace ((r <=? r + k) && (r + k <? r + b_size b)) with true by lia. rewrite Hram. f_equal. lia.
Qed.
End Reach.

(** ** Theorem *)

(** C37: in every reachable heap, a successful [kmalloc] returns a 16-byte
    aligned payload of at least the requested size that is disjoint from
    every payload handed out before; exactly this payload is added, and
    freeing it gives back exactly the payloads that were there before, with
    all splitting, merging and page releases in between. A failing [kmalloc]
    hands out nothing. [krealloc] keeps the bytes of the old payload. *)
Theorem kheap_correct (start size : Z) (h0 h : heap) (n : Z) :
  arena_ok start size h0 -> rtc heap_step (kheap_init start size h0) h -> 0 < n < 2 ^ 62 ->
  let '(h', a) := kmalloc n h in
  (a = 0 -> lives (g_blocks h') = lives (g_blocks h)) /\
  (a <> 0 -> a mod 16 = 0 /\ exists sz, n <= sz /\
     (forall q m, (q, m) ∈ lives (g_blocks h') <-> (q, m) = (a, sz) \/ (q, m) ∈ lives (g_blocks h)) /\
     (forall q m, (q, m) ∈ lives (g_blocks h) -> q + m <= a \/ a + sz <= q) /\
     lives (g_blocks (kfree a h')) = lives (g_blocks h)) /\
  (forall p sz h2 r, (p, sz) ∈ lives (g_blocks h) -> krealloc p n h = (h2, r) -> r <> 0 ->
     forall k, 0 <= k < sz -> h_ram h2 (r + k) = h_ram h (p + k)).
Proof.
  intros Ha Hr Hn. pose proof (heap_reach_ok _ _ _ _ Ha Hr) as Hok. destruct (kmalloc n h) as [h' a] eqn:E.
  assert (Hre : forall p sz h2 r, (p, sz) ∈ lives (g_blocks h) -> krealloc p n h = (h2, r) -> r <> 0 ->
     forall k, 0 <= k < sz -> h_ram h2 (r + k) = h_ram h (p + k)).
  { intros p sz h2 r Hp E2 Hr0. eapply krealloc_bytes; eauto. lia. }
  destruct Hok as (lo & hi & P & A & Hi).
  destruct (kmalloc_spec _ _ _ _ _ Hi n h' a Hn E) as [(-> & Hb & _)|(L & b & R & Hb & -> & Hpos & Hal & Hf & Hs & Hl & P' & A' & Hi')].
  { split; [by rewrite Hb|]. split; [done|done]. }
  split; [rewrite header_size_eq; lia|]. split; [|done]. intros _. rewrite header_size_eq in *. split; [clear - Hal; dlia|].
  exists (b_size b). split; [done|].
  assert (Hmem : forall q m, (q, m) ∈ lives (g_blocks h') <-> (q, m) = (b_addr b + 48, b_size b) \/ (q, m) ∈ lives (g_blocks h)).
  { intros q m. rewrite Hb, Hl, lives_app, lives_cons_used, !elem_of_app, elem_of_cons, header_size_eq by done. tauto. }
  split; [done|]. split.
  - intros q m Hq. rewrite Hl, <- lives_app in Hq. apply lives_elem in Hq as (x & Hx & _ & -> & ->). rewrite header_size_eq.
    pose proof (blocks_disjoint _ _ _ _ _ Hi' L b R x Hb Hx). lia.
  - destruct (kfree_spec _ _ _ _ _ Hi' L b R Hb Hf) as (_ & _ & _ & Hk). rewrite header_size_eq in Hk. by rewrite Hk, Hl.
Qed.

Definition demo_heap : heap :=
  Heap [] false (pmm_init [MemRegion 0 0x40000 1] 0x10000 0x12345) (fun _ => 0).

Lemma kheap_correct_witness :
  let h := kheap_init 0x10000 1000 demo_heap in
  let '(h', a) := kmalloc 100 h in
  a <> 0 /\ lives (g_blocks (kfree a h')) = lives (g_blocks h).
Proof.
  assert (Ha : arena_ok 0x10000 1000 demo_heap).
  { split; [apply pmm_init_inv; [repeat constructor; simpl; lia|lia]|]. split; [lia|]. split; [lia|]. split; [lia|].
    intros _ g [H1 H2]. change (0x10000 / PAGE_SIZE) with 16 in H1. assert (g = 16) as -> by (unfold PAGE_SIZE in H2; lia).
    vm_compute. reflexivity. }
  pose proof (kheap_correct 0x10000 1000 demo_heap (kheap_init 0x10000 1000 demo_heap) 100 Ha (rtc_refl _ _) ltac:(lia)) as Hc.
  assert (Hn : (kmalloc 100 (kheap_init 0x10000 1000 demo_heap)).2 <> 0) by (vm_compute; discriminate).
  cbv zeta. destruct (kmalloc 100 (kheap_init 0x10000 1000 demo_heap)) as [h' a]. cbn [snd] in Hn.
  destruct Hc as (_ & Hc & _). split; [exact Hn|]. destruct (Hc Hn) as (_ & sz & _ & _ & _ & Hk). exact Hk.
Defined.
