(* ===== verification/Slab.v ===== *)
(** * src/mm/slab.c: caches of fixed-size objects

    A cache is a list of slabs (the chain [cache->slabs], [next]), each one
    heap block with a header and [capacity] objects. The free objects of a
    slab are linked through their first word; the model keeps the chain as
    the list of addresses; the bytes of objects (zeroed when handed out) are
    not part of the state. The heap is used through the class [KernelHeap],
    whose laws Kheap.v discharges.

    slab_alloc gives up g_slab_lock while it makes a new slab, and
    slab_page_create links the slab into cache->slabs without the lock. The
    call is therefore also modelled as a machine: [alloc_step] runs one
    processor from one point where others may act to the next, [slab_step]
    interleaves the processors, and slab_alloc is the run of one processor
    that nobody interrupts ([slab_alloc_alone]). *)
From S2P Require Import Prelude Pmm Kheap.
Open Scope tach_scope.

(** ** The heap as slab.c sees it *)
Class KernelHeap (H : Type) := {
  kh_malloc : Z -> H -> H * Z;
  kh_zalloc : Z -> H -> H * Z;
  kh_free : Z -> H -> H;
  kh_ok : H -> Prop;
  kh_live : H -> list (Z * Z);
  kh_zalloc_live n h : kh_live (kh_zalloc n h).1 = kh_live (kh_malloc n h).1 /\ (kh_zalloc n h).2 = (kh_malloc n h).2;
  kh_zalloc_ok n h : kh_ok (kh_malloc n h).1 -> kh_ok (kh_zalloc n h).1;
  kh_malloc_law n h h' a :
    kh_ok h -> 0 < n < 2 ^ 62 -> kh_malloc n h = (h', a) ->
    kh_ok h' /\ (a = 0 -> kh_live h' = kh_live h) /\
    (a <> 0 -> 0 < a /\ a mod 16 = 0 /\ exists sz, n <= sz /\ a + sz < 2 ^ 63 /\
       (forall x, x ∈ kh_live h' <-> x = (a, sz) \/ x ∈ kh_live h) /\
       (forall q m, (q, m) ∈ kh_live h -> q + m <= a \/ a + sz <= q));
  kh_free_law a sz h :
    kh_ok h -> (a, sz) ∈ kh_live h ->
    kh_ok (kh_free a h) /\ (forall x, x ∈ kh_live (kh_free a h) <-> x ∈ kh_live h /\ x.1 <> a)
}.

(** ** Definitions *)
Definition SLAB_BYTES : Z := 4096.
Definition POINTER_BYTES : Z := 8.
(** [sizeof(struct slab_page)] and [sizeof(struct slab_cache)]. *)
Definition SLAB_PAGE_BYTES : Z := 40.
Definition SLAB_CACHE_BYTES : Z := 48.

Record slab_page := SlabPage { sp_addr : Z; free_list : list Z; in_use : Z; capacity : Z; bytes : Z }.
Record slab_cache := SlabCache {
  sc_addr : Z;
  object_size : Z;
  objects_per_slab : Z;
  slabs : list slab_page;
  allocation_count : Z
}.

Definition set_slabs l n c := SlabCache (sc_addr c) (object_size c) (objects_per_slab c) l n.

Definition slab_align (value : Z) : Z := u64 (value + POINTER_BYTES - 1) .& Z.lnot (POINTER_BYTES - 1).

(** The loop of [slab_divide]; [n] is [bit + 1]. *)
Fixpoint divide_loop (n : nat) (dividend divisor quotient remainder : Z) : Z * Z :=
  match n with
  | O => (quotient, remainder)
  | S bit =>
      let remainder := u64 (remainder .<< 1) .| ((dividend .>> Z.of_nat bit) .& 1) in
      if divisor <=? remainder
      then divide_loop bit dividend divisor (quotient .| (1 .<< Z.of_nat bit)) (remainder - divisor)
      else divide_loop bit dividend divisor quotient remainder
  end.

Definition slab_divide (dividend divisor : Z) : Z * Z :=
  if divisor =? 0 then (0, 0) else divide_loop 64 dividend divisor 0 0.

Section Slab.
Context {H : Type} `{KernelHeap H}.

Definition slab_cache_create (size : Z) (h : H) : H * option slab_cache :=
  if size =? 0 then (h, None)
  else
    let '(h, a) := kh_zalloc SLAB_CACHE_BYTES h in
    if a =? 0 then (h, None)
    else
      let osize := slab_align (if size <? POINTER_BYTES then POINTER_BYTES else size) in
      let available := SLAB_BYTES - slab_align SLAB_PAGE_BYTES in
      let n := (slab_divide available osize).1 in
      (h, Some (SlabCache a osize (if n =? 0 then 1 else n) [] 0)).

(** [for (i = 0; i < capacity; i++)] pushing each object on the free list. *)
Fixpoint carve (n : nat) (i : Z) (objects osize : Z) (free : list Z) : list Z :=
  match n with
  | O => free
  | S n' => carve n' (i + 1) objects osize (objects + i * osize :: free)
  end.

(** slab_page_create up to the point where the slab is linked in: the block
    of the heap and the free list made in it, known to nobody else. *)
Definition slab_page_new (c : slab_cache) (h : H) : H * option slab_page :=
  let header := slab_align SLAB_PAGE_BYTES in
  let n := u64 (header + objects_per_slab c * object_size c) in
  let '(h, a) := kh_malloc n h in
  if a =? 0 then (h, None)
  else
    let cap := objects_per_slab c in
    (h, Some (SlabPage a (carve (Z.to_nat cap) 0 (a + header) (object_size c) []) 0 cap n)).

Definition add_slab (page : slab_page) (c : slab_cache) : slab_cache := set_slabs (page :: slabs c) (allocation_count c) c.

Definition slab_page_create (c : slab_cache) (h : H) : H * option (slab_cache * slab_page) :=
  let '(h, r) := slab_page_new c h in
  match r with
  | None => (h, None)
  | Some page => (h, Some (add_slab page c, page))
  end.

(** The slab at an address. *)
Definition at_addr (a : Z) (c : slab_cache) : option nat :=
  find_from (fun i => bool_decide (sp_addr <$> slabs c !! i = Some a)) 0 (length (slabs c)).

Definition has_free (c : slab_cache) (a : Z) : bool :=
  match at_addr a c with
  | Some i => match slabs c !! i with Some p => negb (bool_decide (free_list p = [])) | None => false end
  | None => false
  end.

(** [while (page && !page->free_list) page = page->next] along the chain. *)
Definition slab_find (chain : list Z) (c : slab_cache) : option Z := head (filter (fun a => has_free c a = true) chain).

(** The first free object of the slab at index [i]; [None] is the dereference
    of the NULL an empty free list holds. *)
Definition take_object (i : nat) (c : slab_cache) : option (slab_cache * Z) :=
  match slabs c !! i with
  | Some (SlabPage a (object :: rest) used cap n) =>
      Some (set_slabs (<[i := SlabPage a rest (used + 1) cap n]> (slabs c)) (allocation_count c + 1) c, object)
  | _ => None
  end.

Definition take_at (a : Z) (c : slab_cache) : option (slab_cache * Z) := i ← at_addr a c; take_object i c.

(** A call that no other call interrupts. *)
Definition slab_alloc (c : slab_cache) (h : H) : option (slab_cache * H * Z) :=
  match slab_find (sp_addr <$> slabs c) c with
  | Some a => '(c, object) ← take_at a c; Some (c, h, object)
  | None =>
      let '(h, r) := slab_page_create c h in
      match r with
      | None => Some (c, h, 0)
      | Some (c, page) => '(c, object) ← take_at (sp_addr page) c; Some (c, h, object)
      end
  end.

(** The test of [slab_free]: [object] is one of the objects of the slab. *)
Definition owns_object (c : slab_cache) (object : Z) (p : slab_page) : bool :=
  let first := sp_addr p + slab_align SLAB_PAGE_BYTES in
  let end_ := first + capacity p * object_size c in
  let inside := (first <=? object) && (object <? end_) in
  let remainder := if inside then (slab_divide (object - first) (object_size c)).2 else 0 in
  inside && (remainder =? 0).

Definition slab_free (c : slab_cache) (object : Z) : slab_cache :=
  if object =? 0 then c
  else
    match find_from (fun i => match slabs c !! i with Some p => owns_object c object p | None => false end)
                    0 (length (slabs c)) with
    | None => c
    | Some i =>
        set_slabs (alter (fun p => SlabPage (sp_addr p) (object :: free_list p)
                                     (if in_use p =? 0 then 0 else in_use p - 1) (capacity p) (bytes p)) i (slabs c))
                  (if allocation_count c =? 0 then 0 else allocation_count c - 1) c
    end.

Definition slab_cache_destroy (c : slab_cache) (h : H) : H :=
  if negb (allocation_count c =? 0) then h
  else kh_free (sc_addr c) (fold_left (fun h p => kh_free (sp_addr p) h) (slabs c) h).

(** *** Calls that overlap *)

(** Where a processor is in slab_alloc: outside, or about to make a slab, to
    read cache->slabs into the next pointer of its slab, to write cache->slabs,
    to take an object of its slab under the lock; or it has returned an
    object, or has dereferenced NULL. *)
Inductive alloc_pc :=
| PcStart | PcCreate | PcLink (page : Z) | PcPush (page : Z) (next : list Z) | PcTake (page : Z) | PcDone (object : Z) | PcFault.

(** [sy_cache] holds every slab made for the cache; [sy_chain] is the chain
    from cache->slabs, by address. *)
Record slab_sys := Sys { sy_cache : slab_cache; sy_chain : list Z; sy_heap : H; sy_calls : list alloc_pc }.

Definition taken (r : option (slab_cache * Z)) (c : slab_cache) : slab_cache * alloc_pc :=
  match r with Some (c', object) => (c', PcDone object) | None => (c, PcFault) end.

(** One processor up to the next point where others may act. *)
Definition pc_step (pc : alloc_pc) (c : slab_cache) (chain : list Z) (h : H) : slab_cache * list Z * H * alloc_pc :=
  match pc with
  | PcStart =>
      match slab_find chain c with
      | Some a => let '(c, pc) := taken (take_at a c) c in (c, chain, h, pc)
      | None => (c, chain, h, PcCreate)
      end
  | PcCreate =>
      let '(h, r) := slab_page_new c h in
      match r with
      | None => (c, chain, h, PcDone 0)
      | Some page => (add_slab page c, chain, h, PcLink (sp_addr page))
      end
  | PcLink page => (c, chain, h, PcPush page chain)
  | PcPush page next => (c, page :: next, h, PcTake page)
  | PcTake page => let '(c, pc) := taken (take_at page c) c in (c, chain, h, pc)
  | PcDone _ | PcFault => (c, chain, h, pc)
  end.

Definition alloc_step (i : nat) (s : slab_sys) : slab_sys :=
  match sy_calls s !! i with
  | Some pc =>
      let '(c, chain, h, pc) := pc_step pc (sy_cache s) (sy_chain s) (sy_heap s) in
      Sys c chain h (<[i := pc]> (sy_calls s))
  | None => s
  end.

(** slab_free walks the chain; an object of a slab that is not on it is not
    found. *)
Definition slab_free_step (object : Z) (s : slab_sys) : slab_sys :=
  let c := sy_cache s in
  let found := existsb (fun a => match at_addr a c with
                                 | Some i => match slabs c !! i with Some p => owns_object c object p | None => false end
                                 | None => false
                                 end) (sy_chain s) in
  Sys (if found then slab_free c object else c) (sy_chain s) (sy_heap s) (sy_calls s).

(** Processors, one of which may be outside slab_alloc ([PcStart]) and enters
    it by its next step; [n] of them. *)
Definition slab_start (c : slab_cache) (h : H) (n : nat) : slab_sys := Sys c (sp_addr <$> slabs c) h (replicate n PcStart).
End Slab.
Arguments slab_sys : clear implicits.

(** ** Division *)
Lemma divide_loop_spec n x d : forall q r,
  0 < d <= 2 ^ 63 -> 0 <= x < 2 ^ 64 -> 0 <= r < d -> 0 <= q -> q mod 2 ^ Z.of_nat n = 0 ->
  x / 2 ^ Z.of_nat n = (q / 2 ^ Z.of_nat n) * d + r ->
  let '(q', r') := divide_loop n x d q r in x = q' * d + r' /\ 0 <= r' < d.
Proof.
  induction n as [|n IH]; intros q r Hd Hx Hr Hq Hm Heq; cbn [divide_loop].
  - change (2 ^ Z.of_nat 0) with 1 in *. rewrite !Z.div_1_r in Heq. done.
  - set (k := Z.of_nat n) in *. replace (Z.of_nat (S n)) with (k + 1) in * by lia.
    assert (Hk : 0 < 2 ^ k) by (apply Z.pow_pos_nonneg; lia).
    rewrite Z.pow_add_r in * by lia. change (2 ^ 1) with 2 in *.
    set (b := x / 2 ^ k mod 2). assert (Hb : 0 <= b < 2) by (apply Z.mod_pos_bound; lia).
    assert (Hstep : u64 (r .<< 1) .| ((x .>> k) .& 1) = 2 * r + b).
    { rewrite Z.shiftl_mul_pow2, Z.shiftr_div_pow2, u64_small by (unfold is_u64; lia).
      pose proof (land_low_mask (x / 2 ^ k) 1 ltac:(lia)) as Hlm. change (2 ^ 1 - 1) with 1 in Hlm.
      rewrite Hlm. change (2 ^ 1) with 2. fold b.
      rewrite <- Z.add_nocarry_lor; [lia|]. apply Z.bits_inj'. intros m Hm'. rewrite Z.land_spec, Z.bits_0.
      destruct (decide (m = 0)) as [->|].
      - by rewrite Z.mul_comm, Z.testbit_even_0.
      - rewrite (Z.bits_above_log2 b m); [apply andb_false_r|lia|].
        assert (b = 0 \/ b = 1) as [->| ->] by lia; cbn; lia. }
    rewrite Hstep.
    assert (Hxk : x / 2 ^ k = 2 * (x / (2 ^ k * 2)) + b).
    { rewrite <- Z.div_div by lia. unfold b. pose proof (Z.div_mod (x / 2 ^ k) 2). lia. }
    assert (Hqk : q / 2 ^ k = 2 * (q / (2 ^ k * 2)) /\ q mod 2 ^ k = 0).
    { pose proof (Z.div_mod q (2 ^ k * 2) ltac:(lia)) as Hdm. rewrite Hm in Hdm.
      replace q with (2 * (q / (2 ^ k * 2)) * 2 ^ k) at 1 3 by lia. rewrite Z.div_mul, Z.mod_mul by lia. done. }
    destruct Hqk as [Hqk Hqm].
    destruct (Z.leb_spec d (2 * r + b)).
    + assert (Hlor : q .| (1 .<< k) = q + 2 ^ k).
      { rewrite Z.shiftl_1_l. rewrite <- Z.add_nocarry_lor; [done|]. apply Z.bits_inj'. intros m Hm'.
        rewrite Z.land_spec, Z.bits_0. destruct (decide (m = k)) as [->|].
        - replace (Z.testbit q k) with false; [done|]. symmetry. apply Z.testbit_false; [lia|]. rewrite Hqk.
          rewrite Z.mul_comm. apply Z.mod_mul. lia.
        - rewrite Z.pow2_bits_false by done. apply andb_false_r. }
      rewrite Hlor. apply IH; try lia.
      * rewrite <- Z.add_mod_idemp_l, Hqm by lia. apply Z.mod_same. lia.
      * replace (q + 2 ^ k) with (q + 1 * 2 ^ k) by lia. rewrite Z.div_add by lia. rewrite Hxk, Heq, Hqk. lia.
    + apply IH; lia.
Qed.

(** The self-contained division is division. *)
Lemma slab_divide_spec x d : 0 < d <= 2 ^ 63 -> 0 <= x < 2 ^ 64 -> slab_divide x d = (x / d, x mod d).
Proof.
  intros Hd Hx. unfold slab_divide. destruct (Z.eqb_spec d 0); [lia|].
  assert (Hx64 : x / 2 ^ Z.of_nat 64 = 0) by (apply Z.div_small; lia).
  pose proof (divide_loop_spec 64 x d 0 0 Hd Hx ltac:(lia) ltac:(lia) eq_refl) as Hs. rewrite Hx64 in Hs. specialize (Hs eq_refl).
  destruct (divide_loop 64 x d 0 0) as [q r]. destruct Hs as [Hs Hr].
  f_equal; [apply (Z.div_unique x d q r)|apply (Z.mod_unique x d q r)]; lia.
Qed.

(** ** Kheap.v implements the interface *)
Section HeapInstance.
Implicit Types (h : heap).

Lemma block_end lo hi P A h b : heap_inv lo hi P A h -> b ∈ g_blocks h -> b_addr b + 48 + b_size b < 2 ^ 63.
Proof.
  intros Hi Hb. pose proof Hi as [H1 H2 H3 H4 H5 H6 H7 H8 H9]. rewrite H1 in Hb. apply elem_of_app in Hb as [Hb|Hb].
  - destruct (H4 b Hb) as [A1 A2 A3 A4 A5]. pose proof (inv_limit _ H3) as Hl. change PMM_MAX_FRAMES with 1048576 in Hl.
    assert (b_addr b = b_addr b / PAGE_SIZE * PAGE_SIZE) by (unfold PAGE_SIZE in *; clear - A2; dlia).
    unfold PAGE_SIZE in *. lia.
  - apply list_elem_of_split in Hb as (B1 & B2 & HA). rewrite HA in H6. apply tiles_block in H6. lia.
Qed.

Lemma heap_malloc_law n h h' a :
  heap_ok h -> 0 < n < 2 ^ 62 -> kmalloc n h = (h', a) ->
  heap_ok h' /\ (a = 0 -> lives (g_blocks h') = lives (g_blocks h)) /\
  (a <> 0 -> 0 < a /\ a mod 16 = 0 /\ exists sz, n <= sz /\ a + sz < 2 ^ 63 /\
     (forall x, x ∈ lives (g_blocks h') <-> x = (a, sz) \/ x ∈ lives (g_blocks h)) /\
     (forall q m, (q, m) ∈ lives (g_blocks h) -> q + m <= a \/ a + sz <= q)).
Proof.
  intros (lo & hi & P & A & Hi) Hn E.
  destruct (kmalloc_spec _ _ _ _ _ Hi n h' a Hn E) as [(-> & Hb & Hi')|(L & b & R & Hb & -> & Hpos & Hal & Hf & Hs & Hl & P' & A' & Hi')].
  { split; [by exists lo, hi, P, A|]. split; [by rewrite Hb|done]. }
  split; [by exists lo, hi, P', A'|]. rewrite header_size_eq. split; [lia|]. intros _.
  split; [lia|]. split; [clear - Hal; dlia|]. exists (b_size b). split; [done|].
  assert (HbI : b ∈ g_blocks h') by (rewrite Hb; apply elem_of_app; right; left).
  split; [pose proof (block_end _ _ _ _ _ _ Hi' HbI); lia|]. split.
  - intros x. rewrite Hb, Hl, lives_app, lives_cons_used, !elem_of_app, elem_of_cons, header_size_eq by done. tauto.
  - intros q m Hq. rewrite Hl, <- lives_app in Hq. apply lives_elem in Hq as (x & Hx & _ & -> & ->). rewrite header_size_eq.
    pose proof (blocks_disjoint _ _ _ _ _ Hi' L b R x Hb Hx). lia.
Qed.

Lemma heap_free_law a sz h :
  heap_ok h -> (a, sz) ∈ lives (g_blocks h) ->
  heap_ok (kfree a h) /\ (forall x, x ∈ lives (g_blocks (kfree a h)) <-> x ∈ lives (g_blocks h) /\ x.1 <> a).
Proof.
  intros Hok Ha. split; [by apply kfree_ok|]. destruct Hok as (lo & hi & P & A & Hi).
  apply lives_elem in Ha as (b & Hb & Hf & -> & ->). apply list_elem_of_split in Hb as (L & R & HLR).
  destruct (kfree_spec _ _ _ _ _ Hi L b R HLR Hf) as (P' & A' & _ & El). intros [q m].
  rewrite El, <- lives_app, HLR, (lives_app L (b :: R)), lives_cons_used, elem_of_app, elem_of_cons by done. cbn [fst].
  assert (Hother : (q, m) ∈ lives (L ++ R) -> q <> b_addr b + header_size).
  { intros Hq ->. apply lives_elem in Hq as (x & Hx & _ & Hxa & _).
    pose proof (blocks_disjoint _ _ _ _ _ Hi L b R x HLR Hx).
    destruct (block_size_nonneg _ _ _ _ _ Hi b) as [? _]; [rewrite HLR; apply elem_of_app; right; left|].
    destruct (block_size_nonneg _ _ _ _ _ Hi x) as [? _]; [rewrite HLR; rewrite elem_of_app, elem_of_cons in *; tauto|]. lia. }
  rewrite lives_app, elem_of_app in *. split; [tauto|]. intros [[?|[[= -> ->]|?]] Hne]; [tauto|done|tauto].
Qed.
Lemma heap_zalloc_live n h :
  lives (g_blocks (kzalloc n h).1) = lives (g_blocks (kmalloc n h).1) /\ (kzalloc n h).2 = (kmalloc n h).2.
Proof. unfold kzalloc. destruct (kmalloc n h) as [h1 a]. by destruct (a =? 0). Qed.

Lemma heap_zalloc_ok n h : heap_ok (kmalloc n h).1 -> heap_ok (kzalloc n h).1.
Proof.
  intros Hok. unfold kzalloc. destruct (kmalloc n h) as [h1 a]. cbn in *. destruct (a =? 0); [done|]. by apply heap_ok_ram.
Qed.
End HeapInstance.

#[export] Instance kheap_interface : KernelHeap heap := {
  kh_malloc := kmalloc;
  kh_zalloc := kzalloc;
  kh_free := kfree;
  kh_ok := heap_ok;
  kh_live h := lives (g_blocks h);
  kh_zalloc_live := heap_zalloc_live;
  kh_zalloc_ok := heap_zalloc_ok;
  kh_malloc_law := heap_malloc_law;
  kh_free_law := heap_free_law
}.

(** ** The invariant *)
Definition HEADER : Z := 40.

Lemma slab_align_spec v : 0 <= v < 2 ^ 62 -> v <= slab_align v < v + 8 /\ slab_align v mod 8 = 0.
Proof.
  intros Hv. unfold slab_align, POINTER_BYTES. rewrite u64_small by (unfold is_u64; lia).
  change (8 - 1) with (2 ^ 3 - 1). rewrite land_lnot_mask by lia. change (2 ^ 3) with 8. dlia.
Qed.

Lemma header_eq : slab_align SLAB_PAGE_BYTES = HEADER.
Proof. reflexivity. Qed.

(** [o] is the address of an object of the slab. *)
Definition object_of (c : slab_cache) (p : slab_page) (o : Z) : Prop :=
  exists i, 0 <= i < capacity p /\ o = sp_addr p + HEADER + i * object_size c.

(** The objects that are handed out. *)
Definition outstanding (c : slab_cache) (o : Z) : Prop :=
  exists p, p ∈ slabs c /\ object_of c p o /\ (o ∉ free_list p).

Definition extent (c : slab_cache) : Z := HEADER + objects_per_slab c * object_size c.

Section SlabInv.
Context {H : Type} `{KernelHeap H}.
Implicit Types (c : slab_cache) (p : slab_page) (h : H).

Record page_ok c h p : Prop := {
  po_addr : 0 < sp_addr p /\ sp_addr p mod 16 = 0 /\ sp_addr p + extent c < 2 ^ 63;
  po_cap : capacity p = objects_per_slab c;
  po_free : forall o, o ∈ free_list p -> object_of c p o;
  po_nodup : NoDup (free_list p);
  po_use : in_use p = capacity p - Z.of_nat (length (free_list p));
  po_live : exists sz, (sp_addr p, sz) ∈ kh_live h /\ extent c <= sz
}.

Record slab_inv c h : Prop := {
  si_heap : kh_ok h;
  si_size : 8 <= object_size c < 2 ^ 40 /\ object_size c mod 8 = 0;
  si_count : 1 <= objects_per_slab c <= 4096;
  si_pages : forall p, p ∈ slabs c -> page_ok c h p;
  si_apart : forall i j p q, slabs c !! i = Some p -> slabs c !! j = Some q -> i <> j ->
    sp_addr p + extent c <= sp_addr q \/ sp_addr q + extent c <= sp_addr p;
  si_total : allocation_count c = zsum in_use (slabs c)
}.

Lemma carve_spec n objects osize : forall i free,
  0 <= i -> 0 < osize ->
  (forall o, o ∈ free -> exists k, 0 <= k < i /\ o = objects + k * osize) -> NoDup free ->
  (forall o, o ∈ carve n i objects osize free -> exists k, 0 <= k < i + Z.of_nat n /\ o = objects + k * osize) /\
  NoDup (carve n i objects osize free) /\ length (carve n i objects osize free) = (length free + n)%nat /\
  (forall o, o ∈ free -> o ∈ carve n i objects osize free) /\
  (forall k, i <= k < i + Z.of_nat n -> objects + k * osize ∈ carve n i objects osize free).
Proof.
  induction n as [|n IH]; intros i free Hi Ho Hf Hnd; cbn [carve].
  - split; [|split; [done|split; [lia|split; [done|intros; lia]]]].
    intros o Hin. destruct (Hf o Hin) as (k & Hk & ->). exists k. split; [lia|done].
  - destruct (IH (i + 1) (objects + i * osize :: free)) as (A & B & C & D & E); [lia|done| | |].
    + intros o Hin. apply elem_of_cons in Hin as [->|Hin]; [exists i; split; [lia|done]|].
      destruct (Hf o Hin) as (k & Hk & ->). exists k. split; [lia|done].
    + apply NoDup_cons. split; [|done]. intros Hin. destruct (Hf _ Hin) as (k & Hk & E). nia.
    + split; [|split; [done|split; [cbn in C; lia|split]]].
      * intros o Hin. destruct (A o Hin) as (k & Hk & ->). exists k. split; [lia|done].
      * intros o Hin. apply D. by right.
      * intros k Hk. destruct (decide (k = i)) as [->|]; [apply D; left|apply E; lia].
Qed.

(** Objects of a cache do not overlap. *)
Lemma objects_apart c h i j p q o o' :
  slab_inv c h -> slabs c !! i = Some p -> slabs c !! j = Some q -> object_of c p o -> object_of c q o' ->
  (i = j /\ o = o') \/ o + object_size c <= o' \/ o' + object_size c <= o.
Proof.
  intros Hi Hp Hq (k & Hk & ->) (k' & Hk' & ->). pose proof (si_size _ _ Hi) as [Hs _].
  rewrite (po_cap _ _ _ (si_pages _ _ Hi p (list_elem_of_lookup_2 _ _ _ Hp))) in Hk.
  rewrite (po_cap _ _ _ (si_pages _ _ Hi q (list_elem_of_lookup_2 _ _ _ Hq))) in Hk'.
  destruct (decide (i = j)) as [<-|Hne].
  - rewrite Hp in Hq. injection Hq as <-. destruct (Z.lt_trichotomy k k') as [|[->|]]; [right; left; nia|by left|right; right; nia].
  - right. assert (Hb : forall x, 0 <= x < objects_per_slab c -> 0 <= x * object_size c /\
      (x + 1) * object_size c <= objects_per_slab c * object_size c).
    { intros x Hx. split; [lia|]. apply Z.mul_le_mono_nonneg_r; lia. }
    destruct (Hb k Hk), (Hb k' Hk'). destruct (si_apart _ _ Hi i j p q Hp Hq Hne); unfold extent, HEADER in *; [left|right]; lia.
Qed.

(** The test of [slab_free] finds exactly the slab of the object. *)
Lemma owns_object_spec c h p o :
  slab_inv c h -> p ∈ slabs c -> owns_object c o p = true <-> object_of c p o.
Proof.
  intros Hi Hp. pose proof (si_size _ _ Hi) as [Hs _]. destruct (si_pages _ _ Hi p Hp) as [(A1 & _ & A3) A2 _ _ _ _].
  pose proof (si_count _ _ Hi). unfold owns_object, object_of. rewrite header_eq, A2. set (first := sp_addr p + HEADER).
  unfold extent in A3. split.
  - destruct (_ && (o <? _)) eqn:E; [|done]. rewrite andb_true_l. apply andb_true_iff in E as [E1 E2].
    rewrite slab_divide_spec by (unfold first, HEADER in *; lia). cbn [snd]. intros Hm.
    exists ((o - first) / object_size c). pose proof (Z.div_mod (o - first) (object_size c) ltac:(lia)) as Hd.
    split; [|nia]. split; [apply Z.div_pos; lia|]. apply Z.div_lt_upper_bound; lia.
  - intros (i & Hr & ->). assert (0 <= i * object_size c) by lia.
    assert ((i + 1) * object_size c <= objects_per_slab c * object_size c) by (apply Z.mul_le_mono_nonneg_r; lia).
    replace ((first <=? first + i * object_size c) && _) with true by lia.
    rewrite slab_divide_spec by (unfold first, HEADER in *; lia). cbn [snd].
    replace (first + i * object_size c - first) with (i * object_size c) by lia. by rewrite Z.mod_mul by lia.
Qed.

(** Changing the free list of one slab. *)
Lemma slab_update c h i p fl use :
  slab_inv c h -> slabs c !! i = Some p -> (forall o, o ∈ fl -> object_of c p o) -> NoDup fl ->
  use = capacity p - Z.of_nat (length fl) ->
  let c' := set_slabs (<[i := SlabPage (sp_addr p) fl use (capacity p) (bytes p)]> (slabs c))
                      (allocation_count c - in_use p + use) c in
  slab_inv c' h /\
  (forall o, outstanding c' o <-> (object_of c p o /\ (o ∉ fl)) \/ (outstanding c o /\ ~ object_of c p o)).
Proof.
  intros Hi Hp Hfl Hnd Hu c'. pose proof Hi as [H1 H2 H3 H4 H5 H6]. pose proof (list_elem_of_lookup_2 _ _ _ Hp) as Hin.
  pose proof (lookup_lt_Some _ _ _ Hp) as Hlt. pose proof (lookup_insert_cases (slabs c) i) as Hlk.
  set (p' := SlabPage (sp_addr p) fl use (capacity p) (bytes p)) in *. split.
  - constructor; try done.
    + intros q Hq. apply list_elem_of_lookup in Hq as [j Hj]. apply Hlk in Hj as [[-> ->]|[_ Hj]].
      * destruct (H4 p Hin) as [A1 A2 A3 A4 A5 A6]. by constructor.
      * destruct (H4 q (list_elem_of_lookup_2 _ _ _ Hj)) as [A1 A2 A3 A4 A5 A6]. by constructor.
    + intros j k q r Hq Hr Hne. change (extent c') with (extent c). apply Hlk in Hq as [[-> ->]|[Hji Hq]], Hr as [[-> ->]|[Hki Hr]].
      * done.
      * by apply (H5 i k p r).
      * by apply (H5 j i q p).
      * by apply (H5 j k q r).
    + cbn. rewrite (zsum_insert _ _ _ p) by done. cbn. lia.
  - intros o. split.
    + intros (q & Hq & Ho & Hf). apply list_elem_of_lookup in Hq as [j Hj]. apply Hlk in Hj as [[-> ->]|[Hji Hj]]; [by left|right].
      split; [exists q; split; [by eapply list_elem_of_lookup_2|done]|]. intros Hop.
      destruct (objects_apart c h j i q p o o Hi Hj Hp Ho Hop) as [[? _]|?]; [done|lia].
    + intros [[Ho Hf]|[(q & Hq & Ho & Hf) Hno]].
      * exists p'. split; [|done]. apply list_elem_of_lookup. exists i. by apply list_lookup_insert_eq.
      * exists q. split; [|done]. apply list_elem_of_lookup in Hq as [j Hj]. apply list_elem_of_lookup. exists j.
        change (slabs c') with (<[i := p']> (slabs c)). rewrite list_lookup_insert_ne; [done|]. intros <-. rewrite Hp in Hj. by injection Hj as <-.
Qed.

Lemma take_object_spec c h i p o rest :
  slab_inv c h -> slabs c !! i = Some p -> free_list p = o :: rest ->
  exists c', take_object i c = Some (c', o) /\ slab_inv c' h /\ object_size c' = object_size c /\ object_of c p o /\
    ~ outstanding c o /\ (forall x, outstanding c' x <-> x = o \/ outstanding c x).
Proof.
  intros Hi Hp Hfl. pose proof (list_elem_of_lookup_2 _ _ _ Hp) as Hin.
  destruct (si_pages _ _ Hi p Hin) as [A1 A2 A3 A4 A5 A6]. rewrite Hfl in A3, A4, A5.
  apply NoDup_cons in A4 as [Hno Hnd]. assert (Ho : object_of c p o) by (apply A3; left).
  assert (Hnout : ~ outstanding c o).
  { intros (q & Hq & Hoq & Hf). apply list_elem_of_lookup in Hq as [j Hj].
    destruct (objects_apart c h j i q p o o Hi Hj Hp Hoq Ho) as [[-> _]|?]; [|pose proof (si_size _ _ Hi); lia].
    rewrite Hp in Hj. injection Hj as <-. apply Hf. rewrite Hfl. left. }
  destruct (slab_update c h i p rest (in_use p + 1) Hi Hp) as [Hi' Hout]; [intros x Hx; apply A3; by right|done|cbn in A5; lia|].
  eexists. split; [|split; [exact Hi'|split; [done|split; [done|split; [done|]]]]].
  - unfold take_object. rewrite Hp. destruct p as [a fl u cap n]. cbn in Hfl. subst fl. cbn [in_use sp_addr capacity bytes].
    by replace (allocation_count c - u + (u + 1)) with (allocation_count c + 1) by lia.
  - intros x. rewrite Hout. split.
    + intros [[Hx Hr]|[Hx _]]; [|by right]. destruct (decide (x = o)) as [->|]; [by left|right].
      exists p. split; [done|]. split; [done|]. rewrite Hfl, elem_of_cons. tauto.
    + intros [->|Hx]; [by left|]. destruct Hx as (q & Hq & Hxq & Hf). apply list_elem_of_lookup in Hq as [j Hj].
      destruct (decide (j = i)) as [->|Hji].
      * rewrite Hp in Hj. injection Hj as <-. left. split; [done|]. rewrite Hfl, elem_of_cons in Hf. tauto.
      * right. split; [exists q; split; [by eapply list_elem_of_lookup_2|done]|]. intros Hxp.
        destruct (objects_apart c h j i q p x x Hi Hj Hp Hxq Hxp) as [[? _]|?]; [done|]. pose proof (si_size _ _ Hi). lia.
Qed.

Lemma slab_page_new_spec c h h' r :
  slab_inv c h -> slab_page_new c h = (h', r) ->
  match r with
  | None => slab_inv c h'
  | Some p => slab_inv (add_slab p c) h' /\ free_list p <> [] /\ (forall x, outstanding (add_slab p c) x <-> outstanding c x)
  end.
Proof.
  intros Hi E. pose proof Hi as [H1 H2 H3 H4 H5 H6]. unfold slab_page_new in E. rewrite header_eq in E.
  assert (Hext : 0 < extent c < 2 ^ 62) by (unfold extent, HEADER; nia).
  rewrite u64_small in E by (unfold is_u64, extent in *; lia). fold (extent c) in E.
  destruct (kh_malloc (extent c) h) as [h1 a] eqn:Em. destruct (kh_malloc_law _ _ _ _ H1 Hext Em) as (Hok & Hz & Hnz).
  destruct (Z.eqb_spec a 0) as [->|Hne]; simplify_eq.
  { specialize (Hz eq_refl). constructor; try done. intros p Hp. destruct (H4 p Hp). constructor; try done. by rewrite Hz. }
  destruct (Hnz Hne) as (Hpos & Hal & sz & Hsz & Hend & Hmem & Hdis).
  destruct (carve_spec (Z.to_nat (objects_per_slab c)) (a + HEADER) (object_size c) 0 []) as (B1 & B2 & B3 & _ & B5);
    [lia|lia|intros o Ho; by apply elem_of_nil in Ho|constructor|]. cbn in B3.
  set (fl := carve _ _ _ _ _) in *. set (p := SlabPage a fl 0 (objects_per_slab c) (extent c)).
  assert (Hobj : forall o, o ∈ fl -> object_of c p o).
  { intros o Ho. destruct (B1 o Ho) as (k & Hk & ->). exists k. cbn. split; [lia|done]. }
  change (add_slab _ c) with (add_slab p c). set (c' := add_slab p c).
  assert (Hi' : slab_inv c' h').
  { constructor; try done.
    - intros q Hq. apply elem_of_cons in Hq as [->|Hq].
      + constructor; try done; [change (extent c') with (extent c); cbn; lia|cbn; rewrite B3; lia|].
        exists sz. split; [apply Hmem; by left|done].
      + destruct (H4 q Hq) as [A1 A2 A3 A4 A5 (m & A6 & A7)]. constructor; try done. exists m. split; [|done]. apply Hmem. by right.
    - intros [|i] [|j] q r Hq Hr Hij; cbn in Hq, Hr; simplify_eq; change (extent c') with (extent c).
      + destruct (H4 r (list_elem_of_lookup_2 _ _ _ Hr)) as [_ _ _ _ _ (m & A6 & A7)]. destruct (Hdis _ _ A6); cbn; lia.
      + destruct (H4 q (list_elem_of_lookup_2 _ _ _ Hq)) as [_ _ _ _ _ (m & A6 & A7)]. destruct (Hdis _ _ A6); cbn; lia.
      + apply (H5 i j q r); [done|done|lia]. }
  split; [done|]. split.
  { intros E. cbn in E. rewrite E in B3. cbn in B3. lia. }
  intros x. split.
  - intros (q & Hq & Hx & Hf). apply elem_of_cons in Hq as [->|Hq]; [|by exists q]. exfalso. apply Hf.
    destruct Hx as (k & Hk & ->). cbn in Hk |- *. apply B5. lia.
  - intros (q & Hq & Hx & Hf). exists q. split; [by right|done].
Qed.

(** A slab has room for [capacity] objects. *)
Lemma objects_bound c p l :
  0 < object_size c -> 0 <= capacity p -> NoDup l -> (forall x, x ∈ l -> object_of c p x) -> Z.of_nat (length l) <= capacity p.
Proof.
  intros Hs Hc Hnd Hl.
  destruct (carve_spec (Z.to_nat (capacity p)) (sp_addr p + HEADER) (object_size c) 0 []) as (_ & _ & B3 & _ & B5);
    [lia|lia|intros x Hx; by apply elem_of_nil in Hx|constructor|].
  assert (Hsub : l ⊆+ carve (Z.to_nat (capacity p)) 0 (sp_addr p + HEADER) (object_size c) []).
  { apply NoDup_submseteq; [done|]. intros x Hx. destruct (Hl x Hx) as (j & Hj & ->). apply B5. lia. }
  apply submseteq_length in Hsub. rewrite B3 in Hsub. cbn in Hsub. lia.
Qed.

(** Giving back an object that is handed out. *)
Lemma slab_free_spec c h o :
  slab_inv c h -> outstanding c o ->
  slab_inv (slab_free c o) h /\ (forall x, outstanding (slab_free c o) x <-> outstanding c x /\ x <> o).
Proof.
  intros Hi (p & Hin & Ho & Hf). pose proof (si_size _ _ Hi) as [Hs _]. unfold slab_free.
  destruct (si_pages _ _ Hi p Hin) as [(A1 & _ & _) A2 A3 A4 A5 A6].
  destruct (Z.eqb_spec o 0) as [->|]; [exfalso; destruct Ho as (k & Hk & E); unfold HEADER in E; nia|].
  pose proof Hin as Hin'. apply list_elem_of_lookup in Hin' as [i Hp].
  assert (Hfind : find_from (fun i => match slabs c !! i with Some p => owns_object c o p | None => false end) 0 (length (slabs c)) = Some i).
  { destruct (find_from _ _ _) as [j|] eqn:E.
    - apply find_from_Some in E as (_ & Hj & _). destruct (slabs c !! j) as [q|] eqn:Hq; [|done].
      apply (owns_object_spec c h q o Hi (list_elem_of_lookup_2 _ _ _ Hq)) in Hj.
      destruct (objects_apart c h i j p q o o Hi Hp Hq Ho Hj) as [[-> _]|?]; [done|lia].
    - rewrite find_from_None in E. specialize (E i). pose proof (lookup_lt_Some _ _ _ Hp). specialize (E ltac:(lia)).
      rewrite Hp in E. apply (owns_object_spec c h p o Hi Hin) in Ho. congruence. }
  rewrite Hfind, (alter_insert _ _ _ _ Hp).
  assert (Hlen : Z.of_nat (length (o :: free_list p)) <= capacity p).
  { apply (objects_bound c p); [lia|destruct Ho as (k & Hk & _); lia|by apply NoDup_cons|]. intros x Hx. apply elem_of_cons in Hx as [->|Hx]; auto. }
  cbn [length] in Hlen. assert (Htot : in_use p <= allocation_count c).
  { rewrite (si_total _ _ Hi). apply (zsum_ge_in in_use _ i); [|done]. intros q Hq.
    destruct (si_pages _ _ Hi q Hq) as [B1 B2 B3 B4 B5 B6]. pose proof (si_count _ _ Hi).
    pose proof (objects_bound c q (free_list q) ltac:(lia) ltac:(lia) B4 B3). lia. }
  destruct (Z.eqb_spec (in_use p) 0); [lia|]. destruct (Z.eqb_spec (allocation_count c) 0); [lia|].
  destruct (slab_update c h i p (o :: free_list p) (in_use p - 1) Hi Hp) as [Hi' Hout];
    [intros x Hx; apply elem_of_cons in Hx as [->|Hx]; auto|by apply NoDup_cons|cbn [length]; lia|].
  replace (allocation_count c - in_use p + (in_use p - 1)) with (allocation_count c - 1) in Hi', Hout by lia.
  split; [exact Hi'|]. intros x. rewrite Hout. split.
  - intros [[Hx Hn]|[Hx Hn]].
    + rewrite elem_of_cons in Hn. split; [exists p; split; [done|]; tauto|tauto].
    + split; [done|]. intros ->. done.
  - intros [(q & Hq & Hx & Hfx) Hne]. apply list_elem_of_lookup in Hq as [j Hq].
    destruct (decide (j = i)) as [->|Hji].
    + rewrite Hp in Hq. injection Hq as <-. left. split; [done|]. rewrite elem_of_cons. tauto.
    + right. split; [exists q; split; [by eapply list_elem_of_lookup_2|done]|]. intros Hxp.
      destruct (objects_apart c h j i q p x x Hi Hq Hp Hx Hxp) as [[? _]|?]; [done|lia].
Qed.

(** Slabs by address. *)
Lemma at_addr_Some c a i : at_addr a c = Some i -> exists p, slabs c !! i = Some p /\ sp_addr p = a.
Proof.
  intros E. apply find_from_Some in E as (_ & Hp & _). apply bool_decide_eq_true in Hp.
  destruct (slabs c !! i) as [p|]; [|done]. cbn in Hp. injection Hp as Hp. by exists p.
Qed.

Lemma at_addr_unique c h i p : slab_inv c h -> slabs c !! i = Some p -> at_addr (sp_addr p) c = Some i.
Proof.
  intros Hi Hp. unfold at_addr. destruct (find_from _ _ _) as [j|] eqn:E.
  - apply at_addr_Some in E as (q & Hq & Ea). destruct (decide (i = j)) as [->|Hne]; [done|exfalso].
    pose proof (si_size _ _ Hi). pose proof (si_count _ _ Hi).
    destruct (si_apart _ _ Hi i j p q Hp Hq Hne); unfold extent, HEADER in *; nia.
  - rewrite find_from_None in E. pose proof (lookup_lt_Some _ _ _ Hp). specialize (E i ltac:(lia)).
    rewrite Hp in E. by rewrite bool_decide_eq_true_2 in E.
Qed.

Lemma slab_find_Some chain c a : slab_find chain c = Some a -> a ∈ chain /\ has_free c a = true.
Proof.
  intros E. assert (Ha : a ∈ filter (fun a => has_free c a = true) chain).
  { unfold slab_find in E. destruct (filter _ chain) as [|y l]; [done|]. cbn in E. injection E as ->. by left. }
  apply list_elem_of_filter in Ha. tauto.
Qed.

Lemma objects_positive c h p x : slab_inv c h -> p ∈ slabs c -> object_of c p x -> 0 < x /\ x mod 8 = 0.
Proof.
  intros Hi Hp (k & Hk & ->). destruct (si_pages _ _ Hi p Hp) as [(A1 & A2 & _) _ _ _ _ _].
  pose proof (si_size _ _ Hi) as [Hs Hm]. split; [unfold HEADER; nia|].
  rewrite <- Z.add_mod_idemp_r, <- Z.mul_mod_idemp_r, Hm, Z.mul_0_r by lia. unfold HEADER. dlia.
Qed.

(** What a cache and an object taken from it look like. *)
Definition hands_out c c' h (o : Z) : Prop :=
  slab_inv c' h /\ object_size c' = object_size c /\ 0 < o /\ o mod 8 = 0 /\ ~ outstanding c o /\
  (forall x, outstanding c' x <-> x = o \/ outstanding c x) /\ sp_addr <$> slabs c' = sp_addr <$> slabs c.

Lemma take_at_spec c h a :
  slab_inv c h ->
  match take_at a c with
  | Some (c', o) => hands_out c c' h o
  | None => has_free c a = false
  end.
Proof.
  intros Hi. unfold take_at, has_free. destruct (at_addr a c) as [i|] eqn:Ea; [|done]. cbn [mbind option_bind].
  destruct (at_addr_Some _ _ _ Ea) as (p & Hp & <-). destruct (free_list p) as [|x rest] eqn:Hfl.
  - unfold take_object. rewrite Hp, Hfl. destruct p as [a fl u cap n]. cbn in Hfl. subst fl. by rewrite bool_decide_eq_true_2.
  - destruct (take_object_spec c h i p x rest Hi Hp Hfl) as (c1 & Et & Hi1 & Hsz & Ho & Hn & Hout). rewrite Et.
    destruct (objects_positive c h p x Hi (list_elem_of_lookup_2 _ _ _ Hp) Ho). split_and!; try done.
    revert Et. unfold take_object. rewrite Hp. destruct p as [a fl u cap n]. cbn in Hfl. subst fl. intros [= <-]. cbn.
    rewrite list_fmap_insert. apply list_insert_id. by rewrite list_lookup_fmap, Hp.
Qed.

Lemma hands_out_apart c c' h (o x : Z) :
  slab_inv c' h -> object_size c' = object_size c -> ~ outstanding c o -> (forall x, outstanding c' x <-> x = o \/ outstanding c x) ->
  outstanding c x -> o + object_size c <= x \/ x + object_size c <= o.
Proof.
  intros Hi' Hsz Hn Hout Hx. assert (Hxo : outstanding c' x) by (apply Hout; by right). assert (Hoo : outstanding c' o) by (apply Hout; by left).
  destruct Hoo as (p & Hp & Hop & _), Hxo as (q & Hq & Hxq & _).
  apply list_elem_of_lookup in Hp as [i Hp], Hq as [j Hq]. rewrite <- Hsz.
  destruct (objects_apart c' h i j p q o x Hi' Hp Hq Hop Hxq) as [[_ <-]|?]; [done|tauto].
Qed.

Lemma slab_alloc_spec c h :
  slab_inv c h ->
  exists c' h' o, slab_alloc c h = Some (c', h', o) /\ slab_inv c' h' /\ object_size c' = object_size c /\
  ((o = 0 /\ c' = c) \/
   (0 < o /\ o mod 8 = 0 /\ ~ outstanding c o /\ (forall x, outstanding c' x <-> x = o \/ outstanding c x))).
Proof.
  intros Hi. unfold slab_alloc. destruct (slab_find _ c) as [a|] eqn:Ef.
  - apply slab_find_Some in Ef as [_ Hf]. pose proof (take_at_spec c h a Hi) as Ht.
    destruct (take_at a c) as [[c' o]|]; [|congruence]. destruct Ht as (A1 & A2 & A3 & A4 & A5 & A6 & _).
    eexists _, _, _. split; [reflexivity|]. split; [done|]. split; [done|]. by right.
  - unfold slab_page_create. destruct (slab_page_new c h) as [h1 r] eqn:Ec. pose proof (slab_page_new_spec _ _ _ _ Hi Ec) as Hc.
    destruct r as [p|]; [|eexists _, _, _; split; [reflexivity|]; split; [done|]; split; [done|by left]].
    destruct Hc as (Hi1 & Hne & Hout1). pose proof (take_at_spec (add_slab p c) h1 (sp_addr p) Hi1) as Ht.
    destruct (take_at (sp_addr p) (add_slab p c)) as [[c' o]|].
    + destruct Ht as (A1 & A2 & A3 & A4 & A5 & A6 & _). eexists _, _, _. split; [reflexivity|]. split; [done|]. split; [done|]. right.
      split; [done|]. split; [done|]. split; [by rewrite <- Hout1|]. intros y. by rewrite A6, Hout1.
    + unfold has_free in Ht. rewrite (at_addr_unique (add_slab p c) h1 0 p Hi1 eq_refl) in Ht. cbn in Ht.
      by rewrite bool_decide_eq_false_2 in Ht.
Qed.

(** A new cache is empty and well formed. *)
Lemma slab_cache_create_inv size h h' c :
  kh_ok h -> 0 < size < 2 ^ 40 - 8 -> slab_cache_create size h = (h', Some c) ->
  slab_inv c h' /\ size <= object_size c /\ forall o, ~ outstanding c o.
Proof.
  intros Hok Hs E. unfold slab_cache_create in E. destruct (Z.eqb_spec size 0); [lia|].
  pose proof (kh_zalloc_ok SLAB_CACHE_BYTES h) as Hz.
  destruct (kh_malloc SLAB_CACHE_BYTES h) as [hm am] eqn:Em.
  destruct (kh_malloc_law SLAB_CACHE_BYTES h hm am Hok ltac:(unfold SLAB_CACHE_BYTES; lia) Em) as [Hokm _].
  destruct (kh_zalloc SLAB_CACHE_BYTES h) as [h1 a]. cbn [fst] in Hz. specialize (Hz Hokm).
  destruct (a =? 0); simplify_eq. set (s := if size <? POINTER_BYTES then POINTER_BYTES else size) in *.
  assert (Hsz : 8 <= s < 2 ^ 40 - 8 /\ size <= s) by (unfold s, POINTER_BYTES; split_ifs; lia).
  destruct (slab_align_spec s ltac:(lia)) as [Ha Hm]. rewrite header_eq.
  rewrite slab_divide_spec by (unfold SLAB_BYTES, HEADER; lia). cbn [fst].
  assert (Hq : 0 <= (SLAB_BYTES - HEADER) / slab_align s <= 4056).
  { split; [apply Z.div_pos; unfold SLAB_BYTES, HEADER; lia|]. apply Z.div_le_upper_bound; unfold SLAB_BYTES, HEADER; lia. }
  split; [|split; [cbn; lia|intros o (p & Hp & _); by apply elem_of_nil in Hp]].
  constructor; cbn; try done.
  - split; [lia|done].
  - split_ifs; lia.
  - intros p Hp. by apply elem_of_nil in Hp.
Qed.

(** *** Overlapping calls *)
Implicit Types (s : slab_sys H).

(** The steps of the system: a processor in slab_alloc goes on, or comes back
    for another object; a holder of an object frees it; the rest of the kernel
    uses the heap and leaves the blocks of the slabs alone. *)
Inductive slab_step s : slab_sys H -> Prop :=
| step_alloc i : slab_step s (alloc_step i s)
| step_again i o : sy_calls s !! i = Some (PcDone o) ->
    slab_step s (Sys (sy_cache s) (sy_chain s) (sy_heap s) (<[i := PcStart]> (sy_calls s)))
| step_free o : outstanding (sy_cache s) o -> slab_step s (slab_free_step o s)
| step_heap h' : kh_ok h' -> (forall x, x ∈ kh_live (sy_heap s) -> x.1 ∈ sp_addr <$> slabs (sy_cache s) -> x ∈ kh_live h') ->
    slab_step s (Sys (sy_cache s) (sy_chain s) h' (sy_calls s)).

Lemma pc_step_inv pc c chain h :
  slab_inv c h ->
  let '(c', _, h', pc') := pc_step pc c chain h in
  slab_inv c' h' /\
  (forall o, pc' = PcDone o -> pc <> PcDone o -> o <> 0 -> hands_out c c' h' o).
Proof.
  intros Hi. destruct pc as [| |a|a next|a|o|]; cbn [pc_step].
  - destruct (slab_find chain c) as [a|]; [|by split].
    pose proof (take_at_spec c h a Hi) as Ht. destruct (take_at a c) as [[c' o]|]; cbn [taken]; [|by split].
    split; [apply Ht|]. by intros ? [= <-].
  - destruct (slab_page_new c h) as [h1 r] eqn:Ec. pose proof (slab_page_new_spec _ _ _ _ Hi Ec) as Hc.
    destruct r as [p|]; split; try done; [apply Hc|]. by intros ? [= <-].
  - by split.
  - by split.
  - pose proof (take_at_spec c h a Hi) as Ht. destruct (take_at a c) as [[c' o]|]; cbn [taken]; [|by split].
    split; [apply Ht|]. by intros ? [= <-].
  - split; [done|]. by intros ? [= <-].
  - by split.
Qed.

Lemma alloc_step_inv i s :
  slab_inv (sy_cache s) (sy_heap s) ->
  slab_inv (sy_cache (alloc_step i s)) (sy_heap (alloc_step i s)) /\
  (forall o, sy_calls (alloc_step i s) !! i = Some (PcDone o) -> sy_calls s !! i <> Some (PcDone o) -> o <> 0 ->
     hands_out (sy_cache s) (sy_cache (alloc_step i s)) (sy_heap (alloc_step i s)) o).
Proof.
  intros Hi. unfold alloc_step. destruct (sy_calls s !! i) as [pc|] eqn:Ep; [|split; [done|]; intros o E; congruence].
  pose proof (pc_step_inv pc (sy_cache s) (sy_chain s) (sy_heap s) Hi) as Hs.
  destruct (pc_step pc _ _ _) as [[[c' chain'] h'] pc']. cbn. destruct Hs as [Hi' Ho]. split; [done|].
  intros o. rewrite list_lookup_insert_eq by (by eapply lookup_lt_Some). intros [= ->] Hne Hnz. apply Ho; [done|congruence|done].
Qed.

Lemma slab_step_inv s s' : slab_inv (sy_cache s) (sy_heap s) -> slab_step s s' -> slab_inv (sy_cache s') (sy_heap s').
Proof.
  intros Hi. destruct 1 as [i|i o Ho|o Ho|h' Hok Hl]; [by apply alloc_step_inv|done| |].
  - unfold slab_free_step. cbn [sy_cache sy_heap]. destruct (existsb _ _); [|done]. by apply slab_free_spec.
  - destruct Hi as [H1 H2 H3 H4 H5 H6]. split; try done. intros p Hp. destruct (H4 p Hp) as [A1 A2 A3 A4 A5 (sz & A6 & A7)].
    split; try done. exists sz. split; [|done]. apply Hl; [done|]. cbn. apply list_elem_of_fmap. by exists p.
Qed.

(** A processor that runs without interruption does [slab_alloc]. *)
Lemma alloc_step_one pc c chain h :
  alloc_step 0 (Sys c chain h [pc]) = let '(c', chain', h', pc') := pc_step pc c chain h in Sys c' chain' h' [pc'].
Proof. reflexivity. Qed.

Lemma slab_alloc_alone c h :
  let s := Nat.iter 5 (alloc_step 0) (slab_start c h 1) in
  slab_alloc c h = match sy_calls s with [PcDone o] => Some (sy_cache s, sy_heap s, o) | _ => None end.
Proof.
  intros s. unfold s, slab_alloc, slab_page_create, slab_start.
  change (Nat.iter 5 ?f ?x) with (f (f (f (f (f x))))). cbn [replicate].
  rewrite alloc_step_one. cbn [pc_step]. destruct (slab_find (sp_addr <$> slabs c) c) as [a|].
  - by destruct (take_at a c) as [[c' o]|].
  - rewrite alloc_step_one. cbn [pc_step]. destruct (slab_page_new c h) as [h1 [p|]]; [|done].
    rewrite alloc_step_one. cbn [pc_step]. rewrite alloc_step_one. cbn [pc_step]. rewrite alloc_step_one. cbn [pc_step].
    by destruct (take_at (sp_addr p) (add_slab p c)) as [[c' o]|].
Qed.
End SlabInv.
Arguments slab_step {H _} s s'.

(** ** What overlapping calls can do wrong

    Two processors, objects so large that a slab has one. *)
Definition demo_slab_heap : heap := kheap_init 0x10000 8000 demo_heap.

Lemma demo_slab_heap_ok : kh_ok demo_slab_heap.
Proof.
  change (heap_ok demo_slab_heap). apply kheap_init_ok. split; [apply pmm_init_inv; [repeat constructor; simpl; lia|lia]|]. split; [lia|]. split; [lia|]. split; [lia|].
  intros _ g [H1 H2]. change (0x10000 / PAGE_SIZE) with 16 in H1. unfold PAGE_SIZE in H2.
  assert (g = 16 \/ g = 17) as [->| ->] by lia; vm_compute; reflexivity.
Qed.

Definition demo_big : slab_cache := SlabCache 0x10030 4000 1 [] 0.

Lemma demo_big_inv : slab_inv demo_big (slab_cache_create 4000 demo_slab_heap).1.
Proof.
  assert (E : (slab_cache_create 4000 demo_slab_heap).2 = Some demo_big) by (vm_compute; reflexivity).
  destruct (slab_cache_create 4000 demo_slab_heap) as [h1 r] eqn:Ec. cbn [fst snd] in *. subst r.
  by destruct (slab_cache_create_inv 4000 demo_slab_heap h1 demo_big demo_slab_heap_ok ltac:(lia) Ec) as (Hi & _).
Qed.

Definition demo_calls : slab_sys heap := slab_start demo_big (slab_cache_create 4000 demo_slab_heap).1 2.
Definition run_calls (order : list nat) : slab_sys heap := foldl (fun s i => alloc_step i s) demo_calls order.

Lemma run_reach order : rtc slab_step demo_calls (run_calls order).
Proof.
  unfold run_calls. generalize demo_calls. induction order as [|i order IH]; intros s; cbn; [apply rtc_refl|].
  eapply rtc_l; [apply (step_alloc s i)|apply IH].
Qed.

(** The slab the first processor makes is emptied by the second before the
    first takes its object: the first dereferences NULL. When both link their
    slab at the same time one slab is lost, and its object cannot be freed. *)
Definition slab_races : Prop :=
  exists (c : slab_cache) (h : heap) (s1 s2 : slab_sys heap) (o : Z),
    slab_inv c h /\ rtc slab_step (slab_start c h 2) s1 /\ rtc slab_step (slab_start c h 2) s2 /\
    sy_calls s1 !! 0%nat = Some PcFault /\
    sy_calls s2 !! 0%nat = Some (PcDone o) /\ outstanding (sy_cache s2) o /\ slab_free_step o s2 = s2.

Lemma slab_races_hold : slab_races.
Proof.
  exists demo_big, (slab_cache_create 4000 demo_slab_heap).1, (run_calls [0; 0; 0; 0; 1; 0]%nat), (run_calls [0; 1; 0; 1; 0; 1; 0; 1; 0; 1]%nat), 0x100b8.
  assert (E1 : sy_calls (run_calls [0; 0; 0; 0; 1; 0]%nat) = [PcFault; PcDone 0x100b8]) by (vm_compute; reflexivity).
  assert (E2 : sy_calls (run_calls [0; 1; 0; 1; 0; 1; 0; 1; 0; 1]%nat) = [PcDone 0x100b8; PcDone 0x1058]) by (vm_compute; reflexivity).
  assert (E3 : slabs (sy_cache (run_calls [0; 1; 0; 1; 0; 1; 0; 1; 0; 1]%nat)) = [SlabPage 0x1030 [] 1 1 4040; SlabPage 0x10090 [] 1 1 4040]) by (vm_compute; reflexivity).
  assert (E4 : object_size (sy_cache (run_calls [0; 1; 0; 1; 0; 1; 0; 1; 0; 1]%nat)) = 4000) by (vm_compute; reflexivity).
  assert (E5 : sy_chain (run_calls [0; 1; 0; 1; 0; 1; 0; 1; 0; 1]%nat) = [0x1030]) by (vm_compute; reflexivity).
  split; [apply demo_big_inv|]. split; [apply run_reach|]. split; [apply run_reach|]. split; [by rewrite E1|]. split; [by rewrite E2|].
  revert E3 E4 E5. generalize (run_calls [0; 1; 0; 1; 0; 1; 0; 1; 0; 1]%nat). intros s2 E3 E4 E5. split.
  - exists (SlabPage 0x10090 [] 1 1 4040). split; [rewrite E3; right; left|]. split; [|apply not_elem_of_nil].
    exists 0. rewrite E4. cbn. unfold HEADER. lia.
  - unfold slab_free_step. assert (Ef : existsb (fun a => match at_addr a (sy_cache s2) with
      | Some i => match slabs (sy_cache s2) !! i with Some p => owns_object (sy_cache s2) 0x100b8 p | None => false end
      | None => false end) (sy_chain s2) = false).
    { rewrite E5. unfold at_addr, owns_object. cbn [existsb]. rewrite E3, E4. vm_compute. reflexivity. }
    rewrite Ef. by destruct s2.
Qed.

(** C38: a call of slab_alloc that no other call overlaps returns; it gives an
    aligned object that was not handed out and overlaps none that is, or
    fails and leaves the cache as it was; exactly this object is added to the
    ones handed out, freeing it takes exactly it away again, and the heap
    blocks behind the slabs stay allocated and disjoint. When calls overlap on
    any number of processors, whatever the interleaving, an object that is
    returned was still free and overlaps none that is handed out. But the
    window in which the lock is given up is not safe: two processors can reach
    a state in which one dereferences NULL, and one in which a slab is lost
    from the cache and an object of it cannot be given back. *)
Theorem slab_correct {H : Type} `{KernelHeap H} (c : slab_cache) (h : H) :
  slab_inv c h ->
  (exists c' h' o, slab_alloc c h = Some (c', h', o) /\ slab_inv c' h' /\ (o = 0 -> c' = c) /\
    (o <> 0 -> o mod 8 = 0 /\ ~ outstanding c o /\ (forall x, outstanding c' x <-> x = o \/ outstanding c x) /\
       (forall x, outstanding c x -> o + object_size c <= x \/ x + object_size c <= o) /\
       slab_inv (slab_free c' o) h' /\ (forall x, outstanding (slab_free c' o) x <-> outstanding c x))) /\
  (forall n s, rtc slab_step (slab_start c h n) s ->
    slab_inv (sy_cache s) (sy_heap s) /\
    forall i o, let s' := alloc_step i s in
      sy_calls s' !! i = Some (PcDone o) -> sy_calls s !! i <> Some (PcDone o) -> o <> 0 ->
      o mod 8 = 0 /\ ~ outstanding (sy_cache s) o /\
      (forall x, outstanding (sy_cache s') x <-> x = o \/ outstanding (sy_cache s) x) /\
      (forall x, outstanding (sy_cache s) x -> o + object_size (sy_cache s) <= x \/ x + object_size (sy_cache s) <= o)) /\
  slab_races.
Proof.
  intros Hi. split; [|split; [|exact slab_races_hold]].
  - destruct (slab_alloc_spec _ _ Hi) as (c' & h' & o & E & Hi' & Hsz & Ho). exists c', h', o. split; [done|]. split; [done|].
    destruct Ho as [[-> ->]|(Hpos & Hal & Hn & Hout)]; [done|]. split; [lia|]. intros _. split; [done|]. split; [done|]. split; [done|].
    split; [intros x Hx; by eapply hands_out_apart|]. assert (Hoo : outstanding c' o) by (apply Hout; by left).
    destruct (slab_free_spec _ _ _ Hi' Hoo) as [Hi2 Hout2]. split; [done|]. intros x. rewrite Hout2, Hout. split; [tauto|].
    intros Hx. split; [by right|]. intros ->. done.
  - intros n s Hr. assert (His : slab_inv (sy_cache s) (sy_heap s)).
    { apply (rtc_preserve (fun s => slab_inv (sy_cache s) (sy_heap s)) slab_step (slab_start c h n)); [apply slab_step_inv|done|done]. }
    split; [done|]. intros i o s' E Hne Hnz. destruct (alloc_step_inv i s His) as [_ Ho].
    destruct (Ho o E Hne Hnz) as (A1 & A2 & A3 & A4 & A5 & A6 & _). split; [done|]. split; [done|]. split; [done|]. intros x Hx. by eapply hands_out_apart.
Qed.

(** An object of 20 bytes; nothing was handed out before. *)
Lemma slab_correct_witness :
  exists h1 c c' h' o, slab_cache_create 20 demo_slab_heap = (h1, Some c) /\ slab_alloc c h1 = Some (c', h', o) /\ o <> 0 /\
    outstanding c' o /\ ~ outstanding c o.
Proof.
  assert (Hs : match slab_cache_create 20 demo_slab_heap with
               | (h, Some c) => match slab_alloc c h with Some (_, _, o) => negb (o =? 0) | None => false end
               | _ => false end = true) by (vm_compute; reflexivity).
  destruct (slab_cache_create 20 demo_slab_heap) as [h1 [c|]] eqn:Ec; [|discriminate Hs].
  destruct (slab_cache_create_inv 20 demo_slab_heap h1 c demo_slab_heap_ok ltac:(lia) Ec) as (Hi & _ & _).
  destruct (slab_correct c h1 Hi) as ((c' & h' & o & Ea & _ & _ & Hc) & _). rewrite Ea in Hs.
  assert (Ho : o <> 0) by (intros ->; discriminate Hs). exists h1, c, c', h', o.
  destruct (Hc Ho) as (_ & Hn & Hout & _). split; [reflexivity|]. split; [exact Ea|]. split; [exact Ho|].
  split; [apply Hout; left; reflexivity|exact Hn].
Defined.
