(* ===== verification/Port.v ===== *)
(** * src/ipc/port.c: message ports

    A fixed table of ports; a port counts the messages it holds, and no
    message data moves. Handles are C [uint32_t]; every call runs under
    [port_lock]. *)
From S2P Require Import Prelude.
Open Scope tach_scope.

(** ** Definitions *)
Definition MAX_PORTS : nat := 256.
Definition PORT_HANDLE_INVALID : Z := 2 ^ 32 - 1.
Definition PORT_RIGHT_SEND : Z := 1.
Definition PORT_RIGHT_RECV : Z := 2.

Record port := Port { port_id : Z; rights : Z; max_messages : Z; msg_count : Z }.
#[export] Instance port_inhabited : Inhabited port := populate (Port 0 0 0 0).
Record ports := Ports { table : list port; next_port_id : Z }.

Definition ports_init : ports := Ports (replicate MAX_PORTS (Port 0 0 0 0)) 1.
Definition on_port (i : Z) (f : port -> port) (s : ports) : ports := Ports (alter f (idx i) (table s)) (next_port_id s).
Definition port_at (s : ports) (i : Z) : port := table s !!! idx i.

Definition port_create (max : Z) (s : ports) : ports * Z :=
  match find_from (fun i => port_id (table s !!! i) =? 0) 0 MAX_PORTS with
  | Some i =>
      let s := on_port (Z.of_nat i) (fun _ => Port (next_port_id s) (PORT_RIGHT_SEND .| PORT_RIGHT_RECV) max 0) s in
      (Ports (table s) (u32 (next_port_id s + 1)), Z.of_nat i)
  | None => (s, PORT_HANDLE_INVALID)
  end.

Definition port_destroy (p : Z) (s : ports) : ports :=
  if 256 <=? p then s else on_port p (fun x => Port 0 0 (max_messages x) (msg_count x)) s.

Definition port_send (p : Z) (msg_null : bool) (s : ports) : ports * Z :=
  if (256 <=? p) || msg_null then (s, - EINVAL)
  else if port_id (port_at s p) =? 0 then (s, - EINVAL)
  else if rights (port_at s p) .& PORT_RIGHT_SEND =? 0 then (s, - EPERM)
  else if max_messages (port_at s p) <=? msg_count (port_at s p) then (s, - EAGAIN)
  else (on_port p (fun x => Port (port_id x) (rights x) (max_messages x) (msg_count x + 1)) s, 0).

Definition port_recv (p : Z) (msg_null : bool) (s : ports) : ports * Z :=
  if (256 <=? p) || msg_null then (s, - EINVAL)
  else if port_id (port_at s p) =? 0 then (s, - EINVAL)
  else if rights (port_at s p) .& PORT_RIGHT_RECV =? 0 then (s, - EPERM)
  else if msg_count (port_at s p) =? 0 then (s, - EAGAIN)
  else (on_port p (fun x => Port (port_id x) (rights x) (max_messages x) (msg_count x - 1)) s, 0).

Definition port_clone_rights (src dst rights : Z) (s : ports) : ports * Z := (s, - ENOSYS).

(** ** The bound on queued messages *)
Definition ports_ok (s : ports) : Prop :=
  length (table s) = MAX_PORTS /\
  forall i x, table s !! i = Some x -> 0 <= msg_count x /\ (port_id x <> 0 -> msg_count x <= max_messages x).

Lemma on_port_ok i f s :
  ports_ok s -> (forall x, table s !! idx i = Some x -> 0 <= msg_count (f x) /\ (port_id (f x) <> 0 -> msg_count (f x) <= max_messages (f x))) ->
  ports_ok (on_port i f s).
Proof.
  intros [Hl Hs] Hf. split; [cbn; by rewrite length_alter|]. intros j x Hj. cbn in Hj.
  destruct (decide (j = idx i)) as [->|].
  - rewrite list_lookup_alter_eq in Hj. destruct (table s !! idx i) as [y|] eqn:Ey; [|done]. injection Hj as <-.
    by apply Hf.
  - rewrite list_lookup_alter_ne in Hj by done. by apply (Hs j).
Qed.

(** A queue never holds more than [max_messages], and a send followed by a
    receive leaves the table as it was. *)
Theorem port_bounded (s : ports) (p : Z) :
  ports_ok s -> 0 <= p ->
  (forall max, 0 <= max -> ports_ok (port_create max s).1) /\ ports_ok (port_destroy p s) /\
  ports_ok (port_send p false s).1 /\ ports_ok (port_recv p false s).1 /\
  ((port_send p false s).2 = 0 -> rights (port_at s p) .& PORT_RIGHT_RECV <> 0 ->
     port_recv p false (port_send p false s).1 = (s, 0)).
Proof.
  intros Hok Hp. pose proof Hok as [Hl Hs].
  assert (Hat : forall x, table s !! idx p = Some x -> port_at s p = x).
  { intros x Hx. unfold port_at. by rewrite list_lookup_total_alt, Hx. }
  split; [|split; [|split; [|split]]].
  - intros max Hm. unfold port_create. destruct (find_from _ _ _); [|done]. cbn.
    apply (on_port_ok (Z.of_nat n) (fun _ => Port (next_port_id s) (PORT_RIGHT_SEND .| PORT_RIGHT_RECV) max 0) s Hok).
    intros x _. cbn. lia.
  - unfold port_destroy. destruct (256 <=? p); [done|]. apply on_port_ok; [done|]. intros x Hx. cbn. destruct (Hs _ _ Hx). lia.
  - unfold port_send. split_ifs; cbn [fst]; try done. apply on_port_ok; [done|]. intros x Hx. rewrite (Hat x Hx) in *. cbn.
    destruct (Hs _ _ Hx). lia.
  - unfold port_recv. split_ifs; cbn [fst]; try done. apply on_port_ok; [done|]. intros x Hx. rewrite (Hat x Hx) in *. cbn.
    destruct (Hs _ _ Hx) as [H1 H2]. split; [lia|]. intros Hn. specialize (H2 Hn). lia.
  - unfold port_send. destruct ((256 <=? p) || false) eqn:E1; [done|]. destruct (port_id (port_at s p) =? 0) eqn:E2; [done|].
    destruct (_ .& PORT_RIGHT_SEND =? 0); [done|]. destruct (max_messages (port_at s p) <=? _); [done|]. cbn [fst snd]. intros _ Hr.
    destruct (lookup_lt_is_Some_2 (table s) (idx p)) as [x Hx].
    { rewrite Hl. change MAX_PORTS with (Z.to_nat 256). unfold idx. apply orb_false_iff in E1 as [E1 _]. lia. }
    rewrite (Hat x Hx) in *. unfold port_recv. rewrite E1.
    set (x' := Port (port_id x) (rights x) (max_messages x) (msg_count x + 1)).
    assert (Hat' : port_at (on_port p (fun x => Port (port_id x) (rights x) (max_messages x) (msg_count x + 1)) s) p = x').
    { unfold port_at. cbn. by rewrite list_lookup_total_alt, list_lookup_alter_eq, Hx. }
    rewrite Hat'. cbn. rewrite E2. destruct (Z.eqb_spec (rights x .& PORT_RIGHT_RECV) 0); [done|].
    destruct (Z.eqb_spec (msg_count x + 1) 0); [destruct (Hs _ _ Hx); lia|]. unfold on_port. cbn.
    rewrite (alter_insert _ _ _ _ Hx).
    rewrite (alter_insert _ (<[idx p:=x']> (table s)) (idx p) x') by (by apply list_lookup_insert_eq, lookup_lt_Some with x).
    rewrite list_insert_insert_eq, list_insert_id; [by destruct s|].
    rewrite Hx. f_equal. destruct x. cbn. f_equal. lia.
Qed.
