(* ===== verification/Disk.v ===== *)
(** * The block layer as the file system sees it

    fat32.c touches the disk only through [bread]/[bdirty]/[brelse], [bnew],
    [blk_read], [blk_write] and [blk_flush] on one device, and never holds two
    buffers. [Disk] is that interface: the operations, and the sector view
    [dk_view] they are specified by. [DiskOk] is what the file system relies
    on. Two instances: the cache of Blk.v on a registered device (which may
    fail at any access), and [ideal], a plain array of sectors (which never
    fails inside its range). *)
From S2P Require Import Prelude CString Blk.

Open Scope tach_scope.

(** ** Interface *)

(** [dk_with lba f] is [bread] of [lba], [f] on the data of the buffer,
    [bdirty] when [f] stores new data, and [brelse]. The result is [inl e]
    with a negative errno, or [inr]. *)
Class Disk (S : Type) := {
  dk_sectors : Z;
  dk_readonly : bool;
  dk_with {A : Type} : Z -> (sector -> option sector * A) -> S -> S * (Z + A);
  dk_new : Z -> S -> S * (Z + unit);                       (* bnew; brelse *)
  dk_read : Z -> Z -> S -> S * (Z + list sector);          (* blk_read: lba, count *)
  dk_write : Z -> list sector -> S -> S * (Z + unit);      (* blk_write *)
  dk_flush : S -> S * (Z + unit);
  dk_view : S -> Z -> sector;
  dk_inv : S -> Prop
}.

(** [dk_reliable]: no access inside the device fails. *)
Class DiskOk (S : Type) `{Disk S} := {
  dk_reliable : Prop;
  dk_size_ok : 0 <= dk_sectors < 2 ^ 64;
  dk_view_sector s l : dk_inv s -> is_sector (dk_view s l);
  dk_with_ok {A} lba (f : sector -> option sector * A) s s' x :
    dk_with lba f s = (s', x) -> dk_inv s -> 0 <= lba ->
    (forall d d', is_sector d -> (f d).1 = Some d' -> is_sector d') ->
    dk_inv s' /\
    match x with
    | inl e => e < 0 /\ (forall l, dk_view s' l = dk_view s l) /\ (lba < dk_sectors -> ~ dk_reliable)
    | inr a => lba < dk_sectors /\ a = (f (dk_view s lba)).2 /\
        forall l, dk_view s' l = if l =? lba then default (dk_view s lba) (f (dk_view s lba)).1 else dk_view s l
    end;
  dk_new_ok lba s s' x :
    dk_new lba s = (s', x) -> dk_inv s -> 0 <= lba ->
    dk_inv s' /\
    match x with
    | inl e => e < 0 /\ (forall l, dk_view s' l = dk_view s l) /\ (lba < dk_sectors -> dk_readonly = false -> ~ dk_reliable)
    | inr _ => lba < dk_sectors /\ forall l, dk_view s' l = if l =? lba then zero_sector else dk_view s l
    end;
  dk_read_ok lba n s s' x :
    dk_read lba n s = (s', x) -> dk_inv s -> 0 <= lba -> 0 < n ->
    dk_inv s' /\ (forall l, dk_view s' l = dk_view s l) /\
    match x with
    | inl e => e < 0 /\ (lba + n <= dk_sectors -> ~ dk_reliable)
    | inr out => lba + n <= dk_sectors /\ out = dk_view s <$> seqZ lba n
    end;
  dk_write_ok lba data s s' x :
    dk_write lba data s = (s', x) -> dk_inv s -> 0 <= lba -> data <> [] -> Forall is_sector data ->
    dk_inv s' /\ exists n, (n <= length data)%nat /\
      (forall l, dk_view s' l = if (lba <=? l) && (l <? lba + Z.of_nat n) then data !!! Z.to_nat (l - lba) else dk_view s l) /\
    match x with
    | inl e => e < 0 /\ (lba + Z.of_nat (length data) <= dk_sectors -> dk_readonly = false -> ~ dk_reliable)
    | inr _ => n = length data /\ lba + Z.of_nat (length data) <= dk_sectors
    end;
  dk_flush_ok s s' x :
    dk_flush s = (s', x) -> dk_inv s ->
    dk_inv s' /\ (forall l, dk_view s' l = dk_view s l) /\ match x with inl e => e < 0 /\ ~ dk_reliable | inr _ => True end
}.

(** ** The cache of Blk.v *)
Section CacheDisk.
Context (dev : nat -> blkdev) (d : nat) {D : Type} `{BlockDriver D}.
Implicit Types s : cache D.

(** An int result: negative is an error. [None] is a chain of parents longer
    than the registry, which [dev_ok] excludes. *)
Definition int_result {S A} (s : S) (r : option (S * Z * A)) : S * (Z + A) :=
  match r with
  | None => (s, inl (- EIO))
  | Some (s', e, a) => (s', if e <? 0 then inl e else inr a)
  end.

Definition cache_with {A} (lba : Z) (f : sector -> option sector * A) s : cache D * (Z + A) :=
  match bread dev (Some d) lba s with
  | None => (s, inl (- EIO))
  | Some (s, inr e) => (s, inl e)
  | Some (s, inl i) =>
      let '(od, a) := f (default [] (b_data <$> g_pool s !! i)) in
      let s := match od with
               | Some data => bdirty i (upd_buf i (set_data data) s)
               | None => s
               end in
      (brelse i s, inr a)
  end.

Definition cache_new (lba : Z) s : cache D * (Z + unit) :=
  match bnew dev (Some d) lba s with
  | None => (s, inl (- EIO))
  | Some (s, inr e) => (s, inl e)
  | Some (s, inl i) => (brelse i s, inr tt)
  end.

Definition cache_disk (r : nat) (base : Z) : Disk (cache D) := {|
  dk_sectors := dv_sectors (dev d);
  dk_readonly := dv_readonly (dev d);
  dk_with A := cache_with;
  dk_new := cache_new;
  dk_read lba n s := int_result s (blk_read dev (Some d) lba n true s);
  dk_write lba data s := int_result s ((fun '(s, e) => (s, e, tt)) <$> blk_write dev (Some d) lba (Some data) s);
  dk_flush s := int_result s ((fun '(s, e) => (s, e, tt)) <$> blk_flush dev (Some d) s);
  dk_view s l := view dev s r (base + l);
  dk_inv s := cache_inv dev None s /\ g_ready s = true
|}.
End CacheDisk.

Section CacheDiskOk.
Context (dev : nat -> blkdev) (d r : nat) (base : Z) {D : Type} `{BlockDriverOk D} (Hd : dev_ok dev d r base).
Local Existing Instance cache_disk.

Lemma buf_get_range lba read (s : cache D) : dv_sectors (dev d) <= lba -> buf_get dev (Some d) lba read s = Some (s, inr (- EINVAL)).
Proof. intros. unfold buf_get. assert (range_ok dev d lba 1 = false) as -> by (unfold range_ok; lia). done. Qed.

Lemma cache_with_ok {A} lba (f : sector -> option sector * A) (s s' : cache D) x :
  cache_with dev d lba f s = (s', x) -> cache_inv dev None s /\ g_ready s = true -> 0 <= lba ->
  (forall y y', is_sector y -> (f y).1 = Some y' -> is_sector y') ->
  (cache_inv dev None s' /\ g_ready s' = true) /\
  match x with
  | inl e => e < 0 /\ (forall l, view dev s' r (base + l) = view dev s r (base + l)) /\ (lba < dv_sectors (dev d) -> ~ False)
  | inr a => lba < dv_sectors (dev d) /\ a = (f (view dev s r (base + lba))).2 /\
      forall l, view dev s' r (base + l) = if l =? lba then default (view dev s r (base + lba)) (f (view dev s r (base + lba))).1
                                           else view dev s r (base + l)
  end.
Proof.
  unfold cache_with, bread. intros E [Hi Hr] Hl Hf.
  destruct (Z_lt_le_dec lba (dv_sectors (dev d))) as [Hlt|Hge].
  2: { rewrite buf_get_range in E by lia. injection E as <- <-. split_and!; done || lia. }
  destruct (buf_get_spec dev d r base lba true s Hi Hr Hd (conj Hl Hlt)) as (s1 & y & Eg & Hr1 & _ & Hx).
  rewrite Eg in E. destruct y as [i|e]; [|destruct Hx as (He & Hi1 & Hv1); injection E as <- <-; split_and!; try done; intros; first [apply Hv1 | by intros []]].
  destruct Hx as (Hc & Hi1 & Hv1 & Hv2 & _). specialize (Hv2 eq_refl). pose proof Hc as (b & Hb & Hbr & Hbl).
  assert (Hsame : forall l, view dev s1 r (base + l) = view dev s r (base + l)).
  { intros l. destruct (decide (l = lba)) as [->|]; [done|]. apply Hv1. lia. }
  assert (Edata : default [] (b_data <$> g_pool s1 !! i) = view dev s r (base + lba)).
  { rewrite Hb, <- Hv2. simpl. symmetry. by eapply view_cached. }
  rewrite Edata in E. destruct (f (view dev s r (base + lba))) as [od a] eqn:Ef. destruct od as [data|]; injection E as <- <-.
  - assert (Hdata : is_sector data).
    { eapply Hf; [|by rewrite Ef]. by eapply view_sector. }
    destruct (store_inv dev None i r _ (fun _ => data) s1 Hi1 Hc (or_introl eq_refl) (fun _ _ => Hdata)) as (Hi2 & _ & Hv3).
    unfold bdirty. rewrite upd_buf_compose. destruct (brelse_spec dev i _ Hi2) as [Hi3 Hv4].
    split_and!; try done. intros l. rewrite Hv4, Hv3. destruct (Z.eqb_spec l lba) as [->|Hne].
    + by rewrite decide_True.
    + rewrite decide_False by lia. apply Hsame.
  - destruct (brelse_spec dev i _ Hi1) as [Hi3 Hv4]. split_and!; try done.
    intros l. rewrite Hv4, Hsame. by destruct (Z.eqb_spec l lba) as [->|].
Qed.

Lemma cache_new_ok lba (s s' : cache D) x :
  cache_new dev d lba s = (s', x) -> cache_inv dev None s /\ g_ready s = true -> 0 <= lba ->
  (cache_inv dev None s' /\ g_ready s' = true) /\
  match x with
  | inl e => e < 0 /\ (forall l, view dev s' r (base + l) = view dev s r (base + l)) /\ (lba < dv_sectors (dev d) -> dv_readonly (dev d) = false -> ~ False)
  | inr _ => lba < dv_sectors (dev d) /\ forall l, view dev s' r (base + l) = if l =? lba then zero_sector else view dev s r (base + l)
  end.
Proof.
  unfold cache_new, bnew. intros E [Hi Hr] Hl.
  destruct (Z_lt_le_dec lba (dv_sectors (dev d))) as [Hlt|Hge].
  2: { rewrite buf_get_range in E by lia. injection E as <- <-. split_and!; done || lia. }
  destruct (buf_get_spec dev d r base lba false s Hi Hr Hd (conj Hl Hlt)) as (s1 & y & Eg & Hr1 & _ & Hx).
  rewrite Eg in E. destruct y as [i|e]; [|destruct Hx as (He & Hi1 & Hv1); injection E as <- <-; split_and!; try done; intros; first [apply Hv1 | by intros []]].
  destruct Hx as (Hc & Hi1 & Hv1 & _ & Hz). destruct (Hz eq_refl) as [_ Hz']. injection E as <- <-.
  destruct (brelse_spec dev i _ Hi1) as [Hi3 Hv4]. split_and!; try done.
  intros l. rewrite Hv4. destruct (Z.eqb_spec l lba) as [->|]; [done|]. apply Hv1. lia.
Qed.

#[export] Instance cache_disk_ok : @DiskOk (cache D) (cache_disk dev d r base).
Proof using Hd H0.
  refine {| dk_reliable := False |}; cbn [cache_disk dk_sectors dk_readonly dk_with dk_new dk_read dk_write dk_flush dk_view dk_inv].
  - destruct Hd. unfold BLK_SECTOR_SIZE in *. lia.
  - intros s l [Hi _]. by eapply view_sector.
  - intros A. apply cache_with_ok.
  - apply cache_new_ok.
  - intros lba n s s' x E [Hi Hr] Hl Hn. destruct (Z_le_gt_dec (lba + n) (dv_sectors (dev d))) as [Hle|Hgt].
    + destruct (blk_read_spec dev s d r base lba n Hi Hr Hd Hl Hn Hle) as (s1 & e & out & Eq & He & Hi1 & Hr1 & Hv & Hout).
      rewrite Eq in E. simpl in E. injection E as <- <-. split_and!; [done|done|intros; apply Hv|]. destruct (Z.ltb_spec e 0); [split; [done|tauto]|].
      split; [done|]. rewrite (Hout ltac:(lia)). apply list_eq. intros k. rewrite !list_lookup_fmap.
      destruct (decide (Z.of_nat k < n)).
      * rewrite !lookup_seqZ_lt by lia. simpl. do 2 f_equal. lia.
      * rewrite !lookup_seqZ_ge by lia. done.
    + unfold blk_read in E. assert (range_ok dev d lba n = false) as Ero by (unfold range_ok; lia). rewrite Ero in E. simpl in E.
      injection E as <- <-. split_and!; done.
  - intros lba data s s' x E [Hi Hr] Hl Hne Hsec. destruct (Z_le_gt_dec (lba + Z.of_nat (length data)) (dv_sectors (dev d))) as [Hle|Hgt].
    + destruct (blk_write_spec dev s d r base lba data Hi Hr Hd Hl Hne Hle Hsec) as (s1 & e & n & Eq & He & Hi1 & Hr1 & Hn & Hn0 & Hv).
      rewrite Eq in E. simpl in E. injection E as <- <-. split; [done|]. exists n. split_and!; [done| |].
      * intros l. rewrite Hv. destruct (decide (r = r /\ _)) as [Hin|Hout]; split_ifs; try (f_equal; lia); lia || done.
      * destruct (Z.ltb_spec e 0); [split; [done|tauto]|]. split; [apply Hn0; lia|done].
    + unfold blk_write in E. assert (range_ok dev d lba (Z.of_nat (length data)) = false) as Ero by (unfold range_ok; lia). rewrite Ero in E. simpl in E.
      injection E as <- <-. split; [done|]. exists 0%nat. split_and!; [lia| |done|tauto]. intros l. split_ifs; lia || done.
  - intros s s' x E [Hi Hr]. unfold blk_flush in E. rewrite (root_of_ok dev d r base 0 Hd) in E by (destruct Hd; lia). cbn in E.
    pose proof (flush_root_spec dev r s Hi Hr) as Hx. destruct (flush_root_locked dev r s) as [s1 e]. simpl in E.
    destruct Hx as (He & Hi1 & Hv & Hr1 & _). injection E as <- <-. split_and!; [done|done|intros; apply Hv|]. destruct (Z.ltb_spec e 0); [|done]. split; [done|tauto].
Qed.
End CacheDiskOk.

(** ** An array of sectors *)
Section Ideal.
Context (n : Z) (ro : bool) (Hn : 0 <= n < 2 ^ 64).

Definition ideal := Z -> sector.
Implicit Types s : ideal.

Definition ideal_with {A} (lba : Z) (f : sector -> option sector * A) s : ideal * (Z + A) :=
  if n <=? lba then (s, inl (- EINVAL))
  else match f (s lba) with
       | (Some data, a) => (upd s lba data, inr a)
       | (None, a) => (s, inr a)
       end.

Fixpoint ideal_store (lba : Z) (data : list sector) s : ideal :=
  match data with
  | [] => s
  | x :: data' => ideal_store (lba + 1) data' (upd s lba x)
  end.

#[export] Instance ideal_disk : Disk ideal := {|
  dk_sectors := n;
  dk_readonly := ro;
  dk_with A := ideal_with;
  dk_new lba s := if (n <=? lba) || ro then (s, inl (- EINVAL)) else (upd s lba zero_sector, inr tt);
  dk_read lba c s := if n <? lba + c then (s, inl (- EINVAL)) else (s, inr (s <$> seqZ lba c));
  dk_write lba data s := if (n <? lba + Z.of_nat (length data)) || ro then (s, inl (- EINVAL)) else (ideal_store lba data s, inr tt);
  dk_flush s := (s, inr tt);
  dk_view s := s;
  dk_inv s := forall l, is_sector (s l)
|}.

Lemma ideal_store_at lba data s l :
  ideal_store lba data s l = if (lba <=? l) && (l <? lba + Z.of_nat (length data)) then data !!! Z.to_nat (l - lba) else s l.
Proof.
  revert lba s. induction data as [|x data IH]; intros lba s; simpl; [split_ifs; lia || done|]. rewrite IH, upd_spec.
  destruct (Z.eqb_spec l lba) as [->|Hne].
  - replace (lba - lba) with 0 by lia. split_ifs; lia || done.
  - destruct (_ && _) eqn:E1; split_ifs; try lia; [|done]. replace (Z.to_nat (l - lba)) with (S (Z.to_nat (l - (lba + 1)))) by lia. done.
Qed.

Lemma ideal_ok : @DiskOk ideal ideal_disk.
Proof using Hn.
  refine {| dk_reliable := True |}; cbn.
  - done.
  - auto.
  - intros A lba f s s' x E Hi Hl Hf. unfold ideal_with in E. destruct (Z.leb_spec n lba).
    { injection E as <- <-. split_and!; try done. lia. }
    pose proof (Hf (s lba)) as Hf'. destruct (f (s lba)) as [[data|] a]; injection E as <- <-; simpl.
    + split; [intros l; rewrite upd_spec; split_ifs; [by apply Hf'|apply Hi]|]. split_and!; try done.
    + split_and!; try done. intros l. by destruct (Z.eqb_spec l lba) as [->|].
  - intros lba s s' x E Hi Hl. destruct ((n <=? lba) || ro) eqn:E1; injection E as <- <-.
    + split_and!; try done. intros ? ->. lia.
    + split; [intros l; rewrite upd_spec; split_ifs; [apply zero_is_sector|apply Hi]|]. split; [lia|]. intros l. apply upd_spec.
  - intros lba c s s' x E Hi Hl Hc. destruct (Z.ltb_spec n (lba + c)); injection E as <- <-; split_and!; try done. lia.
  - intros lba data s s' x E Hi Hl Hne Hsec. destruct ((n <? lba + Z.of_nat (length data)) || ro) eqn:E1; injection E as <- <-.
    + split; [done|]. exists 0%nat. split_and!; [lia|intros; split_ifs; lia || done|done|]. intros ? ->. lia.
    + split.
      * intros l. rewrite ideal_store_at. destruct (_ && _) eqn:E2; [|apply Hi].
        assert (Hl2 : (Z.to_nat (l - lba) < length data)%nat) by lia. apply lookup_lt_is_Some in Hl2 as [y Hy].
        rewrite (list_lookup_total_correct _ _ _ Hy). by eapply Forall_lookup_1.
      * exists (length data). split_and!; [done|intros; apply ideal_store_at|done|lia].
  - intros s s' x E Hi. injection E as <- <-. done.
Defined.
End Ideal.
