(* ===== verification/Fat.v ===== *)
(** * src/fs/fat32.c: volume, allocation table and cluster chains

    The volume is split in two records: [geo], the fields of
    [struct fat32_vol] that fat32_mount computes once, and [fs], what changes
    afterwards (the disk, the FSInfo counters, the flags, the open vnodes, the
    clock of [fat_now]). The functions run in a small state and error monad:
    [inl e] is a negative errno, [inr] the value the C function returns or
    stores through its out parameter. [try_] gives the result of a call whose
    error the code handles. The disk is the interface of Disk.v.

    Each function is one step: the model is of one caller at a time, so the
    critical sections of [vol->lock] are not separate steps. *)
From S2P Require Import Prelude CString Blk Disk.

Open Scope tach_scope.

Definition FAT32_MIN_CLUSTERS : Z := 65525.
Definition FAT32_MAX_CLUSTERS : Z := 0x0FFFFFF5.
Definition FAT32_EOC_MIN : Z := 0x0FFFFFF8.
Definition FAT32_EOC : Z := 0x0FFFFFFF.
Definition FAT32_UNKNOWN : Z := 0xFFFFFFFF.
Definition FAT32_MAX_SIZE : Z := 0xFFFFFFFF.
Definition FAT32_ATTR_RO : Z := 0x01.
Definition FAT32_ATTR_DIR : Z := 0x10.
Definition FAT32_ATTR_ARCH : Z := 0x20.

(** ** Little-endian fields of a byte array *)

Definition byte_at (d : list Z) (o : Z) : Z := u8 (d !!! idx o).
Definition set_byte (o v : Z) (d : list Z) : list Z := <[idx o := u8 v]> d.

Definition le16 (d : list Z) (o : Z) : Z := byte_at d o .| (byte_at d (o + 1) .<< 8).
Definition le32 (d : list Z) (o : Z) : Z :=
  byte_at d o .| (byte_at d (o + 1) .<< 8) .| (byte_at d (o + 2) .<< 16) .| (byte_at d (o + 3) .<< 24).
Definition put16 (o v : Z) (d : list Z) : list Z := set_byte (o + 1) (v .>> 8) (set_byte o v d).
Definition put32 (o v : Z) (d : list Z) : list Z := put16 (o + 2) (v .>> 16) (put16 o v d).

Lemma lor_add a b k : 0 <= k -> 0 <= a < 2 ^ k -> a .| (b .<< k) = a + b * 2 ^ k.
Proof.
  intros Hk Ha. rewrite Z.shiftl_mul_pow2 by lia. symmetry.
  rewrite <- Z.lxor_lor; [apply Z.add_nocarry_lxor|]; apply Z.bits_inj'; intros n Hn; rewrite Z.land_spec, Z.bits_0.
  all: destruct (Z_lt_le_dec n k) as [Hlt|Hge]; [rewrite Z.mul_pow2_bits_low by lia; by rewrite andb_false_r|].
  all: rewrite <- (Z.mod_small a (2 ^ k)) by lia; by rewrite Z.mod_pow2_bits_high by lia.
Qed.

Lemma byte_at_u8 d o : 0 <= byte_at d o < 256.
Proof. unfold byte_at. pose proof (u8_is_u8 (d !!! idx o)) as Hx. unfold is_u8 in Hx. lia. Qed.

Lemma le16_sum d o : le16 d o = byte_at d o + byte_at d (o + 1) * 256.
Proof. unfold le16. pose proof (byte_at_u8 d o). by rewrite lor_add by lia. Qed.

Lemma le32_sum d o : le32 d o = byte_at d o + byte_at d (o + 1) * 256 + byte_at d (o + 2) * 65536 + byte_at d (o + 3) * 16777216.
Proof.
  unfold le32. pose proof (byte_at_u8 d o). pose proof (byte_at_u8 d (o + 1)). pose proof (byte_at_u8 d (o + 2)).
  rewrite (lor_add _ _ 8) by lia. rewrite (lor_add _ _ 16) by lia. rewrite (lor_add _ _ 24) by lia. done.
Qed.

Lemma le16_range d o : 0 <= le16 d o < 2 ^ 16.
Proof. rewrite le16_sum. pose proof (byte_at_u8 d o). pose proof (byte_at_u8 d (o + 1)). lia. Qed.

Lemma le32_range d o : 0 <= le32 d o < 2 ^ 32.
Proof.
  rewrite le32_sum. pose proof (byte_at_u8 d o). pose proof (byte_at_u8 d (o + 1)). pose proof (byte_at_u8 d (o + 2)).
  pose proof (byte_at_u8 d (o + 3)). lia.
Qed.

Lemma length_set_byte o v d : length (set_byte o v d) = length d.
Proof. apply length_insert. Qed.
Lemma length_put16 o v d : length (put16 o v d) = length d.
Proof. unfold put16. by rewrite !length_set_byte. Qed.
Lemma length_put32 o v d : length (put32 o v d) = length d.
Proof. unfold put32. by rewrite !length_put16. Qed.

Lemma byte_set o v d k : 0 <= k -> 0 <= o < Z.of_nat (length d) -> byte_at (set_byte o v d) k = if k =? o then u8 v else byte_at d k.
Proof.
  intros Hk Ho. unfold byte_at, set_byte, idx. destruct (Z.eqb_spec k o) as [->|Hne].
  - rewrite list_lookup_total_insert_eq by lia. apply u8_small, u8_is_u8.
  - rewrite list_lookup_total_insert_ne by lia. done.
Qed.

Lemma byte_put16 o v d k : 0 <= k -> 0 <= o -> o + 2 <= Z.of_nat (length d) ->
  byte_at (put16 o v d) k = if k =? o then u8 v else if k =? o + 1 then u8 (v .>> 8) else byte_at d k.
Proof. intros. unfold put16. rewrite !byte_set by (rewrite ?length_set_byte; lia). split_ifs; lia || done. Qed.

Lemma byte_put32 o v d k : 0 <= k -> 0 <= o -> o + 4 <= Z.of_nat (length d) ->
  byte_at (put32 o v d) k = if (o <=? k) && (k <? o + 4) then u8 (v .>> (8 * (k - o))) else byte_at d k.
Proof.
  intros. unfold put32. rewrite !byte_put16 by (rewrite ?length_put16; lia). rewrite Z.shiftr_shiftr by lia.
  split_ifs; try lia; try done; f_equal; try (f_equal; lia).
  replace (8 * (k - o)) with 0 by lia. by rewrite Z.shiftr_0_r.
Qed.

Lemma le32_put32 o v d : 0 <= o -> o + 4 <= Z.of_nat (length d) -> le32 (put32 o v d) o = u32 v.
Proof.
  intros. rewrite le32_sum, !byte_put32 by lia.
  replace ((o <=? o) && (o <? o + 4)) with true by lia. replace ((o <=? o + 1) && (o + 1 <? o + 4)) with true by lia.
  replace ((o <=? o + 2) && (o + 2 <? o + 4)) with true by lia. replace ((o <=? o + 3) && (o + 3 <? o + 4)) with true by lia.
  replace (8 * (o - o)) with 0 by lia. replace (8 * (o + 1 - o)) with 8 by lia. replace (8 * (o + 2 - o)) with 16 by lia.
  replace (8 * (o + 3 - o)) with 24 by lia. rewrite !Z.shiftr_div_pow2 by lia. unfold u8, u32.
  change (2 ^ 8) with 256. change (2 ^ 16) with 65536. change (2 ^ 24) with 16777216. change (2 ^ 32) with 4294967296. rewrite Z.pow_0_r, Z.div_1_r. dlia.
Qed.

Lemma le32_put32_ne o o' v d : 0 <= o -> 0 <= o' -> o + 4 <= Z.of_nat (length d) -> o' + 4 <= o \/ o + 4 <= o' -> le32 (put32 o v d) o' = le32 d o'.
Proof.
  intros. rewrite !le32_sum, !byte_put32 by lia. split_ifs; lia || done.
Qed.

Lemma le16_put16 o v d : 0 <= o -> o + 2 <= Z.of_nat (length d) -> le16 (put16 o v d) o = u16 v.
Proof.
  intros. rewrite le16_sum, !byte_put16 by lia. rewrite Z.eqb_refl. rewrite Z.shiftr_div_pow2 by lia. unfold u8, u16.
  replace (o + 1 =? o) with false by lia. rewrite Z.eqb_refl. change (2 ^ 8) with 256. change (2 ^ 16) with 65536. dlia.
Qed.

(** ** Data *)

Record fat32_info := Info {
  i_name : list Z;             (* UTF-8, without the NUL *)
  i_short : list Z;
  i_attr : Z;
  i_first : Z;                 (* first_cluster *)
  i_size : Z;
  i_wdate : Z;
  i_wtime : Z;
  i_dir_cluster : Z;
  i_dir_pos : Z
}.

Record fat32_dircur := Cur { c_cluster : Z; c_pos : Z; c_steps : Z }.

Record fat32_node := Node {
  n_info : fat32_info;
  chain_index : Z;
  chain_cluster : Z;
  rd_next : Z;
  rd_cur : fat32_dircur;
  rd_valid : bool;
  n_dirty : bool
}.

(** [vn.name] points into [vn.path]: [fv_name] is its offset. *)
Record fat32_vnode := Fv {
  fv_path : list Z;
  fv_name : nat;
  fv_dir : bool;               (* vn.type == VNODE_DIR *)
  fv_size : Z;
  fv_node : fat32_node;
  fv_opens : Z
}.

Record geo := Geo {
  readonly : bool;
  num_fats : Z;
  fat_size : Z;
  fat_active : Z;
  mirror : bool;
  fat0_lba : Z;
  fat_lba : Z;
  fsinfo_lba : Z;
  data_lba : Z;
  clusters : Z;
  root_cluster : Z;
  spc : Z;
  spc_shift : Z;
  entries_per_cluster : Z;
  label : list Z
}.

(** [open_list]: the open vnodes from the head of the list, each with its
    address. [g_clock] is the clock set by fat32_set_clock; its [n]-th call
    returns [clock n]. *)
Record fs (S : Type) := Fs {
  disk : S;
  free_count : Z;
  next_free : Z;
  fsinfo_dirty : bool;
  dir_busy : bool;
  open_list : list (nat * fat32_vnode);
  g_clock : option (nat -> Z * Z);
  ticks : nat
}.
Arguments Fs {S}.
Arguments disk {S}.
Arguments free_count {S}.
Arguments next_free {S}.
Arguments fsinfo_dirty {S}.
Arguments dir_busy {S}.
Arguments open_list {S}.
Arguments g_clock {S}.
Arguments ticks {S}.

(** ** The monad *)

Definition fatM (S A : Type) : Type := fs S -> fs S * (Z + A).
#[export] Instance fatM_ret S : MRet (fatM S) := fun _ a s => (s, inr a).
#[export] Instance fatM_bind S : MBind (fatM S) := fun _ _ k m s =>
  match m s with
  | (s, inl e) => (s, inl e)
  | (s, inr a) => k a s
  end.

Definition fail {S A} (e : Z) : fatM S A := fun s => (s, inl e).
Definition try_ {S A} (m : fatM S A) : fatM S (Z + A) := fun s => let '(s, r) := m s in (s, inr r).
Definition of_result {S A} (r : Z + A) : fatM S A := fun s => (s, r).
Definition get_st {S A} (f : fs S -> A) : fatM S A := fun s => (s, inr (f s)).
Definition modify {S} (f : fs S -> fs S) : fatM S unit := fun s => (f s, inr tt).

Section Setters.
Context {S : Type}.
Implicit Types s : fs S.

Definition set_disk (d : S) s := Fs d (free_count s) (next_free s) (fsinfo_dirty s) (dir_busy s) (open_list s) (g_clock s) (ticks s).
Definition set_free_count (x : Z) s := Fs (disk s) x (next_free s) (fsinfo_dirty s) (dir_busy s) (open_list s) (g_clock s) (ticks s).
Definition set_next_free (x : Z) s := Fs (disk s) (free_count s) x (fsinfo_dirty s) (dir_busy s) (open_list s) (g_clock s) (ticks s).
Definition set_fsinfo_dirty (x : bool) s := Fs (disk s) (free_count s) (next_free s) x (dir_busy s) (open_list s) (g_clock s) (ticks s).
Definition set_dir_busy (x : bool) s := Fs (disk s) (free_count s) (next_free s) (fsinfo_dirty s) x (open_list s) (g_clock s) (ticks s).
Definition set_open_list (x : list (nat * fat32_vnode)) s := Fs (disk s) (free_count s) (next_free s) (fsinfo_dirty s) (dir_busy s) x (g_clock s) (ticks s).
Definition set_clock (x : option (nat -> Z * Z)) s := Fs (disk s) (free_count s) (next_free s) (fsinfo_dirty s) (dir_busy s) (open_list s) x (ticks s).
Definition set_ticks (x : nat) s := Fs (disk s) (free_count s) (next_free s) (fsinfo_dirty s) (dir_busy s) (open_list s) (g_clock s) x.
End Setters.

(** ** Operations *)
Section Ops.
Context {S : Type} `{Disk S}.
Abbreviation M := (fatM S).

(** [bread]; [f] on the data; [bdirty] if it stores; [brelse]. *)
Definition with_sector {A} (lba : Z) (f : sector -> option sector * A) : M A :=
  fun s => let '(d, r) := dk_with lba f (disk s) in (set_disk d s, r).
Definition read_sector {A} (lba : Z) (f : sector -> A) : M A := with_sector lba (fun d => (None, f d)).
Definition store_sector (lba : Z) (f : sector -> sector) : M unit := with_sector lba (fun d => (Some (f d), tt)).
Definition new_sector (lba : Z) : M unit :=
  fun s => let '(d, r) := dk_new lba (disk s) in (set_disk d s, r).
Definition read_sectors (lba count : Z) : M (list sector) :=
  fun s => let '(d, r) := dk_read lba count (disk s) in (set_disk d s, r).
Definition write_sectors (lba : Z) (data : list sector) : M unit :=
  fun s => let '(d, r) := dk_write lba data (disk s) in (set_disk d s, r).
Definition flush_disk : M unit :=
  fun s => let '(d, r) := dk_flush (disk s) in (set_disk d s, r).

Definition fat32_set_clock (fn : option (nat -> Z * Z)) : fs S -> fs S := set_clock fn.

Definition fat_now : M (Z * Z) := fun s =>
  match g_clock s with
  | Some clock => (set_ticks (Datatypes.S (ticks s)) s, inr (clock (ticks s)))
  | None => (s, inr (u16 ((46 .<< 9) .| (1 .<< 5) .| 1), 0))
  end.

Section Volume.
Context (g : geo).

Definition cluster_lba (cluster : Z) : Z := data_lba g + (u32 (cluster - 2) .<< spc_shift g).

(** [Some next], or [None] at the end of the chain. *)
Definition fat_next (cluster : Z) : M (option Z) :=
  if (cluster <? 2) || (clusters g + 2 <=? cluster) then fail (- EIO)
  else
    value ← read_sector (fat_lba g + (cluster .>> 7)) (fun d => le32 d ((cluster .& 127) * 4) .& 0x0FFFFFFF);
    if FAT32_EOC_MIN <=? value then mret None
    else if (value <? 2) || (clusters g + 2 <=? value) then fail (- EIO)
    else mret (Some value).

(** The entries [i, i + n) of one sector of the FAT that are free clusters. *)
Fixpoint count_sector (n : nat) (i base end_ : Z) (d : sector) (count : Z) : Z :=
  match n with
  | O => count
  | Datatypes.S n' =>
      if base + i <? end_ then
        count_sector n' (i + 1) base end_ d
          (if base + i <? 2 then count
           else if le32 d (i * 4) .& 0x0FFFFFFF =? 0 then count + 1 else count)
      else count
  end.

Fixpoint count_loop (fuel : nat) (base count : Z) : M Z :=
  if base <? clusters g + 2 then
    match fuel with
    | O => fail 1
    | Datatypes.S fuel' =>
        count ← read_sector (fat_lba g + (base .>> 7)) (fun d => count_sector 128 0 base (clusters g + 2) d count);
        count_loop fuel' (base + 128) count
    end
  else mret count.

Definition fat_count_free : M Z := count_loop (Z.to_nat (clusters g)) 0 0.

Definition fat32_free_clusters : M Z :=
  known ← get_st free_count;
  if known =? FAT32_UNKNOWN then
    known ← fat_count_free;
    _ ← modify (fun s => if free_count s =? FAT32_UNKNOWN then set_free_count known s else s);
    mret known
  else mret known.

Definition put_entry (cluster value : Z) (d : sector) : sector :=
  let o := (cluster .& 127) * 4 in
  put32 o ((le32 d o .& 0xF0000000) .| (value .& 0x0FFFFFFF)) d.

Definition fat_put_copy (copy cluster value : Z) : M unit :=
  store_sector (fat0_lba g + copy * fat_size g + (cluster .>> 7)) (put_entry cluster value).

Fixpoint set_copies (copies : list Z) (cluster value : Z) : M unit :=
  match copies with
  | [] => mret tt
  | copy :: copies' => _ ← fat_put_copy copy cluster value; set_copies copies' cluster value
  end.

Definition fat_set (cluster value : Z) : M unit :=
  if (cluster <? 2) || (clusters g + 2 <=? cluster) then fail (- EIO)
  else if negb (mirror g) then fat_put_copy (fat_active g) cluster value
  else set_copies (seqZ 0 (num_fats g)) cluster value.

(** The first free entry among [first + i, first + i + n) of a FAT sector. *)
Fixpoint find_free (n : nat) (i first : Z) (d : sector) : option Z :=
  match n with
  | O => None
  | Datatypes.S n' => if le32 d ((first + i) * 4) .& 0x0FFFFFFF =? 0 then Some i else find_free n' (i + 1) first d
  end.

(** The scan of the sector under the lock: the free entry is marked in the
    buffer. *)
Definition reserve (cl span : Z) (d : sector) : option sector * option Z :=
  let first := cl .& 127 in
  match find_free (Z.to_nat span) 0 first d with
  | Some i => let o := (first + i) * 4 in (Some (put32 o ((le32 d o .& 0xF0000000) .| FAT32_EOC) d), Some (cl + i))
  | None => (None, None)
  end.

Fixpoint mirror_alloc (copies : list Z) (found : Z) : M unit :=
  match copies with
  | [] => mret tt
  | copy :: copies' =>
      if copy =? fat_active g then mirror_alloc copies' found
      else
        r ← try_ (fat_put_copy copy found FAT32_EOC);
        match r with
        | inl e =>
            _ ← try_ (fat_put_copy (fat_active g) found 0);
            _ ← modify (fun s => if negb (free_count s =? FAT32_UNKNOWN) then set_free_count (u32 (free_count s + 1)) s else s);
            fail e
        | inr _ => mirror_alloc copies' found
        end
  end.

Definition note_alloc (found : Z) (s : fs S) : fs S :=
  let s := if negb (free_count s =? FAT32_UNKNOWN) && negb (free_count s =? 0) then set_free_count (free_count s - 1) s else s in
  set_fsinfo_dirty true (set_next_free (if found + 1 <? clusters g + 2 then found + 1 else 2) s).

(** [fuel] is more than [remaining], and each turn takes at least one entry;
    running out of it is the result 1, which is no error code of the kernel. *)
Fixpoint alloc_loop (fuel : nat) (cl remaining : Z) : M Z :=
  match fuel with
  | O => fail 1
  | Datatypes.S fuel' =>
      if remaining =? 0 then fail (- ENOSPC)
      else
        let span := 128 - (cl .& 127) in
        let span := if remaining <? span then remaining else span in
        let span := if clusters g + 2 - cl <? span then clusters g + 2 - cl else span in
        found ← with_sector (fat_lba g + (cl .>> 7)) (reserve cl span);
        match found with
        | Some found =>
            _ ← modify (note_alloc found);
            _ ← (if mirror g then mirror_alloc (seqZ 0 (num_fats g)) found else mret tt);
            mret found
        | None =>
            let cl := cl + span in
            alloc_loop fuel' (if clusters g + 2 <=? cl then 2 else cl) (remaining - span)
        end
  end.

Definition cluster_alloc : M Z :=
  if readonly g then fail (- EROFS)
  else
    cl ← get_st next_free;
    let cl := if (cl <? 2) || (clusters g + 2 <=? cl) then 2 else cl in
    alloc_loop (Datatypes.S (Z.to_nat (clusters g))) cl (clusters g).

(** The loop of cluster_free_chain: clusters freed, the lowest of them, and
    the error that stopped it (0 for none). *)
Fixpoint free_loop (fuel : nat) (cl freed lowest : Z) : M (Z * Z * Z) :=
  if (2 <=? cl) && (cl <? clusters g + 2) then
    match fuel with
    | O => mret (freed, lowest, - EIO)
    | Datatypes.S fuel' =>
        if clusters g <=? freed then mret (freed, lowest, - EIO)
        else
          link ← try_ (fat_next cl);
          result ← try_ (fat_set cl 0);
          match result with
          | inl e => mret (freed, lowest, e)
          | inr _ =>
              let freed := freed + 1 in
              let lowest := if cl <? lowest then cl else lowest in
              match link with
              | inl e => mret (freed, lowest, e)
              | inr None => mret (freed, lowest, 0)
              | inr (Some next) => free_loop fuel' next freed lowest
              end
          end
    end
  else mret (freed, lowest, 0).

Definition note_free (freed lowest : Z) (s : fs S) : fs S :=
  let s := if negb (free_count s =? FAT32_UNKNOWN) then
             let c := u32 (free_count s + freed) in
             set_free_count (if clusters g <? c then clusters g else c) s
           else s in
  let s := if lowest <? next_free s then set_next_free lowest s else s in
  set_fsinfo_dirty true s.

Definition cluster_free_chain (first : Z) : M unit :=
  r ← free_loop (Datatypes.S (Z.to_nat (clusters g))) first 0 0xFFFFFFFF;
  let '(freed, lowest, error) := r in
  _ ← (if negb (freed =? 0) then modify (note_free freed lowest) else mret tt);
  if error <? 0 then fail error else mret tt.

Fixpoint zero_sectors (lbas : list Z) : M unit :=
  match lbas with
  | [] => mret tt
  | lba :: lbas' => _ ← new_sector lba; zero_sectors lbas'
  end.

Definition cluster_zero (cluster : Z) : M unit := zero_sectors (seqZ (cluster_lba cluster) (spc g)).

Definition chain_grow (prev : Z) (zero : bool) : M Z :=
  fresh ← cluster_alloc;
  result ← try_ (_ ← (if zero then cluster_zero fresh else mret tt);
                 if negb (prev =? 0) then fat_set prev fresh else mret tt);
  match result with
  | inl e => _ ← try_ (cluster_free_chain fresh); fail e
  | inr _ => mret fresh
  end.
End Volume.

(** *** Mount *)

(** [while (length && p[length - 1] == ' ') length--] *)
Fixpoint trim_len (length : nat) (d : list Z) (o : Z) : nat :=
  match length with
  | O => O
  | Datatypes.S n => if byte_at d (o + Z.of_nat n) =? 32 then trim_len n d o else length
  end.

Definition label_of (bs : sector) : list Z :=
  if byte_at bs 66 =? 0x29 then
    (fun i => let c := byte_at bs (71 + i) in if (0x20 <=? c) && (c <? 0x7F) then c else 63)
      <$> seqZ 0 (Z.of_nat (trim_len 11 bs 71))
  else [].

(** [while ((1u << shift) < spc) shift++], for [spc] at most 128. *)
Fixpoint shift_of (fuel : nat) (shift spc : Z) : Z :=
  match fuel with
  | O => shift
  | Datatypes.S k => if (1 .<< shift) <? spc then shift_of k (shift + 1) spc else shift
  end.

(** The checks of the boot sector, in the order of the code, and the fields
    computed from it; FSInfo is read later. *)
Definition parse_boot (bs : sector) (sectors : Z) (ro : bool) : Z + (geo * Z) :=
  if negb (byte_at bs 510 =? 0x55) || negb (byte_at bs 511 =? 0xAA) then inl (- EINVAL)
  else if negb (le16 bs 11 =? BLK_SECTOR_SIZE) then inl (- EINVAL)
  else
  let spc := byte_at bs 13 in
  if (spc =? 0) || negb (spc .& (spc - 1) =? 0) || (128 <? spc) then inl (- EINVAL)
  else
  let reserved := le16 bs 14 in
  let nfats := byte_at bs 16 in
  if (reserved =? 0) || (nfats =? 0) || (4 <? nfats) then inl (- EINVAL)
  else if negb (le16 bs 17 =? 0) || negb (le16 bs 22 =? 0) then inl (- EINVAL)
  else
  let total := if negb (le16 bs 19 =? 0) then le16 bs 19 else le32 bs 32 in
  let fat_size := le32 bs 36 in
  let ext_flags := le16 bs 40 in
  let root := le32 bs 44 in
  if (total =? 0) || (fat_size =? 0) then inl (- EINVAL)
  else if sectors <? total then inl (- EINVAL)
  else
  let meta := reserved + nfats * fat_size in
  if total <=? meta then inl (- EINVAL)
  else
  let shift := shift_of 8 0 spc in
  let clusters := (total - u32 meta) .>> shift in
  if clusters <? FAT32_MIN_CLUSTERS then inl (- EINVAL)
  else
  let clusters := if FAT32_MAX_CLUSTERS <? clusters then FAT32_MAX_CLUSTERS else clusters in
  if fat_size * 128 <? clusters + 2 then inl (- EINVAL)
  else if (root <? 2) || (clusters + 2 <=? root) then inl (- EINVAL)
  else
  let one := negb (ext_flags .& 0x80 =? 0) in
  let active := if one then ext_flags .& 0x0F else 0 in
  if one && (nfats <=? active) then inl (- EINVAL)
  else
    let fsinfo := le16 bs 48 in
    inr (Geo ro nfats fat_size active (negb one) reserved (reserved + active * fat_size) 0 meta clusters root
           spc shift (spc * 16) (label_of bs),
         if (1 <=? fsinfo) && (fsinfo <? reserved) then fsinfo else 0).

Definition set_fsinfo_lba (l : Z) (g : geo) : geo :=
  Geo (readonly g) (num_fats g) (fat_size g) (fat_active g) (mirror g) (fat0_lba g) (fat_lba g) l (data_lba g)
      (clusters g) (root_cluster g) (spc g) (spc_shift g) (entries_per_cluster g) (label g).

(** What the FSInfo sector gives: [None] without its signatures, else the
    free count and the allocation hint. *)
Definition parse_fsinfo (g : geo) (f : sector) : option (Z * Z) :=
  if (le32 f 0 =? 0x41615252) && (le32 f 484 =? 0x61417272) && (le32 f 508 =? 0xAA550000) then
    let fc := le32 f 488 in
    let nf := le32 f 492 in
    Some (if fc <=? clusters g then fc else FAT32_UNKNOWN, if (2 <=? nf) && (nf <? clusters g + 2) then nf else 2)
  else None.

Definition fat32_mount (mem_ok : bool) (clock : option (nat -> Z * Z)) (n : nat) (d : S) : S * (Z + (geo * fs S)) :=
  match dk_with 0 (fun bs => (None, bs)) d with
  | (d, inl e) => (d, inl e)
  | (d, inr bs) =>
      match parse_boot bs dk_sectors dk_readonly with
      | inl e => (d, inl e)
      | inr (g, fsinfo) =>
          if negb mem_ok then (d, inl (- ENOMEM))
          else
            let '(d, info) := if fsinfo =? 0 then (d, None)
                              else match dk_with fsinfo (fun f => (None, parse_fsinfo g f)) d with
                                   | (d, inr x) => (d, x)
                                   | (d, inl _) => (d, None)
                                   end in
            let g := match info with Some _ => set_fsinfo_lba fsinfo g | None => g end in
            let '(fc, nf) := default (FAT32_UNKNOWN, 2) info in
            let s := Fs d fc nf false false [] clock n in
            if (free_count s =? FAT32_UNKNOWN) && negb (readonly g) then
              match fat_count_free g s with
              | (s, inl e) => (disk s, inl e)
              | (s, inr c) =>
                  let s := set_fsinfo_dirty (negb (fsinfo_lba g =? 0)) (set_free_count c s) in
                  (disk s, inr (g, s))
              end
            else (d, inr (g, s))
      end
  end.

(** *** Sync and unmount *)
Definition fat32_sync (g : geo) : M unit :=
  if readonly g then mret tt
  else
    dirty ← get_st fsinfo_dirty;
    fc ← get_st free_count;
    nf ← get_st next_free;
    _ ← modify (set_fsinfo_dirty false);
    _ ← (if dirty && negb (fsinfo_lba g =? 0) then
           r ← try_ (store_sector (fsinfo_lba g) (fun d => put32 492 nf (put32 488 fc d)));
           match r with
           | inl e => _ ← modify (set_fsinfo_dirty true); fail e
           | inr _ => mret tt
           end
         else mret tt);
    flush_disk.

Definition fat32_unmount (g : geo) : M unit :=
  opens ← get_st (fun s => Z.of_nat (length (open_list s)));
  if negb (opens =? 0) then fail (- EBUSY) else fat32_sync g.

Definition fat32_label (g : option geo) : list Z := match g with Some g => label g | None => [] end.
Definition fat32_cluster_count (g : option geo) : Z := match g with Some g => clusters g | None => 0 end.
Definition fat32_cluster_size (g : option geo) : Z := match g with Some g => spc g * BLK_SECTOR_SIZE | None => 0 end.
Definition fat32_readonly (g : option geo) : bool := match g with Some g => readonly g | None => true end.
End Ops.
