(* ===== verification/FatTab.v ===== *)
(** * The allocation table of fat32.c: specifications

    [wp m s Q]: running [m] from [s] ends in a state and a result that satisfy
    [Q]; the rules follow the code. On them, for a volume whose geometry is
    the one fat32_mount accepts ([geo_ok]): what each table operation does to
    the entries ([fat_raw], [fat]) and to every other sector, with and
    without disk errors. *)
From S2P Require Import Prelude CString Blk Disk Fat.

Open Scope tach_scope.

(** ** Weakest preconditions *)
Section Wp.
Context {S : Type}.

Definition wp {A} (m : fatM S A) (s : fs S) (Q : fs S -> Z + A -> Prop) : Prop := Q (m s).1 (m s).2.

Lemma wp_mono {A} (m : fatM S A) s (Q Q' : fs S -> Z + A -> Prop) : wp m s Q -> (forall s' r, Q s' r -> Q' s' r) -> wp m s Q'.
Proof. unfold wp. auto. Qed.

Lemma wp_bind {A B} (m : fatM S A) (k : A -> fatM S B) s Q :
  wp m s (fun s' r => match r with inl e => Q s' (inl e) | inr a => wp (k a) s' Q end) -> wp (m ≫= k) s Q.
Proof. unfold wp, mbind, fatM_bind. destruct (m s) as [s' [e|a]]; done. Qed.

Lemma wp_assoc {A B C} (m : fatM S A) (k : A -> fatM S B) (h : B -> fatM S C) s Q :
  wp ((m ≫= k) ≫= h) s Q -> wp (m ≫= fun a => k a ≫= h) s Q.
Proof. unfold wp, mbind, fatM_bind. by destruct (m s) as [s' [e|a]]. Qed.

Lemma wp_ret {A} (a : A) s (Q : fs S -> Z + A -> Prop) : Q s (inr a) -> wp (mret a) s Q.
Proof. done. Qed.
Lemma wp_fail {A} e s (Q : fs S -> Z + A -> Prop) : Q s (inl e) -> wp (fail e) s Q.
Proof. done. Qed.
Lemma wp_try {A} (m : fatM S A) s Q : wp m s (fun s' r => Q s' (inr r)) -> wp (try_ m) s Q.
Proof. unfold wp, try_. by destruct (m s). Qed.
Lemma wp_get {A} (f : fs S -> A) s Q : Q s (inr (f s)) -> wp (get_st f) s Q.
Proof. done. Qed.
Lemma wp_modify f (s : fs S) Q : Q (f s) (inr tt) -> wp (modify f) s Q.
Proof. done. Qed.
Lemma wp_run {A} (m : fatM S A) s (Q : fs S -> Z + A -> Prop) : wp m s Q -> forall s' r, m s = (s', r) -> Q s' r.
Proof. unfold wp. intros H s' r E. by rewrite E in H. Qed.
End Wp.

(** One step of the code: a bind, a return, a guard. *)
Ltac wp_step :=
  match goal with
  | |- wp (mbind _ _) _ _ => apply wp_bind
  | |- wp (mret _) _ _ => apply wp_ret
  | |- wp (fail _) _ _ => apply wp_fail
  | |- wp (try_ _) _ _ => apply wp_try
  | |- wp (get_st _) _ _ => apply wp_get
  | |- wp (modify _) _ _ => apply wp_modify
  end.
Tactic Notation "wp_apply" uconstr(l) := eapply wp_mono; [eapply l|].

Section Table.
Context {S : Type} `{DiskOk S} (g : geo).
Implicit Types s : fs S.
Abbreviation view_ s := (dk_view (disk s)).

(** The layout: the copies of the table, then the clusters, all inside the
    device, and the table has an entry for every cluster. *)
Record geo_ok : Prop := {
  go_fats : 1 <= num_fats g;
  go_active : 0 <= fat_active g < num_fats g;
  go_one : mirror g = true -> fat_active g = 0;
  go_fat0 : 1 <= fat0_lba g;
  go_lba : fat_lba g = fat0_lba g + fat_active g * fat_size g;
  go_data : data_lba g = fat0_lba g + num_fats g * fat_size g;
  go_clusters : 1 <= clusters g <= FAT32_MAX_CLUSTERS;
  go_cover : clusters g + 2 <= fat_size g * 128;
  go_spc : 0 <= spc_shift g <= 7 /\ spc g = 2 ^ spc_shift g;
  go_fits : data_lba g + clusters g * spc g <= dk_sectors;
  go_root : 2 <= root_cluster g < clusters g + 2;
  go_epc : entries_per_cluster g = spc g * 16;
  go_fsinfo : 0 <= fsinfo_lba g < fat0_lba g;
  go_ro : readonly g = dk_readonly
}.

Definition in_vol (c : Z) : Prop := 2 <= c < clusters g + 2.
Definition is_copy (k : Z) : Prop := 0 <= k < num_fats g.

Definition fat_sector (copy c : Z) : Z := fat0_lba g + copy * fat_size g + (c .>> 7).
(** The 32-bit entry of [c] in a copy, and its 28 bits in the active one. *)
Definition fat_raw s (copy c : Z) : Z := le32 (view_ s (fat_sector copy c)) ((c .& 127) * 4).
Definition ent s (copy c : Z) : Z := fat_raw s copy c .& 0x0FFFFFFF.
Definition fat s (c : Z) : Z := ent s (fat_active g) c.

(** Sectors that are not of the table. *)
Definition outside (l : Z) : Prop := ~ (fat0_lba g <= l < data_lba g).
Definition same_rest s s' : Prop := forall l, outside l -> view_ s' l = view_ s l.
Definition same_view s s' : Prop := forall l, view_ s' l = view_ s l.

(** The invariant of the mutable part of the volume. *)
Record fs_inv s : Prop := {
  fi_disk : dk_inv (disk s);
  fi_free : 0 <= free_count s <= clusters g \/ free_count s = FAT32_UNKNOWN;
  fi_next : in_vol (next_free s)
}.

Context (Hg : geo_ok).

Lemma shr7 c : c .>> 7 = c / 128.
Proof. by rewrite Z.shiftr_div_pow2. Qed.
Lemma and127 c : c .& 127 = c mod 128.
Proof. apply (land_low_mask c 7). lia. Qed.

Lemma mask28 x : 0 <= x .& 0x0FFFFFFF < 2 ^ 28.
Proof. change 0x0FFFFFFF with (2 ^ 28 - 1). rewrite land_low_mask by lia. apply Z.mod_pos_bound. lia. Qed.

Lemma fat_sector_in copy c : is_copy copy -> in_vol c -> fat0_lba g <= fat_sector copy c < data_lba g.
Proof.
  intros Hc Hv. destruct Hg. unfold is_copy, in_vol, fat_sector in *. rewrite shr7.
  assert (0 <= c / 128 < fat_size g) by dlia. nia.
Qed.

Lemma fat_sector_dev copy c : is_copy copy -> in_vol c -> 0 <= fat_sector copy c < dk_sectors.
Proof.
  intros Hc Hv. pose proof (fat_sector_in copy c Hc Hv). destruct Hg. destruct go_spc0 as [? E].
  pose proof (Z.pow_pos_nonneg 2 (spc_shift g) ltac:(lia) ltac:(lia)). nia.
Qed.

Lemma fat_sector_inj k k' c c' : is_copy k -> is_copy k' -> in_vol c -> in_vol c' -> fat_sector k c = fat_sector k' c' -> k = k' /\ c / 128 = c' / 128.
Proof.
  intros Hk Hk' Hv Hv' E. destruct Hg. unfold is_copy, in_vol, fat_sector in *. rewrite !shr7 in E.
  assert (0 <= c / 128 < fat_size g) by dlia. assert (0 <= c' / 128 < fat_size g) by dlia.
  assert (k = k') as -> by nia. lia.
Qed.

(** *** One entry of one copy *)
Definition merge (old value : Z) : Z := (old .& 0xF0000000) .| (value .& 0x0FFFFFFF).

Lemma merge_eq old value : merge old value = value mod 2 ^ 28 + ((old / 2 ^ 28) mod 16) * 2 ^ 28.
Proof.
  unfold merge. rewrite Z.lor_comm.
  assert (Hv : value .& 0x0FFFFFFF = value mod 2 ^ 28) by (apply (land_low_mask value 28); lia).
  assert (Ho : old .& 0xF0000000 = ((old / 2 ^ 28) mod 16) .<< 28).
  { change 16 with (2 ^ 4). rewrite <- (land_low_mask _ 4), <- Z.shiftr_div_pow2 by lia.
    change 0xF0000000 with (15 .<< 28). change (2 ^ 4 - 1) with 15. apply Z.bits_inj'. intros n Hn. rewrite Z.land_spec.
    destruct (Z_lt_le_dec n 28).
    - rewrite !Z.shiftl_spec_low by lia. apply andb_false_r.
    - rewrite !Z.shiftl_spec_high, Z.land_spec, Z.shiftr_spec by lia. do 2 f_equal. lia. }
  rewrite Hv, Ho. apply lor_add; [lia|]. apply Z.mod_pos_bound. lia.
Qed.

Lemma merge_u32 old value : is_u32 (merge old value).
Proof.
  rewrite merge_eq. unfold is_u32. pose proof (Z.mod_pos_bound value (2 ^ 28)). pose proof (Z.mod_pos_bound (old / 2 ^ 28) 16). lia.
Qed.

Lemma merge_low old value : merge old value .& 0x0FFFFFFF = value .& 0x0FFFFFFF.
Proof.
  change 0x0FFFFFFF with (2 ^ 28 - 1). rewrite !land_low_mask, merge_eq by lia. rewrite Z.mod_add by lia. by rewrite Z.mod_mod by lia.
Qed.

Lemma put_entry_sector c v d : is_sector d -> is_sector (put_entry c v d).
Proof. unfold is_sector, put_entry. by rewrite length_put32. Qed.

Lemma put_entry_at c c' v d : is_sector d ->
  le32 (put_entry c v d) ((c' .& 127) * 4) = if c' mod 128 =? c mod 128 then merge (le32 d ((c .& 127) * 4)) v else le32 d ((c' .& 127) * 4).
Proof.
  unfold is_sector, put_entry, BLK_SECTOR_SIZE. intros Hd. rewrite !and127.
  pose proof (Z.mod_pos_bound c 128). pose proof (Z.mod_pos_bound c' 128). destruct (Z.eqb_spec (c' mod 128) (c mod 128)) as [->|Hne].
  - rewrite le32_put32 by lia. apply u32_small, merge_u32.
  - apply le32_put32_ne; lia.
Qed.

(** Entry [c] of the copies in [ks] is [merge]d with [v]; every other entry
    and everything outside the table is as before. *)
Definition entry_set (ks : Z -> Prop) `{!forall k, Decision (ks k)} (c v : Z) s s' : Prop :=
  same_rest s s' /\
  forall k c', is_copy k -> in_vol c' ->
    fat_raw s' k c' = if decide (ks k /\ c' = c) then merge (fat_raw s k c) v else fat_raw s k c'.

Lemma with_sector_wp {A} lba (f : sector -> option sector * A) s :
  dk_inv (disk s) -> 0 <= lba -> (forall d d', is_sector d -> (f d).1 = Some d' -> is_sector d') ->
  wp (with_sector lba f) s (fun s' r => exists d, s' = set_disk d s /\ dk_inv d /\
    match r with
    | inl e => e < 0 /\ same_view s s' /\ (lba < dk_sectors -> ~ dk_reliable)
    | inr a => lba < dk_sectors /\ a = (f (view_ s lba)).2 /\
        forall l, view_ s' l = if l =? lba then default (view_ s lba) (f (view_ s lba)).1 else view_ s l
    end).
Proof.
  intros Hi Hl Hf. unfold wp, with_sector. destruct (dk_with lba f (disk s)) as [d r] eqn:E.
  destruct (dk_with_ok _ _ _ _ _ E Hi Hl Hf) as [Hi' Hr]. simpl. exists d. split_and!; [done|done|]. by destruct r.
Qed.

Lemma read_sector_wp {A} lba (f : sector -> A) s :
  dk_inv (disk s) -> 0 <= lba ->
  wp (read_sector lba f) s (fun s' r => exists d, s' = set_disk d s /\ dk_inv d /\ same_view s s' /\
    match r with
    | inl e => e < 0 /\ (lba < dk_sectors -> ~ dk_reliable)
    | inr a => lba < dk_sectors /\ a = f (view_ s lba)
    end).
Proof.
  intros Hi Hl. eapply wp_mono; [apply with_sector_wp; try done|]. intros s' r (d & -> & Hd & Hr). exists d. split_and!; [done|done| |].
  - destruct r; [apply Hr|]. intros l. destruct Hr as (_ & _ & ->). simpl. by destruct (Z.eqb_spec l lba) as [->|].
  - destruct r; [|destruct Hr as (?&?&_); done]. destruct Hr as (?&_&?). done.
Qed.

Lemma put_entry_set copy c v s d :
  dk_inv (disk s) -> is_copy copy -> in_vol c ->
  (forall l, dk_view d l = if l =? fat_sector copy c then put_entry c v (view_ s (fat_sector copy c)) else view_ s l) ->
  entry_set (fun k => k = copy) c v s (set_disk d s).
Proof.
  intros Hi Hk Hc Hv. pose proof (fat_sector_in copy c Hk Hc) as Hin. split.
  - intros l Hl. cbn. rewrite Hv. by destruct (Z.eqb_spec l (fat_sector copy c)) as [->|Hne]; [destruct Hl|].
  - intros k c' Hk' Hc'. unfold fat_raw at 1. cbn. rewrite Hv.
    destruct (Z.eqb_spec (fat_sector k c') (fat_sector copy c)) as [E|Hne].
    + destruct (fat_sector_inj _ _ _ _ Hk' Hk Hc' Hc E) as [-> Hdiv]. rewrite put_entry_at by (by apply dk_view_sector).
      destruct (Z.eqb_spec (c' mod 128) (c mod 128)) as [Em|Hm].
      * assert (c' = c) as -> by dlia. by rewrite decide_True.
      * rewrite decide_False by (intros [_ ->]; done). unfold fat_raw. by rewrite E.
    + rewrite decide_False; [done|]. by intros [-> ->].
Qed.

Lemma fat_put_copy_wp copy c v s :
  dk_inv (disk s) -> is_copy copy -> in_vol c ->
  wp (fat_put_copy g copy c v) s (fun s' r => exists d, s' = set_disk d s /\ dk_inv d /\
    match r with
    | inl e => e < 0 /\ same_view s s' /\ ~ dk_reliable
    | inr _ => entry_set (fun k => k = copy) c v s s'
    end).
Proof.
  intros Hi Hk Hc. pose proof (fat_sector_dev copy c Hk Hc) as Hdev.
  eapply wp_mono; [apply with_sector_wp; [done|apply Hdev|]|].
  { intros d d' Hd E. simplify_eq/=. by apply put_entry_sector. }
  intros s' r (d & -> & Hd & Hr). exists d. split_and!; [done|done|]. destruct r as [e|[]].
  { destruct Hr as (He & Hv & Hrel). split_and!; [done|done|]. apply Hrel, Hdev. }
  destruct Hr as (_ & _ & Hv). by apply put_entry_set.
Qed.

Lemma merge_merge old v v' : merge (merge old v) v' = merge old v'.
Proof.
  rewrite (merge_eq (merge old v)), (merge_eq old v'), merge_eq. f_equal. f_equal.
  rewrite Z.div_add by lia. rewrite Z.div_small by (apply Z.mod_pos_bound; lia). rewrite Z.add_0_l. by rewrite Z.mod_mod.
Qed.

(** *** All copies *)
Lemma entry_set_none c v s : entry_set (fun k => k ∈ @nil Z) c v s s.
Proof. split; [done|]. intros k c' _ _. rewrite decide_False; [done|]. intros [Hk _]. by apply elem_of_nil in Hk. Qed.

Lemma entry_set_cons copy ks c v s s1 s2 :
  entry_set (fun k => k = copy) c v s s1 -> entry_set (fun k => k ∈ ks) c v s1 s2 -> entry_set (fun k => k ∈ copy :: ks) c v s s2.
Proof.
  intros [R1 E1] [R2 E2]. split; [intros l Hl; by rewrite R2, R1|]. intros k c' Hk Hc. rewrite E2 by done.
  destruct (decide (k ∈ ks /\ c' = c)) as [[Hin ->]|Hn].
  - rewrite decide_True by (split; [by right|done]). rewrite E1 by done. destruct (decide _) as [_|Hn]; [by rewrite merge_merge|done].
  - rewrite E1 by done. destruct (decide (k = copy /\ c' = c)) as [[-> ->]|Hn2].
    + by rewrite decide_True by (split; [by left|done]).
    + rewrite decide_False; [done|]. intros [[->|Hin]%elem_of_cons ->]; [by apply Hn2|by apply Hn].
Qed.

Lemma set_copies_wp copies c v s :
  dk_inv (disk s) -> Forall is_copy copies -> in_vol c ->
  wp (set_copies g copies c v) s (fun s' r => exists d ks, s' = set_disk d s /\ dk_inv d /\ ks ⊆ copies /\
    entry_set (fun k => k ∈ ks) c v s s' /\
    match r with inl e => e < 0 /\ ~ dk_reliable | inr _ => ks = copies end).
Proof.
  intros Hi Hks Hc. revert s Hi. induction Hks as [|copy copies Hk Hks IH]; intros s Hi; cbn [set_copies].
  { apply wp_ret. exists (disk s), []. destruct s. split_and!; [done|done|done|apply entry_set_none|done]. }
  apply wp_bind. wp_apply (fat_put_copy_wp copy c v s Hi Hk Hc). intros s1 r (d1 & -> & Hd1 & Hr). destruct r as [e|u].
  { destruct Hr as (He & Hv & Hrel). exists d1, []. split_and!; [done|done|apply list_subseteq_nil| |done|done].
    split; [intros l _; apply Hv|]. intros k c' _ _. rewrite decide_False by (intros [Hx _]; by apply elem_of_nil in Hx).
    unfold fat_raw. by rewrite Hv. }
  wp_apply (IH (set_disk d1 s) Hd1). intros s2 r (d2 & ks & -> & Hd2 & Hsub & Hset & Hr2). exists d2, (copy :: ks).
  split_and!; [done|done|by apply list_subseteq_skip|by eapply entry_set_cons|]. destruct r; [done|]. by rewrite Hr2.
Qed.

Definition mirrored s : Prop := mirror g = true -> forall k c, is_copy k -> in_vol c -> ent s k c = fat s c.

Lemma ent_of_set ks `{!forall k, Decision (ks k)} c v s s' k c' :
  entry_set ks c v s s' -> is_copy k -> in_vol c' ->
  ent s' k c' = if decide (ks k /\ c' = c) then v .& 0x0FFFFFFF else ent s k c'.
Proof.
  intros [_ E] Hk Hc. unfold ent. rewrite E by done. destruct (decide _) as [[_ ->]|]; [apply merge_low|done].
Qed.

Lemma active_copy : is_copy (fat_active g).
Proof. destruct Hg. exact go_active0. Qed.

Definition is28 (v : Z) : Prop := 0 <= v < 2 ^ 28.
Lemma is28_mask v : is28 v -> v .& 0x0FFFFFFF = v.
Proof. intros Hv. change 0x0FFFFFFF with (2 ^ 28 - 1). rewrite land_low_mask by lia. by apply Z.mod_small. Qed.

(** Entry [c] becomes [v] in the active copy, and in all of them when the
    table is mirrored. *)
Lemma fat_set_wp c v s :
  dk_inv (disk s) -> in_vol c -> is28 v ->
  wp (fat_set g c v) s (fun s' r => exists d, s' = set_disk d s /\ dk_inv d /\ same_rest s s' /\
    (forall c', in_vol c' -> c' <> c -> fat s' c' = fat s c') /\
    match r with
    | inl e => e < 0 /\ ~ dk_reliable /\ (fat s' c = fat s c \/ fat s' c = v)
    | inr _ => fat s' c = v /\ (mirrored s -> mirrored s')
    end).
Proof.
  intros Hi Hc Hv28. pose proof active_copy as Ha. unfold fat_set.
  destruct ((c <? 2) || (clusters g + 2 <=? c)) eqn:Eb; [unfold in_vol in Hc; lia|]. clear Eb.
  destruct (mirror g) eqn:Em; simpl negb; cbv iota.
  - assert (Hall : Forall is_copy (seqZ 0 (num_fats g))).
    { apply Forall_forall. intros k Hk%elem_of_seqZ. unfold is_copy. lia. }
    wp_apply (set_copies_wp _ c v s Hi Hall Hc). intros s' r (d & ks & -> & Hd & Hsub & Hset & Hr). exists d.
    pose proof (fun k c' => ent_of_set _ _ _ _ _ k c' Hset) as He.
    split_and!; [done|done|apply Hset| |].
    { intros c' Hc' Hne. unfold fat. rewrite He by done. by rewrite decide_False by (by intros [_ ?]). }
    destruct r as [e|u].
    + destruct Hr as [Hneg Hrel]. split_and!; [done|done|]. unfold fat. rewrite He by done. rewrite is28_mask by done. destruct (decide _); auto.
    + subst ks. assert (Hin : forall k, is_copy k -> k ∈ seqZ 0 (num_fats g)) by (intros k Hk; apply elem_of_seqZ; unfold is_copy in Hk; lia).
      split.
      * unfold fat. rewrite He by done. rewrite decide_True by (split; [by apply Hin|done]). by apply is28_mask.
      * intros Hm _ k c' Hk Hc'. unfold fat. rewrite !He by done. specialize (Hin k Hk) as Hk2. specialize (Hin _ Ha) as Ha2.
        destruct (decide (k ∈ _ /\ c' = c)) as [[_ ->]|Hn].
        -- by rewrite decide_True by done.
        -- rewrite decide_False by (intros [_ ->]; by apply Hn). by apply Hm.
  - wp_apply (fat_put_copy_wp _ c v s Hi Ha Hc). intros s' r (d & -> & Hd & Hr). exists d. destruct r as [e|u].
    + destruct Hr as (Hneg & Hv & Hrel). unfold fat, ent, fat_raw. split_and!; try done; try (intros; by rewrite Hv); [intros l _; apply Hv|].
      left. by rewrite Hv.
    + pose proof (fun k c' => ent_of_set _ _ _ _ _ k c' Hr) as He. split_and!; [done|done|apply Hr| | |].
      * intros c' Hc' Hne. unfold fat. rewrite He by done. by rewrite decide_False by (by intros [_ ?]).
      * unfold fat. rewrite He, decide_True by done. by apply is28_mask.
      * intros _ ?. congruence.
Qed.

(** What the entry of [c] says: the next cluster, or the end. *)
Definition linked s (c : Z) (o : option Z) : Prop :=
  match o with
  | None => FAT32_EOC_MIN <= fat s c
  | Some n => fat s c = n /\ in_vol n
  end.

Lemma fat_active_sector c : fat_lba g + (c .>> 7) = fat_sector (fat_active g) c.
Proof. destruct Hg. unfold fat_sector. lia. Qed.

Lemma fat_next_wp c s :
  dk_inv (disk s) -> in_vol c ->
  wp (fat_next g c) s (fun s' r => exists d, s' = set_disk d s /\ dk_inv d /\ same_view s s' /\
    match r with
    | inl e => e < 0 /\ (dk_reliable -> forall o, ~ linked s c o)
    | inr o => linked s c o
    end).
Proof.
  intros Hi Hc. unfold fat_next. destruct ((c <? 2) || (clusters g + 2 <=? c)) eqn:Eb; [unfold in_vol in Hc; lia|]. clear Eb.
  pose proof (fat_sector_dev _ c active_copy Hc) as Hdev. rewrite fat_active_sector.
  apply wp_bind. wp_apply (read_sector_wp _ _ s Hi (proj1 Hdev)). intros s' r (d & -> & Hd & Hsv & Hr). destruct r as [e|v].
  { exists d. destruct Hr as [He Hrel]. split_and!; try done. intros Hrl. by destruct (Hrel (proj2 Hdev)). }
  destruct Hr as [_ ->]. change (le32 _ _ .& _) with (fat s c).
  destruct (Z.leb_spec FAT32_EOC_MIN (fat s c)).
  { apply wp_ret. by exists d. }
  destruct ((fat s c <? 2) || (clusters g + 2 <=? fat s c)) eqn:Eb.
  - apply wp_fail. exists d. split_and!; try done. intros _ [n|] Hl; simpl in Hl; [|lia]. unfold in_vol in Hl. lia.
  - apply wp_ret. exists d. split_and!; try done. simpl. unfold in_vol. split; [done|lia].
Qed.

Lemma linked_fun s c o o' : linked s c o -> linked s c o' -> o = o'.
Proof.
  pose proof (go_clusters Hg) as Hn. unfold FAT32_MAX_CLUSTERS in Hn. unfold linked, in_vol, FAT32_EOC_MIN.
  destruct o, o'; intros; try done; [|lia|lia]. f_equal. lia.
Qed.

(** *** Allocation *)

(** The fields the table operations never touch. *)
Definition frame s s' : Prop :=
  dir_busy s' = dir_busy s /\ open_list s' = open_list s /\ g_clock s' = g_clock s.

#[export] Instance frame_trans : PreOrder frame.
Proof. split; [by intros s|]. unfold frame. intros s1 s2 s3 (?&?&?) (?&?&?). split_and!; congruence. Qed.
#[local] Instance same_rest_pre : PreOrder same_rest.
Proof. split; [by intros s|]. intros s1 s2 s3 H1 H2 l Hl. by rewrite H2, H1. Qed.

Lemma find_free_spec n i first d :
  match find_free n i first d with
  | Some k => i <= k < i + Z.of_nat n /\ le32 d ((first + k) * 4) .& 0x0FFFFFFF = 0
  | None => forall k, i <= k < i + Z.of_nat n -> le32 d ((first + k) * 4) .& 0x0FFFFFFF <> 0
  end.
Proof.
  revert i. induction n as [|n IH]; intros i; cbn [find_free]; [lia|].
  destruct (Z.eqb_spec (le32 d ((first + i) * 4) .& 0x0FFFFFFF) 0) as [E|Hne]; [split; [lia|done]|].
  specialize (IH (i + 1)). destruct (find_free n (i + 1) first d) as [k|]; [destruct IH; split; [lia|done]|].
  intros k Hk. destruct (decide (k = i)) as [->|]; [done|apply IH; lia].
Qed.

(** The scan of the [span] entries from [cl], which lie in one sector. *)
Lemma reserve_wp cl span s :
  dk_inv (disk s) -> in_vol cl -> 0 < span <= 128 - cl mod 128 -> cl + span <= clusters g + 2 ->
  wp (with_sector (fat_lba g + (cl .>> 7)) (reserve cl span)) s (fun s' r => exists d, s' = set_disk d s /\ dk_inv d /\
    match r with
    | inl e => e < 0 /\ same_view s s' /\ ~ dk_reliable
    | inr None => same_view s s' /\ forall c, cl <= c < cl + span -> fat s c <> 0
    | inr (Some c) => cl <= c < cl + span /\ fat s c = 0 /\ entry_set (fun k => k = fat_active g) c FAT32_EOC s s'
    end).
Proof.
  intros Hi Hc Hs He. pose proof active_copy as Ha. pose proof (fat_sector_dev _ cl Ha Hc) as Hdev. rewrite fat_active_sector.
  pose proof (Z.mod_pos_bound cl 128 ltac:(lia)) as Hm.
  assert (Hsec : forall d d', is_sector d -> (reserve cl span d).1 = Some d' -> is_sector d').
  { unfold reserve. intros d d' Hd E. destruct (find_free _ _ _ _); simplify_eq/=. unfold is_sector. by rewrite length_put32. }
  assert (Hat : forall j, 0 <= j < span -> fat_sector (fat_active g) (cl + j) = fat_sector (fat_active g) cl /\ (cl + j) .& 127 = (cl .& 127) + j).
  { intros j Hj. unfold fat_sector. rewrite !shr7, !and127. split; [f_equal|]; dlia. }
  wp_apply (with_sector_wp _ _ s Hi (proj1 Hdev) Hsec). intros s' r (d & -> & Hd & Hr). exists d. split_and!; [done|done|].
  destruct r as [e|o].
  { destruct Hr as (? & ? & Hrel). split_and!; [done|done|]. apply Hrel, Hdev. }
  destruct Hr as (_ & -> & Hv). revert Hv. unfold reserve.
  pose proof (find_free_spec (Z.to_nat span) 0 (cl .& 127) (view_ s (fat_sector (fat_active g) cl))) as Hf.
  destruct (find_free _ _ _ _) as [i|]; simpl; intros Hv.
  - destruct Hf as [Hi' Hz]. destruct (Hat i ltac:(lia)) as [Es Eo]. split_and!; [lia|lia| |].
    + unfold fat, ent, fat_raw. by rewrite Es, Eo.
    + apply put_entry_set; [done|done|unfold in_vol in *; lia|]. intros l. rewrite Hv, Es. unfold put_entry. by rewrite Eo.
  - split.
    + intros l. cbn. rewrite Hv. by destruct (Z.eqb_spec l (fat_sector (fat_active g) cl)) as [->|].
    + intros c Hc'. specialize (Hf (c - cl) ltac:(lia)). destruct (Hat (c - cl) ltac:(lia)) as [Es Eo].
      unfold fat, ent, fat_raw. replace c with (cl + (c - cl)) by lia. by rewrite Es, Eo.
Qed.

Lemma fs_inv_disk s d : fs_inv s -> dk_inv d -> fs_inv (set_disk d s).
Proof. intros [? ? ?] ?. by split. Qed.

(** The other copies: [found] is marked in each, or the reservation in the
    active one is given back. *)
Lemma mirror_alloc_wp copies found s :
  fs_inv s -> free_count s < clusters g \/ free_count s = FAT32_UNKNOWN -> Forall is_copy copies -> in_vol found ->
  wp (mirror_alloc g copies found) s (fun s' r => fs_inv s' /\ frame s s' /\ same_rest s s' /\
    (forall k c, is_copy k -> in_vol c -> c <> found -> ent s' k c = ent s k c) /\
    match r with
    | inl e => e < 0 /\ ~ dk_reliable
    | inr _ => (exists d, s' = set_disk d s) /\ forall k, is_copy k ->
        ent s' k found = if decide (k ∈ copies /\ k <> fat_active g) then FAT32_EOC else ent s k found
    end).
Proof.
  intros Hi Hfc Hks Hc. revert s Hi Hfc. induction Hks as [|copy copies Hk Hks IH]; intros s Hi Hfc; cbn [mirror_alloc].
  { apply wp_ret. split_and!; try done. by exists (disk s); destruct s. }
  destruct (Z.eqb_spec copy (fat_active g)) as [->|Hne].
  { wp_apply (IH s Hi Hfc). intros s' r (A1 & A2 & A3 & A4 & A5). split_and!; try done. destruct r; [done|]. destruct A5 as [Hd A5].
    split; [done|]. intros k Hk'. rewrite A5 by done. apply decide_ext. rewrite elem_of_cons. split; [intros [? ?]; auto|by intros [[->|?] ?]]. }
  apply wp_bind, wp_try. wp_apply (fat_put_copy_wp copy found FAT32_EOC s (fi_disk _ Hi) Hk Hc).
  intros s1 r (d1 & -> & Hd1 & Hr). pose proof (fs_inv_disk s d1 Hi Hd1) as Hi1. destruct r as [e|u].
  - destruct Hr as (He & Hv & Hrel). apply wp_bind, wp_try.
    wp_apply (fat_put_copy_wp (fat_active g) found 0 (set_disk d1 s) Hd1 active_copy Hc).
    intros s2 r2 (d2 & -> & Hd2 & Hr2). apply wp_bind, wp_modify, wp_fail.
    set (s3 := if negb _ then _ else _).
    assert (Hs3 : disk s3 = d2 /\ frame s s3 /\ fs_inv s3).
    { pose proof (fi_free _ Hi) as Hf. pose proof (go_clusters Hg) as Hn. unfold s3. simpl.
      destruct (Z.eqb_spec (free_count s) FAT32_UNKNOWN) as [E|E]; simpl.
      - split_and!; [done|done|]. by split; [|right|apply (fi_next _ Hi)].
      - split_and!; [done|done|]. split; [done| |apply (fi_next _ Hi)]. left. simpl. unfold FAT32_MAX_CLUSTERS, FAT32_UNKNOWN in *.
        rewrite u32_small by (unfold is_u32; lia). lia. }
    destruct Hs3 as (Ed & Hfr & Hi3). split_and!; try done.
    + intros l Hl. rewrite Ed. destruct r2 as [e2|u2]; [destruct Hr2 as (_ & Hv2 & _); rewrite <- (Hv l); apply Hv2|].
      rewrite <- (Hv l). destruct Hr2 as [Hr2 _]. by apply Hr2.
    + intros k c Hk' Hc' Hne'. assert (Hs : forall c, ent s3 k c = ent (set_disk d2 (set_disk d1 s)) k c) by (intros; unfold ent, fat_raw; by rewrite Ed).
      rewrite Hs. assert (H1 : ent (set_disk d1 s) k c = ent s k c) by (unfold ent, fat_raw; by rewrite Hv).
      rewrite <- H1. destruct r2 as [e2|u2]; [destruct Hr2 as (_ & Hv2 & _); unfold ent, fat_raw; by rewrite Hv2|].
      rewrite (ent_of_set _ _ _ _ _ _ _ Hr2) by done. by rewrite decide_False by (by intros [_ ?]).
  - wp_apply (IH (set_disk d1 s) Hi1 Hfc). intros s2 r2 (A1 & A2 & A3 & A4 & A5).
    pose proof (fun k c' => ent_of_set _ _ _ _ _ k c' Hr) as He. split_and!; [done|by etrans|etrans; [apply Hr|done]| |].
    + intros k c Hk' Hc' Hne'. rewrite A4, He by done. by rewrite decide_False by (by intros [_ ?]).
    + destruct r2; [done|]. destruct A5 as [[d Hd] A5]. split; [by exists d|]. intros k Hk'. rewrite A5 by done.
      destruct (decide (k ∈ copies /\ k <> fat_active g)) as [Hx|Hx].
      * rewrite decide_True; [done|]. destruct Hx. split; [by right|done].
      * rewrite He by done. destruct (decide (k = copy /\ found = found)) as [[-> _]|Hx2].
        -- rewrite decide_True; [done|]. split; [by left|done].
        -- rewrite decide_False; [done|]. intros [[->|?]%elem_of_cons ?]; [by apply Hx2|by apply Hx].
Qed.

Lemma note_alloc_inv found s : fs_inv s -> in_vol found -> fs_inv (note_alloc g found s) /\
  (free_count (note_alloc g found s) < clusters g \/ free_count (note_alloc g found s) = FAT32_UNKNOWN) /\ frame s (note_alloc g found s).
Proof.
  intros [H1 H2 H3] Hc. pose proof (go_clusters Hg). unfold note_alloc, in_vol in *.
  assert (Hn : 2 <= (if found + 1 <? clusters g + 2 then found + 1 else 2) < clusters g + 2) by (split_ifs; lia).
  destruct (Z.eqb_spec (free_count s) FAT32_UNKNOWN), (Z.eqb_spec (free_count s) 0); simpl.
  - split_and!; [by split|by right|done].
  - split_and!; [by split|by right|done].
  - split_and!; [by split|left; lia|done].
  - split_and!; [split; [done|left; simpl; lia|done]|left; lia|done].
Qed.

(** The counter of free clusters after one is taken. *)
Definition count_minus (n : Z) : Z := if (n =? FAT32_UNKNOWN) || (n =? 0) then n else n - 1.

(** A free cluster was taken, marked as the end of a chain; or nothing that
    was allocated changed, and without disk errors the volume is full. *)
Definition alloc_post s s' (r : Z + Z) : Prop :=
  fs_inv s' /\ frame s s' /\ same_rest s s' /\
  match r with
  | inl e => e < 0 /\ (forall c, in_vol c -> fat s c <> 0 -> fat s' c = fat s c) /\
      (dk_reliable -> e = - ENOSPC /\ same_view s s' /\ forall c, in_vol c -> fat s c <> 0)
  | inr c => in_vol c /\ fat s c = 0 /\ fat s' c = FAT32_EOC /\
      (forall c', in_vol c' -> c' <> c -> fat s' c' = fat s c') /\ (mirrored s -> mirrored s') /\
      free_count s' = count_minus (free_count s) /\ next_free s' = (if c + 1 <? clusters g + 2 then c + 1 else 2)
  end.

(** [c] is among the [n] entries from [cl], going round the volume. *)
Definition ahead (cl n c : Z) : Prop := cl <= c < cl + n \/ (c < cl /\ c + clusters g < cl + n).

Lemma alloc_loop_wp fuel cl remaining s :
  fs_inv s -> in_vol cl -> 0 <= remaining <= clusters g -> remaining < Z.of_nat fuel ->
  (forall c, in_vol c -> fat s c = 0 -> ahead cl remaining c) ->
  wp (alloc_loop g fuel cl remaining) s (alloc_post s).
Proof.
  revert cl remaining s. induction fuel as [|fuel IH]; intros cl remaining s Hi Hc Hr Hfuel Hah; cbn [alloc_loop];
    unfold in_vol, ahead in *; [lia|].
  destruct (Z.eqb_spec remaining 0) as [->|Hnz].
  { apply wp_fail. split_and!; try done. intros _. split_and!; [done|done|]. intros c Hc' E. specialize (Hah c Hc' E). unfold in_vol in Hc'. lia. }
  cbv zeta. rewrite and127. pose proof (Z.mod_pos_bound cl 128 ltac:(lia)) as Hm.
  set (span := if _ <? _ then _ else _). assert (Hspan : 0 < span <= 128 - cl mod 128 /\ span <= remaining /\ cl + span <= clusters g + 2).
  { unfold span. split_ifs; lia. }
  destruct Hspan as (Hs1 & Hs2 & Hs3). clearbody span.
  apply wp_bind. wp_apply (reserve_wp cl span s (fi_disk _ Hi) Hc Hs1 Hs3). intros s1 r (d1 & -> & Hd1 & Hx).
  pose proof (fs_inv_disk s d1 Hi Hd1) as Hi1. destruct r as [e|[found|]].
  - destruct Hx as (He & Hv & Hrel). split_and!; try done; [intros l _; apply Hv|]. intros c _ _. unfold fat, ent, fat_raw. by rewrite Hv.
  - destruct Hx as (Hf & Hz & Hset). assert (Hfv : in_vol found) by (unfold in_vol; lia).
    pose proof (fun k c' => ent_of_set _ _ _ _ _ k c' Hset) as He. pose proof active_copy as Ha.
    apply wp_bind, wp_modify, wp_bind. destruct (note_alloc_inv found (set_disk d1 s) Hi1 Hfv) as (Hi2 & Hfc & Hfr).
    assert (E2 : disk (note_alloc g found (set_disk d1 s)) = d1) by (unfold note_alloc; split_ifs; done).
    assert (Ef2 : free_count (note_alloc g found (set_disk d1 s)) = count_minus (free_count s)).
    { unfold note_alloc, count_minus. simpl. destruct (free_count s =? FAT32_UNKNOWN), (free_count s =? 0); done. }
    assert (En2 : next_free (note_alloc g found (set_disk d1 s)) = if found + 1 <? clusters g + 2 then found + 1 else 2) by done.
    set (s2 := note_alloc g found (set_disk d1 s)) in *. clearbody s2.
    assert (He2 : forall k c', is_copy k -> in_vol c' -> ent s2 k c' = if decide (k = fat_active g /\ c' = found) then FAT32_EOC else ent s k c').
    { intros k c' Hk Hc'. transitivity (ent (set_disk d1 s) k c'); [unfold ent, fat_raw; by rewrite E2|by rewrite He]. }
    assert (Hrest : same_rest s s2) by (intros l Hl; rewrite E2; by apply Hset).
    destruct (mirror g) eqn:Em.
    + wp_apply (mirror_alloc_wp (seqZ 0 (num_fats g)) found s2 Hi2 Hfc).
      { apply Forall_forall. intros k Hk%elem_of_seqZ. unfold is_copy. lia. }
      { done. }
      intros s3 r (A1 & A2 & A3 & A4 & A5).
      assert (Hother : forall c, in_vol c -> c <> found -> fat s3 c = fat s c).
      { intros c Hcv Hne. unfold fat. rewrite A4, He2 by done. by rewrite decide_False by (by intros [_ ?]). }
      destruct r as [e|u].
      * destruct A5 as [A5 A6]. split_and!; try done; try (by etrans). intros c Hcv Hne. apply Hother; [done|]. by intros ->.
      * destruct A5 as [[d3 Hd3] A5]. assert (Hall : forall k, is_copy k -> ent s3 k found = FAT32_EOC).
        { intros k Hk. rewrite A5 by done. destruct (decide (k ∈ _ /\ _)) as [|Hn]; [done|]. rewrite He2 by done. rewrite decide_True; [done|].
          split; [|done]. destruct (decide (k = fat_active g)); [done|]. destruct Hn. split; [|done]. apply elem_of_seqZ. unfold is_copy in Hk. lia. }
        apply wp_ret. split_and!; try done; try (by etrans); [by apply Hall| |by rewrite Hd3|by rewrite Hd3].
        intros Hmir _ k c Hk Hcv. destruct (decide (c = found)) as [->|Hne]; [unfold fat; by rewrite !Hall|].
        rewrite Hother by done. rewrite A4, He2 by done. rewrite decide_False by (by intros [_ ?]). by apply Hmir.
    + apply wp_ret, wp_ret. split_and!; try done.
      * unfold fat. by rewrite He2, decide_True by done.
      * intros c Hcv Hne. unfold fat. rewrite He2 by done. by rewrite decide_False by (by intros [_ ?]).
      * intros _ ?. congruence.
  - destruct Hx as [Hv Hnone]. assert (Hfs : forall c, fat (set_disk d1 s) c = fat s c) by (intros; unfold fat, ent, fat_raw; by rewrite Hv).
    eapply wp_mono; [apply (IH (if clusters g + 2 <=? cl + span then 2 else cl + span) (remaining - span) (set_disk d1 s) Hi1);
      [split_ifs; lia|lia|lia|]|].
    + intros c Hcv E. rewrite Hfs in E. specialize (Hah c Hcv E). assert (~ (cl <= c < cl + span)) by (intros Hx; by apply (Hnone c Hx)).
      destruct (Z.leb_spec (clusters g + 2) (cl + span)); lia.
    + intros s' r (A1 & A2 & A3 & A4). split_and!; try done.
      { intros l Hl. rewrite A3 by done. apply Hv. }
      destruct r as [e|c].
      * destruct A4 as (B1 & B2 & B3). setoid_rewrite Hfs in B2. setoid_rewrite Hfs in B3. split_and!; try done. intros Hrel.
        destruct (B3 Hrel) as (C1 & C2 & C3). split_and!; try done. intros q. by rewrite C2, Hv.
      * destruct A4 as (B1 & B2 & B3 & B4 & B5 & B6 & B7). setoid_rewrite Hfs in B4. rewrite Hfs in B2. split_and!; try done.
        intros Hmir. apply B5. intros Em k c' Hk Hcv. rewrite Hfs, <- (Hmir Em k c') by done. unfold ent, fat_raw. by rewrite Hv.
Qed.

Lemma cluster_alloc_wp s : fs_inv s -> readonly g = false -> wp (cluster_alloc g) s (alloc_post s).
Proof.
  intros Hi Hro. unfold cluster_alloc. rewrite Hro. apply wp_bind, wp_get. cbv zeta.
  pose proof (fi_next _ Hi) as Hn. unfold in_vol in Hn.
  replace ((next_free s <? 2) || (clusters g + 2 <=? next_free s)) with false by lia.
  apply alloc_loop_wp; [done|done|lia|lia|]. unfold in_vol, ahead. lia.
Qed.

(** *** Chains *)
Inductive chain s : Z -> list Z -> Prop :=
| chain_end c : in_vol c -> linked s c None -> chain s c [c]
| chain_link c n l : in_vol c -> linked s c (Some n) -> chain s n l -> chain s c (c :: l).

Lemma chain_in_vol s c l : chain s c l -> Forall in_vol l.
Proof. induction 1; by constructor. Qed.

Lemma chain_head s c l : chain s c l -> head l = Some c.
Proof. by destruct 1. Qed.

Lemma chain_fun s c l l' : chain s c l -> chain s c l' -> l = l'.
Proof.
  intros Hl. revert l'. induction Hl as [c Hc Hn|c n l Hc Hn Hl IH]; intros l' Hl'; inversion Hl' as [c' ? Hn'|c' n' l2 ? Hn' Hl2]; subst.
  - done.
  - by pose proof (linked_fun _ _ _ _ Hn Hn').
  - by pose proof (linked_fun _ _ _ _ Hn Hn').
  - pose proof (linked_fun _ _ _ _ Hn Hn'). simplify_eq. f_equal. by apply IH.
Qed.

Lemma chain_drop s c l i c' : chain s c l -> l !! i = Some c' -> chain s c' (drop i l).
Proof.
  intros Hl. revert i. induction Hl as [c Hc Hn|c n l Hc Hn Hl IH]; intros [|i] E; simplify_eq/=; [by constructor|by econstructor|by apply IH].
Qed.

(** A chain that ends never meets itself. *)
Lemma chain_nodup s c l : chain s c l -> NoDup l.
Proof.
  induction 1 as [c Hc Hn|c n l Hc Hn Hl IH]; [apply NoDup_singleton|]. apply NoDup_cons. split; [|done].
  intros [i Hi]%list_elem_of_lookup. pose proof (chain_drop _ _ _ _ _ Hl Hi) as Hd.
  assert (Hc' : chain s c (c :: l)) by (by econstructor). pose proof (chain_fun _ _ _ _ Hd Hc') as E.
  apply (f_equal length) in E. rewrite length_drop in E. simpl in E. lia.
Qed.

Lemma chain_len s c l : chain s c l -> Z.of_nat (length l) <= clusters g.
Proof.
  intros Hl. assert (Hsub : l ⊆+ seqZ 2 (clusters g)).
  { apply NoDup_submseteq; [by eapply chain_nodup|]. intros x Hx. apply elem_of_seqZ.
    pose proof (chain_in_vol _ _ _ Hl) as Hv. rewrite Forall_forall in Hv. specialize (Hv x Hx). unfold in_vol in Hv. lia. }
  apply submseteq_length in Hsub. rewrite length_seqZ in Hsub. pose proof (go_clusters Hg). lia.
Qed.

Lemma chain_same s s' c l : (forall x, x ∈ l -> fat s' x = fat s x) -> chain s c l -> chain s' c l.
Proof.
  intros E Hl. induction Hl as [c Hc Hn|c n l Hc Hn Hl IH].
  - constructor; [done|]. simpl in *. by rewrite E by (by left).
  - econstructor; [done| |apply IH; intros; apply E; by right]. simpl in *. by rewrite E by (by left).
Qed.

Lemma chain_nonzero s c l x : chain s c l -> x ∈ l -> fat s x <> 0.
Proof.
  induction 1 as [c Hc Hn|c n l Hc Hn Hl IH]; intros Hx.
  - apply list_elem_of_singleton in Hx as ->. simpl in Hn. unfold FAT32_EOC_MIN in Hn. lia.
  - apply elem_of_cons in Hx as [->|Hx]; [|by apply IH]. simpl in Hn. unfold in_vol in Hn. lia.
Qed.

(** *** Freeing *)
Lemma same_view_fat s s' c : same_view s s' -> fat s' c = fat s c.
Proof. intros Hv. unfold fat, ent, fat_raw. by rewrite Hv. Qed.
Lemma same_view_mirrored s s' : same_view s s' -> mirrored s -> mirrored s'.
Proof. intros Hv Hm E k c Hk Hc. rewrite (same_view_fat s s') by done. rewrite <- (Hm E k c) by done. unfold ent, fat_raw. by rewrite Hv. Qed.

Lemma free_loop_wp fuel cl l freed lowest s :
  dk_inv (disk s) -> chain s cl l -> 0 <= freed -> freed + Z.of_nat (length l) <= clusters g -> (length l < fuel)%nat -> 2 <= lowest ->
  wp (free_loop g fuel cl freed lowest) s (fun s' r => exists d freed' lowest' e, s' = set_disk d s /\ dk_inv d /\ r = inr (freed', lowest', e) /\
    same_rest s s' /\ (forall c, in_vol c -> c ∉ l -> fat s' c = fat s c) /\ (forall c, c ∈ l -> fat s' c = fat s c \/ fat s' c = 0) /\
    freed <= freed' <= freed + Z.of_nat (length l) /\ 2 <= lowest' /\ e <= 0 /\
    (e < 0 -> ~ dk_reliable) /\
    (e = 0 -> freed' = freed + Z.of_nat (length l) /\ (forall c, c ∈ l -> fat s' c = 0) /\ (mirrored s -> mirrored s'))).
Proof.
  revert cl l freed lowest s. induction fuel as [|fuel IH]; intros cl l freed lowest s Hi Hl Hf Hn Hfuel Hlow; [lia|]. cbn [free_loop].
  assert (Hc : in_vol cl) by (by destruct Hl).
  assert (Hpos : (1 <= length l)%nat) by (destruct Hl; simpl; lia).
  replace ((2 <=? cl) && (cl <? clusters g + 2)) with true by (unfold in_vol in Hc; lia).
  destruct (Z.leb_spec (clusters g) freed); [lia|].
  apply wp_bind, wp_try. wp_apply (fat_next_wp cl s Hi Hc). intros s1 link (d1 & -> & Hd1 & Hv1 & Hlink).
  apply wp_bind, wp_try. wp_apply (fat_set_wp cl 0 (set_disk d1 s) Hd1 Hc). { unfold is28. lia. }
  intros s2 r (d2 & -> & Hd2 & Hrest & Hother & Hr).
  assert (Hother' : forall c, in_vol c -> c <> cl -> fat (set_disk d2 (set_disk d1 s)) c = fat s c).
  { intros c Hcv Hne. rewrite Hother by done. by apply same_view_fat. }
  assert (Hrest' : same_rest s (set_disk d2 (set_disk d1 s))).
  { intros x Hx. rewrite Hrest by done. apply Hv1. }
  pose proof (chain_in_vol _ _ _ Hl) as Hvol. rewrite Forall_forall in Hvol.
  assert (Hhead : cl ∈ l) by (destruct Hl; by left).
  destruct r as [e|u].
  { destruct Hr as (He & Hrel & Hcl). rewrite (same_view_fat s (set_disk d1 s)) in Hcl by done. apply wp_ret. exists d2, freed, lowest, e.
    split_and!; try done; try lia.
    - intros c Hcv Hn'. apply Hother'; [done|]. by intros ->.
    - intros c Hcin. destruct (decide (c = cl)) as [->|]; [done|]. left. apply Hother'; auto. }
  destruct Hr as [Hz Hmir]. assert (Hmir' : mirrored s -> mirrored (set_disk d2 (set_disk d1 s))).
  { intros Hm. apply Hmir. by eapply same_view_mirrored. }
  cbv zeta. set (low := if cl <? lowest then cl else lowest). assert (Hlow' : 2 <= low) by (unfold low, in_vol in *; split_ifs; lia). clearbody low.
  destruct link as [e|[n|]].
  - destruct Hlink as [He Hbad]. apply wp_ret. exists d2, (freed + 1), low, e. split_and!; try done; try lia.
    + intros c Hcv Hn'. apply Hother'; [done|]. by intros ->.
    + intros c Hcin. destruct (decide (c = cl)) as [->|]; [by right|]. left. apply Hother'; auto.
    + intros _ Hrel. destruct Hl as [c ? Hlk|c n l ? Hlk]; by apply (Hbad Hrel _ Hlk).
  - destruct Hl as [c Hcv Hlk|c n' l Hcv Hlk Hl]; [by pose proof (linked_fun _ _ _ _ Hlk Hlink)|].
    assert (Some n' = Some n) as [= ->] by (by eapply linked_fun).
    assert (Hnd : c ∉ l) by (pose proof (chain_nodup _ _ _ (chain_link _ _ _ _ Hcv Hlk Hl)) as [? _]%NoDup_cons; done).
    assert (Hl2 : chain (set_disk d2 (set_disk d1 s)) n l).
    { eapply chain_same; [|exact Hl]. intros x Hx. apply Hother'; [apply Hvol; by right|]. by intros ->. }
    simpl in Hn, Hfuel. wp_apply (IH n l (freed + 1) low (set_disk d2 (set_disk d1 s)) Hd2 Hl2); [lia|lia|lia|done|].
    intros s3 r (d3 & fr & lo & e & -> & Hd3 & -> & B1 & B2 & B3 & B4 & B5 & B6 & B7 & B8). exists d3, fr, lo, e.
    assert (Hcz : fat (set_disk d3 (set_disk d2 (set_disk d1 s))) c = 0) by (by rewrite B2).
    split_and!; try done; try (simpl; lia).
    + intros x Hx. rewrite B1 by done. by apply Hrest'.
    + intros x Hx Hni. apply not_elem_of_cons in Hni as [Hne Hni]. rewrite B2 by done. by apply Hother'.
    + intros x Hx. destruct (decide (x = c)) as [->|Hne]; [by right|]. apply elem_of_cons in Hx as [->|Hx]; [done|].
      destruct (B3 x Hx) as [->|]; [|by right]. left. apply Hother'; [apply Hvol; by right|done].
    + intros He. destruct (B8 He) as (C1 & C2 & C3). split_and!; [simpl; lia| |auto].
      intros x [->|Hx]%elem_of_cons; [done|by apply C2].
  - destruct Hl as [c Hcv Hlk|c n' l Hcv Hlk Hl]; [|by pose proof (linked_fun _ _ _ _ Hlk Hlink)].
    apply wp_ret. exists d2, (freed + 1), low, 0. split_and!; try done; try (simpl; lia).
    + intros x Hx Hni. apply Hother'; [done|]. intros ->. by apply Hni.
    + intros x Hx%list_elem_of_singleton. subst x. by right.
    + intros _. split_and!; [simpl; lia| |done]. by intros x ->%list_elem_of_singleton.
Qed.

(** The chain [l] is given back: its entries, and only they, become free. *)
Lemma cluster_free_chain_wp first l s :
  fs_inv s -> chain s first l ->
  wp (cluster_free_chain g first) s (fun s' r => fs_inv s' /\ frame s s' /\ same_rest s s' /\
    (forall c, in_vol c -> c ∉ l -> fat s' c = fat s c) /\ (forall c, c ∈ l -> fat s' c = fat s c \/ fat s' c = 0) /\
    match r with
    | inl e => e < 0 /\ ~ dk_reliable
    | inr _ => (forall c, c ∈ l -> fat s' c = 0) /\ (mirrored s -> mirrored s') /\
        free_count s' = if free_count s =? FAT32_UNKNOWN then FAT32_UNKNOWN else Z.min (free_count s + Z.of_nat (length l)) (clusters g)
    end).
Proof.
  intros Hi Hl. pose proof (chain_len _ _ _ Hl) as Hlen. unfold cluster_free_chain. apply wp_bind.
  wp_apply (free_loop_wp _ first l 0 0xFFFFFFFF s (fi_disk _ Hi) Hl); [lia|lia|lia|lia|].
  intros s1 r (d & fr & lo & e & -> & Hd & -> & B1 & B2 & B3 & B4 & B5 & B6 & B7 & B8). apply wp_bind.
  pose proof (go_clusters Hg) as Hn. pose proof (fi_free _ Hi) as Hfc. pose proof (fi_next _ Hi) as Hnx.
  assert (Hpos : (1 <= length l)%nat) by (destruct Hl; simpl; lia).
  set (s2 := if negb (fr =? 0) then note_free g fr lo (set_disk d s) else set_disk d s).
  assert (Hs2 : disk s2 = d /\ frame s s2 /\ fs_inv s2 /\ (fr <> 0 -> free_count s2 = if free_count s =? FAT32_UNKNOWN then FAT32_UNKNOWN else Z.min (free_count s + fr) (clusters g))).
  { unfold s2. destruct (Z.eqb_spec fr 0) as [->|Hnz]; simpl negb; cbv iota; [split_and!; try done; by apply fs_inv_disk|].
    unfold note_free, FAT32_UNKNOWN, FAT32_MAX_CLUSTERS in *. cbv zeta. simpl.
    destruct (Z.eqb_spec (free_count s) 0xFFFFFFFF) as [E|E]; simpl negb; cbv iota.
    - split_ifs; simpl; (split_and!; [done|done| |by intros _]); (split; simpl; [done|by right|cbn in *; unfold in_vol in *; lia]).
    - rewrite (u32_small (free_count s + fr)) by (unfold is_u32; lia).
      set (fc := if clusters g <? free_count s + fr then clusters g else free_count s + fr).
      assert (Ec : fc = Z.min (free_count s + fr) (clusters g)) by (unfold fc; split_ifs; lia). clearbody fc.
      split_ifs; simpl; (split_and!; [done|done| |by intros _]); (split; simpl; [done|left; lia|cbn in *; unfold in_vol in *; lia]). }
  destruct Hs2 as (E2 & F2 & I2 & C2).
  assert (Hsame : forall c, fat s2 c = fat (set_disk d s) c) by (intros; unfold fat, ent, fat_raw; by rewrite E2).
  assert (Hmain : fs_inv s2 /\ frame s s2 /\ same_rest s s2 /\ (forall c, in_vol c -> c ∉ l -> fat s2 c = fat s c) /\
    (forall c, c ∈ l -> fat s2 c = fat s c \/ fat s2 c = 0)).
  { split_and!; [done|done| | |]; [intros x Hx; rewrite E2; by apply B1|intros; rewrite Hsame; by apply B2|intros; rewrite Hsame; by apply B3]. }
  assert (Hend : wp (if e <? 0 then fail e else mret tt) s2 (fun s' r => fs_inv s' /\ frame s s' /\ same_rest s s' /\
    (forall c, in_vol c -> c ∉ l -> fat s' c = fat s c) /\ (forall c, c ∈ l -> fat s' c = fat s c \/ fat s' c = 0) /\
    match r with
    | inl e => e < 0 /\ ~ dk_reliable
    | inr _ => (forall c, c ∈ l -> fat s' c = 0) /\ (mirrored s -> mirrored s') /\
        free_count s' = if free_count s =? FAT32_UNKNOWN then FAT32_UNKNOWN else Z.min (free_count s + Z.of_nat (length l)) (clusters g)
    end)).
  { destruct (Z.ltb_spec e 0) as [He|He]; [apply wp_fail|apply wp_ret]; (split; [apply Hmain|]; destruct Hmain as (_ & M2 & M3 & M4 & M5)).
    - split_and!; try done. by apply B7.
    - destruct (B8 ltac:(lia)) as (C3 & C4 & C5). split_and!; try done.
      + intros c Hc. rewrite Hsame. by apply C4.
      + intros Hm. specialize (C5 Hm). intros Em k c Hk Hc. rewrite Hsame. rewrite <- (C5 Em k c) by done. unfold ent, fat_raw. by rewrite E2.
      + rewrite C2 by lia. by replace (free_count s + fr) with (free_count s + Z.of_nat (length l)) by lia. }
  unfold s2 in Hend. destruct (negb (fr =? 0)); [apply wp_modify|apply wp_ret]; exact Hend.
Qed.

(** *** Clusters *)

(** The first sector of cluster [c]. *)
Definition clba (c : Z) : Z := data_lba g + (c - 2) * spc g.
Definition in_cluster (c l : Z) : Prop := clba c <= l < clba c + spc g.

Lemma spc_range : 1 <= spc g <= 128.
Proof.
  destruct (go_spc Hg) as [Hs ->]. pose proof (Z.pow_le_mono_r 2 0 (spc_shift g) ltac:(lia) ltac:(lia)).
  pose proof (Z.pow_le_mono_r 2 (spc_shift g) 7 ltac:(lia) ltac:(lia)). lia.
Qed.

Lemma cluster_lba_eq c : in_vol c -> cluster_lba g c = clba c.
Proof.
  intros Hc. unfold cluster_lba, clba. pose proof (go_clusters Hg). unfold in_vol, FAT32_MAX_CLUSTERS in *.
  rewrite u32_small by (unfold is_u32; lia). destruct (go_spc Hg) as [Hs ->]. by rewrite Z.shiftl_mul_pow2 by lia.
Qed.

Lemma in_cluster_range c l : in_vol c -> in_cluster c l -> data_lba g <= l < dk_sectors.
Proof. intros Hc Hl. pose proof spc_range. destruct Hg. unfold in_vol, in_cluster, clba in *. nia. Qed.

Lemma in_cluster_outside c l : in_vol c -> in_cluster c l -> outside l.
Proof. intros Hc Hl. pose proof (in_cluster_range c l Hc Hl). unfold outside. lia. Qed.

Lemma data_positive : 1 <= data_lba g.
Proof. destruct Hg. nia. Qed.

Lemma in_cluster_inj c c' l : in_cluster c l -> in_cluster c' l -> c = c'.
Proof. pose proof spc_range. unfold in_cluster, clba. nia. Qed.

(** The table is the same. *)
Definition same_table s s' : Prop := forall l, ~ outside l -> view_ s' l = view_ s l.

Lemma same_table_ent s s' k c : same_table s s' -> is_copy k -> in_vol c -> ent s' k c = ent s k c.
Proof.
  intros Ht Hk Hc. unfold ent, fat_raw. rewrite Ht; [done|]. pose proof (fat_sector_in k c Hk Hc). unfold outside. lia.
Qed.
Lemma same_table_fat s s' c : same_table s s' -> in_vol c -> fat s' c = fat s c.
Proof. intros. apply same_table_ent; [done|apply active_copy|done]. Qed.
Lemma same_table_mirrored s s' : same_table s s' -> mirrored s -> mirrored s'.
Proof. intros Ht Hm E k c Hk Hc. rewrite (same_table_fat s s'), (same_table_ent s s') by done. by apply Hm. Qed.

Lemma zero_sectors_wp lba n s :
  dk_inv (disk s) -> 0 <= lba -> 0 <= n -> lba + n <= dk_sectors -> dk_readonly = false ->
  wp (zero_sectors (seqZ lba n)) s (fun s' r => exists d m, s' = set_disk d s /\ dk_inv d /\ 0 <= m <= n /\
    (forall l, view_ s' l = if (lba <=? l) && (l <? lba + m) then zero_sector else view_ s l) /\
    match r with inl e => e < 0 /\ ~ dk_reliable | inr _ => m = n end).
Proof.
  intros Hi Hl Hn Hfit Hro. revert lba Hl Hfit s Hi. pattern n. apply natlike_ind; [| |done]; clear n Hn.
  - intros lba Hl Hfit s Hi. apply wp_ret. exists (disk s), 0. destruct s. split_and!; try done. intros l. split_ifs; lia || done.
  - intros n Hn IH lba Hl Hfit s Hi. rewrite seqZ_cons by lia. replace (Z.pred (Z.succ n)) with n by lia. cbn [zero_sectors].
    apply wp_bind. unfold wp at 1, new_sector. destruct (dk_new lba (disk s)) as [d r] eqn:E.
    destruct (dk_new_ok _ _ _ _ E Hi Hl) as [Hd Hr]. simpl. destruct r as [e|u].
    + destruct Hr as (He & Hv & Hrel). exists d, 0. split_and!; try done; try lia; [|apply Hrel; [lia|done]]. intros l. cbn. rewrite Hv. split_ifs; lia || done.
    + destruct Hr as (_ & Hv). wp_apply (IH (lba + 1) ltac:(lia) ltac:(lia) (set_disk d s) Hd).
      intros s' r (d' & m & -> & Hd' & Hm & Hv' & Hr). exists d', (m + 1). split_and!; try done; try lia.
      * intros l. rewrite Hv'. cbn. rewrite Hv. split_ifs; lia || done.
      * destruct r; [done|lia].
Qed.

Definition zeroed s (c : Z) : Prop := forall l, in_cluster c l -> view_ s l = zero_sector.

Lemma cluster_zero_wp c s :
  dk_inv (disk s) -> in_vol c -> readonly g = false ->
  wp (cluster_zero g c) s (fun s' r => exists d, s' = set_disk d s /\ dk_inv d /\
    (forall l, ~ in_cluster c l -> view_ s' l = view_ s l) /\
    match r with inl e => e < 0 /\ ~ dk_reliable | inr _ => zeroed s' c end).
Proof.
  intros Hi Hc Hro. pose proof spc_range as Hs. pose proof data_positive. unfold cluster_zero. rewrite cluster_lba_eq by done.
  rewrite (go_ro Hg) in Hro. assert (Hb : data_lba g <= clba c /\ clba c + spc g <= dk_sectors).
  { destruct Hg. unfold in_vol, clba in *. nia. }
  wp_apply (zero_sectors_wp (clba c) (spc g) s Hi); [lia|lia|lia|done|].
  intros s' r (d & m & -> & Hd & Hm & Hv & Hr). exists d. unfold in_cluster, zeroed. split_and!; [done|done| |].
  - intros l Hl. rewrite Hv. split_ifs; lia || done.
  - destruct r; [done|]. subst m. intros l Hl. rewrite Hv. unfold in_cluster in Hl. split_ifs; lia || done.
Qed.

(** *** Growing a chain *)

(** Outside the table only sectors of clusters that were free may change; a
    failure can leave [prev] linked to the cluster that was given back only
    when the disk failed. *)
Definition grow_post (prev : Z) (zero : bool) s s' (r : Z + Z) : Prop :=
  fs_inv s' /\ frame s s' /\
  (forall l, outside l -> (forall c, in_vol c -> in_cluster c l -> fat s c <> 0) -> view_ s' l = view_ s l) /\
  (forall c, in_vol c -> fat s c <> 0 -> c <> prev -> fat s' c = fat s c) /\
  match r with
  | inl e => e < 0 /\ (dk_reliable -> e = - ENOSPC /\ same_view s s' /\ forall c, in_vol c -> fat s c <> 0)
  | inr c => in_vol c /\ fat s c = 0 /\ fat s' c = FAT32_EOC /\ (prev <> 0 -> fat s' prev = c) /\
      (forall c', in_vol c' -> c' <> c -> c' <> prev -> fat s' c' = fat s c') /\
      (zero = true -> zeroed s' c) /\ (forall l, outside l -> ~ (zero = true /\ in_cluster c l) -> view_ s' l = view_ s l) /\
      (mirrored s -> mirrored s') /\ free_count s' = count_minus (free_count s)
  end.

Lemma in_vol_28 c : in_vol c -> is28 c.
Proof. pose proof (go_clusters Hg). unfold in_vol, is28, FAT32_MAX_CLUSTERS in *. lia. Qed.

Lemma chain_one s c : in_vol c -> fat s c = FAT32_EOC -> chain s c [c].
Proof. intros Hc E. apply chain_end; [done|]. simpl. rewrite E. done. Qed.

Lemma chain_grow_wp prev zero s :
  fs_inv s -> readonly g = false -> (prev <> 0 -> in_vol prev /\ fat s prev <> 0) ->
  wp (chain_grow g prev zero) s (grow_post prev zero s).
Proof.
  intros Hi Hro Hprev. unfold chain_grow. apply wp_bind. wp_apply (cluster_alloc_wp s Hi Hro).
  intros s1 r (I1 & F1 & R1 & Hr). destruct r as [e|c].
  { destruct Hr as (He & Hkeep & Hrel). split_and!; try done; [intros; by apply R1|auto]. }
  destruct Hr as (Hc & Hz & Heoc & Hother & Hmir & Hfc & _). apply wp_bind, wp_try.
  assert (Hpc : prev <> 0 -> prev <> c) by (intros Hp ->; destruct (Hprev Hp); done).
  (* the new cluster is filled and linked *)
  assert (Hbody : wp (_ ← (if zero then cluster_zero g c else mret tt); if negb (prev =? 0) then fat_set g prev c else mret tt) s1
    (fun s2 r => exists d, s2 = set_disk d s1 /\ dk_inv d /\
      (forall l, outside l -> ~ (zero = true /\ in_cluster c l) -> view_ s2 l = view_ s1 l) /\
      (forall c', in_vol c' -> c' <> prev -> fat s2 c' = fat s1 c') /\
      match r with
      | inl e => e < 0 /\ ~ dk_reliable
      | inr _ => (prev <> 0 -> fat s2 prev = c) /\ (zero = true -> zeroed s2 c) /\ (mirrored s1 -> mirrored s2)
      end)).
  { assert (Hz1 : wp (if zero then cluster_zero g c else mret tt) s1 (fun s2 r => exists d, s2 = set_disk d s1 /\ dk_inv d /\
      (forall l, ~ (zero = true /\ in_cluster c l) -> view_ s2 l = view_ s1 l) /\
      match r with inl e => e < 0 /\ ~ dk_reliable | inr _ => zero = true -> zeroed s2 c end)).
    { destruct zero.
      - wp_apply (cluster_zero_wp c s1 (fi_disk _ I1) Hc Hro). intros s2 r (d & -> & Hd & Hv & Hr). exists d. split_and!; [done|done| |by destruct r].
        intros l Hl. apply Hv. intros Hx. by apply Hl.
      - apply wp_ret. exists (disk s1). destruct s1. split_and!; try done. apply I1. }
    apply wp_bind. eapply wp_mono; [exact Hz1|]. intros s2 r (d & -> & Hd & Hv & Hr).
    assert (Ht : same_table s1 (set_disk d s1)).
    { intros l Hl. apply Hv. intros [_ Hin]. apply Hl. by eapply in_cluster_outside. }
    assert (Hf : forall c', in_vol c' -> fat (set_disk d s1) c' = fat s1 c') by (intros; by apply same_table_fat).
    destruct r as [e|u].
    { exists d. split_and!; [done|done|intros; by apply Hv|intros; by apply Hf|apply Hr|apply Hr]. }
    destruct (Z.eqb_spec prev 0) as [->|Hp]; simpl negb; cbv iota.
    { apply wp_ret. exists d. split_and!; [done|done|intros; by apply Hv|intros; by apply Hf|done|exact Hr|by apply same_table_mirrored]. }
    destruct (Hprev Hp) as [Hpv _]. wp_apply (fat_set_wp prev c (set_disk d s1) Hd Hpv (in_vol_28 c Hc)).
    intros s3 r (d3 & -> & Hd3 & Hrest & Ho & Hr3). exists d3. split_and!; try done.
    - intros l Hl Hn. rewrite Hrest by done. by apply Hv.
    - intros c' Hc' Hne. rewrite Ho by done. by apply Hf.
    - destruct r; [by destruct Hr3 as (? & ? & _)|]. destruct Hr3 as [E3 Hm3]. split_and!; [done| |].
      + intros Hzt l Hl. rewrite Hrest by (by apply (in_cluster_outside c)). by apply Hr.
      + intros Hm. apply Hm3. by eapply same_table_mirrored. }
  eapply wp_mono; [exact Hbody|]. intros s2 r (d & -> & Hd & Hv & Hf & Hr).
  assert (Hf2 : forall c', in_vol c' -> c' <> c -> c' <> prev -> fat (set_disk d s1) c' = fat s c').
  { intros c' H1 H2 H3. rewrite Hf by done. by apply Hother. }
  assert (Hc2 : fat (set_disk d s1) c = FAT32_EOC).
  { rewrite Hf; [done|done|]. intros E. apply (Hpc ltac:(unfold in_vol in Hc; lia)). done. }
  assert (Hkeepv : forall l, outside l -> (forall c', in_vol c' -> in_cluster c' l -> fat s c' <> 0) -> view_ (set_disk d s1) l = view_ s l).
  { intros l Hl Hn. rewrite Hv, R1; [done|done|done|]. intros [_ Hin]. by apply (Hn c). }
  destruct r as [e|u].
  - destruct Hr as [He Hrel]. apply wp_bind, wp_try.
    wp_apply (cluster_free_chain_wp c [c] (set_disk d s1) (fs_inv_disk _ _ I1 Hd) (chain_one _ c Hc Hc2)).
    intros s3 r (I3 & F3 & R3 & K3 & _ & _). apply wp_fail. split_and!; try done.
    + etrans; [exact F1|]. etrans; [|exact F3]. done.
    + intros l Hl Hn. rewrite R3 by done. by apply Hkeepv.
    + intros c' Hc' Hnz Hp. assert (c' <> c) by (by intros ->). rewrite K3, Hf2; try done. rewrite list_elem_of_singleton. done.
  - destruct Hr as (E1 & E2 & E3). apply wp_ret. split_and!; try done.
    + by apply fs_inv_disk.
    + intros c' Hc' Hnz Hp. apply Hf2; [done|by intros ->|done].
    + intros l Hl Hn. rewrite Hv by done. by apply R1.
    + auto.
Qed.

(** The chain with one more cluster at its end. *)
Lemma chain_snoc s s' c l prev : chain s c l -> last l = Some prev -> (forall x, x ∈ l -> x <> prev -> fat s' x = fat s x) ->
  forall fresh, in_vol fresh -> fat s' prev = fresh -> fat s' fresh = FAT32_EOC -> chain s' c (l ++ [fresh]).
Proof.
  intros Hl Hlast Hsame fresh Hfv Hp Hf. pose proof (chain_nodup _ _ _ Hl) as Hnd. revert Hlast Hsame Hnd.
  induction Hl as [c Hc Hn|c n l Hc Hn Hl IH]; intros Hlast Hsame Hnd; simpl.
  - injection Hlast as <-. apply chain_link with fresh; [done|done|]. by apply chain_one.
  - apply NoDup_cons in Hnd as [Hni Hnd]. assert (Hl' : last l = Some prev).
    { destruct l; [inversion Hl|done]. }
    assert (Hne : c <> prev). { intros ->. apply Hni. by apply last_Some_elem_of. }
    apply chain_link with n; [done| |].
    + destruct Hn as [Hn1 Hn2]. split; [|done]. rewrite Hsame; [done|by left|done].
    + apply IH; [done| |done]. intros x Hx. apply Hsame. by right.
Qed.

Lemma chain_last s c l prev : chain s c l -> last l = Some prev -> FAT32_EOC_MIN <= fat s prev.
Proof.
  induction 1 as [c Hc Hn|c n l Hc Hn Hl IH]; intros E; [by injection E as <-|].
  apply IH. destruct l; [inversion Hl|done].
Qed.
End Table.
