(* ===== verification/FatVol.v ===== *)
(** * fat32.c: mounting a volume, and the properties of the allocation table

    fat32_mount accepts only boot sectors whose layout lies inside the device
    ([geo_ok], which every other theorem on the volume starts from). The
    number of free clusters is [nfree]. *)
From S2P Require Import Prelude CString Blk Disk Fat FatTab.

Open Scope tach_scope.

Section Count.
Context {S : Type} `{DiskOk S} (g : geo) (Hg : geo_ok g).
Implicit Types s : fs S.

Definition free_at s (c : Z) : bool := (2 <=? c) && (fat g s c =? 0).
(** The clusters of the volume that no chain uses. *)
Definition nfree s : Z := countb (free_at s) (Z.to_nat (clusters g + 2)).

Lemma countb_step (p : Z -> bool) c : 0 <= c -> countb p (Z.to_nat (c + 1)) = countb p (Z.to_nat c) + (if p c then 1 else 0).
Proof. intros Hc. rewrite Z2Nat.inj_add by lia. rewrite Nat.add_1_r. simpl. by rewrite Z2Nat.id by lia. Qed.

Lemma count_sector_spec (p : Z -> bool) n i base end_ d count :
  0 <= base + i <= end_ ->
  (forall j, i <= j < i + Z.of_nat n -> base + j < end_ -> p (base + j) = (2 <=? base + j) && (le32 d (j * 4) .& 0x0FFFFFFF =? 0)) ->
  count_sector n i base end_ d count =
    count + countb p (Z.to_nat (Z.min (base + i + Z.of_nat n) end_)) - countb p (Z.to_nat (base + i)).
Proof.
  revert i count. induction n as [|n IH]; intros i count Hb Hp; cbn [count_sector].
  { replace (Z.min (base + i + Z.of_nat 0) end_) with (base + i) by lia. lia. }
  destruct (Z.ltb_spec (base + i) end_) as [Hlt|Hge].
  - rewrite IH by (lia || (intros; apply Hp; lia)). replace (base + (i + 1) + Z.of_nat n) with (base + i + Z.of_nat (Datatypes.S n)) by lia.
    replace (base + (i + 1)) with (base + i + 1) by lia. rewrite (countb_step p (base + i)) by lia. rewrite (Hp i) by lia.
    destruct (Z.ltb_spec (base + i) 2), (Z.leb_spec 2 (base + i)); try lia; simpl; [lia|]. destruct (le32 d (i * 4) .& 0x0FFFFFFF =? 0); lia.
  - replace (Z.min (base + i + Z.of_nat (Datatypes.S n)) end_) with (base + i) by lia. lia.
Qed.

Lemma count_loop_wp fuel k count s :
  dk_inv (disk s) -> 0 <= k -> clusters g + 2 <= k * 128 + 128 * Z.of_nat fuel -> k * 128 < clusters g + 2 + 128 ->
  count = countb (free_at s) (Z.to_nat (Z.min (k * 128) (clusters g + 2))) ->
  wp (count_loop g fuel (k * 128) count) s (fun s' r => exists d, s' = set_disk d s /\ dk_inv d /\ same_view s s' /\
    match r with inl e => e < 0 /\ ~ dk_reliable | inr c => c = nfree s end).
Proof.
  revert k count s. induction fuel as [|fuel IH]; intros k count s Hi Hk Hf Hend ->; cbn [count_loop].
  { replace (k * 128 <? clusters g + 2) with false by lia. apply wp_ret. exists (disk s). destruct s. split_and!; try done.
    unfold nfree. do 2 f_equal. cbn [Fat.disk] in *. lia. }
  destruct (Z.ltb_spec (k * 128) (clusters g + 2)) as [Hlt|Hge].
  2: { apply wp_ret. exists (disk s). destruct s. split_and!; try done. unfold nfree. do 2 f_equal. lia. }
  assert (Hsec : fat_lba g + ((k * 128) .>> 7) = fat_lba g + k) by (rewrite shr7, Z.div_mul; lia).
  assert (Hdev : 0 <= fat_lba g + k < dk_sectors).
  { destruct (fat_sector_dev g Hg (fat_active g) (Z.max 2 (k * 128)) (active_copy g Hg)) as [_ Hx]; [unfold in_vol; pose proof (go_clusters g Hg); lia|].
    rewrite <- fat_active_sector in Hx by done. rewrite shr7 in Hx. destruct Hg. split; [nia|]. assert (Z.max 2 (k * 128) / 128 = k) by dlia. lia. }
  rewrite Hsec. apply wp_bind. wp_apply (read_sector_wp _ _ s Hi (proj1 Hdev)). intros s1 r (d & -> & Hd & Hv & Hr). destruct r as [e|c].
  { exists d. destruct Hr as [He Hrel]. split_and!; try done. apply Hrel, Hdev. }
  destruct Hr as [_ ->]. replace (k * 128 + 128) with ((k + 1) * 128) by lia.
  wp_apply (IH (k + 1) _ (set_disk d s) Hd ltac:(lia) ltac:(lia) ltac:(lia)).
  - rewrite (count_sector_spec (free_at s)); [|lia|].
    + rewrite Z.add_0_r, (Z.min_l (k * 128)) by lia. replace (k * 128 + Z.of_nat 128) with ((k + 1) * 128) by lia.
      rewrite (countb_ext (free_at (set_disk d s)) (free_at s)); [lia|]. intros i _.
      unfold free_at. by rewrite (same_view_fat g s (set_disk d s)).
    + intros j Hj Hlt2. unfold free_at. f_equal. f_equal. unfold fat, ent, fat_raw. rewrite <- fat_active_sector, shr7, and127 by done.
      replace ((k * 128 + j) / 128) with k by dlia. replace ((k * 128 + j) mod 128) with j by dlia. done.
  - intros s' r (d' & -> & Hd' & Hv' & Hr). exists d'. split_and!; try done; [intros l; by rewrite Hv', Hv|].
    destruct r; [done|]. rewrite Hr. unfold nfree. apply countb_ext. intros i _. unfold free_at. by rewrite (same_view_fat g s (set_disk d s)).
Qed.

Lemma fat_count_free_wp s :
  dk_inv (disk s) ->
  wp (fat_count_free g) s (fun s' r => exists d, s' = set_disk d s /\ dk_inv d /\ same_view s s' /\
    match r with inl e => e < 0 /\ ~ dk_reliable | inr c => c = nfree s end).
Proof.
  intros Hi. unfold fat_count_free. pose proof (go_clusters g Hg). apply (count_loop_wp _ 0); [done|lia|lia|lia|].
  by rewrite Z.min_l by lia.
Qed.

Lemma nfree_bound s : 0 <= nfree s <= clusters g.
Proof.
  unfold nfree. pose proof (go_clusters g Hg) as Hn. split; [apply countb_bounds|].
  replace (clusters g + 2) with (clusters g + 1 + 1) by lia.
  assert (forall n, 0 <= n -> countb (free_at s) (Z.to_nat (n + 1 + 1)) <= n) as Hx; [|apply Hx; lia].
  intros n Hn'. pattern n. apply natlike_ind; [| |done].
  - done.
  - intros m Hm IH. replace (Z.succ m + 1 + 1) with (m + 1 + 1 + 1) by lia. rewrite countb_step by lia. destruct (free_at s _); lia.
Qed.

(** Taking a free cluster takes one from the count. *)
Lemma nfree_alloc s s' c :
  in_vol g c -> fat g s c = 0 -> fat g s' c <> 0 -> (forall c', in_vol g c' -> c' <> c -> (fat g s' c' =? 0) = (fat g s c' =? 0)) ->
  nfree s = nfree s' + 1.
Proof.
  intros Hc Hz Hnz Hsame. unfold nfree, in_vol in *. apply countb_flip with c; unfold free_at; [lia|lia|lia|].
  intros i Hi Hne. destruct (Z.leb_spec 2 i); [|done]. simpl. apply Hsame; lia.
Qed.
End Count.

(** ** Mount *)

Lemma shift_of_ok x : 1 <= x <= 128 -> x .& (x - 1) = 0 -> 0 <= shift_of 8 0 x <= 7 /\ x = 2 ^ shift_of 8 0 x.
Proof.
  intros Hx Hp.
  assert (Hall : forallb (fun n => let x := Z.of_nat n in negb (x .& (x - 1) =? 0) ||
            ((0 <=? shift_of 8 0 x) && (shift_of 8 0 x <=? 7) && (x =? 2 ^ shift_of 8 0 x))) (seq 1 128) = true) by reflexivity.
  rewrite forallb_forall in Hall. specialize (Hall (Z.to_nat x)). rewrite in_seq in Hall. specialize (Hall ltac:(lia)).
  cbv zeta in Hall. rewrite Z2Nat.id in Hall by lia. lia.
Qed.

Section Mount.
Context {S : Type} `{DiskOk S}.

Lemma parse_boot_ok bs ro g fsinfo :
  parse_boot bs dk_sectors ro = inr (g, fsinfo) -> ro = dk_readonly ->
  geo_ok g /\ fsinfo_lba g = 0 /\ 0 <= fsinfo < fat0_lba g.
Proof.
  unfold parse_boot. intros E ->.
  pose proof (le16_range bs 14) as R14. pose proof (le16_range bs 19) as R19. pose proof (le16_range bs 40) as R40.
  pose proof (le16_range bs 48) as R48. pose proof (le32_range bs 32) as R32. pose proof (le32_range bs 36) as R36.
  pose proof (byte_at_u8 bs 13) as R13. pose proof (byte_at_u8 bs 16) as R16.
  revert E. generalize (label_of bs). revert R14 R19 R40 R48 R32 R36 R13 R16.
  generalize (le16 bs 14) (le16 bs 19) (le16 bs 40) (le16 bs 48) (le32 bs 32) (le32 bs 36) (byte_at bs 13) (byte_at bs 16) (le32 bs 44).
  intros reserved t16 flags fsi t32 fsz sp nf root R14 R19 R40 R48 R32 R36 R13 R16 lbl.
  cbv zeta. repeat match goal with |- context [if ?b then inl _ else _] => let E := fresh "G" in destruct b eqn:E; [discriminate|] end.
  intros E. assert (Ht : 0 <= (if negb (t16 =? 0) then t16 else t32) < 2 ^ 32) by (split_ifs; lia).
  set (total := if negb (t16 =? 0) then t16 else t32) in *. clearbody total.
  assert (Hsp : 1 <= sp <= 128 /\ sp .& (sp - 1) = 0) by lia. destruct Hsp as [Hsp1 Hsp2].
  destruct (shift_of_ok sp Hsp1 Hsp2) as [Hsh Esp]. set (shift := shift_of 8 0 sp) in *. clearbody shift.
  assert (Hmeta : 0 <= reserved + nf * fsz < 2 ^ 32) by lia. rewrite (u32_small (reserved + nf * fsz)) in * by (unfold is_u32; lia).
  set (raw := (total - (reserved + nf * fsz)) .>> shift) in *.
  assert (Hraw : raw * sp <= total - (reserved + nf * fsz)).
  { unfold raw. rewrite Z.shiftr_div_pow2, <- Esp by lia. rewrite Z.mul_comm. apply Z.mul_div_le. lia. }
  clearbody raw. set (cl := if FAT32_MAX_CLUSTERS <? raw then FAT32_MAX_CLUSTERS else raw) in *.
  assert (Hcl : FAT32_MIN_CLUSTERS <= cl <= FAT32_MAX_CLUSTERS /\ cl <= raw).
  { unfold cl, FAT32_MIN_CLUSTERS, FAT32_MAX_CLUSTERS in *. split_ifs; lia. }
  clearbody cl. assert (Hfit : cl * sp <= raw * sp) by (apply Z.mul_le_mono_nonneg_r; lia). unfold FAT32_MIN_CLUSTERS, FAT32_MAX_CLUSTERS in *.
  assert (Hact : 0 <= (if negb (flags .& 0x80 =? 0) then flags .& 0x0F else 0) < nf).
  { destruct (negb (flags .& 0x80 =? 0)); [|lia]. split; [apply Z.land_nonneg; right; lia|simpl in *; lia]. }
  injection E as <- <-. split; [|split; [done|cbn; split_ifs; lia]].
  split; cbn; unfold FAT32_MAX_CLUSTERS in *; try lia.
  by destruct (flags .& 0x80 =? 0).
Qed.

Lemma geo_ok_fsinfo g l : geo_ok g -> 0 <= l < fat0_lba g -> geo_ok (set_fsinfo_lba l g).
Proof. intros [] Hl. by split. Qed.

Lemma parse_fsinfo_ok g f fc nf : geo_ok g -> parse_fsinfo g f = Some (fc, nf) -> (0 <= fc <= clusters g \/ fc = FAT32_UNKNOWN) /\ in_vol g nf.
Proof.
  intros Hg. unfold parse_fsinfo, in_vol. destruct (_ && _); [|done]. intros [= <- <-]. pose proof (le32_range f 488). pose proof (go_clusters g Hg).
  split; [|split_ifs; lia]. destruct (Z.leb_spec (le32 f 488) (clusters g)); [left; lia|by right].
Qed.

(** A read that changes nothing but, perhaps, the cache. *)
Lemma dk_look {A} lba (f : sector -> A) d d' x :
  dk_with lba (fun b => (None, f b)) d = (d', x) -> dk_inv d -> 0 <= lba ->
  dk_inv d' /\ (forall l, dk_view d' l = dk_view d l) /\
  match x with inl e => e < 0 /\ (lba < dk_sectors -> ~ dk_reliable) | inr a => a = f (dk_view d lba) end.
Proof.
  intros E Hi Hl. destruct (dk_with_ok _ _ _ _ _ E Hi Hl) as [Hi' Hx]; [done|]. split; [done|]. destruct x as [e|a].
  - destruct Hx as (? & ? & ?). done.
  - destruct Hx as (_ & -> & Hv). split; [|done]. intros l. rewrite Hv. simpl. by destruct (Z.eqb_spec l lba) as [->|].
Qed.

(** C16: fat32_mount writes nothing, and a volume it accepts is laid out inside
    the device: the copies of the table, and after them all the clusters, with
    an entry for every cluster in each copy, the root among them and sectors
    per cluster a power of two up to 128. The allocation hint is a cluster of
    the volume, the free count is at most the number of clusters or unknown,
    and on a writable volume without a usable FSInfo it is exactly the number
    of free entries. When the disk does not fail and memory is available, a
    boot sector is refused only by the checks of the boot sector. *)
Theorem fat32_mount_safe mem_ok clock n (d d' : S) r :
  fat32_mount mem_ok clock n d = (d', r) -> dk_inv d ->
  dk_inv d' /\ (forall l, dk_view d' l = dk_view d l) /\
  match r with
  | inl e => e < 0 /\ (dk_reliable -> 0 < dk_sectors -> mem_ok = true -> parse_boot (dk_view d 0) dk_sectors dk_readonly = inl e)
  | inr (g, s) => disk s = d' /\ geo_ok g /\ fs_inv g s /\ open_list s = [] /\ dir_busy s = false /\
      (readonly g = false -> fsinfo_lba g = 0 -> free_count s = nfree g s) /\ (readonly g = false -> free_count s <> FAT32_UNKNOWN)
  end.
Proof.
  unfold fat32_mount. intros E Hi. destruct (dk_with 0 (fun bs => (None, bs)) d) as [d1 [e|bs]] eqn:E1.
  all: destruct (dk_look _ _ _ _ _ E1 Hi ltac:(lia)) as (Hi1 & Hv1 & Hx).
  { injection E as <- <-. destruct Hx as [He Hrel]. split_and!; try done. intros Hr Hs _. by destruct (Hrel Hs). }
  subst bs. destruct (parse_boot (dk_view d 0) dk_sectors dk_readonly) as [e|[g fsinfo]] eqn:Ep.
  { injection E as <- <-. split_and!; try done. clear - Ep. unfold parse_boot in Ep. cbv zeta in Ep.
    revert Ep. repeat match goal with |- context [if ?b then inl (- EINVAL) else _] => destruct b; [intros [= <-]; done|] end. done. }
  destruct (parse_boot_ok _ _ _ _ Ep eq_refl) as (Hg & Hf0 & Hfs). destruct mem_ok; simpl in E; [|injection E as <- <-; by split_and!].
  assert (Hinfo : exists d2 info, (if fsinfo =? 0 then (d1, None) else
      match dk_with fsinfo (fun f => (None, parse_fsinfo g f)) d1 with (d, inr x) => (d, x) | (d, inl _) => (d, None) end) = (d2, info) /\
      dk_inv d2 /\ (forall l, dk_view d2 l = dk_view d l) /\
      (forall fc nf, info = Some (fc, nf) -> fsinfo <> 0 /\ (0 <= fc <= clusters g \/ fc = FAT32_UNKNOWN) /\ in_vol g nf)).
  { destruct (Z.eqb_spec fsinfo 0) as [->|Hnz]; [by exists d1, None|].
    destruct (dk_with fsinfo (fun f => (None, parse_fsinfo g f)) d1) as [d2 [e|x]] eqn:E2;
      destruct (dk_look _ _ _ _ _ E2 Hi1 ltac:(lia)) as (Hi2 & Hv2 & Hx); eexists _, _; (split; [reflexivity|]).
    - split_and!; try done. intros. by rewrite Hv2.
    - split_and!; try done; [intros; by rewrite Hv2|]. intros fc nf ->. split; [done|]. by eapply parse_fsinfo_ok. }
  destruct Hinfo as (d2 & info & E2 & Hi2 & Hv2 & Hinfo). rewrite E2 in E. clear E2.
  set (g' := match info with Some _ => set_fsinfo_lba fsinfo g | None => g end) in *.
  assert (Hg' : geo_ok g' /\ clusters g' = clusters g /\ (fsinfo_lba g' = 0 -> info = None)).
  { unfold g'. destruct info as [[fc nf]|]; [|done]. split_and!; [by apply geo_ok_fsinfo|done|]. simpl. intros ->. by destruct (Hinfo fc nf). }
  destruct Hg' as (Hg' & Ecl & Hnone). clearbody g'.
  destruct (default (FAT32_UNKNOWN, 2) info) as [fc nf] eqn:Ed.
  assert (Hfn : (0 <= fc <= clusters g' \/ fc = FAT32_UNKNOWN) /\ in_vol g' nf).
  { unfold in_vol in *. rewrite Ecl. destruct info as [[fc' nf']|]; simpl in Ed; injection Ed as <- <-; [by apply Hinfo|].
    split; [by right|]. pose proof (go_clusters g Hg). lia. }
  destruct Hfn as [Hfc Hnf]. cbn [free_count] in E. set (s0 := Fs d2 fc nf false false [] clock n) in *.
  assert (Hs0 : fs_inv g' s0) by (by split).
  destruct ((fc =? FAT32_UNKNOWN) && negb (readonly g')) eqn:Ec.
  - destruct (fat_count_free g' s0) as [s1 r1] eqn:E3.
    destruct (wp_run _ _ _ (fat_count_free_wp g' Hg' s0 Hi2) _ _ E3) as (d3 & -> & Hd3 & Hv3 & Hr3). pose proof (nfree_bound g' Hg' s0) as Hb.
    assert (Hv3' : forall l, dk_view d3 l = dk_view d l) by (intros l; rewrite <- Hv2; apply Hv3).
    destruct r1 as [e|c]; injection E as <- <-.
    + destruct Hr3 as [He Hrel]. split_and!; try done.
    + subst c. split_and!; try done. { split; [done|by left|done]. }
      * intros _ _. simpl. apply countb_ext. intros i _. unfold free_at. f_equal. f_equal.
        transitivity (fat g' (set_disk d3 s0) i); [|done]. symmetry. by apply same_view_fat.
      * intros _. simpl. pose proof (go_clusters g' Hg'). unfold FAT32_UNKNOWN, FAT32_MAX_CLUSTERS in *. lia.
  - injection E as <- <-. split_and!; try done; simpl.
    + intros Hro Hz. rewrite (Hnone Hz) in Ed. simpl in Ed. injection Ed as <- _. rewrite Hro in Ec. done.
    + intros Hro. rewrite Hro in Ec. simpl in Ec. lia.
Qed.
End Mount.

(** A volume of 65582 clusters of one sector, with FSInfo in sector 1. *)
Definition fat_demo_boot : sector :=
  put16 510 0xAA55 (put16 48 1 (put32 44 2 (put32 36 516 (put32 32 66100 (set_byte 16 1 (put16 14 2 (set_byte 13 1 (put16 11 512 zero_sector)))))))).
Definition fat_demo_fsinfo : sector := put32 508 0xAA550000 (put32 492 3 (put32 488 100 (put32 484 0x61417272 (put32 0 0x41615252 zero_sector)))).
Definition fat_demo_image : ideal := fun l => if l =? 0 then fat_demo_boot else if l =? 1 then fat_demo_fsinfo else zero_sector.
Lemma fat_demo_image_size : 0 <= 66100 < 2 ^ 64.
Proof. lia. Qed.

Lemma fat32_mount_safe_witness :
  exists d' g s, @fat32_mount ideal (ideal_disk 66100 false) true None 0 fat_demo_image = (d', inr (g, s)) /\
    @geo_ok ideal (ideal_disk 66100 false) g /\ clusters g = 65582 /\ free_count s = 100 /\ next_free s = 3.
Proof.
  assert (Er : (fun w => match snd w with inr (g, s) => (clusters g =? 65582) && (free_count s =? 100) && (next_free s =? 3) | inl _ => false end)
    (@fat32_mount ideal (ideal_disk 66100 false) true None 0 fat_demo_image) = true) by reflexivity.
  destruct (@fat32_mount ideal (ideal_disk 66100 false) true None 0 fat_demo_image) as [d' r] eqn:E. cbn [snd] in Er.
  destruct (@fat32_mount_safe ideal (ideal_disk 66100 false) (ideal_ok 66100 false fat_demo_image_size) true None 0 fat_demo_image d' r E) as (_ & _ & Hr).
  { intros l. cbn. unfold fat_demo_image. split_ifs; reflexivity. }
  destruct r as [e|[g s]]; [discriminate Er|]. destruct Hr as (_ & Hg & _). exists d', g, s. split_and!; [reflexivity|exact Hg|lia|lia|lia].
Defined.
