(* ===== verification/FatFile.v ===== *)
(** * fat32.c: reading, writing and truncating files

    A node is passed by value and returned: [fat32_read] and the others give
    back the node with its caches moved, and the C return value as
    [inl e] (negative) or [inr]. Loops carry the number of bytes or clusters
    left as fuel; every turn uses at least one. *)
From S2P Require Import Prelude CString Blk Disk Fat.

Open Scope tach_scope.

(** ** Nodes *)
Definition set_info (i : fat32_info) (n : fat32_node) : fat32_node :=
  Node i (chain_index n) (chain_cluster n) (rd_next n) (rd_cur n) (rd_valid n) (n_dirty n).
Definition set_chain (index cluster : Z) (n : fat32_node) : fat32_node :=
  Node (n_info n) index cluster (rd_next n) (rd_cur n) (rd_valid n) (n_dirty n).
Definition set_dirty_node (x : bool) (n : fat32_node) : fat32_node :=
  Node (n_info n) (chain_index n) (chain_cluster n) (rd_next n) (rd_cur n) (rd_valid n) x.
Definition set_rd (next : Z) (cur : fat32_dircur) (n : fat32_node) : fat32_node :=
  Node (n_info n) (chain_index n) (chain_cluster n) next cur true (n_dirty n).

Definition with_first (x : Z) (i : fat32_info) : fat32_info :=
  Info (i_name i) (i_short i) (i_attr i) x (i_size i) (i_wdate i) (i_wtime i) (i_dir_cluster i) (i_dir_pos i).
Definition with_size (x : Z) (i : fat32_info) : fat32_info :=
  Info (i_name i) (i_short i) (i_attr i) (i_first i) x (i_wdate i) (i_wtime i) (i_dir_cluster i) (i_dir_pos i).
Definition with_time (date time : Z) (i : fat32_info) : fat32_info :=
  Info (i_name i) (i_short i) (i_attr i) (i_first i) (i_size i) date time (i_dir_cluster i) (i_dir_pos i).
Definition with_attr (x : Z) (i : fat32_info) : fat32_info :=
  Info (i_name i) (i_short i) x (i_first i) (i_size i) (i_wdate i) (i_wtime i) (i_dir_cluster i) (i_dir_pos i).

Definition fat32_node_init (info : fat32_info) : fat32_node := Node info 0 0 0 (Cur 0 0 0) false false.

Definition has_attr (bit : Z) (i : fat32_info) : bool := negb (i_attr i .& bit =? 0).

Section Ops.
Context {S : Type} `{Disk S} (g : geo).
Abbreviation M := (fatM S).

Definition cluster_shift : Z := spc_shift g + 9.
Definition cluster_mask : Z := (1 .<< cluster_shift) - 1.

(** Where the walk to cluster number [index] of the chain starts. *)
Definition start_at (node : fat32_node) (index : Z) : Z * Z :=
  if negb (chain_cluster node =? 0) && (chain_index node <=? index) then (chain_index node, chain_cluster node)
  else (0, i_first (n_info node)).

(** ** fat32_read *)

(** [while (at < index)]: [n] links. *)
Fixpoint walk (n : nat) (cluster : Z) : M Z :=
  match n with
  | O => mret cluster
  | Datatypes.S n' =>
      next ← fat_next g cluster;
      match next with
      | None => fail (- EIO)
      | Some next => walk n' next
      end
  end.

(** The copy loop: the cluster reached, the error that stopped it (0 for
    none) and the bytes read. *)
Fixpoint fat_read_loop (fuel : nat) (count cluster at_ pos done : Z) : M (Z * Z * Z * list Z) :=
  match fuel with
  | O => mret (at_, cluster, 0, [])
  | Datatypes.S fuel' =>
      if negb (done <? count) then mret (at_, cluster, 0, [])
      else
        let in_cluster := pos .& cluster_mask in
        let sector := in_cluster .>> 9 in
        let in_sector := in_cluster .& 511 in
        let lba := cluster_lba g cluster + sector in
        r ← try_ (if (in_sector =? 0) && (BLK_SECTOR_SIZE <=? count - done) then
                    let want := (count - done) .>> 9 in
                    let want := if spc g - sector <? want then spc g - sector else want in
                    ss ← read_sectors lba want;
                    mret (want .<< 9, mjoin ss)
                  else
                    let chunk := BLK_SECTOR_SIZE - in_sector in
                    let chunk := if count - done <? chunk then count - done else chunk in
                    read_sector lba (fun d => (chunk, take (Z.to_nat chunk) (drop (Z.to_nat in_sector) d))));
        match r with
        | inl e => mret (at_, cluster, e, [])
        | inr (chunk, data) =>
            let done := done + chunk in
            let pos := u32 (pos + chunk) in
            link ← try_ (if (done <? count) && (pos .& cluster_mask =? 0) then
                           next ← fat_next g cluster;
                           match next with
                           | None => fail (- EIO)
                           | Some next => mret (at_ + 1, next)
                           end
                         else mret (at_, cluster));
            match link with
            | inl e => mret (at_, cluster, e, data)
            | inr (at_, cluster) =>
                rest ← fat_read_loop fuel' count cluster at_ pos done;
                let '(at_, cluster, error, data') := rest in
                mret (at_, cluster, error, data ++ data')
            end
        end
  end.

Definition fat32_read (node : fat32_node) (offset : Z) (buffer : bool) (count : Z) : M (fat32_node * (Z + list Z)) :=
  if negb buffer && negb (count =? 0) then mret (node, inl (- EINVAL))
  else if has_attr FAT32_ATTR_DIR (n_info node) then mret (node, inl (- EISDIR))
  else
  let size := i_size (n_info node) in
  if (size <=? offset) || (count =? 0) then mret (node, inr [])
  else
  let count := if size - offset <? count then size - offset else count in
  let count := if 0x7FFFFFFF <? count then 0x7FFFFFFF else count in
  let index := offset .>> cluster_shift in
  let '(at_, cluster) := start_at node index in
  if cluster <? 2 then mret (node, inl (- EIO))
  else
  w ← try_ (walk (Z.to_nat (index - at_)) cluster);
  match w with
  | inl e => mret (node, inl e)
  | inr cluster =>
      r ← fat_read_loop (Z.to_nat count) count cluster (Z.max at_ index) offset 0;
      let '(at_, cluster, error, data) := r in
      let node := set_chain at_ cluster node in
      mret (node, if negb (Z.of_nat (length data) =? 0) then inr data else inl (if error <? 0 then error else - EIO))
  end.

(** ** The directory entry of a node *)
Record dent_meta := Meta { m_cluster : Z; m_pos : Z; m_first : Z; m_size : Z; m_wdate : Z; m_wtime : Z }.

(** The fields written into the 8.3 entry at offset [o] of its sector. *)
Definition store_meta (m : dent_meta) (o : Z) (d : sector) : sector :=
  let d := put16 (o + 20) (m_first m .>> 16) d in
  let d := put16 (o + 26) (m_first m) d in
  let d := put32 (o + 28) (m_size m) d in
  let d := put16 (o + 22) (m_wtime m) d in
  let d := put16 (o + 24) (m_wdate m) d in
  let d := put16 (o + 18) (m_wdate m) d in
  set_byte (o + 11) (byte_at d (o + 11) .| FAT32_ATTR_ARCH) d.

Definition dirent_store (m : dent_meta) : M unit :=
  if m_cluster m =? 0 then mret tt
  else if (m_cluster m <? 2) || (clusters g + 2 <=? m_cluster m) || (entries_per_cluster g <=? m_pos m) then fail (- EIO)
  else
    found ← with_sector (cluster_lba g (m_cluster m) + (m_pos m .>> 4)) (fun d =>
      let o := (m_pos m .& 15) * 32 in
      if (byte_at d o =? 0) || (byte_at d o =? 0xE5) || (byte_at d (o + 11) .& 0x3F =? 0x0F) then (None, false)
      else (Some (store_meta m o d), true));
    if found : bool then mret tt else fail (- ENOENT).

Definition meta_of (i : fat32_info) : dent_meta :=
  Meta (i_dir_cluster i) (i_dir_pos i) (i_first i) (i_size i) (i_wdate i) (i_wtime i).

Definition fat32_node_sync (node : fat32_node) : M (fat32_node * (Z + unit)) :=
  if negb (n_dirty node) then mret (node, inr tt)
  else
    let node := set_dirty_node false node in
    result ← try_ (dirent_store (meta_of (n_info node)));
    match result with
    | inl e => mret (set_dirty_node true node, inl e)
    | inr _ => mret (node, inr tt)
    end.

(** [grow_to]: [None] is the NULL pointer. *)
Definition node_touch (node : fat32_node) (grow_to : option Z) : M fat32_node :=
  now ← fat_now;
  let i := n_info node in
  let i := match grow_to with
           | Some n => if i_size i <? n then with_size n i else i
           | None => i
           end in
  let i := with_time now.1 now.2 i in
  let i := with_attr (u8 (i_attr i .| FAT32_ATTR_ARCH)) i in
  mret (set_dirty_node true (set_info i node)).

(** ** file_put *)

(** [memcpy]: consecutive sectors of a buffer. *)
Fixpoint chop (n : nat) (bytes : list Z) : list sector :=
  match n with
  | O => []
  | Datatypes.S n' => take 512 bytes :: chop n' (drop 512 bytes)
  end.

(** The walk to the cluster of the offset, extending the chain. *)
Fixpoint put_walk (n : nat) (at_ index : Z) (covered : bool) (cluster : Z) : M Z :=
  match n with
  | O => mret cluster
  | Datatypes.S n' =>
      link ← fat_next g cluster;
      next ← match link with
             | Some next => mret next
             | None => chain_grow g cluster (negb ((at_ + 1 =? index) && covered))
             end;
      put_walk n' (at_ + 1) index covered next
  end.

(** [n] bytes of the source ([None] is NULL: zeros). *)
Definition src_bytes (src : option (list Z)) (n : Z) : list Z :=
  match src with Some b => take (Z.to_nat n) b | None => replicate (Z.to_nat n) 0 end.

(** The copy loop; [src] is what is left of the source. The cluster reached,
    the bytes written and the error that stopped it. *)
Fixpoint put_loop (fuel : nat) (offset count cluster at_ done : Z) (src : option (list Z)) : M (Z * Z * Z * Z) :=
  match fuel with
  | O => mret (at_, cluster, done, 0)
  | Datatypes.S fuel' =>
      if negb (done <? count) then mret (at_, cluster, done, 0)
      else
        let pos := u32 (offset + done) in
        let in_cluster := pos .& cluster_mask in
        let sector := in_cluster .>> 9 in
        let in_sector := in_cluster .& 511 in
        let lba := cluster_lba g cluster + sector in
        let remaining := count - done in
        let whole := (in_sector =? 0) && (BLK_SECTOR_SIZE <=? remaining) in
        let want := remaining .>> 9 in
        let want := if spc g - sector <? want then spc g - sector else want in
        let chunk := if whole then want .<< 9
                     else let chunk := BLK_SECTOR_SIZE - in_sector in if remaining <? chunk then remaining else chunk in
        r ← try_ (if whole then
                    match src with
                    | Some b => write_sectors lba (chop (Z.to_nat want) b)
                    | None => zero_sectors (seqZ lba want)
                    end
                  else store_sector lba (patch (Z.to_nat in_sector) (src_bytes src chunk)));
        match r with
        | inl e => mret (at_, cluster, done, e)
        | inr _ =>
            let done := done + chunk in
            link ← try_ (if (done <? count) && (u32 (offset + done) .& cluster_mask =? 0) then
                           link ← fat_next g cluster;
                           next ← match link with
                                  | Some next => mret next
                                  | None => chain_grow g cluster (count - done <? cluster_mask + 1)
                                  end;
                           mret (at_ + 1, next)
                         else mret (at_, cluster));
            match link with
            | inl e => mret (at_, cluster, done, e)
            | inr (at_, cluster) => put_loop fuel' offset count cluster at_ done (drop (Z.to_nat chunk) <$> src)
            end
        end
  end.

(** The node, the bytes written and the error (0 for none). *)
Definition file_put (node : fat32_node) (offset : Z) (src : option (list Z)) (count : Z) : M (fat32_node * Z * Z) :=
  let index := offset .>> cluster_shift in
  let covered := (offset .& cluster_mask =? 0) && (cluster_mask + 1 <=? count) in
  let '(at_, cluster) := start_at node index in
  start ← try_ (if cluster <? 2 then
                  cluster ← chain_grow g 0 (negb ((index =? 0) && covered));
                  mret (0, cluster, set_dirty_node true (set_chain 0 cluster (set_info (with_first cluster (n_info node)) node)))
                else mret (at_, cluster, node));
  match start with
  | inl e => mret (node, 0, e)
  | inr (at_, cluster, node) =>
      w ← try_ (put_walk (Z.to_nat (index - at_)) at_ index covered cluster);
      match w with
      | inl e => mret (node, 0, e)
      | inr cluster =>
          r ← put_loop (Z.to_nat count) offset count cluster (Z.max at_ index) 0 src;
          let '(at_, cluster, done, error) := r in
          mret (set_chain at_ cluster node, done, error)
      end
  end.

Definition write_check (node : fat32_node) : Z :=
  if has_attr FAT32_ATTR_DIR (n_info node) then - EISDIR
  else if readonly g then - EROFS
  else if has_attr FAT32_ATTR_RO (n_info node) then - EACCES
  else 0.

(** ** fat32_write *)
Definition fat32_write (node : fat32_node) (offset : Z) (buffer : option (list Z)) (count : Z) : M (fat32_node * (Z + Z)) :=
  let check := write_check node in
  if check <? 0 then mret (node, inl check)
  else if bool_decide (buffer = None) && negb (count =? 0) then mret (node, inl (- EINVAL))
  else if count =? 0 then mret (node, inr 0)
  else if offset =? FAT32_MAX_SIZE then mret (node, inl (- EFBIG))
  else
  let count := if 0x7FFFFFFF <? count then 0x7FFFFFFF else count in
  let count := if FAT32_MAX_SIZE - offset <? count then FAT32_MAX_SIZE - offset else count in
  let size := i_size (n_info node) in
  hole ← (if size <? offset then
            r ← file_put node size None (offset - size);
            let '(node, hole_done, result) := r in
            node ← (if negb (hole_done =? 0) then node_touch node (Some (u32 (size + hole_done))) else mret node);
            mret (node, result)
          else mret (node, 0));
  let '(node, result) := hole in
  if result <? 0 then mret (node, inl result)
  else
  r ← file_put node offset buffer count;
  let '(node, done, result) := r in
  node ← node_touch node (if negb (done =? 0) then Some (u32 (offset + done)) else None);
  mret (node, if negb (done =? 0) then inr done else inl (if result <? 0 then result else - EIO)).

(** ** fat32_truncate *)

(** The last cluster kept and the head of the tail (0 for none). *)
Definition find_tail (node : fat32_node) (keep : Z) : M (Z * Z) :=
  let old_first := i_first (n_info node) in
  if negb (keep =? 0) && (2 <=? old_first) then
    let '(at_, cluster) := start_at node (keep - 1) in
    (fix short_walk (n : nat) (cluster : Z) : M (Z * Z) :=
       match n with
       | O =>
           link ← fat_next g cluster;
           mret (cluster, default 0 link)
       | Datatypes.S n' =>
           link ← fat_next g cluster;
           match link with
           | None => mret (0, 0)
           | Some next => short_walk n' next
           end
       end) (Z.to_nat (keep - 1 - at_)) cluster
  else mret (0, if keep =? 0 then old_first else 0).

Definition fat32_truncate (node : fat32_node) (new_size : Z) : M (fat32_node * (Z + unit)) :=
  let check := write_check node in
  if check <? 0 then mret (node, inl check)
  else
  let size := i_size (n_info node) in
  if new_size =? size then mret (node, inr tt)
  else if size <? new_size then
    r ← file_put node size None (new_size - size);
    let '(node, done, result) := r in
    node ← (if negb (done =? 0) then node_touch node (Some (u32 (size + done))) else mret node);
    mret (node, if result <? 0 then inl result else inr tt)
  else
  let keep := (new_size .>> cluster_shift) + (if negb (new_size .& cluster_mask =? 0) then 1 else 0) in
  lt ← try_ (find_tail node keep);
  match lt with
  | inl e => mret (node, inl e)
  | inr (last, tail) =>
      now ← fat_now;
      let saved := node in
      let i := with_size new_size (n_info node) in
      let i := if keep =? 0 then with_first 0 i else i in
      let i := with_time now.1 now.2 i in
      let i := with_attr (u8 (i_attr i .| FAT32_ATTR_ARCH)) i in
      let node := set_dirty_node true (set_info i node) in
      let node := if keep <=? chain_index node then set_chain 0 0 node else node in
      r ← fat32_node_sync node;
      let '(node, result) := r in
      match result with
      | inl e =>
          let i := n_info node in
          let i := with_size (i_size (n_info saved)) i in
          let i := with_first (i_first (n_info saved)) i in
          let i := with_time (i_wdate (n_info saved)) (i_wtime (n_info saved)) i in
          mret (set_chain 0 0 (set_dirty_node (n_dirty saved) (set_info i node)), inl e)
      | inr _ =>
          result ← try_ (_ ← (if negb (keep =? 0) && negb (last =? 0) then fat_set g last FAT32_EOC else mret tt);
                         if negb (tail =? 0) then cluster_free_chain g tail else mret tt);
          mret (node, result)
      end
  end.
End Ops.
