(* ===== verification/FatIO.v ===== *)
(** * fat32.c: what reading and writing a file does

    The content of a file is the bytes of the clusters of its chain, up to its
    size ([content]). [file_ok] ties a node to its chain. The theorems say
    what fat32_read returns and what fat32_write leaves, in terms of the
    content, and that nothing else on the volume changes. *)
From S2P Require Import Prelude CString Blk Disk Fat FatTab FatFile.

Open Scope tach_scope.

Lemma take_drop_total (d : list Z) (a n : Z) : 0 <= a -> 0 <= n -> a + n <= Z.of_nat (length d) ->
  take (Z.to_nat n) (drop (Z.to_nat a) d) = (fun j => d !!! idx j) <$> seqZ a n.
Proof.
  intros Ha Hn Hl. apply list_eq. intros k. rewrite list_lookup_fmap. destruct (decide (Z.of_nat k < n)).
  - rewrite lookup_take_lt, lookup_drop, lookup_seqZ_lt by lia. simpl. rewrite list_lookup_lookup_total_lt by lia. do 2 f_equal. unfold idx. lia.
  - rewrite lookup_take_ge, lookup_seqZ_ge by lia. done.
Qed.

Section Content.
Context {S : Type} `{DiskOk S} (g : geo) (Hg : geo_ok g).
Implicit Types s : fs S.
Abbreviation view_ s := (dk_view (disk s)).

(** Bytes per cluster. *)
Definition csz : Z := spc g * 512.

Lemma csz_pow : csz = 2 ^ cluster_shift g.
Proof. unfold csz, cluster_shift. destruct (go_spc g Hg) as [Hs ->]. by rewrite Z.pow_add_r by lia. Qed.
Lemma csz_pos : 512 <= csz <= 65536.
Proof. unfold csz. pose proof (spc_range g Hg). lia. Qed.
Lemma mask_eq x : x .& cluster_mask g = x mod csz.
Proof.
  unfold cluster_mask. rewrite Z.shiftl_1_l, csz_pow. apply land_low_mask. unfold cluster_shift. destruct (go_spc g Hg). lia.
Qed.
Lemma mask_size : cluster_mask g + 1 = csz.
Proof. unfold cluster_mask. rewrite Z.shiftl_1_l, csz_pow. lia. Qed.
Lemma shift_eq x : x .>> cluster_shift g = x / csz.
Proof. rewrite csz_pow. apply Z.shiftr_div_pow2. unfold cluster_shift. destruct (go_spc g Hg). lia. Qed.
Lemma shr9 x : x .>> 9 = x / 512.
Proof. by rewrite Z.shiftr_div_pow2. Qed.
Lemma and511 x : x .& 511 = x mod 512.
Proof. apply (land_low_mask x 9). lia. Qed.

Lemma mod_csz_512 x : (x mod csz) mod 512 = x mod 512.
Proof. apply Z.mod_mod_divide. exists (spc g). done. Qed.

(** Moving inside a cluster, and to the next one. *)
Lemma csz_step pos c : 0 <= c -> pos mod csz + c < csz -> (pos + c) / csz = pos / csz /\ (pos + c) mod csz = pos mod csz + c.
Proof.
  intros Hc Hl. pose proof csz_pos. pose proof (Z.mod_pos_bound pos csz ltac:(lia)). pose proof (Z.div_mod pos csz ltac:(lia)).
  split; [symmetry; apply (Z.div_unique _ _ _ (pos mod csz + c)); lia|symmetry; apply (Z.mod_unique _ _ (pos / csz)); lia].
Qed.
Lemma csz_next pos c : pos mod csz + c = csz -> (pos + c) / csz = pos / csz + 1 /\ (pos + c) mod csz = 0.
Proof.
  intros Hl. pose proof csz_pos. pose proof (Z.div_mod pos csz ltac:(lia)).
  split; [symmetry; apply (Z.div_unique _ _ _ 0); lia|symmetry; apply (Z.mod_unique _ _ (pos / csz + 1)); lia].
Qed.

(** The sector of byte [o] of the file with chain [l], and the byte. *)
Definition flba (l : list Z) (o : Z) : Z := clba g (l !!! idx (o / csz)) + (o mod csz) / 512.
Definition fbyte s (l : list Z) (o : Z) : Z := view_ s (flba l o) !!! idx (o mod 512).
Definition content s (l : list Z) (size : Z) : list Z := fbyte s l <$> seqZ 0 size.

Lemma flba_step l pos c : 0 <= c -> pos mod csz + c < csz -> flba l (pos + c) = clba g (l !!! idx (pos / csz)) + (pos mod csz + c) / 512.
Proof. intros. unfold flba. destruct (csz_step pos c) as [-> ->]; done. Qed.

Lemma file_slice s l pos n :
  dk_inv (disk s) -> 0 <= n -> pos mod 512 + n <= 512 ->
  take (Z.to_nat n) (drop (Z.to_nat (pos mod 512)) (view_ s (flba l pos))) = fbyte s l <$> seqZ pos n.
Proof.
  intros Hi Hn Hb. pose proof (Z.mod_pos_bound pos 512 ltac:(lia)). pose proof csz_pos as Hc.
  pose proof (dk_view_sector (disk s) (flba l pos) Hi) as Hsec. unfold is_sector, BLK_SECTOR_SIZE in Hsec.
  rewrite take_drop_total by lia. apply list_eq. intros k. rewrite !list_lookup_fmap. destruct (decide (Z.of_nat k < n)).
  2: { rewrite !lookup_seqZ_ge by lia. done. }
  rewrite !lookup_seqZ_lt by lia. simpl. f_equal. unfold fbyte.
  pose proof (mod_csz_512 pos) as Hm. pose proof (Z.mod_pos_bound pos csz ltac:(lia)) as Hp.
  assert (Hin : pos mod csz + Z.of_nat k < csz).
  { assert (csz mod 512 = 0) by (unfold csz; apply Z.mod_mul; lia). dlia. }
  rewrite flba_step by lia. unfold flba. replace ((pos mod csz + Z.of_nat k) / 512) with ((pos mod csz) / 512) by dlia.
  do 2 f_equal. dlia.
Qed.

Lemma file_run s l pos want :
  dk_inv (disk s) -> 0 <= want -> pos mod 512 = 0 -> (pos mod csz) / 512 + want <= spc g ->
  mjoin (view_ s <$> seqZ (flba l pos) want) = fbyte s l <$> seqZ pos (want * 512).
Proof.
  intros Hi Hw. revert pos. pattern want. apply natlike_ind; [done| |done]. clear want Hw. intros want Hw IH pos Hp Hb.
  rewrite seqZ_cons by lia. replace (Z.pred (Z.succ want)) with want by lia. rewrite fmap_cons. cbn [mjoin list_join].
  replace (Z.succ want * 512) with (512 + want * 512) by lia. rewrite seqZ_app by lia. rewrite fmap_app. f_equal.
  - rewrite <- file_slice by (done || lia). rewrite Hp. change (Z.to_nat 0) with 0%nat. rewrite drop_0. pose proof (dk_view_sector (disk s) (flba l pos) Hi) as Hsec.
    unfold is_sector, BLK_SECTOR_SIZE in Hsec. by rewrite take_ge by lia.
  - destruct (decide (want = 0)) as [->|Hnz]; [done|]. pose proof (mod_csz_512 pos) as Hm.
    pose proof csz_pos. pose proof (Z.mod_pos_bound pos csz ltac:(lia)).
    assert (Hin : pos mod csz + 512 < csz).
    { unfold csz at 2. rewrite Hp in Hm. clear - Hm Hb Hw Hnz. revert Hm Hb. generalize (pos mod csz). intros r Hm Hb. dlia. }
    rewrite <- IH; [|dlia|].
    + do 3 f_equal. rewrite flba_step by lia. unfold flba. dlia.
    + destruct (csz_step pos 512) as [_ ->]; [lia|lia|]. dlia.
Qed.

(** *** Walking a chain *)
Lemma chain_at s c l i x y : chain g s c l -> l !! i = Some x -> l !! Datatypes.S i = Some y -> linked g s x (Some y).
Proof.
  intros Hl. revert i. induction Hl as [c Hc Hn|c n l Hc Hn Hl IH]; intros i Hx Hy; [destruct i; done|].
  destruct i as [|i]; simpl in Hx, Hy; [|by eapply IH]. injection Hx as ->. pose proof (chain_head g _ _ _ Hl) as Hh.
  destruct l; simplify_eq/=. done.
Qed.

Lemma chain_at_end s c l i x : chain g s c l -> l !! i = Some x -> Datatypes.S i = length l -> linked g s x None.
Proof.
  intros Hl. revert i. induction Hl as [c Hc Hn|c n l Hc Hn Hl IH]; intros i Hx Hy; simpl in Hy.
  - destruct i; [|done]. by injection Hx as <-.
  - destruct i as [|i]; [destruct l; [inversion Hl|done]|]. eapply IH; [exact Hx|lia].
Qed.

Lemma chain_lookup_in s c l i x : chain g s c l -> l !! i = Some x -> in_vol g x.
Proof. intros Hl Hx. pose proof (chain_in_vol g _ _ _ Hl) as Hv. by eapply Forall_lookup_1. Qed.

(** [fat_next] at position [i] of a chain that goes on. *)
Lemma fat_next_chain s c l i x :
  dk_inv (disk s) -> chain g s c l -> l !! i = Some x ->
  wp (fat_next g x) s (fun s' r => exists d, s' = set_disk d s /\ dk_inv d /\ same_view s s' /\
    match r with
    | inl e => e < 0 /\ ~ dk_reliable
    | inr o => o = l !! Datatypes.S i
    end).
Proof.
  intros Hi Hl Hx. pose proof (chain_lookup_in _ _ _ _ _ Hl Hx) as Hv.
  assert (Hlink : linked g s x (l !! Datatypes.S i)).
  { destruct (l !! Datatypes.S i) as [y|] eqn:Ey; [by eapply chain_at|]. eapply chain_at_end; [done|done|].
    apply lookup_ge_None in Ey. apply lookup_lt_Some in Hx. lia. }
  wp_apply (fat_next_wp g Hg x s Hi Hv). intros s' r (d & -> & Hd & Hsv & Hr). exists d. split_and!; [done|done|done|]. destruct r as [e|o].
  - destruct Hr as [He Hbad]. split; [done|]. intros Hrel. by apply (Hbad Hrel _ Hlink).
  - by eapply linked_fun.
Qed.

Lemma chain_view s s' c l : same_view s s' -> chain g s c l -> chain g s' c l.
Proof. intros Hv. apply chain_same. intros. by apply same_view_fat. Qed.
Lemma fbyte_view s s' l o : same_view s s' -> fbyte s' l o = fbyte s l o.
Proof. intros Hv. unfold fbyte. by rewrite Hv. Qed.

Lemma walk_wp n s c l i x :
  dk_inv (disk s) -> chain g s c l -> l !! i = Some x -> (i + n < length l)%nat ->
  wp (walk g n x) s (fun s' r => exists d, s' = set_disk d s /\ dk_inv d /\ same_view s s' /\
    match r with inl e => e < 0 /\ ~ dk_reliable | inr y => l !! (i + n)%nat = Some y end).
Proof.
  revert s i x. induction n as [|n IH]; intros s i x Hi Hl Hx Hn; cbn [walk].
  { apply wp_ret. exists (disk s). destruct s. rewrite Nat.add_0_r. done. }
  apply wp_bind. wp_apply (fat_next_chain s c l i x Hi Hl Hx). intros s1 r (d & -> & Hd & Hv & Hr). destruct r as [e|o]; [by exists d|].
  destruct (lookup_lt_is_Some_2 l (Datatypes.S i)) as [y Hy]; [lia|]. rewrite Hy in Hr. subst o.
  wp_apply (IH (set_disk d s) (Datatypes.S i) y Hd (chain_view _ _ _ _ Hv Hl) Hy); [lia|].
  intros s2 r (d2 & -> & Hd2 & Hv2 & Hr). exists d2. replace (i + Datatypes.S n)%nat with (Datatypes.S i + n)%nat by lia.
  split_and!; try done. intros q. by rewrite Hv2, Hv.
Qed.

(** *** The copy loop of fat32_read *)

(** Where byte [pos] is, in the terms of the code. *)
Lemma pos_lba l pos c : l !! idx (pos / csz) = Some c -> in_vol g c -> cluster_lba g c + ((pos .& cluster_mask g) .>> 9) = flba l pos.
Proof.
  intros Hl Hc. unfold flba. rewrite mask_eq, shr9, cluster_lba_eq by done. by rewrite (list_lookup_total_correct _ _ _ Hl).
Qed.

Lemma flba_range l pos c : l !! idx (pos / csz) = Some c -> in_vol g c -> 0 <= flba l pos /\ flba l pos + (spc g - (pos mod csz) / 512) <= dk_sectors /\ in_cluster g c (flba l pos).
Proof.
  intros Hl Hc. unfold flba. rewrite (list_lookup_total_correct _ _ _ Hl). pose proof csz_pos as Hp. pose proof (Z.mod_pos_bound pos csz ltac:(lia)).
  assert (0 <= pos mod csz / 512 < spc g) by (unfold csz in *; split; dlia || (apply Z.div_lt_upper_bound; lia)).
  pose proof (in_cluster_range g Hg c (clba g c + spc g - 1) Hc ltac:(unfold in_cluster; lia)). pose proof (data_positive g Hg).
  pose proof (in_cluster_range g Hg c (clba g c) Hc ltac:(unfold in_cluster; lia)). unfold in_cluster. lia.
Qed.

(** One transfer of the loop: [chunk] bytes from [pos], inside its cluster. *)
Definition xfer_chunk (pos left : Z) : Z :=
  if (pos mod 512 =? 0) && (512 <=? left) then 512 * Z.min (left / 512) (spc g - (pos mod csz) / 512)
  else Z.min left (512 - pos mod 512).

Lemma xfer_chunk_ok pos left : 0 < left -> 0 < xfer_chunk pos left <= left /\ pos mod csz + xfer_chunk pos left <= csz.
Proof.
  intros Hl. unfold xfer_chunk. pose proof csz_pos as Hp. pose proof (Z.mod_pos_bound pos csz ltac:(lia)) as Hm. pose proof (mod_csz_512 pos) as E.
  rewrite <- E. clear E. revert Hm. generalize (pos mod csz). intros r Hm. assert (Ec : csz = spc g * 512) by done. rewrite Ec in *. clear Ec.
  destruct ((r mod 512 =? 0) && (512 <=? left)) eqn:Eb; dlia.
Qed.

Definition read_post s l pos left (s' : fs S) (r : Z + Z * Z * Z * list Z) : Prop :=
  exists d at' cl' e data, s' = set_disk d s /\ dk_inv d /\ same_view s s' /\ r = inr (at', cl', e, data) /\
    0 <= at' /\ l !! idx at' = Some cl' /\ e <= 0 /\ data = fbyte s l <$> seqZ pos (Z.of_nat (length data)) /\
    Z.of_nat (length data) <= left /\ (e = 0 -> Z.of_nat (length data) = left) /\ (e < 0 -> ~ dk_reliable).

Lemma xfer_read_wp s l pos left c :
  dk_inv (disk s) -> l !! idx (pos / csz) = Some c -> in_vol g c -> 0 < left ->
  wp (let in_cluster := pos .& cluster_mask g in
      let sector := in_cluster .>> 9 in
      let in_sector := in_cluster .& 511 in
      let lba := cluster_lba g c + sector in
      if (in_sector =? 0) && (BLK_SECTOR_SIZE <=? left) then
        let want := left .>> 9 in
        let want := if spc g - sector <? want then spc g - sector else want in
        ss ← read_sectors lba want; mret (want .<< 9, mjoin ss)
      else
        let chunk := BLK_SECTOR_SIZE - in_sector in
        let chunk := if left <? chunk then left else chunk in
        read_sector lba (fun d => (chunk, take (Z.to_nat chunk) (drop (Z.to_nat in_sector) d)))) s
     (fun s' r => exists d, s' = set_disk d s /\ dk_inv d /\ same_view s s' /\
        match r with
        | inl e => e < 0 /\ ~ dk_reliable
        | inr (n, data) => n = xfer_chunk pos left /\ data = fbyte s l <$> seqZ pos n
        end).
Proof.
  intros Hi Hl Hc Hleft. cbv zeta. rewrite (pos_lba l pos c Hl Hc), mask_eq, shr9, and511, mod_csz_512.
  destruct (flba_range l pos c Hl Hc) as (Hb1 & Hb2 & Hin). pose proof (Z.mod_pos_bound pos 512 ltac:(lia)) as Hm.
  pose proof (in_cluster_range g Hg c _ Hc Hin) as Hdev. unfold BLK_SECTOR_SIZE.
  destruct ((pos mod 512 =? 0) && (512 <=? left)) eqn:Eb.
  - rewrite shr9. set (want := if _ <? _ then _ else _).
    assert (Hw : want = Z.min (left / 512) (spc g - pos mod csz / 512)) by (unfold want; split_ifs; lia).
    assert (Ew : want .<< 9 = xfer_chunk pos left) by (rewrite Z.shiftl_mul_pow2 by lia; unfold xfer_chunk; rewrite Eb, Hw; lia).
    pose proof (xfer_chunk_ok pos left Hleft) as Hx. assert (Hw0 : 0 < want) by (rewrite Z.shiftl_mul_pow2 in Ew by lia; lia). clearbody want.
    apply wp_bind. unfold wp at 1, read_sectors. destruct (dk_read (flba l pos) want (disk s)) as [d r] eqn:E.
    destruct (dk_read_ok _ _ _ _ _ E Hi Hb1 Hw0) as (Hd & Hv & Hr). simpl. destruct r as [e|out].
    + exists d. destruct Hr as [He Hrel]. split_and!; try done. apply Hrel. lia.
    + apply wp_ret. exists d. destruct Hr as [_ ->]. split_and!; try done. rewrite file_run by (done || lia).
      by rewrite Z.shiftl_mul_pow2 by lia.
  - set (chunk := if _ <? _ then _ else _). assert (Ec : chunk = xfer_chunk pos left) by (unfold chunk, xfer_chunk; rewrite Eb; split_ifs; lia).
    pose proof (xfer_chunk_ok pos left Hleft) as Hx. assert (Hc1 : chunk <= 512 - pos mod 512) by (unfold chunk; split_ifs; lia). clearbody chunk.
    wp_apply (read_sector_wp (flba l pos) _ s Hi Hb1). intros s' r (d & -> & Hd & Hv & Hr). exists d. split_and!; try done.
    destruct r as [e|a].
    + destruct Hr as [He Hrel]. split; [done|]. apply Hrel. lia.
    + destruct Hr as [_ ->]. split; [done|]. apply file_slice; [done|lia|lia].
Qed.

Lemma fat_read_loop_wp fuel count c0 l cluster at_ pos done s :
  dk_inv (disk s) -> chain g s c0 l -> 0 <= at_ -> l !! idx at_ = Some cluster -> (done < count -> at_ = pos / csz) -> 0 <= pos ->
  done <= count -> count - done <= Z.of_nat fuel -> pos + (count - done) <= Z.of_nat (length l) * csz -> pos + (count - done) <= FAT32_MAX_SIZE ->
  wp (fat_read_loop g fuel count cluster at_ pos done) s (read_post s l pos (count - done)).
Proof.
  revert cluster at_ pos done s. induction fuel as [|fuel IH]; intros cluster at_ pos done s Hi Hl Ha Hcl Hat Hp Hd Hf Hlen Hmax; cbn [fat_read_loop].
  { apply wp_ret. exists (disk s), at_, cluster, 0, []. destruct s. simpl. split_and!; try done; lia. }
  destruct (Z.ltb_spec done count) as [Hlt|Hge]; simpl negb; cbv iota.
  2: { apply wp_ret. exists (disk s), at_, cluster, 0, []. destruct s. simpl. split_and!; try done; lia. }
  specialize (Hat Hlt). subst at_. pose proof (chain_lookup_in _ _ _ _ _ Hl Hcl) as Hv.
  pose proof (xfer_chunk_ok pos (count - done) ltac:(lia)) as Hx.
  apply wp_bind, wp_try. wp_apply (xfer_read_wp s l pos (count - done) cluster Hi Hcl Hv ltac:(lia)).
  intros s1 r (d & -> & Hd1 & Hv1 & Hr). destruct r as [e|[chunk data]].
  { apply wp_ret. exists d, (pos / csz), cluster, e, []. destruct Hr. simpl. split_and!; try done; lia. }
  destruct Hr as [-> ->]. set (chunk := xfer_chunk pos (count - done)) in *. clearbody chunk.
  rewrite (u32_small (pos + chunk)) by (unfold is_u32, FAT32_MAX_SIZE in *; lia).
  set (data := fbyte s l <$> seqZ pos chunk). assert (Hdl : Z.of_nat (length data) = chunk) by (unfold data; rewrite length_fmap, length_seqZ; lia).
  set (Post := fun (s2 : fs S) (r : Z + Z * Z) => exists d2, s2 = set_disk d2 s /\ dk_inv d2 /\ same_view s s2 /\
    match r with
    | inl e => e < 0 /\ ~ dk_reliable
    | inr (a, c) => 0 <= a /\ l !! idx a = Some c /\ (done + chunk < count -> a = (pos + chunk) / csz)
    end).
  assert (Hlink : wp (if (done + chunk <? count) && ((pos + chunk) .& cluster_mask g =? 0) then
      next ← fat_next g cluster; match next with None => fail (- EIO) | Some next => mret (pos / csz + 1, next) end
      else mret (pos / csz, cluster)) (set_disk d s) Post).
  { rewrite mask_eq. destruct ((done + chunk <? count) && ((pos + chunk) mod csz =? 0)) eqn:Eb.
    - assert (Hend : pos mod csz + chunk = csz).
      { destruct (Z.eq_dec (pos mod csz + chunk) csz); [done|]. destruct (csz_step pos chunk) as [_ E2]; [lia|lia|].
        pose proof (Z.mod_pos_bound pos csz). pose proof csz_pos. lia. }
      destruct (csz_next pos chunk Hend) as [Enext _]. apply wp_bind.
      wp_apply (fat_next_chain (set_disk d s) c0 l _ cluster Hd1 (chain_view _ _ _ _ Hv1 Hl) Hcl).
      intros s2 r (d2 & -> & Hd2 & Hv2 & Hr). assert (Hv2' : same_view s (set_disk d2 (set_disk d s))) by (intros q; by rewrite Hv2, Hv1).
      destruct r as [e|o]; [by exists d2|]. destruct (lookup_lt_is_Some_2 l (Datatypes.S (idx (pos / csz)))) as [y Hy].
      { apply Nat2Z.inj_lt. rewrite Nat2Z.inj_succ. unfold idx. rewrite Z2Nat.id by lia. apply (Z.mul_lt_mono_pos_r csz); [pose proof csz_pos; lia|].
        pose proof (Z.div_mod pos csz). pose proof csz_pos. lia. }
      rewrite Hy in Hr. subst o. apply wp_ret. exists d2. split_and!; try done; try lia.
      replace (idx (pos / csz + 1)) with (Datatypes.S (idx (pos / csz))) by (unfold idx; lia). done.
    - apply wp_ret. exists d. split_and!; try done. intros Hlt2. destruct (csz_step pos chunk) as [E1 E2]; [lia| |done].
      destruct (Z.eq_dec (pos mod csz + chunk) csz) as [Hend|]; [|lia]. destruct (csz_next pos chunk Hend) as [_ E2]. lia. }
  apply wp_bind, wp_try. eapply wp_mono; [exact Hlink|]. intros s2 r (d2 & -> & Hd2 & Hv2 & Hr). destruct r as [e|[a c]].
  { apply wp_ret. exists d2, (pos / csz), cluster, e, data. destruct Hr. rewrite Hdl. split_and!; try done; lia. }
  destruct Hr as (Ha2 & Hc2 & Hat2). apply wp_bind.
  eapply wp_mono; [apply (IH c a (pos + chunk) (done + chunk) (set_disk d2 s) Hd2 (chain_view _ _ _ _ Hv2 Hl) Ha2 Hc2 Hat2); lia|].
  intros s3 r (d3 & a3 & c3 & e3 & data3 & -> & Hd3 & Hv3 & -> & H1 & H2 & H3 & H4 & H5 & H6 & H7). apply wp_ret.
  exists d3, a3, c3, e3, (data ++ data3). rewrite length_app, Nat2Z.inj_add, Hdl. split_and!; try done; try lia.
  - intros q. by rewrite Hv3, Hv2.
  - rewrite seqZ_app, fmap_app by lia. unfold data at 1. f_equal. rewrite H4 at 1. apply list_fmap_ext. intros _ o _. by apply fbyte_view.
Qed.

(** *** Files *)

(** [l] is the chain of [node], long enough for its size, and the cached
    position is on it. *)
Record file_ok s (node : fat32_node) (l : list Z) : Prop := {
  fo_chain : (l = [] /\ i_first (n_info node) = 0) \/ chain g s (i_first (n_info node)) l;
  fo_size : 0 <= i_size (n_info node) <= Z.of_nat (length l) * csz;
  fo_max : i_size (n_info node) <= FAT32_MAX_SIZE;
  fo_cache : chain_cluster node = 0 \/ (0 <= chain_index node /\ l !! idx (chain_index node) = Some (chain_cluster node))
}.

Lemma file_ok_view s s' node l : same_view s s' -> file_ok s node l -> file_ok s' node l.
Proof. intros Hv [[?|Hc] ? ? ?]; split; auto. right. by eapply chain_view. Qed.

Lemma content_slice s l size off n : 0 <= off -> off + Z.of_nat n <= size ->
  take n (drop (Z.to_nat off) (content s l size)) = fbyte s l <$> seqZ off (Z.of_nat n).
Proof.
  intros Ho Hn. unfold content. replace size with (off + (Z.of_nat n + (size - off - Z.of_nat n))) by lia. rewrite !seqZ_app by lia.
  rewrite !fmap_app, drop_app_length' by (rewrite length_fmap, length_seqZ; lia). rewrite Z.add_0_l.
  by rewrite take_app_length' by (rewrite length_fmap, length_seqZ; lia).
Qed.

Lemma start_at_ok s node l index : file_ok s node l -> 0 <= index -> l <> [] ->
  exists a c, start_at node index = (a, c) /\ 0 <= a <= index /\ l !! idx a = Some c /\ in_vol g c /\ chain g s (i_first (n_info node)) l.
Proof.
  intros [[[? _]|Hc] Hs Hm Hcache] Hi Hne; [done|]. unfold start_at.
  destruct (negb (chain_cluster node =? 0) && (chain_index node <=? index)) eqn:E.
  - destruct Hcache as [E0|[Ha Hl]]; [rewrite E0 in E; done|]. eexists _, _. split; [reflexivity|]. split_and!; [lia|lia|done|by eapply chain_lookup_in|done].
  - eexists _, _. split; [reflexivity|]. pose proof (chain_head g _ _ _ Hc) as Hh. rewrite head_lookup in Hh.
    split_and!; [lia|lia|done|by eapply chain_lookup_in|done].
Qed.

Lemma fat32_read_wp node l offset count s :
  dk_inv (disk s) -> file_ok s node l -> has_attr FAT32_ATTR_DIR (n_info node) = false -> 0 <= offset -> 0 <= count ->
  wp (fat32_read g node offset true count) s (fun s' r => exists d node' res,
    s' = set_disk d s /\ dk_inv d /\ same_view s s' /\ r = inr (node', res) /\ n_info node' = n_info node /\ n_dirty node' = n_dirty node /\ file_ok s' node' l /\
    let want := Z.min (Z.min count 0x7FFFFFFF) (Z.max 0 (i_size (n_info node) - offset)) in
    match res with
    | inl e => e < 0 /\ ~ dk_reliable
    | inr data => Z.of_nat (length data) <= want /\ (0 < want -> data <> []) /\ (dk_reliable -> Z.of_nat (length data) = want) /\
        data = take (length data) (drop (Z.to_nat offset) (content s l (i_size (n_info node))))
    end).
Proof.
  intros Hi Hf Hdir Ho Hc. unfold fat32_read. rewrite Hdir. simpl negb. simpl andb. cbv iota zeta.
  pose proof (fo_size _ _ _ Hf) as Hs. pose proof (fo_max _ _ _ Hf) as Hmax. set (size := i_size (n_info node)) in *.
  destruct ((size <=? offset) || (count =? 0)) eqn:E0.
  { apply wp_ret. exists (disk s), node, (inr []). destruct s. simpl. split_and!; try done; lia. }
  set (count' := if 0x7FFFFFFF <? _ then _ else _).
  assert (Hc' : count' = Z.min (Z.min count 0x7FFFFFFF) (Z.max 0 (size - offset)) /\ 0 < count') by (unfold count'; split_ifs; lia).
  destruct Hc' as [Ec Hpos]. clearbody count'. rewrite <- Ec. rewrite shift_eq.
  assert (Hne : l <> []) by (intros ->; simpl in Hs; lia). pose proof csz_pos as Hcsz.
  assert (Hq : 0 <= offset / csz) by (apply Z.div_pos; lia).
  assert (Hidx : (idx (offset / csz) < length l)%nat).
  { apply Nat2Z.inj_lt. unfold idx. rewrite Z2Nat.id by done. apply Z.div_lt_upper_bound; lia. }
  destruct (start_at_ok _ _ _ _ Hf Hq Hne) as (a & c & -> & Ha & Hcl & Hv & Hch).
  replace (c <? 2) with false by (unfold in_vol in Hv; lia).
  apply wp_bind, wp_try. wp_apply (walk_wp (Z.to_nat (offset / csz - a)) s _ l (idx a) c Hi Hch Hcl). { unfold idx in *. lia. }
  intros s1 r (d & -> & Hd & Hv1 & Hr). destruct r as [e|y].
  { apply wp_ret. destruct Hr as [Hr1 Hr2]. exists d, node, (inl e). split_and!; try done. by eapply file_ok_view. }
  replace (idx a + Z.to_nat (offset / csz - a))%nat with (idx (offset / csz)) in Hr by (unfold idx; lia). rewrite Z.max_r by lia.
  apply wp_bind. eapply wp_mono; [apply (fat_read_loop_wp (Z.to_nat count') count' _ l y (offset / csz) offset 0 (set_disk d s) Hd (chain_view _ _ _ _ Hv1 Hch) Hq Hr); lia|].
  intros s2 r (d2 & a2 & c2 & e2 & data & -> & Hd2 & Hv2 & -> & H1 & H2 & H3 & H4 & H5 & H6 & H7). apply wp_ret.
  assert (Hsv : same_view s (set_disk d2 (set_disk d s))) by (intros q; by rewrite Hv2, Hv1).
  eexists d2, _, _. split_and!; [done|done|exact Hsv|reflexivity|done|done| |].
  { eapply file_ok_view; [exact Hsv|]. destruct Hf. split; try done. right. split; done. }
  destruct (Z.eqb_spec (Z.of_nat (length data)) 0) as [Ez|Enz]; simpl negb; cbv iota.
  - assert (e2 < 0) by lia. replace (e2 <? 0) with true by lia. split; [done|auto].
  - split_and!; [lia| | |].
    + intros _ ->. done.
    + intros Hrel. rewrite H6; [lia|]. assert (~ e2 < 0) by (intros He; by apply H7). lia.
    + rewrite content_slice by lia. rewrite H4 at 1. apply list_fmap_ext. intros _ o _. by apply fbyte_view.
Qed.
End Content.
