(* ===== verification/FatWrite.v ===== *)
(** * fat32.c: writing files

    [put_inv] is the invariant of file_put: from the state [s0] and the chain
    [l0] it started with, the chain has only grown by clusters that were free,
    the bytes written so far are the source's, the bytes outside the range are
    as they were, and every other chain and its data are untouched
    ([safe]). *)
From S2P Require Import Prelude CString Blk Disk Fat FatTab FatFile FatIO.

Open Scope tach_scope.

Lemma length_chop n b : length (chop n b) = n.
Proof. revert b. induction n as [|n IH]; intros b; simpl; [done|]. by rewrite IH. Qed.

Lemma chop_lookup n b k : (k < n)%nat -> chop n b !! k = Some (take 512 (drop (k * 512) b)).
Proof.
  revert b k. induction n as [|n IH]; intros b [|k] Hk; cbn [chop]; [lia|lia|done|]. cbn [lookup list_lookup]. rewrite IH by lia.
  rewrite drop_drop. do 2 f_equal.
Qed.

Lemma chop_sectors n b : (n * 512 <= length b)%nat -> Forall is_sector (chop n b).
Proof.
  intros Hl. apply Forall_lookup_2. intros k x Hx. assert (Hk : (k < n)%nat) by (apply lookup_lt_Some in Hx; by rewrite length_chop in Hx).
  rewrite chop_lookup in Hx by done. injection Hx as <-. unfold is_sector, BLK_SECTOR_SIZE. rewrite length_take, length_drop. lia.
Qed.

(** Byte [j] of the source. *)
Definition src_at (src : option (list Z)) (j : Z) : Z := match src with Some b => b !!! idx j | None => 0 end.
Definition src_len (src : option (list Z)) (n : Z) : Prop := match src with Some b => n <= Z.of_nat (length b) | None => True end.

Lemma src_at_drop src n j : 0 <= n -> 0 <= j -> src_at (drop (Z.to_nat n) <$> src) j = src_at src (n + j).
Proof. destruct src as [b|]; simpl; [|done]. intros. rewrite lookup_total_drop. f_equal. unfold idx. lia. Qed.
Lemma src_len_drop src n k : 0 <= n -> src_len src (n + k) -> src_len (drop (Z.to_nat n) <$> src) k.
Proof. destruct src as [b|]; simpl; [|done]. rewrite length_drop. lia. Qed.
Lemma src_bytes_at src n j : src_len src n -> 0 <= j < n -> src_bytes src n !!! idx j = src_at src j.
Proof.
  unfold idx. destruct src as [b|]; simpl; intros Hl Hj.
  - by rewrite lookup_total_take_lt by lia.
  - by rewrite lookup_total_replicate_2 by lia.
Qed.
Lemma length_src_bytes src n : src_len src n -> 0 <= n -> Z.of_nat (length (src_bytes src n)) = n.
Proof. destruct src as [b|]; simpl; intros Hl Hn; [rewrite length_take|rewrite length_replicate]; lia. Qed.

Section Write.
Context {S : Type} `{DiskOk S} (g : geo) (Hg : geo_ok g) (Hro : readonly g = false).
Implicit Types s : fs S.
Abbreviation view_ s := (dk_view (disk s)).
Abbreviation csz := (csz g).
Abbreviation fbyte := (fbyte g).
Abbreviation flba := (flba g).

(** *** What may change *)

(** Nothing allocated outside [l0] has changed since [s0]. *)
Record safe s0 (l0 : list Z) s : Prop := {
  sf_inv : fs_inv g s;
  sf_frame : frame s0 s;
  sf_fat c : in_vol g c -> fat g s0 c <> 0 -> c ∉ l0 -> fat g s c = fat g s0 c;
  sf_view x : outside g x -> (forall c, in_vol g c -> in_cluster g c x -> fat g s0 c <> 0 /\ c ∉ l0) -> view_ s x = view_ s0 x
}.

(** A cluster of the file: of the chain it had, or free before. *)
Definition mine s0 (l0 : list Z) (c : Z) : Prop := c ∈ l0 \/ fat g s0 c = 0.

Lemma safe_refl s l0 : fs_inv g s -> safe s l0 s.
Proof. intros Hi. by split. Qed.

Lemma safe_grow s0 l0 s s' prev zero r :
  safe s0 l0 s -> (prev <> 0 -> mine s0 l0 prev) -> grow_post g prev zero s s' r -> safe s0 l0 s'.
Proof.
  intros [A1 A2 A3 A4] Hp (B1 & B2 & B3 & B4 & _). split; [done|by etrans| |].
  - intros c Hc Hnz Hni. rewrite B4; [by apply A3|done|by rewrite A3|]. intros ->.
    destruct (Hp ltac:(unfold in_vol in Hc; lia)); done.
  - intros x Hx Hn. rewrite B3; [by apply A4|done|]. intros c Hc Hin. destruct (Hn c Hc Hin). by rewrite A3.
Qed.

Lemma safe_data s0 l0 s d c :
  safe s0 l0 s -> in_vol g c -> mine s0 l0 c -> dk_inv d -> (forall x, ~ in_cluster g c x -> dk_view d x = view_ s x) -> safe s0 l0 (set_disk d s).
Proof.
  intros [A1 A2 A3 A4] Hc Hm Hd Hv.
  assert (Ht : same_table g s (set_disk d s)).
  { intros x Hx. apply Hv. intros Hin. apply Hx. by eapply in_cluster_outside. }
  split; [by apply fs_inv_disk|done| |].
  - intros c' Hc' Hnz Hni. rewrite (same_table_fat g Hg s) by done. by apply A3.
  - intros x Hx Hn. rewrite <- A4 by done. apply Hv. intros Hin. destruct (Hn c Hc Hin). destruct Hm; done.
Qed.

(** *** The bytes of the file and the sectors of the disk *)
Lemma flba_in s c0 l o : chain g s c0 l -> 0 <= o < Z.of_nat (length l) * csz ->
  exists c, l !! idx (o / csz) = Some c /\ in_vol g c /\ in_cluster g c (flba l o).
Proof.
  clear Hro.
  intros Hl Ho. pose proof (csz_pos g Hg).
  destruct (lookup_lt_is_Some_2 l (idx (o / csz))) as [c Hc].
  { apply Nat2Z.inj_lt. unfold idx. rewrite Z2Nat.id by (apply Z.div_pos; lia). apply Z.div_lt_upper_bound; lia. }
  pose proof (chain_lookup_in g _ _ _ _ _ Hl Hc) as Hv. exists c. split_and!; [done|done|]. by apply flba_range.
Qed.

Lemma flba_inj s c0 l o p k :
  chain g s c0 l -> 0 <= o < Z.of_nat (length l) * csz -> 0 <= p < Z.of_nat (length l) * csz ->
  0 <= k -> (p mod csz) / 512 + k < spc g -> flba l o = flba l p + k <-> o / 512 = p / 512 + k.
Proof.
  clear Hro.
  intros Hl Ho Hp Hk Hb. pose proof (csz_pos g Hg) as Hcz. destruct (flba_in s c0 l o Hl Ho) as (c & Hc & Hcv & Hcin).
  destruct (flba_in s c0 l p Hl Hp) as (c' & Hc' & Hcv' & Hcin').
  assert (Ec : csz = spc g * 512) by done.
  pose proof (Z.div_mod o csz ltac:(lia)). pose proof (Z.div_mod p csz ltac:(lia)).
  pose proof (Z.mod_pos_bound o csz ltac:(lia)). pose proof (Z.mod_pos_bound p csz ltac:(lia)).
  assert (Hsplit : forall x, x / 512 = spc g * (x / csz) + (x mod csz) / 512).
  { intros x. pose proof (Z.div_mod x csz ltac:(lia)) as E. symmetry. apply (Z.div_unique _ _ _ ((x mod csz) mod 512)); [left; apply Z.mod_pos_bound; lia|].
    pose proof (Z.div_mod (x mod csz) 512 ltac:(lia)). lia. }
  split.
  - intros E. assert (Hin : in_cluster g c' (flba l o)).
    { rewrite E. unfold in_cluster, FatIO.flba in *. rewrite (list_lookup_total_correct _ _ _ Hc') in *. assert (0 <= p mod csz / 512) by (apply Z.div_pos; lia). lia. }
    pose proof (in_cluster_inj g Hg _ _ _ Hcin Hin) as ->.
    assert (Eq : o / csz = p / csz).
    { pose proof (NoDup_lookup _ _ _ _ (chain_nodup g Hg _ _ _ Hl) Hc Hc') as Ei. unfold idx in Ei.
      apply Z2Nat.inj in Ei; [done|apply Z.div_pos; lia|apply Z.div_pos; lia]. }
    unfold FatIO.flba in E. rewrite Eq in E. rewrite (Hsplit o), (Hsplit p), Eq. lia.
  - intros E. rewrite (Hsplit o), (Hsplit p) in E.
    assert (0 <= (o mod csz) / 512 < spc g) by (split; [apply Z.div_pos; lia|apply Z.div_lt_upper_bound; lia]).
    assert (0 <= (p mod csz) / 512) by (apply Z.div_pos; lia).
    assert (Eq : o / csz = p / csz) by nia. unfold FatIO.flba. rewrite Eq in *. lia.
Qed.

(** A range of bytes, seen from the sectors that hold it: [n] sectors from the
    one of [pos], all in its cluster. *)
Lemma fbyte_sectors s d c0 l pos n (f : Z -> sector) :
  chain g s c0 l -> 0 <= pos < Z.of_nat (length l) * csz -> pos mod 512 = 0 -> 0 <= n -> (pos mod csz) / 512 + n <= spc g ->
  (forall x, dk_view d x = if (flba l pos <=? x) && (x <? flba l pos + n) then f (x - flba l pos) else view_ s x) ->
  forall o, 0 <= o < Z.of_nat (length l) * csz ->
    fbyte (set_disk d s) l o = if (pos <=? o) && (o <? pos + n * 512) then f ((o - pos) / 512) !!! idx ((o - pos) mod 512) else fbyte s l o.
Proof.
  clear Hro.
  intros Hl Hp Hal Hn Hb Hv o Ho. unfold FatIO.fbyte. cbn. rewrite Hv.
  pose proof (flba_inj s c0 l o pos) as Hinj.
  destruct ((pos <=? o) && (o <? pos + n * 512)) eqn:E.
  - assert (Ek : flba l o = flba l pos + (o - pos) / 512) by (apply Hinj; try done; dlia).
    rewrite Ek. replace ((_ <=? _) && _) with true by (symmetry; dlia).
    replace (flba l pos + (o - pos) / 512 - flba l pos) with ((o - pos) / 512) by lia. do 2 f_equal. dlia.
  - destruct ((flba l pos <=? flba l o) && (flba l o <? flba l pos + n)) eqn:E2; [|done].
    assert (o / 512 = pos / 512 + (flba l o - flba l pos)) by (apply Hinj; try done; lia). exfalso. dlia.
Qed.

(** The same for bytes inside one sector. *)
Lemma fbyte_patch s d c0 l pos bytes :
  chain g s c0 l -> dk_inv (disk s) -> 0 <= pos < Z.of_nat (length l) * csz -> pos mod 512 + Z.of_nat (length bytes) <= 512 ->
  (forall x, dk_view d x = if x =? flba l pos then patch (Z.to_nat (pos mod 512)) bytes (view_ s (flba l pos)) else view_ s x) ->
  forall o, 0 <= o < Z.of_nat (length l) * csz ->
    fbyte (set_disk d s) l o = if (pos <=? o) && (o <? pos + Z.of_nat (length bytes)) then bytes !!! idx (o - pos) else fbyte s l o.
Proof.
  clear Hro.
  intros Hl Hi Hp Hb Hv o Ho. unfold FatIO.fbyte. cbn. rewrite Hv.
  assert (Hin : flba l o = flba l pos <-> o / 512 = pos / 512).
  { pose proof (csz_pos g Hg). pose proof (Z.mod_pos_bound pos csz ltac:(lia)).
    assert (pos mod csz / 512 < spc g) by (apply Z.div_lt_upper_bound; [lia|]; change csz with (spc g * 512) in *; lia).
    rewrite <- (Z.add_0_r (flba l pos)), <- (Z.add_0_r (pos / 512)). apply (flba_inj s c0); try done; lia. }
  pose proof (dk_view_sector (disk s) (flba l pos) Hi) as Hsec. unfold is_sector, BLK_SECTOR_SIZE in Hsec.
  pose proof (Z.mod_pos_bound pos 512 ltac:(lia)). pose proof (Z.mod_pos_bound o 512 ltac:(lia)).
  destruct (Z.eqb_spec (flba l o) (flba l pos)) as [E|Hne].
  - apply Hin in E. rewrite patch_lookup by (unfold idx; lia). unfold idx.
    destruct (decide _) as [Hd|Hd]; destruct (Z.leb_spec pos o), (Z.ltb_spec o (pos + Z.of_nat (length bytes))); simpl; try (exfalso; dlia);
      first [by rewrite (proj2 Hin E) | f_equal; dlia].
  - assert (o / 512 <> pos / 512) by (intros E; by apply Hne, Hin).
    destruct (Z.leb_spec pos o), (Z.ltb_spec o (pos + Z.of_nat (length bytes))); simpl; try done. exfalso. dlia.
Qed.

(** *** One transfer *)
Definition wrote (s : fs S) (l : list Z) (pos n : Z) (src : option (list Z)) (s' : fs S) (r : Z + unit) : Prop :=
  (forall o, 0 <= o < Z.of_nat (length l) * csz -> ~ (pos <= o < pos + n) -> fbyte s' l o = fbyte s l o) /\
  match r with
  | inl e => e < 0 /\ ~ dk_reliable
  | inr _ => forall o, pos <= o < pos + n -> fbyte s' l o = src_at src (o - pos)
  end.

Lemma run_in_cluster l pos c n x :
  l !! idx (pos / csz) = Some c -> in_vol g c -> (pos mod csz) / 512 + n <= spc g -> flba l pos <= x < flba l pos + n -> in_cluster g c x.
Proof.
  clear Hro.
  intros Hl Hc Hb Hx. destruct (flba_range g Hg l pos c Hl Hc) as (_ & _ & Hin). unfold in_cluster in *.
  unfold FatIO.flba in *. rewrite (list_lookup_total_correct _ _ _ Hl) in *. lia.
Qed.

Lemma xfer_write_wp s c0 l pos left c src :
  dk_inv (disk s) -> chain g s c0 l -> 0 <= pos < Z.of_nat (length l) * csz -> l !! idx (pos / csz) = Some c -> 0 < left -> src_len src left ->
  let chunk := xfer_chunk g pos left in
  let want := Z.min (left / 512) (spc g - (pos mod csz) / 512) in
  wp (if (pos mod 512 =? 0) && (512 <=? left) then
        match src with
        | Some b => write_sectors (flba l pos) (chop (Z.to_nat want) b)
        | None => zero_sectors (seqZ (flba l pos) want)
        end
      else store_sector (flba l pos) (patch (Z.to_nat (pos mod 512)) (src_bytes src chunk))) s
     (fun s' r => exists d, s' = set_disk d s /\ dk_inv d /\ (forall x, ~ in_cluster g c x -> dk_view d x = view_ s x) /\ wrote s l pos chunk src s' r).
Proof.
  intros Hi Hl Hp Hcl Hleft Hsrc chunk want. pose proof (chain_lookup_in g _ _ _ _ _ Hl Hcl) as Hc.
  destruct (flba_range g Hg l pos c Hcl Hc) as (Hb1 & Hb2 & Hin). pose proof (in_cluster_range g Hg c _ Hc Hin) as Hdev.
  pose proof (xfer_chunk_ok g Hg pos left Hleft) as Hx. fold chunk in Hx. pose proof (Z.mod_pos_bound pos 512 ltac:(lia)) as Hm.
  pose proof (go_ro g Hg) as Er. rewrite Hro in Er. symmetry in Er.
  destruct ((pos mod 512 =? 0) && (512 <=? left)) eqn:Eb.
  - assert (Ec : chunk = want * 512) by (unfold chunk, xfer_chunk, want; rewrite Eb; lia). assert (Hw : 0 < want) by lia.
    assert (Hwb : (pos mod csz) / 512 + want <= spc g) by (unfold want; lia). assert (Hal : pos mod 512 = 0) by lia.
    assert (Hgen : forall (d : S) (n : Z) (f : Z -> sector) r, dk_inv d -> 0 <= n <= want ->
      (forall x, dk_view d x = if (flba l pos <=? x) && (x <? flba l pos + n) then f (x - flba l pos) else view_ s x) ->
      (match r : Z + unit with inl e => e < 0 /\ ~ dk_reliable
       | inr _ => n = want /\ forall j, 0 <= j < want * 512 -> f (j / 512) !!! idx (j mod 512) = src_at src j end) ->
      exists d', set_disk d s = set_disk d' s /\ dk_inv d' /\ (forall x, ~ in_cluster g c x -> dk_view d' x = view_ s x) /\ wrote s l pos chunk src (set_disk d s) r).
    { intros d n f r Hd Hn Hv Hr. exists d. split_and!; [done|done| |].
      - intros x Hnx. rewrite Hv. destruct ((flba l pos <=? x) && (x <? flba l pos + n)) eqn:E; [|done]. destruct Hnx.
        eapply (run_in_cluster l pos c n); try done; lia.
      - pose proof (fbyte_sectors s d c0 l pos n f Hl Hp Hal ltac:(lia) ltac:(lia) Hv) as Hf. split.
        + intros o Ho Hno. rewrite Hf by done. replace ((pos <=? o) && _) with false by lia. done.
        + destruct r as [e|u]; [done|]. destruct Hr as [-> Hr]. intros o Ho.
          pose proof (csz_pos g Hg). pose proof (Z.div_mod pos csz ltac:(lia)). pose proof (lookup_lt_Some _ _ _ Hcl) as Hlt.
          assert (pos / csz < Z.of_nat (length l)) by (unfold idx in Hlt; assert (0 <= pos / csz) by (apply Z.div_pos; lia); lia).
          rewrite Hf by nia. replace ((pos <=? o) && _) with true by lia. apply Hr. lia. }
    destruct src as [b|].
    + assert (Hlen : (Z.to_nat want * 512 <= length b)%nat) by (simpl in Hsrc; lia).
      unfold wp, write_sectors. destruct (dk_write (flba l pos) (chop (Z.to_nat want) b) (disk s)) as [d r] eqn:E. simpl.
      destruct (dk_write_ok _ _ _ _ _ E Hi Hb1) as (Hd & n & Hn & Hv & Hr).
      { intros E0. apply (f_equal length) in E0. rewrite length_chop in E0. simpl in E0. lia. }
      { by apply chop_sectors. }
      rewrite length_chop in *. apply (Hgen d (Z.of_nat n) (fun k => chop (Z.to_nat want) b !!! Z.to_nat k)); [done|lia|done|]. destruct r as [e|u].
      * destruct Hr as [He Hrel]. split; [done|]. apply Hrel; [lia|done].
      * destruct Hr as [-> _]. split; [lia|]. intros j Hj.
        assert (Hj2 : (Z.to_nat (j / 512) < Z.to_nat want)%nat) by dlia. pose proof (chop_lookup _ b _ Hj2) as Hch.
        rewrite (list_lookup_total_correct _ _ _ Hch).
        unfold idx. rewrite lookup_total_take_lt by dlia. rewrite lookup_total_drop. simpl. f_equal. unfold idx. dlia.
    + wp_apply (zero_sectors_wp (flba l pos) want s Hi Hb1); [lia|lia|done|]. intros s' r (d & m & -> & Hd & Hmm & Hv & Hr).
      apply (Hgen d m (fun _ => zero_sector)); [done|done|done|]. destruct r; [done|]. split; [done|]. intros j Hj.
      unfold zero_sector, BLK_SECTOR_SIZE, idx. rewrite lookup_total_replicate_2 by dlia. done.
  - assert (Ec : chunk = Z.min left (512 - pos mod 512)) by (unfold chunk, xfer_chunk; by rewrite Eb).
    assert (Hsl : src_len src chunk) by (destruct src; simpl in *; lia).
    pose proof (length_src_bytes src chunk Hsl ltac:(lia)) as Hbl.
    wp_apply (with_sector_wp (flba l pos) _ s Hi Hb1).
    { intros d d' Hd [= <-]. apply patch_sector; [done|]. unfold is_sector, BLK_SECTOR_SIZE in Hd. lia. }
    intros s' r (d & -> & Hd & Hr). exists d. destruct r as [e|u].
    + destruct Hr as (He & Hv & Hrel). split_and!; try done. split; [intros o _ _; by apply fbyte_view|]. split; [done|apply Hrel; lia].
    + destruct Hr as (_ & _ & Hv). simpl in Hv. split_and!; try done.
      * intros x Hnx. rewrite Hv. destruct (Z.eqb_spec x (flba l pos)) as [->|]; done.
      * pose proof (fbyte_patch s d c0 l pos (src_bytes src chunk) Hl Hi Hp ltac:(lia) Hv) as Hf. rewrite Hbl in Hf. split.
        -- intros o Ho Hno. rewrite Hf by done. replace ((pos <=? o) && _) with false by lia. done.
        -- intros o Ho. pose proof (csz_pos g Hg). pose proof (Z.div_mod pos csz ltac:(lia)). pose proof (lookup_lt_Some _ _ _ Hcl) as Hlt.
           assert (pos / csz < Z.of_nat (length l)) by (unfold idx in Hlt; assert (0 <= pos / csz) by (apply Z.div_pos; lia); lia).
           rewrite Hf by nia. replace ((pos <=? o) && _) with true by lia. apply src_bytes_at; [done|lia].
Qed.

(** *** The invariant of file_put *)
Record put_inv s0 (l0 : list Z) (first off count : Z) (src : option (list Z)) (done : Z) s (l : list Z) : Prop := {
  pi_safe : safe s0 l0 s;
  pi_chain : chain g s first l;
  pi_new : exists k, l = l0 ++ k /\ Forall (fun c => fat g s0 c = 0) k;
  pi_keep o : 0 <= o < Z.of_nat (length l0) * csz -> o < off \/ off + count <= o -> fbyte s l o = fbyte s0 l0 o;
  pi_data o : off <= o < off + done -> fbyte s l o = src_at src (o - off);
  pi_mir : mirrored g s0 -> mirrored g s
}.

Section Steps.
Context (s0 : fs S) (l0 : list Z) (first off count : Z) (src : option (list Z)).
Abbreviation inv := (put_inv s0 l0 first off count src).

(** No cluster of the volume is free. *)
Definition full s : Prop := forall c, in_vol g c -> fat g s c <> 0.

Lemma inv_mine done s l x : inv done s l -> x ∈ l -> mine s0 l0 x.
Proof. intros [_ _ (k & -> & Hk) _ _ _] [Hx|Hx]%elem_of_app; [by left|right]. rewrite Forall_forall in Hk. by apply Hk. Qed.

Lemma inv_length done s l : inv done s l -> Z.of_nat (length l0) * csz <= Z.of_nat (length l) * csz.
Proof. intros [_ _ (k & -> & _) _ _ _]. rewrite length_app. pose proof (csz_pos g Hg). nia. Qed.

Lemma safe_view s d : safe s0 l0 s -> dk_inv d -> same_view s (set_disk d s) -> safe s0 l0 (set_disk d s).
Proof.
  intros [A1 A2 A3 A4] Hd Hv. split; [by apply fs_inv_disk|done| |].
  - intros c Hc Hnz Hn. rewrite (same_view_fat g s) by done. by apply A3.
  - intros x Hx Hn. rewrite Hv. by apply A4.
Qed.

Lemma inv_same_view done s s' l : inv done s l -> safe s0 l0 s' -> same_view s s' -> inv done s' l.
Proof.
  intros [A1 A2 A3 A4 A5 A6] Hs Hv. split; [done|by eapply chain_view|done| | |].
  - intros o Ho Hout. rewrite (fbyte_view g s) by done. by apply A4.
  - intros o Ho. rewrite (fbyte_view g s) by done. by apply A5.
  - intros Hm. eapply same_view_mirrored; [exact Hv|auto].
Qed.

(** A cluster [c] is appended to the chain. *)
Lemma inv_grown done s s' l prev zero c :
  inv done s l -> last l = Some prev -> 0 <= off -> off + done <= Z.of_nat (length l) * csz ->
  grow_post g prev zero s s' (inr c) -> inv done s' (l ++ [c]).
Proof.
  intros Hinv Hlast Ho Hdone Hgrow. pose proof (inv_length _ _ _ Hinv) as Hll. pose proof Hinv as [A1 A2 A3 A4 A5 A6].
  assert (Hpl : prev ∈ l) by (by apply last_Some_elem_of). pose proof Hgrow as (_ & _ & _ & _ & B1 & B2 & B3 & B4 & B5 & _ & B7 & B8 & _).
  assert (Hpnz : prev <> 0). { pose proof (chain_in_vol g _ _ _ A2) as Hv. rewrite Forall_forall in Hv. specialize (Hv prev Hpl). unfold in_vol in Hv. lia. }
  assert (Hcl : c ∉ l). { intros Hc. by apply (chain_nonzero g _ _ _ c A2 Hc). }
  assert (Hfb : forall o, 0 <= o < Z.of_nat (length l) * csz -> fbyte s' (l ++ [c]) o = fbyte s l o).
  { intros o Hor. destruct (flba_in s first l o A2 Hor) as (x & Hx & Hxv & Hxin).
    assert (El : flba (l ++ [c]) o = flba l o). { unfold FatIO.flba. rewrite lookup_total_app_l; [done|]. by eapply lookup_lt_Some. }
    unfold FatIO.fbyte. rewrite El, B7; [done|by eapply in_cluster_outside|]. intros [_ Hcin].
    pose proof (in_cluster_inj g Hg _ _ _ Hxin Hcin) as ->. apply Hcl. by eapply list_elem_of_lookup_2. }
  split.
  - eapply safe_grow; [exact A1| |exact Hgrow]. intros _. by eapply inv_mine.
  - eapply chain_snoc; [exact Hg|exact A2|exact Hlast| |done|auto|done]. intros x Hx Hne. apply B5; [|by intros ->|done].
    pose proof (chain_in_vol g _ _ _ A2) as Hv. rewrite Forall_forall in Hv. auto.
  - destruct A3 as (k & -> & Hk). exists (k ++ [c]). split; [by rewrite app_assoc|]. apply Forall_app. split; [done|].
    apply Forall_singleton. destruct (decide (fat g s0 c = 0)); [done|]. exfalso.
    rewrite (sf_fat _ _ _ A1) in B2; [done|done|done|]. intros Hc. apply Hcl, elem_of_app. by left.
  - intros o Hor Hout. rewrite Hfb by lia. by apply A4.
  - intros o Hor. rewrite Hfb by lia. by apply A5.
  - auto.
Qed.

Lemma grow_wp done s l prev zero :
  inv done s l -> last l = Some prev -> 0 <= off -> off + done <= Z.of_nat (length l) * csz ->
  wp (chain_grow g prev zero) s (fun s' r => safe s0 l0 s' /\
    match r with
    | inl e => e < 0 /\ (dk_reliable -> e = - ENOSPC /\ full s' /\ inv done s' l)
    | inr c => inv done s' (l ++ [c])
    end).
Proof.
  intros Hinv Hlast Ho Hdone. pose proof Hinv as [A1 A2 A3 A4 A5 A6].
  assert (Hpl : prev ∈ l) by (by apply last_Some_elem_of). pose proof (inv_mine _ _ _ _ Hinv Hpl) as Hm.
  wp_apply (chain_grow_wp g Hg prev zero s (sf_inv _ _ _ A1) Hro).
  { intros _. pose proof (chain_in_vol g _ _ _ A2) as Hv. rewrite Forall_forall in Hv. split; [auto|by eapply chain_nonzero]. }
  intros s' r Hgrow. split; [eapply safe_grow; [exact A1|by intros _|exact Hgrow]|]. destruct r as [e|c].
  - pose proof Hgrow as (_ & _ & _ & _ & He & Hrel). split; [done|]. intros Hr. destruct (Hrel Hr) as (E & Hv & Hfull). split_and!; [done| |].
    + intros c Hc. rewrite (same_view_fat g s) by done. auto.
    + eapply inv_same_view; [exact Hinv| |done]. eapply safe_grow; [exact A1|by intros _|exact Hgrow].
  - by eapply inv_grown.
Qed.

(** The next cluster of the chain after position [i], which is added when the
    chain ends there. *)
Lemma next_wp done s l i x zero :
  inv done s l -> l !! i = Some x -> 0 <= off -> off + done <= Z.of_nat (length l) * csz ->
  wp (link ← fat_next g x; match link with Some next => mret next | None => chain_grow g x zero end) s
    (fun s' r => safe s0 l0 s' /\
       match r with
       | inl e => e < 0 /\ (dk_reliable -> e = - ENOSPC /\ full s' /\ inv done s' l /\ length l = Datatypes.S i)
       | inr y => exists l', inv done s' l' /\ l' !! i = Some x /\ l' !! Datatypes.S i = Some y
       end).
Proof.
  intros Hinv Hx Ho Hdone. pose proof Hinv as [A1 A2 A3 A4 A5 A6]. pose proof (lookup_lt_Some _ _ _ Hx) as Hlt. pose proof (csz_pos g Hg) as Hcz.
  apply wp_bind. wp_apply (fat_next_chain g Hg s first l i x (fi_disk _ _ (sf_inv _ _ _ A1)) A2 Hx).
  intros s1 r (d & -> & Hd & Hv & Hr). pose proof (safe_view s d A1 Hd Hv) as Hs1. destruct r as [e|o].
  { destruct Hr as [He Hrel]. split; [done|]. by split. }
  pose proof (inv_same_view _ _ _ _ Hinv Hs1 Hv) as Hinv1. destruct o as [y|].
  { apply wp_ret. split; [done|]. by exists l. }
  assert (Hend : Datatypes.S i = length l) by (symmetry in Hr; apply lookup_ge_None in Hr; lia).
  assert (Hlast : last l = Some x) by (rewrite last_lookup, <- Hend; done).
  wp_apply (grow_wp done (set_disk d s) l x zero Hinv1 Hlast Ho Hdone).
  intros s2 r [Hs2 Hr2]. split; [done|]. destruct r as [e|c].
  { destruct Hr2 as [He Hrel]. split; [done|]. intros Hr2. destruct (Hrel Hr2) as (? & ? & ?). by split_and!. }
  exists (l ++ [c]). split_and!; [done| |].
  - by rewrite lookup_app_l by lia.
  - rewrite lookup_app_r, Hend, Nat.sub_diag by lia. done.
Qed.

Lemma put_walk_wp n a index covered s l i x :
  inv 0 s l -> l !! i = Some x -> 0 <= off <= Z.of_nat (length l0) * csz -> Z.of_nat (i + n) * csz <= off ->
  wp (put_walk g n a index covered x) s (fun s' r => safe s0 l0 s' /\
    match r with
    | inl e => e < 0 /\ (dk_reliable -> e = - ENOSPC /\ full s' /\ exists l', inv 0 s' l' /\ off = Z.of_nat (length l') * csz)
    | inr y => exists l', inv 0 s' l' /\ l' !! (i + n)%nat = Some y
    end).
Proof.
  revert a s l i x. induction n as [|n IH]; intros a s l i x Hinv Hx Ho Hend; cbn [put_walk].
  { apply wp_ret. split; [apply Hinv|]. exists l. by rewrite Nat.add_0_r. }
  pose proof (inv_length _ _ _ Hinv) as Hll. apply wp_assoc, wp_bind. eapply wp_mono; [apply (next_wp 0 s l i x); [done|done|lia|lia]|].
  intros s1 r [Hs1 Hr]. destruct r as [e|y].
  { split; [done|]. destruct Hr as [He Hrel]. split; [done|]. intros Hr. destruct (Hrel Hr) as (? & ? & ? & El). split_and!; try done.
    exists l. split; [done|]. rewrite El in *. pose proof (csz_pos g Hg). nia. }
  destruct Hr as (l' & Hinv' & _ & Hy). wp_apply (IH (a + 1) s1 l' (Datatypes.S i) y Hinv' Hy Ho).
  { by replace (Datatypes.S i + n)%nat with (i + Datatypes.S n)%nat by lia. }
  intros s2 r [Hs2 Hr]. split; [done|]. by replace (i + Datatypes.S n)%nat with (Datatypes.S i + n)%nat by lia.
Qed.

Lemma inv_wrote done s l c d chunk rest r :
  inv done s l -> 0 <= off -> 0 <= done -> 0 < chunk -> done + chunk <= count -> off + done < Z.of_nat (length l) * csz ->
  l !! idx ((off + done) / csz) = Some c -> dk_inv d -> (forall x, ~ in_cluster g c x -> dk_view d x = view_ s x) ->
  wrote s l (off + done) chunk rest (set_disk d s) r -> (forall j, 0 <= j -> src_at rest j = src_at src (done + j)) ->
  safe s0 l0 (set_disk d s) /\ (r = inr tt -> inv (done + chunk) (set_disk d s) l).
Proof.
  intros Hinv Ho Hd Hc Hcnt Hr Hcl Hdi Hv [Hw1 Hw2] Hsrc. pose proof Hinv as [A1 A2 A3 A4 A5 A6]. pose proof (inv_length _ _ _ Hinv) as Hll.
  pose proof (chain_lookup_in g _ _ _ _ _ A2 Hcl) as Hcv.
  assert (Hm : mine s0 l0 c) by (eapply inv_mine; [exact Hinv|]; by eapply list_elem_of_lookup_2).
  pose proof (safe_data s0 l0 s d c A1 Hcv Hm Hdi Hv) as Hs. split; [done|]. intros ->.
  assert (Ht : same_table g s (set_disk d s)).
  { intros x Hx. apply Hv. intros Hin. apply Hx. by eapply in_cluster_outside. }
  split; [done| |done| | |].
  - eapply chain_same; [|exact A2]. intros x Hx. apply same_table_fat; [done|done|].
    pose proof (chain_in_vol g _ _ _ A2) as Hvol. rewrite Forall_forall in Hvol. auto.
  - intros o Ho1 Ho2. rewrite Hw1 by lia. by apply A4.
  - intros o Ho1. destruct (decide (o < off + done)).
    + rewrite Hw1 by lia. apply A5. lia.
    + rewrite Hw2 by lia. rewrite Hsrc by lia. f_equal. lia.
  - intros Hmi. eapply same_table_mirrored; [done|done|]. auto.
Qed.

Definition loop_post (done : Z) s' (r : Z + Z * Z * Z * Z) : Prop :=
  exists a c done' e, r = inr (a, c, done', e) /\ done <= done' <= count /\ e <= 0 /\ (e = 0 -> done' = count) /\ (e < 0 -> done' < count) /\ safe s0 l0 s' /\
    (e = 0 \/ dk_reliable -> exists l', inv done' s' l' /\ 0 <= a /\ l' !! idx a = Some c /\ off + done' <= Z.of_nat (length l') * csz /\
       (e < 0 -> off + done' = Z.of_nat (length l') * csz)) /\
    (e < 0 -> dk_reliable -> e = - ENOSPC /\ full s').

Lemma put_loop_wp fuel cluster a done rest s l :
  inv done s l -> 0 <= a -> l !! idx a = Some cluster -> (done < count -> a = (off + done) / csz) -> off + done <= Z.of_nat (length l) * csz ->
  0 <= off -> 0 <= done <= count -> count - done <= Z.of_nat fuel -> off + count <= FAT32_MAX_SIZE ->
  src_len rest (count - done) -> (forall j, 0 <= j -> src_at rest j = src_at src (done + j)) ->
  wp (put_loop g fuel off count cluster a done rest) s (loop_post done).
Proof.
  revert cluster a done rest s l. induction fuel as [|fuel IH]; intros cluster a done rest s l Hinv Ha Hcl Hat Hin Ho Hd Hf Hmax Hlen Hsrc; cbn [put_loop].
  { apply wp_ret. exists a, cluster, done, 0. split_and!; try done; try lia; [apply Hinv|]. intros _. exists l. split_and!; done || lia. }
  destruct (Z.ltb_spec done count) as [Hlt|Hge]; simpl negb; cbv iota zeta.
  2: { apply wp_ret. exists a, cluster, done, 0. split_and!; try done; try lia; [apply Hinv|]. intros _. exists l. split_and!; done || lia. }
  specialize (Hat Hlt). subst a. pose proof (csz_pos g Hg) as Hcz. pose proof (inv_length _ _ _ Hinv) as Hll.
  pose proof Hinv as [A1 A2 _ _ _ _]. pose proof (chain_lookup_in g _ _ _ _ _ A2 Hcl) as Hcv.
  rewrite (u32_small (off + done)) by (unfold is_u32, FAT32_MAX_SIZE in *; lia). set (pos := off + done) in *.
  assert (Hpos : 0 <= pos < Z.of_nat (length l) * csz).
  { split; [lia|]. pose proof (lookup_lt_Some _ _ _ Hcl) as Hl. unfold idx in Hl. pose proof (Z.div_mod pos csz ltac:(lia)). pose proof (Z.mod_pos_bound pos csz ltac:(lia)).
    assert (pos / csz + 1 <= Z.of_nat (length l)) by lia. nia. }
  rewrite (pos_lba g Hg l pos cluster Hcl Hcv), (mask_eq g Hg), shr9, and511, (mod_csz_512 g), (shr9 (count - done)).
  change BLK_SECTOR_SIZE with 512. pose proof (xfer_chunk_ok g Hg pos (count - done) ltac:(lia)) as Hx.
  set (want := if spc g - pos mod csz / 512 <? (count - done) / 512 then _ else _).
  assert (Ew : want = Z.min ((count - done) / 512) (spc g - pos mod csz / 512)) by (unfold want; split_ifs; lia). clearbody want. subst want.
  assert (Ec : (if (pos mod 512 =? 0) && (512 <=? count - done) then Z.min ((count - done) / 512) (spc g - pos mod csz / 512) .<< 9
      else if count - done <? 512 - pos mod 512 then count - done else 512 - pos mod 512) = xfer_chunk g pos (count - done)).
  { unfold xfer_chunk. destruct (_ && _); [rewrite Z.shiftl_mul_pow2 by lia; lia|split_ifs; lia]. }
  rewrite Ec. clear Ec. set (chunk := xfer_chunk g pos (count - done)) in *.
  apply wp_bind, wp_try. wp_apply (xfer_write_wp s first l pos (count - done) cluster rest (fi_disk _ _ (sf_inv _ _ _ A1)) A2 Hpos Hcl ltac:(lia) Hlen).
  intros s1 r (d & -> & Hd1 & Hv1 & Hw). fold chunk in Hw. destruct (inv_wrote done s l cluster d chunk rest r) as [Hs1 Hinv1]; try done; try lia.
  destruct r as [e|[]].
  { apply wp_ret. destruct Hw as [_ [He Hrel]]. exists (pos / csz), cluster, done, e. split_and!; try done; try lia. intros [|]; [lia|done]. }
  specialize (Hinv1 eq_refl). clearbody chunk. clear Hw. rewrite (u32_small (off + (done + chunk))) by (unfold is_u32, FAT32_MAX_SIZE in *; lia).
  replace (off + (done + chunk)) with (pos + chunk) by lia.
  assert (Hin1 : pos + chunk <= Z.of_nat (length l) * csz).
  { pose proof (lookup_lt_Some _ _ _ Hcl) as Hl. unfold idx in Hl. pose proof (Z.div_mod pos csz ltac:(lia)).
    assert (pos / csz + 1 <= Z.of_nat (length l)) by (assert (0 <= pos / csz) by (apply Z.div_pos; lia); lia). nia. }
  set (Post := fun (s2 : fs S) (r : Z + Z * Z) => safe s0 l0 s2 /\
    match r with
    | inl e => e < 0 /\ (dk_reliable -> e = - ENOSPC /\ full s2 /\ inv (done + chunk) s2 l /\ pos + chunk = Z.of_nat (length l) * csz) /\ done + chunk < count
    | inr (a, c) => exists l', inv (done + chunk) s2 l' /\ 0 <= a /\ l' !! idx a = Some c /\ (done + chunk < count -> a = (pos + chunk) / csz) /\
        pos + chunk <= Z.of_nat (length l') * csz
    end).
  assert (Hlink : wp (if (done + chunk <? count) && ((pos + chunk) mod csz =? 0) then
      link ← fat_next g cluster;
      next ← match link with Some next => mret next | None => chain_grow g cluster (count - (done + chunk) <? cluster_mask g + 1) end;
      mret (pos / csz + 1, next) else mret (pos / csz, cluster)) (set_disk d s) Post).
  { destruct ((done + chunk <? count) && ((pos + chunk) mod csz =? 0)) eqn:Eb.
    - assert (Hend : pos mod csz + chunk = csz).
      { destruct (Z.eq_dec (pos mod csz + chunk) csz); [done|]. destruct (csz_step g Hg pos chunk) as [_ E2]; [lia|lia|].
        pose proof (Z.mod_pos_bound pos csz). lia. }
      destruct (csz_next g Hg pos chunk Hend) as [Enext _]. apply wp_assoc, wp_bind.
      eapply wp_mono; [apply (next_wp (done + chunk) (set_disk d s) l (idx (pos / csz)) cluster); [done|exact Hcl|done|lia]|].
      intros s2 r [Hs2 Hr]. destruct r as [e|y].
      { split; [done|]. destruct Hr as [He Hrel]. split; [done|]. split; [|lia]. intros Hr. destruct (Hrel Hr) as (? & ? & ? & El). split_and!; try done. rewrite El.
        rewrite Nat2Z.inj_succ. unfold idx. rewrite Z2Nat.id by done. pose proof (Z.div_mod pos csz ltac:(lia)). lia. }
      apply wp_ret. split; [done|]. destruct Hr as (l' & Hinv' & Hx' & Hy). exists l'.
      assert (Eidx : idx (pos / csz + 1) = Datatypes.S (idx (pos / csz))) by (unfold idx; lia). rewrite Eidx.
      split_and!; [done|lia|done|lia|]. pose proof (lookup_lt_Some _ _ _ Hx') as Hl2. unfold idx in Hl2. pose proof (Z.div_mod pos csz ltac:(lia)).
      assert (pos / csz + 1 <= Z.of_nat (length l')) by lia. nia.
    - apply wp_ret. split; [done|]. exists l. split_and!; try done. intros Hlt2. destruct (csz_step g Hg pos chunk) as [E1 E2]; [lia| |done].
      destruct (Z.eq_dec (pos mod csz + chunk) csz) as [Hend|]; [|lia]. destruct (csz_next g Hg pos chunk Hend) as [_ E2]. lia. }
  rewrite (mask_eq g Hg). apply wp_bind, wp_try. eapply wp_mono; [exact Hlink|]. intros s2 r [Hs2 Hr]. destruct r as [e|[a c]].
  { apply wp_ret. destruct Hr as (He & Hrel & Hlt2). exists (pos / csz), cluster, (done + chunk), e. split_and!; try done; try lia.
    - intros [|Hr]; [lia|]. destruct (Hrel Hr) as (_ & _ & Hi & ?). exists l. split_and!; try done; lia.
    - intros _ Hr. destruct (Hrel Hr) as (? & ? & _). done. }
  destruct Hr as (l' & Hinv' & Ha' & Hc' & Hat' & Hin'). eapply wp_mono.
  - apply (IH c a (done + chunk) (drop (Z.to_nat chunk) <$> rest) s2 l'); try done; try lia.
    + intros Hlt2. rewrite Hat' by done. f_equal. lia.
    + apply src_len_drop; [lia|]. replace (chunk + (count - (done + chunk))) with (count - done) by lia. done.
    + intros j Hj. rewrite src_at_drop by lia. rewrite Hsrc by lia. f_equal. lia.
  - intros s3 r (a3 & c3 & d3 & e3 & -> & Hd3 & B). exists a3, c3, d3, e3. split_and!; try done; try lia; apply B.
Qed.
End Steps.

(** *** file_put *)

(** The file after [done] bytes of [src] were written at [off], of the
    [count] asked for: its chain is [l'], which extends [l]. *)
Record put_good s (l : list Z) (off count : Z) (src : option (list Z)) (done : Z) s' (node' : fat32_node) (l' : list Z) : Prop := {
  pg_file : file_ok g s' node' l';
  pg_new : exists k, l' = l ++ k /\ Forall (fun c => fat g s c = 0) k;
  pg_room : off + done <= Z.of_nat (length l') * csz;
  pg_keep o : 0 <= o < Z.of_nat (length l) * csz -> o < off \/ off + count <= o -> fbyte s' l' o = fbyte s l o;
  pg_data o : off <= o < off + done -> fbyte s' l' o = src_at src (o - off);
  pg_mir : mirrored g s -> mirrored g s'
}.

(** Only the first cluster of the node's metadata may change. *)
Definition same_info (node node' : fat32_node) : Prop := n_info node' = with_first (i_first (n_info node')) (n_info node).

Lemma good_of_inv s l first off count src done s' l' node node' :
  put_inv s l first off count src done s' l' -> off + done <= Z.of_nat (length l') * csz ->
  file_ok g s node l -> same_info node node' -> i_first (n_info node') = first ->
  (chain_cluster node' = 0 \/ (0 <= chain_index node' /\ l' !! idx (chain_index node') = Some (chain_cluster node'))) ->
  put_good s l off count src done s' node' l'.
Proof.
  intros Hinv Hroom Hf Hsame Hfirst Hcache. pose proof (inv_length _ _ _ _ _ _ _ _ _ Hinv) as Hll. destruct Hinv as [A1 A2 A3 A4 A5 A6].
  split; try done. destruct Hf as [_ B2 B3 _]. assert (Es : i_size (n_info node') = i_size (n_info node)) by (rewrite Hsame; done).
  split; [right; by rewrite Hfirst|rewrite Es; lia|rewrite Es; done|done].
Qed.

(** A cache of the chain the file had, or of its first cluster, stays valid. *)
Definition cache_of (l : list Z) (first : Z) node : Prop :=
  chain_cluster node = 0 \/ (0 <= chain_index node /\ l !! idx (chain_index node) = Some (chain_cluster node)) \/
  (chain_index node = 0 /\ chain_cluster node = first).

Lemma cache_of_inv s l first off count src done s' l' node :
  put_inv s l first off count src done s' l' -> cache_of l first node ->
  chain_cluster node = 0 \/ (0 <= chain_index node /\ l' !! idx (chain_index node) = Some (chain_cluster node)).
Proof.
  intros [_ A2 (k & -> & _) _ _ _] [?|[[Hi Hl]|[Hi Hc]]]; [by left|right|right].
  - split; [done|]. by apply lookup_app_l_Some.
  - rewrite Hi, Hc. split; [done|]. rewrite <- head_lookup. by eapply chain_head.
Qed.

Lemma same_info_refl node : same_info node node.
Proof. unfold same_info. destruct node as [[] ? ? ? ? ? ?]. done. Qed.

Definition put_post s node (l : list Z) (off count : Z) (src : option (list Z)) s' (r : Z + fat32_node * Z * Z) : Prop :=
  exists node' done e, r = inr (node', done, e) /\ 0 <= done <= count /\ e <= 0 /\ (e = 0 -> done = count) /\ (e < 0 -> done < count) /\ safe s l s' /\
    same_info node node' /\ (e < 0 -> dk_reliable -> e = - ENOSPC /\ full s') /\
    (e = 0 \/ dk_reliable -> exists l', put_good s l off count src done s' node' l' /\ (e < 0 -> off + done = Z.of_nat (length l') * csz)).

(** From a cluster of the chain on. *)
Lemma put_from_wp s l node node1 off count src a cluster s1 l1 first covered :
  put_inv s l first off count src 0 s1 l1 -> file_ok g s node l -> same_info node node1 -> i_first (n_info node1) = first ->
  cache_of l first node1 ->
  0 <= a <= off / csz -> l1 !! idx a = Some cluster -> 0 <= off <= Z.of_nat (length l) * csz -> 0 < count -> off + count <= FAT32_MAX_SIZE -> src_len src count ->
  wp (w ← try_ (put_walk g (Z.to_nat (off / csz - a)) a (off / csz) covered cluster);
      match w with
      | inl e => mret (node1, 0, e)
      | inr cluster =>
          r ← put_loop g (Z.to_nat count) off count cluster (Z.max a (off / csz)) 0 src;
          let '(a, cluster, done, error) := r in mret (set_chain a cluster node1, done, error)
      end) s1 (put_post s node l off count src).
Proof.
  intros Hinv Hf Hsame Hfirst Hcache Ha Hcl Ho Hc Hmax Hsrc. apply wp_bind, wp_try.
  wp_apply (put_walk_wp s l first off count src (Z.to_nat (off / csz - a)) a (off / csz) covered s1 l1 (idx a) cluster Hinv Hcl Ho).
  { replace (Z.of_nat (idx a + Z.to_nat (off / csz - a))) with (off / csz) by (unfold idx; lia). rewrite Z.mul_comm. apply Z.mul_div_le. pose proof (csz_pos g Hg). lia. }
  intros s2 r [Hs2 Hr]. destruct r as [e|y].
  { apply wp_ret. destruct Hr as [He Hrel]. exists node1, 0, e. split_and!; try done; try lia.
    - intros _ Hr. destruct (Hrel Hr) as (? & ? & _). done.
    - intros [|Hr]; [lia|]. destruct (Hrel Hr) as (_ & _ & l' & Hi & Eo). exists l'. pose proof (inv_length _ _ _ _ _ _ _ _ _ Hi). split; [|lia].
      eapply good_of_inv; try done; [lia|]. by eapply cache_of_inv. }
  destruct Hr as (l2 & Hinv2 & Hy). pose proof (csz_pos g Hg). assert (Hq : 0 <= off / csz) by (apply Z.div_pos; lia).
  replace (idx a + Z.to_nat (off / csz - a))%nat with (idx (off / csz)) in Hy by (unfold idx; lia). rewrite Z.max_r by lia.
  apply wp_bind. eapply wp_mono; [apply (put_loop_wp s l first off count src (Z.to_nat count) y (off / csz) 0 src s2 l2); try done; try lia|].
  - intros _. f_equal. lia.
  - pose proof (inv_length _ _ _ _ _ _ _ _ _ Hinv2). lia.
  - by rewrite Z.sub_0_r.
  - intros s3 r (a3 & c3 & d3 & e3 & -> & B1 & B2 & B3 & B3' & B4 & B5 & B6). apply wp_ret. exists (set_chain a3 c3 node1), d3, e3.
    split_and!; try done; try lia. intros Hgood. destruct (B5 Hgood) as (l3 & Hinv3 & Ha3 & Hc3 & Hroom & Hend). exists l3. split; [|done].
    eapply good_of_inv; try done. by right.
Qed.

Lemma file_put_wp s node l off count src :
  fs_inv g s -> file_ok g s node l -> 0 <= off <= Z.of_nat (length l) * csz -> 0 < count -> off + count <= FAT32_MAX_SIZE -> src_len src count ->
  wp (file_put g node off src count) s (put_post s node l off count src).
Proof.
  intros Hi Hf Ho Hc Hmax Hsrc. unfold file_put. rewrite (shift_eq g Hg). pose proof (csz_pos g Hg) as Hcz.
  assert (Hq : 0 <= off / csz) by (apply Z.div_pos; lia). set (covered := (_ =? 0) && _). clearbody covered.
  destruct (decide (l = [])) as [->|Hne].
  - pose proof (fo_chain _ _ _ _ Hf) as [[_ Hz]|Hx]; [|inversion Hx].
    assert (Hc0 : chain_cluster node = 0) by (destruct (fo_cache _ _ _ _ Hf) as [|[_ Hx]]; done).
    unfold start_at. rewrite Hc0, Hz. simpl. assert (off = 0) as -> by (simpl in Ho; lia). rewrite Z.div_0_l in * by lia.
    apply wp_bind, wp_try, wp_bind. wp_apply (chain_grow_wp g Hg 0 (negb ((0 =? 0) && covered)) s Hi Hro); [done|].
    intros s1 r Hgrow. pose proof (safe_grow s [] s s1 0 _ r (safe_refl s [] Hi) ltac:(done) Hgrow) as Hs1. destruct r as [e|c].
    + apply wp_ret. destruct Hgrow as (_ & _ & _ & _ & He & Hrel). exists node, 0, e. split_and!; try done; try lia; [apply same_info_refl| |].
      * intros _ Hr. destruct (Hrel Hr) as (? & Hv & Hfull). split; [done|]. intros c Hcv. rewrite (same_view_fat g s) by done. auto.
      * intros [|Hr]; [lia|]. destruct (Hrel Hr) as (_ & Hv & _). exists []. split; [|simpl; lia]. split; [by eapply file_ok_view|by exists []|lia|simpl; lia|lia|].
        intros Hm. by eapply same_view_mirrored.
    + apply wp_ret. pose proof Hgrow as (_ & _ & _ & _ & B1 & B2 & B3 & _ & B5 & _ & B7 & B8 & _).
      assert (Hinv : put_inv s [] c 0 count src 0 s1 [c]).
      { split; [done|by apply chain_one|by exists [c]; auto|simpl; lia|lia|done]. }
      apply (put_from_wp s [] node _ 0 count src 0 c s1 [c] c covered Hinv Hf); try done; try lia.
      * right. right. done.
  - destruct (start_at_ok g s node l (off / csz) Hf Hq Hne) as (a & c & -> & Ha & Hcl & Hcv & Hch).
    replace (c <? 2) with false by (unfold in_vol in Hcv; lia). apply wp_bind, wp_try, wp_ret.
    assert (Hinv : put_inv s l (i_first (n_info node)) off count src 0 s l).
    { split; [by apply safe_refl|done|exists []; by rewrite app_nil_r|done|lia|done]. }
    apply (put_from_wp s l node node off count src a c s l _ covered Hinv Hf); try done; [apply same_info_refl|].
    destruct (fo_cache _ _ _ _ Hf) as [|]; [by left|right; by left].
Qed.

(** *** fat32_write *)

(** Only the clock has moved. *)
Definition ticked s s' : Prop := exists t, s' = set_ticks t s.

Lemma ticked_safe s0 l0 s s' : ticked s s' -> safe s0 l0 s -> safe s0 l0 s'.
Proof. intros [t ->] [[A1 A2 A3] B2 B3 B4]. by split. Qed.

Lemma fat_now_wp s : wp (@fat_now S) s (fun s' r => ticked s s' /\ exists dt, r = inr dt).
Proof.
  unfold wp, fat_now, ticked. destruct (g_clock s) as [clock|]; simpl; (split; [|by eexists]).
  - by eexists.
  - exists (ticks s). by destruct s.
Qed.

(** Setting the archive bit does not make a file a directory. *)
Lemma attr_arch_dir a : negb (u8 (a .| FAT32_ATTR_ARCH) .& FAT32_ATTR_DIR =? 0) = negb (a .& FAT32_ATTR_DIR =? 0).
Proof.
  unfold FAT32_ATTR_ARCH, FAT32_ATTR_DIR. change 0x10 with (1 .<< 4). rewrite !land_pow2_testbit by lia. unfold u8.
  by rewrite Z.mod_pow2_bits_low, Z.lor_spec, orb_false_r by lia.
Qed.

Lemma node_touch_wp s node grow :
  wp (node_touch node grow) s (fun s' r => exists node', r = inr node' /\ ticked s s' /\
    i_first (n_info node') = i_first (n_info node) /\ i_size (n_info node') = match grow with Some n => Z.max (i_size (n_info node)) n | None => i_size (n_info node) end /\
    chain_index node' = chain_index node /\ chain_cluster node' = chain_cluster node /\
    has_attr FAT32_ATTR_DIR (n_info node') = has_attr FAT32_ATTR_DIR (n_info node)).
Proof.
  unfold node_touch. apply wp_bind. eapply wp_mono; [apply fat_now_wp|]. intros s' r (Ht & dt & ->). apply wp_ret. eexists. split; [reflexivity|].
  split; [done|]. destruct grow as [n|]; cbn.
  - destruct (Z.ltb_spec (i_size (n_info node)) n); cbn; split_and!; try done; try lia; apply attr_arch_dir.
  - split_and!; try done. apply attr_arch_dir.
Qed.

Lemma safe_trans s l s1 k s2 : safe s l s1 -> safe s1 (l ++ k) s2 -> Forall (fun c => fat g s c = 0) k -> safe s l s2.
Proof.
  intros [A1 A2 A3 A4] [B1 B2 B3 B4] Hk. rewrite Forall_forall in Hk.
  assert (Hnk : forall c, fat g s c <> 0 -> c ∉ l -> c ∉ l ++ k) by (intros c Hnz Hni [?|?]%elem_of_app; [done|by apply Hnz, Hk]).
  split; [done|by etrans| |].
  - intros c Hc Hnz Hni. rewrite B3; [by apply A3|done|by rewrite A3|by apply Hnk].
  - intros x Hx Hn. rewrite B4; [by apply A4|done|]. intros c Hc Hin. destruct (Hn c Hc Hin). split; [by rewrite A3|by apply Hnk].
Qed.

Lemma file_ok_ticked s s' node l : ticked s s' -> file_ok g s node l -> file_ok g s' node l.
Proof. intros [t ->] Hf. eapply (file_ok_view g s); [by intros x|done]. Qed.

(** A node that differs only in its size and dates. *)
Lemma file_ok_touch s node node' l :
  file_ok g s node l -> i_first (n_info node') = i_first (n_info node) -> 0 <= i_size (n_info node') <= Z.of_nat (length l) * csz ->
  i_size (n_info node') <= FAT32_MAX_SIZE -> chain_index node' = chain_index node -> chain_cluster node' = chain_cluster node -> file_ok g s node' l.
Proof. intros [A1 A2 A3 A4] E1 E2 E3 E4 E5. split; [by rewrite E1|done|done|by rewrite E4, E5]. Qed.

(** Byte [o] of a file of [size] bytes; zeros up to [off] when it is longer. *)
Definition old_byte s (l : list Z) (size o : Z) : Z := if o <? size then fbyte s l o else 0.

(** What fat32_write leaves. [m] bytes of [b] were written at [off] ([m] is
    0 on an error); the file has grown to hold them, with zeros between its
    old end and [off]. *)
Record write_good s (l : list Z) (size off : Z) (b : list Z) (m : Z) s' (node' : fat32_node) (l' : list Z) : Prop := {
  wg_file : file_ok g s' node' l';
  wg_new : exists k, l' = l ++ k /\ Forall (fun c => fat g s c = 0) k;
  wg_size : if m =? 0 then size <= i_size (n_info node') <= Z.max size off else i_size (n_info node') = Z.max size (off + m);
  wg_byte o : 0 <= o < i_size (n_info node') ->
    fbyte s' l' o = if (off <=? o) && (o <? off + m) then b !!! idx (o - off) else old_byte s l size o;
  wg_mir : mirrored g s -> mirrored g s'
}.

(** What filling with zeros from the end of the file to [off] leaves. *)
Definition fill_post s (l : list Z) (size off : Z) (dir : bool) s' (node' : fat32_node) (e : Z) : Prop :=
  has_attr FAT32_ATTR_DIR (n_info node') = dir /\ e <= 0 /\ safe s l s' /\ (e < 0 -> dk_reliable -> e = - ENOSPC /\ full s') /\
  (e = 0 \/ dk_reliable -> exists l', write_good s l size off [] 0 s' node' l' /\ (e = 0 -> off <= i_size (n_info node') /\ off <= Z.of_nat (length l') * csz)).

(** The hole between the end of the file and the offset. *)
Lemma fill_wp {B} s node l off (k : fat32_node -> Z -> fatM S B) Q :
  fs_inv g s -> file_ok g s node l -> i_size (n_info node) < off <= FAT32_MAX_SIZE ->
  let size := i_size (n_info node) in
  (forall s' node' e, fill_post s l size off (has_attr FAT32_ATTR_DIR (n_info node)) s' node' e -> wp (k node' e) s' Q) ->
  wp (r ← file_put g node size None (off - size);
      let '(node, hole_done, result) := r in
      node ← (if negb (hole_done =? 0) then node_touch node (Some (u32 (size + hole_done))) else mret node);
      k node result) s Q.
Proof.
  intros Hi Hf Ho size HQ. pose proof (fo_size _ _ _ _ Hf) as Hs. pose proof (fo_max _ _ _ _ Hf) as Hm. fold size in Hs, Hm, Ho.
  apply wp_bind. eapply wp_mono; [apply (file_put_wp s node l size (off - size) None Hi Hf); try done; lia|].
  intros s1 r (n1 & done & e & -> & Hd & He & Hd0 & _ & Hsafe & Hsame & Herr & Hgood).
  assert (Es : i_size (n_info n1) = size) by (by rewrite Hsame).
  assert (Htouch : wp (if negb (done =? 0) then node_touch n1 (Some (u32 (size + done))) else mret n1) s1 (fun s2 r => exists n2, r = inr n2 /\ ticked s1 s2 /\
    i_first (n_info n2) = i_first (n_info n1) /\ i_size (n_info n2) = size + done /\ chain_index n2 = chain_index n1 /\ chain_cluster n2 = chain_cluster n1 /\
    has_attr FAT32_ATTR_DIR (n_info n2) = has_attr FAT32_ATTR_DIR (n_info n1))).
  { unfold FAT32_MAX_SIZE in *. rewrite u32_small by (unfold is_u32; lia). destruct (Z.eqb_spec done 0) as [->|Hnz]; simpl negb; cbv iota.
    - apply wp_ret. exists n1. split_and!; try done; [exists (ticks s1); by destruct s1|lia].
    - eapply wp_mono; [apply node_touch_wp|]. intros s2 r (n2 & -> & B1 & B2 & B3 & B4 & B5 & B6). exists n2. split_and!; try done. rewrite B3, Es. simpl. lia. }
  apply wp_bind. eapply wp_mono; [exact Htouch|]. intros s2 r (n2 & -> & Ht & B1 & B2 & B3 & B4 & B5). apply HQ.
  split_and!; try done; [by rewrite B5, Hsame|by eapply ticked_safe| |].
  { intros H1 H2. destruct (Herr H1 H2) as [? Hfull]. split; [done|]. by destruct Ht as [t ->]. }
  intros Hg1. destruct (Hgood Hg1) as (l' & [G1 G2 G3 G4 G5 G6] & _). exists l'. split; [|intros E0; specialize (Hd0 E0); rewrite B2; lia].
  assert (Hl' : Z.of_nat (length l) * csz <= Z.of_nat (length l') * csz).
  { destruct G2 as (k' & -> & _). rewrite length_app. pose proof (csz_pos g Hg). nia. }
  split; try done.
  - eapply file_ok_touch; [eapply file_ok_ticked; [exact Ht|exact G1]|done|rewrite B2; lia|rewrite B2; lia|done|done].
  - simpl. rewrite B2. lia.
  - intros o Hor. rewrite B2 in Hor. replace ((off <=? o) && (o <? off + 0)) with false by lia. unfold old_byte.
    assert (Ef : fbyte s2 l' o = fbyte s1 l' o) by (by destruct Ht as [t ->]). rewrite Ef. destruct (Z.ltb_spec o size).
    + apply G4; lia.
    + rewrite G5 by lia. done.
  - by destruct Ht as [t ->].
Qed.

Lemma hole_wp s node l off :
  fs_inv g s -> file_ok g s node l -> 0 <= off < FAT32_MAX_SIZE ->
  let size := i_size (n_info node) in
  wp (if size <? off then
        r ← file_put g node size None (off - size);
        let '(node, hole_done, result) := r in
        node ← (if negb (hole_done =? 0) then node_touch node (Some (u32 (size + hole_done))) else mret node);
        mret (node, result)
      else mret (node, 0)) s
    (fun s' r => exists node' e, r = inr (node', e) /\ fill_post s l size off (has_attr FAT32_ATTR_DIR (n_info node)) s' node' e).
Proof.
  intros Hi Hf Ho size. destruct (Z.ltb_spec size off) as [Hlt|Hge].
  { apply (fill_wp s node l off (fun node result => mret (node, result)) _ Hi Hf); [fold size; lia|]. fold size.
    intros s' node' e Hp. apply wp_ret. by exists node', e. }
  apply wp_ret. exists node, 0. split; [done|]. split_and!; [done|done|by apply safe_refl|lia|]. intros _. exists l. pose proof (fo_size _ _ _ _ Hf) as Hs.
  fold size in Hs. split; [|intros _; fold size; lia]. split; try done; [exists []; by rewrite app_nil_r|simpl; fold size; lia|]. fold size. intros o Hor.
  unfold old_byte. replace ((off <=? o) && (o <? off + 0)) with false by lia. by replace (o <? size) with true by lia.
Qed.

(** The bytes one call writes at most. *)
Definition write_limit (off count : Z) : Z := Z.min (Z.min count 0x7FFFFFFF) (FAT32_MAX_SIZE - off).

Definition write_post s (l : list Z) (size off : Z) (dir : bool) (b : list Z) (n : Z) s' (r : Z + fat32_node * (Z + Z)) : Prop :=
  exists node' res, r = inr (node', res) /\ has_attr FAT32_ATTR_DIR (n_info node') = dir /\ safe s l s' /\
    match res with
    | inl e => e < 0 /\ (dk_reliable -> full s' /\ exists l', write_good s l size off b 0 s' node' l')
    | inr m => 0 < m <= n /\ (m = n \/ dk_reliable -> exists l', write_good s l size off b m s' node' l') /\ (m < n -> dk_reliable -> full s')
    end.

Lemma fat32_write_wp s node l off b :
  fs_inv g s -> file_ok g s node l -> write_check g node = 0 -> 0 <= off < FAT32_MAX_SIZE -> b <> [] ->
  wp (fat32_write g node off (Some b) (Z.of_nat (length b))) s
    (write_post s l (i_size (n_info node)) off (has_attr FAT32_ATTR_DIR (n_info node)) b (write_limit off (Z.of_nat (length b)))).
Proof.
  intros Hi Hf Hchk Ho Hb. unfold fat32_write. rewrite Hchk. simpl Z.ltb. cbv iota zeta.
  assert (Hlen : 0 < Z.of_nat (length b)) by (destruct b; simpl; [done|lia]).
  rewrite bool_decide_eq_false_2 by done. simpl andb. cbv iota.
  replace (Z.of_nat (length b) =? 0) with false by lia. replace (off =? FAT32_MAX_SIZE) with false by lia.
  set (n := if FAT32_MAX_SIZE - off <? _ then _ else _).
  assert (En : n = write_limit off (Z.of_nat (length b))) by (unfold n, write_limit; split_ifs; lia). rewrite <- En.
  assert (Hn : 0 < n <= Z.of_nat (length b) /\ off + n <= FAT32_MAX_SIZE) by (unfold write_limit in En; lia). clearbody n.
  set (size := i_size (n_info node)). apply wp_bind. eapply wp_mono; [apply (hole_wp s node l off Hi Hf Ho)|]. fold size.
  intros s1 r (n1 & e & -> & Hdir1 & He & Hs1 & Herr & Hg1). destruct (Z.ltb_spec e 0) as [Hneg|Hz].
  { apply wp_ret. exists n1, (inl e). split_and!; try done. intros Hr. destruct (Herr Hneg Hr) as [_ Hfull]. split; [done|].
    destruct (Hg1 (or_intror Hr)) as (l1 & [W1 W2 W3 W4 W5] & _). exists l1. split; try done.
    intros o Hor. rewrite W4 by done. replace ((off <=? o) && (o <? off + 0)) with false by lia. done. }
  assert (e = 0) as -> by lia. destruct (Hg1 (or_introl eq_refl)) as (l1 & [W1 W2 W3 W4 W5] & Hoff). destruct (Hoff eq_refl) as [Ho1 Ho2].
  simpl in W3. set (size1 := i_size (n_info n1)) in *.
  assert (W4' : forall o, 0 <= o < size1 -> fbyte s1 l1 o = old_byte s l size o).
  { intros o Hor. rewrite W4 by done. by replace ((off <=? o) && (o <? off + 0)) with false by lia. }
  pose proof (fo_size _ _ _ _ W1) as Hs1z. pose proof (fo_max _ _ _ _ W1) as Hs1m. fold size1 in Hs1z, Hs1m.
  apply wp_bind. eapply wp_mono; [apply (file_put_wp s1 n1 l1 off n (Some b) (sf_inv _ _ _ Hs1) W1); simpl; lia|].
  intros s2 r (n2 & m & e & -> & Hm & He2 & Hm0 & Hm1 & Hs2 & Hsame & Herr2 & Hg2). destruct W2 as (k & El1 & Hk).
  assert (Hsafe : safe s l s2) by (eapply safe_trans; [exact Hs1|by rewrite <- El1|done]).
  apply wp_bind. eapply wp_mono; [apply node_touch_wp|]. intros s3 r (n3 & -> & Ht & T1 & T2 & T3 & T4 & T5). apply wp_ret.
  assert (Esz : i_size (n_info n3) = if m =? 0 then size1 else Z.max size (off + m)).
  { rewrite T2, Hsame. simpl. fold size1. destruct (Z.eqb_spec m 0); simpl; [done|]. rewrite u32_small by (unfold is_u32, FAT32_MAX_SIZE in *; lia). lia. }
  assert (Hgood : e = 0 \/ dk_reliable -> exists l', write_good s l size off b m s3 n3 l').
  { intros Hx. destruct (Hg2 Hx) as (l2 & [P1 P2 P3 P4 P5 P6] & Pend). exists l2. destruct P2 as (k2 & El2 & Hk2).
    assert (Hl2 : Z.of_nat (length l1) * csz <= Z.of_nat (length l2) * csz) by (rewrite El2, length_app; pose proof (csz_pos g Hg); nia).
    split.
    - eapply file_ok_touch; [eapply file_ok_ticked; [exact Ht|exact P1]|done| | |done|done]; rewrite Esz; destruct (Z.eqb_spec m 0); lia.
    - exists (k ++ k2). split; [by rewrite El2, El1, app_assoc|]. apply Forall_app. split; [done|]. apply Forall_forall. intros c Hc.
      rewrite Forall_forall in Hk2. specialize (Hk2 c Hc). destruct (decide (fat g s c = 0)) as [|Hnz]; [done|]. exfalso.
      assert (Hcv : in_vol g c).
      { destruct P1 as [[[E _]|Hch] _ _ _]; [rewrite El2 in E; destruct k2; [by apply elem_of_nil in Hc|by destruct l1]|].
        pose proof (chain_in_vol g _ _ _ Hch) as Hv. rewrite Forall_forall in Hv. apply Hv. rewrite El2. apply elem_of_app. by right. }
      assert (Hcl : c ∈ l).
      { destruct (decide (c ∈ l)); [done|]. rewrite (sf_fat _ _ _ Hs1) in Hk2; done. }
      destruct P1 as [[[E _]|Hch] _ _ _]; [rewrite El2 in E; destruct k2; [by apply elem_of_nil in Hc|by destruct l1]|].
      pose proof (chain_nodup g Hg _ _ _ Hch) as Hnd. rewrite El2, El1 in Hnd. apply NoDup_app in Hnd as (_ & Hdis & _).
      apply (Hdis c); [apply elem_of_app; by left|done].
    - rewrite Esz. destruct (Z.eqb_spec m 0); lia.
    - intros o Hor. rewrite Esz in Hor. assert (Ef : fbyte s3 l2 o = fbyte s2 l2 o) by (by destruct Ht as [t ->]). rewrite Ef.
      destruct ((off <=? o) && (o <? off + m)) eqn:Eb; [rewrite P5 by lia; done|].
      assert (Hsz1 : o < size1) by (destruct (Z.eqb_spec m 0); lia).
      rewrite P4, W4'; [done|lia|lia|]. destruct (decide (o < off)); [by left|right].
      destruct (decide (e < 0)) as [Hneg|]; [specialize (Pend Hneg); lia|]. rewrite (Hm0 ltac:(lia)) in *. lia.
    - intros Hmi. destruct Ht as [t ->]. apply P6, W5, Hmi. }
  assert (Hfull : e < 0 -> dk_reliable -> full s3).
  { intros Hneg Hr. destruct (Herr2 Hneg Hr) as [_ Hfl]. by destruct Ht as [t ->]. }
  eexists n3, _. split; [reflexivity|]. split; [rewrite T5, Hsame; exact Hdir1|]. split; [by eapply ticked_safe|]. destruct (Z.eqb_spec m 0) as [->|Hnz]; simpl negb; cbv iota.
  - assert (Hneg : e < 0) by lia. replace (e <? 0) with true by lia. split; [done|]. intros Hr. split; [auto|]. apply Hgood. by right.
  - split_and!; [lia|lia| |].
    + intros [->|Hr]; apply Hgood; [|by right]. destruct (decide (e = 0)) as [|]; [by left|]. specialize (Hm1 ltac:(lia)). lia.
    + intros Hlt Hr. apply Hfull; [|done]. lia.
Qed.
End Write.
