(* ===== verification/FatTrunc.v ===== *)
(** * fat32.c: truncating files, and the directory entry of a node *)
From S2P Require Import Prelude CString Blk Disk Fat FatTab FatFile FatIO FatWrite.

Open Scope tach_scope.

Lemma in_drop (l : list Z) k x : x ∈ drop k l -> x ∈ l.
Proof. intros Hx. rewrite <- (take_drop k l). apply elem_of_app. by right. Qed.
Lemma in_take (l : list Z) k x : x ∈ take k l -> x ∈ l.
Proof. intros Hx. rewrite <- (take_drop k l). apply elem_of_app. by left. Qed.

Section Trunc.
Context {S : Type} `{DiskOk S} (g : geo) (Hg : geo_ok g).
Implicit Types s : fs S.
Abbreviation view_ s := (dk_view (disk s)).
Abbreviation csz := (csz g).
Abbreviation fbyte := (fbyte g).

(** *** The directory entry *)

(** The sector of entry [pos] of directory cluster [c], and the offset in it. *)
Definition ent_lba (c pos : Z) : Z := clba g c + pos / 16.
Definition ent_off (pos : Z) : Z := (pos mod 16) * 32.

(** The entry of [i], when it has one, is in a cluster of the volume. *)
Definition ent_ok (i : fat32_info) : Prop :=
  i_dir_cluster i = 0 \/ (in_vol g (i_dir_cluster i) /\ 0 <= i_dir_pos i < entries_per_cluster g).

Lemma ent_in_cluster c pos : in_vol g c -> 0 <= pos < entries_per_cluster g -> in_cluster g c (ent_lba c pos).
Proof. intros Hc Hp. rewrite (go_epc g Hg) in Hp. unfold in_cluster, ent_lba. assert (0 <= pos / 16 < spc g) by dlia. lia. Qed.

Lemma length_store_meta m o d : length (store_meta m o d) = length d.
Proof. unfold store_meta. rewrite length_set_byte. by rewrite !length_put16, length_put32, !length_put16. Qed.

(** Which sector a write of the entry changes. *)
Definition ent_frame (i : fat32_info) s s' : Prop :=
  forall x, (i_dir_cluster i <> 0 -> x <> ent_lba (i_dir_cluster i) (i_dir_pos i)) -> view_ s' x = view_ s x.

(** The entry of [i] has a place on disk, and what is there is no entry of a
    file: free, deleted, or part of a long name. *)
Definition entry_gone (i : fat32_info) s : Prop :=
  let d := view_ s (ent_lba (i_dir_cluster i) (i_dir_pos i)) in
  let o := ent_off (i_dir_pos i) in
  i_dir_cluster i <> 0 /\ (byte_at d o = 0 \/ byte_at d o = 0xE5 \/ byte_at d (o + 11) .& 0x3F = 0x0F).

Lemma dirent_store_wp s (i : fat32_info) :
  dk_inv (disk s) -> ent_ok i ->
  wp (dirent_store g (meta_of i)) s (fun s' r => exists d, s' = set_disk d s /\ dk_inv d /\ ent_frame i s s' /\
    match r with
    | inl e => e < 0 /\ same_view s s' /\ (dk_reliable -> e = - ENOENT /\ entry_gone i s)
    | inr _ => i_dir_cluster i <> 0 ->
        view_ s' (ent_lba (i_dir_cluster i) (i_dir_pos i)) =
          store_meta (meta_of i) (ent_off (i_dir_pos i)) (view_ s (ent_lba (i_dir_cluster i) (i_dir_pos i)))
    end).
Proof.
  intros Hi Hok. unfold dirent_store, meta_of. cbn [m_cluster m_pos].
  assert (Hsame : s = set_disk (disk s) s) by (by destruct s).
  destruct (Z.eqb_spec (i_dir_cluster i) 0) as [E|Hne].
  { apply wp_ret. exists (disk s). split_and!; try done. }
  destruct Hok as [|[Hc Hp]]; [done|]. pose proof (ent_in_cluster _ _ Hc Hp) as Hin.
  pose proof (in_cluster_range g Hg _ _ Hc Hin) as Hdev. pose proof (data_positive g Hg).
  destruct (_ || _ || _) eqn:Eb; [unfold in_vol in Hc; lia|]. clear Eb.
  assert (El : cluster_lba g (i_dir_cluster i) + (i_dir_pos i .>> 4) = ent_lba (i_dir_cluster i) (i_dir_pos i)).
  { rewrite (cluster_lba_eq g Hg) by done. unfold ent_lba. by rewrite Z.shiftr_div_pow2. }
  assert (Eo : i_dir_pos i .& 15 = i_dir_pos i mod 16) by (apply (land_low_mask _ 4); lia). rewrite El, Eo. fold (ent_off (i_dir_pos i)).
  apply wp_bind. eapply wp_mono; [apply with_sector_wp; [done|lia|]|].
  { intros d d' Hd. cbv zeta. destruct (_ || _ || _); simpl; [done|]. intros [= <-]. unfold is_sector. by rewrite length_store_meta. }
  intros s1 r (d & -> & Hd & Hr). destruct r as [e|found].
  { exists d. destruct Hr as (He & Hv & Hrel). split_and!; try done; [intros x _; apply Hv|]. intros Hr. by destruct (Hrel ltac:(lia)). }
  destruct Hr as (_ & -> & Hv). cbv zeta in *. destruct (_ || _ || _) eqn:Egone; simpl in Hv |- *.
  - apply wp_fail. exists d. assert (Hsv : same_view s (set_disk d s)).
    { intros x. cbn. rewrite Hv. by destruct (Z.eqb_spec x (ent_lba (i_dir_cluster i) (i_dir_pos i))) as [->|]. }
    split_and!; try done; [intros x _; apply Hsv|]. intros _. split; [done|]. split; [done|]. cbv zeta. lia.
  - apply wp_ret. exists d. split_and!; try done.
    + intros x Hx. cbn. rewrite Hv. specialize (Hx Hne). by destruct (Z.eqb_spec x (ent_lba (i_dir_cluster i) (i_dir_pos i))).
    + intros _. cbn. rewrite Hv. by rewrite Z.eqb_refl.
Qed.

(** *** The cut *)
Lemma chain_take s s' c l k last : chain g s c l -> (0 < k)%nat -> l !! (k - 1)%nat = Some last -> fat g s' last = FAT32_EOC ->
  (forall x, x ∈ l -> x <> last -> fat g s' x = fat g s x \/ x ∉ take k l) -> chain g s' c (take k l).
Proof.
  intros Hl. pose proof (chain_nodup g Hg _ _ _ Hl) as Hnd. revert k Hnd. induction Hl as [c Hc Hn|c n l Hc Hn Hl IH]; intros k Hnd Hk Hlast He Hsame.
  - destruct k as [|[|k]]; [lia| |simpl in Hlast; by destruct k]. simplify_eq/=. by apply chain_one.
  - destruct k as [|k]; [lia|]. apply NoDup_cons in Hnd as [Hni Hnd]. simpl in Hlast. rewrite Nat.sub_0_r in Hlast. destruct k as [|k].
    + simplify_eq/=. rewrite take_0. by apply chain_one.
    + simpl in Hlast. assert (Hne : c <> last) by (intros ->; apply Hni; by eapply list_elem_of_lookup_2).
      change (chain g s' c (c :: take (Datatypes.S k) l)). apply chain_link with n; [done| |].
      * destruct Hn as [Hn1 Hn2]. split; [|done]. destruct (Hsame c) as [->|Hx]; [by left|done|done|]. destruct Hx. by left.
      * apply IH; [done|lia|by rewrite Nat.sub_succ, Nat.sub_0_r|done|]. intros x Hx Hxl. destruct (Hsame x) as [|Hnx]; [by right|done|by left|right].
        intros Hin. apply Hnx. by right.
Qed.

(** Clusters a file of [n] bytes needs. *)
Definition clusters_for (n : Z) : Z := n / csz + (if n mod csz =? 0 then 0 else 1).

Lemma clusters_for_spec n : 0 <= n -> n <= clusters_for n * csz /\ 0 <= clusters_for n /\ forall k, n <= k * csz -> clusters_for n <= k.
Proof.
  intros Hn. unfold clusters_for. pose proof (csz_pos g Hg). pose proof (Z.div_mod n csz ltac:(lia)). pose proof (Z.mod_pos_bound n csz ltac:(lia)).
  assert (0 <= n / csz) by (apply Z.div_pos; lia). split_and!; [destruct (Z.eqb_spec (n mod csz) 0); nia|split_ifs; lia|].
  intros k Hk. destruct (Z.eqb_spec (n mod csz) 0) as [E|E]; [nia|]. nia.
Qed.

Lemma find_tail_wp s node l keep :
  dk_inv (disk s) -> file_ok g s node l -> l <> [] -> 0 <= keep <= Z.of_nat (length l) ->
  wp (find_tail g node keep) s (fun s' r => exists d, s' = set_disk d s /\ dk_inv d /\ same_view s s' /\
    match r with
    | inl e => e < 0 /\ ~ dk_reliable
    | inr (last, tail) => (if keep =? 0 then last = 0 else l !! idx (keep - 1) = Some last) /\ tail = default 0 (l !! idx keep)
    end).
Proof.
  intros Hi Hf Hne Hk. unfold find_tail. pose proof (fo_chain _ _ _ _ Hf) as [[? _]|Hch]; [done|].
  pose proof (chain_head g _ _ _ Hch) as Hh. rewrite head_lookup in Hh. pose proof (chain_lookup_in g _ _ _ _ _ Hch Hh) as Hfv.
  replace (2 <=? i_first (n_info node)) with true by (unfold in_vol in Hfv; lia).
  destruct (Z.eqb_spec keep 0) as [->|Hnz]; simpl negb; simpl andb; cbv iota.
  { apply wp_ret. exists (disk s). destruct s. split_and!; try done. change (idx 0) with 0%nat. by rewrite Hh. }
  destruct (start_at_ok g s node l (keep - 1) Hf ltac:(lia) Hne) as (a & c & -> & Ha & Hcl & Hcv & _).
  assert (Hlen : (idx a + Z.to_nat (keep - 1 - a) < length l)%nat) by (unfold idx; lia).
  assert (Ek : (idx a + Z.to_nat (keep - 1 - a))%nat = idx (keep - 1)) by (unfold idx; lia).
  assert (Ek2 : Datatypes.S (idx (keep - 1)) = idx keep) by (unfold idx; lia). rewrite <- Ek2, <- Ek. clear Ek Ek2 Hnz Hk Ha Hh Hfv Hf.
  revert Hcl Hlen. generalize (idx a). generalize (Z.to_nat (keep - 1 - a)). intros n. revert c Hcv s Hi Hch.
  induction n as [|n IH]; intros c Hcv s Hi Hch i Hcl Hlen; apply wp_bind; (wp_apply (fat_next_chain g Hg s _ l i c Hi Hch Hcl));
    intros s1 r (d & -> & Hd & Hv & Hr); (destruct r as [e|o]; [by exists d; destruct Hr|]).
  - apply wp_ret. exists d. rewrite Nat.add_0_r. by subst o.
  - destruct (lookup_lt_is_Some_2 l (Datatypes.S i)) as [y Hy]; [lia|]. rewrite Hy in Hr. subst o.
    eapply wp_mono; [apply (IH y (chain_lookup_in g _ _ _ _ _ Hch Hy) (set_disk d s) Hd (chain_view g _ _ _ _ Hv Hch) (Datatypes.S i) Hy); lia|].
    intros s2 r (d2 & -> & Hd2 & Hv2 & Hr). exists d2. replace (i + Datatypes.S n)%nat with (Datatypes.S i + n)%nat by lia.
    split_and!; try done. intros q. by rewrite Hv2, Hv.
Qed.

(** Truncation changes the entries of the file's chain and the sector of its
    directory entry, and nothing else. *)
Record cut_frame s (l : list Z) (i : fat32_info) s' : Prop := {
  cf_inv : fs_inv g s';
  cf_frame : frame s s';
  cf_fat c : in_vol g c -> c ∉ l -> fat g s' c = fat g s c;
  cf_view x : outside g x -> (i_dir_cluster i <> 0 -> x <> ent_lba (i_dir_cluster i) (i_dir_pos i)) -> view_ s' x = view_ s x
}.

Record cut_good s (l : list Z) (new_size : Z) s' (node' : fat32_node) : Prop := {
  cg_file : file_ok g s' node' (take (idx (clusters_for new_size)) l);
  cg_size : i_size (n_info node') = new_size;
  cg_byte o : 0 <= o < new_size -> fbyte s' (take (idx (clusters_for new_size)) l) o = fbyte s l o;
  cg_free c : c ∈ drop (idx (clusters_for new_size)) l -> fat g s' c = 0;
  cg_mir : mirrored g s -> mirrored g s';
  cg_entry : i_dir_cluster (n_info node') <> 0 ->
    let x := ent_lba (i_dir_cluster (n_info node')) (i_dir_pos (n_info node')) in
    view_ s' x = store_meta (meta_of (n_info node')) (ent_off (i_dir_pos (n_info node'))) (view_ s x)
}.

(** The two ways a truncation fails: before anything was written, with the
    file as it was (when the disk does not fail, because its directory entry is
    gone); or by a failure of the disk once the directory entry carries the
    new size and first cluster. *)
Definition cut_failed s (node : fat32_node) (l : list Z) (new_size : Z) s' (node' : fat32_node) (e : Z) : Prop :=
  e < 0 /\
  ((same_view s s' /\ file_ok g s' node' l /\ i_size (n_info node') = i_size (n_info node) /\
    (dk_reliable -> e = - ENOENT /\ entry_gone (n_info node) s)) \/
   (~ dk_reliable /\ i_size (n_info node') = new_size /\
    (i_dir_cluster (n_info node) <> 0 ->
       let x := ent_lba (i_dir_cluster (n_info node)) (i_dir_pos (n_info node)) in
       view_ s' x = store_meta (meta_of (n_info node')) (ent_off (i_dir_pos (n_info node))) (view_ s x)))).

Lemma file_ok_same s s' node node' l :
  same_view s s' -> i_first (n_info node') = i_first (n_info node) -> i_size (n_info node') = i_size (n_info node) ->
  (chain_cluster node' = 0 \/ (chain_cluster node' = chain_cluster node /\ chain_index node' = chain_index node)) ->
  file_ok g s node l -> file_ok g s' node' l.
Proof.
  intros Hv E1 E2 E3 [F1 F2 F3 F4]. split; rewrite ?E1, ?E2; [|done|done|].
  - destruct F1 as [|F1]; [by left|right]. by eapply chain_view.
  - destruct E3 as [|[-> ->]]; [by left|done].
Qed.

(** The last steps: the new end of the chain, and the tail given back. *)
Lemma cut_wp s l first keep last tail :
  fs_inv g s -> chain g s first l -> 0 <= keep <= Z.of_nat (length l) ->
  (if keep =? 0 then last = 0 else l !! idx (keep - 1) = Some last) -> tail = default 0 (l !! idx keep) ->
  wp (_ ← (if negb (keep =? 0) && negb (last =? 0) then fat_set g last FAT32_EOC else mret tt);
      if negb (tail =? 0) then cluster_free_chain g tail else mret tt) s
    (fun s' r => fs_inv g s' /\ frame s s' /\ same_rest g s s' /\ (forall c, in_vol g c -> c ∉ l -> fat g s' c = fat g s c) /\
       match r with
       | inl e => e < 0 /\ ~ dk_reliable
       | inr _ => (forall c, c ∈ drop (idx keep) l -> fat g s' c = 0) /\ (keep <> 0 -> chain g s' first (take (idx keep) l)) /\ (mirrored g s -> mirrored g s')
       end).
Proof.
  intros Hi Hch Hk Hlast Htail. pose proof (chain_in_vol g _ _ _ Hch) as Hvol. rewrite Forall_forall in Hvol.
  pose proof (chain_nodup g Hg _ _ _ Hch) as Hnd.
  assert (Hnd2 : forall x, x ∈ take (idx keep) l -> x ∉ drop (idx keep) l).
  { rewrite <- (take_drop (idx keep) l) in Hnd. apply NoDup_app in Hnd as (_ & Hx & _). done. }
  set (P := fun s1 (r : Z + unit) => exists d, s1 = set_disk d s /\ dk_inv d /\ same_rest g s s1 /\ (forall c, in_vol g c -> c <> last -> fat g s1 c = fat g s c) /\
    match r with inl e => e < 0 /\ ~ dk_reliable | inr _ => (keep <> 0 -> fat g s1 last = FAT32_EOC) /\ (mirrored g s -> mirrored g s1) end).
  assert (Hlast2 : keep <> 0 -> l !! idx (keep - 1) = Some last /\ in_vol g last /\ last ∈ take (idx keep) l).
  { intros Hnz. destruct (Z.eqb_spec keep 0); [done|]. split_and!; [done|apply Hvol; by eapply list_elem_of_lookup_2|].
    apply list_elem_of_lookup. exists (idx (keep - 1)). rewrite lookup_take_lt by (unfold idx; lia). done. }
  assert (H1 : wp (if negb (keep =? 0) && negb (last =? 0) then fat_set g last FAT32_EOC else mret tt) s P).
  { destruct (Z.eqb_spec keep 0) as [->|Hnz]; simpl negb; simpl andb; cbv iota.
    - apply wp_ret. exists (disk s). destruct s. split_and!; try done. apply Hi.
    - destruct (Hlast2 Hnz) as (_ & Hlv & _). replace (last =? 0) with false by (unfold in_vol in Hlv; lia). simpl negb. cbv iota.
      wp_apply (fat_set_wp g Hg last FAT32_EOC s (fi_disk _ _ Hi) Hlv). { unfold is28, FAT32_EOC. lia. }
      intros s1 r (d & -> & Hd & Hrest & Ho & Hr). exists d. split_and!; try done. destruct r; [by destruct Hr as (? & ? & _)|]. destruct Hr. by split. }
  apply wp_bind. eapply wp_mono; [exact H1|]. intros s1 r (d & -> & Hd & Hrest & Ho & Hr). pose proof (fs_inv_disk g s d Hi Hd) as Hi1.
  assert (Hfat : forall c, in_vol g c -> c ∉ l -> fat g (set_disk d s) c = fat g s c).
  { intros c Hc Hn. destruct (decide (keep = 0)) as [->|Hnz]; [|destruct (Hlast2 Hnz) as (Hl & _); apply Ho; [done|]; intros ->; apply Hn; by eapply list_elem_of_lookup_2].
    apply Ho; [done|]. simpl in Hlast. unfold in_vol in Hc. lia. }
  destruct r as [e|u]; [destruct Hr; by split_and!|]. destruct Hr as [Hr1 Hr2].
  assert (Htake : forall s2, (forall x, x ∈ take (idx keep) l -> fat g s2 x = fat g (set_disk d s) x) -> keep <> 0 -> chain g s2 first (take (idx keep) l)).
  { intros s2 Hs2 Hnz. destruct (Hlast2 Hnz) as (Hl & Hlv & Hlt). apply (chain_take s s2 first l (idx keep) last Hch).
    - unfold idx. lia.
    - by replace (idx keep - 1)%nat with (idx (keep - 1)) by (unfold idx; lia).
    - rewrite Hs2; auto.
    - intros x Hx Hne. destruct (decide (x ∈ take (idx keep) l)) as [Hin|]; [left|by right]. rewrite Hs2 by done. apply Ho; auto. }
  destruct (l !! idx keep) as [t|] eqn:Et; simpl in Htail; subst tail.
  - assert (Htv : in_vol g t) by (apply Hvol; by eapply list_elem_of_lookup_2). replace (t =? 0) with false by (unfold in_vol in Htv; lia). simpl negb. cbv iota.
    assert (Hdr : chain g (set_disk d s) t (drop (idx keep) l)).
    { eapply chain_same; [|by eapply chain_drop]. intros x Hx. apply Ho; [apply Hvol; by eapply in_drop|]. intros ->.
      destruct (decide (keep = 0)) as [->|Hnz]; [simpl in Hlast; unfold in_vol in Hvol; specialize (Hvol last (in_drop _ _ _ Hx)); lia|].
      destruct (Hlast2 Hnz) as (_ & _ & Hlt). by apply (Hnd2 last). }
    wp_apply (cluster_free_chain_wp g Hg t (drop (idx keep) l) (set_disk d s) Hi1 Hdr).
    intros s2 r (I2 & F2 & R2 & K2 & _ & Hr). split_and!; [done|done| | |].
    + intros x Hx. rewrite R2 by done. by apply Hrest.
    + intros c Hc Hn. rewrite K2; [by apply Hfat|done|]. intros Hx. apply Hn. by eapply in_drop.
    + destruct r as [e|u2]; [apply Hr|]. destruct Hr as (Hz & Hm & _). split_and!; [done| |auto].
      apply Htake. intros x Hx. apply K2; [apply Hvol; by eapply in_take|by apply Hnd2].
  - apply wp_ret. split_and!; try done; [|by apply Htake]. intros c Hc. rewrite drop_ge in Hc by (by apply lookup_ge_None). by apply elem_of_nil in Hc.
Qed.

Lemma ticked_view s s' : ticked s s' -> same_view s s'.
Proof. by intros [t ->] x. Qed.
Lemma ticked_frame s s' : ticked s s' -> frame s s'.
Proof. by intros [t ->]. Qed.
Lemma ticked_inv s s' : ticked s s' -> fs_inv g s -> fs_inv g s'.
Proof. intros [t ->] [? ? ?]. by split. Qed.

Lemma ent_outside c pos : in_vol g c -> 0 <= pos < entries_per_cluster g -> outside g (ent_lba c pos).
Proof. intros Hc Hp. eapply in_cluster_outside; [done|done|by apply ent_in_cluster]. Qed.

(** The write of the entry leaves the table and the file's data alone. *)
Lemma ent_frame_table i s s' : ent_ok i -> ent_frame i s s' -> same_table g s s'.
Proof.
  intros [Hz|[Hc Hp]] Hf x Hx; apply Hf; [done|]. intros _ ->. by apply Hx, ent_outside.
Qed.

Lemma shrink_wp s node l new_size :
  fs_inv g s -> file_ok g s node l -> write_check g node = 0 -> 0 <= new_size < i_size (n_info node) ->
  ent_ok (n_info node) -> i_dir_cluster (n_info node) ∉ l ->
  wp (fat32_truncate g node new_size) s (fun s' r => exists node' res, r = inr (node', res) /\ cut_frame s l (n_info node) s' /\
    match res with inl e => cut_failed s node l new_size s' node' e | inr _ => cut_good s l new_size s' node' end).
Proof.
  intros Hi Hf Hchk Hn Hent Hdl. unfold fat32_truncate. rewrite Hchk. simpl Z.ltb. cbv iota zeta.
  replace (new_size =? i_size (n_info node)) with false by lia. replace (i_size (n_info node) <? new_size) with false by lia.
  rewrite (shift_eq g Hg), (mask_eq g Hg). pose proof (fo_size _ _ _ _ Hf) as Hs. pose proof (csz_pos g Hg) as Hcz.
  assert (Ek : new_size / csz + (if negb (new_size mod csz =? 0) then 1 else 0) = clusters_for new_size) by (unfold clusters_for; by destruct (new_size mod csz =? 0)).
  rewrite Ek. clear Ek. destruct (clusters_for_spec new_size ltac:(lia)) as (Hk1 & Hk2 & Hk3). specialize (Hk3 (Z.of_nat (length l)) ltac:(lia)).
  assert (Hne : l <> []) by (intros ->; simpl in Hs; lia). pose proof (fo_chain _ _ _ _ Hf) as [[? _]|Hch]; [done|].
  set (cg := cut_good s l new_size). assert (Ecg : cg = cut_good s l new_size) by done. clearbody cg.
  set (keep := clusters_for new_size) in *.
  assert (Hkn : keep = 0 -> new_size = 0) by (intros E; lia).
  assert (Hfr0 : forall s1, fs_inv g s1 -> frame s s1 -> same_view s s1 -> cut_frame s l (n_info node) s1).
  { intros s1 H1 H2 H3. split; [done|done|intros; by apply same_view_fat|intros; apply H3]. }
  apply wp_bind, wp_try. wp_apply (find_tail_wp s node l keep (fi_disk _ _ Hi) Hf Hne (conj Hk2 Hk3)).
  intros s1 r (d & -> & Hd & Hv & Hr). destruct r as [e|[last tail]].
  { apply wp_ret. exists node, (inl e). split; [done|]. split; [apply Hfr0; [by apply fs_inv_disk|done|done]|].
    destruct Hr as [He Hrel]. split; [done|]. left. split_and!; try done. by apply (file_ok_same s _ node); [..|right|]. }
  destruct Hr as [Hlast Htail]. apply wp_bind. eapply wp_mono; [apply fat_now_wp|]. intros s2 r (Ht & dt & ->).
  pose proof (fs_inv_disk g s d Hi Hd) as Hi1. pose proof (ticked_inv _ _ Ht Hi1) as Hi2.
  assert (Hv2 : same_view s s2) by (intros x; rewrite (ticked_view _ _ Ht x); apply Hv).
  assert (Hfr2 : frame s s2) by (etrans; [|by apply ticked_frame]; done). clear Ht.
  set (i := with_attr _ _). set (node1 := set_dirty_node true (set_info i node)).
  set (node2 := if keep <=? chain_index node1 then set_chain 0 0 node1 else node1).
  assert (Hinfo : n_info node2 = i /\ n_dirty node2 = true) by (unfold node2; destruct (keep <=? _); done). destruct Hinfo as [Ei2 Ed2].
  assert (Hi3 : i_size i = new_size /\ i_dir_cluster i = i_dir_cluster (n_info node) /\ i_dir_pos i = i_dir_pos (n_info node) /\
    i_first i = if keep =? 0 then 0 else i_first (n_info node)) by (unfold i; destruct (keep =? 0); done).
  destruct Hi3 as (Eisz & Eidc & Eidp & Eif). clearbody i.
  assert (Hent' : ent_ok i) by (unfold ent_ok in *; by rewrite Eidc, Eidp).
  apply wp_bind. unfold fat32_node_sync. rewrite Ed2. simpl negb. cbv iota. apply wp_bind, wp_try.
  change (n_info (set_dirty_node false node2)) with (n_info node2). rewrite Ei2.
  wp_apply (dirent_store_wp s2 i (fi_disk _ _ Hi2) Hent'). intros s3 r (d3 & -> & Hd3 & Hef & Hr).
  assert (Hef' : ent_frame (n_info node) s (set_disk d3 s2)).
  { intros x Hx. rewrite Hef; [apply Hv2|]. rewrite Eidc, Eidp. done. }
  pose proof (ent_frame_table _ _ _ Hent' Hef) as Ht3.
  assert (Hfat3 : forall c, in_vol g c -> fat g (set_disk d3 s2) c = fat g s c).
  { intros c Hc. rewrite (same_table_fat g Hg s2) by done. by apply same_view_fat. }
  assert (Hfr3 : cut_frame s l (n_info node) (set_disk d3 s2)).
  { split; [by apply fs_inv_disk|done|auto|]. intros x _ Hx. by apply Hef'. }
  destruct r as [e|u].
  { apply wp_ret, wp_ret. eexists _, (inl e). split; [reflexivity|]. split; [done|]. destruct Hr as (He & Hv3 & Hrel). split; [done|]. left.
    assert (Hv03 : same_view s (set_disk d3 s2)) by (intros x; rewrite Hv3; apply Hv2).
    split_and!; [done|apply (file_ok_same s _ node); try done; by left|done|]. intros Hx. destruct (Hrel Hx) as [-> Hg2]. split; [done|].
    unfold entry_gone in *. rewrite Eidc, Eidp in Hg2. cbv zeta in *. by rewrite Hv2 in Hg2. }
  apply wp_ret. assert (Hch3 : chain g (set_disk d3 s2) (i_first (n_info node)) l).
  { eapply chain_same; [|exact Hch]. intros x Hx. apply Hfat3. pose proof (chain_in_vol g _ _ _ Hch) as Hvol. rewrite Forall_forall in Hvol. auto. }
  apply wp_bind, wp_try. wp_apply (cut_wp (set_disk d3 s2) l (i_first (n_info node)) keep last tail (fs_inv_disk g s2 d3 Hi2 Hd3) Hch3 (conj Hk2 Hk3) Hlast Htail).
  intros s4 r (I4 & F4 & R4 & K4 & Hr4). apply wp_ret. eexists _, r. split; [reflexivity|].
  assert (Hfr4 : cut_frame s l (n_info node) s4).
  { split; [done|by etrans| |].
    - intros c Hc Hn'. rewrite K4 by done. by apply Hfat3.
    - intros x Ho Hx. rewrite R4 by done. by apply Hef'. }
  assert (Hstored : i_dir_cluster i <> 0 -> view_ s4 (ent_lba (i_dir_cluster i) (i_dir_pos i)) =
    store_meta (meta_of i) (ent_off (i_dir_pos i)) (view_ s (ent_lba (i_dir_cluster i) (i_dir_pos i)))).
  { intros Hnz. destruct Hent' as [|[Hdv Hdp]]; [done|]. rewrite R4 by (by apply ent_outside). rewrite Hr by done. by rewrite Hv2. }
  split; [done|]. destruct r as [e|u2].
  { destruct Hr4 as [He Hrel]. split; [done|]. right. change (n_info (set_dirty_node false node2)) with (n_info node2). rewrite Ei2.
    split_and!; [done|done|]. rewrite <- Eidc, <- Eidp. exact Hstored. }
  destruct Hr4 as (Z1 & Z2 & Z3). rewrite Ecg.
  assert (Hview : forall c x, c ∈ l -> in_cluster g c x -> view_ s4 x = view_ s x).
  { intros c x Hc Hx. pose proof (chain_in_vol g _ _ _ Hch) as Hvol. rewrite Forall_forall in Hvol. apply (cf_view _ _ _ _ Hfr4).
    - eapply in_cluster_outside; [done|by apply Hvol|done].
    - intros Hnz ->. destruct Hent as [|[Hdv Hdp]]; [done|]. pose proof (in_cluster_inj g Hg _ _ _ Hx (ent_in_cluster _ _ Hdv Hdp)) as E.
      apply Hdl. by rewrite <- E. }
  split; change (n_info (set_dirty_node false node2)) with (n_info node2); rewrite ?Ei2; fold keep.
  - assert (Hlen : Z.of_nat (length (take (idx keep) l)) = keep) by (rewrite length_take; unfold idx; lia).
    destruct Hf as [_ _ Hmx Hcache]. split; change (n_info (set_dirty_node false node2)) with (n_info node2); rewrite ?Ei2, ?Hlen, ?Eisz; [|lia|lia|].
    + rewrite Eif. destruct (Z.eqb_spec keep 0) as [->|Hnz]; [left|right; auto]. done.
    + unfold node2. destruct (Z.leb_spec keep (chain_index node1)) as [|Hlt]; [by left|]. simpl. destruct Hcache as [|[Hc1 Hc2]]; [by left|right].
      split; [done|]. simpl in Hlt. rewrite lookup_take_lt by (unfold idx; lia). done.
  - done.
  - intros o Ho. assert (Hq : 0 <= o / csz < keep) by (split; [apply Z.div_pos; lia|apply Z.div_lt_upper_bound; lia]).
    destruct (flba_in g Hg s (i_first (n_info node)) l o Hch ltac:(lia)) as (c & Hc & Hcv & Hcin).
    assert (El : flba g (take (idx keep) l) o = flba g l o) by (unfold flba; rewrite lookup_total_take_lt by (unfold idx; lia); done).
    unfold FatIO.fbyte. rewrite El. rewrite (Hview c); [done|by eapply list_elem_of_lookup_2|done].
  - done.
  - intros Hm. apply Z3. eapply same_table_mirrored; [done|exact Ht3|]. by eapply same_view_mirrored.
  - exact Hstored.
Qed.
End Trunc.
