(* ===== verification/FatProps.v ===== *)
(** * fat32.c: the properties of volumes and files

    Stated for every disk that meets [DiskOk] and every geometry fat32_mount
    accepts. [dk_reliable] says that the disk never fails: with it the
    theorems say when an operation succeeds, without it what an error can
    leave behind. At the end, concrete runs on a small volume. *)
From S2P Require Import Prelude CString Blk Disk Fat FatTab FatVol FatFile FatIO FatWrite FatTrunc.

Open Scope tach_scope.

(** [data] written at [off] over [old], with zeros between its end and
    [off]. *)
Definition overwrite (old : list Z) (off : nat) (data : list Z) : list Z :=
  take off (old ++ replicate (off - length old) 0) ++ data ++ drop (off + length data) old.

Section Props.
Context {S : Type} `{DiskOk S} (g : geo).
Implicit Types s : fs S.

Abbreviation content := (FatIO.content g).

(** Every chain that shares no cluster with [l] is still there, with the same
    bytes. *)
Definition others_kept s (l : list Z) s' : Prop := forall c0 l0, chain g s c0 l0 -> (forall x, x ∈ l0 -> x ∉ l) ->
  chain g s' c0 l0 /\ forall size, 0 <= size <= Z.of_nat (length l0) * csz g -> content s' l0 size = content s l0 size.

Lemma content_ext s s' l l' n : (forall o, 0 <= o < n -> fbyte g s' l' o = fbyte g s l o) -> content s' l' n = content s l n.
Proof.
  intros E. apply list_fmap_ext. intros k o Ho%lookup_seqZ. apply E. lia.
Qed.

Lemma content_length s l n : 0 <= n -> Z.of_nat (length (content s l n)) = n.
Proof. intros. unfold FatIO.content. rewrite length_fmap, length_seqZ. lia. Qed.

Lemma content_lookup s l n (o : nat) : Z.of_nat o < n -> content s l n !! o = Some (fbyte g s l (Z.of_nat o)).
Proof. intros. unfold FatIO.content. rewrite list_lookup_fmap, lookup_seqZ_lt by lia. simpl. done. Qed.

Lemma safe_others s l s' : geo_ok g -> safe g s l s' -> others_kept s l s'.
Proof.
  intros Hg Hs c0 l0 Hl Hdis. pose proof (chain_in_vol g _ _ _ Hl) as Hv. rewrite Forall_forall in Hv. split.
  - eapply chain_same; [|exact Hl]. intros x Hx. apply (sf_fat g _ _ _ Hs); [auto|by eapply chain_nonzero|auto].
  - intros size Hsz. apply content_ext. intros o Ho. destruct (flba_in g Hg s c0 l0 o Hl ltac:(lia)) as (c & Hc & Hcv & Hcin).
    unfold fbyte. rewrite (sf_view g _ _ _ Hs); [done|by eapply in_cluster_outside|]. intros c' Hc' Hin.
    pose proof (in_cluster_inj g Hg _ _ _ Hin Hcin) as ->. assert (c ∈ l0) by (by eapply list_elem_of_lookup_2).
    split; [by eapply chain_nonzero|auto].
Qed.

(** The bytes of a written file are those of [overwrite]. *)
Lemma content_overwrite s l size off b m s' node' l' :
  write_good g s l size off b m s' node' l' -> 0 < m <= Z.of_nat (length b) -> 0 <= off -> 0 <= size ->
  content s' l' (i_size (n_info node')) = overwrite (content s l size) (Z.to_nat off) (take (Z.to_nat m) b).
Proof.
  intros [W1 W2 W3 W4 W5] Hm Ho Hs. replace (m =? 0) with false in W3 by lia. rewrite W3 in *.
  assert (Hdl : length (take (Z.to_nat m) b) = Z.to_nat m) by (rewrite length_take; lia).
  assert (Hcl : length (content s l size) = Z.to_nat size) by (pose proof (content_length s l size Hs); lia).
  apply list_eq. intros k. unfold overwrite. set (old := content s l size) in *. set (pad := old ++ replicate _ 0).
  assert (Hpl : (Z.to_nat off <= length pad)%nat) by (unfold pad; rewrite length_app, length_replicate; lia).
  assert (Hk : content s' l' (Z.max size (off + m)) !! k = if decide (Z.of_nat k < Z.max size (off + m)) then
      Some (if (off <=? Z.of_nat k) && (Z.of_nat k <? off + m) then b !!! idx (Z.of_nat k - off) else old_byte g s l size (Z.of_nat k)) else None).
  { destruct (decide _); [rewrite content_lookup, W4 by lia; done|]. apply lookup_ge_None. pose proof (content_length s' l' (Z.max size (off + m)) ltac:(lia)). lia. }
  rewrite Hk. clear Hk. rewrite lookup_app, length_take. destruct (decide (Z.of_nat k < off)) as [H1|H1].
  - rewrite decide_True by lia. replace ((off <=? Z.of_nat k) && _) with false by lia. rewrite lookup_take_lt by lia. unfold old_byte, pad.
    destruct (Z.ltb_spec (Z.of_nat k) size).
    + rewrite lookup_app_l by lia. unfold old. by rewrite content_lookup by lia.
    + rewrite lookup_app_r by lia. rewrite (lookup_replicate_2 _ 0 (k - length old)) by lia. done.
  - rewrite lookup_take_ge by lia. rewrite lookup_app, Hdl. replace (k - Nat.min (Z.to_nat off) (length pad))%nat with (k - Z.to_nat off)%nat by lia.
    destruct (decide (Z.of_nat k < off + m)) as [H2|H2].
    + rewrite decide_True by lia. replace ((off <=? Z.of_nat k) && _) with true by lia. rewrite lookup_take_lt by lia.
      assert (Hlt : (k - Z.to_nat off < length b)%nat) by lia. destruct (lookup_lt_is_Some_2 _ _ Hlt) as [x Hx]. rewrite Hx.
      f_equal. replace (idx (Z.of_nat k - off)) with (k - Z.to_nat off)%nat by (unfold idx; lia). by apply list_lookup_total_correct.
    + rewrite (lookup_take_ge b) by lia. rewrite lookup_drop. replace (Z.to_nat off + Z.to_nat m + (k - Z.to_nat off - Z.to_nat m))%nat with k by lia.
      replace ((off <=? Z.of_nat k) && _) with false by lia. unfold old_byte. destruct (decide (Z.of_nat k < Z.max size (off + m))) as [H3|H3].
      * replace (Z.of_nat k <? size) with true by lia. unfold old. by rewrite content_lookup by lia.
      * symmetry. apply lookup_ge_None. lia.
Qed.

(** ** Properties *)

(** C14: cluster_alloc hands out a cluster that was free, marks it as the end of
    a chain in the active table, and in every copy when they are mirrored, and
    changes no other entry and nothing outside the table; the free count stays
    exact. When it fails every allocated entry is as before; if the disk does
    not fail, then it fails with ENOSPC and only when no cluster of the volume
    is free, wherever the search started. *)
Theorem cluster_alloc_correct s s' r :
  geo_ok g -> fs_inv g s -> readonly g = false -> cluster_alloc g s = (s', r) ->
  fs_inv g s' /\ same_rest g s s' /\
  match r with
  | inl e => e < 0 /\ (forall c, in_vol g c -> fat g s c <> 0 -> fat g s' c = fat g s c) /\
      (dk_reliable -> e = - ENOSPC /\ same_view s s' /\ forall c, in_vol g c -> fat g s c <> 0)
  | inr c => in_vol g c /\ fat g s c = 0 /\ fat g s' c = FAT32_EOC /\
      (forall c', in_vol g c' -> c' <> c -> fat g s' c' = fat g s c') /\ (mirrored g s -> mirrored g s') /\
      (free_count s = nfree g s -> free_count s' = nfree g s')
  end.
Proof.
  intros Hg Hi Hro E. pose proof (wp_run _ _ _ (cluster_alloc_wp g Hg s Hi Hro) _ _ E) as (I1 & _ & R1 & Hr).
  split_and!; [done|done|]. destruct r as [e|c]; [done|]. destruct Hr as (A1 & A2 & A3 & A4 & A5 & A6 & _). split_and!; try done.
  intros Hfc. assert (Hn : nfree g s = nfree g s' + 1).
  { apply (nfree_alloc g s s' c); [done|done|by rewrite A3|]. intros c' H1 H2. by rewrite A4. }
  pose proof (nfree_bound g Hg s'). pose proof (nfree_bound g Hg s). pose proof (go_clusters g Hg). unfold FAT32_MAX_CLUSTERS in *. rewrite A6, Hfc. unfold count_minus, FAT32_UNKNOWN.
  replace ((nfree g s =? 0xFFFFFFFF) || (nfree g s =? 0)) with false by lia. lia.
Qed.

(** cluster_free_chain gives back exactly the clusters of the chain: on
    success each of its entries is free, in every copy when they are
    mirrored; whether it succeeds or not, no entry outside the chain and no
    sector outside the table changes, and it fails only when the disk does. *)
Theorem cluster_free_chain_correct s first l s' r :
  geo_ok g -> fs_inv g s -> chain g s first l -> cluster_free_chain g first s = (s', r) ->
  fs_inv g s' /\ same_rest g s s' /\ (forall c, in_vol g c -> c ∉ l -> fat g s' c = fat g s c) /\
  match r with
  | inl e => e < 0 /\ ~ dk_reliable
  | inr _ => (forall c, c ∈ l -> fat g s' c = 0) /\ (mirrored g s -> mirrored g s') /\
      (free_count s <> FAT32_UNKNOWN -> free_count s' = Z.min (free_count s + Z.of_nat (length l)) (clusters g))
  end.
Proof.
  intros Hg Hi Hl E. pose proof (wp_run _ _ _ (cluster_free_chain_wp g Hg first l s Hi Hl) _ _ E) as (I1 & _ & R1 & K & _ & Hr).
  split_and!; try done. destruct r; [done|]. destruct Hr as (A1 & A2 & A3). split_and!; try done. intros Hne. rewrite A3.
  by destruct (Z.eqb_spec (free_count s) FAT32_UNKNOWN).
Qed.

(** C15: fat32_read returns the bytes of the file at the offset: a prefix of
    what was asked for that ends at the end of the file at the latest, never
    empty when there is something to read, and all of it when the disk does
    not fail; it fails only when the disk does, and changes nothing on disk.
    The cached position it leaves in the node is on the file's chain. *)
Theorem fat32_read_correct s node l offset count s' r :
  geo_ok g -> fs_inv g s -> file_ok g s node l -> has_attr FAT32_ATTR_DIR (n_info node) = false -> 0 <= offset -> 0 <= count ->
  fat32_read g node offset true count s = (s', r) ->
  exists node' res, r = inr (node', res) /\ same_view s s' /\ file_ok g s' node' l /\ n_info node' = n_info node /\
    let size := i_size (n_info node) in
    let want := Z.min (Z.min count 0x7FFFFFFF) (Z.max 0 (size - offset)) in
    match res with
    | inl e => e < 0 /\ ~ dk_reliable
    | inr data => data = take (length data) (drop (Z.to_nat offset) (content s l size)) /\
        Z.of_nat (length data) <= want /\ (0 < want -> data <> []) /\ (dk_reliable -> Z.of_nat (length data) = want)
    end.
Proof.
  intros Hg Hi Hf Hdir Ho Hc E. pose proof (wp_run _ _ _ (fat32_read_wp g Hg node l offset count s (fi_disk _ _ Hi) Hf Hdir Ho Hc) _ _ E)
    as (d & node' & res & -> & _ & Hv & -> & Hinfo & _ & Hf' & Hr). exists node', res. split_and!; try done.
  cbv zeta in *. destruct res; [done|]. destruct Hr as (A1 & A2 & A3 & A4). by split_and!.
Qed.

(** C2: fat32_write of [b] at [off]. A result [m] is the number of bytes
    written, at least 1; when it is all that one call writes, or the disk does
    not fail, the file then holds its old bytes with the first [m] of [b] at
    [off] and zeros in any hole, its chain is the old one plus clusters that
    were free, and a shorter count or an error means that no cluster is free.
    Whatever happens, every other chain and its bytes are untouched. *)
Theorem fat32_write_correct s node l off b s' r :
  geo_ok g -> fs_inv g s -> file_ok g s node l -> write_check g node = 0 -> 0 <= off < FAT32_MAX_SIZE -> b <> [] ->
  fat32_write g node off (Some b) (Z.of_nat (length b)) s = (s', r) ->
  let n := write_limit off (Z.of_nat (length b)) in
  exists node' res, r = inr (node', res) /\ fs_inv g s' /\ others_kept s l s' /\
    match res with
    | inl e => e < 0 /\ (dk_reliable -> full g s')
    | inr m => 0 < m <= n /\ (m < n -> dk_reliable -> full g s') /\
        (m = n \/ dk_reliable -> exists l' k, file_ok g s' node' l' /\ l' = l ++ k /\ Forall (fun c => fat g s c = 0) k /\
           content s' l' (i_size (n_info node')) = overwrite (content s l (i_size (n_info node))) (Z.to_nat off) (take (Z.to_nat m) b))
    end.
Proof.
  intros Hg Hi Hf Hchk Ho Hb E. assert (Hro : readonly g = false).
  { unfold write_check in Hchk. destruct (has_attr FAT32_ATTR_DIR _); [done|]. by destruct (readonly g). }
  pose proof (wp_run _ _ _ (fat32_write_wp g Hg Hro s node l off b Hi Hf Hchk Ho Hb) _ _ E) as (node' & res & -> & _ & Hs & Hr).
  intros n. exists node', res. split_and!; [done|apply Hs|by apply safe_others|]. destruct res as [e|m].
  - destruct Hr as [He Hrel]. split; [done|]. intros Hr. by destruct (Hrel Hr).
  - destruct Hr as (Hm & Hgood & Hfull). split_and!; try done; try lia. intros Hx. destruct (Hgood Hx) as (l' & Hw). exists l'.
    pose proof (wg_new g _ _ _ _ _ _ _ _ _ Hw) as (k & -> & Hk). exists k. split_and!; [apply Hw|done|done|].
    apply (content_overwrite s l _ off b m s' node' (l ++ k) Hw); [unfold write_limit in Hm; lia|lia|]. apply Hf.
Qed.

(** What was written is read back: after a write of [m] bytes of [b] at
    [off] (all that one call writes, or on a disk that does not fail), reading
    [m] bytes at [off] returns a prefix of [b], not empty, and the whole [m]
    bytes when the disk does not fail. *)
Theorem fat32_write_read s node l off b s1 node1 m s2 node2 data :
  geo_ok g -> fs_inv g s -> file_ok g s node l -> write_check g node = 0 -> 0 <= off < FAT32_MAX_SIZE -> b <> [] ->
  fat32_write g node off (Some b) (Z.of_nat (length b)) s = (s1, inr (node1, inr m)) ->
  m = write_limit off (Z.of_nat (length b)) \/ dk_reliable ->
  fat32_read g node1 off true m s1 = (s2, inr (node2, inr data)) ->
  data = take (length data) b /\ data <> [] /\ (dk_reliable -> data = take (Z.to_nat m) b).
Proof.
  intros Hg Hi Hf Hchk Ho Hb E Hm E2. assert (Hro : readonly g = false /\ has_attr FAT32_ATTR_DIR (n_info node) = false).
  { unfold write_check in Hchk. destruct (has_attr FAT32_ATTR_DIR _); [done|]. by destruct (readonly g). }
  destruct Hro as [Hro Hdir].
  destruct (wp_run _ _ _ (fat32_write_wp g Hg Hro s node l off b Hi Hf Hchk Ho Hb) _ _ E) as (node' & res & [= <- <-] & Hd & Hs & Hmr & Hgood & _).
  destruct (Hgood Hm) as (l' & Hw). pose proof Hw as [W1 W2 W3 W4 W5]. rewrite Hdir in Hd. replace (m =? 0) with false in W3 by lia.
  destruct (wp_run _ _ _ (fat32_read_wp g Hg node1 l' off m s1 (fi_disk _ _ (sf_inv _ _ _ _ Hs)) W1 Hd ltac:(lia) ltac:(lia)) _ _ E2)
    as (d & n2 & res & -> & _ & _ & [= <- <-] & _ & _ & _ & Hlen & Hne & Hrel & Hdata).
  assert (Hlim : m <= Z.of_nat (length b) /\ m <= 0x7FFFFFFF) by (unfold write_limit in Hmr; lia).
  assert (Hpre : data = take (length data) b).
  { rewrite Hdata at 1. rewrite content_slice by lia. apply list_eq. intros k. rewrite list_lookup_fmap. destruct (decide (k < length data)%nat).
    - rewrite lookup_seqZ_lt, lookup_take_lt by lia. simpl. rewrite W4 by lia. replace ((off <=? off + Z.of_nat k) && _) with true by lia.
      replace (idx (off + Z.of_nat k - off)) with k by (unfold idx; lia). symmetry. apply list_lookup_lookup_total_lt. lia.
    - rewrite lookup_seqZ_ge, lookup_take_ge by lia. done. }
  split_and!; [done|apply Hne; lia|]. intros Hr. rewrite Hpre. f_equal. specialize (Hrel Hr). lia.
Qed.

(** C13: fat32_truncate to a smaller size. When it succeeds the file has the
    new size and the same bytes up to it, its chain keeps exactly the clusters
    the new size needs, the rest of the chain is free, and the directory entry
    on disk carries the new size and first cluster. The entry is stored before
    the table is touched: when the call fails, either no sector has changed
    and the file is as it was, or the disk has failed and the entry on disk
    already carries the new size and first cluster, so a directory entry never
    leads to clusters that were given back. On a disk that does not fail the
    call succeeds unless the entry is no longer that of a file, and then
    nothing is touched. Succeed or fail, no entry of a cluster outside the
    chain and no sector but the table's and that of the directory entry
    changes. *)
Theorem fat32_truncate_correct s node l new_size s' r :
  geo_ok g -> fs_inv g s -> file_ok g s node l -> write_check g node = 0 -> 0 <= new_size < i_size (n_info node) ->
  ent_ok g (n_info node) -> i_dir_cluster (n_info node) ∉ l -> fat32_truncate g node new_size s = (s', r) ->
  exists node' res, r = inr (node', res) /\ cut_frame g s l (n_info node) s' /\
    match res with
    | inl e => e < 0 /\
        let x := ent_lba g (i_dir_cluster (n_info node)) (i_dir_pos (n_info node)) in
        ((same_view s s' /\ file_ok g s' node' l /\ i_size (n_info node') = i_size (n_info node) /\
          (dk_reliable -> e = - ENOENT /\ entry_gone g (n_info node) s)) \/
         (~ dk_reliable /\ i_size (n_info node') = new_size /\
          (i_dir_cluster (n_info node) <> 0 ->
             dk_view (disk s') x = store_meta (meta_of (n_info node')) (ent_off (i_dir_pos (n_info node))) (dk_view (disk s) x))))
    | inr _ =>
        let kept := take (Z.to_nat (clusters_for g new_size)) l in
        file_ok g s' node' kept /\ i_size (n_info node') = new_size /\
        content s' kept new_size = take (Z.to_nat new_size) (content s l (i_size (n_info node))) /\
        (forall c, c ∈ drop (Z.to_nat (clusters_for g new_size)) l -> fat g s' c = 0) /\
        (i_dir_cluster (n_info node') <> 0 ->
           let x := ent_lba g (i_dir_cluster (n_info node')) (i_dir_pos (n_info node')) in
           dk_view (disk s') x = store_meta (meta_of (n_info node')) (ent_off (i_dir_pos (n_info node'))) (dk_view (disk s) x))
    end.
Proof.
  intros Hg Hi Hf Hchk Hn Hent Hdl E.
  pose proof (wp_run _ _ _ (shrink_wp g Hg s node l new_size Hi Hf Hchk Hn Hent Hdl) _ _ E) as (node' & res & -> & Hfr & Hr).
  exists node', res. split_and!; [done|done|]. destruct res as [e|u]; [done|]. destruct Hr as [C1 C2 C3 C4 C5 C6]. cbv zeta. unfold idx in *.
  split_and!; try done. rewrite <- (drop_0 (content s l _)). change 0%nat with (Z.to_nat 0). rewrite content_slice by lia.
  rewrite Z2Nat.id by lia. apply list_fmap_ext. intros k o Ho%lookup_seqZ. apply C3. lia.
Qed.
End Props.

(** ** Concrete runs: four clusters of one sector, a file of 600 bytes in
    clusters 3 and 4 whose entry is the first of the root directory *)
Definition fat_demo_geo : geo := Geo false 2 1 0 true 1 1 0 3 4 2 1 0 16 [].
Definition fat_demo_fat : sector :=
  put32 16 FAT32_EOC (put32 12 4 (put32 8 FAT32_EOC zero_sector)).
Definition fat_demo_sectors : ideal := fun l =>
  if (l =? 1) || (l =? 2) then fat_demo_fat
  else if l =? 3 then set_byte 0 65 zero_sector
  else zero_sector.
Definition fat_demo_fs : fs ideal := Fs fat_demo_sectors 1 5 false false [] None 0.
Definition fat_demo_info : fat32_info := Info [97] [65] 0x20 3 600 0 0 2 0.
Definition fat_demo_node : fat32_node := fat32_node_init fat_demo_info.


#[local] Instance fat_demo_disk : Disk ideal := ideal_disk 8 false.
Lemma fat_demo_size : 0 <= 8 < 2 ^ 64.
Proof. lia. Qed.
#[local] Instance fat_demo_disk_ok : DiskOk ideal := ideal_ok 8 false fat_demo_size.

Lemma fat_demo_geo_ok : geo_ok fat_demo_geo.
Proof. split; cbn; unfold FAT32_MAX_CLUSTERS; lia || done. Qed.

Lemma fat_demo_inv : fs_inv fat_demo_geo fat_demo_fs.
Proof.
  split; [|cbn; lia|unfold in_vol; cbn; lia]. intros l. cbn. unfold fat_demo_sectors. split_ifs; reflexivity.
Qed.

Lemma fat_demo_chain : chain fat_demo_geo fat_demo_fs 3 [3; 4].
Proof.
  assert (E3 : fat fat_demo_geo fat_demo_fs 3 = 4) by reflexivity. assert (E4 : fat fat_demo_geo fat_demo_fs 4 = FAT32_EOC) by reflexivity.
  apply chain_link with 4; [unfold in_vol; cbn; lia|split; [done|unfold in_vol; cbn; lia]|]. apply chain_end; [unfold in_vol; cbn; lia|]. simpl. rewrite E4. done.
Qed.

Lemma fat_demo_file : file_ok fat_demo_geo fat_demo_fs fat_demo_node [3; 4].
Proof. split; [right; apply fat_demo_chain|unfold csz; cbn; lia|cbn; unfold FAT32_MAX_SIZE; lia|by left]. Qed.

Lemma cluster_alloc_correct_witness :
  exists s', cluster_alloc fat_demo_geo fat_demo_fs = (s', inr 5) /\ fat fat_demo_geo fat_demo_fs 5 = 0 /\ fat fat_demo_geo s' 5 = FAT32_EOC /\ fat fat_demo_geo s' 4 = FAT32_EOC.
Proof.
  assert (Er : snd (cluster_alloc fat_demo_geo fat_demo_fs) = inr 5) by reflexivity.
  destruct (cluster_alloc fat_demo_geo fat_demo_fs) as [s' r] eqn:E. cbn [snd] in Er. subst r. exists s'.
  destruct (cluster_alloc_correct fat_demo_geo fat_demo_fs s' (inr 5) fat_demo_geo_ok fat_demo_inv eq_refl E) as (_ & _ & H1 & H2 & H3 & H4 & _).
  split_and!; [reflexivity|exact H2|exact H3|]. rewrite H4; [reflexivity|unfold in_vol; cbn; lia|done].
Defined.

Lemma cluster_free_chain_correct_witness :
  exists s', cluster_free_chain fat_demo_geo 3 fat_demo_fs = (s', inr tt) /\ fat fat_demo_geo s' 3 = 0 /\ fat fat_demo_geo s' 4 = 0 /\ fat fat_demo_geo s' 2 = FAT32_EOC /\ free_count s' = 3.
Proof.
  assert (Er : snd (cluster_free_chain fat_demo_geo 3 fat_demo_fs) = inr tt) by reflexivity.
  destruct (cluster_free_chain fat_demo_geo 3 fat_demo_fs) as [s' r] eqn:E. cbn [snd] in Er. subst r. exists s'.
  destruct (cluster_free_chain_correct fat_demo_geo fat_demo_fs 3 [3; 4] s' (inr tt) fat_demo_geo_ok fat_demo_inv fat_demo_chain E) as (_ & _ & H1 & H2 & _ & H3).
  split_and!; [reflexivity|apply H2; by left|apply H2; right; by left| |].
  - rewrite H1; [reflexivity|unfold in_vol; cbn; lia|]. apply not_elem_of_cons. split; [done|]. by rewrite list_elem_of_singleton.
  - rewrite H3 by done. reflexivity.
Defined.

Lemma fat32_read_correct_witness :
  exists s' node' data, fat32_read fat_demo_geo fat_demo_node 510 true 200 fat_demo_fs = (s', inr (node', inr data)) /\ length data = 90%nat /\
    data = take 90 (drop 510 (FatIO.content fat_demo_geo fat_demo_fs [3; 4] 600)).
Proof.
  destruct (fat32_read fat_demo_geo fat_demo_node 510 true 200 fat_demo_fs) as [s' r] eqn:E.
  destruct (fat32_read_correct fat_demo_geo fat_demo_fs fat_demo_node [3; 4] 510 200 s' r fat_demo_geo_ok fat_demo_inv fat_demo_file eq_refl ltac:(lia) ltac:(lia) E)
    as (node' & res & -> & _ & _ & _ & Hr).
  destruct res as [e|data]; [destruct Hr as [_ Hr]; destruct (Hr I)|]. destruct Hr as (H1 & _ & _ & H2). specialize (H2 I). cbn in H2.
  exists s', node', data. assert (Hl : length data = 90%nat) by lia. split_and!; [reflexivity|exact Hl|]. rewrite Hl in H1. exact H1.
Defined.

Definition fat_demo_empty : fat32_node := fat32_node_init (Info [98] [66] 0x20 0 0 0 0 2 1).
Lemma fat_demo_empty_file : file_ok fat_demo_geo fat_demo_fs fat_demo_empty [].
Proof. split; [by left|cbn; lia|cbn; unfold FAT32_MAX_SIZE; lia|by left]. Qed.

Lemma fat32_write_correct_witness :
  exists s' node' l', fat32_write fat_demo_geo fat_demo_empty 2 (Some [7; 8; 9]) 3 fat_demo_fs = (s', inr (node', inr 3)) /\ file_ok fat_demo_geo s' node' l' /\
    FatIO.content fat_demo_geo s' l' (i_size (n_info node')) = [0; 0; 7; 8; 9].
Proof.
  assert (Er : (fun w => match snd w with inr (_, inr m) => m =? 3 | _ => false end) (fat32_write fat_demo_geo fat_demo_empty 2 (Some [7; 8; 9]) 3 fat_demo_fs) = true) by reflexivity.
  destruct (fat32_write fat_demo_geo fat_demo_empty 2 (Some [7; 8; 9]) 3 fat_demo_fs) as [s' r] eqn:E. cbn [snd] in Er.
  destruct (fat32_write_correct fat_demo_geo fat_demo_fs fat_demo_empty [] 2 [7; 8; 9] s' r fat_demo_geo_ok fat_demo_inv fat_demo_empty_file eq_refl
    ltac:(unfold FAT32_MAX_SIZE; lia) ltac:(discriminate) E) as (node' & res & Hres & _ & _ & Hr).
  subst r. destruct res as [e|m]; [discriminate Er|]. apply Z.eqb_eq in Er. subst m. destruct Hr as (_ & _ & Hgood).
  destruct (Hgood (or_intror I)) as (l' & k & H1 & _ & _ & H2). exists s', node', l'. split_and!; [reflexivity|exact H1|exact H2].
Defined.

Lemma fat32_write_read_witness :
  exists s1 node1 s2 node2 data, fat32_write fat_demo_geo fat_demo_node 510 (Some [7; 8; 9]) 3 fat_demo_fs = (s1, inr (node1, inr 3)) /\
    fat32_read fat_demo_geo node1 510 true 3 s1 = (s2, inr (node2, inr data)) /\ data = [7; 8; 9].
Proof.
  assert (Er : (fun w => match snd w with
               | inr (n, inr m) => (m =? 3) && match snd (fat32_read fat_demo_geo n 510 true 3 (fst w)) with inr (_, inr _) => true | _ => false end
               | _ => false end) (fat32_write fat_demo_geo fat_demo_node 510 (Some [7; 8; 9]) 3 fat_demo_fs) = true) by reflexivity.
  destruct (fat32_write fat_demo_geo fat_demo_node 510 (Some [7; 8; 9]) 3 fat_demo_fs) as [s1 r] eqn:E. cbn [fst snd] in Er.
  destruct r as [|[node1 [|m]]]; [discriminate Er|discriminate Er|]. apply andb_prop in Er as [Em Er]. apply Z.eqb_eq in Em. subst m. destruct (fat32_read fat_demo_geo node1 510 true 3 s1) as [s2 r2] eqn:E2.
  cbn [snd] in Er. destruct r2 as [|[node2 [|data]]]; [discriminate Er|discriminate Er|]. exists s1, node1, s2, node2, data. split_and!; [reflexivity|exact E2|].
  destruct (fat32_write_read fat_demo_geo fat_demo_fs fat_demo_node [3; 4] 510 [7; 8; 9] s1 node1 3 s2 node2 data fat_demo_geo_ok fat_demo_inv fat_demo_file eq_refl
    ltac:(unfold FAT32_MAX_SIZE; lia) ltac:(discriminate) E (or_intror I) E2) as (_ & _ & H3). exact (H3 I).
Defined.

Lemma fat_demo_ent : ent_ok fat_demo_geo (n_info fat_demo_node).
Proof. right. split; [unfold in_vol; cbn; lia|cbn; lia]. Qed.
Lemma fat_demo_dir_out : i_dir_cluster (n_info fat_demo_node) ∉ [3; 4].
Proof. cbn. rewrite elem_of_cons, list_elem_of_singleton. lia. Qed.

(** To 100 bytes; and with the directory entry gone, when nothing changes. *)
Lemma fat32_truncate_correct_witness :
  (exists s' node', fat32_truncate fat_demo_geo fat_demo_node 100 fat_demo_fs = (s', inr (node', inr tt)) /\ file_ok fat_demo_geo s' node' [3] /\
    i_size (n_info node') = 100 /\ fat fat_demo_geo s' 4 = 0) /\
  (let gone := set_disk (fun l => if l =? 3 then zero_sector else fat_demo_sectors l) fat_demo_fs in
   exists s' node', fat32_truncate fat_demo_geo fat_demo_node 100 gone = (s', inr (node', inl (- ENOENT))) /\ file_ok fat_demo_geo s' node' [3; 4]).
Proof.
  split.
  - assert (Er : (fun w => match snd w with inr (_, inr _) => true | _ => false end) (fat32_truncate fat_demo_geo fat_demo_node 100 fat_demo_fs) = true) by reflexivity.
    destruct (fat32_truncate fat_demo_geo fat_demo_node 100 fat_demo_fs) as [s' r] eqn:E. cbn [snd] in Er.
    destruct (fat32_truncate_correct fat_demo_geo fat_demo_fs fat_demo_node [3; 4] 100 s' r fat_demo_geo_ok fat_demo_inv fat_demo_file eq_refl ltac:(cbn; lia)
      fat_demo_ent fat_demo_dir_out E) as (node' & res & Hres & _ & Hr).
    subst r. destruct res as [e|[]]; [discriminate Er|]. destruct Hr as (H1 & H2 & _ & H3 & _). exists s', node'.
    split_and!; [reflexivity|exact H1|exact H2|]. apply H3. by left.
  - intros gone.
    assert (Hi : fs_inv fat_demo_geo gone).
    { split; [|cbn; lia|unfold in_vol; cbn; lia]. intros l. cbn. unfold fat_demo_sectors. split_ifs; reflexivity. }
    assert (Hf : file_ok fat_demo_geo gone fat_demo_node [3; 4]).
    { split; [right|unfold csz; cbn; lia|cbn; unfold FAT32_MAX_SIZE; lia|by left].
      assert (E3 : fat fat_demo_geo gone 3 = 4) by reflexivity. assert (E4 : fat fat_demo_geo gone 4 = FAT32_EOC) by reflexivity.
      apply chain_link with 4; [unfold in_vol; cbn; lia|split; [done|unfold in_vol; cbn; lia]|]. apply chain_end; [unfold in_vol; cbn; lia|]. simpl. rewrite E4. done. }
    assert (Er : (fun w => match snd w with inr (_, inl e) => e =? - ENOENT | _ => false end) (fat32_truncate fat_demo_geo fat_demo_node 100 gone) = true) by reflexivity.
    destruct (fat32_truncate fat_demo_geo fat_demo_node 100 gone) as [s' r] eqn:E. cbn [snd] in Er.
    destruct (fat32_truncate_correct fat_demo_geo gone fat_demo_node [3; 4] 100 s' r fat_demo_geo_ok Hi Hf eq_refl ltac:(cbn; lia)
      fat_demo_ent fat_demo_dir_out E) as (node' & res & Hres & _ & Hr).
    subst r. destruct res as [e|[]]; [|discriminate Er]. apply Z.eqb_eq in Er. subst e. exists s', node'. split; [reflexivity|].
    destruct Hr as (_ & [(_ & H & _)|(H & _)]); [exact H|destruct H; exact I].
Defined.
