(* ===== verification/FatName.v ===== *)
(** * fat32.c: names

    Names are byte lists without the terminating NUL. The conversions between
    UTF-8 and UTF-16, the 8.3 names, and the 32-byte directory entries that
    hold them: [lfn_entries] builds what dir_add_entry writes for a long name,
    [dir_step] is one turn of dir_next's loop on an entry. *)
From S2P Require Import Prelude CString Fat.

Open Scope tach_scope.

Definition FAT32_LFN_SLOTS : Z := 20.
Definition FAT32_NAME_MAX : Z := 255.

(** ** Comparison *)
Definition fold_char (c : Z) : Z := if (65 <=? c) && (c <=? 90) then c + 32 else c.

Fixpoint name_eq (a b : list Z) : bool :=
  match a, b with
  | x :: a', y :: b' => if fold_char x =? fold_char y then name_eq a' b' else false
  | [], [] => true
  | _, _ => false
  end.

Definition str_same (a b : list Z) : bool := bool_decide (length a = length b) && bool_decide (a = b).

(** ** UTF-16 to UTF-8 *)

Definition utf8_need (cp : Z) : Z := if cp <? 0x80 then 1 else if cp <? 0x800 then 2 else if cp <? 0x10000 then 3 else 4.

Definition utf8_bytes (cp : Z) : list Z :=
  let need := utf8_need cp in
  if need =? 1 then [u8 cp]
  else if need =? 2 then [u8 (0xC0 .| (cp .>> 6)); u8 (0x80 .| (cp .& 0x3F))]
  else if need =? 3 then [u8 (0xE0 .| (cp .>> 12)); u8 (0x80 .| ((cp .>> 6) .& 0x3F)); u8 (0x80 .| (cp .& 0x3F))]
  else [u8 (0xF0 .| (cp .>> 18)); u8 (0x80 .| ((cp .>> 12) .& 0x3F)); u8 (0x80 .| ((cp .>> 6) .& 0x3F)); u8 (0x80 .| (cp .& 0x3F))].

(** One character into the output, of which [n] bytes are used. *)
Definition utf8_emit (cap n cp : Z) (rest : Z -> option (list Z)) : option (list Z) :=
  let need := utf8_need cp in
  if cap <=? n + need then None else out ← rest (n + need); Some (utf8_bytes cp ++ out).

(** The units up to the first 0; [None] when the output does not fit. *)
Fixpoint utf16_loop (us : list Z) (cap n : Z) : option (list Z) :=
  match us with
  | [] => Some []
  | u :: us' =>
      if u =? 0 then Some []
      else if (0xD800 <=? u) && (u <? 0xDC00) then
        match us' with
        | v :: us'' =>
            if (0xDC00 <=? v) && (v <? 0xE000) then
              utf8_emit cap n (0x10000 + ((u - 0xD800) .<< 10) + (v - 0xDC00)) (utf16_loop us'' cap)
            else utf8_emit cap n 63 (utf16_loop us' cap)
        | [] => utf8_emit cap n 63 (utf16_loop us' cap)
        end
      else utf8_emit cap n (if (0xDC00 <=? u) && (u <? 0xE000) then 63 else u) (utf16_loop us' cap)
  end.

(** [None] is -1: does not fit, or empty. *)
Definition utf16_to_utf8 (units : list Z) (max_units cap : Z) : option (list Z) :=
  out ← utf16_loop (take (Z.to_nat max_units) units) cap 0;
  match out with [] => None | _ => Some out end.

(** ** UTF-8 to UTF-16 *)

(** The [extra] continuation bytes; the NUL at the end is not one. *)
Fixpoint utf8_cont (extra : nat) (cp : Z) (p : list Z) : option (Z * list Z) :=
  match extra with
  | O => Some (cp, p)
  | S n =>
      match p with
      | b :: p' => if negb (b .& 0xC0 =? 0x80) then None else utf8_cont n ((cp .<< 6) .| (b .& 0x3F)) p'
      | [] => None
      end
  end.

Definition utf8_lead (c : Z) : option (Z * nat) :=
  if c <? 0x80 then Some (c, 0%nat)
  else if c .& 0xE0 =? 0xC0 then Some (c .& 0x1F, 1%nat)
  else if c .& 0xF0 =? 0xE0 then Some (c .& 0x0F, 2%nat)
  else if c .& 0xF8 =? 0xF0 then Some (c .& 0x07, 3%nat)
  else None.

(** Overlong forms, surrogates, values above U+10FFFF. *)
Definition utf8_bad (cp : Z) (extra : nat) : bool :=
  bool_decide (extra = 1%nat) && (cp <? 0x80) || bool_decide (extra = 2%nat) && (cp <? 0x800) ||
  bool_decide (extra = 3%nat) && (cp <? 0x10000) || (0x10FFFF <? cp) || (0xD800 <=? cp) && (cp <=? 0xDFFF).

(** Controls and the characters a FAT name cannot have. *)
Definition name_bad (cp : Z) : bool :=
  (cp <? 0x20) || bool_decide (cp ∈ [92; 47; 58; 42; 63; 34; 60; 62; 124]).

Fixpoint utf8_loop (fuel : nat) (p : list Z) (n cap : Z) : Z + list Z :=
  match fuel with
  | O => inr []
  | S fuel' =>
      match p with
      | [] => inr []
      | c :: p' =>
          match utf8_lead c with
          | None => inl (- EINVAL)
          | Some (cp, extra) =>
              match utf8_cont extra cp p' with
              | None => inl (- EINVAL)
              | Some (cp, p) =>
                  if utf8_bad cp extra then inl (- EINVAL)
                  else if name_bad cp then inl (- EINVAL)
                  else if 0x10000 <=? cp then
                    if cap <? n + 2 then inl (- ENAMETOOLONG)
                    else match utf8_loop fuel' p (n + 2) cap with
                         | inl e => inl e
                         | inr out => inr (u16 (0xD800 .| ((cp - 0x10000) .>> 10)) :: u16 (0xDC00 .| ((cp - 0x10000) .& 0x3FF)) :: out)
                         end
                  else
                    if cap <? n + 1 then inl (- ENAMETOOLONG)
                    else match utf8_loop fuel' p (n + 1) cap with
                         | inl e => inl e
                         | inr out => inr (u16 cp :: out)
                         end
              end
          end
      end
  end.

(** Every turn takes at least one byte. *)
Definition utf8_to_utf16 (s : list Z) (cap : Z) : Z + list Z := utf8_loop (length s) s 0 cap.

Definition name_units (name : list Z) : Z + list Z :=
  let len := Z.of_nat (length name) in
  if len =? 0 then inl (- EINVAL)
  else if FAT32_NAME_MAX <? len then inl (- ENAMETOOLONG)
  else if bool_decide (name = [46]) || bool_decide (name = [46; 46]) then inl (- EINVAL)
  else if bool_decide (last name = Some 46) || bool_decide (last name = Some 32) then inl (- EINVAL)
  else utf8_to_utf16 name 255.

(** ** 8.3 names *)

Definition short_checksum (name11 : list Z) : Z :=
  foldl (fun sum c => u8 (((sum .& 1) .<< 7) + (sum .>> 1) + c)) 0 (take 11 name11).

Record short_gen := Gen { sg_raw : list Z; sg_nt : Z; sg_lossy : bool; sg_lfn : bool; sg_base_len : Z }.

Definition short_char_ok (c : Z) : bool :=
  (65 <=? c) && (c <=? 90) || (48 <=? c) && (c <=? 57) ||
  bool_decide (c ∈ [33; 35; 36; 37; 38; 39; 40; 41; 45; 64; 94; 95; 96; 123; 125; 126]).

(** [while (start < len && (name[start] == '.' || name[start] == ' ')) start++] *)
Fixpoint skip_dots (name : list Z) (lossy : bool) : list Z * bool :=
  match name with
  | c :: name' => if (c =? 46) || (c =? 32) then skip_dots name' true else (name, lossy)
  | [] => ([], lossy)
  end.

(** The last dot of [name] splits it. *)
Fixpoint split_dot (name : list Z) : option (list Z * list Z) :=
  match name with
  | [] => None
  | c :: name' =>
      match split_dot name' with
      | Some (b, e) => Some (c :: b, e)
      | None => if c =? 46 then Some ([], name') else None
      end
  end.

(** The characters kept for one part, at most [room], whether any was lower
    or upper case, and whether anything was lost. [dots]: dots are dropped. *)
Fixpoint short_part (room : nat) (dots : bool) (name : list Z) : list Z * bool * bool * bool :=
  match name with
  | [] => ([], false, false, false)
  | c :: name' =>
      if (c =? 32) || dots && (c =? 46) then
        let '(out, lower, upper, lossy) := short_part room dots name' in (out, lower, upper, true)
      else
        let is_lower := (97 <=? c) && (c <=? 122) in
        let is_upper := (65 <=? c) && (c <=? 90) in
        let c := if is_lower then u8 (c - 32) else c in
        let bad := negb (short_char_ok c) in
        let c := if bad then 95 else c in
        match room with
        | S room' =>
            let '(out, lower, upper, lossy) := short_part room' dots name' in
            (c :: out, lower || is_lower, upper || is_upper, lossy || bad)
        | O =>
            let '(out, lower, upper, lossy) := short_part O dots name' in
            (out, lower || is_lower, upper || is_upper, true)
        end
  end.

Definition pad (n : nat) (l : list Z) : list Z := l ++ replicate (n - length l) 32.

Definition short_gen_base (name : list Z) : short_gen :=
  let '(name, lossy0) := skip_dots name false in
  let '(base, ext) := default (name, []) (split_dot name) in
  let '(b, bl, bu, lossy1) := short_part 8 true base in
  let '(e, el, eu, lossy2) := short_part 3 false ext in
  let empty := bool_decide (b = []) in
  let b := if empty then [95] else b in
  let lossy := lossy0 || lossy1 || lossy2 || empty in
  let mixed := bl && bu || el && eu in
  Gen (pad 8 b ++ pad 3 e) (if mixed then 0 else (if bl then 0x08 else 0) .| (if el then 0x10 else 0))
      lossy (mixed || lossy) (Z.of_nat (length b)).

(** The decimal digits of [v], least significant first. *)
Fixpoint digits (fuel : nat) (v : Z) : list Z :=
  match fuel with
  | O => []
  | S k => if v =? 0 then [] else (48 + v mod 10) :: digits k (v / 10)
  end.

(** The raw name [NAME~n.EXT] for [n] up to 999999. *)
Definition tail_name (g : short_gen) (n : Z) : list Z :=
  let ds := digits 7 n in
  let d := Z.of_nat (length ds) in
  let keep := if 8 - 1 - d <? sg_base_len g then 8 - 1 - d else sg_base_len g in
  pad 8 (take (Z.to_nat keep) (sg_raw g) ++ [126] ++ rev ds) ++ drop 8 (sg_raw g).

Definition with_raw (g : short_gen) (raw : list Z) : short_gen := Gen raw (sg_nt g) (sg_lossy g) (sg_lfn g) (sg_base_len g).

(** One part of [short_name] and of [name]. *)
Fixpoint short_names (lower : bool) (cs : list Z) : list Z * list Z :=
  match cs with
  | [] => ([], [])
  | c :: cs' =>
      let '(s, n) := short_names lower cs' in
      let shown := if (65 <=? c) && (c <=? 90) && lower then u8 (c + 32) else c in
      if 0x80 <=? c then (95 :: s, u8 (0xC0 .| (c .>> 6)) :: u8 (0x80 .| (c .& 0x3F)) :: n)
      else (c :: s, shown :: n)
  end.

(** A char array as a string: up to the first NUL. *)
Fixpoint cstr (l : list Z) : list Z :=
  match l with
  | c :: l' => if c =? 0 then [] else c :: cstr l'
  | [] => []
  end.

(** [short_name] and [name] as strings. *)
Definition build_short_name (e : list Z) : list Z * list Z :=
  let raw := byte_at e <$> seqZ 0 11 in
  let raw := if byte_at raw 0 =? 0x05 then <[0%nat := 0xE5]> raw else raw in
  let base := trim_len 8 raw 0 in
  let ext := trim_len 3 raw 8 in
  let '(sb, nb) := short_names (negb (byte_at e 12 .& 0x08 =? 0)) (take base raw) in
  let '(se, ne) := short_names (negb (byte_at e 12 .& 0x10 =? 0)) (take ext (drop 8 raw)) in
  match ext with
  | O => (cstr sb, cstr nb)
  | S _ => (cstr (sb ++ 46 :: se), cstr (nb ++ 46 :: ne))
  end.

(** ** Directory entries *)

Definition lfn_offsets : list Z := [1; 3; 5; 7; 9; 14; 16; 18; 20; 22; 24; 28; 30].

Definition zero_entry : list Z := replicate 32 0.

(** Unit number [k] of the name as it is stored: a 0 ends it, 0xFFFF fills. *)
Definition lfn_unit (units : list Z) (k : Z) : Z :=
  let n := Z.of_nat (length units) in
  if k <? n then units !!! idx k else if k =? n then 0 else 0xFFFF.

(** The long-name entry with ordinal [seq]; the last one of the name comes
    first on disk and has bit 0x40. *)
Definition lfn_entry (units : list Z) (count checksum seq : Z) : list Z :=
  let e := set_byte 13 checksum (set_byte 11 0x0F (set_byte 0 (seq .| (if seq =? count then 0x40 else 0)) zero_entry)) in
  foldl (fun e '(j, o) => put16 o (lfn_unit units ((seq - 1) * 13 + j)) e) e (zip (seqZ 0 13) lfn_offsets).

Definition lfn_count (units : list Z) : Z := (Z.of_nat (length units) + 12) / 13.

(** In the order of the disk. *)
Definition lfn_entries (units : list Z) (checksum : Z) : list (list Z) :=
  let count := lfn_count units in
  (fun i => lfn_entry units count checksum (count - i)) <$> seqZ 0 count.

(** The 8.3 entry that dir_add_entry writes. *)
Definition short_entry (raw : list Z) (attr nt now_date now_time first_cluster size wdate wtime : Z) : list Z :=
  let e := raw ++ drop 11 zero_entry in
  let e := set_byte 12 nt (set_byte 11 attr e) in
  let e := put16 18 now_date (put16 16 now_date (put16 14 now_time e)) in
  put32 28 size (put16 26 first_cluster (put16 24 wdate (put16 22 wtime (put16 20 (first_cluster .>> 16) e)))).

(** The entries of a name, with the 8.3 entry last: [ents] of dir_add_entry,
    once the 8.3 name is chosen. *)
Definition name_entries (g : short_gen) (units : list Z) (attr now_date now_time first_cluster size wdate wtime : Z) : list (list Z) :=
  (if sg_lfn g then lfn_entries units (short_checksum (sg_raw g)) else []) ++
  [short_entry (sg_raw g) attr (sg_nt g) now_date now_time first_cluster size wdate wtime].

(** ** One entry of dir_next's loop *)
Record lfn_st := Lfn { lf_units : list Z; lf_pending : Z; lf_slots : Z; lf_checksum : Z }.
Definition lfn_start : lfn_st := Lfn (replicate 260 0) 0 0 0.
Definition drop_lfn (st : lfn_st) : lfn_st := Lfn (lf_units st) 0 (lf_slots st) (lf_checksum st).

Definition take_units (slot : Z) (e units : list Z) : list Z :=
  foldl (fun us '(i, o) => <[idx ((slot - 1) * 13 + i) := le16 e o]> us) units (zip (seqZ 0 13) lfn_offsets).

Definition lfn_step (st : lfn_st) (e : list Z) : lfn_st :=
  let seq := byte_at e 0 in
  if negb (byte_at e 12 =? 0) || negb (byte_at e 26 =? 0) || negb (byte_at e 27 =? 0) then drop_lfn st
  else if negb (seq .& 0x40 =? 0) then
    let slot := seq .& 0x3F in
    if (slot =? 0) || (FAT32_LFN_SLOTS <? slot) then drop_lfn st
    else Lfn (take_units slot e (lf_units st)) slot slot (byte_at e 13)
  else if (lf_pending st <? 2) || negb (seq =? lf_pending st - 1) || negb (byte_at e 13 =? lf_checksum st) then drop_lfn st
  else Lfn (take_units seq e (lf_units st)) seq (lf_slots st) (lf_checksum st).

(** The names of an 8.3 entry, with the long name collected before it. *)
Definition entry_names (st : lfn_st) (e : list Z) : list Z * list Z :=
  let '(short, name) := build_short_name e in
  if (lf_pending st =? 1) && (short_checksum (byte_at e <$> seqZ 0 11) =? lf_checksum st) then
    match utf16_to_utf8 (lf_units st) (lf_slots st * 13) (FAT32_NAME_MAX + 1) with
    | Some long => (short, long)
    | None => (short, name)
    end
  else (short, name).

Definition entry_info (st : lfn_st) (e : list Z) (cluster pos : Z) : fat32_info :=
  let '(short, name) := entry_names st e in
  let attr := byte_at e 11 in
  Info name short attr ((le16 e 20 .<< 16) .| le16 e 26) (if negb (attr .& FAT32_ATTR_DIR =? 0) then 0 else le32 e 28)
       (le16 e 24) (le16 e 22) cluster pos.

(** An entry that is not the end mark: go on, or the entry found. *)
Definition dir_step (st : lfn_st) (e : list Z) (cluster pos : Z) : lfn_st + fat32_info :=
  let attr := byte_at e 11 in
  if byte_at e 0 =? 0xE5 then inl (drop_lfn st)
  else if attr .& 0x3F =? 0x0F then inl (lfn_step st e)
  else if negb (attr .& 0x08 =? 0) then inl (drop_lfn st)
  else if (byte_at e 0 =? 46) && ((byte_at e 1 =? 32) || (byte_at e 1 =? 46) && (byte_at e 2 =? 32)) then inl (drop_lfn st)
  else inr (entry_info st e cluster pos).

(** The entries of [es], each with its position, one after the other. *)
Fixpoint dir_steps (st : lfn_st) (es : list (Z * Z * list Z)) : lfn_st + fat32_info :=
  match es with
  | [] => inl st
  | (cluster, pos, e) :: es' =>
      match dir_step st e cluster pos with
      | inl st => dir_steps st es'
      | inr i => inr i
      end
  end.
