(* ===== verification/FatUtf.v ===== *)
(** * fat32.c: the conversions between UTF-8 and UTF-16

    A name that [utf8_to_utf16] accepts is given back by [utf16_to_utf8],
    also when its units are followed by the 0 that ends a long name. *)
From S2P Require Import Prelude CString Fat FatName.

Open Scope tach_scope.

Abbreviation bytes := (Forall (fun b => 0 <= b < 256)).

(** ** Bit fields of a byte, by going through the 256 values *)

Local Ltac in_list := rewrite !elem_of_cons; tauto.

Lemma byte_cases (P : Z -> bool) b : forallb P (seqZ 0 256) = true -> 0 <= b < 256 -> P b = true.
Proof. intros Hp Hb. rewrite forallb_forall in Hp. apply Hp. apply list_elem_of_In, elem_of_seqZ. lia. Qed.

Lemma lead_field b m t d : (m, t, d) ∈ [(0xE0, 0xC0, 32); (0xF0, 0xE0, 16); (0xF8, 0xF0, 8); (0xC0, 0x80, 64)] ->
  0 <= b < 256 -> b .& m = t -> b = t + (b .& (d - 1)) /\ 0 <= b .& (d - 1) < d.
Proof.
  intros Hin Hb He.
  pose proof (byte_cases (fun b => negb (b .& m =? t) || (b =? t + (b .& (d - 1))) && (0 <=? b .& (d - 1)) && (b .& (d - 1) <? d)) b) as Hc.
  assert (Ht : forallb (fun b => negb (b .& m =? t) || (b =? t + (b .& (d - 1))) && (0 <=? b .& (d - 1)) && (b .& (d - 1) <? d)) (seqZ 0 256) = true).
  { set_unfold in Hin. destruct Hin as [[=-> -> ->]|[[=-> -> ->]|[[=-> -> ->]|[[=-> -> ->]|[]]]]]; reflexivity. }
  specialize (Hc Ht Hb). cbv beta in Hc. lia.
Qed.

Lemma field_lor t x d : (t, d) ∈ [(0xC0, 32); (0xE0, 16); (0xF0, 8); (0x80, 64)] -> 0 <= x < d -> u8 (t .| x) = t + x.
Proof.
  intros Hin Hx. assert (Hb : 0 <= x < 256) by (set_unfold in Hin; destruct Hin as [[=-> ->]|[[=-> ->]|[[=-> ->]|[[=-> ->]|[]]]]]; lia).
  pose proof (byte_cases (fun x => (d <=? x) || (u8 (t .| x) =? t + x)) x) as Hc.
  assert (Ht : forallb (fun x => (d <=? x) || (u8 (t .| x) =? t + x)) (seqZ 0 256) = true).
  { set_unfold in Hin. destruct Hin as [[=-> ->]|[[=-> ->]|[[=-> ->]|[[=-> ->]|[]]]]]; reflexivity. }
  specialize (Hc Ht Hb). cbv beta in Hc. lia.
Qed.

Lemma cont_add cp x : 0 <= x < 64 -> (cp .<< 6) .| x = cp * 64 + x.
Proof. intros. rewrite Z.lor_comm, lor_add by lia. lia. Qed.

Lemma cont_field b : 0 <= b < 256 -> b .& 0xC0 = 0x80 -> b = 0x80 + (b .& 63) /\ 0 <= b .& 63 < 64.
Proof. intros. apply (lead_field b 0xC0 0x80 64); [in_list|lia|done]. Qed.

Lemma split6 a x : 0 <= x < 64 -> (a * 64 + x) .>> 6 = a /\ (a * 64 + x) .& 63 = x.
Proof.
  intros. rewrite Z.shiftr_div_pow2 by lia. change 63 with (2 ^ 6 - 1). rewrite land_low_mask by lia. change (2 ^ 6) with 64.
  split; dlia.
Qed.

(** ** One character *)
Definition good_cp (cp : Z) : Prop := 0x20 <= cp <= 0x10FFFF /\ (cp < 0xD800 \/ 0xDFFF < cp).

Lemma bad_false cp extra : utf8_bad cp extra = false -> 0 <= cp ->
  cp <= 0x10FFFF /\ (cp < 0xD800 \/ 0xDFFF < cp) /\ (extra = 1%nat -> 0x80 <= cp) /\ (extra = 2%nat -> 0x800 <= cp) /\ (extra = 3%nat -> 0x10000 <= cp).
Proof. unfold utf8_bad. intros Hb H0. repeat case_bool_decide; simpl in Hb; split_and!; lia. Qed.

Lemma utf8_bytes2 a x : 2 <= a < 32 -> 0 <= x < 64 -> utf8_bytes (a * 64 + x) = [0xC0 + a; 0x80 + x].
Proof.
  intros. destruct (split6 a x) as [E1 E2]; [lia|]. unfold utf8_bytes.
  assert (Hn : utf8_need (a * 64 + x) = 2) by (unfold utf8_need; split_ifs; lia).
  rewrite Hn. simpl. rewrite E1, E2. rewrite (field_lor 0xC0 a 32), (field_lor 0x80 x 64); [done|in_list|lia|in_list|lia].
Qed.

Lemma utf8_bytes3 a x y : 0 <= a < 16 -> 0 <= x < 64 -> 0 <= y < 64 -> 0x800 <= (a * 64 + x) * 64 + y ->
  utf8_bytes ((a * 64 + x) * 64 + y) = [0xE0 + a; 0x80 + x; 0x80 + y].
Proof.
  intros. destruct (split6 (a * 64 + x) y) as [E1 E2]; [lia|]. destruct (split6 a x) as [E3 E4]; [lia|]. unfold utf8_bytes.
  assert (Hn : utf8_need ((a * 64 + x) * 64 + y) = 3) by (unfold utf8_need; split_ifs; lia).
  rewrite Hn. simpl. change (Z.shiftr _ 12) with (((a * 64 + x) * 64 + y) .>> (6 + 6)). rewrite <- Z.shiftr_shiftr by lia.
  rewrite E1, E2, E3, E4. rewrite (field_lor 0xE0 a 16), (field_lor 0x80 x 64), (field_lor 0x80 y 64); [done|in_list|lia|in_list|lia|in_list|lia].
Qed.

Lemma utf8_bytes4 a x y z : 0 <= a < 8 -> 0 <= x < 64 -> 0 <= y < 64 -> 0 <= z < 64 -> 0x10000 <= ((a * 64 + x) * 64 + y) * 64 + z ->
  utf8_bytes (((a * 64 + x) * 64 + y) * 64 + z) = [0xF0 + a; 0x80 + x; 0x80 + y; 0x80 + z].
Proof.
  intros. set (cp := ((a * 64 + x) * 64 + y) * 64 + z) in *.
  destruct (split6 ((a * 64 + x) * 64 + y) z) as [E1 E2]; [lia|]. destruct (split6 (a * 64 + x) y) as [E3 E4]; [lia|].
  destruct (split6 a x) as [E5 E6]; [lia|]. fold cp in E1, E2. unfold utf8_bytes.
  assert (Hn : utf8_need cp = 4) by (unfold utf8_need; split_ifs; lia).
  rewrite Hn. simpl. replace (cp .>> 12) with ((cp .>> 6) .>> 6) by (rewrite Z.shiftr_shiftr by lia; done).
  replace (cp .>> 18) with (((cp .>> 6) .>> 6) .>> 6) by (rewrite !Z.shiftr_shiftr by lia; done).
  rewrite E1, E2, E3, E4, E5, E6.
  rewrite (field_lor 0xF0 a 8), (field_lor 0x80 x 64), (field_lor 0x80 y 64), (field_lor 0x80 z 64);
    [done|in_list|lia|in_list|lia|in_list|lia|in_list|lia].
Qed.

(** The bytes that were read are the encoding of the character. *)
Lemma utf8_char c p a extra cp rest : bytes (c :: p) -> utf8_lead c = Some (a, extra) -> utf8_cont extra a p = Some (cp, rest) ->
  utf8_bad cp extra = false -> name_bad cp = false -> c :: p = utf8_bytes cp ++ rest /\ good_cp cp.
Proof.
  intros Hb Hl Hc Hbad Hname. apply Forall_cons in Hb as [Hcb Hp].
  assert (H32 : 0x20 <= cp) by (unfold name_bad in Hname; case_bool_decide; simpl in Hname; lia).
  pose proof (bad_false cp extra Hbad ltac:(lia)) as (B1 & B2 & B3 & B4 & B5).
  split; [|by unfold good_cp; split_and!; lia || auto].
  unfold utf8_lead in Hl. split_ifs_in Hl; simplify_eq; simpl in Hc.
  - injection Hc as <- <-. unfold utf8_bytes. replace (utf8_need a) with 1 by (unfold utf8_need; split_ifs; lia). simpl.
    by rewrite u8_small by (unfold is_u8; lia).
  - destruct p as [|b p]; [done|]. apply Forall_cons in Hp as [Hb1 Hp]. destruct (Z.eqb_spec (b .& 0xC0) 0x80); [|done].
    simpl in Hc. injection Hc as <- <-. destruct (cont_field b) as [Eb Rb]; [lia|done|].
    destruct (lead_field c 0xE0 0xC0 32) as [Ec Rc]; [in_list|lia|lia|]. change (32 - 1) with 31 in Ec, Rc. rewrite cont_add in * by lia.
    rewrite utf8_bytes2 by (specialize (B3 eq_refl); lia). simpl. congruence.
  - destruct p as [|b p]; [done|]. apply Forall_cons in Hp as [Hb1 Hp]. destruct (Z.eqb_spec (b .& 0xC0) 0x80); [|done].
    destruct p as [|b' p]; [done|]. apply Forall_cons in Hp as [Hb2 Hp]. destruct (Z.eqb_spec (b' .& 0xC0) 0x80); [|done].
    simpl in Hc. injection Hc as <- <-. destruct (cont_field b) as [Eb Rb]; [lia|done|]. destruct (cont_field b') as [Eb' Rb']; [lia|done|].
    destruct (lead_field c 0xF0 0xE0 16) as [Ec Rc]; [in_list|lia|lia|]. change (16 - 1) with 15 in Ec, Rc. rewrite !cont_add in * by lia.
    rewrite utf8_bytes3 by (specialize (B4 eq_refl); lia). simpl. congruence.
  - destruct p as [|b p]; [done|]. apply Forall_cons in Hp as [Hb1 Hp]. destruct (Z.eqb_spec (b .& 0xC0) 0x80); [|done].
    destruct p as [|b' p]; [done|]. apply Forall_cons in Hp as [Hb2 Hp]. destruct (Z.eqb_spec (b' .& 0xC0) 0x80); [|done].
    destruct p as [|b'' p]; [done|]. apply Forall_cons in Hp as [Hb3 Hp]. destruct (Z.eqb_spec (b'' .& 0xC0) 0x80); [|done].
    simpl in Hc. injection Hc as <- <-. destruct (cont_field b) as [Eb Rb]; [lia|done|]. destruct (cont_field b') as [Eb' Rb']; [lia|done|].
    destruct (cont_field b'') as [Eb'' Rb'']; [lia|done|].
    destruct (lead_field c 0xF8 0xF0 8) as [Ec Rc]; [in_list|lia|lia|]. change (8 - 1) with 7 in Ec, Rc. rewrite !cont_add in * by lia.
    rewrite utf8_bytes4 by (specialize (B5 eq_refl); lia). simpl. congruence.
Qed.

(** ** The loops *)

Lemma surrogate_fields x : 0 <= x < 0x100000 ->
  u16 (0xD800 .| (x .>> 10)) = 0xD800 + x / 1024 /\ u16 (0xDC00 .| (x .& 0x3FF)) = 0xDC00 + x mod 1024.
Proof.
  intros Hx. rewrite Z.shiftr_div_pow2 by lia. change 0x3FF with (2 ^ 10 - 1). rewrite land_low_mask by lia. change (2 ^ 10) with 1024.
  change 0xD800 with (54 .<< 10). change 0xDC00 with (55 .<< 10).
  rewrite !(Z.lor_comm (_ .<< _)), !lor_add by (change (2 ^ 10) with 1024; dlia). unfold u16. change (2 ^ 10) with 1024. change (2 ^ 16) with 65536.
  rewrite !Z.shiftl_mul_pow2 by lia. change (2 ^ 10) with 1024. split; dlia.
Qed.

Lemma need_bytes cp : utf8_need cp = Z.of_nat (length (utf8_bytes cp)).
Proof. unfold utf8_bytes, utf8_need. by split_ifs. Qed.

(** One character of the UTF-16 side. *)
Lemma utf16_char cp us cap n : good_cp cp ->
  utf16_loop ((if 0x10000 <=? cp then [u16 (0xD800 .| ((cp - 0x10000) .>> 10)); u16 (0xDC00 .| ((cp - 0x10000) .& 0x3FF))] else [u16 cp]) ++ us) cap n =
  utf8_emit cap n cp (utf16_loop us cap).
Proof.
  intros [Hr Hs]. destruct (Z.leb_spec 0x10000 cp) as [Hbig|Hsmall].
  - destruct (surrogate_fields (cp - 0x10000)) as [E1 E2]; [lia|]. rewrite E1, E2. cbn [app utf16_loop].
    set (q := (cp - 0x10000) / 1024) in *. set (r := (cp - 0x10000) mod 1024) in *.
    assert (Hqr : cp - 0x10000 = 1024 * q + r /\ 0 <= r < 1024) by (subst q r; dlia).
    replace (0xD800 + q =? 0) with false by lia. replace ((0xD800 <=? 0xD800 + q) && (0xD800 + q <? 0xDC00)) with true by lia.
    replace ((0xDC00 <=? 0xDC00 + r) && (0xDC00 + r <? 0xE000)) with true by lia.
    f_equal. rewrite Z.shiftl_mul_pow2 by lia. change (2 ^ 10) with 1024. lia.
  - assert (Eu : u16 cp = cp) by (unfold u16; change (2 ^ 16) with 65536; rewrite Z.mod_small by lia; done). rewrite Eu.
    cbn [app utf16_loop]. replace (cp =? 0) with false by lia.
    replace ((0xD800 <=? cp) && (cp <? 0xDC00)) with false by lia.
    by replace ((0xDC00 <=? cp) && (cp <? 0xE000)) with false by lia.
Qed.

(** What may follow the units of a name: nothing, or the 0 that ends it. *)
Definition units_end (tl : list Z) : Prop := tl = [] \/ exists tl', tl = 0 :: tl'.

Lemma utf16_loop_end tl cap n : units_end tl -> utf16_loop tl cap n = Some [].
Proof. by intros [->|[tl' ->]]. Qed.

(** The units are of 16 bits and none is 0; there are no more than bytes. *)
Lemma utf8_loop_back fuel p n cap us tl m lim :
  bytes p -> (length p <= fuel)%nat -> utf8_loop fuel p n cap = inr us -> units_end tl -> m + Z.of_nat (length p) < lim -> 0 <= n <= cap ->
  utf16_loop (us ++ tl) lim m = Some p /\ Forall (fun u => 0 < u < 2 ^ 16) us /\ n + Z.of_nat (length us) <= cap /\ (p <> [] -> us <> []).
Proof.
  revert p n us m. induction fuel as [|fuel IH]; intros p n us m Hb Hlen Hrun Htl Hm Hn.
  - destruct p; [|simpl in Hlen; lia]. injection Hrun as <-. rewrite utf16_loop_end by done. split_and!; [done|constructor|simpl; lia|done].
  - destruct p as [|c p']. { injection Hrun as <-. rewrite utf16_loop_end by done. split_and!; [done|constructor|simpl; lia|done]. }
    cbn [utf8_loop] in Hrun. destruct (utf8_lead c) as [[a extra]|] eqn:El; [|done].
    destruct (utf8_cont extra a p') as [[cp rest]|] eqn:Ec; [|done].
    destruct (utf8_bad cp extra) eqn:Eb; [done|]. destruct (name_bad cp) eqn:En; [done|].
    destruct (utf8_char c p' a extra cp rest Hb El Ec Eb En) as [Ep Hg]. rewrite Ep in *.
    pose proof Hg as [Hg1 Hg2]. apply Forall_app in Hb as [_ Hb].
    pose proof (need_bytes cp) as Hneed. assert (Hpos : 1 <= utf8_need cp) by (unfold utf8_need; split_ifs; lia).
    rewrite length_app in *.
    assert (Hemit : forall us', utf16_loop (us' ++ tl) lim (m + utf8_need cp) = Some rest ->
      utf8_emit lim m cp (utf16_loop (us' ++ tl) lim) = Some (utf8_bytes cp ++ rest)).
    { intros us' E. unfold utf8_emit. replace (lim <=? m + utf8_need cp) with false by lia. by rewrite E. }
    destruct (Z.leb_spec 0x10000 cp) as [Hbig|Hsmall].
    + destruct (Z.ltb_spec cap (n + 2)) as [|Hcap]; [done|]. destruct (utf8_loop fuel rest (n + 2) cap) as [e|out] eqn:Er; [done|].
      injection Hrun as <-.
      destruct (IH rest (n + 2) out (m + utf8_need cp) Hb ltac:(lia) Er Htl ltac:(lia) ltac:(lia)) as (I1 & I2 & I3 & I4).
      pose proof (utf16_char cp (out ++ tl) lim m Hg) as Hu. replace (0x10000 <=? cp) with true in Hu by lia. cbn [app] in Hu |- *.
      rewrite Hu. rewrite Hemit by done. destruct (surrogate_fields (cp - 0x10000)) as [E1 E2]; [lia|].
      split_and!; [done| |simpl; lia|done]. rewrite E1, E2. repeat constructor; [dlia|dlia|dlia|dlia|done].
    + destruct (Z.ltb_spec cap (n + 1)) as [|Hcap]; [done|]. destruct (utf8_loop fuel rest (n + 1) cap) as [e|out] eqn:Er; [done|].
      injection Hrun as <-.
      destruct (IH rest (n + 1) out (m + utf8_need cp) Hb ltac:(lia) Er Htl ltac:(lia) ltac:(lia)) as (I1 & I2 & I3 & I4).
      pose proof (utf16_char cp (out ++ tl) lim m Hg) as Hu. replace (0x10000 <=? cp) with false in Hu by lia. cbn [app] in Hu |- *.
      rewrite Hu. rewrite Hemit by done. split_and!; [done| |simpl; lia|done]. constructor; [|done]. unfold u16. change (2 ^ 16) with 65536.
      rewrite Z.mod_small by lia. lia.
Qed.

(** A name that passes [name_units]: its units, and the way back. *)
Lemma name_units_back name us tl : bytes name -> name_units name = inr us -> units_end tl ->
  utf16_loop (us ++ tl) (FAT32_NAME_MAX + 1) 0 = Some name /\ Forall (fun u => 0 < u < 2 ^ 16) us /\
  1 <= Z.of_nat (length us) <= 255 /\ name <> [] /\ (length name <= 255)%nat /\ last name <> Some 46 /\ last name <> Some 32.
Proof.
  intros Hb Hu Htl. unfold name_units in Hu.
  destruct (Z.eqb_spec (Z.of_nat (length name)) 0) as [|Hne]; [done|]. unfold FAT32_NAME_MAX in *.
  destruct (Z.ltb_spec 255 (Z.of_nat (length name))) as [|Hlen]; [done|].
  destruct (bool_decide (name = [46]) || bool_decide (name = [46; 46])); [done|].
  destruct (bool_decide (last name = Some 46)) eqn:E1; [done|]. destruct (bool_decide (last name = Some 32)) eqn:E2; [done|].
  apply bool_decide_eq_false in E1, E2. cbn [orb] in Hu.
  destruct (utf8_loop_back (length name) name 0 255 us tl 0 256 Hb ltac:(lia) Hu Htl ltac:(lia) ltac:(lia)) as (I1 & I2 & I3 & I4).
  assert (Hnil : name <> []) by (intros ->; done). specialize (I4 Hnil). destruct us; [done|]. simpl in *. split_and!; try done; lia.
Qed.

(** Rejected names are errors. *)
Lemma utf8_loop_err fuel p n cap e : utf8_loop fuel p n cap = inl e -> e < 0.
Proof.
  revert p n e. induction fuel as [|fuel IH]; intros p n e; [done|]. cbn [utf8_loop]. destruct p as [|c p]; [done|].
  destruct (utf8_lead c) as [[cp extra]|]; [|by intros [= <-]]. destruct (utf8_cont extra cp p) as [[cp' rest]|]; [|by intros [= <-]].
  destruct (utf8_bad cp' extra); [by intros [= <-]|]. destruct (name_bad cp'); [by intros [= <-]|].
  destruct (0x10000 <=? cp').
  - destruct (cap <? n + 2); [by intros [= <-]|]. destruct (utf8_loop fuel rest (n + 2) cap) eqn:E; [|done]. intros [= <-]. by eapply IH.
  - destruct (cap <? n + 1); [by intros [= <-]|]. destruct (utf8_loop fuel rest (n + 1) cap) eqn:E; [|done]. intros [= <-]. by eapply IH.
Qed.

Lemma name_units_err name e : name_units name = inl e -> e < 0.
Proof. unfold name_units. intros Hu. split_ifs_in Hu; simplify_eq; try done. by eapply utf8_loop_err. Qed.
