(* ===== verification/FatLfn.v ===== *)
(** * fat32.c: the entries of a name give the name back

    What dir_next reads from the entries that dir_add_entry writes: the long
    name goes through UTF-16, the entries in reverse order and the checksum of
    the 8.3 name; a name that fits 8.3 goes through the case bits. *)
From S2P Require Import Prelude CString Fat FatName FatUtf.

Open Scope tach_scope.

(** ** The units in an entry *)

Lemma le16_cell d o v : d !!! idx o = u8 v -> d !!! idx (o + 1) = u8 (v .>> 8) -> le16 d o = u16 v.
Proof.
  intros E1 E2. rewrite le16_sum. unfold byte_at. rewrite E1, E2, Z.shiftr_div_pow2 by lia. unfold u8, u16.
  change (2 ^ 8) with 256. change (2 ^ 16) with 65536. dlia.
Qed.

(** A goal about [k] in [s .. s + n) by its cases. *)
Lemma range_cases (P : Z -> Prop) s n k : Forall P (seqZ s n) -> s <= k < s + n -> P k.
Proof. intros Hf Hk. rewrite Forall_forall in Hf. apply Hf, elem_of_seqZ. lia. Qed.

Ltac range_case s n k :=
  pattern k; apply (range_cases _ s n); [|lia];
  let l := eval vm_compute in (seqZ s n) in change (seqZ s n) with l; repeat apply Forall_cons_2; [..|apply Forall_nil_2].

Section entries.
Context (us : list Z) (count ck : Z).
Hypothesis Hus : Forall (fun u => 0 < u < 2 ^ 16) us.
Hypothesis Hlen : 1 <= Z.of_nat (length us) <= 255.
Hypothesis Hcount : count = lfn_count us.
Hypothesis Hck : is_u8 ck.

Lemma count_range : 1 <= count <= 20 /\ Z.of_nat (length us) <= count * 13 < Z.of_nat (length us) + 13.
Proof. subst count. unfold lfn_count. dlia. Qed.

Lemma lfn_unit_u16 k : 0 <= k -> u16 (lfn_unit us k) = lfn_unit us k.
Proof.
  intros Hk. unfold lfn_unit. destruct (Z.ltb_spec k (Z.of_nat (length us))) as [Hlt|]; [|by destruct (k =? _)].
  destruct (lookup_lt_is_Some_2 us (idx k)) as [u Hu]; [unfold idx; lia|]. rewrite (list_lookup_total_correct _ _ _ Hu).
  apply (Forall_lookup_1 _ _ _ _ Hus) in Hu. unfold u16. rewrite Z.mod_small by lia. done.
Qed.

Lemma lfn_entry_units seq j : 1 <= seq -> 0 <= j < 13 ->
  le16 (lfn_entry us count ck seq) (lfn_offsets !!! idx j) = lfn_unit us ((seq - 1) * 13 + j).
Proof.
  intros Hs Hj. rewrite <- (lfn_unit_u16 ((seq - 1) * 13 + j)) by lia.
  range_case 0 13 j; apply le16_cell; reflexivity.
Qed.

(** The head of an entry, for the ordinals that occur. *)
Lemma lfn_entry_head seq : 1 <= seq <= 20 ->
  let e := lfn_entry us count ck seq in
  byte_at e 0 = seq + (if seq =? count then 64 else 0) /\ byte_at e 11 = 0x0F /\ byte_at e 12 = 0 /\ byte_at e 13 = ck /\
  byte_at e 26 = 0 /\ byte_at e 27 = 0.
Proof.
  intros Hs e. subst e.
  assert (E0 : byte_at (lfn_entry us count ck seq) 0 = u8 (u8 (seq .| (if seq =? count then 0x40 else 0)))) by reflexivity.
  assert (E13 : byte_at (lfn_entry us count ck seq) 13 = u8 (u8 ck)) by reflexivity.
  rewrite E0, E13, !(u8_small ck) by done. split_and!; try reflexivity.
  clear E0 E13. destruct (seq =? count); range_case 1 20 seq; reflexivity.
Qed.

Lemma fill_lookup (f : Z -> Z) os b s l k : 0 <= b -> 0 <= s -> b + s + Z.of_nat (length os) <= Z.of_nat (length l) -> 0 <= k ->
  foldl (fun us '(i, o) => <[idx (b + i) := f o]> us) l (zip (seqZ s (Z.of_nat (length os))) os) !!! idx k =
  if (b + s <=? k) && (k <? b + s + Z.of_nat (length os)) then f (os !!! idx (k - b - s)) else l !!! idx k.
Proof.
  revert s l. induction os as [|o os IH]; intros s l Hb Hs Hl Hk.
  - simpl. by replace ((b + s <=? k) && (k <? b + s + Z.of_nat 0)) with false by lia.
  - rewrite seqZ_cons by (simpl; lia). cbn [zip_with foldl]. replace (Z.pred (Z.of_nat (length (o :: os)))) with (Z.of_nat (length os)) by (simpl; lia).
    replace (Z.succ s) with (s + 1) by lia. rewrite IH by (rewrite ?length_insert; simpl in Hl; lia). simpl length in *.
    destruct (Z.eqb_spec k (b + s)) as [->|Hne].
    + replace ((b + (s + 1) <=? b + s) && _) with false by lia.
      replace ((b + s <=? b + s) && (b + s <? b + s + Z.of_nat (S (length os)))) with true by lia.
      replace (b + s - b - s) with 0 by lia. rewrite list_lookup_total_insert_eq by (unfold idx; lia). done.
    + rewrite list_lookup_total_insert_ne by (unfold idx; lia). split_ifs; try lia.
      replace (idx (k - b - s)) with (S (idx (k - b - (s + 1)))) by (unfold idx; lia). done.
Qed.

Lemma take_units_spec slot e l k : 1 <= slot <= 20 -> length l = 260%nat -> 0 <= k ->
  take_units slot e l !!! idx k =
  if ((slot - 1) * 13 <=? k) && (k <? slot * 13) then le16 e (lfn_offsets !!! idx (k - (slot - 1) * 13)) else l !!! idx k.
Proof.
  intros Hs Hl Hk. unfold take_units. change 13 with (Z.of_nat (length lfn_offsets)) at 2. rewrite (fill_lookup (le16 e) lfn_offsets ((slot - 1) * 13) 0 l k) by (simpl; lia).
  change (Z.of_nat (length lfn_offsets)) with 13. replace ((slot - 1) * 13 + 0 + 13) with (slot * 13) by lia. rewrite Z.add_0_r, Z.sub_0_r. done.
Qed.

Lemma length_take_units slot e l : length (take_units slot e l) = length l.
Proof. unfold take_units. generalize (zip (seqZ 0 13) lfn_offsets) as zs. intros zs. revert l.
  induction zs as [|[i o] zs IH]; intros l; [done|]. simpl. by rewrite IH, length_insert. Qed.

(** ** The entries one after the other *)

(** The entries from [count] down to [s] are read. *)
Definition lfn_at (s : Z) (st : lfn_st) : Prop :=
  lf_pending st = s /\ lf_slots st = count /\ lf_checksum st = ck /\ length (lf_units st) = 260%nat /\
  forall k, (s - 1) * 13 <= k < count * 13 -> lf_units st !!! idx k = lfn_unit us k.

Lemma lfn_units_step seq l k : 1 <= seq <= 20 -> length l = 260%nat -> (seq - 1) * 13 <= k ->
  (seq * 13 <= k < count * 13 -> l !!! idx k = lfn_unit us k) -> k < count * 13 ->
  take_units seq (lfn_entry us count ck seq) l !!! idx k = lfn_unit us k.
Proof.
  intros Hs Hl Hk Hold Hlt. rewrite take_units_spec by lia. destruct (Z.ltb_spec k (seq * 13)) as [Hin|Hout].
  - replace (((seq - 1) * 13 <=? k) && true) with true by lia. rewrite lfn_entry_units by lia. f_equal. lia.
  - rewrite andb_false_r. apply Hold. lia.
Qed.

Lemma step_first st cl pos : length (lf_units st) = 260%nat ->
  exists st', dir_step st (lfn_entry us count ck count) cl pos = inl st' /\ lfn_at count st'.
Proof.
  intros Hl. pose proof count_range as [Hc Hcl]. destruct (lfn_entry_head count Hc) as (E0 & E11 & E12 & E13 & E26 & E27).
  rewrite Z.eqb_refl in E0. unfold dir_step, lfn_step. rewrite E0, E11, E12, E13, E26, E27.
  replace (count + 64 =? 0xE5) with false by lia. cbn [Z.eqb Pos.eqb negb orb].
  assert (Hb : negb ((count + 64) .& 0x40 =? 0) = true /\ (count + 64) .& 0x3F = count).
  { clear - Hc. range_case 1 20 count; by split. }
  destruct Hb as [-> ->]. change (0x0F .& 0x3F =? 0x0F) with true. cbn iota. unfold FAT32_LFN_SLOTS.
  replace ((count =? 0) || (20 <? count)) with false by lia. eexists. split; [done|].
  repeat split; cbn [lf_units lf_pending lf_slots lf_checksum]; [by rewrite length_take_units|].
  intros k Hk. apply lfn_units_step; lia.
Qed.

Lemma step_next st cl pos s : 1 <= s < count -> lfn_at (s + 1) st ->
  exists st', dir_step st (lfn_entry us count ck s) cl pos = inl st' /\ lfn_at s st'.
Proof.
  intros Hs (Hp & Hsl & Hc & Hl & Hu). pose proof count_range as [Hcr Hcl].
  destruct (lfn_entry_head s ltac:(lia)) as (E0 & E11 & E12 & E13 & E26 & E27).
  replace (s =? count) with false in E0 by lia. rewrite Z.add_0_r in E0. unfold dir_step, lfn_step. rewrite E0, E11, E12, E13, E26, E27, Hp, Hc.
  replace (s =? 0xE5) with false by lia. cbn [Z.eqb Pos.eqb negb orb].
  assert (Hb : negb (s .& 0x40 =? 0) = false).
  { clear - Hs Hcr. range_case 1 20 s; done. }
  rewrite Hb. change (0x0F .& 0x3F =? 0x0F) with true. cbn iota.
  replace ((s + 1 <? 2) || negb (s =? s + 1 - 1) || negb (ck =? ck)) with false by (rewrite Z.eqb_refl; lia). eexists. split; [done|].
  repeat split; cbn [lf_units lf_pending lf_slots lf_checksum]; [done|by rewrite length_take_units|].
  intros k Hk. apply lfn_units_step; try lia. intros. apply Hu. lia.
Qed.

Lemma steps_next (s : nat) st ps rest : length ps = s -> Z.of_nat s < count -> lfn_at (Z.of_nat s + 1) st ->
  exists st', dir_steps st (zip ps ((fun i => lfn_entry us count ck (count - i)) <$> seqZ (count - Z.of_nat s) (Z.of_nat s)) ++ rest) = dir_steps st' rest /\
    lfn_at 1 st'.
Proof.
  revert st ps. induction s as [|s IH]; intros st ps Hps Hs Hat.
  - destruct ps; [|done]. by exists st.
  - destruct ps as [|[cl pos] ps]; [done|]. injection Hps as Hps. rewrite seqZ_cons by lia. cbn [fmap list_fmap zip_with app dir_steps].
    replace (count - (count - Z.of_nat (S s))) with (Z.of_nat s + 1) by lia.
    destruct (step_next st cl pos (Z.of_nat s + 1)) as (st1 & -> & Hat1); [lia|by replace (Z.of_nat s + 1 + 1) with (Z.of_nat (S s) + 1) by lia|].
    replace (Z.succ (count - Z.of_nat (S s))) with (count - Z.of_nat s) by lia.
    replace (Z.pred (Z.of_nat (S s))) with (Z.of_nat s) by lia. apply IH; [done|lia|done].
Qed.

(** After all of them the units of the name are in place. *)
Lemma lfn_entries_read st ps rest : length ps = idx count -> length (lf_units st) = 260%nat ->
  exists st', dir_steps st (zip ps (lfn_entries us ck) ++ rest) = dir_steps st' rest /\ lfn_at 1 st'.
Proof.
  intros Hps Hl. pose proof count_range as [Hc Hcl]. unfold lfn_entries. rewrite <- Hcount. unfold idx in Hps.
  rewrite seqZ_cons by lia. destruct ps as [|[cl pos] ps]; [simpl in Hps; lia|]. simpl in Hps. cbn [fmap list_fmap zip_with app dir_steps].
  rewrite Z.sub_0_r. destruct (step_first st cl pos Hl) as (st1 & -> & Hat1).
  destruct (steps_next (Z.to_nat count - 1) st1 ps rest) as (st2 & E2 & H2); [lia|lia| |].
  { by replace (Z.of_nat (Z.to_nat count - 1) + 1) with count by lia. }
  exists st2. split; [|done]. rewrite <- E2. replace (count - Z.of_nat (Z.to_nat count - 1)) with (Z.succ 0) by lia.
  replace (Z.of_nat (Z.to_nat count - 1)) with (Z.pred count) by lia. done.
Qed.

Lemma lfn_units_read st : lfn_at 1 st -> exists tl, take (Z.to_nat (count * 13)) (lf_units st) = us ++ tl /\ units_end tl.
Proof.
  intros (_ & _ & _ & Hl & Hu). pose proof count_range as [Hc Hcl].
  assert (Hk : forall k, (k < Z.to_nat (count * 13))%nat -> lf_units st !! k = Some (lfn_unit us (Z.of_nat k))).
  { intros k Hk. rewrite <- (Hu (Z.of_nat k)) by lia. unfold idx. rewrite Nat2Z.id. apply list_lookup_lookup_total_lt. lia. }
  exists (drop (length us) (take (Z.to_nat (count * 13)) (lf_units st))). split.
  - rewrite <- (take_drop (length us) (take _ _)) at 1. f_equal. rewrite take_take. apply list_eq. intros k.
    destruct (decide (k < length us)%nat) as [Hlt|Hge].
    + rewrite lookup_take_lt by lia. rewrite Hk by lia. unfold lfn_unit. replace (Z.of_nat k <? _) with true by lia. unfold idx. rewrite Nat2Z.id.
      symmetry. apply list_lookup_lookup_total_lt. lia.
    + rewrite lookup_take_ge by lia. symmetry. apply lookup_ge_None. lia.
  - destruct (decide (length us = Z.to_nat (count * 13))) as [He|Hne].
    + left. apply drop_ge. rewrite length_take. lia.
    + right. destruct (drop (length us) _) as [|x tl] eqn:Ed.
      * apply (f_equal length) in Ed. rewrite length_drop, length_take in Ed. simpl in Ed. lia.
      * exists tl. f_equal. apply (f_equal (fun l => l !! 0%nat)) in Ed. rewrite lookup_drop, lookup_take_lt in Ed by lia.
        rewrite Nat.add_0_r, Hk in Ed by lia. injection Ed as <-. unfold lfn_unit. rewrite Z.ltb_irrefl, Z.eqb_refl. done.
Qed.

End entries.

(** ** 8.3 names *)

Definition okc (c : Z) : Prop := 32 < c < 128 /\ c <> 46.

Lemma short_char_okc c : short_char_ok c = true -> okc c.
Proof.
  unfold short_char_ok, okc. intros Hc. case_bool_decide as Hin; [|lia].
  rewrite !elem_of_cons, elem_of_nil in Hin. lia.
Qed.

(** What is kept of a part; when nothing was lost and the case is uniform,
    the case bit gives the part back. *)
Lemma short_part_spec room dots name out lo up lossy : bytes name -> short_part room dots name = (out, lo, up, lossy) ->
  (length out <= room)%nat /\ Forall okc out /\
  (lossy = false -> length out = length name /\
    forall low, (lo = true -> low = true) -> (up = true -> low = false) -> short_names low out = (out, name)).
Proof.
  revert room out lo up lossy. induction name as [|c name IH]; intros room out lo up lossy Hb Hrun.
  - injection Hrun as <- <- <- <-. split_and!; [simpl; lia|constructor|]. intros _. by split.
  - apply Forall_cons in Hb as [Hc Hb]. cbn [short_part] in Hrun. destruct ((c =? 32) || dots && (c =? 46)).
    { destruct (short_part room dots name) as [[[o l] u] y] eqn:E. injection Hrun as <- <- <- <-.
      destruct (IH _ _ _ _ _ Hb E) as (I1 & I2 & _). split_and!; [done|done|done]. }
    set (il := (97 <=? c) && (c <=? 122)) in *. set (iu := (65 <=? c) && (c <=? 90)) in *.
    set (c1 := if il then u8 (c - 32) else c) in *. set (bad := negb (short_char_ok c1)) in *.
    destruct room as [|room].
    { destruct (short_part 0 dots name) as [[[o l] u] y] eqn:E. injection Hrun as <- <- <- <-.
      destruct (IH _ _ _ _ _ Hb E) as (I1 & I2 & _). split_and!; [done|done|done]. }
    destruct (short_part room dots name) as [[[o l] u] y] eqn:E. injection Hrun as <- <- <- <-.
    destruct (IH _ _ _ _ _ Hb E) as (I1 & I2 & I3). split_and!; [simpl; lia| |].
    + constructor; [|done]. subst bad. destruct (short_char_ok c1) eqn:Eo; simpl; [by apply short_char_okc|unfold okc; lia].
    + intros Hly. apply orb_false_iff in Hly as [-> Hbad]. destruct (I3 eq_refl) as [I4 I5]. split; [simpl; lia|].
      intros low Hlo Hup. rewrite Hbad. cbn [short_names]. rewrite I5.
      2:{ intros ->. apply Hlo. done. } 2:{ intros ->. apply Hup. done. }
      assert (Hok : okc c1) by (apply short_char_okc; by destruct (short_char_ok c1)). destruct Hok as [Hok _].
      replace (0x80 <=? c1) with false by lia. do 2 f_equal.
      subst c1 il iu. destruct ((97 <=? c) && (c <=? 122)) eqn:El.
      * rewrite Hlo by apply orb_true_r. rewrite (u8_small (c - 32)) in * by (unfold is_u8; lia).
        replace ((65 <=? c - 32) && (c - 32 <=? 90) && true) with true by lia. rewrite u8_small by (unfold is_u8; lia). lia.
      * destruct ((65 <=? c) && (c <=? 90)) eqn:Eu; [|done]. rewrite Hup by apply orb_true_r. done.
Qed.

Lemma skip_dots_spec name out lossy : skip_dots name lossy = (out, false) -> out = name /\ lossy = false.
Proof.
  revert lossy. induction name as [|c name IH]; intros lossy; simpl; [by intros [=<- ->]|].
  destruct ((c =? 46) || (c =? 32)); [intros H; by apply IH in H as [_ ?]|by intros [=<- ->]].
Qed.

Lemma split_dot_spec name :
  match split_dot name with Some (b, e) => name = b ++ 46 :: e /\ 46 ∉ e | None => 46 ∉ name end.
Proof.
  induction name as [|c name IH]; [by apply not_elem_of_nil|]. simpl. destruct (split_dot name) as [[b e]|].
  - destruct IH as [-> He]. done.
  - destruct (Z.eqb_spec c 46) as [->|Hne]; [done|]. apply not_elem_of_cons. done.
Qed.

Lemma skip_dots_bytes name lossy : bytes name -> bytes (skip_dots name lossy).1.
Proof.
  revert lossy. induction name as [|c name IH]; intros lossy Hb; [done|]. simpl.
  destruct ((c =? 46) || (c =? 32)); [|done]. apply Forall_cons in Hb as [_ Hb]. by apply IH.
Qed.

Lemma split_dot_bytes name b e : bytes name -> default (name, []) (split_dot name) = (b, e) -> bytes b /\ bytes e.
Proof.
  intros Hb He. pose proof (split_dot_spec name) as Hs. destruct (split_dot name) as [[b' e']|]; simpl in He; injection He as <- <-.
  - destruct Hs as [-> _]. apply Forall_app in Hb as [H1 H2]. by apply Forall_cons in H2 as [_ H2].
  - split; [done|constructor].
Qed.

(** A raw 8.3 name that is stored as it is. *)
Definition raw_ok (raw : list Z) : Prop :=
  length raw = 11%nat /\ Forall (fun c => 32 <= c < 128) raw /\ raw !!! 0%nat <> 32 /\ raw !!! 0%nat <> 46.

Lemma length_pad n l : (length l <= n)%nat -> length (pad n l) = n.
Proof. intros. unfold pad. rewrite length_app, length_replicate. lia. Qed.

Lemma pad_ok n l : Forall okc l -> Forall (fun c => 32 <= c < 128) (pad n l).
Proof.
  intros Hl. apply Forall_app. split; [|apply Forall_replicate; lia]. eapply Forall_impl; [done|]. unfold okc. simpl. lia.
Qed.

(** The base and the extension of a generated name. *)
Lemma short_gen_parts name g : bytes name -> g = short_gen_base name ->
  exists b e, sg_raw g = pad 8 b ++ pad 3 e /\ (1 <= length b <= 8)%nat /\ (length e <= 3)%nat /\ Forall okc b /\ Forall okc e /\
    sg_base_len g = Z.of_nat (length b) /\ (sg_lossy g = true -> sg_lfn g = true) /\
    (sg_lfn g = false -> last name <> Some 46 ->
      exists nb ne, short_names (negb (sg_nt g .& 0x08 =? 0)) b = (b, nb) /\ short_names (negb (sg_nt g .& 0x10 =? 0)) e = (e, ne) /\
        name = if bool_decide (e = []) then nb else nb ++ 46 :: ne).
Proof.
  intros Hb ->. unfold short_gen_base. destruct (skip_dots name false) as [name1 lossy0] eqn:E0.
  pose proof (skip_dots_bytes name false Hb) as Hb1. rewrite E0 in Hb1. simpl in Hb1.
  destruct (default (name1, []) (split_dot name1)) as [nb ne] eqn:E1.
  destruct (split_dot_bytes _ _ _ Hb1 E1) as [Hnb Hne].
  destruct (short_part 8 true nb) as [[[b bl] bu] l1] eqn:E2. destruct (short_part 3 false ne) as [[[e el] eu] l2] eqn:E3.
  destruct (short_part_spec _ _ _ _ _ _ _ Hnb E2) as (B1 & B2 & B3). destruct (short_part_spec _ _ _ _ _ _ _ Hne E3) as (X1 & X2 & X3).
  exists (if bool_decide (b = []) then [95] else b), e. cbn [sg_raw sg_nt sg_lossy sg_lfn sg_base_len].
  split_and!; try done.
  - case_bool_decide; [done|]. destruct b; [done|simpl; lia].
  - case_bool_decide; [simpl; lia|done].
  - case_bool_decide; [constructor; [unfold okc; lia|constructor]|done].
  - intros ->. apply orb_true_r.
  - intros Hlfn Hlast. apply orb_false_iff in Hlfn as [Hmix Hly]. rewrite Hmix.
    apply orb_false_iff in Hly as [Hly Hemp]. apply orb_false_iff in Hly as [Hly ->]. apply orb_false_iff in Hly as [-> ->].
    rewrite Hemp. apply skip_dots_spec in E0 as [-> _]. destruct (B3 eq_refl) as [B4 B5]. destruct (X3 eq_refl) as [X4 X5].
    apply orb_false_iff in Hmix as [M1 M2].
    exists nb, ne. split_and!.
    + replace (negb _) with bl by (by destruct bl, el). apply B5; [done|]. intros ->. by destruct bl.
    + replace (negb _) with el by (by destruct bl, el). apply X5; [done|]. intros ->. by destruct el.
    + pose proof (split_dot_spec name) as Hs. destruct (split_dot name) as [[b' e']|]; simpl in E1; injection E1 as <- <-.
      * destruct Hs as [Hs _]. destruct (decide (e = [])) as [He|He]; [|by rewrite bool_decide_false by done]. rewrite bool_decide_true by done. subst e. destruct e'; [|discriminate X4]. exfalso. apply Hlast. rewrite Hs. by rewrite last_snoc.
      * destruct e; [done|]. simpl in X4. done.
Qed.

Lemma pad_head n l : l <> [] -> pad n l !!! 0%nat = l !!! 0%nat.
Proof. destruct l; done. Qed.

Lemma raw_ok_pad b e : (1 <= length b <= 8)%nat -> (length e <= 3)%nat -> Forall okc b -> Forall (fun c => 32 <= c < 128) e -> length e = 3%nat -> raw_ok (pad 8 b ++ e).
Proof.
  intros Hb He Fb Fe Le. split_and!.
  - rewrite length_app, length_pad by lia. lia.
  - apply Forall_app. split; [by apply pad_ok|done].
  - destruct b as [|x b]; [simpl in Hb; lia|]. apply Forall_cons in Fb as [Hx _]. unfold okc in Hx. simpl. lia.
  - destruct b as [|x b]; [simpl in Hb; lia|]. apply Forall_cons in Fb as [Hx _]. unfold okc in Hx. simpl. lia.
Qed.

Lemma digits_spec fuel v k : 0 <= v < 10 ^ Z.of_nat k -> (length (digits fuel v) <= k)%nat /\ Forall okc (digits fuel v).
Proof.
  revert v k. induction fuel as [|fuel IH]; intros v k Hv; [split; [simpl; lia|constructor]|]. cbn [digits].
  destruct (Z.eqb_spec v 0) as [->|Hne]; [split; [simpl; lia|constructor]|]. destruct k as [|k]; [simpl in Hv; lia|].
  rewrite Nat2Z.inj_succ, Z.pow_succ_r in Hv by lia. destruct (IH (v / 10) k) as [I1 I2]; [dlia|].
  split; [simpl; lia|]. constructor; [unfold okc; dlia|done].
Qed.

Lemma tail_name_ok name n : bytes name -> 1 <= n <= 999999 -> raw_ok (tail_name (short_gen_base name) n).
Proof.
  intros Hb Hn. destruct (short_gen_parts name _ Hb eq_refl) as (b & e & Hraw & Lb & Le & Fb & Fe & Hlen & _).
  unfold tail_name. rewrite Hraw, Hlen. destruct (digits_spec 7 n 6 ltac:(lia)) as [Ld Fd]. set (ds := digits 7 n) in *.
  rewrite drop_app_length' by (rewrite length_pad by lia; done).
  set (keep := Z.to_nat _). assert (Hk : (1 <= keep <= length b)%nat /\ (keep + 1 + length ds <= 8)%nat) by (subst keep; split_ifs; lia).
  unfold pad at 2. rewrite <- app_assoc, take_app_le by lia.
  apply raw_ok_pad.
  - rewrite !length_app, length_take, length_rev. simpl. lia.
  - rewrite length_pad by lia. lia.
  - apply Forall_app. split; [by apply Forall_take|]. constructor; [unfold okc; lia|]. by apply Forall_rev.
  - by apply pad_ok.
  - by apply length_pad.
Qed.

Lemma short_raw_ok name : bytes name -> raw_ok (sg_raw (short_gen_base name)).
Proof.
  intros Hb. destruct (short_gen_parts name _ Hb eq_refl) as (b & e & Hraw & Lb & Le & Fb & Fe & _). rewrite Hraw.
  apply raw_ok_pad; [done|rewrite length_pad by lia; lia|done|by apply pad_ok|by apply length_pad].
Qed.

(** ** The 8.3 entry *)

Lemma short_entry_fields raw attr nt nd nt' fc size wd wt : raw_ok raw -> is_u8 attr -> is_u8 nt ->
  let e := short_entry raw attr nt nd nt' fc size wd wt in
  (byte_at e <$> seqZ 0 11) = raw /\ byte_at e 0 = raw !!! 0%nat /\ byte_at e 11 = attr /\ byte_at e 12 = nt /\
  le16 e 20 = u16 (fc .>> 16) /\ le16 e 26 = u16 fc /\ le32 e 28 = u32 size /\ le16 e 24 = u16 wd /\ le16 e 22 = u16 wt.
Proof.
  intros (Hl & Hf & _) Ha Hn e.
  assert (Hf' : Forall is_u8 raw) by (eapply Forall_impl; [done|]; unfold is_u8; simpl; lia). clear Hf.
  do 11 (destruct raw as [|? raw]; [done|]; apply Forall_cons in Hf' as [? Hf']). destruct raw; [|done].
  assert (E32 : le32 e 28 = u32 size) by (subst e; unfold short_entry; apply le32_put32; [lia|rewrite !length_put16, !length_set_byte; simpl; lia]).
  split_and!; [| | | | | |exact E32|..]; try (apply le16_cell; reflexivity).
  - change (byte_at e <$> seqZ 0 11) with (u8 <$> [z; z0; z1; z2; z3; z4; z5; z6; z7; z8; z9]). cbn. by rewrite !u8_small by done.
  - change (byte_at e 0) with (u8 z). by rewrite u8_small.
  - change (byte_at e 11) with (u8 (u8 attr)). by rewrite !(u8_small attr).
  - change (byte_at e 12) with (u8 (u8 nt)). by rewrite !(u8_small nt).
Qed.

Lemma trim_len_spec n d o (b : list Z) : (length b <= n)%nat -> Forall okc b ->
  (forall k, (k < length b)%nat -> byte_at d (o + Z.of_nat k) = b !!! k) ->
  (forall k, (length b <= k < n)%nat -> byte_at d (o + Z.of_nat k) = 32) -> trim_len n d o = length b.
Proof.
  intros Hn Fb Hb Hs. induction n as [|n IH]; [simpl; lia|]. cbn [trim_len].
  destruct (decide (length b = S n)) as [He|Hne].
  - rewrite Hb by lia. destruct (lookup_lt_is_Some_2 b n) as [x Hx]; [lia|]. rewrite (list_lookup_total_correct _ _ _ Hx).
    apply (Forall_lookup_1 _ _ _ _ Fb) in Hx. unfold okc in Hx. replace (x =? 32) with false by lia. done.
  - rewrite Hs by lia. simpl. apply IH; [lia|]. intros k Hk. apply Hs. lia.
Qed.

Lemma cstr_id l : Forall (fun c => c <> 0) l -> cstr l = l.
Proof. induction 1 as [|c l Hc _ IH]; [done|]. simpl. replace (c =? 0) with false by lia. by rewrite IH. Qed.

Lemma short_names_nonzero low b sb nb : Forall okc b -> short_names low b = (sb, nb) -> Forall (fun c => c <> 0) sb /\ Forall (fun c => c <> 0) nb.
Proof.
  intros Hb. revert sb nb. induction Hb as [|c b Hc Hb IH]; intros sb nb; [by intros [=<- <-]|]. cbn [short_names].
  destruct (short_names low b) as [s n]. destruct (IH _ _ eq_refl) as [I1 I2]. unfold okc in Hc.
  replace (0x80 <=? c) with false by lia. intros [=<- <-]. split; constructor; try done; [lia|].
  split_ifs; [|lia]. rewrite u8_small by (unfold is_u8; lia). lia.
Qed.

Lemma short_names_back b e nt raw : (1 <= length b <= 8)%nat -> (length e <= 3)%nat -> Forall okc b -> Forall okc e ->
  raw = pad 8 b ++ pad 3 e -> forall ent, (byte_at ent <$> seqZ 0 11) = raw -> byte_at ent 12 = nt ->
  build_short_name ent =
    let '(sb, nb) := short_names (negb (nt .& 0x08 =? 0)) b in let '(se, ne) := short_names (negb (nt .& 0x10 =? 0)) e in
    if bool_decide (e = []) then (sb, nb) else (sb ++ 46 :: se, nb ++ 46 :: ne).
Proof.
  intros Lb Le Fb Fe Hraw ent Hent Hnt. unfold build_short_name. rewrite Hent, Hnt.
  assert (Hpb : forall k, (k < 8)%nat -> raw !!! k = pad 8 b !!! k).
  { intros k Hk. subst raw. apply lookup_total_app_l. rewrite length_pad by lia. done. }
  assert (Hpe : forall k, (k < 3)%nat -> raw !!! (8 + k)%nat = pad 3 e !!! k).
  { intros k Hk. subst raw. rewrite lookup_total_app_r; rewrite length_pad by lia; [|lia]. f_equal. lia. }
  assert (Hbyte : forall k, (k < 11)%nat -> byte_at raw (Z.of_nat k) = raw !!! k).
  { intros k Hk. unfold byte_at, idx. rewrite Nat2Z.id. apply u8_small.
    assert (Hr : Forall (fun c => 32 <= c < 128) raw) by (subst raw; apply Forall_app; split; by apply pad_ok).
    destruct (lookup_lt_is_Some_2 raw k) as [x Hx].
    { subst raw. rewrite length_app, !length_pad by lia. lia. }
    rewrite (list_lookup_total_correct _ _ _ Hx). apply (Forall_lookup_1 _ _ _ _ Hr) in Hx. unfold is_u8. lia. }
  assert (Hpad : forall n l k, (k < length l)%nat -> pad n l !!! k = l !!! k) by (intros; by apply lookup_total_app_l).
  assert (Hfill : forall n l k, (length l <= k < n)%nat -> pad n l !!! k = 32).
  { intros n l k Hk. unfold pad. rewrite lookup_total_app_r by lia. apply lookup_total_replicate_2. lia. }
  assert (H0 : (byte_at raw 0 =? 0x05) = false).
  { change 0 with (Z.of_nat 0). rewrite Hbyte, Hpb, Hpad by lia. destruct b as [|x b]; [simpl in Lb; lia|]. apply Forall_cons in Fb as [Hx _].
    unfold okc in Hx. simpl. lia. }
  rewrite H0.
  rewrite (trim_len_spec 8 raw 0 b); [|lia|done|intros; rewrite Z.add_0_l, Hbyte, Hpb, Hpad by lia; done|intros; rewrite Z.add_0_l, Hbyte, Hpb, Hfill by lia; done].
  rewrite (trim_len_spec 3 raw 8 e); [|lia|done| |].
  2:{ intros k Hk. replace (8 + Z.of_nat k) with (Z.of_nat (8 + k)) by lia. rewrite Hbyte, Hpe, Hpad by lia. done. }
  2:{ intros k Hk. replace (8 + Z.of_nat k) with (Z.of_nat (8 + k)) by lia. rewrite Hbyte, Hpe, Hfill by lia. done. }
  assert (Tb : take (length b) raw = b) by (subst raw; unfold pad at 1; rewrite <- app_assoc; apply take_app_length).
  assert (Te : take (length e) (drop 8 raw) = e).
  { subst raw. rewrite drop_app_length' by (rewrite length_pad by lia; done). apply take_app_length. }
  rewrite Tb, Te. destruct (short_names _ b) as [sb nb] eqn:Eb. destruct (short_names _ e) as [se ne] eqn:Ee.
  apply short_names_nonzero in Eb as [Z1 Z2], Ee as [Z3 Z4]; try done.
  assert (Hz : forall l l', Forall (fun c => c <> 0) l -> Forall (fun c => c <> 0) l' -> cstr (l ++ 46 :: l') = l ++ 46 :: l').
  { intros l l' H1 H2. apply cstr_id, Forall_app. split; [done|]. by constructor. }
  destruct e; [rewrite bool_decide_true by done|rewrite bool_decide_false by done]; cbn [length].
  - by rewrite !cstr_id.
  - by rewrite !Hz.
Qed.

Lemma sg_nt_u8 name : is_u8 (sg_nt (short_gen_base name)).
Proof.
  unfold short_gen_base. destruct (skip_dots name false) as [name1 l0]. destruct (default (name1, []) (split_dot name1)) as [nb ne].
  destruct (short_part 8 true nb) as [[[b bl] bu] l1]. destruct (short_part 3 false ne) as [[[e el] eu] l2].
  cbn [sg_nt]. by destruct bl, bu, el, eu.
Qed.

Lemma checksum_u8 raw : is_u8 (short_checksum raw).
Proof.
  unfold short_checksum. assert (H : forall l s, is_u8 s -> is_u8 (foldl (fun sum c => u8 (((sum .& 1) .<< 7) + (sum .>> 1) + c)) s l)).
  { induction l as [|c l IH]; intros s Hs; [done|]. apply IH, u8_is_u8. }
  apply H. unfold is_u8. lia.
Qed.

Lemma first_cluster_back fc : 0 <= fc < 2 ^ 32 -> (u16 (fc .>> 16) .<< 16) .| u16 fc = fc.
Proof.
  intros Hf. rewrite Z.lor_comm, lor_add; [|lia|unfold u16; change (2 ^ 16) with 65536; dlia]. rewrite Z.shiftr_div_pow2 by lia.
  unfold u16. change (2 ^ 16) with 65536. dlia.
Qed.

Lemma dir_steps_app st es es' st' : dir_steps st es = inl st' -> dir_steps st (es ++ es') = dir_steps st' es'.
Proof.
  revert st. induction es as [|[[cl pos] e] es IH]; intros st; simpl; [by intros [=->]|].
  destruct (dir_step st e cl pos); [apply IH|done].
Qed.

(** The entry set of a name at a list of positions. *)
Section roundtrip.
Context (name us : list Z) (g : short_gen) (attr date time fc size wdate wtime : Z).
Hypothesis Hname : bytes name.
Hypothesis Hunits : name_units name = inr us.
Hypothesis Hg : g = short_gen_base name \/
  exists n, 1 <= n <= 999999 /\ sg_lossy (short_gen_base name) = true /\ g = with_raw (short_gen_base name) (tail_name (short_gen_base name) n).
Hypothesis Hattr : is_u8 attr /\ attr .& 0x08 = 0.
Hypothesis Hfc : 0 <= fc < 2 ^ 32.
Hypothesis Hsize : 0 <= size < 2 ^ 32.
Hypothesis Htime : 0 <= wdate < 2 ^ 16 /\ 0 <= wtime < 2 ^ 16.

Let e := short_entry (sg_raw g) attr (sg_nt g) date time fc size wdate wtime.

Lemma gen_raw_ok : raw_ok (sg_raw g).
Proof. destruct Hg as [->|(n & Hn & _ & ->)]; [by apply short_raw_ok|by apply tail_name_ok]. Qed.

Lemma gen_nt : sg_nt g = sg_nt (short_gen_base name) /\ sg_lfn g = sg_lfn (short_gen_base name).
Proof. by destruct Hg as [->|(n & Hn & _ & ->)]. Qed.

Lemma short_entry_step st cl pos nm : (entry_names st e).2 = nm ->
  dir_step st e cl pos = inr (Info nm (entry_names st e).1 attr fc (if negb (attr .& FAT32_ATTR_DIR =? 0) then 0 else size) wdate wtime cl pos).
Proof.
  intros Hnm. destruct gen_raw_ok as (R1 & R2 & R3 & R4). pose proof gen_nt as [Hnt _]. destruct Hattr as [Ha Hvol].
  destruct (short_entry_fields (sg_raw g) attr (sg_nt g) date time fc size wdate wtime) as (F1 & F0 & F11 & F12 & F20 & F26 & F28 & F24 & F22);
    [split_and!; done|done|rewrite Hnt; apply sg_nt_u8|]. fold e in F1, F0, F11, F12, F20, F26, F28, F24, F22.
  assert (H0 : 32 <= sg_raw g !!! 0%nat < 128).
  { destruct (lookup_lt_is_Some_2 (sg_raw g) 0) as [x Hx]; [lia|]. rewrite (list_lookup_total_correct _ _ _ Hx).
    by apply (Forall_lookup_1 _ _ _ _ R2) in Hx. }
  assert (Hlfn : (attr .& 0x3F =? 0x0F) = false).
  { apply Z.eqb_neq. intros Hx. apply (f_equal (fun z => Z.testbit z 3)) in Hx. rewrite Z.land_spec in Hx.
    apply (f_equal (fun z => Z.testbit z 3)) in Hvol. rewrite Z.land_spec in Hvol. by destruct (Z.testbit attr 3). }
  unfold dir_step. rewrite F0, F11, Hlfn, Hvol. replace (_ =? 0xE5) with false by lia. change (negb (0 =? 0)) with false. cbn iota.
  replace (sg_raw g !!! 0%nat =? 46) with false by lia. cbn [andb]. unfold entry_info.
  destruct (entry_names st e) as [sh nm'] eqn:En. cbn [fst snd] in *. subst nm'. rewrite F11, F20, F26, F28, F24, F22, first_cluster_back by done.
  unfold u16, u32. rewrite !Z.mod_small by lia. done.
Qed.

(** A name that needs no long name is given by the 8.3 entry alone. *)
Lemma short_shown : sg_lfn g = false -> (build_short_name e).2 = name.
Proof.
  intros Hlfn. pose proof gen_raw_ok as Hr. pose proof gen_nt as [Hnt Hl]. rewrite Hlfn in Hl.
  destruct (short_gen_parts name _ Hname eq_refl) as (b & x & Hraw & Lb & Le & Fb & Fe & _ & Hll & Hback).
  destruct Hg as [Eg|(n & _ & Hly & _)]; [|rewrite Hll in Hl by done; done]. rewrite <- Eg in Hraw, Hback.
  destruct (name_units_back name us [] Hname Hunits (or_introl eq_refl)) as (_ & _ & _ & _ & _ & Hdot & _).
  destruct (Hback Hlfn Hdot) as (nb & ne & Eb & Ee & En).
  destruct (short_entry_fields (sg_raw g) attr (sg_nt g) date time fc size wdate wtime Hr (proj1 Hattr)) as (F1 & _ & _ & F12 & _);
    [rewrite Hnt; apply sg_nt_u8|].
  rewrite (short_names_back b x _ _ Lb Le Fb Fe Hraw e F1 F12), Eb, Ee, En. by case_bool_decide.
Qed.

Lemma short_only st cl pos : sg_lfn g = false -> lf_pending st <> 1 ->
  dir_step st e cl pos = inr (Info name (build_short_name e).1 attr fc (if negb (attr .& FAT32_ATTR_DIR =? 0) then 0 else size) wdate wtime cl pos).
Proof.
  intros Hlfn Hp. assert (Hen : entry_names st e = build_short_name e).
  { unfold entry_names. destruct (build_short_name e). replace (lf_pending st =? 1) with false by lia. done. }
  rewrite <- Hen. apply short_entry_step. rewrite Hen. by apply short_shown.
Qed.

(** After the long-name entries the 8.3 entry has the long name. *)
Lemma long_name st cl pos : lfn_at us (lfn_count us) (short_checksum (sg_raw g)) 1 st ->
  dir_step st e cl pos = inr (Info name (build_short_name e).1 attr fc (if negb (attr .& FAT32_ATTR_DIR =? 0) then 0 else size) wdate wtime cl pos).
Proof.
  intros Hat. pose proof gen_raw_ok as Hr. pose proof gen_nt as [Hnt Hl].
  destruct (name_units_back name us [] Hname Hunits (or_introl eq_refl)) as (_ & Hus & Hlen & Hne & _).
  destruct (lfn_units_read us (lfn_count us) (short_checksum (sg_raw g)) Hlen eq_refl st Hat) as (tl & Htake & Htl).
  destruct (name_units_back name us tl Hname Hunits Htl) as (Hback & _).
  destruct Hat as (Hp & Hs & Hc & _).
  assert (Hsum : short_checksum (byte_at e <$> seqZ 0 11) = short_checksum (sg_raw g)).
  { destruct (short_entry_fields (sg_raw g) attr (sg_nt g) date time fc size wdate wtime Hr (proj1 Hattr)) as (F1 & _); [rewrite Hnt; apply sg_nt_u8|].
    fold e in F1. by rewrite F1. }
  assert (Hen : entry_names st e = ((build_short_name e).1, name)).
  { unfold entry_names. rewrite Hp, Hs, Hc, Hsum, !Z.eqb_refl. unfold utf16_to_utf8. rewrite Htake, Hback. destruct (build_short_name e) as [sh nm].
    simpl. revert Hne. generalize name as l. by intros [|]. }
  rewrite (short_entry_step st cl pos name) by (by rewrite Hen). by rewrite Hen.
Qed.

(** The long-name entries are passed, the last entry gives the name. *)
Lemma name_entries_steps st ps : length (lf_units st) = 260%nat -> lf_pending st <> 1 ->
  length ps = (length (name_entries g us attr date time fc size wdate wtime) - 1)%nat ->
  exists lfns st', name_entries g us attr date time fc size wdate wtime = lfns ++ [e] /\ length lfns = length ps /\ dir_steps st (zip ps lfns) = inl st' /\
    forall cl pos, dir_step st' e cl pos =
      inr (Info name (build_short_name e).1 attr fc (if negb (attr .& FAT32_ATTR_DIR =? 0) then 0 else size) wdate wtime cl pos).
Proof.
  intros Hl Hp. unfold name_entries. fold e. intros Hps. rewrite length_app in Hps. simpl in Hps.
  destruct (sg_lfn g) eqn:Elfn.
  - destruct (name_units_back name us [] Hname Hunits (or_introl eq_refl)) as (_ & Hus & Hlen & _).
    set (ck := short_checksum (sg_raw g)) in *.
    assert (Hcnt : length (lfn_entries us ck) = idx (lfn_count us)) by (unfold lfn_entries; rewrite length_fmap, length_seqZ; done).
    destruct (lfn_entries_read us (lfn_count us) ck Hus Hlen eq_refl (checksum_u8 _) st ps []) as (st' & E & Hat); [lia|done|].
    rewrite app_nil_r in E. exists (lfn_entries us ck), st'. split_and!; [done|lia|done|]. intros cl pos. by apply long_name.
  - destruct ps; [|simpl in Hps; lia]. exists [], st. split_and!; try done. intros cl pos. by apply short_only.
Qed.

(** Every entry is in use. *)
Lemma name_entries_used : Forall (fun e => length e = 32%nat /\ byte_at e 0 <> 0 /\ byte_at e 0 <> 0xE5) (name_entries g us attr date time fc size wdate wtime).
Proof.
  destruct (name_units_back name us [] Hname Hunits (or_introl eq_refl)) as (_ & Hus & Hlen & _).
  pose proof gen_nt as [Hnt _]. pose proof gen_raw_ok as Hr. unfold name_entries. fold e. apply Forall_app. split.
  - destruct (sg_lfn g); [|constructor]. unfold lfn_entries. apply Forall_fmap, Forall_forall. intros i Hi%elem_of_seqZ. cbn.
    assert (Hc : 1 <= lfn_count us <= 20) by (unfold lfn_count; dlia).
    destruct (lfn_entry_head us (lfn_count us) (short_checksum (sg_raw g)) (checksum_u8 _) (lfn_count us - i)) as (E0 & _); [lia|].
    split; [reflexivity|]. rewrite E0. split_ifs; lia.
  - constructor; [|constructor].
    destruct (short_entry_fields (sg_raw g) attr (sg_nt g) date time fc size wdate wtime Hr (proj1 Hattr)) as (_ & F0 & _); [rewrite Hnt; apply sg_nt_u8|].
    fold e in F0. destruct Hr as (R1 & R2 & R3 & _). rewrite F0. split.
    + unfold e, short_entry. rewrite length_put32, !length_put16, !length_set_byte, length_app, R1. done.
    + destruct (lookup_lt_is_Some_2 (sg_raw g) 0) as [x Hx]; [lia|]. rewrite (list_lookup_total_correct _ _ _ Hx).
      apply (Forall_lookup_1 _ _ _ _ R2) in Hx. lia.
Qed.

Lemma name_entries_count : (1 <= length (name_entries g us attr date time fc size wdate wtime) <= 21)%nat.
Proof.
  destruct (name_units_back name us [] Hname Hunits (or_introl eq_refl)) as (_ & Hus & Hlen & _).
  unfold name_entries. rewrite length_app. simpl. destruct (sg_lfn g); [|simpl; lia]. unfold lfn_entries. rewrite length_fmap, length_seqZ.
  assert (Hc : 1 <= lfn_count us <= 20) by (unfold lfn_count; dlia). lia.
Qed.

Lemma name_entries_back st ps cl pos : length (lf_units st) = 260%nat -> lf_pending st <> 1 ->
  length ps = (length (name_entries g us attr date time fc size wdate wtime) - 1)%nat ->
  dir_steps st (zip (ps ++ [(cl, pos)]) (name_entries g us attr date time fc size wdate wtime)) =
    inr (Info name (build_short_name e).1 attr fc (if negb (attr .& FAT32_ATTR_DIR =? 0) then 0 else size) wdate wtime cl pos).
Proof.
  intros Hl Hp Hps. destruct (name_entries_steps st ps Hl Hp Hps) as (lfns & st' & -> & Hlen & Hst & He).
  rewrite zip_with_app by done. rewrite (dir_steps_app _ _ _ _ Hst). cbn [zip_with dir_steps]. by rewrite He.
Qed.

End roundtrip.
