(* ===== verification/FatDir.v ===== *)
(** * fat32.c: directories

    The cursor over the entries of a directory, lookup and listing, and the
    operations that change directories. A cursor that is advanced is returned.
    A scan of a directory has as fuel the entries a cursor can still pass
    before [cur_advance] reports a loop in the chain; running out of it would
    be the result 1, which is no errno, and does not happen. *)
From S2P Require Import Prelude CString Blk Disk Fat FatFile FatName.

Open Scope tach_scope.

Definition FAT32_DIR_MAX_ENTRIES : Z := 65536.
Definition FAT32_PATH_BUF : Z := 256.

(** ** Paths *)
Fixpoint path_skip (p : list Z) : list Z :=
  match p with
  | c :: p' => if c =? 47 then path_skip p' else p
  | [] => []
  end.

(** The bytes up to the next slash, and what is left. *)
Fixpoint path_part (p : list Z) : list Z * list Z :=
  match p with
  | c :: p' => if c =? 47 then ([], p) else let '(part, rest) := path_part p' in (c :: part, rest)
  | [] => ([], [])
  end.

(** [while (end > 0 && path[end - 1] == '/') end--] *)
Definition trim_slashes (p : list Z) : list Z := rev (path_skip (rev p)).

(** The last component and the path before it. *)
Definition split_leaf (path : list Z) : list Z * list Z :=
  let '(leaf, before) := path_part (rev (trim_slashes path)) in (rev leaf, trim_slashes (rev before)).

Inductive resolved :=
| LeafFound (parent : fat32_info) (pp leaf : list Z) (info : fat32_info)
| LeafMissing (parent : fat32_info) (pp leaf : list Z)
| NoParent.

Section Ops.
Context {S : Type} `{Disk S} (g : geo).
Abbreviation M := (fatM S).

(** ** The cursor *)
Definition cur_init (first_cluster : Z) : fat32_dircur := Cur first_cluster 0 0.

Definition ent_lba (c : fat32_dircur) : Z := cluster_lba g (c_cluster c) + (c_pos c .>> 4).
Definition ent_off (c : fat32_dircur) : nat := Z.to_nat ((c_pos c .& 15) * 32).

(** [None]: the end of the chain. *)
Definition cur_peek (cur : fat32_dircur) : M (option (list Z)) :=
  if c_cluster cur =? 0 then mret None
  else read_sector (ent_lba cur) (fun d => Some (take 32 (drop (ent_off cur) d))).

Definition cur_advance (cur : fat32_dircur) : M fat32_dircur :=
  if c_pos cur + 1 <? entries_per_cluster g then mret (Cur (c_cluster cur) (c_pos cur + 1) (c_steps cur))
  else if clusters g <? c_steps cur + 1 then fail (- EIO)
  else
    next ← fat_next g (c_cluster cur);
    mret (Cur (default 0 next) 0 (c_steps cur + 1)).

(** The entries from the cursor on, one more than can be passed. *)
Definition dir_fuel (cur : fat32_dircur) : nat :=
  Z.to_nat ((clusters g - c_steps cur + 1) * entries_per_cluster g - c_pos cur + 1).

(** ** Reading entries *)
Fixpoint next_loop (fuel : nat) (st : lfn_st) (cur : fat32_dircur) : M (fat32_dircur * option fat32_info) :=
  match fuel with
  | O => fail 1
  | Datatypes.S fuel' =>
      peek ← cur_peek cur;
      match peek with
      | None => mret (cur, None)
      | Some e =>
          if byte_at e 0 =? 0 then mret (Cur 0 (c_pos cur) (c_steps cur), None)
          else
            cur' ← cur_advance cur;
            match dir_step st e (c_cluster cur) (c_pos cur) with
            | inl st => next_loop fuel' st cur'
            | inr info => mret (cur', Some info)
            end
      end
  end.

Definition dir_next (cur : fat32_dircur) : M (fat32_dircur * option fat32_info) := next_loop (dir_fuel cur) lfn_start cur.

Fixpoint find_loop (fuel : nat) (cur : fat32_dircur) (name : list Z) : M fat32_info :=
  match fuel with
  | O => fail 1
  | Datatypes.S fuel' =>
      r ← dir_next cur;
      match r with
      | (cur, None) => fail (- ENOENT)
      | (cur, Some info) =>
          if name_eq (i_name info) name || name_eq (i_short info) name then mret info else find_loop fuel' cur name
      end
  end.

Definition dir_find (dir_cluster : Z) (name : list Z) : M fat32_info :=
  find_loop (dir_fuel (cur_init dir_cluster)) (cur_init dir_cluster) name.

(** ** fat32_lookup *)
Definition root_info : fat32_info := Info [] [] FAT32_ATTR_DIR (root_cluster g) 0 0 0 0 0.

Fixpoint lookup_loop (fuel : nat) (p : list Z) (current : fat32_info) : M fat32_info :=
  match fuel with
  | O => fail 1
  | Datatypes.S fuel' =>
      match path_skip p with
      | [] => mret current
      | p =>
          let '(component, rest) := path_part p in
          if FAT32_NAME_MAX <? Z.of_nat (length component) then fail (- ENAMETOOLONG)
          else if bool_decide (component = [46]) then lookup_loop fuel' rest current
          else if negb (has_attr FAT32_ATTR_DIR current) then fail (- ENOTDIR)
          else
            next ← dir_find (i_first current) component;
            lookup_loop fuel' rest next
      end
  end.

Definition fat32_lookup (path : list Z) : M fat32_info := lookup_loop (Datatypes.S (length path)) path root_info.

(** ** fat32_readdir *)
Fixpoint readdir_loop (fuel : nat) (cur : fat32_dircur) (next_index index : Z) (node : fat32_node) : M (fat32_node * option fat32_info) :=
  match fuel with
  | O => fail 1
  | Datatypes.S fuel' =>
      r ← dir_next cur;
      match r with
      | (cur, None) => mret (set_rd next_index cur node, None)
      | (cur, Some info) =>
          if next_index =? index then mret (set_rd (next_index + 1) cur node, Some info)
          else readdir_loop fuel' cur (next_index + 1) index node
      end
  end.

(** An error leaves the node as it was. *)
Definition fat32_readdir (node : fat32_node) (index : Z) : M (fat32_node * option fat32_info) :=
  if negb (has_attr FAT32_ATTR_DIR (n_info node)) then fail (- ENOTDIR)
  else
    let '(cur, next_index) := if rd_valid node && (rd_next node <=? index) then (rd_cur node, rd_next node)
                              else (cur_init (i_first (n_info node)), 0) in
    readdir_loop (dir_fuel cur) cur next_index index node.

(** ** Short names in a directory *)
Fixpoint short_loop (fuel : nat) (cur : fat32_dircur) (raw : list Z) : M bool :=
  match fuel with
  | O => fail 1
  | Datatypes.S fuel' =>
      peek ← cur_peek cur;
      match peek with
      | None => mret false
      | Some e =>
          if byte_at e 0 =? 0 then mret false
          else if negb (byte_at e 0 =? 0xE5) && negb (byte_at e 11 .& 0x3F =? 0x0F) && bool_decide ((byte_at e <$> seqZ 0 11) = raw) then mret true
          else cur ← cur_advance cur; short_loop fuel' cur raw
      end
  end.

Definition dir_has_short (first : Z) (raw : list Z) : M bool := short_loop (dir_fuel (cur_init first)) (cur_init first) raw.

(** The numbers from [n], [fuel] of them. *)
Fixpoint tail_loop (fuel : nat) (n first : Z) (sg : short_gen) : M short_gen :=
  match fuel with
  | O => fail (- EEXIST)
  | Datatypes.S fuel' =>
      found ← dir_has_short first (tail_name sg n);
      if negb found then mret (with_raw sg (tail_name sg n)) else tail_loop fuel' (n + 1) first sg
  end.

Definition short_pick_tail (first : Z) (sg : short_gen) : M short_gen := tail_loop (Z.to_nat 999999) 1 first sg.

(** ** Writing entries *)
Definition ent_write (c : fat32_dircur) (e : list Z) : M unit := store_sector (ent_lba c) (patch (ent_off c) e).
Definition ent_mark_deleted (c : fat32_dircur) : M unit := store_sector (ent_lba c) (set_byte ((c_pos c .& 15) * 32) 0xE5).

(** The scan for [need] free entries in a row: where they start, or the state
    at the end of the chain. *)
Record slot_scan := Scan { sc_run : Z; sc_start : fat32_dircur; sc_last : Z; sc_tail : bool }.

Fixpoint slot_loop (fuel : nat) (cur : fat32_dircur) (need : Z) (sc : slot_scan) : M (fat32_dircur + slot_scan * Z) :=
  match fuel with
  | O => fail 1
  | Datatypes.S fuel' =>
      peek ← cur_peek cur;
      match peek with
      | None => mret (inr (sc, c_steps cur))
      | Some e =>
          let tail := sc_tail sc || (byte_at e 0 =? 0) in
          if tail || (byte_at e 0 =? 0xE5) then
            let start := if sc_run sc =? 0 then cur else sc_start sc in
            if sc_run sc + 1 =? need then mret (inl start)
            else
              cur' ← cur_advance cur;
              slot_loop fuel' cur' need (Scan (sc_run sc + 1) start (c_cluster cur) tail)
          else
            cur' ← cur_advance cur;
            slot_loop fuel' cur' need (Scan 0 (sc_start sc) (c_cluster cur) tail)
      end
  end.

(** Every turn adds at least one entry. *)
Fixpoint extend_loop (fuel : nat) (run need last_cluster nclusters : Z) (start : fat32_dircur) : M fat32_dircur :=
  if run <? need then
    match fuel with
    | O => fail 1
    | Datatypes.S fuel' =>
        if FAT32_DIR_MAX_ENTRIES / entries_per_cluster g <? nclusters + 1 then fail (- ENOSPC)
        else
          fresh ← chain_grow g last_cluster true;
          extend_loop fuel' (run + entries_per_cluster g) need fresh (nclusters + 1)
            (if run =? 0 then Cur fresh 0 0 else start)
    end
  else mret start.

Definition dir_alloc_slots (first need : Z) : M fat32_dircur :=
  r ← slot_loop (dir_fuel (cur_init first)) (cur_init first) need (Scan 0 (Cur 0 0 0) first false);
  match r with
  | inl start => mret start
  | inr (sc, steps) => extend_loop (Z.to_nat need) (sc_run sc) need (sc_last sc) steps (sc_start sc)
  end.

(** The position of the last entry written. *)
Fixpoint write_entries (cur : fat32_dircur) (ents : list (list Z)) : M (Z * Z) :=
  match ents with
  | [] => mret (0, 0)
  | e :: ents' =>
      _ ← ent_write cur e;
      match ents' with
      | [] => mret (c_cluster cur, c_pos cur)
      | _ => cur ← cur_advance cur; write_entries cur ents'
      end
  end.

Definition dir_add_entry (dir_first : Z) (name : list Z) (attr first_cluster size wdate wtime : Z) : M fat32_info :=
  units ← of_result (name_units name);
  let sg := short_gen_base name in
  sg ← (if sg_lossy sg then short_pick_tail dir_first sg else mret sg);
  now ← fat_now;
  let ents := name_entries sg units attr now.1 now.2 first_cluster size wdate wtime in
  cur ← dir_alloc_slots dir_first (Z.of_nat (length ents));
  at_ ← write_entries cur ents;
  let '(short, shown) := build_short_name (short_entry (sg_raw sg) attr (sg_nt sg) now.1 now.2 first_cluster size wdate wtime) in
  mret (Info (if sg_lfn sg then name else shown) short attr first_cluster (if negb (attr .& FAT32_ATTR_DIR =? 0) then 0 else size)
         wdate wtime at_.1 at_.2).

(** ** Deleting entries *)
Definition cur_at (info : fat32_info) (cur : fat32_dircur) : bool :=
  (c_cluster cur =? i_dir_cluster info) && (c_pos cur =? i_dir_pos info).

(** The first of the long-name entries before the entry of [info]. *)
Fixpoint delete_scan (fuel : nat) (cur : fat32_dircur) (start : option fat32_dircur) (info : fat32_info) : M fat32_dircur :=
  match fuel with
  | O => fail 1
  | Datatypes.S fuel' =>
      peek ← cur_peek cur;
      match peek with
      | None => fail (- ENOENT)
      | Some e =>
          if cur_at info cur then mret (default cur start)
          else if byte_at e 0 =? 0 then fail (- ENOENT)
          else
            let start := if negb (byte_at e 0 =? 0xE5) && (byte_at e 11 .& 0x3F =? 0x0F) then Some (default cur start) else None in
            cur ← cur_advance cur;
            delete_scan fuel' cur start info
      end
  end.

Fixpoint delete_loop (fuel : nat) (cur : fat32_dircur) (info : fat32_info) : M unit :=
  match fuel with
  | O => fail 1
  | Datatypes.S fuel' =>
      _ ← ent_mark_deleted cur;
      if cur_at info cur then mret tt else cur ← cur_advance cur; delete_loop fuel' cur info
  end.

Definition entry_delete (parent_first : Z) (info : fat32_info) : M unit :=
  start ← delete_scan (dir_fuel (cur_init parent_first)) (cur_init parent_first) None info;
  delete_loop (dir_fuel start) start info.

(** ** Resolving paths *)
Definition resolve_leaf_ex (path : list Z) : M resolved :=
  let '(leaf, pp) := split_leaf path in
  if bool_decide (leaf = []) then fail (- EINVAL)
  else if FAT32_NAME_MAX <? Z.of_nat (length leaf) then fail (- ENAMETOOLONG)
  else if FAT32_PATH_BUF <=? Z.of_nat (length pp) then fail (- ENAMETOOLONG)
  else if bool_decide (leaf = [46]) || bool_decide (leaf = [46; 46]) then fail (- EINVAL)
  else
    r ← try_ (fat32_lookup pp);
    match r with
    | inl e => if e =? - ENOENT then mret NoParent else fail e
    | inr parent =>
        if negb (has_attr FAT32_ATTR_DIR parent) then fail (- ENOTDIR)
        else
          r ← try_ (dir_find (i_first parent) leaf);
          match r with
          | inl e => if e =? - ENOENT then mret (LeafMissing parent pp leaf) else fail e
          | inr info => mret (LeafFound parent pp leaf info)
          end
    end.

(** The parent, the leaf and its entry. *)
Definition resolve_leaf (path : list Z) : M (fat32_info * list Z * fat32_info) :=
  r ← resolve_leaf_ex path;
  match r with
  | LeafFound parent _ leaf info => mret (parent, leaf, info)
  | _ => fail (- ENOENT)
  end.

Definition dir_is_empty (dir : fat32_info) : M unit :=
  if i_first dir =? 0 then fail (- EIO)
  else
    r ← dir_next (cur_init (i_first dir));
    match r.2 with
    | None => mret tt
    | Some _ => fail (- ENOTEMPTY)
    end.

Definition set_dotdot (dir_cluster parent_first : Z) : M unit :=
  ok ← with_sector (cluster_lba g dir_cluster) (fun d =>
    if negb (byte_at d 32 =? 46) || negb (byte_at d 33 =? 46) then (None, false)
    else
      let value := if parent_first =? root_cluster g then 0 else parent_first in
      (Some (put16 (32 + 26) value (put16 (32 + 20) (value .>> 16) d)), true));
  if ok : bool then mret tt else fail (- EIO).

(** The prefixes of [pp] that end at a component, the lengths of [ends]. *)
Fixpoint prefix_loop (ends : list nat) (pp : list Z) (cluster : Z) : M bool :=
  match ends with
  | [] => mret false
  | i :: ends' =>
      let c := default 0 (pp !! i) in
      if negb (c =? 47) && negb (c =? 0) then prefix_loop ends' pp cluster
      else if default 0 (pp !! (i - 1)%nat) =? 47 then prefix_loop ends' pp cluster
      else
        info ← fat32_lookup (take i pp);
        if i_first info =? cluster then mret true else prefix_loop ends' pp cluster
  end.

Definition path_has_cluster (pp : list Z) (cluster : Z) : M bool := prefix_loop (seq 1 (length pp)) pp cluster.

(** ** The operations *)

(** The entry "." or ".." at offset [o] of a sector. *)
Definition dot_entry (o : Z) (dots target date time : Z) (d : sector) : sector :=
  let d := patch (Z.to_nat o) (replicate 11 32) d in
  let d := set_byte o 46 d in
  let d := if dots =? 2 then set_byte (o + 1) 46 d else d in
  let d := set_byte (o + 11) FAT32_ATTR_DIR d in
  let d := put16 (o + 18) date (put16 (o + 16) date (put16 (o + 14) time d)) in
  let d := put16 (o + 24) date (put16 (o + 22) time (put16 (o + 20) (target .>> 16) d)) in
  put32 (o + 28) 0 (put16 (o + 26) target d).

Definition create_locked (path : list Z) (attr : Z) : M fat32_info :=
  r ← resolve_leaf_ex path;
  match r with
  | LeafFound _ _ _ _ => fail (- EEXIST)
  | NoParent => fail (- ENOENT)
  | LeafMissing parent _ leaf =>
      _ ← of_result (name_units leaf);
      now ← fat_now;
      cluster ← (if negb (attr .& FAT32_ATTR_DIR =? 0) then
                   cluster ← chain_grow g 0 true;
                   let up := if i_first parent =? root_cluster g then 0 else i_first parent in
                   r ← try_ (store_sector (cluster_lba g cluster) (fun d =>
                          dot_entry 32 2 up now.1 now.2 (dot_entry 0 1 cluster now.1 now.2 d)));
                   match r with
                   | inl e => _ ← try_ (cluster_free_chain g cluster); fail e
                   | inr _ => mret cluster
                   end
                 else mret 0);
      r ← try_ (dir_add_entry (i_first parent) leaf attr cluster 0 now.1 now.2);
      match r with
      | inl e => _ ← (if negb (cluster =? 0) then _ ← try_ (cluster_free_chain g cluster); mret tt else mret tt); fail e
      | inr info => mret info
      end
  end.

(** [dirop_enter], the operation, [dirop_leave]. *)
Definition dirop {A} (m : M A) : M A :=
  busy ← get_st dir_busy;
  if busy : bool then fail (- EBUSY)
  else
    _ ← modify (set_dir_busy true);
    r ← try_ m;
    _ ← modify (set_dir_busy false);
    of_result r.

(** [None] is the NULL pointer. *)
Definition with_path {A} (path : option (list Z)) (m : list Z -> M A) : M A :=
  match path with
  | None => fail (- EINVAL)
  | Some path => if readonly g then fail (- EROFS) else dirop (m path)
  end.

Definition fat32_create (path : option (list Z)) : M fat32_info := with_path path (fun path => create_locked path FAT32_ATTR_ARCH).
Definition fat32_mkdir (path : option (list Z)) : M unit := with_path path (fun path => _ ← create_locked path FAT32_ATTR_DIR; mret tt).

(** The open vnode of an entry: its address. *)
Fixpoint open_find (l : list (nat * fat32_vnode)) (info : fat32_info) : option nat :=
  match l with
  | [] => None
  | (addr, fv) :: l' =>
      let other := n_info (fv_node fv) in
      if (i_dir_cluster other =? i_dir_cluster info) &&
         (if negb (i_dir_cluster info =? 0) then i_dir_pos other =? i_dir_pos info else has_attr FAT32_ATTR_DIR other)
      then Some addr else open_find l' info
  end.

Definition entry_is_open (info : fat32_info) : M bool := get_st (fun s => bool_decide (open_find (open_list s) info <> None)).

Definition remove_locked (path : list Z) (want_dir : bool) : M unit :=
  r ← resolve_leaf path;
  let '(parent, _, info) := r in
  let is_dir := has_attr FAT32_ATTR_DIR info in
  if want_dir && negb is_dir then fail (- ENOTDIR)
  else if negb want_dir && is_dir then fail (- EISDIR)
  else if has_attr FAT32_ATTR_RO info then fail (- EACCES)
  else if i_dir_cluster info =? 0 then fail (- EBUSY)
  else
    opened ← entry_is_open info;
    if opened : bool then fail (- EBUSY)
    else
      _ ← (if want_dir then dir_is_empty info else mret tt);
      _ ← entry_delete (i_first parent) info;
      if negb (i_first info =? 0) then cluster_free_chain g (i_first info) else mret tt.

Definition fat32_unlink (path : option (list Z)) : M unit := with_path path (fun path => remove_locked path false).
Definition fat32_rmdir (path : option (list Z)) : M unit := with_path path (fun path => remove_locked path true).

(** The checks on an existing destination [ni], and its entry removed. *)
Definition replace_target (old_dir : bool) (np ni : fat32_info) : M unit :=
  let new_dir := has_attr FAT32_ATTR_DIR ni in
  if old_dir && negb new_dir then fail (- ENOTDIR)
  else if negb old_dir && new_dir then fail (- EISDIR)
  else if has_attr FAT32_ATTR_RO ni then fail (- EACCES)
  else
    opened ← entry_is_open ni;
    if (i_dir_cluster ni =? 0) || opened then fail (- EBUSY)
    else
      _ ← (if new_dir then dir_is_empty ni else mret tt);
      entry_delete (i_first np) ni.

Definition rename_locked (old_path new_path : list Z) : M unit :=
  r ← resolve_leaf old_path;
  let '(op, oleaf, oi) := r in
  if i_dir_cluster oi =? 0 then fail (- EBUSY)
  else
  r ← resolve_leaf_ex new_path;
  target ← match r with
           | NoParent => fail (- ENOENT)
           | LeafFound np npp nleaf ni => mret (np, npp, nleaf, Some ni)
           | LeafMissing np npp nleaf => mret (np, npp, nleaf, None)
           end;
  let '(np, npp, nleaf, found) := target in
  _ ← of_result (name_units nleaf);
  let old_dir := has_attr FAT32_ATTR_DIR oi in
  let same := match found with
              | Some ni => (i_dir_cluster ni =? i_dir_cluster oi) && (i_dir_pos ni =? i_dir_pos oi)
              | None => false
              end in
  if same && str_same oleaf nleaf then mret tt
  else
  opened ← entry_is_open oi;
  if opened : bool then fail (- EBUSY)
  else
  _ ← (if old_dir then
         if i_first np =? i_first oi then fail (- EINVAL)
         else
           inside ← path_has_cluster npp (i_first oi);
           if inside : bool then fail (- EINVAL) else mret tt
       else mret tt);
  _ ← match found with
      | Some ni => if negb same then replace_target old_dir np ni else entry_delete (i_first op) oi
      | None => mret tt
      end;
  _ ← dir_add_entry (i_first np) nleaf (i_attr oi) (i_first oi) (i_size oi) (i_wdate oi) (i_wtime oi);
  _ ← (if negb same then entry_delete (i_first op) oi else mret tt);
  _ ← (if old_dir && negb (i_first np =? i_first op) then set_dotdot (i_first oi) (i_first np) else mret tt);
  match found with
  | Some ni => if negb same && negb (i_first ni =? 0) then cluster_free_chain g (i_first ni) else mret tt
  | None => mret tt
  end.

Definition fat32_rename (old_path new_path : option (list Z)) : M unit :=
  match new_path with
  | None => fail (- EINVAL)
  | Some new_path => with_path old_path (fun old_path => rename_locked old_path new_path)
  end.
End Ops.
