(* ===== verification/FatScan.v ===== *)
(** * fat32.c: reading directories of any volume

    What lookup and listing do when nothing is assumed of the directories
    (free bits, loops in the chains, entries with any bytes): they end, leave
    the volume as it is and give entries whose strings fit their buffers. *)
From S2P Require Import Prelude CString Blk Disk Fat FatTab FatFile FatName FatDir.

Open Scope tach_scope.

(** ** Names *)
Abbreviation text := (Forall (fun c => 0 < c < 256)).

Lemma high_byte t x : Z.testbit t 7 = true -> 0 < u8 (t .| x) < 256.
Proof.
  intros Ht. pose proof (u8_is_u8 (t .| x)) as Hr. unfold is_u8 in Hr. enough (u8 (t .| x) <> 0) by lia.
  intros E. apply (f_equal (fun z => Z.testbit z 7)) in E. unfold u8 in E. rewrite Z.mod_pow2_bits_low, Z.lor_spec, Ht in E by lia. done.
Qed.

Lemma utf8_bytes_text cp : 0 < cp -> text (utf8_bytes cp) /\ Z.of_nat (length (utf8_bytes cp)) = utf8_need cp.
Proof.
  intros Hcp. unfold utf8_bytes. set (n := utf8_need cp). assert (Hn : n = 1 /\ cp < 128 \/ n = 2 \/ n = 3 \/ n = 4) by (subst n; unfold utf8_need; split_ifs; lia).
  destruct Hn as [[-> Hs]|[->|[->| ->]]]; simpl; split; try done; repeat constructor; try (by apply high_byte).
  all: rewrite u8_small by (unfold is_u8; lia); lia.
Qed.

Lemma utf8_emit_fit cap n cp rest out : 0 < cp -> utf8_emit cap n cp rest = Some out ->
  exists out', n + utf8_need cp < cap /\ 1 <= utf8_need cp /\ rest (n + utf8_need cp) = Some out' /\ out = utf8_bytes cp ++ out'.
Proof.
  intros Hcp. unfold utf8_emit. destruct (Z.leb_spec cap (n + utf8_need cp)); [done|]. destruct (rest _) as [out'|] eqn:E; [|done].
  intros [= <-]. exists out'. split_and!; try done. unfold utf8_need. split_ifs; lia.
Qed.

Lemma utf16_loop_fit k us cap n out : (length us <= k)%nat -> Forall (fun u => 0 <= u) us -> 0 <= n < cap -> utf16_loop us cap n = Some out ->
  n + Z.of_nat (length out) < cap /\ text out.
Proof.
  revert us n out. induction k as [|k IH]; intros us n out Hk Hu Hn Hrun.
  { destruct us; [|simpl in Hk; lia]. injection Hrun as <-. split; [simpl; lia|constructor]. }
  destruct us as [|u us]; [injection Hrun as <-; split; [simpl; lia|constructor]|]. apply Forall_cons in Hu as [Hu0 Hu].
  assert (Hgo : forall cp us', (length us' <= k)%nat -> Forall (fun u => 0 <= u) us' -> 0 < cp -> utf8_emit cap n cp (utf16_loop us' cap) = Some out ->
    n + Z.of_nat (length out) < cap /\ text out).
  { intros cp us' Hl Hf Hcp He. destruct (utf8_emit_fit _ _ _ _ _ Hcp He) as (out' & H1 & H1' & H2 & ->).
    destruct (utf8_bytes_text cp Hcp) as [T1 T2]. destruct (IH us' (n + utf8_need cp) out' Hl Hf ltac:(lia) H2) as [I1 I2].
    rewrite length_app. split; [lia|]. by apply Forall_app. }
  simpl in Hk. cbn [utf16_loop] in Hrun. destruct (Z.eqb_spec u 0); [injection Hrun as <-; split; [simpl; lia|constructor]|].
  destruct ((0xD800 <=? u) && (u <? 0xDC00)) eqn:Es.
  - destruct us as [|v us]; [by apply (Hgo 63 []) in Hrun; [|simpl; lia|constructor|lia]|].
    destruct ((0xDC00 <=? v) && (v <? 0xE000)) eqn:Ev.
    + apply Forall_cons in Hu as [Hv Hu]. apply (Hgo _ us) in Hrun; [done|simpl in Hk; lia|done|]. rewrite Z.shiftl_mul_pow2 by lia. lia.
    + by apply (Hgo 63 (v :: us)) in Hrun; [|lia|done|lia].
  - apply (Hgo _ us) in Hrun; [done|lia|done|]. split_ifs; lia.
Qed.

Lemma cstr_text l : Forall (fun c => 0 <= c < 256) l -> text (cstr l) /\ (length (cstr l) <= length l)%nat.
Proof.
  induction 1 as [|c l Hc _ [I1 I2]]; [split; [constructor|done]|]. simpl. destruct (Z.eqb_spec c 0); [split; [constructor|simpl; lia]|].
  split; [constructor; [lia|done]|simpl; lia].
Qed.

Lemma short_names_fit low cs s n : Forall is_u8 cs -> short_names low cs = (s, n) ->
  (Forall (fun c => 0 <= c < 256) s /\ length s = length cs) /\ Forall (fun c => 0 <= c < 256) n /\ (length n <= 2 * length cs)%nat.
Proof.
  intros Hcs. revert s n. induction Hcs as [|c cs Hc _ IH]; intros s n; [intros [=<- <-]; split_and!; by try constructor|]. cbn [short_names].
  destruct (short_names low cs) as [s1 n1]. destruct (IH _ _ eq_refl) as ((I1 & I2) & I3 & I4). unfold is_u8 in Hc.
  pose proof (u8_is_u8 (0xC0 .| (c .>> 6))) as B1. pose proof (u8_is_u8 (0x80 .| (c .& 0x3F))) as B2. pose proof (u8_is_u8 (c + 32)) as B3. unfold is_u8 in *.
  destruct (0x80 <=? c); intros [=<- <-]; split_and!; try (by simpl; lia); repeat (constructor; [split_ifs; lia|]); try done; simpl in *; lia.
Qed.

Lemma trim_len_le n d o : (trim_len n d o <= n)%nat.
Proof. induction n as [|n IH]; [done|]. cbn [trim_len]. split_ifs; lia. Qed.

Lemma build_short_name_fit e sh nm : build_short_name e = (sh, nm) -> text sh /\ text nm /\ (length sh <= 12)%nat /\ (length nm <= 23)%nat.
Proof.
  unfold build_short_name. set (raw := if byte_at (byte_at e <$> seqZ 0 11) 0 =? 5 then _ else _).
  assert (Hr : Forall is_u8 raw).
  { assert (Hb : Forall is_u8 (byte_at e <$> seqZ 0 11)).
    { apply Forall_fmap, Forall_true. intros x. simpl. apply byte_at_u8. }
    subst raw. destruct (_ =? 5); [|done]. apply Forall_insert; [done|]. unfold is_u8. lia. }
  pose proof (trim_len_le 8 raw 0) as Lb. pose proof (trim_len_le 3 raw 8) as Le.
  destruct (short_names (negb (byte_at e 12 .& 0x08 =? 0)) (take (trim_len 8 raw 0) raw)) as [sb nb] eqn:E1.
  destruct (short_names (negb (byte_at e 12 .& 0x10 =? 0)) (take (trim_len 3 raw 8) (drop 8 raw))) as [se ne] eqn:E2.
  apply short_names_fit in E1 as ((S1 & L1) & N1 & M1); [|by apply Forall_take].
  apply short_names_fit in E2 as ((S2 & L2) & N2 & M2); [|by apply Forall_take, Forall_drop].
  rewrite length_take in *. assert (H46 : forall l l', Forall (fun c => 0 <= c < 256) l -> Forall (fun c => 0 <= c < 256) l' -> Forall (fun c => 0 <= c < 256) (l ++ 46 :: l')).
  { intros l l' ? ?. apply Forall_app. split; [done|]. constructor; [lia|done]. }
  destruct (trim_len 3 raw 8) as [|x]; intros [=<- <-].
  - destruct (cstr_text sb S1), (cstr_text nb N1). split_and!; [done|done|lia|lia].
  - destruct (cstr_text (sb ++ 46 :: se)) as [? B1]; [by apply H46|]. destruct (cstr_text (nb ++ 46 :: ne)) as [? B2]; [by apply H46|].
    rewrite length_app in B1, B2. simpl in B1, B2. split_and!; [done|done|lia|lia].
Qed.

(** ** Entries *)

(** The long-name buffer of dir_next: [units] has its 260 elements, and the
    slot numbers stay inside. *)
Definition lfn_ok (st : lfn_st) : Prop :=
  length (lf_units st) = 260%nat /\ Forall (fun u => 0 <= u) (lf_units st) /\ 0 <= lf_slots st <= 20 /\ 0 <= lf_pending st <= 20.

Lemma take_units_ok slot e l : length l = 260%nat -> Forall (fun u => 0 <= u) l ->
  length (take_units slot e l) = 260%nat /\ Forall (fun u => 0 <= u) (take_units slot e l).
Proof.
  unfold take_units. generalize (zip (seqZ 0 13) lfn_offsets) as zs. intros zs. revert l. induction zs as [|[i o] zs IH]; intros l Hl Hf; [done|].
  simpl. apply IH; [by rewrite length_insert|]. apply Forall_insert; [done|]. apply le16_range.
Qed.

(** What the entry gives fits [struct fat32_info]. *)
Definition info_ok (epc : Z) (i : fat32_info) : Prop :=
  text (i_name i) /\ text (i_short i) /\ (length (i_name i) <= 255)%nat /\ (length (i_short i) <= 12)%nat /\ is_u8 (i_attr i) /\
  0 <= i_first i < 2 ^ 32 /\ 0 <= i_size i < 2 ^ 32 /\ 0 <= i_wdate i < 2 ^ 16 /\ 0 <= i_wtime i < 2 ^ 16 /\
  0 <= i_dir_cluster i < 2 ^ 32 /\ 0 <= i_dir_pos i < epc.

Lemma lfn_step_ok st e : lfn_ok st -> lfn_ok (lfn_step st e).
Proof.
  intros (H1 & H2 & H3 & H4). unfold lfn_step. pose proof (byte_at_u8 e 0) as Hb.
  assert (Hd : lfn_ok (drop_lfn st)) by (split_and!; simpl; done || lia).
  destruct (_ || _ || _); [done|]. destruct (negb (byte_at e 0 .& 0x40 =? 0)).
  - assert (Hs : 0 <= byte_at e 0 .& 0x3F) by (apply Z.land_nonneg; lia). destruct ((_ =? 0) || (_ <? _)) eqn:Es; [done|]. unfold FAT32_LFN_SLOTS in Es.
    destruct (take_units_ok (byte_at e 0 .& 0x3F) e (lf_units st) H1 H2). split_and!; simpl; done || lia.
  - destruct ((lf_pending st <? 2) || negb (byte_at e 0 =? lf_pending st - 1) || negb (byte_at e 13 =? lf_checksum st)) eqn:Es; [done|].
    destruct (take_units_ok (byte_at e 0) e (lf_units st) H1 H2). split_and!; simpl; done || lia.
Qed.

Lemma entry_names_fit st e sh nm : lfn_ok st -> entry_names st e = (sh, nm) -> text sh /\ text nm /\ (length sh <= 12)%nat /\ (length nm <= 255)%nat.
Proof.
  intros (H1 & H2 & _) He. unfold entry_names in He. destruct (build_short_name e) as [s n] eqn:Eb. apply build_short_name_fit in Eb as (B1 & B2 & B3 & B4).
  assert (Hs : (s, n) = (sh, nm) -> text sh /\ text nm /\ (length sh <= 12)%nat /\ (length nm <= 255)%nat).
  { intros [=<- <-]. split_and!; [done|done|done|lia]. }
  destruct (_ && _); [|by apply Hs]. destruct (utf16_to_utf8 _ _ _) as [long|] eqn:El; [|by apply Hs]. injection He as <- <-.
  unfold utf16_to_utf8 in El. destruct (utf16_loop _ _ _) as [out|] eqn:Eo; [|done]. simpl in El.
  assert (out = long) as -> by (destruct out; [done|by injection El]).
  apply (utf16_loop_fit _ _ _ _ _ (Nat.le_refl _)) in Eo as [O1 O2]; [|by apply Forall_take|by unfold FAT32_NAME_MAX]. unfold FAT32_NAME_MAX in O1.
  split_and!; [done|done|done|lia].
Qed.

Lemma dir_step_ok st e cl pos epc : lfn_ok st -> 0 <= cl < 2 ^ 32 -> 0 <= pos < epc ->
  match dir_step st e cl pos with inl st' => lfn_ok st' | inr i => info_ok epc i end.
Proof.
  intros Hst Hcl Hpos. assert (Hd : lfn_ok (drop_lfn st)) by (destruct Hst as (?&?&?&?); split_and!; simpl; done || lia).
  unfold dir_step. destruct (_ =? 0xE5); [done|]. destruct (_ =? 0x0F); [by apply lfn_step_ok|]. destruct (negb _); [done|]. destruct (_ && _); [done|].
  unfold entry_info. destruct (entry_names st e) as [sh nm] eqn:En. apply entry_names_fit in En as (N1 & N2 & N3 & N4); [|done].
  pose proof (le16_range e 20). pose proof (le16_range e 26). pose proof (le32_range e 28). pose proof (le16_range e 24). pose proof (le16_range e 22).
  assert (Hf : 0 <= (le16 e 20 .<< 16) .| le16 e 26 < 2 ^ 32) by (rewrite Z.lor_comm, lor_add by lia; lia).
  unfold info_ok. cbn. split_and!; try done; try lia; try apply byte_at_u8; split_ifs; lia.
Qed.

Lemma lfn_start_ok : lfn_ok lfn_start.
Proof. split_and!; [done|by apply Forall_replicate|done..]. Qed.

(** ** Reading only *)
Section Scan.
Context {S : Type} `{DiskOk S} (g : geo) (Hg : geo_ok g).
Implicit Types s : fs S.

(** Only the cache of the disk may have changed. *)
Definition quiet s s' : Prop := exists d, s' = set_disk d s /\ dk_inv d /\ same_view s s'.

Lemma quiet_refl s : dk_inv (disk s) -> quiet s s.
Proof. intros Hi. exists (disk s). by destruct s. Qed.
Lemma quiet_trans s1 s2 s3 : quiet s1 s2 -> quiet s2 s3 -> quiet s1 s3.
Proof. intros (d & -> & Hd & Hv) (d' & -> & Hd' & Hv'). exists d'. split_and!; [done|done|]. intros l. by rewrite Hv', Hv. Qed.
Lemma quiet_inv s s' : quiet s s' -> dk_inv (disk s').
Proof. by intros (d & -> & Hd & _). Qed.

(** The outcome of code that only reads: an error with [E], or a result with
    [P]. *)
Definition outcome {A} (E : Z -> Prop) s (P : A -> Prop) (s' : fs S) (r : Z + A) : Prop :=
  quiet s s' /\ match r with inl e => E e | inr a => P a end.

Lemma reads_bind {A B} (m : fatM S A) (k : A -> fatM S B) E s P Q :
  wp m s (outcome E s P) -> (forall a s1, P a -> quiet s s1 -> wp (k a) s1 (outcome E s1 Q)) -> wp (m ≫= k) s (outcome E s Q).
Proof.
  intros Hm Hk. apply wp_bind. eapply wp_mono; [exact Hm|]. intros s1 [e|a] [Hq Hr]; [by split|].
  eapply wp_mono; [by apply Hk|]. intros s2 r [Hq2 Hr2]. split; [by eapply quiet_trans|done].
Qed.

Lemma reads_ret {A} (a : A) E s (P : A -> Prop) : dk_inv (disk s) -> P a -> wp (mret a) s (outcome E s P).
Proof. intros Hi Hp. apply wp_ret. split; [by apply quiet_refl|done]. Qed.
Lemma reads_fail {A} e (E : Z -> Prop) s (P : A -> Prop) : dk_inv (disk s) -> E e -> wp (fail e) s (outcome E s P).
Proof. intros Hi Hp. apply wp_fail. split; [by apply quiet_refl|done]. Qed.

(** Any errno. *)
Abbreviation reads := (outcome (fun e => e < 0)).

Lemma read_sector_reads {A} lba (f : sector -> A) s : dk_inv (disk s) -> 0 <= lba ->
  wp (read_sector lba f) s (reads s (fun a => exists d, is_sector d /\ a = f d)).
Proof.
  intros Hi Hl. wp_apply (read_sector_wp lba f s Hi Hl). intros s' r (d & -> & Hd & Hv & Hr).
  split; [by exists d|]. destruct r; [by destruct Hr|]. destruct Hr as [_ ->]. exists (dk_view (disk s) lba). split; [by apply dk_view_sector|done].
Qed.

(** A link is a cluster of the volume. *)
Lemma fat_next_reads c s : dk_inv (disk s) -> wp (fat_next g c) s (reads s (fun o => match o with Some n => in_vol g n | None => True end)).
Proof.
  intros Hi. destruct (decide (in_vol g c)) as [Hc|Hc].
  - wp_apply (fat_next_wp g Hg c s Hi Hc). intros s' r (d & -> & Hd & Hv & Hr). split; [by exists d|].
    destruct r as [e|[n|]]; [by destruct Hr|by destruct Hr|done].
  - unfold fat_next. replace ((c <? 2) || (clusters g + 2 <=? c)) with true by (unfold in_vol in Hc; lia). apply reads_fail; done.
Qed.

(** *** The cursor *)
Definition cur_ok (c : fat32_dircur) : Prop :=
  0 <= c_cluster c < 2 ^ 32 /\ 0 <= c_pos c < entries_per_cluster g /\ 0 <= c_steps c <= clusters g.
Definition ahead_of (c : fat32_dircur) : Z := (clusters g - c_steps c + 1) * entries_per_cluster g - c_pos c.

Lemma epc_range : 16 <= entries_per_cluster g <= 2048.
Proof. rewrite (go_epc g Hg). pose proof (spc_range g Hg). lia. Qed.

Lemma ahead_pos c : cur_ok c -> 1 <= ahead_of c.
Proof. intros (_ & Hp & Hs). pose proof epc_range. unfold ahead_of. nia. Qed.

Lemma cur_init_ok first : 0 <= first < 2 ^ 32 -> cur_ok (cur_init first).
Proof. intros Hf. pose proof epc_range. pose proof (go_clusters g Hg). split_and!; simpl; lia. Qed.

Lemma dir_fuel_ahead c : cur_ok c -> Z.of_nat (dir_fuel g c) = ahead_of c + 1.
Proof. intros Hc. pose proof (ahead_pos c Hc). unfold dir_fuel, ahead_of in *. lia. Qed.

Lemma ent_lba_nonneg c : 0 <= c_pos c -> 0 <= ent_lba g c.
Proof.
  intros Hp. unfold ent_lba, cluster_lba. pose proof (u32_is_u32 (c_cluster c - 2)) as Hu. unfold is_u32 in Hu.
  pose proof (data_positive g Hg). destruct (go_spc g Hg) as [Hs _]. rewrite Z.shiftl_mul_pow2 by lia.
  assert (0 <= c_pos c .>> 4) by (apply Z.shiftr_nonneg; lia). pose proof (Z.pow_nonneg 2 (spc_shift g)). nia.
Qed.

Lemma cur_peek_reads c s : dk_inv (disk s) -> cur_ok c -> wp (cur_peek g c) s (reads s (fun _ => True)).
Proof.
  intros Hi (_ & Hp & _). unfold cur_peek. destruct (c_cluster c =? 0); [by apply reads_ret|].
  wp_apply (read_sector_reads _ _ _ Hi (ent_lba_nonneg c (proj1 Hp))). intros s' r [Hq Hr]. split; [done|]. by destruct r.
Qed.

(** Moving on takes one entry off what is ahead. *)
Lemma cur_advance_reads c s : dk_inv (disk s) -> cur_ok c ->
  wp (cur_advance g c) s (reads s (fun c' => cur_ok c' /\ ahead_of c' = ahead_of c - 1)).
Proof.
  intros Hi (Hc & Hp & Hs). pose proof epc_range as He. unfold cur_advance. destruct (Z.ltb_spec (c_pos c + 1) (entries_per_cluster g)).
  - apply reads_ret; [done|]. unfold cur_ok, ahead_of. simpl. split_and!; lia.
  - destruct (Z.ltb_spec (clusters g) (c_steps c + 1)); [by apply reads_fail|].
    eapply reads_bind; [by apply fat_next_reads|]. intros n s1 Hn Hq. apply reads_ret; [by eapply quiet_inv|].
    pose proof (go_clusters g Hg) as Hcl. unfold FAT32_MAX_CLUSTERS in Hcl. unfold cur_ok, ahead_of. simpl. split_and!; try nia.
    all: destruct n as [n|]; simpl; [unfold in_vol in Hn|]; lia.
Qed.

(** *** dir_next and what is built on it *)
Definition next_ok (c : fat32_dircur) (r : fat32_dircur * option fat32_info) : Prop :=
  cur_ok r.1 /\ match r.2 with Some i => info_ok (entries_per_cluster g) i /\ ahead_of r.1 < ahead_of c | None => True end.

Lemma next_loop_reads fuel st c s : dk_inv (disk s) -> cur_ok c -> lfn_ok st -> ahead_of c <= Z.of_nat fuel ->
  wp (next_loop g fuel st c) s (reads s (next_ok c)).
Proof.
  revert st c s. induction fuel as [|fuel IH]; intros st c s Hi Hc Hst Hf; [pose proof (ahead_pos c Hc); lia|]. cbn [next_loop].
  eapply reads_bind; [by apply cur_peek_reads|]. intros [e|] s1 _ Hq1; [|apply reads_ret; [by eapply quiet_inv|done]].
  destruct (byte_at e 0 =? 0).
  { apply reads_ret; [by eapply quiet_inv|]. split; [|done]. destruct Hc as (?&?&?). by split_and!; simpl; lia. }
  eapply reads_bind; [apply cur_advance_reads; [by eapply quiet_inv|done]|]. intros c2 s2 [Hc2 Ha] Hq2.
  pose proof Hc as (Hcl & Hp & _). pose proof (dir_step_ok st e (c_cluster c) (c_pos c) _ Hst Hcl Hp) as Hstep.
  destruct (dir_step _ _ _ _) as [st'|i].
  - eapply wp_mono; [apply IH; [by eapply quiet_inv|done|done|lia]|]. intros s3 r [Hq3 Hr]. split; [done|]. destruct r as [|[c3 [i|]]]; [done| |done].
    destruct Hr as (H1 & H2 & H3). split; [done|]. split; [done|]. simpl in *. lia.
  - apply reads_ret; [by eapply quiet_inv|]. split; [done|]. split; [done|]. simpl. lia.
Qed.

Lemma dir_next_reads c s : dk_inv (disk s) -> cur_ok c -> wp (dir_next g c) s (reads s (next_ok c)).
Proof. intros Hi Hc. apply next_loop_reads; [done|done|apply lfn_start_ok|]. rewrite dir_fuel_ahead by done. lia. Qed.

Lemma find_loop_reads fuel c name s : dk_inv (disk s) -> cur_ok c -> ahead_of c <= Z.of_nat fuel ->
  wp (find_loop g fuel c name) s (reads s (fun i => info_ok (entries_per_cluster g) i /\ (name_eq (i_name i) name || name_eq (i_short i) name = true))).
Proof.
  revert c s. induction fuel as [|fuel IH]; intros c s Hi Hc Hf; [pose proof (ahead_pos c Hc); lia|]. cbn [find_loop].
  eapply reads_bind; [by apply dir_next_reads|]. intros [c1 [i|]] s1 [Hc1 Hn] Hq; [|apply reads_fail; [by eapply quiet_inv|done]]. simpl in *.
  destruct (name_eq (i_name i) name || name_eq (i_short i) name) eqn:E; [apply reads_ret; [by eapply quiet_inv|by destruct Hn]|].
  apply IH; [by eapply quiet_inv|done|]. destruct Hn. lia.
Qed.

Lemma dir_find_reads first name s : dk_inv (disk s) -> 0 <= first < 2 ^ 32 ->
  wp (dir_find g first name) s (reads s (fun i => info_ok (entries_per_cluster g) i /\ (name_eq (i_name i) name || name_eq (i_short i) name = true))).
Proof.
  intros Hi Hf. pose proof (cur_init_ok _ Hf) as Hc. apply find_loop_reads; [done|done|]. rewrite dir_fuel_ahead by done. lia.
Qed.

Lemma path_skip_len p : (length (path_skip p) <= length p)%nat.
Proof. induction p as [|c p IH]; [done|]. simpl. split_ifs; simpl; lia. Qed.
Lemma path_part_len p part rest : path_part p = (part, rest) -> (length part + length rest = length p)%nat.
Proof.
  revert part rest. induction p as [|c p IH]; intros part rest; simpl; [by intros [=<- <-]|]. destruct (c =? 47); [by intros [=<- <-]|].
  destruct (path_part p) as [p1 r1]. intros [=<- <-]. simpl. specialize (IH _ _ eq_refl). lia.
Qed.
Lemma path_part_pos p part rest : path_skip p <> [] -> path_part (path_skip p) = (part, rest) -> (length rest < length p)%nat.
Proof.
  intros Hne He. pose proof (path_skip_len p). pose proof (path_part_len _ _ _ He). enough (part <> []) by (destruct part; simpl in *; [done|lia]).
  clear - Hne He. induction p as [|c p IH]; [done|]. simpl in *. destruct (c =? 47) eqn:E; [by apply IH|]. simpl in He. rewrite E in He.
  destruct (path_part p). by injection He as <- _.
Qed.

Lemma root_info_ok : info_ok (entries_per_cluster g) (root_info g).
Proof.
  pose proof epc_range. pose proof (go_root g Hg) as Hr. pose proof (go_clusters g Hg) as Hc. unfold FAT32_MAX_CLUSTERS in Hc.
  unfold info_ok, root_info. cbn. split_and!; try constructor; try lia; done.
Qed.

Lemma lookup_loop_reads fuel p i s : dk_inv (disk s) -> info_ok (entries_per_cluster g) i -> (length p < fuel)%nat ->
  wp (lookup_loop g fuel p i) s (reads s (info_ok (entries_per_cluster g))).
Proof.
  revert p i s. induction fuel as [|fuel IH]; intros p i s Hi Hok Hf; [lia|]. cbn [lookup_loop].
  destruct (path_skip p) as [|c p'] eqn:Ep; [by apply reads_ret|]. destruct (path_part (c :: p')) as [part rest] eqn:Epp.
  assert (Hrest : (length rest < length p)%nat) by (apply (path_part_pos p part rest); by rewrite Ep).
  destruct (FAT32_NAME_MAX <? _); [by apply reads_fail|]. destruct (bool_decide _); [apply IH; [done|done|lia]|].
  destruct (negb _); [by apply reads_fail|]. eapply reads_bind; [apply dir_find_reads; [done|by apply Hok]|].
  intros i' s1 [Hok' _] Hq. apply IH; [by eapply quiet_inv|done|lia].
Qed.

Lemma readdir_loop_reads fuel c next index node s : dk_inv (disk s) -> cur_ok c -> ahead_of c <= Z.of_nat fuel ->
  wp (readdir_loop g fuel c next index node) s (reads s (fun r => n_info r.1 = n_info node /\ rd_valid r.1 = true /\ cur_ok (rd_cur r.1) /\
    match r.2 with Some i => info_ok (entries_per_cluster g) i | None => True end)).
Proof.
  revert c next s. induction fuel as [|fuel IH]; intros c next s Hi Hc Hf; [pose proof (ahead_pos c Hc); lia|]. cbn [readdir_loop].
  eapply reads_bind; [by apply dir_next_reads|]. intros [c1 [i|]] s1 [Hc1 Hn] Hq; [|apply reads_ret; [by eapply quiet_inv|done]]. simpl in *.
  destruct (next =? index); [apply reads_ret; [by eapply quiet_inv|by destruct Hn]|].
  apply IH; [by eapply quiet_inv|done|]. destruct Hn. lia.
Qed.

(** The node of a directory: its entry, and its saved cursor when it has one. *)
Definition node_ok (n : fat32_node) : Prop :=
  info_ok (entries_per_cluster g) (n_info n) /\ (rd_valid n = true -> cur_ok (rd_cur n)).

Lemma fat32_readdir_reads node index s : dk_inv (disk s) -> node_ok node ->
  wp (fat32_readdir g node index) s (reads s (fun r => node_ok r.1 /\ n_info r.1 = n_info node /\ match r.2 with Some i => info_ok (entries_per_cluster g) i | None => True end)).
Proof.
  intros Hi [Hn Hrd]. unfold fat32_readdir. destruct (negb _); [by apply reads_fail|].
  assert (Hgo : forall c k, cur_ok c -> wp (readdir_loop g (dir_fuel g c) c k index node) s (reads s (fun r => node_ok r.1 /\ n_info r.1 = n_info node /\ match r.2 with Some i => info_ok (entries_per_cluster g) i | None => True end))).
  { intros c k Hc. eapply wp_mono; [apply readdir_loop_reads; [done|done|rewrite dir_fuel_ahead by done; lia]|].
    intros s' r [Hq Hr]. split; [done|]. destruct r as [|[n o]]; [done|]. destruct Hr as (H1 & H2 & H3 & H4). simpl in *.
    split; [split; [by rewrite H1|done]|done]. }
  destruct (rd_valid node) eqn:Ev; [destruct (rd_next node <=? index)|]; simpl; apply Hgo.
  - by apply Hrd.
  - apply cur_init_ok, Hn.
  - apply cur_init_ok, Hn.
Qed.

(** *** Short names *)
Lemma short_loop_reads fuel c raw s : dk_inv (disk s) -> cur_ok c -> ahead_of c <= Z.of_nat fuel -> wp (short_loop g fuel c raw) s (reads s (fun _ => True)).
Proof.
  revert c s. induction fuel as [|fuel IH]; intros c s Hi Hc Hf; [pose proof (ahead_pos c Hc); lia|]. cbn [short_loop].
  eapply reads_bind; [by apply cur_peek_reads|]. intros [e|] s1 _ Hq1; [|apply reads_ret; [by eapply quiet_inv|done]].
  destruct (byte_at e 0 =? 0); [apply reads_ret; [by eapply quiet_inv|done]|]. destruct (_ && _); [apply reads_ret; [by eapply quiet_inv|done]|].
  eapply reads_bind; [apply cur_advance_reads; [by eapply quiet_inv|done]|]. intros c2 s2 [Hc2 Ha] Hq2. apply IH; [by eapply quiet_inv|done|lia].
Qed.

(** The name chosen is one of the numbered ones. *)
Lemma tail_loop_reads fuel n first sg s : dk_inv (disk s) -> 0 <= first < 2 ^ 32 ->
  wp (tail_loop g fuel n first sg) s (reads s (fun sg' => exists k, n <= k < n + Z.of_nat fuel /\ sg' = with_raw sg (tail_name sg k))).
Proof.
  intros Hi Hf. revert n s Hi. induction fuel as [|fuel IH]; intros n s Hi; cbn [tail_loop]; [by apply reads_fail|].
  eapply reads_bind; [|intros found s1 _ Hq].
  { pose proof (cur_init_ok _ Hf) as Hc. apply short_loop_reads; [done|done|]. rewrite dir_fuel_ahead by done. lia. }
  pose proof (quiet_inv _ _ Hq) as Hi1. destruct found; simpl negb; cbv iota.
  - wp_apply (IH (n + 1) s1 Hi1). intros s2 r [Hq2 Hr]. split; [done|]. destruct r; [done|]. destruct Hr as (k & Hk & ->). exists k. split; [lia|done].
  - apply reads_ret; [done|]. exists n. split; [lia|done].
Qed.
End Scan.
