(* ===== verification/FatList.v ===== *)
(** * fat32.c: a directory as a list of entries

    The slots of a directory are the 32-byte entries of the clusters of its
    chain ([dir_slots]); [listing] is the list of its visible entries. The
    cursor operations walk the slots, dir_next takes the entries of the
    listing one after the other, dir_find is a search in it and fat32_readdir
    indexes it, also when it continues at a saved cursor. *)
From S2P Require Import Prelude CString Blk Disk Fat FatTab FatFile FatIO FatName FatDir FatScan.

Open Scope tach_scope.

(** The visible entries among [slots], with the long name collected so far. *)
Fixpoint listing (st : lfn_st) (slots : list (Z * Z * list Z)) : list fat32_info :=
  match slots with
  | [] => []
  | (cl, pos, e) :: slots' =>
      if byte_at e 0 =? 0 then []
      else match dir_step st e cl pos with
           | inl st => listing st slots'
           | inr i => i :: listing lfn_start slots'
           end
  end.

Definition matches (name : list Z) (i : fat32_info) : bool := name_eq (i_name i) name || name_eq (i_short i) name.

(** The first entry that has the name. *)
Fixpoint find_name (name : list Z) (l : list fat32_info) : option fat32_info :=
  match l with
  | [] => None
  | i :: l' => if matches name i then Some i else find_name name l'
  end.

Section List.
Context {S : Type} `{DiskOk S} (g : geo) (Hg : geo_ok g).
Implicit Types s : fs S.
Abbreviation view_ s := (dk_view (disk s)).
Abbreviation epc := (entries_per_cluster g).

(** Slot number [k] of the directory with chain [l]. *)
Definition slot_lba (l : list Z) (k : Z) : Z := clba g (l !!! idx (k / epc)) + (k mod epc) / 16.
Definition slot_ent s (l : list Z) (k : Z) : list Z := take 32 (drop (Z.to_nat (((k mod epc) mod 16) * 32)) (view_ s (slot_lba l k))).
Definition slot_at s (l : list Z) (k : Z) : Z * Z * list Z := (l !!! idx (k / epc), k mod epc, slot_ent s l k).
Definition nslots (l : list Z) : Z := Z.of_nat (length l) * epc.
Definition slots_from s (l : list Z) (k : Z) : list (Z * Z * list Z) := slot_at s l <$> seqZ k (nslots l - k).
Definition dir_slots s (l : list Z) : list (Z * Z * list Z) := slots_from s l 0.

Lemma slots_from_cons s l k : k < nslots l -> slots_from s l k = slot_at s l k :: slots_from s l (k + 1).
Proof. intros Hk. unfold slots_from. rewrite seqZ_cons by lia. simpl. repeat f_equal; lia. Qed.
Lemma slots_from_end s l k : nslots l <= k -> slots_from s l k = [].
Proof. intros Hk. unfold slots_from. by rewrite seqZ_nil by lia. Qed.

Lemma same_view_slots s s' l k : same_view s s' -> slots_from s' l k = slots_from s l k.
Proof. intros Hv. unfold slots_from, slot_at, slot_ent. apply list_fmap_ext. intros _ x _. by rewrite Hv. Qed.

Lemma quiet_chain s s' c l : quiet s s' -> chain g s c l -> chain g s' c l.
Proof. intros (d & -> & _ & Hv). apply chain_same. intros x _. by apply same_view_fat. Qed.

(** *** The cursor at slot [k] *)
Definition cur_ix (l : list Z) (k : Z) (c : fat32_dircur) : Prop :=
  0 <= k <= nslots l /\ c_cluster c = (if k <? nslots l then l !!! idx (k / epc) else 0) /\ c_pos c = k mod epc /\ 0 <= c_steps c <= k / epc.

Section Chain.
Context (first : Z) (l : list Z).

Lemma ix_div k : 0 <= k < nslots l -> 0 <= k / epc < Z.of_nat (length l) /\ 0 <= k mod epc < epc /\ k = epc * (k / epc) + k mod epc.
Proof.
  intros Hk. pose proof (epc_range g Hg). pose proof (Z.div_mod k epc ltac:(lia)). pose proof (Z.mod_pos_bound k epc ltac:(lia)).
  unfold nslots in Hk. split_and!; try lia; [apply Z.div_pos; lia|apply Z.div_lt_upper_bound; lia].
Qed.

Lemma ix_lookup s k : chain g s first l -> 0 <= k < nslots l -> exists x, l !! idx (k / epc) = Some x /\ l !!! idx (k / epc) = x /\ in_vol g x.
Proof.
  intros Hl Hk. destruct (ix_div k Hk) as [Hd _]. destruct (lookup_lt_is_Some_2 l (idx (k / epc))) as [x Hx]; [unfold idx; lia|].
  exists x. split_and!; [done|by apply list_lookup_total_correct|by eapply chain_lookup_in].
Qed.

Lemma ent_lba_ix s k c : chain g s first l -> cur_ix l k c -> k < nslots l ->
  ent_lba g c = slot_lba l k /\ 0 <= ent_lba g c < dk_sectors /\ ent_off c = Z.to_nat (((k mod epc) mod 16) * 32).
Proof.
  intros Hl (Hk & Hcl & Hp & _) Hlt. destruct (ix_lookup s k Hl ltac:(lia)) as (x & Hx & Hxt & Hv).
  destruct (ix_div k ltac:(lia)) as (_ & Hm & _). replace (k <? nslots l) with true in Hcl by lia.
  assert (E : ent_lba g c = slot_lba l k).
  { unfold ent_lba, slot_lba. rewrite Hcl, Hp, Hxt, (cluster_lba_eq g Hg) by done. f_equal. by rewrite Z.shiftr_div_pow2. }
  split_and!; [done| | |].
  - rewrite E. unfold slot_lba. rewrite Hxt. pose proof (data_positive g Hg). unfold clba. unfold in_vol in Hv. pose proof (spc_range g Hg).
    assert (0 <= (k mod epc) / 16) by dlia. nia.
  - rewrite E. unfold slot_lba. rewrite Hxt. eapply (in_cluster_range g Hg x); [done|]. unfold in_cluster. rewrite (go_epc g Hg) in *. dlia.
  - unfold ent_off. rewrite Hp. do 2 f_equal. apply (land_low_mask _ 4). lia.
Qed.

(** Errors only when the disk fails. *)
Abbreviation walks := (outcome (fun e => e < 0 /\ ~ dk_reliable)).

Lemma cur_peek_ix s k c : dk_inv (disk s) -> chain g s first l -> cur_ix l k c ->
  wp (cur_peek g c) s (walks s (fun o => o = if k <? nslots l then Some (slot_ent s l k) else None)).
Proof.
  intros Hi Hl Hix. unfold cur_peek. destruct (Z.ltb_spec k (nslots l)) as [Hlt|Hge].
  - destruct (ent_lba_ix s k c Hl Hix Hlt) as (E & Hr & Eo). destruct Hix as (Hk & Hcl & _). replace (k <? nslots l) with true in Hcl by lia.
    destruct (ix_lookup s k Hl ltac:(lia)) as (x & _ & Hxt & Hv). replace (c_cluster c =? 0) with false by (unfold in_vol in Hv; lia).
    wp_apply (read_sector_wp _ _ s Hi (proj1 Hr)). intros s' r (d & -> & Hd & Hsv & Hx). split; [by exists d|].
    destruct r; [by destruct Hx as [He Hn]; split; [|apply Hn, Hr]|]. destruct Hx as [_ ->]. unfold slot_ent. by rewrite E, Eo.
  - destruct Hix as (Hk & Hcl & _). replace (k <? nslots l) with false in Hcl by lia. rewrite Hcl. by apply reads_ret.
Qed.

Lemma cur_advance_ix s k c : dk_inv (disk s) -> chain g s first l -> cur_ix l k c -> k < nslots l ->
  wp (cur_advance g c) s (walks s (cur_ix l (k + 1))).
Proof.
  intros Hi Hl Hix Hlt. pose proof (epc_range g Hg) as He. pose proof Hix as (Hk & Hcl & Hp & Hs). replace (k <? nslots l) with true in Hcl by lia.
  destruct (ix_div k ltac:(lia)) as (Hd & Hm & Hdm). unfold cur_advance. destruct (Z.ltb_spec (c_pos c + 1) epc) as [Hin|Hout].
  - apply reads_ret; [done|].
    assert (Hq : (k + 1) / epc = k / epc /\ (k + 1) mod epc = k mod epc + 1).
    { split; [symmetry; apply (Z.div_unique _ _ _ (k mod epc + 1)); lia|symmetry; apply (Z.mod_unique _ _ (k / epc)); lia]. }
    destruct Hq as [Q1 Q2]. unfold cur_ix. rewrite Q1, Q2. simpl. replace (k + 1 <? nslots l) with true.
    + split_and!; try lia; done.
    + symmetry. apply Z.ltb_lt. unfold nslots. nia.
  - assert (Hq : (k + 1) / epc = k / epc + 1 /\ (k + 1) mod epc = 0).
    { split; [symmetry; apply (Z.div_unique _ _ _ 0); lia|symmetry; apply (Z.mod_unique _ _ (k / epc + 1)); lia]. }
    destruct Hq as [Q1 Q2]. pose proof (chain_len g Hg _ _ _ Hl) as Hlen. replace (clusters g <? c_steps c + 1) with false by lia.
    destruct (ix_lookup s k Hl ltac:(lia)) as (x & Hx & Hxt & Hv). rewrite Hcl, Hxt.
    apply wp_bind. wp_apply (fat_next_chain g Hg s first l _ x Hi Hl Hx). intros s1 r (d & -> & Hdi & Hsv & Hr). destruct r as [e|o].
    { split; [by exists d|done]. }
    apply wp_ret. split; [by exists d|]. subst o. unfold cur_ix. rewrite Q1, Q2. simpl.
    replace (idx (k / epc + 1)) with (Datatypes.S (idx (k / epc))) by (unfold idx; lia).
    destruct (Z.ltb_spec (k + 1) (nslots l)) as [Hn|Hn].
    + destruct (lookup_lt_is_Some_2 l (Datatypes.S (idx (k / epc)))) as [y Hy]; [unfold idx, nslots in *; nia|].
      rewrite Hy, (list_lookup_total_correct _ _ _ Hy). split_and!; try lia; done.
    + rewrite lookup_ge_None_2 by (unfold idx, nslots in *; nia). split_and!; try lia; done.
Qed.

(** *** dir_next *)

(** [c] is a cursor with the entries [L] still to come. *)
Definition cur_list s (c : fat32_dircur) (L : list fat32_info) : Prop :=
  (exists k, cur_ix l k c /\ L = listing lfn_start (slots_from s l k)) \/ (c_cluster c = 0 /\ cur_ok g c /\ L = []).

Definition next_post s (L : list fat32_info) (r : fat32_dircur * option fat32_info) : Prop :=
  cur_list s r.1 (tail L) /\ r.2 = head L.

Lemma cur_list_view s s' c L : same_view s s' -> cur_list s' c L <-> cur_list s c L.
Proof. intros Hv. unfold cur_list. by setoid_rewrite (same_view_slots s s' l); [|done]. Qed.

Lemma cur_ix_ok s k c : chain g s first l -> cur_ix l k c -> cur_ok g c.
Proof.
  intros Hl (Hk & Hcl & Hp & Hs). pose proof (chain_len g Hg _ _ _ Hl) as Hlen. pose proof (epc_range g Hg) as He.
  pose proof (go_clusters g Hg) as Hc. unfold FAT32_MAX_CLUSTERS in Hc.
  pose proof (Z.mod_pos_bound k epc ltac:(lia)). assert (k / epc <= Z.of_nat (length l)) by (apply Z.div_le_upper_bound; unfold nslots in Hk; lia).
  split_and!; try lia; rewrite Hcl; destruct (Z.ltb_spec k (nslots l)); try lia;
    destruct (ix_lookup s k Hl ltac:(lia)) as (x & _ & -> & Hv); unfold in_vol in Hv; lia.
Qed.

Lemma next_loop_ix fuel st k c s s0 : dk_inv (disk s) -> same_view s0 s -> chain g s first l -> cur_ix l k c -> nslots l - k < Z.of_nat fuel ->
  wp (next_loop g fuel st c) s (walks s (next_post s0 (listing st (slots_from s0 l k)))).
Proof.
  revert st k c s. induction fuel as [|fuel IH]; intros st k c s Hi Hs0 Hl Hix Hf; [destruct Hix; lia|]. cbn [next_loop].
  eapply reads_bind; [by apply cur_peek_ix|]. intros o s1 -> Hq1. pose proof (quiet_inv _ _ Hq1) as Hi1. destruct (Z.ltb_spec k (nslots l)) as [Hlt|Hge].
  - rewrite (slots_from_cons s0) by done. cbn [listing slot_at]. unfold slot_at.
    assert (Hent : slot_ent s l k = slot_ent s0 l k) by (unfold slot_ent; by rewrite Hs0). rewrite Hent.
    pose proof (cur_ix_ok s k c Hl Hix) as (_ & Hok2 & Hok3).
    destruct (byte_at (slot_ent s0 l k) 0 =? 0); [apply reads_ret; [done|]; split; [right; by split_and!; simpl; try lia|done]|].
    eapply reads_bind; [apply cur_advance_ix; [done|by eapply quiet_chain|done|done]|]. intros c2 s2 Hix2 Hq2. pose proof (quiet_inv _ _ Hq2) as Hi2.
    destruct Hix as (_ & Hcl & Hp & _). rewrite Hcl, Hp. replace (k <? nslots l) with true by lia.
    pose proof (quiet_trans _ _ _ Hq1 Hq2) as Hq. destruct (dir_step _ _ _ _) as [st'|i].
    + apply IH; [done| |by eapply quiet_chain|done|lia]. destruct Hq as (d & -> & _ & Hv). intros x. by rewrite Hv, Hs0.
    + apply reads_ret; [done|]. split; [|done]. left. exists (k + 1). done.
  - rewrite slots_from_end by lia. apply reads_ret; [done|]. split; [|done]. left. exists k. split; [done|]. by rewrite slots_from_end by lia.
Qed.

Lemma ahead_ix s k c : chain g s first l -> cur_ix l k c -> nslots l - k < Z.of_nat (dir_fuel g c).
Proof.
  intros Hl (Hk & _ & Hp & Hs). pose proof (chain_len g Hg _ _ _ Hl) as Hlen. pose proof (epc_range g Hg) as He.
  pose proof (Z.div_mod k epc ltac:(lia)) as Hdm. unfold dir_fuel, nslots. rewrite Hp. pose proof (Z.mod_pos_bound k epc ltac:(lia)). nia.
Qed.

Lemma ended_next c s s0 : dk_inv (disk s) -> c_cluster c = 0 -> cur_ok g c -> wp (dir_next g c) s (walks s (next_post s0 [])).
Proof.
  intros Hi Hz Hok. pose proof (dir_fuel_ahead g Hg c Hok) as Hf. pose proof (ahead_pos g Hg c Hok). unfold dir_next.
  destruct (dir_fuel g c) as [|fuel]; [lia|]. cbn [next_loop]. unfold cur_peek. rewrite Hz. simpl. apply wp_bind, wp_ret, wp_ret.
  split; [by apply quiet_refl|]. split; [by right|done].
Qed.

Lemma listing_len st es : (length (listing st es) <= length es)%nat.
Proof.
  revert st. induction es as [|[[? ?] ?] es IH]; intros st; [done|]. simpl. destruct (_ =? 0); [simpl; lia|].
  destruct (dir_step _ _ _ _) as [st'|i]; simpl; [specialize (IH st')|specialize (IH lfn_start)]; lia.
Qed.
End Chain.

Abbreviation walks := (outcome (fun e => e < 0 /\ ~ dk_reliable)).

(** A directory: no chain, or the clusters of its chain. *)
Definition dir_ok s (first : Z) (l : list Z) : Prop := first = 0 /\ l = [] \/ chain g s first l.
Definition dir_list s (l : list Z) : list fat32_info := listing lfn_start (dir_slots s l).

Lemma dir_ok_view s s' first l : same_view s s' -> dir_ok s first l -> dir_ok s' first l.
Proof. intros Hv [Hd|Hl]; [by left|right]. eapply chain_same; [|done]. intros x _. by apply same_view_fat. Qed.

Lemma cur_init_ix s first l : dir_ok s first l -> cur_ix l 0 (cur_init first).
Proof.
  intros [[-> ->]|Hl]; unfold cur_ix, nslots, cur_init; simpl.
  - split_and!; try done; lia.
  - pose proof (epc_range g Hg). pose proof (chain_head g _ _ _ Hl) as Hh. destruct l as [|x l]; [done|]. injection Hh as ->.
    rewrite Z.div_0_l, Z.mod_0_l by lia. replace (0 <? _) with true by (simpl; lia). split_and!; try done; simpl; lia.
Qed.

Lemma cur_init_list s first l : dir_ok s first l -> cur_list l s (cur_init first) (dir_list s l).
Proof. intros Hd. left. exists 0. split; [by eapply cur_init_ix|done]. Qed.

Lemma cur_list_nil s c L : cur_list [] s c L -> c_cluster c = 0 /\ cur_ok g c /\ L = [].
Proof.
  intros [(k & (Hk & Hcl & Hp & Hs) & ->)|?]; [|done]. unfold nslots in *. simpl in *. assert (k = 0) as -> by lia. pose proof (epc_range g Hg).
  rewrite Z.div_0_l in Hs by lia. rewrite Z.mod_0_l in Hp by lia. pose proof (go_clusters g Hg).
  assert (Hz : c_cluster c = 0) by done.
  split; [done|]. split; [|by rewrite slots_from_end by (unfold nslots; simpl; lia)]. split_and!; lia.
Qed.

Lemma dir_next_list first l c L s s0 : dk_inv (disk s) -> same_view s0 s -> dir_ok s first l -> cur_list l s0 c L ->
  wp (dir_next g c) s (walks s (next_post l s0 L)).
Proof.
  intros Hi Hs0 [[-> ->]|Hl] Hc.
  { apply cur_list_nil in Hc as (Hz & Hok & ->). by apply ended_next. }
  destruct Hc as [(k & Hix & ->)|(Hz & Hok & ->)]; [|by apply ended_next]. unfold dir_next.
  eapply next_loop_ix; try done. by eapply ahead_ix.
Qed.

Lemma cur_list_len s first l c L : dir_ok s first l -> cur_list l s c L -> (length L < dir_fuel g c)%nat.
Proof.
  intros Hd Hc. assert (Hend : c_cluster c = 0 /\ cur_ok g c /\ L = [] -> (length L < dir_fuel g c)%nat).
  { intros (Hz & Hok & ->). pose proof (dir_fuel_ahead g Hg c Hok) as Hf. pose proof (ahead_pos g Hg c Hok). simpl. lia. }
  destruct Hd as [[-> ->]|Hl]; [apply Hend; by eapply cur_list_nil|]. destruct Hc as [(k & Hix & ->)|?]; [|by apply Hend].
  pose proof (ahead_ix first l s k c Hl Hix) as Ha. destruct Hix as (Hk & _).
  pose proof (listing_len lfn_start (slots_from s l k)) as Hlen. unfold slots_from in *. rewrite length_fmap, length_seqZ in Hlen. lia.
Qed.

(** *** dir_find *)
Lemma find_loop_list fuel first l name c L s s0 : dk_inv (disk s) -> same_view s0 s -> dir_ok s first l -> cur_list l s0 c L -> (length L < fuel)%nat ->
  wp (find_loop g fuel c name) s (outcome (fun e => e < 0 /\ (dk_reliable -> e = - ENOENT /\ find_name name L = None)) s (fun i => find_name name L = Some i)).
Proof.
  revert c L s. induction fuel as [|fuel IH]; intros c L s Hi Hs0 Hl Hc Hf; [lia|]. cbn [find_loop].
  apply wp_bind. wp_apply (dir_next_list first l c L s s0 Hi Hs0 Hl Hc). intros s1 [e|[c1 o]] [Hq Hr].
  { split; [done|]. destruct Hr. by split. }
  pose proof (quiet_inv _ _ Hq) as Hi1. destruct Hr as [Hc1 Ho]. simpl in Hc1, Ho. subst o. destruct L as [|i L]; simpl.
  - apply wp_fail. split; [done|]. split; [done|]. intros _. done.
  - fold (matches name i). destruct (matches name i); [by apply wp_ret|]. pose proof Hq as (d & _ & _ & Hv).
    assert (Hv0 : same_view s0 s1) by (intros x; by rewrite Hv, Hs0).
    simpl in Hf. wp_apply (IH c1 L s1 Hi1 Hv0 (dir_ok_view _ _ _ _ Hv Hl) Hc1 ltac:(lia)). intros s2 r [Hq2 Hr]. split; [by eapply quiet_trans|done].
Qed.

(** The search finds the first entry of the listing with the name; without a
    disk error the only failure is that there is none. *)
Lemma dir_find_list first l name s : dk_inv (disk s) -> dir_ok s first l ->
  wp (dir_find g first name) s (outcome (fun e => e < 0 /\ (dk_reliable -> e = - ENOENT /\ find_name name (dir_list s l) = None)) s
    (fun i => find_name name (dir_list s l) = Some i)).
Proof.
  intros Hi Hd. pose proof (cur_init_list s first l Hd) as Hc. eapply find_loop_list; try done. by eapply cur_list_len.
Qed.

(** *** fat32_readdir *)

(** A node of the directory whose saved cursor, if any, is where entry
    [rd_next] comes next. *)
Definition node_list s (l : list Z) (n : fat32_node) : Prop :=
  dir_ok s (i_first (n_info n)) l /\
  (rd_valid n = true -> 0 <= rd_next n <= Z.of_nat (length (dir_list s l)) /\ cur_list l s (rd_cur n) (drop (idx (rd_next n)) (dir_list s l))).

Lemma readdir_loop_list fuel l next index node c s s0 :
  dk_inv (disk s) -> same_view s0 s -> dir_ok s (i_first (n_info node)) l -> 0 <= next <= index -> next <= Z.of_nat (length (dir_list s0 l)) ->
  cur_list l s0 c (drop (idx next) (dir_list s0 l)) -> (length (dir_list s0 l) < idx next + fuel)%nat ->
  wp (readdir_loop g fuel c next index node) s (walks s (fun r => n_info r.1 = n_info node /\ r.2 = dir_list s0 l !! idx index /\
    rd_valid r.1 = true /\ 0 <= rd_next r.1 <= Z.of_nat (length (dir_list s0 l)) /\ cur_list l s0 (rd_cur r.1) (drop (idx (rd_next r.1)) (dir_list s0 l)))).
Proof.
  set (L := dir_list s0 l). revert next c s. induction fuel as [|fuel IH]; intros next c s Hi Hs0 Hd Hn Hlen Hc Hf; [unfold idx in Hf; lia|]. cbn [readdir_loop].
  apply wp_bind. wp_apply (dir_next_list _ l c _ s s0 Hi Hs0 Hd Hc). intros s1 [e|[c1 o]] [Hq Hr]; [by split|].
  pose proof (quiet_inv _ _ Hq) as Hi1. destruct Hr as [Hc1 Ho]. simpl in Hc1, Ho. rewrite head_lookup, lookup_drop, Nat.add_0_r in Ho.
  assert (Htl : tail (drop (idx next) L) = drop (idx (next + 1)) L).
  { replace (idx (next + 1)) with (idx next + 1)%nat by (unfold idx; lia). rewrite <- drop_drop. by destruct (drop (idx next) L). }
  rewrite Htl in Hc1. subst o. destruct (L !! idx next) as [i|] eqn:Ei.
  - apply lookup_lt_Some in Ei as Hlt. destruct (Z.eqb_spec next index) as [->|Hne].
    + apply wp_ret. split; [done|]. simpl. split_and!; try done; unfold idx in *; lia.
    + pose proof Hq as (d & _ & _ & Hv). assert (Hv0 : same_view s0 s1) by (intros x; by rewrite Hv, Hs0).
      wp_apply (IH (next + 1) c1 s1 Hi1 Hv0 (dir_ok_view _ _ _ _ Hv Hd) ltac:(lia) ltac:(unfold idx in *; lia) Hc1 ltac:(unfold idx in *; lia)).
      intros s2 r [Hq2 Hr]. split; [by eapply quiet_trans|done].
  - apply lookup_ge_None in Ei as Hge. apply wp_ret. split; [done|]. simpl. split_and!; try done; [|lia|].
    + symmetry. apply lookup_ge_None. unfold idx in *. lia.
    + rewrite drop_ge in Hc1 |- * by (unfold idx in *; lia). done.
Qed.

Lemma fat32_readdir_list l node index s : dk_inv (disk s) -> node_list s l node -> has_attr FAT32_ATTR_DIR (n_info node) = true -> 0 <= index ->
  wp (fat32_readdir g node index) s (walks s (fun r => n_info r.1 = n_info node /\ r.2 = dir_list s l !! idx index /\ node_list s l r.1)).
Proof.
  intros Hi [Hd Hrd] Hdir Hix. unfold fat32_readdir. rewrite Hdir. simpl negb. cbv iota.
  assert (Hgo : forall c next, 0 <= next <= index -> next <= Z.of_nat (length (dir_list s l)) -> cur_list l s c (drop (idx next) (dir_list s l)) ->
    wp (readdir_loop g (dir_fuel g c) c next index node) s (walks s (fun r => n_info r.1 = n_info node /\ r.2 = dir_list s l !! idx index /\ node_list s l r.1))).
  { intros c next Hn Hlen Hc. pose proof (cur_list_len s _ l c _ Hd Hc) as Hf. rewrite length_drop in Hf.
    wp_apply (readdir_loop_list (dir_fuel g c) l next index node c s s Hi ltac:(done) Hd Hn Hlen Hc ltac:(unfold idx in *; lia)).
    intros s' r [Hq Hr]. split; [done|]. destruct r as [|[n o]]; [done|]. destruct Hr as (H1 & H2 & H3 & H4 & H5). simpl in *.
    split; [done|]. split; [done|]. split; [by rewrite H1|done]. }
  pose proof (cur_init_list s _ l Hd) as Hc0. destruct (rd_valid node) eqn:Ev; [destruct (Z.leb_spec (rd_next node) index)|]; simpl; apply Hgo; try lia.
  - by destruct (Hrd eq_refl) as [_ ?].
  - done.
  - done.
Qed.
End List.
