(* ===== verification/FatEnts.v ===== *)
(** * fat32.c: entries added to and removed from a directory's slots

    On slot lists alone: entries written over free slots appear in the
    listing, deleted slots disappear from it, and everything else keeps its
    place and its name. [tidy] is what the code assumes of a directory: no
    long-name entries left without their 8.3 entry, and nothing after the end
    mark. *)
From S2P Require Import Prelude CString Fat FatName FatUtf FatLfn FatScan FatList.

Open Scope tach_scope.

Abbreviation slot := (Z * Z * list Z)%type.
Definition mark (x : slot) : Z := byte_at x.2 0.

Fixpoint tidy (st : lfn_st) (es : list slot) : bool :=
  match es with
  | [] => lf_pending st =? 0
  | (cl, pos, e) :: es' =>
      if byte_at e 0 =? 0 then (lf_pending st =? 0) && forallb (fun x => mark x =? 0) es'
      else if byte_at e 0 =? 0xE5 then (lf_pending st =? 0) && tidy (drop_lfn st) es'
      else match dir_step st e cl pos with
           | inl st => tidy st es'
           | inr _ => tidy lfn_start es'
           end
  end.

(** ** States that cannot be told apart *)

(** Only the units of the slots accepted so far matter. *)
Definition lfn_eq (st st' : lfn_st) : Prop :=
  lf_pending st = lf_pending st' /\
  (lf_pending st = 0 \/ lf_slots st = lf_slots st' /\ lf_checksum st = lf_checksum st' /\
    forall k, (lf_pending st - 1) * 13 <= k < lf_slots st * 13 -> lf_units st !!! idx k = lf_units st' !!! idx k).

Lemma lfn_eq_zero st st' : lf_pending st = 0 -> lf_pending st' = 0 -> lfn_eq st st'.
Proof. intros E E'. split; [congruence|by left]. Qed.

Lemma lfn_step_eq st st' e : lfn_ok st -> lfn_ok st' -> lfn_eq st st' -> lfn_eq (lfn_step st e) (lfn_step st' e).
Proof.
  intros (L1 & _ & S1 & P1) (L2 & _ & S2 & P2) [Hp Hr]. pose proof (byte_at_u8 e 0) as Hb. unfold lfn_step.
  assert (Hd : lfn_eq (drop_lfn st) (drop_lfn st')) by by apply lfn_eq_zero.
  destruct (_ || _ || _); [done|]. destruct (negb (byte_at e 0 .& 0x40 =? 0)).
  - assert (Hs : 0 <= byte_at e 0 .& 0x3F) by (apply Z.land_nonneg; lia). set (slot := byte_at e 0 .& 0x3F) in *. clearbody slot.
    destruct ((slot =? 0) || (FAT32_LFN_SLOTS <? slot)) eqn:Es; [done|]. unfold FAT32_LFN_SLOTS in Es.
    split; [done|]. right. cbn. split_and!; try done. intros k Hk. rewrite !take_units_spec; try done; try lia.
    by replace (((slot - 1) * 13 <=? k) && (k <? slot * 13)) with true by lia.
  - rewrite <- Hp. destruct Hr as [Hz|(E1 & E2 & E3)].
    { rewrite Hz. replace (0 <? 2) with true by lia. done. }
    rewrite <- E2. destruct ((lf_pending st <? 2) || negb (byte_at e 0 =? lf_pending st - 1) || negb (byte_at e 13 =? lf_checksum st)) eqn:Es; [done|].
    split; [done|]. right. cbn. split_and!; try done. intros k Hk. rewrite !take_units_spec; try done; try lia. split_ifs; try done. apply E3. lia.
Qed.

Lemma entry_names_eq st st' e : lfn_ok st -> lfn_ok st' -> lfn_eq st st' -> entry_names st e = entry_names st' e.
Proof.
  intros (L1 & _ & S1 & P1) (L2 & _ & S2 & P2) [Hp Hr]. unfold entry_names. destruct (build_short_name e) as [sh nm]. rewrite <- Hp.
  destruct (Z.eqb_spec (lf_pending st) 1) as [E|]; [|done]. destruct Hr as [Hz|(E1 & E2 & E3)]; [lia|]. rewrite <- E2. destruct (_ =? _); [|done]. simpl.
  unfold utf16_to_utf8. rewrite <- E1.
  replace (take (Z.to_nat (lf_slots st * 13)) (lf_units st')) with (take (Z.to_nat (lf_slots st * 13)) (lf_units st)); [done|].
  apply list_eq. intros k. destruct (decide (Z.of_nat k < lf_slots st * 13)).
  - rewrite !lookup_take_lt by lia. rewrite !list_lookup_lookup_total_lt by lia. f_equal. specialize (E3 (Z.of_nat k) ltac:(lia)).
    unfold idx in E3. by rewrite Nat2Z.id in E3.
  - rewrite !lookup_take_ge by lia. done.
Qed.

Lemma dir_step_eq st st' e cl pos : lfn_ok st -> lfn_ok st' -> lfn_eq st st' ->
  match dir_step st e cl pos, dir_step st' e cl pos with
  | inl a, inl b => lfn_eq a b
  | inr i, inr j => i = j
  | _, _ => False
  end.
Proof.
  intros H1 H2 He. unfold dir_step. assert (Hd : lfn_eq (drop_lfn st) (drop_lfn st')) by by apply lfn_eq_zero.
  destruct (_ =? 0xE5); [done|]. destruct (_ =? 0x0F); [by apply lfn_step_eq|]. destruct (negb _); [done|]. destruct (_ && _); [done|].
  unfold entry_info. by rewrite (entry_names_eq st st').
Qed.

(** Positions that fit a cursor. *)
Definition slot_fits (x : slot) : Prop := 0 <= x.1.1 < 2 ^ 32 /\ 0 <= x.1.2 < 2048.

Lemma dir_step_lfn_ok st x : lfn_ok st -> slot_fits x -> match dir_step st x.2 x.1.1 x.1.2 with inl st' => lfn_ok st' | inr _ => True end.
Proof. intros Hs [H1 H2]. pose proof (dir_step_ok st x.2 x.1.1 x.1.2 2048 Hs H1 H2) as Hd. by destruct (dir_step _ _ _ _). Qed.

Lemma listing_eq st st' es : lfn_ok st -> lfn_ok st' -> lfn_eq st st' -> Forall slot_fits es -> listing st es = listing st' es /\ tidy st es = tidy st' es.
Proof.
  intros H1 H2 He Hf. revert st st' H1 H2 He. induction Hf as [|[[cl pos] e] es Hx Hf IH]; intros st st' H1 H2 He; simpl.
  { by destruct He as [-> _]. }
  pose proof (dir_step_eq st st' e cl pos H1 H2 He) as Hd. pose proof (dir_step_lfn_ok st _ H1 Hx) as O1. pose proof (dir_step_lfn_ok st' _ H2 Hx) as O2. simpl in O1, O2.
  pose proof He as [Hp _]. rewrite <- Hp.
  destruct (IH (drop_lfn st) (drop_lfn st')) as [_ T]; [by destruct H1 as (?&?&?&?); split_and!; simpl; done || lia|by destruct H2 as (?&?&?&?); split_and!; simpl; done || lia|by apply lfn_eq_zero|].
  destruct (byte_at e 0 =? 0); [done|]. rewrite <- T. destruct (dir_step st e cl pos) as [a|i], (dir_step st' e cl pos) as [b|j]; try done.
  - destruct (IH a b O1 O2 Hd) as [-> ->]. done.
  - subst j. done.
Qed.

(** ** Prefixes without an end mark *)
Fixpoint run_slots (st : lfn_st) (es : list slot) : lfn_st * list fat32_info :=
  match es with
  | [] => (st, [])
  | (cl, pos, e) :: es' =>
      match dir_step st e cl pos with
      | inl st => run_slots st es'
      | inr i => let '(st, l) := run_slots lfn_start es' in (st, i :: l)
      end
  end.

Lemma run_slots_ok st es : lfn_ok st -> Forall slot_fits es -> lfn_ok (run_slots st es).1.
Proof.
  intros Hs Hf. revert st Hs. induction Hf as [|[[cl pos] e] es Hx Hf IH]; intros st Hs; [done|]. simpl.
  pose proof (dir_step_lfn_ok st _ Hs Hx) as Hd. simpl in Hd. destruct (dir_step _ _ _ _) as [st'|i]; [by apply IH|].
  specialize (IH lfn_start lfn_start_ok). by destruct (run_slots lfn_start es).
Qed.

Lemma listing_app st a b : Forall (fun x => mark x <> 0) a -> listing st (a ++ b) = (run_slots st a).2 ++ listing (run_slots st a).1 b.
Proof.
  intros Ha. revert st. induction Ha as [|[[cl pos] e] a Hx Ha IH]; intros st; [done|]. unfold mark in Hx. simpl in *. replace (byte_at e 0 =? 0) with false by lia.
  destruct (dir_step _ _ _ _) as [st'|i]; [apply IH|]. rewrite IH. by destruct (run_slots lfn_start a).
Qed.

Lemma tidy_app st a b : Forall (fun x => mark x <> 0) a -> tidy st (a ++ b) = true -> tidy (run_slots st a).1 b = true.
Proof.
  intros Ha. revert st. induction Ha as [|[[cl pos] e] a Hx Ha IH]; intros st; [done|]. unfold mark in Hx. simpl in *. replace (byte_at e 0 =? 0) with false by lia.
  destruct (Z.eqb_spec (byte_at e 0) 0xE5) as [E|].
  - unfold dir_step. rewrite E. simpl. intros [_ Ht]%andb_true_iff. by apply IH.
  - destruct (dir_step _ _ _ _) as [st'|i]; [apply IH|]. intros Ht. specialize (IH lfn_start Ht). by destruct (run_slots lfn_start a).
Qed.

Lemma tidy_swap st a b b' : Forall (fun x => mark x <> 0) a -> tidy st (a ++ b) = true -> tidy (run_slots st a).1 b' = true -> tidy st (a ++ b') = true.
Proof.
  intros Ha. revert st. induction Ha as [|[[cl pos] e] a Hx Ha IH]; intros st; [done|]. unfold mark in Hx. simpl in *. replace (byte_at e 0 =? 0) with false by lia.
  destruct (Z.eqb_spec (byte_at e 0) 0xE5) as [E|].
  - unfold dir_step. rewrite E. simpl. intros [-> Ht]%andb_true_iff Hb. simpl. by apply IH.
  - destruct (dir_step _ _ _ _) as [st'|i]; [apply IH|]. intros Ht Hb. apply IH; [done|]. by destruct (run_slots lfn_start a).
Qed.

Lemma zeros_listing st es : forallb (fun x => mark x =? 0) es = true -> listing st es = [] /\ (lf_pending st = 0 -> tidy st es = true).
Proof.
  destruct es as [|[[cl pos] e] es]; simpl; [by intros _; split; [|intros ->]|]. unfold mark at 1. simpl. intros [-> Hz]%andb_true_iff.
  split; [done|]. intros ->. simpl. done.
Qed.

(** ** Deleted slots *)
Lemma deleted_run st es : lfn_ok st -> lf_pending st = 0 -> Forall (fun x => mark x = 0xE5) es -> Forall slot_fits es ->
  exists st', run_slots st es = (st', []) /\ lf_pending st' = 0 /\ lfn_ok st' /\ (forall b, tidy st (es ++ b) = tidy st' b).
Proof.
  intros Hs Hp He Hf. revert st Hs Hp. induction He as [|[[cl pos] e] es Hx He IH]; intros st Hs Hp; [by exists st|].
  apply Forall_cons in Hf as [Hx2 Hf]. unfold mark in Hx. simpl in Hx. simpl. unfold dir_step. rewrite Hx. simpl.
  assert (Hd : lfn_ok (drop_lfn st)) by (destruct Hs as (?&?&?&?); split_and!; simpl; done || lia).
  destruct (IH Hf (drop_lfn st) Hd eq_refl) as (st' & R1 & R2 & R3 & R4). exists st'. split_and!; [done|done|apply R3..|].
  intros b. rewrite R4, Hp. done.
Qed.

(** ** An entry written over free slots *)

(** Read with no long name pending, [n] is the entry [i]. *)
Definition gives (n : list slot) (i : fat32_info) : Prop :=
  forall st c, lfn_ok st -> lf_pending st = 0 -> listing st (n ++ c) = i :: listing lfn_start c /\ tidy st (n ++ c) = tidy lfn_start c.

Lemma used_steps st st' n c : Forall (fun x => mark x <> 0 /\ mark x <> 0xE5) n -> dir_steps st n = inl st' ->
  listing st (n ++ c) = listing st' c /\ tidy st (n ++ c) = tidy st' c.
Proof.
  intros Hn. revert st. induction Hn as [|[[cl pos] e] n [H0 H1] Hn IH]; intros st; simpl; [by intros [=->]|]. unfold mark in *. simpl in *.
  replace (byte_at e 0 =? 0) with false by lia. replace (byte_at e 0 =? 0xE5) with false by lia. destruct (dir_step st e cl pos) as [st1|]; [apply IH|done].
Qed.

Lemma gives_intro n cl pos e i :
  Forall (fun x => mark x <> 0 /\ mark x <> 0xE5) (n ++ [(cl, pos, e)]) ->
  (forall st, lfn_ok st -> lf_pending st = 0 -> exists st', dir_steps st n = inl st' /\ dir_step st' e cl pos = inr i) -> gives (n ++ [(cl, pos, e)]) i.
Proof.
  intros Hn Hst st c Hok Hp. apply Forall_app in Hn as [Hn Hx]. apply Forall_cons in Hx as [[H0 H1] _]. unfold mark in H0, H1. simpl in H0, H1.
  destruct (Hst st Hok Hp) as (st' & E1 & E2). rewrite <- app_assoc. destruct (used_steps st st' n ([(cl, pos, e)] ++ c) Hn E1) as [-> ->]. simpl.
  replace (byte_at e 0 =? 0) with false by lia. replace (byte_at e 0 =? 0xE5) with false by lia. by rewrite E2.
Qed.

(** Before a free slot, or at the end, no long name is pending. *)
Lemma tidy_pending st es : tidy st es = true -> (forall x, head es = Some x -> mark x = 0 \/ mark x = 0xE5) -> lf_pending st = 0.
Proof.
  destruct es as [|[[cl pos] e] es]; simpl; intros Ht Hh; [lia|]. destruct (Hh _ eq_refl) as [E|E]; unfold mark in E; simpl in E; rewrite E in Ht; simpl in Ht; lia.
Qed.

(** Over deleted slots: the entry comes between the others. *)
Lemma insert_deleted a r c n i : tidy lfn_start (a ++ r ++ c) = true -> Forall slot_fits (a ++ r ++ c) -> Forall (fun x => mark x <> 0) a ->
  Forall (fun x => mark x = 0xE5) r -> (r = [] -> c = []) -> gives n i ->
  exists l1 l2, listing lfn_start (a ++ r ++ c) = l1 ++ l2 /\ listing lfn_start (a ++ n ++ c) = l1 ++ i :: l2 /\ tidy lfn_start (a ++ n ++ c) = true.
Proof.
  intros Ht Hf Ha Hr Hrc Hn. apply Forall_app in Hf as [Fa Hf]. apply Forall_app in Hf as [Fr Fc].
  pose proof (run_slots_ok lfn_start a lfn_start_ok Fa) as Hok. pose proof (tidy_app _ _ _ Ha Ht) as Ht1.
  assert (Hp : lf_pending (run_slots lfn_start a).1 = 0).
  { eapply tidy_pending; [exact Ht1|]. intros x Hx. destruct r as [|y r]; [rewrite Hrc in Hx; done|]. injection Hx as <-. right. by apply Forall_cons in Hr as [? _]. }
  destruct (deleted_run _ r Hok Hp Hr Fr) as (st' & R1 & R2 & R3 & R4). destruct (Hn _ c Hok Hp) as [N1 N2].
  destruct (listing_eq st' lfn_start c R3 lfn_start_ok) as [L1 L2]; [by apply lfn_eq_zero|done|].
  assert (Hr0 : Forall (fun x => mark x <> 0) r) by (eapply Forall_impl; [exact Hr|]; simpl; intros; lia).
  exists (run_slots lfn_start a).2, (listing lfn_start c). split_and!.
  - rewrite listing_app by done. f_equal. rewrite listing_app, R1 by done. simpl. done.
  - rewrite listing_app by done. by rewrite N1.
  - eapply tidy_swap; [done|exact Ht|]. rewrite N2, <- L2, <- R4. exact Ht1.
Qed.

(** Over the end of the directory: the entry is the last one. *)
Lemma insert_tail a r z n i : tidy lfn_start (a ++ r) = true -> Forall slot_fits (a ++ r) -> Forall (fun x => mark x <> 0) a ->
  (exists d t, r = d ++ t /\ Forall (fun x => mark x = 0xE5) d /\ forall x, head t = Some x -> mark x = 0) -> gives n i ->
  forallb (fun x => mark x =? 0) z = true ->
  listing lfn_start (a ++ n ++ z) = listing lfn_start (a ++ r) ++ [i] /\ tidy lfn_start (a ++ n ++ z) = true.
Proof.
  intros Ht Hf Ha (d & t & -> & Hd & Hz) Hn Hzs. apply Forall_app in Hf as [Fa Hf]. apply Forall_app in Hf as [Fd Ft].
  pose proof (run_slots_ok lfn_start a lfn_start_ok Fa) as Hok. pose proof (tidy_app _ _ _ Ha Ht) as Ht1.
  assert (Hp : lf_pending (run_slots lfn_start a).1 = 0).
  { eapply tidy_pending; [exact Ht1|]. intros x Hx. destruct d as [|y d]; simpl in Hx; [left; by apply Hz|]. injection Hx as <-. right. by apply Forall_cons in Hd as [? _]. }
  destruct (deleted_run _ d Hok Hp Hd Fd) as (st' & R1 & _). destruct (Hn _ z Hok Hp) as [N1 N2].
  assert (Hd0 : Forall (fun x => mark x <> 0) d) by (eapply Forall_impl; [exact Hd|]; simpl; intros; lia).
  destruct (zeros_listing lfn_start z Hzs) as [Z1 Z2]. split.
  - rewrite !(listing_app _ a) by done. rewrite N1, Z1, <- app_assoc. f_equal. rewrite listing_app, R1 by done. simpl.
    replace (listing st' t) with (@nil fat32_info); [done|]. destruct t as [|[[cl pos] e] t]; [done|]. simpl. pose proof (Hz _ eq_refl) as E. unfold mark in E. simpl in E.
    by rewrite E.
  - eapply tidy_swap; [done|exact Ht|]. rewrite N2. by apply Z2.
Qed.

(** ** An entry deleted with the long-name entries before it *)
Definition is_lfn (x : slot) : bool := negb (mark x =? 0) && negb (mark x =? 0xE5) && (byte_at x.2 11 .& 0x3F =? 0x0F).

Lemma lfn_run st es : Forall (fun x => is_lfn x = true) es -> (run_slots st es).2 = [].
Proof.
  intros He. revert st. induction He as [|[[cl pos] e] es Hx He IH]; intros st; [done|]. unfold is_lfn, mark in Hx. simpl in Hx. simpl. unfold dir_step.
  replace (byte_at e 0 =? 0xE5) with false by lia. replace (byte_at e 11 .& 0x3F =? 0x0F) with true by lia. apply IH.
Qed.

Lemma pending_after_other st cl pos e st' : is_lfn (cl, pos, e) = false -> byte_at e 0 <> 0 -> dir_step st e cl pos = inl st' -> lf_pending st' = 0.
Proof.
  unfold is_lfn, mark, dir_step. simpl. intros Hl H0. destruct (byte_at e 0 =? 0xE5); [by intros [=<-]|]. replace (byte_at e 0 =? 0) with false in Hl by lia.
  simpl in Hl. rewrite Hl. destruct (negb _); [by intros [=<-]|]. destruct (_ && _); by intros [=<-].
Qed.

(** A prefix that does not end in a long-name entry leaves nothing pending. *)
Lemma run_pending es : Forall (fun x => mark x <> 0) es -> (forall x, last es = Some x -> is_lfn x = false) -> lf_pending (run_slots lfn_start es).1 = 0.
Proof.
  intros He Hl. assert (H : forall es st, lf_pending st = 0 \/ es <> [] -> Forall (fun x => mark x <> 0) es -> (forall x, last es = Some x -> is_lfn x = false) ->
    lf_pending (run_slots st es).1 = 0); [|by apply H; [left| |]].
  clear. induction es as [|[[cl pos] e] es IH]; intros st Hst He Hl; [by destruct Hst|]. apply Forall_cons in He as [Hx He]. simpl.
  destruct (dir_step st e cl pos) as [st'|i] eqn:E.
  - apply IH; [|done|].
    + destruct es as [|y es]; [left|by right]. eapply pending_after_other; [|exact Hx|exact E]. by apply Hl.
    + intros x Hx'. apply Hl. destruct es; [done|]. by rewrite last_cons_cons.
  - assert (Hn : lf_pending (run_slots lfn_start es).1 = 0).
    { apply IH; [by left|done|]. intros x Hx'. apply Hl. destruct es; [done|]. by rewrite last_cons_cons. }
    by destruct (run_slots lfn_start es).
Qed.

Lemma delete_slots a r cl pos e c d i : tidy lfn_start (a ++ r ++ (cl, pos, e) :: c) = true -> Forall slot_fits (a ++ r ++ (cl, pos, e) :: c) -> Forall slot_fits d ->
  Forall (fun x => mark x <> 0) a -> (forall x, last a = Some x -> is_lfn x = false) -> Forall (fun x => is_lfn x = true) r ->
  mark (cl, pos, e) <> 0 -> dir_step (run_slots lfn_start (a ++ r)).1 e cl pos = inr i -> Forall (fun x => mark x = 0xE5) d ->
  exists l1 l2, listing lfn_start (a ++ r ++ (cl, pos, e) :: c) = l1 ++ i :: l2 /\ length l1 = length (run_slots lfn_start (a ++ r)).2 /\
    listing lfn_start (a ++ d ++ c) = l1 ++ l2 /\ tidy lfn_start (a ++ d ++ c) = true.
Proof.
  intros Ht Hf Fd Ha Hlast Hr Hx Hi Hd. apply Forall_app in Hf as [Fa Hf]. apply Forall_app in Hf as [Fr Hf]. apply Forall_cons in Hf as [Fx Fc].
  pose proof (run_slots_ok lfn_start a lfn_start_ok Fa) as Hok. pose proof (run_pending a Ha Hlast) as Hp.
  destruct (deleted_run _ d Hok Hp Hd Fd) as (st' & R1 & R2 & R3 & R4).
  destruct (listing_eq st' lfn_start c R3 lfn_start_ok) as [L1 L2]; [by apply lfn_eq_zero|done|].
  assert (Hr0 : Forall (fun x => mark x <> 0) r).
  { eapply Forall_impl; [exact Hr|]. unfold is_lfn. intros x Hb. cbv beta in Hb. lia. }
  assert (Hd0 : Forall (fun x => mark x <> 0) d) by (eapply Forall_impl; [exact Hd|]; simpl; intros; lia).
  assert (Hrun : forall st es es', (run_slots st (es ++ es')).1 = (run_slots (run_slots st es).1 es').1 /\
    (run_slots st (es ++ es')).2 = (run_slots st es).2 ++ (run_slots (run_slots st es).1 es').2).
  { clear. intros st es. revert st. induction es as [|[[? ?] ?] es IH]; intros st es'; [done|]. simpl. destruct (dir_step _ _ _ _); [apply IH|].
    specialize (IH lfn_start es'). destruct (run_slots lfn_start (es ++ es')), (run_slots lfn_start es). simpl in *. destruct IH as [-> ->]. done. }
  destruct (Hrun lfn_start a r) as [E1 E2]. rewrite E1 in Hi. rewrite E2, (lfn_run _ r Hr), app_nil_r.
  assert (Har : Forall (fun x => mark x <> 0) (a ++ r)) by by apply Forall_app.
  exists (run_slots lfn_start a).2, (listing lfn_start c). split_and!; [| | |].
  - rewrite listing_app by done. f_equal. rewrite listing_app, (lfn_run _ r Hr) by done. simpl.
    replace (byte_at e 0 =? 0) with false by (unfold mark in Hx; simpl in Hx; lia). by rewrite Hi.
  - done.
  - rewrite listing_app by done. f_equal. rewrite listing_app, R1 by done. done.
  - eapply tidy_swap; [exact Ha|exact Ht|]. rewrite R4, L2. rewrite app_assoc in Ht.
    pose proof (tidy_app _ _ _ Har Ht) as Hx2. rewrite E1 in Hx2. simpl in Hx2. unfold mark in Hx. simpl in Hx.
    replace (byte_at e 0 =? 0) with false in Hx2 by lia. assert (He5 : (byte_at e 0 =? 0xE5) = false).
    { destruct (Z.eqb_spec (byte_at e 0) 0xE5) as [Eb|]; [|done]. unfold dir_step in Hi. by rewrite Eb in Hi. }
    rewrite He5, Hi in Hx2. done.
Qed.
