(* ===== verification/FatSlots.v ===== *)
(** * fat32.c: writing and finding the slots of a directory

    A store into one slot changes that slot alone ([ent_write],
    [ent_mark_deleted]); the scan of dir_alloc_slots finds the first long
    enough run of free slots, or extends the chain by zeroed clusters. *)
From S2P Require Import Prelude CString Blk Disk Fat FatTab FatFile FatIO FatName FatUtf FatLfn FatDir FatScan FatList FatEnts.

Open Scope tach_scope.

Section Slots.
Context {S : Type} `{DiskOk S} (g : geo) (Hg : geo_ok g).
Implicit Types s : fs S.
Abbreviation view_ s := (dk_view (disk s)).
Abbreviation epc := (entries_per_cluster g).

Definition smark s (l : list Z) (k : Z) : Z := byte_at (slot_ent g s l k) 0.

Lemma mod16 k : (k mod epc) mod 16 = k mod 16.
Proof. apply Z.mod_mod_divide. exists (spc g). apply (go_epc g Hg). Qed.

Lemma slot_in_cluster s first l k : chain g s first l -> 0 <= k < nslots g l ->
  exists c, c ∈ l /\ l !!! idx (k / epc) = c /\ in_vol g c /\ in_cluster g c (slot_lba g l k).
Proof.
  intros Hl Hk. destruct (ix_lookup g Hg first l s k Hl Hk) as (x & Hx & Hxt & Hv). destruct (ix_div g Hg l k Hk) as (_ & Hm & _). exists x.
  split; [by eapply list_elem_of_lookup_2|]. split; [done|]. split; [done|].
  unfold in_cluster, slot_lba. rewrite Hxt. revert Hm. generalize (k mod epc) as m. rewrite (go_epc g Hg). intros m Hm. clear - Hm. dlia.
Qed.

(** Two slots in the same sector are in the same cluster, next to each other. *)
Lemma slot_lba_inj s first l k k' : chain g s first l -> 0 <= k < nslots g l -> 0 <= k' < nslots g l ->
  slot_lba g l k = slot_lba g l k' -> k / 16 = k' / 16.
Proof.
  intros Hl Hk Hk' E. destruct (slot_in_cluster s first l k Hl Hk) as (c & _ & Ec & _ & Hc). destruct (slot_in_cluster s first l k' Hl Hk') as (c' & _ & Ec' & _ & Hc').
  rewrite E in Hc. pose proof (in_cluster_inj g Hg _ _ _ Hc Hc') as <-. unfold slot_lba in E. rewrite Ec, Ec' in E.
  destruct (ix_lookup g Hg first l s k Hl Hk) as (x & Hx & Hxt & _). destruct (ix_lookup g Hg first l s k' Hl Hk') as (x' & Hx' & Hxt' & _).
  assert (Hi : idx (k / epc) = idx (k' / epc)).
  { eapply NoDup_lookup; [by eapply (chain_nodup g Hg)|exact Hx|]. rewrite Hx'. congruence. }
  destruct (ix_div g Hg l k Hk) as (D1 & M1 & E1). destruct (ix_div g Hg l k' Hk') as (D2 & M2 & E2).
  assert (Hq : k / epc = k' / epc) by (unfold idx in Hi; lia). rewrite Hq in E1.
  assert (H16 : epc = 16 * spc g) by (rewrite (go_epc g Hg); lia). rewrite H16 in *.
  replace k with (k mod (16 * spc g) + (spc g * (k' / (16 * spc g))) * 16) by lia. replace k' with (k' mod (16 * spc g) + (spc g * (k' / (16 * spc g))) * 16) at 2 by lia.
  rewrite !Z.div_add by lia. lia.
Qed.

(** The 32 bytes of another slot of a patched sector. *)
Lemma slice_other (d d' : sector) (o o' : Z) : length d' = length d -> 0 <= o < 16 -> 0 <= o' < 16 -> o <> o' ->
  (forall k, (k < Z.to_nat (o * 32) \/ Z.to_nat (o * 32) + 32 <= k)%nat -> d' !! k = d !! k) ->
  take 32 (drop (Z.to_nat (o' * 32)) d') = take 32 (drop (Z.to_nat (o' * 32)) d).
Proof.
  intros Hlen Ho Ho' Hne Hd. apply list_eq. intros k. destruct (decide (k < 32)%nat); [|by rewrite !lookup_take_ge by lia].
  rewrite !lookup_take_lt, !lookup_drop by lia. apply Hd. lia.
Qed.

(** What a store into slot [k] may change. *)
Definition slot_store s s' (l : list Z) (k : Z) : Prop :=
  exists d', (forall x, view_ s' x = if x =? slot_lba g l k then d' else view_ s x) /\ length d' = length (view_ s (slot_lba g l k)) /\
    forall j, (j < Z.to_nat ((k mod 16) * 32) \/ Z.to_nat ((k mod 16) * 32) + 32 <= j)%nat -> d' !! j = view_ s (slot_lba g l k) !! j.

Lemma slot_store_other s s' first l k k' : chain g s first l -> slot_store s s' l k -> 0 <= k < nslots g l -> 0 <= k' < nslots g l -> k' <> k ->
  slot_ent g s' l k' = slot_ent g s l k'.
Proof.
  intros Hl (d' & Hv & Hlen & Hd) Hk Hk' Hne. unfold slot_ent. rewrite Hv. destruct (Z.eqb_spec (slot_lba g l k') (slot_lba g l k)) as [E|]; [|done].
  rewrite E. pose proof (slot_lba_inj _ _ _ _ _ Hl Hk' Hk E) as Hq. rewrite mod16. apply (slice_other _ _ (k mod 16)); [done|dlia|dlia|dlia|done].
Qed.

(** Only the clusters of the directory change, and no table entry. *)
Definition within s s' (l : list Z) : Prop :=
  (exists d, s' = set_disk d s /\ dk_inv d) /\ same_table g s s' /\ forall x, (forall c, c ∈ l -> ~ in_cluster g c x) -> view_ s' x = view_ s x.

Lemma within_refl s l : dk_inv (disk s) -> within s s l.
Proof. intros Hi. split_and!; [|done|done]. exists (disk s). by destruct s. Qed.
Lemma within_trans s1 s2 s3 l : within s1 s2 l -> within s2 s3 l -> within s1 s3 l.
Proof.
  intros ((d & -> & Hd) & T1 & V1) ((d' & -> & Hd') & T2 & V2). split_and!; [by exists d'|intros x Hx; by rewrite T2, T1|]. intros x Hx. by rewrite V2, V1.
Qed.
Lemma within_quiet s s' l : quiet s s' -> within s s' l.
Proof. intros (d & -> & Hd & Hv). split_and!; [by exists d|intros x _; by rewrite Hv|]. intros x _. by rewrite Hv. Qed.
Lemma within_chain s s' first l : within s s' l -> chain g s first l -> chain g s' first l.
Proof.
  intros (_ & Ht & _) Hl. eapply chain_same; [|done]. intros x Hx. apply (same_table_fat g Hg); [done|].
  pose proof (chain_in_vol g _ _ _ Hl) as Hv. rewrite Forall_forall in Hv. by apply Hv.
Qed.
Lemma within_inv s s' l : within s s' l -> dk_inv (disk s').
Proof. by intros ((d & -> & Hd) & _). Qed.

Lemma store_slot first l k c s (f : sector -> sector) : dk_inv (disk s) -> chain g s first l -> cur_ix g l k c -> k < nslots g l ->
  (forall d, is_sector d -> length (f d) = length d /\
    forall j, (j < Z.to_nat ((k mod 16) * 32) \/ Z.to_nat ((k mod 16) * 32) + 32 <= j)%nat -> f d !! j = d !! j) ->
  wp (store_sector (ent_lba g c) f) s (fun s' r => within s s' l /\
    match r with
    | inl e => e < 0 /\ ~ dk_reliable
    | inr _ => slot_store s s' l k /\ view_ s' (slot_lba g l k) = f (view_ s (slot_lba g l k))
    end).
Proof.
  intros Hi Hl Hix Hlt Hf. destruct (ent_lba_ix g Hg first l s k c Hl Hix Hlt) as (E & Hr & _). pose proof Hix as (Hk & _).
  destruct (slot_in_cluster s first l k Hl ltac:(lia)) as (x & Hx & _ & Hv & Hc). rewrite E in *. unfold store_sector.
  eapply wp_mono; [apply with_sector_wp; [done|apply Hr|]|].
  { intros d d' Hd [= <-]. unfold is_sector in *. by rewrite (proj1 (Hf d Hd)). }
  intros s' r (d & -> & Hd & Hx2). destruct r as [e|u].
  - destruct Hx2 as (He & Hsv & Hrel). split; [apply within_quiet; by exists d|]. split; [done|]. apply Hrel, Hr.
  - destruct Hx2 as (_ & _ & Hview). simpl in Hview. pose proof (dk_view_sector (disk s) (slot_lba g l k) Hi) as Hsec. destruct (Hf _ Hsec) as [Hlen Hoth].
    split; [split_and!; [by exists d| |]|split; [by exists (f (view_ s (slot_lba g l k)))|]].
    + intros y Hy. rewrite Hview. destruct (Z.eqb_spec y (slot_lba g l k)) as [->|]; [|done]. destruct Hy. by eapply in_cluster_outside.
    + intros y Hy. rewrite Hview. destruct (Z.eqb_spec y (slot_lba g l k)) as [->|]; [|done]. by destruct (Hy x Hx).
    + rewrite Hview, Z.eqb_refl. done.
Qed.

(** *** ent_write and ent_mark_deleted *)
Lemma slot_off (k : Z) : 0 <= k -> (Z.to_nat ((k mod 16) * 32) + 32 <= 512)%nat.
Proof. intros. dlia. Qed.

Lemma ent_write_slot first l k c e s : dk_inv (disk s) -> chain g s first l -> cur_ix g l k c -> k < nslots g l -> length e = 32%nat ->
  wp (ent_write g c e) s (fun s' r => within s s' l /\
    match r with
    | inl e => e < 0 /\ ~ dk_reliable
    | inr _ => forall j, 0 <= j < nslots g l -> slot_ent g s' l j = if j =? k then e else slot_ent g s l j
    end).
Proof.
  intros Hi Hl Hix Hlt He. destruct (ent_lba_ix g Hg first l s k c Hl Hix Hlt) as (_ & _ & Eo). pose proof Hix as (Hk & _). unfold ent_write. rewrite Eo, mod16.
  pose proof (slot_off k ltac:(lia)) as Ho.
  wp_apply (store_slot first l k c s (patch (Z.to_nat (k mod 16 * 32)) e) Hi Hl Hix Hlt).
  { intros d Hd. unfold is_sector, BLK_SECTOR_SIZE in Hd. pose proof (patch_sector (Z.to_nat (k mod 16 * 32)) e d) as Hps.
    unfold is_sector, BLK_SECTOR_SIZE in Hps. specialize (Hps ltac:(lia) ltac:(lia)). split; [lia|]. intros j Hj. unfold patch. destruct Hj as [Hj|Hj].
    - rewrite lookup_app_l by (rewrite length_take; lia). by rewrite lookup_take_lt.
    - rewrite lookup_app_r by (rewrite length_take; lia). rewrite lookup_app_r by (rewrite length_take; lia). rewrite lookup_drop, length_take, He. f_equal. lia. }
  intros s' r [Hw Hr]. split; [done|]. destruct r as [|u]; [done|]. destruct Hr as [Hst Hview]. intros j Hj.
  destruct (Z.eqb_spec j k) as [->|Hne]; [|by eapply slot_store_other; try done; lia].
  unfold slot_ent. rewrite Hview, mod16. pose proof (dk_view_sector (disk s) (slot_lba g l k) Hi) as Hsec. unfold is_sector, BLK_SECTOR_SIZE in Hsec. unfold patch.
  rewrite drop_app_length' by (rewrite length_take; lia). by rewrite take_app_length' by done.
Qed.

Lemma ent_delete_slot first l k c s : dk_inv (disk s) -> chain g s first l -> cur_ix g l k c -> k < nslots g l ->
  wp (ent_mark_deleted g c) s (fun s' r => within s s' l /\
    match r with
    | inl e => e < 0 /\ ~ dk_reliable
    | inr _ => smark s' l k = 0xE5 /\ forall j, 0 <= j < nslots g l -> j <> k -> slot_ent g s' l j = slot_ent g s l j
    end).
Proof.
  intros Hi Hl Hix Hlt. pose proof Hix as (Hk & _ & Hp & _). unfold ent_mark_deleted.
  assert (Eo : (c_pos c .& 15) = k mod 16) by (rewrite Hp, <- mod16; apply (land_low_mask _ 4); lia). rewrite Eo. pose proof (slot_off k ltac:(lia)) as Ho.
  wp_apply (store_slot first l k c s (set_byte (k mod 16 * 32) 0xE5) Hi Hl Hix Hlt).
  { intros d Hd. split; [apply length_set_byte|]. intros j Hj. unfold set_byte, idx. apply list_lookup_insert_ne. lia. }
  intros s' r [Hw Hr]. split; [done|]. destruct r as [|u]; [done|]. destruct Hr as [Hst Hview]. split.
  - unfold smark, slot_ent, byte_at. rewrite Hview, mod16. pose proof (dk_view_sector (disk s) (slot_lba g l k) Hi) as Hsec. unfold is_sector, BLK_SECTOR_SIZE in Hsec.
    rewrite (list_lookup_total_correct _ _ (u8 0xE5)); [done|]. change (idx 0) with 0%nat. rewrite lookup_take_lt, lookup_drop by lia. unfold set_byte, idx.
    rewrite Nat.add_0_r. apply list_lookup_insert_eq. lia.
  - intros j Hj Hne. by eapply slot_store_other; try done; lia.
Qed.

(** *** write_entries *)
Lemma write_entries_slots ents first l k c s : dk_inv (disk s) -> chain g s first l -> cur_ix g l k c -> k + Z.of_nat (length ents) <= nslots g l ->
  ents <> [] -> Forall (fun e => length e = 32%nat) ents ->
  wp (write_entries g c ents) s (fun s' r => within s s' l /\
    match r with
    | inl e => e < 0 /\ ~ dk_reliable
    | inr at_ => at_ = (l !!! idx ((k + Z.of_nat (length ents) - 1) / epc), (k + Z.of_nat (length ents) - 1) mod epc) /\
        forall j, 0 <= j < nslots g l -> slot_ent g s' l j =
          if (k <=? j) && (j <? k + Z.of_nat (length ents)) then ents !!! idx (j - k) else slot_ent g s l j
    end).
Proof.
  revert k c s. induction ents as [|e ents IH]; intros k c s Hi Hl Hix Hn Hne Hlen; [done|]. apply Forall_cons in Hlen as [He Hlen]. simpl in Hn.
  cbn [write_entries]. apply wp_bind. wp_apply (ent_write_slot first l k c e s Hi Hl Hix ltac:(lia) He). intros s1 r [Hw1 Hr1]. destruct r as [|u]; [done|].
  destruct ents as [|e' ents'].
  - apply wp_ret. split; [done|]. cbn [length]. change (Z.of_nat 1) with 1. replace (k + 1 - 1) with k by lia. destruct Hix as (_ & Hc & Hp & _). replace (k <? nslots g l) with true in Hc by lia.
    split; [congruence|]. intros j Hj. rewrite Hr1 by done. destruct (Z.eqb_spec j k) as [->|]; [|by replace ((k <=? j) && (j <? k + 1)) with false by lia].
    replace ((k <=? k) && (k <? k + 1)) with true by lia. by replace (k - k) with 0 by lia.
  - pose proof (within_inv _ _ _ Hw1) as Hi1. pose proof (within_chain _ _ _ _ Hw1 Hl) as Hl1. apply wp_bind.
    wp_apply (cur_advance_ix g Hg first l s1 k c Hi1 Hl1 Hix ltac:(simpl in *; lia)). intros s2 r [Hq Hr2]. pose proof (within_quiet _ _ l Hq) as Hw2.
    pose proof (within_trans _ _ _ _ Hw1 Hw2) as Hw12. destruct r as [|c2]; [done|].
    wp_apply (IH (k + 1) c2 s2 (quiet_inv _ _ Hq) (within_chain _ _ _ _ Hw2 Hl1) Hr2 ltac:(simpl in *; lia) ltac:(done) Hlen).
    intros s3 r [Hw3 Hr3]. split; [by eapply within_trans|]. destruct r as [|at_]; [done|]. destruct Hr3 as [-> Hs3]. split.
    + simpl length. f_equal; [do 3 f_equal|f_equal]; lia.
    + intros j Hj. rewrite Hs3 by done. simpl length in *.
      assert (Hse : slot_ent g s2 l j = slot_ent g s1 l j) by (unfold slot_ent; by destruct Hq as (d & _ & _ & ->)).
      destruct (Z.eqb_spec j k) as [->|Hjk].
      * replace ((k + 1 <=? k) && _) with false by lia. replace ((k <=? k) && _) with true by lia. replace (k - k) with 0 by lia.
        rewrite Hse, Hr1, Z.eqb_refl by done. done.
      * rewrite Hse, Hr1 by done. replace (j =? k) with false by lia. split_ifs; try lia; try done.
        replace (idx (j - k)) with (Datatypes.S (idx (j - (k + 1)))) by (unfold idx; lia). done.
Qed.

(** *** The scan for free slots *)

(** [n] free slots from [i] on: deleted ones, or also the end of the
    directory; no end mark comes before them. *)
Definition free_at s (l : list Z) (i n : Z) (tail : bool) : Prop :=
  0 <= i /\ 0 <= n /\ i + n <= nslots g l /\ (forall j, 0 <= j < i -> smark s l j <> 0) /\
  if tail then exists j0, i <= j0 < i + n /\ smark s l j0 = 0 /\ forall j, i <= j < j0 -> smark s l j = 0xE5
  else forall j, i <= j < i + n -> smark s l j = 0xE5.

Definition scan_at s (first : Z) (l : list Z) (k : Z) (sc : slot_scan) : Prop :=
  free_at s l (k - sc_run sc) (sc_run sc) (sc_tail sc) /\ (0 < sc_run sc -> cur_ix g l (k - sc_run sc) (sc_start sc)) /\
  sc_last sc = (if k =? 0 then first else l !!! idx ((k - 1) / epc)).

(** One more slot. *)
Lemma scan_step s first l k c sc need : 0 <= k < nslots g l -> cur_ix g l k c -> scan_at s first l k sc -> c_cluster c = l !!! idx (k / epc) ->
  let tail := sc_tail sc || (smark s l k =? 0) in
  let start := if sc_run sc =? 0 then c else sc_start sc in
  if tail || (smark s l k =? 0xE5) then
    scan_at s first l (k + 1) (Scan (sc_run sc + 1) start (c_cluster c) tail) /\ (sc_run sc + 1 = need -> cur_ix g l (k + 1 - need) start /\ free_at s l (k + 1 - need) need tail)
  else scan_at s first l (k + 1) (Scan 0 (sc_start sc) (c_cluster c) tail).
Proof.
  intros Hk Hix ((F1 & F2 & F3 & F4 & F5) & Hst & Hlast) Hcl tail start.
  assert (Hl : c_cluster c = (if k + 1 =? 0 then first else l !!! idx ((k + 1 - 1) / epc))).
  { replace (k + 1 =? 0) with false by lia. by replace (k + 1 - 1) with k by lia. }
  destruct (tail || (smark s l k =? 0xE5)) eqn:Et.
  - assert (Hfree : free_at s l (k + 1 - (sc_run sc + 1)) (sc_run sc + 1) tail).
    { replace (k + 1 - (sc_run sc + 1)) with (k - sc_run sc) by lia. split; [lia|]. split; [lia|]. split; [lia|]. split; [done|]. subst tail. destruct (sc_tail sc) eqn:Es; simpl.
      - destruct F5 as (j0 & J1 & J2 & J3). exists j0. split; [lia|]. done.
      - destruct (Z.eqb_spec (smark s l k) 0) as [E0|E0].
        + exists k. split; [lia|]. split; [done|]. intros j Hj. apply F5. lia.
        + simpl in Et. intros j Hj. destruct (decide (j = k)) as [->|]; [lia|]. apply F5. lia. }
    assert (Hstart : cur_ix g l (k - sc_run sc) start).
    { subst start. destruct (Z.eqb_spec (sc_run sc) 0) as [->|]; [by rewrite Z.sub_0_r|]. apply Hst. lia. }
    split.
    + split; [done|]. split; [|done]. intros _. simpl. by replace (k + 1 - (sc_run sc + 1)) with (k - sc_run sc) by lia.
    + intros <-. split; [by replace (k + 1 - (sc_run sc + 1)) with (k - sc_run sc) by lia|done].
  - apply orb_false_iff in Et as [Et E5]. subst tail. apply orb_false_iff in Et as [Es E0]. rewrite Es in *. split; [|split; [simpl; lia|done]]. simpl. rewrite E0.
    split; [lia|]. split; [lia|]. split; [lia|]. split; [|intros j Hj; lia]. intros j Hj. destruct (decide (j < k - sc_run sc)); [apply F4; lia|].
    destruct (decide (j = k)) as [->|]; [lia|]. rewrite F5 by lia. done.
Qed.

Lemma slot_loop_scan fuel first l need k c sc s s0 : dk_inv (disk s) -> same_view s0 s -> chain g s first l -> cur_ix g l k c -> scan_at s0 first l k sc ->
  sc_run sc < need -> nslots g l - k < Z.of_nat fuel ->
  wp (slot_loop g fuel c need sc) s (outcome (fun e => e < 0 /\ ~ dk_reliable) s (fun r =>
    match r with
    | inl start => exists i tail, cur_ix g l i start /\ free_at s0 l i need tail
    | inr (sc', steps) => scan_at s0 first l (nslots g l) sc' /\ sc_run sc' < need /\ 0 <= steps
    end)).
Proof.
  revert k c sc s. induction fuel as [|fuel IH]; intros k c sc s Hi Hs0 Hl Hix Hsc Hrun Hf; [destruct Hix; lia|]. cbn [slot_loop].
  eapply reads_bind; [by apply (cur_peek_ix g Hg first l)|]. intros o s1 -> Hq1. pose proof (quiet_inv _ _ Hq1) as Hi1. destruct (Z.ltb_spec k (nslots g l)) as [Hlt|Hge].
  - pose proof Hix as (Hk & Hcl & _ & _). replace (k <? nslots g l) with true in Hcl by lia.
    assert (Hent : slot_ent g s l k = slot_ent g s0 l k) by (unfold slot_ent; by rewrite Hs0). rewrite Hent. fold (smark s0 l k).
    pose proof (scan_step s0 first l k c sc need ltac:(lia) Hix Hsc Hcl) as Hstep. cbv zeta in Hstep.
    assert (Hadv : forall sc', scan_at s0 first l (k + 1) sc' -> sc_run sc' < need -> wp (cur' ← cur_advance g c; slot_loop g fuel cur' need sc') s1
      (outcome (fun e => e < 0 /\ ~ dk_reliable) s1 (fun r =>
        match r with
        | inl start => exists i tail, cur_ix g l i start /\ free_at s0 l i need tail
        | inr (sc', steps) => scan_at s0 first l (nslots g l) sc' /\ sc_run sc' < need /\ 0 <= steps
        end))).
    { intros sc' Hsc' Hlt'. eapply reads_bind; [apply (cur_advance_ix g Hg first l); [done|by eapply quiet_chain|done|done]|]. intros c2 s2 Hix2 Hq2.
      apply (IH (k + 1) c2 sc' s2); try done; [by eapply quiet_inv| |eapply quiet_chain; [exact Hq2|by eapply quiet_chain]|lia].
      destruct Hq1 as (d1 & _ & _ & V1), Hq2 as (d2 & _ & _ & V2). intros x. by rewrite V2, V1, Hs0. }
    destruct (sc_tail sc || (smark s0 l k =? 0) || (smark s0 l k =? 0xE5)).
    + destruct Hstep as [Hs1 Hs2]. destruct (Z.eqb_spec (sc_run sc + 1) need) as [En|En].
      * apply reads_ret; [done|]. eexists _, _. by apply Hs2.
      * apply Hadv; [done|simpl; lia].
    + apply Hadv; [done|]. simpl. destruct Hsc as ((_ & F2 & _) & _). lia.
  - destruct Hix as (Hk & _ & _ & Hst). assert (k = nslots g l) as -> by lia. apply reads_ret; [done|]. split; [done|]. split; [done|lia].
Qed.

(** *** Extending the directory *)

(** What belongs to other files and directories is as before. *)
Definition others s s' (l : list Z) : Prop :=
  (forall x, outside g x -> (forall c, in_vol g c -> in_cluster g c x -> fat g s c <> 0 /\ c ∉ l) -> view_ s' x = view_ s x) /\
  (forall c, in_vol g c -> fat g s c <> 0 -> c ∉ l -> fat g s' c = fat g s c).

(** The chain [l] got the clusters [fs], which were free and are zeroed. *)
Record grown s s' (first : Z) (l fs : list Z) : Prop := {
  gr_chain : chain g s' first (l ++ fs);
  gr_fresh : Forall (fun c => in_vol g c /\ fat g s c = 0 /\ zeroed g s' c) fs;
  gr_view : forall c x, c ∈ l -> in_cluster g c x -> view_ s' x = view_ s x
}.

Lemma grown_refl s first l : chain g s first l -> grown s s first l [].
Proof. intros Hl. split; [by rewrite app_nil_r|constructor|done]. Qed.

Lemma chain_last_in s first l : chain g s first l -> exists prev, last l = Some prev /\ prev ∈ l /\ in_vol g prev /\ fat g s prev <> 0.
Proof.
  intros Hl. destruct (last l) as [prev|] eqn:El; [|apply last_None in El as ->; inversion Hl]. exists prev.
  assert (Hin : prev ∈ l) by (by eapply last_Some_elem_of). pose proof (chain_in_vol g _ _ _ Hl) as Hv. rewrite Forall_forall in Hv.
  split_and!; [done|done|by apply Hv..|]. pose proof (chain_last g _ _ _ _ Hl El) as Hf. unfold FAT32_EOC_MIN in Hf. lia.
Qed.

(** One cluster more. *)
Lemma chain_grow_dir s first l prev : fs_inv g s -> readonly g = false -> chain g s first l -> last l = Some prev ->
  wp (chain_grow g prev true) s (fun s' r => fs_inv g s' /\ frame s s' /\ others s s' l /\
    match r with
    | inl e => e < 0 /\ (dk_reliable -> grown s s' first l [])
    | inr c => grown s s' first l [c] /\ forall c', in_vol g c' -> fat g s' c' = 0 -> fat g s c' = 0
    end).
Proof.
  intros Hi Hro Hl Hlast. destruct (chain_last_in s first l Hl) as (p & Hp & Hin & Hv & Hnz). rewrite Hlast in Hp. injection Hp as <-.
  wp_apply (chain_grow_wp g Hg prev true s Hi Hro (fun _ => conj Hv Hnz)). intros s' r (G1 & G2 & G3 & G4 & G5). split; [done|]. split; [done|]. split.
  { split; [intros x Hx Hc; apply G3; [done|]; intros; by apply Hc|]. intros c Hc Hcz Hcl. apply G4; [done|done|]. by intros ->. }
  destruct r as [e|c].
  - destruct G5 as [He Hrel]. split; [done|]. intros Hr. destruct (Hrel Hr) as (_ & Hsv & _). split; [rewrite app_nil_r|constructor|intros; apply Hsv].
    eapply chain_same; [|done]. intros x _. by apply same_view_fat.
  - destruct G5 as (Hc & Hz & Heoc & Hlink & Hother & Hzero & Hview & _). assert (Hp0 : prev <> 0) by (unfold in_vol in Hv; lia).
    pose proof (chain_in_vol g _ _ _ Hl) as Hlv. rewrite Forall_forall in Hlv.
    assert (Hcn : c ∉ l). { intros Hcl. by apply (chain_nonzero g _ _ _ _ Hl Hcl). }
    split; [split|].
    + eapply (chain_snoc g Hg); [exact Hl|exact Hlast| |exact Hc|by apply Hlink|exact Heoc].
      intros x Hx Hne. apply Hother; [by apply Hlv|by intros ->|done].
    + constructor; [|constructor]. split; [done|]. split; [done|]. by apply Hzero.
    + intros c' x Hc' Hx. apply Hview; [by eapply (in_cluster_outside g Hg); [apply Hlv|]|]. intros [_ Hxc]. pose proof (in_cluster_inj g Hg _ _ _ Hx Hxc) as ->. done.
    + intros c' Hc' Hz'. destruct (decide (c' = c)) as [->|Hn1]; [done|]. destruct (decide (c' = prev)) as [->|Hn2].
      { rewrite (Hlink Hp0) in Hz'. unfold in_vol in Hc. lia. }
      by rewrite <- (Hother c').
Qed.

Lemma grown_trans s1 s2 s3 first l f fs : grown s1 s2 first l [f] -> (forall c, in_vol g c -> fat g s2 c = 0 -> fat g s1 c = 0) ->
  grown s2 s3 first (l ++ [f]) fs -> grown s1 s3 first l (f :: fs).
Proof.
  intros [A1 A2 A3] Hz [B1 B2 B3]. apply Forall_cons in A2 as [(Af1 & Af2 & Af3) _]. split.
  - by rewrite <- app_assoc in B1.
  - constructor.
    + split; [done|]. split; [done|]. intros x Hx. rewrite (B3 f x) by (done || apply elem_of_app; right; by left). by apply Af3.
    + eapply Forall_impl; [exact B2|]. intros c (C1 & C2 & C3). split; [done|]. split; [by apply Hz|done].
  - intros c x Hc Hx. rewrite (B3 c x) by (done || apply elem_of_app; by left). by apply A3 with c.
Qed.

Lemma others_trans s1 s2 s3 first l f : grown s1 s2 first l [f] -> others s1 s2 l -> others s2 s3 (l ++ [f]) -> others s1 s3 l.
Proof.
  intros [A1 A2 A3] [O1 O2] [P1 P2]. apply Forall_cons in A2 as [(Af1 & Af2 & Af3) _]. split.
  - intros x Hx Hc. rewrite P1; [by apply O1|done|]. intros c Hv Hin. destruct (Hc c Hv Hin) as [C1 C2]. rewrite O2 by done. split; [done|].
    rewrite elem_of_app, list_elem_of_singleton. intros [?| ->]; done.
  - intros c Hv Hnz Hn. assert (Hcf : c <> f) by (intros ->; done). rewrite P2; [by apply O2|done|by rewrite O2|].
    rewrite elem_of_app, list_elem_of_singleton. intros [?| ->]; done.
Qed.

Lemma cur_ix_app l fs k c : cur_ix g l k c -> k < nslots g l -> cur_ix g (l ++ fs) k c.
Proof.
  intros (Hk & Hc & Hp & Hs) Hlt. destruct (ix_div g Hg l k ltac:(lia)) as (Hd & _). pose proof (epc_range g Hg).
  assert (Hn : nslots g l <= nslots g (l ++ fs)) by (unfold nslots; rewrite length_app; nia).
  split; [lia|]. replace (k <? nslots g l) with true in Hc by lia. replace (k <? nslots g (l ++ fs)) with true by lia.
  rewrite lookup_total_app_l by (unfold idx; lia). done.
Qed.

Lemma extend_loop_grown fuel need run prev n start first l s :
  fs_inv g s -> readonly g = false -> chain g s first l -> last l = Some prev -> 1 <= need -> 0 <= run <= nslots g l ->
  (0 < run -> cur_ix g l (nslots g l - run) start) -> need - run <= Z.of_nat fuel ->
  wp (extend_loop g fuel run need prev n start) s (fun s' r => fs_inv g s' /\ frame s s' /\ others s s' l /\
    match r with
    | inl e => e < 0 /\ (dk_reliable -> exists fs, grown s s' first l fs)
    | inr c => exists fs, grown s s' first l fs /\ cur_ix g (l ++ fs) (nslots g l - run) c /\ need <= run + nslots g fs
    end).
Proof.
  revert run prev n start l s. induction fuel as [|fuel IH]; intros run prev n start l s Hi Hro Hl Hlast Hneed Hrun Hst Hf; cbn [extend_loop].
  { replace (run <? need) with false by lia. apply wp_ret. split_and!; try done. exists []. rewrite app_nil_r. split_and!; [by apply grown_refl|apply Hst; lia|].
    unfold nslots. simpl. lia. }
  pose proof (epc_range g Hg) as He. destruct (Z.ltb_spec run need) as [Hlt|Hge].
  2:{ apply wp_ret. split_and!; try done. exists []. rewrite app_nil_r. split_and!; [by apply grown_refl|apply Hst; lia|]. unfold nslots. simpl. lia. }
  destruct (_ <? n + 1).
  { apply wp_fail. split_and!; try done. intros _. exists []. by apply grown_refl. }
  apply wp_bind. wp_apply (chain_grow_dir s first l prev Hi Hro Hl Hlast). intros s1 r (I1 & F1 & O1 & Hr). destruct r as [e|f].
  { split_and!; try done; [by destruct Hr|]. intros Hrel. exists []. by apply Hr. }
  destruct Hr as [G1 Hz1]. assert (Hns : nslots g (l ++ [f]) = nslots g l + epc) by (unfold nslots; rewrite length_app; simpl; lia).
  assert (Hst1 : cur_ix g (l ++ [f]) (nslots g (l ++ [f]) - (run + epc)) (if run =? 0 then Cur f 0 0 else start)).
  { rewrite Hns. replace (nslots g l + epc - (run + epc)) with (nslots g l - run) by lia. destruct (Z.eqb_spec run 0) as [->|Hne].
    - rewrite Z.sub_0_r. split; [lia|]. replace (nslots g l <? nslots g (l ++ [f])) with true by lia. unfold nslots. rewrite Z.div_mul, Z.mod_mul by lia.
      cbn. split_and!; try lia; try done. unfold idx. rewrite Nat2Z.id. rewrite lookup_total_app_r, Nat.sub_diag by lia. done.
    - apply cur_ix_app; [apply Hst|]; lia. }
  wp_apply (IH (run + epc) f (n + 1) _ (l ++ [f]) s1 I1 Hro (gr_chain _ _ _ _ _ G1) (last_snoc _ _) Hneed ltac:(lia) (fun _ => Hst1) ltac:(lia)).
  intros s2 r (I2 & F2 & O2 & Hr). split; [done|]. split; [by etrans|]. split; [by eapply others_trans|]. destruct r as [e|c].
  - destruct Hr as [He2 Hrel]. split; [done|]. intros Hr. destruct (Hrel Hr) as (fs & G2). exists (f :: fs). by eapply grown_trans.
  - destruct Hr as (fs & G2 & Hix & Hn). exists (f :: fs). split_and!; [by eapply grown_trans| |].
    + rewrite <- app_assoc in Hix. rewrite Hns in Hix. by replace (nslots g l + epc - (run + epc)) with (nslots g l - run) in Hix by lia.
    + unfold nslots in *. simpl. lia.
Qed.
End Slots.
