(* ===== verification/FatAdd.v ===== *)
(** * fat32.c: adding an entry to a directory

    dir_add_entry on a tidy directory: the new entry appears in the listing
    with its name, every other entry stays where it was, and nothing of other
    files changes. *)
From S2P Require Import Prelude CString Blk Disk Fat FatTab FatFile FatIO FatWrite FatName FatUtf FatLfn FatDir FatScan FatList FatEnts FatSlots.

Open Scope tach_scope.

Section Add.
Context {S : Type} `{DiskOk S} (g : geo) (Hg : geo_ok g).
Implicit Types s : fs S.
Abbreviation view_ s := (dk_view (disk s)).
Abbreviation epc := (entries_per_cluster g).

Lemma grown_view s s1 s2 first l fs : same_view s s1 -> grown g s1 s2 first l fs -> grown g s s2 first l fs.
Proof.
  intros Hv [G1 G2 G3]. split; [done| |intros c x Hc Hx; rewrite (G3 c x) by done; apply Hv].
  eapply Forall_impl; [exact G2|]. intros c (C1 & C2 & C3). split; [done|]. split; [|done]. by rewrite <- (same_view_fat g s s1).
Qed.
Lemma others_view s s1 s2 l : same_view s s1 -> others g s1 s2 l -> others g s s2 l.
Proof.
  intros Hv [O1 O2]. split.
  - intros x Hx Hc. rewrite O1; [apply Hv|done|]. intros c. rewrite (same_view_fat g s s1) by done. apply Hc.
  - intros c Hc Hz Hn. rewrite O2; [by apply same_view_fat|done|by rewrite (same_view_fat g s s1)|done].
Qed.
Lemma others_refl s l : others g s s l.
Proof. split; done. Qed.

Lemma frame_quiet s s' : quiet s s' -> frame s s'.
Proof. intros (d & -> & _). done. Qed.
Lemma fs_inv_quiet s s' : quiet s s' -> fs_inv g s -> fs_inv g s'.
Proof. intros (d & -> & Hd & _) Hi. by apply fs_inv_disk. Qed.

(** *** dir_alloc_slots *)
Lemma dir_alloc_slots_spec first l need s : fs_inv g s -> readonly g = false -> chain g s first l -> 1 <= need ->
  wp (dir_alloc_slots g first need) s (fun s' r => fs_inv g s' /\ frame s s' /\ others g s s' l /\
    match r with
    | inl e => e < 0 /\ (dk_reliable -> exists fs, grown g s s' first l fs)
    | inr c => exists fs i run tail, grown g s s' first l fs /\ cur_ix g (l ++ fs) i c /\ i + need <= nslots g (l ++ fs) /\ free_at g s l i run tail /\
        (fs = [] /\ run = need \/ i + run = nslots g l /\ run < need)
    end).
Proof.
  intros Hi Hro Hl Hneed. unfold dir_alloc_slots. apply wp_bind. pose proof (cur_init_ix g Hg s first l (or_intror Hl)) as Hix. pose proof (epc_range g Hg) as He.
  assert (Hsc : scan_at g s first l 0 (Scan 0 (Cur 0 0 0) first false)).
  { assert (0 <= nslots g l) by (unfold nslots; lia). split; [|split; [simpl; lia|done]]. unfold free_at. simpl. split_and!; try lia; intros; lia. }
  wp_apply (slot_loop_scan g Hg (dir_fuel g (cur_init first)) first l need 0 (cur_init first) _ s s (fi_disk g s Hi) ltac:(done) Hl Hix Hsc ltac:(simpl; lia) (ahead_ix g Hg first l s 0 _ Hl Hix)).
  intros s1 r [Hq Hr]. pose proof Hq as (d & _ & _ & Hv). pose proof (fs_inv_quiet _ _ Hq Hi) as Hi1. pose proof (frame_quiet _ _ Hq) as Hf1.
  pose proof (quiet_chain g _ _ _ _ Hq Hl) as Hl1. assert (Hg1 : grown g s s1 first l []) by (eapply grown_view; [exact Hv|by apply grown_refl]).
  assert (Ho1 : others g s s1 l) by (eapply others_view; [exact Hv|by apply others_refl]).
  destruct r as [e|[start|[sc steps]]].
  - split_and!; try done; [apply Hr..|]. intros _. by exists [].
  - apply wp_ret. split_and!; try done; try apply Ho1. destruct Hr as (i & tail & Hix2 & Hfree). exists [], i, need, tail. rewrite app_nil_r.
    split; [done|]. split; [done|]. split; [apply Hfree|]. split; [done|by left].
  - destruct Hr as ((Hfree & Hst & Hlast) & Hlt & Hsteps). destruct (chain_last_in g s1 first l Hl1) as (prev & Hp & _ & _ & _).
    assert (Hprev : sc_last sc = prev).
    { rewrite Hlast. destruct l as [|x l'] eqn:El; [done|]. rewrite <- El in *. assert (Hpos : 0 < Z.of_nat (length l)) by (rewrite El; simpl; lia).
      replace (nslots g l =? 0) with false by (unfold nslots; nia). apply list_lookup_total_correct. rewrite last_lookup in Hp. rewrite <- Hp. f_equal.
      unfold idx, nslots. replace ((Z.of_nat (length l) * epc - 1) / epc) with (Z.of_nat (length l) - 1); [lia|]. apply (Z.div_unique _ _ _ (epc - 1)); lia. }
    rewrite Hprev. destruct Hfree as (F1 & F2 & F3 & F4 & F5).
    wp_apply (extend_loop_grown g Hg (Z.to_nat need) need (sc_run sc) prev steps (sc_start sc) first l s1 Hi1 Hro Hl1 Hp Hneed ltac:(lia) Hst ltac:(lia)).
    intros s2 r (I2 & Fr2 & O2 & Hr). split; [done|]. split; [by etrans|]. split; [by eapply others_view|]. destruct r as [e|c].
    + destruct Hr as [He2 Hrel]. split; [done|]. intros Hr. destruct (Hrel Hr) as (fs & G2). exists fs. by eapply grown_view.
    + destruct Hr as (fs & G2 & Hix2 & Hn). exists fs, (nslots g l - sc_run sc), (sc_run sc), (sc_tail sc).
      split; [by eapply grown_view|]. split; [done|]. split; [unfold nslots in *; rewrite length_app; lia|]. split; [done|]. right. lia.
Qed.

(** *** The slots afterwards *)
Definition slot_pos (l : list Z) (j : Z) : Z * Z := (l !!! idx (j / epc), j mod epc).
Abbreviation slots_of s l a n := (slot_at g s l <$> seqZ a n).

Lemma slots_split s l i n : 0 <= i -> 0 <= n -> i + n <= nslots g l ->
  dir_slots g s l = slots_of s l 0 i ++ slots_of s l i n ++ slots_from g s l (i + n).
Proof.
  intros Hi Hn Hle. unfold dir_slots, slots_from. rewrite <- !fmap_app. f_equal.
  replace (nslots g l - 0) with (i + (n + (nslots g l - (i + n)))) by lia. rewrite seqZ_app by lia. rewrite (seqZ_app (0 + i) n) by lia. by rewrite Z.add_0_l.
Qed.

Lemma slot_app s l fs j : 0 <= j < nslots g l -> slot_lba g (l ++ fs) j = slot_lba g l j /\ slot_pos (l ++ fs) j = slot_pos l j.
Proof.
  intros Hj. destruct (ix_div g Hg l j Hj) as (Hd & _). unfold slot_lba, slot_pos. by rewrite lookup_total_app_l by (unfold idx; lia).
Qed.

(** Old slots of a grown directory are as they were, new ones are zero. *)
Lemma grown_slot s s' first l fs j : chain g s first l -> grown g s s' first l fs -> 0 <= j < nslots g (l ++ fs) ->
  if j <? nslots g l then slot_at g s' (l ++ fs) j = slot_at g s l j else smark g s' (l ++ fs) j = 0.
Proof.
  intros Hl Hgr Hj. destruct (Z.ltb_spec j (nslots g l)) as [Hlt|Hge].
  - destruct (slot_app s l fs j ltac:(lia)) as [E1 E2]. destruct (slot_in_cluster g Hg s first l j Hl ltac:(lia)) as (c & Hc & _ & _ & Hin).
    unfold slot_at, slot_ent. unfold slot_pos in E2. injection E2 as E2. rewrite E1, E2. by rewrite (gr_view _ _ _ _ _ _ Hgr c _ Hc Hin).
  - pose proof (gr_chain _ _ _ _ _ _ Hgr) as Hl'. destruct (slot_in_cluster g Hg s' first (l ++ fs) j Hl' Hj) as (c & Hc & Ec & _ & Hin).
    destruct (ix_div g Hg (l ++ fs) j Hj) as (Hd & Hm & Hdm). pose proof (epc_range g Hg).
    assert (Hcf : c ∈ fs).
    { rewrite <- Ec. assert (Z.of_nat (length l) <= j / epc) by (apply Z.div_le_lower_bound; unfold nslots in Hge; lia).
      rewrite lookup_total_app_r by (unfold idx; lia). rewrite length_app in Hd. apply list_elem_of_lookup_total_2. unfold idx. lia. }
    pose proof (gr_fresh _ _ _ _ _ _ Hgr) as Hz. rewrite Forall_forall in Hz. destruct (Hz c Hcf) as (_ & _ & Hzc).
    unfold smark, slot_ent. rewrite (Hzc _ Hin). unfold zero_sector. rewrite drop_replicate, take_replicate. unfold byte_at. change (idx 0) with 0%nat.
    pose proof (mod16 g Hg j) as H16. rewrite H16. destruct (Nat.min 32 _) eqn:Em; [|done]. exfalso. revert Em. unfold BLK_SECTOR_SIZE. dlia.
Qed.

(** The slots once [ents] are written from slot [i] on. *)
Lemma placed_slots s s2 s3 first l fs i ents : chain g s first l -> grown g s s2 first l fs -> 0 <= i <= nslots g l ->
  i + Z.of_nat (length ents) <= nslots g (l ++ fs) ->
  (forall j, 0 <= j < nslots g (l ++ fs) -> slot_ent g s3 (l ++ fs) j =
    if (i <=? j) && (j <? i + Z.of_nat (length ents)) then ents !!! idx (j - i) else slot_ent g s2 (l ++ fs) j) ->
  exists c, dir_slots g s3 (l ++ fs) = slots_of s l 0 i ++ zip (slot_pos (l ++ fs) <$> seqZ i (Z.of_nat (length ents))) ents ++ c /\
    (fs = [] -> c = slots_from g s l (i + Z.of_nat (length ents))) /\
    (nslots g l <= i + Z.of_nat (length ents) -> forallb (fun x => mark x =? 0) c = true).
Proof.
  intros Hl Hgr Hi Hle Hs3. set (n := Z.of_nat (length ents)) in *. exists (slots_from g s3 (l ++ fs) (i + n)). split_and!.
  - rewrite (slots_split s3 (l ++ fs) i n) by lia. f_equal; [|f_equal].
    + apply list_fmap_ext. intros _ j Hj%list_elem_of_lookup_2%elem_of_seqZ. pose proof (grown_slot s s2 first l fs j Hl Hgr ltac:(lia)) as Hold.
      replace (j <? nslots g l) with true in Hold by lia. rewrite <- Hold. unfold slot_at. rewrite Hs3 by lia. by replace ((i <=? j) && (j <? i + n)) with false by lia.
    + apply list_eq. intros k. rewrite list_lookup_fmap, lookup_zip_with, list_lookup_fmap. destruct (decide (Z.of_nat k < n)) as [Hk|Hk].
      * rewrite lookup_seqZ_lt by lia. simpl. unfold slot_at. rewrite Hs3 by lia. replace ((i <=? i + Z.of_nat k) && (i + Z.of_nat k <? i + n)) with true by lia.
        replace (idx (i + Z.of_nat k - i)) with k by (unfold idx; lia). by rewrite list_lookup_lookup_total_lt by lia.
      * rewrite lookup_seqZ_ge by lia. done.
  - intros ->. unfold slots_from. rewrite app_nil_r in *. apply list_fmap_ext. intros _ j Hj%list_elem_of_lookup_2%elem_of_seqZ.
    pose proof (grown_slot s s2 first l [] j Hl Hgr) as Hold. rewrite app_nil_r in Hold. specialize (Hold ltac:(lia)). replace (j <? nslots g l) with true in Hold by lia.
    rewrite <- Hold. unfold slot_at. rewrite Hs3 by lia. by replace ((i <=? j) && (j <? i + n)) with false by lia.
  - intros Hn. apply forallb_forall. intros x Hx%list_elem_of_In. apply list_elem_of_fmap in Hx as (j & -> & Hj%elem_of_seqZ).
    pose proof (grown_slot s s2 first l fs j Hl Hgr ltac:(lia)) as Hold. replace (j <? nslots g l) with false in Hold by lia.
    unfold mark, slot_at. simpl. rewrite Hs3 by lia. replace ((i <=? j) && (j <? i + n)) with false by lia. unfold smark in Hold. rewrite Hold. done.
Qed.

Lemma slots_fit s first l : chain g s first l -> Forall slot_fits (dir_slots g s l).
Proof.
  intros Hl. apply Forall_fmap, Forall_forall. intros j Hj%elem_of_seqZ. destruct (ix_lookup g Hg first l s j Hl ltac:(lia)) as (x & _ & Hx & Hv).
  destruct (ix_div g Hg l j ltac:(lia)) as (_ & Hm & _). pose proof (epc_range g Hg). pose proof (go_clusters g Hg) as Hc. unfold FAT32_MAX_CLUSTERS, in_vol in *.
  unfold slot_fits, slot_at. cbn [compose fst snd]. rewrite Hx. lia.
Qed.

Lemma mark_slot s l j : mark (slot_at g s l j) = smark g s l j.
Proof. done. Qed.

Lemma slots_marks s l a n (P : Z -> Prop) : (forall j, a <= j < a + n -> P (smark g s l j)) -> Forall (fun x => P (mark x)) (slots_of s l a n).
Proof. intros Hp. apply Forall_fmap, Forall_forall. intros j Hj%elem_of_seqZ. apply Hp. lia. Qed.

(** The end mark of a tidy directory is followed by end marks. *)
Lemma tidy_zeros s l i j0 : tidy lfn_start (dir_slots g s l) = true -> 0 <= i <= j0 -> j0 < nslots g l -> (forall j, 0 <= j < i -> smark g s l j <> 0) ->
  (forall j, i <= j < j0 -> smark g s l j = 0xE5) -> smark g s l j0 = 0 -> forall j, j0 <= j < nslots g l -> smark g s l j = 0.
Proof.
  intros Ht Hi Hj0 Hnz H5 Hz j Hj. rewrite (slots_split s l 0 j0) in Ht by lia. simpl in Ht. rewrite Z.add_0_l in Ht.
  assert (Ha : Forall (fun x => mark x <> 0) (slots_of s l 0 j0)).
  { apply (slots_marks s l 0 j0 (fun m => m <> 0)). intros k Hk. destruct (decide (k < i)); [apply Hnz; lia|rewrite H5 by lia; done]. }
  apply (tidy_app _ _ _ Ha) in Ht. rewrite slots_from_cons in Ht by lia. cbn [tidy slot_at] in Ht. unfold slot_at in Ht at 1. change (byte_at (slot_ent g s l j0) 0) with (smark g s l j0) in Ht.
  rewrite Hz in Ht. simpl in Ht. apply andb_true_iff in Ht as [_ Ht]. destruct (decide (j = j0)) as [->|]; [done|]. rewrite forallb_forall in Ht.
  specialize (Ht (slot_at g s l j)). rewrite mark_slot in Ht. apply Z.eqb_eq, Ht, list_elem_of_In. apply list_elem_of_fmap. exists j. split; [done|]. apply elem_of_seqZ. lia.
Qed.

(** The listing once the entry [i] is placed over the free slots. *)
Lemma placed_listing s s2 s3 first l fs i run tail ents info :
  chain g s first l -> tidy lfn_start (dir_slots g s l) = true -> grown g s s2 first l fs -> free_at g s l i run tail ->
  (fs = [] /\ run = Z.of_nat (length ents) \/ i + run = nslots g l /\ run < Z.of_nat (length ents)) -> i + Z.of_nat (length ents) <= nslots g (l ++ fs) -> ents <> [] ->
  (forall j, 0 <= j < nslots g (l ++ fs) -> slot_ent g s3 (l ++ fs) j =
    if (i <=? j) && (j <? i + Z.of_nat (length ents)) then ents !!! idx (j - i) else slot_ent g s2 (l ++ fs) j) ->
  gives (zip (slot_pos (l ++ fs) <$> seqZ i (Z.of_nat (length ents))) ents) info ->
  exists l1 l2, dir_list g s l = l1 ++ l2 /\ dir_list g s3 (l ++ fs) = l1 ++ info :: l2 /\ tidy lfn_start (dir_slots g s3 (l ++ fs)) = true.
Proof.
  intros Hl Ht Hgr (F1 & F2 & F3 & F4 & F5) Hcase Hle Hne Hs3 Hn. destruct (placed_slots s s2 s3 first l fs i ents Hl Hgr ltac:(lia) Hle Hs3) as (c & Ec & C1 & C2).
  pose proof (slots_fit s first l Hl) as Hfit. unfold dir_list. rewrite Ec.
  set (N := zip _ ents) in *. clearbody N.
  assert (Ha : Forall (fun x => mark x <> 0) (slots_of s l 0 i)).
  { apply (slots_marks s l 0 i (fun m => m <> 0)). intros k Hk. apply F4. lia. }
  destruct ents as [|e0 ents']; [done|]. set (ents := e0 :: ents') in *. assert (Hpos : 1 <= Z.of_nat (length ents)) by (subst ents; simpl; lia).
  destruct Hcase as [[-> Hrun]|[Hend Hlt]]; [destruct tail|].
  - (* the end of the directory is among the free slots *)
    destruct F5 as (j0 & J1 & J2 & J3). pose proof (tidy_zeros s l i j0 Ht ltac:(lia) ltac:(lia) F4 J3 J2) as Hz.
    rewrite (slots_split s l i (nslots g l - i)) in * by lia. replace (i + (nslots g l - i)) with (nslots g l) in * by lia. rewrite (slots_from_end g s l) in * by lia. rewrite app_nil_r in *.
    destruct (insert_tail (slots_of s l 0 i) (slots_of s l i (nslots g l - i)) c N info Ht Hfit Ha) as [L T]; [|exact Hn| |].
    + exists (slots_of s l i (j0 - i)), (slots_of s l j0 (nslots g l - j0)). split_and!.
      * rewrite <- fmap_app. f_equal. replace (nslots g l - i) with ((j0 - i) + (nslots g l - j0)) by lia. rewrite seqZ_app by lia. do 2 f_equal. lia.
      * apply (slots_marks s l i (j0 - i) (fun m => m = 0xE5)). intros j Hj. apply J3. lia.
      * intros x Hx. rewrite seqZ_cons in Hx by lia. injection Hx as <-. done.
    + rewrite C1 by done. apply forallb_forall. intros x Hx%list_elem_of_In. apply list_elem_of_fmap in Hx as (j & -> & Hj%elem_of_seqZ). rewrite mark_slot, Hz by lia. done.
    + exists (listing lfn_start (slots_of s l 0 i ++ slots_of s l i (nslots g l - i))), []. rewrite app_nil_r. split_and!; done.
  - (* deleted slots *)
    rewrite C1 by done. rewrite (slots_split s l i run) in * by lia. rewrite <- Hrun in *. apply insert_deleted; try done.
    + by apply (slots_marks s l i run (fun m => m = 0xE5)).
    + intros E. apply (f_equal length) in E. rewrite length_fmap, length_seqZ in E. simpl in E. lia.
  - (* the directory was extended *)
    rewrite (slots_split s l i run) in * by lia. rewrite Hend in *. rewrite (slots_from_end g s l) in * by lia. rewrite app_nil_r in *.
    destruct (insert_tail (slots_of s l 0 i) (slots_of s l i run) c N info Ht Hfit Ha) as [L T]; [|exact Hn|apply C2; lia|].
    + destruct tail.
      * destruct F5 as (j0 & J1 & J2 & J3). exists (slots_of s l i (j0 - i)), (slots_of s l j0 (i + run - j0)). split_and!.
        -- rewrite <- fmap_app. f_equal. replace run with ((j0 - i) + (i + run - j0)) at 1 by lia. rewrite seqZ_app by lia. do 2 f_equal. lia.
        -- apply (slots_marks s l i (j0 - i) (fun m => m = 0xE5)). intros j Hj. apply J3. lia.
        -- intros x Hx. rewrite seqZ_cons in Hx by lia. injection Hx as <-. done.
      * exists (slots_of s l i run), []. rewrite app_nil_r. split_and!; try done.
        apply (slots_marks s l i run (fun m => m = 0xE5)). intros j Hj. apply F5. lia.
    + exists (listing lfn_start (slots_of s l 0 i ++ slots_of s l i run)), []. rewrite app_nil_r. split_and!; done.
Qed.

(** *** The entries of a name *)
Lemma name_entries_gives name us sg attr date time fc size wdate wtime l i :
  bytes name -> name_units name = inr us ->
  (sg = short_gen_base name \/
   exists n, 1 <= n <= 999999 /\ sg_lossy (short_gen_base name) = true /\ sg = with_raw (short_gen_base name) (tail_name (short_gen_base name) n)) ->
  is_u8 attr /\ attr .& 0x08 = 0 -> 0 <= fc < 2 ^ 32 -> 0 <= size < 2 ^ 32 -> 0 <= wdate < 2 ^ 16 /\ 0 <= wtime < 2 ^ 16 ->
  let ents := name_entries sg us attr date time fc size wdate wtime in
  let e := short_entry (sg_raw sg) attr (sg_nt sg) date time fc size wdate wtime in
  let n := Z.of_nat (length ents) in
  gives (zip (slot_pos l <$> seqZ i n) ents)
    (Info name (build_short_name e).1 attr fc (if negb (attr .& FAT32_ATTR_DIR =? 0) then 0 else size) wdate wtime (slot_pos l (i + n - 1)).1 (slot_pos l (i + n - 1)).2).
Proof.
  intros Hb Hu Hsg Ha Hfc Hsz Hw ents e n.
  pose proof (name_entries_count name us sg attr date time fc size wdate wtime Hb Hu) as Hcnt. fold ents in Hcnt.
  set (ps := slot_pos l <$> seqZ i (n - 1)). assert (Hps : length ps = (length ents - 1)%nat) by (subst ps n; rewrite length_fmap, length_seqZ; lia).
  assert (Hsplit : slot_pos l <$> seqZ i n = ps ++ [slot_pos l (i + n - 1)]).
  { subst ps. replace n with ((n - 1) + 1) at 1 by lia. rewrite seqZ_app by lia. rewrite fmap_app. f_equal. rewrite seqZ_cons, seqZ_nil by lia. simpl. do 2 f_equal. lia. }
  assert (Hused : forall qs, Forall (fun x => mark x <> 0 /\ mark x <> 0xE5) (zip qs ents)).
  { intros qs. pose proof (name_entries_used name us sg attr date time fc size wdate wtime Hb Hu Hsg Ha Hfc Hsz) as Hf. fold ents in Hf.
    revert qs. clear - Hf. induction Hf as [|x xs [_ Hx] Hf IH]; intros qs; [by destruct qs; constructor|].
    destruct qs as [|q qs]; constructor; [exact Hx|apply IH]. }
  destruct (name_entries_steps name us sg attr date time fc size wdate wtime Hb Hu Hsg Ha Hfc Hsz Hw lfn_start ps eq_refl ltac:(done) Hps) as (lfns & _ & Ee & Hlen & _ & _).
  fold ents e in Ee. rewrite Hsplit, Ee, zip_with_app by done. destruct (slot_pos l (i + n - 1)) as [cl pos] eqn:Epos. cbn [zip_with fst snd].
  apply gives_intro.
  - specialize (Hused (ps ++ [(cl, pos)])). by rewrite Ee, zip_with_app in Hused.
  - intros st (L & _) Hp. destruct (name_entries_steps name us sg attr date time fc size wdate wtime Hb Hu Hsg Ha Hfc Hsz Hw st ps L ltac:(lia) Hps) as (lfns' & st' & Ee' & _ & Hst & Hx).
    fold ents e in Ee', Hx. rewrite Ee in Ee'. apply app_inj_tail in Ee' as [<- _]. exists st'. split; [done|]. apply Hx.
Qed.

(** *** dir_add_entry *)

(** Nothing but the caches of the disk and the clock has moved. *)
Definition still s s' : Prop := same_view s s' /\ frame s s' /\ fs_inv g s'.

Lemma still_quiet s s1 s2 : still s s1 -> quiet s1 s2 -> still s s2.
Proof.
  intros (V & F & I) Hq. pose proof Hq as (d & _ & _ & V2). split_and!; [intros x; by rewrite V2|etrans; [exact F|by apply frame_quiet]|by eapply fs_inv_quiet].
Qed.
Lemma still_ticked s s1 s2 : still s s1 -> ticked s1 s2 -> still s s2.
Proof. intros (V & F & [I1 I2 I3]) [t ->]. by split_and!. Qed.

Lemma pick_name first name s : fs_inv g s -> 0 <= first < 2 ^ 32 ->
  wp (if sg_lossy (short_gen_base name) then short_pick_tail g first (short_gen_base name) else mret (short_gen_base name)) s (outcome (fun e => e < 0) s (fun sg =>
    sg = short_gen_base name \/
    exists n, 1 <= n <= 999999 /\ sg_lossy (short_gen_base name) = true /\ sg = with_raw (short_gen_base name) (tail_name (short_gen_base name) n))).
Proof.
  intros Hi Hf. destruct (sg_lossy (short_gen_base name)) eqn:El; [|apply reads_ret; [apply Hi|by left]].
  wp_apply (tail_loop_reads g Hg (Z.to_nat 999999) 1 first (short_gen_base name) s (fi_disk g s Hi) Hf). intros s' r [Hq Hr]. split; [done|].
  destruct r; [done|]. destruct Hr as (n & Hn & ->). right. exists n. split; [lia|done].
Qed.

Lemma dir_add_entry_spec first l name attr fc size wdate wtime s :
  fs_inv g s -> readonly g = false -> chain g s first l -> tidy lfn_start (dir_slots g s l) = true -> bytes name ->
  is_u8 attr /\ attr .& 0x08 = 0 -> 0 <= fc < 2 ^ 32 -> 0 <= size < 2 ^ 32 -> 0 <= wdate < 2 ^ 16 /\ 0 <= wtime < 2 ^ 16 ->
  wp (dir_add_entry g first name attr fc size wdate wtime) s (fun s' r => fs_inv g s' /\ frame s s' /\ others g s s' l /\
    match r with
    | inl e => e < 0 /\ (dk_reliable -> exists fs, grown g s s' first l fs)
    | inr i => i_name i = name /\ i_attr i = attr /\ i_first i = fc /\ i_size i = (if negb (attr .& FAT32_ATTR_DIR =? 0) then 0 else size) /\
        i_wdate i = wdate /\ i_wtime i = wtime /\
        exists fs l1 l2, chain g s' first (l ++ fs) /\ dir_list g s l = l1 ++ l2 /\ dir_list g s' (l ++ fs) = l1 ++ i :: l2 /\
          tidy lfn_start (dir_slots g s' (l ++ fs)) = true
    end).
Proof.
  intros Hi Hro Hl Ht Hb Ha Hfc Hsz Hw.
  assert (Hstill : forall s1, still s s1 -> others g s s1 l /\ chain g s1 first l /\ grown g s s1 first l [] /\ dir_slots g s1 l = dir_slots g s l).
  { intros s1 (V & _). assert (Hl1 : chain g s1 first l) by (eapply chain_same; [|done]; intros; by apply same_view_fat).
    split; [eapply others_view; [done|apply others_refl]|]. split; [done|]. split; [eapply grown_view; [done|by apply grown_refl]|by apply same_view_slots]. }
  assert (Hs0 : still s s) by (split_and!; done).
  assert (Hfirst : 0 <= first < 2 ^ 32).
  { pose proof (chain_in_vol g _ _ _ Hl) as Hv. pose proof (chain_head g _ _ _ Hl) as Hh. destruct l as [|x l']; [done|]. injection Hh as ->.
    apply Forall_cons in Hv as [Hv _]. pose proof (go_clusters g Hg) as Hc. unfold in_vol, FAT32_MAX_CLUSTERS in *. lia. }
  unfold dir_add_entry. apply wp_bind. unfold wp at 1, of_result. cbn [fst snd].
  destruct (name_units name) as [e|us] eqn:Hu.
  { destruct (Hstill s Hs0) as (O & _ & G & _). split; [done|]. split; [done|]. split; [done|]. split; [by eapply name_units_err|]. intros _. by exists []. }
  apply wp_bind. wp_apply (pick_name first name s Hi Hfirst). intros s1 r [Hq1 Hsg]. pose proof (still_quiet _ _ _ Hs0 Hq1) as Hs1.
  destruct r as [e|sg].
  { destruct (Hstill s1 Hs1) as (O & _ & G & _). destruct Hs1 as (_ & F & I). split; [done|]. split; [done|]. split; [done|]. split; [done|]. intros _. by exists []. }
  apply wp_bind. wp_apply fat_now_wp. intros s2 r (Htk & [date time] & ->). pose proof (still_ticked _ _ _ Hs1 Htk) as Hs2. cbn [fst snd].
  destruct (Hstill s2 Hs2) as (O2 & Hl2 & G2 & E2). pose proof Hs2 as (V2 & F2 & I2).
  set (ents := name_entries sg us attr date time fc size wdate wtime).
  pose proof (name_entries_count name us sg attr date time fc size wdate wtime Hb Hu) as Hcnt. fold ents in Hcnt.
  assert (Hlen32 : Forall (fun e => length e = 32%nat) ents).
  { pose proof (name_entries_used name us sg attr date time fc size wdate wtime Hb Hu Hsg Ha Hfc Hsz) as Hf. eapply Forall_impl; [exact Hf|]. by intros x [? _]. }
  assert (Hne : ents <> []) by (intros E; rewrite E in Hcnt; simpl in Hcnt; lia).
  apply wp_bind. wp_apply (dir_alloc_slots_spec first l (Z.of_nat (length ents)) s2 I2 Hro Hl2 ltac:(lia)). intros s3 r (I3 & F3 & O3 & Hr).
  destruct r as [e|c].
  { split; [done|]. split; [by etrans|]. split; [by eapply others_view|]. destruct Hr as [He Hrel]. split; [done|]. intros Hr. destruct (Hrel Hr) as (fs & G3).
    exists fs. by eapply grown_view. }
  destruct Hr as (fs & i & run & tail & G3 & Hix & Hroom & Hfree & Hcase). pose proof (gr_chain _ _ _ _ _ _ G3) as Hl3.
  apply wp_bind. wp_apply (write_entries_slots g Hg ents first (l ++ fs) i c s3 (fi_disk g s3 I3) Hl3 Hix ltac:(lia) Hne Hlen32).
  intros s4 r [Hw4 Hr]. pose proof Hw4 as ((d4 & Ed4 & Hd4) & Ht4 & Hv4).
  assert (I4 : fs_inv g s4) by (rewrite Ed4; by apply fs_inv_disk). assert (F4 : frame s s4) by (rewrite Ed4; etrans; [exact F2|etrans; [exact F3|done]]).
  assert (O4 : others g s s4 l).
  { eapply others_view; [exact V2|]. destruct O3 as [O31 O32]. pose proof (gr_fresh _ _ _ _ _ _ G3) as Hfr. rewrite Forall_forall in Hfr. split.
    - intros x Hx Hc. rewrite Hv4; [by apply O31|]. intros y Hy Hin. apply elem_of_app in Hy as [Hy|Hy].
      + assert (Hyv : in_vol g y) by (pose proof (chain_in_vol g _ _ _ Hl) as Hv; rewrite Forall_forall in Hv; by apply Hv). by destruct (Hc y Hyv Hin).
      + destruct (Hfr y Hy) as (Hyv & Hz & _). by destruct (Hc y Hyv Hin).
    - intros y Hy Hz Hn. rewrite (same_table_fat g Hg s3) by done. by apply O32. }
  destruct r as [e|at_].
  { split; [done|]. split; [done|]. split; [done|]. destruct Hr as [He Hnr]. split; [done|]. intros Hr. by destruct Hnr. }
  destruct Hr as [-> Hs4].
  pose proof (name_entries_gives name us sg attr date time fc size wdate wtime (l ++ fs) i Hb Hu Hsg Ha Hfc Hsz Hw) as Hgives. cbv zeta in Hgives. fold ents in Hgives.
  rewrite <- E2 in Ht. destruct (placed_listing s2 s3 s4 first l fs i run tail ents _ Hl2 Ht G3 Hfree Hcase Hroom Hne Hs4 Hgives) as (l1 & l2 & L1 & L2 & L3).
  pose proof (short_shown name us sg attr date time fc size wdate wtime Hb Hu Hsg Ha) as Hshown.
  destruct (build_short_name _) as [short shown] eqn:Eb. cbn [fst snd] in *. apply wp_ret. split; [done|]. split; [done|]. split; [done|].
  assert (Hname : (if sg_lfn sg then name else shown) = name) by (destruct (sg_lfn sg); [done|by apply Hshown]). rewrite Hname.
  split_and!; try done. exists fs, l1, l2. split; [by eapply within_chain|]. split; [|done]. rewrite <- L1. unfold dir_list. by rewrite E2.
Qed.
End Add.
