(* ===== verification/FatDel.v ===== *)
(** * fat32.c: deleting an entry of a directory

    entry_delete of an entry that is in the listing removes it, with the
    long-name entries before it, and leaves every other entry. *)
From S2P Require Import Prelude CString Blk Disk Fat FatTab FatFile FatIO FatWrite FatName FatUtf FatLfn FatDir FatScan FatList FatEnts FatSlots FatAdd.

Open Scope tach_scope.

(** An entry of the listing comes from one slot. *)
Lemma listing_elem st es i : i ∈ listing st es ->
  exists a cl pos e c, es = a ++ (cl, pos, e) :: c /\ Forall (fun x => mark x <> 0) a /\ byte_at e 0 <> 0 /\ dir_step (run_slots st a).1 e cl pos = inr i.
Proof.
  revert st. induction es as [|[[cl pos] e] es IH]; intros st; simpl; [by intros ?%elem_of_nil|].
  destruct (Z.eqb_spec (byte_at e 0) 0) as [|Hz]; [by intros ?%elem_of_nil|]. destruct (dir_step st e cl pos) as [st'|i'] eqn:Ed.
  - intros Hin. destruct (IH st' Hin) as (a & cl' & pos' & e' & c & -> & Ha & He & Hd). exists ((cl, pos, e) :: a), cl', pos', e', c.
    split_and!; [done|by constructor|done|]. simpl. by rewrite Ed.
  - intros [->|Hin]%elem_of_cons; [by exists [], cl, pos, e, es|]. destruct (IH lfn_start Hin) as (a & cl' & pos' & e' & c & -> & Ha & He & Hd).
    exists ((cl, pos, e) :: a), cl', pos', e', c. split_and!; [done|by constructor|done|]. simpl. rewrite Ed. by destruct (run_slots lfn_start a).
Qed.

Lemma dir_step_pos st e cl pos i : dir_step st e cl pos = inr i -> i_dir_cluster i = cl /\ i_dir_pos i = pos.
Proof.
  unfold dir_step. destruct (_ =? 0xE5); [done|]. destruct (_ =? 0x0F); [done|]. destruct (negb _); [done|]. destruct (_ && _); [done|].
  unfold entry_info. destruct (entry_names st e). by intros [= <-].
Qed.

Section Del.
Context {S : Type} `{DiskOk S} (g : geo) (Hg : geo_ok g).
Implicit Types s : fs S.
Abbreviation view_ s := (dk_view (disk s)).
Abbreviation epc := (entries_per_cluster g).
Abbreviation slots_of s l a n := (slot_at g s l <$> seqZ a n).
Abbreviation walks := (outcome (fun e => e < 0 /\ ~ dk_reliable)).

Section Entry.
Context (first : Z) (l : list Z) (info : fat32_info) (k : Z).
Hypothesis Hk : 0 <= k < nslots g l.
Hypothesis Hpos : (i_dir_cluster info, i_dir_pos info) = slot_pos g l k.

(** The cursor reaches the position of the entry at its slot only. *)
Lemma cur_at_ix s j c : chain g s first l -> cur_ix g l j c -> j < nslots g l -> cur_at info c = (j =? k).
Proof.
  intros Hl (Hj & Hc & Hp & _) Hlt. replace (j <? nslots g l) with true in Hc by lia. unfold slot_pos in Hpos. injection Hpos as P1 P2.
  unfold cur_at. rewrite Hc, Hp, P1, P2. destruct (Z.eqb_spec j k) as [->|Hne]; [by rewrite !Z.eqb_refl|].
  apply andb_false_iff. destruct (Z.eqb_spec (j mod epc) (k mod epc)) as [Em|]; [left|by right]. apply Z.eqb_neq. intros Ec.
  destruct (ix_lookup g Hg first l s j Hl ltac:(lia)) as (x & Hx & Hxt & _). destruct (ix_lookup g Hg first l s k Hl Hk) as (y & Hy & Hyt & _).
  assert (Hi : idx (j / epc) = idx (k / epc)) by (eapply NoDup_lookup; [by eapply (chain_nodup g Hg)|exact Hx|]; rewrite Hy; congruence).
  destruct (ix_div g Hg l j ltac:(lia)) as (D1 & _ & E1). destruct (ix_div g Hg l k Hk) as (D2 & _ & E2). unfold idx in Hi.
  assert (j / epc = k / epc) by lia. apply Hne. rewrite E1, E2. congruence.
Qed.

Definition lfn_slot s (j : Z) : bool := is_lfn (slot_at g s l j).

(** Before slot [j] there are [r] long-name entries, the first at [start]. *)
Definition scanned s (j r : Z) (start : option fat32_dircur) : Prop :=
  0 <= r <= j /\ (forall m, j - r <= m < j -> lfn_slot s m = true) /\ (0 < j - r -> lfn_slot s (j - r - 1) = false) /\
  match start with None => r = 0 | Some c => 0 < r /\ cur_ix g l (j - r) c end.

Lemma delete_scan_ix fuel j r c start s s0 : dk_inv (disk s) -> same_view s0 s -> chain g s first l -> cur_ix g l j c -> scanned s0 j r start -> j <= k ->
  (forall m, 0 <= m <= k -> smark g s0 l m <> 0) -> k - j < Z.of_nat fuel ->
  wp (delete_scan g fuel c start info) s (walks s (fun c' => exists r, scanned s0 k r (Some c') \/ r = 0 /\ scanned s0 k 0 None /\ cur_ix g l k c')).
Proof.
  revert j r c start s. induction fuel as [|fuel IH]; intros j r c start s Hi Hs0 Hl Hix Hsc Hjk Hnz Hf; [lia|]. cbn [delete_scan].
  eapply reads_bind; [by apply (cur_peek_ix g Hg first l)|]. intros o s1 -> Hq1. pose proof (quiet_inv _ _ Hq1) as Hi1.
  pose proof (quiet_chain g _ _ _ _ Hq1 Hl) as Hl1. replace (j <? nslots g l) with true by lia.
  rewrite (cur_at_ix s1 j c Hl1 Hix ltac:(lia)). destruct (Z.eqb_spec j k) as [->|Hne].
  - apply reads_ret; [done|]. destruct Hsc as (Hr & H1 & H2 & H3). destruct start as [c0|]; simpl; [exists r; by left|]. exists 0. right. subst r. split_and!; try done.
  - assert (Hent : slot_ent g s l j = slot_ent g s0 l j) by (unfold slot_ent; by rewrite Hs0). rewrite Hent. fold (smark g s0 l j).
    pose proof (Hnz j ltac:(destruct Hix; lia)) as Hzj. replace (smark g s0 l j =? 0) with false by lia.
    eapply reads_bind; [apply (cur_advance_ix g Hg first l); [done|done|done|lia]|]. intros c2 s2 Hix2 Hq2. pose proof (quiet_inv _ _ Hq2) as Hi2.
    assert (Hs2 : same_view s0 s2) by (destruct Hq1 as (d1 & _ & _ & V1), Hq2 as (d2 & _ & _ & V2); intros y; by rewrite V2, V1, Hs0).
    assert (Hb : lfn_slot s0 j = negb (smark g s0 l j =? 0xE5) && (byte_at (slot_ent g s0 l j) 11 .& 0x3F =? 0x0F)).
    { unfold lfn_slot, is_lfn, slot_at. cbn [snd]. change (mark _) with (smark g s0 l j). replace (smark g s0 l j =? 0) with false by lia. done. }
    rewrite <- Hb. destruct Hsc as (Hr & H1 & H2 & H3). destruct (lfn_slot s0 j) eqn:El.
    + apply (IH (j + 1) (r + 1)); try done; [by eapply quiet_chain| |lia|lia]. split; [lia|]. replace (j + 1 - (r + 1)) with (j - r) by lia. split; [|split; [done|]].
      * intros m Hm. destruct (decide (m = j)) as [->|]; [done|]. apply H1. lia.
      * split; [lia|]. destruct start as [c0|]; simpl; [apply H3|]. subst r. by rewrite Z.sub_0_r.
    + apply (IH (j + 1) 0); try done; [by eapply quiet_chain| |lia|lia]. split; [destruct Hix; lia|]. split; [intros m Hm; lia|]. split; [|done].
      intros _. by replace (j + 1 - 0 - 1) with j by lia.
Qed.

Lemma delete_loop_ix fuel j c s : dk_inv (disk s) -> chain g s first l -> cur_ix g l j c -> j <= k -> k - j < Z.of_nat fuel ->
  wp (delete_loop g fuel c info) s (fun s' r => within g s s' l /\
    match r with
    | inl e => e < 0 /\ ~ dk_reliable
    | inr _ => (forall m, j <= m <= k -> smark g s' l m = 0xE5) /\ forall m, 0 <= m < nslots g l -> m < j \/ k < m -> slot_ent g s' l m = slot_ent g s l m
    end).
Proof.
  revert j c s. induction fuel as [|fuel IH]; intros j c s Hi Hl Hix Hjk Hf; [lia|]. cbn [delete_loop].
  apply wp_bind. wp_apply (ent_delete_slot g Hg first l j c s Hi Hl Hix ltac:(lia)). intros s1 r [Hw1 Hr1]. destruct r as [|u]; [done|]. destruct Hr1 as [Hm1 Hs1].
  pose proof (within_inv g _ _ _ Hw1) as Hi1. pose proof (within_chain g Hg _ _ _ _ Hw1 Hl) as Hl1. rewrite (cur_at_ix s1 j c Hl1 Hix ltac:(lia)).
  destruct (Z.eqb_spec j k) as [->|Hne].
  { apply wp_ret. split; [done|]. split; [intros m Hm; by replace m with k by lia|]. intros m Hm Hmk. apply Hs1; lia. }
  apply wp_bind. wp_apply (cur_advance_ix g Hg first l s1 j c Hi1 Hl1 Hix ltac:(lia)). intros s2 r [Hq Hr2]. pose proof (within_quiet g _ _ l Hq) as Hw2.
  pose proof (within_trans g _ _ _ _ Hw1 Hw2) as Hw12. destruct r as [|c2]; [done|].
  wp_apply (IH (j + 1) c2 s2 (quiet_inv _ _ Hq) (within_chain g Hg _ _ _ _ Hw2 Hl1) Hr2 ltac:(lia) ltac:(lia)). intros s3 r [Hw3 Hr3].
  split; [by eapply within_trans|]. destruct r as [|u']; [done|]. destruct Hr3 as [Hm3 Hs3]. pose proof Hq as (d & _ & _ & Hv).
  assert (Hse : forall m, slot_ent g s2 l m = slot_ent g s1 l m) by (intros m; unfold slot_ent; by rewrite Hv). destruct Hix as (Hj & _). split.
  - intros m Hm. destruct (decide (m = j)) as [->|]; [|apply Hm3; lia]. unfold smark. rewrite Hs3, Hse by lia. done.
  - intros m Hm Hmk. rewrite Hs3, Hse by lia. apply Hs1; lia.
Qed.
End Entry.

(** *** entry_delete *)
Lemma entry_delete_spec first l info s : dk_inv (disk s) -> chain g s first l -> tidy lfn_start (dir_slots g s l) = true -> info ∈ dir_list g s l ->
  wp (entry_delete g first info) s (fun s' r => within g s s' l /\
    match r with
    | inl e => e < 0 /\ ~ dk_reliable
    | inr _ => exists l1 l2, dir_list g s l = l1 ++ info :: l2 /\ dir_list g s' l = l1 ++ l2 /\ tidy lfn_start (dir_slots g s' l) = true
    end).
Proof.
  intros Hi Hl Ht Hin. destruct (listing_elem _ _ _ Hin) as (a & cl & pos & e & c & Es & Ha & He & Hd).
  set (k := Z.of_nat (length a)). assert (Hlen : Z.of_nat (length (dir_slots g s l)) = nslots g l).
  { unfold dir_slots, slots_from. rewrite length_fmap, length_seqZ. unfold nslots. pose proof (epc_range g Hg). lia. }
  assert (Hk : 0 <= k < nslots g l) by (rewrite <- Hlen, Es, length_app; simpl; lia).
  assert (Hsl : forall j, 0 <= j < nslots g l -> dir_slots g s l !! idx j = Some (slot_at g s l j)).
  { intros j Hj. unfold dir_slots, slots_from, idx. rewrite list_lookup_fmap, lookup_seqZ_lt by lia. simpl. do 2 f_equal. lia. }
  assert (Hkx : slot_at g s l k = (cl, pos, e)).
  { pose proof (Hsl k Hk) as Hx. rewrite Es in Hx. assert (Ek : idx k = length a) by (unfold k, idx; lia). rewrite Ek, list_lookup_middle in Hx by done. congruence. }
  assert (Hpos : (i_dir_cluster info, i_dir_pos info) = slot_pos g l k).
  { destruct (dir_step_pos _ _ _ _ _ Hd) as [-> ->]. unfold slot_at in Hkx. unfold slot_pos. congruence. }
  assert (Hnz : forall m, 0 <= m <= k -> smark g s l m <> 0).
  { intros m Hm. destruct (decide (m = k)) as [->|Hne]; [change (smark g s l k) with (mark (slot_at g s l k)); by rewrite Hkx|].
    pose proof (Hsl m ltac:(lia)) as Hx. rewrite Es in Hx. rewrite lookup_app_l in Hx by (unfold k, idx in *; lia). by apply (Forall_lookup_1 _ _ _ _ Ha) in Hx. }
  unfold entry_delete. apply wp_bind. pose proof (cur_init_ix g Hg s first l (or_intror Hl)) as Hix.
  assert (Hsc : scanned l s 0 0 None) by (split_and!; try done; intros; lia).
  wp_apply (delete_scan_ix first l info k Hk Hpos (dir_fuel g (cur_init first)) 0 0 (cur_init first) None s s Hi ltac:(done) Hl Hix Hsc ltac:(lia) Hnz).
  { pose proof (ahead_ix g Hg first l s 0 _ Hl Hix). lia. }
  intros s1 r [Hq Hr]. pose proof (within_quiet g _ _ l Hq) as Hw1. destruct r as [|c0]; [done|]. pose proof (quiet_inv _ _ Hq) as Hi1. pose proof (quiet_chain g _ _ _ _ Hq Hl) as Hl1.
  assert (Hj : exists j0, 0 <= j0 <= k /\ cur_ix g l j0 c0 /\ (forall m, j0 <= m < k -> lfn_slot l s m = true) /\ (0 < j0 -> lfn_slot l s (j0 - 1) = false)).
  { destruct Hr as (r & [(R1 & R2 & R3 & R4 & R5)|(-> & (R1 & R2 & R3 & _) & R5)]).
    - exists (k - r). split; [lia|]. split; [done|]. split; done.
    - exists k. rewrite Z.sub_0_r in R2, R3. split; [lia|]. split; [done|]. split; done. }
  destruct Hj as (j0 & Hj0 & Hix0 & Hlfn & Hbefore).
  wp_apply (delete_loop_ix first l info k Hk Hpos (dir_fuel g c0) j0 c0 s1 Hi1 Hl1 Hix0 ltac:(lia)).
  { pose proof (ahead_ix g Hg first l s1 j0 c0 Hl1 Hix0). lia. }
  intros s2 r [Hw2 Hr2]. split; [by eapply within_trans|]. destruct r as [|u]; [done|]. destruct Hr2 as [Hm2 Hs2]. pose proof Hq as (d & _ & _ & Hv).
  assert (Hold : forall m, 0 <= m < nslots g l -> m < j0 \/ k < m -> slot_at g s2 l m = slot_at g s l m).
  { intros m Hm Hmk. unfold slot_at. rewrite Hs2 by done. unfold slot_ent. by rewrite Hv. }
  assert (Hnew : dir_slots g s2 l = slots_of s l 0 j0 ++ slots_of s2 l j0 (k - j0 + 1) ++ slots_from g s l (k + 1)).
  { rewrite (slots_split g s2 l j0 (k - j0 + 1)) by lia. replace (j0 + (k - j0 + 1)) with (k + 1) by lia. f_equal; [|f_equal]; apply list_fmap_ext; intros _ m Hm%list_elem_of_lookup_2%elem_of_seqZ; apply Hold; lia. }
  assert (Ea : a = slots_of s l 0 j0 ++ slots_of s l j0 (k - j0) /\ c = slots_from g s l (k + 1)).
  { pose proof (slots_split g s l j0 (k - j0) ltac:(lia) ltac:(lia) ltac:(lia)) as E2. replace (j0 + (k - j0)) with k in E2 by lia. rewrite slots_from_cons, Hkx in E2 by lia.
    rewrite Es, app_assoc in E2. apply app_inj_1 in E2 as [Ea Ec]; [|rewrite length_app, !length_fmap, !length_seqZ; unfold k in *; lia]. split; [done|by injection Ec]. }
  destruct Ea as [Ea Ec]. unfold dir_list. rewrite Hnew.
  assert (Ht' : tidy lfn_start (slots_of s l 0 j0 ++ slots_of s l j0 (k - j0) ++ (cl, pos, e) :: slots_from g s l (k + 1)) = true).
  { by rewrite app_assoc, <- Ea, <- Ec, <- Es. }
  destruct (delete_slots (slots_of s l 0 j0) (slots_of s l j0 (k - j0)) cl pos e (slots_from g s l (k + 1)) (slots_of s2 l j0 (k - j0 + 1)) info Ht') as (l1 & l2 & L1 & _ & L2 & L3); try done.
  - rewrite app_assoc, <- Ea, <- Ec, <- Es. by eapply slots_fit.
  - pose proof (slots_fit g Hg s2 first l (within_chain g Hg _ _ _ _ Hw2 Hl1)) as Hf. rewrite Hnew in Hf. apply Forall_app in Hf as [_ Hf]. by apply Forall_app in Hf as [Hf _].
  - apply (slots_marks g s l 0 j0 (fun m => m <> 0)). intros m Hm. apply Hnz. lia.
  - intros x Hx. rewrite last_lookup, length_fmap, length_seqZ in Hx. destruct (decide (0 < j0)) as [Hj|Hj].
    + rewrite list_lookup_fmap, lookup_seqZ_lt in Hx by lia. injection Hx as <-. replace (0 + _) with (j0 - 1) by lia. by apply Hbefore.
    + replace j0 with 0 in Hx by lia. done.
  - apply Forall_fmap, Forall_forall. intros m Hm%elem_of_seqZ. apply Hlfn. lia.
  - by rewrite <- Ea.
  - apply (slots_marks g s2 l j0 (k - j0 + 1) (fun m => m = 0xE5)). intros m Hm. apply Hm2. lia.
  - exists l1, l2. split_and!; [|done|done]. rewrite <- L1. by rewrite app_assoc, <- Ea, <- Ec, <- Es.
Qed.
End Del.
