(* ===== verification/FatTree.v ===== *)
(** * fat32.c: creating and removing files

    The whole calls fat32_create and fat32_unlink on a name of the root
    directory: path resolution, the busy flag, the entry and the clusters. *)
From S2P Require Import Prelude CString Blk Disk Fat FatTab FatFile FatIO FatWrite FatProps FatName FatUtf FatLfn FatDir FatScan FatList FatEnts FatSlots FatAdd FatDel.

Open Scope tach_scope.

(** ** Names and lists *)
Lemma name_eq_refl a : name_eq a a = true.
Proof. induction a as [|c a IH]; [done|]. simpl. by rewrite Z.eqb_refl. Qed.

Lemma find_name_app name l1 l2 : find_name name (l1 ++ l2) = match find_name name l1 with Some i => Some i | None => find_name name l2 end.
Proof. induction l1 as [|i l1 IH]; [done|]. simpl. by destruct (matches name i). Qed.

Lemma find_name_insert name l1 i l2 : find_name name (l1 ++ l2) = None -> i_name i = name -> find_name name (l1 ++ i :: l2) = Some i.
Proof.
  rewrite !find_name_app. destruct (find_name name l1); [done|]. intros _ <-. simpl. unfold matches. by rewrite name_eq_refl.
Qed.

Lemma find_name_elem name l i : find_name name l = Some i -> i ∈ l.
Proof. induction l as [|j l IH]; [done|]. simpl. destruct (matches name j); [intros [= ->]; by left|intros E; right; by apply IH]. Qed.

Lemma path_skip_plain p : 47 ∉ p -> path_skip p = p.
Proof. destruct p as [|c p]; [done|]. intros [Hc _]%not_elem_of_cons. simpl. by replace (c =? 47) with false by lia. Qed.
Lemma path_part_plain p : 47 ∉ p -> path_part p = (p, []).
Proof. induction p as [|c p IH]; [done|]. intros [Hc Hp]%not_elem_of_cons. simpl. replace (c =? 47) with false by lia. by rewrite IH. Qed.

Lemma split_leaf_plain p : 47 ∉ p -> split_leaf p = (p, []).
Proof.
  intros Hp. assert (Hr : 47 ∉ rev p) by (rewrite list_elem_of_In, <- in_rev, <- list_elem_of_In; done).
  unfold split_leaf, trim_slashes. by rewrite (path_skip_plain (rev p)), rev_involutive, path_part_plain, rev_involutive by done.
Qed.

(** Slots added at the end with the end mark change no listing. *)
Lemma listing_zeros st es zs : forallb (fun x => mark x =? 0) zs = true -> tidy st es = true ->
  listing st (es ++ zs) = listing st es /\ tidy st (es ++ zs) = true.
Proof.
  intros Hz. revert st. induction es as [|[[cl pos] e] es IH]; intros st Ht; simpl in *.
  - destruct (zeros_listing st zs Hz) as [E1 E2]. split; [done|]. apply E2. lia.
  - destruct (byte_at e 0 =? 0).
    + apply andb_true_iff in Ht as [-> Ht]. split; [done|]. rewrite forallb_app, Ht, Hz. done.
    + destruct (byte_at e 0 =? 0xE5) eqn:E5.
      * apply andb_true_iff in Ht as [-> Ht]. simpl. assert (Ed : dir_step st e cl pos = inl (drop_lfn st)) by (unfold dir_step; by rewrite E5).
        rewrite Ed. by apply IH.
      * destruct (dir_step st e cl pos) as [st'|i]; [by apply IH|]. destruct (IH lfn_start Ht) as [-> ->]. done.
Qed.

Section Tree.
Context {S : Type} `{DiskOk S} (g : geo) (Hg : geo_ok g).
Implicit Types s : fs S.
Abbreviation view_ s := (dk_view (disk s)).

Lemma grown_listing s s' first l fs : chain g s first l -> tidy lfn_start (dir_slots g s l) = true -> grown g s s' first l fs ->
  dir_list g s' (l ++ fs) = dir_list g s l /\ tidy lfn_start (dir_slots g s' (l ++ fs)) = true.
Proof.
  intros Hl Ht Hgr. assert (Hn : 0 <= nslots g l) by (unfold nslots; pose proof (epc_range g Hg); lia).
  assert (Hnn : nslots g l <= nslots g (l ++ fs)) by (unfold nslots; rewrite length_app; pose proof (epc_range g Hg); nia).
  assert (E : dir_slots g s' (l ++ fs) = dir_slots g s l ++ slots_from g s' (l ++ fs) (nslots g l)).
  { rewrite (slots_split g s' (l ++ fs) 0 (nslots g l)) by lia. simpl. f_equal. unfold dir_slots, slots_from. rewrite Z.sub_0_r. apply list_fmap_ext.
    intros _ j Hj%list_elem_of_lookup_2%elem_of_seqZ. pose proof (grown_slot g Hg s s' first l fs j Hl Hgr ltac:(lia)) as Hs. by replace (j <? nslots g l) with true in Hs by lia. }
  unfold dir_list. rewrite E. apply listing_zeros; [|done]. apply forallb_forall. intros x Hx%list_elem_of_In. apply list_elem_of_fmap in Hx as (j & -> & Hj%elem_of_seqZ).
  pose proof (grown_slot g Hg s s' first l fs j Hl Hgr ltac:(lia)) as Hs. replace (j <? nslots g l) with false in Hs by lia. unfold smark in Hs. unfold mark, slot_at. simpl. by rewrite Hs.
Qed.

(** *** Other files *)
Lemma others_content s s' l : others g s s' l -> others_kept g s l s'.
Proof.
  intros [O1 O2] c0 l0 Hl Hdis. pose proof (chain_in_vol g _ _ _ Hl) as Hv. rewrite Forall_forall in Hv. split.
  - eapply chain_same; [|exact Hl]. intros x Hx. apply O2; [auto|by eapply chain_nonzero|auto].
  - intros size Hsz. apply content_ext. intros o Ho. destruct (flba_in g Hg s c0 l0 o Hl ltac:(lia)) as (c & Hc & Hcv & Hcin).
    unfold fbyte. rewrite O1; [done|by eapply in_cluster_outside|]. intros c' Hc' Hin.
    pose proof (in_cluster_inj g Hg _ _ _ Hin Hcin) as ->. assert (c ∈ l0) by (by eapply list_elem_of_lookup_2). split; [by eapply chain_nonzero|auto].
Qed.

Lemma within_others s s' l : within g s s' l -> (forall c, c ∈ l -> in_vol g c) -> others g s s' l.
Proof.
  intros (_ & Ht & Hv) Hl. split.
  - intros x Hx Hc. apply Hv. intros c Hin Hcx. by destruct (Hc c (Hl c Hin) Hcx).
  - intros c Hc _ _. by apply (same_table_fat g Hg).
Qed.

(** *** Path resolution of a name of the root directory *)
Lemma lookup_root s (Q : fs S -> Z + fat32_info -> Prop) : Q s (inr (root_info g)) -> wp (fat32_lookup g []) s Q.
Proof. intros Hq. by apply wp_ret. Qed.

Lemma lookup_leaf leaf s (Q : fs S -> Z + fat32_info -> Prop) : 47 ∉ leaf -> leaf <> [] -> leaf <> [46] -> (length leaf <= 255)%nat ->
  wp (dir_find g (root_cluster g) leaf) s Q -> wp (fat32_lookup g leaf) s Q.
Proof.
  intros Hs Hne Hdot Hlen Hq. unfold fat32_lookup. cbn [lookup_loop]. rewrite path_skip_plain by done. destruct leaf as [|c leaf'] eqn:El; [done|]. rewrite <- El in *.
  rewrite path_part_plain by done. replace (FAT32_NAME_MAX <? Z.of_nat (length leaf)) with false by (unfold FAT32_NAME_MAX; lia).
  rewrite bool_decide_false by done. change (negb (has_attr FAT32_ATTR_DIR (root_info g))) with false. cbn iota. apply wp_bind. eapply wp_mono; [exact Hq|].
  intros s1 [e|i] Hr; [done|]. rewrite El. by apply wp_ret.
Qed.

Lemma resolve_root leaf l s : dk_inv (disk s) -> chain g s (root_cluster g) l -> 47 ∉ leaf ->
  wp (resolve_leaf_ex g leaf) s (fun s' r => quiet s s' /\
    match r with
    | inl e => e < 0
    | inr (LeafFound p pp lf i) => p = root_info g /\ lf = leaf /\ leaf <> [] /\ leaf <> [46] /\ (length leaf <= 255)%nat /\ find_name leaf (dir_list g s l) = Some i
    | inr (LeafMissing p pp lf) => p = root_info g /\ lf = leaf /\ leaf <> [] /\ leaf <> [46] /\ (length leaf <= 255)%nat /\ (dk_reliable -> find_name leaf (dir_list g s l) = None)
    | inr NoParent => False
    end).
Proof.
  intros Hi Hl Hs. unfold resolve_leaf_ex. rewrite split_leaf_plain by done. pose proof (quiet_refl s Hi) as Hq0.
  case_bool_decide as Hne; [by apply wp_fail|]. unfold FAT32_NAME_MAX. destruct (Z.ltb_spec 255 (Z.of_nat (length leaf))) as [|Hlen]; [by apply wp_fail|].
  change (FAT32_PATH_BUF <=? Z.of_nat (length [])) with false. cbn iota.
  destruct (bool_decide (leaf = [46])) eqn:E1; [by apply wp_fail|]. destruct (bool_decide (leaf = [46; 46])) eqn:E2; [by apply wp_fail|]. apply bool_decide_eq_false in E1. cbn [orb].
  apply wp_bind, wp_try, lookup_root. change (negb (has_attr FAT32_ATTR_DIR (root_info g))) with false. cbn iota.
  apply wp_bind, wp_try. wp_apply (dir_find_list g Hg (root_cluster g) l leaf s Hi (or_intror Hl)). intros s1 r [Hq Hr]. destruct r as [e|i].
  - destruct Hr as [He Hrel]. destruct (e =? - ENOENT).
    + apply wp_ret. split; [done|]. split_and!; try done; try lia. intros Hr. by destruct (Hrel Hr).
    + by apply wp_fail.
  - apply wp_ret. split; [done|]. split_and!; try done; lia.
Qed.

(** *** The busy flag *)
Lemma dirop_wp {A} (m : fatM S A) s (Q : fs S -> Z + A -> Prop) : dir_busy s = false ->
  wp m (set_dir_busy true s) (fun s' r => Q (set_dir_busy false s') r) -> wp (dirop m) s Q.
Proof.
  intros Hb Hm. unfold dirop. apply wp_bind, wp_get. rewrite Hb. apply wp_bind, wp_modify, wp_bind, wp_try. eapply wp_mono; [exact Hm|].
  intros s' r Hq. apply wp_bind, wp_modify. unfold wp, of_result. simpl. done.
Qed.

Lemma busy_chain b s c l : chain g (set_dir_busy b s) c l <-> chain g s c l.
Proof. split; apply chain_same; done. Qed.
Lemma busy_inv b s : fs_inv g s -> fs_inv g (set_dir_busy b s).
Proof. intros [I1 I2 I3]. by split. Qed.
Lemma busy_grown b s s' first l fs : grown g s s' first l fs -> grown g s (set_dir_busy b s') first l fs.
Proof. intros [G1 G2 G3]. split; [by apply busy_chain|done|done]. Qed.

(** The clock gives 16-bit dates and times. *)
Definition clock_ok s : Prop :=
  match g_clock s with Some clock => forall n, 0 <= (clock n).1 < 2 ^ 16 /\ 0 <= (clock n).2 < 2 ^ 16 | None => True end.

Lemma fat_now_range s : clock_ok s -> wp (@fat_now S) s (fun s' r => ticked s s' /\ exists d t, r = inr (d, t) /\ 0 <= d < 2 ^ 16 /\ 0 <= t < 2 ^ 16).
Proof.
  intros Hc. unfold wp, fat_now, ticked, clock_ok in *. destruct (g_clock s) as [clock|]; simpl.
  - split; [by eexists|]. destruct (Hc (ticks s)). destruct (clock (ticks s)) as [d t]. by exists d, t.
  - split; [exists (ticks s); by destruct s|]. eexists _, _. split; [done|]. by split.
Qed.

(** *** fat32_create *)
Definition created s (l leaf : list Z) s' (i : fat32_info) : Prop :=
  i_name i = leaf /\ i_attr i = FAT32_ATTR_ARCH /\ i_first i = 0 /\ i_size i = 0 /\
  exists fs l1 l2, chain g s' (root_cluster g) (l ++ fs) /\ dir_list g s l = l1 ++ l2 /\ dir_list g s' (l ++ fs) = l1 ++ i :: l2 /\
    tidy lfn_start (dir_slots g s' (l ++ fs)) = true.

Lemma fat32_create_spec l leaf s : fs_inv g s -> readonly g = false -> dir_busy s = false -> chain g s (root_cluster g) l ->
  tidy lfn_start (dir_slots g s l) = true -> clock_ok s -> bytes leaf -> 47 ∉ leaf ->
  wp (fat32_create g (Some leaf)) s (fun s' r => fs_inv g s' /\ dir_busy s' = false /\ open_list s' = open_list s /\ g_clock s' = g_clock s /\ others g s s' l /\
    match r with
    | inl e => e < 0 /\ (dk_reliable -> exists fs, grown g s s' (root_cluster g) l fs)
    | inr i => (leaf <> [] /\ leaf <> [46] /\ (length leaf <= 255)%nat) /\ (dk_reliable -> find_name leaf (dir_list g s l) = None) /\ created s l leaf s' i
    end).
Proof.
  intros Hi Hro Hb Hl Ht Hck Hby Hs. unfold fat32_create, with_path. rewrite Hro. apply dirop_wp; [done|]. set (s0 := set_dir_busy true s).
  assert (Hi0 : fs_inv g s0) by by apply busy_inv. assert (Hl0 : chain g s0 (root_cluster g) l) by by apply busy_chain.
  assert (Hend : forall s1 r, still g s0 s1 -> (forall x, r = inr x -> False) -> (forall e, r = inl e -> e < 0) ->
    fs_inv g (set_dir_busy false s1) /\ dir_busy (set_dir_busy false s1) = false /\ open_list (set_dir_busy false s1) = open_list s /\
    g_clock (set_dir_busy false s1) = g_clock s /\ others g s (set_dir_busy false s1) l /\
    match r with
    | inl e => e < 0 /\ (dk_reliable -> exists fs, grown g s (set_dir_busy false s1) (root_cluster g) l fs)
    | inr i => (leaf <> [] /\ leaf <> [46] /\ (length leaf <= 255)%nat) /\ (dk_reliable -> find_name leaf (dir_list g s l) = None) /\ created s l leaf (set_dir_busy false s1) i
    end).
  { intros s1 r (V & (F1 & F2 & F3) & I) H1 H2. split; [by apply busy_inv|]. split; [done|]. split; [done|]. split; [done|].
    split; [change (others g s s1 l); eapply (others_view g s s1); [exact V|apply others_refl]|]. destruct r as [e|x]; [|destruct (H1 x eq_refl)]. split; [by apply H2|]. intros _. exists [].
    apply busy_grown, (grown_view g s s1); [exact V|]. apply grown_refl. eapply chain_same; [|exact Hl]. intros c _. by apply same_view_fat. }
  assert (Hs0 : still g s0 s0) by (by split_and!).
  unfold create_locked. apply wp_bind. wp_apply (resolve_root leaf l s0 (fi_disk g s0 Hi0) Hl0 Hs). intros s1 r [Hq1 Hr]. pose proof (still_quiet g _ _ _ Hs0 Hq1) as Hst1.
  destruct r as [e|[p pp lf i|p pp lf|]]; [by apply (Hend s1 (inl e)); [| |intros ? [= <-]]| | |done].
  { apply wp_fail. apply (Hend s1 (inl (- EEXIST))); [done|done|by intros ? [= <-]]. }
  destruct Hr as (-> & -> & Hne & Hdot & Hlen & Hnone). apply wp_bind. unfold wp at 1, of_result. cbn [fst snd].
  destruct (name_units leaf) as [e|us] eqn:Hu; [apply (Hend s1 (inl e)); [done|done|intros ? [= <-]; by eapply name_units_err]|].
  assert (Hck1 : clock_ok s1) by (unfold clock_ok; destruct Hst1 as (_ & (_ & _ & ->) & _); exact Hck).
  apply wp_bind. wp_apply (fat_now_range s1 Hck1). intros s2 r (Htk & d & tm & -> & Hd & Htm). pose proof (still_ticked g _ _ _ Hst1 Htk) as Hst2. cbn [fst snd].
  change (negb (FAT32_ATTR_ARCH .& FAT32_ATTR_DIR =? 0)) with false. cbn iota. apply wp_bind, wp_ret. apply wp_bind, wp_try. change (i_first (root_info g)) with (root_cluster g).
  pose proof Hst2 as (V2 & (F21 & F22 & F23) & I2). assert (Hl2 : chain g s2 (root_cluster g) l) by (eapply chain_same; [|exact Hl]; intros c _; by apply (same_view_fat g s0)).
  assert (E2 : dir_slots g s2 l = dir_slots g s l) by (apply (same_view_slots g s0 s2 l 0 V2)).
  assert (Ht2 : tidy lfn_start (dir_slots g s2 l) = true) by by rewrite E2.
  wp_apply (dir_add_entry_spec g Hg (root_cluster g) l leaf FAT32_ATTR_ARCH 0 0 d tm s2 I2 Hro Hl2 Ht2 Hby ltac:(by split) ltac:(lia) ltac:(lia) ltac:(by split)).
  intros s3 r (I3 & (F31 & F32 & F33) & O3 & Hr). assert (O3' : others g s s3 l) by (by eapply (others_view g s0 s2)). destruct r as [e|i].
  - apply wp_bind. change (negb (0 =? 0)) with false. cbn iota. apply wp_ret, wp_fail. split; [by apply busy_inv|]. split; [done|]. split; [simpl; by rewrite F32, F22|]. split; [simpl; by rewrite F33, F23|].
    split; [done|]. destruct Hr as [He Hrel]. split; [done|]. intros Hr. destruct (Hrel Hr) as (fs & G). exists fs. apply busy_grown, (grown_view g s s2); [exact V2|exact G].
  - apply wp_ret. split; [by apply busy_inv|]. split; [done|]. split; [simpl; by rewrite F32, F22|]. split; [simpl; by rewrite F33, F23|]. split; [done|]. split; [done|]. split; [exact Hnone|].
    destruct Hr as (N1 & N2 & N3 & N4 & _ & _ & fs & l1 & l2 & C1 & C2 & C3 & C4). split; [done|]. split; [done|]. split; [done|]. split; [done|].
    exists fs, l1, l2. split; [by apply busy_chain|]. split; [|done]. rewrite <- C2. unfold dir_list. by rewrite E2.
Qed.

(** *** fat32_unlink *)

(** The files of the directory have chains of their own. *)
Definition files_ok s (l : list Z) : Prop := forall i, i ∈ dir_list g s l -> has_attr FAT32_ATTR_DIR i = false ->
  i_first i = 0 \/ exists lf, chain g s (i_first i) lf /\ forall x, x ∈ lf -> x ∉ l.

Definition removed s (l leaf : list Z) s' : Prop :=
  exists i l1 l2 lf, find_name leaf (dir_list g s l) = Some i /\ has_attr FAT32_ATTR_DIR i = false /\ has_attr FAT32_ATTR_RO i = false /\
    open_find (open_list s) i = None /\ chain g s' (root_cluster g) l /\ dir_list g s l = l1 ++ i :: l2 /\ dir_list g s' l = l1 ++ l2 /\
    tidy lfn_start (dir_slots g s' l) = true /\ (i_first i = 0 /\ lf = [] \/ chain g s (i_first i) lf) /\ (forall c, c ∈ lf -> fat g s' c = 0) /\
    others g s s' (l ++ lf).

Lemma same_rest_slots s s' first l : chain g s first l -> same_rest g s s' -> dir_slots g s' l = dir_slots g s l.
Proof.
  intros Hl Hr. unfold dir_slots, slots_from. apply list_fmap_ext. intros _ j Hj%list_elem_of_lookup_2%elem_of_seqZ. unfold slot_at, slot_ent.
  destruct (slot_in_cluster g Hg s first l j Hl ltac:(lia)) as (c & _ & _ & Hv & Hin). by rewrite Hr by (by eapply in_cluster_outside).
Qed.

(** The checks and the entry: everything before the chain is freed. *)
Definition free_step (i : fat32_info) : fatM S unit := if negb (i_first i =? 0) then cluster_free_chain g (i_first i) else mret tt.

Lemma free_step_spec s s2 l i lf : within g s s2 l -> fs_inv g s2 -> chain g s (root_cluster g) l ->
  (i_first i = 0 /\ lf = [] \/ chain g s (i_first i) lf /\ forall x, x ∈ lf -> x ∉ l) ->
  wp (free_step i) s2 (fun s' r => fs_inv g s' /\ frame s2 s' /\
    match r with
    | inl e => e < 0 /\ ~ dk_reliable
    | inr _ => chain g s' (root_cluster g) l /\ dir_slots g s' l = dir_slots g s2 l /\ (forall c, c ∈ lf -> fat g s' c = 0) /\ others g s s' (l ++ lf)
    end).
Proof.
  intros Hw Hi Hl Hlf. pose proof (within_chain g Hg _ _ _ _ Hw Hl) as Hl2. pose proof (chain_in_vol g _ _ _ Hl) as Hv. rewrite Forall_forall in Hv.
  pose proof Hw as (_ & Ht & Hview). unfold free_step. destruct Hlf as [[-> ->]|[Hf Hdis]].
  - apply wp_ret. split; [done|]. split; [done|]. split; [done|]. split; [done|]. split; [by intros c ?%elem_of_nil|]. rewrite app_nil_r. by apply within_others.
  - pose proof (chain_in_vol g _ _ _ Hf) as Hfv. rewrite Forall_forall in Hfv. assert (Hf2 : chain g s2 (i_first i) lf).
    { eapply chain_same; [|exact Hf]. intros x Hx. apply (same_table_fat g Hg); [done|by apply Hfv]. }
    assert (Hnz : (i_first i =? 0) = false).
    { pose proof (chain_head g _ _ _ Hf) as Hh. destruct lf as [|x lf']; [done|]. injection Hh as ->. assert (Hx : in_vol g (i_first i)) by (apply Hfv; by left). unfold in_vol in Hx. lia. }
    rewrite Hnz. simpl negb. cbv iota. wp_apply (cluster_free_chain_wp g Hg (i_first i) lf s2 Hi Hf2). intros s3 r (I3 & F3 & R3 & K3 & _ & Hr). split; [done|]. split; [done|].
    destruct r as [e|u]; [done|]. destruct Hr as (Z3 & _). split; [|split; [|split; [done|split]]].
    + eapply chain_same; [|exact Hl2]. intros x Hx. apply K3; [by apply Hv|]. intros Hxf. by apply (Hdis x Hxf).
    + by eapply same_rest_slots.
    + intros x Hx Hc. rewrite R3 by done. apply Hview. intros c Hin Hcx. destruct (Hc c (Hv c Hin) Hcx) as [_ Hn]. apply Hn, elem_of_app. by left.
    + intros c Hc Hcz Hn. rewrite not_elem_of_app in Hn. destruct Hn as [_ Hn]. rewrite K3 by done. by apply (same_table_fat g Hg).
Qed.

Lemma fat32_unlink_spec l leaf s : fs_inv g s -> readonly g = false -> dir_busy s = false -> chain g s (root_cluster g) l ->
  tidy lfn_start (dir_slots g s l) = true -> files_ok s l -> 47 ∉ leaf ->
  wp (fat32_unlink g (Some leaf)) s (fun s' r => fs_inv g s' /\ dir_busy s' = false /\ open_list s' = open_list s /\
    match r with
    | inl e => e < 0 /\ (dk_reliable -> same_view s s')
    | inr _ => removed s l leaf s'
    end).
Proof.
  intros Hi Hro Hb Hl Ht Hfiles Hs. unfold fat32_unlink, with_path. rewrite Hro. apply dirop_wp; [done|]. set (s0 := set_dir_busy true s).
  assert (Hi0 : fs_inv g s0) by by apply busy_inv. assert (Hl0 : chain g s0 (root_cluster g) l) by by apply busy_chain.
  unfold remove_locked. apply wp_bind. unfold resolve_leaf. apply wp_bind. wp_apply (resolve_root leaf l s0 (fi_disk g s0 Hi0) Hl0 Hs). intros s1 r [Hq1 Hr].
  pose proof Hq1 as (d1 & E1 & Hd1 & V1). pose proof (fs_inv_quiet g _ _ Hq1 Hi0) as Hi1. pose proof (frame_quiet _ _ Hq1) as (F11 & F12 & F13).
  assert (Hend : forall e, e < 0 -> fs_inv g (set_dir_busy false s1) /\ dir_busy (set_dir_busy false s1) = false /\ open_list (set_dir_busy false s1) = open_list s /\
    (e < 0 /\ (dk_reliable -> same_view s (set_dir_busy false s1)))).
  { intros e He. split; [by apply busy_inv|]. split; [done|]. split; [done|]. split; [done|]. intros _. exact V1. }
  destruct r as [e|[p pp lf i|p pp lf|]]; [by apply Hend| |by apply wp_fail, Hend|done].
  destruct Hr as (-> & -> & _ & _ & _ & Hfind). apply wp_ret. cbn [andb negb].
  destruct (has_attr FAT32_ATTR_DIR i) eqn:Edir; [by apply wp_fail, Hend|]. destruct (has_attr FAT32_ATTR_RO i) eqn:Ero; [by apply wp_fail, Hend|].
  destruct (i_dir_cluster i =? 0); [by apply wp_fail, Hend|]. apply wp_bind, wp_get. rewrite F12. change (open_list s0) with (open_list s). case_bool_decide as Hopen; [by apply wp_fail, Hend|].
  apply wp_bind, wp_ret. apply wp_bind. change (i_first (root_info g)) with (root_cluster g).
  assert (Hl1 : chain g s1 (root_cluster g) l) by by eapply quiet_chain. assert (Es1 : dir_slots g s1 l = dir_slots g s l) by (apply (same_view_slots g s0 s1 l 0 V1)).
  assert (Ht1 : tidy lfn_start (dir_slots g s1 l) = true) by by rewrite Es1. assert (Hin : i ∈ dir_list g s1 l).
  { unfold dir_list. rewrite Es1. by eapply find_name_elem. }
  wp_apply (entry_delete_spec g Hg (root_cluster g) l i s1 (fi_disk g s1 Hi1) Hl1 Ht1 Hin). intros s2 r [Hw2 Hr]. pose proof Hw2 as ((d2 & E2 & Hd2) & _).
  assert (Hi2 : fs_inv g s2) by (rewrite E2; by apply fs_inv_disk).
  assert (Hbad : forall s' e, fs_inv g s' -> frame s2 s' -> e < 0 /\ ~ dk_reliable -> fs_inv g (set_dir_busy false s') /\ dir_busy (set_dir_busy false s') = false /\ open_list (set_dir_busy false s') = open_list s /\
    (e < 0 /\ (dk_reliable -> same_view s (set_dir_busy false s')))).
  { intros s' e I' (_ & F' & _) [He Hn]. split; [by apply busy_inv|]. split; [done|]. split; [simpl; rewrite F', E2; exact F12|]. split; [done|]. intros Hr'. by destruct Hn. }
  destruct r as [e|u]; [by apply Hbad|]. destruct Hr as (l1 & l2 & L1 & L2 & L3).
  assert (Hlf : exists lf, i_first i = 0 /\ lf = [] \/ chain g s (i_first i) lf /\ forall x, x ∈ lf -> x ∉ l).
  { destruct (Hfiles i) as [E|(lf & Hc & Hd)]; [by eapply find_name_elem|done|exists []; by left|exists lf; by right]. }
  destruct Hlf as (lf & Hlf).
  assert (Hlf1 : i_first i = 0 /\ lf = [] \/ chain g s1 (i_first i) lf /\ forall x, x ∈ lf -> x ∉ l).
  { destruct Hlf as [?|[Hc Hd]]; [by left|right]. split; [|done]. eapply chain_same; [|exact Hc]. intros x _. by apply (same_view_fat g s0). }
  wp_apply (free_step_spec s1 s2 l i lf Hw2 Hi2 Hl1 Hlf1). intros s3 r (I3 & F3 & Hr). destruct r as [e|u']; [by apply Hbad|].
  destruct Hr as (C3 & D3 & Z3 & O3). split; [by apply busy_inv|]. split; [done|]. split; [destruct F3 as (_ & F3 & _); simpl; rewrite F3, E2; exact F12|].
  exists i, l1, l2, lf. split; [done|]. split; [done|]. split; [done|]. split; [destruct (open_find (open_list s) i); [by destruct Hopen|done]|]. split; [by apply busy_chain|].
  split; [by rewrite <- L1; unfold dir_list; rewrite Es1|]. split; [rewrite <- L2; unfold dir_list; change (dir_slots g (set_dir_busy false s3) l) with (dir_slots g s3 l); by rewrite D3|].
  split; [change (dir_slots g (set_dir_busy false s3) l) with (dir_slots g s3 l); by rewrite D3|]. split; [tauto|]. split; [done|].
  change (others g s s3 (l ++ lf)). eapply (others_view g s s1); [exact V1|exact O3].
Qed.
End Tree.
