(* ===== verification/FatDirProps.v ===== *)
(** * fat32.c: the properties of names and directories

    A directory is the list of its visible entries ([dir_list]); [tidy] says
    that no long-name entry is without its 8.3 entry and that nothing follows
    the end mark. At the end, concrete runs on a small volume. *)
From S2P Require Import Prelude CString Blk Disk Fat FatTab FatFile FatIO FatWrite FatProps FatName FatUtf FatLfn FatDir FatScan FatList FatEnts FatSlots FatAdd FatDel FatTree.

Open Scope tach_scope.

(** C11: every name the driver accepts survives the way to disk and back. The
    UTF-8 name becomes UTF-16 units, 8.3 name, checksum and up to twenty
    long-name entries in reverse order before the 8.3 entry; reading these
    entries in order, wherever they are stored, gives the entry with exactly
    that name, attributes, first cluster, size and times, at the position of
    the 8.3 entry. A name that fits 8.3 up to uniform case needs that entry
    alone. *)
Theorem name_entries_roundtrip name us n sg attr date time fc size wdate wtime st ps cl pos :
  bytes name -> name_units name = inr us -> 1 <= n <= 999999 ->
  sg = (if sg_lossy (short_gen_base name) then with_raw (short_gen_base name) (tail_name (short_gen_base name) n) else short_gen_base name) ->
  is_u8 attr -> attr .& 0x08 = 0 -> 0 <= fc < 2 ^ 32 -> 0 <= size < 2 ^ 32 -> 0 <= wdate < 2 ^ 16 -> 0 <= wtime < 2 ^ 16 ->
  length (lf_units st) = 260%nat -> lf_pending st <> 1 ->
  let ents := name_entries sg us attr date time fc size wdate wtime in
  (length ps + 1 = length ents)%nat ->
  (1 <= length ents <= 21)%nat /\ (sg_lfn sg = false -> length ents = 1%nat) /\
  exists short, dir_steps st (zip (ps ++ [(cl, pos)]) ents) =
    inr (Info name short attr fc (if negb (attr .& FAT32_ATTR_DIR =? 0) then 0 else size) wdate wtime cl pos).
Proof.
  intros Hb Hu Hn Hsg Ha Ha8 Hfc Hsz Hwd Hwt Hl Hp ents Hps.
  assert (Hg : sg = short_gen_base name \/ exists n, 1 <= n <= 999999 /\ sg_lossy (short_gen_base name) = true /\ sg = with_raw (short_gen_base name) (tail_name (short_gen_base name) n)).
  { destruct (sg_lossy (short_gen_base name)) eqn:E; [right; by exists n|by left]. }
  split; [by apply (name_entries_count name)|]. split.
  { intros E. unfold ents, name_entries. by rewrite E. }
  eexists. apply (name_entries_back name us sg attr date time fc size wdate wtime); try done. unfold ents in Hps. lia.
Qed.

Section Props.
Context {S : Type} `{DiskOk S} (g : geo).
Implicit Types s : fs S.

(** C12: on every volume, whatever its directories contain (loops in chains,
    entries with arbitrary bytes, clusters outside the volume), fat32_lookup
    and fat32_readdir end with an entry or a negative errno and leave the
    disk's content as it is; an entry they give fits its buffers: a name of at
    most 255 bytes and a short name of at most 12, both without NUL, and every
    field in the range of its C type. *)
Theorem fat32_lookup_safe s :
  geo_ok g -> dk_inv (disk s) ->
  (forall path s' r, fat32_lookup g path s = (s', r) ->
    quiet s s' /\ match r with inl e => e < 0 | inr i => info_ok (entries_per_cluster g) i end) /\
  (forall node index s' r, node_ok g node -> fat32_readdir g node index s = (s', r) ->
    quiet s s' /\
    match r with
    | inl e => e < 0
    | inr (node', o) => node_ok g node' /\ n_info node' = n_info node /\ match o with Some i => info_ok (entries_per_cluster g) i | None => True end
    end).
Proof.
  intros Hg Hi. split.
  - intros path s' r E. pose proof (lookup_loop_reads g Hg (Datatypes.S (length path)) path (root_info g) s Hi (root_info_ok g Hg) ltac:(lia)) as Hw.
    exact (wp_run _ _ _ Hw _ _ E).
  - intros node index s' r Hn E. destruct (wp_run _ _ _ (fat32_readdir_reads g Hg node index s Hi Hn) _ _ E) as [Hq Hr]. split; [done|].
    destruct r as [e|[node' o]]; [done|]. exact Hr.
Qed.

(** C10: on a directory whose chain is intact the code searches and indexes the
    list of its visible entries: dir_find gives the first entry with the name
    (ignoring ASCII case, by long or short name) and fails with ENOENT exactly
    when there is none, and fat32_readdir gives entry number [index], also
    when it continues at the cursor saved in the node, which it leaves right
    for the next call. Any other failure is the disk's. *)
Theorem dir_read_refines s first l :
  geo_ok g -> dk_inv (disk s) -> dir_ok g s first l ->
  (forall name s' r, dir_find g first name s = (s', r) ->
    quiet s s' /\
    match r with
    | inl e => e < 0 /\ (dk_reliable -> e = - ENOENT /\ find_name name (dir_list g s l) = None)
    | inr i => find_name name (dir_list g s l) = Some i
    end) /\
  (forall node index s' r, i_first (n_info node) = first -> node_list g s l node -> has_attr FAT32_ATTR_DIR (n_info node) = true -> 0 <= index ->
    fat32_readdir g node index s = (s', r) ->
    quiet s s' /\
    match r with
    | inl e => e < 0 /\ ~ dk_reliable
    | inr (node', o) => n_info node' = n_info node /\ o = dir_list g s l !! idx index /\ node_list g s l node'
    end).
Proof.
  intros Hg Hi Hd. split.
  - intros name s' r E. exact (wp_run _ _ _ (dir_find_list g Hg first l name s Hi Hd) _ _ E).
  - intros node index s' r _ Hn Hdir Hix E. destruct (wp_run _ _ _ (fat32_readdir_list g Hg l node index s Hi Hn Hdir Hix) _ _ E) as [Hq Hr]. split; [done|].
    destruct r as [e|[node' o]]; [done|]. exact Hr.
Qed.

(** dir_add_entry puts the new entry into the listing, with the name and
    the fields asked for, and every other entry keeps its place: it is written
    over deleted slots, over the end of the directory or into clusters the
    directory is extended by, and the directory stays tidy. If it fails and
    the disk does not, the listing is unchanged. Either way every other chain
    of the volume keeps its clusters and its bytes. *)
Theorem dir_add_entry_correct s first l name attr fc size wdate wtime s' r :
  geo_ok g -> fs_inv g s -> readonly g = false -> chain g s first l -> tidy lfn_start (dir_slots g s l) = true -> bytes name ->
  is_u8 attr -> attr .& 0x08 = 0 -> 0 <= fc < 2 ^ 32 -> 0 <= size < 2 ^ 32 -> 0 <= wdate < 2 ^ 16 -> 0 <= wtime < 2 ^ 16 ->
  dir_add_entry g first name attr fc size wdate wtime s = (s', r) ->
  fs_inv g s' /\ others_kept g s l s' /\
  match r with
  | inl e => e < 0 /\ (dk_reliable -> exists fs, chain g s' first (l ++ fs) /\ dir_list g s' (l ++ fs) = dir_list g s l)
  | inr i => i_name i = name /\ i_attr i = attr /\ i_first i = fc /\ i_size i = (if negb (attr .& FAT32_ATTR_DIR =? 0) then 0 else size) /\
      exists fs l1 l2, chain g s' first (l ++ fs) /\ dir_list g s l = l1 ++ l2 /\ dir_list g s' (l ++ fs) = l1 ++ i :: l2 /\
        tidy lfn_start (dir_slots g s' (l ++ fs)) = true
  end.
Proof.
  intros Hg Hi Hro Hl Ht Hb Ha Ha8 Hfc Hsz Hwd Hwt E.
  destruct (wp_run _ _ _ (dir_add_entry_spec g Hg first l name attr fc size wdate wtime s Hi Hro Hl Ht Hb (conj Ha Ha8) Hfc Hsz (conj Hwd Hwt)) _ _ E) as (I & _ & O & Hr).
  split; [done|]. split; [by apply others_content|]. destruct r as [e|i].
  - destruct Hr as [He Hrel]. split; [done|]. intros Hr. destruct (Hrel Hr) as (fs & G). exists fs. destruct (grown_listing g Hg _ _ _ _ _ Hl Ht G) as [E1 _].
    split; [by destruct G|done].
  - destruct Hr as (N1 & N2 & N3 & N4 & _ & _ & Hx). done.
Qed.

(** entry_delete of an entry of the listing removes that entry and no
    other, long-name entries included, and leaves the directory tidy; it fails
    only when the disk does. Outside the clusters of the directory nothing
    changes, neither a sector nor an entry of the table. *)
Theorem entry_delete_correct s first l info s' r :
  geo_ok g -> dk_inv (disk s) -> chain g s first l -> tidy lfn_start (dir_slots g s l) = true -> info ∈ dir_list g s l ->
  entry_delete g first info s = (s', r) ->
  chain g s' first l /\ same_table g s s' /\ (forall x, (forall c, c ∈ l -> ~ in_cluster g c x) -> dk_view (disk s') x = dk_view (disk s) x) /\
  match r with
  | inl e => e < 0 /\ ~ dk_reliable
  | inr _ => exists l1 l2, dir_list g s l = l1 ++ info :: l2 /\ dir_list g s' l = l1 ++ l2 /\ tidy lfn_start (dir_slots g s' l) = true
  end.
Proof.
  intros Hg Hi Hl Ht Hin E. destruct (wp_run _ _ _ (entry_delete_spec g Hg first l info s Hi Hl Ht Hin) _ _ E) as [Hw Hr].
  split; [by eapply within_chain|]. destruct Hw as (_ & Hx & Hv). done.
Qed.

(** C1: a file created in the root directory can be looked up: after
    fat32_create of a name returns an entry, the listing of the root has that
    entry besides the old ones, an empty file with the archive bit, and
    fat32_lookup of the name returns it (or a disk error). It returns one only
    if no entry had the name before; otherwise, and on every other failure
    that is not the disk's, the listing is unchanged. The busy flag is free
    again in all cases and other chains keep their bytes. *)
Theorem fat32_create_lookup s l leaf s' r :
  geo_ok g -> fs_inv g s -> readonly g = false -> dir_busy s = false -> chain g s (root_cluster g) l -> tidy lfn_start (dir_slots g s l) = true ->
  clock_ok s -> bytes leaf -> 47 ∉ leaf -> fat32_create g (Some leaf) s = (s', r) ->
  fs_inv g s' /\ dir_busy s' = false /\ others_kept g s l s' /\
  match r with
  | inl e => e < 0 /\ (dk_reliable -> exists fs, chain g s' (root_cluster g) (l ++ fs) /\ dir_list g s' (l ++ fs) = dir_list g s l)
  | inr i => created g s l leaf s' i /\
      (dk_reliable -> find_name leaf (dir_list g s l) = None /\ forall s2 r2, fat32_lookup g leaf s' = (s2, r2) -> r2 = inr i)
  end.
Proof.
  intros Hg Hi Hro Hb Hl Ht Hck Hby Hs E.
  destruct (wp_run _ _ _ (fat32_create_spec g Hg l leaf s Hi Hro Hb Hl Ht Hck Hby Hs) _ _ E) as (I & B & _ & _ & O & Hr).
  split; [done|]. split; [done|]. split; [by apply others_content|]. destruct r as [e|i].
  - destruct Hr as [He Hrel]. split; [done|]. intros Hr. destruct (Hrel Hr) as (fs & G). exists fs. destruct (grown_listing g Hg _ _ _ _ _ Hl Ht G) as [E1 _].
    split; [by destruct G|done].
  - destruct Hr as ((L1 & L2 & L3) & Hnone & Hc). split; [done|]. intros Hrel. specialize (Hnone Hrel). split; [done|]. intros s2 r2 E2.
    destruct Hc as (N1 & _ & _ & _ & fs & l1 & l2 & C1 & C2 & C3 & _).
    pose proof (lookup_leaf g leaf s' _ Hs L1 L2 L3 (dir_find_list g Hg (root_cluster g) (l ++ fs) leaf s' (fi_disk g s' I) (or_intror C1))) as Hw.
    assert (Hf : find_name leaf (dir_list g s' (l ++ fs)) = Some i) by (rewrite C3; apply find_name_insert; [by rewrite <- C2|done]).
    destruct (wp_run _ _ _ Hw _ _ E2) as [_ Hr2]. destruct r2 as [e|i2]; [destruct Hr2 as [_ Hr2]; destruct (Hr2 Hrel); congruence|congruence].
Qed.

(** C9: fat32_unlink of a name of the root directory removes the first entry
    with the name and nothing else from the listing, and gives all its
    clusters back; it does so only for a file that is not read-only and not
    open. A failure that is not the disk's leaves the volume as it was. *)
Theorem fat32_unlink_correct s l leaf s' r :
  geo_ok g -> fs_inv g s -> readonly g = false -> dir_busy s = false -> chain g s (root_cluster g) l -> tidy lfn_start (dir_slots g s l) = true ->
  files_ok g s l -> 47 ∉ leaf -> fat32_unlink g (Some leaf) s = (s', r) ->
  fs_inv g s' /\ dir_busy s' = false /\ open_list s' = open_list s /\
  match r with
  | inl e => e < 0 /\ (dk_reliable -> same_view s s')
  | inr _ => removed g s l leaf s'
  end.
Proof.
  intros Hg Hi Hro Hb Hl Ht Hf Hs E. exact (wp_run _ _ _ (fat32_unlink_spec g Hg l leaf s Hi Hro Hb Hl Ht Hf Hs) _ _ E).
Qed.
End Props.

(** ** Concrete runs: the volume of four clusters, with the file "A" of 600
    bytes in clusters 3 and 4 as the first entry of the root directory *)
Definition fat_tree_entry : list Z := short_entry (65 :: replicate 10 32) 0x20 0 0 0 3 600 0 0.
Definition fat_tree_sectors : ideal := fun l =>
  if (l =? 1) || (l =? 2) then fat_demo_fat
  else if l =? 3 then patch 0 fat_tree_entry zero_sector
  else zero_sector.
Definition fat_tree_fs : fs ideal := Fs fat_tree_sectors 1 5 false false [] None 0.
Definition fat_tree_a : fat32_info := Info [65] [65] 0x20 3 600 0 0 2 0.

#[local] Existing Instances fat_demo_disk fat_demo_disk_ok.

Lemma fat_tree_inv : fs_inv fat_demo_geo fat_tree_fs.
Proof. split; [|cbn; lia|unfold in_vol; cbn; lia]. intros l. cbn. unfold fat_tree_sectors. split_ifs; reflexivity. Qed.

Lemma fat_tree_root : chain fat_demo_geo fat_tree_fs 2 [2].
Proof.
  assert (E : fat fat_demo_geo fat_tree_fs 2 = FAT32_EOC) by reflexivity. apply chain_end; [unfold in_vol; cbn; lia|]. simpl. rewrite E. done.
Qed.

Lemma fat_tree_file : chain fat_demo_geo fat_tree_fs 3 [3; 4].
Proof.
  assert (E3 : fat fat_demo_geo fat_tree_fs 3 = 4) by reflexivity. assert (E4 : fat fat_demo_geo fat_tree_fs 4 = FAT32_EOC) by reflexivity.
  apply chain_link with 4; [unfold in_vol; cbn; lia|split; [done|unfold in_vol; cbn; lia]|]. apply chain_end; [unfold in_vol; cbn; lia|]. simpl. rewrite E4. done.
Qed.

Lemma fat_tree_tidy : tidy lfn_start (dir_slots fat_demo_geo fat_tree_fs [2]) = true.
Proof. reflexivity. Qed.

Lemma fat_tree_list : dir_list fat_demo_geo fat_tree_fs [2] = [fat_tree_a].
Proof. reflexivity. Qed.

(** "Ab" has mixed case: one long-name entry and the 8.3 entry "AB". *)
Lemma name_entries_roundtrip_witness :
  exists short, dir_steps lfn_start (zip [(2, 3); (2, 4)] (name_entries (short_gen_base [65; 98]) [65; 98] 0x20 1 1 7 9 1 1)) = inr (Info [65; 98] short 0x20 7 9 1 1 2 4).
Proof.
  destruct (name_entries_roundtrip [65; 98] [65; 98] 1 (short_gen_base [65; 98]) 0x20 1 1 7 9 1 1 lfn_start [(2, 3)] 2 4) as (_ & _ & short & Hs);
    [repeat constructor; lia|reflexivity|lia|reflexivity|by unfold is_u8|reflexivity|lia|lia|lia|lia|reflexivity|discriminate|reflexivity|].
  exists short. exact Hs.
Defined.

Lemma fat32_lookup_safe_witness :
  exists s' i, fat32_lookup fat_demo_geo [47; 97] fat_tree_fs = (s', inr i) /\ quiet fat_tree_fs s' /\ info_ok 16 i.
Proof.
  destruct (fat32_lookup_safe fat_demo_geo fat_tree_fs fat_demo_geo_ok (fi_disk _ _ fat_tree_inv)) as [H1 _].
  assert (Er : (fun w => match snd w with inr _ => true | _ => false end) (fat32_lookup fat_demo_geo [47; 97] fat_tree_fs) = true) by reflexivity.
  destruct (fat32_lookup fat_demo_geo [47; 97] fat_tree_fs) as [s' r] eqn:E. cbn [snd] in Er. destruct r as [e|i]; [discriminate Er|].
  destruct (H1 _ _ _ E) as [Hq Hok]. exists s', i. split; [reflexivity|]. split; [exact Hq|exact Hok].
Defined.

Lemma dir_read_refines_witness :
  exists s', dir_find fat_demo_geo 2 [97] fat_tree_fs = (s', inr fat_tree_a) /\ quiet fat_tree_fs s'.
Proof.
  destruct (dir_read_refines fat_demo_geo fat_tree_fs 2 [2] fat_demo_geo_ok (fi_disk _ _ fat_tree_inv) (or_intror fat_tree_root)) as [H1 _].
  assert (Er : (fun w => match snd w with inr _ => true | _ => false end) (dir_find fat_demo_geo 2 [97] fat_tree_fs) = true) by reflexivity.
  destruct (dir_find fat_demo_geo 2 [97] fat_tree_fs) as [s' r] eqn:E. cbn [snd] in Er. destruct r as [e|i]; [discriminate Er|].
  destruct (H1 _ _ _ E) as [Hq Hf]. rewrite fat_tree_list in Hf. injection Hf as Hf. exists s'. rewrite Hf. split; [reflexivity|exact Hq].
Defined.

Lemma dir_add_entry_correct_witness :
  exists s' i fs, dir_add_entry fat_demo_geo 2 [98] 0x20 0 0 1 1 fat_tree_fs = (s', inr i) /\ i_name i = [98] /\
    i ∈ dir_list fat_demo_geo s' ([2] ++ fs).
Proof.
  assert (Er : (fun w => match snd w with inr _ => true | _ => false end) (dir_add_entry fat_demo_geo 2 [98] 0x20 0 0 1 1 fat_tree_fs) = true) by reflexivity.
  destruct (dir_add_entry fat_demo_geo 2 [98] 0x20 0 0 1 1 fat_tree_fs) as [s' r] eqn:E. cbn [snd] in Er. destruct r as [e|i]; [discriminate Er|].
  destruct (dir_add_entry_correct fat_demo_geo fat_tree_fs 2 [2] [98] 0x20 0 0 1 1 s' (inr i) fat_demo_geo_ok fat_tree_inv eq_refl fat_tree_root fat_tree_tidy
    ltac:(repeat constructor; lia) ltac:(by unfold is_u8) eq_refl ltac:(lia) ltac:(lia) ltac:(lia) ltac:(lia) E) as (_ & _ & H1 & _ & _ & _ & fs & l1 & l2 & _ & _ & H2 & _).
  exists s', i, fs. split; [reflexivity|]. split; [exact H1|]. rewrite H2. apply elem_of_app. right. by left.
Defined.

Lemma entry_delete_correct_witness :
  exists s', entry_delete fat_demo_geo 2 fat_tree_a fat_tree_fs = (s', inr tt) /\ dir_list fat_demo_geo s' [2] = [].
Proof.
  assert (Er : (fun w => match snd w with inr _ => true | _ => false end) (entry_delete fat_demo_geo 2 fat_tree_a fat_tree_fs) = true) by reflexivity.
  destruct (entry_delete fat_demo_geo 2 fat_tree_a fat_tree_fs) as [s' r] eqn:E. cbn [snd] in Er. destruct r as [e|[]]; [discriminate Er|].
  assert (Hin : fat_tree_a ∈ dir_list fat_demo_geo fat_tree_fs [2]) by (rewrite fat_tree_list; by left).
  destruct (entry_delete_correct fat_demo_geo fat_tree_fs 2 [2] fat_tree_a s' (inr tt) fat_demo_geo_ok (fi_disk _ _ fat_tree_inv) fat_tree_root fat_tree_tidy Hin E)
    as (_ & _ & _ & l1 & l2 & H1 & H2 & _).
  exists s'. split; [reflexivity|]. rewrite H2. rewrite fat_tree_list in H1. destruct l1 as [|x l1]; [destruct l2; [reflexivity|discriminate H1]|].
  injection H1 as _ H1. destruct l1; discriminate H1.
Defined.

Lemma fat32_create_lookup_witness :
  exists s' i, fat32_create fat_demo_geo (Some [98]) fat_tree_fs = (s', inr i) /\ i_name i = [98] /\ (fat32_lookup fat_demo_geo [98] s').2 = inr i.
Proof.
  assert (Er : (fun w => match snd w with inr _ => true | _ => false end) (fat32_create fat_demo_geo (Some [98]) fat_tree_fs) = true) by reflexivity.
  destruct (fat32_create fat_demo_geo (Some [98]) fat_tree_fs) as [s' r] eqn:E. cbn [snd] in Er. destruct r as [e|i]; [discriminate Er|].
  assert (Hs : 47 ∉ [98]) by (rewrite list_elem_of_singleton; lia).
  destruct (fat32_create_lookup fat_demo_geo fat_tree_fs [2] [98] s' (inr i) fat_demo_geo_ok fat_tree_inv eq_refl eq_refl fat_tree_root fat_tree_tidy
    ltac:(exact I) ltac:(repeat constructor; lia) Hs E) as (_ & _ & _ & (H1 & _) & H2).
  destruct (H2 I) as [_ H3]. exists s', i. split; [reflexivity|]. split; [exact H1|]. destruct (fat32_lookup fat_demo_geo [98] s') as [s2 r2] eqn:E2. exact (H3 s2 r2 eq_refl).
Defined.

Lemma fat_tree_files : files_ok fat_demo_geo fat_tree_fs [2].
Proof.
  intros i Hi _. rewrite fat_tree_list, list_elem_of_singleton in Hi. subst i. right. exists [3; 4]. split; [apply fat_tree_file|].
  intros x. rewrite elem_of_cons, !list_elem_of_singleton. lia.
Qed.

Lemma fat32_unlink_correct_witness :
  exists s', fat32_unlink fat_demo_geo (Some [97]) fat_tree_fs = (s', inr tt) /\ removed fat_demo_geo fat_tree_fs [2] [97] s'.
Proof.
  assert (Er : (fun w => match snd w with inr _ => true | _ => false end) (fat32_unlink fat_demo_geo (Some [97]) fat_tree_fs) = true) by reflexivity.
  destruct (fat32_unlink fat_demo_geo (Some [97]) fat_tree_fs) as [s' r] eqn:E. cbn [snd] in Er. destruct r as [e|[]]; [discriminate Er|].
  assert (Hs : 47 ∉ [97]) by (rewrite list_elem_of_singleton; lia).
  destruct (fat32_unlink_correct fat_demo_geo fat_tree_fs [2] [97] s' (inr tt) fat_demo_geo_ok fat_tree_inv eq_refl eq_refl fat_tree_root fat_tree_tidy
    fat_tree_files Hs E) as (_ & _ & _ & H1).
  exists s'. split; [reflexivity|exact H1].
Defined.
