(* ===== verification/FatNode.v ===== *)
(** * fat32.c: open files and the glue to the VFS

    A vnode is its address in [open_list]; [fv_of] finds it there. [kz] stands
    for kzalloc: the address of a zeroed block that is not in use, or [None].
    The vnode operations never fail as a whole: what the C function returns is
    a value, because the vnode may have changed. *)
From S2P Require Import Prelude CString Tmpfs Vfs.
From S2P Require Import Blk Disk Fat FatFile FatName FatDir.

Open Scope tach_scope.

Definition fvs := list (nat * fat32_vnode).

Fixpoint fv_of (vn : nat) (l : fvs) : option fat32_vnode :=
  match l with
  | [] => None
  | (a, fv) :: l' => if bool_decide (a = vn) then Some fv else fv_of vn l'
  end.

Definition fv_update (vn : nat) (f : fat32_vnode -> fat32_vnode) (l : fvs) : fvs :=
  (fun '(a, fv) => (a, if bool_decide (a = vn) then f fv else fv)) <$> l.

(** [*link = fv->next] for the first link to [vn]. *)
Fixpoint fv_unlink (vn : nat) (l : fvs) : fvs :=
  match l with
  | [] => []
  | (a, fv) :: l' => if bool_decide (a = vn) then l' else (a, fv) :: fv_unlink vn l'
  end.

Definition set_fv_node (n : fat32_node) (fv : fat32_vnode) : fat32_vnode := Fv (fv_path fv) (fv_name fv) (fv_dir fv) (fv_size fv) n (fv_opens fv).
Definition set_fv_size (x : Z) (fv : fat32_vnode) : fat32_vnode := Fv (fv_path fv) (fv_name fv) (fv_dir fv) x (fv_node fv) (fv_opens fv).
Definition set_opens (x : Z) (fv : fat32_vnode) : fat32_vnode := Fv (fv_path fv) (fv_name fv) (fv_dir fv) (fv_size fv) (fv_node fv) x.

(** [if ( *c == '/' && c[1]) base = c + 1] over the whole path. *)
Fixpoint base_of (path : list Z) (i base : nat) : nat :=
  match path with
  | [] => base
  | c :: path' => base_of path' (S i) (if (c =? 47) && negb (bool_decide (path' = [])) then S i else base)
  end.

Section Ops.
Context {S : Type} `{Disk S} (g : geo).
Abbreviation M := (fatM S).

Definition get_fv (vn : nat) : M (option fat32_vnode) := get_st (fun s => fv_of vn (open_list s)).
Definition alter_fv (vn : nat) (f : fat32_vnode -> fat32_vnode) : M unit := modify (fun s => set_open_list (fv_update vn f (open_list s)) s).

Definition fv_read (vn : nat) (buffer : bool) (count offset : Z) : M (Z + list Z) :=
  fv ← get_fv vn;
  match fv with
  | None => mret (inl (- EINVAL))
  | Some fv =>
      if offset <? 0 then mret (inl (- EINVAL))
      else if 0xFFFFFFFF <? offset then mret (inr [])
      else
        r ← fat32_read g (fv_node fv) offset buffer count;
        _ ← alter_fv vn (set_fv_node r.1);
        mret r.2
  end.

Definition fv_write (vn : nat) (buffer : option (list Z)) (count offset : Z) : M (Z + Z) :=
  fv ← get_fv vn;
  match fv with
  | None => mret (inl (- EINVAL))
  | Some fv =>
      if offset <? 0 then mret (inl (- EINVAL))
      else if FAT32_MAX_SIZE <? offset then mret (inl (- EFBIG))
      else
        r ← fat32_write g (fv_node fv) offset buffer count;
        _ ← alter_fv vn (fun fv => set_fv_size (i_size (n_info r.1)) (set_fv_node r.1 fv));
        mret r.2
  end.

Definition fv_dup (vn : nat) : M unit := alter_fv vn (fun fv => set_opens (fv_opens fv + 1) fv).

Definition fv_release (vn : nat) : M unit :=
  fv ← get_fv vn;
  match fv with
  | None => mret tt
  | Some fv =>
      let opens := if negb (fv_opens fv =? 0) then fv_opens fv - 1 else 0 in
      let last := negb (fv_opens fv =? 0) && (opens =? 0) in
      _ ← alter_fv vn (set_opens opens);
      if negb last then mret tt
      else
        r ← fat32_node_sync g (fv_node fv);
        _ ← alter_fv vn (set_fv_node r.1);
        modify (fun s =>
          match fv_of vn (open_list s) with
          | Some fv => if fv_opens fv =? 0 then set_open_list (fv_unlink vn (open_list s)) s else s
          | None => s
          end)
  end.

(** ** fat32_vnode_open *)
Definition open_lookup (path : list Z) (flags : Z) : M fat32_info :=
  r ← try_ (fat32_lookup g path);
  match r with
  | inl e => if (e =? - ENOENT) && negb (flags .& O_CREAT =? 0) then fat32_create g (Some path) else fail e
  | inr info => mret info
  end.

Definition open_check (info : fat32_info) (flags : Z) : M unit :=
  if negb (flags .& O_ACCMODE =? 0) || negb (flags .& O_TRUNC =? 0) then
    if has_attr FAT32_ATTR_DIR info then fail (- EISDIR)
    else if readonly g then fail (- EROFS)
    else if has_attr FAT32_ATTR_RO info then fail (- EACCES)
    else mret tt
  else mret tt.

(** The open vnode of the entry with one more descriptor, or a new one. *)
Definition open_share (addr : nat) (path : list Z) (info : fat32_info) : M nat := fun s =>
  match open_find (open_list s) info with
  | Some shared => (set_open_list (fv_update shared (fun fv => set_opens (fv_opens fv + 1) fv) (open_list s)) s, inr shared)
  | None =>
      let fv := Fv path (base_of path 0 0) (has_attr FAT32_ATTR_DIR info) (i_size info) (fat32_node_init info) 1 in
      (set_open_list ((addr, fv) :: open_list s) s, inr addr)
  end.

Definition open_truncate (vn : nat) (flags : Z) : M unit :=
  fv ← get_fv vn;
  match fv with
  | None => mret tt
  | Some fv =>
      if negb (flags .& O_TRUNC =? 0) && negb (fv_dir fv) then
        r ← fat32_truncate g (fv_node fv) 0;
        _ ← alter_fv vn (fun fv => set_fv_size (i_size (n_info r.1)) (set_fv_node r.1 fv));
        match r.2 with
        | inl e => _ ← fv_release vn; fail e
        | inr _ => mret tt
        end
      else mret tt
  end.

Definition fat32_vnode_open (kz : fs S -> option nat) (path : option (list Z)) (flags : Z) : M nat :=
  match path with
  | None => fail (- EINVAL)
  | Some path =>
      if Z.of_nat VNODE_PATH_SIZE <=? Z.of_nat (length path) then fail (- ENAMETOOLONG)
      else
        info ← open_lookup path flags;
        _ ← open_check info flags;
        block ← get_st kz;
        match block with
        | None => fail (- ENOMEM)
        | Some addr =>
            vn ← open_share addr path info;
            _ ← open_truncate vn flags;
            mret vn
        end
  end.

(** [None]: the end of the directory. *)
Definition fat32_vnode_readdir (vn : nat) (index : Z) : M (option dirent) :=
  fv ← get_fv vn;
  match fv with
  | None => fail (- EINVAL)
  | Some fv =>
      if negb (fv_dir fv) then fail (- ENOTDIR)
      else
        r ← fat32_readdir g (fv_node fv) index;
        _ ← alter_fv vn (set_fv_node r.1);
        mret ((fun info => Dirent (i_name info) (if has_attr FAT32_ATTR_DIR info then VNODE_DIR else VNODE_FILE) (i_first info) (u32 (index + 1))) <$> r.2)
  end.
End Ops.

(** ** The VFS *)
Section Glue.
Context {S : Type} `{Disk S} (kz : fs S -> option nat).

(** The int a C function returns. *)
Definition errno {A} (m : fatM S A) (s : fs S) : fs S * Z :=
  let '(s, r) := m s in (s, match r with inl e => e | inr _ => 0 end).

Definition fsop_open (g : geo) (rel : list Z) (flags : Z) (s : fs S) : fs S * (nat + Z) :=
  let '(s, r) := fat32_vnode_open g kz (Some rel) flags s in (s, match r with inl e => inr e | inr vn => inl vn end).
Definition fsop_unlink (g : geo) (rel : list Z) : fs S -> fs S * Z := errno (fat32_unlink g (Some rel)).
Definition fsop_mkdir (g : geo) (rel : list Z) : fs S -> fs S * Z := errno (fat32_mkdir g (Some rel)).
Definition fsop_rmdir (g : geo) (rel : list Z) : fs S -> fs S * Z := errno (fat32_rmdir g (Some rel)).
Definition fsop_rename (g : geo) (a b : list Z) : fs S -> fs S * Z := errno (fat32_rename g (Some a) (Some b)).
Definition fsop_sync (g : geo) : fs S -> fs S * Z := errno (fat32_sync g).
Definition fsop_unmount (g : geo) : fs S -> fs S * Z := errno (fat32_unmount g).

Definition g_fat32_fsops : vfs_fsops geo (fs S) nat :=
  FsOps _ _ _ (Some fsop_open) (Some fsop_unlink) (Some fsop_mkdir) (Some fsop_rmdir) (Some fsop_rename) (Some fsop_sync) (Some fsop_unmount).

(** The mount table, the disk, the volume when it stays mounted, the result. *)
Definition fat32_vfs_mount (mem_ok : bool) (clock : option (nat -> Z * Z)) (n : nat) (d : S) (path : option (list Z))
    (mounts : list (option (@vfs_mount geo (fs S) nat))) :=
  let '(d, r) := fat32_mount mem_ok clock n d in
  match r with
  | inl e => (mounts, d, None, e)
  | inr (g, s) =>
      let '(mounts, result) := vfs_mount_fs path (Some g_fat32_fsops) g mounts in
      if result <? 0 then let '(s, _) := fat32_unmount g s in (mounts, disk s, None, result)
      else (mounts, disk s, Some (g, s), result)
  end.
End Glue.
