(* ===== verification/Qsort.v ===== *)
(** * The user library's qsort

    user/libc/ext.c: a heap sort in place over an array of elements of any
    size, with a comparison function of the caller. Memory is an array of
    bytes; addresses inside one object do not wrap. The comparison is a pure
    function of the bytes of two elements. *)
From Stdlib Require Import ZArith Lia List Sorting.Sorted.
From stdpp Require Import base list numbers.
From S2P Require Import Prelude.
Open Scope Z_scope.

(** ** The code *)
Definition umem := Z -> Z.

Fixpoint swap_bytes (m : umem) (a b : Z) (size : nat) : umem :=
  match size with
  | O => m
  | S size' => let tmp := m a in swap_bytes (upd (upd m a (m b)) b tmp) (a + 1) (b + 1) size'
  end.

(** The [n] bytes at [a]. *)
Definition bytes_at (m : umem) (a : Z) (n : nat) : list Z := (fun k => m (a + Z.of_nat k)) <$> seq 0 n.

Section Code.
Context (compare : list Z -> list Z -> Z) (base : Z) (size : nat).

Definition elem_addr (i : nat) : Z := base + Z.of_nat i * Z.of_nat size.
Definition elem (m : umem) (i : nat) : list Z := bytes_at m (elem_addr i) size.

(** [None]: out of fuel. *)
Fixpoint sift_down (fuel : nat) (root count : nat) (m : umem) : option umem :=
  match fuel with
  | O => None
  | S fuel' =>
      let child := (2 * root + 1)%nat in
      if (count <=? child)%nat then Some m
      else
        let child := if (child + 1 <? count)%nat && (compare (elem m child) (elem m (child + 1)) <? 0) then (child + 1)%nat else child in
        if 0 <=? compare (elem m root) (elem m child) then Some m
        else sift_down fuel' child count (swap_bytes m (elem_addr root) (elem_addr child) size)
  end.

(** [for (i = n; i-- > 0;) sift_down(i, count)] *)
Fixpoint build_heap (n count : nat) (m : umem) : option umem :=
  match n with
  | O => Some m
  | S i => m ← sift_down (S count) i count m; build_heap i count m
  end.

(** [for (end = n; end > 0; end--)] *)
Fixpoint pop_heap (n : nat) (m : umem) : option umem :=
  match n with
  | O => Some m
  | S n' => m ← sift_down (S n) 0 n (swap_bytes m base (elem_addr n) size); pop_heap n' m
  end.

Definition qsort (count : nat) (m : umem) : option umem :=
  if (base =? 0) || (count <? 2)%nat || (size =? 0)%nat then Some m
  else m ← build_heap (count / 2) count m; pop_heap (count - 1) m.
End Code.

(** ** Swapping two elements *)
Section Swap.
Context {E : Type}.
Implicit Types a : nat -> E.

Definition tr (i j k : nat) : nat := if decide (k = i) then j else if decide (k = j) then i else k.

Lemma tr_l i j : tr i j i = j.
Proof. unfold tr. by case_decide. Qed.
Lemma tr_r i j : tr i j j = i.
Proof. unfold tr. repeat case_decide; congruence. Qed.
Lemma tr_ne i j k : k <> i -> k <> j -> tr i j k = k.
Proof. intros. unfold tr. by repeat case_decide. Qed.
Lemma tr_lt i j k n : (i < n -> j < n -> (tr i j k < n <-> k < n))%nat.
Proof. intros. unfold tr. repeat case_decide; subst; lia. Qed.
#[global] Instance tr_inj i j : Inj (=) (=) (tr i j).
Proof. intros x y. unfold tr. repeat case_decide; congruence. Qed.

(** [b] has on [0, n) the elements of [a] in some order, and agrees outside. *)
Definition shuffled (n : nat) a b : Prop :=
  exists f : nat -> nat, Inj (=) (=) f /\ (forall i, (f i < n <-> i < n)%nat) /\ (forall i, (n <= i)%nat -> f i = i) /\ forall i, b i = a (f i).

Lemma shuffled_refl n a : shuffled n a a.
Proof. exists id. split; [apply _|]. done. Qed.

Lemma shuffled_trans n a b c : shuffled n a b -> shuffled n b c -> shuffled n a c.
Proof.
  intros (f & ? & Hf & Gf & Ef) (h & ? & Hh & Gh & Eh). exists (f ∘ h).
  split; [apply _|]. split; [intros; simpl; by rewrite Hf, Hh|].
  split; [intros; simpl; rewrite Gh, Gf; done|]. intros. simpl. by rewrite Eh, Ef.
Qed.

Lemma shuffled_le n n' a b : (n <= n')%nat -> shuffled n a b -> shuffled n' a b.
Proof.
  intros Hn (f & ? & Hf & Gf & Ef). exists f. split; [done|]. split; [|split; [intros; apply Gf; lia|done]].
  intros i. destruct (decide (i < n)%nat) as [Hi|Hi]; [pose proof (proj2 (Hf i) Hi); lia|]. rewrite Gf by lia. lia.
Qed.

Lemma shuffled_tr n a i j : (i < n)%nat -> (j < n)%nat -> shuffled n a (fun k => a (tr i j k)).
Proof.
  intros. exists (tr i j). split; [apply _|]. split; [intros; by apply tr_lt|].
  split; [|done]. intros. apply tr_ne; lia.
Qed.

Lemma shuffled_ext n a a' b b' : (forall i, a i = a' i) -> (forall i, b i = b' i) -> shuffled n a b -> shuffled n a' b'.
Proof. intros Ha Hb (f & ? & Hf & Gf & Ef). exists f. do 3 (split; [done|]). intros. by rewrite <- Hb, <- Ha. Qed.

Lemma shuffled_Permutation n a b : shuffled n a b -> (b <$> seq 0 n) ≡ₚ (a <$> seq 0 n).
Proof.
  intros (f & ? & Hf & Gf & Ef). apply Permutation_inj. rewrite !length_fmap. split; [done|].
  exists f. split; [done|]. intros i. rewrite !list_lookup_fmap.
  destruct (decide (i < n)%nat) as [Hi|Hi].
  - pose proof (proj2 (Hf i) Hi). rewrite !lookup_seq_lt by done. simpl. by rewrite Ef.
  - rewrite Gf by lia. by rewrite !lookup_seq_ge by lia.
Qed.
End Swap.

(** ** Heaps

    [le x y] when the comparison puts [x] not after [y]. *)
Section Heap.
Context {E : Type} (compare : E -> E -> Z).
Definition le_c (x y : E) : Prop := compare x y <= 0.

(** A comparison function that is a total preorder. *)
Class GoodCompare : Prop := {
  compare_flip x y : 0 <= compare x y -> compare y x <= 0;
  compare_trans x y z : compare x y <= 0 -> compare y z <= 0 -> compare x z <= 0
}.
Context `{GoodCompare}.
Implicit Types a : nat -> E.

Definition child_of (i c : nat) : Prop := (c = 2 * i + 1 \/ c = 2 * i + 2)%nat.

(** Every parent from [lo] on is not before its children below [n]. *)
Definition heap_from (lo n : nat) a : Prop :=
  forall i c, (lo <= i)%nat -> child_of i c -> (c < n)%nat -> le_c (a c) (a i).

(** The same but for the children of [r], which are still not after the
    parent of [r]. *)
Definition heap_hole (lo r n : nat) a : Prop :=
  (forall i c, (lo <= i)%nat -> i <> r -> child_of i c -> (c < n)%nat -> le_c (a c) (a i)) /\
  (forall p c, (lo <= p)%nat -> child_of p r -> child_of r c -> (c < n)%nat -> le_c (a c) (a p)).

Lemma le_c_refl x : le_c x x.
Proof. unfold le_c. destruct (decide (compare x x <= 0)); [done|]. apply compare_flip. lia. Qed.
Lemma le_c_trans x y z : le_c x y -> le_c y z -> le_c x z.
Proof. apply compare_trans. Qed.

Lemma heap_top n a i : heap_from 0 n a -> (i < n)%nat -> le_c (a i) (a 0%nat).
Proof.
  intros Hh. induction i as [i IH] using lt_wf_ind. intros Hi.
  destruct i as [|i]; [apply le_c_refl|].
  apply le_c_trans with (a (i / 2)%nat).
  - apply Hh; [lia| |done]. unfold child_of. pose proof (Nat.div_mod_eq i 2). pose proof (Nat.mod_upper_bound i 2). lia.
  - pose proof (Nat.div_mod_eq i 2). apply IH; lia.
Qed.

Lemma heap_hole_swap lo r n a c : heap_hole lo r n a -> (lo <= r)%nat -> child_of r c -> (c < n)%nat ->
  le_c (a r) (a c) -> (forall o, child_of r o -> (o < n)%nat -> le_c (a o) (a c)) ->
  heap_hole lo c n (fun k => a (tr r c k)).
Proof.
  intros [H1 H2] Hr Hc Hn Hle Ho.
  assert (Hrc : (r < c)%nat) by (unfold child_of in Hc; lia). split.
  - intros i d Hi Hic Hd Hdn. simpl. destruct (decide (i = r)) as [->|Hir].
    + rewrite tr_l. destruct (decide (d = c)) as [->|]; [by rewrite tr_r|].
      rewrite tr_ne by (unfold child_of in *; lia). by apply Ho.
    + rewrite (tr_ne _ _ i) by done. destruct (decide (d = r)) as [->|].
      * rewrite tr_l. by apply (H2 i c).
      * rewrite tr_ne; [by apply H1|done|]. intros ->. unfold child_of in *. lia.
  - intros p d Hp Hpc Hcd Hdn. simpl. assert (p = r) as -> by (unfold child_of in *; lia).
    rewrite tr_l, tr_ne by (unfold child_of in *; lia). by apply (H1 c d); [lia..| |].
Qed.

Lemma heap_hole_done lo r n a : heap_hole lo r n a -> (forall o, child_of r o -> (o < n)%nat -> le_c (a o) (a r)) -> heap_from lo n a.
Proof.
  intros [H1 _] Ho i c Hi Hc Hn. destruct (decide (i = r)) as [->|]; [by apply Ho|by apply H1].
Qed.

Lemma heap_from_hole lo n a : heap_from (S lo) n a -> heap_hole lo lo n a.
Proof.
  intros Hh. split.
  - intros i c Hi Hne. apply Hh. lia.
  - intros p c Hp Hpl. unfold child_of in Hpl. lia.
Qed.

(** The part from [e] on is sorted and not before anything. *)
Definition sorted_from (e n : nat) a : Prop := forall i j, (i < j < n)%nat -> (e <= j)%nat -> le_c (a i) (a j).

Lemma sorted_from_StronglySorted n a : sorted_from 0 n a -> StronglySorted le_c (a <$> seq 0 n).
Proof.
  intros Hs. rewrite <- (Nat.sub_0_r n) at 1.
  assert (forall k i, (i + k = n)%nat -> StronglySorted le_c (a <$> seq i k)) as Hk; [|apply (Hk _ 0%nat); lia].
  induction k as [|k IH]; intros i Hik; simpl; constructor; [apply IH; lia|].
  apply Forall_forall. intros x (j & -> & Hj)%list_elem_of_fmap. rewrite elem_of_seq in Hj. apply Hs; lia.
Qed.
End Heap.

(** ** The loops on memory *)
Lemma swap_bytes_spec n : forall m a b x, a + Z.of_nat n <= b \/ b + Z.of_nat n <= a ->
  swap_bytes m a b n x =
    if (a <=? x) && (x <? a + Z.of_nat n) then m (x - a + b)
    else if (b <=? x) && (x <? b + Z.of_nat n) then m (x - b + a) else m x.
Proof.
  induction n as [|n IH]; intros m a b x Hd; simpl.
  - split_ifs; first [done | lia].
  - rewrite IH by lia. unfold upd.
    destruct (Z.eqb_spec x a) as [->|]; [|destruct (Z.eqb_spec x b) as [->|]]; split_ifs; try lia; try done; try (f_equal; lia).
Qed.

Section Mem.
Context (compare : list Z -> list Z -> Z) (base : Z) (size : nat).
Abbreviation elem := (elem base size).
Abbreviation elem_addr := (elem_addr base size).

(** Outside the array of [n] elements nothing changes. *)
Definition kept_outside (n : nat) (m m' : umem) : Prop := forall x, x < base \/ base + Z.of_nat n * Z.of_nat size <= x -> m' x = m x.

Lemma elem_addr_apart i j : i <> j -> elem_addr i + Z.of_nat size <= elem_addr j \/ elem_addr j + Z.of_nat size <= elem_addr i.
Proof. unfold Qsort.elem_addr. intros. destruct (decide (i < j)%nat); [left|right]; nia. Qed.

Lemma elem_swap m i j k : i <> j -> elem (swap_bytes m (elem_addr i) (elem_addr j) size) k = elem m (tr i j k).
Proof.
  intros Hij. unfold Qsort.elem, bytes_at. apply list_fmap_ext. intros p x Hx. apply lookup_seq in Hx as [-> Hp]. simpl.
  pose proof (elem_addr_apart i j Hij) as Ha. rewrite swap_bytes_spec by done.
  destruct (decide (k = i)) as [->|Hi]; [rewrite tr_l|destruct (decide (k = j)) as [->|Hj]; [rewrite tr_r|rewrite tr_ne by done]].
  - replace ((_ <=? _) && _) with true by lia. f_equal. lia.
  - rewrite (proj2 (andb_false_iff _ _)) by lia. replace ((_ <=? _) && _) with true by lia. f_equal. lia.
  - pose proof (elem_addr_apart k i Hi). pose proof (elem_addr_apart k j Hj).
    by rewrite !(proj2 (andb_false_iff _ _)) by lia.
Qed.

Lemma swap_outside m i j n : i <> j -> (i < n)%nat -> (j < n)%nat -> kept_outside n m (swap_bytes m (elem_addr i) (elem_addr j) size).
Proof.
  intros Hij Hi Hj x Hx. rewrite swap_bytes_spec by (by apply elem_addr_apart).
  assert (forall k, (k < n)%nat -> ~ (elem_addr k <= x < elem_addr k + Z.of_nat size)) as Hk.
  { intros k Hk. unfold Qsort.elem_addr. nia. }
  pose proof (Hk i Hi). pose proof (Hk j Hj). by rewrite !(proj2 (andb_false_iff _ _)) by lia.
Qed.

Lemma kept_outside_trans n m1 m2 m3 : kept_outside n m1 m2 -> kept_outside n m2 m3 -> kept_outside n m1 m3.
Proof. intros H1 H2 x Hx. by rewrite H2, H1. Qed.
Lemma kept_outside_le n n' m m' : (n <= n')%nat -> kept_outside n m m' -> kept_outside n' m m'.
Proof. intros Hn Hk x Hx. apply Hk. nia. Qed.

Lemma swap_shuffled m i j n : i <> j -> (i < n)%nat -> (j < n)%nat ->
  shuffled n (elem m) (elem (swap_bytes m (elem_addr i) (elem_addr j) size)).
Proof.
  intros. eapply shuffled_ext; [done| |by apply (shuffled_tr n (elem m) i j)]. intros k. by rewrite elem_swap.
Qed.

(** What one call of sift_down does, whatever the comparison. *)
Definition sifted (lo root count : nat) (m m' : umem) : Prop :=
  shuffled count (elem m) (elem m') /\ kept_outside count m m' /\
  (GoodCompare compare -> (lo <= root)%nat -> heap_hole compare lo root count (elem m) -> heap_from compare lo count (elem m')).

Lemma heap_hole_ext lo r n (a b : nat -> list Z) : (forall i, a i = b i) -> heap_hole compare lo r n a -> heap_hole compare lo r n b.
Proof. intros He [H1 H2]. split; intros; rewrite <- !He; eauto. Qed.

Lemma sift_down_spec lo fuel root count m : (count - root < fuel)%nat ->
  exists m', sift_down compare base size fuel root count m = Some m' /\ sifted lo root count m m'.
Proof.
  revert root m. induction fuel as [|fuel IH]; intros root m Hf; [lia|]. cbn [sift_down].
  destruct (Nat.leb_spec count (2 * root + 1)) as [Hc|Hc].
  { exists m. split; [done|]. split; [apply shuffled_refl|]. split; [done|].
    intros Hg Hlo Hh. apply (heap_hole_done compare lo root); [done|]. intros o Ho Hn. unfold child_of in Ho. lia. }
  set (child := if _ && _ then _ else _).
  assert (Hch : child_of root child /\ (child < count)%nat /\
    (GoodCompare compare -> forall o, child_of root o -> (o < count)%nat -> le_c compare (elem m o) (elem m child))).
  { subst child. unfold child_of, le_c. destruct (Nat.ltb_spec (2 * root + 1 + 1) count) as [H2|H2]; cbn [andb].
    - destruct (Z.ltb_spec (compare (elem m (2 * root + 1)) (elem m (2 * root + 1 + 1))) 0) as [Hlt|Hge];
        (split; [lia|split; [lia|]]); intros Hg o [->| ->] _;
        replace (2 * root + 2)%nat with (2 * root + 1 + 1)%nat by lia;
        first [by apply le_c_refl | by apply compare_flip | lia].
    - split; [lia|]. split; [lia|]. intros Hg o [->| ->] Hn; [by apply le_c_refl|lia]. }
  destruct Hch as (Hc1 & Hc2 & Hc3). assert (root < child)%nat by (unfold child_of in Hc1; lia).
  destruct (Z.leb_spec 0 (compare (elem m root) (elem m child))) as [Hge|Hlt].
  - exists m. split; [done|]. split; [apply shuffled_refl|]. split; [done|].
    intros Hg Hlo Hh. apply (heap_hole_done compare lo root); [done|]. intros o Ho Hn.
    apply (le_c_trans compare _ (elem m child)); [by apply Hc3|by apply compare_flip].
  - destruct (IH child (swap_bytes m (elem_addr root) (elem_addr child) size)) as (m' & -> & Hs & Hk & Hh'); [lia|].
    exists m'. split; [done|]. split; [|split].
    + eapply shuffled_trans; [|done]. apply swap_shuffled; lia.
    + eapply kept_outside_trans; [|done]. apply swap_outside; lia.
    + intros Hg Hlo Hh. apply Hh'; [done|lia|].
      eapply heap_hole_ext; [|apply (heap_hole_swap compare lo root count (elem m) child); try done; [unfold le_c; lia|by apply Hc3]].
      intros i. simpl. by rewrite elem_swap by lia.
Qed.

Lemma build_heap_spec n count m :
  exists m', build_heap compare base size n count m = Some m' /\ shuffled count (elem m) (elem m') /\ kept_outside count m m' /\
    (GoodCompare compare -> heap_from compare n count (elem m) -> heap_from compare 0 count (elem m')).
Proof.
  revert m. induction n as [|n IH]; intros m; cbn [build_heap].
  { exists m. split; [done|]. split; [apply shuffled_refl|done]. }
  destruct (sift_down_spec n (S count) n count m) as (m1 & -> & Hs & Hk & Hh); [lia|]. simpl.
  destruct (IH m1) as (m2 & -> & Hs2 & Hk2 & Hh2). exists m2. split; [done|].
  split; [by eapply shuffled_trans|]. split; [by eapply kept_outside_trans|].
  intros Hg Hn. apply Hh2; [done|]. apply Hh; [done|lia|]. by apply heap_from_hole.
Qed.

Lemma shuffled_sorted_from n count (a b : nat -> list Z) : shuffled n a b -> sorted_from compare n count a -> sorted_from compare n count b.
Proof.
  intros (f & Hi & Hf & Gf & Ef) Hs i j Hij Hj. rewrite !Ef, (Gf j) by lia. apply Hs; [|lia].
  destruct (decide (i < n)%nat) as [Hin|Hin]; [pose proof (proj2 (Hf i) Hin); lia|]. rewrite Gf; lia.
Qed.

Lemma pop_heap_spec n count m : (n < count)%nat ->
  exists m', pop_heap compare base size n m = Some m' /\ shuffled (S n) (elem m) (elem m') /\ kept_outside (S n) m m' /\
    (GoodCompare compare -> heap_from compare 0 (S n) (elem m) -> sorted_from compare (S n) count (elem m) ->
     sorted_from compare 0 count (elem m')).
Proof.
  revert m. induction n as [|n IH]; intros m Hn; cbn [pop_heap].
  { exists m. split; [done|]. split; [apply shuffled_refl|]. split; [done|]. intros _ _ Hs i j Hij _. apply Hs; lia. }
  set (m0 := swap_bytes m base _ _).
  assert (Em0 : m0 = swap_bytes m (elem_addr 0) (elem_addr (S n)) size).
  { subst m0. f_equal. unfold Qsort.elem_addr. lia. }
  destruct (sift_down_spec 0 (S (S n)) 0 (S n) m0) as (m1 & -> & Hs & Hk & Hh); [lia|]. simpl.
  destruct (IH m1) as (m2 & -> & Hs2 & Hk2 & Hh2); [lia|]. exists m2. split; [done|].
  assert (Hsw : shuffled (S (S n)) (elem m) (elem m0)) by (rewrite Em0; apply swap_shuffled; lia).
  split; [|split].
  - eapply shuffled_trans; [exact Hsw|]. eapply (shuffled_le (S n)); [lia|]. by eapply shuffled_trans.
  - apply (kept_outside_trans _ _ m0); [rewrite Em0; apply swap_outside; lia|].
    eapply (kept_outside_le (S n)); [lia|]. by eapply kept_outside_trans.
  - intros Hg Hheap Hsort.
    assert (Htr : forall k, elem m0 k = elem m (tr 0 (S n) k)) by (intros k; rewrite Em0; apply elem_swap; lia).
    assert (Hsf : sorted_from compare (S n) count (elem m0)).
    { intros i j Hij Hj. rewrite !Htr. destruct (decide (j = S n)) as [->|].
      - rewrite tr_r. apply (heap_top compare (S (S n))); [done|]. apply tr_lt; lia.
      - rewrite (tr_ne _ _ j) by lia. apply Hsort; [|lia]. split; [|lia].
        destruct (decide (i < S (S n))%nat) as [Hi|]; [|rewrite tr_ne by lia; lia].
        apply (tr_lt 0 (S n) i (S (S n))) in Hi; lia. }
    apply Hh2; [done| |by apply (shuffled_sorted_from _ _ (elem m0))].
    apply Hh; [done|lia|]. split.
    + intros i c _ Hi Hc Hcn. rewrite !Htr, !tr_ne by (unfold child_of in Hc; lia). apply Hheap; [lia|done|lia].
    + intros p c _ Hp. unfold child_of in Hp. lia.
Qed.
End Mem.

(** C39: qsort ends with whatever comparison and leaves a permutation of the
    elements, each moved as a whole, with no byte outside the array changed;
    if the comparison is a total preorder, the array is then sorted by it. *)
Theorem qsort_correct (compare : list Z -> list Z -> Z) base size count m :
  base <> 0 ->
  let elems m := elem base size m <$> seq 0 count in
  exists m', qsort compare base size count m = Some m' /\ elems m' ≡ₚ elems m /\ kept_outside base size count m m' /\
    (GoodCompare compare -> StronglySorted (le_c compare) (elems m')).
Proof.
  intros Hb elems. unfold qsort. replace (base =? 0) with false by lia. cbn [orb].
  assert (Hsmall : (count < 2)%nat \/ size = 0%nat -> GoodCompare compare -> StronglySorted (le_c compare) (elems m)).
  { intros Hs Hg. apply sorted_from_StronglySorted. intros i j Hij _. destruct Hs as [Hs| ->]; [lia|]. apply (le_c_refl compare). }
  destruct ((count <? 2)%nat || (size =? 0)%nat) eqn:E.
  { exists m. do 3 (split; [done|]). apply Hsmall. lia. }
  destruct (build_heap_spec compare base size (count / 2) count m) as (m1 & -> & Hs1 & Hk1 & Hh1). simpl.
  destruct (pop_heap_spec compare base size (count - 1) count m1) as (m2 & -> & Hs2 & Hk2 & Hh2); [lia|].
  replace (S (count - 1)) with count in * by lia. exists m2. split; [done|]. split; [|split].
  - by apply shuffled_Permutation, (shuffled_trans _ _ (elem base size m1)).
  - by apply (kept_outside_trans _ _ _ _ m1).
  - intros Hg. apply sorted_from_StronglySorted, Hh2; [done| |intros i j Hij Hj; lia].
    apply Hh1; [done|]. intros i c Hi Hc Hn. unfold child_of in Hc. pose proof (Nat.div_mod_eq count 2). pose proof (Nat.mod_upper_bound count 2). lia.
Qed.

(** Two-byte elements compared by their first byte. *)
Definition first_byte (a b : list Z) : Z := hd 0 a - hd 0 b.
#[local] Instance first_byte_good : GoodCompare first_byte.
Proof. split; unfold first_byte; intros; lia. Qed.

Definition demo_mem : umem := fun x => default 7 ([5; 0; 2; 1; 9; 2; 2; 3; 1; 4] !! Z.to_nat (x - 16)).

Lemma qsort_correct_witness : exists m', qsort first_byte 16 2 5 demo_mem = Some m' /\
  elem 16 2 m' <$> seq 0 5 = [[1; 4]; [2; 1]; [2; 3]; [5; 0]; [9; 2]] /\ StronglySorted (le_c first_byte) (elem 16 2 m' <$> seq 0 5).
Proof.
  destruct (qsort_correct first_byte 16 2 5 demo_mem) as (m' & Hq & _ & _ & Hs); [lia|].
  exists m'. split; [done|]. split; [|by apply Hs, _].
  assert (Hr : (fun r => option_map (fun m => elem 16 2 m <$> seq 0 5) r) (qsort first_byte 16 2 5 demo_mem)
               = Some [[1; 4]; [2; 1]; [2; 3]; [5; 0]; [9; 2]]) by reflexivity.
  rewrite Hq in Hr. exact (f_equal (default []) Hr).
Defined.
