(* ===== verification/Ulib.v ===== *)
(** * The user library: characters and strings

    user/libc/ext.c and user/libc/libc.c: character classes and the string
    functions that only read. A C string is the list of its bytes before the
    NUL; a pointer into it is the suffix it points to, so that [*p] is [ch p].
    Bytes are kept unsigned; [char] is signed on the modelled targets, and
    where the code compares plain [char]s the conversion [s8] is written. *)
From Stdlib Require Import ZArith Lia List.
From stdpp Require Import base list numbers.
From S2P Require Import Prelude.
Open Scope Z_scope.

Definition s8 (c : Z) : Z := if c <? 128 then c else c - 256.

Definition ch (p : list Z) : Z := hd 0 p.

(** No NUL inside. *)
Definition cstring (s : list Z) : Prop := Forall (fun c => 0 < c < 256) s.

(** ** Character classes *)
Definition isdigit (c : Z) : bool := (48 <=? c) && (c <=? 57).
Definition isupper (c : Z) : bool := (65 <=? c) && (c <=? 90).
Definition islower (c : Z) : bool := (97 <=? c) && (c <=? 122).
Definition isalpha (c : Z) : bool := isupper c || islower c.
Definition isalnum (c : Z) : bool := isalpha c || isdigit c.
Definition isspace (c : Z) : bool := (c =? 32) || (c =? 9) || (c =? 10) || (c =? 13) || (c =? 12) || (c =? 11).
Definition isprint (c : Z) : bool := (32 <=? c) && (c <? 127).
Definition isxdigit (c : Z) : bool := isdigit c || ((97 <=? c) && (c <=? 102)) || ((65 <=? c) && (c <=? 70)).
Definition toupper (c : Z) : Z := if islower c then c - 97 + 65 else c.
Definition tolower (c : Z) : Z := if isupper c then c - 65 + 97 else c.

(** ** Strings *)

(** The suffix at the first [c]; the terminating NUL counts. *)
Fixpoint strchr (text : list Z) (c : Z) : option (list Z) :=
  match text with
  | [] => if c =? 0 then Some [] else None
  | x :: text' => if x =? c then Some text else strchr text' c
  end.

Fixpoint strrchr (text : list Z) (c : Z) : option (list Z) :=
  match text with
  | [] => if c =? 0 then Some [] else None
  | x :: text' => match strrchr text' c with Some p => Some p | None => if x =? c then Some text else None end
  end.

Definition found {A} (p : option A) : bool := match p with Some _ => true | None => false end.

Fixpoint strspn (text accept : list Z) : nat :=
  match text with
  | [] => O
  | x :: text' => if found (strchr accept x) then S (strspn text' accept) else O
  end.

Fixpoint strcspn (text reject : list Z) : nat :=
  match text with
  | [] => O
  | x :: text' => if found (strchr reject x) then O else S (strcspn text' reject)
  end.

Fixpoint strpbrk (text accept : list Z) : option (list Z) :=
  match text with
  | [] => None
  | x :: text' => if found (strchr accept x) then Some text else strpbrk text' accept
  end.

(** Both loops below read one character of each string at a time; past the
    NUL of either they have returned. *)
Fixpoint strcasecmp (left right : list Z) : Z :=
  let a := tolower (ch left) in
  let b := tolower (ch right) in
  if negb (a =? b) then a - b
  else match left with [] => 0 | _ :: left' => if a =? 0 then 0 else strcasecmp left' (tl right) end.

Fixpoint strncasecmp (left right : list Z) (count : nat) : Z :=
  match count with
  | O => 0
  | S count' =>
      let a := tolower (ch left) in
      let b := tolower (ch right) in
      if negb (a =? b) then a - b else if a =? 0 then 0 else strncasecmp (tl left) (tl right) count'
  end.

(** [while ( *h && *n && *h == *n) h++, n++; !*n] *)
Fixpoint str_starts (h n : list Z) {struct n} : bool :=
  match n with
  | [] => true
  | y :: n' => match h with x :: h' => if x =? y then str_starts h' n' else false | [] => false end
  end.

Fixpoint strstr_loop (haystack needle : list Z) : option (list Z) :=
  match haystack with
  | [] => None
  | _ :: h' => if str_starts haystack needle then Some haystack else strstr_loop h' needle
  end.

Definition strstr (haystack needle : list Z) : option (list Z) :=
  match needle with [] => Some haystack | _ => strstr_loop haystack needle end.

Fixpoint icase_loop (haystack needle : list Z) : option (list Z) :=
  match haystack with
  | [] => None
  | _ :: h' => if strncasecmp haystack needle (length needle) =? 0 then Some haystack else icase_loop h' needle
  end.

Definition str_find (haystack needle : list Z) (icase : bool) : option (list Z) :=
  if negb icase then strstr haystack needle
  else match needle with [] => Some haystack | _ => icase_loop haystack needle end.

Definition path_basename (path : list Z) : list Z :=
  match strrchr path 47 with Some slash => tl slash | None => path end.

(** The length of [source], and the bytes stored at the destination. *)
Definition strlcpy (source : list Z) (size : nat) : nat * list Z :=
  (length source, if (size =? 0)%nat then [] else take (if (length source <? size - 1)%nat then length source else (size - 1)%nat) source ++ [0]).

Definition strnlen (text : list Z) (limit : nat) : nat := if (length text <? limit)%nat then length text else limit.

(** ** What they compute *)
Lemma found_strchr s c : c <> 0 -> found (strchr s c) = bool_decide (c ∈ s).
Proof.
  intros Hc. induction s as [|x s IH]; simpl; [by replace (c =? 0) with false by lia|].
  destruct (Z.eqb_spec x c) as [->|]; simpl; [symmetry; apply bool_decide_eq_true; left|].
  rewrite IH. apply bool_decide_ext. rewrite elem_of_cons. naive_solver.
Qed.

Lemma strchr_Some s c p : strchr s c = Some p -> c <> 0 -> exists q r, s = q ++ p /\ p = c :: r /\ c ∉ q.
Proof.
  intros H Hc. induction s as [|x s IH]; simpl in H; [by replace (c =? 0) with false in H by lia|].
  destruct (Z.eqb_spec x c) as [->|].
  - injection H as <-. exists [], s. split; [done|]. split; [done|]. apply not_elem_of_nil.
  - destruct IH as (q & r & -> & -> & Hq); [done|]. exists (x :: q), r. split; [done|]. split; [done|].
    rewrite not_elem_of_cons. naive_solver.
Qed.

(** The last occurrence: the base name is what follows the last slash. *)
Lemma strrchr_spec s c : c <> 0 ->
  match strrchr s c with
  | Some p => exists q r, s = q ++ p /\ p = c :: r /\ c ∉ r
  | None => c ∉ s
  end.
Proof.
  intros Hc. induction s as [|x s IH]; simpl; [replace (c =? 0) with false by lia; apply not_elem_of_nil|].
  destruct (strrchr s c) as [p|].
  - destruct IH as (q & r & -> & -> & Hr). by exists (x :: q), r.
  - destruct (Z.eqb_spec x c) as [->|]; [by exists [], s|]. rewrite not_elem_of_cons. naive_solver.
Qed.

Lemma path_basename_spec path : exists dir, path = dir ++ path_basename path /\ 47 ∉ path_basename path /\ (dir = [] \/ (exists d, dir = d ++ [47])).
Proof.
  unfold path_basename. pose proof (strrchr_spec path 47) as H. destruct (strrchr path 47) as [p|].
  - destruct H as (q & r & -> & -> & Hr); [lia|]. exists (q ++ [47]). simpl. rewrite <- app_assoc. split; [done|]. split; [done|]. right. by exists q.
  - exists []. split; [done|]. split; [apply H; lia|]. by left.
Qed.

Lemma str_starts_spec h n : str_starts h n = true <-> (exists r, h = n ++ r).
Proof.
  revert h. induction n as [|y n IH]; intros h; simpl; [split; intros _; [by exists h|done]|].
  destruct h as [|x h]; [split; [done|by intros [r ?]]|].
  destruct (Z.eqb_spec x y) as [->|Hne].
  - rewrite IH. split; intros [r Hr]; exists r; naive_solver.
  - split; [done|]. intros [r Hr]. naive_solver.
Qed.

Lemma same_letter_zero c : tolower c = 0 <-> c = 0.
Proof. unfold tolower, isupper. split_ifs; lia. Qed.

(** Equal but for the case of ASCII letters. *)
Definition same_icase (a b : list Z) : Prop := tolower <$> a = tolower <$> b.

Lemma strncasecmp_prefix h n : Forall (fun c => c <> 0) n ->
  (strncasecmp h n (length n) =? 0) = true <-> (exists p r, h = p ++ r /\ same_icase p n).
Proof.
  intros Hn. revert h. induction Hn as [|y n Hy Hn IH]; intros h; simpl; [split; intros _; [by exists [], h|done]|].
  destruct (Z.eqb_spec (tolower (ch h)) (tolower y)) as [E|Hne]; cbn [negb].
  - replace (tolower (ch h) =? 0) with false by (pose proof (same_letter_zero y); lia).
    destruct h as [|x h]; [simpl in E; pose proof (same_letter_zero y); pose proof (same_letter_zero 0); lia|].
    simpl. rewrite IH. unfold same_icase. split.
    + intros (p & r & -> & Hp). exists (x :: p), r. split; [done|]. rewrite !fmap_cons. simpl in E. by rewrite E, Hp.
    + intros (p & r & Hh & Hp). destruct p as [|x' p]; [done|]. rewrite !fmap_cons in Hp. injection Hh as -> ->. injection Hp as _ Hp. by exists p, r.
  - split; [lia|]. intros (p & r & -> & Hp). unfold same_icase in Hp. destruct p as [|x p]; [done|]. rewrite !fmap_cons in Hp. injection Hp as Hp _. simpl in Hne. congruence.
Qed.

(** The first suffix on which [p] holds. *)
Definition first_suffix (P : list Z -> Prop) (s : list Z) (r : option (list Z)) : Prop :=
  match r with
  | Some t => exists q, s = q ++ t /\ P t /\ forall q1 q2, q = q1 ++ q2 -> q2 <> [] -> ~ P (q2 ++ t)
  | None => forall q t, s = q ++ t -> ~ P t
  end.

(** str_find returns the first place where the needle occurs, literally or up
    to the case of letters, and nothing exactly when it does not occur. *)
Theorem str_find_correct haystack needle (icase : bool) : Forall (fun c => c <> 0) needle ->
  first_suffix (fun t => exists p r, t = p ++ r /\ (if icase then same_icase p needle else p = needle)) haystack (str_find haystack needle icase).
Proof.
  intros Hn. match goal with |- first_suffix ?Q _ _ => set (P := Q) end.
  assert (Hloop : forall f : list Z -> bool, (forall t, f t = true <-> P t) -> needle <> [] ->
    forall loop : list Z -> option (list Z), loop [] = None -> (forall x h, loop (x :: h) = if f (x :: h) then Some (x :: h) else loop h) ->
    first_suffix P haystack (loop haystack)).
  { intros f Hf Hne loop H0 HS. induction haystack as [|x h IH].
    - rewrite H0. intros q t Ht. symmetry in Ht. apply app_nil in Ht as [-> ->]. intros (p & r & Hp & Hi).
      symmetry in Hp. apply app_nil in Hp as [-> ->]. destruct icase; [|congruence]. unfold same_icase in Hi. by destruct needle.
    - rewrite HS. destruct (f (x :: h)) eqn:E.
      + exists []. split; [done|]. split; [by apply Hf|]. intros q1 q2 Hq. symmetry in Hq. by apply app_nil in Hq as [-> ->].
      + assert (~ P (x :: h)) by (rewrite <- Hf, E; done). destruct (loop h) as [t|]; simpl in *.
        * destruct IH as (q & -> & Ht & Hq). exists (x :: q). split; [done|]. split; [done|].
          intros q1 q2 Hqq Hq2. destruct q1 as [|y q1]; simpl in Hqq; [by subst q2|]. injection Hqq as -> ->. by apply (Hq q1).
        * intros q t Ht. destruct q as [|y q]; simpl in Ht; [by subst t|]. injection Ht as -> ->. by apply (IH q). }
  assert (Hnil : needle = [] -> first_suffix P haystack (Some haystack)).
  { intros ->. exists []. split; [done|]. split; [exists [], haystack; split; [done|]; by destruct icase|].
    intros q1 q2 Hq. symmetry in Hq. by apply app_nil in Hq as [-> ->]. }
  unfold str_find, strstr. destruct icase; cbn [negb]; (destruct needle as [|y n]; [by apply Hnil|]).
  - refine (Hloop (fun t => strncasecmp t (y :: n) (length (y :: n)) =? 0) _ _ (fun h => icase_loop h (y :: n)) _ _); try done.
    intros t. by rewrite strncasecmp_prefix.
  - refine (Hloop (fun t => str_starts t (y :: n)) _ _ (fun h => strstr_loop h (y :: n)) _ _); try done.
    intros t. rewrite str_starts_spec. split; [intros [r ->]; by exists (y :: n), r|intros (p & r & -> & ->); by exists r].
Qed.

Lemma strspn_spec text accept : Forall (fun c => c <> 0) text ->
  Forall (.∈ accept) (take (strspn text accept) text) /\ (ch (drop (strspn text accept) text) ∉ accept \/ drop (strspn text accept) text = []).
Proof.
  induction 1 as [|x s Hx Hs IH]; simpl; [split; [constructor|by right]|].
  rewrite found_strchr by done. case_bool_decide; simpl; [|split; [constructor|by left]].
  destruct IH. split; [by constructor|done].
Qed.

(** strlcpy stores a terminated prefix that fits in [size] bytes. *)
Lemma strlcpy_spec source size : (0 < size)%nat ->
  snd (strlcpy source size) = take (size - 1) source ++ [0] /\ (length (snd (strlcpy source size)) <= size)%nat.
Proof.
  intros. unfold strlcpy. simpl. replace (size =? 0)%nat with false by lia.
  assert (take (if (length source <? size - 1)%nat then length source else (size - 1)%nat) source = take (size - 1) source) as ->.
  { destruct (Nat.ltb_spec (length source) (size - 1)); [|done]. rewrite !take_ge; [done|lia..]. }
  split; [done|]. rewrite length_app, length_take. simpl. lia.
Qed.
