(* ===== verification/Regex.v ===== *)
(** * The user library's regular expressions

    user/libc/ext.c: re_match, a backtracking matcher that reads the pattern
    as it goes. A pointer into the pattern or the text is the suffix it points
    to; comparing two pointers into the pattern is comparing the lengths of
    the suffixes. The reference is a syntax of expressions, a parser into it
    and the language of an expression; re_match decides that language. *)
From Stdlib Require Import ZArith Lia List.
From stdpp Require Import base list numbers.
From S2P Require Import Prelude Ulib.
Open Scope Z_scope.

(** ** The code *)
Section Code.
Context (g_re_icase : bool).

Definition re_char_eq (a b : Z) : bool := if a =? b then true else g_re_icase && (tolower a =? tolower b).

(** [while ( *p && *p != ']') p++] *)
Fixpoint skip_set (p : list Z) : list Z :=
  match p with
  | [] => []
  | c :: p' => if c =? 93 then p else skip_set p'
  end.

Definition re_atom_end (re : list Z) : list Z :=
  if (ch re =? 92) && negb (ch (tl re) =? 0) then drop 2 re
  else if ch re =? 91 then
    let p := tl re in
    let p := if ch p =? 94 then tl p else p in
    let p := if ch p =? 93 then tl p else p in
    let p := skip_set p in
    if ch p =? 93 then tl p else tl re
  else tl re.

Definition re_in_range (low high c : Z) : bool :=
  if (s8 low <=? s8 c) && (s8 c <=? s8 high) then true
  else if negb g_re_icase then false
  else
    let lower := s8 (tolower c) in
    let upper := s8 (toupper c) in
    ((s8 low <=? lower) && (lower <=? s8 high)) || ((s8 low <=? upper) && (upper <=? s8 high)).

(** The loop over the bytes [p, close) of a set. *)
Fixpoint set_loop (p : list Z) (c : Z) (found : bool) : bool :=
  match p with
  | [] => found
  | a :: p1 =>
      match p1 with
      | d :: b :: p3 =>
          if d =? 45 then set_loop p3 c (if re_in_range a b c then true else found)
          else set_loop p1 c (if re_char_eq a c then true else found)
      | _ => set_loop p1 c (if re_char_eq a c then true else found)
      end
  end.

Definition re_atom_match (re end_ : list Z) (c : Z) : bool :=
  if ch re =? 46 then true
  else if (ch re =? 92) && (length re =? length end_ + 2)%nat then re_char_eq (ch (tl re)) c
  else if (ch re =? 91) && (length end_ + 1 <? length re)%nat then
    let set := take (length re - length end_ - 2) (tl re) in
    let negate := ch set =? 94 in
    let set := if negate then tl set else set in
    negb (eqb (set_loop set c false) negate)
  else re_char_eq (ch re) c.

(** [while (n < max && text[n] && re_atom_match(re, end, text[n])) n++];
    [None] is no maximum. *)
Fixpoint run_length (re end_ : list Z) (max : option nat) (text : list Z) : nat :=
  match text with
  | [] => O
  | c :: text' =>
      match max with
      | Some O => O
      | _ => if re_atom_match re end_ c then S (run_length re end_ (pred <$> max) text') else O
      end
  end.

(** [for (k = n + 1; k-- > min;) if (re_here(rest, text + k)) return 1;
    return 0], over the list of the values of [k]. *)
Fixpoint try_lengths (f : nat -> option bool) (ks : list nat) : option bool :=
  match ks with
  | [] => Some false
  | k :: ks' => match f k with None => None | Some true => Some true | Some false => try_lengths f ks' end
  end.

(** [None] is a call that does not return within the fuel: it is no answer. *)
Fixpoint re_here (fuel : nat) (re text : list Z) : option bool :=
  match fuel with
  | O => None
  | S fuel' =>
      if bool_decide (re = []) then Some true
      else if (ch re =? 36) && bool_decide (tl re = []) then Some (bool_decide (text = []))
      else
        let end_ := re_atom_end re in
        let quant := ch end_ in
        if (quant =? 42) || (quant =? 43) || (quant =? 63) then
          let rest := tl end_ in
          let min := if quant =? 43 then 1%nat else O in
          let max := if quant =? 63 then Some 1%nat else None in
          let n := run_length re end_ max text in
          try_lengths (fun k => re_here fuel' rest (drop k text)) (rev (seq min (S n - min)))
        else
          match text with
          | c :: text' => if re_atom_match re end_ c then re_here fuel' end_ text' else Some false
          | [] => Some false
          end
  end.

(** [do if (re_here(pattern, text)) return 1; while ( *text++)] *)
Fixpoint match_loop (fuel : nat) (pattern text : list Z) : option bool :=
  match re_here fuel pattern text with
  | None => None
  | Some true => Some true
  | Some false => match text with [] => Some false | _ :: text' => match_loop fuel pattern text' end
  end.
End Code.

Definition re_match (pattern text : list Z) (icase : bool) : option bool :=
  let fuel := S (length pattern) in
  if ch pattern =? 94 then re_here icase fuel (tl pattern) text else match_loop icase fuel pattern text.

(** ** Expressions and their language *)

(** A set is a list of ranges. *)
Inductive atom := ADot | AChar (c : Z) | ASet (negate : bool) (ranges : list (Z * Z)).

(** Between [p_min] and [p_max] characters of the atom. *)
Record piece := Piece { p_atom : atom; p_min : nat; p_max : option nat }.

Section Language.
Context (icase : bool).

Definition same_letter (a c : Z) : Prop := a = c \/ icase = true /\ tolower a = tolower c.

(** In signed order, as the code compares characters. *)
Definition between (lo hi c : Z) : Prop := s8 lo <= s8 c <= s8 hi.
Definition in_range (r : Z * Z) (c : Z) : Prop :=
  between r.1 r.2 c \/ icase = true /\ (between r.1 r.2 (tolower c) \/ between r.1 r.2 (toupper c)).

Definition atom_has (a : atom) (c : Z) : Prop :=
  match a with
  | ADot => True
  | AChar x => same_letter x c
  | ASet false rs => Exists (fun r => in_range r c) rs
  | ASet true rs => ~ Exists (fun r => in_range r c) rs
  end.

(** [matches ps anchored t]: a prefix of [t], all of it if [anchored], is the
    concatenation of a string for each piece. *)
Inductive matches : list piece -> bool -> list Z -> Prop :=
| matches_open t : matches [] false t
| matches_end : matches [] true []
| matches_piece p ps e s t :
    Forall (atom_has (p_atom p)) s -> (p_min p <= length s)%nat -> (forall m, p_max p = Some m -> length s <= m)%nat ->
    matches ps e t -> matches (p :: ps) e (s ++ t).
End Language.

(** ** The syntax of patterns *)

(** Up to the first ] and after it. *)
Fixpoint split_close (p : list Z) : option (list Z * list Z) :=
  match p with
  | [] => None
  | c :: p' => if c =? 93 then Some ([], p') else match split_close p' with Some (a, b) => Some (c :: a, b) | None => None end
  end.

Fixpoint parse_ranges (s : list Z) : list (Z * Z) :=
  match s with
  | [] => []
  | a :: s1 =>
      match s1 with
      | d :: b :: s3 => if d =? 45 then (a, b) :: parse_ranges s3 else (a, a) :: parse_ranges s1
      | _ => (a, a) :: parse_ranges s1
      end
  end.

(** The content of a set: a ] right after the opening is a member. *)
Definition parse_body (p : list Z) : option (list Z * list Z) :=
  match p with
  | c :: p' => if c =? 93 then match split_close p' with Some (s, rest) => Some (93 :: s, rest) | None => None end else split_close p
  | [] => None
  end.

Definition parse_set (p : list Z) : option (atom * list Z) :=
  let negate := ch p =? 94 in
  match parse_body (if negate then tl p else p) with
  | Some (s, rest) => Some (ASet negate (parse_ranges s), rest)
  | None => None
  end.

(** The first atom of a pattern that is not empty. *)
Definition parse_atom (re : list Z) : atom * list Z :=
  match re with
  | [] => (AChar 0, [])
  | c :: re1 =>
      if c =? 46 then (ADot, re1)
      else if c =? 92 then match re1 with x :: re2 => (AChar x, re2) | [] => (AChar 92, []) end
      else if c =? 91 then match parse_set re1 with Some (a, rest) => (a, rest) | None => (AChar 91, re1) end
      else (AChar c, re1)
  end.

Definition quantify (a : atom) (rest : list Z) : piece * list Z :=
  match rest with
  | q :: rest' =>
      if q =? 42 then (Piece a 0 None, rest')
      else if q =? 43 then (Piece a 1 None, rest')
      else if q =? 63 then (Piece a 0 (Some 1%nat), rest')
      else (Piece a 1 (Some 1%nat), rest)
  | [] => (Piece a 1 (Some 1%nat), rest)
  end.

(** The pieces, and whether the pattern ends in $. *)
Fixpoint parse_loop (fuel : nat) (re : list Z) : list piece * bool :=
  match fuel with
  | O => ([], false)
  | S fuel' =>
      match re with
      | [] => ([], false)
      | _ =>
          if bool_decide (re = [36]) then ([], true)
          else
            let (a, rest) := parse_atom re in
            let (p, rest) := quantify a rest in
            let (ps, e) := parse_loop fuel' rest in
            (p :: ps, e)
      end
  end.

Definition parse (re : list Z) : list piece * bool := parse_loop (S (length re)) re.

(** ** The code reads the syntax *)
Lemma skip_set_spec p : skip_set p = match split_close p with Some (_, rest) => 93 :: rest | None => [] end.
Proof.
  induction p as [|c p IH]; simpl; [done|]. destruct (Z.eqb_spec c 93) as [->|]; [done|].
  rewrite IH. by destruct (split_close p) as [[a b]|].
Qed.

Lemma split_close_app p a b : split_close p = Some (a, b) -> p = a ++ 93 :: b.
Proof.
  revert a. induction p as [|c p IH]; intros a; simpl; [done|].
  destruct (Z.eqb_spec c 93) as [->|]; [intros [= <- <-]; done|].
  destruct (split_close p) as [[a' b']|]; [|done]. intros [= <- <-]. simpl. f_equal. by apply IH.
Qed.

Lemma parse_body_app p s rest : parse_body p = Some (s, rest) -> p = s ++ 93 :: rest.
Proof.
  destruct p as [|c p]; simpl; [done|]. destruct (Z.eqb_spec c 93) as [->|].
  - destruct (split_close p) as [[a b]|] eqn:E; [|done]. intros [= <- <-]. simpl. f_equal. by apply split_close_app.
  - destruct (split_close p) as [[a b]|] eqn:E; [|done]. intros [= <- <-]. simpl. f_equal. by apply split_close_app.
Qed.

Lemma body_end p :
  let p' := skip_set (if ch p =? 93 then tl p else p) in
  match parse_body p with Some (_, rest) => p' = 93 :: rest | None => p' = [] end.
Proof.
  simpl. destruct p as [|c p]; [done|]. simpl. destruct (Z.eqb_spec c 93) as [->|]; simpl.
  - rewrite skip_set_spec. by destruct (split_close p) as [[a b]|].
  - replace (c =? 93) with false by lia. rewrite skip_set_spec. by destruct (split_close p) as [[a b]|].
Qed.

(** A set: what is inside its brackets. *)
Lemma parse_set_app p a rest : parse_set p = Some (a, rest) ->
  exists s, p = s ++ 93 :: rest /\ a = ASet (ch s =? 94) (parse_ranges (if ch s =? 94 then tl s else s)).
Proof.
  unfold parse_set. destruct (parse_body _) as [[s r]|] eqn:E; [|done]. intros [= <- <-].
  apply parse_body_app in E. destruct (Z.eqb_spec (ch p) 94) as [Hp|Hp].
  - destruct p as [|c p]; [done|]. simpl in *. subst c p. by exists (94 :: s).
  - exists s. split; [done|]. destruct s as [|x s]; simpl in *; [done|]. subst p. simpl in Hp. by replace (x =? 94) with false by lia.
Qed.

Lemma atom_end_parse re : Forall (fun c => c <> 0) re -> re <> [] -> re_atom_end re = (parse_atom re).2.
Proof.
  intros Hre Hne. destruct re as [|c re1]; [done|]. apply Forall_cons in Hre as [Hc Hre].
  unfold re_atom_end, parse_atom. simpl.
  destruct (Z.eqb_spec c 46) as [->|]; [done|]. destruct (Z.eqb_spec c 92) as [->|]; simpl.
  - destruct re1 as [|x re2]; simpl; [done|]. apply Forall_cons in Hre as [Hx _]. by replace (x =? 0) with false by lia.
  - destruct (Z.eqb_spec c 91) as [->|]; [|done]. unfold parse_set.
    set (p := if ch re1 =? 94 then _ else _).
    replace (if ch re1 =? 94 then tl re1 else re1) with p by done.
    pose proof (body_end p) as Hb. simpl in Hb. destruct (parse_body p) as [[s rest]|]; by rewrite Hb.
Qed.

Section Match.
Context (icase : bool).

Lemma char_eq_spec a c : re_char_eq icase a c = true <-> same_letter icase a c.
Proof.
  unfold re_char_eq, same_letter. destruct (Z.eqb_spec a c) as [->|]; [naive_solver|].
  rewrite andb_true_iff, Z.eqb_eq. naive_solver.
Qed.

Lemma in_range_spec lo hi c : re_in_range icase lo hi c = true <-> in_range icase (lo, hi) c.
Proof. unfold re_in_range, in_range, between. simpl. destruct icase; simpl; split_ifs; intuition (try lia; try discriminate). Qed.

Lemma single_range a c : 0 < a < 256 -> 0 < c < 256 -> re_char_eq icase a c = re_in_range icase a a c.
Proof.
  intros. unfold re_char_eq, re_in_range, s8, tolower, toupper, isupper, islower. destruct icase; simpl; split_ifs; lia.
Qed.

Lemma set_loop_spec s c : cstring s -> 0 < c < 256 -> forall found,
  set_loop icase s c found = true <-> found = true \/ Exists (fun r => in_range icase r c) (parse_ranges s).
Proof.
  intros Hs Hc. remember (length s) as n eqn:Hn. revert s Hs Hn.
  induction n as [n IH] using lt_wf_ind. intros s Hs Hn found.
  assert (Hone : forall a s1, cstring (a :: s1) -> (length s1 < n)%nat ->
    set_loop icase s1 c (if re_char_eq icase a c then true else found) = true <->
    found = true \/ Exists (fun r => in_range icase r c) ((a, a) :: parse_ranges s1)).
  { intros a s1 Ha Hl. apply Forall_cons in Ha as [Ha Hs1]. rewrite (IH (length s1)) by done.
    rewrite Exists_cons, <- in_range_spec, <- single_range by done. destruct (re_char_eq icase a c); naive_solver. }
  destruct s as [|a s1]; simpl; [rewrite Exists_nil; naive_solver|]. simpl in Hn.
  destruct s1 as [|d s2]; [apply Hone; [done|simpl in *; lia]|].
  destruct s2 as [|b s3]; [apply Hone; [done|simpl in *; lia]|].
  destruct (Z.eqb_spec d 45) as [->|]; [|apply Hone; [done|simpl in *; lia]].
  assert (cstring s3) by (by do 3 apply Forall_inv_tail in Hs). simpl in Hn.
  rewrite (IH (length s3)) by (done || lia). rewrite Exists_cons, <- in_range_spec. destruct (re_in_range icase a b c); naive_solver.
Qed.

Lemma atom_match_parse re c : cstring re -> 0 < c < 256 -> re <> [] ->
  re_atom_match icase re (re_atom_end re) c = true <-> atom_has icase (parse_atom re).1 c.
Proof.
  intros Hre Hc Hne. rewrite atom_end_parse; [|eapply Forall_impl; [exact Hre|simpl; lia]|done].
  destruct re as [|x re1]; [done|]. unfold re_atom_match, parse_atom. simpl ch.
  destruct (Z.eqb_spec x 46) as [->|]; [done|]. destruct (Z.eqb_spec x 92) as [->|].
  { destruct re1 as [|y re2]; [apply char_eq_spec|]. cbn [andb fst snd].
    rewrite (proj2 (Nat.eqb_eq _ _)) by (simpl; lia). apply char_eq_spec. }
  simpl andb. destruct (Z.eqb_spec x 91) as [->|]; [|apply char_eq_spec]. cbn [andb].
  destruct (parse_set re1) as [[a rest]|] eqn:E.
  - apply parse_set_app in E as (s & -> & ->). simpl fst. simpl snd.
    rewrite (proj2 (Nat.ltb_lt _ _)) by (simpl; rewrite length_app; simpl; lia).
    cbn [length tl]. assert (take (S (length (s ++ 93%Z :: rest)) - length rest - 2) (s ++ 93 :: rest) = s) as ->.
    { rewrite length_app. simpl. replace (S _ - _ - 2)%nat with (length s) by lia. by rewrite take_app_length. }
    assert (Hs : cstring s) by (apply Forall_inv_tail, Forall_app in Hre as [? _]; done).
    set (s' := if ch s =? 94 then tl s else s).
    assert (Hs' : cstring s') by (subst s'; destruct (ch s =? 94); [destruct Hs; [constructor|done]|done]).
    pose proof (set_loop_spec s' c Hs' Hc false) as Hl.
    fold s'. clearbody s'. destruct (ch s =? 94); simpl; destruct (set_loop icase s' c false); simpl; intuition congruence.
  - cbn [fst snd]. rewrite (proj2 (Nat.ltb_ge _ _)) by (simpl; lia). apply char_eq_spec.
Qed.
End Match.

(** ** The matcher decides the language *)
Lemma parse_atom_suffix re : re <> [] -> exists p, re = p ++ (parse_atom re).2 /\ p <> [].
Proof.
  intros Hne. destruct re as [|c re1]; [done|]. unfold parse_atom.
  destruct (c =? 46); [by exists [c]|]. destruct (c =? 92).
  { destruct re1 as [|x re2]; [by exists [c]|by exists [c; x]]. }
  destruct (c =? 91); [|by exists [c]]. destruct (parse_set re1) as [[a rest]|] eqn:E; [|by exists [c]].
  apply parse_set_app in E as (s & -> & _). exists (c :: s ++ [93]). simpl. by rewrite <- app_assoc.
Qed.

Lemma quantify_suffix a rest : exists q, rest = q ++ (quantify a rest).2.
Proof. destruct rest as [|x r]; simpl; [by exists []|]. split_ifs; simpl; first [by exists [x] | by exists []]. Qed.

Lemma cstring_suffix p s : cstring (p ++ s) -> cstring s.
Proof. unfold cstring. rewrite Forall_app. by intros [_ ?]. Qed.

Section Decide.
Context (icase : bool).

Lemma re_run_length_spec re end_ text : forall max k,
  (k <= run_length icase re end_ max text <->
   k <= length text /\ (forall m, max = Some m -> k <= m) /\ Forall (fun c => re_atom_match icase re end_ c = true) (take k text))%nat.
Proof.
  induction text as [|c text IH]; intros max k; simpl.
  { rewrite take_nil, Forall_nil. split; [intros; repeat split; lia|lia]. }
  destruct k as [|k]; [rewrite take_0, Forall_nil; split; [intros; repeat split; lia|lia]|].
  rewrite firstn_cons, Forall_cons.
  assert (Hm : max <> Some 0%nat -> ((forall m, max = Some m -> S k <= m) <-> (forall m, pred <$> max = Some m -> k <= m))%nat).
  { intros Hm. destruct max as [m|]; simpl; [|naive_solver]. split; intros H m' [= <-].
    - specialize (H m eq_refl). lia.
    - specialize (H _ eq_refl). destruct m; [done|simpl in H; lia]. }
  destruct max as [[|m]|].
  - split; [lia|]. intros (_ & H & _). specialize (H 0%nat eq_refl). lia.
  - rewrite Hm by done. destruct (re_atom_match icase re end_ c); [|split; [lia|naive_solver]].
    rewrite <- Nat.succ_le_mono, IH. rewrite <- Nat.succ_le_mono. naive_solver.
  - rewrite Hm by done. destruct (re_atom_match icase re end_ c); [|split; [lia|naive_solver]].
    rewrite <- Nat.succ_le_mono, IH. rewrite <- Nat.succ_le_mono. naive_solver.
Qed.

Lemma matches_cons p ps e text : matches icase (p :: ps) e text <->
  exists k, (k <= length text)%nat /\ Forall (atom_has icase (p_atom p)) (take k text) /\ (p_min p <= k)%nat /\
    (forall m, p_max p = Some m -> k <= m)%nat /\ matches icase ps e (drop k text).
Proof.
  split.
  - intros Hm. inversion Hm as [| |p' ps' e' s t Hs Hmin Hmax Ht]; subst. exists (length s). rewrite length_app, take_app_length, drop_app_length.
    split; [lia|]. done.
  - intros (k & Hk & Hs & Hmin & Hmax & Hm). rewrite <- (take_drop k text). constructor; [done|..|done].
    + rewrite length_take. lia.
    + intros m Em. rewrite length_take. specialize (Hmax m Em). lia.
Qed.

Lemma Forall_atom re s : cstring re -> re <> [] -> cstring s ->
  Forall (fun c => re_atom_match icase re (re_atom_end re) c = true) s <-> Forall (atom_has icase (parse_atom re).1) s.
Proof.
  intros Hre Hne Hs. split; intros H; (induction H as [|c s Hc H IH]; constructor; apply Forall_cons in Hs as [? ?]);
    first [by apply IH | by apply atom_match_parse].
Qed.

(** A call returns, and with the answer to [Q]. *)
Definition answers (r : option bool) (Q : Prop) : Prop := exists b, r = Some b /\ (b = true <-> Q).

Lemma answers_iff r (Q Q' : Prop) : (Q <-> Q') -> answers r Q -> answers r Q'.
Proof. intros H (b & -> & Hb). exists b. by rewrite Hb. Qed.

Lemma try_lengths_answers f (Q : nat -> Prop) ks : (forall k, answers (f k) (Q k)) ->
  answers (try_lengths f ks) (exists k, In k ks /\ Q k).
Proof.
  intros Hf. induction ks as [|k ks IH]; simpl; [exists false; naive_solver|].
  destruct (Hf k) as (b & -> & Hb). destruct b.
  - exists true. split; [done|]. split; [|done]. intros _. exists k. naive_solver.
  - revert IH. apply answers_iff. split; [naive_solver|]. intros (k' & [<-|?] & ?); [|by exists k']. by apply Hb in H.
Qed.

(** The loop over the lengths of a repeated atom. *)
Lemma quant_loop re text (f : nat -> option bool) (Q : nat -> Prop) min max : cstring re -> re <> [] -> cstring text ->
  (forall k, answers (f k) (Q k)) ->
  answers (try_lengths f (rev (seq min (S (run_length icase re (re_atom_end re) max text) - min))))
    (exists k, (k <= length text)%nat /\ Forall (atom_has icase (parse_atom re).1) (take k text) /\ (min <= k)%nat /\ (forall m, max = Some m -> k <= m)%nat /\ Q k).
Proof.
  intros Hre Hne Ht Hf.
  eapply answers_iff; [|by apply (try_lengths_answers f Q)].
  assert (Hin : forall k, In k (rev (seq min (S (run_length icase re (re_atom_end re) max text) - min))) <->
    (min <= k)%nat /\ (k <= length text)%nat /\ (forall m, max = Some m -> k <= m)%nat /\ Forall (atom_has icase (parse_atom re).1) (take k text)).
  { intros k. rewrite <- in_rev, in_seq, <- (Forall_atom re) by (done || by apply Forall_take). rewrite <- re_run_length_spec. lia. }
  split.
  - intros (k & Hk & Hp). apply Hin in Hk as (? & ? & ? & ?). by exists k.
  - intros (k & ? & ? & ? & ? & Hq). exists k. by rewrite Hin.
Qed.

(** An atom without a quantifier takes one character. *)
Lemma single_case re text (f : list Z -> option bool) (Q : nat -> Prop) : cstring re -> re <> [] -> cstring text ->
  (forall k, answers (f (drop k text)) (Q k)) ->
  answers (match text with c :: text' => if re_atom_match icase re (re_atom_end re) c then f text' else Some false | [] => Some false end)
    (exists k, (k <= length text)%nat /\ Forall (atom_has icase (parse_atom re).1) (take k text) /\ (1 <= k)%nat /\ (forall m, Some 1%nat = Some m -> k <= m)%nat /\ Q k).
Proof.
  intros Hre Hne Ht Hf. destruct text as [|c text].
  { exists false. split; [done|]. split; [done|]. intros (k & Hk & _ & Hm & _). simpl in Hk. lia. }
  apply Forall_cons in Ht as [Hc Ht]. specialize (Hf 1%nat). simpl in Hf. rewrite drop_0 in Hf.
  pose proof (atom_match_parse icase re c Hre Hc Hne) as Ha.
  assert (Hone : (exists k, (k <= length (c :: text))%nat /\ Forall (atom_has icase (parse_atom re).1) (take k (c :: text)) /\ (1 <= k)%nat /\
    (forall m, Some 1%nat = Some m -> k <= m)%nat /\ Q k) <-> atom_has icase (parse_atom re).1 c /\ Q 1%nat).
  { split.
    - intros (k & _ & Hk & H1 & Hm & Hq). specialize (Hm 1%nat eq_refl). replace k with 1%nat in * by lia.
      rewrite firstn_cons in Hk. apply Forall_cons in Hk as [? _]. done.
    - intros [Hh Hq]. exists 1%nat. split; [simpl; lia|]. split; [rewrite firstn_cons, take_0; by repeat constructor|].
      split; [lia|]. split; [by intros m [= <-]|done]. }
  rewrite <- Ha in Hone. destruct (re_atom_match icase re (re_atom_end re) c).
  - revert Hf. apply answers_iff. rewrite Hone. naive_solver.
  - exists false. split; [done|]. rewrite Hone. naive_solver.
Qed.

Lemma parse_fuel n m re : (length re < n)%nat -> (length re < m)%nat -> parse_loop n re = parse_loop m re.
Proof.
  revert m re. induction n as [|n IH]; intros m re Hn Hm; [lia|]. destruct m as [|m]; [lia|]. cbn [parse_loop].
  destruct re as [|c re1] eqn:Er; [done|]. rewrite <- Er in *. case_bool_decide; [done|].
  destruct (parse_atom_suffix re) as (p & Hp & Hpn); [by subst|]. destruct (parse_atom re) as [a rest]. simpl in Hp.
  destruct (quantify_suffix a rest) as (q & Hq). destruct (quantify a rest) as [pc rest']. simpl in Hq.
  rewrite (IH m); [done|..]; rewrite Hp, Hq, !length_app in Hn, Hm; destruct p; simpl in *; done || lia.
Qed.

Lemma re_here_spec fuel : forall re text, (length re < fuel)%nat -> cstring re -> cstring text ->
  answers (re_here icase fuel re text) (matches icase (parse_loop fuel re).1 (parse_loop fuel re).2 text).
Proof.
  induction fuel as [|fuel IH]; intros re text Hl Hre Ht; [lia|].
  destruct (decide (re = [])) as [->|Hne]; [exists true; simpl; split; [done|]; split; [constructor|done]|].
  destruct (decide (re = [36])) as [->|Hd].
  { exists (bool_decide (text = [])). split; [done|]. simpl. rewrite bool_decide_eq_true. split; [intros ->; constructor|by inversion 1]. }
  assert (Hp : parse_loop (S fuel) re =
    let (a, rest) := parse_atom re in let (p, rest) := quantify a rest in let (ps, e) := parse_loop fuel rest in (p :: ps, e)).
  { cbn [parse_loop]. destruct re as [|c re1] eqn:Er; [done|]. rewrite <- Er in *. by rewrite bool_decide_eq_false_2. }
  rewrite Hp. clear Hp. cbn [re_here]. rewrite bool_decide_eq_false_2 by done.
  replace ((ch re =? 36) && bool_decide (tl re = [])) with false.
  2:{ symmetry. apply andb_false_iff. destruct re as [|c re1]; [done|]. simpl.
      destruct (Z.eqb_spec c 36) as [->|]; [right; apply bool_decide_eq_false; congruence|by left]. }
  destruct (parse_atom_suffix re Hne) as (p0 & Hsuf & Hp0).
  assert (Hend : re_atom_end re = (parse_atom re).2) by (apply atom_end_parse; [eapply Forall_impl; [exact Hre|simpl; lia]|done]).
  pose proof (quant_loop re text) as Hql. pose proof (single_case re text) as Hsc. rewrite <- Hend in Hsuf. set (end_ := re_atom_end re) in *.
  destruct (parse_atom re) as [a rest]. simpl in Hend. simpl fst in Hql, Hsc. subst rest.
  destruct (quantify_suffix a end_) as (q & Hq).
  assert (Hrest : forall r, end_ = q ++ r -> (length r < fuel)%nat /\ cstring r).
  { intros r Hr. rewrite Hsuf, Hr in Hl, Hre. rewrite !length_app in Hl. destruct p0; [done|]. simpl in Hl.
    split; [lia|]. by apply cstring_suffix, cstring_suffix in Hre. }
  destruct (Hrest _ Hq) as [Hlr Hcr]. clear Hrest.
  assert (Hih : forall k, answers (re_here icase fuel (quantify a end_).2 (drop k text))
    (matches icase (parse_loop fuel (quantify a end_).2).1 (parse_loop fuel (quantify a end_).2).2 (drop k text))).
  { intros k. apply IH; [done..|]. by apply Forall_drop. }
  clear IH. destruct (quantify a end_) as [pc rest] eqn:Eq. cbn [snd] in *. destruct (parse_loop fuel rest) as [ps e]. cbn [fst snd] in *.
  eapply answers_iff; [symmetry; apply matches_cons|]. unfold quantify in Eq. clear Hq Hsuf. clearbody end_. destruct end_ as [|x end1]; cbn [ch hd tl] in *.
  { injection Eq as <- <-. cbn. apply Hsc with (f := re_here icase fuel []) (Q := fun k => matches icase ps e (drop k text)); done. }
  assert (Hgen : forall min max, pc = Piece a min max -> rest = end1 ->
    answers (try_lengths (fun k => re_here icase fuel end1 (drop k text)) (rev (seq min (S (run_length icase re (x :: end1) max text) - min))))
      (exists k, (k <= length text)%nat /\ Forall (atom_has icase (p_atom pc)) (take k text) /\ (p_min pc <= k)%nat /\
        (forall m, p_max pc = Some m -> k <= m)%nat /\ matches icase ps e (drop k text))).
  { intros min max -> ->. by apply Hql. }
  destruct (Z.eqb_spec x 42) as [->|]; [injection Eq as <- <-; cbn [orb Z.eqb]; by apply Hgen|].
  destruct (Z.eqb_spec x 43) as [->|]; [injection Eq as <- <-; cbn [orb Z.eqb]; by apply Hgen|].
  destruct (Z.eqb_spec x 63) as [->|]; [injection Eq as <- <-; cbn [orb Z.eqb]; by apply Hgen|].
  injection Eq as <- <-. cbn [orb]. apply Hsc with (f := re_here icase fuel (x :: end1)) (Q := fun k => matches icase ps e (drop k text)); done.
Qed.

Lemma match_loop_answers fuel pattern text (Q : list Z -> Prop) :
  (forall sk rest, text = sk ++ rest -> answers (re_here icase fuel pattern rest) (Q rest)) ->
  answers (match_loop icase fuel pattern text) (exists sk rest, text = sk ++ rest /\ Q rest).
Proof.
  induction text as [|c text IH]; intros Hh; cbn [match_loop];
    destruct (Hh [] _ eq_refl) as (b & -> & Hb); (destruct b; [exists true; split; [done|]; split; [intros _; eexists [], _; naive_solver|done]|]).
  - exists false. split; [done|]. split; [done|]. intros (sk & rest & Hsk & Hr). symmetry in Hsk. apply app_nil in Hsk as [-> ->]. naive_solver.
  - eapply answers_iff; [|apply IH; intros sk rest ->; by apply (Hh (c :: sk))]. split; intros (sk & rest & Hsk & Hr).
    + exists (c :: sk), rest. by rewrite Hsk.
    + destruct sk as [|c' sk]; simpl in Hsk; [subst rest; naive_solver|]. injection Hsk as -> ->. by exists sk, rest.
Qed.
End Decide.

(** C40: re_match returns, on every pattern and text, and decides the language
    of its pattern: it accepts a text exactly when some part of it, starting
    at its beginning if the pattern starts with ^ and ending at its end if it
    ends with $, is a concatenation of the pieces of the pattern, each
    repeated as its *, + or ? says. Escapes, sets with ranges and negation,
    and matching without regard to case are as in the syntax; backtracking
    loses no match. Not returning is the result [None], so the answer no is
    an answer the code gives. *)
Theorem re_match_correct pattern text icase : cstring pattern -> cstring text ->
  exists b, re_match pattern text icase = Some b /\
  (b = true <->
   exists skipped rest, text = skipped ++ rest /\ (ch pattern = 94 -> skipped = []) /\
     let '(ps, anchored) := parse (if ch pattern =? 94 then tl pattern else pattern) in matches icase ps anchored rest).
Proof.
  intros Hp Ht. change (answers (re_match pattern text icase) (exists skipped rest, text = skipped ++ rest /\ (ch pattern = 94 -> skipped = []) /\
     let '(ps, anchored) := parse (if ch pattern =? 94 then tl pattern else pattern) in matches icase ps anchored rest)).
  unfold re_match, parse. destruct (Z.eqb_spec (ch pattern) 94) as [E|E].
  - destruct pattern as [|c re]; [done|]. cbn [tl length]. assert (cstring re) by (by apply Forall_inv_tail in Hp).
    eapply answers_iff; [|apply re_here_spec; [lia|done..]]. rewrite (parse_fuel (S (S (length re))) (S (length re))) by lia.
    destruct (parse_loop _ re) as [ps e]. cbn [fst snd]. split.
    + intros Hm. by exists [], text.
    + intros (sk & rest & -> & Hs & Hm). by rewrite Hs in *.
  - eapply answers_iff; [|apply match_loop_answers; intros sk rest ->; apply re_here_spec; [lia|done|by apply cstring_suffix in Ht]].
    destruct (parse_loop _ _) as [ps e]. cbn [fst snd]. split; intros (sk & rest & ? & H); exists sk, rest; naive_solver.
Qed.

(** b[a-c]+$ in xbca: matches from the second character on; not in xbcad. *)
Lemma re_match_correct_witness :
  (exists skipped rest, [120; 98; 99; 97] = skipped ++ rest /\
    let '(ps, anchored) := parse [98; 91; 97; 45; 99; 93; 43; 36] in matches false ps anchored rest) /\
  ~ (exists skipped rest, [120; 98; 99; 97; 100] = skipped ++ rest /\
    let '(ps, anchored) := parse [98; 91; 97; 45; 99; 93; 43; 36] in matches false ps anchored rest).
Proof.
  assert (Hp : cstring [98; 91; 97; 45; 99; 93; 43; 36]) by (repeat constructor; lia). split.
  - destruct (re_match_correct [98; 91; 97; 45; 99; 93; 43; 36] [120; 98; 99; 97] false Hp ltac:(repeat constructor; lia)) as (b & Hr & Hb).
    vm_compute in Hr. injection Hr as <-. destruct (proj1 Hb eq_refl) as (sk & rest & He & _ & Hm). by exists sk, rest.
  - intros (sk & rest & He & Hm).
    destruct (re_match_correct [98; 91; 97; 45; 99; 93; 43; 36] [120; 98; 99; 97; 100] false Hp ltac:(repeat constructor; lia)) as (b & Hr & Hb).
    vm_compute in Hr. injection Hr as <-. discriminate (proj2 Hb). by exists sk, rest.
Defined.

(** ^h.l*o without regard to case, an escape, a negated set, and an opening
    bracket that is never closed. *)
Example re_examples :
  re_match [94; 104; 46; 108; 42; 111] [72; 69; 76; 76; 79; 33] true = Some true /\
  re_match [92; 42; 36] [97; 42] false = Some true /\
  re_match [94; 91; 94; 97; 98; 93; 43; 36] [99; 100] false = Some true /\
  re_match [91; 97] [91; 97] false = Some true /\
  re_match [97; 42; 98] [97; 97; 99] false = Some false.
Proof. by repeat split. Qed.
